(* ===== verification/_CoqProject ===== *)
-Q . S2P
Prelude.v
Fc.v
Config.v
AssetSymbol.v
Asset.v
Balance.v
Market.v
Authority.v
Resources.v
Validation.v
Operations.v
Transaction.v
Version.v
DelayedVoting.v
ForkDb.v
Chainbase.v
WitnessSchedule.v
Ledger.v
Transfers.v
Escrows.v
Savings.v
Conversions.v
Recurrent.v
Payouts.v
LedgerSteps.v
LedgerSamples.v
Irreversibility.v
BlockWriter.v
Governance.v
Voting.v
ResourceCredits.v
RcInvariant.v
RcCosts.v
Delegations.v
DelegationBooks.v
Application.v
ReplaySafety.v
Mempool.v
Producer.v
Vesting.v
VestingBooks.v
StakeMoves.v
StakeHistory.v
Proposals.v
ProposalBooks.v
ProposalHistory.v
ProposalSamples.v
Inflation.v
Recovery.v
RecoveryHistory.v
