(* ===== verification/Prelude.v ===== *)
(** * Pixagram node: a verification development

    Pixagram is a Hive-derived blockchain node written in C++.  Its core is a
    deterministic state machine: signed transactions made of operations are
    validated (libraries/protocol), their signatures are checked against the
    authorities of the accounts they concern, and the operations change
    balances, orders, votes and resources (libraries/chain); blocks arrive in
    any order and on several branches, and the fork database keeps the tree of
    the recent ones.  The objects of the state live in chainbase, whose undo stack
    takes back the blocks of an abandoned branch; witnesses, elected by votes,
    take turns in producing the blocks.  This library translates a part of that
    core into Rocq functions and proves what makes it correct.

    ** Files

    - [Prelude]: the error monad ([result]: a value or the kind of exception
      thrown), machine integers ([uwrap], [swrap]: wrap-around at a width
      written out), sums over lists, the tactics [result_inv], [to_prop],
      [div_lia].
    - [Fc]: the interface to the fc library, which is not part of the sources:
      the class [FcLib] has the operations the code calls (checked 64-bit
      arithmetic, 128-bit narrowing, saturation, raw packing, UTF-8 and JSON
      recognition), the class [FcLaws] what they are documented to do;
      [fc_ref] is a concrete library that satisfies the laws.
    - [Config]: the mainnet constants of protocol/config.hpp in use.
    - [AssetSymbol]: asset symbols (protocol/asset_symbol.hpp, asset.cpp):
      numeric asset identifiers with their check digit, text and wire forms.
    - [Asset]: assets, prices and conversions (protocol/asset.hpp, asset.cpp,
      hive_collateral.hpp, hbd_interest.hpp, chain/util/asset.hpp).
    - [Balance]: holders of funds (chain/util/balance.hpp) and
      [adjust_balance] of chain/database.cpp.
    - [Market]: limit orders (chain/database_market.cpp, the three evaluators of
      hive_evaluator_transfer.cpp, limit_order_object*.hpp).
    - [Authority]: authorities and account names (protocol/authority.cpp) and
      the signature check (protocol/sign_state.hpp).
    - [Validation], [Operations]: protocol/validation.hpp and the fifty regular
      operations (hive_operations.hpp and .cpp, dhf_operations.hpp and .cpp):
      one Module per operation with its fields, [validate] and the authorities
      it requires.
    - [Transaction]: the operation variant, validation of a transaction, the
      collection of required authorities and [verify_authority]
      (protocol/transaction.cpp, transaction_util.cpp, operation_util*.hpp).
    - [Resources]: manabars and resource dynamics (chain/util/manabar.hpp,
      rd.cpp).
    - [Version]: packed versions and their comparison (protocol/version.hpp).
    - [DelayedVoting]: the thirty-day queues of votes
      (chain/util/delayed_voting*.hpp and .cpp).
    - [ForkDb]: the fork database (chain/fork_database.cpp), with the shared and
      weak pointers of its items in an explicit store.
    - [Chainbase]: an index of chainbase with its undo stack, the session guard
      and the database over several indexes (chainbase.hpp, chainbase.cpp); the
      second half is an abstract specification, a stack of snapshots.
    - [WitnessSchedule]: election, virtual time, votes on hardforks, medians and
      shuffle (chain/witness_schedule.cpp), slots, votes and missed blocks
      (database_witness.cpp, database.cpp).
    - [Ledger]: every object that holds HIVE or HBD, the supply counters of
      global_property_object.hpp, [adjust_balance] and its relatives, interest on
      savings, the virtual supply and the supply part of [validate_invariants]
      (database.cpp).
    - [Transfers], [Escrows], [Savings], [Conversions], [Recurrent], [Payouts]:
      the evaluators of hive_evaluator_transfer.cpp on that ledger, and what each
      block does with the pending objects (database_market.cpp,
      database_conversion.cpp, database_dhf.cpp, [award_hbd] and
      [pay_reward_funds] of database.cpp).
    - [LedgerSteps]: the step relation of all of them together, the market
      included, and its invariant.  [LedgerSamples]: a concrete ledger and a
      history on which the theorems are applied.
    - [Irreversibility]: the search for the last irreversible block, the decision
      in a block or on a confirmation, and the move of irreversible blocks to the
      block log (chain/sync_block_writer.cpp, database.cpp).
    - [BlockWriter]: pushing a block, switching forks and the way back from a
      failed switch (chain/sync_block_writer.cpp, [pop_block] and
      [apply_block_extended] of database.cpp), on the fork database and an
      interface for the chain database.
    - [Governance]: proxies, votes for witnesses, declined rights, expiry of votes
      (database.cpp, database_witness.cpp, hive_evaluator.cpp,
      hive_evaluator_account.cpp).  [Voting]: the histories of these steps.
    - [ResourceCredits]: chain/rc: mana of resource credits (RC), their delegation,
      payment, prices and pools.  [RcInvariant]: the histories of the RC of
      accounts.  [RcCosts]: prices and usage.
    - [Delegations]: delegations of vesting shares, power downs and their routes
      (hive_evaluator_transfer.cpp, [clear_expired_delegations] of database.cpp).
      [DelegationBooks]: what they keep.
    - [Application]: [validate_transaction], [_apply_transaction], [_apply_block]
      and the Merkle root (database.cpp, full_block.cpp).  [ReplaySafety]: what
      they let through.
    - [Mempool]: the pending transactions, their undo sessions and the restorer
      around a block (database.cpp, db_with.hpp).  [Producer]: the block producer
      (plugins/witness/block_producer.cpp).
    - [Vesting]: conversion between HIVE and VESTS, power ups, claims of rewards,
      transfers of VESTS and the payouts of power downs
      (global_property_object.hpp, hive_evaluator_transfer.cpp,
      database_vesting.cpp).  [VestingBooks]: what they keep.
    - [StakeMoves], [StakeHistory]: the stake of accounts over the histories of
      [Vesting], [Delegations] and [ResourceCredits] together.
    - [Proposals]: the decentralised fund (dhf_evaluator.cpp,
      util/dhf_processor.cpp, util/dhf_helper.cpp).  [ProposalBooks],
      [ProposalHistory]: what its operations and blocks keep and pay.
      [ProposalSamples]: concrete histories of it.
    - [Inflation]: the new HIVE of a block and who gets it ([process_funds] of
      database.cpp, util/dhf_funding.hpp).
    - [Recovery]: owner authorities and account recovery
      (hive_evaluator_account.cpp, database.cpp).  [RecoveryHistory]: what a
      history guarantees.

    ** Interfaces

    Where a component calls another one whose details do not matter to it, the
    calls are a class, and its laws are what the caller relies on: [ChainDb] and
    [ChainLaws] (what the block writer needs of the chain database), [Evaluators]
    and [EvaluatorLaws] (what applying a block needs of the evaluators), [PoolLaws]
    (what the pool and the producer need of them), [VoteBook] (what a change of
    shares tells the votes).  Each law class has a concrete instance in the
    [Sample] module of a file that uses it.

    ** How the code is rendered

    A function that may throw returns a [result]; the constructor of [exn] is
    the assertion family that fails.  State is passed explicitly; an ordered
    index is a list kept in its order, a [flat_set] of names a [gset] walked in
    order where the order matters.  Integers are [Z], with the width applied
    where the code can leave it.  Code outside the repository is a class
    argument with named laws ([FcLib], [RawLib], [PowLib]).

    ** What is proved

    - Ledger: over any history of transfers, escrows, savings, conversions,
      recurrent transfers, trades and interest, the holdings add up to the supply
      counters and the audit of the chain passes; due withdrawals, expired
      escrows and matured conversions are always settled, in full and to the
      right account, within one pass; a release of escrowed funds is decided by
      those entitled to; the conversion of a reward burns the least it can.
    - Chainbase: the undo history refines a stack of snapshots for every sequence
      of operations that keeps unique keys apart; the allocation counter is
      exact; a dropped session leaves no trace.
    - Witnesses: the schedule update cannot fail while a witness has a key, seats
      are distinct and every scheduled witness has one slot in a round; nobody is
      scheduled in the past; a hardfork is decided by the quorum of those who
      produce; slots and times are inverse.
    - Market: no history of orders creates or destroys funds; matched amounts
      are at the old order's price and rounded by less than a unit; the sweep of
      expired orders returns, removes exactly those and refunds their sellers.
    - Transactions: a transaction that validates and verifies is signed for
      everything its operations require; the signature check grants nothing
      without cause, accepts what is satisfied within the recursion limit and
      stays within its limits.
    - Blocks and transactions: no transaction is applied twice on a chain; an
      applied one is signed for, in time, refers to the chain and respects the
      restricted accounts; the pool stands for the state it was applied on; a
      block that is produced in its slot is accepted.
    - Fork database: every reachable state is a well-numbered tree; a push
      extends it, a failed push is harmless, branch search returns disjoint
      branches that meet, the short-cut lookup agrees with the plain walk.
    - Block writer: a block on the head extends the chain or leaves no trace; a
      longer valid branch is adopted, while blocks may become irreversible; a
      switch to a bad one ends where it began, unless the common block is
      irreversible by then, with the bad blocks forgotten.
    - Irreversibility: the search returns a block with a quorum of the scheduled
      witnesses whenever there is one; two quorums never choose conflicting
      blocks; the irreversible block only advances, with a quorum; the block log
      gets exactly the irreversible blocks, in order and without gaps.
    - Votes: the votes of a witness are the stake of those who vote for it,
      directly or over at most four proxies, in every history; a proxy can be set
      exactly when it is allowed.
    - Stake: delegated, received and powered down shares and RC are exact and
      covered by what an account owns, over all operations that move shares;
      shares never lose value; payouts end and pay what was asked.
    - The fund: votes and proposals stay consistent, payments follow the stake
      behind a proposal within the budget and never exceed the daily pay; only
      the creator removes a proposal, and removed ones disappear.
    - Inflation: what a block issues is what it hands out, and the part of the
      fund is exact over any number of blocks.
    - Recovery: it needs the partner and a recent owner authority, both together
      get a stolen account back, and a new partner counts after thirty days.
    - Assets and symbols: comparison of prices is that of rational numbers and a
      strict weak order, conversions truncate and never gain, the check digit
      detects single errors and transpositions, binary and numeric forms round
      trip.
    - Operations: beneficiary lists and the second limit order operation are
      accepted exactly under a declarative condition.
    - Resources, delayed votes: regeneration is exact and cannot be gamed by
      splitting, the pool setup's own assertions never fail and pools converge; the
      vote queues keep their invariant, are bounded by thirty and mature completely.
    - Some theorems, most of them in the [Sample] modules, record behaviour that
      looks unintended: among others conversions that wrap to a negative amount, a
      symbol number that prints as HIVE, versions whose majors are mixed up in
      comparisons and in the tally of votes, undo of a session in which a unique
      key changed hands, the first account taken for no account, blocks in which a
      missing authority is forgiven, a delegation of RC during a delayed
      undelegation, a successful fork switch that ends in an exception, and a
      failed one that is not undone from the oldest block.

    ** Fuel

    Loops that are not structural carry fuel with a bound computed from the
    input, and a theorem shows that the bound is enough: the number of open
    orders for the expiry sweep, the number of queued entries for delayed
    voting, the number of cached unlinked blocks for [push_block], the height of
    a block for the walks in the fork database, the length of the name for
    account names, the number of pending objects for the passes over savings
    withdrawals and conversions, the depth of the undo stack for [undo_all], the
    number of scheduled witnesses for the shuffle and of missed slots for the
    missed blocks, the length of the applied chain for popping blocks, the number
    of blocks between the log and the irreversible block for writing the log, the
    number of transactions for the Merkle root, the number of payouts due for the
    power downs, the limit of four proxies for the walks over them.  The recursion of the signature check is on
    the remaining depth, the pass over recurrent transfers on its budget of 1000,
    and the passes that remove proposals, votes and RC delegations on the limit of
    a block, as in the code.

    ** What is not modelled

    The block log as a file, the network, plugins, wallet and programs are left out
    as I/O or glue, JSON and the legacy text form of assets too; genesis and the
    processing of hardforks, creation of accounts, comments with their votes and
    the distribution of their rewards, witness updates and price feeds, proofs of
    work and the counting of the resources of an operation are not modelled.
    Virtual operations are recorded and not otherwise interpreted; behaviour
    before hardforks that are long in force is left out where a file says so.  Of
    chainbase the shared-memory file and its locking are left out; the ledger draws
    the ids of its objects from one counter where the code has one per index.  The
    components are modelled on states of their own that share what they have in
    common (the ledger, the stakes, the votes); there is no single state of all. *)

From Stdlib Require Import ZArith Lia Bool.
From stdpp Require Import base numbers list strings option gmap.

Declare Scope pixa_scope.
Delimit Scope pixa_scope with pixa.
Open Scope Z_scope.

(** ** Errors and the error monad *)

(** What a throwing statement of the node throws.  The first seven are the
    subject types of the specialised protocol assertions, the next group the
    ones of the chain assertions, the rest the other exceptions the modelled
    code can raise. *)
Inductive exn : Set :=
| AssertAsset
| AssertAuthority
| AssertAccountName
| AssertNumber
| AssertString
| AssertBalance
| AssertChainAsset
| AssertFc
| Overflow
| DivideByZero
| ParseError
| BadCast
| UnlinkableBlock
| OrderMatch
| OrderFill
| AssertTime
| AssertState
| AssertLimit
| UniqueViolation
| CombinedAuthsWithPosting
| MissingPostingAuth
| MissingActiveAuth
| MissingOwnerAuth
| MissingWitnessAuth
| MissingOtherAuth
| IrrelevantSig
| DuplicateSig
| LogicError
| OutOfRange
| RuntimeError
| AssertPermission
| AssertTreasury
| AssertVoting
| PopEmptyChain
| TransactionExpiration
| TransactionTapos.

#[export] Instance exn_eq_dec : EqDecision exn.
Proof. solve_decision. Defined.

Inductive result (A : Type) : Type :=
| Ok (a : A)
| Throw (e : exn).
Arguments Ok {A} a.
Arguments Throw {A} e.

#[export] Instance result_eq_dec `{EqDecision A} : EqDecision (result A).
Proof. solve_decision. Defined.

#[export] Instance result_ret : MRet result := @Ok.
#[export] Instance result_bind : MBind result := fun A B f m =>
  match m with Ok a => f a | Throw e => Throw e end.
#[export] Instance result_fmap : FMap result := fun A B f m =>
  match m with Ok a => Ok (f a) | Throw e => Throw e end.

(** [check b e] is an assertion statement: it throws [e] unless [b] holds. *)
Definition check (b : bool) (e : exn) : result unit :=
  if b then Ok tt else Throw e.

Definition is_ok {A} (r : result A) : bool :=
  match r with Ok _ => true | Throw _ => false end.

(** A loop over a container whose body may throw. *)
Fixpoint foldM {A B} (f : B -> A -> result B) (b : B) (l : list A) : result B :=
  match l with
  | [] => Ok b
  | a :: l' => match f b a with Ok b' => foldM f b' l' | Throw e => Throw e end
  end.

Fixpoint iterM {A} (f : A -> result unit) (l : list A) : result unit :=
  match l with
  | [] => Ok tt
  | a :: l' => match f a with Ok _ => iterM f l' | Throw e => Throw e end
  end.

(** The same operation on every element of a container, in order. *)
Fixpoint mapR {A B} (f : A -> result B) (l : list A) : result (list B) :=
  match l with
  | [] => Ok []
  | a :: l' => match f a with
               | Ok b => match mapR f l' with Ok bs => Ok (b :: bs) | Throw e => Throw e end
               | Throw e => Throw e
               end
  end.

Lemma bind_Ok {A B} (f : A -> result B) m b :
  m ≫= f = Ok b <-> exists a, m = Ok a /\ f a = Ok b.
Proof.
  destruct m as [a|e]; simpl; split; [eauto|intros (a' & [= ->] & ?); done|done|].
  by intros (? & ? & _).
Qed.

Lemma bind_Throw {A B} (f : A -> result B) m e :
  m ≫= f = Throw e <-> m = Throw e \/ exists a, m = Ok a /\ f a = Throw e.
Proof. destruct m; simpl; naive_solver. Qed.

Lemma bind_assoc {A B C} (m : result A) (f : A -> result B) (g : B -> result C) :
  (m ≫= f) ≫= g = m ≫= (fun a => f a ≫= g).
Proof. by destruct m. Qed.

Lemma check_Ok b e u : check b e = Ok u <-> b = true.
Proof. destruct b, u; simpl; naive_solver. Qed.

Lemma check_Throw b e e' : check b e = Throw e' <-> b = false /\ e' = e.
Proof. destruct b; simpl; naive_solver. Qed.

Lemma check_bind_Ok {A} b e (m : unit -> result A) x :
  check b e ≫= m = Ok x <-> b = true /\ m tt = Ok x.
Proof. destruct b; simpl; naive_solver. Qed.

Lemma foldM_app {A B} (f : B -> A -> result B) b l1 l2 :
  foldM f b (l1 ++ l2) = foldM f b l1 ≫= fun b' => foldM f b' l2.
Proof. revert b. induction l1 as [|a l1 IH]; intros b; simpl; [done|]. by destruct (f b a). Qed.

Lemma iterM_Ok {A} (f : A -> result unit) l :
  iterM f l = Ok tt <-> Forall (fun a => f a = Ok tt) l.
Proof.
  induction l as [|a l IH]; simpl; [split; constructor|].
  rewrite Forall_cons, <- IH. destruct (f a) as [[]|]; naive_solver.
Qed.

Lemma mapR_Ok {A B} (f : A -> result B) l bs : mapR f l = Ok bs <-> Forall2 (fun a b => f a = Ok b) l bs.
Proof.
  revert bs. induction l as [|a l IH]; intros bs; simpl.
  { split; [intros [= <-]; constructor|intros HF; by inversion HF]. }
  split.
  - destruct (f a) eqn:E, (mapR f l) eqn:El; try done. intros [= <-]. constructor; [done|]. by apply IH.
  - intros HF. inversion HF as [|? b ? bs' E Hl]; subst. rewrite E. by rewrite (proj2 (IH bs') Hl).
Qed.

Lemma foldM_inv {A B} (P : B -> Prop) (f : B -> A -> result B) :
  (forall b a b', P b -> f b a = Ok b' -> P b') ->
  forall l b b', P b -> foldM f b l = Ok b' -> P b'.
Proof.
  intros Hf l. induction l as [|a l IH]; simpl; intros b b' Hb H; [naive_solver|].
  destruct (f b a) eqn:E; naive_solver.
Qed.

(** ** Objects with a unique key *)

Section store.
Context {A : Type} (key : A -> Z).

Definition upd (i : Z) (f : A -> A) (l : list A) : list A := (fun x => if key x =? i then f x else x) <$> l.
Definition del (i : Z) (l : list A) : list A := List.filter (fun x => negb (key x =? i)) l.
End store.

(** ** Machine integers *)

(** Unsigned wrap-around at [w] bits, and the two's-complement reading of the
    low [w] bits. *)
Definition uwrap (w x : Z) : Z := x mod 2 ^ w.
Definition swrap (w x : Z) : Z := (x + 2 ^ (w - 1)) mod 2 ^ w - 2 ^ (w - 1).

Abbreviation u8 := (uwrap 8) (only parsing).
Abbreviation u16 := (uwrap 16) (only parsing).
Abbreviation u32 := (uwrap 32) (only parsing).
Abbreviation u64 := (uwrap 64) (only parsing).
Abbreviation u128 := (uwrap 128) (only parsing).
Abbreviation u256 := (uwrap 256) (only parsing).
Abbreviation i32 := (swrap 32) (only parsing).
Abbreviation i64 := (swrap 64) (only parsing).

Definition in_u (w x : Z) : Prop := 0 <= x < 2 ^ w.
Definition in_s (w x : Z) : Prop := - 2 ^ (w - 1) <= x < 2 ^ (w - 1).

Definition in_ub (w x : Z) : bool := (0 <=? x) && (x <? 2 ^ w).
Definition in_sb (w x : Z) : bool := (- 2 ^ (w - 1) <=? x) && (x <? 2 ^ (w - 1)).

Definition int64_max : Z := 2 ^ 63 - 1.
Definition int64_min : Z := - 2 ^ 63.

Lemma in_ub_spec w x : in_ub w x = true <-> in_u w x.
Proof. unfold in_ub, in_u. rewrite andb_true_iff, Z.leb_le, Z.ltb_lt. done. Qed.

Lemma in_sb_spec w x : in_sb w x = true <-> in_s w x.
Proof. unfold in_sb, in_s. rewrite andb_true_iff, Z.leb_le, Z.ltb_lt. done. Qed.

Lemma uwrap_range w x : 0 <= w -> in_u w (uwrap w x).
Proof. intros. apply Z.mod_pos_bound. by apply Z.pow_pos_nonneg. Qed.

Lemma uwrap_id w x : in_u w x -> uwrap w x = x.
Proof. apply Z.mod_small. Qed.

Lemma swrap_range w x : 0 < w -> in_s w (swrap w x).
Proof.
  intros Hw. unfold swrap, in_s.
  assert (2 ^ w = 2 * 2 ^ (w - 1)) as Hp.
  { rewrite <- Z.pow_succ_r by lia. f_equal. lia. }
  pose proof (Z.mod_pos_bound (x + 2 ^ (w - 1)) (2 ^ w) ltac:(apply Z.pow_pos_nonneg; lia)).
  lia.
Qed.

Lemma swrap_id w x : 0 < w -> in_s w x -> swrap w x = x.
Proof.
  intros Hw [H1 H2]. unfold swrap.
  assert (2 ^ w = 2 * 2 ^ (w - 1)) as Hp.
  { rewrite <- Z.pow_succ_r by lia. f_equal. lia. }
  rewrite Z.mod_small by lia. lia.
Qed.

Lemma swrap_uwrap w x : 0 < w -> swrap w (uwrap w x) = swrap w x.
Proof.
  intros Hw. unfold swrap, uwrap. f_equal. by rewrite Zplus_mod_idemp_l.
Qed.

(** Sums may be narrowed at any time. *)
Lemma swrap_add_l w x y : swrap w (swrap w x + y) = swrap w (x + y).
Proof.
  unfold swrap. f_equal. set (h := 2 ^ (w - 1)). replace ((x + h) mod 2 ^ w - h + y + h) with ((x + h) mod 2 ^ w + y) by lia. rewrite Zplus_mod_idemp_l. f_equal. lia.
Qed.
Lemma swrap_add_r w x y : swrap w (x + swrap w y) = swrap w (x + y).
Proof. by rewrite Z.add_comm, swrap_add_l, Z.add_comm. Qed.

(** Two's-complement negation of an unsigned magnitude, narrowed to signed. *)
Lemma swrap_uwrap_opp w x : 0 < w -> in_s w (- x) -> swrap w (uwrap w (- x)) = - x.
Proof. intros. rewrite swrap_uwrap by done. by apply swrap_id. Qed.

Create HintDb pixa discriminated.
#[export] Hint Resolve uwrap_range swrap_range : pixa.

(** ** Sums over lists *)

Definition sumZ {A} (f : A -> Z) (l : list A) : Z := foldr (fun a s => f a + s) 0 l.

Lemma sumZ_app {A} (f : A -> Z) l1 l2 : sumZ f (l1 ++ l2) = sumZ f l1 + sumZ f l2.
Proof. induction l1 as [|a l1 IH]; simpl; [done|]. unfold sumZ in *. simpl. lia. Qed.

Lemma sumZ_cons {A} (f : A -> Z) a l : sumZ f (a :: l) = f a + sumZ f l.
Proof. done. Qed.

Lemma sumZ_nonneg {A} (f : A -> Z) l : Forall (fun a => 0 <= f a) l -> 0 <= sumZ f l.
Proof. induction 1; simpl; [done|]. unfold sumZ in *. simpl. lia. Qed.

Lemma filter_ext_in {A} (P Q : A -> Prop) `{!forall x, Decision (P x), !forall x, Decision (Q x)} (l : list A) :
  (forall x, x ∈ l -> P x <-> Q x) -> filter P l = filter Q l.
Proof.
  induction l as [|x l IH]; intros HPQ; [done|]. rewrite !filter_cons, IH by (intros; apply HPQ; by apply elem_of_cons; right).
  specialize (HPQ x ltac:(by apply elem_of_cons; left)). destruct (decide (P x)), (decide (Q x)); tauto.
Qed.

Lemma filter_all {A} (P : A -> Prop) `{!forall x, Decision (P x)} (l : list A) : Forall P l -> filter P l = l.
Proof. induction 1 as [|x l Hx _ IH]; [done|]. by rewrite filter_cons, decide_True, IH. Qed.

Lemma filter_none {A} (P : A -> Prop) `{!forall x, Decision (P x)} (l : list A) :
  Forall (fun x => ~ P x) l -> filter P l = [].
Proof. induction 1 as [|x l Hx _ IH]; [done|]. by rewrite filter_cons, decide_False, IH. Qed.

Lemma filterb {A} (f : A -> bool) (l : list A) : List.filter f l = filter (fun x => f x = true) l.
Proof.
  induction l as [|x l IH]; [done|]. rewrite filter_cons. simpl. rewrite IH.
  destruct (f x) eqn:E; [by rewrite decide_True|by rewrite decide_False by congruence].
Qed.

Lemma elem_of_filterb {A} (f : A -> bool) (l : list A) x : x ∈ List.filter f l <-> f x = true /\ x ∈ l.
Proof. rewrite filterb. apply (list_elem_of_filter (fun x => f x = true)). Qed.

#[global] Instance filterb_Proper {A} (f : A -> bool) : Proper ((≡ₚ) ==> (≡ₚ)) (List.filter f).
Proof. intros l1 l2 Hl. rewrite !filterb. by apply filter_Permutation. Qed.

Lemma sumZ_perm {A} (f : A -> Z) l1 l2 : l1 ≡ₚ l2 -> sumZ f l1 = sumZ f l2.
Proof. induction 1; unfold sumZ in *; simpl; lia. Qed.
#[global] Instance sumZ_Proper {A} (f : A -> Z) : Proper ((≡ₚ) ==> (=)) (sumZ f).
Proof. intros l1 l2. apply sumZ_perm. Qed.

Section sums.
Context {A : Type}.
Implicit Types (f g : A -> Z) (l : list A).

Lemma sumZ_ext f g l : (forall x, x ∈ l -> f x = g x) -> sumZ f l = sumZ g l.
Proof.
  induction l as [|x l IH]; intros H; [done|]. rewrite !sumZ_cons, IH by (intros; apply H; by right). by rewrite H by left.
Qed.
Lemma sumZ_add f g l : sumZ (fun x => f x + g x) l = sumZ f l + sumZ g l.
Proof. induction l as [|x l IH]; [done|]. rewrite !sumZ_cons, IH. lia. Qed.
Lemma sumZ_scale c f l : sumZ (fun x => c * f x) l = c * sumZ f l.
Proof. induction l as [|x l IH]; [cbn; lia|]. rewrite !sumZ_cons, IH. lia. Qed.
Lemma sumZ_zero f l : (forall x, x ∈ l -> f x = 0) -> sumZ f l = 0.
Proof. intros H. rewrite (sumZ_ext f (fun _ => 0)) by done. clear H. induction l as [|x l IH]; [done|]. by rewrite sumZ_cons, IH. Qed.
Lemma sumZ_le f g l : (forall x, x ∈ l -> f x <= g x) -> sumZ f l <= sumZ g l.
Proof.
  induction l as [|x l IH]; intros H; [cbn; lia|]. rewrite !sumZ_cons.
  assert (f x <= g x) by (apply H; by left). assert (sumZ f l <= sumZ g l) by (apply IH; intros; apply H; by right). lia.
Qed.
Lemma sumZ_fmap {B} (h : B -> A) f (l : list B) : sumZ f (h <$> l) = sumZ (fun x => f (h x)) l.
Proof. induction l as [|x l IH]; [done|]. by rewrite fmap_cons, !sumZ_cons, IH. Qed.
Lemma sumZ_member f l x : (forall y, y ∈ l -> 0 <= f y) -> x ∈ l -> f x <= sumZ f l.
Proof.
  intros Hf Hx. apply list_elem_of_split in Hx as (l1 & l2 & ->). rewrite sumZ_app, sumZ_cons.
  assert (0 <= sumZ f l1 /\ 0 <= sumZ f l2) as [] by (split; apply sumZ_nonneg, Forall_forall; intros; apply Hf; set_solver). lia.
Qed.
End sums.
Lemma sumZ_swap {A B} (f : A -> B -> Z) (l : list A) (l' : list B) : sumZ (fun x => sumZ (f x) l') l = sumZ (fun y => sumZ (fun x => f x y) l) l'.
Proof.
  induction l as [|x l IH]; [symmetry; by apply sumZ_zero|]. rewrite sumZ_cons, IH, <- sumZ_add.
  apply sumZ_ext. intros y _. by rewrite sumZ_cons.
Qed.

(** The one element that satisfies [P], where keys are unique. *)
Lemma unique_split {A K} (key : A -> K) (P : A -> bool) l x : NoDup (key <$> l) -> x ∈ l -> P x = true -> (forall y, y ∈ l -> P y = true -> key y = key x) ->
  l ≡ₚ x :: filter (fun y => P y = false) l /\ forall f : A -> A, (fun y => if P y then f y else y) <$> l ≡ₚ f x :: filter (fun y => P y = false) l.
Proof.
  induction l as [|y l IH]; [by intros _ ?%not_elem_of_nil|]. rewrite fmap_cons. intros [Hy Hn]%NoDup_cons Hin Px Hu. destruct (P y) eqn:Py.
  - assert (y = x) as ->.
    { apply elem_of_cons in Hin as [->|Hin]; [done|]. exfalso. apply Hy. rewrite (Hu y) by (left || done). by apply list_elem_of_fmap_2. }
    assert (Forall (fun y => P y = false) l) as Hl.
    { apply Forall_forall. intros z Hz. destruct (P z) eqn:Pz; [|done]. exfalso. apply Hy. rewrite <- (Hu z) by (by right || done). by apply list_elem_of_fmap_2. }
    rewrite filter_cons, decide_False by congruence. rewrite filter_all by done. split; [done|]. intros f. rewrite fmap_cons, Py. apply perm_skip.
    apply reflexive_eq. rewrite <- (list_fmap_id l) at 2. apply list_fmap_ext. intros k z Hk. apply list_elem_of_lookup_2 in Hk. rewrite Forall_forall in Hl. by rewrite (Hl z Hk).
  - apply elem_of_cons in Hin as [->|Hin]; [congruence|]. destruct (IH Hn Hin Px) as [E1 E2]; [intros z Hz; apply Hu; by right|]. rewrite filter_cons, decide_True by done. split.
    + rewrite E1 at 1. apply perm_swap.
    + intros f. rewrite fmap_cons, Py, (E2 f). apply perm_swap.
Qed.

(** *** Sums over a store *)

Section store_lemmas.
Context {A : Type} (key : A -> Z).
Implicit Types (l : list A) (x : A).

Lemma upd_absent i f l : i ∉ key <$> l -> upd key i f l = l /\ del key i l = l.
Proof.
  induction l as [|x l IH]; [done|]. rewrite fmap_cons, not_elem_of_cons. intros [Hx Hl]. destruct (IH Hl) as [E1 E2].
  unfold upd, del in *. rewrite fmap_cons. cbn [List.filter]. rewrite (proj2 (Z.eqb_neq _ _)) by congruence. cbn. by rewrite E1, E2.
Qed.

Lemma store_split l x : NoDup (key <$> l) -> x ∈ l ->
  l ≡ₚ x :: del key (key x) l /\ forall f, upd key (key x) f l ≡ₚ f x :: del key (key x) l.
Proof.
  induction l as [|y l IH]; [by intros _ ?%not_elem_of_nil|]. rewrite fmap_cons. intros [Hy Hn]%NoDup_cons Hin.
  apply elem_of_cons in Hin as [->|Hin].
  - unfold upd, del. cbn [List.filter fmap list_fmap]. rewrite Z.eqb_refl. cbn.
    split; [|intros f]; (apply perm_skip; apply reflexive_eq); [symmetry; by apply upd_absent with (f := fun x => x)|].
    destruct (upd_absent (key y) f l Hy) as [E1 E2]. unfold upd, del in *. by rewrite E1, E2.
  - destruct (IH Hn Hin) as [E1 E2]. assert (key y <> key x) as Hne.
    { intros E. apply Hy. rewrite E. by apply list_elem_of_fmap_2. }
    unfold upd, del in *. cbn [List.filter fmap list_fmap]. rewrite (proj2 (Z.eqb_neq _ _)) by done. cbn. split.
    + rewrite E1 at 1. apply perm_swap.
    + intros f. rewrite (E2 f). apply perm_swap.
Qed.

Lemma sumZ_upd (g : A -> Z) l x f : NoDup (key <$> l) -> x ∈ l -> sumZ g (upd key (key x) f l) = sumZ g l - g x + g (f x).
Proof. intros Hn Hx. destruct (store_split l x Hn Hx) as [E1 E2]. rewrite (E2 f), (sumZ_perm g _ _ E1), !sumZ_cons. lia. Qed.

Lemma sumZ_del (g : A -> Z) l x : NoDup (key <$> l) -> x ∈ l -> sumZ g (del key (key x) l) = sumZ g l - g x.
Proof. intros Hn Hx. destruct (store_split l x Hn Hx) as [E1 _]. rewrite (sumZ_perm g _ _ E1), sumZ_cons. lia. Qed.

Lemma upd_keys i f l : (forall x, key (f x) = key x) -> key <$> upd key i f l = key <$> l.
Proof. intros Hf. unfold upd. rewrite <- list_fmap_compose. apply list_fmap_ext. intros k x _. cbn. destruct (_ =? _); auto. Qed.

Lemma upd_Forall (P : A -> Prop) i f l : Forall P l -> (forall x, x ∈ l -> key x = i -> P x -> P (f x)) -> Forall P (upd key i f l).
Proof.
  intros Hl Hf. unfold upd. apply Forall_fmap, Forall_forall. intros x Hx. cbn. rewrite Forall_forall in Hl.
  destruct (Z.eqb_spec (key x) i); auto.
Qed.

(** The updated element is found under its key. *)
Lemma upd_elem f l x : x ∈ l -> f x ∈ upd key (key x) f l.
Proof. intros Hx. unfold upd. apply list_elem_of_fmap. exists x. by rewrite Z.eqb_refl. Qed.

Lemma del_subset i l x : x ∈ del key i l -> x ∈ l.
Proof. intros H. unfold del in H. apply elem_of_filterb in H. tauto. Qed.

Lemma del_Forall (P : A -> Prop) i l : Forall P l -> Forall P (del key i l).
Proof. rewrite !Forall_forall. eauto using del_subset. Qed.

Lemma del_NoDup i l : NoDup (key <$> l) -> NoDup (key <$> del key i l).
Proof.
  induction l as [|x l IH]; [done|]. rewrite fmap_cons. intros [Hx Hl]%NoDup_cons. unfold del in *. cbn.
  destruct (negb _); [|auto]. rewrite fmap_cons. apply NoDup_cons. split; [|auto].
  intros Hin. apply Hx. apply list_elem_of_fmap in Hin as (y & -> & Hy). apply list_elem_of_fmap_2. by eapply del_subset.
Qed.

Lemma del_length l x : NoDup (key <$> l) -> x ∈ l -> length (del key (key x) l) = pred (length l).
Proof. intros Hn Hx. destruct (store_split l x Hn Hx) as [E1 _]. by rewrite (Permutation_length E1). Qed.

Lemma find_key_Some (P : A -> bool) l x : List.find P l = Some x -> x ∈ l /\ P x = true.
Proof. intros H. apply List.find_some in H as [H1 H2]. split; [by apply list_elem_of_In|done]. Qed.

Lemma key_inj l x y : NoDup (key <$> l) -> x ∈ l -> y ∈ l -> key x = key y -> x = y.
Proof.
  intros Hn Hx Hy Hk. apply list_elem_of_lookup in Hx as [i Hi]. apply list_elem_of_lookup in Hy as [j Hj].
  assert (i = j) as ->; [|congruence]. eapply (NoDup_lookup (key <$> l)); [done| |]; rewrite list_lookup_fmap.
  - by rewrite Hi.
  - rewrite Hj. cbn. by rewrite Hk.
Qed.

Lemma find_key_unique l x : NoDup (key <$> l) -> x ∈ l -> List.find (fun y => key y =? key x) l = Some x.
Proof.
  intros Hn Hx. destruct (List.find _ _) as [y|] eqn:E.
  - apply find_key_Some in E as [Hy Hk]. apply Z.eqb_eq in Hk. f_equal. by apply (key_inj l).
  - apply list_elem_of_In in Hx. pose proof (List.find_none _ _ E _ Hx) as Hf. cbn in Hf. by rewrite Z.eqb_refl in Hf.
Qed.
End store_lemmas.

(** ** Sums over maps *)

Definition sumM `{Countable K} {A} (f : A -> Z) (m : gmap K A) : Z :=
  map_fold (fun _ a s => f a + s) 0 m.

Lemma sumM_insert_new `{Countable K} {A} (f : A -> Z) (m : gmap K A) k a :
  m !! k = None -> sumM f (<[k:=a]> m) = f a + sumM f m.
Proof. intros Hk. unfold sumM. rewrite map_fold_insert_L; [done| |done]. intros. lia. Qed.

Lemma sumM_delete `{Countable K} {A} (f : A -> Z) (m : gmap K A) k a :
  m !! k = Some a -> sumM f m = f a + sumM f (delete k m).
Proof. intros Hk. unfold sumM. rewrite (map_fold_delete_L _ _ k a m); [done| |done]. intros. lia. Qed.

Lemma sumM_update `{Countable K} {A} (f : A -> Z) (m : gmap K A) k a b :
  m !! k = Some a -> sumM f (<[k:=b]> m) = sumM f m - f a + f b.
Proof.
  intros Hk. rewrite (sumM_delete f m k a) by done. rewrite <- insert_delete_eq.
  rewrite sumM_insert_new by apply lookup_delete_eq. lia.
Qed.

Lemma sumM_nonneg `{Countable K} {A} (f : A -> Z) (m : gmap K A) :
  map_Forall (fun _ a => 0 <= f a) m -> 0 <= sumM f m.
Proof.
  induction m as [|k a m Hk IH] using map_ind; intros Hm; [by unfold sumM; rewrite map_fold_empty|].
  apply map_Forall_insert in Hm as [? ?]; [|done]. rewrite sumM_insert_new by done.
  specialize (IH ltac:(done)). lia.
Qed.

Lemma sumM_lookup_le `{Countable K} {A} (f : A -> Z) (m : gmap K A) k a :
  map_Forall (fun _ a => 0 <= f a) m -> m !! k = Some a -> f a <= sumM f m.
Proof.
  intros Hm Hk. rewrite (sumM_delete f m k a) by done.
  pose proof (sumM_nonneg f (delete k m) ltac:(by apply map_Forall_delete)). lia.
Qed.

(** ** Tactics *)

(** Splits a successful run of the error monad into its steps. *)
Ltac result_step :=
  match goal with
  | H : _ ≫= _ = Ok _ |- _ => apply bind_Ok in H as (? & ? & ?)
  | H : mbind _ _ = Ok _ |- _ => apply bind_Ok in H as (? & ? & ?)
  | H : check _ _ = Ok _ |- _ => apply check_Ok in H
  | H : Ok _ = Ok _ |- _ => injection H as H; try subst
  | H : Throw _ = Ok _ |- _ => discriminate H
  | H : Ok _ = Throw _ |- _ => discriminate H
  | H : (if ?b then _ else _) = Ok _ |- _ => let E := fresh "E" in destruct b eqn:E
  | H : match ?x with _ => _ end = Ok _ |- _ => let E := fresh "E" in destruct x eqn:E
  end.
Ltac result_inv := repeat result_step; try discriminate.

(** Turns the boolean tests of the code into propositions. *)
Ltac to_prop :=
  repeat match goal with
  | H : _ && _ = true |- _ => apply andb_true_iff in H as [? ?]
  | H : _ || _ = false |- _ => apply orb_false_iff in H as [? ?]
  | H : negb _ = true |- _ => apply negb_true_iff in H
  | H : negb _ = false |- _ => apply negb_false_iff in H
  | H : (_ <=? _) = true |- _ => apply Z.leb_le in H
  | H : (_ <=? _) = false |- _ => apply Z.leb_gt in H
  | H : (_ <? _) = true |- _ => apply Z.ltb_lt in H
  | H : (_ <? _) = false |- _ => apply Z.ltb_ge in H
  | H : (_ =? _) = true |- _ => apply Z.eqb_eq in H
  | H : (_ =? _) = false |- _ => apply Z.eqb_neq in H
  | H : bool_decide _ = true |- _ => apply bool_decide_eq_true in H
  | H : bool_decide _ = false |- _ => apply bool_decide_eq_false in H
  end.

(** Linear arithmetic with division and remainder by constants. *)
Ltac div_lia := intros; Z.to_euclidean_division_equations; lia.
