(* ===== verification/Fc.v ===== *)
(** * The interface to code outside the repository

    The node is written against the [fc] utility library and Boost, which are
    not part of the repository.  What the modelled code calls of them is
    collected here as the operations of the class [FcLib]; the documented
    behaviour the proofs rely on is the class [FcLaws].  Every model that
    reaches such a call takes the operations as a parameter, every theorem
    that depends on their behaviour takes the laws, and [fc_ref] with
    [fc_ref_laws] is one concrete library that satisfies them. *)

From stdpp Require Import base numbers strings option list gmap.
From S2P Require Import Prelude.
Open Scope Z_scope.

(** ** Decimal text *)

Definition char_code (c : Ascii.ascii) : Z := Z.of_nat (Ascii.nat_of_ascii c).
Definition chr (n : Z) : Ascii.ascii := Ascii.ascii_of_nat (Z.to_nat n).

Definition is_digit (c : Ascii.ascii) : bool :=
  (48 <=? char_code c) && (char_code c <=? 57).

(** Value of a string of decimal digits, most significant first. *)
Fixpoint dec_value_acc (acc : Z) (s : string) : Z :=
  match s with
  | EmptyString => acc
  | String c s' => dec_value_acc (acc * 10 + (char_code c - 48)) s'
  end.
Definition dec_value : string -> Z := dec_value_acc 0.

Fixpoint all_digits (s : string) : bool :=
  match s with
  | EmptyString => true
  | String c s' => is_digit c && all_digits s'
  end.

Definition is_decimal (s : string) : bool :=
  match s with EmptyString => false | _ => all_digits s end.

(** ** Little-endian byte images *)

(** The [n] low bytes of [x], least significant first, and the integer that a
    byte image denotes when it is copied over a zeroed little-endian integer. *)
Fixpoint le_bytes (n : nat) (x : Z) : list Z :=
  match n with
  | O => []
  | S n' => x mod 256 :: le_bytes n' (x / 256)
  end.

Fixpoint le_value (bs : list Z) : Z :=
  match bs with
  | [] => 0
  | b :: bs' => b + 256 * le_value bs'
  end.

Lemma le_bytes_length n x : length (le_bytes n x) = n.
Proof. revert x. induction n; simpl; congruence. Qed.

Lemma le_value_bytes n x : le_value (le_bytes n x) = x mod 256 ^ Z.of_nat n.
Proof.
  revert x. induction n as [|n IH]; intros x; [by rewrite Z.mod_1_r|].
  rewrite Nat2Z.inj_succ, Z.pow_succ_r by lia. cbn [le_bytes le_value]. rewrite IH.
  rewrite Z.rem_mul_r; [done|lia|]. apply Z.pow_pos_nonneg; lia.
Qed.

Lemma le_value_app bs1 bs2 :
  le_value (bs1 ++ bs2) = le_value bs1 + 256 ^ Z.of_nat (length bs1) * le_value bs2.
Proof.
  induction bs1 as [|b bs1 IH]; [simpl; lia|].
  cbn [app le_value length]. rewrite IH, Nat2Z.inj_succ, Z.pow_succ_r by lia. lia.
Qed.

Lemma le_bytes_app n m x :
  le_bytes (n + m) x = le_bytes n x ++ le_bytes m (x / 256 ^ Z.of_nat n).
Proof.
  revert x. induction n as [|n IH]; intros x; [by rewrite Z.div_1_r|].
  cbn [Nat.add le_bytes app]. rewrite IH, Nat2Z.inj_succ, Z.pow_succ_r by lia.
  rewrite Z.div_div; [done|lia|apply Z.pow_pos_nonneg; lia].
Qed.

(** ** Operations *)

Class FcLib : Type := {
  (* fc::safe<int64_t> (share_type): arithmetic that throws on overflow *)
  safe_add : Z -> Z -> result Z;
  safe_sub : Z -> Z -> result Z;
  safe_neg : Z -> result Z;
  safe_mul : Z -> Z -> result Z;
  (* fc::safe<uint64_t> (ushare_type) *)
  usafe_add : Z -> Z -> result Z;
  usafe_sub : Z -> Z -> result Z;
  (* construction of a share_type from a uint64_t *)
  share_of_u64 : Z -> Z;
  (* fc/uint128.hpp *)
  uint128_to_uint64 : Z -> result Z;
  uint128_to_int64 : Z -> result Z;
  uint128_approx_sqrt : Z -> Z;
  (* fc/saturation.hpp *)
  signed_sat_add : Z -> Z -> Z;
  signed_sat_sub : Z -> Z -> Z;
  (* boost::lexical_cast< uint32_t > *)
  lexical_cast_u32 : string -> result Z;
  (* fc/utf8.hpp, fc/io/json.hpp *)
  is_utf8 : string -> bool;
  json_fast_is_valid : string -> bool;
  json_is_valid_relaxed : string -> bool;
  (* fc::raw::pack of unsigned integers, and Stream::read of n bytes *)
  raw_pack_u32 : Z -> list Z;
  raw_pack_u64 : Z -> list Z;
  stream_read : nat -> list Z -> result (list Z * list Z);
  (* fc/bitutil.hpp *)
  endian_reverse_u32 : Z -> Z
}.

(** ** Laws *)

Definition clamp64 (x : Z) : Z := Z.max int64_min (Z.min int64_max x).

Class FcLaws (L : FcLib) : Prop := {
  safe_add_exact a b : in_s 64 a -> in_s 64 b -> in_s 64 (a + b) -> safe_add a b = Ok (a + b);
  safe_add_overflow a b : in_s 64 a -> in_s 64 b -> ~ in_s 64 (a + b) -> safe_add a b = Throw Overflow;
  safe_sub_exact a b : in_s 64 a -> in_s 64 b -> in_s 64 (a - b) -> safe_sub a b = Ok (a - b);
  safe_sub_overflow a b : in_s 64 a -> in_s 64 b -> ~ in_s 64 (a - b) -> safe_sub a b = Throw Overflow;
  safe_neg_exact a : in_s 64 a -> in_s 64 (- a) -> safe_neg a = Ok (- a);
  safe_mul_exact a b : in_s 64 a -> in_s 64 b -> in_s 64 (a * b) -> safe_mul a b = Ok (a * b);
  safe_mul_overflow a b : in_s 64 a -> in_s 64 b -> ~ in_s 64 (a * b) -> safe_mul a b = Throw Overflow;
  usafe_add_exact a b : in_u 64 a -> in_u 64 b -> in_u 64 (a + b) -> usafe_add a b = Ok (a + b);
  usafe_add_overflow a b : in_u 64 a -> in_u 64 b -> ~ in_u 64 (a + b) -> usafe_add a b = Throw Overflow;
  usafe_sub_exact a b : in_u 64 a -> in_u 64 b -> in_u 64 (a - b) -> usafe_sub a b = Ok (a - b);
  usafe_sub_overflow a b : in_u 64 a -> in_u 64 b -> ~ in_u 64 (a - b) -> usafe_sub a b = Throw Overflow;
  share_of_u64_narrow x : in_u 64 x -> share_of_u64 x = i64 x;
  uint128_to_uint64_fits x : in_u 64 x -> uint128_to_uint64 x = Ok x;
  uint128_to_uint64_range x y : uint128_to_uint64 x = Ok y -> in_u 64 y;
  uint128_to_int64_fits x : 0 <= x < 2 ^ 63 -> uint128_to_int64 x = Ok x;
  signed_sat_add_clamps a b : in_s 64 a -> in_s 64 b -> signed_sat_add a b = clamp64 (a + b);
  signed_sat_sub_clamps a b : in_s 64 a -> in_s 64 b -> signed_sat_sub a b = clamp64 (a - b);
  lexical_cast_u32_decimal s :
    is_decimal s = true -> in_u 32 (dec_value s) -> lexical_cast_u32 s = Ok (dec_value s);
  raw_pack_u32_le x : in_u 32 x -> raw_pack_u32 x = le_bytes 4 x;
  raw_pack_u64_le x : in_u 64 x -> raw_pack_u64 x = le_bytes 8 x;
  stream_read_prefix bs rest : stream_read (length bs) (bs ++ rest) = Ok (bs, rest);
  endian_reverse_u32_bytes x : in_u 32 x -> endian_reverse_u32 x = le_value (rev (le_bytes 4 x))
}.

(** ** Consequences shared by the components *)

Section consequences.
Context `{L : FcLib} `{!FcLaws L}.

Lemma in_s_dec w x : in_s w x \/ ~ in_s w x.
Proof. unfold in_s. lia. Qed.
Lemma in_u_dec w x : in_u w x \/ ~ in_u w x.
Proof. unfold in_u. lia. Qed.

Lemma safe_add_Ok a b c :
  in_s 64 a -> in_s 64 b -> safe_add a b = Ok c -> c = a + b /\ in_s 64 c.
Proof.
  intros Ha Hb H. destruct (in_s_dec 64 (a + b)) as [Hr|Hr].
  - rewrite safe_add_exact in H by done. naive_solver.
  - by rewrite safe_add_overflow in H.
Qed.

Lemma safe_sub_Ok a b c :
  in_s 64 a -> in_s 64 b -> safe_sub a b = Ok c -> c = a - b /\ in_s 64 c.
Proof.
  intros Ha Hb H. destruct (in_s_dec 64 (a - b)) as [Hr|Hr].
  - rewrite safe_sub_exact in H by done. naive_solver.
  - by rewrite safe_sub_overflow in H.
Qed.

Lemma safe_mul_Ok a b c :
  in_s 64 a -> in_s 64 b -> safe_mul a b = Ok c -> c = a * b /\ in_s 64 c.
Proof.
  intros Ha Hb H. destruct (in_s_dec 64 (a * b)) as [Hr|Hr].
  - rewrite safe_mul_exact in H by done. naive_solver.
  - by rewrite safe_mul_overflow in H.
Qed.

Lemma usafe_add_Ok a b c :
  in_u 64 a -> in_u 64 b -> usafe_add a b = Ok c -> c = a + b /\ in_u 64 c.
Proof.
  intros Ha Hb H. destruct (in_u_dec 64 (a + b)) as [Hr|Hr].
  - rewrite usafe_add_exact in H by done. naive_solver.
  - by rewrite usafe_add_overflow in H.
Qed.

Lemma usafe_sub_Ok a b c :
  in_u 64 a -> in_u 64 b -> usafe_sub a b = Ok c -> c = a - b /\ in_u 64 c.
Proof.
  intros Ha Hb H. destruct (in_u_dec 64 (a - b)) as [Hr|Hr].
  - rewrite usafe_sub_exact in H by done. naive_solver.
  - by rewrite usafe_sub_overflow in H.
Qed.

(** Reversing the four bytes of a 32-bit word twice gives it back. *)
Lemma endian_reverse_u32_involutive x : in_u 32 x ->
  endian_reverse_u32 (endian_reverse_u32 x) = x /\ in_u 32 (endian_reverse_u32 x).
Proof.
  intros Hx.
  assert (in_u 32 (endian_reverse_u32 x)) as Hr.
  { rewrite endian_reverse_u32_bytes by done. unfold in_u in *. cbn. div_lia. }
  split; [|done].
  rewrite (endian_reverse_u32_bytes (endian_reverse_u32 x)) by done.
  rewrite endian_reverse_u32_bytes by done.
  unfold in_u in *. cbn. div_lia.
Qed.

Lemma clamp64_range x : in_s 64 (clamp64 x).
Proof. unfold clamp64, in_s, int64_min, int64_max. lia. Qed.

Lemma clamp64_id x : in_s 64 x -> clamp64 x = x.
Proof. unfold clamp64, in_s, int64_min, int64_max. lia. Qed.
End consequences.

(** ** A concrete library *)

Definition exact_s64 (x : Z) : result Z := if in_sb 64 x then Ok x else Throw Overflow.
Definition exact_u64 (x : Z) : result Z := if in_ub 64 x then Ok x else Throw Overflow.

Definition fc_ref : FcLib := {|
  safe_add a b := exact_s64 (a + b);
  safe_sub a b := exact_s64 (a - b);
  safe_neg a := exact_s64 (- a);
  safe_mul a b := exact_s64 (a * b);
  usafe_add a b := exact_u64 (a + b);
  usafe_sub a b := exact_u64 (a - b);
  share_of_u64 x := i64 x;
  uint128_to_uint64 x := if in_ub 64 x then Ok x else Throw AssertFc;
  uint128_to_int64 x := if in_ub 63 x then Ok x else Throw AssertFc;
  uint128_approx_sqrt x := Z.sqrt x;
  signed_sat_add a b := clamp64 (a + b);
  signed_sat_sub a b := clamp64 (a - b);
  lexical_cast_u32 s := if is_decimal s && in_ub 32 (dec_value s) then Ok (dec_value s) else Throw BadCast;
  is_utf8 s := true;
  json_fast_is_valid s := true;
  json_is_valid_relaxed s := true;
  raw_pack_u32 x := le_bytes 4 x;
  raw_pack_u64 x := le_bytes 8 x;
  stream_read n s := if (n <=? length s)%nat then Ok (take n s, drop n s) else Throw AssertFc;
  endian_reverse_u32 x := le_value (rev (le_bytes 4 x))
|}.

Lemma exact_s64_in x : in_s 64 x -> exact_s64 x = Ok x.
Proof. intros H. unfold exact_s64. by rewrite (proj2 (in_sb_spec 64 x) H). Qed.
Lemma exact_s64_out x : ~ in_s 64 x -> exact_s64 x = Throw Overflow.
Proof. intros H. unfold exact_s64. destruct (in_sb 64 x) eqn:E; [|done]. by apply in_sb_spec in E. Qed.
Lemma exact_u64_in x : in_u 64 x -> exact_u64 x = Ok x.
Proof. intros H. unfold exact_u64. by rewrite (proj2 (in_ub_spec 64 x) H). Qed.
Lemma exact_u64_out x : ~ in_u 64 x -> exact_u64 x = Throw Overflow.
Proof. intros H. unfold exact_u64. destruct (in_ub 64 x) eqn:E; [|done]. by apply in_ub_spec in E. Qed.

Lemma fc_ref_laws : FcLaws fc_ref.
Proof.
  constructor; intros; cbn [safe_add safe_sub safe_neg safe_mul usafe_add usafe_sub share_of_u64
    uint128_to_uint64 uint128_to_int64 signed_sat_add signed_sat_sub lexical_cast_u32
    raw_pack_u32 raw_pack_u64 stream_read endian_reverse_u32 fc_ref];
    auto using exact_s64_in, exact_s64_out, exact_u64_in, exact_u64_out.
  - by rewrite (proj2 (in_ub_spec 64 x) H).
  - cbn [uint128_to_uint64 fc_ref] in H. destruct (in_ub 64 x) eqn:E; [|done]. injection H as <-. by apply in_ub_spec.
  - by rewrite (proj2 (in_ub_spec 63 x) H).
  - by rewrite H, (proj2 (in_ub_spec 32 _) H0).
  - rewrite length_app, (proj2 (Nat.leb_le _ _)) by lia. by rewrite take_app_length, drop_app_length.
Qed.
