(* ===== verification/Config.v ===== *)
(** * Protocol constants

    The constants of libraries/protocol/include/hive/protocol/config.hpp that
    the modelled code uses, with their mainnet values. *)

From stdpp Require Import base numbers strings.
From S2P Require Import Prelude.
Open Scope Z_scope.

Definition HIVE_BLOCK_INTERVAL : Z := 3.
Definition HIVE_MAX_WITNESSES : Z := 21.

Definition HIVE_100_PERCENT : Z := 10000.
Definition HIVE_1_PERCENT : Z := HIVE_100_PERCENT / 100.

Definition HIVE_DELAYED_VOTING_TOTAL_INTERVAL_SECONDS : Z := 60 * 60 * 24 * 30.
Definition HIVE_DELAYED_VOTING_INTERVAL_SECONDS : Z := 60 * 60 * 24 * 1.

Definition HIVE_CONVERSION_COLLATERAL_RATIO : Z := 2 * HIVE_100_PERCENT.
Definition HIVE_COLLATERALIZED_CONVERSION_FEE : Z := 5 * HIVE_1_PERCENT.

Definition HIVE_MIN_RECURRENT_TRANSFERS_RECURRENCE : Z := 24.
Definition HIVE_MAX_MEMO_SIZE : Z := 2048.
Definition HIVE_VOTING_MANA_REGENERATION_SECONDS : Z := 5 * 60 * 60 * 24.
Definition HIVE_CONTENT_CONSTANT_HF0 : Z := 2000000000000.
Definition HIVE_MIN_PAYOUT_HBD : Z := 20.

Definition HIVE_MIN_ACCOUNT_CREATION_FEE : Z := 1.
Definition HIVE_MAX_ACCOUNT_CREATION_FEE : Z := 1000000000.
Definition HIVE_MIN_ACCOUNT_NAME_LENGTH : Z := 3.
Definition HIVE_MAX_ACCOUNT_NAME_LENGTH : Z := 16.
Definition HIVE_MAX_PERMLINK_LENGTH : Z := 256.
Definition HIVE_MAX_WITNESS_URL_LENGTH : Z := 2048.
Definition HIVE_COMMENT_TITLE_LIMIT : Z := 256.
Definition HIVE_BENEFICIARY_LIMIT : Z := 128.
Definition HIVE_CUSTOM_OP_ID_MAX_LENGTH : Z := 32.
Definition HIVE_CUSTOM_OP_DATA_MAX_LENGTH : Z := 65536.
Definition HIVE_MAX_AUTHORITY_MEMBERSHIP : Z := 40.

Definition HIVE_MAX_SATOSHIS : Z := 4611686018427387903.
Definition HIVE_MAX_SIG_CHECK_DEPTH : Z := 2.
Definition HIVE_MAX_SIG_CHECK_ACCOUNTS : Z := 125.
Definition HIVE_MAX_LIMIT_ORDER_EXPIRATION : Z := 60 * 60 * 24 * 28.
Definition HIVE_SECONDS_PER_YEAR : Z := 60 * 60 * 24 * 365.
Definition HIVE_MAX_TRANSACTION_SIZE : Z := 1024 * 128.
Definition HIVE_MIN_BLOCK_SIZE_LIMIT : Z := HIVE_MAX_TRANSACTION_SIZE.
Definition HIVE_MAX_BLOCK_SIZE : Z := 2 * 1024 * 1024.

Definition HIVE_RD_MIN_DECAY_BITS : Z := 6.
Definition HIVE_RD_DECAY_DENOM_SHIFT : Z := 36.
Definition HIVE_RD_MAX_POOL_BITS : Z := 64.
Definition HIVE_RD_MAX_BUDGET_1 : Z :=
  u64 (Z.shiftl 1 (HIVE_RD_MAX_POOL_BITS + HIVE_RD_MIN_DECAY_BITS - HIVE_RD_DECAY_DENOM_SHIFT)) - 1.
Definition HIVE_RD_MAX_BUDGET_2 : Z := u64 (Z.shiftl 1 (64 - HIVE_RD_DECAY_DENOM_SHIFT)) - 1.
Definition HIVE_RD_MAX_BUDGET_3 : Z := 2 ^ 31 - 1.
Definition HIVE_RD_MAX_BUDGET : Z :=
  i32 (Z.min HIVE_RD_MAX_BUDGET_1 (Z.min HIVE_RD_MAX_BUDGET_2 HIVE_RD_MAX_BUDGET_3)).
Definition HIVE_RD_MIN_DECAY : Z := u32 (Z.shiftl 1 HIVE_RD_MIN_DECAY_BITS).
Definition HIVE_RD_MIN_BUDGET : Z := 1.
Definition HIVE_RD_MAX_DECAY : Z := 0xFFFFFFFF.

Definition PIXA_ICO_ACCOUNT : string := "pixa.rex".
Definition PIXA_TEAM_ACCOUNT : string := "pixa.team".
Definition HIVE_NULL_ACCOUNT : string := "null".
Definition HIVE_PROXY_TO_SELF_ACCOUNT : string := "".
Definition HIVE_EQUIHASH_N : Z := 140.
Definition HIVE_EQUIHASH_K : Z := 6.
Definition HIVE_PROPOSAL_SUBJECT_MAX_LENGTH : Z := 80.
Definition HIVE_PROPOSAL_MAX_IDS_NUMBER : Z := 5.

Definition HIVE_HARDFORK_REQUIRED_WITNESSES : Z := 17.
Definition HIVE_ACCOUNT_SUBSIDY_PRECISION : Z := HIVE_100_PERCENT.
Definition HIVE_WITNESS_SUBSIDY_BUDGET_PERCENT : Z := 125 * HIVE_1_PERCENT.
Definition HIVE_WITNESS_SUBSIDY_DECAY_PERCENT : Z := HIVE_MAX_WITNESSES * HIVE_100_PERCENT.
Definition HIVE_DECAY_BACKSTOP_PERCENT : Z := 90 * HIVE_1_PERCENT.
Definition HIVE_VIRTUAL_SCHEDULE_LAP_LENGTH2 : Z := 2 ^ 128 - 1.
Definition HIVE_IRREVERSIBLE_THRESHOLD : Z := 75 * HIVE_1_PERCENT.
Definition HIVE_MAX_UNDO_HISTORY : Z := 10000.
Definition HIVE_GENESIS_TIME : Z := 1788523200.
Definition HIVE_HBD_INTEREST_COMPOUND_INTERVAL_SEC : Z := 60 * 60 * 24 * 30.
Definition HIVE_MAX_PENDING_TRANSFERS : Z := 255.
Definition HIVE_MAX_OPEN_RECURRENT_TRANSFERS : Z := 255.
Definition HIVE_MAX_CONSECUTIVE_RECURRENT_TRANSFER_FAILURES : Z := 10.
Definition HIVE_MAX_RECURRENT_TRANSFER_END_DATE : Z := 730.
Definition HIVE_MAX_RECURRENT_TRANSFERS_PER_BLOCK : Z := 1000.
Definition HIVE_SAVINGS_WITHDRAW_TIME : Z := 60 * 60 * 24 * 3.
Definition HIVE_SAVINGS_WITHDRAW_REQUEST_LIMIT : Z := 100.
Definition HIVE_BLOCKS_PER_HOUR : Z := 60 * 60 / HIVE_BLOCK_INTERVAL.
Definition HIVE_FEED_HISTORY_WINDOW : Z := 12 * 7.
Definition HIVE_CONVERSION_DELAY : Z := HIVE_FEED_HISTORY_WINDOW * HIVE_BLOCKS_PER_HOUR * HIVE_BLOCK_INTERVAL.
Definition HIVE_BLOCKS_PER_DAY : Z := 24 * 60 * 60 / HIVE_BLOCK_INTERVAL.
Definition HIVE_START_MINER_VOTING_BLOCK : Z := HIVE_BLOCKS_PER_DAY * 30.

Definition HIVE_MAX_PROXY_RECURSION_DEPTH : Z := 4.
Definition HIVE_MAX_ACCOUNT_WITNESS_VOTES : Z := 30.
Definition HIVE_GOVERNANCE_VOTE_EXPIRATION_PERIOD : Z := 365 * 86400.
Definition HIVE_OWNER_AUTH_RECOVERY_PERIOD : Z := 30 * 86400.

Definition HIVE_RC_REGEN_TIME : Z := HIVE_VOTING_MANA_REGENERATION_SECONDS.
Definition HIVE_RC_BUCKET_TIME_LENGTH : Z := 60 * 60.
Definition HIVE_VESTING_WITHDRAW_INTERVALS : Z := 13.
Definition HIVE_CASHOUT_WINDOW_SECONDS : Z := 60 * 60 * 24 * 7.
Definition HIVE_VESTING_WITHDRAW_INTERVAL_SECONDS : Z := HIVE_CASHOUT_WINDOW_SECONDS.
Definition HIVE_MAX_WITHDRAW_ROUTES : Z := 10.

Definition HIVE_MAX_TIME_UNTIL_EXPIRATION : Z := 60 * 60.
Definition HIVE_MAX_TIME_UNTIL_SIGNATURE_EXPIRATION : Z := 24 * 60 * 60.
Definition PIXA_MAX_TRANSACTION_SIGNATURES : Z := 1000.
Definition HIVE_CUSTOM_OP_BLOCK_LIMIT : Z := 5.
Definition HIVE_BLOCK_GENERATION_POSTPONED_TX_LIMIT : Z := 5.

Definition HIVE_ACCOUNT_RECOVERY_REQUEST_EXPIRATION_PERIOD : Z := 86400.
Definition HIVE_OWNER_UPDATE_LIMIT : Z := 60 * 60.
Definition HIVE_OWNER_AUTH_HISTORY_TRACKING_START_BLOCK_NUM : Z := 3186477.
Definition HIVE_TEMP_ACCOUNT : string := "temp".

Definition HIVE_BLOCKCHAIN_PRECISION : Z := 1000.
Definition HIVE_ONE_DAY_SECONDS : Z := 60 * 60 * 24.
Definition HIVE_TREASURY_FEE : Z := 10 * HIVE_BLOCKCHAIN_PRECISION.
Definition HIVE_PROPOSAL_FEE_INCREASE_DAYS : Z := 60.
Definition HIVE_PROPOSAL_FEE_INCREASE_DAYS_SEC : Z := 60 * 60 * 24 * HIVE_PROPOSAL_FEE_INCREASE_DAYS.
Definition HIVE_PROPOSAL_FEE_INCREASE_AMOUNT : Z := 1 * HIVE_BLOCKCHAIN_PRECISION.
Definition HIVE_PROPOSAL_MAINTENANCE_PERIOD : Z := 3600.
Definition HIVE_PROPOSAL_MAINTENANCE_CLEANUP : Z := 60 * 60 * 24 * 1.
Definition HIVE_DAILY_PROPOSAL_MAINTENANCE_PERIOD : Z := HIVE_ONE_DAY_SECONDS.
Definition HIVE_1_BASIS_POINT : Z := HIVE_100_PERCENT / 10000.
Definition HIVE_PROPOSAL_CONVERSION_RATE : Z := 5 * HIVE_1_BASIS_POINT.
Definition HIVE_BLOCKS_PER_YEAR : Z := 365 * 24 * 60 * 60 / HIVE_BLOCK_INTERVAL.
Definition HIVE_INFLATION_RATE_START_PERCENT : Z := 978.
Definition HIVE_INFLATION_RATE_STOP_PERCENT : Z := 95.
Definition HIVE_INFLATION_NARROWING_PERIOD : Z := 250000.
