(* ===== verification/AssetSymbol.v ===== *)
(** * Asset symbols

    Models [asset_symbol_type] of libraries/protocol
    (include/hive/protocol/asset_symbol.hpp and the first part of asset.cpp):
    the 32-bit symbol number, its numeric asset identifier (NAI) with the Damm
    check digit, the textual and the binary form of a symbol, and the
    liquid/vesting pairing.  The theorems show that both encodings round-trip,
    that every single-digit error and every transposition of neighbouring
    digits in a NAI is rejected, and that pairing is an involution. *)

From stdpp Require Import base numbers strings option list gmap.
From S2P Require Import Prelude Fc.
Open Scope Z_scope.

(** ** Constants *)

Definition HIVE_ASSET_SYMBOL_PRECISION_BITS : Z := 4.
Definition HIVE_ASSET_CONTROL_BITS : Z := 1.
Definition HIVE_NAI_SHIFT : Z := HIVE_ASSET_SYMBOL_PRECISION_BITS + HIVE_ASSET_CONTROL_BITS.
Definition SMT_MAX_NAI : Z := 99999999.
Definition SMT_MIN_NAI : Z := 1.
Definition HIVE_ASSET_SYMBOL_NAI_LENGTH : Z := 10.
Definition HIVE_ASSET_SYMBOL_NAI_STRING_LENGTH : Z := HIVE_ASSET_SYMBOL_NAI_LENGTH + 2.
Definition HIVE_PRECISION_HBD : Z := 3.
Definition HIVE_PRECISION_HIVE : Z := 3.
Definition HIVE_PRECISION_VESTS : Z := 6.
Definition HIVE_NAI_HBD : Z := 1.
Definition HIVE_NAI_HIVE : Z := 2.
Definition HIVE_NAI_VESTS : Z := 3.
Definition HIVE_ASSET_MAX_DECIMALS : Z := 12.
Definition SMT_ASSET_NUM_PRECISION_MASK : Z := 15.
Definition SMT_ASSET_NUM_CONTROL_MASK : Z := 16.
Definition SMT_ASSET_NUM_VESTING_MASK : Z := 32.

Definition HIVE_ASSET_NUM_HBD : Z :=
  u32 (Z.lor (Z.shiftl (SMT_MAX_NAI + HIVE_NAI_HBD) HIVE_NAI_SHIFT) HIVE_PRECISION_HBD).
Definition HIVE_ASSET_NUM_HIVE : Z :=
  u32 (Z.lor (Z.shiftl (SMT_MAX_NAI + HIVE_NAI_HIVE) HIVE_NAI_SHIFT) HIVE_PRECISION_HIVE).
Definition HIVE_ASSET_NUM_VESTS : Z :=
  u32 (Z.lor (Z.shiftl (SMT_MAX_NAI + HIVE_NAI_VESTS) HIVE_NAI_SHIFT) HIVE_PRECISION_VESTS).

(** Characters of a symbol packed into an integer, first character lowest. *)
Definition VESTS_SYMBOL_U64 : Z :=
  Z.lor 86 (Z.lor (Z.shiftl 69 8) (Z.lor (Z.shiftl 83 16) (Z.lor (Z.shiftl 84 24) (Z.shiftl 83 32)))).
Definition HIVE_SYMBOL_U64 : Z :=
  Z.lor 80 (Z.lor (Z.shiftl 73 8) (Z.lor (Z.shiftl 88 16) (Z.shiftl 65 24))).
Definition HBD_SYMBOL_U64 : Z :=
  Z.lor 80 (Z.lor (Z.shiftl 88 8) (Z.shiftl 83 16)).

Definition VESTS_SYMBOL_SER : Z := Z.lor 6 (u64 (Z.shiftl VESTS_SYMBOL_U64 8)).
Definition OBSOLETE_SYMBOL_SER : Z := Z.lor 3 (u64 (Z.shiftl HIVE_SYMBOL_U64 8)).
Definition OBD_SYMBOL_SER : Z := Z.lor 3 (u64 (Z.shiftl HBD_SYMBOL_U64 8)).

(** ** The symbol type *)

Inductive asset_symbol_space : Set := legacy_space | smt_nai_space.

Record asset_symbol_type : Set := from_asset_num { asset_num : Z }.

#[export] Instance asset_symbol_eq_dec : EqDecision asset_symbol_type.
Proof. solve_decision. Defined.

Definition sym_eqb (a b : asset_symbol_type) : bool := asset_num a =? asset_num b.
Definition sym_ltb (a b : asset_symbol_type) : bool := asset_num a <? asset_num b.

Definition VESTS_SYMBOL : asset_symbol_type := from_asset_num HIVE_ASSET_NUM_VESTS.
Definition HIVE_SYMBOL : asset_symbol_type := from_asset_num HIVE_ASSET_NUM_HIVE.
Definition HBD_SYMBOL : asset_symbol_type := from_asset_num HIVE_ASSET_NUM_HBD.

Definition decimals (s : asset_symbol_type) : Z :=
  u8 (Z.land (asset_num s) SMT_ASSET_NUM_PRECISION_MASK).

Definition get_stripped_precision_smt_num (s : asset_symbol_type) : Z :=
  Z.land (asset_num s) (u32 (Z.lnot SMT_ASSET_NUM_PRECISION_MASK)).

Definition space (s : asset_symbol_type) : asset_symbol_space :=
  if (asset_num s =? HIVE_ASSET_NUM_HIVE) || (asset_num s =? HIVE_ASSET_NUM_HBD)
     || (asset_num s =? HIVE_ASSET_NUM_VESTS)
  then legacy_space else smt_nai_space.

Definition validate_nai_space (sp : asset_symbol_space) : result unit :=
  match sp with smt_nai_space => Ok tt | legacy_space => Throw AssertAsset end.

(** ** The check digit *)

Definition damm_table : list Z := [
   0; 30; 10; 70; 50; 90; 80; 60; 40; 20;
  70;  0; 90; 20; 10; 50; 40; 80; 60; 30;
  40; 20;  0; 60; 80; 70; 10; 30; 50; 90;
  10; 70; 50;  0; 90; 80; 30; 40; 20; 60;
  60; 10; 20; 30;  0; 40; 50; 90; 70; 80;
  30; 60; 70; 40; 20;  0; 90; 50; 80; 10;
  50; 80; 60; 90; 70; 20;  0; 10; 30; 40;
  80; 90; 40; 50; 30; 60; 20;  0; 10; 70;
  90; 40; 30; 80; 60; 10; 70; 20;  0; 50;
  20; 50; 80; 10; 40; 30; 60; 70; 90;  0 ].

(** [t[i]]; the index stays inside the table (lemma [damm_step_range]). *)
Definition damm_t (i : Z) : Z := nth (Z.to_nat i) damm_table 0.

Definition MAX_DAMM_VALUE : Z := 100000000.

Definition damm_checksum_8digit (value : Z) : result Z :=
  _ ← check (value <? MAX_DAMM_VALUE) AssertNumber;
  let q0 := value / 10 in let d0 := value mod 10 in
  let q1 := q0 / 10 in let d1 := q0 mod 10 in
  let q2 := q1 / 10 in let d2 := q1 mod 10 in
  let q3 := q2 / 10 in let d3 := q2 mod 10 in
  let q4 := q3 / 10 in let d4 := q3 mod 10 in
  let q5 := q4 / 10 in let d5 := q4 mod 10 in
  let d6 := q5 mod 10 in
  let d7 := q5 / 10 in
  let x := damm_t d7 in
  let x := damm_t (x + d6) in
  let x := damm_t (x + d5) in
  let x := damm_t (x + d4) in
  let x := damm_t (x + d3) in
  let x := damm_t (x + d2) in
  let x := damm_t (x + d1) in
  let x := damm_t (x + d0) in
  Ok (x / 10).

(** ** Numeric asset identifiers *)

Definition asset_num_from_nai (nai decimal_places : Z) : result Z :=
  let nai_check_digit := nai mod 10 in
  let nai_data_digits := nai / 10 in
  _ ← check ((SMT_MIN_NAI <=? nai_data_digits) && (nai_data_digits <=? SMT_MAX_NAI)) AssertAsset;
  calculated_check_digit ← damm_checksum_8digit nai_data_digits;
  _ ← check (nai_check_digit =? calculated_check_digit) AssertAsset;
  if nai_data_digits =? HIVE_NAI_HIVE then
    _ ← check (decimal_places =? HIVE_PRECISION_HIVE) AssertAsset; Ok HIVE_ASSET_NUM_HIVE
  else if nai_data_digits =? HIVE_NAI_HBD then
    _ ← check (decimal_places =? HIVE_PRECISION_HBD) AssertAsset; Ok HIVE_ASSET_NUM_HBD
  else if nai_data_digits =? HIVE_NAI_VESTS then
    _ ← check (decimal_places =? HIVE_PRECISION_VESTS) AssertAsset; Ok HIVE_ASSET_NUM_VESTS
  else
    _ ← check (decimal_places <=? HIVE_ASSET_MAX_DECIMALS) AssertAsset;
    Ok (Z.lor (Z.lor (u32 (Z.shiftl nai_data_digits HIVE_NAI_SHIFT)) SMT_ASSET_NUM_CONTROL_MASK)
              decimal_places).

Definition from_nai (nai decimal_places : Z) : result asset_symbol_type :=
  from_asset_num <$> asset_num_from_nai nai decimal_places.

Definition to_nai (s : asset_symbol_type) : result Z :=
  nai_data_digits ←
    (if asset_num s =? HIVE_ASSET_NUM_HIVE then Ok HIVE_NAI_HIVE
     else if asset_num s =? HIVE_ASSET_NUM_HBD then Ok HIVE_NAI_HBD
     else if asset_num s =? HIVE_ASSET_NUM_VESTS then Ok HIVE_NAI_VESTS
     else _ ← validate_nai_space (space s); Ok (Z.shiftr (asset_num s) HIVE_NAI_SHIFT));
  nai_check_digit ← damm_checksum_8digit nai_data_digits;
  Ok (u32 (nai_data_digits * 10 + nai_check_digit)).

(** ** Textual form *)

Fixpoint string_of_codes (l : list Z) : string :=
  match l with [] => EmptyString | c :: l' => String (chr c) (string_of_codes l') end.

(** The buffer is filled from its last digit backwards. *)
Definition to_nai_string (s : asset_symbol_type) : result string :=
  x ← to_nai s;
  let b10 := x mod 10 + 48 in let x := x / 10 in
  let b9 := x mod 10 + 48 in let x := x / 10 in
  let b8 := x mod 10 + 48 in let x := x / 10 in
  let b7 := x mod 10 + 48 in let x := x / 10 in
  let b6 := x mod 10 + 48 in let x := x / 10 in
  let b5 := x mod 10 + 48 in let x := x / 10 in
  let b4 := x mod 10 + 48 in let x := x / 10 in
  let b3 := x mod 10 + 48 in let x := x / 10 in
  let b2 := x + 48 in
  Ok (string_of_codes [64; 64; b2; b3; b4; b5; b6; b7; b8; b9; b10]).

(** [std::strlen]: characters before the first NUL. *)
Fixpoint strlen (s : string) : Z :=
  match s with
  | EmptyString => 0
  | String c s' => if Ascii.eqb c Ascii.zero then 0 else 1 + strlen s'
  end.

Definition char_at (s : string) (i : nat) : option Ascii.ascii := String.get i s.

Definition char_is (s : string) (i : nat) (c : Z) : bool :=
  match char_at s i with Some a => char_code a =? c | None => false end.

(** The part of a C string from index [n] on, up to its terminating NUL. *)
Definition c_substr (n : nat) (s : string) : string :=
  String.substring n (Z.to_nat (strlen s) - n) s.

Section with_fc.
Context `{L : FcLib}.

(** [None] is the null pointer. *)
Definition from_nai_string (p : option string) (decimal_places : Z) : result asset_symbol_type :=
  match p with
  | None => Throw AssertString
  | Some p =>
      _ ← check (strlen p =? HIVE_ASSET_SYMBOL_NAI_STRING_LENGTH - 1) AssertAsset;
      _ ← check (char_is p 0 64 && char_is p 1 64) AssertAsset;
      nai ← lexical_cast_u32 (c_substr 2 p);
      from_nai nai decimal_places
  end.
End with_fc.

(** ** Validity, vesting pairs *)

Definition sym_validate (s : asset_symbol_type) : result unit :=
  if (asset_num s =? HIVE_ASSET_NUM_HIVE) || (asset_num s =? HIVE_ASSET_NUM_HBD)
     || (asset_num s =? HIVE_ASSET_NUM_VESTS)
  then Ok tt
  else
    let nai_data_digits := Z.shiftr (asset_num s) HIVE_NAI_SHIFT in
    let nai_1bit := Z.land (asset_num s) SMT_ASSET_NUM_CONTROL_MASK in
    let nai_decimal_places := Z.land (asset_num s) SMT_ASSET_NUM_PRECISION_MASK in
    check ((SMT_MIN_NAI <=? nai_data_digits) && (nai_data_digits <=? SMT_MAX_NAI)
           && (nai_1bit =? SMT_ASSET_NUM_CONTROL_MASK)
           && (nai_decimal_places <=? HIVE_ASSET_MAX_DECIMALS)) AssertAsset.

Definition is_vesting (s : asset_symbol_type) : result bool :=
  match space s with
  | legacy_space =>
      if asset_num s =? HIVE_ASSET_NUM_VESTS then Ok true
      else _ ← check ((asset_num s =? HIVE_ASSET_NUM_HIVE) || (asset_num s =? HIVE_ASSET_NUM_HBD)) AssertAsset;
           Ok false
  | smt_nai_space =>
      _ ← validate_nai_space (space s);
      Ok (negb (Z.land (asset_num s) SMT_ASSET_NUM_VESTING_MASK =? 0))
  end.

Definition get_paired_symbol (s : asset_symbol_type) : result asset_symbol_type :=
  match space s with
  | legacy_space =>
      if asset_num s =? HIVE_ASSET_NUM_HIVE then Ok (from_asset_num HIVE_ASSET_NUM_VESTS)
      else if asset_num s =? HIVE_ASSET_NUM_HBD then Ok s
      else _ ← check (asset_num s =? HIVE_ASSET_NUM_VESTS) AssertAsset;
           Ok (from_asset_num HIVE_ASSET_NUM_HIVE)
  | smt_nai_space =>
      _ ← validate_nai_space (space s);
      Ok (from_asset_num (Z.lxor (asset_num s) SMT_ASSET_NUM_VESTING_MASK))
  end.

(** ** Binary form *)

Inductive pack_type : Set := pack_legacy | pack_nai.

Section raw.
Context `{L : FcLib}.

Definition pack_symbol (m : pack_type) (sym : asset_symbol_type) : result (list Z) :=
  match space sym, m with
  | legacy_space, pack_legacy =>
      if asset_num sym =? HIVE_ASSET_NUM_HIVE then Ok (raw_pack_u64 OBSOLETE_SYMBOL_SER)
      else if asset_num sym =? HIVE_ASSET_NUM_HBD then Ok (raw_pack_u64 OBD_SYMBOL_SER)
      else _ ← check (asset_num sym =? HIVE_ASSET_NUM_VESTS) AssertAsset;
           Ok (raw_pack_u64 VESTS_SYMBOL_SER)
  | _, _ => Ok (raw_pack_u32 (asset_num sym))
  end.

(** Second half of a legacy symbol: four more bytes are copied over the high
    half of [ser], which must then be the expected serialization. *)
Definition unpack_legacy_tail (lo : list Z) (s : list Z) (expected num : Z) :
    result (asset_symbol_type * list Z) :=
  '(hi, s) ← stream_read 4 s;
  _ ← check (le_value (lo ++ hi) =? expected) AssertAsset;
  let sym := from_asset_num num in
  _ ← sym_validate sym; Ok (sym, s).

Definition unpack_symbol (s : list Z) : result (asset_symbol_type * list Z) :=
  '(lo, s) ← stream_read 4 s;
  let ser := le_value lo in
  if ser =? Z.land OBSOLETE_SYMBOL_SER 0xFFFFFFFF then
    unpack_legacy_tail lo s OBSOLETE_SYMBOL_SER HIVE_ASSET_NUM_HIVE
  else if ser =? Z.land OBD_SYMBOL_SER 0xFFFFFFFF then
    unpack_legacy_tail lo s OBD_SYMBOL_SER HIVE_ASSET_NUM_HBD
  else if ser =? Z.land VESTS_SYMBOL_SER 0xFFFFFFFF then
    unpack_legacy_tail lo s VESTS_SYMBOL_SER HIVE_ASSET_NUM_VESTS
  else
    let sym := from_asset_num (u32 ser) in
    _ ← sym_validate sym; Ok (sym, s).
End raw.

(** ** The check digit as a quasigroup *)

(** One step on unscaled interim digits; the table stores them times ten. *)
Definition damm_step (k d : Z) : Z := damm_t (10 * k + d) / 10.
Definition damm_fold (k : Z) (ds : list Z) : Z := foldl damm_step k ds.

Definition digit (d : Z) : Prop := 0 <= d < 10.
Definition undigits (ds : list Z) : Z := foldl (fun a d => a * 10 + d) 0 ds.

Definition r10 : list Z := [0; 1; 2; 3; 4; 5; 6; 7; 8; 9].

Lemma forallb_r10 (P : Z -> bool) : forallb P r10 = true -> forall d, digit d -> P d = true.
Proof.
  intros H d Hd. rewrite forallb_forall in H. apply H. unfold digit, r10 in *. simpl. lia.
Qed.

Lemma forallb_r10_2 (P : Z -> Z -> bool) :
  forallb (fun a => forallb (P a) r10) r10 = true ->
  forall a b, digit a -> digit b -> P a b = true.
Proof. intros H a b Ha Hb. apply (forallb_r10 (P a)); [|done]. by apply (forallb_r10 _ H). Qed.

Lemma forallb_r10_3 (P : Z -> Z -> Z -> bool) :
  forallb (fun a => forallb (fun b => forallb (P a b) r10) r10) r10 = true ->
  forall a b c, digit a -> digit b -> digit c -> P a b c = true.
Proof.
  intros H a b c Ha Hb Hc. apply (forallb_r10 (P a b)); [|done].
  by apply (forallb_r10_2 _ H).
Qed.

Lemma damm_step_scaled k d : digit k -> digit d -> damm_t (10 * k + d) = 10 * damm_step k d.
Proof.
  intros Hk Hd. apply Z.eqb_eq.
  by apply (forallb_r10_2 (fun k d => damm_t (10 * k + d) =? 10 * damm_step k d)).
Qed.

Lemma damm_step_range k d : digit k -> digit d -> digit (damm_step k d).
Proof.
  intros Hk Hd.
  assert (((0 <=? damm_step k d) && (damm_step k d <? 10)) = true)
    by (by apply (forallb_r10_2 (fun k d => (0 <=? damm_step k d) && (damm_step k d <? 10)))).
  to_prop. by split.
Qed.

Lemma damm_step_inj_digit k d d' :
  digit k -> digit d -> digit d' -> damm_step k d = damm_step k d' -> d = d'.
Proof.
  intros Hk Hd Hd' E.
  assert ((negb (damm_step k d =? damm_step k d') || (d =? d')) = true) as H
    by (by apply (forallb_r10_3 (fun k d d' => negb (damm_step k d =? damm_step k d') || (d =? d')))).
  rewrite E, Z.eqb_refl in H. by apply Z.eqb_eq in H.
Qed.

Lemma damm_step_inj_state k k' d :
  digit k -> digit k' -> digit d -> damm_step k d = damm_step k' d -> k = k'.
Proof.
  intros Hk Hk' Hd E.
  assert ((negb (damm_step k d =? damm_step k' d) || (k =? k')) = true) as H
    by (by apply (forallb_r10_3 (fun k k' d => negb (damm_step k d =? damm_step k' d) || (k =? k')))).
  rewrite E, Z.eqb_refl in H. by apply Z.eqb_eq in H.
Qed.

(** The quasigroup is totally anti-symmetric. *)
Lemma damm_step_antisym k a b :
  digit k -> digit a -> digit b ->
  damm_step (damm_step k a) b = damm_step (damm_step k b) a -> a = b.
Proof.
  intros Hk Ha Hb E.
  assert ((negb (damm_step (damm_step k a) b =? damm_step (damm_step k b) a) || (a =? b)) = true) as H
    by (by apply (forallb_r10_3
          (fun k a b => negb (damm_step (damm_step k a) b =? damm_step (damm_step k b) a) || (a =? b)))).
  rewrite E, Z.eqb_refl in H. by apply Z.eqb_eq in H.
Qed.

Lemma damm_step_diag k : digit k -> damm_step k k = 0.
Proof. intros Hk. apply Z.eqb_eq. by apply (forallb_r10 (fun k => damm_step k k =? 0)). Qed.

Lemma damm_fold_range ds k : digit k -> Forall digit ds -> digit (damm_fold k ds).
Proof.
  intros Hk Hds. revert k Hk. induction Hds; intros k Hk; simpl; [done|].
  by apply IHHds, damm_step_range.
Qed.

Lemma damm_fold_inj ds k k' :
  digit k -> digit k' -> Forall digit ds -> damm_fold k ds = damm_fold k' ds -> k = k'.
Proof.
  intros Hk Hk' Hds. revert k k' Hk Hk'. induction Hds as [|d ds Hd Hds IH]; intros k k' Hk Hk' E; [done|].
  simpl in E. apply IH in E; [|by apply damm_step_range..].
  by apply (damm_step_inj_state k k' d).
Qed.

Lemma undigits_app ds d : undigits (ds ++ [d]) = undigits ds * 10 + d.
Proof. unfold undigits. by rewrite foldl_app. Qed.

Lemma digit0 : digit 0.
Proof. unfold digit. lia. Qed.

#[export] Hint Resolve damm_step_range damm_fold_range digit0 : pixa.

(** The unrolled checksum of the code is the fold over the eight digits. *)
Lemma damm_checksum_fold d7 d6 d5 d4 d3 d2 d1 d0 :
  Forall digit [d7; d6; d5; d4; d3; d2; d1; d0] ->
  damm_checksum_8digit (undigits [d7; d6; d5; d4; d3; d2; d1; d0])
    = Ok (damm_fold 0 [d7; d6; d5; d4; d3; d2; d1; d0]).
Proof.
  intros H. rewrite !Forall_cons in H. destruct H as (H7 & H6 & H5 & H4 & H3 & H2 & H1 & H0 & _).
  unfold damm_checksum_8digit, MAX_DAMM_VALUE.
  set (v := undigits _).
  assert (v = d0 + 10 * (d1 + 10 * (d2 + 10 * (d3 + 10 * (d4 + 10 * (d5 + 10 * (d6 + 10 * d7)))))))
    as -> by (unfold v, undigits; simpl; lia).
  unfold digit in *.
  rewrite (proj2 (Z.ltb_lt _ _)) by lia. cbn [check mbind result_bind].
  assert (HD : forall q d, 0 <= d < 10 -> (d + 10 * q) / 10 = q) by div_lia.
  assert (HM : forall q d, 0 <= d < 10 -> (d + 10 * q) mod 10 = d) by div_lia.
  rewrite !HD, !HM by lia.
  change (damm_t d7) with (damm_t (10 * 0 + d7)).
  rewrite !damm_step_scaled by eauto 20 with pixa.
  rewrite Z.mul_comm, Z.div_mul by lia. done.
Qed.

Lemma length8_inv {A} (l : list A) :
  length l = 8%nat -> exists a b c d e f g h, l = [a; b; c; d; e; f; g; h].
Proof. do 9 (destruct l as [|? l]; try done). intros _. by repeat eexists. Qed.

(** The checksum accepts a ninth digit exactly when the fold over all nine is zero. *)
Lemma nai_accepted_fold ds dec :
  Forall digit ds -> length ds = 9%nat ->
  is_ok (asset_num_from_nai (undigits ds) dec) = true -> damm_fold 0 ds = 0.
Proof.
  intros Hds Hlen.
  destruct (exists_last (l := ds)) as (l & c & ->); [by destruct ds|].
  rewrite length_app in Hlen. simpl in Hlen. apply Forall_app in Hds as [Hl Hc].
  rewrite Forall_singleton in Hc.
  destruct (length8_inv l) as (d7 & d6 & d5 & d4 & d3 & d2 & d1 & d0 & Heq); [lia|]. subst l.
  rewrite undigits_app. unfold asset_num_from_nai.
  set (u := undigits _).
  assert ((u * 10 + c) mod 10 = c) as -> by (unfold digit in *; div_lia).
  assert ((u * 10 + c) / 10 = u) as -> by (unfold digit in *; div_lia).
  unfold u. rewrite damm_checksum_fold by done.
  destruct (_ && _); [|done]. cbn [mbind result_bind check].
  destruct (c =? _) eqn:E; [|done]. to_prop. intros _.
  set (l := [d7; d6; d5; d4; d3; d2; d1; d0]) in *.
  clearbody l. unfold damm_fold in *. rewrite foldl_app. simpl. rewrite <- E.
  by apply damm_step_diag.
Qed.

(** Replacing any one of the nine digits of an accepted numeric asset
    identifier by another digit gives an identifier that is rejected. *)
Theorem nai_single_digit_error_detected l1 l2 d d' dec dec' :
  Forall digit (l1 ++ d :: l2) -> digit d' -> length (l1 ++ d :: l2) = 9%nat -> d <> d' ->
  is_ok (asset_num_from_nai (undigits (l1 ++ d :: l2)) dec) = true ->
  is_ok (asset_num_from_nai (undigits (l1 ++ d' :: l2)) dec') = false.
Proof.
  intros Hds Hd' Hlen Hne H1. apply not_true_is_false. intros H2.
  apply nai_accepted_fold in H1; [|done..].
  apply Forall_app in Hds as [Hl1 [Hd Hl2]%Forall_cons].
  apply nai_accepted_fold in H2;
    [|by rewrite Forall_app, Forall_cons|by rewrite length_app in *; simpl in *].
  unfold damm_fold in *. rewrite foldl_app in H1, H2. simpl in H1, H2.
  assert (E : damm_step (damm_fold 0 l1) d = damm_step (damm_fold 0 l1) d').
  { apply damm_fold_inj with l2; auto with pixa. unfold damm_fold. congruence. }
  apply damm_step_inj_digit in E; auto with pixa.
Qed.

(** Exchanging two neighbouring, different digits of an accepted
    identifier (the check digit included) gives an identifier that is
    rejected. *)
Theorem nai_transposition_detected l1 l2 a b dec dec' :
  Forall digit (l1 ++ a :: b :: l2) -> length (l1 ++ a :: b :: l2) = 9%nat -> a <> b ->
  is_ok (asset_num_from_nai (undigits (l1 ++ a :: b :: l2)) dec) = true ->
  is_ok (asset_num_from_nai (undigits (l1 ++ b :: a :: l2)) dec') = false.
Proof.
  intros Hds Hlen Hne H1. apply not_true_is_false. intros H2.
  apply nai_accepted_fold in H1; [|done..].
  apply Forall_app in Hds as [Hl1 [Ha [Hb Hl2]%Forall_cons]%Forall_cons].
  apply nai_accepted_fold in H2;
    [|by rewrite Forall_app, !Forall_cons|by rewrite length_app in *; simpl in *].
  unfold damm_fold in *. rewrite foldl_app in H1, H2. simpl in H1, H2.
  assert (E : damm_step (damm_step (damm_fold 0 l1) a) b = damm_step (damm_step (damm_fold 0 l1) b) a).
  { apply damm_fold_inj with l2; auto 10 with pixa. unfold damm_fold. congruence. }
  apply damm_step_antisym in E; auto with pixa.
Qed.

(** ** Round trip through the numeric identifier *)

Lemma digits8 v : 0 <= v < MAX_DAMM_VALUE ->
  exists d7 d6 d5 d4 d3 d2 d1 d0,
    Forall digit [d7; d6; d5; d4; d3; d2; d1; d0] /\ undigits [d7; d6; d5; d4; d3; d2; d1; d0] = v.
Proof.
  unfold MAX_DAMM_VALUE. intros Hv.
  exists (v / 10000000), (v / 1000000 mod 10), (v / 100000 mod 10), (v / 10000 mod 10),
         (v / 1000 mod 10), (v / 100 mod 10), (v / 10 mod 10), (v mod 10).
  split; [|unfold undigits; simpl; div_lia].
  rewrite !Forall_cons, Forall_nil. unfold digit. div_lia.
Qed.

Lemma damm_checksum_total v : 0 <= v < MAX_DAMM_VALUE ->
  exists c, damm_checksum_8digit v = Ok c /\ digit c.
Proof.
  intros (d7 & d6 & d5 & d4 & d3 & d2 & d1 & d0 & Hd & <-)%digits8.
  rewrite damm_checksum_fold by done. eauto with pixa.
Qed.

Lemma smt_num_split n :
  Z.land n SMT_ASSET_NUM_CONTROL_MASK = SMT_ASSET_NUM_CONTROL_MASK ->
  Z.lor (Z.lor (Z.shiftl (Z.shiftr n 5) 5) SMT_ASSET_NUM_CONTROL_MASK)
        (Z.land n SMT_ASSET_NUM_PRECISION_MASK) = n.
Proof.
  unfold SMT_ASSET_NUM_CONTROL_MASK, SMT_ASSET_NUM_PRECISION_MASK. intros H.
  assert (Hb : Z.testbit n 4 = true).
  { apply (f_equal (fun x => Z.testbit x 4)) in H. rewrite Z.land_spec in H.
    by rewrite andb_true_r in H. }
  apply Z.bits_inj_iff'. intros i Hi. rewrite !Z.lor_spec, Z.land_spec.
  destruct (decide (i < 5)) as [Hlt|Hge].
  - rewrite Z.shiftl_spec_low by lia. simpl.
    assert (i = 0 \/ i = 1 \/ i = 2 \/ i = 3 \/ i = 4) as [-> | [-> | [-> | [-> | ->]]]] by lia;
      simpl; rewrite ?Hb, ?andb_true_r; done.
  - rewrite Z.shiftl_spec, Z.shiftr_spec by lia.
    replace (i - 5 + 5) with i by lia.
    assert (forall m, 0 <= m < 32 -> Z.testbit m i = false) as Hs.
    { intros m Hm. rewrite <- (Z.mod_small m (2 ^ 5)) by (simpl; lia).
      apply Z.mod_pow2_bits_high. lia. }
    rewrite (Hs 16), (Hs 15) by lia. by rewrite andb_false_r, !orb_false_r.
Qed.

Lemma land_mask4 n : 0 <= n -> 0 <= Z.land n SMT_ASSET_NUM_PRECISION_MASK < 16.
Proof.
  intros. change SMT_ASSET_NUM_PRECISION_MASK with (Z.ones 4). rewrite Z.land_ones by lia.
  apply Z.mod_pos_bound. done.
Qed.

(** The symbols whose identifier determines them: the three legacy symbols,
    and valid token symbols outside the three identifiers reserved for those. *)
Definition nai_canonical (s : asset_symbol_type) : bool :=
  match space s with
  | legacy_space => true
  | smt_nai_space => HIVE_NAI_VESTS <? Z.shiftr (asset_num s) HIVE_NAI_SHIFT
  end.

Lemma space_legacy_inv s : space s = legacy_space ->
  s = HIVE_SYMBOL \/ s = HBD_SYMBOL \/ s = VESTS_SYMBOL.
Proof.
  destruct s as [n]. unfold space, HIVE_SYMBOL, HBD_SYMBOL, VESTS_SYMBOL. cbn [asset_num].
  destruct (_ =? HIVE_ASSET_NUM_HIVE) eqn:E1, (_ =? HIVE_ASSET_NUM_HBD) eqn:E2,
    (_ =? HIVE_ASSET_NUM_VESTS) eqn:E3; to_prop; subst; naive_solver.
Qed.

Lemma space_smt_inv s : space s = smt_nai_space ->
  (asset_num s =? HIVE_ASSET_NUM_HIVE) = false /\ (asset_num s =? HIVE_ASSET_NUM_HBD) = false
  /\ (asset_num s =? HIVE_ASSET_NUM_VESTS) = false.
Proof.
  unfold space.
  destruct (_ =? HIVE_ASSET_NUM_HIVE), (_ =? HIVE_ASSET_NUM_HBD), (_ =? HIVE_ASSET_NUM_VESTS); done.
Qed.

Lemma sym_validate_smt s : space s = smt_nai_space -> sym_validate s = Ok tt ->
  SMT_MIN_NAI <= Z.shiftr (asset_num s) HIVE_NAI_SHIFT <= SMT_MAX_NAI
  /\ Z.land (asset_num s) SMT_ASSET_NUM_CONTROL_MASK = SMT_ASSET_NUM_CONTROL_MASK
  /\ Z.land (asset_num s) SMT_ASSET_NUM_PRECISION_MASK <= HIVE_ASSET_MAX_DECIMALS.
Proof.
  intros (E1 & E2 & E3)%space_smt_inv. unfold sym_validate. rewrite E1, E2, E3. simpl.
  intros H%check_Ok. to_prop. auto.
Qed.

Lemma nai_roundtrip_aux s :
  in_u 32 (asset_num s) -> sym_validate s = Ok tt -> nai_canonical s = true ->
  exists nai, to_nai s = Ok nai /\ 0 <= nai < 1000000000 /\ from_nai nai (decimals s) = Ok s.
Proof.
  intros Hr Hv Hc. unfold nai_canonical in Hc. destruct (space s) eqn:Es.
  { apply space_legacy_inv in Es as [-> | [-> | ->]]; eexists; (split; [vm_compute; reflexivity|]);
      (split; [lia|vm_compute; reflexivity]). }
  destruct (sym_validate_smt s Es Hv) as ([Hlo Hhi] & Hctl & Hdec).
  destruct (space_smt_inv s Es) as (E1 & E2 & E3).
  destruct s as [n]. cbn [asset_num] in *. apply Z.ltb_lt in Hc.
  set (v := Z.shiftr n HIVE_NAI_SHIFT) in *.
  destruct (damm_checksum_total v) as (c & Hck & Hcd);
    [unfold MAX_DAMM_VALUE, SMT_MIN_NAI, SMT_MAX_NAI in *; lia|].
  unfold SMT_MIN_NAI, SMT_MAX_NAI, HIVE_NAI_VESTS, digit in *.
  exists (v * 10 + c).
  assert (to_nai {| asset_num := n |} = Ok (v * 10 + c)) as Hto.
  { unfold to_nai. cbn [asset_num]. rewrite E1, E2, E3, Es. cbn [validate_nai_space mbind result_bind].
    fold v. rewrite Hck. cbn [mbind result_bind]. f_equal. apply uwrap_id. unfold in_u. lia. }
  split; [done|]. split; [lia|].
  unfold from_nai, asset_num_from_nai.
  assert ((v * 10 + c) mod 10 = c) as -> by div_lia.
  assert ((v * 10 + c) / 10 = v) as -> by div_lia.
  rewrite (proj2 (andb_true_iff _ _)) by (unfold SMT_MIN_NAI, SMT_MAX_NAI; split; apply Z.leb_le; lia).
  cbn [mbind result_bind check]. rewrite Hck. cbn [mbind result_bind]. rewrite Z.eqb_refl.
  cbn [mbind result_bind check]. unfold HIVE_NAI_HIVE, HIVE_NAI_HBD, HIVE_NAI_VESTS.
  rewrite !(proj2 (Z.eqb_neq _ _)) by lia.
  assert (decimals {| asset_num := n |} = Z.land n SMT_ASSET_NUM_PRECISION_MASK) as ->.
  { apply uwrap_id. unfold in_u. pose proof (land_mask4 n). unfold in_u in Hr. cbn [asset_num]. lia. }
  rewrite (proj2 (Z.leb_le _ _)) by done. cbn [mbind result_bind check fmap result_fmap].
  do 2 f_equal. rewrite uwrap_id; [by apply smt_num_split|].
  unfold v, in_u. change HIVE_NAI_SHIFT with 5. rewrite Z.shiftl_mul_pow2, Z.shiftr_div_pow2 by lia.
  unfold in_u in Hr. change (2 ^ 5) with 32. change (2 ^ 32) with 4294967296 in *. div_lia.
Qed.

(** A valid symbol that does not shadow a reserved identifier is
    recovered from its numeric identifier and its number of decimals. *)
Theorem to_nai_from_nai_roundtrip s :
  in_u 32 (asset_num s) -> sym_validate s = Ok tt -> nai_canonical s = true ->
  exists nai, to_nai s = Ok nai /\ from_nai nai (decimals s) = Ok s.
Proof. intros H1 H2 H3. destruct (nai_roundtrip_aux s) as (nai & ? & _ & ?); eauto. Qed.

(** The side condition is needed: the valid symbol number 83 is not the
    HIVE symbol but has the same identifier and the same decimals. *)
Theorem valid_symbol_aliases_hive :
  let s := from_asset_num 83 in
  sym_validate s = Ok tt /\ sym_eqb s HIVE_SYMBOL = false /\
  decimals s = decimals HIVE_SYMBOL /\ to_nai s = to_nai HIVE_SYMBOL /\
  to_nai_string s = to_nai_string HIVE_SYMBOL.
Proof. vm_compute. repeat split. Qed.

(** ** Round trip through text *)

Lemma char_code_chr n : 0 <= n < 256 -> char_code (chr n) = n.
Proof. intros. unfold char_code, chr. rewrite Ascii.nat_ascii_embedding; lia. Qed.

Lemma chr_not_nul n : 0 < n < 256 -> Ascii.eqb (chr n) Ascii.zero = false.
Proof.
  intros Hn. apply Ascii.eqb_neq. intros E. apply (f_equal char_code) in E.
  rewrite char_code_chr in E by lia. change (char_code Ascii.zero) with 0 in E. lia.
Qed.

Definition digit_code (c : Z) : Prop := 48 <= c <= 57.

Lemma is_digit_chr c : digit_code c -> is_digit (chr c) = true.
Proof.
  unfold digit_code, is_digit. intros. rewrite char_code_chr by lia.
  apply andb_true_iff. rewrite !Z.leb_le. lia.
Qed.

Lemma strlen_codes l : Forall (fun c => 0 < c < 256) l -> strlen (string_of_codes l) = Z.of_nat (length l).
Proof.
  induction 1 as [|c l Hc Hl IH]; [done|]. cbn [string_of_codes strlen length].
  rewrite chr_not_nul by done. lia.
Qed.

Lemma all_digits_codes l : Forall digit_code l -> all_digits (string_of_codes l) = true.
Proof.
  induction 1 as [|c l Hc Hl IH]; [done|]. cbn [string_of_codes all_digits].
  by rewrite is_digit_chr, IH.
Qed.

Lemma dec_value_codes l acc : Forall digit_code l ->
  dec_value_acc acc (string_of_codes l) = foldl (fun a c => a * 10 + (c - 48)) acc l.
Proof.
  intros Hl. revert acc. induction Hl as [|c l Hc Hl IH]; intros acc; [done|].
  cbn [string_of_codes dec_value_acc foldl]. unfold digit_code in Hc.
  rewrite char_code_chr by lia. apply IH.
Qed.

Section text_roundtrip.
Context `{HL : !FcLaws L}.

Lemma from_nai_string_codes b2 b3 b4 b5 b6 b7 b8 b9 b10 nai dec :
  Forall digit_code [b2; b3; b4; b5; b6; b7; b8; b9; b10] ->
  foldl (fun a c => a * 10 + (c - 48)) 0 [b2; b3; b4; b5; b6; b7; b8; b9; b10] = nai ->
  in_u 32 nai ->
  from_nai_string (Some (string_of_codes [64; 64; b2; b3; b4; b5; b6; b7; b8; b9; b10])) dec
    = from_nai nai dec.
Proof.
  intros Hb Hn Hr. unfold from_nai_string.
  set (cs := [b2; b3; b4; b5; b6; b7; b8; b9; b10]) in *.
  assert (strlen (string_of_codes (64 :: 64 :: cs)) = 11) as Hlen.
  { rewrite strlen_codes; [done|]. rewrite !Forall_cons. split_and!; [lia..|].
    eapply Forall_impl; [exact Hb|]. unfold digit_code. intros; lia. }
  assert (c_substr 2 (string_of_codes (64 :: 64 :: cs)) = string_of_codes cs) as ->.
  { unfold c_substr. rewrite Hlen. reflexivity. }
  rewrite Hlen. cbn [Z.eqb check mbind result_bind].
  change (char_is _ 0 64 && char_is _ 1 64) with true. cbn [check mbind result_bind].
  assert (dec_value (string_of_codes cs) = nai) as Hval
    by (unfold dec_value; by rewrite dec_value_codes).
  rewrite lexical_cast_u32_decimal; [by rewrite Hval| |by rewrite Hval].
  change (is_decimal (string_of_codes cs)) with (all_digits (string_of_codes cs)).
  by apply all_digits_codes.
Qed.

(** Printing a symbol as a NAI string and parsing the string back gives
    the symbol, for every symbol of the numeric round trip. *)
Theorem nai_string_roundtrip s :
  in_u 32 (asset_num s) -> sym_validate s = Ok tt -> nai_canonical s = true ->
  exists str, to_nai_string s = Ok str /\ strlen str = HIVE_ASSET_SYMBOL_NAI_STRING_LENGTH - 1 /\
    from_nai_string (Some str) (decimals s) = Ok s.
Proof.
  intros H1 H2 H3. destruct (nai_roundtrip_aux s H1 H2 H3) as (nai & Hto & Hn & Hfrom).
  unfold to_nai_string. rewrite Hto. cbn [mbind result_bind]. eexists. split; [reflexivity|].
  assert (forall x, digit_code (x mod 10 + 48)) as Hd
    by (unfold digit_code; div_lia).
  split.
  - rewrite strlen_codes; [done|]. rewrite !Forall_cons.
    unfold digit_code in Hd.
    pose proof (Hd nai). pose proof (Hd (nai / 10)). pose proof (Hd (nai / 10 / 10)).
    pose proof (Hd (nai / 10 / 10 / 10)). pose proof (Hd (nai / 10 / 10 / 10 / 10)).
    pose proof (Hd (nai / 10 / 10 / 10 / 10 / 10)).
    pose proof (Hd (nai / 10 / 10 / 10 / 10 / 10 / 10)).
    pose proof (Hd (nai / 10 / 10 / 10 / 10 / 10 / 10 / 10)).
    repeat (split; [lia|]). split; [|repeat (split; [lia|])]; [div_lia|done].
  - rewrite (from_nai_string_codes _ _ _ _ _ _ _ _ _ nai); [done| | |unfold in_u; lia].
    + rewrite !Forall_cons. split; [unfold digit_code; div_lia|]. repeat (split; [apply Hd|]). done.
    + cbn [foldl]. div_lia.
Qed.
End text_roundtrip.

(** ** Round trip through bytes *)

Section raw_roundtrip.
Context `{HL : !FcLaws L}.

Lemma stream_read_le n x rest : stream_read n (le_bytes n x ++ rest) = Ok (le_bytes n x, rest).
Proof. rewrite <- (le_bytes_length n x) at 1. apply stream_read_prefix. Qed.

Lemma unpack_legacy_ser ser num rest :
  in_u 64 ser -> sym_validate (from_asset_num num) = Ok tt ->
  unpack_legacy_tail (le_bytes 4 ser) (le_bytes 4 (ser / 256 ^ 4) ++ rest) ser num
    = Ok (from_asset_num num, rest).
Proof.
  intros Hs Hv. unfold unpack_legacy_tail. rewrite stream_read_le. cbn [mbind result_bind].
  change (256 ^ 4) with (256 ^ Z.of_nat 4). rewrite <- (le_bytes_app 4 4 ser), le_value_bytes.
  change (256 ^ Z.of_nat (4 + 4)) with (2 ^ 64). rewrite Z.mod_small by done.
  rewrite Z.eqb_refl. cbn [check mbind result_bind]. rewrite Hv. done.
Qed.

Lemma unpack_symbol_num n rest :
  in_u 32 n -> sym_validate (from_asset_num n) = Ok tt ->
  unpack_symbol (le_bytes 4 n ++ rest) = Ok (from_asset_num n, rest).
Proof.
  intros Hr Hv. unfold unpack_symbol. rewrite stream_read_le. cbn [mbind result_bind].
  rewrite le_value_bytes. change (256 ^ Z.of_nat 4) with (2 ^ 32). rewrite Z.mod_small by done.
  destruct (space (from_asset_num n)) eqn:Es.
  { apply space_legacy_inv in Es as [[= ->]|[[= ->]|[= ->]]]; reflexivity. }
  destruct (sym_validate_smt _ Es Hv) as (_ & Hctl & _). cbn [asset_num] in Hctl.
  assert (forall k, Z.land k SMT_ASSET_NUM_CONTROL_MASK = 0 -> (n =? k) = false) as Hne.
  { intros k Hk. apply Z.eqb_neq. intros ->. rewrite Hk in Hctl. discriminate. }
  rewrite !Hne by reflexivity. rewrite uwrap_id by done. rewrite Hv. done.
Qed.

(** Unpacking what was packed gives the symbol back and leaves the rest
    of the stream, for every valid symbol and both wire formats. *)
Theorem pack_unpack_symbol_roundtrip m s rest :
  in_u 32 (asset_num s) -> sym_validate s = Ok tt ->
  exists bs, pack_symbol m s = Ok bs /\ unpack_symbol (bs ++ rest) = Ok (s, rest).
Proof.
  intros Hr Hv. destruct (space s) eqn:Es.
  - assert (forall ser num, in_u 64 ser -> sym_validate (from_asset_num num) = Ok tt ->
      (unpack_symbol (le_bytes 4 ser ++ le_bytes 4 (ser / 256 ^ 4) ++ rest) =
       unpack_legacy_tail (le_bytes 4 ser) (le_bytes 4 (ser / 256 ^ 4) ++ rest) ser num) ->
      unpack_symbol (raw_pack_u64 ser ++ rest) = Ok (from_asset_num num, rest)) as Hlegacy.
    { intros ser num Hs Hok Heq. rewrite raw_pack_u64_le by done.
      change 8%nat with (4 + 4)%nat. rewrite le_bytes_app, <- app_assoc.
      change (256 ^ Z.of_nat 4) with (256 ^ 4). rewrite Heq. by apply unpack_legacy_ser. }
    assert (forall k, in_u 64 k <-> in_ub 64 k = true) as Hb by (intros; by rewrite in_ub_spec).
    destruct m.
    + apply space_legacy_inv in Es as [-> | [-> | ->]];
        (eexists; split; [reflexivity|]);
        (apply Hlegacy; [by apply Hb|reflexivity|]);
        (unfold unpack_symbol; rewrite stream_read_le; reflexivity).
    + exists (raw_pack_u32 (asset_num s)). unfold pack_symbol. rewrite Es. split; [done|].
      rewrite raw_pack_u32_le by done. destruct s. by apply unpack_symbol_num.
  - exists (raw_pack_u32 (asset_num s)). unfold pack_symbol. rewrite Es. split; [done|].
    rewrite raw_pack_u32_le by done. destruct s. by apply unpack_symbol_num.
Qed.
End raw_roundtrip.

(** ** Vesting pairs *)

Lemma lxor_vesting_shift n :
  0 <= n -> Z.shiftr (Z.lxor n SMT_ASSET_NUM_VESTING_MASK) 5 = Z.lxor (Z.shiftr n 5) 1.
Proof. intros. rewrite Z.shiftr_lxor. done. Qed.

Lemma lxor1_bound v m : 0 <= v <= m -> Z.odd m = true -> Z.lxor v 1 <= m.
Proof.
  intros Hv Hm. rewrite (Z.div2_odd v) in *. rewrite (Z.div2_odd m) in *.
  set (a := Z.div2 v) in *. set (b := Z.div2 m) in *.
  assert (Z.odd (2 * b + Z.b2z (Z.odd m)) = true) as Hodd by exact Hm.
  rewrite Z.odd_add, Z.odd_mul in Hodd. simpl in Hodd. destruct (Z.odd m); simpl in *; [|done].
  assert (Z.lxor (2 * a + Z.b2z (Z.odd v)) 1 = 2 * a + Z.b2z (negb (Z.odd v))) as ->.
  { apply Z.bits_inj_iff'. intros i Hi. rewrite Z.lxor_spec.
    destruct (decide (i = 0)) as [-> | Hi0].
    - rewrite !Z.testbit_0_r. by destruct (Z.odd v).
    - replace i with (Z.succ (Z.pred i)) by lia. rewrite !Z.testbit_succ_r by lia.
      change 1 with (2 * 0 + Z.b2z true). rewrite Z.testbit_succ_r, Z.testbit_0_l by lia.
      by rewrite xorb_false_r. }
  destruct (Z.odd v); simpl in *; lia.
Qed.

(** Pairing is an involution on valid symbols: HIVE and VESTS are paired
    with each other, HBD with itself, and a token symbol with the one that
    differs in the vesting bit, for which [is_vesting] answers the opposite. *)
Theorem get_paired_symbol_involutive s :
  in_u 32 (asset_num s) -> sym_validate s = Ok tt ->
  exists s', get_paired_symbol s = Ok s' /\ get_paired_symbol s' = Ok s /\
    (s <> HBD_SYMBOL -> is_vesting s' = negb <$> is_vesting s).
Proof.
  intros Hr Hv. destruct (space s) eqn:Es.
  { apply space_legacy_inv in Es as [-> | [-> | ->]];
      (eexists; split; [reflexivity|]); (split; [reflexivity|]); intros Hne; (reflexivity || done). }
  destruct (sym_validate_smt s Es Hv) as ([Hlo Hhi] & _ & _).
  destruct s as [n]. cbn [asset_num] in *.
  set (n' := Z.lxor n SMT_ASSET_NUM_VESTING_MASK).
  assert (Hs' : space (from_asset_num n') = smt_nai_space).
  { assert (Z.shiftr n' 5 <= SMT_MAX_NAI) as Hb.
    { unfold n'. rewrite lxor_vesting_shift by apply Hr.
      apply lxor1_bound; [|reflexivity]. change HIVE_NAI_SHIFT with 5 in *.
      unfold SMT_MIN_NAI in Hlo. lia. }
    unfold space. cbn [asset_num].
    assert (forall k, SMT_MAX_NAI < Z.shiftr k 5 -> (n' =? k) = false) as Hne.
    { intros k Hk. apply Z.eqb_neq. intros ->. lia. }
    rewrite !Hne by reflexivity. done. }
  exists (from_asset_num n'). unfold get_paired_symbol, is_vesting. rewrite Es, Hs'.
  cbn [validate_nai_space mbind result_bind fmap result_fmap asset_num]. fold n'. split; [done|].
  split; [unfold n'; by rewrite Z.lxor_assoc, Z.lxor_nilpotent, Z.lxor_0_r|].
  intros _. f_equal. f_equal. unfold n', SMT_ASSET_NUM_VESTING_MASK.
  assert (forall m, (Z.land m 32 =? 0) = negb (Z.testbit m 5)) as Hbit.
  { intros m. destruct (Z.testbit m 5) eqn:E; simpl.
    - apply Z.eqb_neq. intros H0. apply (f_equal (fun x => Z.testbit x 5)) in H0.
      rewrite Z.land_spec, E in H0. done.
    - apply Z.eqb_eq. apply Z.bits_inj_iff'. intros i Hi. rewrite Z.land_spec, Z.bits_0.
      change 32 with (2 ^ 5). rewrite Z.pow2_bits_eqb by lia.
      destruct (5 =? i) eqn:Ei; [to_prop; subst; by rewrite E|by rewrite andb_false_r]. }
  rewrite !Hbit, Z.lxor_spec. by destruct (Z.testbit n 5).
Qed.

(** ** Witnesses *)

Lemma in_u_of_bool w x : in_ub w x = true -> in_u w x.
Proof. apply in_ub_spec. Qed.

Lemma nai_single_digit_error_detected_witness :
  is_ok (asset_num_from_nai (undigits ([0; 0; 0; 0; 0; 0; 0] ++ 2 :: [1])) 3) = true /\
  is_ok (asset_num_from_nai (undigits ([0; 0; 0; 0; 0; 0; 0] ++ 3 :: [1])) 3) = false.
Proof.
  split; [reflexivity|].
  apply (nai_single_digit_error_detected [0; 0; 0; 0; 0; 0; 0] [1] 2 3 3 3);
    [repeat constructor; unfold digit; lia|unfold digit; lia|reflexivity|lia|reflexivity].
Defined.

Lemma nai_transposition_detected_witness :
  is_ok (asset_num_from_nai (undigits ([0; 0; 0; 0; 0; 0; 0] ++ 2 :: 1 :: [])) 3) = true /\
  is_ok (asset_num_from_nai (undigits ([0; 0; 0; 0; 0; 0; 0] ++ 1 :: 2 :: [])) 3) = false.
Proof.
  split; [reflexivity|].
  apply (nai_transposition_detected [0; 0; 0; 0; 0; 0; 0] [] 2 1 3 3);
    [repeat constructor; unfold digit; lia|reflexivity|lia|reflexivity].
Defined.

Lemma to_nai_from_nai_roundtrip_witness :
  exists nai, to_nai (from_asset_num 342391) = Ok nai /\
    from_nai nai (decimals (from_asset_num 342391)) = Ok (from_asset_num 342391).
Proof.
  apply to_nai_from_nai_roundtrip; [by apply in_u_of_bool|reflexivity|reflexivity].
Defined.

Lemma nai_string_roundtrip_witness :
  exists str, to_nai_string HIVE_SYMBOL = Ok str /\
    strlen str = HIVE_ASSET_SYMBOL_NAI_STRING_LENGTH - 1 /\
    @from_nai_string fc_ref (Some str) (decimals HIVE_SYMBOL) = Ok HIVE_SYMBOL.
Proof.
  apply (@nai_string_roundtrip fc_ref fc_ref_laws);
    [by apply in_u_of_bool|reflexivity|reflexivity].
Defined.

Lemma pack_unpack_symbol_roundtrip_witness :
  exists bs, @pack_symbol fc_ref pack_legacy VESTS_SYMBOL = Ok bs /\
    @unpack_symbol fc_ref (bs ++ [7]) = Ok (VESTS_SYMBOL, [7]).
Proof.
  apply (@pack_unpack_symbol_roundtrip fc_ref fc_ref_laws);
    [by apply in_u_of_bool|reflexivity].
Defined.

Lemma get_paired_symbol_involutive_witness :
  exists s', get_paired_symbol (from_asset_num 342391) = Ok s' /\
    get_paired_symbol s' = Ok (from_asset_num 342391) /\
    (from_asset_num 342391 <> HBD_SYMBOL ->
     is_vesting s' = negb <$> is_vesting (from_asset_num 342391)).
Proof. apply get_paired_symbol_involutive; [by apply in_u_of_bool|reflexivity]. Defined.
