(* ===== verification/Asset.v ===== *)
(** * Assets and prices

    Models [asset], [price], [tiny_asset], [tiny_price] and the conversions
    between currencies (libraries/protocol/include/hive/protocol/asset.hpp,
    asset.cpp, hive_collateral.hpp, hbd_interest.hpp, and the helpers of
    libraries/chain/include/hive/chain/util/asset.hpp).  Amounts are signed
    64-bit values with the checked arithmetic of [share_type]; price
    arithmetic is 128-bit unsigned with its wrap-around. *)

From stdpp Require Import base numbers strings option list gmap.
From S2P Require Import Prelude Fc Config AssetSymbol.
Open Scope Z_scope.

(** ** Assets *)

Record asset : Set := mk_asset { amount : Z; symbol : asset_symbol_type }.

#[export] Instance asset_eq_dec : EqDecision asset.
Proof. solve_decision. Defined.

Definition asset_default : asset := mk_asset 0 HIVE_SYMBOL.

Section asset_ops.
Context `{L : FcLib}.

Definition asset_add (a b : asset) : result asset :=
  _ ← check (sym_eqb (symbol a) (symbol b)) AssertAsset;
  r ← safe_add (amount a) (amount b);
  Ok (mk_asset r (symbol a)).

Definition asset_sub (a b : asset) : result asset :=
  _ ← check (sym_eqb (symbol a) (symbol b)) AssertAsset;
  r ← safe_sub (amount a) (amount b);
  Ok (mk_asset r (symbol a)).

Definition asset_neg (a : asset) : result asset :=
  r ← safe_neg (amount a); Ok (mk_asset r (symbol a)).
End asset_ops.

Definition asset_eqb (a b : asset) : bool :=
  sym_eqb (symbol a) (symbol b) && (amount a =? amount b).

(** The ordering operators refuse assets of different symbols. *)
Definition asset_cmp (op : Z -> Z -> bool) (a b : asset) : result bool :=
  _ ← check (sym_eqb (symbol a) (symbol b)) AssertAsset;
  Ok (op (amount a) (amount b)).
Definition asset_ltb : asset -> asset -> result bool := asset_cmp Z.ltb.
Definition asset_leb : asset -> asset -> result bool := asset_cmp Z.leb.
Definition asset_gtb : asset -> asset -> result bool := asset_cmp Z.gtb.
Definition asset_geb : asset -> asset -> result bool := asset_cmp Z.geb.
Definition asset_neb : asset -> asset -> result bool := asset_cmp (fun x y => negb (x =? y)).

(** ** Prices *)

Record price : Set := mk_price { base : asset; quote : asset }.

#[export] Instance price_eq_dec : EqDecision price.
Proof. solve_decision. Defined.

Definition price_default : price := mk_price asset_default asset_default.

Definition validate_asset_greater_than_zero (a : asset) : result unit :=
  check (0 <? amount a) AssertAsset.

Definition price_validate (p : price) : result unit :=
  _ ← validate_asset_greater_than_zero (base p);
  _ ← validate_asset_greater_than_zero (quote p);
  check (negb (sym_eqb (symbol (base p)) (symbol (quote p)))) AssertAsset.

(** The constructor that validates its arguments. *)
Definition make_price (b q : asset) : result price :=
  let p := mk_price b q in
  _ ← price_validate p; Ok p.

Definition price_max (b q : asset_symbol_type) : result price :=
  make_price (mk_asset HIVE_MAX_SATOSHIS b) (mk_asset 1 q).
Definition price_min (b q : asset_symbol_type) : result price :=
  make_price (mk_asset 1 b) (mk_asset HIVE_MAX_SATOSHIS q).

(** [operator~] *)
Definition price_inverse (p : price) : result price := make_price (quote p) (base p).

(** The six comparison operators come from one macro. *)
Inductive cmp_op : Set := OpEq | OpNe | OpLt | OpLe | OpGt | OpGe.

Definition cmp_Z (op : cmp_op) (x y : Z) : bool :=
  match op with
  | OpEq => x =? y
  | OpNe => negb (x =? y)
  | OpLt => x <? y
  | OpLe => x <=? y
  | OpGt => y <? x
  | OpGe => y <=? x
  end.

(** Lexicographic comparison of [std::tie] pairs. *)
Definition pair_ltb (x y : Z * Z) : bool :=
  (x.1 <? y.1) || ((x.1 =? y.1) && (x.2 <? y.2)).
Definition pair_eqb (x y : Z * Z) : bool := (x.1 =? y.1) && (x.2 =? y.2).

Definition cmp_pair (op : cmp_op) (x y : Z * Z) : bool :=
  match op with
  | OpEq => pair_eqb x y
  | OpNe => negb (pair_eqb x y)
  | OpLt => pair_ltb x y
  | OpLe => negb (pair_ltb y x)
  | OpGt => pair_ltb y x
  | OpGe => negb (pair_ltb x y)
  end.

Definition BQ (p : price) : Z * Z := (asset_num (symbol (base p)), asset_num (symbol (quote p))).

Definition price_cmp (op : cmp_op) (a b : price) : bool :=
  if negb (pair_eqb (BQ a) (BQ b)) then cmp_pair op (BQ a) (BQ b)
  else
    let amult := u128 (u128 (amount (quote b)) * u128 (amount (base a))) in
    let bmult := u128 (u128 (amount (quote a)) * u128 (amount (base b))) in
    cmp_Z op amult bmult.

Definition price_is_null (p : price) : bool := price_cmp OpEq p price_default.

(** ** Conversion of an amount by a price *)

(** [uint128_t( v < 0 ? -v : v )] *)
Definition magnitude (v : Z) : Z := u128 (if v <? 0 then i64 (- v) else v).

Definition u128_div (n d : Z) : result Z :=
  if d =? 0 then Throw DivideByZero else Ok (n / d).

Section conversions.
Context `{L : FcLib}.

(** The narrowing back to a share: [is_negative ? -x : x] computed on
    [uint64_t], then stored as a share. *)
Definition signed_share (is_negative : bool) (r : Z) : result Z :=
  x ← uint128_to_uint64 r;
  Ok (share_of_u64 (if is_negative then u64 (- x) else x)).

(** [( result * m ) / d] narrowed to a share; [m] and [d] are 64-bit amounts. *)
Definition mul_div_share (v m d : Z) : result Z :=
  r ← u128_div (u128 (magnitude v * u128 m)) (u128 d);
  signed_share (v <? 0) r.

(** [operator*] of an asset and a price. *)
Definition asset_mul (a : asset) (b : price) : result asset :=
  if sym_eqb (symbol a) (symbol (base b)) then
    r ← mul_div_share (amount a) (amount (quote b)) (amount (base b));
    Ok (mk_asset r (symbol (quote b)))
  else
    _ ← check (sym_eqb (symbol a) (symbol (quote b))) AssertAsset;
    r ← mul_div_share (amount a) (amount (base b)) (amount (quote b));
    Ok (mk_asset r (symbol (base b))).

(** [( result * m * sm ) / ( uint128_t( d ) * sd )] narrowed to a share. *)
Definition mul_div_scaled (v m sm d sd : Z) : result Z :=
  r ← u128_div (u128 (u128 (magnitude v * u128 m) * sm)) (u128 (u128 d * sd));
  signed_share (v <? 0) r.

Definition multiply_with_fee (a : asset) (p : price) (fee : Z) (apply_fee_to : asset_symbol_type) :
    result asset :=
  '(scale_b, scale_q) ←
    (if sym_eqb apply_fee_to (symbol (base p))
     then Ok (u16 (HIVE_100_PERCENT + fee), HIVE_100_PERCENT)
     else _ ← check (sym_eqb apply_fee_to (symbol (quote p))) AssertAsset;
          Ok (HIVE_100_PERCENT, u16 (HIVE_100_PERCENT + fee)));
  if sym_eqb (symbol a) (symbol (base p)) then
    r ← mul_div_scaled (amount a) (amount (quote p)) scale_q (amount (base p)) scale_b;
    Ok (mk_asset r (symbol (quote p)))
  else
    _ ← check (sym_eqb (symbol a) (symbol (quote p))) AssertAsset;
    r ← mul_div_scaled (amount a) (amount (base p)) scale_b (amount (quote p)) scale_q;
    Ok (mk_asset r (symbol (base p))).
End conversions.

(** ** Assets and prices of a fixed symbol *)

Record tiny_asset (sym : Z) : Set := mk_tiny { tamount : Z }.
Arguments mk_tiny {sym} _.
Arguments tamount {sym} _.

Abbreviation HBD_asset := (tiny_asset HIVE_ASSET_NUM_HBD).
Abbreviation HIVE_asset := (tiny_asset HIVE_ASSET_NUM_HIVE).
Abbreviation VEST_asset := (tiny_asset HIVE_ASSET_NUM_VESTS).

Definition tiny_to_asset {sym} (a : tiny_asset sym) : asset :=
  mk_asset (tamount a) (from_asset_num sym).

Definition tiny_is_compatible (sym : Z) (a : asset) : bool := asset_num (symbol a) =? sym.

(** The constructor from an [asset], which checks the symbol. *)
Definition tiny_of_asset (sym : Z) (a : asset) : result (tiny_asset sym) :=
  _ ← check (tiny_is_compatible sym a) AssertAsset; Ok (mk_tiny (amount a)).

Definition tiny_ltb {sym} (a b : tiny_asset sym) : bool := tamount a <? tamount b.
Definition tiny_min {sym} (a b : tiny_asset sym) : tiny_asset sym := if tiny_ltb b a then b else a.

Section tiny_ops.
Context `{L : FcLib}.
Definition tiny_add {sym} (a b : tiny_asset sym) : result (tiny_asset sym) :=
  r ← safe_add (tamount a) (tamount b); Ok (mk_tiny r).
Definition tiny_sub {sym} (a b : tiny_asset sym) : result (tiny_asset sym) :=
  r ← safe_sub (tamount a) (tamount b); Ok (mk_tiny r).
Definition tiny_neg {sym} (a : tiny_asset sym) : result (tiny_asset sym) :=
  r ← safe_neg (tamount a); Ok (mk_tiny r).
End tiny_ops.

Record tiny_price (bs qs : Z) : Set := mk_tprice { tbase : tiny_asset bs; tquote : tiny_asset qs }.
Arguments mk_tprice {bs qs} _ _.
Arguments tbase {bs qs} _.
Arguments tquote {bs qs} _.

Abbreviation HBD_price := (tiny_price HIVE_ASSET_NUM_HBD HIVE_ASSET_NUM_HIVE).
Abbreviation VEST_price := (tiny_price HIVE_ASSET_NUM_VESTS HIVE_ASSET_NUM_HIVE).

Definition tprice_validate {bs qs} (p : tiny_price bs qs) : result unit :=
  _ ← check (0 <? tamount (tbase p)) AssertAsset;
  check (0 <? tamount (tquote p)) AssertAsset.

Definition tprice_is_null {bs qs} (p : tiny_price bs qs) : bool :=
  (tamount (tbase p) =? 0) || (tamount (tquote p) =? 0).

Definition tprice_is_compatible (bs qs : Z) (p : price) : bool :=
  tiny_is_compatible bs (base p) && tiny_is_compatible qs (quote p).
Definition tprice_is_assignable (bs qs : Z) (p : price) : bool :=
  tprice_is_compatible bs qs p
  || (tiny_is_compatible bs (quote p) && tiny_is_compatible qs (base p)).

(** The constructor from a [price]: a price written the other way round is
    normalized. *)
Definition tprice_of_price (bs qs : Z) (p : price) : result (tiny_price bs qs) :=
  '(b, q) ←
    (if tprice_is_compatible bs qs p then
       b ← tiny_of_asset bs (base p); q ← tiny_of_asset qs (quote p); Ok (b, q)
     else
       b ← tiny_of_asset bs (quote p); q ← tiny_of_asset qs (base p); Ok (b, q));
  let r := mk_tprice b q in
  _ ← tprice_validate r; Ok r.

Definition tprice_to_price {bs qs} (p : tiny_price bs qs) : result price :=
  make_price (tiny_to_asset (tbase p)) (tiny_to_asset (tquote p)).

Definition tprice_eqb {bs qs} (a b : tiny_price bs qs) : bool :=
  u128 (u128 (tamount (tquote b)) * u128 (tamount (tbase a)))
  =? u128 (u128 (tamount (tquote a)) * u128 (tamount (tbase b))).
Definition tprice_ltb {bs qs} (a b : tiny_price bs qs) : bool :=
  u128 (u128 (tamount (tquote b)) * u128 (tamount (tbase a)))
  <? u128 (u128 (tamount (tquote a)) * u128 (tamount (tbase b))).
Definition tprice_neb {bs qs} (a b : tiny_price bs qs) : bool := negb (tprice_eqb a b).
Definition tprice_leb {bs qs} (a b : tiny_price bs qs) : bool := negb (tprice_ltb b a).
Definition tprice_gtb {bs qs} (a b : tiny_price bs qs) : bool := tprice_ltb b a.
Definition tprice_geb {bs qs} (a b : tiny_price bs qs) : bool := negb (tprice_ltb a b).

Section tiny_conversions.
Context `{L : FcLib}.

(** [operator*] from the quote currency to the base currency, and back. *)
Definition tiny_mul_quote {bs qs} (a : tiny_asset qs) (p : tiny_price bs qs) : result (tiny_asset bs) :=
  _ ← check (0 <? tamount (tquote p)) AssertAsset;
  r ← mul_div_share (tamount a) (tamount (tbase p)) (tamount (tquote p));
  Ok (mk_tiny r).

Definition tiny_mul_base {bs qs} (a : tiny_asset bs) (p : tiny_price bs qs) : result (tiny_asset qs) :=
  _ ← check (0 <? tamount (tbase p)) AssertAsset;
  r ← mul_div_share (tamount a) (tamount (tquote p)) (tamount (tbase p));
  Ok (mk_tiny r).

(** [multiply_with_fee< _APPLY_FEE_TO >] in its two overloads;
    [apply_to_base] is the compile-time test [_APPLY_FEE_TO == _BASE_SYMBOL]. *)
Definition tiny_fee_quote (apply_to_base : bool) {bs qs} (a : tiny_asset qs) (p : tiny_price bs qs)
    (fee : Z) : result (tiny_asset bs) :=
  r ← (if apply_to_base
       then mul_div_scaled (tamount a) (tamount (tbase p)) (HIVE_100_PERCENT + fee)
              (tamount (tquote p)) HIVE_100_PERCENT
       else mul_div_scaled (tamount a) (tamount (tbase p)) HIVE_100_PERCENT
              (tamount (tquote p)) (HIVE_100_PERCENT + fee));
  Ok (mk_tiny r).

Definition tiny_fee_base (apply_to_base : bool) {bs qs} (a : tiny_asset bs) (p : tiny_price bs qs)
    (fee : Z) : result (tiny_asset qs) :=
  r ← (if apply_to_base
       then mul_div_scaled (tamount a) (tamount (tquote p)) HIVE_100_PERCENT
              (tamount (tbase p)) (HIVE_100_PERCENT + fee)
       else mul_div_scaled (tamount a) (tamount (tquote p)) (HIVE_100_PERCENT + fee)
              (tamount (tbase p)) HIVE_100_PERCENT);
  Ok (mk_tiny r).

(** chain/util/asset.hpp *)
Definition to_hbd (p : HBD_price) (hive : HIVE_asset) : result HBD_asset :=
  if tprice_is_null p then Ok (mk_tiny 0) else tiny_mul_quote hive p.

Definition to_hive (p : HBD_price) (hbd : HBD_asset) : result HIVE_asset :=
  if tprice_is_null p then Ok (mk_tiny 0) else tiny_mul_base hbd p.

(** hive_collateral.hpp *)
Definition estimate_hive_collateral (current_median_history current_min_history : price)
    (hbd_amount_to_get : asset) : result asset :=
  _ ← check (negb (price_is_null current_median_history)) AssertAsset;
  needed_hive ← multiply_with_fee hbd_amount_to_get current_min_history
                  HIVE_COLLATERALIZED_CONVERSION_FEE HIVE_SYMBOL;
  r ← uint128_to_uint64
        (u128 (u128 (amount needed_hive) * HIVE_CONVERSION_COLLATERAL_RATIO) / HIVE_100_PERCENT);
  Ok (mk_asset (share_of_u64 r) HIVE_SYMBOL).
End tiny_conversions.

(** hbd_interest.hpp: the updated [hbd_seconds] and the interest.  The elapsed
    time is the difference of two unsigned 32-bit second counts, taken in
    64-bit signed arithmetic. *)
Definition evaluate_hbd_interest (hbd_seconds head_block_time hbd hbd_seconds_last_update
    hbd_interest_rate : Z) (do_evaluation : bool) : Z * Z :=
  let s := u128 (hbd_seconds + u128 (u128 hbd * u128 (head_block_time - hbd_seconds_last_update))) in
  if negb (s =? 0) && do_evaluation
  then (s, u128 (s / HIVE_SECONDS_PER_YEAR * hbd_interest_rate) / HIVE_100_PERCENT)
  else (s, 0).

(** ** Checked arithmetic *)

Lemma sym_eqb_spec a b : sym_eqb a b = true <-> a = b.
Proof.
  unfold sym_eqb. rewrite Z.eqb_eq. destruct a, b; simpl. naive_solver.
Qed.

Lemma sym_eqb_refl a : sym_eqb a a = true.
Proof. by apply sym_eqb_spec. Qed.

Lemma sym_eqb_neq a b : a <> b -> sym_eqb a b = false.
Proof. intros H. destruct (sym_eqb a b) eqn:E; [|done]. by apply sym_eqb_spec in E. Qed.

Definition asset_wf (a : asset) : Prop := in_s 64 (amount a).

Section asset_arith.
Context `{L : FcLib} `{!FcLaws L}.

Lemma asset_add_Ok a b c : asset_wf a -> asset_wf b -> asset_add a b = Ok c ->
  symbol a = symbol b /\ c = mk_asset (amount a + amount b) (symbol a) /\ asset_wf c.
Proof.
  intros Ha Hb H. unfold asset_add in H. result_inv.
  apply sym_eqb_spec in H. apply safe_add_Ok in H0 as [-> ?]; auto.
Qed.

Lemma asset_sub_Ok a b c : asset_wf a -> asset_wf b -> asset_sub a b = Ok c ->
  symbol a = symbol b /\ c = mk_asset (amount a - amount b) (symbol a) /\ asset_wf c.
Proof.
  intros Ha Hb H. unfold asset_sub in H. result_inv.
  apply sym_eqb_spec in H. apply safe_sub_Ok in H0 as [-> ?]; auto.
Qed.

Lemma asset_add_same a b : asset_wf a -> asset_wf b -> symbol a = symbol b ->
  in_s 64 (amount a + amount b) ->
  asset_add a b = Ok (mk_asset (amount a + amount b) (symbol a)).
Proof.
  intros. unfold asset_add. rewrite (proj2 (sym_eqb_spec _ _)) by done. simpl.
  by rewrite safe_add_exact.
Qed.

Lemma asset_sub_same a b : asset_wf a -> asset_wf b -> symbol a = symbol b ->
  in_s 64 (amount a - amount b) ->
  asset_sub a b = Ok (mk_asset (amount a - amount b) (symbol a)).
Proof.
  intros. unfold asset_sub. rewrite (proj2 (sym_eqb_spec _ _)) by done. simpl.
  by rewrite safe_sub_exact.
Qed.
End asset_arith.

(** ** Multiplication by a ratio of amounts *)

Lemma magnitude_abs v : in_s 64 v -> v <> int64_min -> magnitude v = Z.abs v.
Proof.
  unfold int64_min, in_s. intros Hv Hm. unfold magnitude. destruct (v <? 0) eqn:E; to_prop.
  - rewrite (swrap_id 64) by (unfold in_s; lia). rewrite uwrap_id by (unfold in_u; lia). lia.
  - rewrite uwrap_id by (unfold in_u; lia). lia.
Qed.

Lemma mul_u128 x y : 0 <= x < 2 ^ 64 -> 0 <= y < 2 ^ 64 -> u128 (x * y) = x * y.
Proof. intros. apply uwrap_id. unfold in_u. change (2 ^ 128) with (2 ^ 64 * 2 ^ 64). nia. Qed.

(** An amount that can be a side of a valid price. *)
Definition pos_amount (x : Z) : Prop := 0 < x < 2 ^ 63.

Section mul_div.
Context `{L : FcLib} `{!FcLaws L}.

Lemma signed_share_small neg r : 0 <= r < 2 ^ 63 ->
  signed_share neg r = Ok (if neg then - r else r).
Proof.
  intros Hr. unfold signed_share.
  rewrite uint128_to_uint64_fits by (unfold in_u; lia). simpl. f_equal. destruct neg.
  - rewrite share_of_u64_narrow by (apply uwrap_range; lia).
    apply swrap_uwrap_opp; [lia|]. unfold in_s. lia.
  - rewrite share_of_u64_narrow by (unfold in_u; lia). apply swrap_id; [lia|]. unfold in_s. lia.
Qed.

Lemma mul_div_share_quot v m d :
  in_s 64 v -> v <> int64_min -> pos_amount m -> pos_amount d ->
  mul_div_share v m d = signed_share (v <? 0) (Z.abs v * m / d).
Proof.
  unfold pos_amount, in_s, int64_min. intros Hv Hm Hmp Hd.
  unfold mul_div_share, u128_div.
  rewrite magnitude_abs by done.
  rewrite (uwrap_id 128 m), (uwrap_id 128 d) by (unfold in_u; lia).
  rewrite mul_u128 by lia.
  destruct (d =? 0) eqn:E; to_prop; [lia|done].
Qed.

(** The conversion is the quotient truncated towards zero, whenever that fits. *)
Lemma mul_div_share_exact v m d :
  in_s 64 v -> v <> int64_min -> pos_amount m -> pos_amount d ->
  Z.abs v * m / d < 2 ^ 63 ->
  mul_div_share v m d = Ok (Z.quot (v * m) d).
Proof.
  intros Hv Hmin Hm Hd Hq. rewrite mul_div_share_quot by done.
  unfold pos_amount in *.
  assert (0 <= Z.abs v * m / d) by (apply Z.div_pos; nia).
  rewrite signed_share_small by lia. f_equal.
  destruct (v <? 0) eqn:E; to_prop.
  - rewrite Z.abs_neq by lia.
    replace (v * m) with (- (- v * m)) by lia.
    rewrite Z.quot_opp_l by lia. rewrite Z.quot_div_nonneg by nia. done.
  - rewrite Z.abs_eq by lia. rewrite Z.quot_div_nonneg by nia. done.
Qed.

(** A quotient between 2^63 and 2^64 passes the narrowing unnoticed and comes
    out with the opposite sign. *)
Lemma signed_share_wraps r : 2 ^ 63 <= r < 2 ^ 64 ->
  signed_share false r = Ok (r - 2 ^ 64).
Proof.
  intros Hr. unfold signed_share.
  rewrite uint128_to_uint64_fits by (unfold in_u; lia). simpl. f_equal.
  rewrite share_of_u64_narrow by (unfold in_u; lia). unfold swrap.
  change (2 ^ (64 - 1)) with (2 ^ 63). div_lia.
Qed.
End mul_div.

(** ** Valid prices *)

(** What [price::validate] establishes of a price with 64-bit amounts. *)
Definition price_ok (p : price) : Prop :=
  pos_amount (amount (base p)) /\ pos_amount (amount (quote p)) /\
  symbol (base p) <> symbol (quote p).

Definition price_okb (p : price) : bool :=
  (0 <? amount (base p)) && (amount (base p) <? 2 ^ 63) &&
  (0 <? amount (quote p)) && (amount (quote p) <? 2 ^ 63) &&
  negb (sym_eqb (symbol (base p)) (symbol (quote p))).

Lemma price_okb_ok p : price_okb p = true -> price_ok p.
Proof.
  unfold price_okb, price_ok, pos_amount. intros H. to_prop.
  split_and!; [lia|lia|lia|lia|]. intros Heq. by rewrite Heq, sym_eqb_refl in *.
Qed.

Lemma price_validate_ok p : asset_wf (base p) -> asset_wf (quote p) ->
  price_validate p = Ok tt <-> price_ok p.
Proof.
  unfold asset_wf, in_s. intros Hb Hq.
  unfold price_validate, validate_asset_greater_than_zero, price_ok, pos_amount.
  rewrite !check_bind_Ok, check_Ok, negb_true_iff, !Z.ltb_lt. split.
  - intros (? & ? & Hs). split_and!; try lia. intros Heq. by rewrite Heq, sym_eqb_refl in Hs.
  - intros ([] & [] & Hs). split_and!; [lia|lia|by apply sym_eqb_neq].
Qed.

(** A price has two directions; [other p s] is the asset of the price on the
    side opposite to the symbol [s], [same p s] the one on its side. *)
Definition same_side (p : price) (s : asset_symbol_type) : asset :=
  if sym_eqb s (symbol (base p)) then base p else quote p.
Definition other_side (p : price) (s : asset_symbol_type) : asset :=
  if sym_eqb s (symbol (base p)) then quote p else base p.

Definition in_market (p : price) (s : asset_symbol_type) : Prop :=
  s = symbol (base p) \/ s = symbol (quote p).

Lemma sides_pos p s : price_ok p ->
  pos_amount (amount (same_side p s)) /\ pos_amount (amount (other_side p s)).
Proof. intros (? & ? & _). unfold same_side, other_side. by destruct (sym_eqb _ _). Qed.

Lemma in_market_other p s : in_market p (symbol (other_side p s)).
Proof. unfold in_market, other_side. destruct (sym_eqb _ _); auto. Qed.

Lemma sides_swap p s : price_ok p -> in_market p s ->
  same_side p (symbol (other_side p s)) = other_side p s /\
  other_side p (symbol (other_side p s)) = same_side p s /\
  symbol (same_side p s) = s.
Proof.
  intros (_ & _ & Hne) Hs. unfold same_side, other_side.
  destruct (sym_eqb s (symbol (base p))) eqn:E.
  - apply sym_eqb_spec in E as ->. rewrite (sym_eqb_neq (symbol (quote p))) by done. done.
  - rewrite sym_eqb_refl. split_and!; try done.
    destruct Hs as [->| ->]; [|done]. by rewrite sym_eqb_refl in E.
Qed.

Section conversion.
Context `{L : FcLib} `{!FcLaws L}.

Lemma asset_mul_sides a p : price_ok p -> in_market p (symbol a) ->
  asset_mul a p =
    (r ← mul_div_share (amount a) (amount (other_side p (symbol a))) (amount (same_side p (symbol a)));
     Ok (mk_asset r (symbol (other_side p (symbol a))))).
Proof.
  intros Hp Hm. unfold asset_mul, same_side, other_side.
  destruct (sym_eqb (symbol a) (symbol (base p))) eqn:E; [done|].
  destruct Hm as [Hm|Hm]; [by rewrite Hm, sym_eqb_refl in E|].
  by rewrite Hm, sym_eqb_refl.
Qed.

Lemma asset_mul_value a p :
  price_ok p -> in_market p (symbol a) -> in_s 64 (amount a) -> amount a <> int64_min ->
  Z.abs (amount a) * amount (other_side p (symbol a)) / amount (same_side p (symbol a)) < 2 ^ 63 ->
  asset_mul a p =
    Ok (mk_asset (Z.quot (amount a * amount (other_side p (symbol a))) (amount (same_side p (symbol a))))
                 (symbol (other_side p (symbol a)))).
Proof.
  intros Hp Hm Ha Hmin Hq. destruct (sides_pos p (symbol a) Hp).
  rewrite asset_mul_sides by done. by rewrite mul_div_share_exact.
Qed.

(** Converting an asset by a valid price gives the amount times the ratio
    of the price, truncated towards zero, in the other currency of the price:
    exact in both directions and for both signs, whenever the quotient fits a
    signed 64-bit amount. *)
Theorem asset_mul_exact a p :
  price_ok p -> in_market p (symbol a) -> in_s 64 (amount a) -> amount a <> int64_min ->
  Z.abs (amount a) * amount (other_side p (symbol a)) / amount (same_side p (symbol a)) < 2 ^ 63 ->
  asset_mul a p =
    Ok (mk_asset (Z.quot (amount a * amount (other_side p (symbol a))) (amount (same_side p (symbol a))))
                 (symbol (other_side p (symbol a)))).
Proof. apply asset_mul_value. Qed.

(** Converting an amount and converting it back at the same price never
    creates value: both conversions succeed and what comes back is in the
    original currency and at most the original amount. *)
Theorem asset_mul_back_no_gain a p :
  price_ok p -> in_market p (symbol a) -> 0 <= amount a < 2 ^ 63 ->
  amount a * amount (other_side p (symbol a)) / amount (same_side p (symbol a)) < 2 ^ 63 ->
  exists b c, asset_mul a p = Ok b /\ asset_mul b p = Ok c /\
    symbol c = symbol a /\ 0 <= amount c <= amount a.
Proof.
  intros Hp Hm Ha Hq. destruct (sides_pos p (symbol a) Hp) as [Hs Ho].
  destruct (sides_swap p (symbol a) Hp Hm) as (E1 & E2 & E3).
  unfold pos_amount in *.
  set (m := amount (other_side p (symbol a))) in *.
  set (d := amount (same_side p (symbol a))) in *.
  assert (0 <= amount a * m / d) as Hb by (apply Z.div_pos; nia).
  assert (d * (amount a * m / d) <= amount a * m) as Hd by (apply Z.mul_div_le; lia).
  assert ((amount a * m / d) * d / m <= amount a) as Hc.
  { apply Z.div_le_upper_bound; lia. }
  assert (0 <= (amount a * m / d) * d / m) by (apply Z.div_pos; nia).
  eexists _, _. split; [|split; [|split]].
  - apply asset_mul_value; try done; unfold in_s, int64_min; try lia. by rewrite Z.abs_eq by lia.
  - apply asset_mul_value; cbn [amount symbol]; rewrite ?E1, ?E2; try done;
      fold m d; rewrite ?Z.quot_div_nonneg by nia; rewrite ?Z.abs_eq by lia;
      unfold in_s, int64_min; try lia. apply in_market_other.
  - cbn [symbol]. by rewrite E2.
  - cbn [amount symbol]. rewrite E1, E2. fold m d.
    rewrite (Z.quot_div_nonneg (amount a * m)) by nia.
    rewrite Z.quot_div_nonneg by nia. lia.
Qed.

(** The narrowing of the 128-bit quotient is to an unsigned 64-bit value:
    for a positive amount whose exact conversion lies between 2^63 and 2^64 the
    conversion does not throw, it returns a negative amount. *)
Theorem asset_mul_wraps_negative a p :
  price_ok p -> in_market p (symbol a) -> 0 < amount a < 2 ^ 63 ->
  2 ^ 63 <= amount a * amount (other_side p (symbol a)) / amount (same_side p (symbol a)) < 2 ^ 64 ->
  exists b, asset_mul a p = Ok b /\ amount b < 0.
Proof.
  intros Hp Hm Ha Hq. destruct (sides_pos p (symbol a) Hp).
  rewrite asset_mul_sides by done.
  rewrite mul_div_share_quot by (unfold in_s, int64_min; first [lia|done]).
  rewrite (proj2 (Z.ltb_ge _ _)) by lia. rewrite Z.abs_eq by lia.
  rewrite signed_share_wraps by done. eexists. split; [done|]. cbn [amount]. lia.
Qed.
End conversion.

Definition sample_price : price := mk_price (mk_asset 250 HBD_SYMBOL) (mk_asset 1000 HIVE_SYMBOL).

Lemma asset_mul_exact_witness :
  @asset_mul fc_ref (mk_asset (-1003) HIVE_SYMBOL) sample_price = Ok (mk_asset (-250) HBD_SYMBOL).
Proof.
  refine (@asset_mul_exact fc_ref fc_ref_laws (mk_asset (-1003) HIVE_SYMBOL) sample_price _ _ _ _ _).
  - apply price_okb_ok. reflexivity.
  - right. reflexivity.
  - apply in_sb_spec. reflexivity.
  - discriminate.
  - reflexivity.
Defined.

Lemma asset_mul_back_no_gain_witness :
  exists b c, @asset_mul fc_ref (mk_asset 1003 HIVE_SYMBOL) sample_price = Ok b /\
    @asset_mul fc_ref b sample_price = Ok c /\
    symbol c = HIVE_SYMBOL /\ 0 <= amount c <= 1003.
Proof.
  refine (@asset_mul_back_no_gain fc_ref fc_ref_laws (mk_asset 1003 HIVE_SYMBOL) sample_price _ _ _ _).
  - apply price_okb_ok. reflexivity.
  - right. reflexivity.
  - cbn [amount]. lia.
  - reflexivity.
Defined.

Lemma asset_mul_wraps_negative_witness :
  exists b, @asset_mul fc_ref (mk_asset 4000000000000000000 HBD_SYMBOL) sample_price = Ok b /\ amount b < 0.
Proof.
  refine (@asset_mul_wraps_negative fc_ref fc_ref_laws (mk_asset 4000000000000000000 HBD_SYMBOL)
            sample_price _ _ _ _).
  - apply price_okb_ok. reflexivity.
  - left. reflexivity.
  - cbn [amount]. lia.
  - split; vm_compute; congruence.
Defined.

(** ** The order of prices *)

Section price_order.
Implicit Types p q r : price.

Lemma price_cmp_cross op p q : price_ok p -> price_ok q -> BQ p = BQ q ->
  price_cmp op p q =
  cmp_Z op (amount (quote q) * amount (base p)) (amount (quote p) * amount (base q)).
Proof.
  intros ([] & [] & _) ([] & [] & _) Heq. unfold price_cmp, pair_eqb.
  rewrite Heq, !Z.eqb_refl. cbn [negb andb].
  rewrite !(uwrap_id 128 (amount _)) by (unfold in_u; lia).
  by rewrite !mul_u128 by lia.
Qed.

Lemma BQ_dec p q : BQ p = BQ q \/ BQ p <> BQ q.
Proof. destruct (decide (BQ p = BQ q)); auto. Qed.

Lemma price_cmp_market op p q : BQ p <> BQ q -> price_cmp op p q = cmp_pair op (BQ p) (BQ q).
Proof.
  intros Hne. unfold price_cmp. destruct (pair_eqb (BQ p) (BQ q)) eqn:E; [|done].
  unfold pair_eqb in E. to_prop. destruct (BQ p), (BQ q). simpl in *. by subst.
Qed.

Lemma pair_ltb_spec x y :
  pair_ltb x y = true <-> x.1 < y.1 \/ (x.1 = y.1 /\ x.2 < y.2).
Proof. unfold pair_ltb. rewrite orb_true_iff, andb_true_iff, !Z.ltb_lt, Z.eqb_eq. done. Qed.

Lemma price_lt_spec p q : price_ok p -> price_ok q ->
  price_cmp OpLt p q = true <->
  pair_ltb (BQ p) (BQ q) = true \/
  (BQ p = BQ q /\ amount (quote q) * amount (base p) < amount (quote p) * amount (base q)).
Proof.
  intros Hp Hq. destruct (BQ_dec p q) as [E|E].
  - rewrite price_cmp_cross by done. simpl. rewrite Z.ltb_lt, pair_ltb_spec, E. split; [auto|].
    intros [|[_ ?]]; [lia|done].
  - rewrite price_cmp_market by done. simpl. naive_solver.
Qed.

Lemma cross_trans (b1 q1 b2 q2 b3 q3 : Z) :
  0 < q1 -> 0 < q2 -> 0 < q3 -> 0 < b2 ->
  q2 * b1 < q1 * b2 -> q3 * b2 < q2 * b3 -> q3 * b1 < q1 * b3.
Proof.
  intros. apply (Z.mul_lt_mono_pos_l q2); [lia|].
  assert (q3 * (q2 * b1) < q3 * (q1 * b2)) by (apply Z.mul_lt_mono_pos_l; lia).
  assert (q1 * (q3 * b2) < q1 * (q2 * b3)) by (apply Z.mul_lt_mono_pos_l; lia).
  lia.
Qed.

(** On valid prices of one market the six comparison operators compare the
    rational numbers base/quote exactly: no 128-bit product wraps. *)
Theorem price_cmp_is_rational op p q : price_ok p -> price_ok q -> BQ p = BQ q ->
  price_cmp op p q =
  cmp_Z op (amount (base p) * amount (quote q)) (amount (base q) * amount (quote p)).
Proof.
  intros. rewrite price_cmp_cross by done.
  by rewrite (Z.mul_comm (amount (quote q))), (Z.mul_comm (amount (quote p))).
Qed.

(** [operator<] orders all valid prices, of one or of several markets, as a
    strict weak order compatible with the other operators: it is irreflexive
    and transitive, and two prices that are not ordered are equal in value.
    This is what the limit-order index needs of its key. *)
Theorem price_lt_strict_weak_order p q r : price_ok p -> price_ok q -> price_ok r ->
  price_cmp OpLt p p = false /\
  (price_cmp OpLt p q = true -> price_cmp OpLt q r = true -> price_cmp OpLt p r = true) /\
  (price_cmp OpLt p q = false -> price_cmp OpLt q p = false -> price_cmp OpEq p q = true) /\
  price_cmp OpGt p q = price_cmp OpLt q p.
Proof.
  intros Hp Hq Hr. split_and!.
  - rewrite price_cmp_cross by done. simpl. apply Z.ltb_ge. lia.
  - rewrite !price_lt_spec, !pair_ltb_spec by done.
    intros [H1|[E1 H1]] [H2|[E2 H2]].
    + left. lia.
    + left. by rewrite <- E2.
    + left. by rewrite E1.
    + right. split; [congruence|].
      destruct Hp as ([] & [] & _), Hq as ([] & [] & _), Hr as ([] & [] & _).
      eapply cross_trans; [| | | |exact H1|exact H2]; lia.
  - destruct (BQ_dec p q) as [E|E].
    + rewrite !price_cmp_cross by done. simpl. intros. to_prop. apply Z.eqb_eq. lia.
    + rewrite !price_cmp_market by done. simpl. unfold pair_ltb, pair_eqb.
      intros. to_prop. exfalso. apply E. destruct (BQ p), (BQ q). simpl in *. to_prop.
      assert (z = z1) by lia. subst. rewrite Z.eqb_refl in *. simpl in *. to_prop. f_equal. lia.
  - destruct (BQ_dec p q) as [E|E].
    + rewrite !price_cmp_cross by done. done.
    + by rewrite !price_cmp_market by done.
Qed.
End price_order.

Definition sample_price' : price := mk_price (mk_asset 251 HBD_SYMBOL) (mk_asset 1000 HIVE_SYMBOL).

Lemma price_cmp_is_rational_witness :
  price_cmp OpLt sample_price sample_price' = cmp_Z OpLt (250 * 1000) (251 * 1000).
Proof.
  refine (price_cmp_is_rational OpLt sample_price sample_price' _ _ _).
  - apply price_okb_ok. reflexivity.
  - apply price_okb_ok. reflexivity.
  - reflexivity.
Defined.

Lemma price_lt_strict_weak_order_witness :
  price_cmp OpLt sample_price sample_price' = true /\
  price_cmp OpGt sample_price' sample_price = price_cmp OpLt sample_price sample_price'.
Proof.
  split; [reflexivity|].
  apply (price_lt_strict_weak_order sample_price' sample_price sample_price);
    apply price_okb_ok; reflexivity.
Defined.

(** ** Conversions with a fee *)

(** Evaluates the comparisons of constant symbols in the goal. *)
Ltac eval_symbols :=
  repeat match goal with
  | |- context [sym_eqb ?a ?b] =>
      let v := eval vm_compute in (sym_eqb a b) in change (sym_eqb a b) with v
  end.

Section fees.
Context `{L : FcLib} `{!FcLaws L}.

Lemma mul_div_scaled_value v m sm d sd :
  0 <= v < 2 ^ 63 -> pos_amount m -> pos_amount d -> 0 < sm < 2 ^ 32 -> 0 < sd < 2 ^ 32 ->
  v * m * sm < 2 ^ 128 -> (v * m * sm) / (d * sd) < 2 ^ 63 ->
  mul_div_scaled v m sm d sd = Ok ((v * m * sm) / (d * sd)).
Proof.
  unfold pos_amount. intros Hv Hm Hd Hsm Hsd H1 H2. unfold mul_div_scaled, u128_div.
  rewrite magnitude_abs by (unfold in_s, int64_min; lia). rewrite Z.abs_eq by lia.
  rewrite (uwrap_id 128 m), (uwrap_id 128 d) by (unfold in_u; lia).
  rewrite (mul_u128 v m) by lia.
  rewrite (uwrap_id 128 (v * m * sm)) by (unfold in_u; nia).
  rewrite (mul_u128 d sd) by lia.
  rewrite (proj2 (Z.eqb_neq (d * sd) 0)) by nia. simpl.
  rewrite (proj2 (Z.ltb_ge v 0)) by lia.
  apply signed_share_small. split; [apply Z.div_pos; nia|done].
Qed.

Lemma scaled_ge x d (sm sd : Z) : 0 <= x -> 0 < d -> 0 < sd <= sm -> x / d <= (x * sm) / (d * sd).
Proof.
  intros Hx Hd Hs. rewrite <- (Z.div_mul_cancel_r x d sd) by lia.
  apply Z.div_le_mono; nia.
Qed.

(** The dynamic and the compile-time conversion agree. *)
Definition tprice_as_price {bs qs} (p : tiny_price bs qs) : price :=
  mk_price (tiny_to_asset (tbase p)) (tiny_to_asset (tquote p)).

(** The run-time conversion with fee and the template conversion with the
    symbols fixed at compile time return the same result, for both directions
    and for a fee on either side, on every amount and price (overflowing ones
    included), as long as the 16-bit fee does not overflow the 16-bit scale. *)
Theorem multiply_with_fee_matches_tiny (to_base : bool) (h : HIVE_asset) (d : HBD_asset)
    (p : HBD_price) fee :
  0 <= fee <= 55535 ->
  let fee_sym := if to_base then HBD_SYMBOL else HIVE_SYMBOL in
  multiply_with_fee (tiny_to_asset h) (tprice_as_price p) fee fee_sym
    = tiny_to_asset <$> tiny_fee_quote to_base h p fee /\
  multiply_with_fee (tiny_to_asset d) (tprice_as_price p) fee fee_sym
    = tiny_to_asset <$> tiny_fee_base to_base d p fee.
Proof.
  intros Hf fee_sym.
  assert (u16 (HIVE_100_PERCENT + fee) = HIVE_100_PERCENT + fee) as Hw.
  { apply uwrap_id. unfold in_u, HIVE_100_PERCENT. lia. }
  unfold multiply_with_fee, tiny_fee_quote, tiny_fee_base, tprice_as_price, tiny_to_asset, fee_sym.
  rewrite Hw. destruct to_base; split;
    cbn -[mul_div_scaled HIVE_100_PERCENT Z.add]; eval_symbols;
    cbn -[mul_div_scaled HIVE_100_PERCENT Z.add]; by destruct (mul_div_scaled _ _ _ _ _).
Qed.

(** The collateral asked for a collateralized conversion of [h] HBD is twice
    the HIVE value of [h] at the minimum price increased by the 5% fee, so it
    is at least twice the fee-free value. *)
Theorem estimate_hive_collateral_covers (h b q : Z) (median : price) :
  let min_price := mk_price (mk_asset b HBD_SYMBOL) (mk_asset q HIVE_SYMBOL) in
  price_is_null median = false ->
  0 <= h < 2 ^ 63 -> pos_amount b -> pos_amount q ->
  h * q * 10500 < 2 ^ 128 -> (h * q * 10500) / (b * 10000) < 2 ^ 62 ->
  exists c, estimate_hive_collateral median min_price (mk_asset h HBD_SYMBOL) = Ok (mk_asset c HIVE_SYMBOL)
    /\ c = 2 * ((h * q * 10500) / (b * 10000)) /\ 2 * (h * q / b) <= c.
Proof.
  intros min_price Hmed Hh Hb Hq Hov Hfit. unfold pos_amount in *.
  assert (0 <= (h * q * 10500) / (b * 10000)) by (apply Z.div_pos; nia).
  eexists. split; [|split; [done|]].
  - unfold estimate_hive_collateral. rewrite Hmed. cbn [negb check mbind result_bind].
    unfold multiply_with_fee.
    change (u16 (HIVE_100_PERCENT + HIVE_COLLATERALIZED_CONVERSION_FEE)) with 10500.
    cbn [amount quote base symbol min_price]. eval_symbols.
    cbn [check mbind result_bind amount quote base symbol].
    change HIVE_100_PERCENT with 10000. change HIVE_CONVERSION_COLLATERAL_RATIO with 20000.
    rewrite mul_div_scaled_value by (try done; unfold pos_amount; lia). cbn [mbind result_bind amount].
    set (x := h * q * 10500 / (b * 10000)) in *.
    rewrite (uwrap_id 128 x) by (unfold in_u; lia).
    rewrite uwrap_id by (unfold in_u; lia).
    replace (x * 20000 / 10000) with (2 * x) by (replace (x * 20000) with (2 * x * 10000) by lia; by rewrite Z.div_mul).
    rewrite uint128_to_uint64_fits by (unfold in_u; lia). simpl.
    rewrite share_of_u64_narrow by (unfold in_u; lia).
    by rewrite swrap_id by (unfold in_s; lia).
  - pose proof (scaled_ge (h * q) b 10500 10000). nia.
Qed.
End fees.

Lemma multiply_with_fee_matches_tiny_witness :
  @multiply_with_fee fc_ref (mk_asset 1003 HIVE_SYMBOL)
      (mk_price (mk_asset 250 HBD_SYMBOL) (mk_asset 1000 HIVE_SYMBOL)) 500 HBD_SYMBOL
    = Ok (mk_asset 263 HBD_SYMBOL).
Proof.
  exact (proj1 (@multiply_with_fee_matches_tiny fc_ref true (mk_tiny 1003) (mk_tiny 0)
                  (mk_tprice (mk_tiny 250) (mk_tiny 1000)) 500 ltac:(lia))).
Defined.

Lemma estimate_hive_collateral_covers_witness :
  exists c, @estimate_hive_collateral fc_ref sample_price sample_price (mk_asset 1000 HBD_SYMBOL)
              = Ok (mk_asset c HIVE_SYMBOL)
    /\ c = 2 * ((1000 * 1000 * 10500) / (250 * 10000)) /\ 2 * (1000 * 1000 / 250) <= c.
Proof.
  refine (@estimate_hive_collateral_covers fc_ref fc_ref_laws 1000 250 1000 sample_price _ _ _ _ _ _).
  - reflexivity.
  - lia.
  - unfold pos_amount. lia.
  - unfold pos_amount. lia.
  - lia.
  - vm_compute. reflexivity.
Defined.
