(* ===== verification/Balance.v ===== *)
(** * Funds

    Models libraries/chain/include/hive/chain/util/balance.hpp: balances, from
    which funds leave only by [transfer_from]/[transfer_to], and the temporary
    balances that carry funds between chain objects; and [adjust_balance] of
    libraries/chain/database.cpp.  A balance is its [funds]; a [tiny_balance]
    is a balance whose symbol is fixed. *)

From stdpp Require Import base numbers strings option list gmap.
From S2P Require Import Prelude Fc Config AssetSymbol Asset.
Open Scope Z_scope.

(** ** Balances *)

Abbreviation balance := asset (only parsing).

Definition balance_zero (s : asset_symbol_type) : balance := mk_asset 0 s.
Definition is_empty (b : balance) : bool := amount b =? 0.
Definition is_valid (b : balance) : bool := 0 <=? amount b.

(** The destructor of a temporary balance outside of stack unwinding. *)
Definition destroy_temp (b : balance) : result unit := check (is_empty b) AssertBalance.

Section transfers.
Context `{L : FcLib}.

(** [this.transfer_from( source, delta )]: the new pair (this, source). *)
Definition transfer_from (this source : balance) (delta : asset) : result (balance * balance) :=
  this ← asset_add this delta;
  source ← asset_sub source delta;
  _ ← check (is_valid this && is_valid source) AssertBalance;
  Ok (this, source).

Definition transfer_from_all (this source : balance) : result (balance * balance) :=
  transfer_from this source source.

(** [this.transfer_to( destination, delta )]: the new pair (this, destination). *)
Definition transfer_to (this destination : balance) (delta : asset) : result (balance * balance) :=
  '(destination, this) ← transfer_from destination this delta; Ok (this, destination).

Definition transfer_to_all (this destination : balance) : result (balance * balance) :=
  transfer_to this destination this.

(** [temp_tiny_balance::issue_asset] and [burn_asset] *)
Definition issue_asset (this : balance) (a : asset) : result balance :=
  _ ← check (0 <=? amount a) AssertChainAsset;
  asset_add this a.

Definition burn_asset (this : balance) (a : asset) : result balance :=
  _ ← check (0 <=? amount a) AssertChainAsset;
  this ← asset_sub this a;
  _ ← check (is_valid this) AssertBalance;
  Ok this.

(** ** Accounts *)

Record account_object : Set := mk_account { hive_balance : asset; hbd_balance : asset }.

Definition set_hive_balance (b : balance) (a : account_object) : account_object :=
  mk_account b (hbd_balance a).
Definition set_hbd_balance (b : balance) (a : account_object) : account_object :=
  mk_account (hive_balance a) b.

(** The typed [adjust_balance]: a withdrawal is refused unless it is covered.
    HBD carries no interest outside of savings from hardfork 25 on. *)
Definition adjust_one (own : balance) (temp : balance) (delta : asset) : result (balance * balance) :=
  _ ← (if amount delta <? 0
       then neg ← asset_neg delta; b ← asset_geb own neg; check b AssertFc
       else Ok tt);
  transfer_from own temp delta.

(** [adjust_balance( a, any_balance, delta )]: the new account and temporary. *)
Definition adjust_balance (a : account_object) (any_balance : balance) (delta : asset) :
    result (account_object * balance) :=
  if asset_num (symbol delta) =? HIVE_ASSET_NUM_HIVE then
    '(hive, any_balance) ← transfer_from_all (balance_zero HIVE_SYMBOL) any_balance;
    '(own, hive) ← adjust_one (hive_balance a) hive delta;
    '(hive, any_balance) ← transfer_to_all hive any_balance;
    _ ← destroy_temp hive;
    Ok (set_hive_balance own a, any_balance)
  else
    _ ← check (asset_num (symbol delta) =? HIVE_ASSET_NUM_HBD) AssertFc;
    '(hbd, any_balance) ← transfer_from_all (balance_zero HBD_SYMBOL) any_balance;
    '(own, hbd) ← adjust_one (hbd_balance a) hbd delta;
    '(hbd, any_balance) ← transfer_to_all hbd any_balance;
    _ ← destroy_temp hbd;
    Ok (set_hbd_balance own a, any_balance).
End transfers.

(** ** Conservation *)

(** What a holding contributes to the supply of a currency. *)
Definition held_in (s : asset_symbol_type) (a : asset) : Z :=
  if sym_eqb (symbol a) s then amount a else 0.

Definition account_wf (a : account_object) : Prop :=
  symbol (hive_balance a) = HIVE_SYMBOL /\ symbol (hbd_balance a) = HBD_SYMBOL /\
  0 <= amount (hive_balance a) < 2 ^ 63 /\ 0 <= amount (hbd_balance a) < 2 ^ 63.

Definition account_funds (s : asset_symbol_type) (a : account_object) : Z :=
  held_in s (hive_balance a) + held_in s (hbd_balance a).

Definition funds_wf (b : asset) : Prop := 0 <= amount b < 2 ^ 63.

Lemma set_hive_wf a b : account_wf a -> symbol b = HIVE_SYMBOL -> funds_wf b ->
  account_wf (set_hive_balance b a).
Proof. unfold account_wf, funds_wf, set_hive_balance. cbn. tauto. Qed.
Lemma set_hbd_wf a b : account_wf a -> symbol b = HBD_SYMBOL -> funds_wf b ->
  account_wf (set_hbd_balance b a).
Proof. unfold account_wf, funds_wf, set_hbd_balance. cbn. tauto. Qed.

Section conservation.
Context `{L : FcLib} `{!FcLaws L}.

Lemma held_in_same s a : symbol a = s -> held_in s a = amount a.
Proof. intros <-. unfold held_in. by rewrite sym_eqb_refl. Qed.

Lemma funds_wf_s64 b : funds_wf b -> asset_wf b.
Proof. unfold funds_wf, asset_wf, in_s. lia. Qed.

Lemma transfer_from_Ok this source delta this' source' :
  asset_wf this -> asset_wf source -> asset_wf delta ->
  transfer_from this source delta = Ok (this', source') ->
  symbol this = symbol delta /\ symbol source = symbol delta /\
  this' = mk_asset (amount this + amount delta) (symbol this) /\
  source' = mk_asset (amount source - amount delta) (symbol source) /\
  funds_wf this' /\ funds_wf source'.
Proof.
  intros H1 H2 H3 H. unfold transfer_from in H. result_inv.
  apply asset_add_Ok in H as (E1 & -> & W1); auto. apply asset_sub_Ok in H0 as (E2 & -> & W2); auto.
  unfold is_valid in *. to_prop. unfold asset_wf, in_s in W1, W2. cbn in *.
  unfold funds_wf. cbn. split_and!; auto; lia.
Qed.

Lemma transfer_to_Ok this dest delta this' dest' :
  asset_wf this -> asset_wf dest -> asset_wf delta ->
  transfer_to this dest delta = Ok (this', dest') ->
  symbol this = symbol delta /\ symbol dest = symbol delta /\
  this' = mk_asset (amount this - amount delta) (symbol this) /\
  dest' = mk_asset (amount dest + amount delta) (symbol dest) /\
  funds_wf this' /\ funds_wf dest'.
Proof.
  intros H1 H2 H3 H. unfold transfer_to in H. apply bind_Ok in H as ([d t] & H & H').
  injection H' as <- <-. apply transfer_from_Ok in H; auto. naive_solver.
Qed.

Lemma adjust_one_Ok own temp delta own' temp' :
  asset_wf own -> asset_wf temp -> asset_wf delta ->
  adjust_one own temp delta = Ok (own', temp') ->
  symbol own = symbol delta /\ symbol temp = symbol delta /\
  own' = mk_asset (amount own + amount delta) (symbol own) /\
  temp' = mk_asset (amount temp - amount delta) (symbol temp) /\
  funds_wf own' /\ funds_wf temp'.
Proof.
  intros H1 H2 H3 H. unfold adjust_one in H. apply bind_Ok in H as (_ & _ & H).
  by apply transfer_from_Ok in H.
Qed.

(** The round trip through a typed temporary balance. *)
Lemma adjust_through own any delta own' any' hive any1 hive1 hive2 s :
  asset_wf own -> asset_wf any -> asset_wf delta ->
  transfer_from_all (balance_zero s) any = Ok (hive, any1) ->
  adjust_one own hive delta = Ok (own', hive1) ->
  transfer_to_all hive1 any1 = Ok (hive2, any') ->
  symbol own = symbol delta /\ symbol any = symbol delta /\ symbol any' = symbol any /\
  own' = mk_asset (amount own + amount delta) (symbol own) /\
  amount any' = amount any - amount delta /\ funds_wf own' /\ funds_wf any'.
Proof.
  intros Ho Ha Hd H1 H2 H3. unfold transfer_from_all in H1. unfold transfer_to_all in H3.
  apply transfer_from_Ok in H1 as (S1 & _ & -> & -> & F1 & F2); auto;
    [|unfold asset_wf, in_s, balance_zero; cbn; lia].
  apply adjust_one_Ok in H2 as (S2 & S3 & -> & -> & F3 & F4); auto using funds_wf_s64.
  apply transfer_to_Ok in H3 as (_ & S4 & -> & -> & F5 & F6); auto using funds_wf_s64.
  cbn in *. split_and!; auto; [congruence|lia].
Qed.

(** [adjust_balance] moves [delta] from the temporary balance to the account:
    nothing is created or lost, and both stay non-negative. *)
Lemma adjust_balance_Ok a any delta a' any' :
  account_wf a -> asset_wf any -> asset_wf delta ->
  adjust_balance a any delta = Ok (a', any') ->
  account_wf a' /\ funds_wf any' /\ symbol any' = symbol any /\ symbol any = symbol delta /\
  amount any' = amount any - amount delta /\
  forall s, account_funds s a' + held_in s any' = account_funds s a + held_in s any.
Proof.
  intros Hw Ha Hd H. pose proof Hw as (S1 & S2 & B1 & B2). unfold adjust_balance in H.
  destruct (_ =? HIVE_ASSET_NUM_HIVE) eqn:E.
  - apply bind_Ok in H as ([hive any1] & H1 & H). apply bind_Ok in H as ([own hive1] & H2 & H).
    apply bind_Ok in H as ([hive2 any2] & H3 & H). apply bind_Ok in H as (_ & _ & H). injection H as <- <-.
    destruct (adjust_through _ _ _ _ _ _ _ _ _ _ (funds_wf_s64 _ B1) Ha Hd H1 H2 H3)
      as (E1 & E2 & E3 & -> & E4 & F1 & F2).
    split; [by apply set_hive_wf|]. split; [done|].
    split; [done|]. split; [done|]. split; [done|]. intros s. unfold account_funds, held_in.
    cbn [set_hive_balance set_hbd_balance hive_balance hbd_balance symbol amount].
    rewrite E3, E2, E1. destruct (sym_eqb (symbol delta) s); lia.
  - apply bind_Ok in H as (_ & _ & H).
    apply bind_Ok in H as ([hive any1] & H1 & H). apply bind_Ok in H as ([own hive1] & H2 & H).
    apply bind_Ok in H as ([hive2 any2] & H3 & H). apply bind_Ok in H as (_ & _ & H). injection H as <- <-.
    destruct (adjust_through _ _ _ _ _ _ _ _ _ _ (funds_wf_s64 _ B2) Ha Hd H1 H2 H3)
      as (E1 & E2 & E3 & -> & E4 & F1 & F2).
    split; [by apply set_hbd_wf|]. split; [done|].
    split; [done|]. split; [done|]. split; [done|]. intros s. unfold account_funds, held_in.
    cbn [set_hive_balance set_hbd_balance hive_balance hbd_balance symbol amount].
    rewrite E3, E2, E1. destruct (sym_eqb (symbol delta) s); lia.
Qed.

Lemma transfer_from_value this source delta :
  funds_wf this -> funds_wf source -> funds_wf delta ->
  symbol this = symbol delta -> symbol source = symbol delta ->
  amount this + amount delta < 2 ^ 63 -> amount delta <= amount source ->
  transfer_from this source delta =
    Ok (mk_asset (amount this + amount delta) (symbol this),
        mk_asset (amount source - amount delta) (symbol source)).
Proof.
  intros F1 F2 F3 S1 S2 Hb Hc. unfold transfer_from, funds_wf in *.
  rewrite asset_add_same by (auto using funds_wf_s64; unfold in_s; lia).
  cbn [mbind result_bind].
  rewrite asset_sub_same by (auto using funds_wf_s64; unfold in_s; lia).
  cbn [mbind result_bind]. unfold is_valid. cbn [amount].
  rewrite !(proj2 (Z.leb_le _ _)) by lia. done.
Qed.

(** The account with a whole temporary balance credited to it. *)
Definition credit (x : asset) (a : account_object) : account_object :=
  if sym_eqb (symbol x) HIVE_SYMBOL
  then set_hive_balance (mk_asset (amount (hive_balance a) + amount x) HIVE_SYMBOL) a
  else set_hbd_balance (mk_asset (amount (hbd_balance a) + amount x) HBD_SYMBOL) a.

Lemma adjust_through_all own x c : funds_wf own -> funds_wf x -> symbol own = c -> symbol x = c ->
  amount own + amount x < 2 ^ 63 ->
  transfer_from_all (balance_zero c) x = Ok (x, balance_zero c) /\
  adjust_one own x x = Ok (mk_asset (amount own + amount x) c, balance_zero c) /\
  transfer_to_all (balance_zero c) (balance_zero c) = Ok (balance_zero c, balance_zero c).
Proof.
  intros F1 F2 S1 S2 Hb. unfold transfer_from_all, transfer_to_all, adjust_one, transfer_to.
  assert (funds_wf (balance_zero c)) by (unfold funds_wf, balance_zero; cbn; lia).
  unfold funds_wf in *. rewrite (proj2 (Z.ltb_ge (amount x) 0)) by lia. cbn [mbind result_bind].
  rewrite !transfer_from_value by (cbn; unfold funds_wf; (congruence || lia)).
  cbn [mbind result_bind]. destruct x as [v sx]. cbn in *. subst. rewrite !Z.sub_diag. done.
Qed.

(** Crediting a covered temporary balance returns, and empties it. *)
Lemma adjust_balance_credit a x : account_wf a -> funds_wf x ->
  symbol x = HIVE_SYMBOL \/ symbol x = HBD_SYMBOL ->
  account_funds (symbol x) a + amount x < 2 ^ 63 ->
  adjust_balance a x x = Ok (credit x a, balance_zero (symbol x)).
Proof.
  intros (S1 & S2 & B1 & B2) Fx Hs Hb. unfold adjust_balance, credit.
  unfold account_funds, held_in in Hb. rewrite S1, S2 in Hb.
  destruct Hs as [Hs|Hs]; rewrite Hs in Hb |- *.
  - change (asset_num HIVE_SYMBOL =? HIVE_ASSET_NUM_HIVE) with true.
    change (sym_eqb HIVE_SYMBOL HIVE_SYMBOL) with true in *.
    change (sym_eqb HBD_SYMBOL HIVE_SYMBOL) with false in Hb. cbv iota in Hb |- *.
    destruct (adjust_through_all (hive_balance a) x HIVE_SYMBOL) as (E1 & E2 & E3); [auto; lia..|].
    rewrite E1. cbn [mbind result_bind]. rewrite E2. cbn [mbind result_bind]. by rewrite E3.
  - change (asset_num HBD_SYMBOL =? HIVE_ASSET_NUM_HIVE) with false.
    change (asset_num HBD_SYMBOL =? HIVE_ASSET_NUM_HBD) with true.
    change (sym_eqb HBD_SYMBOL HBD_SYMBOL) with true in *.
    change (sym_eqb HBD_SYMBOL HIVE_SYMBOL) with false.
    change (sym_eqb HIVE_SYMBOL HBD_SYMBOL) with false in Hb. cbv iota in Hb |- *.
    cbn [check mbind result_bind].
    destruct (adjust_through_all (hbd_balance a) x HBD_SYMBOL) as (E1 & E2 & E3); [auto; lia..|].
    rewrite E1. cbn [mbind result_bind]. rewrite E2. cbn [mbind result_bind]. by rewrite E3.
Qed.

Lemma credit_funds x a c : account_wf a -> symbol x = HIVE_SYMBOL \/ symbol x = HBD_SYMBOL ->
  account_funds c (credit x a) = account_funds c a + held_in c x.
Proof.
  intros (S1 & S2 & _) Hs. unfold credit, account_funds, held_in. rewrite S1, S2.
  destruct Hs as [Hs|Hs]; rewrite Hs.
  - change (sym_eqb HIVE_SYMBOL HIVE_SYMBOL) with true. cbn [set_hive_balance hive_balance hbd_balance symbol amount].
    rewrite ?S2. destruct (sym_eqb HIVE_SYMBOL c); lia.
  - change (sym_eqb HBD_SYMBOL HIVE_SYMBOL) with false. cbn [set_hbd_balance hive_balance hbd_balance symbol amount].
    rewrite ?S1. destruct (sym_eqb HBD_SYMBOL c); lia.
Qed.
End conservation.
