(* ===== verification/Market.v ===== *)
(** * The internal market

    Models the order book of libraries/chain/database_market.cpp
    ([apply_order], [match], [fill_order], [cancel_order],
    [clear_expired_orders], [remove_pending_limit_orders]), the order object of
    detail/state/limit_order_object.hpp with its indexes, and the evaluators of
    hive_evaluator_transfer.cpp that create and cancel orders.  Hardforks up
    to 28 are active (no liquidity rewards, no interest on liquid HBD). *)

From stdpp Require Import base numbers strings option list sorting gmap.
From S2P Require Import Prelude Fc Config AssetSymbol Asset Balance.
Open Scope Z_scope.

(** ** State *)

Record limit_order_object : Set := mk_order {
  id : Z;
  created : Z;
  expiration : Z;
  orderid : Z;
  seller : string;
  for_sale : asset;
  sell_price : price
}.

Inductive virtual_operation : Set :=
| fill_order_operation (current_owner : string) (current_orderid : Z) (current_pays : asset)
    (open_owner : string) (open_orderid : Z) (open_pays : asset)
| limit_order_cancelled_operation (seller : string) (orderid : Z) (amount_back : asset).

(** The orders are kept in the order of the [by_price] index. *)
Record market : Set := mk_market {
  accounts : gmap string account_object;
  orders : list limit_order_object;
  next_id : Z;
  head_block_time : Z;
  vops : list virtual_operation
}.

Definition set_accounts x s := mk_market x (orders s) (next_id s) (head_block_time s) (vops s).
Definition set_orders x s := mk_market (accounts s) x (next_id s) (head_block_time s) (vops s).
Definition set_next_id x s := mk_market (accounts s) (orders s) x (head_block_time s) (vops s).
Definition push_virtual_operation v s :=
  mk_market (accounts s) (orders s) (next_id s) (head_block_time s) (vops s ++ [v]).

Definition set_for_sale (b : asset) (o : limit_order_object) : limit_order_object :=
  mk_order (id o) (created o) (expiration o) (orderid o) (seller o) b (sell_price o).

(** ** Indexes *)

Definition order_of (s : market) (oid : Z) : option limit_order_object :=
  List.find (fun o => id o =? oid) (orders s).

(** Using a reference to an order; the order is there while it is used. *)
Definition get_order (s : market) (oid : Z) : result limit_order_object :=
  match order_of s oid with Some o => Ok o | None => Throw AssertFc end.

Definition get_account (s : market) (name : string) : result account_object :=
  match accounts s !! name with Some a => Ok a | None => Throw AssertFc end.

(** [by_price]: higher sell prices first, then lower ids. *)
Definition price_before (a b : limit_order_object) : bool :=
  price_cmp OpGt (sell_price a) (sell_price b)
  || (negb (price_cmp OpGt (sell_price b) (sell_price a)) && (id a <? id b)).

Fixpoint insert_by_price (o : limit_order_object) (l : list limit_order_object) : list limit_order_object :=
  match l with
  | [] => [o]
  | p :: l' => if price_before o p then o :: l else p :: insert_by_price o l'
  end.

(** [lower_bound( hi )] and [upper_bound( lo )] of the [by_price] index. *)
Fixpoint from_price (hi : price) (l : list limit_order_object) : list limit_order_object :=
  match l with
  | [] => []
  | o :: l' => if price_cmp OpGt (sell_price o) hi then from_price hi l' else l
  end.
Fixpoint to_price (lo : price) (l : list limit_order_object) : list limit_order_object :=
  match l with
  | [] => []
  | o :: l' => if price_cmp OpGt lo (sell_price o) then [] else o :: to_price lo l'
  end.

(** The first order of the [by_expiration] index. *)
Definition expires_before (a b : limit_order_object) : bool :=
  (expiration a <? expiration b) || ((expiration a =? expiration b) && (id a <? id b)).
Fixpoint first_to_expire (l : list limit_order_object) : option limit_order_object :=
  match l with
  | [] => None
  | o :: l' => match first_to_expire l' with
               | None => Some o
               | Some b => if expires_before o b then Some o else Some b
               end
  end.

Definition modify_order (oid : Z) (f : limit_order_object -> limit_order_object) (s : market) : market :=
  set_orders ((fun o => if id o =? oid then f o else o) <$> orders s) s.

(** [remove( order )] with [check_on_remove]. *)
Definition remove_order (oid : Z) (s : market) : result market :=
  o ← get_order s oid;
  _ ← check (is_empty (for_sale o)) AssertFc;
  Ok (set_orders (filter (fun o => id o <> oid) (orders s)) s).

Section market_ops.
Context `{L : FcLib}.

Definition amount_to_receive (o : limit_order_object) : result asset :=
  asset_mul (for_sale o) (sell_price o).

(** [adjust_balance( name, any_balance, delta )] on the state. *)
Definition adjust_account (name : string) (any_balance : balance) (delta : asset) (s : market) :
    result (market * balance) :=
  a ← get_account s name;
  '(a, any_balance) ← adjust_balance a any_balance delta;
  Ok (set_accounts (<[name := a]> (accounts s)) s, any_balance).

(** [modify( order, transfer_to( temp, delta ) )] *)
Definition draw_order (oid : Z) (temp : balance) (delta : asset) (s : market) : result (market * balance) :=
  o ← get_order s oid;
  '(rest, temp) ← transfer_to (for_sale o) temp delta;
  Ok (modify_order oid (set_for_sale rest) s, temp).

Definition cancel_order (oid : Z) (suppress_vop : bool) (s : market) : result market :=
  o ← get_order s oid;
  let vop := limit_order_cancelled_operation (seller o) (orderid o) (for_sale o) in
  '(s, amount_back) ← draw_order oid (balance_zero (symbol (for_sale o))) (for_sale o) s;
  '(s, amount_back) ← adjust_account (seller o) amount_back amount_back s;
  let s := if suppress_vop then s else push_virtual_operation vop s in
  s ← remove_order oid s;
  _ ← destroy_temp amount_back;
  Ok s.

(** The state, what is left in [receives], and whether the order is gone. *)
Definition fill_order (oid : Z) (pays : asset) (receives : balance) (s : market) :
    result (market * balance * bool) :=
  o ← get_order s oid;
  _ ← check (sym_eqb (symbol (for_sale o)) (symbol pays)) OrderFill;
  _ ← check (negb (sym_eqb (symbol pays) (symbol receives))) OrderFill;
  '(s, receives) ← adjust_account (seller o) receives receives s;
  if amount (for_sale o) =? 0 then
    s ← remove_order oid s;
    Ok (s, receives, true)
  else
    back ← amount_to_receive o;
    if amount back =? 0 then
      s ← cancel_order oid false s;
      Ok (s, receives, true)
    else Ok (s, receives, false).

(** What the two sides receive. *)
Definition match_amounts (new_for_sale old_for_sale : asset) (match_price : price) :
    result (asset * asset) :=
  at_price ← asset_mul old_for_sale match_price;
  small ← asset_leb new_for_sale at_price;
  if (small : bool) then
    new_order_receives ← asset_mul new_for_sale match_price;
    Ok (new_order_receives, new_for_sale)
  else
    old_order_receives ← asset_mul old_for_sale match_price;
    Ok (old_for_sale, old_order_receives).

Definition match_orders (new_id old_id : Z) (match_price : price) (s : market) : result (market * Z) :=
  new_order ← get_order s new_id;
  old_order ← get_order s old_id;
  _ ← check (sym_eqb (symbol (quote (sell_price new_order))) (symbol (base (sell_price old_order)))) OrderMatch;
  _ ← check (sym_eqb (symbol (base (sell_price new_order))) (symbol (quote (sell_price old_order)))) OrderMatch;
  _ ← check ((0 <? amount (for_sale new_order)) && (0 <? amount (for_sale old_order))) OrderMatch;
  _ ← check (sym_eqb (symbol (quote match_price)) (symbol (base (sell_price new_order)))) OrderMatch;
  _ ← check (sym_eqb (symbol (base match_price)) (symbol (base (sell_price old_order)))) OrderMatch;
  '(new_order_receives, old_order_receives) ←
    match_amounts (for_sale new_order) (for_sale old_order) match_price;
  let old_order_pays := new_order_receives in
  let new_order_pays := old_order_receives in
  _ ← check (asset_eqb new_order_pays (for_sale new_order)
             || asset_eqb old_order_pays (for_sale old_order)) OrderMatch;
  let s := push_virtual_operation
             (fill_order_operation (seller new_order) (orderid new_order) new_order_pays
                (seller old_order) (orderid old_order) old_order_pays) s in
  '(s, old_order_balance) ←
    draw_order old_id (balance_zero (symbol (for_sale old_order))) new_order_receives s;
  '(s, new_order_balance) ←
    draw_order new_id (balance_zero (symbol (for_sale new_order))) old_order_receives s;
  '(s, old_order_balance, new_filled) ← fill_order new_id new_order_pays old_order_balance s;
  '(s, new_order_balance, old_filled) ← fill_order old_id old_order_pays new_order_balance s;
  let r := Z.lor (if new_filled : bool then 1 else 0) (if old_filled : bool then 2 else 0) in
  _ ← check (negb (r =? 0)) OrderMatch;
  _ ← destroy_temp new_order_balance;
  _ ← destroy_temp old_order_balance;
  Ok (s, r).

(** The loop of [apply_order] over the range of the [by_price] index. *)
Fixpoint match_range (new_id : Z) (olds : list limit_order_object) (s : market) : result market :=
  match olds with
  | [] => Ok s
  | o :: olds =>
      '(s, r) ← match_orders new_id (id o) (sell_price o) s;
      if Z.land r 1 =? 1 then Ok s else match_range new_id olds s
  end.

Definition apply_order (new_id : Z) (s : market) : result (market * bool) :=
  new_order ← get_order s new_id;
  max_price ← price_inverse (sell_price new_order);
  hi ← price_max (symbol (base max_price)) (symbol (quote max_price));
  s ← match_range new_id (to_price max_price (from_price hi (orders s))) s;
  Ok (s, match order_of s new_id with None => true | Some _ => false end).

(** [clear_expired_orders]: at most every order is cancelled once. *)
Fixpoint clear_expired (fuel : nat) (s : market) : option (result market) :=
  match fuel with
  | O => None
  | S fuel =>
      match first_to_expire (orders s) with
      | None => Some (Ok s)
      | Some o =>
          if expiration o <? head_block_time s then
            match cancel_order (id o) false s with
            | Ok s => clear_expired fuel s
            | Throw e => Some (Throw e)
            end
          else Some (Ok s)
      end
  end.
Definition clear_expired_orders (s : market) : option (result market) :=
  clear_expired (S (length (orders s))) s.

(** [create< limit_order_object >]: the (seller, orderid) index is unique. *)
Definition create_order (name : string) (amount_to_sell : balance) (p : price) (exp oid : Z) (s : market) :
    result (market * Z) :=
  let o := mk_order (next_id s) (head_block_time s) exp oid name amount_to_sell p in
  _ ← check (sym_eqb (symbol amount_to_sell) (symbol (base p))) AssertFc;
  _ ← check (negb (existsb (fun o' => bool_decide (seller o' = name) && (orderid o' =? oid)) (orders s)))
        UniqueViolation;
  Ok (set_next_id (next_id s + 1) (set_orders (insert_by_price o (orders s)) s), id o).

Definition hive_hbd_market (a b : asset) : bool :=
  (sym_eqb (symbol a) HIVE_SYMBOL && sym_eqb (symbol b) HBD_SYMBOL)
  || (sym_eqb (symbol a) HBD_SYMBOL && sym_eqb (symbol b) HIVE_SYMBOL).

(** The common part of the two evaluators: [strict] holds where the node is in control or
    hardfork 31 is active and the market is checked, [wanted] is the asset whose symbol
    this check looks at, [make] computes the price of the order. *)
Definition create_limit_order (strict : bool) (owner : string) (oid : Z) (amount_to_sell wanted : asset)
    (make : result price) (fill_or_kill : bool) (exp : Z) (s : market) : result market :=
  _ ← check (head_block_time s <? exp) AssertTime;
  _ ← check (negb strict || hive_hbd_market amount_to_sell wanted) AssertAsset;
  _ ← check (exp <=? head_block_time s + HIVE_MAX_LIMIT_ORDER_EXPIRATION) AssertTime;
  neg ← asset_neg amount_to_sell;
  '(s, temp) ← adjust_account owner (balance_zero (symbol amount_to_sell)) neg s;
  p ← make;
  '(s, new_id) ← create_order owner temp p exp oid s;
  '(s, filled) ← apply_order new_id s;
  _ ← check (negb fill_or_kill || filled) AssertState;
  Ok s.

Definition limit_order_create (strict : bool) (owner : string) (oid : Z) (amount_to_sell min_to_receive : asset)
    (fill_or_kill : bool) (exp : Z) (s : market) : result market :=
  create_limit_order strict owner oid amount_to_sell min_to_receive
    (make_price amount_to_sell min_to_receive) fill_or_kill exp s.

Definition limit_order_create2 (strict : bool) (owner : string) (oid : Z) (amount_to_sell : asset) (exchange_rate : price)
    (fill_or_kill : bool) (exp : Z) (s : market) : result market :=
  create_limit_order strict owner oid amount_to_sell (quote exchange_rate) (Ok exchange_rate) fill_or_kill exp s.

Definition limit_order_cancel (owner : string) (oid : Z) (s : market) : result market :=
  match List.find (fun o => bool_decide (seller o = owner) && (orderid o =? oid)) (orders s) with
  | None => Throw AssertFc
  | Some o => cancel_order (id o) false s
  end.

Definition orderid_le (a b : limit_order_object) : Prop := orderid a <= orderid b.
#[global] Instance orderid_le_dec : RelDecision orderid_le.
Proof. intros a b. unfold orderid_le. apply _. Defined.

(** [remove_pending_limit_orders]: the account's orders in [by_account] order,
    which the iterator meets by increasing [orderid]. *)
Definition pending_orders (name : string) (s : market) : list limit_order_object :=
  filter (fun o => seller o = name) (orders s).
Definition remove_pending_limit_orders (name : string) (s : market) : result market :=
  foldM (fun s o => cancel_order (id o) true s)
        s (merge_sort orderid_le (pending_orders name s)).
End market_ops.

(** ** Conservation of funds *)

Definition order_funds (c : asset_symbol_type) (o : limit_order_object) : Z := held_in c (for_sale o).

(** All the funds of a currency: on accounts and in open orders. *)
Definition supply (c : asset_symbol_type) (s : market) : Z :=
  sumM (account_funds c) (accounts s) + sumZ (order_funds c) (orders s).

Definition order_wf (o : limit_order_object) : Prop :=
  funds_wf (for_sale o) /\ symbol (for_sale o) = symbol (base (sell_price o)) /\ price_ok (sell_price o).

Record market_wf (s : market) : Prop := {
  wf_accounts : map_Forall (fun _ a => account_wf a) (accounts s);
  wf_orders : Forall order_wf (orders s);
  wf_ids : NoDup (id <$> orders s);
  wf_next : Forall (fun o => id o < next_id s) (orders s)
}.

Section book.
Implicit Types s : market.

Lemma order_of_Some s oid o : order_of s oid = Some o -> o ∈ orders s /\ id o = oid.
Proof.
  intros H. apply List.find_some in H as [H1 H2]. to_prop. split; [by apply list_elem_of_In|done].
Qed.

Lemma get_order_Ok s oid o : get_order s oid = Ok o -> o ∈ orders s /\ id o = oid.
Proof.
  unfold get_order. destruct (order_of s oid) eqn:E; [|done]. intros [= <-]. by apply order_of_Some.
Qed.

Lemma others_same (l : list limit_order_object) oid : oid ∉ (id <$> l) ->
  filter (fun o => id o <> oid) l = l /\
  forall f, (fun o => if id o =? oid then f o else o) <$> l = l.
Proof.
  induction l as [|x l IH]; [done|]. intros Hn. rewrite fmap_cons, not_elem_of_cons in Hn.
  destruct Hn as [Hx Hl]. destruct (IH Hl) as [E1 E2]. split.
  - rewrite filter_cons, decide_True by congruence. by rewrite E1.
  - intros f. rewrite fmap_cons, (proj2 (Z.eqb_neq _ _)) by congruence. by rewrite E2.
Qed.

(** With distinct ids the book is one order and the others. *)
Lemma split_order (l : list limit_order_object) o : NoDup (id <$> l) -> o ∈ l ->
  l ≡ₚ o :: filter (fun x => id x <> id o) l /\
  forall f, ((fun x => if id x =? id o then f x else x) <$> l) ≡ₚ f o :: filter (fun x => id x <> id o) l.
Proof.
  induction l as [|x l IH]; [by intros _ ?%elem_of_nil|]. rewrite fmap_cons.
  intros Hn Hin. apply NoDup_cons in Hn as [Hx Hl]. apply elem_of_cons in Hin as [->|Hin].
  - destruct (others_same l (id x) Hx) as [E1 E2]. rewrite filter_cons, decide_False by tauto.
    rewrite E1. split; [done|]. intros f. by rewrite fmap_cons, Z.eqb_refl, E2.
  - assert (id x <> id o) by (intros E; apply Hx; rewrite E; by apply list_elem_of_fmap_2).
    destruct (IH Hl Hin) as [E1 E2]. rewrite filter_cons, decide_True by done. split.
    + rewrite E1 at 1. apply Permutation_swap.
    + intros f. rewrite fmap_cons, (proj2 (Z.eqb_neq _ _)) by done. rewrite (E2 f). apply Permutation_swap.
Qed.

Lemma modify_ids s oid f : (forall o, id (f o) = id o) ->
  id <$> orders (modify_order oid f s) = id <$> orders s.
Proof.
  intros Hf. cbn. rewrite <- list_fmap_compose. apply list_fmap_ext. intros i o _. cbn.
  destruct (_ =? _); auto.
Qed.

Lemma modify_wf s o b : market_wf s -> o ∈ orders s -> funds_wf b -> symbol b = symbol (for_sale o) ->
  market_wf (modify_order (id o) (set_for_sale b) s) /\
  (forall c, supply c (modify_order (id o) (set_for_sale b) s) =
             supply c s - held_in c (for_sale o) + held_in c b) /\
  order_of (modify_order (id o) (set_for_sale b) s) (id o) = Some (set_for_sale b o) /\
  (forall x, x ∈ orders s -> id x <> id o -> x ∈ orders (modify_order (id o) (set_for_sale b) s)).
Proof.
  intros [Wa Wo Wi Wn] Hin Hb Hsym. destruct (split_order _ o Wi Hin) as [P1 P2]. specialize (P2 (set_for_sale b)).
  assert (order_wf o) as (_ & Hs & Hp) by (by eapply (proj1 (Forall_forall _ _))).
  pose proof Wo as Wo'. pose proof Wn as Wn'. rewrite P1 in Wo', Wn'.
  apply Forall_cons in Wo' as [_ Wo'], Wn' as [Hn Wn'].
  split_and!.
  - constructor; [done| | |].
    + unfold modify_order, set_orders. cbn [orders]. rewrite P2. constructor; [|done].
      split_and!; [done|by cbn; congruence|done].
    + by rewrite modify_ids.
    + unfold modify_order, set_orders. cbn [orders next_id]. rewrite P2. constructor; [exact Hn|done].
  - intros c. unfold supply, modify_order, set_orders. cbn [accounts orders].
    rewrite (sumZ_perm _ _ _ P2), (sumZ_perm _ _ _ P1), !sumZ_cons.
    unfold order_funds at 1 3. cbn [for_sale set_for_sale]. lia.
  - clear - Hin Wi. unfold order_of. cbn. induction (orders s) as [|x l IH]; [by apply elem_of_nil in Hin|].
    rewrite fmap_cons in *. apply NoDup_cons in Wi as [Hx Hl]. cbn.
    apply elem_of_cons in Hin as [->|Hin]; [by rewrite Z.eqb_refl; cbn; rewrite Z.eqb_refl|].
    assert (id x <> id o) by (intros E; apply Hx; rewrite E; by apply list_elem_of_fmap_2).
    rewrite (proj2 (Z.eqb_neq (id x) (id o))) by done. cbn.
    rewrite (proj2 (Z.eqb_neq (id x) (id o))) by done. auto.
  - intros x Hx Hne. unfold modify_order, set_orders. cbn [orders]. rewrite P2. apply elem_of_cons. right. by apply list_elem_of_filter.
Qed.

Lemma remove_order_Ok s oid s' : market_wf s -> remove_order oid s = Ok s' ->
  market_wf s' /\ (forall c, supply c s' = supply c s) /\ order_of s' oid = None /\
  accounts s' = accounts s /\ (forall x, x ∈ orders s' <-> x ∈ orders s /\ id x <> oid) /\
  (length (orders s') < length (orders s))%nat.
Proof.
  intros W H. unfold remove_order in H. apply bind_Ok in H as (o & Ho & H).
  apply bind_Ok in H as ([] & He & H). injection H as <-. apply check_Ok in He. unfold is_empty in He. to_prop.
  apply get_order_Ok in Ho as [Hin <-]. destruct W as [Wa Wo Wi Wn].
  destruct (split_order _ o Wi Hin) as [P1 _].
  assert (forall x, x ∈ filter (fun x => id x <> id o) (orders s) <-> x ∈ orders s /\ id x <> id o) as Hf
    by (intros; rewrite list_elem_of_filter; tauto).
  pose proof Wo as Wo'. pose proof Wn as Wn'. pose proof Wi as Wi'. rewrite P1 in Wo', Wn', Wi'.
  apply Forall_cons in Wo' as [_ Wo'], Wn' as [_ Wn']. rewrite fmap_cons in Wi'. apply NoDup_cons in Wi' as [_ Wi'].
  split_and!; [by constructor| | |done|exact Hf|].
  - intros c. unfold supply, set_orders. cbn [accounts orders].
    rewrite (sumZ_perm _ _ _ P1), sumZ_cons.
    unfold order_funds at 2. unfold held_in. rewrite He. destruct (sym_eqb _ _); lia.
  - unfold order_of. cbn. destruct (List.find _ _) as [x|] eqn:E; [|done].
    apply List.find_some in E as [E1 E2]. to_prop. apply list_elem_of_In in E1. by apply Hf in E1 as [_ ?].
  - cbn. rewrite P1 at 2. cbn. lia.
Qed.
End book.

Section market_conservation.
Context `{L : FcLib} `{!FcLaws L}.
Implicit Types s : market.

Lemma adjust_account_Ok name any delta s s' any' :
  market_wf s -> asset_wf any -> asset_wf delta ->
  adjust_account name any delta s = Ok (s', any') ->
  market_wf s' /\ funds_wf any' /\ symbol any' = symbol any /\ symbol any = symbol delta /\
  amount any' = amount any - amount delta /\
  (forall c, supply c s' + held_in c any' = supply c s + held_in c any) /\
  orders s' = orders s /\ next_id s' = next_id s /\ head_block_time s' = head_block_time s.
Proof.
  intros W Ha Hd H. unfold adjust_account, get_account in H.
  destruct (accounts s !! name) as [a|] eqn:E; [|done]. cbn in H.
  apply bind_Ok in H as ([a' any1] & H & Heq). injection Heq as <- <-.
  assert (account_wf a) as Wa by (by eapply (wf_accounts _ W)).
  apply adjust_balance_Ok in H as (Wa' & F & S1 & S2 & Am & Hc); auto.
  split_and!; auto.
  - destruct W. constructor; auto. cbn. by apply map_Forall_insert_2.
  - intros c. unfold supply, set_accounts. cbn [accounts orders]. rewrite (sumM_update _ _ _ _ _ E). specialize (Hc c). lia.
Qed.

Lemma draw_order_Ok oid temp delta s s' temp' o :
  market_wf s -> asset_wf temp -> asset_wf delta -> order_of s oid = Some o ->
  draw_order oid temp delta s = Ok (s', temp') ->
  market_wf s' /\ funds_wf temp' /\ symbol temp' = symbol temp /\
  amount temp' = amount temp + amount delta /\
  (forall c, supply c s' + held_in c temp' = supply c s + held_in c temp) /\
  order_of s' oid = Some (set_for_sale (mk_asset (amount (for_sale o) - amount delta) (symbol (for_sale o))) o) /\
  (forall x, x ∈ orders s -> id x <> oid -> x ∈ orders s') /\
  accounts s' = accounts s /\ length (orders s') = length (orders s).
Proof.
  intros W Ht Hd Ho H. unfold draw_order, get_order in H. rewrite Ho in H. cbn in H.
  apply bind_Ok in H as ([rest t1] & H & Heq). injection Heq as <- <-.
  apply order_of_Some in Ho as [Hin <-].
  assert (order_wf o) as (Fo & So & _) by (by eapply (proj1 (Forall_forall _ _) (wf_orders _ W))).
  apply transfer_to_Ok in H as (S1 & S2 & -> & -> & F1 & F2); auto using funds_wf_s64.
  destruct (modify_wf s o _ W Hin F1 eq_refl) as (W' & Hs & Hf & Hoth).
  split_and!; auto.
  - intros c. rewrite Hs. unfold held_in. cbn [symbol amount]. rewrite S1, S2. destruct (sym_eqb _ _); lia.
  - cbn. by rewrite length_fmap.
Qed.

Lemma balance_zero_wf c : asset_wf (balance_zero c).
Proof. unfold asset_wf, in_s, balance_zero. cbn. lia. Qed.
Lemma held_in_zero c c' : held_in c (balance_zero c') = 0.
Proof. unfold held_in, balance_zero. cbn [symbol amount]. by destruct (sym_eqb _ _). Qed.
Lemma held_in_empty c b : is_empty b = true -> held_in c b = 0.
Proof. unfold is_empty, held_in. intros. to_prop. by destruct (sym_eqb _ _). Qed.

Lemma push_vop_wf v s : market_wf s -> market_wf (push_virtual_operation v s).
Proof. intros []. by constructor. Qed.

Hint Resolve funds_wf_s64 balance_zero_wf push_vop_wf : pixa.

Lemma cancel_order_Ok oid b s s' : market_wf s -> cancel_order oid b s = Ok s' ->
  market_wf s' /\ (forall c, supply c s' = supply c s) /\ order_of s' oid = None /\
  (forall x, x ∈ orders s -> id x <> oid -> x ∈ orders s') /\
  (length (orders s') < length (orders s))%nat.
Proof.
  intros W H. unfold cancel_order, get_order in H.
  destruct (order_of s oid) as [o|] eqn:Eo; [|done]. cbn [mbind result_bind] in H.
  pose proof (order_of_Some _ _ _ Eo) as [Hin Hid].
  assert (order_wf o) as (Fo & So & _) by (by eapply (proj1 (Forall_forall _ _) (wf_orders _ W))).
  apply bind_Ok in H as ([s1 t1] & H1 & H).
  apply (draw_order_Ok _ _ _ _ _ _ o) in H1 as (W1 & F1 & Sy1 & Am1 & C1 & Oo & Oth1 & Ac1 & Len1); auto with pixa.
  apply bind_Ok in H as ([s2 t2] & H2 & H).
  apply adjust_account_Ok in H2 as (W2 & F2 & Sy2 & _ & Am2 & C2 & Or2 & _ & _); auto with pixa.
  apply bind_Ok in H as (s3 & H3 & H). apply bind_Ok in H as ([] & Hd & H). injection H as <-.
  apply check_Ok in Hd.
  apply remove_order_Ok in H3 as (W3 & C3 & O3 & _ & I3 & Len3); [|by destruct b; auto with pixa].
  assert (orders (if b then s2 else push_virtual_operation
            (limit_order_cancelled_operation (seller o) (orderid o) (for_sale o)) s2) = orders s1) as Eor
    by (by destruct b).
  rewrite Eor in *. split_and!; auto.
  - intros c. specialize (C1 c). specialize (C2 c). rewrite C3. rewrite held_in_zero in C1.
    rewrite (held_in_empty c t2 Hd) in C2.
    assert (supply c (if b then s2 else push_virtual_operation
            (limit_order_cancelled_operation (seller o) (orderid o) (for_sale o)) s2) = supply c s2) as ->
      by (by destruct b). lia.
  - intros x Hx Hne. apply I3. auto.
  - lia.
Qed.

Lemma asset_mul_wf a p b : asset_mul a p = Ok b -> asset_wf b.
Proof.
  assert (forall v m d r, mul_div_share v m d = Ok r -> in_s 64 r) as Hs.
  { intros v m d r H. unfold mul_div_share, signed_share in H. result_inv.
    apply uint128_to_uint64_range in H0. destruct (v <? 0); rewrite share_of_u64_narrow;
      auto with pixa; apply uwrap_range || apply swrap_range; lia. }
  unfold asset_mul. intros H. result_inv; unfold asset_wf; cbn; eauto.
Qed.

Lemma fill_order_Ok oid pays rcv s s' rcv' b : market_wf s -> asset_wf rcv ->
  fill_order oid pays rcv s = Ok (s', rcv', b) ->
  market_wf s' /\ (forall c, supply c s' + held_in c rcv' = supply c s + held_in c rcv) /\
  (forall x, x ∈ orders s -> id x <> oid -> x ∈ orders s') /\
  (b = true <-> order_of s' oid = None) /\ (length (orders s') <= length (orders s))%nat.
Proof.
  intros W Hr H. unfold fill_order, get_order in H.
  destruct (order_of s oid) as [o|] eqn:Eo; [|done]. cbn [mbind result_bind] in H.
  apply bind_Ok in H as (_ & _ & H). apply bind_Ok in H as (_ & _ & H).
  apply bind_Ok in H as ([s1 r1] & H1 & H).
  apply adjust_account_Ok in H1 as (W1 & F1 & Sy1 & _ & Am1 & C1 & Or1 & _ & _); auto.
  destruct (_ =? 0).
  - apply bind_Ok in H as (s2 & H2 & H). injection H as <- <- <-.
    apply remove_order_Ok in H2 as (W2 & C2 & O2 & _ & I2 & Len2); auto. rewrite Or1 in *.
    split_and!; auto; [by intros c; rewrite C2|by intros; apply I2|by rewrite O2|lia].
  - apply bind_Ok in H as (back & _ & H). destruct (_ =? 0).
    + apply bind_Ok in H as (s2 & H2 & H). injection H as <- <- <-.
      apply cancel_order_Ok in H2 as (W2 & C2 & O2 & I2 & Len2); auto. rewrite Or1 in *.
      split_and!; auto; [by intros c; rewrite C2|by rewrite O2|lia].
    + injection H as <- <- <-. rewrite Or1. split_and!; auto.
      assert (order_of s1 oid = Some o) as -> by (unfold order_of in *; by rewrite Or1). done.
Qed.

Lemma draw_order_inv oid temp delta s r : draw_order oid temp delta s = Ok r ->
  exists o, order_of s oid = Some o.
Proof. unfold draw_order, get_order. destruct (order_of s oid); [eauto|done]. Qed.

Lemma match_amounts_wf n o p x y : asset_wf n -> asset_wf o ->
  match_amounts n o p = Ok (x, y) -> asset_wf x /\ asset_wf y.
Proof.
  intros Hn Ho H. unfold match_amounts in H. apply bind_Ok in H as (at_ & H1 & H).
  apply bind_Ok in H as (small & _ & H). destruct small.
  - apply bind_Ok in H as (r & H2 & H). injection H as <- <-. eauto using asset_mul_wf.
  - apply bind_Ok in H as (r & H2 & H). injection H as <- <-. eauto using asset_mul_wf.
Qed.

(** The transfers of a match, once the amounts are settled. *)
Lemma settle_Ok s sy1 sy2 nid oid rn ro pn po s1 t1 s2 t2 s3 t1' nf s4 t2' og :
  market_wf s -> asset_wf rn -> asset_wf ro ->
  draw_order oid (balance_zero sy1) rn s = Ok (s1, t1) ->
  draw_order nid (balance_zero sy2) ro s1 = Ok (s2, t2) ->
  fill_order nid pn t1 s2 = Ok (s3, t1', nf) ->
  fill_order oid po t2 s3 = Ok (s4, t2', og) ->
  is_empty t1' = true -> is_empty t2' = true -> nid <> oid ->
  market_wf s4 /\ (forall c, supply c s4 = supply c s) /\
  (nf = false -> order_of s4 nid <> None) /\
  (forall x, x ∈ orders s -> id x <> nid -> id x <> oid -> x ∈ orders s4).
Proof.
  intros W Wn Wo H1 H2 H3 H4 E1 E2 Hne.
  destruct (draw_order_inv _ _ _ _ _ H1) as [o1 O1].
  apply (draw_order_Ok _ _ _ _ _ _ o1) in H1 as (W1 & F1 & _ & _ & C1 & _ & X1 & _); auto with pixa.
  destruct (draw_order_inv _ _ _ _ _ H2) as [o2 O2].
  apply (draw_order_Ok _ _ _ _ _ _ o2) in H2 as (W2 & F2 & _ & _ & C2 & _ & X2 & _); auto with pixa.
  apply fill_order_Ok in H3 as (W3 & C3 & X3 & N3 & _); auto with pixa.
  apply fill_order_Ok in H4 as (W4 & C4 & X4 & N4 & _); auto with pixa.
  split_and!; auto.
  - intros c. specialize (C1 c). specialize (C2 c). specialize (C3 c). specialize (C4 c).
    rewrite !held_in_zero in *. rewrite (held_in_empty c _ E1) in C3. rewrite (held_in_empty c _ E2) in C4. lia.
  - intros Hf Hnone. destruct (order_of s3 nid) as [o|] eqn:E3.
    + apply order_of_Some in E3 as [Hin Hid]. assert (o ∈ orders s4) as Hin4 by (apply X4; congruence).
      unfold order_of in Hnone. apply list_elem_of_In in Hin4.
      pose proof (List.find_none _ _ Hnone _ Hin4) as Hb. cbn in Hb. to_prop. done.
    + rewrite (proj2 N3 eq_refl) in Hf. done.
Qed.

Lemma match_orders_Ok nid oid mp s s' r : market_wf s ->
  match_orders nid oid mp s = Ok (s', r) ->
  market_wf s' /\ (forall c, supply c s' = supply c s) /\
  (Z.land r 1 <> 1 -> order_of s' nid <> None) /\
  (forall x, x ∈ orders s -> id x <> nid -> id x <> oid -> x ∈ orders s').
Proof.
  intros W H. unfold match_orders in H.
  apply bind_Ok in H as (no & Hno & H). apply bind_Ok in H as (oo & Hoo & H).
  apply bind_Ok in H as ([] & Hsym & H). do 4 (apply bind_Ok in H as (? & _ & H)).
  apply bind_Ok in H as ([nr orr] & Hm & H). apply bind_Ok in H as (? & _ & H).
  assert (nid <> oid) as Hne.
  { intros ->. rewrite Hno in Hoo. injection Hoo as <-. apply get_order_Ok in Hno as [Hn _].
    destruct (proj1 (Forall_forall _ _) (wf_orders _ W) _ Hn) as (_ & _ & _ & _ & Hps).
    apply check_Ok, sym_eqb_spec in Hsym. congruence. }
  apply get_order_Ok in Hno as [Hn _], Hoo as [Ho _].
  pose proof (wf_orders _ W) as Wos. rewrite Forall_forall in Wos.
  destruct (Wos _ Hn) as [Fn _], (Wos _ Ho) as [Fo _].
  apply match_amounts_wf in Hm as [Wn Wo]; auto with pixa.
  apply bind_Ok in H as ([s1 t1] & H1 & H). apply bind_Ok in H as ([s2 t2] & H2 & H).
  apply bind_Ok in H as ([[s3 t1'] nf] & H3 & H). apply bind_Ok in H as ([[s4 t2'] og] & H4 & H).
  apply bind_Ok in H as (? & _ & H). apply bind_Ok in H as ([] & E2 & H). apply bind_Ok in H as ([] & E1 & H).
  injection H as <- <-. apply check_Ok in E1, E2.
  destruct (settle_Ok _ _ _ _ _ _ _ _ _ _ _ _ _ _ _ _ _ _ _ (push_vop_wf _ _ W) Wn Wo H1 H2 H3 H4 E1 E2 Hne)
    as (W4 & C4 & N4 & X4).
  split_and!; auto. intros Hl. apply N4. destruct nf; [|done]. by destruct og.
Qed.

Lemma match_range_Ok nid olds s s' : market_wf s -> match_range nid olds s = Ok s' -> market_wf s' /\ (forall c, supply c s' = supply c s).
Proof.
  revert s. induction olds as [|o olds IH]; intros s W H; cbn in H.
  { injection H as <-. auto. }
  apply bind_Ok in H as ([s1 r] & H1 & H). apply match_orders_Ok in H1 as (W1 & C1 & _); auto.
  destruct (_ =? 1).
  - injection H as <-. auto.
  - apply IH in H as [W2 C2]; auto. split; [done|]. intros c. by rewrite C2.
Qed.

Lemma apply_order_Ok nid s s' b : market_wf s -> apply_order nid s = Ok (s', b) ->
  market_wf s' /\ (forall c, supply c s' = supply c s) /\ (b = true <-> order_of s' nid = None).
Proof.
  intros W H. unfold apply_order in H. do 3 (apply bind_Ok in H as (? & _ & H)).
  apply bind_Ok in H as (s1 & H1 & H). injection H as <- <-.
  apply match_range_Ok in H1 as [W1 C1]; auto. split_and!; auto.
  by destruct (order_of s1 nid).
Qed.

Lemma insert_by_price_perm o l : insert_by_price o l ≡ₚ o :: l.
Proof.
  induction l as [|x l IH]; cbn; [done|]. destruct (price_before o x); [done|].
  rewrite IH. apply Permutation_swap.
Qed.

Lemma create_order_Ok name temp p exp oid s s' nid : market_wf s -> funds_wf temp -> price_ok p ->
  create_order name temp p exp oid s = Ok (s', nid) ->
  market_wf s' /\ (forall c, supply c s' = supply c s + held_in c temp).
Proof.
  intros [Wa Wo Wi Wn] Ft Hp H. unfold create_order in H.
  apply bind_Ok in H as ([] & Hs & H). apply bind_Ok in H as ([] & _ & H). injection H as <- <-.
  apply check_Ok, sym_eqb_spec in Hs. split.
  - constructor; [done| | |]; unfold set_next_id, set_orders; cbn [orders next_id];
      rewrite insert_by_price_perm.
    + by constructor.
    + cbn [fmap list_fmap]. constructor; [|done]. intros Hin.
      apply list_elem_of_fmap in Hin as (x & Hx & Hin). cbn in Hx.
      rewrite Forall_forall in Wn. specialize (Wn _ Hin). lia.
    + constructor; [cbn; lia|]. eapply Forall_impl; [exact Wn|]. cbn. lia.
  - intros c. unfold supply, set_next_id, set_orders. cbn [accounts orders].
    rewrite (sumZ_perm _ _ _ (insert_by_price_perm _ _)), sumZ_cons. unfold order_funds at 1. cbn [for_sale]. lia.
Qed.

Lemma asset_neg_Ok a b : asset_wf a -> amount a <> int64_min -> asset_neg a = Ok b ->
  b = mk_asset (- amount a) (symbol a) /\ asset_wf b.
Proof.
  unfold asset_wf, in_s, int64_min. intros Ha Hm H. unfold asset_neg in H.
  rewrite safe_neg_exact in H by (unfold in_s; lia). injection H as <-. cbn. split; [done|lia].
Qed.

Lemma create_limit_order_Ok strict owner oid sell wanted mk fok exp s s' : market_wf s ->
  asset_wf sell -> amount sell <> int64_min -> (forall p, mk = Ok p -> price_ok p) ->
  create_limit_order strict owner oid sell wanted mk fok exp s = Ok s' ->
  market_wf s' /\ (forall c, supply c s' = supply c s).
Proof.
  intros W Hs Hm Hp H. unfold create_limit_order in H. do 3 (apply bind_Ok in H as (? & _ & H)).
  apply bind_Ok in H as (neg & Hn & H). apply asset_neg_Ok in Hn as [-> Wneg]; auto.
  apply bind_Ok in H as ([s1 temp] & H1 & H).
  apply adjust_account_Ok in H1 as (W1 & F1 & _ & _ & _ & C1 & _); auto with pixa.
  apply bind_Ok in H as (p & Hmk & H). apply bind_Ok in H as ([s2 nid] & H2 & H).
  apply create_order_Ok in H2 as (W2 & C2); auto.
  apply bind_Ok in H as ([s3 b] & H3 & H). apply apply_order_Ok in H3 as (W3 & C3 & _); auto.
  apply bind_Ok in H as (? & _ & H). injection H as <-. split; [done|].
  intros c. specialize (C1 c). rewrite held_in_zero in C1. rewrite C3, C2. lia.
Qed.
End market_conservation.

(** ** Histories of the market *)

Section market_machine.
Context `{L : FcLib} `{!FcLaws L}.

(** One successful operation.  The amount to sell may have any sign, the least
    64-bit value apart; a price given with the order has passed its validation. *)
Inductive market_step : market -> market -> Prop :=
| step_create strict owner oid sell want fok exp s s' :
    asset_wf sell -> amount sell <> int64_min -> asset_wf want ->
    limit_order_create strict owner oid sell want fok exp s = Ok s' -> market_step s s'
| step_create2 strict owner oid sell rate fok exp s s' :
    asset_wf sell -> amount sell <> int64_min -> price_ok rate ->
    limit_order_create2 strict owner oid sell rate fok exp s = Ok s' -> market_step s s'
| step_cancel owner oid s s' : limit_order_cancel owner oid s = Ok s' -> market_step s s'
| step_clear s s' : clear_expired_orders s = Some (Ok s') -> market_step s s'
| step_remove_pending name s s' : remove_pending_limit_orders name s = Ok s' -> market_step s s'
| step_time t s : market_step s (mk_market (accounts s) (orders s) (next_id s) t (vops s)).

Lemma first_to_expire_In l o : first_to_expire l = Some o -> o ∈ l.
Proof.
  revert o. induction l as [|x l IH]; intros o; cbn; [done|].
  destruct (first_to_expire l) as [b|].
  - destruct (expires_before x b); intros [= <-]; apply elem_of_cons; [by left|right; auto].
  - intros [= <-]. apply elem_of_cons. by left.
Qed.

Lemma first_to_expire_None l : first_to_expire l = None -> l = [].
Proof. destruct l as [|x l]; [done|]. cbn. destruct (first_to_expire l) as [b|]; [|done]. by destruct (expires_before x b). Qed.

Lemma first_to_expire_least l o : first_to_expire l = Some o -> Forall (fun x => expiration o <= expiration x) l.
Proof.
  revert o. induction l as [|x l IH]; intros o; cbn; [done|].
  destruct (first_to_expire l) as [b|] eqn:E.
  - unfold expires_before. destruct (_ || _) eqn:Eb; intros [= <-]; specialize (IH b eq_refl).
    + apply orb_true_iff in Eb. rewrite andb_true_iff, Z.ltb_lt, Z.eqb_eq in Eb.
      constructor; [done|]. eapply Forall_impl; [exact IH|]. cbn. lia.
    + to_prop. constructor; [lia|done].
  - intros [= <-]. rewrite (first_to_expire_None _ E). constructor; [done|constructor].
Qed.

Lemma clear_expired_Ok fuel s s' : market_wf s -> clear_expired fuel s = Some (Ok s') ->
  market_wf s' /\ (forall c, supply c s' = supply c s).
Proof.
  revert s. induction fuel as [|fuel IH]; intros s W H; cbn in H; [done|].
  destruct (first_to_expire (orders s)) as [o|]; [|by injection H as <-].
  destruct (_ <? _); [|by injection H as <-].
  destruct (cancel_order (id o) false s) as [s1|] eqn:E; [|done].
  apply cancel_order_Ok in E as (W1 & C1 & _); auto. apply IH in H as [W2 C2]; auto.
  split; [done|]. intros c. by rewrite C2.
Qed.

Lemma market_step_Ok s s' : market_step s s' -> market_wf s ->
  market_wf s' /\ (forall c, supply c s' = supply c s).
Proof.
  intros H W. destruct H as [strict owner oid sell want fok exp s s' Ws Hs Ww H|strict owner oid sell rate fok exp s s' Ws Hs Hr H
    |owner oid s s' H|s s' H|name s s' H|t s].
  - apply create_limit_order_Ok in H; auto.
    intros p Hp. unfold make_price in Hp. apply bind_Ok in Hp as ([] & Hv & Hp). injection Hp as <-.
    by apply price_validate_ok.
  - apply create_limit_order_Ok in H; auto. by intros p [= <-].
  - unfold limit_order_cancel in H. destruct (List.find _ _); [|done].
    apply cancel_order_Ok in H as (? & ? & _); auto.
  - by eapply clear_expired_Ok.
  - revert s H W. unfold remove_pending_limit_orders. intros s.
    generalize (merge_sort orderid_le (pending_orders name s)). intros l. revert s.
    induction l as [|o l IH]; intros s H W; cbn in H; [by injection H as <-|].
    destruct (cancel_order (id o) true s) as [s1|] eqn:E; [|done].
    apply cancel_order_Ok in E as (W1 & C1 & _); auto. apply IH in H as [W2 C2]; auto.
    split; [done|]. intros c. by rewrite C2.
  - split; [destruct W; by constructor|done].
Qed.

(** C18. Trading neither creates nor destroys funds: over any history of order
    creations, cancellations, expirations and removals the total of every
    currency, on accounts and in open orders, is constant, and no balance or
    order ever becomes negative or exceeds the 63-bit range. *)
Theorem market_conserves_funds s s' : market_wf s -> rtc market_step s s' ->
  market_wf s' /\ (forall c, supply c s' = supply c s).
Proof.
  intros W H. induction H as [s|s s1 s' H1 H2 IH]; [done|].
  destruct (market_step_Ok _ _ H1 W) as [W1 C1]. destruct (IH W1) as [W2 C2].
  split; [done|]. intros c. by rewrite C2.
Qed.

(** What the refund of an order relies on: the order sells HIVE or HBD, its
    seller has an account, and the funds of a currency fit a balance. *)
Record refundable (s : market) : Prop := {
  rf_orders : Forall (fun o => (symbol (for_sale o) = HIVE_SYMBOL \/ symbol (for_sale o) = HBD_SYMBOL) /\
                               is_Some (accounts s !! seller o)) (orders s);
  rf_supply : forall c, supply c s < 2 ^ 63
}.

Lemma held_in_nonneg c a : funds_wf a -> 0 <= held_in c a.
Proof. unfold held_in, funds_wf. destruct (sym_eqb _ _); lia. Qed.

Lemma account_funds_nonneg c a : account_wf a -> 0 <= account_funds c a.
Proof.
  intros (_ & _ & H1 & H2). unfold account_funds.
  pose proof (held_in_nonneg c _ H1). pose proof (held_in_nonneg c _ H2). lia.
Qed.

Lemma order_and_account_le s o name a c : market_wf s -> o ∈ orders s -> accounts s !! name = Some a ->
  account_funds c a + order_funds c o <= supply c s.
Proof.
  intros [Wa Wo Wi Wn] Hin Ha. unfold supply. destruct (split_order _ o Wi Hin) as [P _].
  rewrite (sumZ_perm _ _ _ P), sumZ_cons.
  assert (account_funds c a <= sumM (account_funds c) (accounts s)).
  { eapply sumM_lookup_le; [|done]. eapply map_Forall_impl; [exact Wa|]. cbn. auto using account_funds_nonneg. }
  assert (0 <= sumZ (order_funds c) (filter (fun x => id x <> id o) (orders s))); [|lia].
  apply sumZ_nonneg, Forall_forall. intros x Hx. apply list_elem_of_filter in Hx as [_ Hx].
  apply held_in_nonneg. by apply (proj1 (Forall_forall _ _) Wo).
Qed.

Lemma filter_modify (l : list limit_order_object) oid f : (forall o, id (f o) = id o) ->
  filter (fun o => id o <> oid) ((fun o => if id o =? oid then f o else o) <$> l) =
  filter (fun o => id o <> oid) l.
Proof.
  intros Hf. induction l as [|x l IH]; [done|]. rewrite fmap_cons, !filter_cons, IH.
  destruct (Z.eqb_spec (id x) oid) as [E|E].
  - rewrite !decide_False by (rewrite ?Hf; tauto). done.
  - done.
Qed.

(** A cancellation returns: the seller gets the whole amount for sale back, the
    order is gone and the other orders are as they were. *)
Lemma cancel_order_value o b s a : market_wf s -> refundable s -> o ∈ orders s ->
  order_of s (id o) = Some o -> accounts s !! seller o = Some a ->
  cancel_order (id o) b s =
    Ok (mk_market (<[seller o := credit (for_sale o) a]> (accounts s))
          (filter (fun x => id x <> id o) (orders s)) (next_id s) (head_block_time s)
          (vops s ++ (if b then [] else
             [limit_order_cancelled_operation (seller o) (orderid o) (for_sale o)]))).
Proof.
  intros W R Hin Ho Ha.
  destruct (proj1 (Forall_forall _ _) (wf_orders _ W) _ Hin) as (Fo & _).
  destruct (proj1 (Forall_forall _ _) (rf_orders _ R) _ Hin) as (Sy & _).
  assert (funds_wf (balance_zero (symbol (for_sale o)))) as F0 by (unfold funds_wf, balance_zero; cbn; lia).
  pose proof (order_and_account_le s o _ _ (symbol (for_sale o)) W Hin Ha) as Hle.
  pose proof (rf_supply _ R (symbol (for_sale o))). unfold order_funds in Hle. rewrite held_in_same in Hle by done.
  unfold cancel_order, get_order. rewrite Ho. cbn [mbind result_bind].
  unfold draw_order, get_order. rewrite Ho. cbn [mbind result_bind]. unfold transfer_to.
  rewrite transfer_from_value by (auto; unfold funds_wf in *; cbn; lia).
  cbn [mbind result_bind]. change (amount (balance_zero (symbol (for_sale o))) + amount (for_sale o)) with (amount (for_sale o)).
  change (mk_asset (amount (for_sale o)) (symbol (balance_zero (symbol (for_sale o)))))
    with (mk_asset (amount (for_sale o)) (symbol (for_sale o))).
  replace (mk_asset (amount (for_sale o)) (symbol (for_sale o))) with (for_sale o) by (by destruct (for_sale o)).
  rewrite Z.sub_diag.
  set (s1 := modify_order _ _ s). unfold adjust_account, get_account.
  change (accounts s1) with (accounts s). rewrite Ha. cbn [mbind result_bind].
  assert (account_wf a) as Wa by (by eapply (wf_accounts _ W)).
  rewrite adjust_balance_credit by (auto; lia). cbn [mbind result_bind].
  destruct (modify_wf s o (balance_zero (symbol (for_sale o))) W Hin F0 eq_refl) as (_ & _ & Hof & _).
  unfold remove_order, get_order.
  assert (forall s2, orders s2 = orders s1 ->
    order_of s2 (id o) = Some (set_for_sale (balance_zero (symbol (for_sale o))) o)) as Hs2.
  { intros s2 E. unfold order_of in *. rewrite E. exact Hof. }
  rewrite Hs2 by (by destruct b). cbn [mbind result_bind].
  unfold is_empty, destroy_temp. cbn [for_sale set_for_sale balance_zero amount].
  destruct b; cbn; rewrite filter_modify by done; by rewrite ?app_nil_r.
Qed.

Lemma order_of_In s o : market_wf s -> o ∈ orders s -> order_of s (id o) = Some o.
Proof.
  intros W Hin. destruct (split_order _ o (wf_ids _ W) Hin) as [P _].
  destruct (order_of s (id o)) as [y|] eqn:E.
  - apply order_of_Some in E as [Hy Ey]. rewrite P in Hy. apply elem_of_cons in Hy as [->|Hy]; [done|].
    by apply list_elem_of_filter in Hy as [? _].
  - unfold order_of in E. apply list_elem_of_In in Hin. pose proof (List.find_none _ _ E _ Hin) as Hb.
    cbn in Hb. to_prop. done.
Qed.

Lemma cancel_refundable o s a s' : market_wf s -> refundable s -> o ∈ orders s ->
  accounts s !! seller o = Some a -> cancel_order (id o) false s = Ok s' -> refundable s'.
Proof.
  intros W R Hin Ha H. pose proof H as H'. rewrite (cancel_order_value _ _ _ a) in H' by auto using order_of_In.
  injection H' as <-. apply cancel_order_Ok in H as (_ & C & _); auto. constructor.
  - cbn. apply Forall_forall. intros x Hx. apply list_elem_of_filter in Hx as [_ Hx].
    destruct (proj1 (Forall_forall _ _) (rf_orders _ R) _ Hx) as [Hs Hacc]. split; [done|].
    destruct (decide (seller o = seller x)) as [->|]; [by rewrite lookup_insert_eq|by rewrite lookup_insert_ne].
  - intros c. rewrite C. apply R.
Qed.

(** The expired orders of an account. *)
Definition expired_of (name : string) (s : market) : list limit_order_object :=
  filter (fun o => seller o = name /\ expiration o < head_block_time s) (orders s).

(** What the sweep leaves behind. *)
Definition swept (s s' : market) : Prop :=
  orders s' = filter (fun o => head_block_time s <= expiration o) (orders s) /\
  (forall name a, accounts s !! name = Some a -> exists a', accounts s' !! name = Some a' /\
     forall c, account_funds c a' = account_funds c a + sumZ (order_funds c) (expired_of name s)).

Lemma swept_none s : Forall (fun o => head_block_time s <= expiration o) (orders s) -> swept s s.
Proof.
  intros H. split.
  - symmetry. by apply filter_all.
  - intros name a Ha. exists a. split; [done|]. intros c.
    assert (expired_of name s = []) as ->; [|cbn; lia].
    apply filter_none. eapply Forall_impl; [exact H|]. cbn. lia.
Qed.

Lemma swept_cancel o s a s1 s' : market_wf s -> refundable s -> o ∈ orders s ->
  accounts s !! seller o = Some a -> expiration o < head_block_time s ->
  cancel_order (id o) false s = Ok s1 -> swept s1 s' -> swept s s'.
Proof.
  intros W R Hin Ha He H [H1 H2]. rewrite (cancel_order_value _ _ _ a) in H by auto using order_of_In.
  destruct (split_order _ o (wf_ids _ W) Hin) as [P _].
  destruct (proj1 (Forall_forall _ _) (rf_orders _ R) _ Hin) as [Hs _].
  assert (account_wf a) as Wa by (by eapply (wf_accounts _ W)).
  injection H as <-. unfold expired_of in *. cbn [orders accounts head_block_time] in *. split.
  - rewrite H1, list_filter_filter. apply filter_ext_in. intros x Hx. split; [tauto|]. intros Hl.
    split; [done|]. intros Hid. pose proof (order_of_In _ _ W Hx) as E. rewrite Hid in E.
    rewrite (order_of_In _ _ W Hin) in E. injection E as ->. lia.
  - intros name b Hb.
    assert (forall c, sumZ (order_funds c) (expired_of name s) =
      (if decide (seller o = name) then order_funds c o else 0) +
      sumZ (order_funds c) (filter (fun x => seller x = name /\ expiration x < head_block_time s)
        (filter (fun x => id x <> id o) (orders s)))) as Hsum.
    { intros c. unfold expired_of. rewrite P at 1. rewrite filter_cons.
      destruct (decide (seller o = name)) as [En|En].
      - rewrite decide_True by done. by rewrite sumZ_cons.
      - rewrite decide_False by tauto. done. }
    unfold expired_of in Hsum. destruct (decide (seller o = name)) as [<-|En].
    + destruct (H2 (seller o) (credit (for_sale o) a)) as (a' & Ha' & Hf); [by rewrite lookup_insert_eq|].
      exists a'. split; [done|]. intros c. rewrite Hf, Hsum, (credit_funds _ _ _ Wa Hs).
      assert (b = a) as -> by congruence. unfold order_funds at 2. lia.
    + destruct (H2 name b) as (a' & Ha' & Hf); [by rewrite lookup_insert_ne|].
      exists a'. split; [done|]. intros c. rewrite Hf, Hsum. lia.
Qed.

(** The sweep of expired orders always returns when every seller has an
    account and the funds of each currency fit a balance: it removes exactly the
    orders whose expiration lies before the head block time, leaves the others
    unchanged, and every account holds what it held before and everything its
    expired orders had for sale. *)
Theorem clear_expired_orders_complete s : market_wf s -> refundable s ->
  exists s', clear_expired_orders s = Some (Ok s') /\ swept s s'.
Proof.
  unfold clear_expired_orders. assert (length (orders s) < S (length (orders s)))%nat as Hf by lia.
  revert Hf. generalize (S (length (orders s))). intros fuel. revert s.
  induction fuel as [|fuel IH]; intros s Hf W R; [lia|]. cbn.
  destruct (first_to_expire (orders s)) as [o|] eqn:E.
  - pose proof (first_to_expire_In _ _ E) as Hin.
    destruct (_ <? _) eqn:Et; to_prop.
    + destruct (proj1 (Forall_forall _ _) (rf_orders _ R) _ Hin) as [_ [a Ha]].
      pose proof (cancel_order_value o false s a W R Hin (order_of_In _ _ W Hin) Ha) as Ec.
      set (s1 := mk_market _ _ _ _ _) in Ec. rewrite Ec.
      destruct (cancel_order_Ok _ _ _ _ W Ec) as (W1 & _ & _ & _ & Hl).
      destruct (IH s1) as (s' & Hr & Hs); [lia|done|exact (cancel_refundable _ _ _ _ W R Hin Ha Ec)|].
      exists s'. split; [done|]. exact (swept_cancel _ _ _ _ _ W R Hin Ha Et Ec Hs).
    + exists s. split; [done|]. apply swept_none.
      eapply Forall_impl; [exact (first_to_expire_least _ _ E)|]. cbn. lia.
  - exists s. split; [done|]. apply swept_none. by rewrite (first_to_expire_None _ E).
Qed.

(** The amounts of a match, in the currency of each side. *)
Definition trade_terms (N O b q nr orr : Z) : Prop :=
  (orr = N /\ nr = N * b / q /\ nr <= O /\ N * b < (nr + 1) * q) \/
  (nr = O /\ orr = O * q / b /\ orr < N /\ O * q < (orr + 1) * b).

Lemma match_amounts_terms (N O b q : Z) (sn so : asset_symbol_type) :
  let mp := mk_price (mk_asset b so) (mk_asset q sn) in
  so <> sn -> 0 < N < 2 ^ 63 -> 0 < O < 2 ^ 63 -> pos_amount b -> pos_amount q -> O * q / b < 2 ^ 63 ->
  exists nr orr, match_amounts (mk_asset N sn) (mk_asset O so) mp = Ok (mk_asset nr so, mk_asset orr sn) /\
    0 <= nr /\ 0 <= orr /\ trade_terms N O b q nr orr.
Proof.
  intros mp Hne HN HO Hb Hq Hov. unfold pos_amount in *.
  assert (price_ok mp) as Hp by (unfold price_ok, pos_amount; cbn; auto).
  assert (same_side mp so = base mp /\ other_side mp so = quote mp) as [S1 S2]
    by (unfold same_side, other_side; cbn [base symbol mp]; by rewrite sym_eqb_refl).
  assert (same_side mp sn = quote mp /\ other_side mp sn = base mp) as [S3 S4]
    by (unfold same_side, other_side; cbn [base symbol mp]; by rewrite sym_eqb_neq).
  assert (0 <= O * q / b) by (apply Z.div_pos; nia).
  assert (asset_mul (mk_asset O so) mp = Ok (mk_asset (O * q / b) sn)) as Eo.
  { rewrite (asset_mul_value (mk_asset O so) mp Hp); cbn [symbol amount]; rewrite ?S1, ?S2; cbn [mp base quote amount symbol];
      [|by left|unfold in_s; lia|unfold int64_min; lia|by rewrite Z.abs_eq by lia].
    by rewrite Z.quot_div_nonneg by nia. }
  unfold match_amounts. rewrite Eo. cbn [mbind result_bind].
  unfold asset_leb, asset_cmp. cbn [symbol amount]. rewrite sym_eqb_refl. cbn [check mbind result_bind].
  destruct (N <=? O * q / b) eqn:E; to_prop.
  - assert (N * b <= O * q) as Hle by (pose proof (Z.mul_div_le (O * q) b ltac:(lia)); nia).
    assert (N * b / q <= O) by (apply Z.div_le_upper_bound; lia).
    assert (0 <= N * b / q) by (apply Z.div_pos; nia).
    rewrite (asset_mul_value (mk_asset N sn) mp Hp); cbn [symbol amount]; rewrite ?S3, ?S4; cbn [mp base quote amount symbol];
      [|by right|unfold in_s; lia|unfold int64_min; lia|rewrite Z.abs_eq by lia; lia].
    rewrite Z.quot_div_nonneg by nia. eexists _, _. split; [done|]. split_and!; [done|lia|]. left.
    split_and!; auto. pose proof (Z.mul_succ_div_gt (N * b) q ltac:(lia)). lia.
  - eexists _, _. split; [done|]. split_and!; [lia|done|]. right. split_and!; auto.
    pose proof (Z.mul_succ_div_gt (O * q) b ltac:(lia)). lia.
Qed.

(** Two orders trade at the price [b]/[q] of the old one, rounded by less
    than one unit: either the new order sells everything and receives the
    truncated value of it, which the old order can pay, or the old order sells
    everything and receives the truncated value, less than the new order
    offers.  The computation neither throws nor overflows as long as the value
    of the old order fits an amount. *)
Theorem match_amounts_at_price (N O b q : Z) (sn so : asset_symbol_type) :
  let mp := mk_price (mk_asset b so) (mk_asset q sn) in
  so <> sn -> 0 < N < 2 ^ 63 -> 0 < O < 2 ^ 63 -> pos_amount b -> pos_amount q -> O * q / b < 2 ^ 63 ->
  exists nr orr, match_amounts (mk_asset N sn) (mk_asset O so) mp = Ok (mk_asset nr so, mk_asset orr sn) /\
    0 <= nr /\ 0 <= orr /\ trade_terms N O b q nr orr.
Proof. apply match_amounts_terms. Qed.

(** No order is ever filled for nothing: when each order is worth at least
    one unit of the other currency at its own price, and the old order's price
    meets the limit of the new one, both sides of the match receive at least
    one unit. *)
Theorem match_amounts_positive (N O b q bn qn : Z) (sn so : asset_symbol_type) :
  let old_price := mk_price (mk_asset b so) (mk_asset q sn) in
  let new_limit := mk_price (mk_asset qn so) (mk_asset bn sn) in
  so <> sn -> 0 < N < 2 ^ 63 -> 0 < O < 2 ^ 63 -> pos_amount b -> pos_amount q -> pos_amount bn -> pos_amount qn ->
  O * q / b < 2 ^ 63 ->
  price_cmp OpGt new_limit old_price = false -> 1 <= N * qn / bn -> 1 <= O * q / b ->
  exists nr orr, match_amounts (mk_asset N sn) (mk_asset O so) old_price = Ok (mk_asset nr so, mk_asset orr sn) /\
    1 <= nr /\ 1 <= orr.
Proof.
  intros op nl Hne HN HO Hb Hq Hbn Hqn Hov Hcmp HNv HOv.
  assert (qn * q <= b * bn) as Hx.
  { rewrite price_cmp_cross in Hcmp; [|unfold price_ok; auto|unfold price_ok; auto|done].
    cbn in Hcmp. to_prop. lia. }
  destruct (match_amounts_terms N O b q sn so Hne HN HO Hb Hq Hov) as (nr & orr & E & _ & _ & Ht).
  exists nr, orr. split; [exact E|]. unfold pos_amount in *.
  assert (bn <= N * qn) as Hv.
  { pose proof (Z.mul_div_le (N * qn) bn ltac:(lia)). nia. }
  assert (1 <= N * b / q).
  { apply Z.div_le_lower_bound; [lia|]. assert (bn * q <= N * (b * bn)) by nia. nia. }
  destruct Ht as [(-> & -> & ? & ?)|(-> & -> & ? & ?)]; lia.
Qed.
End market_machine.

(** ** A concrete market *)

Module Sample.
#[local] Existing Instance fc_ref.
#[local] Existing Instance fc_ref_laws.

Definition account (hive hbd : Z) : account_object :=
  mk_account (mk_asset hive HIVE_SYMBOL) (mk_asset hbd HBD_SYMBOL).

Definition m0 : market :=
  mk_market (<["alice" := account 5000 100]> (<["bob" := account 200 4000]> ∅)) [] 0 1000 [].

Lemma m0_wf : market_wf m0.
Proof.
  constructor; [|constructor|constructor|constructor].
  apply map_Forall_insert_2; [by unfold account_wf; cbn; repeat split; (reflexivity || lia)|].
  apply map_Forall_insert_2; [by unfold account_wf; cbn; repeat split; (reflexivity || lia)|]. apply map_Forall_empty.
Qed.

Definition run (f : market -> result market) (s : market) : market :=
  match f s with Ok s' => s' | Throw _ => s end.

(** Alice sells 1.003 HIVE for 0.251 HBD; Bob buys part of it, then the rest expires. *)
Definition m1 : market :=
  run (limit_order_create true "alice" 1 (mk_asset 1003 HIVE_SYMBOL) (mk_asset 251 HBD_SYMBOL) false 1100) m0.
Definition m2 : market :=
  run (limit_order_create true "bob" 1 (mk_asset 100 HBD_SYMBOL) (mk_asset 380 HIVE_SYMBOL) true 1100) m1.
Definition at_time (t : Z) (s : market) : market :=
  mk_market (accounts s) (orders s) (next_id s) t (vops s).
Definition m3 : market :=
  match clear_expired_orders (at_time 2000 m2) with Some (Ok s) => s | _ => m2 end.

Example market_run :
  length (orders m1) = 1%nat /\ length (orders m2) = 1%nat /\ length (vops m2) = 1%nat /\
  orders m3 = [] /\
  accounts m3 !! "alice" = Some (account 4601 200) /\ accounts m3 !! "bob" = Some (account 599 3900).
Proof. vm_compute. split_and!; reflexivity. Qed.

Lemma market_conserves_funds_witness :
  market_wf m3 /\ (forall c, supply c m3 = supply c m0).
Proof.
  refine (market_conserves_funds m0 m3 m0_wf _).
  apply (rtc_l _ _ m1).
  { refine (step_create true "alice" 1 (mk_asset 1003 HIVE_SYMBOL) (mk_asset 251 HBD_SYMBOL) false 1100 m0 m1 _ _ _ _);
      [apply in_sb_spec; reflexivity|discriminate|apply in_sb_spec; reflexivity|vm_compute; reflexivity]. }
  apply (rtc_l _ _ m2).
  { refine (step_create true "bob" 1 (mk_asset 100 HBD_SYMBOL) (mk_asset 380 HIVE_SYMBOL) true 1100 m1 m2 _ _ _ _);
      [apply in_sb_spec; reflexivity|discriminate|apply in_sb_spec; reflexivity|vm_compute; reflexivity]. }
  apply (rtc_l _ _ (at_time 2000 m2)); [exact (step_time 2000 m2)|].
  apply rtc_once. apply step_clear. vm_compute. reflexivity.
Defined.

(** An expired order of Bob and a live order of Alice. *)
Definition m4 : market :=
  mk_market (accounts m0)
    [mk_order 0 500 1500 7 "bob" (mk_asset 40 HBD_SYMBOL)
       (mk_price (mk_asset 40 HBD_SYMBOL) (mk_asset 150 HIVE_SYMBOL));
     mk_order 1 900 3000 2 "alice" (mk_asset 10 HIVE_SYMBOL)
       (mk_price (mk_asset 20 HIVE_SYMBOL) (mk_asset 9 HBD_SYMBOL))] 2 2000 [].

Lemma m4_wf : market_wf m4.
Proof.
  constructor; [exact (wf_accounts _ m0_wf)| | |].
  - repeat constructor; unfold pos_amount; cbn; (lia || discriminate).
  - apply (bool_decide_unpack _). reflexivity.
  - repeat constructor.
Qed.

Lemma m4_refundable : refundable m4.
Proof.
  constructor.
  - constructor; [split; [by right|by eexists]|]. constructor; [split; [by left|by eexists]|constructor].
  - intros c. unfold supply, m4, m0. cbn [accounts orders].
    rewrite !sumM_insert_new by reflexivity. unfold account_funds, order_funds, held_in. cbn.
    unfold sumM. rewrite map_fold_empty. destruct (sym_eqb HIVE_SYMBOL c), (sym_eqb HBD_SYMBOL c); lia.
Qed.

Lemma clear_expired_orders_complete_witness :
  exists s', clear_expired_orders m4 = Some (Ok s') /\ swept m4 s'.
Proof. exact (clear_expired_orders_complete m4 m4_wf m4_refundable). Defined.

Example sweep_run :
  match clear_expired_orders m4 with
  | Some (Ok s) => (id <$> orders s) = [1] /\ accounts s !! "bob" = Some (account 200 4040)
  | _ => False
  end.
Proof. vm_compute. split; reflexivity. Qed.

Lemma match_amounts_at_price_witness :
  exists nr orr, match_amounts (mk_asset 100 HBD_SYMBOL) (mk_asset 1003 HIVE_SYMBOL)
      (mk_price (mk_asset 1003 HIVE_SYMBOL) (mk_asset 251 HBD_SYMBOL))
      = Ok (mk_asset nr HIVE_SYMBOL, mk_asset orr HBD_SYMBOL) /\
    0 <= nr /\ 0 <= orr /\ trade_terms 100 1003 1003 251 nr orr.
Proof.
  refine (match_amounts_at_price 100 1003 1003 251 HBD_SYMBOL HIVE_SYMBOL _ _ _ _ _ _);
    [discriminate|lia|lia|unfold pos_amount; lia|unfold pos_amount; lia|reflexivity].
Defined.

Lemma match_amounts_positive_witness :
  exists nr orr, match_amounts (mk_asset 100 HBD_SYMBOL) (mk_asset 1003 HIVE_SYMBOL)
      (mk_price (mk_asset 1003 HIVE_SYMBOL) (mk_asset 251 HBD_SYMBOL))
      = Ok (mk_asset nr HIVE_SYMBOL, mk_asset orr HBD_SYMBOL) /\ 1 <= nr /\ 1 <= orr.
Proof.
  refine (match_amounts_positive 100 1003 1003 251 100 380 HBD_SYMBOL HIVE_SYMBOL _ _ _ _ _ _ _ _ _ _ _);
    [discriminate|lia|lia|unfold pos_amount; lia|unfold pos_amount; lia|unfold pos_amount; lia
    |unfold pos_amount; lia|reflexivity|reflexivity|vm_compute; discriminate|vm_compute; discriminate].
Defined.
End Sample.
