(* ===== verification/Authority.v ===== *)
(** * Authorities

    Models libraries/protocol/authority.cpp and authority.hpp (authorities,
    account names) and sign_state.hpp (the check whether the provided
    signatures satisfy an authority, with its limits on recursion, members and
    accounts).  A [flat_map] is its list of entries in key order. *)

From stdpp Require Import base numbers strings option list gmap.
From S2P Require Import Prelude Fc Config.
Open Scope Z_scope.

(** ** Authorities *)

(** Public keys are only compared. *)
Abbreviation public_key_type := Z (only parsing).
Abbreviation account_name_type := string (only parsing).

Record authority : Set := mk_auth {
  weight_threshold : Z;
  account_auths : list (account_name_type * Z);
  key_auths : list (public_key_type * Z)
}.

#[export] Instance authority_eq_dec : EqDecision authority.
Proof. solve_decision. Defined.

(** [map[k] = w] on a [flat_map] ordered by [ltb]. *)
Fixpoint flat_map_set {K} `{EqDecision K} (ltb : K -> K -> bool) (k : K) (w : Z) (m : list (K * Z)) :
    list (K * Z) :=
  match m with
  | [] => [(k, w)]
  | (k', w') :: m' =>
      if decide (k = k') then (k, w) :: m'
      else if ltb k k' then (k, w) :: m else (k', w') :: flat_map_set ltb k w m'
  end.

Definition add_key_authority (k : public_key_type) (w : Z) (a : authority) : authority :=
  mk_auth (weight_threshold a) (account_auths a) (flat_map_set Z.ltb k w (key_auths a)).
Definition add_account_authority (k : account_name_type) (w : Z) (a : authority) : authority :=
  mk_auth (weight_threshold a) (flat_map_set String.ltb k w (account_auths a)) (key_auths a).

Definition get_keys (a : authority) : list public_key_type := (key_auths a).*1.
Definition get_accounts (a : authority) : list account_name_type := (account_auths a).*1.

Definition is_impossible (a : authority) : bool :=
  let auth_weights := foldl (fun t i => u64 (t + i)) 0 ((account_auths a).*2 ++ (key_auths a).*2) in
  auth_weights <? weight_threshold a.

Definition num_auths (a : authority) : Z :=
  u32 (Z.of_nat (length (account_auths a)) + Z.of_nat (length (key_auths a))).

Definition clear (a : authority) : authority := mk_auth (weight_threshold a) [] [].

(** ** Account names *)

Inductive account_name_validity : Set := valid | too_short | too_long | invalid_sequence.

Definition is_letter (c : Ascii.ascii) : bool := (97 <=? char_code c) && (char_code c <=? 122).
Definition is_let_dig (c : Ascii.ascii) : bool := is_letter c || is_digit c.
Definition is_let_dig_hyp (c : Ascii.ascii) : bool := is_let_dig c || Ascii.eqb c (chr 45).

Definition at_ (name : list Ascii.ascii) (i : nat) : Ascii.ascii := List.nth i name (chr 0).

(** [name.find_first_of( '.', begin )], with [npos] already replaced by the length. *)
Fixpoint find_dot (l : list Ascii.ascii) : nat :=
  match l with
  | [] => O
  | c :: l' => if Ascii.eqb c (chr 46) then O else S (find_dot l')
  end.
Definition find_end (name : list Ascii.ascii) (begin : nat) : nat := begin + find_dot (drop begin name).

(** The loop over the labels; each round moves [begin] forward. *)
Fixpoint check_labels (fuel : nat) (name : list Ascii.ascii) (begin : nat) : account_name_validity :=
  match fuel with
  | O => invalid_sequence
  | S fuel =>
      let end_ := find_end name begin in
      if (end_ - begin <? 3)%nat then invalid_sequence
      else if negb (is_letter (at_ name begin)) then invalid_sequence
      else if negb (is_let_dig (at_ name (end_ - 1))) then invalid_sequence
      else if negb (forallb (fun i => is_let_dig_hyp (at_ name i)) (seq (begin + 1) (end_ - 1 - (begin + 1))))
      then invalid_sequence
      else if (end_ =? length name)%nat then valid
      else check_labels fuel name (end_ + 1)
  end.

Definition check_account_name (s : string) : account_name_validity :=
  let name := String.list_ascii_of_string s in
  let len := Z.of_nat (length name) in
  if len <? HIVE_MIN_ACCOUNT_NAME_LENGTH then too_short
  else if HIVE_MAX_ACCOUNT_NAME_LENGTH <? len then too_long
  else check_labels (S (length name)) name 0.

Definition is_valid_account_name (s : string) : bool :=
  match check_account_name s with valid => true | _ => false end.

Definition authority_validate (a : authority) : result unit :=
  iterM (fun item : account_name_type * Z => check (is_valid_account_name item.1) AssertAccountName)
        (account_auths a).

(** ** The signature check *)

Record sign_limits : Set := mk_limits {
  allow_strict_and_mixed_authorities : bool;
  recursion : nat;
  membership_limit : Z;
  account_auths_limit : Z
}.

Record sign_state : Set := mk_sign {
  account_auth_count : Z;
  approved_by : gset string;
  provided_signatures : gmap public_key_type bool
}.

Definition set_count n st := mk_sign n (approved_by st) (provided_signatures st).
Definition set_approved x st := mk_sign (account_auth_count st) x (provided_signatures st).
Definition set_signatures x st := mk_sign (account_auth_count st) (approved_by st) x.

Definition extend_provided_signatures (keys : list public_key_type) (st : sign_state) : sign_state :=
  set_signatures (foldl (fun m k => <[k := false]> m) (provided_signatures st) keys) st.

Definition sign_state_init (sigs : list public_key_type) : sign_state :=
  extend_provided_signatures sigs (mk_sign 0 ∅ ∅).

Definition signed_by (k : public_key_type) (st : sign_state) : sign_state * bool :=
  match provided_signatures st !! k with
  | None => (st, false)
  | Some _ => (set_signatures (<[k := true]> (provided_signatures st)) st, true)
  end.

Definition clear_approved (st : sign_state) : sign_state := set_approved ∅ st.
Definition add_approved (names : list string) (st : sign_state) : sign_state :=
  set_approved (list_to_set names ∪ approved_by st) st.

Definition remove_unused_signatures (st : sign_state) : sign_state * bool :=
  let unused := filter (fun kv : public_key_type * bool => kv.2 = false) (provided_signatures st) in
  (set_signatures (filter (fun kv : public_key_type * bool => kv.2 = true) (provided_signatures st)) st,
   bool_decide (unused <> ∅)).

(** The running counters of one call, and how a loop over the members ends. *)
Inductive outcome : Set :=
| Return (b : bool)
| Continue (total_weight membership : Z).

(** [_increase_membership] *)
Definition increase_membership (lim : sign_limits) (membership : Z) : Z * bool :=
  let m := membership + 1 in
  (m, negb ((0 <? membership_limit lim) && (membership_limit lim <=? m))).

Section sign.
Variable lim : sign_limits.
Variable get_current_authority : string -> result authority.

Fixpoint check_keys (threshold : Z) (keys : list (public_key_type * Z)) (st : sign_state) (tw mem : Z) :
    sign_state * outcome :=
  match keys with
  | [] => (st, Continue tw mem)
  | (k, w) :: keys =>
      let '(st, signed) := signed_by k st in
      let tw := if signed then u32 (tw + w) else tw in
      if signed && (threshold <=? tw) then (st, Return true)
      else
        let '(mem, go) := increase_membership lim mem in
        if go then check_keys threshold keys st tw mem else (st, Return false)
  end.

(** The loop over the accounts; [rec] is the recursive check one level deeper,
    or nothing at the recursion limit. *)
Fixpoint check_accounts (rec : option (authority -> sign_state -> result (sign_state * bool)))
    (threshold : Z) (accts : list (account_name_type * Z)) (st : sign_state) (tw mem : Z) :
    result (sign_state * bool) :=
  match accts with
  | [] => Ok (st, threshold <=? tw)
  | (a, w) :: accts =>
      let next st tw :=
        let '(mem, go) := increase_membership lim mem in
        if go then check_accounts rec threshold accts st tw mem else Ok (st, false) in
      if bool_decide (a ∈ approved_by st) then
        let tw := u32 (tw + w) in
        if threshold <=? tw then Ok (st, true) else next st tw
      else
        match rec with
        | None => check_accounts rec threshold accts st tw mem
        | Some rec' =>
            if (0 <? account_auths_limit lim) && (account_auths_limit lim <=? account_auth_count st)
            then Ok (st, false)
            else
              let st := set_count (account_auth_count st + 1) st in
              account_auth ← get_current_authority a;
              '(st, success) ← rec' account_auth st;
              if success : bool then
                let st := set_approved ({[a]} ∪ approved_by st) st in
                let tw := u32 (tw + w) in
                if threshold <=? tw then Ok (st, true) else next st tw
              else next st tw
        end
  end.

(** [remaining] is [limits.recursion - depth]. *)
Fixpoint check_authority_impl (remaining : nat) (auth : authority) (st : sign_state) {struct remaining} :
    result (sign_state * bool) :=
  let rec := match remaining with O => None | S r => Some (check_authority_impl r) end in
  match check_keys (weight_threshold auth) (key_auths auth) st 0 0 with
  | (st, Return b) => Ok (st, b)
  | (st, Continue tw mem) => check_accounts rec (weight_threshold auth) (account_auths auth) st tw mem
  end.

Definition check_authority (id : string) (st : sign_state) : result (sign_state * bool) :=
  initial_auth ← get_current_authority id;
  if bool_decide (id ∈ approved_by st) then Ok (st, true)
  else
    let st := set_count (if allow_strict_and_mixed_authorities lim then account_auth_count st + 1 else 1) st in
    check_authority_impl (recursion lim) initial_auth st.

Definition check_given_authority (auth : authority) (st : sign_state) : result (sign_state * bool) :=
  let st := if allow_strict_and_mixed_authorities lim then st else set_count 0 st in
  check_authority_impl (recursion lim) auth st.
End sign.

(** ** The grammar of account names *)

Module Names.

(** A label of the documented grammar: three characters or more, beginning with
    a letter, ending with a letter or digit, hyphens only inside. *)
Definition valid_label (l : list Ascii.ascii) : bool :=
  (3 <=? length l)%nat && is_letter (at_ l 0) && is_let_dig (at_ l (length l - 1))
  && forallb is_let_dig_hyp (take (length l - 2) (drop 1 l)).

(** The dot-separated labels of a name. *)
Fixpoint split_dots (l : list Ascii.ascii) : list (list Ascii.ascii) :=
  match l with
  | [] => [[]]
  | c :: l' =>
      if Ascii.eqb c (chr 46) then [] :: split_dots l'
      else match split_dots l' with
           | h :: t => (c :: h) :: t
           | [] => [[c]]
           end
  end.

Lemma split_dots_first l :
  split_dots l = take (find_dot l) l ::
    (if (find_dot l =? length l)%nat then [] else split_dots (drop (S (find_dot l)) l)).
Proof.
  induction l as [|c l IH]; [done|]. cbn [split_dots find_dot].
  destruct (Ascii.eqb c (chr 46)) eqn:E; [done|]. rewrite IH. cbn [take length drop].
  by destruct (find_dot l =? length l)%nat eqn:E2; cbn; rewrite E2.
Qed.

Lemma find_dot_le l : (find_dot l <= length l)%nat.
Proof. induction l as [|c l IH]; cbn; [lia|]. destruct (Ascii.eqb c _); lia. Qed.

Lemma at_drop name b i : at_ name (b + i) = at_ (drop b name) i.
Proof.
  unfold at_. revert b. induction name as [|c l IH]; intros [|b]; [done|by destruct i|done|apply IH].
Qed.

Lemma at_take l n i : (i < n)%nat -> at_ (take n l) i = at_ l i.
Proof.
  unfold at_. revert n i. induction l as [|c l IH]; intros [|n] [|i] H; cbn; try done; [lia|lia|].
  apply IH. lia.
Qed.

Lemma forallb_seq (p : Ascii.ascii -> bool) l b n : (b + n <= length l)%nat ->
  forallb (fun i => p (at_ l i)) (seq b n) = forallb p (take n (drop b l)).
Proof.
  revert b. induction n as [|n IH]; intros b H; [done|]. cbn [seq forallb].
  assert (drop b l = at_ l b :: drop (S b) l) as ->.
  { clear IH. revert b H. induction l as [|c l IH]; intros b H; [cbn in H; lia|].
    destruct b as [|b]; [done|]. cbn [drop]. rewrite IH by (cbn in H; lia). done. }
  cbn [take forallb]. f_equal. apply IH. lia.
Qed.

(** The tests of one round are the tests of its label. *)
Lemma round_label name b : (b <= length name)%nat ->
  let e := find_end name b in
  valid_label (take (e - b) (drop b name)) =
    negb ((e - b <? 3)%nat) && is_letter (at_ name b) && is_let_dig (at_ name (e - 1))
    && forallb (fun i => is_let_dig_hyp (at_ name i)) (seq (b + 1) (e - 1 - (b + 1))).
Proof.
  intros Hb e. pose proof (find_dot_le (drop b name)) as Hle. rewrite length_drop in Hle.
  assert (e = b + find_dot (drop b name))%nat as He by done.
  set (n := find_dot (drop b name)) in *. replace (e - b)%nat with n by lia.
  unfold valid_label. rewrite length_take_le by (rewrite length_drop; lia).
  destruct (decide (n < 3)%nat) as [Hn|Hn].
  { rewrite (proj2 (Nat.leb_gt 3 n)) by lia. by rewrite (proj2 (Nat.ltb_lt n 3)) by lia. }
  rewrite (proj2 (Nat.leb_le 3 n)), (proj2 (Nat.ltb_ge n 3)) by lia. cbn [negb andb].
  rewrite !at_take by lia. rewrite <- !at_drop.
  rewrite forallb_seq by lia. rewrite Nat.add_0_r.
  replace (b + (n - 1))%nat with (e - 1)%nat by lia.
  do 2 f_equal. replace (e - 1 - (b + 1))%nat with (n - 2)%nat by lia.
  rewrite skipn_firstn_comm, firstn_firstn, drop_drop. f_equal. lia.
Qed.

Lemma check_labels_spec fuel name b : (b <= length name)%nat -> (length name - b < fuel)%nat ->
  check_labels fuel name b = valid <-> forallb valid_label (split_dots (drop b name)) = true.
Proof.
  revert b. induction fuel as [|fuel IH]; intros b Hb Hf; [lia|]. cbn [check_labels].
  pose proof (round_label name b Hb) as Hr. cbn zeta in Hr.
  pose proof (find_dot_le (drop b name)) as Hle. rewrite length_drop in Hle.
  rewrite split_dots_first. cbn [forallb]. rewrite length_drop.
  assert (find_end name b - b = find_dot (drop b name))%nat as Hn by (unfold find_end; lia).
  rewrite Hn in *. rewrite Hr.
  destruct ((find_dot (drop b name) <? 3)%nat); [done|]. destruct (is_letter _); [|done].
  destruct (is_let_dig _); [|done]. destruct (forallb _ (seq _ _)); [|done]. cbn [negb andb].
  destruct (find_end name b =? length name)%nat eqn:E.
  - apply Nat.eqb_eq in E. unfold find_end in E. by rewrite (proj2 (Nat.eqb_eq _ _)) by lia.
  - apply Nat.eqb_neq in E. unfold find_end in E. rewrite (proj2 (Nat.eqb_neq _ _)) by lia.
    rewrite drop_drop. replace (b + S (find_dot (drop b name)))%nat with (find_end name b + 1)%nat
      by (unfold find_end; lia). apply IH; unfold find_end; lia.
Qed.

(** C40. A name is accepted exactly when its length is between 3 and 16 and
    every dot-separated label is three characters or more, begins with a
    lower-case letter, ends with a letter or digit and contains only letters,
    digits and hyphens. *)
Theorem is_valid_account_name_grammar s :
  is_valid_account_name s = true <->
  (3 <= String.length s <= 16)%nat /\
  forallb valid_label (split_dots (String.list_ascii_of_string s)) = true.
Proof.
  unfold is_valid_account_name, check_account_name, HIVE_MIN_ACCOUNT_NAME_LENGTH, HIVE_MAX_ACCOUNT_NAME_LENGTH.
  assert (length (String.list_ascii_of_string s) = String.length s) as Hl
    by (induction s as [|c s IH]; cbn; congruence).
  set (name := String.list_ascii_of_string s) in *. rewrite Hl.
  destruct (_ <? 3) eqn:E1; to_prop; [split; [done|lia]|].
  destruct (16 <? _) eqn:E2; to_prop; [split; [done|lia]|].
  pose proof (check_labels_spec (S (String.length s)) name 0 ltac:(lia) ltac:(lia)) as Hs.
  cbn [drop] in Hs. destruct (check_labels _ _ _); split; intros H; try done;
    first [split; [lia|by apply Hs] | destruct H as [_ H]; apply Hs in H; done].
Qed.
End Names.

(** ** What the signature check decides *)

Definition weights_wf (a : authority) : Prop :=
  Forall (fun x => 0 <= x.2) (key_auths a) /\ Forall (fun x => 0 <= x.2) (account_auths a) /\
  sumZ snd (key_auths a) + sumZ snd (account_auths a) < 2 ^ 32.

Section soundness.
Variable lim : sign_limits.
Variable getter : string -> result authority.
(** Stored authorities have non-negative weights whose sum fits 32 bits. *)
Hypothesis getter_wf : forall a au, getter a = Ok au -> weights_wf au.
Variable keys : gset Z.
Variable pre : gset string.

(** The authority is satisfied by the signatures [keys] and the accounts [pre]
    that approved beforehand: some of its keys and some accounts, themselves
    satisfied, weigh enough. *)
Inductive satisfied : authority -> Prop :=
| satisfied_intro auth ks accts :
    ks `sublist_of` key_auths auth -> accts `sublist_of` account_auths auth ->
    Forall (fun k => k.1 ∈ keys) ks ->
    Forall (fun a => a.1 ∈ pre \/ exists au, getter a.1 = Ok au /\ satisfied au) accts ->
    weight_threshold auth <= sumZ snd ks + sumZ snd accts ->
    satisfied auth.

Definition approved_ok (st : sign_state) : Prop :=
  dom (provided_signatures st) = keys /\ pre ⊆ approved_by st /\
  forall a, a ∈ approved_by st -> a ∈ pre \/ exists au, getter a = Ok au /\ satisfied au.

Lemma u32_le x : 0 <= x -> 0 <= u32 x <= x.
Proof.
  intros H. unfold uwrap. split; [apply Z.mod_pos_bound; lia|apply Z.mod_le; lia].
Qed.

Lemma signed_by_ok k st st' b : approved_ok st -> signed_by k st = (st', b) ->
  approved_ok st' /\ account_auth_count st' = account_auth_count st /\ (b = true <-> k ∈ keys).
Proof.
  intros (Hd & Hp & Ha) H. unfold signed_by in H.
  destruct (provided_signatures st !! k) as [v|] eqn:E; injection H as <- <-.
  - assert (k ∈ keys) as Hk by (rewrite <- Hd; by eapply elem_of_dom_2).
    split_and!; [|done|done]. split_and!; auto. cbn. rewrite dom_insert_L, Hd. set_solver.
  - split_and!; [done|done|]. split; [done|]. intros Hk. rewrite <- Hd in Hk.
    apply elem_of_dom in Hk as [v Hv]. congruence.
Qed.

Lemma check_keys_sound thr l st tw mem st' out : approved_ok st -> Forall (fun x => 0 <= x.2) l -> 0 <= tw ->
  check_keys lim thr l st tw mem = (st', out) ->
  approved_ok st' /\ account_auth_count st' = account_auth_count st /\
  match out with
  | Return b => b = true -> exists ks, ks `sublist_of` l /\ Forall (fun k => k.1 ∈ keys) ks /\ thr <= tw + sumZ snd ks
  | Continue tw' _ => 0 <= tw' /\
      exists ks, ks `sublist_of` l /\ Forall (fun k => k.1 ∈ keys) ks /\ tw' <= tw + sumZ snd ks
  end.
Proof.
  intros Hst HF. revert st tw mem Hst. induction HF as [|[k w] l Hw HF IH]; intros st tw mem Hst Ht H; cbn [check_keys] in H.
  { injection H as <- <-. split_and!; auto. exists []. split_and!; auto; [cbn; lia]. }
  destruct (signed_by k st) as [st1 b] eqn:E.
  destruct (signed_by_ok _ _ _ _ Hst E) as (Hst1 & Hc1 & Hb). cbn in Hw.
  pose proof (u32_le (tw + w) ltac:(lia)) as Hu.
  assert (forall ks, ks `sublist_of` l -> Forall (fun k => k.1 ∈ keys) ks ->
     exists ks', ks' `sublist_of` ((k, w) :: l) /\ Forall (fun k => k.1 ∈ keys) ks' /\
       (if b then u32 (tw + w) else tw) + sumZ snd ks <= tw + sumZ snd ks') as Hext.
  { intros ks Hs Hk. destruct b.
    - exists ((k, w) :: ks). split_and!; [by constructor|constructor; [by apply Hb|done]|].
      rewrite sumZ_cons. cbn. lia.
    - exists ks. split_and!; [by constructor|done|lia]. }
  destruct (b && (thr <=? _)) eqn:Eb.
  - injection H as <- <-. apply andb_true_iff in Eb as [-> Eb]. to_prop. split_and!; auto. intros _.
    destruct (Hext [] (sublist_nil_l _) ltac:(constructor)) as (ks' & ? & ? & Hle). exists ks'.
    split_and!; auto. cbn in Hle. lia.
  - destruct (increase_membership lim mem) as [mem' go]. destruct go.
    + apply IH in H as (Hst' & Hc' & Hout); [|done|destruct b; lia]. split_and!; [done|congruence|].
      destruct out as [r|tw' m'].
      * intros Hr. destruct (Hout Hr) as (ks & Hs & Hk & Hle). destruct (Hext ks Hs Hk) as (ks' & ? & ? & ?).
        exists ks'. split_and!; auto. lia.
      * destruct Hout as (Ht' & ks & Hs & Hk & Hle). destruct (Hext ks Hs Hk) as (ks' & ? & ? & ?).
        split; [done|]. exists ks'. split_and!; auto. lia.
    + injection H as <- <-. by split_and!.
Qed.

(** What a deeper check may be used for. *)
Definition rec_sound (rec : option (authority -> sign_state -> result (sign_state * bool))) : Prop :=
  forall f, rec = Some f -> forall au st st' b, approved_ok st -> weights_wf au -> f au st = Ok (st', b) ->
    approved_ok st' /\ (b = true -> satisfied au).

Lemma check_accounts_sound rec thr l st tw mem st' b : rec_sound rec ->
  approved_ok st -> Forall (fun x => 0 <= x.2) l -> 0 <= tw ->
  check_accounts lim getter rec thr l st tw mem = Ok (st', b) ->
  approved_ok st' /\
  (b = true -> exists accts, accts `sublist_of` l /\
     Forall (fun a => a.1 ∈ pre \/ exists au, getter a.1 = Ok au /\ satisfied au) accts /\
     thr <= tw + sumZ snd accts).
Proof.
  intros Hrec Hst HF. revert st tw mem Hst.
  induction HF as [|[a w] l Hw HF IH]; intros st tw mem Hst Ht H; cbn [check_accounts] in H.
  { injection H as <- <-. split; [done|]. intros E. to_prop. exists []. split_and!; auto. cbn. lia. }
  cbn in Hw. pose proof (u32_le (tw + w) ltac:(lia)) as Hu.
  (* adding the entry [a], or leaving it out *)
  assert (forall st1, approved_ok st1 -> (a ∈ pre \/ exists au, getter a = Ok au /\ satisfied au) ->
    (if thr <=? u32 (tw + w) then Ok (st1, true) else
       let '(mem, go) := increase_membership lim mem in
       if go : bool then check_accounts lim getter rec thr l st1 (u32 (tw + w)) mem else Ok (st1, false)) = Ok (st', b) ->
    approved_ok st' /\ (b = true -> exists accts, accts `sublist_of` ((a, w) :: l) /\
      Forall (fun a => a.1 ∈ pre \/ exists au, getter a.1 = Ok au /\ satisfied au) accts /\
      thr <= tw + sumZ snd accts)) as Htake.
  { intros st1 Hst1 Hok H1. destruct (thr <=? u32 (tw + w)) eqn:E; to_prop.
    - injection H1 as <- <-. split; [done|]. intros _. exists [(a, w)]. split_and!.
      + apply sublist_skip, sublist_nil_l.
      + by constructor.
      + cbn. lia.
    - destruct (increase_membership lim mem) as [mem' go]. destruct go; [|by injection H1 as <- <-].
      apply IH in H1 as [Hst' Hb]; [|done|lia]. split; [done|]. intros Hbt.
      destruct (Hb Hbt) as (accts & ? & ? & ?). exists ((a, w) :: accts).
      split_and!; [by constructor|by constructor|]. rewrite sumZ_cons. cbn. lia. }
  assert (forall st1 m, approved_ok st1 -> check_accounts lim getter rec thr l st1 tw m = Ok (st', b) ->
    approved_ok st' /\ (b = true -> exists accts, accts `sublist_of` ((a, w) :: l) /\
      Forall (fun a => a.1 ∈ pre \/ exists au, getter a.1 = Ok au /\ satisfied au) accts /\
      thr <= tw + sumZ snd accts)) as Hskip.
  { intros st1 m Hst1 H1. apply IH in H1 as [Hst' Hb]; [|done|lia]. split; [done|]. intros Hbt.
    destruct (Hb Hbt) as (accts & ? & ? & ?). exists accts. split_and!; auto. by constructor. }
  destruct (bool_decide (a ∈ approved_by st)) eqn:Ea; to_prop.
  - apply (Htake st Hst); [|exact H]. by apply Hst.
  - destruct rec as [f|]; [|by eapply Hskip].
    destruct (_ && _); [by injection H as <- <-|].
    destruct (getter a) as [au|e] eqn:Eg; [|done]. cbn [mbind result_bind] in H.
    apply bind_Ok in H as ([st1 ok] & Hf & H).
    apply (Hrec f eq_refl) in Hf as [Hst1 Hok]; [|by destruct Hst as (?&?&?)|by eapply getter_wf].
    destruct ok.
    + eapply Htake; [| |exact H]; [|right; eauto].
      destruct Hst1 as (Hd & Hp & Hall). split_and!; [done|cbn; set_solver|].
      cbn. intros c [->%elem_of_singleton|Hc]%elem_of_union; [|auto]. right. eauto.
    + destruct (increase_membership lim mem) as [mem' go]. destruct go; [by eapply Hskip|by injection H as <- <-].
Qed.

Lemma impl_body_sound rec auth st st' b : rec_sound rec -> approved_ok st -> weights_wf auth ->
  match check_keys lim (weight_threshold auth) (key_auths auth) st 0 0 with
  | (st, Return b) => Ok (st, b)
  | (st, Continue tw mem) =>
      check_accounts lim getter rec (weight_threshold auth) (account_auths auth) st tw mem
  end = Ok (st', b) ->
  approved_ok st' /\ (b = true -> satisfied auth).
Proof.
  intros Hrec Hst (Wk & Wa & _) H.
  destruct (check_keys lim (weight_threshold auth) (key_auths auth) st 0 0) as [st1 out] eqn:Ek.
  destruct (check_keys_sound _ _ _ _ _ _ _ Hst Wk (Z.le_refl 0) Ek) as (Hst1 & _ & Hout).
  destruct out as [r|tw mem].
  - injection H as <- <-. split; [done|]. intros Hr. destruct (Hout Hr) as (ks & ? & ? & ?).
    apply (satisfied_intro auth ks []); auto using sublist_nil_l. cbn. lia.
  - destruct Hout as (Ht & ks & ? & ? & Hks).
    destruct (check_accounts_sound rec _ _ _ _ _ _ _ Hrec Hst1 Wa Ht H) as [Hst' Hb].
    split; [done|]. intros Hbt. destruct (Hb Hbt) as (accts & ? & ? & ?).
    apply (satisfied_intro auth ks accts); auto. lia.
Qed.

Lemma check_impl_sound n auth st st' b : approved_ok st -> weights_wf auth ->
  check_authority_impl lim getter n auth st = Ok (st', b) ->
  approved_ok st' /\ (b = true -> satisfied auth).
Proof.
  revert auth st st' b. induction n as [|n IH]; intros auth st st' b Hst Hw H.
  - refine (impl_body_sound None auth st st' b _ Hst Hw H). by intros f [= ].
  - refine (impl_body_sound (Some (check_authority_impl lim getter n)) auth st st' b _ Hst Hw H).
    intros f [= <-] au s s' c Hs Hau Hf. by eapply IH.
Qed.

(** The two public checks keep the approvals justified. *)
Definition granted (id : string) : Prop :=
  id ∈ pre \/ exists au, getter id = Ok au /\ satisfied au.

Lemma check_authority_step id st st' b : approved_ok st ->
  check_authority lim getter id st = Ok (st', b) -> approved_ok st' /\ (b = true -> granted id).
Proof.
  intros Hst H. unfold check_authority in H. destruct (getter id) as [au|e] eqn:E; [|done].
  cbn [mbind result_bind] in H. destruct (bool_decide _) eqn:Eb; to_prop.
  - injection H as <- <-. split; [done|]. intros _. by apply Hst.
  - apply check_impl_sound in H as [Hst' Hb]; [|by destruct Hst as (?&?&?)|by eapply getter_wf].
    split; [done|]. intros Hbt. right. eauto.
Qed.

Lemma check_given_step auth st st' b : approved_ok st -> weights_wf auth ->
  check_given_authority lim getter auth st = Ok (st', b) -> approved_ok st' /\ (b = true -> satisfied auth).
Proof.
  intros Hst Hw H. unfold check_given_authority in H. eapply check_impl_sound; [|done|exact H].
  destruct (allow_strict_and_mixed_authorities lim); [done|]. by destruct Hst as (?&?&?).
Qed.
End soundness.

(** The accounts that an authority names exist. *)
Definition members_known (getter : string -> result authority) (auth : authority) : Prop :=
  Forall (fun x => exists au, getter x.1 = Ok au) (account_auths auth).

Section completeness.
Variable lim : sign_limits.
Variable getter : string -> result authority.
Hypothesis getter_wf : forall a au, getter a = Ok au -> weights_wf au.
Hypothesis getter_known : forall a au, getter a = Ok au -> members_known getter au.
Hypothesis no_membership_limit : membership_limit lim = 0.
Hypothesis no_account_limit : account_auths_limit lim = 0.
Variable keys : gset Z.
Variable pre : gset string.

(** [satisfied] by a tree of at most [n] levels of accounts. *)
Fixpoint satisfied_within (n : nat) (auth : authority) : Prop :=
  exists ks accts,
    ks `sublist_of` key_auths auth /\ accts `sublist_of` account_auths auth /\
    Forall (fun k => k.1 ∈ keys) ks /\
    Forall (fun a => a.1 ∈ pre \/
              match n with
              | O => False
              | S m => exists au, getter a.1 = Ok au /\ satisfied_within m au
              end) accts /\
    weight_threshold auth <= sumZ snd ks + sumZ snd accts.

Lemma unlimited mem : increase_membership lim mem = (mem + 1, true).
Proof. unfold increase_membership. by rewrite no_membership_limit. Qed.

Lemma u32_small x : 0 <= x < 2 ^ 32 -> u32 x = x.
Proof. intros. by apply uwrap_id. Qed.

Lemma sum_nonneg {A} (l : list (A * Z)) : Forall (fun x => 0 <= x.2) l -> 0 <= sumZ snd l.
Proof. intros. by apply sumZ_nonneg. Qed.

Lemma check_keys_complete thr l st tw mem st' out ks :
  approved_ok getter keys pre st -> Forall (fun x => 0 <= x.2) l -> 0 <= tw -> tw + sumZ snd l < 2 ^ 32 ->
  ks `sublist_of` l -> Forall (fun k => k.1 ∈ keys) ks ->
  check_keys lim thr l st tw mem = (st', out) ->
  match out with
  | Return b => b = true
  | Continue tw' _ => tw + sumZ snd ks <= tw' <= tw + sumZ snd l
  end.
Proof.
  intros Hst HF. revert st tw mem ks Hst.
  induction HF as [|[k w] l Hw HF IH]; intros st tw mem ks Hst Ht Hs Hsub Hk H; cbn [check_keys] in H.
  { injection H as <- <-. apply sublist_nil_r in Hsub as ->. cbn. lia. }
  destruct (signed_by k st) as [st1 b] eqn:E.
  destruct (signed_by_ok getter getter_wf keys pre _ _ _ _ Hst E) as (Hst1 & _ & Hb). cbn in Hw.
  pose proof (sum_nonneg l HF). rewrite sumZ_cons in Hs. cbn in Hs.
  rewrite (u32_small (tw + w)) in H by lia.
  destruct (b && _) eqn:Eb; [by injection H as <- <-|]. rewrite unlimited in H.
  assert (exists ks', ks' `sublist_of` l /\ Forall (fun k => k.1 ∈ keys) ks' /\
     tw + sumZ snd ks <= (if b then tw + w else tw) + sumZ snd ks') as (ks' & Hsub' & Hk' & Hle).
  { inversion Hsub as [|? ks1 ? Hsub1|? ks1 ? Hsub1]; subst.
    - apply Forall_cons in Hk as [Hk1 Hk2]. apply Hb in Hk1 as ->. exists ks1. rewrite sumZ_cons. cbn. split_and!; auto. lia.
    - exists ks. split_and!; auto. destruct b; lia. }
  apply (IH _ _ _ ks') in H; auto; [|destruct b; lia|destruct b; lia].
  destruct out; [done|]. rewrite sumZ_cons. cbn. destruct b; lia.
Qed.

(** The deeper check returns, and accepts what is satisfied within its levels. *)
Definition rec_complete (n : nat) (rec : option (authority -> sign_state -> result (sign_state * bool))) : Prop :=
  match n, rec with
  | O, None => True
  | S m, Some f => forall au st, approved_ok getter keys pre st -> weights_wf au -> members_known getter au ->
      exists st' b, f au st = Ok (st', b) /\ approved_ok getter keys pre st' /\
        (b = true -> satisfied getter keys pre au) /\ (satisfied_within m au -> b = true)
  | _, _ => False
  end.

Lemma check_accounts_complete n rec thr l st tw mem accts : rec_complete n rec ->
  approved_ok getter keys pre st -> Forall (fun x => 0 <= x.2 /\ exists au, getter x.1 = Ok au) l -> 0 <= tw -> tw + sumZ snd l < 2 ^ 32 ->
  accts `sublist_of` l ->
  Forall (fun a => a.1 ∈ pre \/
     match n with O => False | S m => exists au, getter a.1 = Ok au /\ satisfied_within m au end) accts ->
  exists st' b, check_accounts lim getter rec thr l st tw mem = Ok (st', b) /\
    (thr <= tw + sumZ snd accts -> b = true).
Proof.
  intros Hrec Hst HF. revert st tw mem accts Hst.
  induction HF as [|[a w] l [Hw Hkn] HF IH]; intros st tw mem accts Hst Ht Hs Hsub Hk; cbn [check_accounts].
  { apply sublist_nil_r in Hsub as ->. eexists _, _. split; [done|]. cbn. intros. apply Z.leb_le. lia. }
  pose proof (sum_nonneg l (Forall_impl _ _ _ HF (fun x H => proj1 H))). rewrite sumZ_cons in Hs. cbn in Hs, Hw, Hkn.
  rewrite (u32_small (tw + w)) by lia. rewrite unlimited.
  (* the entry counts: continue with its weight added *)
  assert (forall st1, approved_ok getter keys pre st1 -> exists st' b,
    (if thr <=? tw + w then Ok (st1, true) else check_accounts lim getter rec thr l st1 (tw + w) (mem + 1)) = Ok (st', b)
    /\ (thr <= tw + sumZ snd accts -> b = true)) as Hadd.
  { intros st1 Hst1. destruct (thr <=? tw + w) eqn:E; [by eexists _, _|].
    inversion Hsub as [|? l1 ? Hsub1|? l1 ? Hsub1]; subst.
    - apply Forall_cons in Hk as [_ Hk]. destruct (IH st1 (tw + w) (mem + 1) l1) as (st' & b & Hc & Hb); auto; [lia|lia|].
      exists st', b. split; [done|]. rewrite sumZ_cons. cbn. intros. apply Hb. lia.
    - destruct (IH st1 (tw + w) (mem + 1) accts) as (st' & b & Hc & Hb); auto; [lia|lia|].
      exists st', b. split; [done|]. intros. apply Hb. lia. }
  (* the entry does not count: then it is not one of [accts] *)
  assert (forall st1 m, approved_ok getter keys pre st1 -> accts `sublist_of` l -> exists st' b,
    check_accounts lim getter rec thr l st1 tw m = Ok (st', b) /\ (thr <= tw + sumZ snd accts -> b = true)) as Hskip.
  { intros st1 m Hst1 Hsub1. apply IH; auto. lia. }
  assert (accts `sublist_of` l \/ (a ∈ pre \/
     match n with O => False | S m => exists au, getter a = Ok au /\ satisfied_within m au end)) as Hcase.
  { inversion Hsub; subst; [|by left]. apply Forall_cons in Hk as [Hk _]. by right. }
  destruct (bool_decide (a ∈ approved_by st)) eqn:Ea; to_prop; [by apply Hadd|].
  assert (a ∉ pre) as Hpre by (intros Hp; apply Ea; by apply Hst).
  destruct rec as [f|], n as [|m]; try done.
  - rewrite no_account_limit. cbn [Z.ltb andb]. destruct Hkn as [au Hau]. rewrite Hau.
    cbn [mbind result_bind].
    destruct (Hrec au (set_count (account_auth_count st + 1) st)) as (st1 & ok & -> & Hst1 & Hsnd & Hcmp);
      [done|by eapply getter_wf|by eapply getter_known|].
    destruct ok.
    + apply Hadd. destruct Hst1 as (Hd & Hp & Hall). split_and!; [done|cbn; set_solver|].
      cbn. intros c [->%elem_of_singleton|Hc]%elem_of_union; [|auto]. right. eauto.
    + apply Hskip; [done|]. destruct Hcase as [?|[?|(au' & Hau' & Hsat)]]; [done|done|].
      rewrite Hau in Hau'. injection Hau' as <-. by apply Hcmp in Hsat.
  - apply Hskip; [done|]. by destruct Hcase as [?|[?|?]].
Qed.

Lemma check_impl_complete n auth st : approved_ok getter keys pre st -> weights_wf auth -> members_known getter auth ->
  exists st' b, check_authority_impl lim getter n auth st = Ok (st', b) /\
    approved_ok getter keys pre st' /\ (b = true -> satisfied getter keys pre auth) /\
    (satisfied_within n auth -> b = true).
Proof.
  revert auth st. induction n as [|n IH]; intros auth st Hst Hw Hkn.
  all: match goal with |- context [check_authority_impl _ _ ?n _ _] =>
    assert (rec_complete n (match n with O => None | S r => Some (check_authority_impl lim getter r) end)) as Hrec
      by (try done; exact IH);
    assert (exists st' b, check_authority_impl lim getter n auth st = Ok (st', b) /\
      (satisfied_within n auth -> b = true)) as (st' & b & Hc & Hcmp)
  end.
  2,4: exists st', b; destruct (check_impl_sound lim getter getter_wf keys pre _ _ _ _ _ Hst Hw Hc); auto.
  all: cbn [check_authority_impl] in *; pose proof Hw as (Wk & Wa & Ws);
    pose proof (sum_nonneg _ Wk); pose proof (sum_nonneg _ Wa); pose proof (proj2 (Forall_and _ _) (conj Wa Hkn)) as Wkn;
    destruct (check_keys lim (weight_threshold auth) (key_auths auth) st 0 0) as [st1 out] eqn:Ek;
    destruct (check_keys_sound lim getter getter_wf keys pre _ _ _ _ _ _ _ Hst Wk (Z.le_refl 0) Ek) as (Hst1 & _ & Hout);
    (destruct out as [r|tw mem];
     [eexists _, _; split; [done|]; intros (ks & accts & Hks & _ & Hk & _);
      exact (check_keys_complete _ _ _ _ _ _ _ ks Hst Wk (Z.le_refl 0) ltac:(lia) Hks Hk Ek)|]);
    destruct Hout as (Ht & _);
    pose proof (check_keys_complete _ _ _ _ _ _ _ [] Hst Wk (Z.le_refl 0) ltac:(lia) (sublist_nil_l _) ltac:(constructor) Ek) as Hup;
    cbn beta iota in Hup;
    destruct (check_accounts_complete _ _ (weight_threshold auth) (account_auths auth) st1 tw mem [] Hrec Hst1 Wkn Ht
                ltac:(lia) (sublist_nil_l _) ltac:(constructor)) as (st' & b & Hc & _);
    exists st', b; (split; [done|]); intros (ks & accts & Hks & Hacc & Hk & Ha & Hthr);
    destruct (check_accounts_complete _ _ (weight_threshold auth) (account_auths auth) st1 tw mem accts Hrec Hst1 Wkn Ht
                ltac:(lia) Hacc Ha) as (st2 & b2 & Hc2 & Hb2);
    rewrite Hc in Hc2; injection Hc2 as <- <-;
    pose proof (check_keys_complete _ _ _ _ _ _ _ ks Hst Wk (Z.le_refl 0) ltac:(lia) Hks Hk Ek) as Hlow;
    cbn beta iota in Hlow; apply Hb2; lia.
Qed.
End completeness.

(** ** Bound on the work *)

Section bound.
Variable lim : sign_limits.
Variable getter : string -> result authority.
Hypothesis limited : 0 < account_auths_limit lim.

Lemma check_keys_count thr l st tw mem : account_auth_count (check_keys lim thr l st tw mem).1 = account_auth_count st.
Proof.
  revert st tw mem. induction l as [|[k w] l IH]; intros st tw mem; cbn [check_keys]; [done|].
  assert (account_auth_count (signed_by k st).1 = account_auth_count st) as Hs
    by (unfold signed_by; by destruct (provided_signatures st !! k)).
  destruct (signed_by k st) as [st1 b]. cbn in Hs. destruct (b && _); [done|].
  destruct (increase_membership lim mem) as [m go]. destruct go; [|done]. by rewrite IH.
Qed.

Definition bounded (st st' : sign_state) : Prop :=
  account_auth_count st <= account_auth_count st' <= Z.max (account_auth_count st) (account_auths_limit lim).

Lemma check_accounts_count rec thr l st tw mem st' b :
  (forall f, rec = Some f -> forall au st st' b, f au st = Ok (st', b) -> bounded st st') ->
  check_accounts lim getter rec thr l st tw mem = Ok (st', b) -> bounded st st'.
Proof.
  intros Hrec. revert st tw mem. induction l as [|[a w] l IH]; intros st tw mem H; cbn [check_accounts] in H.
  { injection H as <- <-. unfold bounded. lia. }
  destruct (increase_membership lim mem) as [m go].
  destruct (bool_decide _).
  { destruct (thr <=? _); [injection H as <- <-; unfold bounded; lia|].
    destruct go; [by eapply IH|injection H as <- <-; unfold bounded; lia]. }
  destruct rec as [f|]; [|by eapply IH].
  destruct (_ && _) eqn:E; [injection H as <- <-; unfold bounded; lia|].
  rewrite (proj2 (Z.ltb_lt _ _) limited) in E. cbn [andb] in E. to_prop.
  apply bind_Ok in H as (au & _ & H). apply bind_Ok in H as ([st1 ok] & Hf & H).
  apply (Hrec f eq_refl) in Hf. unfold bounded in *. cbn [account_auth_count set_count] in Hf.
  destruct ok; [destruct (thr <=? _); [injection H as <- <-; cbn; lia|]|];
    (destruct go; [|injection H as <- <-; cbn; lia]); apply IH in H; cbn in H; lia.
Qed.

Lemma check_impl_count n auth st st' b :
  check_authority_impl lim getter n auth st = Ok (st', b) -> bounded st st'.
Proof.
  revert auth st st' b. induction n as [|n IH]; intros auth st st' b H; cbn [check_authority_impl] in H;
    pose proof (check_keys_count (weight_threshold auth) (key_auths auth) st 0 0) as Hk;
    destruct (check_keys _ _ _ _ _ _) as [st1 [r|tw mem]]; cbn in Hk;
    try (injection H as <- <-; unfold bounded; lia);
    (assert (bounded st1 st') as Hb; [|unfold bounded in *; lia]);
    (eapply check_accounts_count; [|exact H]); [by intros f [= ]|].
  intros f [= <-]. apply IH.
Qed.
End bound.

(** ** Claims *)

Section claims.
Variable lim : sign_limits.
Variable getter : string -> result authority.
Hypothesis getter_wf : forall a au, getter a = Ok au -> weights_wf au.

Lemma approved_ok_refl st :
  approved_ok getter (dom (provided_signatures st)) (approved_by st) st.
Proof. split_and!; auto. Qed.

(** No authority is granted without cause: when the check of an account
    accepts, the account was approved beforehand, or its authority is satisfied
    by the provided signatures, through a finite tree of accounts in which every
    threshold is reached by the weights of signed keys and satisfied accounts;
    the limits and the 32-bit weight counter cannot make it accept more. *)
Theorem check_authority_sound id st st' :
  check_authority lim getter id st = Ok (st', true) ->
  id ∈ approved_by st \/
  exists au, getter id = Ok au /\ satisfied getter (dom (provided_signatures st)) (approved_by st) au.
Proof.
  intros H. unfold check_authority in H. destruct (getter id) as [au|e] eqn:E; [|done]. cbn [mbind result_bind] in H.
  destruct (bool_decide _) eqn:Eb; to_prop; [by left|]. right. exists au. split; [done|].
  apply (check_impl_sound lim getter getter_wf (dom (provided_signatures st)) (approved_by st)) in H
    as [_ H]; [auto|apply (approved_ok_refl st)|by eapply getter_wf].
Qed.

(** C22. Without limits on members and accounts, and when every account that an
    authority names exists, the check always answers, and it accepts every authority
    that is satisfied by a tree of at most [limits.recursion] levels, whatever the order
    of the entries. *)
Theorem check_authority_complete auth st :
  (forall a au, getter a = Ok au -> members_known getter au) -> members_known getter auth ->
  membership_limit lim = 0 -> account_auths_limit lim = 0 -> weights_wf auth ->
  exists st' b, check_given_authority lim getter auth st = Ok (st', b) /\
    (satisfied_within getter (dom (provided_signatures st)) (approved_by st) (recursion lim) auth -> b = true).
Proof.
  intros Ht Hkn Hm Ha Hw. unfold check_given_authority.
  set (st1 := if allow_strict_and_mixed_authorities lim then st else set_count 0 st).
  destruct (check_impl_complete lim getter getter_wf Ht Hm Ha (dom (provided_signatures st)) (approved_by st)
              (recursion lim) auth st1) as (st' & b & Hc & _ & _ & Hb);
    [unfold st1; destruct (allow_strict_and_mixed_authorities lim); apply (approved_ok_refl st)|done|done|].
  exists st', b. auto.
Qed.

(** The number of accounts whose authority is fetched is bounded: the
    counter never passes the configured limit during a check. *)
Theorem check_authority_bounded auth st st' b :
  0 < account_auths_limit lim -> 0 <= account_auth_count st <= account_auths_limit lim ->
  check_given_authority lim getter auth st = Ok (st', b) ->
  account_auth_count st' <= account_auths_limit lim.
Proof.
  intros Hl Hc H. unfold check_given_authority in H. apply check_impl_count in H; [|done].
  unfold bounded in H. destruct (allow_strict_and_mixed_authorities lim); cbn in H; lia.
Qed.
End claims.

(** ** A concrete multi-signature account *)

Module Sample.
Definition alice : authority := mk_auth 2 [("bob", 1)] [(7, 1); (8, 1)].
Definition bob : authority := mk_auth 1 [] [(9, 1)].
Definition getter (n : string) : result authority :=
  if bool_decide (n = "alice") then Ok alice else if bool_decide (n = "bob") then Ok bob else Throw AssertFc.
Definition unlimited_lim : sign_limits := mk_limits true 2 0 0.
Definition limits_125 : sign_limits := mk_limits true 2 40 125.

Lemma weights_wf_sample a au : getter a = Ok au -> weights_wf au.
Proof.
  unfold getter. destruct (bool_decide _); [|destruct (bool_decide _)]; intros [= <-];
    (split_and!; [repeat constructor; cbn; lia|repeat constructor; cbn; lia|cbn; lia]).
Qed.
Lemma getter_known a au : getter a = Ok au -> members_known getter au.
Proof.
  unfold getter at 1. destruct (bool_decide _); [|destruct (bool_decide _); [|done]]; intros [= <-]; [|constructor].
  apply Forall_singleton. exists bob. reflexivity.
Qed.

(** Key 7 and Bob's key 9 together reach Alice's threshold; key 7 alone does not. *)
Example sample_runs :
  snd <$> check_authority limits_125 getter "alice" (sign_state_init [7; 9]) = Ok true /\
  snd <$> check_authority limits_125 getter "alice" (sign_state_init [7]) = Ok false.
Proof. split; vm_compute; reflexivity. Qed.

Definition st79 : sign_state := sign_state_init [7; 9].
Definition st_after : sign_state :=
  match check_authority limits_125 getter "alice" st79 with Ok (s, _) => s | Throw _ => st79 end.

Lemma check_authority_sound_witness :
  "alice" ∈ approved_by st79 \/
  exists au, getter "alice" = Ok au /\ satisfied getter (dom (provided_signatures st79)) (approved_by st79) au.
Proof.
  refine (check_authority_sound limits_125 getter weights_wf_sample "alice" st79 st_after _).
  vm_compute. reflexivity.
Defined.

Lemma check_authority_complete_witness :
  exists st' b, check_given_authority unlimited_lim getter alice st79 = Ok (st', b) /\
    (satisfied_within getter (dom (provided_signatures st79)) (approved_by st79) 2 alice -> b = true).
Proof.
  refine (check_authority_complete unlimited_lim getter weights_wf_sample alice st79 getter_known _ _ _ _).
  - exact (getter_known "alice" alice eq_refl).
  - reflexivity.
  - reflexivity.
  - exact (weights_wf_sample "alice" alice eq_refl).
Defined.

Lemma check_authority_bounded_witness :
  account_auth_count
    (match check_given_authority limits_125 getter alice st79 with Ok (s, _) => s | Throw _ => st79 end) <= 125.
Proof.
  refine (check_authority_bounded limits_125 getter alice st79 _ true _ _ _).
  - reflexivity.
  - cbn. lia.
  - vm_compute. reflexivity.
Defined.
End Sample.
