(* ===== verification/Resources.v ===== *)
(** * Mana and resource pools

    Models libraries/chain/include/hive/chain/util/manabar.hpp (regeneration
    and use of mana) and libraries/chain/util/rd.cpp with rd_dynamics.hpp and
    rd_setup.hpp (the dynamics of a resource pool and the computation of its
    equilibrium), and the limit on removals of remove_guard.hpp. *)

From stdpp Require Import base numbers strings option list.
From S2P Require Import Prelude Fc Config.
Open Scope Z_scope.

(** ** Manabars *)

Record manabar_params : Set := mk_mparams { max_mana : Z; regen_time : Z }.
Record manabar : Set := mk_manabar { current_mana : Z; last_update_time : Z }.

Section manabar_ops.
Context `{L : FcLib}.

Definition manabar_params_validate (p : manabar_params) : result unit := check (0 <=? max_mana p) AssertFc.

Definition regenerate_mana (skip_cap_regen : bool) (p : manabar_params) (now : Z) (m : manabar) : result manabar :=
  _ ← manabar_params_validate p;
  _ ← check (last_update_time m <=? now) AssertFc;
  let dt := u32 (now - last_update_time m) in
  if max_mana p <=? current_mana m then Ok (mk_manabar (max_mana p) now)
  else if dt =? 0 then Ok m
  else
    let dt := if skip_cap_regen then dt else if regen_time p <? dt then regen_time p else dt in
    let max_mana_dt := u128 (u64 (if 0 <=? max_mana p then max_mana p else 0) * dt) in
    q ← (if regen_time p =? 0 then Throw DivideByZero else Ok (max_mana_dt / regen_time p));
    u_regen ← uint128_to_uint64 q;
    _ ← check (u_regen <=? int64_max) AssertFc;
    let new_current_mana := signed_sat_add (current_mana m) (i64 u_regen) in
    Ok (mk_manabar (if max_mana p <? new_current_mana then max_mana p else new_current_mana) now).

Definition has_mana (mana_needed : Z) (m : manabar) : bool :=
  (mana_needed <=? 0) || (mana_needed <=? current_mana m).

Definition has_mana_u (mana_needed : Z) (m : manabar) : result bool :=
  _ ← check (mana_needed <=? int64_max) AssertFc; Ok (has_mana (i64 mana_needed) m).

Definition use_mana (mana_used min_mana : Z) (m : manabar) : manabar :=
  let c := signed_sat_sub (current_mana m) mana_used in
  mk_manabar (if c <? min_mana then min_mana else c) (last_update_time m).

Definition use_mana_u (mana_used min_mana : Z) (m : manabar) : result manabar :=
  _ ← check (mana_used <=? int64_max) AssertFc; Ok (use_mana (i64 mana_used) min_mana m).

(** [update_manabar] on the two manabars of an account, for blocks after the
    HF21 stall block. *)
Definition update_manabar (effective_vests head_block_time downvote_pool_percent new_mana : Z)
    (voting downvote : manabar) : result (manabar * manabar) :=
  voting ← regenerate_mana false (mk_mparams effective_vests HIVE_VOTING_MANA_REGENERATION_SECONDS)
             head_block_time voting;
  let voting := use_mana (i64 (- new_mana)) 0 voting in
  if downvote_pool_percent =? 0 then Ok (voting, downvote)
  else
    mm ← uint128_to_int64 (u128 (u128 effective_vests * downvote_pool_percent) / HIVE_100_PERCENT);
    downvote ← regenerate_mana false (mk_mparams mm HIVE_VOTING_MANA_REGENERATION_SECONDS)
                 head_block_time downvote;
    Ok (voting, use_mana (Z.quot (i64 (i64 (- new_mana) * downvote_pool_percent)) HIVE_100_PERCENT) 0 downvote).
End manabar_ops.

(** ** Limits on work in a block *)

(** [remove_guard::step]: a negative limit is none. *)
Definition guard_step (limit : Z) : bool * Z := if 0 <? limit then (true, limit - 1) else (negb (limit =? 0), limit).
Definition guard_done (limit : Z) : bool := limit =? 0.

(** ** Resource dynamics *)

Record rd_decay_params : Set := mk_decay { decay_per_time_unit : Z; decay_per_time_unit_denom_shift : Z }.
Record rd_dynamics_params : Set := mk_rd {
  resource_unit : Z;
  budget_per_time_unit : Z;
  pool_eq : Z;
  max_pool_size : Z;
  decay_params : rd_decay_params;
  min_decay : Z
}.
Record rd_user_params : Set := mk_user { user_budget : Z; user_decay : Z }.
Record rd_system_params : Set := mk_system { system_resource_unit : Z; system_denom_shift : Z }.

Definition rd_validate_user_params (u : rd_user_params) : result unit :=
  _ ← check (HIVE_RD_MIN_BUDGET <=? user_budget u) AssertFc;
  _ ← check (user_budget u <=? HIVE_RD_MAX_BUDGET) AssertFc;
  _ ← check (HIVE_RD_MIN_DECAY <=? user_decay u) AssertFc;
  check (user_decay u <=? HIVE_RD_MAX_DECAY) AssertFc.

Section rd_ops.
Context `{L : FcLib}.

Definition pool_decay (d : rd_decay_params) (pool dt : Z) : result Z :=
  let decay_amount := u64 (decay_per_time_unit d * dt) in
  let decay_amount := u128 (decay_amount * u64 pool) in
  r ← uint128_to_uint64 (Z.shiftr decay_amount (decay_per_time_unit_denom_shift d));
  Ok (if u64 pool <? r then pool else i64 r).

Definition rd_compute_pool_decay (d : rd_decay_params) (pool dt : Z) : result Z :=
  if pool <? 0 then r ← pool_decay d (i64 (- pool)) dt; Ok (i64 (- r)) else pool_decay d pool dt.

Definition rd_apply (rd : rd_dynamics_params) (pool : Z) : result Z :=
  decay ← rd_compute_pool_decay (decay_params rd) pool 1;
  let decay := Z.max decay (min_decay rd) in
  let new_pool := i64 (i64 (pool + budget_per_time_unit rd) - decay) in
  Ok (Z.max (Z.min new_pool (i64 (max_pool_size rd))) 0).

Definition rd_setup_dynamics_params (u : rd_user_params) (sys : rd_system_params) : result rd_dynamics_params :=
  _ ← check (system_denom_shift sys =? HIVE_RD_DECAY_DENOM_SHIFT) AssertFc;
  let temp := u128 (Z.shiftl (u128 (user_budget u)) (system_denom_shift sys)) in
  let temp := u128 (temp + u32 (user_decay u - 1)) in
  temp ← (if user_decay u =? 0 then Throw DivideByZero else Ok (temp / user_decay u));
  eq ← uint128_to_uint64 temp;
  let d := mk_decay (user_decay u) (u8 (system_denom_shift sys)) in
  let dparams := mk_rd (system_resource_unit sys) (user_budget u) eq eq d 0 in
  let check_pool_eq pool := decay ← rd_compute_pool_decay d (i64 pool) 1; Ok (user_budget u <=? decay) in
  at_eq ← check_pool_eq eq;
  _ ← check at_eq AssertFc;
  below ← check_pool_eq (u64 (eq - 1));
  _ ← check (negb below) AssertFc;
  Ok dparams.
End rd_ops.

(** ** Regeneration *)

Section regeneration.
Context `{L : FcLib} `{!FcLaws L}.

Record mana_ok (p : manabar_params) (m : manabar) (now : Z) : Prop := {
  ok_max : 0 <= max_mana p < 2 ^ 63;
  ok_regen : 0 < regen_time p < 2 ^ 32;
  ok_current : in_s 64 (current_mana m);
  ok_time : 0 <= last_update_time m <= now;
  ok_now : now < 2 ^ 32
}.

(** The mana regained in [dt] seconds, at most one full bar. *)
Definition regained (p : manabar_params) (dt : Z) : Z := max_mana p * Z.min dt (regen_time p) / regen_time p.

Lemma regained_range p dt : 0 <= max_mana p -> 0 < regen_time p -> 0 <= dt -> 0 <= regained p dt <= max_mana p.
Proof.
  intros Hm Hr Hd. unfold regained. split; [apply Z.div_pos; nia|].
  apply Z.div_le_upper_bound; [lia|]. nia.
Qed.

Lemma regenerate_value p m now : mana_ok p m now ->
  regenerate_mana false p now m =
    Ok (mk_manabar (Z.min (max_mana p) (current_mana m + regained p (now - last_update_time m))) now).
Proof.
  intros [Hm Hr Hc Ht Hn]. unfold regenerate_mana, manabar_params_validate.
  rewrite (proj2 (Z.leb_le 0 (max_mana p))) by lia. cbn [check mbind result_bind].
  rewrite (proj2 (Z.leb_le _ now)) by lia. cbn [check mbind result_bind].
  set (dt := now - last_update_time m).
  rewrite (uwrap_id 32 dt) by (unfold in_u, dt; lia).
  pose proof (regained_range p dt ltac:(lia) ltac:(lia) ltac:(unfold dt; lia)) as Hg.
  destruct (max_mana p <=? current_mana m) eqn:E1; to_prop; [do 2 f_equal; lia|].
  destruct (dt =? 0) eqn:E2; to_prop.
  { assert (regained p dt = 0) as -> by (unfold regained; rewrite E2, Z.min_l, Z.mul_0_r by lia; by apply Z.div_0_l; lia).
    transitivity (Ok (mk_manabar (current_mana m) (last_update_time m))); [by destruct m|].
    do 2 f_equal; [lia|unfold dt in E2; lia]. }
  assert ((if regen_time p <? dt then regen_time p else dt) = Z.min dt (regen_time p)) as ->.
  { destruct (regen_time p <? dt) eqn:E; to_prop; lia. }
  set (d := Z.min dt (regen_time p)). assert (0 <= d < 2 ^ 32) by (unfold d, dt; lia).
  rewrite (uwrap_id 64) by (unfold in_u; lia).
  rewrite uwrap_id by (unfold in_u; change (2 ^ 128) with (2 ^ 64 * 2 ^ 64); nia).
  rewrite (proj2 (Z.eqb_neq (regen_time p) 0)) by lia. cbn [mbind result_bind].
  change (max_mana p * d / regen_time p) with (regained p dt).
  rewrite uint128_to_uint64_fits by (unfold in_u; lia). cbn [mbind result_bind].
  rewrite (proj2 (Z.leb_le _ int64_max)) by (unfold int64_max; lia). cbn [check mbind result_bind].
  rewrite (swrap_id 64 (regained p dt)) by (unfold in_s; lia).
  rewrite signed_sat_add_clamps by (unfold in_s in *; lia).
  do 2 f_equal. unfold clamp64, int64_min, int64_max, in_s in *.
  destruct (_ <? _) eqn:E3; to_prop; lia.
Qed.

(** Regeneration adds exactly the mana regained in the elapsed time, in
    proportion to the full bar and at most one full bar, capped at the maximum,
    and stamps the bar with the current time; it never throws or saturates on
    valid parameters. *)
Theorem regenerate_mana_exact p m now : mana_ok p m now ->
  regenerate_mana false p now m =
    Ok (mk_manabar (Z.min (max_mana p)
         (current_mana m + max_mana p * Z.min (now - last_update_time m) (regen_time p) / regen_time p)) now).
Proof. apply regenerate_value. Qed.

Lemma regained_split p d1 d2 : 0 <= max_mana p -> 0 < regen_time p -> 0 <= d1 -> 0 <= d2 ->
  Z.min (max_mana p) (regained p d1 + regained p d2) <= regained p (d1 + d2).
Proof.
  intros Hm Hr H1 H2. destruct (Z.le_gt_cases (d1 + d2) (regen_time p)) as [Hle|Hgt].
  - unfold regained. rewrite (Z.min_l d1), (Z.min_l d2), (Z.min_l (d1 + d2)) by lia.
    pose proof (Z.mul_div_le (max_mana p * d1) (regen_time p) Hr).
    pose proof (Z.mul_div_le (max_mana p * d2) (regen_time p) Hr).
    assert (max_mana p * d1 / regen_time p + max_mana p * d2 / regen_time p <= max_mana p * (d1 + d2) / regen_time p);
      [|lia]. apply Z.div_le_lower_bound; lia.
  - assert (regained p (d1 + d2) = max_mana p) as ->; [|lia].
    unfold regained. rewrite Z.min_r by lia. by apply Z.div_mul; lia.
Qed.

(** Regenerating in two steps never gives more than regenerating once:
    touching a manabar in between cannot be used to gain mana. *)
Theorem regenerate_split_no_gain p m t1 t2 : mana_ok p m t1 -> 0 <= current_mana m -> t1 <= t2 < 2 ^ 32 ->
  exists m1 m2 m12,
    regenerate_mana false p t1 m = Ok m1 /\ regenerate_mana false p t2 m1 = Ok m2 /\
    regenerate_mana false p t2 m = Ok m12 /\
    current_mana m2 <= current_mana m12 /\ last_update_time m2 = last_update_time m12.
Proof.
  intros [Hm Hr Hc Ht Hn] H0 H2. unfold in_s in Hc.
  assert (mana_ok p m t1) as M1 by (constructor; try done; lia).
  assert (mana_ok p m t2) as M12 by (constructor; try done; lia).
  pose proof (regained_range p (t1 - last_update_time m) ltac:(lia) ltac:(lia) ltac:(lia)).
  pose proof (regained_range p (t2 - t1) ltac:(lia) ltac:(lia) ltac:(lia)).
  eexists _, _, _. split; [by apply regenerate_value|]. split; [|split; [by apply regenerate_value|]].
  - apply regenerate_value. constructor; cbn; unfold in_s; try done; lia.
  - cbn. split; [|done].
    pose proof (regained_split p (t1 - last_update_time m) (t2 - t1) ltac:(lia) ltac:(lia) ltac:(lia) ltac:(lia)) as Hs.
    replace (t1 - last_update_time m + (t2 - t1)) with (t2 - last_update_time m) in Hs by lia. lia.
Qed.

(** Paying for an operation with mana that [has_mana] confirmed takes
    exactly the cost and leaves a non-negative bar; without it the bar stops
    at the given minimum. *)
Theorem use_mana_exact m used : in_s 64 (current_mana m) -> 0 <= used < 2 ^ 63 ->
  (has_mana used m = true -> 0 <= current_mana m ->
     current_mana (use_mana used 0 m) = current_mana m - used /\ 0 <= current_mana (use_mana used 0 m)) /\
  (has_mana used m = false -> current_mana (use_mana used 0 m) = 0).
Proof.
  unfold in_s. intros Hc Hu. unfold has_mana, use_mana. cbn.
  rewrite signed_sat_sub_clamps by (unfold in_s; lia).
  unfold clamp64, int64_min, int64_max. split.
  - intros Hh H0. assert (used <= 0 \/ used <= current_mana m) as Hle.
    { apply orb_true_iff in Hh. rewrite !Z.leb_le in Hh. done. }
    destruct (_ <? 0) eqn:E; to_prop; lia.
  - intros Hh. apply orb_false_iff in Hh. rewrite !Z.leb_gt in Hh.
    destruct (_ <? 0) eqn:E; to_prop; lia.
Qed.
End regeneration.

(** ** Equilibrium of a pool *)

Section equilibrium.
Context `{L : FcLib} `{!FcLaws L}.

Record user_ok (u : rd_user_params) : Prop := {
  ok_budget : 1 <= user_budget u < 2 ^ 28;
  ok_decay : 64 <= user_decay u < 2 ^ 32
}.

Lemma rd_validate_ok u : rd_validate_user_params u = Ok tt <-> user_ok u.
Proof.
  unfold rd_validate_user_params. rewrite !check_bind_Ok, check_Ok, !Z.leb_le.
  change HIVE_RD_MIN_BUDGET with 1. change HIVE_RD_MAX_BUDGET with (2 ^ 28 - 1).
  change HIVE_RD_MIN_DECAY with 64. change HIVE_RD_MAX_DECAY with (2 ^ 32 - 1).
  split; [intros; constructor; lia|intros []; lia].
Qed.

(** The wider range in which the dynamics below is exact. *)
Record rd_ok (u : rd_user_params) : Prop := {
  rd_budget : 1 <= user_budget u < 2 ^ 30;
  rd_decay : 64 <= user_decay u < 2 ^ 32
}.

Lemma user_rd_ok u : user_ok u -> rd_ok u.
Proof. intros []. constructor; lia. Qed.

(** The smallest pool at which one step decays at least the budget. *)
Definition equilibrium (u : rd_user_params) : Z := (user_budget u * 2 ^ 36 + (user_decay u - 1)) / user_decay u.

Lemma equilibrium_bounds u : rd_ok u ->
  user_budget u * 2 ^ 36 <= user_decay u * equilibrium u < user_budget u * 2 ^ 36 + user_decay u /\
  1 <= equilibrium u < 2 ^ 60.
Proof.
  intros [Hb Hd]. unfold equilibrium.
  set (x := user_budget u * 2 ^ 36 + (user_decay u - 1)). set (d := user_decay u) in *.
  pose proof (Z.div_mod x d ltac:(lia)). pose proof (Z.mod_pos_bound x d ltac:(lia)).
  assert (user_budget u * 2 ^ 36 <= d * (x / d) < user_budget u * 2 ^ 36 + d) as H1 by lia.
  split; [exact H1|]. split; nia.
Qed.

Lemma pool_decay_value u pool : rd_ok u -> 0 <= pool < 2 ^ 62 ->
  rd_compute_pool_decay (mk_decay (user_decay u) 36) pool 1 = Ok (user_decay u * pool / 2 ^ 36).
Proof.
  intros [Hb Hd] Hp. unfold rd_compute_pool_decay, pool_decay.
  rewrite (proj2 (Z.ltb_ge pool 0)) by lia. cbn [decay_per_time_unit decay_per_time_unit_denom_shift].
  rewrite Z.mul_1_r. rewrite (uwrap_id 64 (user_decay u)), (uwrap_id 64 pool) by (unfold in_u; lia).
  assert (user_decay u * pool < 2 ^ 32 * 2 ^ 62) by nia.
  rewrite uwrap_id by (unfold in_u; change (2 ^ 128) with (2 ^ 32 * 2 ^ 96); lia).
  rewrite Z.shiftr_div_pow2 by lia.
  assert (0 <= user_decay u * pool / 2 ^ 36 <= pool) as Hq.
  { split; [apply Z.div_pos; nia|]. apply Z.div_le_upper_bound; nia. }
  rewrite uint128_to_uint64_fits by (unfold in_u; lia). cbn [mbind result_bind].
  rewrite (proj2 (Z.ltb_ge pool _)) by lia. by rewrite swrap_id by (unfold in_s; lia).
Qed.

Lemma decay_at_equilibrium u : rd_ok u -> user_decay u * equilibrium u / 2 ^ 36 = user_budget u.
Proof.
  intros H. destruct (equilibrium_bounds u H) as [H1 H2]. destruct H as [Hb Hd].
  symmetry. apply (Z.div_unique _ _ _ (user_decay u * equilibrium u - user_budget u * 2 ^ 36)); lia.
Qed.

Lemma decay_below_equilibrium u pool : rd_ok u -> 0 <= pool < equilibrium u ->
  user_decay u * pool / 2 ^ 36 < user_budget u.
Proof.
  intros H Hp. destruct (equilibrium_bounds u H) as [H1 _]. destruct H as [Hb Hd].
  apply Z.div_lt_upper_bound; [lia|].
  assert (user_decay u * pool <= user_decay u * (equilibrium u - 1)) by nia. lia.
Qed.

Lemma rd_setup_value u sys : rd_ok u -> system_denom_shift sys = HIVE_RD_DECAY_DENOM_SHIFT ->
  rd_setup_dynamics_params u sys =
    Ok (mk_rd (system_resource_unit sys) (user_budget u) (equilibrium u) (equilibrium u)
              (mk_decay (user_decay u) 36) 0).
Proof.
  intros H Hs. pose proof H as [Hb Hd]. destruct (equilibrium_bounds u H) as [H1 H2].
  unfold rd_setup_dynamics_params. rewrite Hs. change HIVE_RD_DECAY_DENOM_SHIFT with 36.
  cbn [Z.eqb check mbind result_bind]. change (36 =? 36) with true. cbn [check mbind result_bind].
  rewrite (uwrap_id 128 (user_budget u)) by (unfold in_u; lia).
  rewrite Z.shiftl_mul_pow2 by lia.
  rewrite (uwrap_id 128 (user_budget u * 2 ^ 36)) by (unfold in_u; lia).
  rewrite (uwrap_id 32) by (unfold in_u; lia).
  rewrite (uwrap_id 128) by (unfold in_u; lia).
  rewrite (proj2 (Z.eqb_neq (user_decay u) 0)) by lia. cbn [mbind result_bind].
  change ((user_budget u * 2 ^ 36 + (user_decay u - 1)) / user_decay u) with (equilibrium u).
  rewrite uint128_to_uint64_fits by (unfold in_u; lia). cbn [mbind result_bind].
  change (u8 36) with 36. rewrite (uwrap_id 64 (equilibrium u - 1)) by (unfold in_u; lia).
  rewrite !swrap_id by (unfold in_s; lia).
  rewrite !pool_decay_value by (done || lia). cbn [mbind result_bind].
  rewrite decay_at_equilibrium by done. rewrite Z.leb_refl. cbn [check mbind result_bind].
  rewrite (proj2 (Z.leb_gt _ _)) by (apply decay_below_equilibrium; [done|lia]). done.
Qed.

(** The two assertions the setup ends with never trigger: for every
    parameter set that passes validation the computed pool size is the smallest
    at which a step decays at least the budget. *)
Theorem rd_setup_asserts_hold u sys :
  rd_validate_user_params u = Ok tt -> system_denom_shift sys = HIVE_RD_DECAY_DENOM_SHIFT ->
  exists rd, rd_setup_dynamics_params u sys = Ok rd /\
    rd_compute_pool_decay (decay_params rd) (pool_eq rd) 1 = Ok (user_budget u) /\
    forall pool, 0 <= pool < pool_eq rd ->
      exists decay, rd_compute_pool_decay (decay_params rd) pool 1 = Ok decay /\ decay < user_budget u.
Proof.
  intros Hv Hs. apply rd_validate_ok, user_rd_ok in Hv. destruct (equilibrium_bounds u Hv) as [H1 H2].
  eexists. split; [by apply rd_setup_value|]. cbn [decay_params pool_eq]. split.
  - rewrite pool_decay_value by (done || lia). f_equal. by apply decay_at_equilibrium.
  - intros pool Hp. eexists. split; [apply pool_decay_value; [done|lia]|]. by apply decay_below_equilibrium.
Qed.

Lemma rd_apply_value u r pool : rd_ok u -> 0 <= pool < 2 ^ 61 ->
  rd_apply (mk_rd r (user_budget u) (equilibrium u) (equilibrium u) (mk_decay (user_decay u) 36) 0) pool =
  Ok (Z.max (Z.min (pool + user_budget u - user_decay u * pool / 2 ^ 36) (equilibrium u)) 0).
Proof.
  intros H Hp. destruct (equilibrium_bounds u H) as [_ H2].
  unfold rd_apply. cbn [decay_params budget_per_time_unit max_pool_size min_decay].
  rewrite pool_decay_value by (done || lia). cbn [mbind result_bind]. destruct H as [Hb Hd].
  assert (0 <= user_decay u * pool / 2 ^ 36 <= pool) as Hq.
  { split; [apply Z.div_pos; nia|]. apply Z.div_le_upper_bound; nia. }
  rewrite (Z.max_l (user_decay u * pool / 2 ^ 36) 0) by lia.
  rewrite (swrap_id 64 (pool + user_budget u)) by (unfold in_s; lia).
  rewrite (swrap_id 64 (_ - _)) by (unfold in_s; lia).
  by rewrite (swrap_id 64 (equilibrium u)) by (unfold in_s; lia).
Qed.

Fixpoint rd_iterate `{FcLib} (n : nat) (rd : rd_dynamics_params) (pool : Z) : result Z :=
  match n with O => Ok pool | S n => p ← rd_apply rd pool; rd_iterate n rd p end.

(** An unused pool fills up and stays full: from any level up to its
    maximum each step moves it strictly closer to the equilibrium, which is a
    fixed point, and after at most as many steps as the missing amount it has
    reached it. *)
Theorem rd_pool_converges u sys pool (n : nat) :
  rd_validate_user_params u = Ok tt -> system_denom_shift sys = HIVE_RD_DECAY_DENOM_SHIFT ->
  exists rd, rd_setup_dynamics_params u sys = Ok rd /\
    (0 <= pool <= pool_eq rd -> pool_eq rd - pool <= Z.of_nat n -> rd_iterate n rd pool = Ok (pool_eq rd)).
Proof.
  intros Hv Hs. apply rd_validate_ok, user_rd_ok in Hv. destruct (equilibrium_bounds u Hv) as [_ H2].
  eexists. split; [by apply rd_setup_value|]. cbn [pool_eq].
  revert pool. induction n as [|n IH]; intros pool Hp Hn; cbn [rd_iterate]; [f_equal; lia|].
  rewrite rd_apply_value by (done || lia). cbn [mbind result_bind].
  destruct (decide (pool = equilibrium u)) as [->|Hne].
  - rewrite decay_at_equilibrium by done. apply IH; lia.
  - pose proof (decay_below_equilibrium u pool Hv ltac:(lia)). pose proof (rd_budget _ Hv). apply IH; lia.
Qed.
End equilibrium.

(** ** Concrete parameters *)

Module Sample.
#[local] Existing Instance fc_ref.
#[local] Existing Instance fc_ref_laws.

Definition params : manabar_params := mk_mparams 1000000 432000.
Definition bar : manabar := mk_manabar 250000 1000.

Lemma bar_ok now : 1000 <= now < 2 ^ 32 -> mana_ok params bar now.
Proof. intros. constructor; cbn; unfold in_s; lia. Qed.

Lemma regenerate_mana_exact_witness : regenerate_mana false params 44200 bar = Ok (mk_manabar 350000 44200).
Proof. refine (regenerate_mana_exact params bar 44200 (bar_ok _ _)). lia. Defined.

Lemma regenerate_split_no_gain_witness :
  exists m1 m2 m12,
    regenerate_mana false params 2001 bar = Ok m1 /\ regenerate_mana false params 3003 m1 = Ok m2 /\
    regenerate_mana false params 3003 bar = Ok m12 /\
    current_mana m2 <= current_mana m12 /\ last_update_time m2 = last_update_time m12.
Proof. refine (regenerate_split_no_gain params bar 2001 3003 (bar_ok _ _) _ _); cbn; lia. Defined.

Lemma use_mana_exact_witness : current_mana (use_mana 100000 0 bar) = 150000.
Proof.
  refine (proj1 (proj1 (use_mana_exact bar 100000 _ _) _ _)); [apply in_sb_spec; reflexivity|lia|reflexivity|cbn; lia].
Defined.

(** An account that holds ten billion VESTS and receives another four billion should
    gain a quarter of them as downvote mana; the product of the new mana and the
    percentage exceeds 64 bits, so that it loses 844674407370955 instead. *)
Example gained_shares_cut_downvote_mana :
  let full := mk_manabar (10 ^ 16) 1000 in let down := mk_manabar (25 * 10 ^ 14) 1000 in
  update_manabar (10 ^ 16) 1000 2500 (4 * 10 ^ 15) full down =
    Ok (mk_manabar (14 * 10 ^ 15) 1000, mk_manabar (25 * 10 ^ 14 - 844674407370955) 1000).
Proof. vm_compute. reflexivity. Qed.

Definition user : rd_user_params := mk_user 39321 347321.
Definition system : rd_system_params := mk_system 1 36.

Lemma rd_setup_asserts_hold_witness :
  exists rd, rd_setup_dynamics_params user system = Ok rd /\
    rd_compute_pool_decay (decay_params rd) (pool_eq rd) 1 = Ok 39321 /\
    forall pool, 0 <= pool < pool_eq rd ->
      exists decay, rd_compute_pool_decay (decay_params rd) pool 1 = Ok decay /\ decay < 39321.
Proof. exact (rd_setup_asserts_hold user system eq_refl eq_refl). Defined.

Lemma rd_pool_converges_witness :
  exists rd, rd_setup_dynamics_params user system = Ok rd /\
    (0 <= 7779887000 <= pool_eq rd -> pool_eq rd - 7779887000 <= Z.of_nat 2000 ->
     rd_iterate 2000 rd 7779887000 = Ok (pool_eq rd)).
Proof. exact (rd_pool_converges user system 7779887000 2000 eq_refl eq_refl). Defined.
End Sample.
