(* ===== verification/Validation.v ===== *)
(** * Validation helpers

    Models libraries/protocol/validation.hpp and the two helpers at the top of
    hive_operations.cpp: the checks of single fields (asset, string, number,
    account name, permlink, JSON text, authority size) from which the
    [validate] methods of the operations are composed. *)

From stdpp Require Import base numbers strings option list gmap.
From S2P Require Import Prelude Fc Config AssetSymbol Asset Authority.
Open Scope Z_scope.

(** [std::string::size] *)
Definition size_of (s : string) : Z := Z.of_nat (String.length s).

Definition is_asset_type (a : asset) (s : asset_symbol_type) : bool := sym_eqb (symbol a) s.

Definition validate_asset_type (a : asset) (s : asset_symbol_type) : result unit :=
  check (is_asset_type a s) AssertAsset.

Definition validate_asset_type_one_of (a : asset) (symbols : list asset_symbol_type) : result unit :=
  check (existsb (sym_eqb (symbol a)) symbols) AssertAsset.

Definition validate_asset_not_negative (a : asset) : result unit :=
  check (0 <=? amount a) AssertAsset.

Definition validate_asset_is_not_vesting `{L : FcLib} (a : asset) : result unit :=
  v ← is_vesting (symbol a);
  check (negb v) AssertAsset.

Definition validate_string_max_size (str : string) (max_size : Z) : result unit :=
  check (size_of str <=? max_size) AssertString.

Definition validate_is_utf8 `{L : FcLib} (str : string) : result unit :=
  check (is_utf8 str) AssertString.

Definition validate_string_is_not_empty (str : string) : result unit :=
  check (0 <? size_of str) AssertString.

Definition validate_number_in_100_percent_range (number : Z) : result unit :=
  check (number <=? HIVE_100_PERCENT) AssertNumber.

Definition validity_eqb (a b : account_name_validity) : bool :=
  match a, b with
  | valid, valid | too_short, too_short | too_long, too_long | invalid_sequence, invalid_sequence => true
  | _, _ => false
  end.

Definition validate_account_name (name : string) : result unit :=
  let validity_check_result := check_account_name name in
  check (negb (validity_eqb validity_check_result too_short)) AssertAccountName ≫= fun _ =>
  check (negb (validity_eqb validity_check_result too_long)) AssertAccountName ≫= fun _ =>
  check (negb (validity_eqb validity_check_result invalid_sequence)) AssertAccountName.

Definition validate_permlink `{L : FcLib} (permlink : string) : result unit :=
  check (size_of permlink <? HIVE_MAX_PERMLINK_LENGTH) AssertString ≫= fun _ =>
  check (is_utf8 permlink) AssertString.

(** The old parser is asked only when the fast one refuses the text. *)
Definition validate_json_with_fallback `{L : FcLib} (json : string) : result unit :=
  if json_fast_is_valid json then Ok tt
  else validate_is_utf8 json ≫= fun _ =>
       check (json_is_valid_relaxed json) AssertString.

Definition validate_json_if_present `{L : FcLib} (json : string) : result unit :=
  if bool_decide (json = "") then Ok tt else validate_json_with_fallback json.

Definition validate_auth_size (a : authority) : result unit :=
  let size := Z.of_nat (length (account_auths a)) + Z.of_nat (length (key_auths a)) in
  check (size <=? HIVE_MAX_AUTHORITY_MEMBERSHIP) AssertAuthority.

(** The fee bound three operations share: [fee <= asset( MAX, HIVE_SYMBOL )]. *)
Definition fee_not_too_large (fee : asset) : result unit :=
  b ← asset_leb fee (mk_asset HIVE_MAX_ACCOUNT_CREATION_FEE HIVE_SYMBOL);
  check b AssertAsset.

(** ** When the checks pass *)

Lemma validate_account_name_Ok n u :
  validate_account_name n = Ok u <-> is_valid_account_name n = true.
Proof.
  unfold validate_account_name, is_valid_account_name. destruct u.
  destruct (check_account_name n); simpl; naive_solver.
Qed.

Lemma is_asset_type_spec a s : is_asset_type a s = true <-> symbol a = s.
Proof.
  unfold is_asset_type, sym_eqb. rewrite Z.eqb_eq. destruct (symbol a), s; simpl. naive_solver.
Qed.

Lemma validate_asset_type_Ok a s u : validate_asset_type a s = Ok u <-> symbol a = s.
Proof. unfold validate_asset_type. by rewrite check_Ok, is_asset_type_spec. Qed.

Lemma validate_asset_not_negative_Ok a u : validate_asset_not_negative a = Ok u <-> 0 <= amount a.
Proof. unfold validate_asset_not_negative. by rewrite check_Ok, Z.leb_le. Qed.

Lemma validate_asset_greater_than_zero_Ok a u : validate_asset_greater_than_zero a = Ok u <-> 0 < amount a.
Proof. unfold validate_asset_greater_than_zero. by rewrite check_Ok, Z.ltb_lt. Qed.

Lemma validate_string_max_size_Ok s n u : validate_string_max_size s n = Ok u <-> size_of s <= n.
Proof. unfold validate_string_max_size. by rewrite check_Ok, Z.leb_le. Qed.

Lemma validate_number_Ok n u : validate_number_in_100_percent_range n = Ok u <-> n <= HIVE_100_PERCENT.
Proof. unfold validate_number_in_100_percent_range. by rewrite check_Ok, Z.leb_le. Qed.

(** Sequencing two checks. *)
Lemma seq_Ok (m n : result unit) u : (m ≫= fun _ => n) = Ok u <-> m = Ok tt /\ n = Ok u.
Proof. destruct m as [[]|]; simpl; naive_solver. Qed.

Create HintDb validation.
#[export] Hint Rewrite seq_Ok validate_account_name_Ok validate_asset_type_Ok validate_asset_not_negative_Ok
  validate_asset_greater_than_zero_Ok validate_string_max_size_Ok validate_number_Ok check_Ok : validation.

(** Turns a successful [validate] into the conjunction of its checks. *)
Ltac validated := repeat (autorewrite with validation in * ); destruct_and?.
