(* ===== verification/Operations.v ===== *)
(** * Operations

    Models libraries/protocol/hive_operations.hpp and .cpp and
    dhf_operations.hpp and .cpp: one Module per operation struct, holding its
    fields (the record [t]), its [validate] method and the
    [get_required_*_authorities] methods it overrides.  Account names, JSON
    texts and memos are strings, a [flat_set] of account names is a [gset],
    times are seconds. *)

From stdpp Require Import base numbers strings option list sorting gmap.
From S2P Require Import Prelude Fc Config AssetSymbol Asset Authority Validation.
Open Scope Z_scope.

(** [flat_set< static_variant< void_t > >] *)
Definition extensions_type : Set := list unit.

Definition time_point_sec : Set := Z.

(** ** Accounts *)

Module account_create_operation.
Record t : Set := mk {
  fee : asset;
  creator : string;
  new_account_name : string;
  owner : authority;
  active : authority;
  posting : authority;
  memo_key : Z;
  json_metadata : string
}.
Definition validate `{L : FcLib} (o : t) : result unit :=
  _ ← validate_account_name (new_account_name o);
  _ ← validate_asset_type (fee o) HIVE_SYMBOL;
  _ ← authority_validate (owner o);
  _ ← authority_validate (active o);
  _ ← authority_validate (posting o);
  _ ← validate_auth_size (owner o);
  _ ← validate_auth_size (active o);
  _ ← validate_auth_size (posting o);
  _ ← validate_json_if_present (json_metadata o);
  _ ← validate_asset_not_negative (fee o);
  fee_not_too_large (fee o).
Definition get_required_active_authorities (o : t) : gset string := {[ creator o ]}.
End account_create_operation.

Module account_create_with_delegation_operation.
Record t : Set := mk {
  fee : asset;
  delegation : asset;
  creator : string;
  new_account_name : string;
  owner : authority;
  active : authority;
  posting : authority;
  memo_key : Z;
  json_metadata : string;
  extensions : extensions_type
}.
Definition validate `{L : FcLib} (o : t) : result unit :=
  _ ← validate_account_name (new_account_name o);
  _ ← validate_account_name (creator o);
  _ ← validate_asset_type (fee o) HIVE_SYMBOL;
  _ ← validate_asset_type (delegation o) VESTS_SYMBOL;
  _ ← authority_validate (owner o);
  _ ← authority_validate (active o);
  _ ← authority_validate (posting o);
  _ ← validate_auth_size (owner o);
  _ ← validate_auth_size (active o);
  _ ← validate_auth_size (posting o);
  _ ← validate_json_if_present (json_metadata o);
  _ ← validate_asset_not_negative (fee o);
  _ ← fee_not_too_large (fee o);
  validate_asset_not_negative (delegation o).
Definition get_required_active_authorities (o : t) : gset string := {[ creator o ]}.
End account_create_with_delegation_operation.

Module account_update_operation.
Record t : Set := mk {
  account : string;
  owner : option authority;
  active : option authority;
  posting : option authority;
  memo_key : Z;
  json_metadata : string
}.
Definition validate `{L : FcLib} (o : t) : result unit :=
  _ ← validate_account_name (account o);
  validate_json_if_present (json_metadata o).
Definition get_required_owner_authorities (o : t) : gset string :=
  if owner o then {[ account o ]} else ∅.
Definition get_required_active_authorities (o : t) : gset string :=
  if owner o then ∅ else {[ account o ]}.
End account_update_operation.

Module account_update2_operation.
Record t : Set := mk {
  account : string;
  owner : option authority;
  active : option authority;
  posting : option authority;
  memo_key : option Z;
  json_metadata : string;
  posting_json_metadata : string;
  extensions : extensions_type
}.
Definition validate_auth_if_present (a : option authority) : result unit :=
  match a with Some a => validate_auth_size a | None => Ok tt end.
Definition validate `{L : FcLib} (o : t) : result unit :=
  _ ← validate_account_name (account o);
  _ ← validate_auth_if_present (owner o);
  _ ← validate_auth_if_present (active o);
  _ ← validate_auth_if_present (posting o);
  _ ← validate_json_if_present (json_metadata o);
  validate_json_if_present (posting_json_metadata o).
Definition has {A} (x : option A) : bool := match x with Some _ => true | None => false end.
Definition get_required_owner_authorities (o : t) : gset string :=
  if has (owner o) then {[ account o ]} else ∅.
Definition get_required_active_authorities (o : t) : gset string :=
  if negb (has (owner o)) && (has (active o) || has (posting o) || has (memo_key o) || (0 <? size_of (json_metadata o)))
  then {[ account o ]} else ∅.
Definition get_required_posting_authorities (o : t) : gset string :=
  if negb (has (owner o) || has (active o) || has (posting o) || has (memo_key o) || (0 <? size_of (json_metadata o)))
  then {[ account o ]} else ∅.
End account_update2_operation.

Module claim_account_operation.
Record t : Set := mk { creator : string; fee : asset; extensions : extensions_type }.
Definition validate (o : t) : result unit :=
  _ ← validate_account_name (creator o);
  _ ← validate_asset_type (fee o) HIVE_SYMBOL;
  _ ← validate_asset_not_negative (fee o);
  _ ← fee_not_too_large (fee o);
  check (length (extensions o) =? 0)%nat AssertNumber.
Definition get_required_active_authorities (o : t) : gset string := {[ creator o ]}.
End claim_account_operation.

Module create_claimed_account_operation.
Record t : Set := mk {
  creator : string;
  new_account_name : string;
  owner : authority;
  active : authority;
  posting : authority;
  memo_key : Z;
  json_metadata : string;
  extensions : extensions_type
}.
Definition validate `{L : FcLib} (o : t) : result unit :=
  _ ← validate_account_name (creator o);
  _ ← validate_account_name (new_account_name o);
  _ ← authority_validate (owner o);
  _ ← authority_validate (active o);
  _ ← authority_validate (posting o);
  _ ← validate_auth_size (owner o);
  _ ← validate_auth_size (active o);
  _ ← validate_auth_size (posting o);
  _ ← validate_json_if_present (json_metadata o);
  check (length (extensions o) =? 0)%nat AssertNumber.
Definition get_required_active_authorities (o : t) : gset string := {[ creator o ]}.
End create_claimed_account_operation.

Module request_account_recovery_operation.
Record t : Set := mk {
  recovery_account : string;
  account_to_recover : string;
  new_owner_authority : authority;
  extensions : extensions_type
}.
Definition validate (o : t) : result unit :=
  _ ← validate_account_name (recovery_account o);
  _ ← validate_account_name (account_to_recover o);
  authority_validate (new_owner_authority o).
Definition get_required_active_authorities (o : t) : gset string := {[ recovery_account o ]}.
End request_account_recovery_operation.

Module recover_account_operation.
Record t : Set := mk {
  account_to_recover : string;
  new_owner_authority : authority;
  recent_owner_authority : authority;
  extensions : extensions_type
}.
Definition validate (o : t) : result unit :=
  _ ← validate_account_name (account_to_recover o);
  _ ← check (negb (bool_decide (new_owner_authority o = recent_owner_authority o))) AssertAuthority;
  _ ← check (negb (is_impossible (new_owner_authority o))) AssertAuthority;
  _ ← check (negb (is_impossible (recent_owner_authority o))) AssertAuthority;
  _ ← check (negb (weight_threshold (new_owner_authority o) =? 0)) AssertAuthority;
  _ ← authority_validate (new_owner_authority o);
  authority_validate (recent_owner_authority o).
Definition get_required_authorities (o : t) : list authority :=
  [ new_owner_authority o; recent_owner_authority o ].
End recover_account_operation.

Module change_recovery_account_operation.
Record t : Set := mk {
  account_to_recover : string;
  new_recovery_account : string;
  extensions : extensions_type
}.
Definition validate (o : t) : result unit :=
  _ ← validate_account_name (account_to_recover o);
  validate_account_name (new_recovery_account o).
Definition get_required_owner_authorities (o : t) : gset string := {[ account_to_recover o ]}.
End change_recovery_account_operation.

Module reset_account_operation.
Record t : Set := mk {
  reset_account : string;
  account_to_reset : string;
  new_owner_authority : authority
}.
Definition validate (o : t) : result unit := check false AssertFc.
Definition get_required_active_authorities (o : t) : gset string := {[ reset_account o ]}.
End reset_account_operation.

Module set_reset_account_operation.
Record t : Set := mk {
  account : string;
  current_reset_account : string;
  reset_account : string
}.
Definition validate (o : t) : result unit := check false AssertFc.
Definition get_required_owner_authorities (o : t) : gset string :=
  if 0 <? size_of (current_reset_account o) then {[ account o ]} else ∅.
Definition get_required_posting_authorities (o : t) : gset string :=
  if 0 <? size_of (current_reset_account o) then ∅ else {[ account o ]}.
End set_reset_account_operation.

Module decline_voting_rights_operation.
Record t : Set := mk { account : string; decline : bool }.
Definition validate (o : t) : result unit := validate_account_name (account o).
Definition get_required_owner_authorities (o : t) : gset string := {[ account o ]}.
End decline_voting_rights_operation.

(** ** Content *)

Record beneficiary_route_type : Set := mk_route { account : string; weight : Z }.

Definition route_ltb (a b : beneficiary_route_type) : bool := String.ltb (account a) (account b).

Module comment_operation.
Record t : Set := mk {
  parent_author : string;
  parent_permlink : string;
  author : string;
  permlink : string;
  title : string;
  body : string;
  json_metadata : string
}.
Definition validate `{L : FcLib} (o : t) : result unit :=
  _ ← validate_string_max_size (title o) (HIVE_COMMENT_TITLE_LIMIT - 1);
  _ ← validate_is_utf8 (title o);
  _ ← validate_string_is_not_empty (body o);
  _ ← validate_is_utf8 (body o);
  _ ← (if 0 <? size_of (parent_author o) then validate_account_name (parent_author o) else Ok tt);
  _ ← validate_account_name (author o);
  _ ← validate_permlink (parent_permlink o);
  _ ← validate_permlink (permlink o);
  validate_json_if_present (json_metadata o).
Definition get_required_posting_authorities (o : t) : gset string := {[ author o ]}.
End comment_operation.

Module comment_payout_beneficiaries.
Record t : Set := mk { beneficiaries : list beneficiary_route_type }.
(** The loop from index 1; [prev] is [beneficiaries\[i - 1\]]. *)
Fixpoint validate_tail (prev : beneficiary_route_type) (sum : Z) (l : list beneficiary_route_type) : result unit :=
  match l with
  | [] => Ok tt
  | b :: l =>
      _ ← validate_account_name (account b);
      _ ← validate_number_in_100_percent_range (weight b);
      let sum := u32 (sum + weight b) in
      _ ← validate_number_in_100_percent_range sum;
      _ ← check (route_ltb prev b) AssertAccountName;
      validate_tail b sum l
  end.
Definition validate (o : t) : result unit :=
  let n := Z.of_nat (length (beneficiaries o)) in
  _ ← check (negb (n =? 0)) AssertNumber;
  _ ← check (n <? HIVE_BENEFICIARY_LIMIT) AssertNumber;
  match beneficiaries o with
  | [] => Ok tt
  | b :: l =>
      _ ← validate_account_name (account b);
      _ ← validate_number_in_100_percent_range (weight b);
      let sum := u32 (0 + weight b) in
      _ ← validate_number_in_100_percent_range sum;
      validate_tail b sum l
  end.
End comment_payout_beneficiaries.

Module comment_options_operation.
Record t : Set := mk {
  author : string;
  permlink : string;
  max_accepted_payout : asset;
  percent_hbd : Z;
  allow_votes : bool;
  allow_curation_rewards : bool;
  extensions : list comment_payout_beneficiaries.t
}.
Definition validate `{L : FcLib} (o : t) : result unit :=
  _ ← validate_account_name (author o);
  _ ← validate_number_in_100_percent_range (percent_hbd o);
  _ ← validate_asset_type (max_accepted_payout o) HBD_SYMBOL;
  _ ← validate_asset_not_negative (max_accepted_payout o);
  _ ← validate_permlink (permlink o);
  iterM comment_payout_beneficiaries.validate (extensions o).
Definition get_required_posting_authorities (o : t) : gset string := {[ author o ]}.
End comment_options_operation.

Module delete_comment_operation.
Record t : Set := mk { author : string; permlink : string }.
Definition validate `{L : FcLib} (o : t) : result unit :=
  _ ← validate_permlink (permlink o);
  validate_account_name (author o).
Definition get_required_posting_authorities (o : t) : gset string := {[ author o ]}.
End delete_comment_operation.

Module vote_operation.
Record t : Set := mk { voter : string; author : string; permlink : string; weight : Z }.
Definition validate `{L : FcLib} (o : t) : result unit :=
  _ ← validate_account_name (voter o);
  _ ← validate_account_name (author o);
  _ ← validate_number_in_100_percent_range (Z.abs (weight o));
  validate_permlink (permlink o).
Definition get_required_posting_authorities (o : t) : gset string := {[ voter o ]}.
End vote_operation.

(** ** Transfers, savings and vesting *)

Module transfer_operation.
Record t : Set := mk { from : string; to : string; amount : asset; memo : string }.
Definition validate `{L : FcLib} (o : t) : result unit :=
  _ ← validate_account_name (from o);
  _ ← validate_account_name (to o);
  vesting ← is_vesting (symbol (amount o));
  _ ← check (negb vesting || bool_decide (from o = PIXA_ICO_ACCOUNT) || bool_decide (from o = PIXA_TEAM_ACCOUNT)) AssertFc;
  _ ← validate_asset_greater_than_zero (amount o);
  _ ← validate_string_max_size (memo o) (HIVE_MAX_MEMO_SIZE - 1);
  validate_is_utf8 (memo o).
Definition get_required_active_authorities (o : t) : gset string := {[ from o ]}.
End transfer_operation.

Module transfer_to_vesting_operation.
Record t : Set := mk { from : string; to : string; amount : asset }.
Definition validate (o : t) : result unit :=
  _ ← validate_account_name (from o);
  _ ← validate_asset_type (amount o) HIVE_SYMBOL;
  _ ← (if bool_decide (to o = "") then Ok tt else validate_account_name (to o));
  validate_asset_greater_than_zero (amount o).
Definition get_required_active_authorities (o : t) : gset string := {[ from o ]}.
End transfer_to_vesting_operation.

Module withdraw_vesting_operation.
Record t : Set := mk { account : string; vesting_shares : asset }.
Definition validate (o : t) : result unit :=
  _ ← validate_account_name (account o);
  validate_asset_type (vesting_shares o) VESTS_SYMBOL.
Definition get_required_active_authorities (o : t) : gset string := {[ account o ]}.
End withdraw_vesting_operation.

Module set_withdraw_vesting_route_operation.
Record t : Set := mk { from_account : string; to_account : string; percent : Z; auto_vest : bool }.
Definition validate (o : t) : result unit :=
  _ ← validate_account_name (from_account o);
  _ ← validate_account_name (to_account o);
  check ((0 <=? percent o) && (percent o <=? HIVE_100_PERCENT)) AssertNumber.
Definition get_required_active_authorities (o : t) : gset string := {[ from_account o ]}.
End set_withdraw_vesting_route_operation.

Module delegate_vesting_shares_operation.
Record t : Set := mk { delegator : string; delegatee : string; vesting_shares : asset }.
Definition validate (o : t) : result unit :=
  _ ← validate_account_name (delegator o);
  _ ← validate_account_name (delegatee o);
  _ ← check (negb (bool_decide (delegator o = delegatee o))) AssertAccountName;
  _ ← validate_asset_type (vesting_shares o) VESTS_SYMBOL;
  validate_asset_not_negative (vesting_shares o).
Definition get_required_active_authorities (o : t) : gset string := {[ delegator o ]}.
End delegate_vesting_shares_operation.

Module claim_reward_balance_operation.
Record t : Set := mk { account : string; reward_hive : asset; reward_hbd : asset; reward_vests : asset }.
Definition validate (o : t) : result unit :=
  _ ← validate_account_name (account o);
  _ ← validate_asset_type (reward_hive o) HIVE_SYMBOL;
  _ ← validate_asset_type (reward_hbd o) HBD_SYMBOL;
  _ ← validate_asset_type (reward_vests o) VESTS_SYMBOL;
  _ ← validate_asset_not_negative (reward_hbd o);
  _ ← validate_asset_not_negative (reward_hive o);
  _ ← validate_asset_not_negative (reward_vests o);
  check ((0 <? amount (reward_hive o)) || (0 <? amount (reward_hbd o)) || (0 <? amount (reward_vests o))) AssertAsset.
Definition get_required_posting_authorities (o : t) : gset string := {[ account o ]}.
End claim_reward_balance_operation.

Module transfer_to_savings_operation.
Record t : Set := mk { from : string; to : string; amount : asset; memo : string }.
Definition validate `{L : FcLib} (o : t) : result unit :=
  _ ← validate_account_name (from o);
  _ ← validate_account_name (to o);
  _ ← validate_asset_greater_than_zero (amount o);
  _ ← validate_asset_type_one_of (amount o) [HIVE_SYMBOL; HBD_SYMBOL];
  _ ← validate_string_max_size (memo o) (HIVE_MAX_MEMO_SIZE - 1);
  validate_is_utf8 (memo o).
Definition get_required_active_authorities (o : t) : gset string := {[ from o ]}.
End transfer_to_savings_operation.

Module transfer_from_savings_operation.
Record t : Set := mk { from : string; request_id : Z; to : string; amount : asset; memo : string }.
Definition validate `{L : FcLib} (o : t) : result unit :=
  _ ← validate_account_name (from o);
  _ ← validate_account_name (to o);
  _ ← validate_asset_greater_than_zero (amount o);
  _ ← validate_asset_type_one_of (amount o) [HIVE_SYMBOL; HBD_SYMBOL];
  _ ← validate_string_max_size (memo o) (HIVE_MAX_MEMO_SIZE - 1);
  validate_is_utf8 (memo o).
Definition get_required_active_authorities (o : t) : gset string := {[ from o ]}.
End transfer_from_savings_operation.

Module cancel_transfer_from_savings_operation.
Record t : Set := mk { from : string; request_id : Z }.
Definition validate (o : t) : result unit := validate_account_name (from o).
Definition get_required_active_authorities (o : t) : gset string := {[ from o ]}.
End cancel_transfer_from_savings_operation.

Module recurrent_transfer_operation.
(** [static_variant< void_t, recurrent_transfer_pair_id >] *)
Inductive extension : Set := void_t | recurrent_transfer_pair_id (pair_id : Z).
Record t : Set := mk {
  from : string;
  to : string;
  amount : asset;
  memo : string;
  recurrence : Z;
  executions : Z;
  extensions : list extension
}.
Definition validate `{L : FcLib} (o : t) : result unit :=
  _ ← validate_account_name (from o);
  _ ← validate_account_name (to o);
  _ ← validate_asset_is_not_vesting (amount o);
  _ ← validate_asset_not_negative (amount o);
  _ ← check (HIVE_MIN_RECURRENT_TRANSFERS_RECURRENCE <=? recurrence o) AssertNumber;
  _ ← validate_string_max_size (memo o) (HIVE_MAX_MEMO_SIZE - 1);
  _ ← validate_is_utf8 (memo o);
  _ ← check (negb (bool_decide (from o = to o))) AssertAccountName;
  check (1 <=? executions o) AssertNumber.
Definition get_required_active_authorities (o : t) : gset string := {[ from o ]}.
(** The visitor's fields [(pair_id, was_pair_id)] after the extensions. *)
Definition get_pair_id (o : t) : Z * bool :=
  foldl (fun vtor e => match e with recurrent_transfer_pair_id p => (p, true) | void_t => vtor end)
        (0, false) (extensions o).
End recurrent_transfer_operation.

(** ** Escrow *)

Module escrow_transfer_operation.
Record t : Set := mk {
  from : string;
  to : string;
  agent : string;
  escrow_id : Z;
  hbd_amount : asset;
  hive_amount : asset;
  fee : asset;
  ratification_deadline : time_point_sec;
  escrow_expiration : time_point_sec;
  json_meta : string
}.
Definition validate `{L : FcLib} (o : t) : result unit :=
  _ ← validate_account_name (from o);
  _ ← validate_account_name (to o);
  _ ← validate_account_name (agent o);
  _ ← validate_asset_not_negative (fee o);
  _ ← validate_asset_not_negative (hbd_amount o);
  _ ← validate_asset_not_negative (hive_amount o);
  _ ← check ((0 <? amount (hbd_amount o)) || (0 <? amount (hive_amount o))) AssertAsset;
  _ ← check (negb (bool_decide (from o = agent o)) && negb (bool_decide (to o = agent o))) AssertAccountName;
  _ ← validate_asset_type_one_of (fee o) [HIVE_SYMBOL; HBD_SYMBOL];
  _ ← validate_asset_type (hbd_amount o) HBD_SYMBOL;
  _ ← validate_asset_type (hive_amount o) HIVE_SYMBOL;
  _ ← check (ratification_deadline o <? escrow_expiration o) AssertNumber;
  validate_json_if_present (json_meta o).
Definition get_required_active_authorities (o : t) : gset string := {[ from o ]}.
End escrow_transfer_operation.

Module escrow_approve_operation.
Record t : Set := mk {
  from : string; to : string; agent : string; who : string; escrow_id : Z; approve : bool
}.
Definition validate (o : t) : result unit :=
  _ ← validate_account_name (from o);
  _ ← validate_account_name (to o);
  _ ← validate_account_name (agent o);
  _ ← validate_account_name (who o);
  check (bool_decide (who o = to o) || bool_decide (who o = agent o)) AssertAccountName.
Definition get_required_active_authorities (o : t) : gset string := {[ who o ]}.
End escrow_approve_operation.

Module escrow_dispute_operation.
Record t : Set := mk { from : string; to : string; agent : string; who : string; escrow_id : Z }.
Definition validate (o : t) : result unit :=
  _ ← validate_account_name (from o);
  _ ← validate_account_name (to o);
  _ ← validate_account_name (agent o);
  _ ← validate_account_name (who o);
  check (bool_decide (who o = from o) || bool_decide (who o = to o)) AssertAccountName.
Definition get_required_active_authorities (o : t) : gset string := {[ who o ]}.
End escrow_dispute_operation.

Module escrow_release_operation.
Record t : Set := mk {
  from : string;
  to : string;
  agent : string;
  who : string;
  receiver : string;
  escrow_id : Z;
  hbd_amount : asset;
  hive_amount : asset
}.
Definition validate (o : t) : result unit :=
  _ ← validate_account_name (from o);
  _ ← validate_account_name (to o);
  _ ← validate_account_name (agent o);
  _ ← validate_account_name (who o);
  _ ← validate_account_name (receiver o);
  _ ← check (bool_decide (who o = from o) || bool_decide (who o = to o) || bool_decide (who o = agent o)) AssertAccountName;
  _ ← check (bool_decide (receiver o = from o) || bool_decide (receiver o = to o)) AssertAccountName;
  _ ← validate_asset_not_negative (hbd_amount o);
  _ ← validate_asset_not_negative (hive_amount o);
  _ ← check ((0 <? amount (hbd_amount o)) || (0 <? amount (hive_amount o))) AssertAsset;
  _ ← validate_asset_type (hbd_amount o) HBD_SYMBOL;
  validate_asset_type (hive_amount o) HIVE_SYMBOL.
Definition get_required_active_authorities (o : t) : gset string := {[ who o ]}.
End escrow_release_operation.

(** ** Market and conversions *)

Definition space_eqb (a b : asset_symbol_space) : bool :=
  match a, b with legacy_space, legacy_space | smt_nai_space, smt_nai_space => true | _, _ => false end.

(** The market condition the two limit order operations share. *)
Definition hive_market (sell receive : asset) : bool :=
  (is_asset_type sell HIVE_SYMBOL && is_asset_type receive HBD_SYMBOL)
  || (is_asset_type sell HBD_SYMBOL && is_asset_type receive HIVE_SYMBOL)
  || (space_eqb (space (symbol sell)) smt_nai_space && is_asset_type receive HIVE_SYMBOL)
  || (is_asset_type sell HIVE_SYMBOL && space_eqb (space (symbol receive)) smt_nai_space).

Definition ordered_pair (a b : asset_symbol_type) : asset_symbol_type * asset_symbol_type :=
  if sym_ltb a b then (a, b) else (b, a).

Module limit_order_create_operation.
Record t : Set := mk {
  owner : string;
  orderid : Z;
  amount_to_sell : asset;
  min_to_receive : asset;
  fill_or_kill : bool;
  expiration : time_point_sec
}.
(** [price( a, b )] validates its arguments, and the result is validated again. *)
Definition validate (o : t) : result unit :=
  _ ← validate_account_name (owner o);
  _ ← check (hive_market (amount_to_sell o) (min_to_receive o)) AssertAsset;
  p ← make_price (amount_to_sell o) (min_to_receive o);
  price_validate p.
Definition get_required_active_authorities (o : t) : gset string := {[ owner o ]}.
Definition get_price (o : t) : result price := make_price (amount_to_sell o) (min_to_receive o).
Definition get_market (o : t) : asset_symbol_type * asset_symbol_type :=
  ordered_pair (symbol (amount_to_sell o)) (symbol (min_to_receive o)).
End limit_order_create_operation.

Module limit_order_create2_operation.
Record t : Set := mk {
  owner : string;
  orderid : Z;
  amount_to_sell : asset;
  fill_or_kill : bool;
  exchange_rate : price;
  expiration : time_point_sec
}.
Definition validate `{L : FcLib} (o : t) : result unit :=
  _ ← validate_account_name (owner o);
  _ ← validate_asset_type (amount_to_sell o) (symbol (base (exchange_rate o)));
  _ ← price_validate (exchange_rate o);
  _ ← check (hive_market (amount_to_sell o) (quote (exchange_rate o))) AssertAsset;
  amount_to_sell_in_quote ← asset_mul (amount_to_sell o) (exchange_rate o);
  validate_asset_greater_than_zero amount_to_sell_in_quote.
Definition get_required_active_authorities (o : t) : gset string := {[ owner o ]}.
Definition get_price (o : t) : price := exchange_rate o.
Definition get_market (o : t) : asset_symbol_type * asset_symbol_type :=
  ordered_pair (symbol (base (exchange_rate o))) (symbol (quote (exchange_rate o))).
End limit_order_create2_operation.

Module limit_order_cancel_operation.
Record t : Set := mk { owner : string; orderid : Z }.
Definition validate (o : t) : result unit := validate_account_name (owner o).
Definition get_required_active_authorities (o : t) : gset string := {[ owner o ]}.
End limit_order_cancel_operation.

Module feed_publish_operation.
Record t : Set := mk { publisher : string; exchange_rate : price }.
Definition validate (o : t) : result unit :=
  _ ← validate_account_name (publisher o);
  let b := base (exchange_rate o) in
  let q := quote (exchange_rate o) in
  _ ← check ((is_asset_type b HIVE_SYMBOL && is_asset_type q HBD_SYMBOL)
             || (is_asset_type b HBD_SYMBOL && is_asset_type q HIVE_SYMBOL)) AssertAsset;
  price_validate (exchange_rate o).
Definition get_required_active_authorities (o : t) : gset string := {[ publisher o ]}.
End feed_publish_operation.

Module convert_operation.
Record t : Set := mk { owner : string; requestid : Z; amount : asset }.
Definition validate (o : t) : result unit :=
  _ ← validate_account_name (owner o);
  _ ← validate_asset_type (amount o) HBD_SYMBOL;
  validate_asset_greater_than_zero (amount o).
Definition get_required_active_authorities (o : t) : gset string := {[ owner o ]}.
End convert_operation.

Module collateralized_convert_operation.
Record t : Set := mk { owner : string; requestid : Z; amount : asset }.
Definition validate (o : t) : result unit :=
  _ ← validate_account_name (owner o);
  _ ← validate_asset_type (amount o) HIVE_SYMBOL;
  validate_asset_greater_than_zero (amount o).
Definition get_required_active_authorities (o : t) : gset string := {[ owner o ]}.
End collateralized_convert_operation.

(** ** Witnesses *)

(** [legacy_hive_asset], with the serialised form its symbol was read from. *)
Record legacy_hive_asset : Set := mk_legacy { legacy_amount : Z; ser : Z }.
Definition is_canon (a : legacy_hive_asset) : bool := ser a =? OBSOLETE_SYMBOL_SER.

Module legacy_chain_properties.
Record t : Set := mk {
  account_creation_fee : legacy_hive_asset;
  maximum_block_size : Z;
  hbd_interest_rate : Z
}.
Definition validate (force_canon : bool) (p : t) : result unit :=
  _ ← (if force_canon then check (is_canon (account_creation_fee p)) AssertAsset else Ok tt);
  _ ← check (HIVE_MIN_ACCOUNT_CREATION_FEE <=? legacy_amount (account_creation_fee p)) AssertAsset;
  _ ← check (legacy_amount (account_creation_fee p) <=? HIVE_MAX_ACCOUNT_CREATION_FEE) AssertAsset;
  _ ← check (HIVE_MIN_BLOCK_SIZE_LIMIT <=? maximum_block_size p) AssertNumber;
  _ ← check (maximum_block_size p <=? HIVE_MAX_BLOCK_SIZE) AssertNumber;
  check (hbd_interest_rate p =? 0) AssertFc.
End legacy_chain_properties.

Module witness_update_operation.
Record t : Set := mk {
  owner : string;
  url : string;
  block_signing_key : Z;
  props : legacy_chain_properties.t;
  fee : asset
}.
Definition validate `{L : FcLib} (o : t) : result unit :=
  _ ← validate_account_name (owner o);
  _ ← validate_string_max_size (url o) HIVE_MAX_WITNESS_URL_LENGTH;
  _ ← validate_string_is_not_empty (url o);
  _ ← validate_is_utf8 (url o);
  _ ← validate_asset_not_negative (fee o);
  legacy_chain_properties.validate false (props o).
Definition get_required_active_authorities (o : t) : gset string := {[ owner o ]}.
End witness_update_operation.

(** [fc::raw::unpack_from_vector] at the types the properties have. *)
Class RawLib : Type := {
  unpack_asset : list Z -> result asset;
  unpack_u32 : list Z -> result Z;
  unpack_u16 : list Z -> result Z;
  unpack_i32 : list Z -> result Z;
  unpack_price : list Z -> result price;
  unpack_string : list Z -> result string;
  unpack_public_key : list Z -> result Z
}.

Module witness_set_properties_operation.
Record t : Set := mk { owner : string; props : gmap string (list Z); extensions : extensions_type }.
(** [itr = props.find( key ); if( itr != props.end() ) body( itr->second )] *)
Definition if_found (v : option (list Z)) (body : list Z -> result unit) : result unit :=
  match v with Some bytes => body bytes | None => Ok tt end.
Definition or_else (a b : option (list Z)) : option (list Z) :=
  match a with Some _ => a | None => b end.
Definition validate `{L : FcLib} `{R : RawLib} (o : t) : result unit :=
  _ ← validate_account_name (owner o);
  _ ← check (bool_decide (is_Some (props o !! "key"))) AssertString;
  _ ← if_found (props o !! "account_creation_fee") (fun bytes =>
        account_creation_fee ← unpack_asset bytes;
        _ ← validate_asset_type account_creation_fee HIVE_SYMBOL;
        _ ← check (HIVE_MIN_ACCOUNT_CREATION_FEE <=? amount account_creation_fee) AssertAsset;
        check (amount account_creation_fee <=? HIVE_MAX_ACCOUNT_CREATION_FEE) AssertAsset);
  _ ← if_found (props o !! "maximum_block_size") (fun bytes =>
        maximum_block_size ← unpack_u32 bytes;
        _ ← check (HIVE_MIN_BLOCK_SIZE_LIMIT <=? maximum_block_size) AssertNumber;
        check (maximum_block_size <=? HIVE_MAX_BLOCK_SIZE) AssertNumber);
  _ ← if_found (or_else (props o !! "sbd_interest_rate") (props o !! "hbd_interest_rate")) (fun bytes =>
        hbd_interest_rate ← unpack_u16 bytes;
        check (hbd_interest_rate =? 0) AssertFc);
  _ ← if_found (props o !! "new_signing_key") (fun bytes =>
        _ ← unpack_public_key bytes; Ok tt);
  _ ← if_found (or_else (props o !! "sbd_exchange_rate") (props o !! "hbd_exchange_rate")) (fun bytes =>
        hbd_exchange_rate ← unpack_price bytes;
        _ ← validate_asset_type (base hbd_exchange_rate) HBD_SYMBOL;
        _ ← validate_asset_type (quote hbd_exchange_rate) HIVE_SYMBOL;
        price_validate hbd_exchange_rate);
  _ ← if_found (props o !! "url") (fun bytes =>
        url ← unpack_string bytes;
        _ ← validate_string_max_size url HIVE_MAX_WITNESS_URL_LENGTH;
        _ ← validate_string_is_not_empty url;
        validate_is_utf8 url);
  _ ← if_found (props o !! "account_subsidy_budget") (fun bytes =>
        account_subsidy_budget ← unpack_i32 bytes;
        _ ← check (HIVE_RD_MIN_BUDGET <=? account_subsidy_budget) AssertNumber;
        check (account_subsidy_budget <=? HIVE_RD_MAX_BUDGET) AssertNumber);
  if_found (props o !! "account_subsidy_decay") (fun bytes =>
    account_subsidy_decay ← unpack_u32 bytes;
    _ ← check (HIVE_RD_MIN_DECAY <=? account_subsidy_decay) AssertNumber;
    check (account_subsidy_decay <=? HIVE_RD_MAX_DECAY) AssertNumber).
(** Signed by the key that is given, or by an authority nobody satisfies. *)
Definition get_required_authorities `{R : RawLib} (o : t) : result (list authority) :=
  match props o !! "key" with
  | Some bytes => signing_key ← unpack_public_key bytes; Ok [ mk_auth 1 [] [(signing_key, 1)] ]
  | None => Ok [ mk_auth 1 [(HIVE_NULL_ACCOUNT, 1)] [] ]
  end.
End witness_set_properties_operation.

Module account_witness_vote_operation.
Record t : Set := mk { account : string; witness : string; approve : bool }.
Definition validate (o : t) : result unit :=
  _ ← validate_account_name (account o);
  validate_account_name (witness o).
Definition get_required_active_authorities (o : t) : gset string := {[ account o ]}.
End account_witness_vote_operation.

Module account_witness_proxy_operation.
Record t : Set := mk { account : string; proxy : string }.
Definition is_clearing_proxy (o : t) : bool := bool_decide (proxy o = HIVE_PROXY_TO_SELF_ACCOUNT).
Definition validate (o : t) : result unit :=
  _ ← validate_account_name (account o);
  _ ← (if is_clearing_proxy o then Ok tt else validate_account_name (proxy o));
  check (negb (bool_decide (proxy o = account o))) AssertAccountName.
Definition get_required_active_authorities (o : t) : gset string := {[ account o ]}.
End account_witness_proxy_operation.

Module witness_block_approve_operation.
Record t : Set := mk { witness : string; block_id : Z }.
Definition validate (o : t) : result unit := validate_account_name (witness o).
Definition get_required_witness_signatures (o : t) : gset string := {[ witness o ]}.
End witness_block_approve_operation.

(** ** Custom operations *)

Definition set_size (s : gset string) : Z := Z.of_nat (size s).

Module custom_operation.
Record t : Set := mk { required_auths : gset string; id : Z; data : list Z }.
Definition validate (o : t) : result unit :=
  _ ← check (0 <? set_size (required_auths o)) AssertNumber;
  check (set_size (required_auths o) <=? HIVE_MAX_AUTHORITY_MEMBERSHIP) AssertNumber.
Definition get_required_active_authorities (o : t) : gset string := required_auths o.
End custom_operation.

Module custom_json_operation.
Record t : Set := mk {
  required_auths : gset string;
  required_posting_auths : gset string;
  id : string;
  json : string
}.
Definition validate `{L : FcLib} (o : t) : result unit :=
  let num_auths := set_size (required_auths o) + set_size (required_posting_auths o) in
  _ ← check (0 <? num_auths) AssertNumber;
  _ ← check (num_auths <=? HIVE_MAX_AUTHORITY_MEMBERSHIP) AssertNumber;
  _ ← check (size_of (id o) <=? HIVE_CUSTOM_OP_ID_MAX_LENGTH) AssertString;
  _ ← check (size_of (json o) <=? HIVE_CUSTOM_OP_DATA_MAX_LENGTH) AssertString;
  validate_json_with_fallback (json o).
Definition get_required_active_authorities (o : t) : gset string := required_auths o.
Definition get_required_posting_authorities (o : t) : gset string := required_posting_auths o.
End custom_json_operation.

Module custom_binary_operation.
Record t : Set := mk {
  required_owner_auths : gset string;
  required_active_auths : gset string;
  required_posting_auths : gset string;
  required_auths : list authority;
  id : string;
  data : list Z
}.
Definition count_auth (num_auths : Z) (auth : authority) : result Z :=
  _ ← authority_validate auth;
  Ok (num_auths + (Z.of_nat (length (key_auths auth)) + Z.of_nat (length (account_auths auth)))).
Definition validate (o : t) : result unit :=
  let num_auths := set_size (required_owner_auths o) + set_size (required_active_auths o)
                   + set_size (required_posting_auths o) in
  _ ← check (0 <? num_auths) AssertNumber;
  num_auths ← foldM count_auth num_auths (required_auths o);
  _ ← check (num_auths <=? HIVE_MAX_AUTHORITY_MEMBERSHIP) AssertNumber;
  _ ← check (size_of (id o) <=? HIVE_CUSTOM_OP_ID_MAX_LENGTH) AssertString;
  check (Z.of_nat (length (data o)) <=? HIVE_CUSTOM_OP_DATA_MAX_LENGTH) AssertNumber.
Definition get_required_owner_authorities (o : t) : gset string := required_owner_auths o.
Definition get_required_active_authorities (o : t) : gset string := required_active_auths o.
Definition get_required_posting_authorities (o : t) : gset string := required_posting_auths o.
Definition get_required_authorities (o : t) : list authority := required_auths o.
End custom_binary_operation.

(** ** Proof of work *)

(** A [sha256] is its four 64-bit words. *)
Definition sha256 : Set := list Z.

Record pow2_input : Set := mk_pow2_input { worker_account : string; prev_block : Z; nonce : Z }.

Record equihash_proof : Set := mk_proof { proof_n : Z; proof_k : Z; seed : sha256; inputs : list Z }.

(** Hashing and the equihash solution check of the library. *)
Class PowLib : Type := {
  hash_block_id : Z -> sha256;
  hash_sha256 : sha256 -> sha256;
  hash_pow2_input : pow2_input -> sha256;
  hash_inputs : list Z -> sha256;
  approx_log_32 : sha256 -> Z;
  equihash_is_valid : equihash_proof -> bool
}.

Module pow.
Record t : Set := mk { worker : Z; input : sha256; signature : list Z; work : sha256 }.
Definition validate (w : t) : result unit :=
  check (negb (bool_decide (work w = [0; 0; 0; 0]))) AssertString.
End pow.

Module pow_operation.
Record t : Set := mk {
  worker_account : string;
  block_id : Z;
  nonce : Z;
  work : pow.t;
  props : legacy_chain_properties.t
}.
Definition work_input `{P : PowLib} (o : t) : sha256 :=
  hash_sha256 (<[0%nat := nonce o]> (hash_block_id (block_id o))).
Definition validate `{P : PowLib} (o : t) : result unit :=
  _ ← legacy_chain_properties.validate true (props o);
  _ ← validate_account_name (worker_account o);
  _ ← check (bool_decide (work_input o = pow.input (work o))) AssertString;
  pow.validate (work o).
End pow_operation.

Module pow2.
Record t : Set := mk { input : pow2_input; pow_summary : Z }.
Definition validate (w : t) : result unit := validate_account_name (worker_account (input w)).
End pow2.

Module equihash_pow.
Record t : Set := mk { input : pow2_input; proof : equihash_proof; prev_block : Z; pow_summary : Z }.
Definition validate `{P : PowLib} (w : t) : result unit :=
  _ ← validate_account_name (worker_account (input w));
  let expected := hash_pow2_input (input w) in
  _ ← check (proof_n (proof w) =? HIVE_EQUIHASH_N) AssertNumber;
  _ ← check (proof_k (proof w) =? HIVE_EQUIHASH_K) AssertNumber;
  _ ← check (bool_decide (seed (proof w) = expected)) AssertString;
  _ ← check (equihash_is_valid (proof w)) AssertString;
  let calculated_summary := approx_log_32 (hash_inputs (inputs (proof w))) in
  check (pow_summary w =? calculated_summary) AssertNumber.
End equihash_pow.

Module pow2_operation.
Inductive pow2_work : Set := work_pow2 (w : pow2.t) | work_equihash (w : equihash_pow.t).
Record t : Set := mk { work : pow2_work; new_owner_key : option Z; props : legacy_chain_properties.t }.
Definition validate `{P : PowLib} (o : t) : result unit :=
  _ ← legacy_chain_properties.validate true (props o);
  match work o with
  | work_pow2 w => pow2.validate w
  | work_equihash w => equihash_pow.validate w
  end.
Definition worker (o : t) : string :=
  match work o with
  | work_pow2 w => worker_account (pow2.input w)
  | work_equihash w => worker_account (equihash_pow.input w)
  end.
Definition get_required_active_authorities (o : t) : gset string :=
  match new_owner_key o with None => {[ worker o ]} | Some _ => ∅ end.
Definition get_required_authorities (o : t) : list authority :=
  match new_owner_key o with Some key => [ mk_auth 1 [] [(key, 1)] ] | None => [] end.
End pow2_operation.

(** ** Proposals of the development fund *)

Module create_proposal_operation.
Record t : Set := mk {
  creator : string;
  receiver : string;
  start_date : time_point_sec;
  end_date : time_point_sec;
  daily_pay : asset;
  subject : string;
  permlink : string;
  extensions : extensions_type
}.
Definition validate `{L : FcLib} (o : t) : result unit :=
  _ ← validate_account_name (creator o);
  _ ← validate_account_name (receiver o);
  _ ← check (start_date o <? end_date o) AssertNumber;
  _ ← validate_asset_not_negative (daily_pay o);
  _ ← validate_asset_type (daily_pay o) HBD_SYMBOL;
  _ ← validate_string_is_not_empty (subject o);
  _ ← validate_string_max_size (subject o) HIVE_PROPOSAL_SUBJECT_MAX_LENGTH;
  _ ← validate_is_utf8 (subject o);
  _ ← validate_string_is_not_empty (permlink o);
  validate_permlink (permlink o).
Definition get_required_active_authorities (o : t) : gset string := {[ creator o ]}.
End create_proposal_operation.

Module update_proposal_operation.
Inductive extension : Set := void_t | update_proposal_end_date (end_date : time_point_sec).
Record t : Set := mk {
  proposal_id : Z;
  creator : string;
  daily_pay : asset;
  subject : string;
  permlink : string;
  extensions : list extension
}.
Definition validate `{L : FcLib} (o : t) : result unit :=
  _ ← validate_account_name (creator o);
  _ ← check (0 <=? proposal_id o) AssertNumber;
  _ ← validate_asset_not_negative (daily_pay o);
  _ ← validate_asset_type (daily_pay o) HBD_SYMBOL;
  _ ← validate_string_is_not_empty (subject o);
  _ ← validate_string_max_size (subject o) HIVE_PROPOSAL_SUBJECT_MAX_LENGTH;
  _ ← validate_is_utf8 (subject o);
  _ ← validate_string_is_not_empty (permlink o);
  validate_permlink (permlink o).
Definition get_required_active_authorities (o : t) : gset string := {[ creator o ]}.
End update_proposal_operation.

Module update_proposal_votes_operation.
Record t : Set := mk { voter : string; proposal_ids : gset Z; approve : bool; extensions : extensions_type }.
Definition validate (o : t) : result unit :=
  _ ← validate_account_name (voter o);
  _ ← check (negb (size (proposal_ids o) =? 0)%nat) AssertNumber;
  check (Z.of_nat (size (proposal_ids o)) <=? HIVE_PROPOSAL_MAX_IDS_NUMBER) AssertNumber.
Definition get_required_active_authorities (o : t) : gset string := {[ voter o ]}.
End update_proposal_votes_operation.

Module remove_proposal_operation.
Record t : Set := mk { proposal_owner : string; proposal_ids : gset Z; extensions : extensions_type }.
Definition validate (o : t) : result unit :=
  _ ← validate_account_name (proposal_owner o);
  _ ← check (negb (size (proposal_ids o) =? 0)%nat) AssertNumber;
  check (Z.of_nat (size (proposal_ids o)) <=? HIVE_PROPOSAL_MAX_IDS_NUMBER) AssertNumber.
Definition get_required_active_authorities (o : t) : gset string := {[ proposal_owner o ]}.
End remove_proposal_operation.

(** ** The order of account names *)

Definition name_ltb (a b : string) : bool := String.ltb a b.

Lemma ascii_compare_trans a b c : Ascii.compare a b = Lt -> Ascii.compare b c = Lt -> Ascii.compare a c = Lt.
Proof. unfold Ascii.compare. rewrite !N.compare_lt_iff. apply N.lt_trans. Qed.

Lemma ascii_compare_eq a b : Ascii.compare a b = Eq -> a = b.
Proof. apply Ascii.compare_eq_iff. Qed.

Lemma string_compare_trans a b c : String.compare a b = Lt -> String.compare b c = Lt -> String.compare a c = Lt.
Proof.
  revert b c. induction a as [|x a IH]; intros [|y b] [|z c]; cbn; try done.
  destruct (Ascii.compare x y) eqn:Exy; try done; destruct (Ascii.compare y z) eqn:Eyz; try done; intros H1 H2.
  - apply ascii_compare_eq in Exy as ->. rewrite Eyz. eauto.
  - apply ascii_compare_eq in Exy as ->. by rewrite Eyz.
  - apply ascii_compare_eq in Eyz as ->. by rewrite Exy.
  - by rewrite (ascii_compare_trans _ _ _ Exy Eyz).
Qed.

Lemma name_ltb_trans a b c : name_ltb a b = true -> name_ltb b c = true -> name_ltb a c = true.
Proof.
  unfold name_ltb, String.ltb. destruct (String.compare a b) eqn:E1; try done.
  destruct (String.compare b c) eqn:E2; try done. by rewrite (string_compare_trans _ _ _ E1 E2).
Qed.

Definition route_before (a b : beneficiary_route_type) : Prop := route_ltb a b = true.

#[export] Instance route_before_trans : Transitive route_before.
Proof. intros a b c. apply name_ltb_trans. Qed.

(** ** Beneficiaries *)

Section beneficiaries.
Import comment_payout_beneficiaries.

Lemma validate_tail_spec prev sum l :
  0 <= sum <= HIVE_100_PERCENT -> Forall (fun b => in_u 16 (weight b)) l ->
  validate_tail prev sum l = Ok tt <->
  Forall (fun b => is_valid_account_name (account b) = true) l /\
  Sorted route_before (prev :: l) /\ sum + sumZ weight l <= HIVE_100_PERCENT.
Proof.
  unfold HIVE_100_PERCENT, in_u. revert prev sum.
  induction l as [|b l IH]; intros prev sum Hs Hw; cbn [validate_tail].
  { unfold sumZ. simpl. split; [intros _; split_and!; [constructor|repeat constructor|lia]|done]. }
  apply Forall_cons in Hw as [Hb Hw].
  assert (0 <= sumZ weight l) as Hn by (apply sumZ_nonneg; eapply Forall_impl; [exact Hw|cbn; lia]).
  autorewrite with validation. rewrite sumZ_cons, Forall_cons.
  rewrite (uwrap_id 32 (sum + weight b)) by (unfold in_u; lia). unfold HIVE_100_PERCENT. split.
  - intros (Hv & _ & Hle & Hlt & H). apply IH in H as (HF & HS & Hsum); [|lia|done].
    split_and!; [done|done|constructor; [done|by constructor]|lia].
  - intros ((Hv & HF) & HS & Hsum). inversion HS as [|? ? HS' Hd]; subst. inversion Hd; subst.
    split_and!; [done|lia|lia|done|]. apply IH; [lia|done|]. split_and!; [done|done|lia].
Qed.

Lemma sorted_strongly l : Sorted route_before l <-> StronglySorted route_before l.
Proof. split; [apply Sorted_StronglySorted; intros a b c; apply name_ltb_trans|apply StronglySorted_Sorted]. Qed.

(** A list of beneficiaries is accepted exactly when it has between 1 and
    127 entries, every account name is valid, the names are strictly ascending
    (hence no account occurs twice), and the weights together are at most 100%:
    the running 32-bit sum and the per-entry checks decide the same as the sum
    over the whole list. *)
Theorem beneficiaries_validate_spec cpb : Forall (fun b => in_u 16 (weight b)) (beneficiaries cpb) ->
  validate cpb = Ok tt <->
  (1 <= length (beneficiaries cpb) <= 127)%nat /\
  Forall (fun b => is_valid_account_name (account b) = true) (beneficiaries cpb) /\
  StronglySorted route_before (beneficiaries cpb) /\
  sumZ weight (beneficiaries cpb) <= HIVE_100_PERCENT.
Proof.
  rewrite <- sorted_strongly. destruct cpb as [[|b l]]; unfold validate; cbn [beneficiaries]; intros Hw;
    autorewrite with validation; [simpl; split; [naive_solver|lia]|].
  apply Forall_cons in Hw as [Hb Hw].
  assert (0 <= sumZ weight l) as Hn by (apply sumZ_nonneg; eapply Forall_impl; [exact Hw|unfold in_u; cbn; lia]).
  rewrite negb_true_iff, Z.eqb_neq, Z.ltb_lt, sumZ_cons, Forall_cons.
  unfold in_u in Hb. rewrite (uwrap_id 32 (0 + weight b)) by (unfold in_u; lia).
  unfold HIVE_BENEFICIARY_LIMIT. cbn [length]. split.
  - intros (_ & Hl & Hv & Hwb & _ & H). apply validate_tail_spec in H as (HF & HS & Hsum); [|lia|done].
    split_and!; [lia|lia|done|done|done|lia].
  - intros ((H1 & H2) & (Hv & HF) & HS & Hsum). split_and!; [lia|lia|done|lia|lia|].
    apply validate_tail_spec; [lia|done|]. split_and!; [done|done|lia].
Qed.

Lemma beneficiaries_validate_spec_witness :
  let cpb := mk [mk_route "alice" 2500; mk_route "bob" 7500] in
  validate cpb = Ok tt <->
  (1 <= length (beneficiaries cpb) <= 127)%nat /\
  Forall (fun b => is_valid_account_name (account b) = true) (beneficiaries cpb) /\
  StronglySorted route_before (beneficiaries cpb) /\
  sumZ weight (beneficiaries cpb) <= HIVE_100_PERCENT.
Proof.
  refine (beneficiaries_validate_spec (mk [mk_route "alice" 2500; mk_route "bob" 7500]) _).
  repeat constructor; unfold in_u; cbn; lia.
Defined.
End beneficiaries.

(** ** Limit orders *)

Section limit_orders.
Context `{L : FcLib} `{!FcLaws L}.
Import limit_order_create2_operation.

(** The proceeds as the code computes them, sign wrap-around included. *)
Lemma proceeds_value v m d : in_s 64 v -> v <> int64_min -> pos_amount m -> pos_amount d ->
  Z.abs v * m / d < 2 ^ 64 ->
  exists r, mul_div_share v m d = Ok r /\
    (0 < r <-> 0 < v /\ 1 <= Z.abs v * m / d < 2 ^ 63 \/ v < 0 /\ 2 ^ 63 < Z.abs v * m / d).
Proof.
  intros Hv Hmin Hm Hd Hq. rewrite mul_div_share_quot by done.
  assert (0 <= Z.abs v * m / d) by (unfold pos_amount in *; apply Z.div_pos; nia).
  set (q := Z.abs v * m / d) in *.
  destruct (decide (q < 2 ^ 63)) as [Hs|Hs].
  { rewrite signed_share_small by lia. eexists. split; [done|].
    destruct (v <? 0) eqn:E; to_prop; [lia|]. split; [intros|lia].
    left. split; [|lia]. assert (v = 0 -> q = 0) by (intros ->; unfold q; by rewrite Z.div_0_l by (unfold pos_amount in *; lia)).
    lia. }
  unfold signed_share. rewrite uint128_to_uint64_fits by (unfold in_u; lia). simpl.
  eexists. split; [done|]. destruct (v <? 0) eqn:E; to_prop.
  - unfold uwrap. rewrite share_of_u64_narrow by (unfold in_u; apply Z.mod_pos_bound; lia).
    replace ((- q) mod 2 ^ 64) with (2 ^ 64 - q) by div_lia.
    unfold swrap. change (2 ^ (64 - 1)) with (2 ^ 63). div_lia.
  - rewrite share_of_u64_narrow by (unfold in_u; lia).
    unfold swrap. change (2 ^ (64 - 1)) with (2 ^ 63). div_lia.
Qed.

(** Exactly which orders [limit_order_create2] accepts, for amounts of 64
    bits and a converted amount below 2^64: the price must be well formed, sell
    the offered currency and be of a supported market, and the conversion, which
    truncates, must give at least one satoshi and less than 2^63.  The other
    disjunct is the wrap-around of the conversion: a negative amount to sell is
    accepted too when its magnitude converts to more than 2^63. *)
Theorem limit_order_create2_validate_spec o :
  let sell := amount_to_sell o in
  let p := exchange_rate o in
  let q := Z.abs (amount sell) * amount (quote p) / amount (base p) in
  asset_wf sell -> amount sell <> int64_min -> asset_wf (base p) -> asset_wf (quote p) -> q < 2 ^ 64 ->
  validate o = Ok tt <->
  is_valid_account_name (owner o) = true /\ symbol sell = symbol (base p) /\ price_ok p /\
  hive_market sell (quote p) = true /\
  (0 < amount sell /\ 1 <= q < 2 ^ 63 \/ amount sell < 0 /\ 2 ^ 63 < q).
Proof.
  intros sell p q Hs Hmin Hb Hq Hlt. unfold validate. fold sell p.
  rewrite !seq_Ok, validate_account_name_Ok, validate_asset_type_Ok, price_validate_ok, check_Ok by done.
  assert (symbol sell = symbol (base p) -> price_ok p ->
    (amount_to_sell_in_quote ← asset_mul sell p; validate_asset_greater_than_zero amount_to_sell_in_quote) = Ok tt <->
    (0 < amount sell /\ 1 <= q < 2 ^ 63 \/ amount sell < 0 /\ 2 ^ 63 < q)) as H; [|naive_solver].
  intros Hsym Hp. unfold asset_mul. rewrite Hsym, sym_eqb_refl. destruct Hp as (Hpb & Hpq & _).
  destruct (proceeds_value _ _ _ Hs Hmin Hpq Hpb Hlt) as (r & -> & Hr). simpl.
  by rewrite validate_asset_greater_than_zero_Ok.
Qed.
End limit_orders.

Module OrderSample.
Import limit_order_create2_operation.
Definition rate : price := mk_price (mk_asset 1 HIVE_SYMBOL) (mk_asset 3 HBD_SYMBOL).
Definition order : t := mk "alice" 7 (mk_asset 1000 HIVE_SYMBOL) false rate 100.
Definition negative_order : t := mk "mallory" 7 (mk_asset (- 2 ^ 62) HIVE_SYMBOL) false rate 100.

Lemma limit_order_create2_validate_spec_witness :
  validate (L := fc_ref) order = Ok tt <->
  is_valid_account_name "alice" = true /\ HIVE_SYMBOL = HIVE_SYMBOL /\ price_ok rate /\
  hive_market (mk_asset 1000 HIVE_SYMBOL) (mk_asset 3 HBD_SYMBOL) = true /\
  (0 < 1000 /\ 1 <= Z.abs 1000 * 3 / 1 < 2 ^ 63 \/ 1000 < 0 /\ 2 ^ 63 < Z.abs 1000 * 3 / 1).
Proof.
  refine (limit_order_create2_validate_spec (L := fc_ref) (FcLaws0 := fc_ref_laws) order _ _ _ _ _);
    [unfold asset_wf, in_s, int64_min; cbn; lia..|reflexivity].
Defined.

(** The validation of [limit_order_create2] lets a negative amount to sell
    through: an order of -2^62 satoshis at a rate of 3 is accepted. *)
Theorem limit_order_create2_accepts_negative :
  amount (amount_to_sell negative_order) < 0 /\ validate (L := fc_ref) negative_order = Ok tt.
Proof. split; [cbn; lia|vm_compute; reflexivity]. Qed.
End OrderSample.
