(* ===== verification/Transaction.v ===== *)
(** * Transactions

    Models the [operation] variant (operations.hpp, operation_util.hpp and
    operation_util_impl.hpp), the transaction's own checks (transaction.cpp)
    and the verification of its authorities (transaction_util.hpp and .cpp,
    sign_state_types.hpp).  The variant holds the fifty regular operations; the
    virtual ones, which never come in a transaction, are left out of it. *)

From stdpp Require Import base numbers strings option list sorting gmap.
From S2P Require Import Prelude Fc Config AssetSymbol Asset Authority Validation Operations.
Open Scope Z_scope.

(** ** The variant *)

Inductive operation : Set :=
| vote (o : vote_operation.t)
| comment (o : comment_operation.t)
| transfer (o : transfer_operation.t)
| transfer_to_vesting (o : transfer_to_vesting_operation.t)
| withdraw_vesting (o : withdraw_vesting_operation.t)
| limit_order_create (o : limit_order_create_operation.t)
| limit_order_cancel (o : limit_order_cancel_operation.t)
| feed_publish (o : feed_publish_operation.t)
| convert (o : convert_operation.t)
| account_create (o : account_create_operation.t)
| account_update (o : account_update_operation.t)
| witness_update (o : witness_update_operation.t)
| account_witness_vote (o : account_witness_vote_operation.t)
| account_witness_proxy (o : account_witness_proxy_operation.t)
| pow (o : pow_operation.t)
| custom (o : custom_operation.t)
| witness_block_approve (o : witness_block_approve_operation.t)
| delete_comment (o : delete_comment_operation.t)
| custom_json (o : custom_json_operation.t)
| comment_options (o : comment_options_operation.t)
| set_withdraw_vesting_route (o : set_withdraw_vesting_route_operation.t)
| limit_order_create2 (o : limit_order_create2_operation.t)
| claim_account (o : claim_account_operation.t)
| create_claimed_account (o : create_claimed_account_operation.t)
| request_account_recovery (o : request_account_recovery_operation.t)
| recover_account (o : recover_account_operation.t)
| change_recovery_account (o : change_recovery_account_operation.t)
| escrow_transfer (o : escrow_transfer_operation.t)
| escrow_dispute (o : escrow_dispute_operation.t)
| escrow_release (o : escrow_release_operation.t)
| pow2 (o : pow2_operation.t)
| escrow_approve (o : escrow_approve_operation.t)
| transfer_to_savings (o : transfer_to_savings_operation.t)
| transfer_from_savings (o : transfer_from_savings_operation.t)
| cancel_transfer_from_savings (o : cancel_transfer_from_savings_operation.t)
| custom_binary (o : custom_binary_operation.t)
| decline_voting_rights (o : decline_voting_rights_operation.t)
| reset_account (o : reset_account_operation.t)
| set_reset_account (o : set_reset_account_operation.t)
| claim_reward_balance (o : claim_reward_balance_operation.t)
| delegate_vesting_shares (o : delegate_vesting_shares_operation.t)
| account_create_with_delegation (o : account_create_with_delegation_operation.t)
| witness_set_properties (o : witness_set_properties_operation.t)
| account_update2 (o : account_update2_operation.t)
| create_proposal (o : create_proposal_operation.t)
| update_proposal_votes (o : update_proposal_votes_operation.t)
| remove_proposal (o : remove_proposal_operation.t)
| update_proposal (o : update_proposal_operation.t)
| collateralized_convert (o : collateralized_convert_operation.t)
| recurrent_transfer (o : recurrent_transfer_operation.t).

Section visitors.
Context `{L : FcLib} `{R : RawLib} `{P : PowLib}.

Definition operation_validate (op : operation) : result unit :=
  match op with
  | vote o => vote_operation.validate o
  | comment o => comment_operation.validate o
  | transfer o => transfer_operation.validate o
  | transfer_to_vesting o => transfer_to_vesting_operation.validate o
  | withdraw_vesting o => withdraw_vesting_operation.validate o
  | limit_order_create o => limit_order_create_operation.validate o
  | limit_order_cancel o => limit_order_cancel_operation.validate o
  | feed_publish o => feed_publish_operation.validate o
  | convert o => convert_operation.validate o
  | account_create o => account_create_operation.validate o
  | account_update o => account_update_operation.validate o
  | witness_update o => witness_update_operation.validate o
  | account_witness_vote o => account_witness_vote_operation.validate o
  | account_witness_proxy o => account_witness_proxy_operation.validate o
  | pow o => pow_operation.validate o
  | custom o => custom_operation.validate o
  | witness_block_approve o => witness_block_approve_operation.validate o
  | delete_comment o => delete_comment_operation.validate o
  | custom_json o => custom_json_operation.validate o
  | comment_options o => comment_options_operation.validate o
  | set_withdraw_vesting_route o => set_withdraw_vesting_route_operation.validate o
  | limit_order_create2 o => limit_order_create2_operation.validate o
  | claim_account o => claim_account_operation.validate o
  | create_claimed_account o => create_claimed_account_operation.validate o
  | request_account_recovery o => request_account_recovery_operation.validate o
  | recover_account o => recover_account_operation.validate o
  | change_recovery_account o => change_recovery_account_operation.validate o
  | escrow_transfer o => escrow_transfer_operation.validate o
  | escrow_dispute o => escrow_dispute_operation.validate o
  | escrow_release o => escrow_release_operation.validate o
  | pow2 o => pow2_operation.validate o
  | escrow_approve o => escrow_approve_operation.validate o
  | transfer_to_savings o => transfer_to_savings_operation.validate o
  | transfer_from_savings o => transfer_from_savings_operation.validate o
  | cancel_transfer_from_savings o => cancel_transfer_from_savings_operation.validate o
  | custom_binary o => custom_binary_operation.validate o
  | decline_voting_rights o => decline_voting_rights_operation.validate o
  | reset_account o => reset_account_operation.validate o
  | set_reset_account o => set_reset_account_operation.validate o
  | claim_reward_balance o => claim_reward_balance_operation.validate o
  | delegate_vesting_shares o => delegate_vesting_shares_operation.validate o
  | account_create_with_delegation o => account_create_with_delegation_operation.validate o
  | witness_set_properties o => witness_set_properties_operation.validate o
  | account_update2 o => account_update2_operation.validate o
  | create_proposal o => create_proposal_operation.validate o
  | update_proposal_votes o => update_proposal_votes_operation.validate o
  | remove_proposal o => remove_proposal_operation.validate o
  | update_proposal o => update_proposal_operation.validate o
  | collateralized_convert o => collateralized_convert_operation.validate o
  | recurrent_transfer o => recurrent_transfer_operation.validate o
  end.

(** What [get_required_active_authorities] inserts. *)
Definition active_of (op : operation) : gset string :=
  match op with
  | transfer o => transfer_operation.get_required_active_authorities o
  | transfer_to_vesting o => transfer_to_vesting_operation.get_required_active_authorities o
  | withdraw_vesting o => withdraw_vesting_operation.get_required_active_authorities o
  | limit_order_create o => limit_order_create_operation.get_required_active_authorities o
  | limit_order_cancel o => limit_order_cancel_operation.get_required_active_authorities o
  | feed_publish o => feed_publish_operation.get_required_active_authorities o
  | convert o => convert_operation.get_required_active_authorities o
  | account_create o => account_create_operation.get_required_active_authorities o
  | account_update o => account_update_operation.get_required_active_authorities o
  | witness_update o => witness_update_operation.get_required_active_authorities o
  | account_witness_vote o => account_witness_vote_operation.get_required_active_authorities o
  | account_witness_proxy o => account_witness_proxy_operation.get_required_active_authorities o
  | custom o => custom_operation.get_required_active_authorities o
  | custom_json o => custom_json_operation.get_required_active_authorities o
  | set_withdraw_vesting_route o => set_withdraw_vesting_route_operation.get_required_active_authorities o
  | limit_order_create2 o => limit_order_create2_operation.get_required_active_authorities o
  | claim_account o => claim_account_operation.get_required_active_authorities o
  | create_claimed_account o => create_claimed_account_operation.get_required_active_authorities o
  | request_account_recovery o => request_account_recovery_operation.get_required_active_authorities o
  | escrow_transfer o => escrow_transfer_operation.get_required_active_authorities o
  | escrow_dispute o => escrow_dispute_operation.get_required_active_authorities o
  | escrow_release o => escrow_release_operation.get_required_active_authorities o
  | pow2 o => pow2_operation.get_required_active_authorities o
  | escrow_approve o => escrow_approve_operation.get_required_active_authorities o
  | transfer_to_savings o => transfer_to_savings_operation.get_required_active_authorities o
  | transfer_from_savings o => transfer_from_savings_operation.get_required_active_authorities o
  | cancel_transfer_from_savings o => cancel_transfer_from_savings_operation.get_required_active_authorities o
  | custom_binary o => custom_binary_operation.get_required_active_authorities o
  | reset_account o => reset_account_operation.get_required_active_authorities o
  | delegate_vesting_shares o => delegate_vesting_shares_operation.get_required_active_authorities o
  | account_create_with_delegation o => account_create_with_delegation_operation.get_required_active_authorities o
  | account_update2 o => account_update2_operation.get_required_active_authorities o
  | create_proposal o => create_proposal_operation.get_required_active_authorities o
  | update_proposal_votes o => update_proposal_votes_operation.get_required_active_authorities o
  | remove_proposal o => remove_proposal_operation.get_required_active_authorities o
  | update_proposal o => update_proposal_operation.get_required_active_authorities o
  | collateralized_convert o => collateralized_convert_operation.get_required_active_authorities o
  | recurrent_transfer o => recurrent_transfer_operation.get_required_active_authorities o
  | _ => ∅
  end.

(** What [get_required_owner_authorities] inserts. *)
Definition owner_of (op : operation) : gset string :=
  match op with
  | account_update o => account_update_operation.get_required_owner_authorities o
  | change_recovery_account o => change_recovery_account_operation.get_required_owner_authorities o
  | custom_binary o => custom_binary_operation.get_required_owner_authorities o
  | decline_voting_rights o => decline_voting_rights_operation.get_required_owner_authorities o
  | set_reset_account o => set_reset_account_operation.get_required_owner_authorities o
  | account_update2 o => account_update2_operation.get_required_owner_authorities o
  | _ => ∅
  end.

(** What [get_required_posting_authorities] inserts. *)
Definition posting_of (op : operation) : gset string :=
  match op with
  | vote o => vote_operation.get_required_posting_authorities o
  | comment o => comment_operation.get_required_posting_authorities o
  | delete_comment o => delete_comment_operation.get_required_posting_authorities o
  | custom_json o => custom_json_operation.get_required_posting_authorities o
  | comment_options o => comment_options_operation.get_required_posting_authorities o
  | custom_binary o => custom_binary_operation.get_required_posting_authorities o
  | set_reset_account o => set_reset_account_operation.get_required_posting_authorities o
  | claim_reward_balance o => claim_reward_balance_operation.get_required_posting_authorities o
  | account_update2 o => account_update2_operation.get_required_posting_authorities o
  | _ => ∅
  end.

(** What [get_required_witness_signatures] inserts. *)
Definition witness_of (op : operation) : gset string :=
  match op with
  | witness_block_approve o => witness_block_approve_operation.get_required_witness_signatures o
  | _ => ∅
  end.

(** What [get_required_authorities] pushes. *)
Definition other_of (op : operation) : result (list authority) :=
  match op with
  | recover_account o => Ok (recover_account_operation.get_required_authorities o)
  | pow2 o => Ok (pow2_operation.get_required_authorities o)
  | custom_binary o => Ok (custom_binary_operation.get_required_authorities o)
  | witness_set_properties o => witness_set_properties_operation.get_required_authorities o
  | _ => Ok []
  end.

(** ** Required authorities *)

Record required_authorities_type : Set := mk_required {
  required_active : gset string;
  required_owner : gset string;
  required_posting : gset string;
  required_witness : gset string;
  other : list authority
}.

Definition no_authorities : required_authorities_type := mk_required ∅ ∅ ∅ ∅ [].

(** [get_required_auth_visitor] *)
Definition operation_get_required_authorities (r : required_authorities_type) (op : operation) :
    result required_authorities_type :=
  oth ← other_of op;
  Ok (mk_required (active_of op ∪ required_active r) (owner_of op ∪ required_owner r)
                  (posting_of op ∪ required_posting r) (witness_of op ∪ required_witness r)
                  (other r ++ oth)).

Definition get_required_authorities (ops : list operation) : result required_authorities_type :=
  foldM operation_get_required_authorities no_authorities ops.

(** ** The transaction *)

Definition transaction_validate (operations : list operation) : result unit :=
  _ ← check (0 <? Z.of_nat (length operations)) AssertNumber;
  iterM operation_validate operations.
End visitors.

Record transaction : Set := mk_transaction {
  ref_block_num : Z;
  ref_block_prefix : Z;
  expiration : time_point_sec;
  operations : list operation;
  extensions : extensions_type
}.

(** The first two 32-bit words of the reference block's id. *)
Definition set_reference_block `{L : FcLib} (hash0 hash1 : Z) (t : transaction) : transaction :=
  mk_transaction (u16 (endian_reverse_u32 hash0)) hash1 (expiration t) (operations t) (extensions t).

Definition set_expiration (e : time_point_sec) (t : transaction) : transaction :=
  mk_transaction (ref_block_num t) (ref_block_prefix t) e (operations t) (extensions t).

Section keys.
(** [fc::ecc::public_key( sig, digest )]: recovery of the signing key. *)
Variable recover : Z -> result Z.

(** [get_signature_keys], with the digest fixed. *)
Definition get_signature_keys (signatures : list Z) : result (gset Z) :=
  foldM (fun (res : gset Z) sig =>
           k ← recover sig;
           _ ← check (negb (bool_decide (k ∈ res))) DuplicateSig;
           Ok ({[ k ]} ∪ res)) ∅ signatures.
End keys.

(** ** Verification of the authorities *)

Inductive verify_authority_problem : Set :=
| mixed_with_posting
| missing_posting
| missing_active
| missing_owner
| missing_witness
| missing_witness_key
| unused_signature.

(** How the verification ends: both handlers stop it at the first problem. *)
Inductive verdict : Set :=
| Passed
| Problem (problem : verify_authority_problem) (id : string)
| OtherProblem (auth : authority).

(** The order a [flat_set] of names is walked in. *)
Definition name_le (a b : string) : Prop := String.leb a b = true.
#[export] Instance name_le_dec a b : Decision (name_le a b).
Proof. unfold name_le. apply _. Defined.
Definition in_order (names : gset string) : list string := merge_sort name_le (elements names).

(** A loop of checks; each one ends the function with its problem. *)
Fixpoint check_each {A} (f : A -> sign_state -> result (sign_state * verdict)) (l : list A) (st : sign_state) :
    result (sign_state * verdict) :=
  match l with
  | [] => Ok (st, Passed)
  | a :: l =>
      '(st, v) ← f a st;
      match v with Passed => check_each f l st | _ => Ok (st, v) end
  end.

Definition test (problem : verdict) (r : result (sign_state * bool)) : result (sign_state * verdict) :=
  '(st, b) ← r;
  Ok (st, if b : bool then Passed else problem).

(** [a || b()] on checks that change the state. *)
Definition or_else (r : result (sign_state * bool)) (k : sign_state -> result (sign_state * bool)) :
    result (sign_state * bool) :=
  '(st, b) ← r;
  if b : bool then Ok (st, true) else k st.

Section verify.
Variables (allow_strict_and_mixed_authorities allow_redundant_signatures : bool).
Variables get_active get_owner get_posting : string -> result authority.
Variable get_witness_key : string -> result Z.
Variables (max_recursion_depth : nat) (max_membership max_account_auths : Z).
Variables active_approvals owner_approvals posting_approvals : gset string.

Definition limits : sign_limits :=
  mk_limits allow_strict_and_mixed_authorities max_recursion_depth max_membership max_account_auths.

Definition check_posting (id : string) (st : sign_state) : result (sign_state * verdict) :=
  test (Problem missing_posting id)
    (if allow_strict_and_mixed_authorities then check_authority limits get_posting id st
     else or_else (or_else (check_authority limits get_posting id st)
            (fun st => auth ← get_active id; check_given_authority limits get_posting auth st))
            (fun st => auth ← get_owner id; check_given_authority limits get_posting auth st)).

Definition check_other (auth : authority) (st : sign_state) : result (sign_state * verdict) :=
  test (OtherProblem auth) (check_given_authority limits get_active auth st).

Definition check_active (id : string) (st : sign_state) : result (sign_state * verdict) :=
  test (Problem missing_active id)
    (if allow_strict_and_mixed_authorities then check_authority limits get_active id st
     else or_else (check_authority limits get_active id st)
            (fun st => auth ← get_owner id; check_given_authority limits get_active auth st)).

Definition check_owner (id : string) (st : sign_state) : result (sign_state * verdict) :=
  test (Problem missing_owner id)
    (if bool_decide (id ∈ owner_approvals) then Ok (st, true)
     else auth ← get_owner id; check_given_authority limits get_active auth st).

Definition check_witness (id : string) (st : sign_state) : result (sign_state * verdict) :=
  match get_witness_key id with
  | Throw _ => Ok (st, Problem missing_witness_key id)
  | Ok signing_key => test (Problem missing_witness id) (Ok (signed_by signing_key st))
  end.

Definition check_unused (st : sign_state) : result (sign_state * verdict) :=
  if allow_redundant_signatures then Ok (st, Passed)
  else let '(st, removed) := remove_unused_signatures st in
       Ok (st, if removed then Problem unused_signature "" else Passed).

(** [f], then [k] unless [f] ended the function. *)
Definition then_ (r : result (sign_state * verdict)) (k : sign_state -> result (sign_state * verdict)) :
    result (sign_state * verdict) :=
  '(st, v) ← r;
  match v with Passed => k st | _ => Ok (st, v) end.

Definition is_empty_required (r : required_authorities_type) : bool :=
  bool_decide (required_active r = ∅) && bool_decide (required_owner r = ∅)
  && bool_decide (required_witness r = ∅) && bool_decide (other r = []).

(** The part that runs under the active authorities. *)
Definition verify_rest (r : required_authorities_type) (st : sign_state) : result (sign_state * verdict) :=
  let st := add_approved (elements owner_approvals)
              (add_approved (elements active_approvals) (clear_approved st)) in
  then_ (check_each check_other (other r) st) (fun st =>
  then_ (check_each check_active (in_order (required_active r)) st) (fun st =>
  then_ (check_each check_owner (in_order (required_owner r)) st) (fun st =>
  then_ (check_each check_witness (in_order (required_witness r)) st)
  check_unused))).

Definition verify_authority_impl (r : required_authorities_type) (sigs : gset Z) : result (sign_state * verdict) :=
  let st := sign_state_init (elements sigs) in
  if bool_decide (required_posting r = ∅) then verify_rest r st
  else if negb allow_strict_and_mixed_authorities && negb (is_empty_required r)
  then Ok (st, Problem mixed_with_posting "")
  else
    let st := add_approved (elements posting_approvals) st in
    then_ (check_each check_posting (in_order (required_posting r)) st) (fun st =>
    if allow_strict_and_mixed_authorities then verify_rest r st else check_unused st).

(** The handler of [verify_authority]: it reads the authorities it reports. *)
Definition throw_problem (p : verify_authority_problem) (id : string) : result unit :=
  match p with
  | mixed_with_posting => Throw CombinedAuthsWithPosting
  | missing_posting => _ ← get_posting id; _ ← get_active id; _ ← get_owner id; Throw MissingPostingAuth
  | missing_active => _ ← get_active id; _ ← get_owner id; Throw MissingActiveAuth
  | missing_owner => _ ← get_owner id; Throw MissingOwnerAuth
  | missing_witness => _ ← get_witness_key id; Throw MissingWitnessAuth
  | missing_witness_key => Throw MissingWitnessAuth
  | unused_signature => Throw IrrelevantSig
  end.

Definition verify_authority (r : required_authorities_type) (sigs : gset Z) : result unit :=
  '(_, v) ← verify_authority_impl r sigs;
  match v with
  | Passed => Ok tt
  | Problem p id => throw_problem p id
  | OtherProblem _ => Throw MissingOtherAuth
  end.
End verify.

(** [has_authorization]: the default limits, no approvals, and a handler that
    only notes that there was a problem. *)
Definition has_authorization (allow_strict_and_mixed_authorities allow_redundant_signatures : bool)
    (r : required_authorities_type) (sigs : gset Z)
    (get_active get_owner get_posting : string -> result authority) (get_witness_key : string -> result Z) :
    result bool :=
  '(_, v) ← verify_authority_impl allow_strict_and_mixed_authorities allow_redundant_signatures
              get_active get_owner get_posting get_witness_key
              (Z.to_nat HIVE_MAX_SIG_CHECK_DEPTH) HIVE_MAX_AUTHORITY_MEMBERSHIP HIVE_MAX_SIG_CHECK_ACCOUNTS
              ∅ ∅ ∅ r sigs;
  Ok (match v with Passed => true | _ => false end).

(** ** What a successful verification means *)

Lemma then_Passed r k st' :
  then_ r k = Ok (st', Passed) -> exists st, r = Ok (st, Passed) /\ k st = Ok (st', Passed).
Proof. unfold then_. destruct r as [[st []]|]; simpl; naive_solver. Qed.

Lemma test_inv p r st' v : p <> Passed -> test p r = Ok (st', v) ->
  exists b, r = Ok (st', b) /\ (v = Passed <-> b = true).
Proof. unfold test. destruct r as [[st []]|]; simpl; naive_solver. Qed.

Lemma or_else_inv r k st' b : or_else r k = Ok (st', b) ->
  (r = Ok (st', true) /\ b = true) \/ exists st, r = Ok (st, false) /\ k st = Ok (st', b).
Proof. unfold or_else. destruct r as [[st []]|]; simpl; naive_solver. Qed.

Lemma if_cases {A} (b : bool) (x y z : A) :
  (if b then x else y) = z -> b = true /\ x = z \/ b = false /\ y = z.
Proof. destruct b; auto. Qed.

Lemma check_each_sound {A} (I : sign_state -> Prop) (Q : A -> Prop) f :
  forall l st st',
  (forall a st st' v, a ∈ l -> I st -> f a st = Ok (st', v) -> I st' /\ (v = Passed -> Q a)) ->
  I st -> check_each f l st = Ok (st', Passed) -> I st' /\ Forall Q l.
Proof.
  induction l as [|a l IH]; intros st st' Hf HI H; cbn [check_each] in H.
  { injection H as <-. by split. }
  apply bind_Ok in H as ([st1 v] & H1 & H).
  apply Hf in H1 as [HI1 HQ]; [|set_solver|done].
  destruct v; try done. destruct (IH st1 st') as [? ?]; [|done|done|by eauto].
  intros b s s' w Hb. apply Hf. set_solver.
Qed.

Lemma elem_of_in_order (X : gset string) a : a ∈ in_order X <-> a ∈ X.
Proof. unfold in_order. by rewrite merge_sort_Permutation, elem_of_elements. Qed.

Lemma sign_state_init_dom keys : dom (provided_signatures (sign_state_init keys)) = list_to_set keys.
Proof.
  unfold sign_state_init, extend_provided_signatures. cbn [provided_signatures set_signatures].
  assert (forall m : gmap Z bool, dom (foldl (fun m k => <[k := false]> m) m keys) = dom m ∪ list_to_set keys) as H.
  { induction keys as [|k keys IH]; intros m; cbn [foldl list_to_set]; [set_solver|].
    rewrite IH, dom_insert_L. set_solver. }
  rewrite H. set_solver.
Qed.

(** Approvals given beforehand are the start of the justified ones. *)
Lemma approved_ok_start getter keys pre st :
  dom (provided_signatures st) = keys -> approved_by st = pre -> approved_ok getter keys pre st.
Proof. intros <- <-. split_and!; auto. Qed.

Section sound.
Variables (strict redundant : bool).
Variables get_active get_owner get_posting : string -> result authority.
Variable get_witness_key : string -> result Z.
Variables (depth : nat) (max_membership max_accounts : Z).
Variables active_approvals owner_approvals posting_approvals : gset string.
Hypothesis active_wf : forall a au, get_active a = Ok au -> weights_wf au.
Hypothesis owner_wf : forall a au, get_owner a = Ok au -> weights_wf au.
Hypothesis posting_wf : forall a au, get_posting a = Ok au -> weights_wf au.
Variable sigs : gset Z.

Notation lim := (limits strict depth max_membership max_accounts).
Notation active_pre := (active_approvals ∪ owner_approvals).

(** An account's posting authority is granted; before the strict mode its active
    or owner authority may stand in, their accounts still read as posting ones. *)
Definition posting_granted (id : string) : Prop :=
  granted get_posting sigs posting_approvals id \/
  strict = false /\ exists au, (get_active id = Ok au \/ get_owner id = Ok au) /\
    satisfied get_posting sigs posting_approvals au.

Definition active_granted (id : string) : Prop :=
  granted get_active sigs active_pre id \/
  strict = false /\ exists au, get_owner id = Ok au /\ satisfied get_active sigs active_pre au.

Definition owner_granted (id : string) : Prop :=
  id ∈ owner_approvals \/ exists au, get_owner id = Ok au /\ satisfied get_active sigs active_pre au.

Definition witness_granted (id : string) : Prop := exists k, get_witness_key id = Ok k /\ k ∈ sigs.

Lemma check_posting_sound id st st' v : approved_ok get_posting sigs posting_approvals st ->
  check_posting strict get_active get_owner get_posting depth max_membership max_accounts id st = Ok (st', v) ->
  approved_ok get_posting sigs posting_approvals st' /\ (v = Passed -> posting_granted id).
Proof.
  intros Hst H. unfold check_posting in H. apply test_inv in H as (b & H & Hv); [|done].
  enough (approved_ok get_posting sigs posting_approvals st' /\ (b = true -> posting_granted id)) by naive_solver.
  unfold posting_granted. destruct strict eqn:Es.
  { apply (check_authority_step _ _ posting_wf sigs posting_approvals) in H; naive_solver. }
  apply or_else_inv in H as [[H ->]|(st1 & H & Ho)].
  - apply or_else_inv in H as [[H _]|(st2 & H & Ha)].
    + apply (check_authority_step _ _ posting_wf sigs posting_approvals) in H; naive_solver.
    + apply (check_authority_step _ _ posting_wf sigs posting_approvals) in H as [Hst2 _]; [|done].
      apply bind_Ok in Ha as (au & Ea & Ha).
      apply (check_given_step _ _ posting_wf sigs posting_approvals) in Ha; naive_solver.
  - apply or_else_inv in H as [[_ [=]]|(st2 & H & Ha)].
    apply (check_authority_step _ _ posting_wf sigs posting_approvals) in H as [Hst2 _]; [|done].
    apply bind_Ok in Ha as (au & Ea & Ha).
    apply (check_given_step _ _ posting_wf sigs posting_approvals) in Ha as [Hst1 _]; [|done|by eauto].
    apply bind_Ok in Ho as (au' & Eo & Ho).
    apply (check_given_step _ _ posting_wf sigs posting_approvals) in Ho; naive_solver.
Qed.

Lemma check_active_sound id st st' v : approved_ok get_active sigs active_pre st ->
  check_active strict get_active get_owner depth max_membership max_accounts id st = Ok (st', v) ->
  approved_ok get_active sigs active_pre st' /\ (v = Passed -> active_granted id).
Proof.
  intros Hst H. unfold check_active in H. apply test_inv in H as (b & H & Hv); [|done].
  enough (approved_ok get_active sigs active_pre st' /\ (b = true -> active_granted id)) by naive_solver.
  unfold active_granted. destruct strict eqn:Es.
  { apply (check_authority_step _ _ active_wf sigs active_pre) in H; naive_solver. }
  apply or_else_inv in H as [[H ->]|(st1 & H & Ho)].
  - apply (check_authority_step _ _ active_wf sigs active_pre) in H; naive_solver.
  - apply (check_authority_step _ _ active_wf sigs active_pre) in H as [Hst1 _]; [|done].
    apply bind_Ok in Ho as (au & Eo & Ho).
    apply (check_given_step _ _ active_wf sigs active_pre) in Ho; naive_solver.
Qed.

Lemma check_owner_sound id st st' v : approved_ok get_active sigs active_pre st ->
  check_owner strict get_active get_owner depth max_membership max_accounts owner_approvals id st = Ok (st', v) ->
  approved_ok get_active sigs active_pre st' /\ (v = Passed -> owner_granted id).
Proof.
  intros Hst H. unfold check_owner in H. apply test_inv in H as (b & H & Hv); [|done].
  unfold owner_granted. destruct (bool_decide _) eqn:Eb; to_prop; [naive_solver|].
  apply bind_Ok in H as (au & Eo & H).
  apply (check_given_step _ _ active_wf sigs active_pre) in H; naive_solver.
Qed.

Lemma check_other_sound auth st st' v : weights_wf auth -> approved_ok get_active sigs active_pre st ->
  check_other strict get_active depth max_membership max_accounts auth st = Ok (st', v) ->
  approved_ok get_active sigs active_pre st' /\ (v = Passed -> satisfied get_active sigs active_pre auth).
Proof.
  intros Hw Hst H. unfold check_other in H. apply test_inv in H as (b & H & Hv); [|done].
  apply (check_given_step _ _ active_wf sigs active_pre) in H; naive_solver.
Qed.

Lemma check_witness_sound id st st' v : approved_ok get_active sigs active_pre st ->
  check_witness get_witness_key id st = Ok (st', v) ->
  approved_ok get_active sigs active_pre st' /\ (v = Passed -> witness_granted id).
Proof.
  intros Hst H. unfold check_witness, witness_granted in *. destruct (get_witness_key id) as [k|] eqn:Ek; [|naive_solver].
  apply test_inv in H as (b & H & Hv); [|done]. injection H as H.
  apply (signed_by_ok get_active active_wf sigs active_pre) in H; naive_solver.
Qed.

(** Everything a transaction requires is granted. *)
Definition all_granted (r : required_authorities_type) : Prop :=
  set_Forall posting_granted (required_posting r) /\
  set_Forall active_granted (required_active r) /\
  set_Forall owner_granted (required_owner r) /\
  set_Forall witness_granted (required_witness r) /\
  Forall (satisfied get_active sigs active_pre) (other r).

Lemma verify_rest_sound r st st' : dom (provided_signatures st) = sigs -> Forall weights_wf (other r) ->
  verify_rest strict redundant get_active get_owner get_witness_key depth max_membership max_accounts
    active_approvals owner_approvals r st = Ok (st', Passed) ->
  set_Forall active_granted (required_active r) /\ set_Forall owner_granted (required_owner r) /\
  set_Forall witness_granted (required_witness r) /\ Forall (satisfied get_active sigs active_pre) (other r).
Proof.
  intros Hd Hw H. unfold verify_rest in H.
  set (st0 := add_approved _ _) in H.
  assert (approved_ok get_active sigs active_pre st0) as Hst0.
  { apply approved_ok_start; [done|]. cbn. rewrite !list_to_set_elements_L. set_solver. }
  apply then_Passed in H as (st1 & H1 & H). apply then_Passed in H as (st2 & H2 & H).
  apply then_Passed in H as (st3 & H3 & H). apply then_Passed in H as (st4 & H4 & H).
  apply (check_each_sound (approved_ok get_active sigs active_pre) (satisfied get_active sigs active_pre)) in H1
    as [Hst1 Q1]; [|intros a s s' v Ha; apply check_other_sound; by eapply Forall_forall|done].
  apply (check_each_sound (approved_ok get_active sigs active_pre) active_granted) in H2
    as [Hst2 Q2]; [|intros a s s' v _; apply check_active_sound|done].
  apply (check_each_sound (approved_ok get_active sigs active_pre) owner_granted) in H3
    as [Hst3 Q3]; [|intros a s s' v _; apply check_owner_sound|done].
  apply (check_each_sound (approved_ok get_active sigs active_pre) witness_granted) in H4
    as [Hst4 Q4]; [|intros a s s' v _; apply check_witness_sound|done].
  rewrite Forall_forall in Q2, Q3, Q4.
  split_and!; [..|done]; intros a Ha; [apply Q2|apply Q3|apply Q4]; by apply elem_of_in_order.
Qed.

Lemma verify_impl_sound r st' : Forall weights_wf (other r) ->
  verify_authority_impl strict redundant get_active get_owner get_posting get_witness_key depth max_membership
    max_accounts active_approvals owner_approvals posting_approvals r sigs = Ok (st', Passed) -> all_granted r.
Proof.
  intros Hw H. unfold verify_authority_impl in H.
  pose proof (sign_state_init_dom (elements sigs)) as Hd. rewrite list_to_set_elements_L in Hd.
  destruct (bool_decide (required_posting r = ∅)) eqn:Ep; to_prop.
  { apply verify_rest_sound in H as (? & ? & ? & ?); [|done..]. split_and!; try done. rewrite Ep. set_solver. }
  destruct (negb strict && _) eqn:Em; [done|].
  set (st0 := add_approved _ _) in H.
  assert (approved_ok get_posting sigs posting_approvals st0) as Hst0.
  { apply approved_ok_start; [done|]. cbn. rewrite list_to_set_elements_L. set_solver. }
  apply then_Passed in H as (st1 & H1 & H).
  apply (check_each_sound (approved_ok get_posting sigs posting_approvals) posting_granted) in H1
    as [Hst1 Q1]; [|intros a s s' v _; apply check_posting_sound|done].
  assert (set_Forall posting_granted (required_posting r)) as Hp.
  { rewrite Forall_forall in Q1. intros a Ha. apply Q1. by apply elem_of_in_order. }
  apply if_cases in H as [[Es H]|[Es H]].
  - apply verify_rest_sound in H as (? & ? & ? & ?); [|apply Hst1|done]. by split_and!.
  - rewrite Es in Em. cbn [negb andb] in Em. apply negb_false_iff in Em. unfold is_empty_required in Em. to_prop.
    unfold all_granted. destruct r as [ra ro rp rw oth]. cbn in *. subst. split_and!; try done; set_solver.
Qed.

(** A transaction that passes the verification has every authority its
    operations require: each account's posting, active and owner authority, each
    explicitly given authority and each witness key is backed by the transaction's
    signatures (through satisfied accounts, or the approvals passed in); an
    active or owner authority stands in for a weaker one only outside the strict
    mode. *)
Theorem verify_authority_sound r : Forall weights_wf (other r) ->
  verify_authority strict redundant get_active get_owner get_posting get_witness_key depth max_membership
    max_accounts active_approvals owner_approvals posting_approvals r sigs = Ok tt ->
  all_granted r.
Proof.
  intros Hw H. unfold verify_authority in H. apply bind_Ok in H as ([st v] & Hi & H).
  destruct v as [|p id|auth]; [by eapply verify_impl_sound|destruct p; cbn in H; result_inv|done].
Qed.
End sound.

(** ** From the operations to the signatures *)

(** The proof-of-work operation of the mining era is the one without signers. *)
Definition is_pow (op : operation) : bool := match op with pow _ => true | _ => false end.

Section operations.
Context `{L : FcLib} `{R : RawLib} `{P : PowLib}.

(** Someone has to sign for the operation. *)
Definition needs_signer (op : operation) : Prop :=
  active_of op <> ∅ \/ owner_of op <> ∅ \/ posting_of op <> ∅ \/ witness_of op <> ∅ \/
  exists auth l, other_of op = Ok (auth :: l).

Lemma singleton_not_empty (X : gset string) a : X = {[ a ]} -> X <> ∅.
Proof. intros ->. apply non_empty_singleton_L. Qed.

Lemma set_size_pos (X : gset string) : 0 < set_size X -> X <> ∅.
Proof. unfold set_size. intros H ->. rewrite size_empty in H. lia. Qed.

Lemma set_size_nonneg (X : gset string) : 0 <= set_size X.
Proof. unfold set_size. lia. Qed.

Lemma validated_needs_signer op l : operation_validate op = Ok tt -> is_pow op = false ->
  other_of op = Ok l -> needs_signer op.
Proof.
  intros Hv Hp Ho. unfold needs_signer.
  destruct op as [o|o|o|o|o|o|o|o|o|o|o|o|o|o|o|o|o|o|o|o|o|o|o|o|o|o|o|o|o|o|o|o|o|o|o|o|o|o|o|o|o|o|o|o|o|o|o|o|o|o];
    try done;
    try (left; eapply singleton_not_empty; reflexivity);
    try (right; left; eapply singleton_not_empty; reflexivity);
    try (right; right; left; eapply singleton_not_empty; reflexivity);
    try (right; right; right; left; eapply singleton_not_empty; reflexivity);
    try (right; right; right; right; eexists _, _; reflexivity).
  - cbn. unfold account_update_operation.get_required_active_authorities,
      account_update_operation.get_required_owner_authorities.
    destruct (account_update_operation.owner o); [right|]; left; apply non_empty_singleton_L.
  - cbn in Hv. unfold custom_operation.validate in Hv. validated. to_prop. left. cbn.
    by apply set_size_pos.
  - cbn in Hv. unfold custom_json_operation.validate in Hv. validated. to_prop. cbn.
    unfold custom_json_operation.get_required_active_authorities, custom_json_operation.get_required_posting_authorities.
    destruct (decide (0 < set_size (custom_json_operation.required_auths o))); [left; by apply set_size_pos|].
    right; right; left. apply set_size_pos. lia.
  - cbn. unfold pow2_operation.get_required_active_authorities, pow2_operation.get_required_authorities.
    destruct (pow2_operation.new_owner_key o); [|left; apply non_empty_singleton_L].
    right; right; right; right. eauto.
  - cbn in Hv. unfold custom_binary_operation.validate in Hv. validated. to_prop. cbn.
    unfold custom_binary_operation.get_required_active_authorities, custom_binary_operation.get_required_posting_authorities,
      custom_binary_operation.get_required_owner_authorities.
    destruct (decide (0 < set_size (custom_binary_operation.required_active_auths o))); [left; by apply set_size_pos|].
    destruct (decide (0 < set_size (custom_binary_operation.required_owner_auths o))); [right; left; by apply set_size_pos|].
    right; right; left. apply set_size_pos. lia.
  - cbn in Ho |- *. unfold witness_set_properties_operation.get_required_authorities in *.
    right; right; right; right. destruct (_ !! _); result_inv; eauto.
    match goal with E : unpack_public_key _ = _ |- _ => rewrite E end. simpl. eauto.
  - cbn. unfold account_update2_operation.get_required_active_authorities,
      account_update2_operation.get_required_owner_authorities, account_update2_operation.get_required_posting_authorities.
    destruct (account_update2_operation.has (account_update2_operation.owner o)) eqn:Eo;
      [right; left; apply non_empty_singleton_L|]. cbn [negb andb orb].
    destruct (_ || _); [left|right; right; left]; apply non_empty_singleton_L.
Qed.

(** The requirements of each operation end up in the collected ones. *)
Definition covers (r : required_authorities_type) (op : operation) : Prop :=
  active_of op ⊆ required_active r /\ owner_of op ⊆ required_owner r /\ posting_of op ⊆ required_posting r /\
  witness_of op ⊆ required_witness r /\ exists l, other_of op = Ok l /\ l ⊆ other r.

Definition grows (r r' : required_authorities_type) : Prop :=
  required_active r ⊆ required_active r' /\ required_owner r ⊆ required_owner r' /\
  required_posting r ⊆ required_posting r' /\ required_witness r ⊆ required_witness r' /\ other r ⊆ other r'.

#[local] Instance grows_preorder : PreOrder grows.
Proof.
  split; [by intros r; split_and!|]. intros r1 r2 r3 (?&?&?&?&?) (?&?&?&?&?).
  split_and!; by etrans.
Qed.

Lemma covers_grows r r' op : covers r op -> grows r r' -> covers r' op.
Proof.
  intros (?&?&?&?&l&?&?) (?&?&?&?&?). repeat split; try (by etrans). exists l. split; [done|by etrans].
Qed.

Lemma visit_covers r r' op : operation_get_required_authorities r op = Ok r' -> covers r' op /\ grows r r'.
Proof.
  intros H. unfold operation_get_required_authorities in H. apply bind_Ok in H as (oth & Ho & [= <-]).
  split; split_and!; cbn; set_solver.
Qed.

Lemma visit_all_covers ops r r' :
  foldM operation_get_required_authorities r ops = Ok r' -> Forall (covers r') ops /\ grows r r'.
Proof.
  revert r. induction ops as [|op ops IH]; intros r H; cbn [foldM] in H.
  { injection H as <-. by split. }
  destruct (operation_get_required_authorities r op) as [r1|] eqn:E; [|done].
  apply visit_covers in E as [Hc Hg]. apply IH in H as [HF Hg'].
  split; [|by etrans]. constructor; [by eapply covers_grows|done].
Qed.

(** What signs for an operation: every authority it asks for is granted, and it
    asks for at least one. *)
Definition authorised (ga go gp : string -> result authority) (gw : string -> result Z) (sigs : gset Z)
    (op : operation) : Prop :=
  set_Forall (granted gp sigs ∅) (posting_of op) /\
  set_Forall (granted ga sigs ∅) (active_of op) /\
  set_Forall (fun id => exists au, go id = Ok au /\ satisfied ga sigs ∅ au) (owner_of op) /\
  set_Forall (witness_granted gw sigs) (witness_of op) /\
  (exists l, other_of op = Ok l /\ Forall (satisfied ga sigs ∅) l) /\
  (is_pow op = false -> needs_signer op).

Lemma covered_authorised ga go gp gw sigs r op :
  operation_validate op = Ok tt -> covers r op ->
  all_granted true ga go gp gw ∅ ∅ ∅ sigs r -> authorised ga go gp gw sigs op.
Proof.
  intros Hv (Ca & Co & Cp & Cw & l & El & Cl) (Gp & Ga & Go & Gw & Goth).
  unfold posting_granted, active_granted, owner_granted in *. rewrite (union_empty_l_L ∅) in *.
  split_and!.
  - intros a Ha. by destruct (Gp a (Cp a Ha)) as [?|[[=] _]].
  - intros a Ha. by destruct (Ga a (Ca a Ha)) as [?|[[=] _]].
  - intros a Ha. destruct (Go a (Co a Ha)) as [?|?]; [set_solver|done].
  - intros a Ha. apply Gw. by apply Cw.
  - exists l. split; [done|]. apply Forall_forall. intros au Hau. rewrite Forall_forall in Goth. apply Goth. by apply Cl.
  - intros Hp. by eapply validated_needs_signer.
Qed.

(** No operation takes effect unsigned: in a transaction that validates and
    whose collected authorities verify in the strict mode (in force since
    hardfork 28), every operation is authorised by the signatures: each account
    it names in a role has that role's authority satisfied, and apart from the
    obsolete proof of work every operation names at least one. *)
Theorem transaction_authorised ga go gp gw redundant depth max_membership max_accounts ops r sigs :
  (forall a au, ga a = Ok au \/ go a = Ok au \/ gp a = Ok au -> weights_wf au) -> Forall weights_wf (other r) ->
  transaction_validate ops = Ok tt ->
  get_required_authorities ops = Ok r ->
  verify_authority true redundant ga go gp gw depth max_membership max_accounts ∅ ∅ ∅ r sigs = Ok tt ->
  ops <> [] /\ Forall (authorised ga go gp gw sigs) ops.
Proof.
  intros Hwf Hw Hv Hr H. unfold verify_authority in H. apply bind_Ok in H as ([st v] & Hi & H).
  destruct v as [|p id|auth]; [|destruct p; cbn in H; result_inv|done].
  apply verify_impl_sound in Hi; [|by eauto..].
  unfold transaction_validate in Hv. rewrite check_bind_Ok in Hv. destruct Hv as [Hn Hv].
  split; [intros ->; done|]. apply iterM_Ok in Hv. apply visit_all_covers in Hr as [Hc _].
  apply Forall_forall. intros op Hop. rewrite Forall_forall in Hv, Hc. eapply covered_authorised; eauto.
Qed.
End operations.

(** The two front ends agree: [has_authorization] answers yes exactly when
    [verify_authority] with the default limits and no approvals does not throw. *)
Theorem has_authorization_agrees strict redundant r sigs ga go gp gw :
  has_authorization strict redundant r sigs ga go gp gw = Ok true <->
  verify_authority strict redundant ga go gp gw (Z.to_nat HIVE_MAX_SIG_CHECK_DEPTH)
    HIVE_MAX_AUTHORITY_MEMBERSHIP HIVE_MAX_SIG_CHECK_ACCOUNTS ∅ ∅ ∅ r sigs = Ok tt.
Proof.
  unfold has_authorization, verify_authority.
  destruct (verify_authority_impl _ _ _ _ _ _ _ _ _ _ _ _ _ _) as [[st v]|e]; [|done]. cbn [mbind result_bind].
  destruct v as [|p id|auth]; split; intros H; try done. destruct p; cbn in H; result_inv.
Qed.

(** ** A signed transaction *)

Module Sample.
Definition raw_none : RawLib := {|
  unpack_asset _ := Throw ParseError;
  unpack_u32 _ := Throw ParseError;
  unpack_u16 _ := Throw ParseError;
  unpack_i32 _ := Throw ParseError;
  unpack_price _ := Throw ParseError;
  unpack_string _ := Throw ParseError;
  unpack_public_key _ := Throw ParseError
|}.
Definition pow_none : PowLib := {|
  hash_block_id _ := [0; 0; 0; 0];
  hash_sha256 x := x;
  hash_pow2_input _ := [0; 0; 0; 0];
  hash_inputs _ := [0; 0; 0; 0];
  approx_log_32 _ := 0;
  equihash_is_valid _ := false
|}.

(** Alice pays Bob and votes for his post; she and Bob have the authorities of
    the multi-signature sample in every role. *)
Definition ops : list operation :=
  [transfer (transfer_operation.mk "alice" "bob" (mk_asset 5 HIVE_SYMBOL) "hi");
   vote (vote_operation.mk "alice" "bob" "post" 10000)].
Definition required : required_authorities_type := mk_required {[ "alice" ]} ∅ {[ "alice" ]} ∅ [].
Definition witness_key (_ : string) : result Z := Ok 7.
Definition sigs : gset Z := {[ 7; 9 ]}.

Lemma getters_wf a au : Authority.Sample.getter a = Ok au \/ Authority.Sample.getter a = Ok au \/
  Authority.Sample.getter a = Ok au -> weights_wf au.
Proof. intros [?|[?|?]]; by eapply Authority.Sample.weights_wf_sample. Qed.

(** One key alone does not reach the threshold, a third key is refused. *)
Example sample_verifications :
  let verify := verify_authority true false Authority.Sample.getter Authority.Sample.getter Authority.Sample.getter
    witness_key 2 40 125 ∅ ∅ ∅ required in
  verify {[ 7; 9 ]} = Ok tt /\ verify {[ 7 ]} = Throw MissingPostingAuth /\ verify {[ 7; 9; 11 ]} = Throw IrrelevantSig.
Proof. split_and!; vm_compute; reflexivity. Qed.

Lemma verify_authority_sound_witness :
  all_granted true Authority.Sample.getter Authority.Sample.getter Authority.Sample.getter witness_key ∅ ∅ ∅ sigs required.
Proof.
  refine (verify_authority_sound true false _ _ _ witness_key 2 40 125 ∅ ∅ ∅
    Authority.Sample.weights_wf_sample Authority.Sample.weights_wf_sample Authority.Sample.weights_wf_sample
    sigs required _ _).
  - constructor.
  - vm_compute. reflexivity.
Defined.

Lemma transaction_authorised_witness :
  ops <> [] /\
  Forall (authorised (R := raw_none) Authority.Sample.getter Authority.Sample.getter Authority.Sample.getter witness_key sigs) ops.
Proof.
  refine (transaction_authorised (L := fc_ref) (R := raw_none) (P := pow_none) _ _ _ witness_key
    false 2 40 125 ops required sigs getters_wf _ _ _ _).
  - constructor.
  - vm_compute. reflexivity.
  - vm_compute. reflexivity.
  - vm_compute. reflexivity.
Defined.
End Sample.
