(* ===== verification/Version.v ===== *)
(** * Versions

    Models libraries/protocol/include/hive/protocol/version.hpp and the
    constructor of version.cpp: versions packed into 32 bits, hardfork
    versions, and their comparison, which relates the majors 0 and 1. *)

From stdpp Require Import base numbers.
From S2P Require Import Prelude.
Open Scope Z_scope.

Record version : Set := mk_version { v_num : Z }.

(** [version( m, h, r )]; the arguments are 8, 8 and 16 bits wide. *)
Definition make_version (m h r : Z) : version :=
  let v := u32 (Z.shiftl (Z.lor 0 m) 8) in
  let v := u32 (Z.shiftl (Z.lor v h) 16) in
  mk_version (Z.lor v r).

Definition major_v (v : version) : Z := Z.shiftr (Z.land (v_num v) 0xFF000000) 24.
Definition minor_v (v : version) : Z := Z.shiftr (Z.land (v_num v) 0x00FF0000) 16.
Definition rev_v (v : version) : Z := Z.land (v_num v) 0x0000FFFF.

Inductive operator_type : Set := equal | not_equal | less | less_equal | greater | greater_equal.

Definition apply_operator (op : operator_type) (x y : Z) : bool :=
  match op with
  | equal => x =? y
  | not_equal => negb (x =? y)
  | less => x <? y
  | less_equal => x <=? y
  | greater => y <? x
  | greater_equal => y <=? x
  end.

(** [_operator]: the other version is adjusted when the majors are 0 and 1. *)
Definition _operator (op : operator_type) (this : version) (val : Z) (val_call : Z -> Z) : bool :=
  let _val := Z.shiftr (Z.land val 0xFF000000) 24 in
  let val := if (major_v this =? 0) && (_val =? 1) then Z.land val 0x00FFFFFF
             else if (major_v this =? 1) && (_val =? 0) then Z.land val 0x01FFFFFF
             else val in
  apply_operator op (v_num this) (val_call val).

Definition version_op (op : operator_type) (a b : version) : bool := _operator op a (v_num b) (fun v => v).

(** [hardfork_version]: a version without its release number. *)
Definition hardfork_of (v : version) : version := mk_version (Z.land (v_num v) 0xFFFF0000).
Definition make_hardfork_version (m h : Z) : version := make_version m h 0.
Definition hardfork_op (op : operator_type) (a b : version) : bool := _operator op a (v_num b) (fun v => v).
Definition hardfork_version_op (op : operator_type) (a b : version) : bool :=
  _operator op a (v_num b) (fun v => Z.land v 0xFFFF0000).

(** ** Fields *)

Definition field_ok (m h r : Z) : Prop := 0 <= m < 2 ^ 8 /\ 0 <= h < 2 ^ 8 /\ 0 <= r < 2 ^ 16.

Lemma lor_disjoint_add a n b : 0 <= n -> 0 <= b < 2 ^ n -> Z.lor (a * 2 ^ n) b = a * 2 ^ n + b.
Proof.
  intros Hn Hb. rewrite <- Z.add_lor_land.
  assert (Z.land (a * 2 ^ n) b = 0) as ->; [|lia].
  apply Z.bits_inj'. intros i Hi. rewrite Z.land_spec, Z.bits_0, <- Z.shiftl_mul_pow2, Z.shiftl_spec by lia.
  destruct (Z.lt_ge_cases i n).
  - rewrite (Z.testbit_neg_r a) by lia. done.
  - destruct (Z.eq_dec b 0) as [->|]; [by rewrite Z.bits_0, andb_false_r|].
    rewrite (Z.bits_above_log2 b i); [by rewrite andb_false_r|lia|].
    assert (Z.log2 b < n); [|lia]. apply Z.log2_lt_pow2; lia.
Qed.

Lemma make_version_num m h r : field_ok m h r -> v_num (make_version m h r) = m * 2 ^ 24 + h * 2 ^ 16 + r.
Proof.
  intros (Hm & Hh & Hr). unfold make_version. cbn [v_num].
  rewrite Z.lor_0_l, (Z.shiftl_mul_pow2 m 8) by lia. rewrite (uwrap_id 32 (m * 2 ^ 8)) by (unfold in_u; lia).
  rewrite lor_disjoint_add by lia. rewrite Z.shiftl_mul_pow2 by lia. rewrite uwrap_id by (unfold in_u; lia).
  rewrite lor_disjoint_add by lia. lia.
Qed.

(** A contiguous field of bits, by division. *)
Lemma land_field x k n : 0 <= k -> 0 <= n ->
  Z.shiftr (Z.land x (Z.shiftl (Z.ones n) k)) k = (x / 2 ^ k) mod 2 ^ n.
Proof.
  intros Hk Hn. rewrite Z.shiftr_land, Z.shiftr_shiftl_l, Z.sub_diag, Z.shiftl_0_r by lia.
  rewrite Z.land_ones, Z.shiftr_div_pow2 by lia. done.
Qed.

Lemma fields_of m h r : field_ok m h r ->
  let v := make_version m h r in major_v v = m /\ minor_v v = h /\ rev_v v = r.
Proof.
  intros H v. pose proof H as (Hm & Hh & Hr). unfold v, major_v, minor_v, rev_v. rewrite make_version_num by done.
  change 0xFF000000 with (Z.shiftl (Z.ones 8) 24). change 0x00FF0000 with (Z.shiftl (Z.ones 8) 16).
  rewrite !land_field by lia. change 0x0000FFFF with (Z.ones 16). rewrite Z.land_ones by lia.
  split_and!; Z.to_euclidean_division_equations; lia.
Qed.

Lemma major_num v : Z.shiftr (Z.land (v_num v) 0xFF000000) 24 = major_v v.
Proof. done. Qed.

(** ** Comparison *)

(** The three fields of a version survive its packing into 32 bits. *)
Theorem version_fields_roundtrip m h r : field_ok m h r ->
  let v := make_version m h r in
  major_v v = m /\ minor_v v = h /\ rev_v v = r /\ in_u 32 (v_num v).
Proof.
  intros H v. destruct (fields_of m h r H) as (E1 & E2 & E3). do 3 (split; [done|]).
  unfold v, in_u. rewrite make_version_num by done. destruct H as (? & ? & ?). lia.
Qed.

(** Versions of one major are ordered by hardfork, then by release. *)
Theorem version_order_same_major m h r h' r' : field_ok m h r -> field_ok m h' r' ->
  version_op less (make_version m h r) (make_version m h' r') = true <-> h < h' \/ (h = h' /\ r < r').
Proof.
  intros H H'. destruct (fields_of m h r H) as (E1 & _). destruct (fields_of m h' r' H') as (E1' & _).
  unfold version_op, _operator. rewrite major_num, E1, E1'.
  replace ((m =? 0) && (m =? 1)) with false by (destruct (m =? 0) eqn:E, (m =? 1) eqn:E'; to_prop; (done || lia)).
  replace ((m =? 1) && (m =? 0)) with false by (destruct (m =? 0) eqn:E, (m =? 1) eqn:E'; to_prop; (done || lia)).
  cbn [apply_operator]. rewrite !make_version_num by done. rewrite Z.ltb_lt.
  destruct H as (? & ? & ?), H' as (? & ? & ?). lia.
Qed.

(** The equality of a 0-version with the 1-version of the same hardfork and
    release holds, as documented, but the converse comparison, which the
    comments promise as well, never does: [operator==] is not symmetric. *)
Theorem version_equality_not_symmetric h r : field_ok 0 h r ->
  version_op equal (make_version 0 h r) (make_version 1 h r) = true /\
  version_op equal (make_version 1 h r) (make_version 0 h r) = false.
Proof.
  intros H. assert (field_ok 1 h r) as H1 by (destruct H as (? & ? & ?); unfold field_ok; lia).
  destruct (fields_of 0 h r H) as (E0 & _). destruct (fields_of 1 h r H1) as (E1 & _).
  unfold version_op, _operator. rewrite !major_num, E0, E1. cbn [Z.eqb andb apply_operator].
  change (Pos.eqb 1 1) with true. cbn iota. rewrite !make_version_num by done.
  change 0x00FFFFFF with (Z.ones 24). change 0x01FFFFFF with (Z.ones 25). rewrite !Z.land_ones by lia.
  destruct H as (? & ? & ?). rewrite Z.eqb_eq, Z.eqb_neq. cbn [andb]. split; Z.to_euclidean_division_equations; lia.
Qed.

Lemma version_fields_roundtrip_witness :
  major_v (make_version 1 28 3) = 1 /\ minor_v (make_version 1 28 3) = 28 /\ rev_v (make_version 1 28 3) = 3 /\
  in_u 32 (v_num (make_version 1 28 3)).
Proof. refine (version_fields_roundtrip 1 28 3 _). unfold field_ok. lia. Defined.

Lemma version_order_same_major_witness :
  version_op less (make_version 1 27 9) (make_version 1 28 0) = true <-> 27 < 28 \/ (27 = 28 /\ 9 < 0).
Proof. refine (version_order_same_major 1 27 9 28 0 _ _); unfold field_ok; lia. Defined.

Lemma version_equality_not_symmetric_witness :
  version_op equal (make_version 0 24 0) (make_version 1 24 0) = true /\
  version_op equal (make_version 1 24 0) (make_version 0 24 0) = false.
Proof. refine (version_equality_not_symmetric 24 0 _). unfold field_ok. lia. Defined.
