(* ===== verification/DelayedVoting.v ===== *)
(** * Delayed voting power

    Models libraries/chain/include/hive/chain/util/delayed_voting_processor.hpp
    and libraries/chain/util/delayed_voting.cpp: the queue of daily vesting
    amounts of an account that do not vote yet, their maturation after thirty
    days ([run]) and their removal on withdrawal ([update_votes]). *)

From Stdlib Require Import Sorted.
From stdpp Require Import base numbers strings option list gmap.
From S2P Require Import Prelude Fc Config.
Open Scope Z_scope.

(** ** The queue of one account *)

Record delayed_votes_data : Set := mk_dv { time : Z; val : Z }.

Record account_votes : Set := mk_votes {
  delayed_votes : list delayed_votes_data;
  sum_delayed_votes : Z
}.

Section processor.
Context `{L : FcLib}.

(** Writing through [items.back()]. *)
Definition set_back (b : delayed_votes_data) (items : list delayed_votes_data) : list delayed_votes_data :=
  removelast items ++ [b].

Definition add (head_time v : Z) (a : account_votes) : result account_votes :=
  if v =? 0 then Ok a
  else match last (delayed_votes a) with
  | None =>
      sum ← usafe_add (sum_delayed_votes a) v;
      Ok (mk_votes [mk_dv head_time v] sum)
  | Some back =>
      _ ← check (time back <=? head_time) AssertFc;
      sum ← usafe_add (sum_delayed_votes a) v;
      if time back + HIVE_DELAYED_VOTING_INTERVAL_SECONDS <=? head_time
      then Ok (mk_votes (delayed_votes a ++ [mk_dv head_time v]) sum)
      else
        bv ← usafe_add (val back) v;
        Ok (mk_votes (set_back (mk_dv (time back) bv) (delayed_votes a)) sum)
  end.

Definition erase_front (a : account_votes) : result account_votes :=
  match delayed_votes a with
  | front :: rest =>
      _ ← check (val front <=? sum_delayed_votes a) AssertFc;
      sum ← usafe_sub (sum_delayed_votes a) (val front);
      Ok (mk_votes rest sum)
  | [] => _ ← check (sum_delayed_votes a =? 0) AssertFc; Ok a
  end.

(** The loop of [erase] that removes from the back.  Reading the back of an
    empty queue is undefined: [None]. *)
Fixpoint erase_back (fuel : nat) (items : list delayed_votes_data) (count : Z) :
    option (result (list delayed_votes_data)) :=
  match fuel with
  | O => None
  | S fuel =>
      match last items with
      | None => None
      | Some obj =>
          if val obj <=? count then
            match usafe_sub count (val obj) with
            | Ok count => erase_back fuel (removelast items) count
            | Throw e => Some (Throw e)
            end
          else
            match usafe_sub (val obj) count with
            | Ok v => Some (Ok (set_back (mk_dv (time obj) v) items))
            | Throw e => Some (Throw e)
            end
      end
  end.

Definition erase (count : Z) (a : account_votes) : option (result account_votes) :=
  if count =? 0 then Some (Ok a)
  else if negb (count <=? sum_delayed_votes a) then Some (Throw AssertFc)
  else if sum_delayed_votes a =? count then Some (Ok (mk_votes [] 0))
  else
    match usafe_sub (sum_delayed_votes a) count with
    | Throw e => Some (Throw e)
    | Ok sum =>
        match erase_back (S (length (delayed_votes a))) (delayed_votes a) count with
        | None => None
        | Some (Throw e) => Some (Throw e)
        | Some (Ok items) => Some (Ok (mk_votes items sum))
        end
    end.

Definition erase_delayed_value (v : Z) (a : account_votes) : option (result account_votes) :=
  if sum_delayed_votes a =? 0 then Some (Ok a) else erase v a.
End processor.

(** ** All accounts *)

(** The accounts by id; [matured] records the votes handed over to
    [adjust_proxied_witness_votes], in order. *)
Record votes_db : Set := mk_db {
  accounts : list (Z * account_votes);
  matured : list (Z * Z)
}.

Definition set_account (i : Z) (a : account_votes) (l : list (Z * account_votes)) : list (Z * account_votes) :=
  (fun x : Z * account_votes => if x.1 =? i then (i, a) else x) <$> l.

(** The front of the [by_delayed_voting] index: the account with the oldest
    delayed vote, the lower id first. *)
Definition older (x y : Z * (Z * Z)) : bool :=
  (x.2.1 <? y.2.1) || ((x.2.1 =? y.2.1) && (x.1 <? y.1)).
Fixpoint oldest (l : list (Z * account_votes)) : option (Z * (Z * Z)) :=
  match l with
  | [] => None
  | (i, a) :: l' =>
      match delayed_votes a, oldest l' with
      | [], o => o
      | d :: _, None => Some (i, (time d, val d))
      | d :: _, Some o => if older (i, (time d, val d)) o then Some (i, (time d, val d)) else Some o
      end
  end.

Definition find_account (i : Z) (l : list (Z * account_votes)) : option account_votes :=
  option_map snd (List.find (fun x => x.1 =? i) l).

Section database.
Context `{L : FcLib}.

(** [run]: every round matures one entry. *)
Fixpoint run (fuel : nat) (head_time : Z) (s : votes_db) : option (result votes_db) :=
  match fuel with
  | O => None
  | S fuel =>
      match oldest (accounts s) with
      | None => Some (Ok s)
      | Some (i, (t, v)) =>
          if t + HIVE_DELAYED_VOTING_TOTAL_INTERVAL_SECONDS <=? head_time then
            match find_account i (accounts s) with
            | None => Some (Throw AssertFc)
            | Some a =>
                match erase_front a with
                | Throw e => Some (Throw e)
                | Ok a => run fuel head_time (mk_db (set_account i a (accounts s)) (matured s ++ [(i, v)]))
                end
            end
          else Some (Ok s)
      end
  end.

Definition pending_entries (l : list (Z * account_votes)) : nat :=
  foldr (fun x n => (length (delayed_votes x.2) + n)%nat) O l.

Definition delayed_voting_run (head_time : Z) (s : votes_db) : option (result votes_db) :=
  run (S (pending_entries (accounts s))) head_time s.

(** *** Pending changes of voting power *)

Record votes_update_data : Set := mk_update { withdraw_executor : bool; upd_val : Z; account : Z }.

(** [std::set::find]/[emplace] in the set ordered by account id. *)
Fixpoint add_votes_sorted (d : votes_update_data) (items : list votes_update_data) :
    result (list votes_update_data) :=
  match items with
  | [] => Ok [d]
  | x :: items' =>
      if account d <? account x then Ok (d :: items)
      else if account d =? account x then
        _ ← check (Bool.eqb (withdraw_executor x) (withdraw_executor d)) AssertFc;
        v ← safe_add (upd_val x) (upd_val d);
        Ok (mk_update (withdraw_executor x) v (account x) :: items')
      else r ← add_votes_sorted d items'; Ok (x :: r)
  end.

Definition add_votes (items : option (list votes_update_data)) (executor : bool) (v i : Z) :
    result (option (list votes_update_data)) :=
  match items with
  | None => Ok None
  | Some l => if v =? 0 then Ok (Some l) else r ← add_votes_sorted (mk_update executor v i) l; Ok (Some r)
  end.

(** One item of [update_votes]; the second component is [res]. *)
Definition update_item (head_time : Z) (st : list (Z * account_votes) * Z) (item : votes_update_data) :
    option (result (list (Z * account_votes) * Z)) :=
  let '(accts, res) := st in
  if negb ((negb (withdraw_executor item) && (0 <? upd_val item))
           || (withdraw_executor item && (upd_val item <=? 0))) then Some (Throw AssertFc)
  else if upd_val item =? 0 then Some (Ok st)
  else match find_account (account item) accts with
  | None => Some (Throw AssertFc)
  | Some a =>
      if 0 <? upd_val item then
        Some (a ← add head_time (upd_val item) a; Ok (set_account (account item) a accts, res))
      else
        let abs_val := u64 (- upd_val item) in
        let '(cut, res) :=
          if sum_delayed_votes a <=? abs_val then (sum_delayed_votes a, abs_val - sum_delayed_votes a)
          else (abs_val, res) in
        option_map (fun r => a ← r; Ok (set_account (account item) a accts, res)) (erase_delayed_value cut a)
  end.

Fixpoint update_items (head_time : Z) (items : list votes_update_data) (st : list (Z * account_votes) * Z) :
    option (result (list (Z * account_votes) * Z)) :=
  match items with
  | [] => Some (Ok st)
  | i :: items =>
      match update_item head_time st i with
      | Some (Ok st) => update_items head_time items st
      | r => r
      end
  end.

Definition update_votes (items : option (list votes_update_data)) (head_time : Z)
    (accts : list (Z * account_votes)) : option (result (list (Z * account_votes) * option Z)) :=
  match items with
  | None => Some (Ok (accts, None))
  | Some l => option_map (fun r => '(accts, res) ← r; Ok (accts, Some res)) (update_items head_time l (accts, 0))
  end.
End database.

(** ** Invariant of a queue *)

Definition day : Z := HIVE_DELAYED_VOTING_INTERVAL_SECONDS.
Definition spaced (x y : delayed_votes_data) : Prop := time x + day <= time y.

Record votes_ok (a : account_votes) : Prop := {
  ok_sum : sum_delayed_votes a = sumZ val (delayed_votes a);
  ok_fits : sum_delayed_votes a < 2 ^ 64;
  ok_pos : Forall (fun d => 0 < val d) (delayed_votes a);
  ok_spaced : StronglySorted spaced (delayed_votes a)
}.

Section queue.
Context `{L : FcLib} `{!FcLaws L}.

Lemma sum_pos l : Forall (fun d => 0 < val d) l -> 0 <= sumZ val l.
Proof. intros H. apply sumZ_nonneg. eapply Forall_impl; [exact H|]. cbn. lia. Qed.

Lemma last_split {A} (l : list A) x : last l = Some x -> l = removelast l ++ [x].
Proof.
  intros H. apply last_Some in H as [l' ->]. by rewrite removelast_last.
Qed.

Lemma sorted_snoc {A} (R : A -> A -> Prop) l x :
  StronglySorted R (l ++ [x]) <-> StronglySorted R l /\ Forall (fun y => R y x) l.
Proof.
  induction l as [|y l IH]; cbn.
  - split; [by repeat constructor|intros; repeat constructor].
  - split.
    + intros H. inversion H as [|? ? Hs Hf]; subst. apply IH in Hs as [Hs Hl].
      apply Forall_app in Hf as [Hf1 Hf2]. inversion Hf2; subst. split; constructor; auto.
    + intros [Hs Hl]. inversion Hs; inversion Hl; subst. constructor; [by apply IH|].
      apply Forall_app. split; [done|by constructor].
Qed.

Lemma spaced_trans_last l back h : StronglySorted spaced (l ++ [back]) -> time back + day <= h ->
  Forall (fun y => time y + day <= h) (l ++ [back]).
Proof.
  intros Hs Hb. apply sorted_snoc in Hs as [_ Hf]. apply Forall_app. split; [|by constructor].
  eapply Forall_impl; [exact Hf|]. intros y Hy. unfold spaced in Hy.
  change day with 86400 in *. lia.
Qed.

Lemma add_value head v a : votes_ok a -> 0 < v -> sum_delayed_votes a + v < 2 ^ 64 ->
  (forall d, last (delayed_votes a) = Some d -> time d <= head) ->
  exists a', add head v a = Ok a' /\ votes_ok a' /\ sum_delayed_votes a' = sum_delayed_votes a + v.
Proof.
  intros [Hs Hf Hp Hsp] Hv Hfit Hlast. unfold add. rewrite (proj2 (Z.eqb_neq v 0)) by lia.
  pose proof (sum_pos _ Hp) as Hnn. rewrite <- Hs in Hnn.
  destruct (last (delayed_votes a)) as [back|] eqn:El.
  - specialize (Hlast back eq_refl). rewrite (proj2 (Z.leb_le (time back) head)) by lia. cbn [check mbind result_bind].
    rewrite (usafe_add_exact (sum_delayed_votes a) v) by (unfold in_u; lia). cbn [mbind result_bind].
    pose proof (last_split _ _ El) as Eq. set (l := removelast (delayed_votes a)) in *.
    rewrite Eq in Hp, Hsp, Hs. apply Forall_app in Hp as [Hp1 Hp2]. inversion Hp2 as [|? ? Hb]; subst.
    rewrite sumZ_app in Hs. pose proof (sum_pos _ Hp1). cbn in Hs.
    destruct (_ <=? head) eqn:Ei; to_prop.
    + eexists. split; [done|]. split; [|done]. constructor; cbn [delayed_votes sum_delayed_votes].
      * rewrite Eq, sumZ_app, sumZ_app. cbn. lia.
      * lia.
      * rewrite Eq. apply Forall_app. split; [by apply Forall_app|by constructor].
      * rewrite Eq. apply sorted_snoc. split; [done|]. by apply spaced_trans_last.
    + rewrite usafe_add_exact by (unfold in_u; lia). cbn [mbind result_bind].
      eexists. split; [done|]. split; [|done]. unfold set_back. fold l.
      constructor; cbn [delayed_votes sum_delayed_votes].
      * rewrite sumZ_app. cbn. lia.
      * lia.
      * apply Forall_app. split; [done|]. constructor; [cbn; lia|done].
      * apply sorted_snoc in Hsp as [H1 H2]. by apply sorted_snoc.
  - apply last_None in El. rewrite usafe_add_exact by (unfold in_u; lia). cbn [mbind result_bind].
    eexists. split; [done|]. split; [|done]. rewrite El in Hs. cbn in Hs.
    constructor; cbn; [lia|lia|by constructor|repeat constructor].
Qed.

Lemma erase_front_value a d rest : votes_ok a -> delayed_votes a = d :: rest ->
  exists a', erase_front a = Ok a' /\ votes_ok a' /\ delayed_votes a' = rest /\
    sum_delayed_votes a' = sum_delayed_votes a - val d.
Proof.
  intros [Hs Hf Hp Hsp] Eq. unfold erase_front. rewrite Eq in *.
  apply Forall_cons in Hp as [Hd Hp]. pose proof (sum_pos _ Hp). rewrite sumZ_cons in Hs.
  rewrite (proj2 (Z.leb_le _ _)) by lia. cbn [check mbind result_bind].
  rewrite usafe_sub_exact by (unfold in_u; lia). cbn [mbind result_bind].
  inversion Hsp; subst. eexists. split; [done|]. cbn [delayed_votes sum_delayed_votes].
  split_and!; auto. constructor; cbn [delayed_votes sum_delayed_votes]; auto; lia.
Qed.

(** What is left of a queue after cutting [count] votes from its back. *)
Definition cut_back (items items' : list delayed_votes_data) (count : Z) : Prop :=
  exists l obj gone v, items = l ++ obj :: gone /\ items' = l ++ [mk_dv (time obj) v] /\
    0 < v <= val obj /\ val obj - v + sumZ val gone = count.

Lemma erase_back_value fuel items count : Forall (fun d => 0 < val d) items -> sumZ val items < 2 ^ 64 ->
  0 <= count < sumZ val items -> (length items < fuel)%nat ->
  exists items', erase_back fuel items count = Some (Ok items') /\ cut_back items items' count.
Proof.
  revert items count. induction fuel as [|fuel IH]; intros items count Hp Hfit Hc Hf; [lia|]. cbn [erase_back].
  destruct (last items) as [obj|] eqn:El.
  2: { apply last_None in El as ->. cbn in Hc. lia. }
  pose proof (last_split _ _ El) as Eq. set (l := removelast items) in *. rewrite Eq in Hp, Hfit, Hc, Hf.
  apply Forall_app in Hp as [Hp1 Hp2]. apply Forall_cons in Hp2 as [Hb _].
  rewrite sumZ_app in Hfit, Hc. pose proof (sum_pos _ Hp1). cbn in Hfit, Hc. rewrite length_app in Hf. cbn in Hf.
  destruct (val obj <=? count) eqn:E; to_prop.
  - rewrite usafe_sub_exact by (unfold in_u; lia).
    destruct (IH l (count - val obj)) as (items' & Hr & (l0 & o & gone & v & E1 & E2 & E3 & E4)); [done|lia|lia|lia|].
    exists items'. split; [done|]. exists l0, o, (gone ++ [obj]), v. split_and!; auto; [|by lia|by lia|].
    + rewrite Eq, E1. by rewrite <- app_assoc.
    + rewrite sumZ_app. cbn. lia.
  - rewrite usafe_sub_exact by (unfold in_u; lia). eexists. split; [done|].
    exists l, obj, [], (val obj - count). split_and!; auto; cbn; lia.
Qed.

Lemma cut_back_ok items items' count : Forall (fun d => 0 < val d) items -> StronglySorted spaced items ->
  cut_back items items' count ->
  Forall (fun d => 0 < val d) items' /\ StronglySorted spaced items' /\ sumZ val items' = sumZ val items - count.
Proof.
  intros Hp Hs (l & obj & gone & v & -> & -> & Hv & Hc).
  apply Forall_app in Hp as [Hp1 _]. rewrite !sumZ_app, !sumZ_cons. split_and!.
  - apply Forall_app. split; [done|]. constructor; [cbn; lia|done].
  - replace (l ++ obj :: gone) with ((l ++ [obj]) ++ gone) in Hs by (by rewrite <- app_assoc).
    assert (StronglySorted spaced (l ++ [obj])) as Hs1.
    { clear - Hs. induction (l ++ [obj]) as [|x k IH]; [constructor|]. cbn in Hs. inversion Hs; subst.
      constructor; [auto|]. match goal with H : Forall _ (k ++ gone) |- _ => apply Forall_app in H; tauto end. }
    apply sorted_snoc in Hs1 as [H1 H2]. by apply sorted_snoc.
  - change (sumZ val []) with 0. cbn [val]. lia.
Qed.
End queue.

(** ** Maturation *)

Section maturation.
Context `{L : FcLib} `{!FcLaws L}.

Definition db_ok (s : votes_db) : Prop :=
  Forall (fun x => votes_ok x.2) (accounts s) /\ NoDup (accounts s).*1.

Definition total_delayed (l : list (Z * account_votes)) : Z := sumZ (fun x => sum_delayed_votes x.2) l.

Lemma set_account_other i a l : i ∉ l.*1 -> set_account i a l = l.
Proof.
  induction l as [|[j b] l IH]; [done|]. rewrite fmap_cons, not_elem_of_cons. intros [Hj Hl]. cbn in Hj.
  unfold set_account in *. rewrite fmap_cons. cbn [fst]. rewrite (proj2 (Z.eqb_neq j i)) by congruence.
  by rewrite IH.
Qed.

Lemma account_split i a l : NoDup l.*1 -> (i, a) ∈ l ->
  exists l1 l2, l = l1 ++ (i, a) :: l2 /\ find_account i l = Some a /\
    forall a', set_account i a' l = l1 ++ (i, a') :: l2.
Proof.
  intros Hn Hin. apply list_elem_of_split in Hin as (l1 & l2 & ->). exists l1, l2. split; [done|].
  rewrite fmap_app, fmap_cons in Hn. apply NoDup_app in Hn as (H1 & H12 & H2). apply NoDup_cons in H2 as [H2 _].
  assert (i ∉ l1.*1) as Hi by (intros Hi; apply (H12 _ Hi); by left).
  split.
  - unfold find_account. clear H1 H12. induction l1 as [|[j b] l1 IH]; cbn; [by rewrite Z.eqb_refl|].
    rewrite fmap_cons, not_elem_of_cons in Hi. destruct Hi as [Hj Hi]. cbn in Hj.
    rewrite (proj2 (Z.eqb_neq j i)) by congruence. auto.
  - intros a'. pose proof (set_account_other i a' l1 Hi) as E1. pose proof (set_account_other i a' l2 H2) as E2.
    unfold set_account in *. rewrite fmap_app, fmap_cons. cbn [fst]. rewrite Z.eqb_refl. by rewrite E1, E2.
Qed.

Lemma oldest_Some l i t v : oldest l = Some (i, (t, v)) ->
  (exists a d rest, (i, a) ∈ l /\ delayed_votes a = d :: rest /\ t = time d /\ v = val d) /\
  Forall (fun x => forall d rest, delayed_votes x.2 = d :: rest -> t <= time d) l.
Proof.
  revert i t v. induction l as [|[j b] l IH]; intros i t v H; cbn in H; [done|].
  destruct (delayed_votes b) as [|d rest] eqn:Eb.
  - destruct (IH _ _ _ H) as [(a & d & rest & Hin & ?) Hf]. split.
    + exists a, d, rest. split; [by right|done].
    + constructor; [cbn; congruence|done].
  - destruct (oldest l) as [[j' [t' v']]|] eqn:El.
    + destruct (IH _ _ _ eq_refl) as [(a & d' & rest' & Hin & ?) Hf]. unfold older in H. cbn in H.
      destruct (_ || _) eqn:Eo; injection H as <- <- <-.
      * apply orb_true_iff in Eo. rewrite andb_true_iff, !Z.ltb_lt, Z.eqb_eq in Eo. split.
        -- exists b, d, rest. split; [by left|done].
        -- constructor; [cbn; intros ? ? E; rewrite Eb in E; injection E as <- <-; lia|].
           eapply Forall_impl; [exact Hf|]. cbn. intros x Hx d0 r0 E0. specialize (Hx _ _ E0). lia.
      * to_prop. split; [exists a, d', rest'; split; [by right|done]|].
        constructor; [cbn; intros ? ? E; rewrite Eb in E; injection E as <- <-; lia|done].
    + injection H as <- <- <-. split; [exists b, d, rest; split; [by left|done]|].
      constructor; [cbn; intros ? ? E; rewrite Eb in E; injection E as <- <-; lia|].
      clear IH. induction l as [|[k c] l IHl]; [done|]. cbn in El. destruct (delayed_votes c) eqn:Ec.
      * constructor; [cbn; congruence|auto].
      * destruct (oldest l) as [[? [? ?]]|]; [destruct (older _ _)|]; done.
Qed.

Lemma oldest_None l : oldest l = None -> Forall (fun x => delayed_votes x.2 = []) l.
Proof.
  induction l as [|[k c] l IHl]; [done|]. cbn. destruct (delayed_votes c) eqn:Ec.
  - intros. constructor; auto.
  - destruct (oldest l) as [[? [? ?]]|]; [destruct (older _ _)|]; done.
Qed.

Lemma pending_cons x l : pending_entries (x :: l) = (length (delayed_votes x.2) + pending_entries l)%nat.
Proof. done. Qed.

Lemma pending_app l1 l2 : pending_entries (l1 ++ l2) = (pending_entries l1 + pending_entries l2)%nat.
Proof.
  induction l1 as [|x l1 IH]; [done|]. change ((x :: l1) ++ l2) with (x :: (l1 ++ l2)).
  rewrite !pending_cons, IH. lia.
Qed.

Lemma run_complete fuel head s : db_ok s -> (pending_entries (accounts s) < fuel)%nat ->
  exists s', run fuel head s = Some (Ok s') /\ db_ok s' /\
    total_delayed (accounts s') + sumZ snd (matured s') = total_delayed (accounts s) + sumZ snd (matured s) /\
    Forall (fun x => Forall (fun d => head < time d + HIVE_DELAYED_VOTING_TOTAL_INTERVAL_SECONDS)
                            (delayed_votes x.2)) (accounts s').
Proof.
  revert s. induction fuel as [|fuel IH]; intros s Hok Hf; [lia|]. cbn [run].
  destruct (oldest (accounts s)) as [[i [t v]]|] eqn:Eo.
  2: { eexists. split; [done|]. split_and!; auto. apply oldest_None in Eo.
       eapply Forall_impl; [exact Eo|]. cbn. by intros x ->. }
  apply oldest_Some in Eo as [(a & d & rest & Hin & Ed & -> & ->) Hall].
  destruct Hok as [Hv Hn]. pose proof (proj1 (Forall_forall _ _) Hv _ Hin) as Ha. cbn in Ha.
  destruct (_ <=? head) eqn:E; to_prop.
  - destruct (account_split i a (accounts s) Hn Hin) as (l1 & l2 & Hl & Hfind & Hset). rewrite Hfind.
    destruct (erase_front_value a d rest Ha Ed) as (a' & -> & Ha' & Ed' & Es'). rewrite Hset.
    rewrite Hl in Hv, Hn, Hf. apply Forall_app in Hv as [Hv1 Hv2]. apply Forall_cons in Hv2 as [_ Hv2].
    destruct (IH (mk_db (l1 ++ (i, a') :: l2) (matured s ++ [(i, val d)]))) as (s' & Hr & Hok' & Ht & Hf').
    + split; cbn [accounts]; [apply Forall_app; split; [done|by constructor]|].
      rewrite fmap_app, fmap_cons in *. done.
    + cbn [accounts]. rewrite pending_app, pending_cons in *. cbn [snd] in *.
      rewrite Ed'. rewrite Ed in Hf. cbn [length] in Hf. lia.
    + exists s'. split_and!; auto. rewrite Ht. cbn [accounts matured]. rewrite Hl. unfold total_delayed.
      rewrite !sumZ_app, !sumZ_cons. cbn [snd]. change (sumZ snd []) with 0. lia.
  - eexists. split; [done|]. split_and!; auto; [by split|]. rewrite Forall_forall in *. intros x Hx.
    specialize (Hall x Hx). specialize (Hv x Hx). destruct (delayed_votes x.2) as [|d0 r0] eqn:Ex; [done|].
    specialize (Hall _ _ eq_refl). destruct Hv as [_ _ _ Hsp]. rewrite Ex in Hsp. inversion Hsp as [|? ? _ Hsp']; subst.
    constructor; [lia|]. eapply Forall_impl; [exact Hsp'|]. unfold spaced. intros y Hy. change day with 86400 in Hy. lia.
Qed.

(** Adding votes at the head time keeps the queue well formed (entries at
    least a day apart, all positive, their sum recorded exactly), whatever the
    amount, and increases the recorded sum by it. *)
Theorem add_keeps_queue head v a : votes_ok a -> 0 < v -> sum_delayed_votes a + v < 2 ^ 64 ->
  (forall d, last (delayed_votes a) = Some d -> time d <= head) ->
  exists a', add head v a = Ok a' /\ votes_ok a' /\ sum_delayed_votes a' = sum_delayed_votes a + v.
Proof. apply add_value. Qed.

(** Erasing votes takes them from the newest entries: the loop ends, never
    reads an empty queue, the older entries are untouched, the sum decreases
    by exactly the amount and the queue stays well formed. *)
Theorem erase_takes_newest count a : votes_ok a -> 0 < count <= sum_delayed_votes a ->
  exists a', erase count a = Some (Ok a') /\ votes_ok a' /\
    sum_delayed_votes a' = sum_delayed_votes a - count /\
    (count < sum_delayed_votes a -> cut_back (delayed_votes a) (delayed_votes a') count).
Proof.
  intros [Hs Hf Hp Hsp] Hc. unfold erase. rewrite (proj2 (Z.eqb_neq count 0)), (proj2 (Z.leb_le _ _)) by lia. cbn [negb].
  destruct (_ =? count) eqn:E; to_prop.
  - eexists. split; [done|]. split_and!; [constructor; cbn; (done || constructor)|cbn; lia|lia].
  - rewrite usafe_sub_exact by (unfold in_u; lia).
    destruct (erase_back_value (S (length (delayed_votes a))) (delayed_votes a) count) as (items & -> & Hcut); [done|lia|lia|lia|].
    eexists. split; [done|]. destruct (cut_back_ok _ _ _ Hp Hsp Hcut) as (H1 & H2 & H3).
    split_and!; [constructor; cbn [delayed_votes sum_delayed_votes]; auto; lia|done|done].
Qed.

(** A run of delayed voting ends without an error, keeps every queue well
    formed, leaves no entry that is thirty days old, and the votes it hands over
    equal the decrease of the recorded sums. *)
Theorem delayed_voting_run_correct head s : db_ok s ->
  exists s', delayed_voting_run head s = Some (Ok s') /\ db_ok s' /\
    total_delayed (accounts s') + sumZ snd (matured s') = total_delayed (accounts s) + sumZ snd (matured s) /\
    Forall (fun x => Forall (fun d => head < time d + HIVE_DELAYED_VOTING_TOTAL_INTERVAL_SECONDS)
                            (delayed_votes x.2)) (accounts s').
Proof. intros H. apply run_complete; [done|lia]. Qed.

Lemma spaced_length l h : StronglySorted spaced l -> Forall (fun d => time d <= h) l ->
  forall d, head l = Some d -> time d + (Z.of_nat (length l) - 1) * day <= h.
Proof.
  induction 1 as [|x l Hs IH Hx]; intros Hf d Hd; [done|]. injection Hd as <-.
  apply Forall_cons in Hf as [Hh Hf]. destruct l as [|y l]; [cbn; lia|].
  specialize (IH Hf y eq_refl). apply Forall_cons in Hx as [Hxy _]. unfold spaced in Hxy.
  cbn [length] in *. lia.
Qed.

(** The documented bound holds: a queue whose entries are not older than
    thirty days and not from the future has at most thirty entries. *)
Theorem queue_at_most_thirty a h : votes_ok a ->
  Forall (fun d => h < time d + HIVE_DELAYED_VOTING_TOTAL_INTERVAL_SECONDS /\ time d <= h) (delayed_votes a) ->
  (length (delayed_votes a) <= 30)%nat.
Proof.
  intros [_ _ _ Hsp] Hf. destruct (delayed_votes a) as [|d l] eqn:E; [cbn; lia|].
  assert (Forall (fun d => time d <= h) (d :: l)) as Hle by (eapply Forall_impl; [exact Hf|]; cbn; lia).
  pose proof (spaced_length _ _ Hsp Hle d eq_refl) as Hb. apply Forall_cons in Hf as [[Ho _] _].
  change HIVE_DELAYED_VOTING_TOTAL_INTERVAL_SECONDS with (30 * day) in Ho. change day with 86400 in *. lia.
Qed.
End maturation.

(** ** A concrete account *)

Module Sample.
#[local] Existing Instance fc_ref.
#[local] Existing Instance fc_ref_laws.

Definition q : account_votes := mk_votes [mk_dv 1000 10; mk_dv 90000 20; mk_dv 200000 5] 35.

Lemma q_ok : votes_ok q.
Proof.
  constructor; cbn; [done|done|repeat constructor; cbn; lia|].
  repeat constructor; unfold spaced, day, HIVE_DELAYED_VOTING_INTERVAL_SECONDS; cbn; lia.
Qed.

Lemma add_keeps_queue_witness :
  exists a', add 210000 7 q = Ok a' /\ votes_ok a' /\ sum_delayed_votes a' = 42.
Proof.
  refine (add_keeps_queue 210000 7 q q_ok _ _ _); [lia|cbn; lia|]. intros d [= <-]. cbn. lia.
Defined.

Lemma erase_takes_newest_witness :
  exists a', erase 12 q = Some (Ok a') /\ votes_ok a' /\ sum_delayed_votes a' = 23 /\
    (12 < 35 -> cut_back (delayed_votes q) (delayed_votes a') 12).
Proof. refine (erase_takes_newest 12 q q_ok _). cbn. lia. Defined.

Lemma delayed_voting_run_correct_witness :
  exists s', delayed_voting_run 2700000 (mk_db [(1, q)] []) = Some (Ok s') /\ db_ok s' /\
    total_delayed (accounts s') + sumZ snd (matured s') = 35 /\
    Forall (fun x => Forall (fun d => 2700000 < time d + HIVE_DELAYED_VOTING_TOTAL_INTERVAL_SECONDS)
                            (delayed_votes x.2)) (accounts s').
Proof.
  refine (delayed_voting_run_correct 2700000 (mk_db [(1, q)] []) _).
  split; cbn; [constructor; [apply q_ok|constructor]|]. apply NoDup_singleton.
Defined.

Lemma queue_at_most_thirty_witness : (length (delayed_votes q) <= 30)%nat.
Proof.
  refine (queue_at_most_thirty q 200000 q_ok _). repeat constructor; cbn; lia.
Defined.
End Sample.
