(* ===== verification/ForkDb.v ===== *)
(** * The fork database

    Models libraries/chain/fork_database.cpp and fork_database.hpp: the tree of
    recent blocks, its cache of blocks that do not link yet, and the queries
    the node makes on it.  Items are shared objects: they live in a store
    addressed by [addr], the containers and [_head] hold addresses, and the
    [prev] field of an item is a weak pointer that can be followed only while
    its target is owned by a container, by [_head] or by a caller ([held]). *)

From Stdlib Require Import Sorted.
From stdpp Require Import base numbers strings option list gmap.
From S2P Require Import Prelude Fc Config.
Open Scope Z_scope.

(** ** Block identifiers and headers *)

Record block_id_type : Set := mk_id { _hash : list Z }.

#[export] Instance block_id_eq_dec : EqDecision block_id_type.
Proof. solve_decision. Defined.

(** [block_id_type()]: five zero words. *)
Definition null_id : block_id_type := mk_id [0; 0; 0; 0; 0].

Record full_block_type : Set := mk_block {
  block_id : block_id_type;
  previous : block_id_type;
  timestamp : Z;
  witness : string
}.

#[export] Instance full_block_eq_dec : EqDecision full_block_type.
Proof. solve_decision. Defined.

Section headers.
Context `{L : FcLib}.

Definition num_from_id (id : block_id_type) : Z := endian_reverse_u32 (hd 0 (_hash id)).

(** [block_header::block_num] *)
Definition block_num (b : full_block_type) : Z := u32 (num_from_id (previous b) + 1).

(** [full_block_type::construct_block_id]: the words of the header hash, the
    first overwritten with the block number, cut to the length of an id. *)
Definition construct_block_id (sha224 : list Z) (num : Z) : block_id_type :=
  mk_id (take 5 (<[0%nat := endian_reverse_u32 num]> sha224)).
End headers.

(** ** State *)

Abbreviation addr := nat (only parsing).

Record fork_item : Set := mk_item {
  prev : option addr;
  invalid : bool;
  full_block : full_block_type
}.

Record fork_database : Set := mk_fdb {
  items : gmap addr fork_item;     (* the store of fork_item objects *)
  _index : list addr;              (* in the order of the block_num index *)
  _unlinked_index : list addr;
  _head : option addr;
  _max_size : Z;
  held : gset addr                 (* items owned by callers *)
}.

Definition set_items f s := mk_fdb f (_index s) (_unlinked_index s) (_head s) (_max_size s) (held s).
Definition set_index l s := mk_fdb (items s) l (_unlinked_index s) (_head s) (_max_size s) (held s).
Definition set_unlinked l s := mk_fdb (items s) (_index s) l (_head s) (_max_size s) (held s).
Definition set_head_ h s := mk_fdb (items s) (_index s) (_unlinked_index s) h (_max_size s) (held s).
Definition set_max n s := mk_fdb (items s) (_index s) (_unlinked_index s) (_head s) n (held s).

Definition fork_database_init : fork_database := mk_fdb ∅ [] [] None 1024 ∅.

Definition null_item : fork_item := mk_item None false (mk_block null_id null_id 0 "").

(** Dereferencing an item pointer. *)
Definition item (s : fork_database) (a : addr) : fork_item := default null_item (items s !! a).

(** [std::make_shared<fork_item>( full_block )] *)
Definition make_item (b : full_block_type) (s : fork_database) : addr * fork_database :=
  let a := fresh (dom (items s)) in
  (a, set_items (<[a := mk_item None false b]> (items s)) s).

Definition live (s : fork_database) (a : addr) : bool :=
  bool_decide (a ∈ _index s) || bool_decide (a ∈ _unlinked_index s)
  || bool_decide (_head s = Some a) || bool_decide (a ∈ held s).

Section forkdb.
Context `{L : FcLib}.
(** The element of a group of equal keys that a hashed index finds first; the
    container does not specify it. *)
Variable pick : list addr -> option addr.

Definition get_block_id s a := block_id (full_block (item s a)).
Definition previous_id s a := previous (full_block (item s a)).
Definition get_block_num s a := block_num (full_block (item s a)).

(** [prev.lock()] *)
Definition lock_prev (s : fork_database) (a : addr) : option addr :=
  match prev (item s a) with
  | Some b => if live s b then Some b else None
  | None => None
  end.

(** ** The multi-index containers *)

Definition find_id (s : fork_database) (l : list addr) (id : block_id_type) : option addr :=
  List.find (fun a => bool_decide (get_block_id s a = id)) l.

(** Insertion into the ordered index goes after the items of the same number. *)
Fixpoint insert_by_num (s : fork_database) (a : addr) (l : list addr) : list addr :=
  match l with
  | [] => [a]
  | b :: l' => if get_block_num s a <? get_block_num s b then a :: l else b :: insert_by_num s a l'
  end.

(** The block_id index is unique: inserting a known id does nothing. *)
Definition multi_insert (s : fork_database) (a : addr) (l : list addr) : list addr :=
  match find_id s l (get_block_id s a) with
  | Some _ => l
  | None => insert_by_num s a l
  end.

Definition by_previous (s : fork_database) (l : list addr) (id : block_id_type) : list addr :=
  filter (fun a => previous_id s a = id) l.

Definition erase (a : addr) (l : list addr) : list addr := filter (fun b => b <> a) l.

(** ** Operations *)

Definition reset (s : fork_database) : fork_database := set_index [] (set_head_ None s).

Definition pop_block (s : fork_database) : fork_database * result unit :=
  match _head s with
  | None => (s, Throw AssertFc)
  | Some h =>
      match lock_prev s h with
      | None => (s, Throw AssertFc)
      | Some p => (set_head_ (Some p) s, Ok tt)
      end
  end.

Definition start_block (b : full_block_type) (s : fork_database) : fork_database :=
  let '(a, s) := make_item b s in
  set_head_ (Some a) (set_index (multi_insert s a (_index s)) s).

(** The highest number that falls out of the cached range. *)
Definition threshold (s : fork_database) (h : addr) : Z :=
  Z.max 0 (get_block_num s h - _max_size s).

(** The checks of [_push_block]; the result is the item with its link set. *)
Definition try_link (s : fork_database) (a : addr) : result fork_database :=
  match _head s with
  | None => Ok s
  | Some h =>
      _ ← check (threshold s h <? get_block_num s a) UnlinkableBlock;
      if bool_decide (previous_id s a = null_id) then Ok s
      else
        match find_id s (_index s) (previous_id s a) with
        | None => Throw UnlinkableBlock
        | Some b =>
            _ ← check (negb (invalid (item s b))) AssertFc;
            let it := item s a in
            Ok (set_items (<[a := mk_item (Some b) (invalid it) (full_block it)]> (items s)) s)
        end
  end.

(** The insertion and the choice of the head. *)
Definition insert_item (s : fork_database) (a : addr) : fork_database :=
  let s := set_index (multi_insert s a (_index s)) s in
  let better := match _head s with
                | None => true
                | Some h => get_block_num s h <? get_block_num s a
                end in
  if better then set_head_ (Some a) s else s.

(** [_push_block] and [_push_next] call each other; [None] is "out of fuel". *)
Fixpoint _push_block (fuel : nat) (s : fork_database) (a : addr) {struct fuel} :
    option (fork_database * result unit) :=
  match fuel with
  | O => None
  | S fuel =>
      match try_link s a with
      | Throw e => Some (s, Throw e)
      | Ok s =>
          let s := insert_item s a in
          match _push_next fuel s (get_block_id s a) with
          | None => None
          | Some s => Some (s, Ok tt)
          end
      end
  end
with _push_next (fuel : nat) (s : fork_database) (new_id : block_id_type) {struct fuel} :
    option fork_database :=
  match fuel with
  | O => None
  | S fuel =>
      match pick (by_previous s (_unlinked_index s) new_id) with
      | None => Some s
      | Some tmp =>
          let s := set_unlinked (erase tmp (_unlinked_index s)) s in
          match _push_block fuel s tmp with
          | None => None
          | Some (s, _) => _push_next fuel s new_id
          end
      end
  end.

(** Fuel for a push: every round of [_push_next] erases an unlinked item. *)
Definition push_fuel (s : fork_database) : nat := 2 * length (_unlinked_index s) + 2.

Definition push_block (b : full_block_type) (s : fork_database) :
    option (fork_database * result (option addr)) :=
  let '(a, s) := make_item b s in
  match _push_block (push_fuel s) s a with
  | None => None
  | Some (s, Ok _) => Some (s, Ok (_head s))
  | Some (s, Throw UnlinkableBlock) =>
      Some (set_unlinked (multi_insert s a (_unlinked_index s)) s, Throw UnlinkableBlock)
  | Some (s, Throw e) => Some (s, Throw e)
  end.

(** The loop that erases from the front of the ordered index. *)
Fixpoint erase_old (s : fork_database) (t : Z) (l : list addr) : list addr :=
  match l with
  | [] => []
  | a :: l' => if get_block_num s a <=? t then erase_old s t l' else l
  end.

Definition set_max_size (n : Z) (s : fork_database) : fork_database :=
  let s := set_max n s in
  match _head s with
  | None => s
  | Some h =>
      let t := threshold s h in
      let s := set_index (erase_old s t (_index s)) s in
      set_unlinked (erase_old s t (_unlinked_index s)) s
  end.

Definition set_head (h : option addr) (s : fork_database) : fork_database := set_head_ h s.

Definition remove (id : block_id_type) (s : fork_database) : fork_database :=
  let s := match _head s with
           | Some h => if bool_decide (get_block_id s h = id) then set_head_ (lock_prev s h) s else s
           | None => s
           end in
  match find_id s (_index s) id with
  | Some a => set_index (erase a (_index s)) s
  | None => s
  end.

(** ** Queries *)

Definition is_known_block (s : fork_database) (id : block_id_type) : bool :=
  match find_id s (_index s) id with
  | Some _ => true
  | None => match find_id s (_unlinked_index s) id with Some _ => true | None => false end
  end.

Definition fetch_block (s : fork_database) (id : block_id_type) (search_linked_blocks_only : bool) :
    option addr :=
  match find_id s (_index s) id with
  | Some a => Some a
  | None => if search_linked_blocks_only then None else find_id s (_unlinked_index s) id
  end.

(** [lower_bound] of the ordered index, then the run of equal numbers. *)
Fixpoint lower_bound (s : fork_database) (n : Z) (l : list addr) : list addr :=
  match l with
  | [] => []
  | a :: l' => if get_block_num s a <? n then lower_bound s n l' else l
  end.
Fixpoint take_num (s : fork_database) (n : Z) (l : list addr) : list addr :=
  match l with
  | [] => []
  | a :: l' => if get_block_num s a =? n then a :: take_num s n l' else []
  end.
Definition fetch_block_by_number (s : fork_database) (n : Z) : list addr :=
  take_num s n (lower_bound s n (_index s)).

Definition fetch_heads (s : fork_database) : list addr :=
  filter (fun a => by_previous s (_index s) (get_block_id s a) = []) (_index s).

Definition get_last_block_generated_by_each_witness (s : fork_database) : gmap string block_id_type :=
  foldl (fun m a => <[witness (full_block (item s a)) := get_block_id s a]> m) ∅ (_index s).

Definition head_block_num (s : fork_database) : Z :=
  match _head s with Some h => get_block_num s h | None => 0 end.
Definition head_block_id (s : fork_database) : block_id_type :=
  match _head s with Some h => get_block_id s h | None => null_id end.
Definition head_block_time (s : fork_database) : Z :=
  match _head s with Some h => timestamp (full_block (item s h)) | None => 0 end.

(** Dereferencing the first element of an empty index is undefined: [None]. *)
Definition get_oldest_block_num (s : fork_database) : option Z :=
  match _index s with a :: _ => Some (get_block_num s a) | [] => None end.
Definition get_last_irreversible_block_num (s : fork_database) : option Z := get_oldest_block_num s.

(** The walk down from an item while its number is above [n]; [None] is out of
    fuel, [Some None] the null pointer. *)
Fixpoint walk_down (fuel : nat) (s : fork_database) (n : Z) (a : addr) : option (option addr) :=
  match fuel with
  | O => None
  | S fuel =>
      if n <? get_block_num s a then
        match lock_prev s a with
        | Some b => walk_down fuel s n b
        | None => Some None
        end
      else Some (Some a)
  end.

(** A walk visits strictly decreasing numbers. *)
Definition walk_fuel (s : fork_database) (a : addr) : nat := S (Z.to_nat (get_block_num s a)).

(** Without a head the code dereferences a null pointer: [None]. *)
Definition walk_main_branch_to_num (s : fork_database) (n : Z) : option (option addr) :=
  match _head s with
  | None => None
  | Some h => if get_block_num s h <? n then Some None else walk_down (walk_fuel s h) s n h
  end.

Definition fetch_block_on_main_branch_by_number (s : fork_database) (n : Z) : option (option addr) :=
  match _head s with
  | None => Some None
  | Some h =>
      if get_block_num s h <? n then Some None
      else match fetch_block_by_number s n with
           | [a] => Some (Some a)
           | [] => Some None
           | _ => walk_main_branch_to_num s n
           end
  end.

(** The two branches back to the block both descend from. *)
Fixpoint climb (fuel : nat) (s : fork_database) (n : Z) (a : addr) (acc : list addr) :
    option (result (addr * list addr)) :=
  match fuel with
  | O => None
  | S fuel =>
      if n <? get_block_num s a then
        match lock_prev s a with
        | Some b => climb fuel s n b (acc ++ [a])
        | None => Some (Throw AssertFc)
        end
      else Some (Ok (a, acc))
  end.

Fixpoint climb_both (fuel : nat) (s : fork_database) (a b : addr) (la lb : list addr) :
    option (result (addr * addr * list addr * list addr)) :=
  match fuel with
  | O => None
  | S fuel =>
      if bool_decide (previous_id s a = previous_id s b) then Some (Ok (a, b, la, lb))
      else
        match lock_prev s a, lock_prev s b with
        | Some a', Some b' => climb_both fuel s a' b' (la ++ [a]) (lb ++ [b])
        | _, _ => Some (Throw AssertFc)
        end
  end.

Definition fetch_branch_from (s : fork_database) (first second : block_id_type) :
    option (result (list addr * list addr)) :=
  match find_id s (_index s) first, find_id s (_index s) second with
  | Some a, Some b =>
      match climb (walk_fuel s a) s (get_block_num s b) a [] with
      | None => None
      | Some (Throw e) => Some (Throw e)
      | Some (Ok (a, la)) =>
          match climb (walk_fuel s b) s (get_block_num s a) b [] with
          | None => None
          | Some (Throw e) => Some (Throw e)
          | Some (Ok (b, lb)) =>
              match climb_both (walk_fuel s a) s a b la lb with
              | None => None
              | Some (Throw e) => Some (Throw e)
              | Some (Ok (a, b, la, lb)) =>
                  if bool_decide (get_block_id s a = get_block_id s b) then Some (Ok (la, lb))
                  else Some (Ok (la ++ [a], lb ++ [b]))
              end
          end
      end
  | _, _ => Some (Throw AssertFc)
  end.
End forkdb.

(** ** Invariant *)

Section invariant.
Context `{L : FcLib}.

(** A block whose id carries its number, below the last 32-bit number. *)
Definition block_wf (b : full_block_type) : Prop :=
  num_from_id (block_id b) = block_num b /\ 0 <= num_from_id (previous b) < 2 ^ 32 - 1.

Definition allocated (s : fork_database) (a : addr) : Prop := is_Some (items s !! a).

Definition by_num (s : fork_database) (a b : addr) : Prop := get_block_num s a <= get_block_num s b.

Record fdb_inv (s : fork_database) : Prop := {
  inv_blocks a it : items s !! a = Some it -> block_wf (full_block it);
  inv_links a it b : items s !! a = Some it -> prev it = Some b ->
    allocated s b /\ get_block_id s b = previous (full_block it);
  inv_alloc a : a ∈ _index s \/ a ∈ _unlinked_index s \/ _head s = Some a -> allocated s a;
  inv_sorted : StronglySorted (by_num s) (_index s);
  inv_unlinked_sorted : StronglySorted (by_num s) (_unlinked_index s);
  inv_unique : NoDup (get_block_id s <$> _index s)
}.

(** Later states keep every item and its block. *)
Definition extends (s s' : fork_database) : Prop :=
  forall a it, items s !! a = Some it ->
    exists it', items s' !! a = Some it' /\ full_block it' = full_block it.

#[global] Instance extends_preorder : PreOrder extends.
Proof.
  split; [intros s a it; eauto|]. intros s1 s2 s3 H1 H2 a it Ha.
  destruct (H1 _ _ Ha) as (it1 & H & E1). destruct (H2 _ _ H) as (it2 & ? & E2).
  exists it2. split; [done|congruence].
Qed.

Lemma extends_same_items s s' : items s' = items s -> extends s s'.
Proof. intros E a it H. rewrite E. eauto. Qed.

Lemma extends_alloc s s' a : extends s s' -> allocated s a -> allocated s' a.
Proof. intros H [it Hit]. destruct (H _ _ Hit) as (? & ? & _). by eexists. Qed.

Lemma extends_block s s' a : extends s s' -> allocated s a ->
  full_block (item s' a) = full_block (item s a).
Proof.
  intros H [it Hit]. destruct (H _ _ Hit) as (it' & Hit' & E).
  unfold item. by rewrite Hit, Hit'.
Qed.

Lemma extends_num s s' a : extends s s' -> allocated s a -> get_block_num s' a = get_block_num s a.
Proof. intros. unfold get_block_num. by rewrite (extends_block s s'). Qed.
Lemma extends_id s s' a : extends s s' -> allocated s a -> get_block_id s' a = get_block_id s a.
Proof. intros. unfold get_block_id. by rewrite (extends_block s s'). Qed.
Lemma extends_prev_id s s' a : extends s s' -> allocated s a -> previous_id s' a = previous_id s a.
Proof. intros. unfold previous_id. by rewrite (extends_block s s'). Qed.

Lemma item_lookup s a it : items s !! a = Some it -> item s a = it.
Proof. intros H. unfold item. by rewrite H. Qed.

Lemma block_num_wf b : block_wf b -> block_num b = num_from_id (previous b) + 1.
Proof. intros [_ H]. unfold block_num. apply uwrap_id. unfold in_u. lia. Qed.

Lemma item_wf s a : fdb_inv s -> allocated s a -> block_wf (full_block (item s a)).
Proof. intros I [it H]. rewrite (item_lookup _ _ _ H). by eapply inv_blocks. Qed.

Lemma num_pos s a : fdb_inv s -> allocated s a -> 0 < get_block_num s a.
Proof.
  intros I Ha. unfold get_block_num. pose proof (item_wf s a I Ha) as Hw.
  rewrite block_num_wf by done. destruct Hw. lia.
Qed.

Lemma linked_num s a b : fdb_inv s -> allocated s a -> allocated s b ->
  get_block_id s b = previous_id s a -> get_block_num s a = get_block_num s b + 1.
Proof.
  intros I Ha Hb E. pose proof (item_wf s a I Ha) as Hwa. pose proof (item_wf s b I Hb) as [Hb1 _].
  unfold get_block_num. rewrite block_num_wf by done.
  unfold get_block_id, previous_id in E. rewrite <- E. by rewrite Hb1.
Qed.

Lemma lock_prev_spec s a b : fdb_inv s -> allocated s a -> lock_prev s a = Some b ->
  allocated s b /\ get_block_id s b = previous_id s a /\ get_block_num s a = get_block_num s b + 1.
Proof.
  intros I [it Ha] H. unfold lock_prev in H.
  destruct (prev (item s a)) as [b'|] eqn:E; [|done].
  destruct (live s b'); [|done]. injection H as ->.
  rewrite (item_lookup _ _ _ Ha) in E.
  destruct (inv_links _ I _ _ _ Ha E) as [H1 H2].
  assert (get_block_id s b = previous_id s a) as H3.
  { unfold previous_id. by rewrite (item_lookup _ _ _ Ha). }
  split_and!; [done|done|]. apply linked_num; auto. by eexists.
Qed.

(** *** Containers *)

Lemma find_id_Some s l id a : find_id s l id = Some a -> a ∈ l /\ get_block_id s a = id.
Proof.
  intros H. apply List.find_some in H as [H1 H2]. to_prop.
  split; [by apply list_elem_of_In|done].
Qed.
Lemma find_id_None s l id a : find_id s l id = None -> a ∈ l -> get_block_id s a <> id.
Proof.
  intros H Ha. apply list_elem_of_In in Ha.
  pose proof (List.find_none _ _ H _ Ha) as E. cbn beta in E. by apply bool_decide_eq_false in E.
Qed.

Lemma insert_by_num_perm s a l : insert_by_num s a l ≡ₚ a :: l.
Proof.
  induction l as [|b l IH]; simpl; [done|]. destruct (_ <? _); [done|].
  rewrite IH. by constructor.
Qed.

Lemma insert_by_num_sorted s a l :
  StronglySorted (by_num s) l -> StronglySorted (by_num s) (insert_by_num s a l).
Proof.
  induction 1 as [|b l Hl IH Hb]; simpl; [repeat constructor|].
  destruct (_ <? _) eqn:E; to_prop.
  - constructor; [by constructor|]. constructor; [unfold by_num; lia|].
    eapply Forall_impl; [exact Hb|]. unfold by_num. lia.
  - constructor; [done|]. rewrite insert_by_num_perm. constructor; [unfold by_num; lia|done].
Qed.

Lemma multi_insert_elem s a l b : b ∈ multi_insert s a l -> b = a \/ b ∈ l.
Proof.
  unfold multi_insert. destruct (find_id _ _ _); [auto|].
  rewrite insert_by_num_perm, elem_of_cons. done.
Qed.
Lemma multi_insert_old s a l b : b ∈ l -> b ∈ multi_insert s a l.
Proof.
  intros. unfold multi_insert. destruct (find_id _ _ _); [done|].
  rewrite insert_by_num_perm, elem_of_cons. auto.
Qed.
Lemma multi_insert_id s a l : exists b, b ∈ multi_insert s a l /\ get_block_id s b = get_block_id s a.
Proof.
  unfold multi_insert. destruct (find_id _ _ _) as [b|] eqn:E.
  - apply find_id_Some in E. eauto.
  - exists a. rewrite insert_by_num_perm, elem_of_cons. auto.
Qed.
Lemma multi_insert_sorted s a l :
  StronglySorted (by_num s) l -> StronglySorted (by_num s) (multi_insert s a l).
Proof. unfold multi_insert. destruct (find_id _ _ _); [done|apply insert_by_num_sorted]. Qed.
Lemma multi_insert_unique s a l :
  NoDup (get_block_id s <$> l) -> NoDup (get_block_id s <$> multi_insert s a l).
Proof.
  intros H. unfold multi_insert. destruct (find_id _ _ _) eqn:E; [done|].
  rewrite insert_by_num_perm. simpl. constructor; [|done].
  intros Hin. apply list_elem_of_fmap in Hin as (b & Hb & Hin).
  by apply (find_id_None _ _ _ b) in E.
Qed.

Lemma sorted_sublist {A} (R : A -> A -> Prop) l1 l2 :
  l1 `sublist_of` l2 -> StronglySorted R l2 -> StronglySorted R l1.
Proof.
  induction 1 as [|x l1 l2 Hs IH|x l1 l2 Hs IH]; intros H; [done| |].
  - inversion H; subst. constructor; [auto|].
    rewrite Forall_forall in *. intros y Hy.
    match goal with H : forall _, _ ∈ l2 -> _ |- _ => apply H end.
    by eapply elem_of_sublist.
  - inversion H; subst. auto.
Qed.

Lemma sorted_ext s s' l : (forall a, a ∈ l -> get_block_num s' a = get_block_num s a) ->
  StronglySorted (by_num s) l -> StronglySorted (by_num s') l.
Proof.
  intros He. induction 1 as [|a l Hl IH Ha]; [constructor|].
  constructor; [apply IH; intros; apply He; set_solver|].
  rewrite Forall_forall in *. intros b Hb. unfold by_num in *.
  rewrite !He by set_solver. auto.
Qed.
End invariant.

(** ** Preservation *)

Section preservation.
Context `{L : FcLib}.

Lemma inv_containers s l u h n :
  fdb_inv s ->
  (forall a, a ∈ l \/ a ∈ u \/ h = Some a -> allocated s a) ->
  StronglySorted (by_num s) l -> StronglySorted (by_num s) u -> NoDup (get_block_id s <$> l) ->
  fdb_inv (mk_fdb (items s) l u h n (held s)).
Proof. intros [] ????. by constructor. Qed.

Lemma inv_items s s' :
  fdb_inv s -> extends s s' ->
  _index s' = _index s -> _unlinked_index s' = _unlinked_index s -> _head s' = _head s ->
  (forall a it, items s' !! a = Some it -> block_wf (full_block it)) ->
  (forall a it b, items s' !! a = Some it -> prev it = Some b ->
     allocated s' b /\ get_block_id s' b = previous (full_block it)) ->
  fdb_inv s'.
Proof.
  intros I He Ei Eu Eh Hb Hl.
  assert (forall a, a ∈ _index s \/ a ∈ _unlinked_index s \/ _head s = Some a -> allocated s a) as Ha
    by apply (inv_alloc _ I).
  constructor; rewrite ?Ei, ?Eu, ?Eh; try done.
  - intros a H. eapply extends_alloc; [done|]. auto.
  - eapply sorted_ext; [|apply (inv_sorted _ I)]. intros a H. apply extends_num; auto.
  - eapply sorted_ext; [|apply (inv_unlinked_sorted _ I)]. intros a H. apply extends_num; auto.
  - erewrite list_fmap_ext; [apply (inv_unique _ I)|]. intros i a H.
    apply extends_id; [done|]. apply Ha. left. by eapply list_elem_of_lookup_2.
Qed.

Lemma make_item_spec s b a s' : fdb_inv s -> block_wf b -> make_item b s = (a, s') ->
  fdb_inv s' /\ extends s s' /\ items s !! a = None /\
  items s' !! a = Some (mk_item None false b) /\
  s' = set_items (items s') s.
Proof.
  intros I Hb [= <- <-]. set (a := fresh (dom (items s))).
  assert (items s !! a = None) as Hf by (apply not_elem_of_dom, is_fresh).
  assert (extends s (set_items (<[a:=mk_item None false b]> (items s)) s)) as He.
  { intros c it Hc. exists it. split; [|done]. cbn. rewrite lookup_insert_ne; congruence. }
  split_and!; try done; [|cbn; by rewrite lookup_insert_eq].
  apply (inv_items s); try done; cbn.
  - intros c it Hc. apply lookup_insert_Some in Hc as [[_ <-]|[_ Hc]]; [done|].
    by eapply inv_blocks.
  - intros c it p Hc Hp. apply lookup_insert_Some in Hc as [[_ <-]|[_ Hc]]; [done|].
    destruct (inv_links _ I _ _ _ Hc Hp) as [? <-]. split; [by eapply extends_alloc|].
    by apply extends_id.
Qed.

(** What a successful link check establishes. *)
Lemma try_link_spec s a s' : fdb_inv s -> allocated s a -> try_link s a = Ok s' ->
  fdb_inv s' /\ extends s s' /\ s' = set_items (items s') s /\ allocated s' a /\
  (forall b, b <> a -> items s' !! b = items s !! b) /\
  (_head s = None \/ previous_id s a = null_id \/
   exists b, b ∈ _index s /\ prev (item s' a) = Some b /\ get_block_id s b = previous_id s a).
Proof.
  intros I Ha H. unfold try_link in H. destruct (_head s) as [h|] eqn:Eh.
  2: { injection H as <-. split_and!; auto; [done|by destruct s]. }
  result_inv; to_prop.
  { split_and!; auto; [done|by destruct s']. }
  apply find_id_Some in E0 as [Hin Hid]. destruct Ha as [it Hit].
  rewrite (item_lookup _ _ _ Hit).
  set (it' := mk_item (Some n) (invalid it) (full_block it)).
  assert (extends s (set_items (<[a:=it']> (items s)) s)) as He.
  { intros c jt Hc. cbn. destruct (decide (c = a)) as [->|].
    - exists it'. rewrite lookup_insert_eq.
      split; [done|]. cbn. congruence.
    - exists jt. by rewrite lookup_insert_ne. }
  assert (previous (full_block it) = previous_id s a) as Hp
    by (unfold previous_id; by rewrite (item_lookup _ _ _ Hit)).
  split_and!; try done.
  - apply (inv_items s); try done; cbn.
    + intros c jt Hc. apply lookup_insert_Some in Hc as [[_ <-]|[_ Hc]];
        [exact (inv_blocks _ I _ _ Hit)|by eapply inv_blocks].
    + intros c jt p Hc Hpp. apply lookup_insert_Some in Hc as [[_ <-]|[_ Hc]].
      * cbn in Hpp. injection Hpp as <-. assert (allocated s n) by (apply (inv_alloc _ I); auto).
        split; [by eapply extends_alloc|]. cbn. rewrite Hp, <- Hid. by apply extends_id.
      * destruct (inv_links _ I _ _ _ Hc Hpp) as [? <-]. split; [by eapply extends_alloc|].
        by apply extends_id.
  - eexists. cbn. by rewrite lookup_insert_eq.
  - intros b Hb. cbn. by rewrite lookup_insert_ne.
  - right. right. exists n. split_and!; [done| |done].
    unfold item. cbn. by rewrite lookup_insert_eq.
Qed.

(** *** What one round of pushing does *)

Definition head_max (s : fork_database) : Prop :=
  forall a, a ∈ _index s -> exists h, _head s = Some h /\ get_block_num s a <= get_block_num s h.

(** Every block above the lowest number hangs on another block of the index. *)
Definition linked (s : fork_database) : Prop :=
  forall a m, a ∈ _index s -> m ∈ _index s -> get_block_num s m < get_block_num s a ->
    exists b, b ∈ _index s /\ prev (item s a) = Some b.

Record pushed (s s' : fork_database) : Prop := {
  pushed_inv : fdb_inv s';
  pushed_extends : extends s s';
  pushed_unlinked : _unlinked_index s' `sublist_of` _unlinked_index s;
  pushed_index a : a ∈ _index s -> a ∈ _index s';
  pushed_head : _head s' = _head s \/
    exists h', _head s' = Some h' /\ forall h, _head s = Some h -> get_block_num s h < get_block_num s' h';
  pushed_max : head_max s -> head_max s';
  pushed_frame : _max_size s' = _max_size s /\ held s' = held s
}.

Lemma pushed_refl s : fdb_inv s -> pushed s s.
Proof. intros. constructor; auto; done. Qed.

Lemma pushed_trans s1 s2 s3 : fdb_inv s1 -> pushed s1 s2 -> pushed s2 s3 -> pushed s1 s3.
Proof.
  intros I1 H12 H23. constructor.
  - apply H23.
  - etrans; [apply H12|apply H23].
  - etrans; [apply H23|apply H12].
  - intros. by apply H23, H12.
  - destruct (pushed_head _ _ H23) as [E|(h3 & E3 & L3)].
    + destruct (pushed_head _ _ H12) as [E'|(h2 & E2 & L2)]; [left; congruence|].
      right. exists h2. split; [congruence|]. intros h Hh.
      assert (allocated s2 h2) by (apply (inv_alloc _ (pushed_inv _ _ H12)); auto).
      rewrite (extends_num s2 s3) by (done || apply H23). auto.
    + right. exists h3. split; [done|]. intros h Hh.
      assert (allocated s1 h) by (apply (inv_alloc _ I1); auto).
      destruct (pushed_head _ _ H12) as [E'|(h2 & E2 & L2)].
      * rewrite <- (extends_num s1 s2) by (done || apply H12). apply L3. congruence.
      * specialize (L2 _ Hh). specialize (L3 _ E2). lia.
  - intros. by apply H23, H12.
  - destruct (pushed_frame _ _ H12), (pushed_frame _ _ H23). split; congruence.
Qed.
End preservation.

Section pushing.
Context `{L : FcLib} `{!FcLaws L}.
Variable pick : list addr -> option addr.
(** A lookup in a hashed index finds an element of the group, if there is one. *)
Hypothesis pick_found : forall l a, pick l = Some a -> a ∈ l.
Hypothesis pick_none : forall l, pick l = None -> l = [].

Lemma insert_item_pushed s a : fdb_inv s -> allocated s a ->
  pushed s (insert_item s a) /\
  items (insert_item s a) = items s /\
  _index (insert_item s a) = multi_insert s a (_index s) /\
  _unlinked_index (insert_item s a) = _unlinked_index s /\
  is_Some (_head (insert_item s a)).
Proof.
  intros I Ha. unfold insert_item.
  set (s1 := set_index (multi_insert s a (_index s)) s).
  change (_head s1) with (_head s).
  set (better := match _head s with None => true | Some h => get_block_num s1 h <? get_block_num s1 a end).
  assert (forall h, h = Some a \/ h = _head s -> fdb_inv (set_head_ h s1)) as HI.
  { intros h Hh. apply (inv_containers s _ _ _ _ I).
    - intros b [Hb|[Hb|Hb]].
      + apply multi_insert_elem in Hb as [->|Hb]; [done|]. apply (inv_alloc _ I); auto.
      + apply (inv_alloc _ I); auto.
      + destruct Hh as [-> | ->]; [congruence|]. apply (inv_alloc _ I); auto.
    - apply multi_insert_sorted, (inv_sorted _ I).
    - apply (inv_unlinked_sorted _ I).
    - apply multi_insert_unique, (inv_unique _ I). }
  assert (better = false -> exists h, _head s = Some h /\ get_block_num s a <= get_block_num s h) as Hnb.
  { unfold better. destruct (_head s) as [h|]; [|done]. intros E. to_prop. eauto. }
  assert (better = true -> forall h, _head s = Some h -> get_block_num s h < get_block_num s a) as Hbt.
  { unfold better. intros E h Hh. rewrite Hh in E. to_prop. done. }
  destruct better; (split; [constructor|split_and!]); try done; try (by apply multi_insert_old);
    try (by apply extends_same_items).
  - apply HI; auto.
  - right. exists a. split; [done|]. auto.
  - intros Hm b Hb. exists a. split; [done|]. change (get_block_num s b <= get_block_num s a).
    apply multi_insert_elem in Hb as [->|Hb]; [lia|].
    destruct (Hm b Hb) as (h & Hh & Hle). specialize (Hbt eq_refl h Hh). lia.
  - exact (HI _ (or_intror eq_refl)).
  - by left.
  - intros Hm b Hb. destruct (Hnb eq_refl) as (h & Hh & Hle).
    apply multi_insert_elem in Hb as [->|Hb]; [by exists h|]. exact (Hm b Hb).
  - destruct (Hnb eq_refl) as (h & Hh & _). by exists h.
Qed.

Lemma try_link_pushed s a s' : fdb_inv s -> allocated s a -> try_link s a = Ok s' -> pushed s s'.
Proof.
  intros I Ha H. destruct (try_link_spec _ _ _ I Ha H) as (I' & He & Heq & _).
  assert (_index s' = _index s /\ _unlinked_index s' = _unlinked_index s /\ _head s' = _head s /\
          _max_size s' = _max_size s /\ held s' = held s) as (Ei & Eu & Eh & Em & Ed)
    by (rewrite Heq; done).
  constructor; rewrite ?Ei, ?Eu; auto.
  intros Hm b Hb. rewrite Ei in Hb. destruct (Hm b Hb) as (h & Hh & Hle).
  exists h. split; [congruence|].
  rewrite (extends_num s s' b), (extends_num s s' h) by (done || (apply (inv_alloc _ I); auto)). done.
Qed.

Lemma link_insert_linked s a s' : fdb_inv s -> allocated s a -> try_link s a = Ok s' ->
  (_index s = [] \/ (_head s <> None /\ previous_id s a <> null_id)) ->
  linked s -> linked (insert_item s' a).
Proof.
  intros I Ha H Hanch Hl.
  destruct (try_link_spec _ _ _ I Ha H) as (I' & He & Heq & Ha' & Hother & Hcase).
  destruct (insert_item_pushed s' a I' Ha') as (Hp & Eit & Eix & _ & _).
  set (s2 := insert_item s' a) in *.
  assert (forall c, get_block_num s2 c = get_block_num s' c) as Hn
    by (intros; unfold get_block_num, item; by rewrite Eit).
  assert (forall c, item s2 c = item s' c) as Hi by (intros; unfold item; by rewrite Eit).
  assert (_index s' = _index s) as Eis by (rewrite Heq; done).
  intros x m Hx Hm Hlt. rewrite !Hn in Hlt. rewrite Eix in *. rewrite Eis in *. rewrite Hi.
  destruct Hanch as [Hnil|[Hh Hnull]].
  { rewrite Hnil in *. apply multi_insert_elem in Hx, Hm.
    destruct Hx as [->|Hx], Hm as [->|Hm]; try lia; by apply elem_of_nil in Hx || apply elem_of_nil in Hm. }
  destruct Hcase as [?|[?|(b & Hb & Hpb & Hidb)]]; [done|done|].
  assert (forall c, c ∈ _index s -> allocated s c) as Hal by (intros; apply (inv_alloc _ I); auto).
  assert (get_block_num s' a = get_block_num s' b + 1) as Hnum.
  { apply linked_num; auto; [eapply extends_alloc; eauto|].
    rewrite (extends_id s s'), (extends_prev_id s s') by auto. done. }
  destruct (decide (x = a)) as [->|Hxa].
  { exists b. split; [by apply multi_insert_old|done]. }
  apply multi_insert_elem in Hx as [?|Hx]; [done|].
  assert (exists m', m' ∈ _index s /\ get_block_num s m' < get_block_num s x) as (m' & Hm' & Hlt').
  { rewrite <- (extends_num s s' x) by auto. apply multi_insert_elem in Hm as [->|Hm].
    - exists b. split; [done|]. rewrite <- (extends_num s s') by auto. lia.
    - exists m. split; [done|]. rewrite <- (extends_num s s' m) by auto. done. }
  destruct (Hl x m' Hx Hm' Hlt') as (y & Hy & Hpy).
  exists y. split; [by apply multi_insert_old|]. unfold item in *. by rewrite Hother.
Qed.

Lemma null_id_num : num_from_id null_id = 0.
Proof. unfold num_from_id. cbn. rewrite endian_reverse_u32_bytes; [done|unfold in_u; lia]. Qed.

Lemma real_id_not_null s a : fdb_inv s -> allocated s a -> get_block_id s a <> null_id.
Proof.
  intros I Ha E. pose proof (num_pos s a I Ha). destruct (item_wf s a I Ha) as [Hn _].
  unfold get_block_id in E. rewrite E, null_id_num in Hn. unfold get_block_num in H. lia.
Qed.

Lemma erase_sublist a l : erase a l `sublist_of` l.
Proof.
  unfold erase. induction l as [|b l IH]; [constructor|].
  rewrite filter_cons. case_decide; by constructor.
Qed.

Lemma erase_length a l : a ∈ l -> (length (erase a l) < length l)%nat.
Proof.
  unfold erase. induction l as [|b l IH]; [by intros ?%elem_of_nil|]. intros Hin.
  rewrite filter_cons. pose proof (sublist_length _ _ (erase_sublist a l)) as Hle. unfold erase in Hle.
  case_decide; simpl; [|lia]. apply elem_of_cons in Hin as [->|Hin]; [done|]. specialize (IH Hin). lia.
Qed.

Lemma set_unlinked_pushed s u : fdb_inv s -> u `sublist_of` _unlinked_index s -> pushed s (set_unlinked u s).
Proof.
  intros I Hs. constructor; auto; try done; [|by apply extends_same_items].
  apply (inv_containers s _ _ _ _ I); try apply I.
  - intros a [?|[Ha|?]]; apply (inv_alloc _ I); auto. right; left. by eapply elem_of_sublist.
  - eapply sorted_sublist; [done|apply I].
Qed.

(** The push of one item: it always returns, and what it establishes. *)
Definition push_block_post (s : fork_database) (a : addr) (s' : fork_database) (r : result unit) : Prop :=
  pushed s s' /\
  (r = Ok tt -> (exists b, b ∈ _index s' /\ get_block_id s' b = get_block_id s a) /\
                by_previous s' (_unlinked_index s') (get_block_id s a) = []) /\
  (r <> Ok tt -> s' = s) /\
  ((_index s = [] \/ (_head s <> None /\ previous_id s a <> null_id)) -> linked s -> linked s').

Lemma push_returns fuel :
  (forall s a, fdb_inv s -> allocated s a -> (2 * length (_unlinked_index s) + 2 <= fuel)%nat ->
     exists s' r, _push_block pick fuel s a = Some (s', r) /\ push_block_post s a s' r) /\
  (forall s id, fdb_inv s -> (2 * length (_unlinked_index s) + 1 <= fuel)%nat ->
     exists s', _push_next pick fuel s id = Some s' /\ pushed s s' /\
       by_previous s' (_unlinked_index s') id = [] /\
       (_head s <> None -> id <> null_id -> linked s -> linked s')).
Proof.
  induction fuel as [|fuel [IHb IHn]]; [split; intros; lia|]. split.
  - intros s a I Ha Hf. simpl. destruct (try_link s a) as [s1|e] eqn:E.
    2: { exists s, (Throw e). split; [done|]. split_and!; auto using pushed_refl; done. }
    pose proof (try_link_pushed _ _ _ I Ha E) as P1.
    destruct (try_link_spec _ _ _ I Ha E) as (I1 & He1 & Heq & Ha1 & _).
    destruct (insert_item_pushed s1 a I1 Ha1) as (P2 & Eit & Eix & Eu & Hh).
    set (s2 := insert_item s1 a) in *.
    assert (forall c, get_block_id s2 c = get_block_id s1 c) as Hg
      by (intros; unfold get_block_id, item; by rewrite Eit).
    assert (get_block_id s2 a = get_block_id s a) as Hid
      by (rewrite Hg; by apply extends_id).
    assert (_unlinked_index s1 = _unlinked_index s) as Eu1 by (rewrite Heq; done).
    rewrite Hid. destruct (IHn s2 (get_block_id s a)) as (s3 & -> & P3 & Hnil & Hl3);
      [apply P2|rewrite Eu, Eu1; lia|].
    exists s3, (Ok tt). split; [done|]. split_and!; [|intros _|done|].
    + eapply pushed_trans; [done|done|]. by eapply pushed_trans.
    + split; [|done]. destruct (multi_insert_id s1 a (_index s1)) as (b & Hb & Hbid).
      rewrite <- Eix in Hb. exists b. split; [by apply P3|].
      assert (allocated s2 b) by (apply (inv_alloc _ (pushed_inv _ _ P2)); auto).
      rewrite (extends_id s2 s3) by (done || apply P3).
      rewrite Hg, Hbid. by rewrite <- (Hg a).
    + intros Hanch Hl. apply Hl3; [by destruct Hh as [? ->]|by apply real_id_not_null|].
      by apply (link_insert_linked s a s1).
  - intros s id I Hf. simpl.
    destruct (pick (by_previous s (_unlinked_index s) id)) as [t|] eqn:E.
    2: { exists s. split_and!; auto using pushed_refl. }
    apply pick_found in E. apply list_elem_of_filter in E as [Hprev Hin].
    pose proof (erase_length t _ Hin).
    set (s1 := set_unlinked (erase t (_unlinked_index s)) s).
    assert (pushed s s1) as P1 by (apply set_unlinked_pushed; auto using erase_sublist).
    destruct (IHb s1 t) as (s2 & r & -> & P2 & Hok & Herr & Hl2);
      [apply P1|apply (inv_alloc _ I); auto|simpl; lia|].
    pose proof (sublist_length _ _ (pushed_unlinked _ _ P2)) as Hlen. simpl in Hlen.
    destruct (IHn s2 id) as (s3 & -> & P3 & Hnil & Hl3); [apply P2|lia|].
    exists s3. split_and!; auto.
    + eapply pushed_trans; [done|done|]. eapply pushed_trans; [apply P1|done|done].
    + intros Hh Hid Hl. apply Hl3; auto.
      * destruct (pushed_head _ _ P2) as [->|(h & -> & _)]; done.
      * apply Hl2; [|done]. right. split; [done|]. change (previous_id s t <> null_id). congruence.
Qed.
End pushing.

(** ** The fork database as a state machine *)

Section machine.
Context `{L : FcLib} `{!FcLaws L}.
Variable pick : list addr -> option addr.

(** One call of a public operation by the block writer.  [set_head] is only
    called with a pointer obtained from the database. *)
Inductive fdb_step : fork_database -> fork_database -> Prop :=
| step_start b s : block_wf b -> fdb_step s (start_block b s)
| step_push b s s' r : block_wf b -> push_block pick b s = Some (s', r) -> fdb_step s s'
| step_pop s s' r : pop_block s = (s', r) -> fdb_step s s'
| step_set_max_size n s : 0 <= n -> fdb_step s (set_max_size n s)
| step_set_head h s : (forall a, h = Some a -> allocated s a) -> fdb_step s (set_head h s)
| step_remove id s : fdb_step s (remove id s)
| step_reset s : fdb_step s (reset s).

Inductive reachable : fork_database -> Prop :=
| reachable_init : reachable fork_database_init
| reachable_step s s' : reachable s -> fdb_step s s' -> reachable s'.

Lemma set_head_inv h s : fdb_inv s -> (forall a, h = Some a -> allocated s a) -> fdb_inv (set_head_ h s).
Proof.
  intros I Hh. apply (inv_containers s _ _ _ _ I); try apply I.
  intros a [?|[?|?]]; [apply (inv_alloc _ I)|apply (inv_alloc _ I)|]; auto.
Qed.

Lemma set_index_inv l s : fdb_inv s -> l `sublist_of` _index s -> fdb_inv (set_index l s).
Proof.
  intros I Hl. apply (inv_containers s _ _ _ _ I); try apply I.
  - intros a [?|?]; apply (inv_alloc _ I); auto. left. by eapply elem_of_sublist.
  - eapply sorted_sublist; [done|apply I].
  - eapply sublist_NoDup; [apply (inv_unique _ I)|]. by apply fmap_sublist.
Qed.

Lemma unlinked_insert_inv a s : fdb_inv s -> allocated s a ->
  fdb_inv (set_unlinked (multi_insert s a (_unlinked_index s)) s).
Proof.
  intros I Ha. apply (inv_containers s _ _ _ _ I); try apply I.
  - intros b [?|[Hb|?]]; [apply (inv_alloc _ I); auto| |apply (inv_alloc _ I); auto].
    apply multi_insert_elem in Hb as [->|Hb]; [done|]. apply (inv_alloc _ I); auto.
  - apply multi_insert_sorted, I.
Qed.

Lemma lock_prev_alloc s a b : fdb_inv s -> lock_prev s a = Some b -> allocated s b.
Proof.
  intros I H. unfold lock_prev in H. destruct (prev (item s a)) as [b'|] eqn:E; [|done].
  destruct (live s b'); [|done]. injection H as ->. unfold item in E.
  destruct (items s !! a) as [it|] eqn:Ea; [|done]. by eapply (inv_links _ I).
Qed.

Lemma erase_old_sublist s t l : erase_old s t l `sublist_of` l.
Proof. induction l as [|a l IH]; simpl; [done|]. destruct (_ <=? _); [by constructor|done]. Qed.

Lemma erase_old_filter s t l : StronglySorted (by_num s) l ->
  erase_old s t l = filter (fun a => t < get_block_num s a) l.
Proof.
  induction 1 as [|a l Hl IH Ha]; [done|]. simpl. rewrite filter_cons.
  destruct (_ <=? t) eqn:E; to_prop.
  - rewrite decide_False by lia. done.
  - rewrite decide_True by lia. f_equal. symmetry. apply filter_all.
    eapply Forall_impl; [exact Ha|]. unfold by_num. lia.
Qed.

Lemma set_max_size_inv n s : fdb_inv s -> fdb_inv (set_max_size n s).
Proof.
  intros I.
  assert (fdb_inv (set_max n s)) as I' by (apply (inv_containers s _ _ _ _ I); apply I).
  unfold set_max_size. destruct (_head (set_max n s)) as [h|]; [|done].
  eapply pushed_inv, set_unlinked_pushed.
  - apply set_index_inv; [done|apply erase_old_sublist].
  - apply erase_old_sublist.
Qed.

Lemma remove_inv id s : fdb_inv s -> fdb_inv (remove id s).
Proof.
  intros I. unfold remove.
  set (s1 := match _head s with Some h => _ | None => s end).
  assert (fdb_inv s1) as I1.
  { unfold s1. destruct (_head s) as [h|]; [|done]. destruct (bool_decide _); [|done].
    apply set_head_inv; [done|]. intros a. by apply lock_prev_alloc. }
  destruct (find_id s1 (_index s1) id); [|done]. apply set_index_inv; auto using erase_sublist.
Qed.

Lemma pop_block_inv s : fdb_inv s -> fdb_inv (pop_block s).1.
Proof.
  intros I. unfold pop_block. destruct (_head s) as [h|]; [|done].
  destruct (lock_prev s h) as [p|] eqn:E; [|done]. apply set_head_inv; [done|].
  intros a [= ->]. by eapply lock_prev_alloc.
Qed.

Lemma start_block_inv b s : fdb_inv s -> block_wf b -> fdb_inv (start_block b s).
Proof.
  intros I Hb. unfold start_block. destruct (make_item b s) as [a s1] eqn:E.
  destruct (make_item_spec _ _ _ _ I Hb E) as (I1 & _ & _ & Ha & _).
  assert (allocated s1 a) as Hal by (eexists; exact Ha).
  apply (inv_containers s1 _ _ _ _ I1); try apply I1.
  - intros c [Hc|[Hc|Hc]]; [|apply (inv_alloc _ I1); auto|congruence].
    apply multi_insert_elem in Hc as [->|Hc]; [done|apply (inv_alloc _ I1); auto].
  - apply multi_insert_sorted, I1.
  - apply multi_insert_unique, I1.
Qed.

Hypothesis pick_found : forall l a, pick l = Some a -> a ∈ l.
Hypothesis pick_none : forall l, pick l = None -> l = [].

(** Everything a push does, on every outcome. *)
Lemma push_block_cases b s : fdb_inv s -> block_wf b ->
  exists s' r, push_block pick b s = Some (s', r) /\ fdb_inv s' /\ extends s s' /\
    (forall h, r = Ok h ->
       h = _head s' /\
       (_head s' = _head s \/
        exists h', _head s' = Some h' /\ forall h0, _head s = Some h0 -> get_block_num s h0 < get_block_num s' h') /\
       (head_max s -> head_max s') /\ (forall a, a ∈ _index s -> a ∈ _index s') /\
       (exists c, c ∈ _index s' /\ get_block_id s' c = block_id b) /\
       by_previous s' (_unlinked_index s') (block_id b) = []) /\
    (forall e, r = Throw e ->
       _index s' = _index s /\ _head s' = _head s /\
       (e = UnlinkableBlock -> is_known_block s' (block_id b) = true)) /\
    (_index s = [] \/ (_head s <> None /\ previous b <> null_id) -> linked s -> linked s').
Proof.
  intros I Hb. unfold push_block. destruct (make_item b s) as [a s1] eqn:E.
  destruct (make_item_spec _ _ _ _ I Hb E) as (I1 & He1 & Hfresh & Ha & Heq).
  assert (allocated s1 a) as Hal by (eexists; exact Ha).
  assert (_index s1 = _index s /\ _head s1 = _head s) as [Ei Eh] by (rewrite Heq; done).
  assert (get_block_id s1 a = block_id b /\ previous_id s1 a = previous b) as [Hid Hpid]
    by (unfold get_block_id, previous_id, item; rewrite Ha; done).
  assert (forall c, c ∈ _index s -> allocated s c) as Hc by (intros; apply (inv_alloc _ I); auto).
  assert (linked s -> linked s1) as Hl1.
  { intros Hl x m. rewrite Ei. intros Hx Hm.
    rewrite (extends_num s s1 x), (extends_num s s1 m) by auto. intros Hlt.
    destruct (Hl x m Hx Hm Hlt) as (y & Hy & Hpy). exists y. split; [done|].
    unfold item in *. rewrite Heq. cbn. injection E as Ea Es. rewrite <- Es. cbn.
    rewrite Ea. rewrite lookup_insert_ne; [done|]. intros ->. destruct (Hc _ Hx). congruence. }
  destruct (proj1 (push_returns pick pick_found pick_none (push_fuel s1)) s1 a I1 Hal (le_n _))
    as (s2 & r & -> & P & Hok & Herr & Hlk).
  rewrite Hid, Hpid, Ei, Eh in *.
  destruct r as [[]|e].
  - exists s2, (Ok (_head s2)). split; [done|]. split_and!; [apply P|etrans; [done|apply P]| |done|auto].
    intros h [= <-]. destruct (Hok eq_refl) as [Hin Hnil]. split_and!; auto.
    + destruct (pushed_head _ _ P) as [->|(h' & Hh' & Hlt)]; [by left|]. right. exists h'.
      split; [done|]. intros h0 Hh0. rewrite <- (extends_num s s1) by (auto; apply (inv_alloc _ I); auto).
      apply Hlt. congruence.
    + intros Hm. apply (pushed_max _ _ P). intros x. rewrite Ei. intros Hx.
      destruct (Hm x Hx) as (h & Hh & Hle). exists h. split; [congruence|].
      rewrite (extends_num s s1 x), (extends_num s s1 h) by (auto; apply (inv_alloc _ I); auto). done.
    + intros x Hx. apply P. congruence.
  - rewrite (Herr ltac:(done)) in *. clear Hok Herr Hlk P s2.
    destruct (decide (e = UnlinkableBlock)) as [->|Hne].
    + eexists _, _. split; [done|]. split_and!; [by apply unlinked_insert_inv|done|done| |auto].
      intros e [= <-]. split_and!; [done|done|]. intros _. unfold is_known_block.
      destruct (find_id _ _ (block_id b)); [done|].
      destruct (find_id _ (_unlinked_index _) (block_id b)) eqn:Ef; [done|].
      destruct (multi_insert_id s1 a (_unlinked_index s1)) as (c & Hcin & Hcid).
      exfalso. apply (find_id_None _ _ _ c Ef); [done|]. change (get_block_id s1 c = block_id b). congruence.
    + exists s1, (Throw e). split; [by destruct e|]. split_and!; auto; [done|].
      intros e' [= <-]. split_and!; auto.
Qed.
End machine.

(** ** Walking the tree *)

Section walking.
Context `{L : FcLib} `{!FcLaws L}.

(** [path s a l c]: following [prev] from [a] visits the items [l] and then [c]. *)
Inductive path (s : fork_database) : addr -> list addr -> addr -> Prop :=
| path_here a : path s a [] a
| path_up a b l c : lock_prev s a = Some b -> path s b l c -> path s a (a :: l) c.

(** The blocks [l] form a branch from the block [id] down to [common], which
    the last of them names as its predecessor. *)
Fixpoint branch (s : fork_database) (id : block_id_type) (l : list addr) (common : block_id_type) : Prop :=
  match l with
  | [] => id = common
  | a :: l' => get_block_id s a = id /\ branch s (previous_id s a) l' common
  end.

Lemma path_facts s a l c : fdb_inv s -> allocated s a -> path s a l c ->
  allocated s c /\ branch s (get_block_id s a) l (get_block_id s c) /\
  Forall (fun x => allocated s x /\ get_block_num s c < get_block_num s x <= get_block_num s a) l /\
  get_block_num s c <= get_block_num s a.
Proof.
  intros I Ha. induction 1 as [a|a b l c Hb Hp IH]; [by split_and!|].
  destruct (lock_prev_spec s a b I Ha Hb) as (Hal & Hid & Hn).
  destruct (IH Hal) as (H1 & H2 & H3 & H4). split_and!; auto; [|constructor|lia].
  - simpl. split; [done|]. by rewrite <- Hid.
  - split; [done|]. lia.
  - eapply Forall_impl; [exact H3|]. simpl. intros x [? ?]. split; [done|]. lia.
Qed.

Lemma path_app s a l1 b l2 c : path s a l1 b -> path s b l2 c -> path s a (l1 ++ l2) c.
Proof. induction 1; simpl; [done|]. intros. econstructor; eauto. Qed.

(** From an item one can only reach items through its predecessor. *)
Lemma path_inv s a l c : fdb_inv s -> allocated s a -> path s a l c ->
  get_block_num s c < get_block_num s a ->
  exists b l', lock_prev s a = Some b /\ path s b l' c /\ allocated s b /\
    get_block_num s a = get_block_num s b + 1.
Proof.
  intros I Ha Hp Hn. inversion Hp as [|? b l' ? Hb Hp']; subst; [lia|].
  destruct (lock_prev_spec s a b I Ha Hb) as (? & ? & ?). exists b, l'. auto.
Qed.

Lemma path_same_num s a l c : fdb_inv s -> allocated s a -> path s a l c ->
  get_block_num s a <= get_block_num s c -> a = c.
Proof.
  intros I Ha Hp Hn. inversion Hp as [|? b l' ? Hb Hp']; subst; [done|].
  destruct (lock_prev_spec s a b I Ha Hb) as (Hal & _ & ?).
  destruct (path_facts _ _ _ _ I Hal Hp') as (_ & _ & _ & ?). lia.
Qed.

Lemma climb_spec fuel s n a acc lc c : fdb_inv s -> allocated s a ->
  (Z.to_nat (get_block_num s a) < fuel)%nat ->
  path s a lc c -> get_block_num s c <= n ->
  exists a' l lc', climb fuel s n a acc = Some (Ok (a', acc ++ l)) /\
    path s a l a' /\ path s a' lc' c /\
    get_block_num s a' = Z.min n (get_block_num s a).
Proof.
  intros I. revert a acc lc. induction fuel as [|fuel IH]; intros a acc lc Ha Hf Hp Hc; [lia|].
  simpl. destruct (_ <? _) eqn:E; to_prop.
  - destruct (path_inv s a lc c I Ha Hp) as (b & l' & Hb & Hp' & Hal & Hn); [lia|].
    rewrite Hb. pose proof (num_pos s b I Hal).
    destruct (IH b (acc ++ [a]) l') as (a' & l & lc' & Hcl & Hpa & Hpc & Hm); [done|lia|done|done|].
    exists a', (a :: l), lc'. split_and!; [|by econstructor|done|lia].
    rewrite Hcl. by rewrite <- app_assoc.
  - exists a, [], lc. split_and!; [by rewrite app_nil_r|constructor|done|lia].
Qed.

Definition fork_pair (s : fork_database) (x y : addr) : Prop :=
  get_block_num s x = get_block_num s y /\ previous_id s x <> previous_id s y.

Lemma climb_both_spec fuel s a b la lb l1 l2 c : fdb_inv s -> allocated s a -> allocated s b ->
  get_block_num s a = get_block_num s b ->
  (Z.to_nat (get_block_num s a) < fuel)%nat ->
  path s a l1 c -> path s b l2 c ->
  exists a' b' ma mb, climb_both fuel s a b la lb = Some (Ok (a', b', la ++ ma, lb ++ mb)) /\
    path s a ma a' /\ path s b mb b' /\ Forall2 (fork_pair s) ma mb /\
    previous_id s a' = previous_id s b' /\ get_block_num s a' = get_block_num s b' /\
    (exists l1' l2', path s a' l1' c /\ path s b' l2' c).
Proof.
  intros I. revert a b la lb l1 l2.
  induction fuel as [|fuel IH]; intros a b la lb l1 l2 Ha Hb Hn Hf Hpa Hpb; [lia|].
  simpl. destruct (bool_decide _) eqn:E; to_prop.
  - exists a, b, [], []. split_and!; rewrite ?app_nil_r; eauto; constructor.
  - destruct (path_facts _ _ _ _ I Ha Hpa) as (_ & _ & _ & Hca).
    assert (get_block_num s c < get_block_num s a) as Hlt.
    { destruct (decide (get_block_num s a <= get_block_num s c)); [|lia]. exfalso. apply E.
      by rewrite (path_same_num s a l1 c), (path_same_num s b l2 c) by (done || lia). }
    destruct (path_inv s a l1 c I Ha Hpa) as (a1 & l1' & Ea & Hpa1 & Ha1 & Hna); [lia|].
    destruct (path_inv s b l2 c I Hb Hpb) as (b1 & l2' & Eb & Hpb1 & Hb1 & Hnb); [lia|].
    rewrite Ea, Eb. pose proof (num_pos s a1 I Ha1).
    destruct (IH a1 b1 (la ++ [a]) (lb ++ [b]) l1' l2') as (a' & b' & ma & mb & Hc & H1 & H2 & H3 & H4 & H5 & H6);
      [done|done|lia|lia|done|done|].
    exists a', b', (a :: ma), (b :: mb).
    split_and!; [|by econstructor|by econstructor| |done|done|done].
    + rewrite Hc. by rewrite <- !app_assoc.
    + constructor; [by split|done].
Qed.

(** Ids name their predecessor: what the block hash provides. *)
Definition ids_determine (s : fork_database) : Prop :=
  forall a b, allocated s a -> allocated s b -> get_block_id s a = get_block_id s b ->
    previous_id s a = previous_id s b.

Lemma id_num s a b : fdb_inv s -> allocated s a -> allocated s b ->
  get_block_id s a = get_block_id s b -> get_block_num s a = get_block_num s b.
Proof.
  intros I Ha Hb E. destruct (item_wf s a I Ha) as [Ea _], (item_wf s b I Hb) as [Eb _].
  unfold get_block_num. rewrite <- Ea, <- Eb. unfold get_block_id in E. by rewrite E.
Qed.

Lemma fork_pairs_apart s a b ma mb a' b' : fdb_inv s -> allocated s a -> allocated s b ->
  ids_determine s -> path s a ma a' -> path s b mb b' -> Forall2 (fork_pair s) ma mb ->
  forall x y, x ∈ ma -> y ∈ mb -> get_block_id s x <> get_block_id s y.
Proof.
  intros I Ha Hb Hdet Hpa. revert b mb Ha Hb. induction Hpa as [a|a a1 l c Ea Hp IH]; intros b mb Ha Hb Hpb H2 x y Hx Hy Hid.
  { by apply elem_of_nil in Hx. }
  inversion H2 as [|? y0 ? mb' [Hn Hne] H2']; subst.
  inversion Hpb as [|? b1 ? ? Eb Hpb']; subst.
  destruct (lock_prev_spec s a a1 I Ha Ea) as (Ha1 & _ & Hna).
  destruct (lock_prev_spec s y0 b1 I Hb Eb) as (Hb1 & _ & Hnb).
  destruct (path_facts _ _ _ _ I Ha1 Hp) as (_ & _ & Fa & _).
  destruct (path_facts _ _ _ _ I Hb1 Hpb') as (_ & _ & Fb & _).
  rewrite Forall_forall in Fa, Fb.
  apply elem_of_cons in Hx as [->|Hx], Hy as [->|Hy].
  - by apply Hne, Hdet.
  - destruct (Fb _ Hy) as [Hay ?]. pose proof (id_num s a y I Ha Hay Hid). lia.
  - destruct (Fa _ Hx) as [Hax ?]. pose proof (id_num s x y0 I Hax Hb Hid). lia.
  - by apply (IH b1 mb' Ha1 Hb1 Hpb' H2' x y).
Qed.

Lemma branch_snoc s id l a c : branch s id l (get_block_id s a) -> c = previous_id s a ->
  branch s id (l ++ [a]) c.
Proof.
  revert id. induction l as [|x l IH]; intros id; simpl; [|naive_solver].
  intros -> ->. done.
Qed.
End walking.

Section branches.
Context `{L : FcLib} `{!FcLaws L}.

Definition apart (s : fork_database) (la lb : list addr) : Prop :=
  forall x y, x ∈ la -> y ∈ lb -> get_block_id s x <> get_block_id s y.

Lemma apart_nums s la lb : fdb_inv s ->
  (forall x y, x ∈ la -> y ∈ lb ->
     allocated s x /\ allocated s y /\ get_block_num s x <> get_block_num s y) ->
  apart s la lb.
Proof. intros I H x y Hx Hy E. destruct (H x y Hx Hy) as (? & ? & Hn). by apply Hn, id_num. Qed.

Lemma apart_app s l1 l2 m1 m2 : apart s l1 m1 -> apart s l1 m2 -> apart s l2 m1 -> apart s l2 m2 ->
  apart s (l1 ++ l2) (m1 ++ m2).
Proof. intros H1 H2 H3 H4 x y [Hx|Hx]%elem_of_app [Hy|Hy]%elem_of_app; auto. Qed.

(** The two aligned walks give branches that stay apart. *)
Lemma aligned_apart s a l1 a1 ma a' b l2 b1 mb b' :
  fdb_inv s -> ids_determine s -> allocated s a -> allocated s b ->
  path s a l1 a1 -> path s b l2 b1 -> path s a1 ma a' -> path s b1 mb b' ->
  get_block_num s a1 = get_block_num s b1 ->
  (get_block_num s a1 = get_block_num s a \/ get_block_num s b1 = get_block_num s b) ->
  Forall2 (fork_pair s) ma mb -> get_block_num s a' = get_block_num s b' ->
  apart s (l1 ++ ma) (l2 ++ mb) /\
  (get_block_id s a' <> get_block_id s b' -> apart s ((l1 ++ ma) ++ [a']) ((l2 ++ mb) ++ [b'])).
Proof.
  intros I Hdet Ha Hb P1 P2 Q1 Q2 Hn Hone HF Hn'.
  destruct (path_facts _ _ _ _ I Ha P1) as (Ha1 & _ & F1 & N1).
  destruct (path_facts _ _ _ _ I Hb P2) as (Hb1 & _ & F2 & N2).
  destruct (path_facts _ _ _ _ I Ha1 Q1) as (Ha' & _ & F3 & N3).
  destruct (path_facts _ _ _ _ I Hb1 Q2) as (Hb' & _ & F4 & N4).
  rewrite Forall_forall in F1, F2, F3, F4.
  assert (apart s (l1 ++ ma) (l2 ++ mb)) as Hap.
  { apply apart_app.
    - apply apart_nums; [done|]. intros x y Hx Hy.
      destruct (F1 _ Hx) as [? ?], (F2 _ Hy) as [? ?]. lia.
    - apply apart_nums; [done|]. intros x y Hx Hy.
      destruct (F1 _ Hx) as [? ?], (F4 _ Hy) as [? ?]. split_and!; auto. lia.
    - apply apart_nums; [done|]. intros x y Hx Hy.
      destruct (F3 _ Hx) as [? ?], (F2 _ Hy) as [? ?]. split_and!; auto. lia.
    - exact (fork_pairs_apart s a1 b1 ma mb a' b' I Ha1 Hb1 Hdet Q1 Q2 HF). }
  split; [done|]. intros Hne. apply apart_app; [done| | |].
  - apply apart_nums; [done|]. intros x y Hx ->%list_elem_of_singleton.
    apply elem_of_app in Hx as [Hx|Hx]; [destruct (F1 _ Hx) as [? ?]|destruct (F3 _ Hx) as [? ?]];
      split_and!; auto; lia.
  - apply apart_nums; [done|]. intros x y ->%list_elem_of_singleton Hy.
    apply elem_of_app in Hy as [Hy|Hy]; [destruct (F2 _ Hy) as [? ?]|destruct (F4 _ Hy) as [? ?]];
      split_and!; auto; lia.
  - by intros x y ->%list_elem_of_singleton ->%list_elem_of_singleton.
Qed.

(** The two walks of [fetch_branch_from], for blocks with a common ancestor [c]. *)
Lemma fetch_branch_walks s first second a b l1 l2 c :
  fdb_inv s -> ids_determine s ->
  find_id s (_index s) first = Some a -> find_id s (_index s) second = Some b ->
  path s a l1 c -> path s b l2 c ->
  exists a' b' la lb, path s a la a' /\ path s b lb b' /\ (exists l1' l2', path s a' l1' c /\ path s b' l2' c) /\
    previous_id s a' = previous_id s b' /\ get_block_num s a' = get_block_num s b' /\ apart s la lb /\
    (get_block_id s a' <> get_block_id s b' -> apart s (la ++ [a']) (lb ++ [b'])) /\
    fetch_branch_from s first second =
      Some (Ok (if bool_decide (get_block_id s a' = get_block_id s b') then (la, lb) else (la ++ [a'], lb ++ [b']))).
Proof.
  intros I Hdet Ea Eb Hpa Hpb. unfold fetch_branch_from. rewrite Ea, Eb.
  apply find_id_Some in Ea as [Hina Hida], Eb as [Hinb Hidb].
  assert (allocated s a) as Ha by (apply (inv_alloc _ I); auto).
  assert (allocated s b) as Hb by (apply (inv_alloc _ I); auto).
  destruct (path_facts _ _ _ _ I Ha Hpa) as (Hc & _ & _ & Nca).
  destruct (path_facts _ _ _ _ I Hb Hpb) as (_ & _ & _ & Ncb).
  destruct (climb_spec (walk_fuel s a) s (get_block_num s b) a [] l1 c) as (a1 & m1 & l1' & -> & P1 & P1' & N1);
    [done|done|unfold walk_fuel; lia|done|done|].
  destruct (path_facts _ _ _ _ I Ha P1) as (Ha1 & B1 & _ & _).
  destruct (climb_spec (walk_fuel s b) s (get_block_num s a1) b [] l2 c) as (b1 & m2 & l2' & -> & P2 & P2' & N2);
    [done|done|unfold walk_fuel; lia|done|lia|].
  destruct (path_facts _ _ _ _ I Hb P2) as (Hb1 & B2 & _ & _).
  destruct (climb_both_spec (walk_fuel s a1) s a1 b1 ([] ++ m1) ([] ++ m2) l1' l2' c)
    as (a2 & b2 & ma & mb & -> & Q1 & Q2 & HF & Hp & Hn2 & Hc2);
    [done|done|done|lia|unfold walk_fuel; lia|done|done|].
  destruct (aligned_apart s a m1 a1 ma a2 b m2 b1 mb b2) as [Hap Hap']; auto; [lia|lia|].
  exists a2, b2, (m1 ++ ma), (m2 ++ mb). split_and!; try done; [by eapply path_app..|]. cbn. by destruct (bool_decide _).
Qed.

(** Asked for two known blocks that descend from a common block,
    [fetch_branch_from] always returns two branches, one down from each block,
    which end on the same predecessor and have no block in common: that
    predecessor is their most recent common ancestor. *)
Theorem fetch_branch_from_correct s first second a b l1 l2 c :
  fdb_inv s -> ids_determine s ->
  find_id s (_index s) first = Some a -> find_id s (_index s) second = Some b ->
  path s a l1 c -> path s b l2 c ->
  exists la lb common,
    fetch_branch_from s first second = Some (Ok (la, lb)) /\
    branch s first la common /\ branch s second lb common /\ apart s la lb.
Proof.
  intros I Hdet Ea Eb Hpa Hpb.
  destruct (fetch_branch_walks s first second a b l1 l2 c I Hdet Ea Eb Hpa Hpb)
    as (a' & b' & la & lb & P1 & P2 & _ & Hp & _ & Hap & Hap' & ->).
  apply find_id_Some in Ea as [Hina <-], Eb as [Hinb <-].
  destruct (path_facts _ _ _ _ I (inv_alloc _ I a (or_introl Hina)) P1) as (_ & BA & _ & _).
  destruct (path_facts _ _ _ _ I (inv_alloc _ I b (or_introl Hinb)) P2) as (_ & BB & _ & _).
  destruct (bool_decide (get_block_id s a' = get_block_id s b')) eqn:E; to_prop.
  - eexists _, _, (get_block_id s a'). split; [done|]. split_and!; [done|by rewrite E|done].
  - eexists _, _, (previous_id s a'). split; [done|].
    split_and!; [by apply branch_snoc|by apply branch_snoc|by apply Hap'].
Qed.
End branches.

(** ** Queries by number *)

Section by_number.
Context `{L : FcLib} `{!FcLaws L}.

Lemma take_num_none s n l : Forall (fun a => n < get_block_num s a) l ->
  filter (fun a => get_block_num s a = n) l = [].
Proof.
  induction 1 as [|a l Ha Hl IH]; [done|]. rewrite filter_cons, decide_False by lia. done.
Qed.

Lemma take_num_filter s n l : StronglySorted (by_num s) l ->
  Forall (fun a => n <= get_block_num s a) l ->
  take_num s n l = filter (fun a => get_block_num s a = n) l.
Proof.
  induction 1 as [|a l Hl IH Ha]; [done|]. intros HF. apply Forall_cons in HF as [Hn HF].
  simpl. rewrite filter_cons. destruct (_ =? n) eqn:E; to_prop.
  - rewrite decide_True by done. f_equal. auto.
  - rewrite decide_False by done. symmetry. apply take_num_none.
    eapply Forall_impl; [exact Ha|]. unfold by_num. simpl. lia.
Qed.

Lemma lookup_num_filter s n l : StronglySorted (by_num s) l ->
  take_num s n (lower_bound s n l) = filter (fun a => get_block_num s a = n) l.
Proof.
  induction 1 as [|a l Hl IH Ha]; [done|]. cbn [lower_bound]. destruct (_ <? n) eqn:E; to_prop.
  - rewrite IH. rewrite filter_cons, decide_False by lia. done.
  - apply take_num_filter; [by constructor|]. constructor; [done|].
    eapply Forall_impl; [exact Ha|]. unfold by_num. simpl. lia.
Qed.

Lemma in_index_live s a : a ∈ _index s -> live s a = true.
Proof. intros. unfold live. rewrite bool_decide_true by done. done. Qed.

(** In a linked tree the walk down from an indexed item stays in the index and
    stops exactly at the number asked for. *)
Lemma walk_down_linked fuel s n a m : fdb_inv s -> linked s ->
  a ∈ _index s -> m ∈ _index s -> get_block_num s m <= n <= get_block_num s a ->
  (Z.to_nat (get_block_num s a) < fuel)%nat ->
  exists b l, walk_down fuel s n a = Some (Some b) /\ b ∈ _index s /\ get_block_num s b = n /\ path s a l b.
Proof.
  intros I Hl. revert a. induction fuel as [|fuel IH]; intros a Ha Hm Hn Hf; [lia|].
  assert (forall c, c ∈ _index s -> allocated s c) as Hal by (intros; apply (inv_alloc _ I); auto).
  simpl. destruct (_ <? _) eqn:E; to_prop.
  - destruct (Hl a m Ha Hm) as (b & Hb & Hpb); [lia|].
    assert (lock_prev s a = Some b) as Hlk by (unfold lock_prev; by rewrite Hpb, in_index_live).
    rewrite Hlk. destruct (lock_prev_spec s a b I (Hal _ Ha) Hlk) as (_ & _ & Hnum).
    pose proof (num_pos s b I (Hal _ Hb)).
    destruct (IH b) as (x & l & ? & ? & ? & ?); [done|done|lia|lia|].
    exists x, (a :: l). split_and!; auto. by econstructor.
  - exists a, []. split_and!; auto; [lia|constructor].
Qed.

(** The short cuts of the lookup by number agree with the walk. *)
Lemma main_branch_lookup s h n m :
  fdb_inv s -> linked s -> _head s = Some h -> h ∈ _index s ->
  m ∈ _index s -> get_block_num s m <= n <= get_block_num s h ->
  exists a l, fetch_block_on_main_branch_by_number s n = Some (Some a) /\
    walk_main_branch_to_num s n = Some (Some a) /\
    get_block_num s a = n /\ path s h l a.
Proof.
  intros I Hl Hh Hin Hm Hn.
  destruct (walk_down_linked (walk_fuel s h) s n h m) as (a & l & Hw & Ha & Hna & Hp);
    [done|done|done|done|done|unfold walk_fuel; lia|].
  assert (walk_main_branch_to_num s n = Some (Some a)) as Hwalk.
  { unfold walk_main_branch_to_num. rewrite Hh. by rewrite (proj2 (Z.ltb_ge _ _)) by lia. }
  exists a, l. split_and!; auto. unfold fetch_block_on_main_branch_by_number. rewrite Hh.
  rewrite (proj2 (Z.ltb_ge _ _)) by lia.
  unfold fetch_block_by_number. rewrite lookup_num_filter by apply I.
  assert (a ∈ filter (fun x => get_block_num s x = n) (_index s)) as Haf
    by (by apply list_elem_of_filter).
  destruct (filter _ _) as [|x [|y l']] eqn:E; [by apply elem_of_nil in Haf| |done].
  apply list_elem_of_singleton in Haf. by subst.
Qed.

(** As long as the tree is linked and its head indexed, looking up a block
    of the main branch by number takes its short cuts safely: for every number
    in the range of the database it returns the very block that the walk down
    from the head reaches, an ancestor of the head with that number. *)
Theorem fetch_block_on_main_branch_is_walk s h n m :
  fdb_inv s -> linked s -> _head s = Some h -> h ∈ _index s ->
  m ∈ _index s -> get_block_num s m <= n <= get_block_num s h ->
  exists a l, fetch_block_on_main_branch_by_number s n = Some (Some a) /\
    walk_main_branch_to_num s n = Some (Some a) /\
    get_block_num s a = n /\ path s h l a.
Proof. apply main_branch_lookup. Qed.

(** Setting the size of the cache with a head keeps exactly the blocks
    above the new threshold, linked and unlinked, in their order, and a linked
    tree stays linked. *)
Theorem set_max_size_keeps_window s h n :
  fdb_inv s -> _head s = Some h ->
  let t := Z.max 0 (get_block_num s h - n) in
  _index (set_max_size n s) = filter (fun a => t < get_block_num s a) (_index s) /\
  _unlinked_index (set_max_size n s) = filter (fun a => t < get_block_num s a) (_unlinked_index s) /\
  _head (set_max_size n s) = Some h /\
  (linked s -> linked (set_max_size n s)).
Proof.
  intros I Hh t.
  assert (_index (set_max_size n s) = filter (fun a => t < get_block_num s a) (_index s)) as Ei.
  { unfold set_max_size. cbn. rewrite Hh. cbn.
    apply (erase_old_filter (set_max n s)), (inv_sorted _ I). }
  assert (forall a, get_block_num (set_max_size n s) a = get_block_num s a /\
                    item (set_max_size n s) a = item s a) as Hsame.
  { intros a. unfold set_max_size. cbn. rewrite Hh. done. }
  split_and!; [done| | |].
  - unfold set_max_size. cbn. rewrite Hh. cbn.
    exact (erase_old_filter (set_index _ (set_max n s)) t _ (inv_unlinked_sorted _ I)).
  - unfold set_max_size. cbn. rewrite Hh. done.
  - intros Hl a m Ha Hm. rewrite Ei in *.
    apply list_elem_of_filter in Ha as [Hta Ha], Hm as [Htm Hm].
    destruct (Hsame a) as [-> ->], (Hsame m) as [-> _]. intros Hlt.
    destruct (Hl a m Ha Hm Hlt) as (b & Hb & Hpb). exists b. split; [|done].
    apply list_elem_of_filter. split; [|done].
    assert (allocated s a) as [it Hit] by (apply (inv_alloc _ I); auto).
    rewrite (item_lookup _ _ _ Hit) in Hpb. destruct (inv_links _ I _ _ _ Hit Hpb) as [Hab Hid].
    assert (get_block_num s a = get_block_num s b + 1); [|lia].
    apply linked_num; [done|by eexists|done|]. rewrite Hid. unfold previous_id.
    by rewrite (item_lookup _ _ _ Hit).
Qed.
End by_number.

(** ** Histories *)

Section histories.
Context `{L : FcLib} `{!FcLaws L}.
Variable pick : list addr -> option addr.
Hypothesis pick_found : forall l a, pick l = Some a -> a ∈ l.
Hypothesis pick_none : forall l, pick l = None -> l = [].

(** Every state the fork database can reach through its operations, in any
    order and with every outcome, satisfies the invariant: the stored blocks are
    well numbered, every [prev] pointer leads to the block named by
    [previous_id], the containers hold allocated items sorted by number, and
    no id is indexed twice. *)
Theorem reachable_fdb_inv s : reachable pick s -> fdb_inv s.
Proof.
  induction 1 as [|s s' Hr IH Hs]; [by constructor; try constructor; cbn; intros; try done; set_solver|].
  destruct Hs as [b s Hb|b s s' r Hb E|s s' r E|n s Hn|h s Hh|id s|s].
  - by apply start_block_inv.
  - destruct (push_block_cases pick pick_found pick_none b s IH Hb) as (? & ? & E' & ? & _). congruence.
  - replace s' with (pop_block s).1 by (by rewrite E). by apply pop_block_inv.
  - by apply set_max_size_inv.
  - by apply set_head_inv.
  - by apply remove_inv.
  - apply (set_index_inv [] (set_head_ None s)); [by apply set_head_inv|apply sublist_nil_l].
Qed.

(** C23. Pushing a block always returns (the recursion through the cache of
    unlinked blocks ends).  When it succeeds the block is indexed, nothing is
    dropped from the index, the head is unchanged or replaced by a strictly
    higher block, a head of maximal height stays of maximal height, and no
    cached block still waits for the pushed one. *)
Theorem push_block_extends_tree b s : fdb_inv s -> block_wf b ->
  exists s' r, push_block pick b s = Some (s', r) /\ fdb_inv s' /\
    (forall h, r = Ok h ->
       h = _head s' /\
       (_head s' = _head s \/
        exists h', _head s' = Some h' /\ forall h0, _head s = Some h0 -> get_block_num s h0 < get_block_num s' h') /\
       (head_max s -> head_max s') /\
       (forall a, a ∈ _index s -> a ∈ _index s') /\
       (exists c, c ∈ _index s' /\ get_block_id s' c = block_id b) /\
       by_previous s' (_unlinked_index s') (block_id b) = []).
Proof.
  intros I Hb. destruct (push_block_cases pick pick_found pick_none b s I Hb) as (s' & r & ? & ? & _ & ? & _).
  eauto 10.
Qed.

(** A push that throws changes neither the index nor the head, and a block
    that failed to link is remembered: it is a known block afterwards. *)
Theorem push_block_failure_is_harmless b s s' e : fdb_inv s -> block_wf b ->
  push_block pick b s = Some (s', Throw e) ->
  _index s' = _index s /\ _head s' = _head s /\
  (e = UnlinkableBlock -> is_known_block s' (block_id b) = true).
Proof.
  intros I Hb E. destruct (push_block_cases pick pick_found pick_none b s I Hb) as (? & ? & E' & _ & _ & _ & H & _).
  rewrite E in E'. injection E' as <- <-. eauto.
Qed.

(** Pushing onto a database with a head keeps the tree linked: every block
    above the lowest number still hangs on an indexed predecessor. *)
Theorem push_block_keeps_linked b s s' r : fdb_inv s -> block_wf b ->
  _head s <> None -> previous b <> null_id -> linked s ->
  push_block pick b s = Some (s', r) -> linked s'.
Proof.
  intros I Hb Hh Hp Hl E.
  destruct (push_block_cases pick pick_found pick_none b s I Hb) as (? & ? & E' & _ & _ & _ & _ & H).
  rewrite E in E'. injection E' as <- <-. auto.
Qed.
End histories.

(** ** A concrete history *)

Module Sample.
#[local] Existing Instance fc_ref.
#[local] Existing Instance fc_ref_laws.

Definition pick_first (l : list addr) : option addr := head l.

Lemma pick_first_found l a : pick_first l = Some a -> a ∈ l.
Proof. destruct l as [|b l]; [done|]. intros [= ->]. apply elem_of_cons. by left. Qed.
Lemma pick_first_none l : pick_first l = None -> l = [].
Proof. by destruct l. Qed.

(** Block number [n] of the fork [x], on top of the block [n - 1] of the fork [px]. *)
Definition sid (n x : Z) : block_id_type := construct_block_id [0; x; 0; 0; 0; 0; 0] n.
Definition blk (n x px : Z) : full_block_type := mk_block (sid n x) (sid (n - 1) px) 0 "w".

Definition push_state (b : full_block_type) (s : fork_database) : fork_database :=
  match push_block pick_first b s with Some (s', _) => s' | None => s end.

Lemma push_state_inv b s : fdb_inv s -> block_wf b -> fdb_inv (push_state b s).
Proof.
  intros I Hb. unfold push_state.
  destruct (push_block_cases pick_first pick_first_found pick_first_none b s I Hb) as (s' & r & -> & I' & _).
  done.
Qed.

Lemma push_state_step b s : fdb_inv s -> block_wf b -> fdb_step pick_first s (push_state b s).
Proof.
  intros I Hb. unfold push_state.
  destruct (push_block_cases pick_first pick_first_found pick_first_none b s I Hb) as (s' & r & E & _).
  rewrite E. by eapply step_push.
Qed.

Lemma init_inv : fdb_inv fork_database_init.
Proof. by constructor; try constructor; cbn; intros; try done; set_solver. Qed.

Definition block_wfb (b : full_block_type) : bool :=
  (num_from_id (block_id b) =? block_num b) && (0 <=? num_from_id (previous b))
  && (num_from_id (previous b) <? 2 ^ 32 - 1).
Lemma block_wfb_ok b : block_wfb b = true -> block_wf b.
Proof. unfold block_wfb, block_wf. intros H. to_prop. lia. Qed.

(** Two forks on block 1, the second one out of order and longer. *)
Definition db1 : fork_database := start_block (blk 1 1 0) fork_database_init.
Definition db3 : fork_database := push_state (blk 3 1 1) (push_state (blk 2 1 1) db1).
Definition db4 : fork_database := push_state (blk 4 2 2) (push_state (blk 3 2 2) db3).
Definition db5 : fork_database := push_state (blk 2 2 1) db4.

Ltac sample_wf := apply block_wfb_ok; vm_compute; reflexivity.
Lemma db1_inv : fdb_inv db1.
Proof. refine (start_block_inv (blk 1 1 0) fork_database_init init_inv _). sample_wf. Qed.
Lemma db2_inv : fdb_inv (push_state (blk 2 1 1) db1).
Proof. refine (push_state_inv (blk 2 1 1) db1 db1_inv _). sample_wf. Qed.
Lemma db3_inv : fdb_inv db3.
Proof. refine (push_state_inv (blk 3 1 1) _ db2_inv _). sample_wf. Qed.
Lemma db4_inv : fdb_inv db4.
Proof.
  refine (push_state_inv (blk 4 2 2) _ (push_state_inv (blk 3 2 2) _ db3_inv _) _); sample_wf.
Qed.
Lemma db5_inv : fdb_inv db5.
Proof. refine (push_state_inv (blk 2 2 1) db4 db4_inv _). sample_wf. Qed.

Definition linkedb (s : fork_database) : bool :=
  forallb (fun a => forallb (fun m =>
    negb (get_block_num s m <? get_block_num s a)
    || match prev (item s a) with Some b => bool_decide (b ∈ _index s) | None => false end)
    (_index s)) (_index s).
Lemma linkedb_ok s : linkedb s = true -> linked s.
Proof.
  unfold linkedb. intros H a m Ha Hm Hlt. rewrite List.forallb_forall in H.
  apply list_elem_of_In in Ha, Hm. specialize (H a Ha). rewrite List.forallb_forall in H. specialize (H m Hm).
  apply Z.ltb_lt in Hlt. rewrite Hlt in H. simpl in H.
  destruct (prev (item s a)) as [b|]; [|done]. apply bool_decide_eq_true in H. eauto.
Qed.

Definition ids_determineb (s : fork_database) : bool :=
  bool_decide (map_Forall (fun _ it => map_Forall (fun _ it' =>
    block_id (full_block it) = block_id (full_block it') ->
    previous (full_block it) = previous (full_block it')) (items s)) (items s)).
Lemma ids_determineb_ok s : ids_determineb s = true -> ids_determine s.
Proof.
  unfold ids_determineb. intros H. apply bool_decide_eq_true in H. intros a b [it Ha] [it' Hb].
  unfold get_block_id, previous_id. rewrite (item_lookup _ _ _ Ha), (item_lookup _ _ _ Hb).
  by apply (H a it Ha b it').
Qed.

Lemma reachable_fdb_inv_witness : fdb_inv db3.
Proof.
  refine (reachable_fdb_inv pick_first pick_first_found pick_first_none db3 _).
  apply (reachable_step _ (push_state (blk 2 1 1) db1)).
  - apply (reachable_step _ db1).
    + apply (reachable_step _ fork_database_init); [constructor|].
      refine (step_start pick_first (blk 1 1 0) fork_database_init _).
      sample_wf.
    + refine (push_state_step (blk 2 1 1) db1 db1_inv _). sample_wf.
  - refine (push_state_step (blk 3 1 1) _ db2_inv _). sample_wf.
Defined.

(** Pushing the missing block 2 of the second fork links the two cached blocks
    and moves the head to block 4. *)
Example out_of_order_push :
  head_block_num db4 = 3 /\ length (_unlinked_index db4) = 2%nat /\
  head_block_num db5 = 4 /\ _unlinked_index db5 = [] /\ length (_index db5) = 6%nat.
Proof. vm_compute. done. Qed.

Lemma push_block_extends_tree_witness :
  exists s' r, push_block pick_first (blk 2 2 1) db4 = Some (s', r) /\ fdb_inv s' /\
    (forall h, r = Ok h ->
       h = _head s' /\
       (_head s' = _head db4 \/
        exists h', _head s' = Some h' /\ forall h0, _head db4 = Some h0 -> get_block_num db4 h0 < get_block_num s' h') /\
       (head_max db4 -> head_max s') /\
       (forall a, a ∈ _index db4 -> a ∈ _index s') /\
       (exists c, c ∈ _index s' /\ get_block_id s' c = sid 2 2) /\
       by_previous s' (_unlinked_index s') (sid 2 2) = []).
Proof.
  refine (push_block_extends_tree pick_first pick_first_found pick_first_none (blk 2 2 1) db4 _ _).
  - apply db4_inv.
  - sample_wf.
Defined.

Lemma push_block_failure_is_harmless_witness :
  _index (push_state (blk 3 2 2) db3) = _index db3 /\ _head (push_state (blk 3 2 2) db3) = _head db3 /\
  (UnlinkableBlock = UnlinkableBlock -> is_known_block (push_state (blk 3 2 2) db3) (sid 3 2) = true).
Proof.
  refine (push_block_failure_is_harmless pick_first pick_first_found pick_first_none (blk 3 2 2) db3
            (push_state (blk 3 2 2) db3) UnlinkableBlock _ _ _).
  - apply db3_inv.
  - sample_wf.
  - vm_compute. reflexivity.
Defined.

Lemma push_block_keeps_linked_witness : linked db5.
Proof.
  refine (push_block_keeps_linked pick_first pick_first_found pick_first_none (blk 2 2 1) db4 db5
            (Ok (_head db5)) _ _ _ _ _ _).
  - apply db4_inv.
  - sample_wf.
  - vm_compute. discriminate.
  - vm_compute. discriminate.
  - apply linkedb_ok. vm_compute. reflexivity.
  - vm_compute. reflexivity.
Defined.

Lemma set_max_size_keeps_window_witness :
  _index (set_max_size 2 db5) = filter (fun a => 2 < get_block_num db5 a) (_index db5).
Proof.
  refine (proj1 (set_max_size_keeps_window db5 (default O (_head db5)) 2 _ _)).
  - apply db5_inv.
  - vm_compute. reflexivity.
Defined.

Lemma fetch_block_on_main_branch_is_walk_witness :
  exists a l, fetch_block_on_main_branch_by_number db5 2 = Some (Some a) /\
    walk_main_branch_to_num db5 2 = Some (Some a) /\
    get_block_num db5 a = 2 /\ path db5 (default O (_head db5)) l a.
Proof.
  refine (fetch_block_on_main_branch_is_walk db5 (default O (_head db5)) 2 (default O (head (_index db5))) _ _ _ _ _ _).
  - apply db5_inv.
  - apply linkedb_ok. vm_compute. reflexivity.
  - vm_compute. reflexivity.
  - refine (bool_decide_eq_true_1 (_ ∈ _) _). vm_compute. reflexivity.
  - refine (bool_decide_eq_true_1 (_ ∈ _) _). vm_compute. reflexivity.
  - vm_compute. split; discriminate.
Defined.

(** The items of db5 by id. *)
Definition at_id (n x : Z) : addr := default O (find_id db5 (_index db5) (sid n x)).

Lemma fetch_branch_from_correct_witness :
  exists la lb common,
    fetch_branch_from db5 (sid 4 2) (sid 3 1) = Some (Ok (la, lb)) /\
    branch db5 (sid 4 2) la common /\ branch db5 (sid 3 1) lb common /\ apart db5 la lb.
Proof.
  refine (fetch_branch_from_correct db5 (sid 4 2) (sid 3 1) (at_id 4 2) (at_id 3 1)
            [at_id 4 2; at_id 3 2; at_id 2 2] [at_id 3 1; at_id 2 1] (at_id 1 1) _ _ _ _ _ _).
  - apply db5_inv.
  - apply ids_determineb_ok. vm_compute. reflexivity.
  - vm_compute. reflexivity.
  - vm_compute. reflexivity.
  - repeat (eapply path_up; [vm_compute; reflexivity|]). apply path_here.
  - repeat (eapply path_up; [vm_compute; reflexivity|]). apply path_here.
Defined.
End Sample.
