(* ===== verification/Chainbase.v ===== *)
(** * The object store and its undo history

    Models the [generic_index] of
    libraries/chainbase/include/chainbase/chainbase.hpp: the objects of one type
    with their ids and unique keys, the stack of undo states that records how
    to return to earlier revisions, and the [database] that drives all indexes
    together (chainbase.hpp, src/chainbase.cpp) with its undo sessions.

    The multi-index container is the map from ids to objects; [clash] says when
    two objects agree on a unique secondary key.  A failed [modify] of the
    container erases the element, as its documentation says.  An undo frame is
    kept at the head of [stack] when it is the back of the deque. *)

From stdpp Require Import base numbers option list sorting gmap sets.
From S2P Require Import Prelude.
Open Scope Z_scope.

(** The objects of an index: their unique keys, the memory they own and the
    check an object makes before an explicit removal. *)
Class ChainObject (V : Type) := {
  clash : V -> V -> Prop;
  clash_dec :: RelDecision clash;
  get_dynamic_alloc : V -> Z;
  check_on_remove : V -> bool
}.

Class ChainObjectLaws (V : Type) `{ChainObject V} := {
  clash_sym : Symmetric clash;
  clash_refl : Reflexive clash
}.

Record undo_state (V : Type) : Type := mk_undo {
  old_values : gmap Z V;
  removed_values : gmap Z V;
  new_ids : gset Z;
  old_next_id : Z;
  frame_revision : Z
}.
Arguments mk_undo {V}.
Arguments old_values {V}.
Arguments removed_values {V}.
Arguments new_ids {V}.
Arguments old_next_id {V}.
Arguments frame_revision {V}.

Record generic_index (V : Type) : Type := mk_index {
  indices : gmap Z V;
  next_id : Z;
  revision : Z;
  item_additional_allocation : Z;
  stack : list (undo_state V)
}.
Arguments mk_index {V}.
Arguments indices {V}.
Arguments next_id {V}.
Arguments revision {V}.
Arguments item_additional_allocation {V}.
Arguments stack {V}.

Definition size_t : Z -> Z := uwrap 64.

(** What a statement leaves behind: the state, and the exception if it throws. *)
Definition outcome (S : Type) : Type := S * option exn.

Section store.
Context {V : Type} `{ChainObject V}.
Implicit Types (v : V) (m : gmap Z V) (s : generic_index V) (u : undo_state V).

(** ** The multi-index container *)

Definition clashes (i : Z) (v : V) (m : gmap Z V) : bool :=
  bool_decide (map_Exists (fun j w => j <> i /\ clash v w) m).

Definition mi_emplace (i : Z) (v : V) (m : gmap Z V) : option (gmap Z V) :=
  match m !! i with
  | Some _ => None
  | None => if clashes i v m then None else Some (<[i := v]> m)
  end.

(** The element is erased when its new value violates a uniqueness constraint. *)
Definition mi_modify (i : Z) (v : V) (m : gmap Z V) : gmap Z V * bool :=
  if clashes i v m then (delete i m, false) else (<[i := v]> m, true).

(** The order in which the containers of an undo state are walked. *)
Definition id_le {A} (a b : Z * A) : Prop := a.1 <= b.1.
#[global] Instance id_le_dec {A} : RelDecision (@id_le A).
Proof. intros a b. unfold id_le. apply _. Defined.
Definition by_id {A} (m : gmap Z A) : list (Z * A) := merge_sort id_le (map_to_list m).
Definition ids_in_order (x : gset Z) : list Z := merge_sort Z.le (elements x).

(** ** Undo bookkeeping *)

Definition enabled (s : generic_index V) : bool := match stack s with [] => false | _ => true end.

Definition with_frame (f : undo_state V -> undo_state V) (st : list (undo_state V)) : list (undo_state V) :=
  match st with [] => [] | head :: st => f head :: st end.

Definition frame_on_modify (i : Z) (v : V) (head : undo_state V) : undo_state V :=
  if decide (i ∈ new_ids head) then head
  else match old_values head !! i with
       | Some _ => head
       | None => mk_undo (<[i := v]> (old_values head)) (removed_values head) (new_ids head)
                   (old_next_id head) (frame_revision head)
       end.

Definition frame_on_remove (i : Z) (v : V) (head : undo_state V) : undo_state V :=
  if decide (i ∈ new_ids head) then
    mk_undo (old_values head) (removed_values head) (new_ids head ∖ {[i]})
      (old_next_id head) (frame_revision head)
  else match old_values head !! i with
       | Some old => mk_undo (delete i (old_values head)) (<[i := old]> (removed_values head))
                       (new_ids head) (old_next_id head) (frame_revision head)
       | None =>
           match removed_values head !! i with
           | Some _ => head
           | None => mk_undo (old_values head) (<[i := v]> (removed_values head)) (new_ids head)
                       (old_next_id head) (frame_revision head)
           end
       end.

Definition frame_on_create (i : Z) (head : undo_state V) : undo_state V :=
  mk_undo (old_values head) (removed_values head) ({[i]} ∪ new_ids head)
    (old_next_id head) (frame_revision head).

Definition on_modify (i : Z) (v : V) (s : generic_index V) : generic_index V :=
  mk_index (indices s) (next_id s) (revision s) (item_additional_allocation s)
    (with_frame (frame_on_modify i v) (stack s)).
Definition on_remove (i : Z) (v : V) (s : generic_index V) : generic_index V :=
  mk_index (indices s) (next_id s) (revision s) (item_additional_allocation s)
    (with_frame (frame_on_remove i v) (stack s)).
Definition on_create (i : Z) (s : generic_index V) : generic_index V :=
  mk_index (indices s) (next_id s) (revision s) (item_additional_allocation s)
    (with_frame (frame_on_create i) (stack s)).

(** ** Operations on objects *)

(** [emplace]: the constructor receives the id it is created with. *)
Definition emplace (make : Z -> V) (s : generic_index V) : outcome (generic_index V) :=
  let i := next_id s in
  match mi_emplace i (make i) (indices s) with
  | None => (s, Some LogicError)
  | Some m =>
      let s := on_create i (mk_index m (i + 1) (revision s) (item_additional_allocation s) (stack s)) in
      (mk_index (indices s) (next_id s) (revision s)
         (size_t (item_additional_allocation s + get_dynamic_alloc (make i))) (stack s), None)
  end.

(** A modifier changes the object and may throw on the way; the change it made
    until then stays. *)
Definition modifier : Type := V -> V * option exn.

Definition modify (i : Z) (f : modifier) (s : generic_index V) : outcome (generic_index V) :=
  match indices s !! i with
  | None => (s, Some OutOfRange)
  | Some v =>
      let s := on_modify i v s in
      let '(v', thrown) := f v in
      let '(m, ok) := mi_modify i v' (indices s) in
      let set m extra := mk_index m (next_id s) (revision s) extra (stack s) in
      match thrown with
      | Some e => (set m (item_additional_allocation s), Some e)
      | None =>
          if ok
          then (set m (size_t (item_additional_allocation s + (get_dynamic_alloc v' - get_dynamic_alloc v))), None)
          else (set m (item_additional_allocation s), Some LogicError)
      end
  end.

Definition remove (i : Z) (s : generic_index V) : outcome (generic_index V) :=
  match indices s !! i with
  | None => (s, Some OutOfRange)
  | Some v =>
      if check_on_remove v then
        let s := on_remove i v s in
        (mk_index (delete i (indices s)) (next_id s) (revision s)
           (size_t (item_additional_allocation s - get_dynamic_alloc v)) (stack s), None)
      else (s, Some AssertFc)
  end.

(** ** Sessions *)

Definition start_undo_session (s : generic_index V) : generic_index V :=
  let rev := revision s + 1 in
  mk_index (indices s) (next_id s) rev (item_additional_allocation s)
    (mk_undo ∅ ∅ ∅ (next_id s) rev :: stack s).

(** The three loops of [undo], on the container and the allocation counter. *)
Definition restore_old (c : gmap Z V * Z) (item : Z * V) : result (gmap Z V * Z) :=
  let '(m, extra) := c in
  let '(i, v) := item in
  match m !! i with
  | Some w =>
      let '(m, ok) := mi_modify i v m in
      _ ← check ok LogicError;
      Ok (m, size_t (extra + (get_dynamic_alloc v - get_dynamic_alloc w)))
  | None =>
      match mi_emplace i v m with
      | Some m => Ok (m, size_t (extra + get_dynamic_alloc v))
      | None => Throw LogicError
      end
  end.

Definition erase_new (c : gmap Z V * Z) (i : Z) : result (gmap Z V * Z) :=
  let '(m, extra) := c in
  match m !! i with
  | None => Throw LogicError
  | Some w => Ok (delete i m, size_t (extra - get_dynamic_alloc w))
  end.

Definition restore_removed (c : gmap Z V * Z) (item : Z * V) : result (gmap Z V * Z) :=
  let '(m, extra) := c in
  let '(i, v) := item in
  match mi_emplace i v m with
  | Some m => Ok (m, size_t (extra + get_dynamic_alloc v))
  | None => Throw LogicError
  end.

Definition cleared (next : Z) (rev : Z) : undo_state V := mk_undo ∅ ∅ ∅ next rev.

Definition undo (keep_alive : bool) (s : generic_index V) : result (generic_index V) :=
  match stack s with
  | [] => Ok s
  | head :: st =>
      c ← foldM restore_old (indices s, item_additional_allocation s) (by_id (old_values head));
      c ← foldM erase_new c (ids_in_order (new_ids head));
      '(m, extra) ← foldM restore_removed c (by_id (removed_values head));
      if keep_alive
      then Ok (mk_index m (old_next_id head) (revision s) extra
                 (cleared (old_next_id head) (frame_revision head) :: st))
      else Ok (mk_index m (old_next_id head) (revision s - 1) extra st)
  end.

(** The three loops of [squash], on the older of the two frames. *)
Definition squash_old (prev : undo_state V) (item : Z * V) : undo_state V :=
  let '(i, v) := item in
  if decide (i ∈ new_ids prev) then prev
  else match old_values prev !! i with
       | Some _ => prev
       | None => mk_undo (<[i := v]> (old_values prev)) (removed_values prev) (new_ids prev)
                   (old_next_id prev) (frame_revision prev)
       end.

Definition squash_new (prev : undo_state V) (i : Z) : undo_state V :=
  mk_undo (old_values prev) (removed_values prev) ({[i]} ∪ new_ids prev)
    (old_next_id prev) (frame_revision prev).

Definition squash_removed (prev : undo_state V) (item : Z * V) : undo_state V :=
  let '(i, v) := item in
  if decide (i ∈ new_ids prev) then
    mk_undo (old_values prev) (removed_values prev) (new_ids prev ∖ {[i]})
      (old_next_id prev) (frame_revision prev)
  else match old_values prev !! i with
       | Some old => mk_undo (delete i (old_values prev)) (<[i := old]> (removed_values prev))
                       (new_ids prev) (old_next_id prev) (frame_revision prev)
       | None => mk_undo (old_values prev) (<[i := v]> (removed_values prev)) (new_ids prev)
                   (old_next_id prev) (frame_revision prev)
       end.

Definition merge_frames (prev state : undo_state V) : undo_state V :=
  let prev := foldl squash_old prev (by_id (old_values state)) in
  let prev := foldl squash_new prev (ids_in_order (new_ids state)) in
  foldl squash_removed prev (by_id (removed_values state)).

Definition squash (keep_alive : bool) (s : generic_index V) : generic_index V :=
  match stack s with
  | [] => s
  | [head] =>
      if keep_alive
      then mk_index (indices s) (next_id s) (revision s + 1) (item_additional_allocation s)
             [cleared (next_id s) (revision s + 1)]
      else mk_index (indices s) (next_id s) (revision s) (item_additional_allocation s) []
  | state :: prev :: st =>
      let prev := merge_frames prev state in
      if keep_alive
      then mk_index (indices s) (next_id s) (revision s) (item_additional_allocation s)
             (cleared (next_id s) (frame_revision state) :: prev :: st)
      else mk_index (indices s) (next_id s) (revision s - 1) (item_additional_allocation s) (prev :: st)
  end.

(** [commit]: frames leave at the front of the deque while their revision is
    not newer. *)
Fixpoint drop_committed {A} (rev_of : A -> Z) (rev : Z) (oldest_first : list A) : list A :=
  match oldest_first with
  | [] => []
  | u :: st => if rev_of u <=? rev then drop_committed rev_of rev st else oldest_first
  end.
Definition commit (rev : Z) (s : generic_index V) : generic_index V :=
  mk_index (indices s) (next_id s) (revision s) (item_additional_allocation s)
    (reverse (drop_committed frame_revision rev (reverse (stack s)))).

(** [undo_all] runs [undo] until the stack is empty. *)
Fixpoint undo_loop (fuel : nat) (s : generic_index V) : option (result (generic_index V)) :=
  if enabled s then
    match fuel with
    | O => None
    | S fuel => match undo false s with
                | Ok s => undo_loop fuel s
                | Throw e => Some (Throw e)
                end
    end
  else Some (Ok s).
Definition undo_all (s : generic_index V) : option (result (generic_index V)) :=
  undo_loop (length (stack s)) s.

Definition set_revision (rev : Z) (s : generic_index V) : result (generic_index V) :=
  _ ← check (negb (enabled s)) LogicError;
  Ok (mk_index (indices s) (next_id s) rev (item_additional_allocation s) (stack s)).

Definition empty_index : generic_index V := mk_index ∅ 0 0 0 [].
End store.

(** ** The abstract store: a stack of snapshots *)

Record snapshot (V : Type) : Type := mk_snapshot { objects : gmap Z V; snap_next : Z }.
Arguments mk_snapshot {V}.
Arguments objects {V}.
Arguments snap_next {V}.

Record history (V : Type) : Type := mk_history {
  present : snapshot V;
  past : list (snapshot V * Z);
  level : Z
}.
Arguments mk_history {V}.
Arguments present {V}.
Arguments past {V}.
Arguments level {V}.

Section specification.
Context {V : Type} `{ChainObject V}.
Implicit Types (v : V) (m : gmap Z V) (p : snapshot V) (a : history V).

Definition spec_create (make : Z -> V) (a : history V) : outcome (history V) :=
  let p := present a in
  let i := snap_next p in
  if clashes i (make i) (objects p) then (a, Some LogicError)
  else (mk_history (mk_snapshot (<[i := make i]> (objects p)) (i + 1)) (past a) (level a), None).

Definition spec_modify (i : Z) (f : modifier) (a : history V) : outcome (history V) :=
  let p := present a in
  match objects p !! i with
  | None => (a, Some OutOfRange)
  | Some v => let '(v', thrown) := f v in
              (mk_history (mk_snapshot (<[i := v']> (objects p)) (snap_next p)) (past a) (level a), thrown)
  end.

Definition spec_remove (i : Z) (a : history V) : outcome (history V) :=
  let p := present a in
  match objects p !! i with
  | None => (a, Some OutOfRange)
  | Some v => if check_on_remove v
              then (mk_history (mk_snapshot (delete i (objects p)) (snap_next p)) (past a) (level a), None)
              else (a, Some AssertFc)
  end.

Definition spec_start (a : history V) : history V :=
  mk_history (present a) ((present a, level a + 1) :: past a) (level a + 1).

Definition spec_undo (keep_alive : bool) (a : history V) : history V :=
  match past a with
  | [] => a
  | (p, r) :: ps => if keep_alive then mk_history p (past a) (level a) else mk_history p ps (level a - 1)
  end.

Definition spec_squash (keep_alive : bool) (a : history V) : history V :=
  match past a with
  | [] => a
  | [_] => if keep_alive then mk_history (present a) [(present a, level a + 1)] (level a + 1)
           else mk_history (present a) [] (level a)
  | (_, r) :: ps => if keep_alive then mk_history (present a) ((present a, r) :: ps) (level a)
                    else mk_history (present a) ps (level a - 1)
  end.

Definition spec_commit (rev : Z) (a : history V) : history V :=
  mk_history (present a) (reverse (drop_committed snd rev (reverse (past a)))) (level a).

(** Everything is undone: back to the oldest snapshot. *)
Definition spec_undo_all (a : history V) : history V :=
  mk_history (default (present a) (fst <$> last (past a))) [] (level a - Z.of_nat (length (past a))).

Definition spec_set_revision (rev : Z) (a : history V) : outcome (history V) :=
  match past a with
  | [] => (mk_history (present a) [] rev, None)
  | _ => (a, Some LogicError)
  end.

Definition spec_empty : history V := mk_history (mk_snapshot ∅ 0) [] 0.
End specification.

(** ** The operations of an index, and what the store promises *)

Inductive index_operation (V : Type) : Type :=
| Create (make : Z -> V)
| Modify (i : Z) (f : V -> V * option exn)
| Remove (i : Z)
| Start
| Undo (keep_alive : bool)
| Squash (keep_alive : bool)
| Commit (rev : Z)
| UndoAll
| SetRevision (rev : Z).
Arguments Create {V}.
Arguments Modify {V}.
Arguments Remove {V}.
Arguments Start {V}.
Arguments Undo {V}.
Arguments Squash {V}.
Arguments Commit {V}.
Arguments UndoAll {V}.
Arguments SetRevision {V}.

Definition or_throw {S} (s : S) (r : result S) : outcome S :=
  match r with Ok s' => (s', None) | Throw e => (s, Some e) end.

Section refinement.
Context {V : Type} `{ChainObject V} `{!ChainObjectLaws V}.
Implicit Types (v w : V) (m : gmap Z V) (p : snapshot V) (a : history V) (u : undo_state V) (s : generic_index V).

Definition run_operation (op : index_operation V) (s : generic_index V) : outcome (generic_index V) :=
  match op with
  | Create make => emplace make s
  | Modify i f => modify i f s
  | Remove i => remove i s
  | Start => (start_undo_session s, None)
  | Undo keep => or_throw s (undo keep s)
  | Squash keep => (squash keep s, None)
  | Commit rev => (commit rev s, None)
  | UndoAll => match undo_all s with Some r => or_throw s r | None => (s, Some RuntimeError) end
  | SetRevision rev => or_throw s (set_revision rev s)
  end.

Definition spec_operation (op : index_operation V) (a : history V) : outcome (history V) :=
  match op with
  | Create make => spec_create make a
  | Modify i f => spec_modify i f a
  | Remove i => spec_remove i a
  | Start => (spec_start a, None)
  | Undo keep => (spec_undo keep a, None)
  | Squash keep => (spec_squash keep a, None)
  | Commit rev => (spec_commit rev a, None)
  | UndoAll => (spec_undo_all a, None)
  | SetRevision rev => spec_set_revision rev a
  end.

(** Two values of an object with the same unique keys. *)
Definition same_keys (v w : V) : Prop := forall x, clash v x <-> clash w x.

(** The unique keys of an object never change. *)
Definition keeps_keys (op : index_operation V) : Prop :=
  match op with Modify i f => forall v, same_keys v (f v).1 | _ => True end.

Fixpoint run_operations (ops : list (index_operation V)) (s : generic_index V) : generic_index V * list (option exn) :=
  match ops with
  | [] => (s, [])
  | op :: ops => let '(s, e) := run_operation op s in
                 let '(s, es) := run_operations ops s in (s, e :: es)
  end.
Fixpoint spec_operations (ops : list (index_operation V)) (a : history V) : history V * list (option exn) :=
  match ops with
  | [] => (a, [])
  | op :: ops => let '(a, e) := spec_operation op a in
                 let '(a, es) := spec_operations ops a in (a, e :: es)
  end.

(** ** What an undo state records *)

Definition clash_free (m : gmap Z V) : Prop :=
  forall i j v w, m !! i = Some v -> m !! j = Some w -> i <> j -> ~ clash v w.

Record snapshot_wf (p : snapshot V) : Prop := {
  wf_clash : clash_free (objects p);
  wf_next : forall i, is_Some (objects p !! i) -> i < snap_next p
}.

(** An object that is new, updated, deleted or untouched since the snapshot. *)
Definition recorded (new : bool) (old removed now before : option V) : Prop :=
  match new, old, removed with
  | true, None, None => before = None /\ is_Some now
  | false, Some v, None => before = Some v /\ exists w, now = Some w /\ same_keys v w
  | false, None, Some v => before = Some v /\ now = None
  | false, None, None => before = now
  | _, _, _ => False
  end.

Record records (u : undo_state V) (now before : snapshot V) : Prop := {
  rec_at i : recorded (bool_decide (i ∈ new_ids u)) (old_values u !! i) (removed_values u !! i)
               (objects now !! i) (objects before !! i);
  rec_fresh i : i ∈ new_ids u -> snap_next before <= i;
  rec_next : old_next_id u = snap_next before;
  rec_grows : snap_next before <= snap_next now
}.

Fixpoint stack_records (now : snapshot V) (st : list (undo_state V)) (ps : list (snapshot V * Z)) : Prop :=
  match st, ps with
  | [], [] => True
  | u :: st, (p, r) :: ps =>
      records u now p /\ snapshot_wf p /\ frame_revision u = r /\ stack_records p st ps
  | _, _ => False
  end.

Record refines (s : generic_index V) (a : history V) : Prop := {
  ref_present : present a = mk_snapshot (indices s) (next_id s);
  ref_wf : snapshot_wf (present a);
  ref_level : level a = revision s;
  ref_stack : stack_records (present a) (stack s) (past a)
}.

#[local] Lemma same_keys_refl v : same_keys v v.
Proof. by intros x. Qed.
#[local] Lemma same_keys_trans v w x : same_keys v w -> same_keys w x -> same_keys v x.
Proof. intros H1 H2 y. by rewrite (H1 y). Qed.
#[local] Lemma same_keys_sym v w : same_keys v w -> same_keys w v.
Proof. intros H1 y. by rewrite (H1 y). Qed.

Lemma clashes_false i v m : clashes i v m = false <->
  forall j w, m !! j = Some w -> j <> i -> ~ clash v w.
Proof.
  unfold clashes. rewrite bool_decide_eq_false. split.
  - intros Hn j w Hj Hne Hc. apply Hn. exists j, w. auto.
  - intros Ha (j & w & Hj & Hne & Hc). by eapply Ha.
Qed.

Lemma clash_free_insert i v m : clash_free m -> clashes i v m = false -> clash_free (<[i := v]> m).
Proof.
  intros Hm Hc j k x y Hj Hk Hne. rewrite clashes_false in Hc.
  apply lookup_insert_Some in Hj as [[<- <-]|[Hij Hj]]; apply lookup_insert_Some in Hk as [[<- <-]|[Hik Hk]];
    [done|by eapply Hc|intros ?; eapply Hc; [exact Hj|done|by apply clash_sym]|by eapply (Hm j k)].
Qed.

Lemma clash_free_subseteq m m' : m' ⊆ m -> clash_free m -> clash_free m'.
Proof. intros Hs Hm i j v w Hi Hj. eapply Hm; by eapply lookup_weaken. Qed.

(** Changing an object without changing its keys is always possible. *)
Lemma same_keys_no_clash i v w m : clash_free m -> m !! i = Some w -> same_keys w v -> clashes i v m = false.
Proof.
  intros Hm Hi Hk. apply clashes_false. intros j x Hj Hne Hc.
  apply (Hm i j w x Hi Hj); [done|]. by apply Hk.
Qed.

(** ** Operations on objects *)

Ltac entry_cases u i :=
  destruct (bool_decide (i ∈ new_ids u)) eqn:?, (old_values u !! i) eqn:?, (removed_values u !! i) eqn:?.

Lemma records_create u p before v : records u p before -> snapshot_wf p -> snapshot_wf before ->
  records (frame_on_create (snap_next p) u) (mk_snapshot (<[snap_next p := v]> (objects p)) (snap_next p + 1)) before.
Proof.
  intros [Ra Rf Rn Rg] Wp Wb. constructor; cbn [frame_on_create new_ids old_values removed_values old_next_id objects snap_next]; [|set_solver by lia|done|lia].
  intros i. destruct (decide (i = snap_next p)) as [->|Hne].
  - assert (objects p !! snap_next p = None) as Hp.
    { destruct (objects p !! _) eqn:E; [|done]. pose proof (wf_next _ Wp _ (mk_is_Some _ _ E)). lia. }
    assert (objects before !! snap_next p = None) as Hb.
    { destruct (objects before !! _) eqn:E; [|done]. pose proof (wf_next _ Wb _ (mk_is_Some _ _ E)). lia. }
    specialize (Ra (snap_next p)). rewrite Hp, Hb in Ra. rewrite Hb, lookup_insert_eq.
    rewrite bool_decide_eq_true_2 by set_solver.
    destruct (bool_decide _), (old_values u !! _), (removed_values u !! _); cbn in *; naive_solver.
  - rewrite lookup_insert_ne by done. specialize (Ra i).
    rewrite (bool_decide_ext _ (i ∈ new_ids u)) by set_solver. done.
Qed.

Lemma records_modify u p before i v v' : records u p before -> objects p !! i = Some v -> same_keys v v' ->
  records (frame_on_modify i v u) (mk_snapshot (<[i := v']> (objects p)) (snap_next p)) before.
Proof.
  intros [Ra Rf Rn Rg] Hi Hk. unfold frame_on_modify.
  assert (forall j, j <> i -> recorded (bool_decide (j ∈ new_ids u)) (old_values u !! j) (removed_values u !! j)
            (<[i := v']> (objects p) !! j) (objects before !! j)) as Hother
    by (intros j Hj; rewrite lookup_insert_ne by done; apply Ra).
  pose proof (Ra i) as Hx. rewrite Hi in Hx.
  destruct (decide _) as [Hn|Hn]; [|destruct (old_values u !! i) as [o|] eqn:Eo];
    (constructor; cbn [new_ids old_values removed_values old_next_id objects snap_next]; [|set_solver by eauto|done|done]);
    intros j; (destruct (decide (j = i)) as [->|Hne]; [|rewrite ?lookup_insert_ne by done; rewrite <- (lookup_insert_ne (objects p) i j v') by done; by apply Hother]);
    rewrite lookup_insert_eq.
  - rewrite bool_decide_eq_true_2 in Hx |- * by done.
    destruct (old_values u !! i), (removed_values u !! i); cbn in *; naive_solver.
  - rewrite bool_decide_eq_false_2 in Hx |- * by done. rewrite Eo.
    destruct (removed_values u !! i); cbn in *; [done|]. destruct Hx as [-> (w & [= <-] & Hs)].
    split; [done|]. exists v'. split; [done|]. by eapply same_keys_trans.
  - rewrite bool_decide_eq_false_2 in Hx |- * by done. rewrite lookup_insert_eq.
    destruct (removed_values u !! i); cbn in *; naive_solver.
Qed.

Lemma records_remove u p before i v : records u p before -> objects p !! i = Some v ->
  records (frame_on_remove i v u) (mk_snapshot (delete i (objects p)) (snap_next p)) before.
Proof.
  intros [Ra Rf Rn Rg] Hi. unfold frame_on_remove. pose proof (Ra i) as Hx. rewrite Hi in Hx.
  destruct (decide _) as [Hn|Hn];
    [|destruct (old_values u !! i) as [o|] eqn:Eo; [|destruct (removed_values u !! i) as [r|] eqn:Er]];
    (constructor; cbn [new_ids old_values removed_values old_next_id objects snap_next]; [|set_solver by eauto|done|done]);
    intros j; destruct (decide (j = i)) as [->|Hne];
    rewrite ?lookup_delete_eq, ?lookup_insert_eq, ?lookup_delete_ne, ?lookup_insert_ne by done; try apply Ra.
  - rewrite bool_decide_eq_true_2 in Hx by done. rewrite bool_decide_eq_false_2 by set_solver.
    destruct (old_values u !! i), (removed_values u !! i); cbn in *; naive_solver.
  - rewrite (bool_decide_ext _ (j ∈ new_ids u)) by set_solver. apply Ra.
  - rewrite bool_decide_eq_false_2 in Hx |- * by done. destruct (removed_values u !! i); cbn in *; naive_solver.
  - rewrite bool_decide_eq_false_2 in Hx by done. cbn in Hx. naive_solver.
  - rewrite bool_decide_eq_false_2 in Hx |- * by done. cbn in *. rewrite Eo. naive_solver.
Qed.

Lemma records_refl p r : records (mk_undo ∅ ∅ ∅ (snap_next p) r) p p.
Proof. constructor; cbn; [|set_solver|done|lia]. intros i. rewrite bool_decide_eq_false_2, !lookup_empty by set_solver. done. Qed.

(** The top frame follows the present, the older ones do not change. *)
Lemma stack_records_top (f : undo_state V -> undo_state V) now now' st ps :
  (forall u, frame_revision (f u) = frame_revision u) ->
  (forall u p, snapshot_wf p -> records u now p -> records (f u) now' p) ->
  stack_records now st ps -> stack_records now' (with_frame f st) ps.
Proof.
  intros Hf Hr. destruct st as [|u st], ps as [|[p r] ps]; cbn; try done.
  intros (H1 & H2 & H3 & H4). rewrite Hf. auto.
Qed.

Lemma refines_create make s a : refines s a ->
  (emplace make s).2 = (spec_create make a).2 /\ refines (emplace make s).1 (spec_create make a).1.
Proof.
  intros R. pose proof R as [Ep Wp El Es]. unfold emplace, spec_create, mi_emplace. rewrite Ep in *. cbn [objects snap_next].
  assert (indices s !! next_id s = None) as Hn.
  { destruct (indices s !! _) eqn:E; [|done]. pose proof (wf_next _ Wp _ (mk_is_Some _ _ E)). cbn in *. lia. }
  rewrite Hn. destruct (clashes _ _ _) eqn:Ec; cbn.
  - split; [done|]. exact R.
  - split; [done|]. constructor; cbn; [done| |done|].
    + constructor; cbn; [by apply clash_free_insert; [apply Wp|]|].
      intros i Hi. apply lookup_insert_is_Some in Hi as [<-|[? Hi]]; [lia|]. pose proof (wf_next _ Wp _ Hi). cbn in *. lia.
    + eapply stack_records_top; [|intros u p Hp Hu; apply (records_create _ _ _ _ Hu Wp Hp)|exact Es]. done.
Qed.

Lemma refines_modify i f s a : refines s a -> keeps_keys (Modify i f) ->
  (modify i f s).2 = (spec_modify i f a).2 /\ refines (modify i f s).1 (spec_modify i f a).1.
Proof.
  intros R Hk. pose proof R as [Ep Wp El Es]. unfold modify, spec_modify. rewrite Ep in *. cbn [objects snap_next].
  destruct (indices s !! i) as [v|] eqn:Ei; [|split; [done|exact R]].
  specialize (Hk v). destruct (f v) as [v' thrown]. cbn in Hk.
  assert (clashes i v' (indices s) = false) as Hc by (eapply same_keys_no_clash; [apply Wp|exact Ei|done]).
  unfold mi_modify. cbn [on_modify indices]. rewrite Hc.
  assert (forall extra, refines (mk_index (<[i:=v']> (indices s)) (next_id s) (revision s) extra
    (with_frame (frame_on_modify i v) (stack s)))
    (mk_history (mk_snapshot (<[i:=v']> (indices s)) (next_id s)) (past a) (level a))) as Hr.
  { intros extra. constructor; cbn; [done| |done|].
    - constructor; cbn; [by apply clash_free_insert; [apply Wp|]|].
      intros j Hj. apply lookup_insert_is_Some in Hj as [<-|[? Hj]]; by apply (wf_next _ Wp); cbn; eauto.
    - eapply stack_records_top; [|intros u p Hp Hu; exact (records_modify _ (mk_snapshot (indices s) (next_id s)) _ i v v' Hu Ei Hk)|exact Es].
      intros u. unfold frame_on_modify. destruct (decide _); [done|]. by destruct (old_values u !! i). }
  destruct thrown; cbn; auto.
Qed.

Lemma refines_remove i s a : refines s a ->
  (remove i s).2 = (spec_remove i a).2 /\ refines (remove i s).1 (spec_remove i a).1.
Proof.
  intros R. pose proof R as [Ep Wp El Es]. unfold remove, spec_remove. rewrite Ep in *. cbn [objects snap_next].
  destruct (indices s !! i) as [v|] eqn:Ei; [|split; [done|exact R]].
  destruct (check_on_remove v); [|split; [done|exact R]]. split; [done|].
  constructor; cbn; [done| |done|].
  - constructor; cbn; [eapply clash_free_subseteq; [apply delete_subseteq|apply Wp]|].
    intros j Hj. apply (wf_next _ Wp). cbn. apply lookup_delete_is_Some in Hj. tauto.
  - eapply stack_records_top; [|intros u p Hp Hu; exact (records_remove _ (mk_snapshot (indices s) (next_id s)) _ i v Hu Ei)|exact Es].
    intros u. unfold frame_on_remove. destruct (decide _); [done|].
    destruct (old_values u !! i); [done|]. by destruct (removed_values u !! i).
Qed.

(** ** Undo *)

Lemma by_id_perm {A} (m : gmap Z A) : by_id m ≡ₚ map_to_list m.
Proof. apply merge_sort_Permutation. Qed.
Lemma by_id_nodup {A} (m : gmap Z A) : NoDup (by_id m).*1.
Proof. rewrite (by_id_perm m). apply NoDup_fst_map_to_list. Qed.
Lemma by_id_map {A} (m : gmap Z A) : list_to_map (by_id m) = m.
Proof. rewrite (list_to_map_proper _ _ (by_id_nodup m) (by_id_perm m)). apply list_to_map_to_list. Qed.
Lemma elem_of_ids (x : gset Z) i : i ∈ ids_in_order x <-> i ∈ x.
Proof. unfold ids_in_order. rewrite merge_sort_Permutation. apply elem_of_elements. Qed.
Lemma ids_nodup (x : gset Z) : NoDup (ids_in_order x).
Proof. unfold ids_in_order. rewrite merge_sort_Permutation. apply NoDup_elements. Qed.

(** The allocation counter agrees with the objects in the container. *)
Definition counted (c : gmap Z V * Z) : Prop := c.2 = size_t (sumM get_dynamic_alloc c.1).

Lemma size_t_add x y : size_t (size_t x + y) = size_t (x + y).
Proof. unfold size_t, uwrap. by rewrite Zplus_mod_idemp_l. Qed.

Lemma counted_update m extra i v w : counted (m, extra) -> m !! i = Some w ->
  counted (<[i := v]> m, size_t (extra + (get_dynamic_alloc v - get_dynamic_alloc w))).
Proof.
  unfold counted. cbn. intros -> Hi. rewrite (sumM_update _ _ _ _ _ Hi), size_t_add. f_equal. lia.
Qed.
Lemma counted_insert m extra i v : counted (m, extra) -> m !! i = None ->
  counted (<[i := v]> m, size_t (extra + get_dynamic_alloc v)).
Proof. unfold counted. cbn. intros -> Hi. rewrite (sumM_insert_new _ _ _ _ Hi), size_t_add. f_equal. lia. Qed.
Lemma counted_delete m extra i w : counted (m, extra) -> m !! i = Some w ->
  counted (delete i m, size_t (extra - get_dynamic_alloc w)).
Proof.
  unfold counted. cbn. intros -> Hi. rewrite (sumM_delete _ _ _ _ Hi).
  replace (size_t (_ + _) - _) with (size_t (get_dynamic_alloc w + sumM get_dynamic_alloc (delete i m)) + - get_dynamic_alloc w) by lia.
  rewrite size_t_add. f_equal. lia.
Qed.

Lemma restore_old_loop l m extra : NoDup l.*1 -> clash_free m ->
  (forall i v, (i, v) ∈ l -> exists w, m !! i = Some w /\ same_keys v w) ->
  exists extra', foldM restore_old (m, extra) l = Ok (list_to_map l ∪ m, extra') /\
    (counted (m, extra) -> counted (list_to_map l ∪ m, extra')).
Proof.
  revert m extra. induction l as [|[i v] l IH]; intros m extra Hnd Hm Hl; cbn.
  { exists extra. by rewrite map_empty_union. }
  apply NoDup_cons in Hnd as [Hi Hnd].
  destruct (Hl i v) as (w & Hw & Hk); [by apply elem_of_cons; left|].
  assert (clashes i v m = false) as Hc by (eapply same_keys_no_clash; [done|exact Hw|by apply same_keys_sym]).
  rewrite Hw. unfold mi_modify. rewrite Hc. cbn [check mbind result_bind].
  destruct (IH (<[i := v]> m) (size_t (extra + (get_dynamic_alloc v - get_dynamic_alloc w)))) as (extra' & E & Hct).
  - done.
  - by apply clash_free_insert.
  - intros j x Hj. assert (j <> i) by (intros ->; apply Hi; by apply (list_elem_of_fmap_2 fst) in Hj).
    rewrite lookup_insert_ne by done. apply Hl. by apply elem_of_cons; right.
  - exists extra'. rewrite <- insert_union_l, insert_union_r by (by apply not_elem_of_list_to_map_1).
    split; [exact E|]. intros Hcm. apply Hct. by apply counted_update.
Qed.

Lemma erase_new_loop l m extra : NoDup l -> (forall i, i ∈ l -> is_Some (m !! i)) ->
  exists m' extra', foldM erase_new (m, extra) l = Ok (m', extra') /\
    (forall j, m' !! j = if bool_decide (j ∈ l) then None else m !! j) /\
    (counted (m, extra) -> counted (m', extra')).
Proof.
  revert m extra. induction l as [|i l IH]; intros m extra Hnd Hl; cbn.
  { exists m, extra. split; [done|]. split; [|done]. intros j. by rewrite bool_decide_eq_false_2 by apply not_elem_of_nil. }
  apply NoDup_cons in Hnd as [Hi Hnd].
  destruct (Hl i) as [w Hw]; [by apply elem_of_cons; left|]. rewrite Hw.
  destruct (IH (delete i m) (size_t (extra - get_dynamic_alloc w))) as (m' & extra' & E & Hj & Hct); [done| |].
  { intros j Hj. rewrite lookup_delete_ne by set_solver. apply Hl. by apply elem_of_cons; right. }
  exists m', extra'. split; [done|]. split.
  - intros j. rewrite Hj. destruct (decide (j = i)) as [->|Hne].
    + rewrite lookup_delete_eq, (bool_decide_eq_true_2 (i ∈ i :: l)) by set_solver. by destruct (bool_decide _).
    + rewrite lookup_delete_ne by done. by rewrite (bool_decide_ext (j ∈ i :: l) (j ∈ l)) by set_solver.
  - intros Hc. apply Hct. by apply counted_delete.
Qed.

Lemma restore_removed_loop l m extra : NoDup l.*1 -> clash_free (list_to_map l ∪ m) ->
  (forall i, i ∈ l.*1 -> m !! i = None) ->
  exists extra', foldM restore_removed (m, extra) l = Ok (list_to_map l ∪ m, extra') /\
    (counted (m, extra) -> counted (list_to_map l ∪ m, extra')).
Proof.
  revert m extra. induction l as [|[i v] l IH]; intros m extra Hnd Hm Hl; cbn.
  { exists extra. by rewrite map_empty_union. }
  cbn in Hm. apply NoDup_cons in Hnd as [Hi Hnd].
  assert (m !! i = None) as Hw by (apply Hl; by apply elem_of_cons; left).
  assert (list_to_map l !! i = @None V) as Hli by (by apply not_elem_of_list_to_map_1).
  rewrite <- insert_union_l, insert_union_r in Hm by done.
  assert (clash_free (<[i := v]> m)) as Hm'.
  { eapply clash_free_subseteq; [|exact Hm]. apply map_union_subseteq_r.
    apply map_disjoint_insert_r. split; [done|]. apply map_disjoint_list_to_map_l.
    apply Forall_forall. intros x Hx. apply Hl. apply elem_of_cons. right. by apply list_elem_of_fmap_2. }
  unfold mi_emplace. rewrite Hw.
  assert (clashes i v m = false) as ->.
  { apply clashes_false. intros j w Hj Hne. apply (Hm' i j); [apply lookup_insert_eq|by rewrite lookup_insert_ne|done]. }
  destruct (IH (<[i := v]> m) (size_t (extra + get_dynamic_alloc v))) as (extra' & E & Hct); [done|done| |].
  { intros j Hj. rewrite lookup_insert_ne by set_solver. apply Hl. by apply elem_of_cons; right. }
  exists extra'. rewrite <- insert_union_l, insert_union_r by done. split; [exact E|].
  intros Hcm. apply Hct. by apply counted_insert.
Qed.

(** Undoing a frame gives the snapshot it was opened on, whatever happened since. *)
Lemma undo_value keep s head st now before : stack s = head :: st ->
  now = mk_snapshot (indices s) (next_id s) -> snapshot_wf now -> snapshot_wf before ->
  records head now before ->
  exists extra, undo keep s =
    Ok (if keep then mk_index (objects before) (snap_next before) (revision s) extra
                      (cleared (snap_next before) (frame_revision head) :: st)
        else mk_index (objects before) (snap_next before) (revision s - 1) extra st) /\
    (counted (indices s, item_additional_allocation s) -> counted (objects before, extra)).
Proof.
  intros Hst -> Wn Wb [Ra _ Rn Rg]. cbn [objects snap_next] in *. unfold undo. rewrite Hst.
  assert (forall i v, (i, v) ∈ by_id (old_values head) <-> old_values head !! i = Some v) as Hold.
  { intros i v. rewrite (by_id_perm (old_values head)). apply elem_of_map_to_list. }
  destruct (restore_old_loop (by_id (old_values head)) (indices s) (item_additional_allocation s))
    as (x1 & E1 & C1); [apply by_id_nodup|apply Wn| |].
  { intros i v Hv%Hold. specialize (Ra i). rewrite Hv in Ra.
    destruct (bool_decide _), (removed_values head !! i); cbn in Ra; naive_solver. }
  rewrite E1. cbn [mbind result_bind]. rewrite by_id_map in *.
  destruct (erase_new_loop (ids_in_order (new_ids head)) (old_values head ∪ indices s) x1)
    as (m2 & x2 & E2 & L2 & C2); [apply ids_nodup| |].
  { intros i Hi%elem_of_ids. specialize (Ra i). rewrite bool_decide_eq_true_2 in Ra by done.
    destruct (old_values head !! i) eqn:Eo, (removed_values head !! i); cbn in Ra; try done.
    rewrite lookup_union_r by done. tauto. }
  rewrite E2. cbn [mbind result_bind].
  assert (removed_values head ∪ m2 = objects before) as Eb.
  { apply map_eq. intros i. rewrite lookup_union, L2. specialize (Ra i).
    assert (bool_decide (i ∈ new_ids head) = bool_decide (i ∈ ids_in_order (new_ids head))) as Eq
      by (apply bool_decide_ext; by rewrite elem_of_ids).
    rewrite Eq in Ra. rewrite lookup_union.
    destruct (bool_decide _), (old_values head !! i), (removed_values head !! i), (indices s !! i); cbn in *; destruct_and?; simplify_eq/=; naive_solver. }
  destruct (restore_removed_loop (by_id (removed_values head)) m2 x2) as (x3 & E3 & C3).
  - apply by_id_nodup.
  - rewrite by_id_map, Eb. apply Wb.
  - intros i Hi. apply list_elem_of_fmap in Hi as ([i' v] & -> & Hv). cbn [fst].
    rewrite (by_id_perm (removed_values head)), elem_of_map_to_list in Hv. rewrite L2. destruct (bool_decide _); [done|]. specialize (Ra i'). rewrite Hv in Ra.
    rewrite lookup_union. destruct (bool_decide _), (old_values head !! i'), (indices s !! i'); cbn in *; naive_solver.
  - rewrite E3. cbn [mbind result_bind]. rewrite by_id_map, Eb, Rn in *. exists x3. split; [by destruct keep|]. auto.
Qed.

Lemma refines_undo keep s a : refines s a ->
  exists s', undo keep s = Ok s' /\ refines s' (spec_undo keep a).
Proof.
  intros R. pose proof R as [Ep Wp El Es]. unfold spec_undo.
  destruct (stack s) as [|u st] eqn:Hst, (past a) as [|[p r] ps] eqn:Hpast; cbn in Es; try done.
  { exists s. unfold undo. rewrite Hst. auto. }
  destruct Es as (Hr & Wb & Hrev & Hs).
  destruct (undo_value keep s u st (present a) p Hst Ep Wp Wb Hr) as (extra & E & _).
  eexists. split; [exact E|]. destruct keep; constructor; cbn; try done.
  - by destruct p.
  - by destruct p.
  - by rewrite El.
Qed.

Lemma stack_records_length now st ps : stack_records now st ps -> length st = length ps.
Proof.
  revert now ps. induction st as [|u st IH]; intros now [|[p r] ps]; cbn; try done.
  intros (_ & _ & _ & Hs). f_equal. eauto.
Qed.

Lemma refines_undo_all s a : refines s a ->
  exists s', undo_all s = Some (Ok s') /\ refines s' (spec_undo_all a).
Proof.
  intros R. unfold undo_all. pose proof (stack_records_length _ _ _ (ref_stack _ _ R)) as Hl.
  remember (length (stack s)) as n eqn:Hn. revert s a R Hn Hl.
  induction n as [|n IH]; intros s a R Hn Hl; cbn; unfold enabled.
  - destruct (stack s) as [|u st] eqn:Hst; [|done]. exists s. split; [done|].
    destruct R as [Ep Wp El Es]. rewrite Hst in Es. destruct (past a) as [|[p r] ps] eqn:Hpast; [|done].
    unfold spec_undo_all. rewrite Hpast. constructor; cbn; try done; [lia|by rewrite Hst].
  - destruct (stack s) as [|u st] eqn:Hst; [done|]. injection Hn as Hn.
    destruct (refines_undo false s a R) as (s1 & E & R1). rewrite E.
    assert (length (stack s1) = n /\ past a <> []) as [Hl1 Hne].
    { destruct R1 as [_ _ _ Es1]. apply stack_records_length in Es1. rewrite Es1. unfold spec_undo.
      destruct (past a) as [|[p r] ps]; cbn in *; [done|]. split; [lia|done]. }
    destruct (IH s1 (spec_undo false a) R1) as (s' & E' & R').
    + done.
    + destruct R1 as [_ _ _ Es1]. apply stack_records_length in Es1. lia.
    + exists s'. split; [exact E'|].
      enough (spec_undo_all (spec_undo false a) = spec_undo_all a) as <- by done.
      unfold spec_undo_all, spec_undo. destruct (past a) as [|[p r] ps] eqn:Hpast; [done|].
      cbn [present past level length]. f_equal; [|lia]. rewrite last_cons.
      by destruct (last ps) as [[q r']|].
Qed.

(** ** Squash and commit *)

Lemma squash_old_loop l u : NoDup l.*1 ->
  let u' := foldl squash_old u l in
  new_ids u' = new_ids u /\ removed_values u' = removed_values u /\
  old_next_id u' = old_next_id u /\ frame_revision u' = frame_revision u /\
  forall j, old_values u' !! j =
    if bool_decide (j ∈ new_ids u) then old_values u !! j else (old_values u ∪ list_to_map l) !! j.
Proof.
  cbn zeta. revert u. induction l as [|[i v] l IH]; intros u Hnd; cbn [foldl].
  { split_and!; try done. intros j. cbn [list_to_map foldr]. rewrite (right_id_L ∅ (∪)). by destruct (bool_decide _). }
  apply NoDup_cons in Hnd as [Hi Hnd].
  assert ((list_to_map l : gmap Z V) !! i = None) as Hli by (by apply not_elem_of_list_to_map_1).
  destruct (IH (squash_old u (i, v)) Hnd) as (E1 & E2 & E3 & E4 & E5).
  assert (new_ids (squash_old u (i, v)) = new_ids u /\ removed_values (squash_old u (i, v)) = removed_values u /\
    old_next_id (squash_old u (i, v)) = old_next_id u /\ frame_revision (squash_old u (i, v)) = frame_revision u) as (N1 & N2 & N3 & N4).
  { cbn. destruct (decide _); [done|]. by destruct (old_values u !! i). }
  rewrite N1 in E1, E5. rewrite N2 in E2. rewrite N3 in E3. rewrite N4 in E4.
  split_and!; try done. intros j. rewrite E5. cbn [list_to_map foldr fst snd squash_old]. rewrite !lookup_union.
  destruct (decide _) as [Hn|Hn].
  - case_bool_decide as Hj; [done|]. by rewrite lookup_insert_ne by (intros ->; done).
  - destruct (old_values u !! i) as [o|] eqn:Eo; (destruct (decide (j = i)) as [->|Hne];
      [|cbn [old_values]; rewrite ?lookup_insert_ne by done; done]).
    + rewrite Eo. by rewrite lookup_insert_eq, Hli.
    + cbn [old_values]. rewrite !lookup_insert_eq, Hli, Eo. by rewrite bool_decide_eq_false_2.
Qed.

Lemma squash_new_loop l u :
  foldl squash_new u l = mk_undo (old_values u) (removed_values u) (list_to_set l ∪ new_ids u)
                           (old_next_id u) (frame_revision u).
Proof.
  revert u. induction l as [|i l IH]; intros u; cbn.
  { rewrite (left_id_L ∅ (∪)). by destruct u. }
  rewrite IH. cbn. f_equal. set_solver.
Qed.

Lemma squash_removed_loop l u : NoDup l.*1 ->
  let u' := foldl squash_removed u l in
  old_next_id u' = old_next_id u /\ frame_revision u' = frame_revision u /\
  forall j, match (list_to_map l : gmap Z V) !! j with
    | None => (j ∈ new_ids u' <-> j ∈ new_ids u) /\ old_values u' !! j = old_values u !! j /\
              removed_values u' !! j = removed_values u !! j
    | Some v => j ∉ new_ids u' /\
        if bool_decide (j ∈ new_ids u)
        then old_values u' !! j = old_values u !! j /\ removed_values u' !! j = removed_values u !! j
        else old_values u' !! j = None /\ removed_values u' !! j = Some (default v (old_values u !! j))
    end.
Proof.
  cbn zeta. revert u. induction l as [|[i v] l IH]; intros u Hnd; cbn [foldl].
  { done. }
  apply NoDup_cons in Hnd as [Hi Hnd].
  assert ((list_to_map l : gmap Z V) !! i = None) as Hli by (by apply not_elem_of_list_to_map_1).
  destruct (IH (squash_removed u (i, v)) Hnd) as (E3 & E4 & E5).
  assert (old_next_id (squash_removed u (i, v)) = old_next_id u /\
    frame_revision (squash_removed u (i, v)) = frame_revision u) as (N3 & N4).
  { cbn. destruct (decide _); [done|]. by destruct (old_values u !! i). }
  rewrite N3 in E3. rewrite N4 in E4.
  split_and!; try done. intros j. specialize (E5 j). cbn [list_to_map foldr fst snd].
  destruct (decide (j = i)) as [->|Hne].
  - rewrite lookup_insert_eq. rewrite Hli in E5. destruct E5 as (N5 & O5 & R5). rewrite N5, O5, R5.
    cbn [squash_removed]. destruct (decide _) as [Hn|Hn].
    + rewrite bool_decide_eq_true_2 by done. cbn. set_solver.
    + rewrite bool_decide_eq_false_2 by done. destruct (old_values u !! i) eqn:Eo; cbn.
      * by rewrite lookup_delete_eq, lookup_insert_eq.
      * by rewrite lookup_insert_eq, Eo.
  - rewrite lookup_insert_ne by done.
    assert ((j ∈ new_ids (squash_removed u (i, v)) <-> j ∈ new_ids u) /\
      old_values (squash_removed u (i, v)) !! j = old_values u !! j /\
      removed_values (squash_removed u (i, v)) !! j = removed_values u !! j) as (N & O & R).
    { cbn. destruct (decide _); [cbn; set_solver|]. destruct (old_values u !! i); cbn;
        rewrite ?lookup_delete_ne, ?lookup_insert_ne by done; done. }
    rewrite O, R in E5. rewrite (bool_decide_ext _ _ N) in E5. destruct ((list_to_map l : gmap Z V) !! j); [done|].
    by rewrite N in E5.
Qed.

(** The table of [squash]: how two records of an object compose. *)
Lemma recorded_merge sn so sr pn po pr now mid before :
  recorded sn so sr now mid -> recorded pn po pr mid before -> (sn = true -> before = None) ->
  let old := if pn then po else po ∪ so in
  match sr with
  | None => recorded (sn || pn) old pr now before
  | Some v => if sn || pn then recorded false old pr now before
              else recorded false None (Some (default v old)) now before
  end.
Proof.
  destruct sn, so, sr, pn, po, pr; cbn; try done; intros; destruct_and?; simplify_eq;
    naive_solver eauto using same_keys_trans.
Qed.

(** Two frames merge into one that leads from the newest state to the oldest. *)
Lemma records_merge prev state now mid before :
  records state now mid -> records prev mid before -> snapshot_wf before -> records (merge_frames prev state) now before.
Proof.
  intros [A1 X1 N1 G1] [A2 X2 N2 G2] Wb. unfold merge_frames.
  destruct (squash_old_loop (by_id (old_values state)) prev (by_id_nodup _)) as (E1 & E2 & E3 & E4 & E5).
  rewrite squash_new_loop. rewrite by_id_map in E5.
  set (w := mk_undo _ _ _ _ _).
  destruct (squash_removed_loop (by_id (removed_values state)) w (by_id_nodup _)) as (F3 & F4 & F5).
  rewrite by_id_map in F5. 
  assert (forall i, i ∈ new_ids state -> objects before !! i = None) as Hf.
  { intros i Hi. destruct (objects before !! i) eqn:E; [|done].
    pose proof (wf_next _ Wb _ (mk_is_Some _ _ E)). specialize (X1 _ Hi). lia. }
  constructor; [| |rewrite F3; cbn; congruence|lia].
  2: { intros i Hi. specialize (F5 i). destruct (removed_values state !! i); [by destruct F5|].
       apply F5 in Hi. cbn in Hi. rewrite E1, elem_of_union, elem_of_list_to_set, elem_of_ids in Hi.
       destruct Hi as [Hi|Hi]; [specialize (X1 _ Hi); lia|by apply X2]. }
  intros i. specialize (A1 i). specialize (A2 i). specialize (F5 i).
  assert (bool_decide (i ∈ new_ids w) = bool_decide (i ∈ new_ids state) || bool_decide (i ∈ new_ids prev)) as Hw.
  { rewrite <- bool_decide_or. apply bool_decide_ext. cbn.
    by rewrite E1, elem_of_union, elem_of_list_to_set, elem_of_ids. }
  assert (old_values w !! i = if bool_decide (i ∈ new_ids prev) then old_values prev !! i
            else old_values prev !! i ∪ old_values state !! i) as Ho by (cbn; rewrite E5, lookup_union; done).
  assert (removed_values w !! i = removed_values prev !! i) as Hr by (cbn; by rewrite E2).
  pose proof (recorded_merge _ _ _ _ _ _ _ _ _ A1 A2 ltac:(intros Hi%bool_decide_eq_true; auto)) as Hm. rewrite <- Hw, <- Ho in Hm.
  destruct (removed_values state !! i) as [r|].
  - destruct F5 as [Fn F5]. rewrite (bool_decide_eq_false_2 _ Fn).
    destruct (bool_decide (i ∈ new_ids w)); destruct F5 as [-> ->]; by rewrite ?Hr.
  - destruct F5 as (Fn & -> & ->). by rewrite (bool_decide_ext _ _ Fn), Hr.
Qed.

Lemma refines_squash keep s a : refines s a -> refines (squash keep s) (spec_squash keep a).
Proof.
  intros R. pose proof R as [Ep Wp El Es]. unfold squash, spec_squash.
  destruct (stack s) as [|u [|u' st]] eqn:Hst, (past a) as [|[p r] [|[p' r'] ps]] eqn:Hpast; cbn in Es; try tauto.
  - destruct keep; constructor; cbn [stack past present level revision indices next_id stack_records]; try done; [lia|].
    split_and!; [|done|cbn; lia|done]. rewrite Ep. apply (records_refl (mk_snapshot (indices s) (next_id s))).
  - destruct Es as (H1 & W1 & R1 & H2 & W2 & R2 & Hs).
    assert (stack_records (present a) (merge_frames u' u :: st) ((p', r') :: ps)) as Hm.
    { cbn. split_and!; [by eapply records_merge|done| |done].
      unfold merge_frames. rewrite (proj1 (proj2 (squash_removed_loop _ _ (by_id_nodup _)))), squash_new_loop.
      cbn. by rewrite (proj1 (proj2 (proj2 (proj2 (squash_old_loop _ _ (by_id_nodup _)))))). }
    destruct keep; constructor; cbn [stack past present level revision indices next_id]; try done; [|lia].
    split; [|split; [done|split; [exact R1|exact Hm]]]. rewrite Ep. apply (records_refl (mk_snapshot (indices s) (next_id s))).
Qed.

(** How many of the oldest frames a commit drops. *)
Fixpoint committed (rev : Z) (revs : list Z) : nat :=
  match revs with [] => 0 | r :: revs => if r <=? rev then S (committed rev revs) else 0 end.

Lemma drop_committed_drop {A} (f : A -> Z) rev l : drop_committed f rev l = drop (committed rev (f <$> l)) l.
Proof. induction l as [|x l IH]; cbn; [done|]. destruct (_ <=? _); [exact IH|done]. Qed.

Lemma commit_take {A} (f : A -> Z) rev l :
  reverse (drop_committed f rev (reverse l)) = take (length l - committed rev (reverse (f <$> l))) l.
Proof.
  rewrite drop_committed_drop, fmap_reverse. generalize (committed rev (reverse (f <$> l))). intros n.
  rewrite <- (reverse_involutive (take _ l)). f_equal.
  rewrite <- (take_drop (length l - n) l) at 1. rewrite reverse_app.
  destruct (decide (n <= length l)%nat).
  - rewrite drop_app_length'; [done|]. rewrite length_reverse, length_drop. lia.
  - replace (length l - n)%nat with 0%nat by lia. rewrite take_0, drop_0. cbn. rewrite app_nil_r, drop_ge; [done|].
    rewrite length_reverse. lia.
Qed.

Lemma stack_records_take n now st ps : stack_records now st ps -> stack_records now (take n st) (take n ps).
Proof.
  revert n now ps. induction st as [|u st IH]; intros [|n] now [|[p r] ps]; cbn; try done.
  intros (? & ? & ? & ?). split_and!; auto.
Qed.

Lemma stack_records_revisions now st ps : stack_records now st ps -> frame_revision <$> st = snd <$> ps.
Proof.
  revert now ps. induction st as [|u st IH]; intros now [|[p r] ps]; cbn; try done.
  intros (_ & _ & -> & Hs). f_equal. by eapply IH.
Qed.

Lemma refines_commit rev s a : refines s a -> refines (commit rev s) (spec_commit rev a).
Proof.
  intros [Ep Wp El Es]. constructor; cbn [commit spec_commit present past level revision stack]; try done.
  rewrite !commit_take, (stack_records_length _ _ _ Es), (stack_records_revisions _ _ _ Es).
  by apply stack_records_take.
Qed.

Lemma refines_set_revision rev s a : refines s a ->
  (or_throw s (set_revision rev s)).2 = (spec_set_revision rev a).2 /\
  refines (or_throw s (set_revision rev s)).1 (spec_set_revision rev a).1.
Proof.
  intros R. pose proof R as [Ep Wp El Es]. unfold set_revision, spec_set_revision, enabled.
  destruct (stack s) as [|u st] eqn:Hst, (past a) as [|[p r] ps] eqn:Hpast; cbn in Es; done.
Qed.

Lemma refines_operation op s a : refines s a -> keeps_keys op ->
  (run_operation op s).2 = (spec_operation op a).2 /\
  refines (run_operation op s).1 (spec_operation op a).1.
Proof.
  intros R Hk. destruct op as [make|i f|i| |keep|keep|rev| |rev]; cbn [run_operation spec_operation].
  - by apply refines_create.
  - by apply refines_modify.
  - by apply refines_remove.
  - split; [done|]. pose proof R as [Ep Wp El Es].
    constructor; cbn [start_undo_session spec_start stack past present level revision indices next_id fst stack_records];
      [done|done|lia|]. split_and!; [|done|cbn; lia|done].
    rewrite Ep. apply (records_refl (mk_snapshot (indices s) (next_id s))).
  - destruct (refines_undo keep s a R) as (s' & -> & R'). done.
  - split; [done|]. by apply refines_squash.
  - split; [done|]. by apply refines_commit.
  - destruct (refines_undo_all s a R) as (s' & -> & R'). done.
  - by apply refines_set_revision.
Qed.

Lemma refines_empty : refines empty_index spec_empty.
Proof.
  constructor; cbn; [done| |done|done]. constructor; cbn.
  - intros i j v w Hi. by rewrite lookup_empty in Hi.
  - intros i [v Hi]. by rewrite lookup_empty in Hi.
Qed.

Lemma refines_operations ops s a : refines s a -> Forall keeps_keys ops ->
  (run_operations ops s).2 = (spec_operations ops a).2 /\
  refines (run_operations ops s).1 (spec_operations ops a).1.
Proof.
  revert s a. induction ops as [|op ops IH]; intros s a R Hk; cbn; [done|].
  apply Forall_cons in Hk as [Hk Hks]. destruct (refines_operation op s a R Hk) as [E1 R1].
  destruct (run_operation op s) as [s1 e1], (spec_operation op a) as [a1 e2]. cbn in *.
  destruct (IH s1 a1 R1 Hks) as [E2 R2].
  destruct (run_operations ops s1), (spec_operations ops a1). cbn in *. by rewrite E1, E2.
Qed.

(** C7. The undo history of an index is a stack of snapshots: for every sequence of
    creations, modifications (also ones that throw half way), removals,
    sessions, undos, squashes, commits and revision changes in which unique
    keys do not change, the index has the objects, the next id and the revision
    of the store that keeps whole copies, and each operation throws exactly
    when it does there.  In particular no undo ever fails. *)
Theorem undo_history_refines_snapshots (ops : list (index_operation V)) : Forall keeps_keys ops ->
  let '(s, thrown) := run_operations ops empty_index in
  let '(a, promised) := spec_operations ops spec_empty in
  thrown = promised /\ refines s a.
Proof.
  intros Hk. pose proof (refines_operations ops _ _ refines_empty Hk) as HR.
  destruct (run_operations ops empty_index), (spec_operations ops spec_empty). done.
Qed.

(** ** The allocation counter *)

(** A modifier that throws leaves the memory its object owns unchanged. *)
Definition honest_allocation (op : index_operation V) : Prop :=
  match op with
  | Modify i f => forall v, (f v).2 = None \/ get_dynamic_alloc (f v).1 = get_dynamic_alloc v
  | _ => True
  end.

Definition counter_ok (s : generic_index V) : Prop := counted (indices s, item_additional_allocation s).

Lemma undo_counted keep s a s' : refines s a -> counter_ok s -> undo keep s = Ok s' -> counter_ok s'.
Proof.
  intros [Ep Wp El Es] Hc Hu.
  destruct (stack s) as [|u st] eqn:Hst, (past a) as [|[p r] ps]; cbn in Es; try done.
  { unfold undo in Hu. rewrite Hst in Hu. by injection Hu as <-. }
  destruct Es as (Hr & Wb & _ & _).
  destruct (undo_value keep s u st (present a) p Hst Ep Wp Wb Hr) as (extra & E & Hx).
  rewrite E in Hu. injection Hu as <-. specialize (Hx Hc). by destruct keep.
Qed.

Lemma undo_loop_counted fuel s a s' : refines s a -> counter_ok s -> undo_loop fuel s = Some (Ok s') -> counter_ok s'.
Proof.
  revert s a. induction fuel as [|fuel IH]; intros s a R Hc; cbn; destruct (enabled s); try done; [by intros [= <-]| |by intros [= <-]].
  destruct (refines_undo false s a R) as (s1 & E & R1). rewrite E. intros Hl.
  eapply IH; [exact R1|exact (undo_counted _ _ _ _ R Hc E)|exact Hl].
Qed.

Lemma operation_counted op s a : refines s a -> keeps_keys op -> honest_allocation op ->
  counter_ok s -> counter_ok (run_operation op s).1.
Proof.
  intros R Hk Ha Hc. destruct op as [make|i f|i| |keep|keep|rev| |rev]; cbn [run_operation].
  - unfold emplace, mi_emplace. destruct (indices s !! next_id s) eqn:E; [done|].
    destruct (clashes _ _ _); [done|]. by apply counted_insert.
  - unfold modify. destruct (indices s !! i) as [v|] eqn:E; [|done].
    specialize (Hk v). specialize (Ha v). destruct (f v) as [v' thrown]. cbn in Hk, Ha.
    assert (clashes i v' (indices s) = false) as Hcl.
    { eapply same_keys_no_clash; [|exact E|done]. pose proof (ref_wf _ _ R) as W. rewrite (ref_present _ _ R) in W. apply W. }
    unfold mi_modify. cbn [on_modify indices]. rewrite Hcl.
    pose proof (counted_update _ _ _ v' _ Hc E) as Hu. destruct thrown; [|exact Hu].
    destruct Ha as [?|Ha]; [done|]. unfold counter_ok, counted in *. cbn in *.
    rewrite (sumM_update _ _ _ _ _ E), Ha, Hc. f_equal. lia.
  - unfold remove. destruct (indices s !! i) as [v|] eqn:E; [|done]. destruct (check_on_remove v); [|done].
    by apply counted_delete.
  - done.
  - destruct (refines_undo keep s a R) as (s' & E & _). rewrite E. exact (undo_counted _ _ _ _ R Hc E).
  - unfold squash. by destruct (stack s) as [|? [|? ?]], keep.
  - done.
  - destruct (refines_undo_all s a R) as (s' & E & _). rewrite E. exact (undo_loop_counted _ _ _ _ R Hc E).
  - unfold set_revision. by destruct (enabled s).
Qed.

Lemma operations_counted ops s a : refines s a -> Forall keeps_keys ops -> Forall honest_allocation ops ->
  counter_ok s -> counter_ok (run_operations ops s).1.
Proof.
  revert s a. induction ops as [|op ops IH]; intros s a R Hk Ha Hc; cbn; [done|].
  apply Forall_cons in Hk as [Hk Hks], Ha as [Ha Has].
  destruct (refines_operation op s a R Hk) as [_ R1]. pose proof (operation_counted op s a R Hk Ha Hc) as H1.
  destruct (run_operation op s) as [s1 e1]. specialize (IH s1 _ R1 Hks Has H1).
  by destruct (run_operations ops s1).
Qed.

(** The counter of dynamically allocated memory equals the sum over the stored
    objects, modulo the width of [size_t], after every sequence of operations
    in which a modifier that throws has not changed the size of its object. *)
Theorem allocation_counter_exact (ops : list (index_operation V)) :
  Forall keeps_keys ops -> Forall honest_allocation ops ->
  let s := (run_operations ops empty_index).1 in
  item_additional_allocation s = size_t (sumM get_dynamic_alloc (indices s)).
Proof. intros Hk Ha. by apply (operations_counted _ _ _ refines_empty Hk Ha). Qed.

(** ** Sessions of the database *)

Definition database : Type := list (generic_index V).

Record undo_session_guard : Set := mk_guard { undo_on_destroy : bool }.

Definition db_start_undo_session (db : database) : database * undo_session_guard :=
  (start_undo_session <$> db, mk_guard (match db with [] => false | _ => true end)).
Definition db_undo (keep_alive : bool) (db : database) : result database := mapR (undo keep_alive) db.
Definition db_squash (keep_alive : bool) (db : database) : database := squash keep_alive <$> db.
Definition db_commit (rev : Z) (db : database) : database := commit rev <$> db.
Definition db_revision (db : database) : Z := match db with [] => -1 | s :: _ => revision s end.

Definition guard_push (g : undo_session_guard) : undo_session_guard := mk_guard false.
Definition guard_squash (keep_alive : bool) (g : undo_session_guard) (db : database) : database * undo_session_guard :=
  (db_squash keep_alive db, if keep_alive then g else mk_guard false).
Definition guard_undo (keep_alive : bool) (g : undo_session_guard) (db : database) :
    result (database * undo_session_guard) :=
  db ← db_undo keep_alive db; Ok (db, if keep_alive then g else mk_guard false).
(** The destructor. *)
Definition guard_destroy (g : undo_session_guard) (db : database) : result database :=
  if undo_on_destroy g then '(db, _) ← guard_undo false g db; Ok db else Ok db.

(** Creating, modifying or removing an object of the [n]-th index. *)
Definition object_operation (op : index_operation V) : bool :=
  match op with Create _ | Modify _ _ | Remove _ => true | _ => false end.
Definition db_operation (n : nat) (op : index_operation V) (db : database) : database :=
  alter (fun s => (run_operation op s).1) n db.
Definition db_operations (ops : list (nat * index_operation V)) (db : database) : database :=
  foldl (fun db '(n, op) => db_operation n op db) db ops.

(** Within a session only the newest frame changes. *)
Definition in_session (s0 : generic_index V) (a0 : history V) (s : generic_index V) : Prop :=
  exists a u, refines s a /\ past a = (present a0, level a0 + 1) :: past a0 /\
    stack s = u :: stack s0 /\ revision s = revision s0 + 1.

Lemma start_in_session s a : refines s a -> in_session s a (start_undo_session s).
Proof.
  intros R. exists (spec_start a), (mk_undo ∅ ∅ ∅ (next_id s) (revision s + 1)).
  split; [|done]. by apply (refines_operation Start s a R).
Qed.

Lemma operation_in_session s0 a0 op s : object_operation op = true -> keeps_keys op ->
  in_session s0 a0 s -> in_session s0 a0 (run_operation op s).1.
Proof.
  intros Ho Hk (a & u & R & Hp & Hs & Hr). destruct (refines_operation op s a R Hk) as [_ R1].
  exists (spec_operation op a).1.
  assert (past (spec_operation op a).1 = past a) as Hp'.
  { destruct op as [make|i f|i| | | | | | ]; try done; cbn [spec_operation].
    - unfold spec_create. by destruct (clashes _ _ _).
    - unfold spec_modify. destruct (_ !! _) as [v|]; [|done]. by destruct (f v).
    - unfold spec_remove. destruct (_ !! _) as [v|]; [|done]. by destruct (check_on_remove v). }
  assert (exists u', stack (run_operation op s).1 = u' :: stack s0 /\ revision (run_operation op s).1 = revision s)
    as (u' & Hs' & Hr').
  { destruct op as [make|i f|i| | | | | | ]; try done; cbn [run_operation].
    - unfold emplace. destruct (mi_emplace _ _ _); cbn; rewrite ?Hs; cbn; eauto.
    - unfold modify. destruct (_ !! _) as [v|]; [|cbn; eauto]. destruct (f v) as [v' [e|]], (mi_modify _ _ _) as [m []]; cbn; rewrite ?Hs; cbn; eauto.
    - unfold remove. destruct (_ !! _) as [v|]; [|cbn; eauto]. destruct (check_on_remove v); cbn; rewrite ?Hs; cbn; eauto. }
  exists u'. rewrite Hp', Hs', Hr'. auto.
Qed.

(** What a session left without being pushed must give back. *)
Definition same_store (s s' : generic_index V) : Prop :=
  indices s' = indices s /\ next_id s' = next_id s /\ revision s' = revision s /\ stack s' = stack s.

Lemma undo_in_session s0 a0 s : refines s0 a0 -> in_session s0 a0 s ->
  exists s', undo false s = Ok s' /\ same_store s0 s'.
Proof.
  intros R0 (a & u & R & Hp & Hs & Hr). pose proof (ref_stack _ _ R) as Hst. rewrite Hp, Hs in Hst.
  destruct Hst as (Hrec & Wb & _ & _).
  destruct (undo_value false s u _ _ _ Hs (ref_present _ _ R) (ref_wf _ _ R) Wb Hrec) as (extra & E & _).
  eexists. split; [exact E|]. rewrite (ref_present _ _ R0). unfold same_store. cbn. split_and!; [done|done|lia|done].
Qed.

(** A session whose guard is destroyed without a push or a squash leaves no
    trace: whatever objects were created, modified or removed in any of the
    indexes, the destructor returns and every index has its objects, its next
    id, its revision and its undo history of before the session. *)
Theorem dropped_session_restores (db : database) (histories : list (history V)) ops :
  Forall2 refines db histories ->
  Forall (fun '(_, op) => object_operation op = true /\ keeps_keys op) ops ->
  let '(db1, guard) := db_start_undo_session db in
  exists db', guard_destroy guard (db_operations ops db1) = Ok db' /\ Forall2 same_store db db'.
Proof.
  intros HR Hops. cbn.
  assert (Forall2 (fun '(s0, a0) s => refines s0 a0 /\ in_session s0 a0 s) (zip db histories) (start_undo_session <$> db)) as Hin.
  { induction HR; cbn; constructor; auto using start_in_session. }
  assert (Forall2 (fun '(s0, a0) s => refines s0 a0 /\ in_session s0 a0 s) (zip db histories)
            (db_operations ops (start_undo_session <$> db))) as Hin2.
  { revert Hin. generalize (start_undo_session <$> db). induction Hops as [|[n op] ops [Ho Hk] _ IH]; intros d Hin; cbn; [done|].
    apply IH. apply Forall2_alter_r; [done|]. intros [s0 a0] s _ _ Hx. destruct Hx. split; [done|]. by apply operation_in_session. }
  assert (exists db', db_undo false (db_operations ops (start_undo_session <$> db)) = Ok db' /\ Forall2 same_store db db')
    as (db' & E & Hs).
  { unfold db_undo. revert Hin2. generalize (db_operations ops (start_undo_session <$> db)). clear Hin Hops.
    induction HR as [|s0 a0 db as_ Hr HR IH]; intros d Hin2; cbn in Hin2.
    { apply Forall2_nil_inv_l in Hin2 as ->. exists []. by split. }
    apply Forall2_cons_inv_l in Hin2 as (s & d' & [_ Hi] & Hd & ->). cbn.
    destruct (undo_in_session _ _ _ Hr Hi) as (s' & -> & Hs'). destruct (IH _ Hd) as (db' & -> & Hs).
    exists (s' :: db'). split; [done|]. by constructor. }
  destruct db as [|s0 db]; unfold guard_destroy, guard_undo; cbn [undo_on_destroy].
  - apply Forall2_nil_inv_l in Hs as ->. apply mapR_Ok, Forall2_nil_inv_r in E. exists []. by rewrite E.
  - exists db'. rewrite E. done.
Qed.
End refinement.

(** ** A concrete index *)

Module Sample.
(** An object with a unique name and a text of some length. *)
Record named : Set := mk_named { name : Z; text_size : Z }.
#[export] Instance named_object : ChainObject named := {|
  clash a b := name a = name b;
  clash_dec a b := decide (name a = name b);
  get_dynamic_alloc := text_size;
  check_on_remove a := 0 <=? text_size a
|}.
#[export] Instance named_laws : ChainObjectLaws named.
Proof. constructor; [intros a b; cbn; congruence|intros a; done]. Qed.

Definition create (n size : Z) : index_operation named := Create (fun _ => mk_named n size).
Definition resize (i size : Z) : index_operation named := Modify i (fun v => (mk_named (name v) size, None)).
Definition resize_and_throw (i size : Z) : index_operation named :=
  Modify i (fun v => (mk_named (name v) size, Some AssertFc)).
Definition rename (i n : Z) : index_operation named := Modify i (fun v => (mk_named n (text_size v), None)).

(** Two nested sessions, squashed, then undone. *)
Definition ops : list (index_operation named) :=
  [create 7 10; create 8 20; Start; resize 0 11; Remove 1; Start; create 8 5; resize_and_throw 0 12;
   create 7 1; Squash false; Undo false].

Lemma ops_keep_keys : Forall keeps_keys ops.
Proof. repeat constructor; cbn; by intros. Qed.

Example ops_run :
  (run_operations ops empty_index).2 =
    [None; None; None; None; None; None; None; Some AssertFc; Some LogicError; None; None] /\
  indices (run_operations ops empty_index).1 !! 0 = Some (mk_named 7 10) /\
  indices (run_operations ops empty_index).1 !! 1 = Some (mk_named 8 20) /\
  next_id (run_operations ops empty_index).1 = 2.
Proof. vm_compute. split_and!; reflexivity. Qed.

Lemma undo_history_refines_snapshots_witness :
  let '(s, thrown) := run_operations ops empty_index in
  let '(a, promised) := spec_operations ops spec_empty in
  thrown = promised /\ refines s a.
Proof. exact (undo_history_refines_snapshots ops ops_keep_keys). Defined.

Definition quiet_ops : list (index_operation named) :=
  [create 7 10; Start; resize 0 25; create 8 4; Remove 0; Undo true; resize 0 3; Squash false].

Lemma allocation_counter_exact_witness :
  let s := (run_operations quiet_ops empty_index).1 in
  item_additional_allocation s = size_t (sumM get_dynamic_alloc (indices s)).
Proof.
  refine (allocation_counter_exact quiet_ops _ _); unfold quiet_ops;
    repeat (apply Forall_cons; split); try apply Forall_nil; cbn; try done; by left.
Defined.

Definition db0 : database := [(run_operations [create 7 10; create 8 20] empty_index).1; empty_index].

Lemma dropped_session_restores_witness :
  let '(db1, guard) := db_start_undo_session db0 in
  exists db', guard_destroy guard (db_operations [(0%nat, resize 0 99); (1%nat, create 7 1); (0%nat, Remove 1)] db1) = Ok db' /\
    Forall2 same_store db0 db'.
Proof.
  refine (dropped_session_restores db0 [(spec_operations [create 7 10; create 8 20] spec_empty).1; spec_empty]
    [(0%nat, resize 0 99); (1%nat, create 7 1); (0%nat, Remove 1)] _ _).
  - constructor; [|constructor; [apply refines_empty|constructor]].
    refine (proj2 (refines_operations _ _ _ refines_empty _)). repeat constructor.
  - repeat constructor; cbn; by intros.
Defined.

(** Without stable keys an undo can fail: an object gives up its unique key,
    a new object takes it, and undoing the session restores the old value
    before it erases the new object, which violates the uniqueness it is about
    to re-establish. *)
Theorem undo_fails_when_a_key_is_reused :
  let '(s, thrown) := run_operations [create 7 10; Start; rename 0 9; create 7 1] empty_index in
  thrown = [None; None; None; None] /\ undo false s = Throw LogicError.
Proof. vm_compute. split; reflexivity. Qed.

(** A modification that fails on a unique key erases an object the session
    itself created, and the undo of the session then does not find it. *)
Theorem undo_fails_after_failed_modification :
  let '(s, thrown) := run_operations [create 7 10; Start; create 8 1; rename 1 7] empty_index in
  thrown = [None; None; None; Some LogicError] /\ undo false s = Throw LogicError.
Proof. vm_compute. split; reflexivity. Qed.

(** A modifier that changes the size of its object and then throws leaves the
    allocation counter wrong, also after the session is undone. *)
Theorem throwing_modifier_skews_counter :
  let s := (run_operations [create 7 10; Start; resize_and_throw 0 30; Undo false] empty_index).1 in
  item_additional_allocation s <> size_t (sumM get_dynamic_alloc (indices s)).
Proof. vm_compute. discriminate. Qed.
End Sample.
