(* ===== verification/WitnessSchedule.v ===== *)
(** * Witnesses and their schedule

    Models libraries/chain/witness_schedule.cpp and witness_schedule.hpp (the
    election of the block producers of a round, the virtual time of the
    time-shared ones, the vote on hardforks, the median of the chain
    properties), libraries/chain/database_witness.cpp (votes for witnesses,
    missed blocks, header extensions) and the slots of database.cpp, for a chain
    past hardfork 28; hardforks 29 and 30 are distinguished as in the code.

    The index of witnesses is a list in the order of ids; a secondary index is
    the list sorted by the index's key.  The iterators of the code survive the
    modifications made while they advance, because no key of the index walked
    changes for an element still ahead. *)

From stdpp Require Import base numbers strings option list sorting gmap.
From S2P Require Import Prelude Fc Config AssetSymbol Asset Resources Version.
Open Scope Z_scope.

(** ** State *)

Inductive witness_schedule_type : Set := elected | timeshare | miner | none.

Record chain_properties : Set := mk_props {
  account_creation_fee : asset;
  prop_maximum_block_size : Z;
  prop_hbd_interest_rate : Z;
  account_subsidy_budget : Z;
  account_subsidy_decay : Z
}.

(** [signing_key] is [None] for the null key. *)
Record witness_object : Set := mk_witness {
  wit_id : Z;
  owner : string;
  total_missed : Z;
  last_aslot : Z;
  last_confirmed_block_num : Z;
  pow_worker : Z;
  signing_key : option Z;
  props : chain_properties;
  votes : Z;
  schedule : witness_schedule_type;
  virtual_last_update : Z;
  virtual_position : Z;
  virtual_scheduled_time : Z;
  running_version : version;
  hardfork_version_vote : version;
  hardfork_time_vote : Z;
  available_witness_account_subsidies : Z
}.

Definition is_disabled (w : witness_object) : bool := match signing_key w with None => true | Some _ => false end.

Definition set_schedule (x : witness_schedule_type) (w : witness_object) : witness_object :=
  mk_witness (wit_id w) (owner w) (total_missed w) (last_aslot w) (last_confirmed_block_num w) (pow_worker w)
    (signing_key w) (props w) (votes w) x (virtual_last_update w) (virtual_position w) (virtual_scheduled_time w)
    (running_version w) (hardfork_version_vote w) (hardfork_time_vote w) (available_witness_account_subsidies w).
Definition set_pow_worker (x : Z) (w : witness_object) : witness_object :=
  mk_witness (wit_id w) (owner w) (total_missed w) (last_aslot w) (last_confirmed_block_num w) x
    (signing_key w) (props w) (votes w) (schedule w) (virtual_last_update w) (virtual_position w) (virtual_scheduled_time w)
    (running_version w) (hardfork_version_vote w) (hardfork_time_vote w) (available_witness_account_subsidies w).
(** The four fields of the virtual clock of a witness. *)
Definition set_virtual (v position last_update scheduled : Z) (w : witness_object) : witness_object :=
  mk_witness (wit_id w) (owner w) (total_missed w) (last_aslot w) (last_confirmed_block_num w) (pow_worker w)
    (signing_key w) (props w) v (schedule w) last_update position scheduled
    (running_version w) (hardfork_version_vote w) (hardfork_time_vote w) (available_witness_account_subsidies w).
Definition set_produced (aslot num : Z) (w : witness_object) : witness_object :=
  mk_witness (wit_id w) (owner w) (total_missed w) aslot num (pow_worker w)
    (signing_key w) (props w) (votes w) (schedule w) (virtual_last_update w) (virtual_position w) (virtual_scheduled_time w)
    (running_version w) (hardfork_version_vote w) (hardfork_time_vote w) (available_witness_account_subsidies w).
Definition set_missed (x : Z) (w : witness_object) : witness_object :=
  mk_witness (wit_id w) (owner w) x (last_aslot w) (last_confirmed_block_num w) (pow_worker w)
    (signing_key w) (props w) (votes w) (schedule w) (virtual_last_update w) (virtual_position w) (virtual_scheduled_time w)
    (running_version w) (hardfork_version_vote w) (hardfork_time_vote w) (available_witness_account_subsidies w).
Definition set_versions (running vote : version) (time : Z) (w : witness_object) : witness_object :=
  mk_witness (wit_id w) (owner w) (total_missed w) (last_aslot w) (last_confirmed_block_num w) (pow_worker w)
    (signing_key w) (props w) (votes w) (schedule w) (virtual_last_update w) (virtual_position w) (virtual_scheduled_time w)
    running vote time (available_witness_account_subsidies w).
Definition set_subsidies (x : Z) (w : witness_object) : witness_object :=
  mk_witness (wit_id w) (owner w) (total_missed w) (last_aslot w) (last_confirmed_block_num w) (pow_worker w)
    (signing_key w) (props w) (votes w) (schedule w) (virtual_last_update w) (virtual_position w) (virtual_scheduled_time w)
    (running_version w) (hardfork_version_vote w) (hardfork_time_vote w) x.

Record witness_schedule_object : Set := mk_wso {
  current_virtual_time : Z;
  next_shuffle_block_num : Z;
  current_shuffled_witnesses : list string;
  num_scheduled_witnesses : Z;
  elected_weight : Z;
  timeshare_weight : Z;
  miner_weight : Z;
  witness_pay_normalization_factor : Z;
  median_props : chain_properties;
  majority_version : version;
  max_voted_witnesses : Z;
  max_miner_witnesses : Z;
  hardfork_required_witnesses : Z;
  account_subsidy_rd : rd_dynamics_params;
  account_subsidy_witness_rd : rd_dynamics_params
}.

Record hardfork_property_object : Set := mk_hpo {
  last_hardfork : Z;
  current_hardfork_version : version;
  next_hardfork : version;
  next_hardfork_time : Z
}.

(** The witnesses, the two schedules, and the global properties the schedule
    reads and writes.  [warnings] counts the announced changes of the block
    size. *)
Record chain : Set := mk_chain {
  witnesses : list witness_object;
  wso_current : witness_schedule_object;
  wso_future : witness_schedule_object;
  hpo : hardfork_property_object;
  head_block_num : Z;
  head_block_time : Z;
  current_aslot : Z;
  total_vesting_shares : Z;
  num_pow_witnesses : Z;
  maximum_block_size : Z;
  hbd_interest_rate : Z;
  warnings : Z
}.

Definition set_witnesses x s := mk_chain x (wso_current s) (wso_future s) (hpo s) (head_block_num s) (head_block_time s)
  (current_aslot s) (total_vesting_shares s) (num_pow_witnesses s) (maximum_block_size s) (hbd_interest_rate s) (warnings s).
Definition set_wso_current x s := mk_chain (witnesses s) x (wso_future s) (hpo s) (head_block_num s) (head_block_time s)
  (current_aslot s) (total_vesting_shares s) (num_pow_witnesses s) (maximum_block_size s) (hbd_interest_rate s) (warnings s).
Definition set_wso_future x s := mk_chain (witnesses s) (wso_current s) x (hpo s) (head_block_num s) (head_block_time s)
  (current_aslot s) (total_vesting_shares s) (num_pow_witnesses s) (maximum_block_size s) (hbd_interest_rate s) (warnings s).
Definition set_hpo x s := mk_chain (witnesses s) (wso_current s) (wso_future s) x (head_block_num s) (head_block_time s)
  (current_aslot s) (total_vesting_shares s) (num_pow_witnesses s) (maximum_block_size s) (hbd_interest_rate s) (warnings s).
Definition set_pow_witnesses x s := mk_chain (witnesses s) (wso_current s) (wso_future s) (hpo s) (head_block_num s) (head_block_time s)
  (current_aslot s) (total_vesting_shares s) x (maximum_block_size s) (hbd_interest_rate s) (warnings s).
Definition set_block_props size rate warn s := mk_chain (witnesses s) (wso_current s) (wso_future s) (hpo s) (head_block_num s)
  (head_block_time s) (current_aslot s) (total_vesting_shares s) (num_pow_witnesses s) size rate warn.

(** ** Lookups *)

(** The number of processed hardforks exceeds [hardfork]. *)
Definition has_hardfork (hardfork : Z) (s : chain) : bool := hardfork <=? last_hardfork (hpo s).

Definition find_witness (name : string) (ws : list witness_object) : option witness_object :=
  List.find (fun w => bool_decide (owner w = name)) ws.
Definition get_witness (name : string) (ws : list witness_object) : result witness_object :=
  match find_witness name ws with Some w => Ok w | None => Throw AssertFc end.

Definition modify_witness (i : Z) (f : witness_object -> witness_object) (ws : list witness_object) : list witness_object :=
  (fun w => if wit_id w =? i then f w else w) <$> ws.

(** [by_vote_name]: more votes first, then the name. *)
Definition vote_name_le (a b : witness_object) : Prop :=
  votes b < votes a \/ (votes a = votes b /\ String.leb (owner a) (owner b) = true).
(** [by_schedule_time]: earlier scheduled times first, then the id. *)
Definition schedule_time_le (a b : witness_object) : Prop :=
  virtual_scheduled_time a < virtual_scheduled_time b \/
  (virtual_scheduled_time a = virtual_scheduled_time b /\ wit_id a <= wit_id b).
(** [by_pow]: lower work numbers first, then the id. *)
Definition pow_le (a b : witness_object) : Prop :=
  pow_worker a < pow_worker b \/ (pow_worker a = pow_worker b /\ wit_id a <= wit_id b).
#[global] Instance vote_name_le_dec : RelDecision vote_name_le.
Proof. intros a b. unfold vote_name_le. apply _. Defined.
#[global] Instance schedule_time_le_dec : RelDecision schedule_time_le.
Proof. intros a b. unfold schedule_time_le. apply _. Defined.
#[global] Instance pow_le_dec : RelDecision pow_le.
Proof. intros a b. unfold pow_le. apply _. Defined.

Definition by_vote_name (ws : list witness_object) : list witness_object := merge_sort vote_name_le ws.
Definition by_schedule_time (ws : list witness_object) : list witness_object := merge_sort schedule_time_le ws.
(** From [upper_bound( 0 )] on. *)
Definition by_pow (ws : list witness_object) : list witness_object :=
  merge_sort pow_le (filter (fun w => 0 < pow_worker w) ws).

(** ** Virtual time *)

Definition lap_time (v : Z) : Z := HIVE_VIRTUAL_SCHEDULE_LAP_LENGTH2 / u128 (i64 (v + 1)).

(** [reset_virtual_schedule_time] from hardfork 27 on. *)
Definition reset_virtual_schedule_time (s : chain) : chain :=
  let w := wso_future s in
  let s := set_wso_future (mk_wso 0 (next_shuffle_block_num w) (current_shuffled_witnesses w) (num_scheduled_witnesses w)
             (elected_weight w) (timeshare_weight w) (miner_weight w) (witness_pay_normalization_factor w) (median_props w)
             (majority_version w) (max_voted_witnesses w) (max_miner_witnesses w) (hardfork_required_witnesses w)
             (account_subsidy_rd w) (account_subsidy_witness_rd w)) s in
  set_witnesses ((fun x => set_virtual (votes x) 0 (current_virtual_time (wso_future s)) (lap_time (votes x)) x)
                   <$> witnesses s) s.

Section votes.
Context `{L : FcLib}.

(** [adjust_witness_vote]: the lap so far is settled at the old speed.  The
    check refuses more votes than there are vesting shares. *)
Definition adjust_witness_vote (name : string) (delta : Z) (s : chain) : result chain :=
  w ← get_witness name (witnesses s);
  let now := current_virtual_time (wso_future s) in
  let position := u128 (virtual_position w + u128 (u128 (votes w) * u128 (now - virtual_last_update w))) in
  v ← safe_add (votes w) delta;
  _ ← check (v <=? total_vesting_shares s) AssertFc;
  let scheduled := u128 (now + u128 (HIVE_VIRTUAL_SCHEDULE_LAP_LENGTH2 - position) / u128 (i64 (v + 1))) in
  let scheduled := if scheduled <? now then 2 ^ 128 - 1 else scheduled in
  Ok (set_witnesses (modify_witness (wit_id w) (set_virtual v position now scheduled) (witnesses s)) s).

(** [adjust_witness_votes]: every witness the account votes for, by name. *)
Definition adjust_witness_votes (voted_for : list string) (delta : Z) (s : chain) : result chain :=
  foldM (fun s name => adjust_witness_vote name delta s) s voted_for.
End votes.

(** ** Quorums *)

Definition pixa_hardfork_quorum (n : Z) : Z :=
  if n =? 0 then HIVE_HARDFORK_REQUIRED_WITNESSES
  else
    let scaled := u32 (u32 (n * HIVE_HARDFORK_REQUIRED_WITNESSES) + HIVE_MAX_WITNESSES - 1) / HIVE_MAX_WITNESSES in
    Z.min (Z.max scaled 1) n.

(** ** The election of a round *)

(** One percent of the outstanding shares, rounded up. *)
Definition minimum_votes (s : chain) : Z :=
  if has_hardfork 30 s then
    let t := total_vesting_shares s in
    Z.max 1 (Z.quot t 100 + (if Z.rem t 100 =? 0 then 0 else 1))
  else 0.

Definition any_approved (s : chain) : bool :=
  has_hardfork 30 s &&
  existsb (fun w => negb (is_disabled w) && (minimum_votes s <=? votes w)) (by_vote_name (witnesses s)).

Definition eligible (s : chain) (w : witness_object) : bool :=
  if is_disabled w then false
  else if negb (has_hardfork 30 s) || negb (any_approved s) then true
  else minimum_votes s <=? votes w.

(** The condition under which the loops pass over a witness, negated. *)
Definition selectable (s : chain) (w : witness_object) : bool :=
  if has_hardfork 30 s then eligible s w else negb (is_disabled w).

Definition in_ids (i : Z) (l : list witness_object) : bool := existsb (fun w => wit_id w =? i) l.
Definition size (l : list witness_object) : Z := Z.of_nat (length l).

(** The highest voted witnesses. *)
Fixpoint select_voted (ok : witness_object -> bool) (max : Z) (idx selected : list witness_object)
    (ws : list witness_object) : list witness_object * list witness_object :=
  match idx with
  | [] => (selected, ws)
  | w :: idx =>
      if size selected <? max then
        if ok w then select_voted ok max idx (selected ++ [w]) (modify_witness (wit_id w) (set_schedule elected) ws)
        else select_voted ok max idx selected ws
      else (selected, ws)
  end.

(** Miners from the top of the queue; every one looked at leaves the queue. *)
Fixpoint select_miners (ok : witness_object -> bool) (max : Z) (voted idx selected : list witness_object) (s : chain) :
    list witness_object * chain :=
  match idx with
  | [] => (selected, s)
  | w :: idx =>
      if size selected <? max then
        let take := negb (in_ids (wit_id w) voted) && ok w in
        let s := if take then set_witnesses (modify_witness (wit_id w) (set_schedule miner) (witnesses s)) s else s in
        let s := set_witnesses (modify_witness (wit_id w) (set_pow_worker 0) (witnesses s)) s in
        let s := set_pow_witnesses (u32 (num_pow_witnesses s - 1)) s in
        select_miners ok max voted idx (if take then selected ++ [w] else selected) s
      else (selected, s)
  end.

(** The runners in the lead of the virtual race: the ones chosen, the ones
    looked at, and the virtual time reached. *)
Fixpoint select_timeshare (ok : witness_object -> bool) (taken idx selected processed : list witness_object)
    (time : Z) (ws : list witness_object) :
    list witness_object * list witness_object * Z * list witness_object :=
  match idx with
  | [] => (selected, processed, time, ws)
  | w :: idx =>
      if size taken + size selected <? HIVE_MAX_WITNESSES then
        let time := virtual_scheduled_time w in
        let processed := processed ++ [w] in
        if ok w && negb (in_ids (wit_id w) taken)
        then select_timeshare ok taken idx (selected ++ [w]) processed time
               (modify_witness (wit_id w) (set_schedule timeshare) ws)
        else select_timeshare ok taken idx selected processed time ws
      else (selected, processed, time, ws)
  end.

(** The next lap of the witnesses looked at; [true] when the time overflows. *)
Fixpoint advance_laps (time : Z) (processed ws : list witness_object) : list witness_object * bool :=
  match processed with
  | [] => (ws, false)
  | w :: processed =>
      let t := u128 (time + lap_time (votes w)) in
      if t <? time then (ws, true)
      else advance_laps time processed (modify_witness (wit_id w) (fun x => set_virtual (votes x) 0 time t x) ws)
  end.

(** ** Votes on hardforks *)

(** [flat_map::operator[] += 1] on the association list of a map ordered by [lt]. *)
Fixpoint tally {K} (lt : K -> K -> bool) (k : K) (l : list (K * Z)) : list (K * Z) :=
  match l with
  | [] => [(k, 1)]
  | (k', n) :: l' => if lt k' k then (k', n) :: tally lt k l'
                     else if lt k k' then (k, 1) :: l
                     else (k', u32 (n + 1)) :: l'
  end.

Definition version_gt (a b : version) : bool := version_op greater a b.
(** [std::tuple< hardfork_version, time_point_sec >] *)
Definition vote_lt (a b : version * Z) : bool :=
  hardfork_op less a.1 b.1 || (negb (hardfork_op less b.1 a.1) && (a.2 <? b.2)).

(** A witness that produced a block in the last two rounds. *)
Definition producing (head : Z) (w : witness_object) : bool :=
  negb (last_confirmed_block_num w =? 0)
  && (u64 (head - last_confirmed_block_num w) <=? 2 * HIVE_MAX_WITNESSES).

Definition majority (quorum : Z) (versions : list (version * Z)) (otherwise : version) : version :=
  (fix go (l : list (version * Z)) (n : Z) :=
     match l with
     | [] => otherwise
     | (v, c) :: l => let n := n + c in if quorum <=? n then v else go l n
     end) versions 0.

(** The first vote for a hardfork still ahead that has a quorum. *)
Fixpoint winning_vote (current : version) (quorum : Z) (ballots : list (version * Z * Z)) : option (version * Z) :=
  match ballots with
  | [] => None
  | (v, c) :: ballots =>
      if hardfork_op less_equal v.1 current then winning_vote current quorum ballots
      else if quorum <=? c then Some v
      else winning_vote current quorum ballots
  end.

Definition vote_of (w : witness_object) : version * Z := (hardfork_version_vote w, hardfork_time_vote w).
Definition ballots_of (ws : list witness_object) : list (version * Z * Z) :=
  foldl (fun l w => tally vote_lt (vote_of w) l) [] ws.
Definition versions_of (ws : list witness_object) : list (version * Z) :=
  foldl (fun l w => tally version_gt (running_version w) l) [] ws.

(** The new majority version and hardfork properties, from the witnesses of the
    schedule in force. *)
Definition count_hardfork_votes (wso : witness_schedule_object) (scheduled : list witness_object) (s : chain) :
    version * hardfork_property_object :=
  let producers := List.filter (producing (head_block_num s)) scheduled in
  let basis := if 0 <? size producers then size producers else num_scheduled_witnesses wso in
  let hardfork_vote_quorum := pixa_hardfork_quorum basis in
  let majority_version_quorum := if has_hardfork 29 s then hardfork_vote_quorum else hardfork_required_witnesses wso in
  let h := hpo s in
  (majority majority_version_quorum (versions_of producers) (majority_version wso),
   match winning_vote (current_hardfork_version h) hardfork_vote_quorum (ballots_of producers) with
   | Some (v, t) => if hardfork_op not_equal (next_hardfork h) v || negb (next_hardfork_time h =? t)
                    then mk_hpo (last_hardfork h) (current_hardfork_version h) v t else h
   | None => mk_hpo (last_hardfork h) (current_hardfork_version h) (current_hardfork_version h) (next_hardfork_time h)
   end).

(** ** The shuffle *)

Definition xorshift (time i : Z) : Z :=
  let now_hi := u64 (Z.shiftl time 32) in
  let k := u64 (now_hi + u64 (i * 2685821657736338717)) in
  let k := Z.lxor k (Z.shiftr k 12) in
  let k := Z.lxor k (u64 (Z.shiftl k 25)) in
  let k := Z.lxor k (Z.shiftr k 27) in
  u64 (k * 2685821657736338717).

(** [std::swap( a[i], a[j] )] inside the array. *)
Definition swap (i j : nat) (l : list string) : list string :=
  match l !! i, l !! j with
  | Some a, Some b => <[j := a]> (<[i := b]> l)
  | _, _ => l
  end.

Fixpoint shuffle_from (time n : Z) (fuel : nat) (i : Z) (l : list string) : list string :=
  match fuel with
  | O => l
  | S fuel =>
      let jmax := n - i in
      let j := i + xorshift time i mod jmax in
      shuffle_from time n fuel (i + 1) (swap (Z.to_nat i) (Z.to_nat j) l)
  end.
Definition shuffle (time n : Z) (l : list string) : list string := shuffle_from time n (Z.to_nat n) 0 l.

(** ** Medians *)

Definition median (l : list Z) : result Z :=
  match merge_sort Z.le l !! (length l / 2)%nat with Some x => Ok x | None => Throw OutOfRange end.

Section medians.
Context `{L : FcLib}.

(** The subsidy parameters of one witness, scaled and clamped. *)
Definition per_witness_params (budget decay : Z) : rd_user_params :=
  let w_budget := Z.quot (i64 (budget * HIVE_WITNESS_SUBSIDY_BUDGET_PERCENT)) HIVE_100_PERCENT in
  let w_decay := u64 (decay * HIVE_WITNESS_SUBSIDY_DECAY_PERCENT) / HIVE_100_PERCENT in
  mk_user (i32 (Z.min w_budget (2 ^ 31 - 1))) (u32 (Z.min w_decay (2 ^ 32 - 1))).

Definition with_min_decay (x : Z) (r : rd_dynamics_params) : rd_dynamics_params :=
  mk_rd (resource_unit r) (budget_per_time_unit r) (pool_eq r) (max_pool_size r) (decay_params r) x.

Definition update_median_witness_props (wso : witness_schedule_object) (ws : list witness_object) :
    result witness_schedule_object :=
  active ← mapR (fun name => get_witness name ws)
             (take (Z.to_nat (num_scheduled_witnesses wso)) (current_shuffled_witnesses wso));
  fee ← median (amount ∘ account_creation_fee ∘ props <$> active);
  size ← median (prop_maximum_block_size ∘ props <$> active);
  budget ← median (account_subsidy_budget ∘ props <$> active);
  decay ← median (account_subsidy_decay ∘ props <$> active);
  subsidies ← median (available_witness_account_subsidies <$> active);
  let sys := mk_system HIVE_ACCOUNT_SUBSIDY_PRECISION HIVE_RD_DECAY_DENOM_SHIFT in
  let user := mk_user budget decay in
  _ ← rd_validate_user_params user;
  rd ← rd_setup_dynamics_params user sys;
  wrd ← rd_setup_dynamics_params (per_witness_params budget decay) sys;
  median_decay ← rd_compute_pool_decay (decay_params wrd) subsidies 1;
  let median_decay := Z.max median_decay 0 in
  min_decay ← uint128_to_int64 (u128 (u128 median_decay * HIVE_DECAY_BACKSTOP_PERCENT) / HIVE_100_PERCENT);
  Ok (mk_wso (current_virtual_time wso) (next_shuffle_block_num wso) (current_shuffled_witnesses wso)
        (num_scheduled_witnesses wso) (elected_weight wso) (timeshare_weight wso) (miner_weight wso)
        (witness_pay_normalization_factor wso)
        (mk_props (mk_asset fee HIVE_SYMBOL) size 0 budget decay)
        (majority_version wso) (max_voted_witnesses wso) (max_miner_witnesses wso) (hardfork_required_witnesses wso)
        rd (with_min_decay min_decay wrd)).

Definition update_global_witness_properties (wso : witness_schedule_object) (s : chain) : chain :=
  let size := prop_maximum_block_size (median_props wso) in
  set_block_props size 0 (if maximum_block_size s =? size then warnings s else warnings s + 1) s.

(** ** A new schedule *)

(** What the loops of [update_witness_schedule4] choose. *)
Record selection : Set := mk_selection {
  sel_voted : list witness_object;
  sel_miners : list witness_object;
  sel_timeshare : list witness_object;
  sel_processed : list witness_object;
  sel_time : Z
}.

Definition elect_witnesses (wso : witness_schedule_object) (s : chain) : selection * chain :=
  let ok := selectable s in
  let '(voted, ws) := select_voted ok (max_voted_witnesses wso) (by_vote_name (witnesses s)) [] (witnesses s) in
  let s := set_witnesses ws s in
  let '(miners, s) := select_miners ok (max_miner_witnesses wso) voted (by_pow (witnesses s)) [] s in
  let '(sharing, processed, time, ws) :=
    select_timeshare ok (voted ++ miners) (by_schedule_time (witnesses s)) [] [] (current_virtual_time wso) (witnesses s) in
  (mk_selection voted miners sharing processed time, set_witnesses ws s).

Definition active_witnesses (sel : selection) : list witness_object :=
  sel_voted sel ++ sel_miners sel ++ sel_timeshare sel.

(** The array of [HIVE_MAX_WITNESSES] names, filled with empty ones. *)
Definition name_array (names : list string) : list string :=
  names ++ replicate (Z.to_nat HIVE_MAX_WITNESSES - length names) ""%string.

(** [update_witness_schedule4] on the future schedule. *)
Definition update_witness_schedule4 (s0 : chain) : result chain :=
  let wso := wso_future s0 in
  let '(sel, s) := elect_witnesses wso s0 in
  let '(ws, overflow) := advance_laps (sel_time sel) (sel_processed sel) (witnesses s) in
  let s := set_witnesses ws s in
  let '(time, s) := if overflow : bool then (0, reset_virtual_schedule_time s) else (sel_time sel, s) in
  let active := active_witnesses sel in
  let eligible_count := size (List.filter (selectable s0) (by_vote_name (witnesses s))) in
  _ ← check (size active =? Z.min HIVE_MAX_WITNESSES eligible_count) AssertFc;
  _ ← check (negb (size active =? 0)) AssertFc;
  scheduled ← mapR (fun name => get_witness name (witnesses s))
                (take (Z.to_nat (num_scheduled_witnesses wso)) (current_shuffled_witnesses wso));
  let '(majority, h) := count_hardfork_votes wso scheduled s in
  let s := set_hpo h s in
  let n := Z.max (u8 (size active)) 1 in
  let factor := u32 (elected_weight wso * size (sel_voted sel) + miner_weight wso * size (sel_miners sel)
                     + timeshare_weight wso * size (sel_timeshare sel)) in
  let names := shuffle (head_block_time s) n (name_array (owner <$> active)) in
  let wso' := mk_wso time (u32 (head_block_num s + n)) names n (elected_weight wso) (timeshare_weight wso)
                (miner_weight wso) factor (median_props wso) majority (max_voted_witnesses wso) (max_miner_witnesses wso)
                (if has_hardfork 29 s then u8 (pixa_hardfork_quorum n) else hardfork_required_witnesses wso)
                (account_subsidy_rd wso) (account_subsidy_witness_rd wso) in
  wso' ← update_median_witness_props wso' (witnesses s);
  Ok (set_wso_future wso' s).

(** [update_witness_schedule]: once per round the future schedule is promoted
    and a new one computed. *)
Definition update_witness_schedule (s : chain) : result chain :=
  if head_block_num s mod HIVE_MAX_WITNESSES =? 0 then
    let s := set_wso_current (wso_future s) s in
    let s := update_global_witness_properties (wso_current s) s in
    update_witness_schedule4 s
  else Ok s.

(** ** Slots *)

Definition get_slot_time (slot_num : Z) (s : chain) : Z :=
  if slot_num =? 0 then 0
  else if head_block_num s =? 0 then u32 (head_block_time s + u32 (slot_num * HIVE_BLOCK_INTERVAL))
  else u32 (u32 (head_block_time s / HIVE_BLOCK_INTERVAL * HIVE_BLOCK_INTERVAL) + u32 (slot_num * HIVE_BLOCK_INTERVAL)).

Definition get_slot_at_time (when : Z) (s : chain) : Z :=
  let first := get_slot_time 1 s in
  if when <? first then 0 else (when - first) / HIVE_BLOCK_INTERVAL + 1.

Definition get_scheduled_witness (slot_num : Z) (s : chain) : string :=
  let n := num_scheduled_witnesses (wso_current s) in
  let slot := u64 (current_aslot s + slot_num) in
  default ""%string (current_shuffled_witnesses (wso_current s) !! Z.to_nat (slot mod n)).

(** ** Block by block *)

Definition update_signing_witness (name : string) (timestamp num : Z) (s : chain) : result chain :=
  w ← get_witness name (witnesses s);
  let aslot := u64 (current_aslot s + get_slot_at_time timestamp s) in
  Ok (set_witnesses (modify_witness (wit_id w) (set_produced aslot num) (witnesses s)) s).

(** [update_witness_missed_blocks] counts a miss for the witness of every empty
    slot, the producer apart. *)
Fixpoint missed_from (block_witness : string) (fuel : nat) (i : Z) (s : chain) : result chain :=
  match fuel with
  | O => Ok s
  | S fuel =>
      w ← get_witness (get_scheduled_witness (i + 1) s) (witnesses s);
      let s := if bool_decide (owner w = block_witness) then s
               else set_witnesses (modify_witness (wit_id w) (fun w => set_missed (u32 (total_missed w + 1)) w) (witnesses s)) s in
      missed_from block_witness fuel (i + 1) s
  end.
Definition update_witness_missed_blocks (block_witness : string) (missed : Z) (s : chain) : result chain :=
  missed_from block_witness (Z.to_nat missed) 0 s.

Inductive header_extension : Set :=
| void_t
| reported_version (v : version)
| version_vote (hf_version : version) (hf_time : Z).

Definition process_header_visitor (witness : string) (s : chain) (e : header_extension) : result chain :=
  match e with
  | void_t => Ok s
  | reported_version v =>
      w ← get_witness witness (witnesses s);
      if version_op not_equal v (running_version w)
      then Ok (set_witnesses (modify_witness (wit_id w)
             (fun w => set_versions v (hardfork_version_vote w) (hardfork_time_vote w) w) (witnesses s)) s)
      else Ok s
  | version_vote v t =>
      w ← get_witness witness (witnesses s);
      if hardfork_op not_equal v (hardfork_version_vote w) || negb (t =? hardfork_time_vote w)
      then Ok (set_witnesses (modify_witness (wit_id w) (set_versions (running_version w) v t) (witnesses s)) s)
      else Ok s
  end.
Definition process_header_extensions (witness : string) (extensions : list header_extension) (s : chain) : result chain :=
  foldM (process_header_visitor witness) s extensions.

Definition update_witness_schedule_for_elected (name : string) (rd : rd_dynamics_params) (s : chain) : result chain :=
  w ← get_witness name (witnesses s);
  match schedule w with
  | elected =>
      x ← rd_apply rd (available_witness_account_subsidies w);
      Ok (set_witnesses (modify_witness (wit_id w) (set_subsidies x) (witnesses s)) s)
  | _ => Ok s
  end.

Definition validate_witness_votes_invariant (s : chain) : result Z :=
  _ ← iterM (fun w => check (votes w <=? total_vesting_shares s) AssertFc) (witnesses s);
  Ok (size (witnesses s)).

(** The part of [validate_block_header] that concerns the producer; [key] is the
    key that signed the block. *)
Definition validate_producer (witness : string) (timestamp : Z) (key : Z) (s : chain) : result witness_object :=
  _ ← check (head_block_time s <? timestamp) AssertFc;
  w ← get_witness witness (witnesses s);
  _ ← check (bool_decide (signing_key w = Some key)) AssertFc;
  let slot_num := get_slot_at_time timestamp s in
  _ ← check (0 <? slot_num) AssertFc;
  _ ← check (bool_decide (owner w = get_scheduled_witness slot_num s)) AssertFc;
  Ok w.
End medians.

(** ** The shuffle and the slots *)

Lemma swap_perm i j l : swap i j l ≡ₚ l.
Proof.
  unfold swap. destruct (l !! i) as [a|] eqn:Ei, (l !! j) as [b|] eqn:Ej; try done.
  destruct (decide (i = j)) as [->|Hne].
  { rewrite Ei in Ej. injection Ej as ->. rewrite list_insert_insert_eq. by rewrite list_insert_id. }
  apply (Permutation_inj). split; [by rewrite !length_insert|].
  exists (fun k => if decide (k = i) then j else if decide (k = j) then i else k). split.
  - intros x y. repeat destruct (decide _); congruence.
  - intros k. pose proof (lookup_lt_Some _ _ _ Ei). pose proof (lookup_lt_Some _ _ _ Ej).
    destruct (decide (k = i)) as [->|Hi]; [|destruct (decide (k = j)) as [->|Hj]].
    + rewrite list_lookup_insert_ne by done. by rewrite list_lookup_insert_eq by done.
    + rewrite list_lookup_insert_eq by (by rewrite length_insert). done.
    + by rewrite !list_lookup_insert_ne by done.
Qed.

Lemma swap_lookup_ge i j k l : (i < k)%nat -> (j < k)%nat -> swap i j l !! k = l !! k.
Proof.
  intros. unfold swap. destruct (l !! i), (l !! j); try done. by rewrite !list_lookup_insert_ne by lia.
Qed.

Lemma swap_length i j l : length (swap i j l) = length l.
Proof. unfold swap. destruct (l !! i), (l !! j); try done. by rewrite !length_insert. Qed.

Lemma shuffle_from_spec time n fuel i l : 0 <= i -> i + Z.of_nat fuel <= n ->
  shuffle_from time n fuel i l ≡ₚ l /\ length (shuffle_from time n fuel i l) = length l /\
  forall k, (Z.to_nat n <= k)%nat -> shuffle_from time n fuel i l !! k = l !! k.
Proof.
  revert i l. induction fuel as [|fuel IH]; intros i l Hi Hn; cbn [shuffle_from]; [done|].
  assert (0 <= xorshift time i mod (n - i) < n - i) as Hj by (apply Z.mod_pos_bound; lia).
  destruct (IH (i + 1) (swap (Z.to_nat i) (Z.to_nat (i + xorshift time i mod (n - i))) l)) as (P & Len & K); [lia|lia|].
  split_and!; [by rewrite P, swap_perm|by rewrite Len, swap_length|].
  intros k Hk. rewrite K by done. apply swap_lookup_ge; lia.
Qed.

(** Only the first [n] entries move. *)
Lemma shuffle_take time n l : 0 <= n -> (Z.to_nat n <= length l)%nat ->
  take (Z.to_nat n) (shuffle time n l) ≡ₚ take (Z.to_nat n) l /\ length (shuffle time n l) = length l.
Proof.
  intros Hn Hl. unfold shuffle. destruct (shuffle_from_spec time n (Z.to_nat n) 0 l) as (P & Len & K); [lia|lia|].
  split; [|done]. set (l' := shuffle_from _ _ _ _ _) in *.
  assert (drop (Z.to_nat n) l' = drop (Z.to_nat n) l) as Hd.
  { apply list_eq. intros k. rewrite !lookup_drop. apply K. lia. }
  rewrite <- (take_drop (Z.to_nat n) l), <- (take_drop (Z.to_nat n) l'), Hd in P.
  by apply (Permutation_app_inv_r _ _ _ P).
Qed.

(** Slot numbers and times are inverse: within the 32-bit range the time of a
    slot is recognised as that slot, and any time before the next slot too. *)
Theorem slot_time_roundtrip (s : chain) (slot offset : Z) :
  0 < head_block_num s -> 0 <= head_block_time s -> 0 < slot -> 0 <= offset < HIVE_BLOCK_INTERVAL ->
  head_block_time s + slot * HIVE_BLOCK_INTERVAL < 2 ^ 32 ->
  get_slot_at_time (get_slot_time slot s + offset) s = slot.
Proof.
  unfold HIVE_BLOCK_INTERVAL. intros Hn Ht Hs Ho Hb. unfold get_slot_at_time, get_slot_time, HIVE_BLOCK_INTERVAL.
  rewrite (proj2 (Z.eqb_neq slot 0)), (proj2 (Z.eqb_neq (head_block_num s) 0)) by lia.
  change (1 =? 0) with false. cbv iota. pose proof (Z.mul_div_le (head_block_time s) 3 ltac:(lia)).
  assert (0 <= head_block_time s / 3) by (apply Z.div_pos; lia).
  rewrite !(uwrap_id 32 (head_block_time s / 3 * 3)), !(uwrap_id 32 (slot * 3)), !(uwrap_id 32 (1 * 3)) by (unfold in_u; lia).
  rewrite !uwrap_id by (unfold in_u; lia).
  rewrite (proj2 (Z.ltb_ge _ _)) by lia.
  replace (head_block_time s / 3 * 3 + slot * 3 + offset - (head_block_time s / 3 * 3 + 1 * 3)) with (offset + (slot - 1) * 3) by lia.
  rewrite Z.div_add by lia. rewrite Z.div_small by lia. lia.
Qed.

Lemma rotation_perm (k n : nat) : (0 < n)%nat -> (fun i => (k + i) mod n)%nat <$> seq 0 n ≡ₚ seq 0 n.
Proof.
  intros Hn. induction k as [|k IH].
  - rewrite <- (list_fmap_id (seq 0 n)) at 2. apply reflexive_eq, list_fmap_ext. intros i x Hx.
    apply lookup_seq in Hx as [-> Hx]. cbn. by apply Nat.mod_small.
  - rewrite <- IH at 2. destruct n as [|n]; [lia|].
    rewrite <- cons_seq at 2. cbn [fmap list_fmap]. rewrite seq_S, fmap_app. cbn [fmap list_fmap].
    rewrite Permutation_app_comm. cbn [app].
    replace (S k + (0 + n))%nat with (k + 0 + 1 * S n)%nat by lia. rewrite Nat.Div0.mod_add.
    apply perm_skip. rewrite <- fmap_S_seq, <- list_fmap_compose. apply reflexive_eq, list_fmap_ext. intros i x _. cbn [compose]. f_equal. lia.
Qed.

(** Fairness of a round: in any [n] consecutive slots, where [n] is the number
    of scheduled witnesses, every scheduled witness has exactly one slot. *)
Theorem every_witness_has_one_slot (s : chain) (first : Z) :
  let wso := wso_current s in let n := num_scheduled_witnesses wso in
  0 < n -> (Z.to_nat n <= length (current_shuffled_witnesses wso))%nat ->
  0 <= current_aslot s -> 0 <= first -> current_aslot s + first + n < 2 ^ 64 ->
  (fun i => get_scheduled_witness (first + Z.of_nat i) s) <$> seq 0 (Z.to_nat n)
    ≡ₚ take (Z.to_nat n) (current_shuffled_witnesses wso).
Proof.
  intros wso n Hn Hl Ha Hf Hb.
  set (l := current_shuffled_witnesses wso) in *. set (k := Z.to_nat (current_aslot s + first)).
  assert (((fun i => get_scheduled_witness (first + Z.of_nat i) s) <$> seq 0 (Z.to_nat n)) =
    (fun j => default ""%string (l !! j)) <$> ((fun i => (k + i) mod Z.to_nat n)%nat <$> seq 0 (Z.to_nat n))) as ->.
  { rewrite <- list_fmap_compose. apply list_fmap_ext. intros i x Hx. apply lookup_seq in Hx as [-> Hx]. cbn.
    unfold get_scheduled_witness. fold wso n l. rewrite uwrap_id by (unfold in_u; lia). f_equal. f_equal.
    unfold k. rewrite <- (Nat2Z.id (_ mod Z.to_nat n)), Nat2Z.inj_mod. f_equal. f_equal; lia. }
  rewrite rotation_perm by lia. apply reflexive_eq. apply list_eq. intros i.
  rewrite list_lookup_fmap. destruct (decide (i < Z.to_nat n)%nat).
  - rewrite lookup_seq_lt by done. rewrite lookup_take_lt by done. cbn.
    destruct (lookup_lt_is_Some_2 l i) as [x ->]; [lia|done].
  - rewrite lookup_seq_ge by lia. cbn. rewrite lookup_take_ge by lia. done.
Qed.

(** ** Quorums *)

Lemma quorum_spec n : 1 <= n <= HIVE_MAX_WITNESSES -> 1 <= pixa_hardfork_quorum n <= n /\
  HIVE_MAX_WITNESSES * (pixa_hardfork_quorum n - 1) < HIVE_HARDFORK_REQUIRED_WITNESSES * n <= HIVE_MAX_WITNESSES * pixa_hardfork_quorum n.
Proof.
  unfold pixa_hardfork_quorum, HIVE_MAX_WITNESSES, HIVE_HARDFORK_REQUIRED_WITNESSES. intros Hn.
  rewrite (proj2 (Z.eqb_neq n 0)) by lia.
  rewrite (uwrap_id 32 (n * 17)) by (unfold in_u; lia). rewrite uwrap_id by (unfold in_u; lia).
  Z.to_euclidean_division_equations. lia.
Qed.

(** The quorum scales with the schedule: it is the upstream ratio of 17 to 21
    rounded up, never more than the witnesses there are, and two quorums
    always share more than half of the witnesses. *)
Theorem hardfork_quorum_scales (n : Z) : 1 <= n <= HIVE_MAX_WITNESSES ->
  let q := pixa_hardfork_quorum n in
  1 <= q <= n /\ HIVE_MAX_WITNESSES * (q - 1) < HIVE_HARDFORK_REQUIRED_WITNESSES * n <= HIVE_MAX_WITNESSES * q /\
  n < 2 * (2 * q - n).
Proof.
  intros Hn q. destruct (quorum_spec n Hn) as [H1 H2]. fold q in H1, H2. split_and!; try lia.
  unfold HIVE_MAX_WITNESSES, HIVE_HARDFORK_REQUIRED_WITNESSES in *. lia.
Qed.

(** ** Who is selected *)

(** What the loops leave unchanged of a witness. *)
Definition core (w : witness_object) : witness_object := set_schedule none (set_pow_worker 0 w).

Abbreviation ids l := (wit_id <$> l) (only parsing).

Lemma core_fields a b : core a = core b ->
  wit_id a = wit_id b /\ owner a = owner b /\ votes a = votes b /\ signing_key a = signing_key b /\
  virtual_scheduled_time a = virtual_scheduled_time b /\ props a = props b /\
  available_witness_account_subsidies a = available_witness_account_subsidies b /\
  last_confirmed_block_num a = last_confirmed_block_num b.
Proof. destruct a, b. unfold core, set_schedule, set_pow_worker. cbn. intros H. injection H. intros. subst. done. Qed.

Lemma modify_core i f ws : (forall w, core (f w) = core w) -> core <$> modify_witness i f ws = core <$> ws.
Proof.
  intros Hf. unfold modify_witness. rewrite <- list_fmap_compose. apply list_fmap_ext. intros k w _. cbn.
  destruct (_ =? _); auto.
Qed.

(** Tests of a witness that do not look at the schedule or the work. *)
Definition core_test (ok : witness_object -> bool) : Prop := forall a b, core a = core b -> ok a = ok b.

Lemma selectable_core s : core_test (selectable s).
Proof.
  intros a b H. apply core_fields in H as (_ & _ & Hv & Hk & _). unfold selectable, eligible, is_disabled. by rewrite Hv, Hk.
Qed.

Lemma in_ids_spec i l : in_ids i l = true <-> i ∈ ids l.
Proof.
  unfold in_ids. rewrite existsb_exists, list_elem_of_fmap. split.
  - intros (w & Hw & E). to_prop. exists w. split; [done|]. by apply list_elem_of_In.
  - intros (w & -> & Hw). exists w. split; [by apply list_elem_of_In|]. apply Z.eqb_refl.
Qed.

Lemma in_ids_core taken : core_test (fun w => negb (in_ids (wit_id w) taken)).
Proof. intros a b H. apply core_fields in H as (-> & _). done. Qed.

Lemma core_test_and f g : core_test f -> core_test g -> core_test (fun w => f w && g w).
Proof. intros Hf Hg a b H. by rewrite (Hf _ _ H), (Hg _ _ H). Qed.

(** Filtering by such a test commutes with equality of cores. *)
Lemma filter_core ok l l' : core_test ok -> core <$> l = core <$> l' ->
  core <$> List.filter ok l = core <$> List.filter ok l'.
Proof.
  intros Hok. revert l'. induction l as [|a l IH]; intros [|b l'] H; try done.
  rewrite !fmap_cons in H. assert (core a = core b /\ core <$> l = core <$> l') as [H1 H2] by (split; congruence). cbn. rewrite (Hok _ _ H1). destruct (ok b); [|auto].
  rewrite !fmap_cons, H1. f_equal. auto.
Qed.

Lemma core_length (l l' : list witness_object) : core <$> l = core <$> l' -> length l = length l'.
Proof. intros H. by rewrite <- (length_fmap core l), H, length_fmap. Qed.

Lemma core_ids (l l' : list witness_object) : core <$> l = core <$> l' -> ids l = ids l'.
Proof.
  revert l'. induction l as [|a l IH]; intros [|b l'] H; try done.
  rewrite !fmap_cons in H. assert (core a = core b /\ core <$> l = core <$> l') as [H1 H2] by (split; congruence). rewrite !fmap_cons. f_equal; [|auto]. by apply core_fields in H1 as (? & _).
Qed.

Lemma size_app l l' : size (l ++ l') = size l + size l'.
Proof. unfold size. rewrite length_app. lia. Qed.

Lemma select_voted_spec ok max idx selected ws :
  (select_voted ok max idx selected ws).1 = selected ++ take (Z.to_nat (max - size selected)) (List.filter ok idx) /\
  core <$> (select_voted ok max idx selected ws).2 = core <$> ws.
Proof.
  revert selected ws. induction idx as [|w idx IH]; intros selected ws; cbn [select_voted].
  { cbn. by rewrite take_nil, app_nil_r. }
  destruct (_ <? _) eqn:E; to_prop.
  - cbn [List.filter]. destruct (ok w).
    + destruct (IH (selected ++ [w]) (modify_witness (wit_id w) (set_schedule elected) ws)) as [E1 E2].
      rewrite E1, E2. split; [|by apply modify_core]. rewrite size_app. cbn [size length].
      replace (Z.to_nat (max - size selected)) with (S (Z.to_nat (max - (size selected + 1)))) by lia.
      cbn [take]. by rewrite <- app_assoc.
    + apply IH.
  - replace (Z.to_nat (max - size selected)) with 0%nat by lia. by rewrite take_0, app_nil_r.
Qed.

Lemma select_miners_spec ok max voted idx selected s :
  exists p ws, select_miners ok max voted idx selected s =
    (selected ++ take (Z.to_nat (max - size selected))
       (List.filter (fun w => negb (in_ids (wit_id w) voted) && ok w) idx), set_pow_witnesses p (set_witnesses ws s)) /\
    core <$> ws = core <$> witnesses s.
Proof.
  revert selected s. induction idx as [|w idx IH]; intros selected s; cbn [select_miners].
  { exists (num_pow_witnesses s), (witnesses s). cbn. rewrite take_nil, app_nil_r. by destruct s. }
  destruct (_ <? _) eqn:E; to_prop.
  - cbn [List.filter]. set (tk := negb (in_ids (wit_id w) voted) && ok w).
    match goal with |- context [select_miners ok max voted idx ?sel ?st] => destruct (IH sel st) as (p & ws & E1 & E2) end.
    exists p, ws. rewrite E1. split.
    + f_equal.
      * destruct tk; [|done]. rewrite size_app. cbn [size length].
        replace (Z.to_nat (max - size selected)) with (S (Z.to_nat (max - (size selected + 1)))) by lia.
        cbn [take]. by rewrite <- app_assoc.
      * by destruct tk.
    + rewrite E2. destruct tk; cbn [witnesses set_witnesses set_pow_witnesses]; rewrite !modify_core by done; done.
  - exists (num_pow_witnesses s), (witnesses s). replace (Z.to_nat (max - size selected)) with 0%nat by lia.
    rewrite take_0, app_nil_r. by destruct s.
Qed.

(** The virtual time reached is that of the last witness looked at. *)
Definition reached (start : Z) (processed : list witness_object) : Z :=
  default start (virtual_scheduled_time <$> last processed).

Lemma reached_snoc start l w : reached start (l ++ [w]) = virtual_scheduled_time w.
Proof. unfold reached. by rewrite last_snoc. Qed.

Lemma select_timeshare_spec ok taken idx selected processed start ws :
  exists k selected' ws', select_timeshare ok taken idx selected processed (reached start processed) ws =
    (selected', processed ++ take k idx, reached start (processed ++ take k idx), ws') /\
    selected' = selected ++ take (Z.to_nat (HIVE_MAX_WITNESSES - size taken - size selected))
      (List.filter (fun w => ok w && negb (in_ids (wit_id w) taken)) idx) /\
    core <$> ws' = core <$> ws.
Proof.
  revert selected processed ws. induction idx as [|w idx IH]; intros selected processed ws; cbn [select_timeshare].
  { exists 0%nat, selected, ws. cbn. by rewrite take_nil, !app_nil_r. }
  destruct (_ <? _) eqn:E; to_prop.
  - rewrite <- (reached_snoc start processed w). cbn [List.filter].
    destruct (ok w && _).
    + destruct (IH (selected ++ [w]) (processed ++ [w]) (modify_witness (wit_id w) (set_schedule timeshare) ws))
        as (k & selected' & ws' & E1 & -> & E3).
      eexists (S k), _, ws'. rewrite E1. cbn [take]. rewrite <- !app_assoc. split_and!; [done| |by rewrite E3, modify_core].
      rewrite size_app. cbn [size length].
      replace (Z.to_nat (HIVE_MAX_WITNESSES - size taken - size selected))
        with (S (Z.to_nat (HIVE_MAX_WITNESSES - size taken - (size selected + 1)))) by lia. done.
    + destruct (IH selected (processed ++ [w]) ws) as (k & selected' & ws' & E1 & -> & E3).
      eexists (S k), _, ws'. rewrite E1. cbn [take]. rewrite <- !app_assoc. done.
  - exists 0%nat, selected, ws. replace (Z.to_nat (_ - _ - _)) with 0%nat by lia. by rewrite !take_0, !app_nil_r.
Qed.

(** Selectable witnesses that are not taken: all but the taken ones. *)
Lemma count_untaken ok l taken : NoDup (ids l) -> NoDup (ids taken) ->
  (forall i, i ∈ ids taken -> i ∈ ids (List.filter ok l)) ->
  (length (List.filter (fun w => ok w && negb (in_ids (wit_id w) taken)) l) + length taken = length (List.filter ok l))%nat.
Proof.
  intros Hl Ht Hsub.
  assert (length taken = length (List.filter (fun w => ok w && in_ids (wit_id w) taken) l)) as ->.
  { rewrite <- (length_fmap wit_id taken), <- (length_fmap wit_id (List.filter _ _)). apply Permutation_length.
    apply NoDup_Permutation; [done| |].
    - rewrite filterb. clear - Hl. induction l as [|w l IH]; [constructor|]. rewrite filter_cons. rewrite fmap_cons in Hl.
      apply NoDup_cons in Hl as [Hw Hl]. destruct (decide _); [|auto]. rewrite fmap_cons. constructor; [|auto].
      intros Hin. apply Hw. apply list_elem_of_fmap in Hin as (x & -> & Hx). apply list_elem_of_filter in Hx as [_ Hx].
      by apply list_elem_of_fmap_2.
    - intros i. split.
      + intros Hi. pose proof (Hsub _ Hi) as Hf. apply list_elem_of_fmap in Hf as (w & -> & Hw).
        apply elem_of_filterb in Hw as [Hok Hw]. apply list_elem_of_fmap_2. apply elem_of_filterb. split; [|done].
        rewrite Hok. by apply in_ids_spec.
      + intros Hi. apply list_elem_of_fmap in Hi as (w & -> & Hw). apply elem_of_filterb in Hw as [Hw _].
        to_prop. by apply in_ids_spec. }
  clear. induction l as [|w l IH]; [done|]. cbn. destruct (ok w), (in_ids (wit_id w) taken); cbn; lia.
Qed.

Lemma ids_core_elem (l l' : list witness_object) w : core <$> l = core <$> l' -> w ∈ l -> exists w', w' ∈ l' /\ core w = core w'.
Proof.
  intros H Hw. apply (list_elem_of_fmap_2 core) in Hw. rewrite H in Hw. apply list_elem_of_fmap in Hw as (w' & E & Hw').
  by exists w'.
Qed.

Lemma ids_nodup_sublist (l l' : list witness_object) : l `sublist_of` l' -> NoDup (ids l') -> NoDup (ids l).
Proof. intros Hs Hn. apply (sublist_NoDup _ _ Hn). by apply fmap_sublist. Qed.

Lemma ids_nodup_perm (l l' : list witness_object) : l ≡ₚ l' -> NoDup (ids l') -> NoDup (ids l).
Proof. intros ->. done. Qed.

Lemma filter_take_sublist {A} n (f : A -> bool) l : take n (List.filter f l) `sublist_of` l.
Proof. etrans; [apply sublist_take|]. rewrite filterb. apply sublist_filter. Qed.

(** What an election promises. *)
Record election (s : chain) (wso : witness_schedule_object) (sel : selection) (s' : chain) : Prop := {
  el_voted : sel_voted sel = take (Z.to_nat (max_voted_witnesses wso))
                               (List.filter (selectable s) (by_vote_name (witnesses s)));
  el_distinct : NoDup (ids (active_witnesses sel));
  el_ok w : w ∈ active_witnesses sel -> selectable s w = true;
  el_known w : w ∈ active_witnesses sel -> exists w', w' ∈ witnesses s /\ core w = core w';
  el_count : length (active_witnesses sel) = Nat.min (Z.to_nat HIVE_MAX_WITNESSES)
                                               (length (List.filter (selectable s) (witnesses s)));
  el_rest : exists p, s' = set_pow_witnesses p (set_witnesses (witnesses s') s);
  el_core : core <$> witnesses s' = core <$> witnesses s;
  el_race : exists k ws, core <$> ws = core <$> witnesses s /\ sel_processed sel = take k (by_schedule_time ws) /\
              sel_time sel = reached (current_virtual_time wso) (sel_processed sel)
}.

Definition seats_ok (wso : witness_schedule_object) : Prop :=
  0 <= max_voted_witnesses wso /\ 0 <= max_miner_witnesses wso /\
  max_voted_witnesses wso + max_miner_witnesses wso <= HIVE_MAX_WITNESSES.

(** The three groups of an election, with their counts. *)
Lemma groups_count ok W W2 V M k : NoDup (ids W) -> core_test ok -> core <$> W2 = core <$> W ->
  NoDup (ids (V ++ M)) -> (forall w, w ∈ V ++ M -> ok w = true /\ exists w', w' ∈ W /\ core w = core w') ->
  (length (V ++ M) <= k)%nat ->
  let T := take (k - length (V ++ M)) (List.filter (fun w => ok w && negb (in_ids (wit_id w) (V ++ M))) (by_schedule_time W2)) in
  NoDup (ids ((V ++ M) ++ T)) /\ length ((V ++ M) ++ T) = Nat.min k (length (List.filter ok W)) /\
  (forall w, w ∈ T -> ok w = true /\ exists w', w' ∈ W /\ core w = core w').
Proof.
  intros HW Hok HC HVM Hin Hk T.
  assert (by_schedule_time W2 ≡ₚ W2) as HP by apply merge_sort_Permutation.
  assert (NoDup (ids W2)) as HW2 by (by rewrite (core_ids _ _ HC)).
  assert (forall w, w ∈ T -> (ok w = true /\ wit_id w ∉ ids (V ++ M)) /\ exists w', w' ∈ W /\ core w = core w') as HT.
  { intros w Hw.
    assert (w ∈ List.filter (fun w => ok w && negb (in_ids (wit_id w) (V ++ M))) (by_schedule_time W2)) as Hf
      by (eapply elem_of_submseteq; [exact Hw|]; apply sublist_submseteq, sublist_take).
    apply elem_of_filterb in Hf as [Ho Hf]. to_prop. rewrite HP in Hf. split.
    - split; [done|]. intros Hi. apply in_ids_spec in Hi. congruence.
    - by apply (ids_core_elem _ _ _ HC). }
  split_and!.
  - rewrite fmap_app. apply NoDup_app. split_and!; [done| |].
    + intros i Hi HiT. apply list_elem_of_fmap in HiT as (w & -> & Hw). by apply HT in Hw as [[_ ?] _].
    + eapply ids_nodup_sublist; [apply filter_take_sublist|]. by eapply ids_nodup_perm.
  - rewrite length_app. unfold T. rewrite length_take.
    pose proof (count_untaken ok (by_schedule_time W2) (V ++ M)) as Hc.
    assert (length (List.filter ok (by_schedule_time W2)) = length (List.filter ok W)) as Hlen.
    { rewrite HP. apply core_length. by apply filter_core. }
    rewrite Hlen in Hc. specialize (Hc ltac:(by eapply ids_nodup_perm) HVM).
    assert (forall i, i ∈ ids (V ++ M) -> i ∈ ids (List.filter ok (by_schedule_time W2))) as Hsub.
    { intros i Hi. apply list_elem_of_fmap in Hi as (w & -> & Hw). destruct (Hin _ Hw) as [Ho (w' & Hw' & E)].
      destruct (ids_core_elem _ _ _ (eq_sym HC) Hw') as (w2 & Hw2 & E2).
      assert (core w = core w2) as E3 by congruence. destruct (core_fields _ _ E3) as (-> & _).
      apply list_elem_of_fmap_2, elem_of_filterb. rewrite HP. split; [|done]. by rewrite <- (Hok _ _ E3). }
    specialize (Hc Hsub). lia.
  - intros w Hw. by apply HT in Hw as [[? _] ?].
Qed.

Lemma elect_spec s wso sel s' : NoDup (ids (witnesses s)) -> seats_ok wso ->
  elect_witnesses wso s = (sel, s') -> election s wso sel s'.
Proof.
  intros HW (Hv & Hm & Hvm) H. unfold elect_witnesses in H.
  destruct (select_voted_spec (selectable s) (max_voted_witnesses wso) (by_vote_name (witnesses s)) [] (witnesses s)) as [EV CV].
  destruct (select_voted _ _ _ _ _) as [V ws1]. cbn [fst snd] in EV, CV. cbn [app size length] in EV. rewrite Z.sub_0_r in EV.
  cbn [witnesses set_witnesses] in H.
  destruct (select_miners_spec (selectable s) (max_miner_witnesses wso) V (by_pow ws1) [] (set_witnesses ws1 s)) as (p & ws2 & EM & CM).
  rewrite EM in H. clear EM. cbn [app size length] in H. rewrite Z.sub_0_r in H. cbn [witnesses set_witnesses set_pow_witnesses] in H, CM.
  set (M := take _ _) in H.
  destruct (select_timeshare_spec (selectable s) (V ++ M) (by_schedule_time ws2) [] [] (current_virtual_time wso) ws2)
    as (k & T & ws3 & ET & HT & CT).
  change (reached (current_virtual_time wso) []) with (current_virtual_time wso) in ET. rewrite ET in H. injection H as <- <-.
  assert (core <$> ws2 = core <$> witnesses s) as C2 by congruence.
  assert (forall w, w ∈ V -> selectable s w = true /\ exists w', w' ∈ witnesses s /\ core w = core w') as HinV.
  { intros w Hw. rewrite EV in Hw.
    assert (w ∈ List.filter (selectable s) (by_vote_name (witnesses s))) as Hf
      by (eapply elem_of_submseteq; [exact Hw|]; apply sublist_submseteq, sublist_take).
    apply elem_of_filterb in Hf as [? Hf]. split; [done|]. exists w. split; [|done].
    unfold by_vote_name in Hf. by rewrite merge_sort_Permutation in Hf. }
  assert (forall w, w ∈ M -> (selectable s w = true /\ wit_id w ∉ ids V) /\ exists w', w' ∈ witnesses s /\ core w = core w') as HinM.
  { intros w Hw. assert (w ∈ List.filter (fun w => negb (in_ids (wit_id w) V) && selectable s w) (by_pow ws1)) as Hf
      by (eapply elem_of_submseteq; [exact Hw|]; apply sublist_submseteq, sublist_take).
    apply elem_of_filterb in Hf as [? Hf]. to_prop. split; [split; [done|]; intros Hi%in_ids_spec; congruence|].
    unfold by_pow in Hf. rewrite merge_sort_Permutation in Hf. apply list_elem_of_filter in Hf as [_ Hf].
    by apply (ids_core_elem _ _ _ CV). }
  assert (NoDup (ids (V ++ M))) as HVM.
  { rewrite fmap_app. apply NoDup_app. split_and!.
    - rewrite EV. eapply ids_nodup_sublist; [apply filter_take_sublist|]. eapply ids_nodup_perm; [apply merge_sort_Permutation|done].
    - intros i Hi HiM. apply list_elem_of_fmap in HiM as (w & -> & Hw). by apply HinM in Hw as [[_ ?] _].
    - eapply ids_nodup_sublist; [apply filter_take_sublist|]. eapply ids_nodup_perm; [apply merge_sort_Permutation|].
      eapply ids_nodup_sublist; [apply sublist_filter|]. by rewrite (core_ids _ _ CV). }
  assert (forall w, w ∈ V ++ M -> selectable s w = true /\ exists w', w' ∈ witnesses s /\ core w = core w') as HinVM.
  { intros w [Hw|Hw]%elem_of_app; [auto|]. by apply HinM in Hw as [[? _] ?]. }
  assert (length (V ++ M) <= Z.to_nat HIVE_MAX_WITNESSES)%nat as Hlen.
  { rewrite length_app, EV. unfold M. rewrite !length_take. unfold HIVE_MAX_WITNESSES in *. lia. }
  pose proof (groups_count (selectable s) (witnesses s) ws2 V M (Z.to_nat HIVE_MAX_WITNESSES) HW (selectable_core s) C2 HVM HinVM Hlen) as HG.
  cbn [app size length] in HT. rewrite Z.sub_0_r in HT. unfold size in HT.
  replace (Z.to_nat (HIVE_MAX_WITNESSES - Z.of_nat (length (V ++ M)))) with (Z.to_nat HIVE_MAX_WITNESSES - length (V ++ M))%nat in HT by lia.
  rewrite <- HT in HG. destruct HG as (HD & HN & HinT).
  unfold active_witnesses in *. constructor; cbn [sel_voted sel_miners sel_timeshare sel_processed sel_time witnesses set_witnesses set_pow_witnesses]; unfold active_witnesses; cbn [sel_voted sel_miners sel_timeshare]; rewrite ?app_assoc.
  - exact EV.
  - done.
  - intros w [Hw|Hw]%elem_of_app; [by apply HinVM|by apply HinT].
  - intros w [Hw|Hw]%elem_of_app; [by apply HinVM|by apply HinT].
  - done.
  - by exists p.
  - congruence.
  - exists k, ws2. done.
Qed.

(** ** A schedule can always be computed *)

Lemma median_elem l : l <> [] -> exists x, median l = Ok x /\ x ∈ l.
Proof.
  intros Hl. unfold median.
  assert (length l / 2 < length (merge_sort Z.le l))%nat as Hlt.
  { rewrite (Permutation_length (merge_sort_Permutation Z.le l)). destruct l; [done|].
    apply Nat.div_lt; cbn; lia. }
  destruct (lookup_lt_is_Some_2 _ _ Hlt) as [x Hx]. rewrite Hx. exists x. split; [done|].
  apply list_elem_of_lookup_2 in Hx. by rewrite merge_sort_Permutation in Hx.
Qed.

Lemma median_inv {A} (f : A -> Z) (P : Z -> Prop) l : l <> [] -> Forall (fun a => P (f a)) l ->
  exists x, median (f <$> l) = Ok x /\ P x.
Proof.
  intros Hl HP. destruct (median_elem (f <$> l)) as (x & E & Hx); [by destruct l|].
  exists x. split; [done|]. apply list_elem_of_fmap in Hx as (a & -> & Ha). by apply (proj1 (Forall_forall _ _) HP).
Qed.

Lemma find_witness_Some name ws w : find_witness name ws = Some w -> w ∈ ws /\ owner w = name.
Proof. intros H. apply List.find_some in H as [H1 H2]. to_prop. split; [by apply list_elem_of_In|done]. Qed.

Lemma get_witness_known name ws : name ∈ owner <$> ws -> exists w, get_witness name ws = Ok w /\ w ∈ ws /\ owner w = name.
Proof.
  intros Hn. unfold get_witness. destruct (find_witness name ws) as [w|] eqn:E.
  - exists w. split; [done|]. by apply find_witness_Some.
  - apply list_elem_of_fmap in Hn as (w & -> & Hw). apply list_elem_of_In in Hw.
    pose proof (List.find_none _ _ E _ Hw) as Hb. cbn in Hb. by to_prop.
Qed.

Lemma get_witnesses_known names ws : (forall n, n ∈ names -> n ∈ owner <$> ws) ->
  exists l, mapR (fun n => get_witness n ws) names = Ok l /\ Forall (fun w => w ∈ ws) l /\ owner <$> l = names.
Proof.
  induction names as [|n names IH]; intros Hn; cbn; [by exists []|].
  destruct (get_witness_known n ws) as (w & -> & Hw & Ho); [apply Hn; by apply elem_of_cons; left|].
  destruct IH as (l & -> & Hl & Hos); [intros; apply Hn; by apply elem_of_cons; right|].
  exists (w :: l). split; [done|]. split; [by constructor|]. cbn. by rewrite Ho, Hos.
Qed.

(** What the modifications of the whole update leave unchanged. *)
Definition frame (w : witness_object) : witness_object := set_virtual (votes w) 0 0 0 (core w).

Lemma core_frame (l l' : list witness_object) : core <$> l = core <$> l' -> frame <$> l = frame <$> l'.
Proof.
  revert l'. induction l as [|a l IH]; intros [|b l'] H; try done. rewrite !fmap_cons in H.
  assert (core a = core b /\ core <$> l = core <$> l') as [H1 H2] by (split; congruence).
  rewrite !fmap_cons. f_equal; [|auto]. unfold frame. rewrite H1. by apply core_fields in H1 as (_ & _ & -> & _).
Qed.

Lemma frame_fields a b : frame a = frame b ->
  wit_id a = wit_id b /\ owner a = owner b /\ votes a = votes b /\ signing_key a = signing_key b /\
  props a = props b /\ available_witness_account_subsidies a = available_witness_account_subsidies b.
Proof. destruct a, b. unfold frame, core, set_schedule, set_pow_worker, set_virtual. cbn. intros H. injection H. intros. subst. done. Qed.

Lemma frame_elem (l l' : list witness_object) w : frame <$> l = frame <$> l' -> w ∈ l ->
  exists w', w' ∈ l' /\ frame w = frame w'.
Proof.
  intros H Hw. apply (list_elem_of_fmap_2 frame) in Hw. rewrite H in Hw. apply list_elem_of_fmap in Hw as (w' & E & Hw').
  by exists w'.
Qed.

Lemma frame_map {B} (f : witness_object -> B) (l l' : list witness_object) : (forall a b, frame a = frame b -> f a = f b) ->
  frame <$> l = frame <$> l' -> f <$> l = f <$> l'.
Proof.
  intros Hf. revert l'. induction l as [|a l IH]; intros [|b l'] H; try done. rewrite !fmap_cons in H.
  assert (frame a = frame b /\ frame <$> l = frame <$> l') as [H1 H2] by (split; congruence).
  rewrite !fmap_cons. f_equal; auto.
Qed.

Lemma frame_count ok (l l' : list witness_object) : (forall a b, frame a = frame b -> ok a = ok b) ->
  frame <$> l = frame <$> l' -> length (List.filter ok l) = length (List.filter ok l').
Proof.
  intros Hf. revert l'. induction l as [|a l IH]; intros [|b l'] H; try done. rewrite !fmap_cons in H.
  assert (frame a = frame b /\ frame <$> l = frame <$> l') as [H1 H2] by (split; congruence).
  cbn. rewrite (Hf _ _ H1). destruct (ok b); cbn; auto.
Qed.

Lemma modify_frame i f ws : (forall w, frame (f w) = frame w) -> frame <$> modify_witness i f ws = frame <$> ws.
Proof.
  intros Hf. unfold modify_witness. rewrite <- list_fmap_compose. apply list_fmap_ext. intros k w _. cbn.
  destruct (_ =? _); auto.
Qed.

Lemma advance_laps_frame time processed ws : frame <$> (advance_laps time processed ws).1 = frame <$> ws.
Proof.
  revert ws. induction processed as [|w processed IH]; intros ws; cbn; [done|].
  destruct (_ <? _); [done|]. rewrite IH. by apply modify_frame.
Qed.

Lemma selectable_frame s a b : frame a = frame b -> selectable s a = selectable s b.
Proof. intros H. apply frame_fields in H as (_ & _ & Hv & Hk & _). unfold selectable, eligible, is_disabled. by rewrite Hv, Hk. Qed.

Definition subsidy_params (w : witness_object) : rd_user_params :=
  mk_user (account_subsidy_budget (props w)) (account_subsidy_decay (props w)).
Definition witness_wf (w : witness_object) : Prop :=
  user_ok (subsidy_params w) /\ 0 <= available_witness_account_subsidies w < 2 ^ 62.

Lemma witness_wf_frame a b : frame a = frame b -> witness_wf a -> witness_wf b.
Proof. intros H. apply frame_fields in H as (_ & _ & _ & _ & Hp & Hs). unfold witness_wf, subsidy_params. by rewrite Hp, Hs. Qed.

Section progress.
Context `{L : FcLib} `{!FcLaws L}.

Lemma per_witness_ok budget decay : user_ok (mk_user budget decay) -> rd_ok (per_witness_params budget decay).
Proof.
  intros [Hb Hd]. cbn in Hb, Hd. unfold per_witness_params.
  change HIVE_WITNESS_SUBSIDY_BUDGET_PERCENT with 12500. change HIVE_WITNESS_SUBSIDY_DECAY_PERCENT with 210000.
  change HIVE_100_PERCENT with 10000.
  rewrite (swrap_id 64 (budget * 12500)) by (unfold in_s; lia). rewrite (uwrap_id 64) by (unfold in_u; lia).
  assert (1 <= Z.quot (budget * 12500) 10000 < 2 ^ 30) by (rewrite Z.quot_div_nonneg by lia; Z.to_euclidean_division_equations; lia).
  assert (decay * 210000 / 10000 = 21 * decay) as -> by (Z.to_euclidean_division_equations; lia).
  constructor; cbn [user_budget user_decay].
  - rewrite swrap_id by (unfold in_s; lia). lia.
  - rewrite uwrap_id by (unfold in_u; lia). lia.
Qed.

Lemma update_median_total wso ws :
  let names := take (Z.to_nat (num_scheduled_witnesses wso)) (current_shuffled_witnesses wso) in
  names <> [] -> (forall n, n ∈ names -> n ∈ owner <$> ws) -> Forall witness_wf ws ->
  exists m rd wrd, update_median_witness_props wso ws =
    Ok (mk_wso (current_virtual_time wso) (next_shuffle_block_num wso) (current_shuffled_witnesses wso)
        (num_scheduled_witnesses wso) (elected_weight wso) (timeshare_weight wso) (miner_weight wso)
        (witness_pay_normalization_factor wso) m
        (majority_version wso) (max_voted_witnesses wso) (max_miner_witnesses wso) (hardfork_required_witnesses wso) rd wrd).
Proof.
  intros names Hne Hknown Hws. unfold update_median_witness_props. fold names.
  destruct (get_witnesses_known names ws Hknown) as (active & -> & Hin & Hos). cbn [mbind result_bind].
  assert (active <> []) as Ha by (intros ->; by rewrite <- Hos in Hne).
  assert (Forall witness_wf active) as Hwf.
  { eapply Forall_impl; [exact Hin|]. intros w Hw. by apply (proj1 (Forall_forall _ _) Hws). }
  destruct (median_inv (amount ∘ account_creation_fee ∘ props) (fun _ => True) active) as (fee & -> & _);
    [done|by apply Forall_true|]. cbn [mbind result_bind].
  destruct (median_inv (prop_maximum_block_size ∘ props) (fun _ => True) active) as (sz & -> & _);
    [done|by apply Forall_true|]. cbn [mbind result_bind].
  destruct (median_inv (account_subsidy_budget ∘ props) (fun x => 1 <= x < 2 ^ 28) active) as (budget & -> & Hb);
    [done|eapply Forall_impl; [exact Hwf|]; intros w [[? ?] _]; done|]. cbn [mbind result_bind].
  destruct (median_inv (account_subsidy_decay ∘ props) (fun x => 64 <= x < 2 ^ 32) active) as (decay & -> & Hd);
    [done|eapply Forall_impl; [exact Hwf|]; intros w [[? ?] _]; done|]. cbn [mbind result_bind].
  destruct (median_inv available_witness_account_subsidies (fun x => 0 <= x < 2 ^ 62) active) as (sub & -> & Hs);
    [done|eapply Forall_impl; [exact Hwf|]; intros w [_ ?]; done|]. cbn [mbind result_bind].
  assert (user_ok (mk_user budget decay)) as Hu by (constructor; done).
  rewrite (proj2 (rd_validate_ok _) Hu). cbn [mbind result_bind].
  rewrite (rd_setup_value _ (mk_system HIVE_ACCOUNT_SUBSIDY_PRECISION HIVE_RD_DECAY_DENOM_SHIFT) (user_rd_ok _ Hu) eq_refl). cbn [mbind result_bind].
  pose proof (per_witness_ok _ _ Hu) as Hp.
  rewrite (rd_setup_value _ (mk_system HIVE_ACCOUNT_SUBSIDY_PRECISION HIVE_RD_DECAY_DENOM_SHIFT) Hp eq_refl). cbn [mbind result_bind decay_params].
  rewrite pool_decay_value by done. cbn [mbind result_bind].
  destruct Hp as [_ Hd2]. set (u := user_decay (per_witness_params budget decay)) in *. clearbody u.
  assert (0 <= u * sub / 2 ^ 36 < 2 ^ 62).
  { split; [apply Z.div_pos; [apply Z.mul_nonneg_nonneg|]; lia|]. apply Z.div_lt_upper_bound; [lia|]. nia. }
  rewrite (Z.max_l _ 0) by lia. change HIVE_DECAY_BACKSTOP_PERCENT with 9000. change HIVE_100_PERCENT with 10000.
  rewrite (uwrap_id 128 (u * sub / 2 ^ 36)) by (unfold in_u; lia). rewrite (uwrap_id 128) by (unfold in_u; lia).
  rewrite uint128_to_int64_fits by (split; [apply Z.div_pos; lia|apply Z.div_lt_upper_bound; lia]).
  cbn [mbind result_bind]. eauto.
Qed.

Record schedule_wf (s : chain) : Prop := {
  sw_ids : NoDup (ids (witnesses s));
  sw_owners : NoDup (owner <$> witnesses s);
  sw_seats : seats_ok (wso_future s);
  sw_known name : name ∈ take (Z.to_nat (num_scheduled_witnesses (wso_future s))) (current_shuffled_witnesses (wso_future s)) ->
    name ∈ owner <$> witnesses s;
  sw_witnesses : Forall witness_wf (witnesses s)
}.

(** One enabled witness is enough for someone to be selectable. *)
Lemma selectable_exists s w : w ∈ witnesses s -> is_disabled w = false -> exists x, x ∈ witnesses s /\ selectable s x = true.
Proof.
  intros Hw Hd. unfold selectable, eligible. destruct (has_hardfork 30 s) eqn:E30; [|exists w; by rewrite Hd].
  destruct (any_approved s) eqn:Ea; cbn.
  - unfold any_approved in Ea. rewrite E30 in Ea. cbn in Ea. apply existsb_exists in Ea as (x & Hx & Ex). to_prop.
    exists x. apply list_elem_of_In in Hx. unfold by_vote_name in Hx. rewrite merge_sort_Permutation in Hx. split; [done|].
    rewrite (proj2 (Z.leb_le _ _)) by done. by destruct (is_disabled x).
  - exists w. by rewrite Hd.
Qed.

Lemma selectable_meaning s w : selectable s w = true ->
  is_disabled w = false /\ (has_hardfork 30 s = true -> any_approved s = true -> minimum_votes s <= votes w).
Proof.
  unfold selectable, eligible. intros H. destruct (is_disabled w); [by destruct (has_hardfork 30 s)|]. split; [done|].
  intros E30 Ea. rewrite E30, Ea in H. cbn in H. by to_prop.
Qed.

Lemma count_votes_last wso scheduled s : last_hardfork (count_hardfork_votes wso scheduled s).2 = last_hardfork (hpo s).
Proof.
  unfold count_hardfork_votes. cbn [snd]. destruct (winning_vote _ _ _) as [[v t]|]; [|done]. by destruct (_ || _).
Qed.

Lemma reset_frame s : frame <$> witnesses (reset_virtual_schedule_time s) = frame <$> witnesses s.
Proof. cbn. rewrite <- list_fmap_compose. by apply list_fmap_ext. Qed.

Lemma name_array_take names : (length names <= Z.to_nat HIVE_MAX_WITNESSES)%nat ->
  take (length names) (name_array names) = names /\ length (name_array names) = Z.to_nat HIVE_MAX_WITNESSES.
Proof.
  intros H. unfold name_array. rewrite take_app_length, length_app, length_replicate. split; [done|lia].
Qed.

(** What a new schedule promises. *)
Record schedule_of (s s' : chain) : Prop := {
  so_count : num_scheduled_witnesses (wso_future s') =
             Z.min HIVE_MAX_WITNESSES (size (List.filter (selectable s) (witnesses s)));
  so_distinct : NoDup (take (Z.to_nat (num_scheduled_witnesses (wso_future s'))) (current_shuffled_witnesses (wso_future s')));
  so_legitimate name : name ∈ take (Z.to_nat (num_scheduled_witnesses (wso_future s'))) (current_shuffled_witnesses (wso_future s')) ->
    exists w, w ∈ witnesses s /\ owner w = name /\ is_disabled w = false /\
      (has_hardfork 30 s = true -> any_approved s = true -> minimum_votes s <= votes w);
  so_top w : w ∈ take (Z.to_nat (max_voted_witnesses (wso_future s))) (List.filter (selectable s) (by_vote_name (witnesses s))) ->
    owner w ∈ take (Z.to_nat (num_scheduled_witnesses (wso_future s'))) (current_shuffled_witnesses (wso_future s'))
}.

Lemma owners_nodup (l W : list witness_object) : NoDup (owner <$> W) -> NoDup (ids l) ->
  (forall w, w ∈ l -> exists w', w' ∈ W /\ core w = core w') -> NoDup (owner <$> l).
Proof.
  intros HW. induction l as [|a l IH]; intros Hn Hin; [constructor|]. rewrite fmap_cons in *.
  apply NoDup_cons in Hn as [Ha Hn]. constructor; [|apply IH; [done|]; intros; apply Hin; by apply elem_of_cons; right].
  intros Ho. apply list_elem_of_fmap in Ho as (b & E & Hb).
  destruct (Hin a) as (a' & Ha' & Ca); [by apply elem_of_cons; left|].
  destruct (Hin b) as (b' & Hb' & Cb); [by apply elem_of_cons; right|].
  apply core_fields in Ca as (Ia & Oa & _), Cb as (Ib & Ob & _).
  assert (a' = b') as ->.
  { apply list_elem_of_lookup in Ha' as [i Hi], Hb' as [j Hj].
    assert (i = j) as ->; [|congruence]. eapply (NoDup_lookup _ i j (owner a') HW); rewrite list_lookup_fmap, ?Hi, ?Hj; cbn; congruence. }
  apply Ha. rewrite Ia, <- Ib. by apply list_elem_of_fmap_2.
Qed.

Lemma update_schedule4_total s : schedule_wf s -> (exists w, w ∈ witnesses s /\ is_disabled w = false) ->
  exists s', update_witness_schedule4 s = Ok s' /\ schedule_of s s' /\ schedule_wf s' /\
    frame <$> witnesses s' = frame <$> witnesses s /\ last_hardfork (hpo s') = last_hardfork (hpo s) /\
    wso_current s' = wso_current s.
Proof.
  intros W (w0 & Hw0 & He0). unfold update_witness_schedule4.
  destruct (elect_witnesses (wso_future s) s) as [sel s1] eqn:Esel.
  apply elect_spec in Esel as EL; [|apply W|apply W]. clear Esel.
  set (al := advance_laps _ _ _). pose proof (advance_laps_frame (sel_time sel) (sel_processed sel) (witnesses s1)) as Hal. fold al in Hal.
  destruct al as [ws overflow]. cbn [fst] in Hal.
  set (st := if overflow then _ else _).
  assert (exists time s2, st = (time, s2) /\ frame <$> witnesses s2 = frame <$> witnesses s /\ hpo s2 = hpo s /\
    wso_current s2 = wso_current s) as (time & s2 & Est & Fs2 & Hh2 & Ht2).
  { destruct (el_rest _ _ _ _ EL) as [p Es1]. pose proof (core_frame _ _ (el_core _ _ _ _ EL)) as F1.
    subst st. destruct overflow; eexists _, _; (split; [done|]).
    - rewrite reset_frame. cbn. rewrite Hal, F1. by rewrite Es1.
    - cbn. rewrite Hal, F1. by rewrite Es1. }
  rewrite Est. clear st Est.
  assert (owner <$> witnesses s2 = owner <$> witnesses s) as Ow by (apply frame_map; [|done]; intros a b H; apply frame_fields in H; tauto).
  assert (size (List.filter (selectable s) (by_vote_name (witnesses s2))) = size (List.filter (selectable s) (witnesses s))) as Hcnt.
  { unfold size. f_equal. unfold by_vote_name. rewrite merge_sort_Permutation.
    apply frame_count; [apply selectable_frame|done]. }
  rewrite Hcnt. set (active := active_witnesses sel) in *. pose proof (el_count _ _ _ _ EL) as Hlen. fold active in Hlen.
  set (cnt := length (List.filter (selectable s) (witnesses s))) in *.
  assert (size active = Z.min HIVE_MAX_WITNESSES (size (List.filter (selectable s) (witnesses s)))) as Hsz.
  { unfold size. fold cnt. unfold HIVE_MAX_WITNESSES in *. lia. }
  assert (0 < size active <= 21) as Hpos.
  { unfold size, HIVE_MAX_WITNESSES in *. assert (0 < cnt)%nat; [|lia].
    destruct (selectable_exists s w0 Hw0 He0) as (x & Hx & Hok). subst cnt.
    assert (x ∈ List.filter (selectable s) (witnesses s)) as Hin by (by apply elem_of_filterb).
    apply list_elem_of_lookup in Hin as [i Hi]. apply lookup_lt_Some in Hi. lia. }
  rewrite (proj2 (Z.eqb_eq _ _) Hsz), (proj2 (Z.eqb_neq (size active) 0)) by lia. cbn [check mbind result_bind negb].
  destruct (get_witnesses_known (take (Z.to_nat (num_scheduled_witnesses (wso_future s))) (current_shuffled_witnesses (wso_future s)))
    (witnesses s2)) as (scheduled & -> & _); [intros n Hn; rewrite Ow; by apply (sw_known _ W)|]. cbn [mbind result_bind].
  destruct (count_hardfork_votes _ _ _) as [majority h] eqn:Ehf.
  assert (last_hardfork h = last_hardfork (hpo s)) as Hlh.
  { rewrite <- Hh2, <- (count_votes_last (wso_future s) scheduled s2), Ehf. done. }
  rewrite (uwrap_id 8 (size active)) by (unfold in_u; lia). rewrite (Z.max_l (size active) 1) by lia.
  set (names := owner <$> active).
  assert (length names = length active) as Hln by apply length_fmap.
  destruct (name_array_take names) as [Ht Hl]; [unfold size, HIVE_MAX_WITNESSES in *; lia|].
  destruct (shuffle_take (head_block_time (set_hpo h s2)) (size active) (name_array names)) as [Hsh Hshl];
    [lia|rewrite Hl; unfold HIVE_MAX_WITNESSES; lia|].
  set (shuffled := shuffle _ _ _) in *.
  replace (Z.to_nat (size active)) with (length names) in * by (unfold size; lia). rewrite Ht in Hsh.
  assert (forall n, n ∈ names -> n ∈ owner <$> witnesses s) as Hknown.
  { intros n Hn. apply list_elem_of_fmap in Hn as (w & -> & Hw). destruct (el_known _ _ _ _ EL w Hw) as (w' & Hw' & E).
    apply core_fields in E as (_ & -> & _). by apply list_elem_of_fmap_2. }
  match goal with |- context [update_median_witness_props ?w _] => set (wso' := w) end.
  destruct (update_median_total wso' (witnesses s2)) as (m & rd & wrd & E).
  - cbn. replace (Z.to_nat (size active)) with (length names) by (unfold size; lia). intros Hnil.
    rewrite Hnil in Hsh. apply Permutation_nil_l in Hsh. unfold size in Hpos. rewrite <- Hln, <- Hsh in Hpos. cbn in Hpos. lia.
  - cbn. replace (Z.to_nat (size active)) with (length names) by (unfold size; lia). intros n Hn. rewrite Hsh in Hn. rewrite Ow. auto.
  - apply Forall_forall. intros w Hw. destruct (frame_elem _ _ _ Fs2 Hw) as (w' & Hw' & E).
    eapply witness_wf_frame; [symmetry; exact E|]. by apply (proj1 (Forall_forall _ _) (sw_witnesses _ W)).
  - cbn [set_hpo witnesses]. rewrite E. cbn [mbind result_bind]. eexists. split; [done|].
    assert (take (Z.to_nat (size active)) shuffled ≡ₚ names) as Hnames
      by (by replace (Z.to_nat (size active)) with (length names) by (unfold size; lia)).
    split_and!.
    + constructor; cbn [wso_future set_wso_future set_hpo num_scheduled_witnesses current_shuffled_witnesses wso'].
      * exact Hsz.
      * rewrite Hnames. apply (owners_nodup _ _ (sw_owners _ W)); [apply EL|]. intros w Hw. by apply (el_known _ _ _ _ EL).
      * intros n Hn. rewrite Hnames in Hn. apply list_elem_of_fmap in Hn as (w & -> & Hw).
        destruct (el_known _ _ _ _ EL w Hw) as (w' & Hw' & Ec). exists w'.
        pose proof (el_ok _ _ _ _ EL w Hw) as Hok. rewrite (selectable_core s _ _ Ec) in Hok.
        apply core_fields in Ec as (_ & Eo & _). apply selectable_meaning in Hok as [? ?]. done.
      * intros w Hw. rewrite Hnames. apply list_elem_of_fmap_2. unfold active, active_witnesses.
        rewrite (el_voted _ _ _ _ EL). by apply elem_of_app; left.
    + constructor; cbn [wso_future set_wso_future set_hpo num_scheduled_witnesses current_shuffled_witnesses wso' witnesses].
      * assert (wit_id <$> witnesses s2 = wit_id <$> witnesses s) as -> by (apply frame_map; [|done]; intros a b H; apply frame_fields in H; tauto). apply W.
      * rewrite Ow. apply W.
      * apply W.
      * intros n Hn. rewrite Hnames in Hn. rewrite Ow. auto.
      * apply Forall_forall. intros w Hw. destruct (frame_elem _ _ _ Fs2 Hw) as (w' & Hw' & E').
        eapply witness_wf_frame; [symmetry; exact E'|]. by apply (proj1 (Forall_forall _ _) (sw_witnesses _ W)).
    + exact Fs2.
    + exact Hlh.
    + exact Ht2.
Qed.

(** C20. Scheduling never halts the chain: as long as one witness has a signing key,
    the update of a round returns and promotes the schedule prepared before.
    The new one has as many distinct producers as there are seats or selectable
    witnesses, includes the best voted ones, contains no disabled witness, and
    from hardfork 30 on none below one percent of approval unless nobody
    reaches it; and the next round can be scheduled again. *)
Theorem schedule_update_succeeds (s : chain) :
  schedule_wf s -> (exists w, w ∈ witnesses s /\ is_disabled w = false) ->
  head_block_num s mod HIVE_MAX_WITNESSES = 0 ->
  exists s', update_witness_schedule s = Ok s' /\ wso_current s' = wso_future s /\ schedule_of s s' /\
    schedule_wf s' /\ (exists w, w ∈ witnesses s' /\ is_disabled w = false).
Proof.
  intros W He Hh. unfold update_witness_schedule. rewrite (proj2 (Z.eqb_eq _ _) Hh).
  set (s1 := update_global_witness_properties _ _).
  assert (schedule_wf s1) as W1 by (destruct W; by constructor).
  destruct (update_schedule4_total s1 W1 He) as (s' & E & So & W' & Fr & _ & Ec).
  exists s'. split_and!; [done|by rewrite Ec|by destruct So|done|].
  destruct He as (w & Hw & Hd). destruct (frame_elem _ _ _ (eq_sym Fr) Hw) as (w' & Hw' & Ef).
  exists w'. split; [done|]. apply frame_fields in Ef as (_ & _ & _ & Hk & _). unfold is_disabled in *. by rewrite <- Hk.
Qed.

(** ** Virtual time *)

Definition race_ok (s : chain) : Prop :=
  Forall (fun w => 0 <= votes w < 2 ^ 63 - 1 /\ current_virtual_time (wso_future s) <= virtual_scheduled_time w < 2 ^ 128) (witnesses s) /\
  0 <= current_virtual_time (wso_future s).

#[local] Instance schedule_time_total : Total schedule_time_le.
Proof. intros a b. unfold schedule_time_le. lia. Qed.
#[local] Instance schedule_time_trans : Transitive schedule_time_le.
Proof. intros a b c. unfold schedule_time_le. lia. Qed.

Lemma lap_time_range v : 0 <= v < 2 ^ 63 - 1 -> 0 <= lap_time v < 2 ^ 128.
Proof.
  intros Hv. unfold lap_time, HIVE_VIRTUAL_SCHEDULE_LAP_LENGTH2.
  rewrite (swrap_id 64) by (unfold in_s; lia). rewrite (uwrap_id 128) by (unfold in_u; lia).
  split; [apply Z.div_pos; lia|]. apply Z.div_lt_upper_bound; nia.
Qed.

Lemma advance_laps_spec time processed ws ws' : advance_laps time processed ws = (ws', false) ->
  forall w, w ∈ ws' -> (wit_id w ∈ ids processed /\ time <= virtual_scheduled_time w < 2 ^ 128) \/
                       (w ∈ ws /\ wit_id w ∉ ids processed).
Proof.
  revert ws. induction processed as [|p processed IH]; intros ws; cbn [advance_laps].
  { intros [= <-] w Hw. right. split; [done|]. apply not_elem_of_nil. }
  set (t := u128 _). destruct (t <? time) eqn:E; [done|]. to_prop. intros H w Hw.
  assert (in_u 128 t) as Ht by (apply uwrap_range; lia). unfold in_u in Ht.
  destruct (IH _ H w Hw) as [[H1 H2]|[H1 H2]].
  { left. split; [|done]. rewrite fmap_cons. by apply elem_of_cons; right. }
  unfold modify_witness in H1. apply list_elem_of_fmap in H1 as (x & -> & Hx).
  rewrite fmap_cons. destruct (Z.eqb_spec (wit_id x) (wit_id p)) as [Ei|Ei].
  - left. cbn. split; [by apply elem_of_cons; left|lia].
  - right. split; [done|]. apply not_elem_of_cons. done.
Qed.

(** Whoever was not looked at is not ahead of the virtual time reached. *)
Lemma race_behind ws k start w : NoDup (ids ws) -> w ∈ ws -> start <= virtual_scheduled_time w ->
  wit_id w ∉ ids (take k (by_schedule_time ws)) ->
  reached start (take k (by_schedule_time ws)) <= virtual_scheduled_time w.
Proof.
  intros Hn Hw Hs Hnot. unfold reached. destruct (last _) as [l|] eqn:El; [|done]. cbn.
  pose proof (StronglySorted_merge_sort schedule_time_le ws) as Hst. fold (by_schedule_time ws) in Hst.
  rewrite <- (take_drop k (by_schedule_time ws)) in Hst.
  assert (w ∈ drop k (by_schedule_time ws)) as Hd.
  { assert (w ∈ by_schedule_time ws) as Hb by (unfold by_schedule_time; by rewrite merge_sort_Permutation).
    rewrite <- (take_drop k (by_schedule_time ws)) in Hb. apply elem_of_app in Hb as [Hb|Hb]; [|done].
    exfalso. apply Hnot. by apply list_elem_of_fmap_2. }
  assert (schedule_time_le l w) as Hle.
  { eapply StronglySorted_app_1_elem_of; [exact Hst| |exact Hd]. by apply last_Some_elem_of. }
  unfold schedule_time_le in Hle. lia.
Qed.

(** [update_witness_schedule4] as far as the virtual clock is concerned. *)
Lemma update_schedule4_race s s' : NoDup (ids (witnesses s)) -> seats_ok (wso_future s) -> race_ok s ->
  update_witness_schedule4 s = Ok s' -> race_ok s'.
Proof.
  intros Hn Hseats [Hr H0] H. unfold update_witness_schedule4 in H.
  destruct (elect_witnesses (wso_future s) s) as [sel s1] eqn:Esel.
  apply elect_spec in Esel as EL; [|done|done]. clear Esel.
  destruct (advance_laps _ _ _) as [ws overflow] eqn:Eal.
  pose proof (advance_laps_frame (sel_time sel) (sel_processed sel) (witnesses s1)) as Hfr. rewrite Eal in Hfr. cbn [fst] in Hfr.
  rewrite Forall_forall in Hr.
  assert (forall w, w ∈ ws -> 0 <= votes w < 2 ^ 63 - 1) as Hvotes.
  { intros w Hw. rewrite (core_frame _ _ (el_core _ _ _ _ EL)) in Hfr. destruct (frame_elem _ _ _ Hfr Hw) as (w' & Hw' & E).
    apply frame_fields in E as (_ & _ & -> & _). by apply Hr. }
  destruct (if overflow then _ else _) as [time s2] eqn:E2.
  assert (Forall (fun w => 0 <= votes w < 2 ^ 63 - 1 /\ time <= virtual_scheduled_time w < 2 ^ 128) (witnesses s2) /\ 0 <= time) as [Hrace Hpos].
  { destruct overflow; injection E2 as <- <-.
    - split; [|lia]. cbn. apply Forall_fmap, Forall_forall. intros w Hw. cbn.
      specialize (Hvotes w Hw). pose proof (lap_time_range (votes w) Hvotes). lia.
    - destruct (el_race _ _ _ _ EL) as (k & ws2 & C2 & Ep & Et). split.
      + cbn. apply Forall_forall. intros w Hw. split; [auto|].
        destruct (advance_laps_spec _ _ _ _ Eal w Hw) as [[_ ?]|[Hw1 Hnot]]; [done|].
        destruct (ids_core_elem _ _ _ (el_core _ _ _ _ EL) Hw1) as (w0 & Hw0 & Ew0).
        destruct (ids_core_elem _ _ _ (eq_sym C2) Hw0) as (w2 & Hw2 & Ew2).
        destruct (core_fields _ _ Ew0) as (I0 & _ & _ & _ & S0 & _). destruct (core_fields _ _ Ew2) as (I2 & _ & _ & _ & S2 & _).
        destruct (Hr _ Hw0) as [_ Hb]. rewrite Et, Ep in *. rewrite S0, S2 in *. split; [|lia].
        apply race_behind; [by rewrite (core_ids _ _ C2)|done|lia|]. by rewrite <- I2, <- I0.
      + rewrite Et. unfold reached. destruct (last (sel_processed sel)) as [l|] eqn:El; [|done]. cbn.
        apply last_Some_elem_of in El. rewrite Ep in El.
        assert (l ∈ ws2) as Hl.
        { assert (l ∈ by_schedule_time ws2) as Hb by (eapply elem_of_submseteq; [exact El|]; apply sublist_submseteq, sublist_take).
          unfold by_schedule_time in Hb. by rewrite merge_sort_Permutation in Hb. }
        destruct (ids_core_elem _ _ _ C2 Hl) as (w0 & Hw0 & Ew0). apply core_fields in Ew0 as (_ & _ & _ & _ & -> & _).
        destruct (Hr _ Hw0) as [_ Hb]. lia. }
  apply bind_Ok in H as ([] & _ & H). apply bind_Ok in H as ([] & _ & H). apply bind_Ok in H as (scheduled & _ & H).
  destruct (count_hardfork_votes _ _ _) as [majority h]. apply bind_Ok in H as (wso' & Hmed & H). injection H as <-.
  assert (current_virtual_time wso' = time) as Ht.
  { unfold update_median_witness_props in Hmed. do 6 (apply bind_Ok in Hmed as (? & _ & Hmed)).
    do 5 (apply bind_Ok in Hmed as (? & _ & Hmed)). injection Hmed as <-. done. }
  unfold race_ok. cbn [wso_future set_wso_future set_hpo witnesses]. rewrite Ht. done.
Qed.

Lemma adjust_vote_race name delta s s' : in_s 64 delta -> total_vesting_shares s < 2 ^ 63 - 1 ->
  (forall w, w ∈ witnesses s -> owner w = name -> 0 <= votes w + delta) ->
  race_ok s -> adjust_witness_vote name delta s = Ok s' -> race_ok s'.
Proof.
  intros Hd Htot Hneg [Hr H0] H. unfold adjust_witness_vote in H. apply bind_Ok in H as (w & Hw & H).
  unfold get_witness in Hw. destruct (find_witness name (witnesses s)) as [x|] eqn:Ef; [|done]. injection Hw as ->.
  apply find_witness_Some in Ef as [Hin Ho]. rewrite Forall_forall in Hr. destruct (Hr _ Hin) as [Hv Hs].
  apply bind_Ok in H as (v & Hsafe & H). apply safe_add_Ok in Hsafe as [-> Hvr]; [|unfold in_s; lia|done].
  apply bind_Ok in H as ([] & Hc & H). apply check_Ok in Hc. to_prop. specialize (Hneg w Hin Ho). injection H as <-.
  split; [|done]. cbn [set_witnesses witnesses wso_future]. unfold modify_witness. apply Forall_fmap, Forall_forall. intros y Hy. cbn.
  destruct (_ =? _); [|by apply Hr]. cbn. split; [lia|].
  destruct (_ <? current_virtual_time _) eqn:E; to_prop; [lia|].
  match goal with |- _ <= ?t < _ => assert (in_u 128 t) as Hu by (apply uwrap_range; lia) end. unfold in_u in Hu. lia.
Qed.

(** One change of the witnesses' virtual clocks. *)
Inductive race_step : chain -> chain -> Prop :=
| race_vote name delta s s' : in_s 64 delta -> total_vesting_shares s < 2 ^ 63 - 1 ->
    (forall w, w ∈ witnesses s -> owner w = name -> 0 <= votes w + delta) ->
    adjust_witness_vote name delta s = Ok s' -> race_step s s'
| race_schedule s s' : schedule_wf s -> (exists w, w ∈ witnesses s /\ is_disabled w = false) ->
    update_witness_schedule s = Ok s' -> race_step s s'.

(** Nobody is scheduled in the past: over every history of votes and schedule
    updates the next turn of each witness lies at or after the current virtual
    time and within 128 bits, also when a lap overflows. *)
Theorem virtual_time_never_behind (s s' : chain) : race_ok s -> rtc race_step s s' -> race_ok s'.
Proof.
  intros HR Hs. induction Hs as [s|s s1 s' Hstep _ IH]; [done|]. apply IH. clear IH.
  destruct Hstep as [name delta s2 s3 Hd Ht Hneg H|s2 s3 W He H]; [by eapply adjust_vote_race|].
  unfold update_witness_schedule in H. destruct (_ =? 0); [|by injection H as <-].
  eapply update_schedule4_race; [| | |exact H]; [exact (sw_ids _ W)|exact (sw_seats _ W)|exact HR].
Qed.
End progress.

(** ** The vote on hardforks *)

(** A version of major 1 above 1.0.0, or the 0.0.0 of a witness that did not vote. *)
Definition plain (v : version) : Prop := v_num v = 0 \/ 2 ^ 24 < v_num v < 2 ^ 25.

Lemma plain_major v : 2 ^ 24 < v_num v < 2 ^ 25 -> major_v v = 1.
Proof.
  intros H. unfold major_v. change 0xFF000000 with (Z.shiftl (Z.ones 8) 24). rewrite land_field by lia. Z.to_euclidean_division_equations. lia.
Qed.

(** Among them the comparisons are those of the numbers. *)
Lemma hardfork_op_plain op a b : plain a -> plain b -> hardfork_op op a b = apply_operator op (v_num a) (v_num b).
Proof.
  assert (forall v, 2 ^ 24 < v_num v < 2 ^ 25 -> Z.land (v_num v) 0x00FFFFFF = v_num v - 2 ^ 24) as Hland.
  { intros v H. change 0x00FFFFFF with (Z.ones 24). rewrite Z.land_ones by lia. Z.to_euclidean_division_equations. lia. }
  unfold hardfork_op, _operator. rewrite major_num. intros [Ha|Ha] [Hb|Hb].
  - unfold major_v. rewrite Ha, Hb. done.
  - rewrite (plain_major b Hb), (Hland b Hb). unfold major_v. rewrite Ha. change (Z.shiftr (Z.land 0 0xFF000000) 24) with 0. cbn [Z.eqb andb Pos.eqb].
    destruct op; cbn [apply_operator]; apply eq_true_iff_eq; rewrite ?negb_true_iff, ?Z.eqb_eq, ?Z.eqb_neq, ?Z.ltb_lt, ?Z.leb_le; lia.
  - rewrite (plain_major a Ha). unfold major_v. rewrite Hb. done.
  - by rewrite (plain_major a Ha), (plain_major b Hb).
Qed.

Definition same_vote (a b : version * Z) : bool := (v_num a.1 =? v_num b.1) && (a.2 =? b.2).

Lemma same_vote_spec a b : same_vote a b = true <-> a = b.
Proof.
  destruct a as [[x] y], b as [[x'] y']. unfold same_vote. cbn. split; [intros; to_prop; congruence|].
  intros [= -> ->]. by rewrite !Z.eqb_refl.
Qed.

Lemma vote_lt_plain a b : plain a.1 -> plain b.1 ->
  vote_lt a b = true <-> v_num a.1 < v_num b.1 \/ (v_num a.1 = v_num b.1 /\ a.2 < b.2).
Proof.
  intros Ha Hb. unfold vote_lt. rewrite !hardfork_op_plain by done. cbn [apply_operator].
  rewrite orb_true_iff, andb_true_iff, negb_true_iff, !Z.ltb_lt, Z.ltb_ge. lia.
Qed.

(** How many of the witnesses cast the vote [k]. *)
Definition votes_for (k : version * Z) (ws : list witness_object) : Z :=
  size (List.filter (fun w => same_vote (vote_of w) k) ws).

Definition before (a b : version * Z * Z) : Prop := vote_lt a.1 b.1 = true.
Definition all_plain (l : list (version * Z * Z)) : Prop := Forall (fun e => plain e.1.1) l.

Lemma tally_plain k l : plain k.1 -> all_plain l -> all_plain (tally vote_lt k l).
Proof.
  intros Hk. induction 1 as [|[e n] l He Hl IH]; cbn; [by apply Forall_singleton|].
  destruct (vote_lt e k); [by apply Forall_cons_2|]. destruct (vote_lt k e); repeat apply Forall_cons_2; done.
Qed.

Lemma tally_sorted k l : plain k.1 -> all_plain l -> StronglySorted before l -> StronglySorted before (tally vote_lt k l).
Proof.
  intros Hk Hm Hs. induction Hs as [|[e n] l Hs IH Hall]; cbn; [by repeat constructor|].
  inversion_clear Hm as [|? ? He Hml]. cbn in He. destruct (vote_lt e k) eqn:E1; [|destruct (vote_lt k e) eqn:E2].
  - constructor; [auto|]. clear IH. induction Hall as [|[e' n'] l' He' Hall IH]; cbn; [by constructor|].
    inversion_clear Hml. inversion_clear Hs.
    destruct (vote_lt e' k); [constructor; auto|]. destruct (vote_lt k e'); repeat constructor; auto.
  - constructor; [by constructor|]. constructor; [exact E2|]. apply Forall_forall. intros x Hx.
    rewrite Forall_forall in Hall. specialize (Hall x Hx). unfold all_plain in Hml. rewrite Forall_forall in Hml. specialize (Hml x Hx). cbn in *.
    unfold before in *. cbn in *. rewrite vote_lt_plain in * by done. lia.
  - constructor; [done|]. exact Hall.
Qed.

(** The number counted for a vote. *)
Fixpoint counted (k : version * Z) (l : list (version * Z * Z)) : Z :=
  match l with [] => 0 | (e, n) :: l => (if same_vote e k then n else 0) + counted k l end.

Lemma tally_counted k k' l : plain k.1 -> all_plain l -> (forall e n, (e, n) ∈ l -> 0 <= n < 2 ^ 32 - 1) ->
  counted k' (tally vote_lt k l) = counted k' l + (if same_vote k k' then 1 else 0).
Proof.
  intros Hk. induction 1 as [|[e n] l He Hl IH]; intros Hn; cbn [tally counted]; [lia|]. cbn in He.
  assert (0 <= n < 2 ^ 32 - 1) as Hn0 by (apply (Hn e n); left).
  destruct (vote_lt e k) eqn:E1; [|destruct (vote_lt k e) eqn:E2]; cbn [counted].
  - rewrite IH; [lia|]. intros e' n' H. apply (Hn e' n'). by right.
  - lia.
  - assert (e = k) as ->.
    { apply same_vote_spec. unfold same_vote. apply not_true_iff_false in E1, E2.
      rewrite vote_lt_plain in E1, E2 by done. apply andb_true_iff. rewrite !Z.eqb_eq. lia. }
    rewrite uwrap_id by (unfold in_u; lia). destruct (same_vote k k'); lia.
Qed.

Lemma counted_sorted k n l : all_plain l -> StronglySorted before l -> (k, n) ∈ l -> counted k l = n.
Proof.
  intros Hm Hs Hin. induction Hs as [|[e m] l Hs IH Hall]; [by apply not_elem_of_nil in Hin|].
  inversion_clear Hm as [|? ? He Hml]. cbn in He.
  assert (forall x c, (x, c) ∈ l -> x <> e) as Hne.
  { intros x c Hx ->. rewrite Forall_forall in Hall. specialize (Hall _ Hx). unfold before in Hall. cbn in Hall.
    rewrite vote_lt_plain in Hall by done. lia. }
  cbn [counted]. apply elem_of_cons in Hin as [[= -> ->]|Hin].
  - rewrite (proj2 (same_vote_spec e e) eq_refl).
    assert (counted e l = 0) as ->; [|lia]. clear -Hne. induction l as [|[x c] l IH]; [done|]. cbn.
    destruct (same_vote x e) eqn:E.
    + apply same_vote_spec in E as ->. by destruct (Hne e c (list_elem_of_here _ _)).
    + rewrite IH; [lia|]. intros y d Hy. apply (Hne y d). by right.
  - destruct (same_vote e k) eqn:E; [|rewrite IH by done; lia]. apply same_vote_spec in E as ->. by destruct (Hne _ _ Hin).
Qed.

Record ballot_box (ws : list witness_object) (l : list (version * Z * Z)) : Prop := {
  bb_plain : all_plain l;
  bb_sorted : StronglySorted before l;
  bb_counted k : counted k l = votes_for k ws
}.

Lemma votes_for_range k ws : 0 <= votes_for k ws <= size ws.
Proof. unfold votes_for, size. pose proof (List.filter_length_le (fun w => same_vote (vote_of w) k) ws). lia. Qed.

Lemma votes_for_snoc k ws w : votes_for k (ws ++ [w]) = votes_for k ws + (if same_vote (vote_of w) k then 1 else 0).
Proof.
  unfold votes_for, size. rewrite List.filter_app, length_app. cbn. destruct (same_vote _ _); cbn; lia.
Qed.

Lemma ballots_of_spec ws : Forall (fun w => plain (hardfork_version_vote w)) ws -> size ws < 2 ^ 31 ->
  ballot_box ws (ballots_of ws).
Proof.
  unfold ballots_of. induction ws as [|w ws IH] using rev_ind; intros Hm Hs.
  { constructor; [constructor|constructor|done]. }
  apply Forall_app in Hm as [Hm Hw]. inversion_clear Hw as [|? ? Hw' _].
  assert (size ws < 2 ^ 31) as Hs' by (unfold size in *; rewrite length_app in Hs; lia).
  destruct (IH Hm Hs') as [B1 B2 B3]. rewrite foldl_app. cbn [foldl]. constructor.
  - by apply tally_plain.
  - by apply tally_sorted.
  - intros k. rewrite tally_counted; [by rewrite B3, votes_for_snoc|done|done|].
    intros e n He. rewrite <- (counted_sorted e n _ B1 B2 He), B3. pose proof (votes_for_range e ws). lia.
Qed.

Lemma counted_elem k l : 0 < counted k l -> exists n, (k, n) ∈ l.
Proof.
  induction l as [|[e n] l IH]; cbn; [lia|]. destruct (same_vote e k) eqn:E.
  - apply same_vote_spec in E as ->. intros _. exists n. left.
  - intros H. destruct IH as [m Hm]; [lia|]. exists m. by right.
Qed.

Lemma winning_vote_Some current q l k : winning_vote current q l = Some k ->
  exists n, (k, n) ∈ l /\ q <= n /\ hardfork_op less_equal k.1 current = false.
Proof.
  induction l as [|[e n] l IH]; cbn [winning_vote]; [done|]. destruct (hardfork_op less_equal e.1 current) eqn:E.
  - intros H. destruct (IH H) as (m & ? & ?). exists m. split; [by right|done].
  - destruct (q <=? n) eqn:Eq; to_prop.
    + intros [= ->]. exists n. split; [left|]. done.
    + intros H. destruct (IH H) as (m & ? & ?). exists m. split; [by right|done].
Qed.

Lemma winning_vote_None current q l k n : winning_vote current q l = None -> (k, n) ∈ l -> q <= n ->
  hardfork_op less_equal k.1 current = true.
Proof.
  induction l as [|[e m] l IH]; cbn [winning_vote]; intros H Hin Hq; [by apply not_elem_of_nil in Hin|].
  destruct (hardfork_op less_equal e.1 current) eqn:E.
  - apply elem_of_cons in Hin as [[= -> ->]|Hin]; auto.
  - destruct (q <=? m) eqn:Eq; [done|]. apply elem_of_cons in Hin as [[= -> ->]|Hin]; [|auto]. to_prop. lia.
Qed.

(** Two different votes do not both have a majority. *)
Lemma votes_disjoint a b ws : a <> b -> votes_for a ws + votes_for b ws <= size ws.
Proof.
  intros Hab. induction ws as [|w ws IH]; [done|]. unfold votes_for, size in *. cbn [List.filter].
  destruct (same_vote (vote_of w) a) eqn:Ea, (same_vote (vote_of w) b) eqn:Eb; cbn [length]; try lia.
  apply same_vote_spec in Ea, Eb. congruence.
Qed.


(** ** Witnesses of the hypotheses *)

Module Sample.
#[local] Existing Instance fc_ref.
#[local] Existing Instance fc_ref_laws.

Definition chain_props : chain_properties := mk_props (mk_asset 3000 HIVE_SYMBOL) 65536 0 797 347321.

(** A producer number [i] with [v] votes who asks for hardfork 1.30 at time 50. *)
Definition producer (i : Z) (name : string) (v : Z) (t : Z) : witness_object :=
  mk_witness i name 0 0 95 0 (Some i) chain_props v none 0 0 (lap_time v)
    (make_version 1 29 0) (make_hardfork_version 1 30) t 0.

Definition rd0 : rd_dynamics_params := mk_rd 0 0 0 0 (mk_decay 0 0) 0.
Definition schedule0 : witness_schedule_object :=
  mk_wso 0 105 (name_array ["alice"; "bob"; "carol"]%string) 3 1 5 1 25 chain_props (make_version 1 29 0) 20 0 3 rd0 rd0.
Definition s0 : chain :=
  mk_chain [producer 0 "alice" 700 50; producer 1 "bob" 200 50; producer 2 "carol" 5 50]
    schedule0 schedule0 (mk_hpo 29 (make_hardfork_version 1 29) (make_hardfork_version 1 29) 0)
    105 1000000 240 10000 0 65536 0 0.

Lemma s0_wf : schedule_wf s0.
Proof.
  constructor.
  - apply (bool_decide_unpack _). vm_compute. done.
  - apply (bool_decide_unpack _). vm_compute. done.
  - unfold seats_ok. vm_compute. split_and!; done.
  - intros name Hn. exact Hn.
  - repeat constructor; vm_compute; done.
Qed.
Lemma s0_enabled : exists w, w ∈ witnesses s0 /\ is_disabled w = false.
Proof. exists (producer 0 "alice" 700 50). split; [left|done]. Qed.

Lemma slot_time_roundtrip_witness : get_slot_at_time (get_slot_time 4 s0 + 2) s0 = 4.
Proof. refine (slot_time_roundtrip s0 4 2 _ _ _ _ _); vm_compute; try done; split; done. Defined.

Lemma every_witness_has_one_slot_witness :
  (fun i => get_scheduled_witness (2 + Z.of_nat i) s0) <$> seq 0 3 ≡ₚ ["alice"; "bob"; "carol"]%string.
Proof. refine (every_witness_has_one_slot s0 2 _ _ _ _ _); vm_compute; try done; lia. Defined.

Lemma hardfork_quorum_scales_witness : 1 <= pixa_hardfork_quorum 5 <= 5 /\ 21 * (pixa_hardfork_quorum 5 - 1) < 17 * 5 <= 21 * pixa_hardfork_quorum 5
  /\ 5 < 2 * (2 * pixa_hardfork_quorum 5 - 5).
Proof. refine (hardfork_quorum_scales 5 _). unfold HIVE_MAX_WITNESSES. lia. Defined.

Lemma schedule_update_succeeds_witness :
  exists s', update_witness_schedule s0 = Ok s' /\ wso_current s' = wso_future s0 /\ schedule_of s0 s' /\
    schedule_wf s' /\ (exists w, w ∈ witnesses s' /\ is_disabled w = false).
Proof. refine (schedule_update_succeeds s0 s0_wf s0_enabled _). reflexivity. Defined.

Definition voted : chain := match adjust_witness_vote "carol" 400 s0 with Ok s => s | Throw _ => s0 end.

Lemma virtual_time_never_behind_witness : race_ok voted.
Proof.
  refine (virtual_time_never_behind s0 voted _ _).
  - split; [|done]. repeat constructor; vm_compute; done.
  - apply rtc_once. refine (race_vote "carol" 400 s0 voted _ _ _ _); [vm_compute; done|vm_compute; done| |vm_compute; done].
    intros w Hw. revert w Hw. apply (proj1 (Forall_forall (fun w => owner w = "carol"%string -> 0 <= votes w + 400) _)).
    repeat constructor; vm_compute; done.
Defined.


(** Two votes for 1.30 and one for 0.30 at the same time are counted together: they make
    the quorum of three. *)
Definition odd_votes : list witness_object :=
  [producer 0 "alice" 700 50; producer 1 "bob" 200 50; set_versions (make_version 1 29 0) (make_hardfork_version 0 30) 50 (producer 2 "carol" 5 50)].
Example majors_are_counted_together :
  pixa_hardfork_quorum 3 = 3 /\ votes_for (make_hardfork_version 1 30, 50) odd_votes = 2 /\
  next_hardfork (count_hardfork_votes schedule0 odd_votes s0).2 = make_hardfork_version 1 30.
Proof. split_and!; vm_compute; reflexivity. Qed.

(** The vote passes on this chain. *)
Lemma sample_vote_passes : next_hardfork (count_hardfork_votes schedule0 (witnesses s0) s0).2 = make_hardfork_version 1 30.
Proof. vm_compute. reflexivity. Qed.
End Sample.
