(* ===== verification/Ledger.v ===== *)
(** * The ledger

    Models the objects of the chain that hold HIVE and HBD (accounts with their
    liquid, savings and reward balances, escrows, savings withdrawals, conversion
    requests, limit orders, reward funds, the vesting fund) together with the
    supply counters of [dynamic_global_property_object]; the primitives that move
    funds between them (libraries/chain/database.cpp: [adjust_balance],
    [adjust_savings_balance], [adjust_reward_balance]; issue, burn and convert of
    detail/state/global_property_object.hpp) and [validate_invariants], the
    chain's own check that the counters and the holdings agree.

    Hardforks up to 28 are active; 30 and 31 are tested as in the code.  An
    account is referred to by its name where the code uses its id.  Balances of a
    fixed symbol are assets with that symbol. *)

From stdpp Require Import base numbers strings option list sorting gmap.
From S2P Require Import Prelude Fc Config AssetSymbol Asset Balance Market.
Open Scope Z_scope.

(** ** State *)

(** The fields of [account_object] that hold or count funds. *)
Record account : Set := mk_acc {
  liquid : account_object;
  savings_hive_balance : asset;
  savings_hbd_balance : asset;
  savings_hbd_seconds : Z;
  savings_hbd_seconds_last_update : Z;
  savings_hbd_last_interest_payment : Z;
  reward_hive_balance : asset;
  reward_hbd_balance : asset;
  vesting_shares : asset;
  reward_vesting_balance : asset;
  reward_vesting_hive : asset;
  pending_escrow_transfers : Z;
  savings_withdraw_requests : Z;
  open_recurrent_transfers : Z
}.

Definition set_liquid x a := mk_acc x (savings_hive_balance a) (savings_hbd_balance a) (savings_hbd_seconds a)
  (savings_hbd_seconds_last_update a) (savings_hbd_last_interest_payment a) (reward_hive_balance a) (reward_hbd_balance a)
  (vesting_shares a) (reward_vesting_balance a) (reward_vesting_hive a) (pending_escrow_transfers a) (savings_withdraw_requests a)
  (open_recurrent_transfers a).
Definition set_savings_hive x a := mk_acc (liquid a) x (savings_hbd_balance a) (savings_hbd_seconds a)
  (savings_hbd_seconds_last_update a) (savings_hbd_last_interest_payment a) (reward_hive_balance a) (reward_hbd_balance a)
  (vesting_shares a) (reward_vesting_balance a) (reward_vesting_hive a) (pending_escrow_transfers a) (savings_withdraw_requests a)
  (open_recurrent_transfers a).
Definition set_savings_hbd x a := mk_acc (liquid a) (savings_hive_balance a) x (savings_hbd_seconds a)
  (savings_hbd_seconds_last_update a) (savings_hbd_last_interest_payment a) (reward_hive_balance a) (reward_hbd_balance a)
  (vesting_shares a) (reward_vesting_balance a) (reward_vesting_hive a) (pending_escrow_transfers a) (savings_withdraw_requests a)
  (open_recurrent_transfers a).
(** The clock of the interest on savings. *)
Definition set_interest_clock secs updated paid a := mk_acc (liquid a) (savings_hive_balance a) (savings_hbd_balance a) secs
  updated paid (reward_hive_balance a) (reward_hbd_balance a)
  (vesting_shares a) (reward_vesting_balance a) (reward_vesting_hive a) (pending_escrow_transfers a) (savings_withdraw_requests a)
  (open_recurrent_transfers a).
Definition set_rewards hive hbd a := mk_acc (liquid a) (savings_hive_balance a) (savings_hbd_balance a) (savings_hbd_seconds a)
  (savings_hbd_seconds_last_update a) (savings_hbd_last_interest_payment a) hive hbd
  (vesting_shares a) (reward_vesting_balance a) (reward_vesting_hive a) (pending_escrow_transfers a) (savings_withdraw_requests a)
  (open_recurrent_transfers a).
Definition set_counters escrows withdrawals recurrent a := mk_acc (liquid a) (savings_hive_balance a) (savings_hbd_balance a)
  (savings_hbd_seconds a) (savings_hbd_seconds_last_update a) (savings_hbd_last_interest_payment a) (reward_hive_balance a)
  (reward_hbd_balance a) (vesting_shares a) (reward_vesting_balance a) (reward_vesting_hive a) escrows withdrawals recurrent.

Record escrow_object : Set := mk_escrow {
  eid : Z;
  escrow_id : Z;
  from : string;
  to : string;
  agent : string;
  ratification_deadline : Z;
  escrow_expiration : Z;
  escrow_hbd : asset;
  escrow_hive : asset;
  pending_fee : asset;
  to_approved : bool;
  agent_approved : bool;
  disputed : bool
}.
Definition is_approved (e : escrow_object) : bool := to_approved e && agent_approved e.
Definition set_escrow_funds hbd hive fee e := mk_escrow (eid e) (escrow_id e) (from e) (to e) (agent e) (ratification_deadline e)
  (escrow_expiration e) hbd hive fee (to_approved e) (agent_approved e) (disputed e).
Definition set_escrow_flags t a d e := mk_escrow (eid e) (escrow_id e) (from e) (to e) (agent e) (ratification_deadline e)
  (escrow_expiration e) (escrow_hbd e) (escrow_hive e) (pending_fee e) t a d.

Record savings_withdraw_object : Set := mk_withdraw {
  sid : Z;
  swo_from : string;
  swo_to : string;
  swo_memo : string;
  request_id : Z;
  swo_amount : asset;
  complete : Z
}.
Definition set_swo_amount x s := mk_withdraw (sid s) (swo_from s) (swo_to s) (swo_memo s) (request_id s) x (complete s).

Record convert_request_object : Set := mk_convert {
  cid : Z;
  cr_owner : string;
  cr_amount : asset;
  requestid : Z;
  conversion_date : Z
}.
Definition set_cr_amount x c := mk_convert (cid c) (cr_owner c) x (requestid c) (conversion_date c).

Record collateralized_convert_request_object : Set := mk_cconvert {
  ccid : Z;
  cc_owner : string;
  collateral_amount : asset;
  converted_amount : asset;
  cc_requestid : Z;
  cc_conversion_date : Z
}.
Definition set_collateral x c := mk_cconvert (ccid c) (cc_owner c) x (converted_amount c) (cc_requestid c) (cc_conversion_date c).

Record recurrent_transfer_object : Set := mk_recurrent {
  rid : Z;
  trigger_date : Z;
  rt_from : string;
  rt_to : string;
  rt_amount : asset;
  rt_memo : string;
  recurrence : Z;
  remaining_executions : Z;
  consecutive_failures : Z;
  pair_id : Z
}.

Record reward_fund_object : Set := mk_fund {
  fund_id : Z;
  reward_balance : asset;
  percent_content_rewards : Z
}.

(** The counters and rates of [dynamic_global_property_object]. *)
Record global_properties : Set := mk_gpo {
  time : Z;
  current_supply : asset;
  virtual_supply : asset;
  current_hbd_supply : asset;
  total_vesting_fund_hive : asset;
  total_vesting_shares : asset;
  pending_rewarded_vesting_shares : asset;
  pending_rewarded_vesting_hive : asset;
  hbd_interest_rate : Z;
  hbd_print_rate : Z;
  hbd_stop_percent : Z;
  hbd_start_percent : Z
}.
Definition set_supplies cur hbd virt g := mk_gpo (time g) cur virt hbd (total_vesting_fund_hive g) (total_vesting_shares g)
  (pending_rewarded_vesting_shares g) (pending_rewarded_vesting_hive g) (hbd_interest_rate g) (hbd_print_rate g)
  (hbd_stop_percent g) (hbd_start_percent g).
Definition set_print_rate x g := mk_gpo (time g) (current_supply g) (virtual_supply g) (current_hbd_supply g) (total_vesting_fund_hive g)
  (total_vesting_shares g) (pending_rewarded_vesting_shares g) (pending_rewarded_vesting_hive g) (hbd_interest_rate g) x
  (hbd_stop_percent g) (hbd_start_percent g).
Definition set_time x g := mk_gpo x (current_supply g) (virtual_supply g) (current_hbd_supply g) (total_vesting_fund_hive g)
  (total_vesting_shares g) (pending_rewarded_vesting_shares g) (pending_rewarded_vesting_hive g) (hbd_interest_rate g) (hbd_print_rate g)
  (hbd_stop_percent g) (hbd_start_percent g).

Record feed_history_object : Set := mk_feed {
  current_median_history : HBD_price;
  market_median_history : HBD_price;
  current_min_history : HBD_price
}.

Inductive ledger_vop : Set :=
| market_vop (v : virtual_operation)
| interest_operation (owner : string) (interest : asset) (is_saved_into_hbd_balance : bool)
| fill_transfer_from_savings_operation (from to : string) (amount : asset) (request_id : Z) (memo : string)
| escrow_approved_operation (from to agent : string) (escrow_id : Z) (fee : asset)
| escrow_rejected_operation (from to agent : string) (escrow_id : Z) (hbd_amount hive_amount fee : asset)
| dhf_conversion_operation (treasury : string) (hive_amount_in hbd_amount_out : asset)
| fill_convert_request_operation (owner : string) (requestid : Z) (amount_in amount_out : asset)
| fill_collateralized_convert_request_operation (owner : string) (requestid : Z) (amount_in amount_out excess_collateral : asset)
| collateralized_convert_immediate_conversion_operation (owner : string) (requestid : Z) (hbd_out : asset)
| insufficient_collateral_warning (requestid : Z) (owner : string) (shortfall : asset)
| fill_recurrent_transfer_operation (from to : string) (amount : asset) (memo : string) (remaining : Z) (pair : Z)
| failed_recurrent_transfer_operation (from to : string) (amount : asset) (failures : Z) (memo : string) (remaining : Z)
    (deleted : bool) (pair : Z)
| proposal_fee_operation (creator treasury : string) (proposal_id : Z) (fee : asset)
| proposal_pay_operation (proposal_id : Z) (receiver payer : string) (payment : asset)
| dhf_funding_operation (treasury : string) (additional_funds : asset).

Record ledger : Set := mk_ledger {
  accounts : gmap string account;
  escrows : list escrow_object;
  withdrawals : list savings_withdraw_object;
  converts : list convert_request_object;
  collateralized : list collateralized_convert_request_object;
  recurrents : list recurrent_transfer_object;
  orders : list limit_order_object;
  funds : list reward_fund_object;
  next_id : Z;
  gpo : global_properties;
  feed : feed_history_object;
  last_hardfork : Z;
  vops : list ledger_vop
}.

Definition set_accounts x l := mk_ledger x (escrows l) (withdrawals l) (converts l) (collateralized l) (recurrents l) (orders l)
  (funds l) (next_id l) (gpo l) (feed l) (last_hardfork l) (vops l).
Definition set_escrows x l := mk_ledger (accounts l) x (withdrawals l) (converts l) (collateralized l) (recurrents l) (orders l)
  (funds l) (next_id l) (gpo l) (feed l) (last_hardfork l) (vops l).
Definition set_withdrawals x l := mk_ledger (accounts l) (escrows l) x (converts l) (collateralized l) (recurrents l) (orders l)
  (funds l) (next_id l) (gpo l) (feed l) (last_hardfork l) (vops l).
Definition set_converts x l := mk_ledger (accounts l) (escrows l) (withdrawals l) x (collateralized l) (recurrents l) (orders l)
  (funds l) (next_id l) (gpo l) (feed l) (last_hardfork l) (vops l).
Definition set_collateralized x l := mk_ledger (accounts l) (escrows l) (withdrawals l) (converts l) x (recurrents l) (orders l)
  (funds l) (next_id l) (gpo l) (feed l) (last_hardfork l) (vops l).
Definition set_recurrents x l := mk_ledger (accounts l) (escrows l) (withdrawals l) (converts l) (collateralized l) x (orders l)
  (funds l) (next_id l) (gpo l) (feed l) (last_hardfork l) (vops l).
Definition set_funds x l := mk_ledger (accounts l) (escrows l) (withdrawals l) (converts l) (collateralized l) (recurrents l) (orders l)
  x (next_id l) (gpo l) (feed l) (last_hardfork l) (vops l).
Definition set_next_id x l := mk_ledger (accounts l) (escrows l) (withdrawals l) (converts l) (collateralized l) (recurrents l) (orders l)
  (funds l) x (gpo l) (feed l) (last_hardfork l) (vops l).
Definition set_gpo x l := mk_ledger (accounts l) (escrows l) (withdrawals l) (converts l) (collateralized l) (recurrents l) (orders l)
  (funds l) (next_id l) x (feed l) (last_hardfork l) (vops l).
Definition push_vop v l := mk_ledger (accounts l) (escrows l) (withdrawals l) (converts l) (collateralized l) (recurrents l) (orders l)
  (funds l) (next_id l) (gpo l) (feed l) (last_hardfork l) (vops l ++ [v]).

Definition head_block_time (l : ledger) : Z := time (gpo l).
Definition get_hbd_price (l : ledger) : HBD_price := current_median_history (feed l).
Definition has_hardfork (n : Z) (l : ledger) : bool := n <=? last_hardfork l.

Definition get_account (name : string) (l : ledger) : result account :=
  match accounts l !! name with Some a => Ok a | None => Throw AssertFc end.
Definition put_account (name : string) (a : account) (l : ledger) : ledger := set_accounts (<[name := a]> (accounts l)) l.
(** [modify( account, f )] *)
Definition modify_account (name : string) (f : account -> account) (l : ledger) : result ledger :=
  a ← get_account name l; Ok (put_account name (f a) l).

(** The constructor [HIVE_asset( a )] or [HBD_asset( a )]. *)
Definition as_typed (c : asset_symbol_type) (a : asset) : result asset :=
  _ ← check (tiny_is_compatible (asset_num c) a) AssertAsset; Ok a.

Section ledger_ops.
Context `{L : FcLib}.

(** ** Issue, burn, convert *)

(** [hive * exchange_rate] and [hbd * exchange_rate] *)
Definition hive_at (a : asset) (rate : HBD_price) : result asset :=
  r ← tiny_mul_quote (mk_tiny (amount a)) rate; Ok (tiny_to_asset r).
Definition hbd_at (a : asset) (rate : HBD_price) : result asset :=
  r ← tiny_mul_base (mk_tiny (amount a)) rate; Ok (tiny_to_asset r).

(** [virtual_supply = current_hbd_supply * exchange_rate + current_supply] *)
Definition full_virtual_supply (rate : HBD_price) (hbd cur : asset) : result asset :=
  x ← hbd_at hbd rate; asset_add x cur.

Definition issue_HIVE (hive_amount : asset) (g : global_properties) : result (global_properties * balance) :=
  b ← issue_asset (balance_zero HIVE_SYMBOL) hive_amount;
  cur ← asset_add (current_supply g) hive_amount;
  virt ← asset_add (virtual_supply g) hive_amount;
  Ok (set_supplies cur (current_hbd_supply g) virt g, b).

Definition burn_HIVE (hive_balance : balance) (g : global_properties) : result (global_properties * balance) :=
  cur ← asset_sub (current_supply g) hive_balance;
  virt ← asset_sub (virtual_supply g) hive_balance;
  b ← burn_asset hive_balance hive_balance;
  Ok (set_supplies cur (current_hbd_supply g) virt g, b).

Definition issue_HBD (hbd_amount : asset) (rate : HBD_price) (full : bool) (g : global_properties) :
    result (global_properties * balance) :=
  b ← issue_asset (balance_zero HBD_SYMBOL) hbd_amount;
  hbd ← asset_add (current_hbd_supply g) hbd_amount;
  virt ← (if full then full_virtual_supply rate hbd (current_supply g)
          else x ← hbd_at hbd_amount rate; asset_add (virtual_supply g) x);
  Ok (set_supplies (current_supply g) hbd virt g, b).

Definition burn_HBD (hbd_balance : balance) (rate : HBD_price) (full : bool) (g : global_properties) :
    result (global_properties * balance) :=
  hbd ← asset_sub (current_hbd_supply g) hbd_balance;
  virt ← (if full then full_virtual_supply rate hbd (current_supply g)
          else x ← hbd_at hbd_balance rate; asset_sub (virtual_supply g) x);
  b ← burn_asset hbd_balance hbd_balance;
  Ok (set_supplies (current_supply g) hbd virt g, b).

(** The new properties, what is left of the HIVE and the HBD created. *)
Definition convert_HIVE_to_HBD (hive_balance : balance) (rate : HBD_price) (full : bool) (g : global_properties) :
    result (global_properties * balance * balance) :=
  hbd_amount ← hive_at hive_balance rate;
  b ← issue_asset (balance_zero HBD_SYMBOL) hbd_amount;
  hbd ← asset_add (current_hbd_supply g) hbd_amount;
  cur ← asset_sub (current_supply g) hive_balance;
  left ← burn_asset hive_balance hive_balance;
  virt ← (if full then full_virtual_supply rate hbd cur else Ok (virtual_supply g));
  Ok (set_supplies cur hbd virt g, left, b).

(** ** Balances of accounts *)

(** The overloads of [adjust_balance] for HIVE and HBD. *)
Definition adjust_typed (a : account_object) (temp : balance) (delta : asset) : result (account_object * balance) :=
  if sym_eqb (symbol temp) HIVE_SYMBOL then
    '(own, temp) ← adjust_one (hive_balance a) temp delta; Ok (set_hive_balance own a, temp)
  else
    '(own, temp) ← adjust_one (hbd_balance a) temp delta; Ok (set_hbd_balance own a, temp).

Definition adjust_liquid (name : string) (temp : balance) (delta : asset) (l : ledger) : result (ledger * balance) :=
  a ← get_account name l;
  '(own, temp) ← adjust_typed (liquid a) temp delta;
  Ok (put_account name (set_liquid own a) l, temp).

(** The overload for any symbol. *)
Definition adjust_any (name : string) (temp : balance) (delta : asset) (l : ledger) : result (ledger * balance) :=
  a ← get_account name l;
  '(own, temp) ← adjust_balance (liquid a) temp delta;
  Ok (put_account name (set_liquid own a) l, temp).

Definition get_balance (a : account) (s : asset_symbol_type) : result asset :=
  if asset_num s =? HIVE_ASSET_NUM_HIVE then Ok (hive_balance (liquid a))
  else _ ← check (asset_num s =? HIVE_ASSET_NUM_HBD) AssertFc; Ok (hbd_balance (liquid a)).

Definition get_savings_balance (a : account) (s : asset_symbol_type) : result asset :=
  if asset_num s =? HIVE_ASSET_NUM_HIVE then Ok (savings_hive_balance a)
  else _ ← check (asset_num s =? HIVE_ASSET_NUM_HBD) AssertFc; Ok (savings_hbd_balance a).

(** The interest due on savings is paid when the balance is touched, at most
    once in thirty days. *)
Definition pay_savings_interest (name : string) (l : ledger) : result ledger :=
  a ← get_account name l;
  let now := head_block_time l in
  if savings_hbd_seconds_last_update a =? now then Ok l
  else
    let due := HIVE_HBD_INTEREST_COMPOUND_INTERVAL_SEC <? now - savings_hbd_last_interest_payment a in
    let '(secs, interest) := evaluate_hbd_interest (savings_hbd_seconds a) now (amount (savings_hbd_balance a))
                               (savings_hbd_seconds_last_update a) (hbd_interest_rate (gpo l)) due in
    if (0 <? secs) && due then
      r ← uint128_to_uint64 interest;
      let interest_to_pay := mk_asset (share_of_u64 r) HBD_SYMBOL in
      '(g, temp) ← issue_HBD interest_to_pay (get_hbd_price l) false (gpo l);
      '(savings, temp) ← transfer_from_all (savings_hbd_balance a) temp;
      _ ← destroy_temp temp;
      let l := put_account name (set_savings_hbd savings (set_interest_clock 0 now now a)) (set_gpo g l) in
      Ok (if 0 <? interest then push_vop (interest_operation name interest_to_pay false) l else l)
    else Ok (put_account name (set_interest_clock secs now (savings_hbd_last_interest_payment a) a) l).

Definition adjust_savings_typed (name : string) (temp : balance) (delta : asset) (l : ledger) : result (ledger * balance) :=
  if sym_eqb (symbol temp) HIVE_SYMBOL then
    a ← get_account name l;
    '(own, temp) ← transfer_from (savings_hive_balance a) temp delta;
    Ok (put_account name (set_savings_hive own a) l, temp)
  else
    l ← pay_savings_interest name l;
    a ← get_account name l;
    '(own, temp) ← transfer_from (savings_hbd_balance a) temp delta;
    Ok (put_account name (set_savings_hbd own a) l, temp).

Definition adjust_savings_balance (name : string) (any : balance) (delta : asset) (l : ledger) : result (ledger * balance) :=
  c ← (if asset_num (symbol delta) =? HIVE_ASSET_NUM_HIVE then Ok HIVE_SYMBOL
       else _ ← check (asset_num (symbol delta) =? HIVE_ASSET_NUM_HBD) AssertFc; Ok HBD_SYMBOL);
  '(temp, any) ← transfer_from_all (balance_zero c) any;
  '(l, temp) ← adjust_savings_typed name temp delta l;
  '(temp, any) ← transfer_to_all temp any;
  _ ← destroy_temp temp;
  Ok (l, any).

Definition adjust_reward_balance (name : string) (temp : balance) (delta : asset) (l : ledger) : result (ledger * balance) :=
  a ← get_account name l;
  if sym_eqb (symbol temp) HIVE_SYMBOL then
    '(own, temp) ← transfer_from (reward_hive_balance a) temp delta;
    Ok (put_account name (set_rewards own (reward_hbd_balance a) a) l, temp)
  else
    '(own, temp) ← transfer_from (reward_hbd_balance a) temp delta;
    Ok (put_account name (set_rewards (reward_hive_balance a) own a) l, temp).

(** ** The chain's own check *)

(** [get_*_totals]: HIVE and HBD. *)
Definition add_to (c : asset_symbol_type) (total a : asset) : result asset :=
  if sym_eqb (symbol a) c then asset_add total a else Ok total.

Definition total_of {A} (c : asset_symbol_type) (amounts : A -> list asset) (total : asset) (xs : list A) : result asset :=
  foldM (fun t x => foldM (add_to c) t (amounts x)) total xs.

Definition account_amounts (a : account) : list asset :=
  [hive_balance (liquid a); savings_hive_balance a; reward_hive_balance a;
   hbd_balance (liquid a); savings_hbd_balance a; reward_hbd_balance a].
Definition escrow_amounts (e : escrow_object) : list asset := [escrow_hive e; escrow_hbd e; pending_fee e].

Definition get_convert_request_totals (c : asset_symbol_type) (total : asset) (l : ledger) : result asset :=
  total ← total_of c (fun x => [cr_amount x]) total (converts l);
  total_of c (fun x => [collateral_amount x]) total (collateralized l).
Definition get_limit_order_totals (c : asset_symbol_type) (total : asset) (l : ledger) : result asset :=
  total_of c (fun x => [for_sale x]) total (orders l).
Definition hive_or_hbd (a : asset) : bool := sym_eqb (symbol a) HIVE_SYMBOL || sym_eqb (symbol a) HBD_SYMBOL.
Definition get_escrow_totals (c : asset_symbol_type) (total : asset) (l : ledger) : result asset :=
  _ ← iterM (fun e => check (hive_or_hbd (pending_fee e)) AssertFc) (escrows l);
  total_of c escrow_amounts total (escrows l).
Definition get_savings_withdraw_totals (c : asset_symbol_type) (total : asset) (l : ledger) : result asset :=
  _ ← iterM (fun x => check (hive_or_hbd (swo_amount x)) AssertFc) (withdrawals l);
  total_of c (fun x => [swo_amount x]) total (withdrawals l).

(** What the objects of the chain hold of a currency. *)
Definition count_holdings (c : asset_symbol_type) (l : ledger) : result asset :=
  total ← total_of c account_amounts (balance_zero c) ((map_to_list (accounts l)).*2);
  total ← get_convert_request_totals c total l;
  total ← get_limit_order_totals c total l;
  total ← get_escrow_totals c total l;
  total ← get_savings_withdraw_totals c total l;
  total ← total_of c (fun x => [reward_balance x]) total (funds l);
  if sym_eqb c HIVE_SYMBOL then
    x ← asset_add (total_vesting_fund_hive (gpo l)) (pending_rewarded_vesting_hive (gpo l));
    asset_add total x
  else Ok total.

(** The part of [validate_invariants] on the supplies of HIVE and HBD; the checks
    of vesting shares and votes are left out. *)
Definition validate_supplies (l : ledger) : result unit :=
  total_supply ← count_holdings HIVE_SYMBOL l;
  total_hbd ← count_holdings HBD_SYMBOL l;
  let g := gpo l in
  _ ← check (asset_eqb (current_supply g) total_supply) AssertFc;
  _ ← check (asset_eqb (current_hbd_supply g) total_hbd) AssertFc;
  b ← asset_geb (virtual_supply g) (current_supply g);
  _ ← check b AssertFc;
  if tprice_is_null (get_hbd_price l) then Ok tt
  else
    v ← full_virtual_supply (get_hbd_price l) (current_hbd_supply g) (current_supply g);
    check (asset_eqb v (virtual_supply g)) AssertFc.

(** [calculate_HBD_percent]; the treasury's HBD does not count. *)
Definition NEW_HIVE_TREASURY_ACCOUNT : string := "pixa.omnibus".
Definition OBSOLETE_TREASURY_ACCOUNT : string := "steem.dao".
Definition is_treasury (name : string) : bool :=
  bool_decide (name = NEW_HIVE_TREASURY_ACCOUNT) || bool_decide (name = OBSOLETE_TREASURY_ACCOUNT).

Definition calculate_HBD_percent (l : ledger) : result Z :=
  let rate := get_hbd_price l in
  if tprice_is_null rate then Ok 0
  else
    treasury ← get_account NEW_HIVE_TREASURY_ACCOUNT l;
    hbd_supply ← asset_sub (current_hbd_supply (gpo l)) (hbd_balance (liquid treasury));
    let hbd_supply := if amount hbd_supply <? 0 then balance_zero HBD_SYMBOL else hbd_supply in
    as_hive ← hbd_at hbd_supply rate;
    virtual ← asset_add as_hive (current_supply (gpo l));
    let x := u128 (u128 (amount as_hive) * HIVE_100_PERCENT) in
    let x := u128 (x + Z.quot (amount virtual) 2) in
    q ← u128_div x (u128 (amount virtual));
    r ← uint128_to_uint64 q;
    Ok (u16 r).

Definition print_rate (g : global_properties) (percent_hbd : Z) : Z :=
  if hbd_stop_percent g <=? percent_hbd then 0
  else if percent_hbd <=? hbd_start_percent g then HIVE_100_PERCENT
  else u16 (Z.quot ((hbd_stop_percent g - percent_hbd) * HIVE_100_PERCENT) (hbd_stop_percent g - hbd_start_percent g)).

Definition update_virtual_supply (l : ledger) : result ledger :=
  let g := gpo l in
  let rate := get_hbd_price l in
  x ← (if tprice_is_null rate then Ok (balance_zero HIVE_SYMBOL) else hbd_at (current_hbd_supply g) rate);
  virt ← asset_add (current_supply g) x;
  let l := set_gpo (set_supplies (current_supply g) (current_hbd_supply g) virt g) l in
  if tprice_is_null rate then Ok l
  else
    percent ← calculate_HBD_percent l;
    Ok (set_gpo (set_print_rate (print_rate (gpo l) percent) (gpo l)) l).
End ledger_ops.

(** ** Holdings and supply *)

Definition acct_funds (c : asset_symbol_type) (a : account) : Z := sumZ (held_in c) (account_amounts a).
Definition escrow_funds (c : asset_symbol_type) (e : escrow_object) : Z := sumZ (held_in c) (escrow_amounts e).

(** All that is held of a currency, by any object. *)
Definition holdings (c : asset_symbol_type) (l : ledger) : Z :=
  sumM (acct_funds c) (accounts l) + sumZ (escrow_funds c) (escrows l) + sumZ (fun x => held_in c (swo_amount x)) (withdrawals l)
  + sumZ (fun x => held_in c (cr_amount x)) (converts l) + sumZ (fun x => held_in c (collateral_amount x)) (collateralized l)
  + sumZ (order_funds c) (orders l) + sumZ (fun x => held_in c (reward_balance x)) (funds l)
  + held_in c (total_vesting_fund_hive (gpo l)) + held_in c (pending_rewarded_vesting_hive (gpo l)).

Definition supply_of (c : asset_symbol_type) (g : global_properties) : Z :=
  held_in c (current_supply g) + held_in c (current_hbd_supply g).

(** What was issued and is held by no object: it is in a temporary balance. *)
Definition gap (c : asset_symbol_type) (l : ledger) : Z := supply_of c (gpo l) - holdings c l.

Definition typed (c : asset_symbol_type) (b : asset) : Prop := symbol b = c /\ funds_wf b.
Definition liquid_symbol (b : asset) : Prop := symbol b = HIVE_SYMBOL \/ symbol b = HBD_SYMBOL.

Definition acc_wf (a : account) : Prop :=
  account_wf (liquid a) /\ typed HIVE_SYMBOL (savings_hive_balance a) /\ typed HBD_SYMBOL (savings_hbd_balance a) /\
  typed HIVE_SYMBOL (reward_hive_balance a) /\ typed HBD_SYMBOL (reward_hbd_balance a).
Definition escrow_wf (e : escrow_object) : Prop :=
  typed HBD_SYMBOL (escrow_hbd e) /\ typed HIVE_SYMBOL (escrow_hive e) /\ funds_wf (pending_fee e) /\ liquid_symbol (pending_fee e).
Definition withdraw_wf (x : savings_withdraw_object) : Prop := funds_wf (swo_amount x) /\ liquid_symbol (swo_amount x).
Definition gpo_wf (g : global_properties) : Prop :=
  typed HIVE_SYMBOL (current_supply g) /\ typed HBD_SYMBOL (current_hbd_supply g) /\
  symbol (virtual_supply g) = HIVE_SYMBOL /\ asset_wf (virtual_supply g) /\
  typed HIVE_SYMBOL (total_vesting_fund_hive g) /\ typed HIVE_SYMBOL (pending_rewarded_vesting_hive g).

Definition same_vesting (g g' : global_properties) : Prop :=
  total_vesting_fund_hive g = total_vesting_fund_hive g' /\ pending_rewarded_vesting_hive g = pending_rewarded_vesting_hive g'.

Record ledger_wf (l : ledger) : Prop := {
  lw_accounts : map_Forall (fun _ a => acc_wf a) (accounts l);
  lw_escrows : Forall escrow_wf (escrows l);
  lw_withdrawals : Forall withdraw_wf (withdrawals l);
  lw_converts : Forall (fun x => typed HBD_SYMBOL (cr_amount x)) (converts l);
  lw_collateral : Forall (fun x => typed HIVE_SYMBOL (collateral_amount x) /\ typed HBD_SYMBOL (converted_amount x)) (collateralized l);
  lw_orders : Forall order_wf (orders l);
  lw_funds : Forall (fun x => typed HIVE_SYMBOL (reward_balance x)) (funds l);
  lw_eids : NoDup (eid <$> escrows l);
  lw_sids : NoDup (sid <$> withdrawals l);
  lw_cids : NoDup (cid <$> converts l);
  lw_ccids : NoDup (ccid <$> collateralized l);
  lw_oids : NoDup (id <$> orders l);
  lw_next : Forall (fun i => i < next_id l)
              ((eid <$> escrows l) ++ (sid <$> withdrawals l) ++ (cid <$> converts l) ++ (ccid <$> collateralized l) ++ (id <$> orders l));
  lw_gpo : gpo_wf (gpo l)
}.

Section movements.
Context `{L : FcLib} `{!FcLaws L}.

Lemma typed_wf c b : typed c b -> asset_wf b.
Proof. intros [_ H]. by apply funds_wf_s64. Qed.
Lemma typed_self c b : typed c b -> typed (symbol b) b.
Proof. intros [_ H]. by split. Qed.
Lemma balance_zero_typed c : typed c (balance_zero c).
Proof. split; [done|]. unfold funds_wf. cbn. lia. Qed.
Lemma held_zero c x : held_in c (balance_zero x) = 0.
Proof. unfold held_in. cbn. by destruct (sym_eqb _ _). Qed.
Lemma destroy_temp_Ok b u : destroy_temp b = Ok u -> forall c, held_in c b = 0.
Proof. unfold destroy_temp, is_empty. intros H c. apply check_Ok in H. to_prop. unfold held_in. rewrite H. by destruct (sym_eqb _ _). Qed.
Hint Resolve typed_wf balance_zero_typed funds_wf_s64 : pixa.

(** [transfer_from] keeps the sum of the two balances. *)
Lemma transfer_from_typed c this source delta this' source' :
  typed c this -> typed (symbol source) source -> asset_wf delta -> transfer_from this source delta = Ok (this', source') ->
  symbol delta = c /\ symbol source = c /\ typed c this' /\ typed c source' /\
  (forall d, held_in d this' + held_in d source' = held_in d this + held_in d source) /\
  amount this' = amount this + amount delta /\ amount source' = amount source - amount delta.
Proof.
  intros [S1 F1] [_ F2] Hd H. apply transfer_from_Ok in H as (E1 & E2 & -> & -> & W1 & W2); auto using funds_wf_s64.
  assert (forall d, held_in d (mk_asset (amount this + amount delta) (symbol this)) + held_in d (mk_asset (amount source - amount delta) (symbol source))
    = held_in d this + held_in d source) by (intros d; unfold held_in; cbn; rewrite E1, E2; destruct (sym_eqb _ _); lia).
  split_and!; try done; try congruence; split; cbn; congruence || done.
Qed.

Lemma transfer_to_typed c this dest delta this' dest' :
  typed c this -> typed (symbol dest) dest -> asset_wf delta -> transfer_to this dest delta = Ok (this', dest') ->
  symbol delta = c /\ symbol dest = c /\ typed c this' /\ typed c dest' /\
  (forall d, held_in d this' + held_in d dest' = held_in d this + held_in d dest) /\
  amount this' = amount this - amount delta /\ amount dest' = amount dest + amount delta.
Proof.
  intros [S1 F1] [_ F2] Hd H. apply transfer_to_Ok in H as (E1 & E2 & -> & -> & W1 & W2); auto using funds_wf_s64.
  assert (forall d, held_in d (mk_asset (amount this - amount delta) (symbol this)) + held_in d (mk_asset (amount dest + amount delta) (symbol dest))
    = held_in d this + held_in d dest) by (intros d; unfold held_in; cbn; rewrite E1, E2; destruct (sym_eqb _ _); lia).
  split_and!; try done; try congruence; split; cbn; congruence || done.
Qed.

(** ** Changes of one part of the ledger *)

Lemma put_account_Ok name a a' l : ledger_wf l -> accounts l !! name = Some a -> acc_wf a' ->
  ledger_wf (put_account name a' l) /\ forall c, gap c (put_account name a' l) = gap c l + acct_funds c a - acct_funds c a'.
Proof.
  intros W Ha Wa'. split.
  - destruct W. constructor; try done. by apply map_Forall_insert_2.
  - intros c. unfold gap, holdings, put_account. cbn [set_accounts accounts escrows withdrawals converts collateralized orders funds gpo].
    rewrite (sumM_update _ _ _ a) by done. lia.
Qed.

Lemma get_account_Ok name l a : ledger_wf l -> get_account name l = Ok a -> accounts l !! name = Some a /\ acc_wf a.
Proof.
  intros W. unfold get_account. destruct (accounts l !! name) eqn:E; [|done]. intros [= ->]. split; [done|]. by apply (lw_accounts _ W name).
Qed.

Lemma acct_funds_eq c a : acct_funds c a = account_funds c (liquid a) + held_in c (savings_hive_balance a) + held_in c (savings_hbd_balance a)
  + held_in c (reward_hive_balance a) + held_in c (reward_hbd_balance a).
Proof. unfold acct_funds, account_amounts, sumZ, account_funds. cbn [foldr]. lia. Qed.

Lemma set_gpo_Ok g l : ledger_wf l -> gpo_wf g -> same_vesting g (gpo l) ->
  ledger_wf (set_gpo g l) /\ forall c, gap c (set_gpo g l) = gap c l + supply_of c g - supply_of c (gpo l).
Proof.
  intros W Wg [E1 E2]. split; [destruct W; by constructor|]. intros c. unfold gap, holdings.
  cbn [set_gpo accounts escrows withdrawals converts collateralized orders funds gpo]. rewrite E1, E2. lia.
Qed.

Lemma push_vop_Ok v l : ledger_wf l -> ledger_wf (push_vop v l) /\ forall c, gap c (push_vop v l) = gap c l.
Proof. intros W. split; [destruct W; by constructor|done]. Qed.

(** ** The primitives *)

Definition counters (a : account) : Z * Z * Z := (pending_escrow_transfers a, savings_withdraw_requests a, open_recurrent_transfers a).

(** What movements of funds of accounts leave alone. *)
Record frame (l l' : ledger) : Prop := {
  fr_counters : counters <$> accounts l' = counters <$> accounts l;
  fr_escrows : escrows l' = escrows l;
  fr_withdrawals : withdrawals l' = withdrawals l;
  fr_converts : converts l' = converts l;
  fr_collateralized : collateralized l' = collateralized l;
  fr_recurrents : recurrents l' = recurrents l;
  fr_orders : orders l' = orders l;
  fr_next : next_id l' = next_id l;
  fr_feed : feed l' = feed l;
  fr_time : time (gpo l') = time (gpo l);
  fr_hardfork : last_hardfork l' = last_hardfork l
}.

#[global] Instance frame_preorder : PreOrder frame.
Proof.
  split; [by constructor|]. intros l1 l2 l3 [] []. constructor; congruence.
Qed.

Lemma put_account_frame name a a' l : accounts l !! name = Some a -> counters a' = counters a -> frame l (put_account name a' l).
Proof.
  intros Ha Hc. constructor; try done. cbn. rewrite fmap_insert, Hc. apply insert_id. by rewrite lookup_fmap, Ha.
Qed.

Lemma frame_account l l' name a : frame l l' -> accounts l !! name = Some a -> exists a', accounts l' !! name = Some a' /\ counters a' = counters a.
Proof.
  intros F Ha. pose proof (f_equal (fun m => m !! name) (fr_counters _ _ F)) as H. rewrite !lookup_fmap, Ha in H.
  destruct (accounts l' !! name) as [a'|]; [|done]. injection H as H. exists a'. split; [done|]. unfold counters. congruence.
Qed.

(** A movement between the ledger and a temporary balance: what leaves one
    arrives in the other. *)
Record moved (l : ledger) (t : balance) (l' : ledger) (t' : balance) : Prop := {
  mv_wf : ledger_wf l';
  mv_temp : typed (symbol t) t';
  mv_frame : frame l l';
  mv_gap c : gap c l' = gap c l + held_in c t' - held_in c t
}.

Lemma adjust_typed_Ok a temp delta a' temp' : account_wf a -> funds_wf temp -> asset_wf delta -> liquid_symbol temp ->
  adjust_typed a temp delta = Ok (a', temp') ->
  account_wf a' /\ typed (symbol temp) temp' /\ symbol temp = symbol delta /\ amount temp' = amount temp - amount delta /\
  forall c, account_funds c a' + held_in c temp' = account_funds c a + held_in c temp.
Proof.
  intros (S1 & S2 & B1 & B2) Ft Hd Hs H. unfold adjust_typed in H.
  assert (asset_wf (hive_balance a)) by (apply funds_wf_s64; exact B1). assert (asset_wf (hbd_balance a)) by (apply funds_wf_s64; exact B2).
  destruct (sym_eqb (symbol temp) HIVE_SYMBOL) eqn:E; apply bind_Ok in H as ([own t] & H & Heq); injection Heq as <- <-;
    apply adjust_one_Ok in H as (E1 & E2 & -> & -> & F1 & F2); auto using funds_wf_s64.
  - split; [apply set_hive_wf; [done|by cbn|done]|]. split; [by split|]. split; [done|]. split; [done|].
    intros c. unfold account_funds, held_in. cbn. rewrite E1, E2. destruct (sym_eqb (symbol delta) c); lia.
  - split; [apply set_hbd_wf; [done|by cbn|done]|]. split; [by split|]. split; [done|]. split; [done|].
    intros c. unfold account_funds, held_in. cbn. rewrite E1, E2. destruct (sym_eqb (symbol delta) c); lia.
Qed.

Lemma adjust_liquid_Ok name temp delta l l' temp' : ledger_wf l -> funds_wf temp -> asset_wf delta -> liquid_symbol temp ->
  adjust_liquid name temp delta l = Ok (l', temp') ->
  moved l temp l' temp' /\ symbol temp = symbol delta /\ amount temp' = amount temp - amount delta.
Proof.
  intros W Ft Hd Hs H. unfold adjust_liquid in H. apply bind_Ok in H as (a & Ha & H). apply get_account_Ok in Ha as [Ha Wa]; [|done].
  apply bind_Ok in H as ([own t] & H & H1). injection H1 as <- <-. destruct Wa as (W0 & W1 & W2 & W3 & W4).
  apply adjust_typed_Ok in H as (Wo & Tt & Es & Ea & Hf); auto.
  destruct (put_account_Ok name a (set_liquid own a) l) as [W' G]; [done|done|unfold acc_wf; cbn; tauto|].
  split; [constructor; [done|done|by eapply put_account_frame|]|done]. intros c. rewrite G, !acct_funds_eq. cbn. specialize (Hf c). lia.
Qed.

Lemma adjust_any_Ok name temp delta l l' temp' : ledger_wf l -> funds_wf temp -> asset_wf delta ->
  adjust_any name temp delta l = Ok (l', temp') ->
  moved l temp l' temp' /\ symbol temp = symbol delta /\ amount temp' = amount temp - amount delta.
Proof.
  intros W Ft Hd H. unfold adjust_any in H. apply bind_Ok in H as (a & Ha & H). apply get_account_Ok in Ha as [Ha Wa]; [|done].
  apply bind_Ok in H as ([own t] & H & H1). injection H1 as <- <-. destruct Wa as (W0 & W1 & W2 & W3 & W4).
  apply adjust_balance_Ok in H as (Wo & Ft' & Es & Es' & Ea & Hf); auto using funds_wf_s64.
  destruct (put_account_Ok name a (set_liquid own a) l) as [W' G]; [done|done|unfold acc_wf; cbn; tauto|].
  split; [constructor; [done|by split|by eapply put_account_frame|]|done]. intros c. rewrite G, !acct_funds_eq. cbn. specialize (Hf c). lia.
Qed.

(** *** Issue, burn, convert *)

Lemma mul_div_share_wf v m d r : mul_div_share v m d = Ok r -> in_s 64 r.
Proof.
  unfold mul_div_share, signed_share. intros H. result_inv. apply uint128_to_uint64_range in H0.
  rewrite share_of_u64_narrow; [apply swrap_range; lia|]. destruct (v <? 0); [apply uwrap_range; lia|done].
Qed.

Lemma hbd_at_Ok a rate r : hbd_at a rate = Ok r -> symbol r = HIVE_SYMBOL /\ asset_wf r.
Proof.
  unfold hbd_at, tiny_mul_base. intros H. result_inv. split; [done|]. unfold asset_wf. cbn. by eapply mul_div_share_wf.
Qed.

Lemma hive_at_Ok a rate r : hive_at a rate = Ok r -> symbol r = HBD_SYMBOL /\ asset_wf r.
Proof.
  unfold hive_at, tiny_mul_quote. intros H. result_inv. split; [done|]. unfold asset_wf. cbn. by eapply mul_div_share_wf.
Qed.

Lemma full_virtual_supply_Ok rate hbd cur v : typed HIVE_SYMBOL cur -> full_virtual_supply rate hbd cur = Ok v ->
  symbol v = HIVE_SYMBOL /\ asset_wf v.
Proof.
  intros Hc H. unfold full_virtual_supply in H. apply bind_Ok in H as (x & Hx & H). apply hbd_at_Ok in Hx as [S1 W1].
  apply asset_add_Ok in H as (_ & -> & W); [by split|done|by apply (typed_wf HIVE_SYMBOL)].
Qed.

(** The part of the new virtual supply that is added or recomputed. *)
Lemma virtual_Ok (full : bool) f rate a hbd cur v0 v : typed HIVE_SYMBOL cur -> symbol v0 = HIVE_SYMBOL -> asset_wf v0 ->
  (forall x y, asset_wf x -> asset_wf y -> forall z, f x y = Ok z -> symbol x = symbol z /\ asset_wf z) ->
  (if full then full_virtual_supply rate hbd cur else hbd_at a rate ≫= fun x => f v0 x) = Ok v ->
  symbol v = HIVE_SYMBOL /\ asset_wf v.
Proof.
  intros Hc S0 W0 Hf H. destruct full; [by eapply full_virtual_supply_Ok|].
  apply bind_Ok in H as (x & Hx & H). apply hbd_at_Ok in Hx as [S1 W1]. destruct (Hf _ _ W0 W1 _ H). split; congruence.
Qed.

Lemma issue_asset_Ok c a b : symbol a = c -> asset_wf a -> issue_asset (balance_zero c) a = Ok b -> b = a /\ typed c b.
Proof.
  intros Hs Ha H. unfold issue_asset in H. apply check_bind_Ok in H as [Hpos H]. to_prop. apply asset_add_Ok in H as (E & -> & W); [|apply (typed_wf c), balance_zero_typed|done].
  destruct a as [x s]. cbn in *. subst. split; [done|]. split; [done|]. unfold funds_wf, asset_wf, in_s in *. cbn in *. lia.
Qed.

Lemma burn_asset_Ok c b b' : typed c b -> burn_asset b b = Ok b' -> b' = balance_zero c.
Proof.
  intros [Hs Hf] H. unfold burn_asset in H. apply check_bind_Ok in H as [_ H]. apply bind_Ok in H as (x0 & H0 & H). apply check_bind_Ok in H as [_ H].
  injection H as <-. apply asset_sub_Ok in H0 as (E & -> & W); auto using funds_wf_s64.
  destruct b as [x s]. cbn in *. subst. unfold balance_zero. f_equal. lia.
Qed.

Lemma supply_add c a b r : typed c a -> typed c b -> asset_add a b = Ok r -> typed c r /\ forall d, held_in d r = held_in d a + held_in d b.
Proof.
  intros [S1 F1] [S2 F2] H. apply asset_add_Ok in H as (E & -> & W); auto using funds_wf_s64.
  unfold typed, funds_wf, asset_wf, in_s in *. cbn in *. split; [split; [done|lia]|].
  intros d. unfold held_in. cbn. rewrite S1, S2. destruct (sym_eqb _ _); lia.
Qed.

Lemma supply_sub c a b r : typed c a -> typed c b -> amount b <= amount a -> asset_sub a b = Ok r ->
  typed c r /\ forall d, held_in d r = held_in d a - held_in d b.
Proof.
  intros [S1 F1] [S2 F2] Hle H. apply asset_sub_Ok in H as (E & -> & W); auto using funds_wf_s64.
  unfold typed, funds_wf, asset_wf, in_s in *. cbn in *. split; [split; [done|lia]|].
  intros d. unfold held_in. cbn. rewrite S1, S2. destruct (sym_eqb _ _); lia.
Qed.

(** The counters after an issue of [b]. *)
Record issued (g g' : global_properties) (delta : asset_symbol_type -> Z) : Prop := {
  is_wf : gpo_wf g';
  is_vesting : same_vesting g' g;
  is_time : time g' = time g;
  is_supply c : supply_of c g' = supply_of c g + delta c
}.

Lemma set_issued l g' delta : ledger_wf l -> issued (gpo l) g' delta ->
  ledger_wf (set_gpo g' l) /\ forall c, gap c (set_gpo g' l) = gap c l + delta c.
Proof. intros W [H1 H2 Ht H3]. destruct (set_gpo_Ok g' l W H1 H2) as [W' G]. split; [done|]. intros c. rewrite G, H3. lia. Qed.

Lemma issue_HBD_Ok a rate full g g' b : gpo_wf g -> symbol a = HBD_SYMBOL -> asset_wf a -> issue_HBD a rate full g = Ok (g', b) ->
  issued g g' (fun c => held_in c b) /\ typed HBD_SYMBOL b /\ b = a.
Proof.
  intros (W1 & W2 & W3 & W4 & W5 & W6) Hs Ha H. unfold issue_HBD in H. apply bind_Ok in H as (b0 & Hb & H).
  apply issue_asset_Ok in Hb as [-> Tb]; auto. apply bind_Ok in H as (hbd & Hh & H). apply supply_add with (c := HBD_SYMBOL) in Hh as [Th Hh]; auto.
  apply bind_Ok in H as (virt & Hv & H). injection H as <- <-.
  apply virtual_Ok in Hv as [V1 V2]; auto; [|intros x y Hx Hy z Hz; apply asset_add_Ok in Hz as (? & -> & ?); auto].
  split; [|done]. constructor; [by repeat (split; [done|])|done|done|]. intros c. unfold supply_of. cbn [set_supplies current_supply current_hbd_supply]. rewrite Hh. lia.
Qed.

Lemma issue_HIVE_Ok a g g' b : gpo_wf g -> symbol a = HIVE_SYMBOL -> asset_wf a -> issue_HIVE a g = Ok (g', b) ->
  issued g g' (fun c => held_in c b) /\ typed HIVE_SYMBOL b /\ b = a.
Proof.
  intros (W1 & W2 & W3 & W4 & W5 & W6) Hs Ha H. unfold issue_HIVE in H. apply bind_Ok in H as (b0 & Hb & H).
  apply issue_asset_Ok in Hb as [-> Tb]; auto. apply bind_Ok in H as (cur & Hh & H). apply supply_add with (c := HIVE_SYMBOL) in Hh as [Th Hh]; auto.
  apply bind_Ok in H as (virt & Hv & H). injection H as <- <-. apply asset_add_Ok in Hv as (E & -> & V2); auto.
  split; [|done]. constructor; [by repeat (split; [done|])|done|done|]. intros c. unfold supply_of. cbn [set_supplies current_supply current_hbd_supply]. rewrite Hh. lia.
Qed.

(** Burning more than the counter says would make it negative; the counter
    covers what is held. *)
Lemma burn_HIVE_Ok b g g' b' : gpo_wf g -> typed HIVE_SYMBOL b -> amount b <= amount (current_supply g) -> burn_HIVE b g = Ok (g', b') ->
  issued g g' (fun c => - held_in c b) /\ b' = balance_zero HIVE_SYMBOL.
Proof.
  intros (W1 & W2 & W3 & W4 & W5 & W6) Hb Hle H. unfold burn_HIVE in H. apply bind_Ok in H as (cur & Hh & H).
  apply supply_sub with (c := HIVE_SYMBOL) in Hh as [Th Hh]; auto. apply bind_Ok in H as (virt & Hv & H).
  apply asset_sub_Ok in Hv as (E & -> & V2); [|done|by apply (typed_wf HIVE_SYMBOL)].
  apply bind_Ok in H as (b0 & H0 & H). injection H as <- <-. apply burn_asset_Ok with (c := HIVE_SYMBOL) in H0; [|done].
  split; [|done]. constructor; [by repeat (split; [done|])|done|done|]. intros c. unfold supply_of. cbn [set_supplies current_supply current_hbd_supply]. rewrite Hh. lia.
Qed.

Lemma burn_HBD_Ok b rate full g g' b' : gpo_wf g -> typed HBD_SYMBOL b -> amount b <= amount (current_hbd_supply g) ->
  burn_HBD b rate full g = Ok (g', b') -> issued g g' (fun c => - held_in c b) /\ b' = balance_zero HBD_SYMBOL.
Proof.
  intros (W1 & W2 & W3 & W4 & W5 & W6) Hb Hle H. unfold burn_HBD in H. apply bind_Ok in H as (hbd & Hh & H).
  apply supply_sub with (c := HBD_SYMBOL) in Hh as [Th Hh]; auto. apply bind_Ok in H as (virt & Hv & H).
  apply virtual_Ok in Hv as [V1 V2]; auto; [|intros x y Hx Hy z Hz; apply asset_sub_Ok in Hz as (? & -> & ?); auto].
  apply bind_Ok in H as (b0 & H0 & H). injection H as <- <-. apply burn_asset_Ok with (c := HBD_SYMBOL) in H0; [|done].
  split; [|done]. constructor; [by repeat (split; [done|])|done|done|]. intros c. unfold supply_of. cbn [set_supplies current_supply current_hbd_supply]. rewrite Hh. lia.
Qed.

Lemma convert_HIVE_to_HBD_Ok b rate full g g' left hbd : gpo_wf g -> typed HIVE_SYMBOL b -> amount b <= amount (current_supply g) ->
  convert_HIVE_to_HBD b rate full g = Ok (g', left, hbd) ->
  issued g g' (fun c => held_in c hbd - held_in c b) /\ left = balance_zero HIVE_SYMBOL /\ typed HBD_SYMBOL hbd /\ hive_at b rate = Ok hbd.
Proof.
  intros (W1 & W2 & W3 & W4 & W5 & W6) Hb Hle H. unfold convert_HIVE_to_HBD in H. apply bind_Ok in H as (x & Hx & H).
  pose proof (hive_at_Ok _ _ _ Hx) as [Sx Wx]. apply bind_Ok in H as (b0 & Hb0 & H). apply issue_asset_Ok in Hb0 as [-> Tb]; auto.
  apply bind_Ok in H as (hs & Hhs & H). apply supply_add with (c := HBD_SYMBOL) in Hhs as [Th Hh]; auto.
  apply bind_Ok in H as (cur & Hc & H). apply supply_sub with (c := HIVE_SYMBOL) in Hc as [Tc Hc]; auto.
  apply bind_Ok in H as (b1 & H1 & H). apply burn_asset_Ok with (c := HIVE_SYMBOL) in H1; [|done].
  apply bind_Ok in H as (virt & Hv & H). injection H as <- <- <-.
  assert (symbol virt = HIVE_SYMBOL /\ asset_wf virt) as [V1 V2].
  { destruct full; [by eapply full_virtual_supply_Ok|by injection Hv as <-]. }
  split; [|done]. constructor; [by repeat (split; [done|])|done|done|]. intros c. unfold supply_of. cbn [set_supplies current_supply current_hbd_supply]. rewrite Hh, Hc. lia.
Qed.

(** *** Nothing is negative *)

Lemma held_nonneg c b : funds_wf b -> 0 <= held_in c b.
Proof. intros [H _]. unfold held_in. destruct (sym_eqb _ _); [done|lia]. Qed.

Lemma acct_funds_nonneg c a : acc_wf a -> 0 <= acct_funds c a.
Proof.
  intros ((S1 & S2 & B1 & B2) & [_ W1] & [_ W2] & [_ W3] & [_ W4]). rewrite acct_funds_eq. unfold account_funds.
  pose proof (held_nonneg c (hive_balance (liquid a)) B1). pose proof (held_nonneg c (hbd_balance (liquid a)) B2).
  pose proof (held_nonneg c _ W1). pose proof (held_nonneg c _ W2). pose proof (held_nonneg c _ W3). pose proof (held_nonneg c _ W4). lia.
Qed.

Lemma escrow_funds_eq c e : escrow_funds c e = held_in c (escrow_hive e) + held_in c (escrow_hbd e) + held_in c (pending_fee e).
Proof. unfold escrow_funds, escrow_amounts, sumZ. cbn [foldr]. lia. Qed.

Lemma sumZ_nonneg_on {A} (P : A -> Prop) (f : A -> Z) l : (forall x, P x -> 0 <= f x) -> Forall P l -> 0 <= sumZ f l.
Proof. intros Hf HP. apply sumZ_nonneg. eapply Forall_impl; [exact HP|]. done. Qed.

Lemma holdings_nonneg c l : ledger_wf l -> 0 <= holdings c l.
Proof.
  intros W. unfold holdings.
  assert (0 <= sumM (acct_funds c) (accounts l)).
  { apply sumM_nonneg. intros k a Ha. apply acct_funds_nonneg. by apply (lw_accounts _ W k). }
  assert (0 <= sumZ (escrow_funds c) (escrows l)).
  { eapply sumZ_nonneg_on; [|apply (lw_escrows _ W)]. intros e ([_ F1] & [_ F2] & F3 & _). rewrite escrow_funds_eq.
    pose proof (held_nonneg c _ F1). pose proof (held_nonneg c _ F2). pose proof (held_nonneg c _ F3). lia. }
  assert (0 <= sumZ (fun x => held_in c (swo_amount x)) (withdrawals l)) by
    (eapply sumZ_nonneg_on; [|apply (lw_withdrawals _ W)]; intros x [Hx _]; by apply held_nonneg).
  assert (0 <= sumZ (fun x => held_in c (cr_amount x)) (converts l)) by
    (eapply sumZ_nonneg_on; [|apply (lw_converts _ W)]; intros x [_ Hx]; by apply held_nonneg).
  assert (0 <= sumZ (fun x => held_in c (collateral_amount x)) (collateralized l)) by
    (eapply sumZ_nonneg_on; [|apply (lw_collateral _ W)]; intros x [[_ Hx] _]; by apply held_nonneg).
  assert (0 <= sumZ (order_funds c) (orders l)) by
    (eapply sumZ_nonneg_on; [|apply (lw_orders _ W)]; intros x [Hx _]; by apply held_nonneg).
  assert (0 <= sumZ (fun x => held_in c (reward_balance x)) (funds l)) by
    (eapply sumZ_nonneg_on; [|apply (lw_funds _ W)]; intros x [_ Hx]; by apply held_nonneg).
  destruct (lw_gpo _ W) as (_ & _ & _ & _ & [_ V1] & [_ V2]).
  pose proof (held_nonneg c _ V1). pose proof (held_nonneg c _ V2). lia.
Qed.

Lemma supply_HIVE g : gpo_wf g -> supply_of HIVE_SYMBOL g = amount (current_supply g).
Proof.
  intros ([S1 _] & [S2 _] & _). unfold supply_of, held_in. rewrite S1, S2.
  change (sym_eqb HIVE_SYMBOL HIVE_SYMBOL) with true. change (sym_eqb HBD_SYMBOL HIVE_SYMBOL) with false. cbv iota. lia.
Qed.
Lemma supply_HBD g : gpo_wf g -> supply_of HBD_SYMBOL g = amount (current_hbd_supply g).
Proof.
  intros ([S1 _] & [S2 _] & _). unfold supply_of, held_in. rewrite S1, S2.
  change (sym_eqb HIVE_SYMBOL HBD_SYMBOL) with false. change (sym_eqb HBD_SYMBOL HBD_SYMBOL) with true. cbv iota. lia.
Qed.

(** What is in a temporary balance is covered by the supply. *)
Lemma temp_covered c b l : ledger_wf l -> typed c b -> held_in c b <= gap c l -> amount b <= supply_of c (gpo l).
Proof.
  intros W [S F] H. unfold gap in H. pose proof (holdings_nonneg c l W). rewrite held_in_same in H by done. lia.
Qed.

(** *** Savings and rewards *)

Lemma interest_share r (x : Z) : uint128_to_uint64 r = Ok x -> asset_wf (mk_asset (share_of_u64 x) HBD_SYMBOL).
Proof. intros H. apply uint128_to_uint64_range in H. unfold asset_wf. cbn. rewrite share_of_u64_narrow by done. apply swrap_range. lia. Qed.

(** Interest is issued and credited at once: the counters and the holdings grow
    together. *)
Lemma pay_savings_interest_Ok name l l' : ledger_wf l -> pay_savings_interest name l = Ok l' ->
  ledger_wf l' /\ (forall c, gap c l' = gap c l) /\ frame l l'.
Proof.
  intros W H. unfold pay_savings_interest in H. apply bind_Ok in H as (a & Ha & H). apply get_account_Ok in Ha as [Ha Wa]; [|done].
  pose proof Wa as (W0 & W1 & W2 & W3 & W4). destruct (_ =? _); [by injection H as <-|].
  destruct (evaluate_hbd_interest _ _ _ _ _ _) as [secs interest]. destruct (_ && _) eqn:Ed.
  - apply bind_Ok in H as (r & Hr & H). apply interest_share in Hr.
    apply bind_Ok in H as ([g temp] & Hi & H). apply issue_HBD_Ok in Hi as (Is & Tt & _); [|apply W|done|done].
    apply bind_Ok in H as ([savings temp'] & Ht & H). apply bind_Ok in H as (u & Hz & H).
    apply transfer_from_typed with (c := HBD_SYMBOL) in Ht as (_ & _ & Ts & Tt' & Hf & _); [|done|by eapply typed_self|by apply (typed_wf HBD_SYMBOL)].
    pose proof (destroy_temp_Ok _ _ Hz) as Hz'. injection H as <-.
    destruct (set_issued l g _ W Is) as [Wg Gg].
    set (a' := set_savings_hbd savings (set_interest_clock 0 (head_block_time l) (head_block_time l) a)).
    destruct (put_account_Ok name a a' (set_gpo g l)) as [W' G]; [done|done|unfold acc_wf; cbn; tauto|].
    assert (forall c, gap c (put_account name a' (set_gpo g l)) = gap c l) as Hg.
    { intros c. rewrite G, Gg, !acct_funds_eq. cbn. specialize (Hf c). specialize (Hz' c). lia. }
    assert (frame l (put_account name a' (set_gpo g l))) as Hd.
    { transitivity (set_gpo g l); [constructor; try done; apply Is|]. by eapply put_account_frame. }
    destruct (0 <? interest); [|done]. set (l1 := put_account _ _ _) in *. clearbody l1.
    destruct (push_vop_Ok (interest_operation name {| amount := share_of_u64 r; symbol := HBD_SYMBOL |} false) _ W') as [W'' G''].
    split; [exact W''|]. split; [intros c; by rewrite G''|]. transitivity l1; [exact Hd|by constructor].
  - injection H as <-. set (a' := set_interest_clock _ _ _ a). destruct (put_account_Ok name a a' l) as [W' G]; [done|done|unfold acc_wf; cbn; tauto|].
    split; [done|]. split; [intros c; rewrite G, !acct_funds_eq; cbn; lia|]. by eapply put_account_frame.
Qed.

Lemma adjust_savings_typed_Ok name temp delta l l' temp' : ledger_wf l -> funds_wf temp -> asset_wf delta -> liquid_symbol temp ->
  adjust_savings_typed name temp delta l = Ok (l', temp') ->
  moved l temp l' temp' /\ symbol temp = symbol delta /\ amount temp' = amount temp - amount delta.
Proof.
  intros W Ft Hd Hs H. unfold adjust_savings_typed in H. destruct (sym_eqb (symbol temp) HIVE_SYMBOL) eqn:E.
  - apply bind_Ok in H as (a & Ha & H). apply get_account_Ok in Ha as [Ha Wa]; [|done]. pose proof Wa as (W0 & W1 & W2 & W3 & W4).
    apply bind_Ok in H as ([own t] & H & Heq). injection Heq as <- <-.
    apply transfer_from_typed with (c := HIVE_SYMBOL) in H as (E1 & E2 & T1 & T2 & Hf & _ & Ea); [|done|by split|done].
    destruct (put_account_Ok name a (set_savings_hive own a) l) as [W' G]; [done|done|unfold acc_wf; cbn; tauto|].
    split; [|split; congruence]. constructor; [done|by rewrite E2|by eapply put_account_frame|]. intros c. rewrite G, !acct_funds_eq. cbn. specialize (Hf c). lia.
  - apply bind_Ok in H as (l1 & Hi & H). apply pay_savings_interest_Ok in Hi as (Wl1 & G1 & Fr); [|done].
    apply bind_Ok in H as (a & Ha & H). apply get_account_Ok in Ha as [Ha Wa]; [|done]. pose proof Wa as (W0 & W1 & W2 & W3 & W4).
    apply bind_Ok in H as ([own t] & H & Heq). injection Heq as <- <-.
    apply transfer_from_typed with (c := HBD_SYMBOL) in H as (E1 & E2 & T1 & T2 & Hf & _ & Ea); [|done|by split|done].
    destruct (put_account_Ok name a (set_savings_hbd own a) l1) as [W' G]; [done|done|unfold acc_wf; cbn; tauto|].
    split; [|split; congruence]. constructor; [done|by rewrite E2|etransitivity; [exact Fr|by eapply put_account_frame]|]. intros c. rewrite G, G1, !acct_funds_eq. cbn. specialize (Hf c). lia.
Qed.

Lemma adjust_savings_balance_Ok name any delta l l' any' : ledger_wf l -> funds_wf any -> asset_wf delta ->
  adjust_savings_balance name any delta l = Ok (l', any') ->
  moved l any l' any' /\ symbol any = symbol delta /\ amount any' = amount any - amount delta.
Proof.
  intros W Ft Hd H. unfold adjust_savings_balance in H. apply bind_Ok in H as (c & Hc & H).
  assert (c = HIVE_SYMBOL \/ c = HBD_SYMBOL) as Hcc.
  { destruct (_ =? HIVE_ASSET_NUM_HIVE); [injection Hc as <-; by left|]. apply check_bind_Ok in Hc as [_ Hc]. injection Hc as <-. by right. }
  apply bind_Ok in H as ([t1 any1] & H1 & H). apply bind_Ok in H as ([l1 t2] & H2 & H). apply bind_Ok in H as ([t3 any2] & H3 & H).
  apply bind_Ok in H as (u & Hz & H). injection H as <- <-. pose proof (destroy_temp_Ok _ _ Hz) as Hz'.
  apply transfer_from_typed with (c := c) in H1 as (_ & S1 & T1 & T2 & Hf1 & A1 & A1'); [|apply balance_zero_typed|by split|by apply funds_wf_s64].
  pose proof T1 as [S1' F1]. apply adjust_savings_typed_Ok in H2 as ([Wl Tt Fr Gl] & S2 & A2); [|done|done|done|unfold liquid_symbol; rewrite S1'; done].
  rewrite S1' in Tt. apply transfer_to_typed with (c := c) in H3 as (_ & S3 & T3 & T4 & Hf3 & A3 & A3'); [|done|by eapply typed_self|by apply (typed_wf c)].
  split; [constructor; [done|by rewrite S1|done|]|].
  - intros d. rewrite Gl. specialize (Hf1 d). specialize (Hf3 d). specialize (Hz' d). rewrite held_zero in Hf1. lia.
  - split; [congruence|]. destruct any; cbn in *. lia.
Qed.

Lemma adjust_reward_balance_Ok name temp delta l l' temp' : ledger_wf l -> funds_wf temp -> asset_wf delta -> liquid_symbol temp ->
  adjust_reward_balance name temp delta l = Ok (l', temp') ->
  moved l temp l' temp' /\ symbol temp = symbol delta /\ amount temp' = amount temp - amount delta.
Proof.
  intros W Ft Hd Hs H. unfold adjust_reward_balance in H. apply bind_Ok in H as (a & Ha & H). apply get_account_Ok in Ha as [Ha Wa]; [|done].
  pose proof Wa as (W0 & W1 & W2 & W3 & W4).
  destruct (sym_eqb (symbol temp) HIVE_SYMBOL) eqn:E; apply bind_Ok in H as ([own t] & H & Heq); injection Heq as <- <-.
  - apply transfer_from_typed with (c := HIVE_SYMBOL) in H as (E1 & E2 & T1 & T2 & Hf & _ & Ea); [|done|by split|done].
    destruct (put_account_Ok name a (set_rewards own (reward_hbd_balance a) a) l) as [W' G]; [done|done|unfold acc_wf; cbn; tauto|].
    split; [|split; congruence]. constructor; [done|by rewrite E2|by eapply put_account_frame|]. intros c. rewrite G, !acct_funds_eq. cbn. specialize (Hf c). lia.
  - apply transfer_from_typed with (c := HBD_SYMBOL) in H as (E1 & E2 & T1 & T2 & Hf & _ & Ea); [|done|by split|done].
    destruct (put_account_Ok name a (set_rewards (reward_hive_balance a) own a) l) as [W' G]; [done|done|unfold acc_wf; cbn; tauto|].
    split; [|split; congruence]. constructor; [done|by rewrite E2|by eapply put_account_frame|]. intros c. rewrite G, !acct_funds_eq. cbn. specialize (Hf c). lia.
Qed.

(** ** The check passes *)

Definition sum_amounts (c : asset_symbol_type) (l : list asset) : Z := sumZ (held_in c) l.

Lemma add_to_Ok c t a : typed c t -> funds_wf a -> amount t + held_in c a < 2 ^ 63 ->
  add_to c t a = Ok (mk_asset (amount t + held_in c a) c).
Proof.
  intros [S F] Fa Hb. unfold add_to, held_in in *. destruct (sym_eqb (symbol a) c) eqn:E.
  - apply sym_eqb_spec in E. rewrite asset_add_same; auto using funds_wf_s64; [by rewrite S|congruence|]. unfold in_s, funds_wf in *. lia.
  - rewrite Z.add_0_r. destruct t as [x s]. cbn in *. by subst.
Qed.

Lemma fold_amounts_Ok c l t : typed c t -> Forall funds_wf l -> amount t + sum_amounts c l < 2 ^ 63 ->
  foldM (add_to c) t l = Ok (mk_asset (amount t + sum_amounts c l) c) /\ typed c (mk_asset (amount t + sum_amounts c l) c).
Proof.
  unfold sum_amounts. revert t. induction l as [|a l IH]; intros t [S F] Hl Hb; cbn [foldM].
  - unfold sumZ in *. cbn [foldr] in *. rewrite Z.add_0_r. destruct t as [x s]. cbn in *. subst. done.
  - inversion_clear Hl as [|? ? Ha Hl']. rewrite sumZ_cons in *. pose proof (held_nonneg c a Ha).
    assert (0 <= sumZ (held_in c) l) by (eapply sumZ_nonneg_on; [|exact Hl']; intros; by apply held_nonneg).
    unfold funds_wf in F. rewrite add_to_Ok; [|by split|done|lia].
    destruct (IH (mk_asset (amount t + held_in c a) c)) as [E T]; [split; [done|unfold funds_wf; cbn; lia]|done|cbn; lia|].
    cbn in E, T. rewrite Z.add_assoc. done.
Qed.

Lemma total_of_flat {A} c (f : A -> list asset) xs t : total_of c f t xs = foldM (add_to c) t (xs ≫= f).
Proof.
  revert t. unfold total_of. induction xs as [|x xs IH]; intros t; [done|]. cbn [foldM mbind list_bind]. rewrite foldM_app.
  destruct (foldM (add_to c) t (f x)); [apply IH|done].
Qed.

Lemma sum_flat {A} c (f : A -> list asset) xs : sum_amounts c (xs ≫= f) = sumZ (fun x => sum_amounts c (f x)) xs.
Proof.
  unfold sum_amounts. induction xs as [|x xs IH]; [done|]. cbn [mbind list_bind]. rewrite sumZ_app, sumZ_cons. by rewrite <- IH.
Qed.

Lemma sum_app c l1 l2 : sum_amounts c (l1 ++ l2) = sum_amounts c l1 + sum_amounts c l2.
Proof. apply sumZ_app. Qed.

Lemma flat_Forall {A} (P : A -> Prop) (f : A -> list asset) xs : Forall P xs -> (forall x, P x -> Forall funds_wf (f x)) -> Forall funds_wf (xs ≫= f).
Proof. intros HP Hf. apply Forall_bind. eapply Forall_impl; [exact HP|exact Hf]. Qed.

Lemma sum_one {A} c (g : A -> asset) xs : sumZ (fun x => sum_amounts c [g x]) xs = sumZ (fun x => held_in c (g x)) xs.
Proof. induction xs as [|x xs IH]; [done|]. rewrite !sumZ_cons, IH. unfold sum_amounts, sumZ. cbn. lia. Qed.

Lemma map_sum (f : account -> Z) (m : gmap string account) : sumZ f ((map_to_list m).*2) = sumM f m.
Proof.
  induction m as [|k a m Hk IH] using map_ind; [by unfold sumM; rewrite map_to_list_empty, map_fold_empty|].
  rewrite sumM_insert_new by done. rewrite <- IH, map_to_list_insert by done. done.
Qed.

(** Every amount of HIVE and HBD the chain counts, the vesting funds apart. *)
Definition all_amounts (l : ledger) : list asset :=
  ((map_to_list (accounts l)).*2 ≫= account_amounts) ++ (converts l ≫= fun x => [cr_amount x])
  ++ (collateralized l ≫= fun x => [collateral_amount x]) ++ (orders l ≫= fun x => [for_sale x])
  ++ (escrows l ≫= escrow_amounts) ++ (withdrawals l ≫= fun x => [swo_amount x]) ++ (funds l ≫= fun x => [reward_balance x]).

Lemma holdings_amounts c l : holdings c l = sum_amounts c (all_amounts l)
  + held_in c (total_vesting_fund_hive (gpo l)) + held_in c (pending_rewarded_vesting_hive (gpo l)).
Proof.
  unfold all_amounts. rewrite !sum_app, !sum_flat, !sum_one. unfold holdings. rewrite <- map_sum. unfold acct_funds, escrow_funds, order_funds, sum_amounts. lia.
Qed.

Lemma all_amounts_wf l : ledger_wf l -> Forall funds_wf (all_amounts l).
Proof.
  intros W. unfold all_amounts. rewrite !Forall_app. split_and!.
  - apply (flat_Forall acc_wf).
    + apply Forall_fmap, Forall_forall. intros [k a] Hka. apply elem_of_map_to_list in Hka. by apply (lw_accounts _ W k).
    + intros a ((_ & _ & B1 & B2) & [_ ?] & [_ ?] & [_ ?] & [_ ?]). unfold account_amounts. rewrite !Forall_cons. by split_and!.
  - eapply flat_Forall; [apply (lw_converts _ W)|]. intros x [_ ?]. by apply Forall_singleton.
  - eapply flat_Forall; [apply (lw_collateral _ W)|]. intros x [[_ ?] _]. by apply Forall_singleton.
  - eapply flat_Forall; [apply (lw_orders _ W)|]. intros x [? _]. by apply Forall_singleton.
  - eapply flat_Forall; [apply (lw_escrows _ W)|]. intros x ([_ ?] & [_ ?] & ? & _). unfold escrow_amounts. rewrite !Forall_cons. by split_and!.
  - eapply flat_Forall; [apply (lw_withdrawals _ W)|]. intros x [? _]. by apply Forall_singleton.
  - eapply flat_Forall; [apply (lw_funds _ W)|]. intros x [_ ?]. by apply Forall_singleton.
Qed.

Lemma hive_or_hbd_true a : liquid_symbol a -> hive_or_hbd a = true.
Proof. unfold hive_or_hbd. intros [->| ->]; rewrite ?sym_eqb_refl, ?orb_true_r; done. Qed.

Lemma liquid_checks {A} (g : A -> asset) (xs : list A) : Forall (fun x => liquid_symbol (g x)) xs ->
  iterM (fun x => check (hive_or_hbd (g x)) AssertFc) xs = Ok tt.
Proof. intros H. apply iterM_Ok. eapply Forall_impl; [exact H|]. intros x Hx. cbn. by rewrite hive_or_hbd_true. Qed.

Lemma count_flat c l : ledger_wf l -> count_holdings c l =
  foldM (add_to c) (balance_zero c) (all_amounts l) ≫= fun total =>
    if sym_eqb c HIVE_SYMBOL then x ← asset_add (total_vesting_fund_hive (gpo l)) (pending_rewarded_vesting_hive (gpo l)); asset_add total x
    else Ok total.
Proof.
  intros W. unfold count_holdings, get_convert_request_totals, get_limit_order_totals, get_escrow_totals, get_savings_withdraw_totals.
  rewrite (liquid_checks pending_fee) by (eapply Forall_impl; [apply (lw_escrows _ W)|]; by intros e (_ & _ & _ & ?)).
  rewrite (liquid_checks swo_amount) by (eapply Forall_impl; [apply (lw_withdrawals _ W)|]; by intros e [_ ?]).
  unfold all_amounts. rewrite !foldM_app, !total_of_flat. cbn [mbind result_bind].
  repeat (rewrite ?total_of_flat, ?foldM_app; match goal with |- context[foldM (add_to c) ?t ?xs] => destruct (foldM (add_to c) t xs); cbn [mbind result_bind]; try done end).
Qed.

(** The chain's count of a currency is what is held of it. *)
Lemma count_holdings_Ok c l : ledger_wf l -> c = HIVE_SYMBOL \/ c = HBD_SYMBOL -> holdings c l < 2 ^ 63 ->
  count_holdings c l = Ok (mk_asset (holdings c l) c).
Proof.
  intros W Hc Hb. destruct (lw_gpo _ W) as (_ & _ & _ & _ & [SV1 FV1] & [SV2 FV2]). rewrite count_flat by done.
  pose proof (held_nonneg c _ FV1) as N1. pose proof (held_nonneg c _ FV2) as N2. rewrite holdings_amounts in *.
  destruct (fold_amounts_Ok c (all_amounts l) (balance_zero c) (balance_zero_typed c) (all_amounts_wf l W)) as [-> T]; [cbn; lia|].
  cbn [mbind result_bind amount balance_zero] in *. rewrite Z.add_0_l in *.
  assert (0 <= sum_amounts c (all_amounts l)) by (eapply sumZ_nonneg_on; [|by apply all_amounts_wf]; intros; by apply held_nonneg).
  destruct Hc as [-> | ->].
  - change (sym_eqb HIVE_SYMBOL HIVE_SYMBOL) with true. cbv iota. rewrite !(held_in_same HIVE_SYMBOL) in * by done.
    unfold funds_wf in *.
    rewrite asset_add_same; [|unfold asset_wf, in_s; lia|unfold asset_wf, in_s; lia|congruence|unfold in_s; lia]. cbn [mbind result_bind].
    rewrite asset_add_same; [|unfold asset_wf, in_s; cbn; lia|unfold asset_wf, in_s; cbn; lia|cbn; congruence|unfold in_s; cbn; lia].
    cbn [amount symbol]. f_equal. f_equal. lia.
  - change (sym_eqb HBD_SYMBOL HIVE_SYMBOL) with false. cbv iota. f_equal. f_equal.
    unfold held_in. rewrite SV1, SV2. change (sym_eqb HIVE_SYMBOL HBD_SYMBOL) with false. cbv iota. lia.
Qed.

(** A price feed under which the debt in HBD is a 63-bit amount of HIVE. *)
Definition debt_fits (l : ledger) : Prop :=
  tprice_is_null (get_hbd_price l) = true \/
  (pos_amount (tamount (tbase (get_hbd_price l))) /\ pos_amount (tamount (tquote (get_hbd_price l))) /\
   amount (current_hbd_supply (gpo l)) * tamount (tquote (get_hbd_price l)) / tamount (tbase (get_hbd_price l))
   + amount (current_supply (gpo l)) < 2 ^ 63).

Lemma hbd_at_value a rate : funds_wf a -> pos_amount (tamount (tbase rate)) -> pos_amount (tamount (tquote rate)) ->
  amount a * tamount (tquote rate) / tamount (tbase rate) < 2 ^ 63 ->
  hbd_at a rate = Ok (mk_asset (amount a * tamount (tquote rate) / tamount (tbase rate)) HIVE_SYMBOL).
Proof.
  intros Fa Hb Hq Hlt. pose proof Hb as Hb'. pose proof Hq as Hq'. unfold pos_amount, funds_wf in Fa, Hb', Hq'. unfold hbd_at, tiny_mul_base.
  rewrite (proj2 (Z.ltb_lt 0 _)) by lia. cbn [check mbind result_bind tamount].
  rewrite mul_div_share_exact; [|unfold in_s; lia|unfold int64_min; lia|done|done|rewrite Z.abs_eq by lia; done].
  cbn. by rewrite Z.quot_div_nonneg by nia.
Qed.

(** The virtual supply is what [validate_invariants] expects after its update. *)
Lemma update_virtual_supply_Ok l l' : ledger_wf l -> debt_fits l -> update_virtual_supply l = Ok l' ->
  let x := if tprice_is_null (get_hbd_price l) then 0
           else amount (current_hbd_supply (gpo l)) * tamount (tquote (get_hbd_price l)) / tamount (tbase (get_hbd_price l)) in
  0 <= x /\ amount (current_supply (gpo l)) + x < 2 ^ 63 /\
  virtual_supply (gpo l') = mk_asset (amount (current_supply (gpo l)) + x) HIVE_SYMBOL /\
  (exists r, gpo l' = set_print_rate r (set_supplies (current_supply (gpo l)) (current_hbd_supply (gpo l)) (virtual_supply (gpo l')) (gpo l))) /\
  l' = set_gpo (gpo l') l.
Proof.
  intros W Hd H. destruct (lw_gpo _ W) as ([S1 F1] & [S2 F2] & _). unfold update_virtual_supply in H. cbv zeta.
  destruct (tprice_is_null (get_hbd_price l)) eqn:En.
  - cbn [mbind result_bind] in H. apply bind_Ok in H as (v & Hv & H). injection H as <-.
    rewrite asset_add_same in Hv; [|by apply funds_wf_s64|apply (typed_wf HIVE_SYMBOL), balance_zero_typed|done|unfold in_s, funds_wf in *; cbn; lia].
    injection Hv as <-. unfold funds_wf in F1. cbn. split; [lia|]. split; [lia|]. split; [by rewrite S1|]. split; [|done].
    exists (hbd_print_rate (gpo l)). by destruct (gpo l).
  - destruct Hd as [?|(Hb & Hq & Hlt)]; [congruence|].
    assert (0 <= amount (current_hbd_supply (gpo l)) * tamount (tquote (get_hbd_price l)) / tamount (tbase (get_hbd_price l))).
    { unfold pos_amount, funds_wf in *. apply Z.div_pos; nia. }
    assert (funds_wf (current_supply (gpo l))) as F1' by done. unfold funds_wf in F1'.
    rewrite hbd_at_value in H by (done || lia). cbn [mbind result_bind] in H. apply bind_Ok in H as (v & Hv & H).
    rewrite asset_add_same in Hv; [|by apply funds_wf_s64|unfold asset_wf, in_s; cbn; lia|done|unfold in_s; cbn; lia]. injection Hv as <-. cbn [amount] in H.
    apply bind_Ok in H as (p & Hp & H). injection H as <-. split; [done|]. split; [lia|]. cbn. split; [by rewrite S1|].
    split; [|by destruct l]. eexists. by rewrite S1.
Qed.

(** Nothing of the two currencies is outside of the objects. *)
Definition accounted (l : ledger) : Prop := gap HIVE_SYMBOL l = 0 /\ gap HBD_SYMBOL l = 0.

(** The chain's own check never fails on account of the books. *)
Lemma validate_supplies_Ok (l l' : ledger) :
  ledger_wf l -> accounted l -> debt_fits l -> update_virtual_supply l = Ok l' -> validate_supplies l' = Ok tt.
Proof.
  intros W G Hd H. destruct (update_virtual_supply_Ok l l' W Hd H) as (Hx & Hfit & Hv & (r & Hg) & Hl). cbv zeta in *.
  destruct (lw_gpo _ W) as ([S1 F1] & [S2 F2] & Hrest). destruct G as [GH GD]. unfold gap in GH, GD.
  rewrite supply_HIVE in GH by apply W. rewrite supply_HBD in GD by apply W. unfold funds_wf in *.
  assert (forall c, count_holdings c l' = count_holdings c l) as Hc by (intros c; rewrite Hl, Hg; by destruct l as [? ? ? ? ? ? ? ? ? []]).
  assert (current_supply (gpo l') = current_supply (gpo l) /\ current_hbd_supply (gpo l') = current_hbd_supply (gpo l) /\
    get_hbd_price l' = get_hbd_price l) as (E1 & E2 & E3) by (rewrite Hl; cbn [gpo set_gpo]; rewrite Hg; done).
  unfold validate_supplies. rewrite !Hc, E1, E2, E3, Hv.
  rewrite !count_holdings_Ok by (first [done | by left | by right | lia]). cbn [mbind result_bind].
  assert (asset_eqb (current_supply (gpo l)) (mk_asset (holdings HIVE_SYMBOL l) HIVE_SYMBOL) = true) as ->
    by (unfold asset_eqb; cbn; rewrite S1, sym_eqb_refl; apply andb_true_iff; split; [done|]; apply Z.eqb_eq; lia).
  assert (asset_eqb (current_hbd_supply (gpo l)) (mk_asset (holdings HBD_SYMBOL l) HBD_SYMBOL) = true) as ->
    by (unfold asset_eqb; cbn; rewrite S2, sym_eqb_refl; apply andb_true_iff; split; [done|]; apply Z.eqb_eq; lia).
  cbn [check mbind result_bind]. unfold asset_geb, asset_cmp. cbn [symbol amount]. rewrite S1, sym_eqb_refl. cbn [check mbind result_bind].
  rewrite Z.geb_leb, (proj2 (Z.leb_le _ _)) by lia. cbn [check mbind result_bind].
  destruct (tprice_is_null (get_hbd_price l)) eqn:En; [done|]. destruct Hd as [?|(Hb & Hq & _)]; [congruence|].
  unfold full_virtual_supply. rewrite hbd_at_value by (done || lia). cbn [mbind result_bind].
  rewrite asset_add_same; [|unfold asset_wf, in_s; cbn; lia|unfold asset_wf, in_s; lia|done|unfold in_s; cbn; lia]. cbn [mbind result_bind amount symbol].
  unfold asset_eqb. cbn [symbol amount]. rewrite sym_eqb_refl. rewrite (proj2 (Z.eqb_eq _ _)) by lia. done.
Qed.
End movements.
