(* ===== verification/Transfers.v ===== *)
(** * Transfers

    What the evaluators of libraries/chain/hive_evaluator_transfer.cpp that move
    liquid funds have in common: the loops over an index, the withdrawals from
    and deposits to an account through a temporary balance, and the transfer of
    HIVE and HBD itself.  The parameters of an evaluator are the fields of its
    operation.  The transfer of vesting shares by the restricted accounts is in
    Vesting.v.  The second half has the bookkeeping all the components on
    the ledger keep ([books]: well-formed objects and exact counters) and the
    lemmas on loops that consume an index. *)

From stdpp Require Import base numbers strings option list sorting gmap.
From S2P Require Import Prelude Fc Config AssetSymbol Asset Balance Market Ledger.
Open Scope Z_scope.

Section transfers.
Context `{L : FcLib}.

(** [while( ( x = next() ) ) body( x )]; [None] when the fuel is not enough. *)
Fixpoint drain {S X} (next : S -> option X) (body : X -> S -> result S) (fuel : nat) (s : S) : option (result S) :=
  match next s with
  | None => Some (Ok s)
  | Some x =>
      match fuel with
      | O => None
      | S fuel => match body x s with Ok s => drain next body fuel s | Throw e => Some (Throw e) end
      end
  end.

(** The first element of an index if it satisfies the condition of the loop. *)
Definition first_if {A} (p : A -> bool) (idx : list A) : option A :=
  match idx with x :: _ => if p x then Some x else None | [] => None end.

Fixpoint take_while {A} (p : A -> bool) (l : list A) : list A :=
  match l with x :: l => if p x then x :: take_while p l else [] | [] => [] end.

(** [create] of an object: its id is the next one. *)
Definition fresh (l : ledger) : Z * ledger := (next_id l, set_next_id (next_id l + 1) l).

Definition is_pixa_ico (n : string) : bool := bool_decide (n = PIXA_ICO_ACCOUNT) || bool_decide (n = PIXA_TEAM_ACCOUNT).

Definition assert_not_pixa_ico (n : string) : result unit := check (negb (is_pixa_ico n)) AssertFc.

Definition validate_price_feed_available (p : HBD_price) : result unit := check (negb (tprice_is_null p)) AssertState.

(** [adjust_balance( name, temp, -amount )] *)
Definition withdraw_liquid (name : string) (c : asset_symbol_type) (amount : asset) (l : ledger) : result (ledger * balance) :=
  neg ← asset_neg amount; adjust_liquid name (balance_zero c) neg l.

Definition withdraw_any (name : string) (amount : asset) (l : ledger) : result (ledger * balance) :=
  neg ← asset_neg amount; adjust_any name (balance_zero (symbol amount)) neg l.

(** [adjust_balance( name, temp, temp.as_asset() )], after which [temp] ends. *)
Definition deposit_liquid (name : string) (temp : balance) (l : ledger) : result ledger :=
  '(l, temp) ← adjust_liquid name temp temp l; _ ← destroy_temp temp; Ok l.

Definition deposit_any (name : string) (temp : balance) (l : ledger) : result ledger :=
  '(l, temp) ← adjust_any name temp temp l; _ ← destroy_temp temp; Ok l.

(** [transfer_evaluator] for HIVE and HBD; HIVE sent to the treasury is converted. *)
Definition transfer (from_name to_name : string) (a : asset) (l : ledger) : result ledger :=
  _ ← check (negb (is_pixa_ico from_name && negb (sym_eqb (symbol a) VESTS_SYMBOL))) AssertFc;
  if sym_eqb (symbol a) HIVE_SYMBOL && is_treasury to_name then
    let exchange_rate := get_hbd_price l in
    _ ← validate_price_feed_available exchange_rate;
    amount_to_transfer ← hive_at a exchange_rate;
    '(l, hive_balance) ← withdraw_liquid from_name HIVE_SYMBOL a l;
    '(g, hive_balance, converted) ← convert_HIVE_to_HBD hive_balance exchange_rate (0 <? amount amount_to_transfer) (gpo l);
    l ← deposit_liquid to_name converted (set_gpo g l);
    _ ← destroy_temp hive_balance;
    Ok (push_vop (dhf_conversion_operation to_name a amount_to_transfer) l)
  else
    _ ← check (sym_eqb (symbol a) HBD_SYMBOL || negb (is_treasury to_name)) AssertTreasury;
    '(l, transfer) ← withdraw_any from_name a l;
    '(l, transfer) ← adjust_any to_name transfer a l;
    _ ← destroy_temp transfer;
    Ok l.
End transfers.

Section transfers_conservation.
Context `{L : FcLib} `{!FcLaws L}.

(** How many of the objects belong to an account. *)
Definition cnt {A} (f : A -> string) (name : string) (xs : list A) : Z := sumZ (fun x => if bool_decide (f x = name) then 1 else 0) xs.

(** A counter of the accounts is exact and below its limit. *)
Definition count_ok (get : account -> Z) (count : string -> Z) (max : Z) (m : gmap string account) : Prop :=
  forall name a, m !! name = Some a -> get a = count name /\ get a <= max.

Definition counters_ok (l : ledger) : Prop :=
  count_ok pending_escrow_transfers (fun n => cnt from n (escrows l)) HIVE_MAX_PENDING_TRANSFERS (accounts l) /\
  count_ok savings_withdraw_requests (fun n => cnt swo_from n (withdrawals l)) HIVE_SAVINGS_WITHDRAW_REQUEST_LIMIT (accounts l) /\
  count_ok open_recurrent_transfers (fun n => cnt rt_from n (recurrents l)) HIVE_MAX_OPEN_RECURRENT_TRANSFERS (accounts l).

Record books (l : ledger) : Prop := {
  bk_wf : ledger_wf l;
  bk_counters : counters_ok l;
  bk_rids : NoDup (rid <$> recurrents l);
  bk_rnext : Forall (fun r => rid r < next_id l) (recurrents l);
  bk_amounts : Forall (fun r => funds_wf (rt_amount r) /\ 0 < remaining_executions r) (recurrents l)
}.

Lemma cnt_nonneg {A} (f : A -> string) n xs : 0 <= cnt f n xs.
Proof. apply sumZ_nonneg, Forall_forall. intros x _. by destruct (bool_decide _). Qed.

Lemma cnt_app {A} (f : A -> string) n xs x : cnt f n (xs ++ [x]) = cnt f n xs + (if bool_decide (n = f x) then 1 else 0).
Proof.
  unfold cnt. rewrite sumZ_app. unfold sumZ at 2. cbn.
  rewrite (bool_decide_ext (f x = n) (n = f x)) by (split; congruence). lia.
Qed.

Lemma cnt_del {A} (key : A -> Z) (f : A -> string) n xs x : NoDup (key <$> xs) -> x ∈ xs ->
  cnt f n (del key (key x) xs) = cnt f n xs + (if bool_decide (n = f x) then -1 else 0) /\ (n = f x -> 1 <= cnt f n xs).
Proof.
  intros Hn Hx. unfold cnt. rewrite sumZ_del by done. rewrite (bool_decide_ext (f x = n) (n = f x)) by (split; congruence).
  split; [destruct (bool_decide _); lia|]. intros ->. pose proof (cnt_nonneg f (f x) (del key (key x) xs)) as Hc.
  unfold cnt in Hc. rewrite sumZ_del in Hc by done. rewrite bool_decide_true in Hc by done. lia.
Qed.

Lemma cnt_upd_at {A} (key : A -> Z) (f : A -> string) n xs i g : (forall x, x ∈ xs -> key x = i -> f (g x) = f x) ->
  cnt f n (upd key i g xs) = cnt f n xs.
Proof.
  intros Hg. unfold cnt, upd. induction xs as [|x xs IH]; [done|]. cbn [fmap list_fmap]. rewrite !sumZ_cons, IH by (intros; apply Hg; [by right|done]).
  destruct (Z.eqb_spec (key x) i) as [E|E]; [|done]. rewrite Hg; [done|by left|done].
Qed.

Lemma cnt_upd {A} (key : A -> Z) (f : A -> string) n xs i g : (forall x, f (g x) = f x) -> cnt f n (upd key i g xs) = cnt f n xs.
Proof. intros Hg. apply cnt_upd_at. auto. Qed.

Lemma count_ok_ext get count count' max m : (forall n, count n = count' n) -> count_ok get count max m -> count_ok get count' max m.
Proof. intros He H name a Ha. rewrite <- He. by apply H. Qed.

Lemma count_ok_put get count max m name a a' : m !! name = Some a -> get a' = get a ->
  count_ok get count max m -> count_ok get count max (<[name := a']> m).
Proof.
  intros Ha Hg H n x. destruct (decide (n = name)) as [->|Hne].
  - rewrite lookup_insert_eq. intros [= <-]. rewrite Hg. by apply H.
  - rewrite lookup_insert_ne by congruence. apply H.
Qed.

Lemma count_ok_add get count count' max m name a a' d : m !! name = Some a -> get a' = get a + d -> get a' <= max ->
  (forall n, count' n = count n + (if bool_decide (n = name) then d else 0)) ->
  count_ok get count max m -> count_ok get count' max (<[name := a']> m).
Proof.
  intros Ha Hg Hm Hc H n x. rewrite Hc. destruct (decide (n = name)) as [->|Hne].
  - rewrite lookup_insert_eq, bool_decide_true by done. intros [= <-]. split; [|done]. rewrite Hg. destruct (H _ _ Ha). lia.
  - rewrite lookup_insert_ne, bool_decide_false by congruence. intros Hx. destruct (H _ _ Hx). lia.
Qed.

Lemma count_ok_frame get (pick : Z * Z * Z -> Z) count max m m' : (forall a, get a = pick (counters a)) ->
  counters <$> m' = counters <$> m -> count_ok get count max m -> count_ok get count max m'.
Proof.
  intros Hp Hf H name a Ha. pose proof (f_equal (fun m => m !! name) Hf) as E. rewrite !lookup_fmap, Ha in E.
  destruct (m !! name) as [a0|] eqn:E0; [|done]. injection E as E. rewrite Hp.
  assert (counters a = counters a0) as -> by (unfold counters; congruence). rewrite <- Hp. by apply H.
Qed.

Lemma frame_counters l l' : frame l l' -> counters_ok l -> counters_ok l'.
Proof.
  intros F (H1 & H2 & H3). unfold counters_ok. rewrite (fr_escrows _ _ F), (fr_withdrawals _ _ F), (fr_recurrents _ _ F). split_and!.
  - eapply (count_ok_frame _ (fun k => k.1.1)); [done|apply F|done].
  - eapply (count_ok_frame _ (fun k => k.1.2)); [done|apply F|done].
  - eapply (count_ok_frame _ (fun k => k.2)); [done|apply F|done].
Qed.

Lemma frame_books l l' : books l -> frame l l' -> ledger_wf l' -> books l'.
Proof.
  intros B F W. destruct B. constructor; [done|by eapply frame_counters|by rewrite (fr_recurrents _ _ F)|
    by rewrite (fr_recurrents _ _ F), (fr_next _ _ F)|by rewrite (fr_recurrents _ _ F)].
Qed.

Lemma ids_below l : ledger_wf l ->
  Forall (fun i => i < next_id l) (eid <$> escrows l) /\ Forall (fun i => i < next_id l) (sid <$> withdrawals l) /\
  Forall (fun i => i < next_id l) (cid <$> converts l) /\ Forall (fun i => i < next_id l) (ccid <$> collateralized l) /\
  Forall (fun i => i < next_id l) (id <$> orders l).
Proof. intros W. pose proof (lw_next _ W) as H. rewrite !Forall_app in H. tauto. Qed.

(** A fresh id is above all others. *)
Lemma fresh_Ok l : ledger_wf l -> ledger_wf (set_next_id (next_id l + 1) l) /\ forall c, gap c (set_next_id (next_id l + 1) l) = gap c l.
Proof.
  intros W. split; [|done]. destruct W. constructor; try done. cbn. eapply Forall_impl; [exact lw_next|]. cbn. lia.
Qed.

Lemma snoc_NoDup {A} (key : A -> Z) xs x n : NoDup (key <$> xs) -> Forall (fun i => i < n) (key <$> xs) -> key x = n ->
  NoDup (key <$> (xs ++ [x])) /\ Forall (fun i => i < n + 1) (key <$> (xs ++ [x])).
Proof.
  intros Hn Hb Hk. rewrite fmap_app. cbn. split.
  - apply NoDup_app. split_and!; [done| |apply NoDup_singleton]. intros y Hy Hx. apply list_elem_of_singleton in Hx as ->.
    apply (proj1 (Forall_forall _ _) Hb) in Hy. lia.
  - apply Forall_app. split; [eapply Forall_impl; [exact Hb|]; cbn; lia|]. apply Forall_singleton. lia.
Qed.

Lemma funds_neg_Ok a n : funds_wf a -> asset_neg a = Ok n -> n = mk_asset (- amount a) (symbol a) /\ asset_wf n.
Proof.
  intros Ha H. unfold asset_neg in H. apply bind_Ok in H as (r & Hr & H). injection H as <-. unfold funds_wf in Ha.
  rewrite safe_neg_exact in Hr by (unfold in_s; lia). injection Hr as <-. split; [done|]. unfold asset_wf, in_s. cbn. lia.
Qed.

(** What a movement of an account's funds leaves. *)
Record drawn (l : ledger) (t : balance) (l' : ledger) (c : asset_symbol_type) : Prop := {
  dr_wf : ledger_wf l';
  dr_frame : frame l l';
  dr_temp : typed c t;
  dr_gap d : gap d l' = gap d l + held_in d t
}.

Lemma withdraw_liquid_Ok name c a l l' t : ledger_wf l -> funds_wf a -> symbol a = c -> c = HIVE_SYMBOL \/ c = HBD_SYMBOL ->
  withdraw_liquid name c a l = Ok (l', t) -> drawn l t l' c /\ t = a.
Proof.
  intros W Fa Sa Hc H. unfold withdraw_liquid in H. apply bind_Ok in H as (n & Hn & H). apply funds_neg_Ok in Hn as [-> Wn]; [|done].
  apply adjust_liquid_Ok in H as ([W' T F G] & S & A); [|done|apply balance_zero_typed|done|unfold liquid_symbol; cbn; tauto].
  cbn in S, A, T. split; [constructor; [done|done|done|]|].
  - intros d. rewrite G, held_zero. lia.
  - destruct t as [x s], a as [y s'], T as [Ts _]. cbn in *. subst. f_equal. lia.
Qed.

Lemma withdraw_any_Ok name a l l' t : ledger_wf l -> funds_wf a -> withdraw_any name a l = Ok (l', t) -> drawn l t l' (symbol a) /\ t = a.
Proof.
  intros W Fa H. unfold withdraw_any in H. apply bind_Ok in H as (n & Hn & H). apply funds_neg_Ok in Hn as [-> Wn]; [|done].
  apply adjust_any_Ok in H as ([W' T F G] & S & A); [|done|apply balance_zero_typed|done].
  cbn in S, A, T. split; [constructor; [done|done|done|]|].
  - intros d. rewrite G, held_zero. lia.
  - destruct t as [x s], a as [y s'], T as [Ts _]. cbn in *. subst. f_equal. lia.
Qed.

(** A deposit of a whole temporary balance. *)
Record paid (l : ledger) (t : balance) (l' : ledger) : Prop := {
  pd_wf : ledger_wf l';
  pd_frame : frame l l';
  pd_gap c : gap c l' = gap c l - held_in c t
}.

Lemma deposit_liquid_Ok name c t l l' : ledger_wf l -> typed c t -> c = HIVE_SYMBOL \/ c = HBD_SYMBOL ->
  deposit_liquid name t l = Ok l' -> paid l t l'.
Proof.
  intros W [S F] Hc H. unfold deposit_liquid in H. apply bind_Ok in H as ([l1 t1] & H & H1). apply bind_Ok in H1 as (u & Hz & H1). injection H1 as <-.
  apply adjust_liquid_Ok in H as ([W' T Fr G] & _); [|done|done|by apply funds_wf_s64|unfold liquid_symbol; rewrite S; done].
  constructor; [done|done|]. intros d. rewrite G, (destroy_temp_Ok _ _ Hz). lia.
Qed.

Lemma deposit_any_Ok name t l l' : ledger_wf l -> funds_wf t -> deposit_any name t l = Ok l' -> paid l t l'.
Proof.
  intros W F H. unfold deposit_any in H. apply bind_Ok in H as ([l1 t1] & H & H1). apply bind_Ok in H1 as (u & Hz & H1). injection H1 as <-.
  apply adjust_any_Ok in H as ([W' T Fr G] & _); [|done|done|by apply funds_wf_s64].
  constructor; [done|done|]. intros d. rewrite G, (destroy_temp_Ok _ _ Hz). lia.
Qed.

(** Everything is drawn from a balance of an object. *)
Lemma drain_balance c b b' t : typed c b -> transfer_to_all b (balance_zero c) = Ok (b', t) ->
  b' = balance_zero c /\ t = b.
Proof.
  intros [S F] H. unfold transfer_to_all in H.
  apply transfer_to_typed with (c := c) in H as (_ & _ & [S1 _] & [S2 _] & _ & A1 & A2); [|by split|apply balance_zero_typed|by apply funds_wf_s64].
  destruct b as [x s], b' as [y s'], t as [z s'']. cbn in *. subst. unfold balance_zero. split; f_equal; lia.
Qed.

Lemma as_typed_Ok c a b : as_typed c a = Ok b -> b = a /\ symbol a = c.
Proof.
  intros H. unfold as_typed in H. apply check_bind_Ok in H as [E H]. injection H as <-. split; [done|].
  unfold tiny_is_compatible in E. to_prop. destruct (symbol a), c. cbn in E. congruence.
Qed.

Definition liquid_op (a : asset) : Prop := funds_wf a /\ liquid_symbol a.

(** The state after an operation: the books are in order and nothing was
    created or lost. *)
Definition conserved (l l' : ledger) : Prop := books l' /\ forall c, gap c l' = gap c l.

Lemma set_gpo_frame g l : time g = time (gpo l) -> frame l (set_gpo g l).
Proof. intros Ht. by constructor. Qed.

Lemma push_frame v l : frame l (push_vop v l).
Proof. by constructor. Qed.

Lemma push_books v l : books l -> books (push_vop v l).
Proof. intros [W C R1 R2 R3]. constructor; try done. by apply push_vop_Ok. Qed.

Lemma transfer_Ok from_name to_name a l l' : books l -> 0 <= gap HIVE_SYMBOL l -> liquid_op a ->
  transfer from_name to_name a l = Ok l' -> conserved l l'.
Proof.
  intros B Hg [Fa Sa] H. pose proof (bk_wf _ B) as W. unfold transfer in H. apply check_bind_Ok in H as [_ H].
  destruct (_ && _) eqn:Et.
  - apply andb_true_iff in Et as [Es Et]. apply sym_eqb_spec in Es. apply check_bind_Ok in H as [_ H]. apply bind_Ok in H as (at' & _ & H).
    apply bind_Ok in H as ([l1 t] & H1 & H). apply withdraw_liquid_Ok in H1 as [[W1 F1 T1 G1] ->]; [|done|done|done|by left].
    apply bind_Ok in H as ([[g left] hbd] & H2 & H).
    apply convert_HIVE_to_HBD_Ok in H2 as (Is & -> & Th & _); [|apply W1|done|].
    2: { rewrite <- supply_HIVE by apply W1. eapply temp_covered; [done|done|]. rewrite G1. lia. }
    destruct (set_issued l1 g _ W1 Is) as [Wg Gg]. apply bind_Ok in H as (l2 & H3 & H). apply bind_Ok in H as (u & Hz & H). injection H as <-.
    apply deposit_liquid_Ok with (c := HBD_SYMBOL) in H3 as [W2 F2 G2]; [|done|done|by right].
    split; [apply push_books; eapply frame_books; [exact B| |done]|].
    + etransitivity; [exact F1|]. etransitivity; [|exact F2]. apply set_gpo_frame, Is.
    + intros c. destruct (push_vop_Ok (dhf_conversion_operation to_name a at') l2 W2) as [_ Gp]. rewrite Gp, G2, Gg, G1. lia.
  - apply check_bind_Ok in H as [_ H]. apply bind_Ok in H as ([l1 t] & H1 & H). apply withdraw_any_Ok in H1 as [[W1 F1 T1 G1] ->]; [|done|done].
    apply bind_Ok in H as ([l2 t2] & H2 & H). apply bind_Ok in H as (u & Hz & H). injection H as <-.
    apply adjust_any_Ok in H2 as ([W2 T2 F2 G2] & _); [|done|done|by apply funds_wf_s64].
    split; [eapply frame_books; [exact B|by etransitivity|done]|]. intros c. rewrite G2, G1, (destroy_temp_Ok _ _ Hz). lia.
Qed.

Lemma is_empty_held b : is_empty b = true -> forall c, held_in c b = 0.
Proof. unfold is_empty, held_in. intros H c. to_prop. rewrite H. by destruct (sym_eqb _ _). Qed.

Lemma modify_account_Ok name f l l' : ledger_wf l -> modify_account name f l = Ok l' ->
  exists a, accounts l !! name = Some a /\ acc_wf a /\ l' = put_account name (f a) l.
Proof.
  intros W H. unfold modify_account in H. apply bind_Ok in H as (a & Ha & H). injection H as <-.
  apply get_account_Ok in Ha as [? ?]; eauto.
Qed.

Lemma set_counters_Ok name a i j k l : ledger_wf l -> accounts l !! name = Some a -> acc_wf a ->
  ledger_wf (put_account name (set_counters i j k a) l) /\ forall c, gap c (put_account name (set_counters i j k a) l) = gap c l.
Proof.
  intros W Ha Wa. destruct (put_account_Ok name a (set_counters i j k a) l) as [W' G]; [done|done|exact Wa|].
  split; [done|]. intros c. rewrite G, !acct_funds_eq. cbn. lia.
Qed.

Lemma del_upd {A} (key : A -> Z) i f xs : (forall x, key (f x) = key x) -> del key i (upd key i f xs) = del key i xs.
Proof.
  intros Hf. induction xs as [|x xs IH]; [done|]. unfold upd, del in *. cbn.
  destruct (Z.eqb_spec (key x) i) as [E|E]; [rewrite Hf, E, Z.eqb_refl|rewrite (proj2 (Z.eqb_neq _ _)) by done]; cbn; [apply IH|f_equal; apply IH].
Qed.

Lemma paid_books l t l' : books l -> paid l t l' -> books l'.
Proof. intros B [W F G]. by eapply frame_books. Qed.

Lemma conserved_trans l1 l2 l3 : conserved l1 l2 -> conserved l2 l3 -> conserved l1 l3.
Proof. intros [B1 G1] [B2 G2]. split; [done|]. intros c. by rewrite G2, G1. Qed.

Lemma del_other {A} (key : A -> Z) i xs x : x ∈ xs -> key x <> i -> x ∈ del key i xs.
Proof. intros Hx Hk. unfold del. apply elem_of_filterb. split; [|done]. apply negb_true_iff. by apply Z.eqb_neq. Qed.

(** A loop over a snapshot of an index whose body removes its element. *)
Lemma removal_loop {A} (key : A -> Z) (store : ledger -> list A) (body : ledger -> A -> result ledger) :
  (forall l x l', books l -> x ∈ store l -> body l x = Ok l' -> conserved l l' /\ store l' = del key (key x) (store l)) ->
  forall xs l l', books l -> NoDup (key <$> xs) -> (forall x, x ∈ xs -> x ∈ store l) -> foldM body l xs = Ok l' ->
  conserved l l' /\ forall x, x ∈ store l' -> x ∈ store l /\ key x ∉ key <$> xs.
Proof.
  intros Hb xs. induction xs as [|x xs IH]; intros l l' B Hn Hs H.
  - injection H as <-. split; [by split|]. intros x Hx. split; [done|apply not_elem_of_nil].
  - cbn in H. destruct (body l x) as [l1|] eqn:E; [|done]. rewrite fmap_cons in Hn. apply NoDup_cons in Hn as [Hx Hn].
    destruct (Hb l x l1 B) as [C1 D1]; [apply Hs; by left|done|].
    destruct (IH l1 l') as [C2 D2]; [apply C1|done| |done|].
    + intros y Hy. rewrite D1. apply del_other; [apply Hs; by right|]. intros E2. apply Hx. rewrite <- E2. by apply list_elem_of_fmap_2.
    + split; [by eapply conserved_trans|]. intros y Hy. destruct (D2 y Hy) as [Hy1 Hy2]. rewrite D1 in Hy1. split; [by eapply del_subset|].
      rewrite fmap_cons, not_elem_of_cons. split; [|done]. unfold del in Hy1. apply elem_of_filterb in Hy1 as [Hk _]. by to_prop.
Qed.

Lemma take_while_sublist {A} (p : A -> bool) xs : take_while p xs `sublist_of` xs.
Proof. induction xs as [|x xs IH]; [done|]. cbn. destruct (p x); [by apply sublist_skip|apply sublist_nil_l]. Qed.

Lemma filterb_sublist {A} (p : A -> bool) xs : List.filter p xs `sublist_of` xs.
Proof. induction xs as [|x xs IH]; [done|]. cbn. destruct (p x); [by apply sublist_skip|by apply sublist_cons]. Qed.

(** Part of a sorted index, as a snapshot. *)
Lemma snapshot_Ok {A} (key : A -> Z) (R : relation A) `{!RelDecision R} xs ys :
  NoDup (key <$> xs) -> ys `sublist_of` merge_sort R xs -> NoDup (key <$> ys) /\ forall y, y ∈ ys -> y ∈ xs.
Proof.
  intros Hn Hs. split.
  - eapply sublist_NoDup; [|by apply (fmap_sublist key)]. by rewrite merge_sort_Permutation.
  - intros y Hy. rewrite <- (merge_sort_Permutation R xs). by eapply elem_of_sublist.
Qed.

Lemma snapshot_part {A} (key : A -> Z) (R : relation A) `{!RelDecision R} (p : A -> bool) xs :
  NoDup (key <$> xs) -> NoDup (key <$> merge_sort R (List.filter p xs)) /\ forall y, y ∈ merge_sort R (List.filter p xs) <-> p y = true /\ y ∈ xs.
Proof.
  intros Hn. split.
  - rewrite merge_sort_Permutation. eapply sublist_NoDup; [exact Hn|]. apply (fmap_sublist key), filterb_sublist.
  - intros y. rewrite merge_sort_Permutation. apply elem_of_filterb.
Qed.

Lemma is_empty_zero c : is_empty (balance_zero c) = true.
Proof. done. Qed.

Lemma push_gap v l c : gap c (push_vop v l) = gap c l.
Proof. done. Qed.

Lemma drain_Ok {S X} (I : S -> Prop) (m : S -> nat) (next : S -> option X) body :
  (forall s x, I s -> next s = Some x -> (0 < m s)%nat /\ forall s', body x s = Ok s' -> I s' /\ (m s' < m s)%nat) ->
  forall fuel s, I s -> (m s <= fuel)%nat ->
  exists r, drain next body fuel s = Some r /\ forall s', r = Ok s' -> I s' /\ next s' = None.
Proof.
  intros Hb fuel. induction fuel as [|fuel IH]; intros s Hi Hf; cbn; destruct (next s) as [x|] eqn:E.
  - destruct (Hb s x Hi E). lia.
  - exists (Ok s). split; [done|]. by intros s' [= <-].
  - destruct (Hb s x Hi E) as [Hm Hs]. destruct (body x s) as [s1|e]; [|by exists (Throw e)].
    destruct (Hs s1 eq_refl) as [Hi1 Hm1]. apply IH; [done|lia].
  - exists (Ok s). split; [done|]. by intros s' [= <-].
Qed.

Lemma drain_more {S X} (next : S -> option X) body n m s r : (n <= m)%nat -> drain next body n s = Some r -> drain next body m s = Some r.
Proof.
  revert m s. induction n as [|n IH]; intros m s Hle H; destruct m as [|m]; try lia; try done; cbn in *.
  - by destruct (next s).
  - destruct (next s); [|done]. destruct (body _ _); [apply IH; [lia|done]|done].
Qed.

Lemma first_if_Some {A} (p : A -> bool) xs x : first_if p xs = Some x -> x ∈ xs /\ p x = true.
Proof. destruct xs as [|y xs]; [done|]. cbn. destruct (p y) eqn:E; [|done]. intros [= <-]. split; [by left|done]. Qed.

(** When the first element of an index is not due, none is. *)
Lemma first_if_None {A} (R : relation A) `{!RelDecision R} (f : A -> Z) t xs : Total R -> (forall x y, R x y -> f x <= f y) ->
  first_if (fun x => f x <=? t) (merge_sort R xs) = None -> forall x, x ∈ xs -> t < f x.
Proof.
  intros Htot Hf H x Hx. rewrite <- (merge_sort_Permutation R xs) in Hx. pose proof (Sorted_merge_sort R xs) as Hs.
  assert (Sorted (fun x y => f x <= f y) (merge_sort R xs)) as Hs'.
  { clear H Hx. induction Hs as [|y ys Hs IH Hd]; constructor; [apply IH|]. destruct Hd; constructor. by apply Hf. }
  apply Sorted_StronglySorted in Hs'; [|intros a b c; lia].
  destruct (merge_sort R xs) as [|y ys]; [by apply not_elem_of_nil in Hx|]. cbn in H. destruct (Z.leb_spec (f y) t) as [Ey|Ey]; [done|].
  apply elem_of_cons in Hx as [->|Hx]; [done|]. inversion Hs' as [|? ? _ Hall]; subst. rewrite Forall_forall in Hall. specialize (Hall x Hx). cbn in Hall. lia.
Qed.

(** *** Deposits succeed *)

Lemma account_le_holdings c name a l : ledger_wf l -> accounts l !! name = Some a -> acct_funds c a <= holdings c l.
Proof.
  intros W Ha. assert (ledger_wf (set_accounts (delete name (accounts l)) l)) as W'.
  { destruct W. constructor; try done. by apply map_Forall_delete. }
  pose proof (holdings_nonneg c _ W') as H. unfold holdings in *.
  cbn [set_accounts accounts escrows withdrawals converts collateralized orders funds gpo] in H. rewrite (sumM_delete _ _ _ _ Ha). lia.
Qed.

(** What was issued fits an account. *)
Lemma credit_fits name a t l : ledger_wf l -> accounts l !! name = Some a -> funds_wf t -> liquid_symbol t ->
  held_in (symbol t) t <= gap (symbol t) l -> account_funds (symbol t) (liquid a) + amount t < 2 ^ 63.
Proof.
  intros W Ha Ft St Hg. pose proof (account_le_holdings (symbol t) name a l W Ha) as Hh. rewrite acct_funds_eq in Hh.
  destruct (lw_accounts _ W name a Ha) as (_ & [_ F1] & [_ F2] & [_ F3] & [_ F4]).
  pose proof (held_nonneg (symbol t) _ F1). pose proof (held_nonneg (symbol t) _ F2). pose proof (held_nonneg (symbol t) _ F3). pose proof (held_nonneg (symbol t) _ F4).
  assert (supply_of (symbol t) (gpo l) < 2 ^ 63) as Hs.
  { destruct (lw_gpo _ W) as ([_ G1] & [_ G2] & _). unfold funds_wf in *. destruct St as [-> | ->]; [rewrite supply_HIVE by apply W|rewrite supply_HBD by apply W]; lia. }
  unfold gap in Hg. rewrite held_in_same in Hg by done. lia.
Qed.

(** The account after a deposit. *)
Definition credited (t : asset) (a : account) : account := set_liquid (credit t (liquid a)) a.

Lemma deposit_any_succeeds name a t l : ledger_wf l -> accounts l !! name = Some a -> funds_wf t -> liquid_symbol t ->
  held_in (symbol t) t <= gap (symbol t) l -> deposit_any name t l = Ok (put_account name (credited t a) l).
Proof.
  intros W Ha Ft St Hg. unfold deposit_any, adjust_any, get_account. rewrite Ha. cbn [mbind result_bind].
  rewrite adjust_balance_credit; [done|by apply (lw_accounts _ W name a Ha)|done|done|by eapply credit_fits].
Qed.

Lemma deposit_liquid_succeeds name a t l : ledger_wf l -> accounts l !! name = Some a -> funds_wf t -> liquid_symbol t ->
  held_in (symbol t) t <= gap (symbol t) l -> deposit_liquid name t l = Ok (put_account name (credited t a) l).
Proof.
  intros W Ha Ft St Hg. pose proof (credit_fits name a t l W Ha Ft St Hg) as Hb.
  destruct (lw_accounts _ W name a Ha) as ((S1 & S2 & B1 & B2) & _). unfold deposit_liquid, adjust_liquid, get_account. rewrite Ha. cbn [mbind result_bind].
  unfold adjust_typed, credited, credit. unfold account_funds, held_in in Hb. rewrite S1, S2 in Hb. destruct St as [E|E]; rewrite E in Hb |- *.
  - change (sym_eqb HIVE_SYMBOL HIVE_SYMBOL) with true in *. change (sym_eqb HBD_SYMBOL HIVE_SYMBOL) with false in Hb. cbv iota in Hb |- *.
    destruct (adjust_through_all (hive_balance (liquid a)) t HIVE_SYMBOL) as (_ & -> & _); [auto; lia..|]. done.
  - change (sym_eqb HBD_SYMBOL HBD_SYMBOL) with true in *. change (sym_eqb HBD_SYMBOL HIVE_SYMBOL) with false in *.
    change (sym_eqb HIVE_SYMBOL HBD_SYMBOL) with false in Hb. cbv iota in Hb |- *.
    destruct (adjust_through_all (hbd_balance (liquid a)) t HBD_SYMBOL) as (_ & -> & _); [auto; lia..|]. done.
Qed.

(** Drawing everything from an object into an empty balance succeeds. *)
Lemma drain_balance_succeeds c b : typed c b -> transfer_to_all b (balance_zero c) = Ok (balance_zero c, b).
Proof.
  intros [S F]. unfold funds_wf in F. unfold transfer_to_all, transfer_to. rewrite transfer_from_value by (first [done | unfold funds_wf; cbn; lia]). cbn.
  destruct b as [x y]. cbn in *. subst. by rewrite Z.sub_diag.
Qed.

(** *** What accounts gain *)

Definition liquid_gain (l l' : ledger) (gain : string -> asset_symbol_type -> Z) : Prop :=
  forall name a, accounts l !! name = Some a -> exists a', accounts l' !! name = Some a' /\
    forall c, account_funds c (liquid a') = account_funds c (liquid a) + gain name c.

Lemma no_gain l l' : accounts l' = accounts l -> liquid_gain l l' (fun _ _ => 0).
Proof. intros E n a Ha. exists a. rewrite E. split; [done|]. intros c. lia. Qed.

Lemma gain_trans l1 l2 l3 g h : liquid_gain l1 l2 g -> liquid_gain l2 l3 h -> liquid_gain l1 l3 (fun n c => g n c + h n c).
Proof.
  intros H1 H2 n a Ha. destruct (H1 n a Ha) as (a2 & Ha2 & E2). destruct (H2 n a2 Ha2) as (a3 & Ha3 & E3).
  exists a3. split; [done|]. intros c. rewrite E3, E2. lia.
Qed.

Lemma gain_ext l l' g h : (forall n c, g n c = h n c) -> liquid_gain l l' g -> liquid_gain l l' h.
Proof. intros E H n a Ha. destruct (H n a Ha) as (a' & Ha' & Hc). exists a'. split; [done|]. intros c. by rewrite Hc, E. Qed.

Lemma counter_gain name f l l' : ledger_wf l -> (forall a, liquid (f a) = liquid a) -> modify_account name f l = Ok l' -> liquid_gain l l' (fun _ _ => 0).
Proof.
  intros W Hf H. apply modify_account_Ok in H as (b & Hb & _ & ->); [|done]. intros n a Ha. cbn. destruct (decide (name = n)) as [->|].
  - rewrite lookup_insert_eq. eexists. split; [done|]. intros c. rewrite Hf. assert (a = b) as -> by congruence. lia.
  - rewrite lookup_insert_ne by done. exists a. split; [done|]. intros c. lia.
Qed.

Lemma put_liquid_gain name b own l g : accounts l !! name = Some b -> (forall c, account_funds c own = account_funds c (liquid b) + g c) ->
  liquid_gain l (put_account name (set_liquid own b) l) (fun n c => if bool_decide (n = name) then g c else 0).
Proof.
  intros Hb Hg n a Ha. cbn. case_bool_decide as E.
  - subst. rewrite lookup_insert_eq. eexists. split; [done|]. intros c. cbn. rewrite Hg. congruence.
  - rewrite lookup_insert_ne by done. exists a. split; [done|]. intros c. lia.
Qed.

Lemma deposit_liquid_gain name c t l l' : ledger_wf l -> typed c t -> c = HIVE_SYMBOL \/ c = HBD_SYMBOL -> deposit_liquid name t l = Ok l' ->
  liquid_gain l l' (fun n c => if bool_decide (n = name) then held_in c t else 0).
Proof.
  intros W [S F] Hc H. unfold deposit_liquid in H. apply bind_Ok in H as ([l1 t1] & H & H1). apply bind_Ok in H1 as (u & Hz & H1). injection H1 as <-.
  unfold adjust_liquid in H. apply bind_Ok in H as (a & Ha & H). apply get_account_Ok in Ha as [Ha Wa]; [|done].
  apply bind_Ok in H as ([own t2] & H & H1). injection H1 as <- <-.
  apply adjust_typed_Ok in H as (_ & _ & _ & _ & Hf); [|apply Wa|done|by apply funds_wf_s64|unfold liquid_symbol; rewrite S; done].
  apply put_liquid_gain; [done|]. intros d. specialize (Hf d). rewrite (destroy_temp_Ok _ _ Hz) in Hf. lia.
Qed.

Lemma adjust_any_gain name t delta l l' t' : ledger_wf l -> funds_wf t -> asset_wf delta -> adjust_any name t delta l = Ok (l', t') ->
  liquid_gain l l' (fun n c => if bool_decide (n = name) then held_in c t - held_in c t' else 0).
Proof.
  intros W F D H. unfold adjust_any in H. apply bind_Ok in H as (a & Ha & H). apply get_account_Ok in Ha as [Ha Wa]; [|done].
  apply bind_Ok in H as ([own t2] & H & H1). injection H1 as <- <-.
  apply adjust_balance_Ok in H as (_ & _ & _ & _ & _ & Hf); [|apply Wa|by apply funds_wf_s64|done].
  apply put_liquid_gain; [done|]. intros d. specialize (Hf d). lia.
Qed.

Lemma deposit_any_gain name t l l' : ledger_wf l -> funds_wf t -> deposit_any name t l = Ok l' ->
  liquid_gain l l' (fun n c => if bool_decide (n = name) then held_in c t else 0).
Proof.
  intros W F H. unfold deposit_any in H. apply bind_Ok in H as ([l1 t1] & H & H1). apply bind_Ok in H1 as (u & Hz & H1). injection H1 as <-.
  apply adjust_any_gain in H; [|done|done|by apply funds_wf_s64]. eapply gain_ext; [|exact H]. intros n c. cbv beta. rewrite (destroy_temp_Ok _ _ Hz c).
  destruct (bool_decide _); lia.
Qed.

Lemma withdraw_any_gain name a l l' t : ledger_wf l -> funds_wf a -> withdraw_any name a l = Ok (l', t) ->
  liquid_gain l l' (fun n c => if bool_decide (n = name) then - held_in c a else 0).
Proof.
  intros W F H. pose proof (withdraw_any_Ok _ _ _ _ _ W F H) as [_ ->]. unfold withdraw_any in H. apply bind_Ok in H as (x & Hx & H).
  apply funds_neg_Ok in Hx as [-> Wx]; [|done]. apply adjust_any_gain in H; [|done|apply balance_zero_typed|done].
  eapply gain_ext; [|exact H]. intros n c. cbv beta. rewrite held_zero. destruct (bool_decide _); lia.
Qed.

(** A loop that removes its elements and cannot fail. *)
Lemma removal_loop_succeeds {A} (key : A -> Z) (store : ledger -> list A) (owner : A -> string) (gain : A -> string -> asset_symbol_type -> Z)
    (body : ledger -> A -> result ledger) :
  (forall l x, books l -> accounted l -> x ∈ store l -> is_Some (accounts l !! owner x) ->
    exists l', body l x = Ok l' /\ conserved l l' /\ store l' = del key (key x) (store l) /\ liquid_gain l l' (gain x)) ->
  forall xs l, books l -> accounted l -> NoDup (key <$> xs) -> (forall x, x ∈ xs -> x ∈ store l /\ is_Some (accounts l !! owner x)) ->
  exists l', foldM body l xs = Ok l' /\ conserved l l' /\ liquid_gain l l' (fun n c => sumZ (fun x => gain x n c) xs) /\
    forall x, x ∈ store l' <-> x ∈ store l /\ key x ∉ key <$> xs.
Proof.
  intros Hb xs. induction xs as [|x xs IH]; intros l B A0 Hn Hx; cbn [foldM].
  - exists l. split; [done|]. split; [by split|]. split; [by apply no_gain|]. intros y. split; [|tauto]. intros Hy. split; [done|apply not_elem_of_nil].
  - rewrite fmap_cons in Hn. apply NoDup_cons in Hn as [Hnx Hn]. destruct (Hx x) as [Hs Ho]; [by left|].
    destruct (Hb l x B A0 Hs Ho) as (l1 & -> & [B1 G1] & D1 & R1). assert (accounted l1) as A1 by (destruct A0; split; by rewrite G1).
    destruct (IH l1 B1 A1 Hn) as (l' & E & C' & R' & D').
    + intros y Hy. destruct (Hx y) as [Hys [a Ha]]; [by right|]. destruct (R1 _ a Ha) as (a' & Ha' & _). split; [|by eexists].
      rewrite D1. apply del_other; [done|]. intros Ek. apply Hnx. rewrite <- Ek. by apply list_elem_of_fmap_2.
    + exists l'. split; [done|]. split; [eapply conserved_trans; [by split|done]|]. split.
      * eapply gain_ext; [|by eapply gain_trans]. intros n c. by rewrite sumZ_cons.
      * intros y. rewrite D', D1, fmap_cons, not_elem_of_cons. unfold del. rewrite elem_of_filterb, negb_true_iff, Z.eqb_neq. tauto.
Qed.

(** The loop over the part of an index at its beginning that is due meets all that
    is due. *)
Lemma take_while_sorted {A} (R : relation A) `{!RelDecision R} (p : A -> bool) xs : Transitive R -> Total R ->
  (forall x y, R x y -> p y = true -> p x = true) -> forall x, x ∈ take_while p (merge_sort R xs) <-> x ∈ xs /\ p x = true.
Proof.
  intros Ht Htot Hp x. rewrite <- (merge_sort_Permutation R xs) at 2. pose proof (StronglySorted_merge_sort R xs) as Hs.
  induction Hs as [|y ys Hs IH Hall]; cbn; [split; [|tauto]; intros H; by apply not_elem_of_nil in H|].
  destruct (p y) eqn:Ey; rewrite ?elem_of_cons.
  - rewrite IH. split; [intros [->|?]; tauto|]. intros [[->|?] ?]; tauto.
  - split; [intros H; by apply not_elem_of_nil in H|]. intros [[->|Hx] Hpx]; [congruence|].
    rewrite Forall_forall in Hall. specialize (Hall x Hx). rewrite (Hp y x Hall Hpx) in Ey. done.
Qed.
End transfers_conservation.
