(* ===== verification/Escrows.v ===== *)
(** * Escrows

    Models the escrow evaluators of libraries/chain/hive_evaluator_transfer.cpp
    and what the chain does with escrow objects
    (libraries/chain/database_market.cpp: [expire_escrow_ratification],
    [remove_escrow], [remove_pending_escrows]) on the ledger. *)

From stdpp Require Import base numbers strings option list sorting gmap.
From S2P Require Import Prelude Fc Config AssetSymbol Asset Balance Market Ledger Transfers.
Open Scope Z_scope.

Section escrow.
Context `{L : FcLib}.

(** [by_ratification_deadline] *)
Definition ratification_le (a b : escrow_object) : Prop :=
  (is_approved a = false /\ is_approved b = true) \/
  (is_approved a = is_approved b /\ (ratification_deadline a < ratification_deadline b \/
    (ratification_deadline a = ratification_deadline b /\ eid a <= eid b))).

(** [by_from_id], within one account *)
Definition escrow_id_le (a b : escrow_object) : Prop := escrow_id a <= escrow_id b.

#[global] Instance ratification_le_dec : RelDecision ratification_le.
Proof. intros a b. unfold ratification_le. apply _. Defined.

#[global] Instance escrow_id_le_dec : RelDecision escrow_id_le.
Proof. intros a b. unfold escrow_id_le. apply _. Defined.

Definition find_escrow (name : string) (i : Z) (l : ledger) : option escrow_object :=
  List.find (fun e => bool_decide (from e = name) && (escrow_id e =? i)) (escrows l).

Definition get_escrow (name : string) (i : Z) (l : ledger) : result escrow_object :=
  match find_escrow name i l with Some e => Ok e | None => Throw AssertFc end.

Definition modify_escrow (i : Z) (f : escrow_object -> escrow_object) (l : ledger) : ledger :=
  set_escrows (upd eid i f (escrows l)) l.

(** The object a reference leads to, after it has been modified. *)
Definition escrow_by_id (i : Z) (l : ledger) : result escrow_object :=
  match List.find (fun e => eid e =? i) (escrows l) with Some e => Ok e | None => Throw AssertFc end.

Definition remove_escrow_object (e : escrow_object) (l : ledger) : result ledger :=
  _ ← check (is_empty (escrow_hive e) && is_empty (escrow_hbd e) && is_empty (pending_fee e)) AssertFc;
  Ok (set_escrows (del eid (eid e) (escrows l)) l).

(** The fields of an account that count its objects. *)
Definition add_escrow_count (d : Z) (a : account) : account :=
  set_counters (u16 (pending_escrow_transfers a + d)) (savings_withdraw_requests a) (open_recurrent_transfers a) a.

Definition escrow_transfer (from_name to_name agent_name : string) (hbd_amount hive_amount : asset) (i : Z) (fee : asset)
    (deadline expiration : Z) (l : ledger) : result ledger :=
  a ← get_account from_name l;
  _ ← get_account to_name l;
  _ ← get_account agent_name l;
  _ ← check (head_block_time l <? deadline) AssertTime;
  _ ← check (head_block_time l <? expiration) AssertTime;
  _ ← check (pending_escrow_transfers a <? HIVE_MAX_PENDING_TRANSFERS) AssertLimit;
  o_hive ← as_typed HIVE_SYMBOL hive_amount;
  o_hbd ← as_typed HBD_SYMBOL hbd_amount;
  let fee_in_hive := sym_eqb (symbol fee) HIVE_SYMBOL in
  fee ← as_typed (if fee_in_hive then HIVE_SYMBOL else HBD_SYMBOL) fee;
  hive_spent ← (if fee_in_hive then asset_add o_hive fee else Ok o_hive);
  hbd_spent ← (if fee_in_hive then Ok o_hbd else asset_add o_hbd fee);
  '(l, hive_temp) ← withdraw_liquid from_name HIVE_SYMBOL hive_spent l;
  '(l, hbd_temp) ← withdraw_liquid from_name HBD_SYMBOL hbd_spent l;
  '(fee_temp, hive_temp, hbd_temp) ←
    (if fee_in_hive then '(f, h) ← transfer_from (balance_zero (symbol fee)) hive_temp fee; Ok (f, h, hbd_temp)
     else '(f, d) ← transfer_from (balance_zero (symbol fee)) hbd_temp fee; Ok (f, hive_temp, d));
  _ ← check (match find_escrow from_name i l with None => true | Some _ => false end) UniqueViolation;
  let '(n, l) := fresh l in
  let e := mk_escrow n i from_name to_name agent_name deadline expiration hbd_temp hive_temp fee_temp false false false in
  modify_account from_name (add_escrow_count 1) (set_escrows (escrows l ++ [e]) l).

(** Draws everything from an escrow; the object is modified. *)
Definition drain_escrow (e : escrow_object) (l : ledger) : result (ledger * (balance * balance * balance)) :=
  '(hive, hive_ret) ← transfer_to_all (escrow_hive e) (balance_zero HIVE_SYMBOL);
  '(hbd, hbd_ret) ← transfer_to_all (escrow_hbd e) (balance_zero HBD_SYMBOL);
  '(fee, fee_ret) ← transfer_to_all (pending_fee e) (balance_zero (symbol (pending_fee e)));
  Ok (modify_escrow (eid e) (set_escrow_funds hbd hive fee) l, (hive_ret, hbd_ret, fee_ret)).

Definition remove_escrow (e : escrow_object) (emit_rejected_vop : bool) (l : ledger) : result ledger :=
  '(l, (hive_ret, hbd_ret, fee_ret)) ← drain_escrow e l;
  let vop := escrow_rejected_operation (from e) (to e) (agent e) (escrow_id e) hbd_ret hive_ret fee_ret in
  l ← deposit_liquid (from e) hive_ret l;
  l ← deposit_liquid (from e) hbd_ret l;
  l ← deposit_any (from e) fee_ret l;
  let l := if emit_rejected_vop then push_vop vop l else l in
  l ← modify_account (from e) (add_escrow_count (-1)) l;
  e ← escrow_by_id (eid e) l;
  remove_escrow_object e l.

Definition escrow_approve (from_name to_name agent_name who : string) (i : Z) (approve : bool) (l : ledger) : result ledger :=
  e ← get_escrow from_name i l;
  _ ← check (bool_decide (to e = to_name)) AssertState;
  _ ← check (bool_decide (agent e = agent_name)) AssertState;
  _ ← check (head_block_time l <=? ratification_deadline e) AssertTime;
  l ← (if bool_decide (who = to_name) then
         _ ← check (negb (to_approved e)) AssertState;
         Ok (if approve then modify_escrow (eid e) (fun e => set_escrow_flags true (agent_approved e) (disputed e) e) l else l)
       else Ok l);
  e ← escrow_by_id (eid e) l;
  l ← (if bool_decide (who = agent_name) then
         _ ← check (negb (agent_approved e)) AssertState;
         Ok (if approve then modify_escrow (eid e) (fun e => set_escrow_flags (to_approved e) true (disputed e) e) l else l)
       else Ok l);
  e ← escrow_by_id (eid e) l;
  if negb approve then remove_escrow e true l
  else if to_approved e && agent_approved e then
    '(fee, fee_released) ← transfer_to_all (pending_fee e) (balance_zero (symbol (pending_fee e)));
    let l := modify_escrow (eid e) (fun e => set_escrow_funds (escrow_hbd e) (escrow_hive e) fee e) l in
    let vop := escrow_approved_operation from_name to_name agent_name i fee_released in
    l ← deposit_any agent_name fee_released l;
    Ok (push_vop vop l)
  else Ok l.

Definition escrow_dispute (from_name to_name agent_name : string) (i : Z) (l : ledger) : result ledger :=
  _ ← get_account from_name l;
  e ← get_escrow from_name i l;
  _ ← check (head_block_time l <? escrow_expiration e) AssertTime;
  _ ← check (is_approved e) AssertState;
  _ ← check (negb (disputed e)) AssertState;
  _ ← check (bool_decide (to e = to_name)) AssertState;
  _ ← check (bool_decide (agent e = agent_name)) AssertState;
  Ok (modify_escrow (eid e) (fun e => set_escrow_flags (to_approved e) (agent_approved e) true e) l).

(** Who may release to whom. *)
Definition release_allowed (e : escrow_object) (who receiver : string) (now : Z) : result unit :=
  if disputed e then check (bool_decide (who = agent e)) AssertPermission
  else
    _ ← check (bool_decide (who = from e) || bool_decide (who = to e)) AssertPermission;
    if now <? escrow_expiration e then
      if bool_decide (who = from e) then check (bool_decide (receiver = to e)) AssertPermission
      else if bool_decide (who = to e) then check (bool_decide (receiver = from e)) AssertPermission
      else Ok tt
    else Ok tt.

Definition escrow_release (from_name to_name agent_name who receiver : string) (i : Z) (hbd_amount hive_amount : asset) (l : ledger) :
    result ledger :=
  _ ← get_account from_name l;
  e ← get_escrow from_name i l;
  o_hive ← as_typed HIVE_SYMBOL hive_amount;
  o_hbd ← as_typed HBD_SYMBOL hbd_amount;
  b ← asset_geb (escrow_hive e) o_hive; _ ← check b AssertBalance;
  b ← asset_geb (escrow_hbd e) o_hbd; _ ← check b AssertBalance;
  _ ← check (bool_decide (to e = to_name)) AssertState;
  _ ← check (bool_decide (agent e = agent_name)) AssertState;
  _ ← check (bool_decide (receiver = from e) || bool_decide (receiver = to e)) AssertPermission;
  _ ← check (is_approved e) AssertState;
  _ ← release_allowed e who receiver (head_block_time l);
  '(hive, hive_released) ← transfer_to (escrow_hive e) (balance_zero HIVE_SYMBOL) o_hive;
  '(hbd, hbd_released) ← transfer_to (escrow_hbd e) (balance_zero HBD_SYMBOL) o_hbd;
  let l := modify_escrow (eid e) (set_escrow_funds hbd hive (pending_fee e)) l in
  l ← deposit_liquid receiver hive_released l;
  l ← deposit_liquid receiver hbd_released l;
  if (amount hive =? 0) && (amount hbd =? 0) then
    l ← modify_account from_name (add_escrow_count (-1)) l;
    e ← escrow_by_id (eid e) l;
    remove_escrow_object e l
  else Ok l.

Definition expire_escrow_ratification (l : ledger) : result ledger :=
  foldM (fun l e => remove_escrow e true l) l
    (take_while (fun e => negb (is_approved e) && (ratification_deadline e <=? head_block_time l)) (merge_sort ratification_le (escrows l))).

Definition remove_pending_escrows (name : string) (l : ledger) : result ledger :=
  foldM (fun l e => remove_escrow e false l) l
    (merge_sort escrow_id_le (List.filter (fun e => bool_decide (from e = name)) (escrows l))).
End escrow.

Section escrow_conservation.
Context `{L : FcLib} `{!FcLaws L}.

Lemma set_escrows_Ok x l : ledger_wf l -> Forall escrow_wf x -> NoDup (eid <$> x) -> Forall (fun i => i < next_id l) (eid <$> x) ->
  ledger_wf (set_escrows x l) /\
  forall c, gap c (set_escrows x l) = gap c l + sumZ (escrow_funds c) (escrows l) - sumZ (escrow_funds c) x.
Proof.
  intros W H1 H2 H3. split; [destruct W; constructor; try done; cbn; rewrite !Forall_app in *; tauto|].
  intros c. unfold gap, holdings. cbn [set_escrows accounts escrows withdrawals converts collateralized orders funds gpo]. lia.
Qed.

Lemma modify_escrow_Ok e f l : ledger_wf l -> e ∈ escrows l -> escrow_wf (f e) -> (forall x, eid (f x) = eid x) ->
  ledger_wf (modify_escrow (eid e) f l) /\ forall c, gap c (modify_escrow (eid e) f l) = gap c l + escrow_funds c e - escrow_funds c (f e).
Proof.
  intros W He Wf Hk. destruct (set_escrows_Ok (upd eid (eid e) f (escrows l)) l W) as [W' G].
  - apply upd_Forall; [apply W|]. intros x Hx Hkx _. by rewrite (key_inj eid _ x e (lw_eids _ W) Hx He Hkx).
  - rewrite upd_keys by done. apply W.
  - rewrite upd_keys by done. apply (ids_below l W).
  - split; [done|]. intros c. rewrite G, sumZ_upd by (done || apply W). lia.
Qed.

Lemma escrow_by_id_Ok i l e : escrow_by_id i l = Ok e -> e ∈ escrows l /\ eid e = i.
Proof.
  unfold escrow_by_id. destruct (List.find _ _) as [x|] eqn:E; [|done]. intros [= <-]. apply find_key_Some in E as [? ?]. to_prop. done.
Qed.

Lemma get_escrow_Ok name i l e : get_escrow name i l = Ok e -> e ∈ escrows l /\ from e = name /\ escrow_id e = i.
Proof.
  unfold get_escrow, find_escrow. destruct (List.find _ _) as [x|] eqn:E; [|done]. intros [= <-]. apply find_key_Some in E as [? ?]. to_prop. done.
Qed.

Lemma remove_escrow_object_Ok e l l' : ledger_wf l -> e ∈ escrows l -> remove_escrow_object e l = Ok l' ->
  l' = set_escrows (del eid (eid e) (escrows l)) l /\ ledger_wf l' /\ forall c, gap c l' = gap c l.
Proof.
  intros W He H. unfold remove_escrow_object in H. apply check_bind_Ok in H as [Hz H]. injection H as <-. to_prop.
  destruct (set_escrows_Ok (del eid (eid e) (escrows l)) l W) as [W' G].
  - apply del_Forall, W.
  - apply del_NoDup, W.
  - rewrite Forall_fmap. apply del_Forall. rewrite <- Forall_fmap. apply (ids_below l W).
  - split; [done|]. split; [done|]. intros c. rewrite G, sumZ_del by (done || apply W). rewrite escrow_funds_eq.
    rewrite !is_empty_held by done. lia.
Qed.

(** An escrow more or less, with its counter. *)
Lemma escrow_counted name a x d l : counters_ok l -> accounts l !! name = Some a ->
  (forall n, cnt from n x = cnt from n (escrows l) + (if bool_decide (n = name) then d else 0)) ->
  (d = 1 /\ pending_escrow_transfers a < HIVE_MAX_PENDING_TRANSFERS) \/ (d = -1 /\ 1 <= cnt from name (escrows l)) ->
  counters_ok (put_account name (add_escrow_count d a) (set_escrows x l)).
Proof.
  intros (H1 & H2 & H3) Ha Hc Hd. destruct (H1 _ _ Ha) as [E1 E2]. pose proof (cnt_nonneg from name (escrows l)).
  assert (u16 (pending_escrow_transfers a + d) = pending_escrow_transfers a + d) as Hu.
  { apply uwrap_id. unfold in_u, HIVE_MAX_PENDING_TRANSFERS in *. lia. }
  unfold counters_ok. cbn [put_account set_accounts set_escrows accounts escrows withdrawals recurrents]. split_and!.
  - eapply count_ok_add; [exact Ha|exact Hu| |exact Hc|exact H1]. cbn. rewrite Hu. lia.
  - eapply count_ok_put; [exact Ha|done|exact H2].
  - eapply count_ok_put; [exact Ha|done|exact H3].
Qed.

(** The two withdrawals of an escrow and the split of the fee. *)
Lemma escrow_funding from_name (in_hive : bool) o_hive o_hbd fee l l1 l2 t1 t2 f h d hive_spent hbd_spent :
  ledger_wf l -> typed HIVE_SYMBOL o_hive -> typed HBD_SYMBOL o_hbd -> typed (if in_hive then HIVE_SYMBOL else HBD_SYMBOL) fee ->
  (if in_hive then asset_add o_hive fee else Ok o_hive) = Ok hive_spent ->
  (if in_hive then Ok o_hbd else asset_add o_hbd fee) = Ok hbd_spent ->
  withdraw_liquid from_name HIVE_SYMBOL hive_spent l = Ok (l1, t1) -> withdraw_liquid from_name HBD_SYMBOL hbd_spent l1 = Ok (l2, t2) ->
  (if in_hive then '(f, h) ← transfer_from (balance_zero (symbol fee)) t1 fee; Ok (f, h, t2)
   else '(f, d) ← transfer_from (balance_zero (symbol fee)) t2 fee; Ok (f, t1, d)) = Ok (f, h, d) ->
  ledger_wf l2 /\ frame l l2 /\ typed HIVE_SYMBOL h /\ typed HBD_SYMBOL d /\ typed (symbol fee) f /\
  forall c, gap c l2 = gap c l + held_in c h + held_in c d + held_in c f.
Proof.
  intros W Th Td Tf Hh Hd H1 H2 H3.
  assert (typed HIVE_SYMBOL hive_spent) as Ths by (destruct in_hive; [by eapply supply_add in Hh as [? _]|by injection Hh as <-]).
  assert (typed HBD_SYMBOL hbd_spent) as Tds by (destruct in_hive; [by injection Hd as <-|by eapply supply_add in Hd as [? _]]).
  apply withdraw_liquid_Ok in H1 as [[W1 F1 _ G1] ->]; [|done|apply Ths|apply Ths|by left].
  apply withdraw_liquid_Ok in H2 as [[W2 F2 _ G2] ->]; [|done|apply Tds|apply Tds|by right].
  destruct in_hive; apply bind_Ok in H3 as ([x y] & Ht & H3); injection H3 as <- <- <-; destruct Tf as [Sf Ff]; rewrite Sf in *.
  - apply transfer_from_typed with (c := HIVE_SYMBOL) in Ht as (_ & _ & Tx & Ty & Hf & _); [|apply balance_zero_typed|by eapply typed_self|by apply funds_wf_s64].
    split_and!; try done; [by etransitivity|]. intros c. rewrite G2, G1. specialize (Hf c). rewrite held_zero in Hf. lia.
  - apply transfer_from_typed with (c := HBD_SYMBOL) in Ht as (_ & _ & Tx & Ty & Hf & _); [|apply balance_zero_typed|by eapply typed_self|by apply funds_wf_s64].
    split_and!; try done; [by etransitivity|]. intros c. rewrite G2, G1. specialize (Hf c). rewrite held_zero in Hf. lia.
Qed.

(** A new escrow that takes the funds of the three balances. *)
Lemma add_escrow_Ok l e : ledger_wf l -> escrow_wf e -> eid e = next_id l ->
  let l' := set_escrows (escrows l ++ [e]) (set_next_id (next_id l + 1) l) in
  ledger_wf l' /\ forall c, gap c l' = gap c l - escrow_funds c e.
Proof.
  intros W We Hk l'. destruct (fresh_Ok l W) as [Wf Gf]. destruct (snoc_NoDup eid (escrows l) e (next_id l)) as [N B]; [apply W|apply (ids_below l W)|done|].
  destruct (set_escrows_Ok (escrows l ++ [e]) (set_next_id (next_id l + 1) l) Wf) as [W' G]; [|done|done|].
  - apply Forall_app. split; [apply W|by apply Forall_singleton].
  - split; [done|]. intros c. unfold l'. rewrite G, Gf. cbn [set_next_id escrows]. rewrite sumZ_app, sumZ_cons. change (sumZ (escrow_funds c) []) with 0. lia.
Qed.

Lemma escrow_transfer_Ok from_name to_name agent_name hbd_amount hive_amount i fee deadline expiration l l' :
  books l -> funds_wf hbd_amount -> funds_wf hive_amount -> funds_wf fee ->
  escrow_transfer from_name to_name agent_name hbd_amount hive_amount i fee deadline expiration l = Ok l' -> conserved l l'.
Proof.
  intros B F1 F2 F3 H. pose proof (bk_wf _ B) as W. unfold escrow_transfer in H. apply bind_Ok in H as (a0 & Ha0 & H).
  apply get_account_Ok in Ha0 as [Ha0 _]; [|done].
  apply bind_Ok in H as (? & _ & H). apply bind_Ok in H as (? & _ & H). do 2 apply check_bind_Ok in H as [_ H]. apply check_bind_Ok in H as [Hlim H]. to_prop.
  apply bind_Ok in H as (oh & Hoh & H). apply as_typed_Ok in Hoh as [-> Sh]. apply bind_Ok in H as (od & Hod & H). apply as_typed_Ok in Hod as [-> Sd].
  apply bind_Ok in H as (fe & Hfe & H). apply as_typed_Ok in Hfe as [-> Sf].
  apply bind_Ok in H as (hs & Hhs & H). apply bind_Ok in H as (ds & Hds & H). apply bind_Ok in H as ([l1 t1] & H1 & H). apply bind_Ok in H as ([l2 t2] & H2 & H).
  apply bind_Ok in H as ([[f h] d] & H3 & H). destruct (escrow_funding _ _ _ _ _ _ _ _ _ _ _ _ _ _ _ W (conj Sh F2) (conj Sd F1) (conj Sf F3) Hhs Hds H1 H2 H3)
    as (W2 & Fr & Th & Td & Tf & G2). clear Hhs Hds H1 H2 H3.
  apply check_bind_Ok in H as [_ H]. cbn [fresh] in H. set (e := mk_escrow _ _ _ _ _ _ _ _ _ _ _ _ _) in H.
  assert (escrow_wf e) as We.
  { split_and!; [done|done|apply Tf|]. unfold liquid_symbol. cbn. destruct Tf as [-> _]. rewrite Sf. by destruct (sym_eqb _ _); [left|right]. }
  destruct (add_escrow_Ok l2 e W2 We eq_refl) as [W3 G3]. apply modify_account_Ok in H as (a & Ha & Wa & ->); [|done].
  destruct (set_counters_Ok from_name a (u16 (pending_escrow_transfers a + 1)) (savings_withdraw_requests a) (open_recurrent_transfers a) _ W3 Ha Wa) as [W4 G4].
  split.
  - destruct (frame_account _ _ _ _ Fr Ha0) as (a' & Ha' & Ec). cbn in Ha. rewrite Ha' in Ha. injection Ha as ->.
    pose proof (frame_books _ _ B Fr W2) as [_ C2 R1 R2 R3]. constructor; [done| |exact R1| |exact R3].
    + eapply (escrow_counted from_name a (escrows l2 ++ [e]) 1 (set_next_id (next_id l2 + 1) l2)); [exact C2|done| |].
      * intros n. rewrite cnt_app. done.
      * left. split; [done|]. unfold counters in Ec. injection Ec as -> _ _. done.
    + cbn. eapply Forall_impl; [exact R2|]. cbn. lia.
  - intros c. cbn. change (add_escrow_count 1 a) with (set_counters (u16 (pending_escrow_transfers a + 1)) (savings_withdraw_requests a) (open_recurrent_transfers a) a).
    rewrite G4, G3, G2, escrow_funds_eq. cbn. lia.
Qed.

Lemma modify_escrow_books e f l : books l -> e ∈ escrows l -> escrow_wf (f e) -> (forall x, eid (f x) = eid x) -> (forall x, from (f x) = from x) ->
  books (modify_escrow (eid e) f l) /\ forall c, gap c (modify_escrow (eid e) f l) = gap c l + escrow_funds c e - escrow_funds c (f e).
Proof.
  intros B He Wf Hk Hfrom. destruct (modify_escrow_Ok e f l (bk_wf _ B) He Wf Hk) as [W G]. split; [|done].
  destruct B as [_ (C1 & C2 & C3) R1 R2 R3]. constructor; [done| |done|done|done]. split_and!; [|done|done].
  eapply count_ok_ext; [|exact C1]. intros n. symmetry. apply (cnt_upd eid from n (escrows l) (eid e) f Hfrom).
Qed.

(** The end of an escrow: its counter goes down and the empty object goes. *)
Lemma end_escrow_books e l l1 l2 : books l -> e ∈ escrows l -> modify_account (from e) (add_escrow_count (-1)) l = Ok l1 ->
  (x ← escrow_by_id (eid e) l1; remove_escrow_object x l1) = Ok l2 -> conserved l l2 /\ escrows l2 = del eid (eid e) (escrows l).
Proof.
  intros B He H1 H2. pose proof (bk_wf _ B) as W. apply modify_account_Ok in H1 as (a & Ha & Wa & ->); [|done].
  destruct (set_counters_Ok (from e) a (u16 (pending_escrow_transfers a + -1)) (savings_withdraw_requests a) (open_recurrent_transfers a) _ W Ha Wa) as [W1 G1].
  apply bind_Ok in H2 as (x & Hx & H2). apply escrow_by_id_Ok in Hx as [Hx Ex].
  assert (x = e) as -> by (by apply (key_inj eid (escrows l) x e (lw_eids _ W))).
  apply remove_escrow_object_Ok in H2 as (-> & W2 & G2); [|exact W1|done]. split; [|done]. split.
  - destruct B as [_ C R1 R2 R3]. constructor; [done| |exact R1|exact R2|exact R3].
    eapply (escrow_counted (from e) a (del eid (eid e) (escrows l)) (-1) l); [done|done| |].
    + intros n. by apply (cnt_del eid from n (escrows l) e (lw_eids _ W) He).
    + right. split; [done|]. by apply (cnt_del eid from (from e) (escrows l) e (lw_eids _ W) He).
  - intros c. rewrite G2. apply G1.
Qed.

Lemma drain_escrow_Ok e l l' h d f : books l -> e ∈ escrows l -> drain_escrow e l = Ok (l', (h, d, f)) ->
  books l' /\ (exists e', e' ∈ escrows l' /\ eid e' = eid e /\ from e' = from e) /\
  del eid (eid e) (escrows l') = del eid (eid e) (escrows l) /\
  typed HIVE_SYMBOL h /\ typed HBD_SYMBOL d /\ funds_wf f /\ (forall c, gap c l' = gap c l + held_in c h + held_in c d + held_in c f) /\
  h = escrow_hive e /\ d = escrow_hbd e /\ f = pending_fee e.
Proof.
  intros B He H. destruct (proj1 (Forall_forall _ _) (lw_escrows _ (bk_wf _ B)) e He) as (Td & Th & Ff & Sf). unfold drain_escrow in H.
  apply bind_Ok in H as ([h0 h1] & Hh & H). apply drain_balance in Hh as [-> ->]; [|done].
  apply bind_Ok in H as ([d0 d1] & Hd & H). apply drain_balance in Hd as [-> ->]; [|done].
  apply bind_Ok in H as ([f0 f1] & Hf & H). apply drain_balance in Hf as [-> ->]; [|by split]. injection H as <- <- <- <-.
  set (g := set_escrow_funds _ _ _). destruct (modify_escrow_books e g l B He) as [B' G]; [|done|done|].
  { split_and!; [apply balance_zero_typed|apply balance_zero_typed|by apply balance_zero_typed|exact Sf]. }
  split; [done|]. split; [exists (g e); split; [by apply (upd_elem eid g)|done]|]. split; [by apply del_upd|].
  split_and!; try done. intros c. rewrite G, !escrow_funds_eq. cbn [g set_escrow_funds escrow_hive escrow_hbd pending_fee]. rewrite !held_zero. lia.
Qed.

Lemma remove_escrow_Ok e vop l l' : books l -> e ∈ escrows l -> remove_escrow e vop l = Ok l' ->
  conserved l l' /\ escrows l' = del eid (eid e) (escrows l).
Proof.
  intros B He H. unfold remove_escrow in H. apply bind_Ok in H as ([l1 [[h d] f]] & H1 & H).
  apply drain_escrow_Ok in H1 as (B1 & (e' & He' & Ee & Fe) & De & Th & Td & Ff & G1 & _); [|done|done].
  apply bind_Ok in H as (l2 & H2 & H). apply deposit_liquid_Ok with (c := HIVE_SYMBOL) in H2 as P2; [|apply B1|done|by left].
  apply bind_Ok in H as (l3 & H3 & H). apply deposit_liquid_Ok with (c := HBD_SYMBOL) in H3 as P3; [|apply P2|done|by right].
  apply bind_Ok in H as (l4 & H4 & H). apply deposit_any_Ok in H4 as P4; [|apply P3|done].
  assert (books l4) as B4 by eauto using paid_books.
  assert (escrows l4 = escrows l1) as E4 by (rewrite (fr_escrows _ _ (pd_frame _ _ _ P4)), (fr_escrows _ _ (pd_frame _ _ _ P3)); apply (pd_frame _ _ _ P2)).
  set (l5 := if vop then _ else l4) in H. assert (books l5) as B5 by (destruct vop; [by apply push_books|done]).
  assert (escrows l5 = escrows l4 /\ forall c, gap c l5 = gap c l4) as [E5 G5] by (by destruct vop).
  clearbody l5. apply bind_Ok in H as (l6 & H6 & H). rewrite <- Fe in H6. rewrite <- Ee in H.
  destruct (end_escrow_books e' l5 l6 l' B5) as [[B' G'] D']; [by rewrite E5, E4|done|done|].
  split; [|rewrite D', E5, E4, Ee; exact De]. split; [done|]. intros c. rewrite G', G5, (pd_gap _ _ _ P4), (pd_gap _ _ _ P3), (pd_gap _ _ _ P2), G1. lia.
Qed.

(** The flags of an escrow. *)
Lemma set_flags_Ok e t a d l : books l -> e ∈ escrows l ->
  let f := fun e => set_escrow_flags (t e) (a e) (d e) e in
  books (modify_escrow (eid e) f l) /\ (forall c, gap c (modify_escrow (eid e) f l) = gap c l) /\ f e ∈ escrows (modify_escrow (eid e) f l).
Proof.
  intros B He f. destruct (modify_escrow_books e f l B He) as [B' G]; [|done|done|].
  - apply (proj1 (Forall_forall _ _) (lw_escrows _ (bk_wf _ B)) e He).
  - split; [done|]. split; [|by apply (upd_elem eid f)]. intros c. rewrite G, !escrow_funds_eq. cbn. lia.
Qed.

Lemma flag_step (b : bool) (g : escrow_object -> escrow_object) (flag : bool) (approve : bool) e l l' :
  books l -> e ∈ escrows l -> (exists t a d, g = fun e => set_escrow_flags (t e) (a e) (d e) e) ->
  (if b then _ ← check (negb flag) AssertState; Ok (if approve then modify_escrow (eid e) g l else l) else Ok l) = Ok l' ->
  conserved l l'.
Proof.
  intros B He (t & a & d & ->) H. destruct b; [|injection H as <-; done]. apply check_bind_Ok in H as [_ H]. injection H as <-.
  destruct approve; [|done]. destruct (set_flags_Ok e t a d l B He) as (B' & G & _). done.
Qed.

Lemma escrow_approve_Ok from_name to_name agent_name who i approve l l' : books l ->
  escrow_approve from_name to_name agent_name who i approve l = Ok l' -> conserved l l'.
Proof.
  intros B H. unfold escrow_approve in H. apply bind_Ok in H as (e & He & H). apply get_escrow_Ok in He as (He & _).
  do 3 apply check_bind_Ok in H as [_ H]. apply bind_Ok in H as (l1 & H1 & H).
  apply flag_step in H1 as [B1 G1]; [|done|done|by exists (fun _ => true), agent_approved, disputed].
  apply bind_Ok in H as (e1 & He1 & H). apply escrow_by_id_Ok in He1 as [He1 _]. apply bind_Ok in H as (l2 & H2 & H).
  apply flag_step in H2 as [B2 G2]; [|done|done|by exists to_approved, (fun _ => true), disputed].
  apply bind_Ok in H as (e2 & He2 & H). apply escrow_by_id_Ok in He2 as [He2 _].
  destruct approve; cbn [negb] in H.
  - destruct (_ && _); [|injection H as <-; split; [done|intros c; by rewrite G2, G1]].
    destruct (proj1 (Forall_forall _ _) (lw_escrows _ (bk_wf _ B2)) e2 He2) as (Td & Th & Ff & Sf).
    apply bind_Ok in H as ([f0 f1] & Hf & H). apply drain_balance in Hf as [-> ->]; [|by split].
    set (g := fun e => set_escrow_funds _ _ _ e) in H. destruct (modify_escrow_books e2 g l2 B2 He2) as [B3 G3]; [|done|done|].
    { split_and!; [done|done|apply balance_zero_typed|exact Sf]. }
    apply bind_Ok in H as (l4 & H4 & H). injection H as <-. apply deposit_any_Ok in H4 as P4; [|apply B3|done].
    split; [apply push_books; by eapply paid_books|]. intros c. destruct (push_vop_Ok (escrow_approved_operation from_name to_name agent_name i (pending_fee e2)) l4 (pd_wf _ _ _ P4)) as [_ ->].
    rewrite (pd_gap _ _ _ P4), G3, G2, G1, !escrow_funds_eq. cbn [g set_escrow_funds escrow_hive escrow_hbd pending_fee]. rewrite held_zero. lia.
  - apply remove_escrow_Ok in H as [[B3 G3] _]; [|done|done]. split; [done|]. intros c. by rewrite G3, G2, G1.
Qed.

Lemma escrow_dispute_Ok from_name to_name agent_name i l l' : books l ->
  escrow_dispute from_name to_name agent_name i l = Ok l' -> conserved l l'.
Proof.
  intros B H. unfold escrow_dispute in H. apply bind_Ok in H as (? & _ & H). apply bind_Ok in H as (e & He & H). apply get_escrow_Ok in He as (He & _).
  do 5 apply check_bind_Ok in H as [_ H]. injection H as <-. destruct (set_flags_Ok e to_approved agent_approved (fun _ => true) l B He) as (B' & G & _). done.
Qed.

Lemma escrow_release_Ok from_name to_name agent_name who receiver i hbd_amount hive_amount l l' :
  books l -> funds_wf hbd_amount -> funds_wf hive_amount ->
  escrow_release from_name to_name agent_name who receiver i hbd_amount hive_amount l = Ok l' -> conserved l l'.
Proof.
  intros B F1 F2 H. unfold escrow_release in H. apply bind_Ok in H as (? & _ & H). apply bind_Ok in H as (e & He & H). apply get_escrow_Ok in He as (He & Ef & _).
  apply bind_Ok in H as (oh & Hoh & H). apply as_typed_Ok in Hoh as [-> Sh]. apply bind_Ok in H as (od & Hod & H). apply as_typed_Ok in Hod as [-> Sd].
  do 2 (apply bind_Ok in H as (? & _ & H); apply check_bind_Ok in H as [_ H]). do 4 apply check_bind_Ok in H as [_ H]. apply bind_Ok in H as (? & _ & H).
  destruct (proj1 (Forall_forall _ _) (lw_escrows _ (bk_wf _ B)) e He) as (Td & Th & Ff & Sf).
  apply bind_Ok in H as ([h0 h1] & Hh & H). apply transfer_to_typed with (c := HIVE_SYMBOL) in Hh as (_ & _ & Th0 & Th1 & Gh & _); [|done|apply balance_zero_typed|by apply funds_wf_s64].
  apply bind_Ok in H as ([d0 d1] & Hd & H). apply transfer_to_typed with (c := HBD_SYMBOL) in Hd as (_ & _ & Td0 & Td1 & Gd & _); [|done|apply balance_zero_typed|by apply funds_wf_s64].
  set (g := set_escrow_funds d0 h0 (pending_fee e)) in H. destruct (modify_escrow_books e g l B He) as [B1 G1]; [by split_and!|done|done|].
  apply bind_Ok in H as (l2 & H2 & H). apply deposit_liquid_Ok with (c := HIVE_SYMBOL) in H2 as P2; [|apply B1|done|by left].
  apply bind_Ok in H as (l3 & H3 & H). apply deposit_liquid_Ok with (c := HBD_SYMBOL) in H3 as P3; [|apply P2|done|by right].
  assert (books l3) as B3 by eauto using paid_books.
  assert (escrows l3 = escrows (modify_escrow (eid e) g l)) as E3 by (rewrite (fr_escrows _ _ (pd_frame _ _ _ P3)); apply (pd_frame _ _ _ P2)).
  assert (forall c, gap c l3 = gap c l) as G3.
  { intros c. rewrite (pd_gap _ _ _ P3), (pd_gap _ _ _ P2), G1, !escrow_funds_eq. cbn [g set_escrow_funds escrow_hive escrow_hbd pending_fee].
    specialize (Gh c). specialize (Gd c). rewrite held_zero in Gh, Gd. lia. }
  destruct (_ && _); [|injection H as <-; done]. apply bind_Ok in H as (l4 & H4 & H).
  destruct (end_escrow_books (g e) l3 l4 l' B3) as [[B' G'] _]; [rewrite E3; by apply (upd_elem eid g)|cbn; by rewrite Ef|done|].
  split; [done|]. intros c. by rewrite G', G3.
Qed.

Lemma expire_escrow_ratification_Ok l l' : books l -> expire_escrow_ratification l = Ok l' -> conserved l l'.
Proof.
  intros B H. unfold expire_escrow_ratification in H. set (xs := take_while _ _) in H.
  destruct (snapshot_Ok eid ratification_le (escrows l) xs (lw_eids _ (bk_wf _ B)) (take_while_sublist _ _)) as [Hn Hs].
  eapply (removal_loop eid escrows) in H as [C _]; [exact C| |exact B|exact Hn|exact Hs]. intros. by apply (remove_escrow_Ok x true).
Qed.

(** The escrows of an account are all gone. *)
Lemma remove_pending_escrows_Ok name l l' : books l -> remove_pending_escrows name l = Ok l' ->
  conserved l l' /\ forall e, e ∈ escrows l' -> from e <> name.
Proof.
  intros B H. destruct (snapshot_part eid escrow_id_le (fun e => bool_decide (from e = name)) (escrows l) (lw_eids _ (bk_wf _ B))) as [Hn Hs].
  eapply (removal_loop eid escrows) in H as [C D]; [|intros; by apply (remove_escrow_Ok x false)|exact B|exact Hn|intros x Hx; by apply Hs].
  split; [done|]. intros e He E. destruct (D e He) as [He' Hk]. apply Hk, list_elem_of_fmap_2, Hs. split; [by apply bool_decide_true|done].
Qed.

(** ** Who can move the funds of an escrow *)

Lemma release_allowed_Ok e who receiver now : release_allowed e who receiver now = Ok tt ->
  if disputed e then who = agent e
  else (who = from e \/ who = to e) /\ (now < escrow_expiration e -> (who = from e -> receiver = to e) /\ (who <> from e -> receiver = from e)).
Proof.
  intros H. unfold release_allowed in H. destruct (disputed e); [apply check_Ok in H; by to_prop|].
  apply check_bind_Ok in H as [Hw H]. rewrite orb_true_iff, !bool_decide_eq_true in Hw. split; [done|]. intros Hlt. rewrite (proj2 (Z.ltb_lt _ _)) in H by done.
  case_bool_decide as Ef; [apply check_Ok in H; to_prop; split; [done|congruence]|]. rewrite bool_decide_true in H by tauto. apply check_Ok in H. to_prop. split; [congruence|done].
Qed.

(** The funds of an escrow reach one of its two parties only, by the decision
    of someone entitled to it: the agent alone once there is a dispute, one of
    the parties otherwise, and before the expiration neither party can pay
    itself.  The receiver gets exactly the released amounts and no other balance
    moves. *)
Theorem escrow_released_to_a_party from_name to_name agent_name who receiver i hbd_amount hive_amount l l' :
  books l -> funds_wf hbd_amount -> funds_wf hive_amount ->
  escrow_release from_name to_name agent_name who receiver i hbd_amount hive_amount l = Ok l' ->
  exists e, find_escrow from_name i l = Some e /\ to e = to_name /\ agent e = agent_name /\ is_approved e = true /\
    (receiver = from e \/ receiver = to e) /\
    (if disputed e then who = agent e
     else (who = from e \/ who = to e) /\
       (head_block_time l < escrow_expiration e -> (who = from e -> receiver = to e) /\ (who <> from e -> receiver = from e))) /\
    liquid_gain l l' (fun n c => if bool_decide (n = receiver) then held_in c hive_amount + held_in c hbd_amount else 0).
Proof.
  intros B F1 F2 H. pose proof H as Hall. unfold escrow_release in H. apply bind_Ok in H as (? & _ & H). apply bind_Ok in H as (e & He & H).
  pose proof He as Hfind. unfold get_escrow in Hfind. destruct (find_escrow from_name i l) as [y|] eqn:Ex; [|done]. injection Hfind as ->.
  apply get_escrow_Ok in He as (He & Ef & _).
  apply bind_Ok in H as (oh & Hoh & H). apply as_typed_Ok in Hoh as [-> Sh]. apply bind_Ok in H as (od & Hod & H). apply as_typed_Ok in Hod as [-> Sd].
  do 2 (apply bind_Ok in H as (? & _ & H); apply check_bind_Ok in H as [_ H]).
  apply check_bind_Ok in H as [Ht H]. apply check_bind_Ok in H as [Hag H]. apply check_bind_Ok in H as [Hrec H]. apply check_bind_Ok in H as [Happ H].
  apply bind_Ok in H as ([] & Hallow & H). to_prop. rewrite orb_true_iff, !bool_decide_eq_true in Hrec. exists e. split_and!; try done; [by apply release_allowed_Ok|].
  destruct (proj1 (Forall_forall _ _) (lw_escrows _ (bk_wf _ B)) e He) as (Td & Th & Ff & Sf).
  apply bind_Ok in H as ([h0 h1] & Hh & H). apply transfer_to_typed with (c := HIVE_SYMBOL) in Hh as (_ & _ & Th0 & Th1 & _ & _ & Ah); [|done|apply balance_zero_typed|by apply funds_wf_s64].
  apply bind_Ok in H as ([d0 d1] & Hd & H). apply transfer_to_typed with (c := HBD_SYMBOL) in Hd as (_ & _ & Td0 & Td1 & _ & _ & Ad); [|done|apply balance_zero_typed|by apply funds_wf_s64].
  set (g := set_escrow_funds d0 h0 (pending_fee e)) in H. destruct (modify_escrow_books e g l B He) as [B1 _]; [by split_and!|done|done|].
  apply bind_Ok in H as (l2 & H2 & H). pose proof (deposit_liquid_gain _ _ _ _ _ (bk_wf _ B1) Th1 (or_introl eq_refl) H2) as G2.
  apply deposit_liquid_Ok with (c := HIVE_SYMBOL) in H2 as P2; [|apply B1|done|by left].
  apply bind_Ok in H as (l3 & H3 & H). pose proof (deposit_liquid_gain _ _ _ _ _ (pd_wf _ _ _ P2) Td1 (or_intror eq_refl) H3) as G3.
  apply deposit_liquid_Ok with (c := HBD_SYMBOL) in H3 as P3; [|apply P2|done|by right].
  assert (h1 = hive_amount /\ d1 = hbd_amount) as [-> ->].
  { destruct Th1 as [S1 _], Td1 as [S2 _]. destruct h1, d1, hive_amount, hbd_amount. cbn in *. subst. split; f_equal; lia. }
  assert (liquid_gain l3 l' (fun _ _ => 0)) as G4.
  { destruct (_ && _); [|injection H as <-; by apply no_gain]. apply bind_Ok in H as (l4 & H4 & H). apply bind_Ok in H as (z & _ & H).
    unfold remove_escrow_object in H. apply check_bind_Ok in H as [_ H]. injection H as <-. eapply gain_ext;
      [|eapply gain_trans; [eapply counter_gain; [apply P3| |exact H4]; done|by apply no_gain]]. done. }
  eapply gain_ext; [|eapply gain_trans; [apply (no_gain l (modify_escrow (eid e) g l)); done|eapply gain_trans; [exact G2|eapply gain_trans; [exact G3|exact G4]]]].
  intros n c. cbn. destruct (bool_decide _); lia.
Qed.

(** ** Escrows that are not ratified in time *)

Lemma conserved_account l l' n : liquid_gain l l' n -> forall name, is_Some (accounts l !! name) -> is_Some (accounts l' !! name).
Proof. intros H name [a Ha]. destruct (H name a Ha) as (a' & Ha' & _). by eexists. Qed.

Lemma deposit_step name t l : books l -> funds_wf t -> liquid_symbol t -> is_Some (accounts l !! name) -> held_in (symbol t) t <= gap (symbol t) l ->
  exists l', deposit_liquid name t l = Ok l' /\ deposit_any name t l = Ok l' /\ books l' /\ paid l t l' /\
    liquid_gain l l' (fun n c => if bool_decide (n = name) then held_in c t else 0).
Proof.
  intros B F S [a Ha] Hg. pose proof (bk_wf _ B) as W. pose proof (deposit_any_succeeds name a t l W Ha F S Hg) as E1.
  pose proof (deposit_liquid_succeeds name a t l W Ha F S Hg) as E2. eexists. split; [exact E2|]. split; [exact E1|].
  pose proof (deposit_any_Ok _ _ _ _ W F E1) as P. split; [by eapply paid_books|]. split; [done|]. by apply deposit_any_gain.
Qed.

Lemma remove_escrow_succeeds e vop l : books l -> accounted l -> e ∈ escrows l -> is_Some (accounts l !! from e) ->
  exists l', remove_escrow e vop l = Ok l' /\ conserved l l' /\ escrows l' = del eid (eid e) (escrows l) /\
    liquid_gain l l' (fun n c => if bool_decide (n = from e) then escrow_funds c e else 0).
Proof.
  intros B [A1 A2] He Ha. pose proof (bk_wf _ B) as W. destruct (proj1 (Forall_forall _ _) (lw_escrows _ W) e He) as (Td & Th & Ff & Sf).
  assert (exists l', remove_escrow e vop l = Ok l' /\ liquid_gain l l' (fun n c => if bool_decide (n = from e) then escrow_funds c e else 0)) as (l' & E & G).
  2: { exists l'. split; [done|]. destruct (remove_escrow_Ok e vop l l' B He E) as [C D]. done. }
  unfold remove_escrow, drain_escrow. rewrite !drain_balance_succeeds by (first [done | by split]). cbn [mbind result_bind].
  set (l1 := modify_escrow _ _ l). assert (drain_escrow e l = Ok (l1, (escrow_hive e, escrow_hbd e, pending_fee e))) as Hd.
  { unfold drain_escrow. by rewrite !drain_balance_succeeds by (first [done | by split]). }
  destruct (drain_escrow_Ok e l l1 _ _ _ B He Hd) as (B1 & (e' & He' & Ee & Fe) & De & _ & _ & _ & G1 & _).
  pose proof (held_nonneg HIVE_SYMBOL _ Ff). pose proof (held_nonneg HBD_SYMBOL _ Ff).
  pose proof (held_nonneg HIVE_SYMBOL _ (proj2 Th)). pose proof (held_nonneg HBD_SYMBOL _ (proj2 Th)).
  pose proof (held_nonneg HIVE_SYMBOL _ (proj2 Td)). pose proof (held_nonneg HBD_SYMBOL _ (proj2 Td)).
  pose proof (G1 HIVE_SYMBOL) as G1h. pose proof (G1 HBD_SYMBOL) as G1d.
  destruct (deposit_step (from e) (escrow_hive e) l1) as (l2 & -> & _ & B2 & P2 & R2); [done|apply Th|left; apply Th|done|rewrite (proj1 Th); lia|].
  cbn [mbind result_bind]. pose proof (pd_gap _ _ _ P2 HIVE_SYMBOL) as G2h. pose proof (pd_gap _ _ _ P2 HBD_SYMBOL) as G2d.
  destruct (deposit_step (from e) (escrow_hbd e) l2) as (l3 & -> & _ & B3 & P3 & R3); [done|apply Td|right; apply Td|by eapply conserved_account|rewrite (proj1 Td); lia|].
  cbn [mbind result_bind]. pose proof (pd_gap _ _ _ P3 HIVE_SYMBOL) as G3h. pose proof (pd_gap _ _ _ P3 HBD_SYMBOL) as G3d.
  destruct (deposit_step (from e) (pending_fee e) l3) as (l4 & _ & -> & B4 & P4 & R4); [done|done|done|eapply conserved_account; [exact R3|by eapply conserved_account]| |].
  { destruct Sf as [S|S]; rewrite S; lia. }
  cbn [mbind result_bind]. set (l5 := if vop then _ else l4).
  assert (accounts l5 = accounts l4 /\ escrows l5 = escrows l4 /\ ledger_wf l5) as (Ea5 & Ee5 & W5) by (destruct vop; (split; [done|]); (split; [done|]); [by apply push_vop_Ok, B4|apply B4]). clearbody l5.
  assert (is_Some (accounts l5 !! from e)) as [a5 Ha5].
  { rewrite Ea5. eapply conserved_account; [exact R4|]. eapply conserved_account; [exact R3|]. by eapply conserved_account. }
  assert (escrows l4 = escrows l1) as E4 by (rewrite (fr_escrows _ _ (pd_frame _ _ _ P4)), (fr_escrows _ _ (pd_frame _ _ _ P3)); apply (pd_frame _ _ _ P2)).
  unfold modify_account at 1, get_account at 1. rewrite Ha5. cbn [mbind result_bind]. unfold escrow_by_id. cbn [put_account set_accounts escrows]. rewrite Ee5, E4.
  set (f := set_escrow_funds _ _ _) in l1. assert (List.find (fun x => eid x =? eid e) (escrows l1) = Some (f e)) as ->.
  { change (eid e) with (eid (f e)). apply (find_key_unique eid); [apply B1|by apply (upd_elem eid f)]. }
  cbn [mbind result_bind]. unfold remove_escrow_object, f. cbn [set_escrow_funds escrow_hive escrow_hbd pending_fee]. rewrite !is_empty_zero. cbn [andb check mbind result_bind].
  eexists. split; [done|]. eapply gain_ext; [|eapply gain_trans; [apply (no_gain l l1); done|eapply gain_trans; [exact R2|eapply gain_trans; [exact R3|eapply gain_trans; [exact R4|]]]]].
  2: { eapply gain_trans; [apply (no_gain l4 l5); done|]. eapply gain_trans; [|by apply (no_gain (put_account (from e) (add_escrow_count (-1) a5) l5))].
       apply (counter_gain (from e) (add_escrow_count (-1)) l5); [done|done|]. unfold modify_account, get_account. by rewrite Ha5. }
  intros n c. rewrite escrow_funds_eq. cbv beta. destruct (bool_decide _); lia.
Qed.

#[global] Instance ratification_le_trans : Transitive ratification_le.
Proof. intros a b c. unfold ratification_le. destruct (is_approved a), (is_approved b), (is_approved c); intuition (try congruence; lia). Qed.

#[global] Instance ratification_le_total : Total ratification_le.
Proof. intros a b. unfold ratification_le. destruct (is_approved a), (is_approved b); lia || intuition congruence. Qed.

(** Not ratified by both parties in time. *)
Definition overdue (l : ledger) (e : escrow_object) : bool := negb (is_approved e) && (ratification_deadline e <=? head_block_time l).

(** An escrow that is not ratified in time is always undone: when the books
    are in order, [expire_escrow_ratification] never throws, exactly the overdue
    escrows are gone, and each sender has back all that its overdue escrows held,
    the agent's fee included. *)
Theorem unratified_escrows_are_refunded (l : ledger) : books l -> accounted l -> (forall e, e ∈ escrows l -> is_Some (accounts l !! from e)) ->
  exists l', expire_escrow_ratification l = Ok l' /\ books l' /\ accounted l' /\
    (forall e, e ∈ escrows l' <-> e ∈ escrows l /\ overdue l e = false) /\
    liquid_gain l l' (fun n c => sumZ (fun e => if bool_decide (n = from e) then escrow_funds c e else 0) (List.filter (overdue l) (escrows l))).
Proof.
  intros B A Ha. unfold expire_escrow_ratification. set (p := fun e => negb (is_approved e) && _). change p with (overdue l).
  pose proof (lw_eids _ (bk_wf _ B)) as Hn.
  assert (forall e, e ∈ take_while (overdue l) (merge_sort ratification_le (escrows l)) <-> e ∈ escrows l /\ overdue l e = true) as Hin.
  { apply take_while_sorted; [apply _|apply _|]. intros x y R Hy. unfold overdue in *. to_prop. unfold ratification_le in R.
    rewrite H in R. destruct R as [[? ?]|[E R]]; [done|]. rewrite E. cbn. apply Z.leb_le. lia. }
  set (xs := take_while _ _) in *. destruct (snapshot_Ok eid ratification_le (escrows l) xs Hn (take_while_sublist _ _)) as [Hnx Hsub].
  destruct (removal_loop_succeeds eid escrows from (fun e n c => if bool_decide (n = from e) then escrow_funds c e else 0) (fun l e => remove_escrow e true l))
    with (xs := xs) (l := l) as (l' & E & [B' G'] & R' & D'); [|done|done|done| |].
  - intros l1 e B1 A1 He Ho. by apply remove_escrow_succeeds.
  - intros e He. apply Hin in He as [He _]. auto.
  - exists l'. split; [done|]. split; [done|]. split; [by destruct A; split; rewrite G'|]. split.
    + intros e. rewrite D'. split.
      * intros [He Hk]. split; [done|]. destruct (overdue l e) eqn:Ed; [|done]. destruct Hk. apply list_elem_of_fmap_2. by apply Hin.
      * intros [He Ed]. split; [done|]. intros Hk. apply list_elem_of_fmap in Hk as (e2 & Ek & He2). apply Hin in He2 as [He2 Ed2].
        assert (e = e2) as -> by (by apply (key_inj eid (escrows l))). congruence.
    + eapply gain_ext; [|exact R']. intros n c. apply sumZ_perm. apply NoDup_Permutation; [eapply NoDup_fmap_1, Hnx| |].
      * eapply NoDup_fmap_1. eapply sublist_NoDup; [exact Hn|]. apply fmap_sublist, filterb_sublist.
      * intros e. rewrite Hin, elem_of_filterb. tauto.
Qed.
End escrow_conservation.
