(* ===== verification/Savings.v ===== *)
(** * Savings

    Models the savings evaluators of libraries/chain/hive_evaluator_transfer.cpp
    and the pending withdrawals (libraries/chain/database_market.cpp:
    [process_savings_withdraws], [remove_pending_savings_withdraws]) on the
    ledger. *)

From stdpp Require Import base numbers strings option list sorting gmap.
From S2P Require Import Prelude Fc Config AssetSymbol Asset Balance Market Ledger Transfers.
Open Scope Z_scope.

Section savings.
Context `{L : FcLib}.

(** [by_complete_from_rid] *)
Definition complete_le (a b : savings_withdraw_object) : Prop :=
  complete a < complete b \/ (complete a = complete b /\
    ((String.leb (swo_from a) (swo_from b) = true /\ swo_from a <> swo_from b) \/
     (swo_from a = swo_from b /\ request_id a <= request_id b))).

(** [by_from_rid] and [by_to_complete], within one account *)
Definition rid_le (a b : savings_withdraw_object) : Prop := request_id a <= request_id b.

Definition to_complete_le (a b : savings_withdraw_object) : Prop :=
  complete a < complete b \/ (complete a = complete b /\ sid a <= sid b).

#[global] Instance complete_le_dec : RelDecision complete_le.
Proof. intros a b. unfold complete_le. apply _. Defined.

#[global] Instance rid_le_dec : RelDecision rid_le.
Proof. intros a b. unfold rid_le. apply _. Defined.

#[global] Instance to_complete_le_dec : RelDecision to_complete_le.
Proof. intros a b. unfold to_complete_le. apply _. Defined.

Definition find_savings_withdraw (name : string) (i : Z) (l : ledger) : option savings_withdraw_object :=
  List.find (fun s => bool_decide (swo_from s = name) && (request_id s =? i)) (withdrawals l).

Definition get_savings_withdraw (name : string) (i : Z) (l : ledger) : result savings_withdraw_object :=
  match find_savings_withdraw name i l with Some s => Ok s | None => Throw AssertFc end.

Definition remove_withdrawal (s : savings_withdraw_object) (l : ledger) : result ledger :=
  _ ← check (is_empty (swo_amount s)) AssertFc;
  Ok (set_withdrawals (del sid (sid s) (withdrawals l)) l).

Definition add_withdraw_count (d : Z) (a : account) : account :=
  set_counters (pending_escrow_transfers a) (u8 (savings_withdraw_requests a + d)) (open_recurrent_transfers a) a.

Definition transfer_to_savings (from_name to_name : string) (a : asset) (l : ledger) : result ledger :=
  _ ← assert_not_pixa_ico from_name;
  _ ← get_account from_name l;
  _ ← get_account to_name l;
  _ ← check (negb (is_treasury to_name)) AssertTreasury;
  '(l, transfer) ← withdraw_any from_name a l;
  '(l, transfer) ← adjust_savings_balance to_name transfer a l;
  _ ← destroy_temp transfer;
  Ok l.

Definition transfer_from_savings (from_name to_name : string) (a : asset) (memo : string) (i : Z) (l : ledger) : result ledger :=
  _ ← assert_not_pixa_ico from_name;
  acc ← get_account from_name l;
  _ ← get_account to_name l;
  _ ← check (savings_withdraw_requests acc <? HIVE_SAVINGS_WITHDRAW_REQUEST_LIMIT) AssertLimit;
  _ ← check (sym_eqb (symbol a) HBD_SYMBOL || negb (is_treasury to_name)) AssertTreasury;
  available ← get_savings_balance acc (symbol a);
  b ← asset_geb available a; _ ← check b AssertBalance;
  neg ← asset_neg a;
  '(l, withdraw_amount) ← adjust_savings_balance from_name (balance_zero (symbol a)) neg l;
  _ ← check (match find_savings_withdraw from_name i l with None => true | Some _ => false end) UniqueViolation;
  let '(n, l) := fresh l in
  let s := mk_withdraw n from_name to_name memo i withdraw_amount (u32 (head_block_time l + HIVE_SAVINGS_WITHDRAW_TIME)) in
  modify_account from_name (add_withdraw_count 1) (set_withdrawals (withdrawals l ++ [s]) l).

(** [modify( withdrawal, access_amount().transfer_to( temp ) )] *)
Definition drain_withdrawal (s : savings_withdraw_object) (l : ledger) : result (ledger * balance) :=
  '(rest, temp) ← transfer_to_all (swo_amount s) (balance_zero (symbol (swo_amount s)));
  Ok (set_withdrawals (upd sid (sid s) (set_swo_amount rest) (withdrawals l)) l, temp).

(** The object after its amount has been drawn. *)
Definition withdrawal_by_id (i : Z) (l : ledger) : result savings_withdraw_object :=
  match List.find (fun s => sid s =? i) (withdrawals l) with Some s => Ok s | None => Throw AssertFc end.

Definition cancel_transfer_from_savings (from_name : string) (i : Z) (l : ledger) : result ledger :=
  s ← get_savings_withdraw from_name i l;
  '(l, returned) ← drain_withdrawal s l;
  '(l, returned) ← adjust_savings_balance (swo_from s) returned returned l;
  s ← withdrawal_by_id (sid s) l;
  l ← remove_withdrawal s l;
  l ← modify_account from_name (add_withdraw_count (-1)) l;
  _ ← destroy_temp returned;
  Ok l.

Definition next_complete (l : ledger) : option savings_withdraw_object :=
  first_if (fun s => complete s <=? head_block_time l) (merge_sort complete_le (withdrawals l)).

Definition fill_withdrawal (s : savings_withdraw_object) (l : ledger) : result ledger :=
  let vop := fill_transfer_from_savings_operation (swo_from s) (swo_to s) (swo_amount s) (request_id s) (swo_memo s) in
  '(l, withdrawn) ← drain_withdrawal s l;
  l ← deposit_any (swo_to s) withdrawn l;
  l ← modify_account (swo_from s) (add_withdraw_count (-1)) l;
  let l := push_vop vop l in
  s ← withdrawal_by_id (sid s) l;
  remove_withdrawal s l.

Definition process_savings_withdraws (l : ledger) : option (result ledger) :=
  drain next_complete fill_withdrawal (length (withdrawals l)) l.

(** Pending withdrawals from or to an account are paid out to it. *)
Definition drain_to (name : string) (l : ledger) (s : savings_withdraw_object) : result ledger :=
  '(l, drained) ← drain_withdrawal s l;
  l ← deposit_any name drained l;
  l ← modify_account (swo_from s) (add_withdraw_count (-1)) l;
  s ← withdrawal_by_id (sid s) l;
  remove_withdrawal s l.

Definition remove_pending_savings_withdraws (name : string) (l : ledger) : result ledger :=
  l ← foldM (drain_to name) l (merge_sort rid_le (List.filter (fun s => bool_decide (swo_from s = name)) (withdrawals l)));
  foldM (drain_to name) l (merge_sort to_complete_le (List.filter (fun s => bool_decide (swo_to s = name)) (withdrawals l))).
End savings.

Section savings_conservation.
Context `{L : FcLib} `{!FcLaws L}.

Lemma set_withdrawals_Ok x l : ledger_wf l -> Forall withdraw_wf x -> NoDup (sid <$> x) -> Forall (fun i => i < next_id l) (sid <$> x) ->
  ledger_wf (set_withdrawals x l) /\ forall c, gap c (set_withdrawals x l) =
    gap c l + sumZ (fun x => held_in c (swo_amount x)) (withdrawals l) - sumZ (fun x => held_in c (swo_amount x)) x.
Proof.
  intros W H1 H2 H3. split; [destruct W; constructor; try done; cbn; rewrite !Forall_app in *; tauto|].
  intros c. unfold gap, holdings. cbn [set_withdrawals accounts escrows withdrawals converts collateralized orders funds gpo]. lia.
Qed.

Lemma withdraw_counted name a x d l : counters_ok l -> accounts l !! name = Some a ->
  (forall n, cnt swo_from n x = cnt swo_from n (withdrawals l) + (if bool_decide (n = name) then d else 0)) ->
  (d = 1 /\ savings_withdraw_requests a < HIVE_SAVINGS_WITHDRAW_REQUEST_LIMIT) \/ (d = -1 /\ 1 <= cnt swo_from name (withdrawals l)) ->
  counters_ok (put_account name (add_withdraw_count d a) (set_withdrawals x l)).
Proof.
  intros (H1 & H2 & H3) Ha Hc Hd. destruct (H2 _ _ Ha) as [E1 E2]. pose proof (cnt_nonneg swo_from name (withdrawals l)).
  assert (u8 (savings_withdraw_requests a + d) = savings_withdraw_requests a + d) as Hu.
  { apply uwrap_id. unfold in_u, HIVE_SAVINGS_WITHDRAW_REQUEST_LIMIT in *. lia. }
  unfold counters_ok. cbn [put_account set_accounts set_withdrawals accounts escrows withdrawals recurrents]. split_and!.
  - eapply count_ok_put; [exact Ha|done|exact H1].
  - eapply count_ok_add; [exact Ha|exact Hu| |exact Hc|exact H2]. cbn. rewrite Hu. lia.
  - eapply count_ok_put; [exact Ha|done|exact H3].
Qed.

Lemma transfer_to_savings_Ok from_name to_name a l l' : books l -> funds_wf a ->
  transfer_to_savings from_name to_name a l = Ok l' -> conserved l l'.
Proof.
  intros B Fa H. unfold transfer_to_savings in H. apply bind_Ok in H as (? & _ & H). do 2 (apply bind_Ok in H as (? & _ & H)).
  apply check_bind_Ok in H as [_ H]. apply bind_Ok in H as ([l1 t] & H1 & H). apply withdraw_any_Ok in H1 as [[W1 F1 T1 G1] ->]; [|apply B|done].
  apply bind_Ok in H as ([l2 t2] & H2 & H). apply bind_Ok in H as (u & Hz & H). injection H as <-.
  apply adjust_savings_balance_Ok in H2 as ([W2 T2 F2 G2] & _); [|done|done|by apply funds_wf_s64].
  split; [eapply frame_books; [exact B|by etransitivity|done]|]. intros c. rewrite G2, G1, (destroy_temp_Ok _ _ Hz). lia.
Qed.

Lemma add_withdrawal_Ok l s : ledger_wf l -> withdraw_wf s -> sid s = next_id l ->
  let l' := set_withdrawals (withdrawals l ++ [s]) (set_next_id (next_id l + 1) l) in
  ledger_wf l' /\ forall c, gap c l' = gap c l - held_in c (swo_amount s).
Proof.
  intros W We Hk l'. destruct (fresh_Ok l W) as [Wf Gf]. destruct (snoc_NoDup sid (withdrawals l) s (next_id l)) as [N B]; [apply W|apply (ids_below l W)|done|].
  destruct (set_withdrawals_Ok (withdrawals l ++ [s]) (set_next_id (next_id l + 1) l) Wf) as [W' G]; [|done|done|].
  - apply Forall_app. split; [apply W|by apply Forall_singleton].
  - split; [done|]. intros c. unfold l'. rewrite G, Gf. cbn [set_next_id withdrawals]. rewrite sumZ_app, sumZ_cons. unfold sumZ at 3. cbn. lia.
Qed.

Lemma transfer_from_savings_Ok from_name to_name a memo i l l' : books l -> liquid_op a ->
  transfer_from_savings from_name to_name a memo i l = Ok l' -> conserved l l'.
Proof.
  intros B [Fa Sa] H. pose proof (bk_wf _ B) as W. unfold transfer_from_savings in H. apply bind_Ok in H as (? & _ & H). apply bind_Ok in H as (a0 & Ha0 & H).
  apply get_account_Ok in Ha0 as [Ha0 _]; [|done]. apply bind_Ok in H as (? & _ & H). apply check_bind_Ok in H as [Hlim H]. to_prop.
  apply check_bind_Ok in H as [_ H]. do 2 (apply bind_Ok in H as (? & _ & H)). apply check_bind_Ok in H as [_ H].
  apply bind_Ok in H as (n & Hn & H). apply funds_neg_Ok in Hn as [-> Wn]; [|done]. apply bind_Ok in H as ([l2 t] & H1 & H).
  apply adjust_savings_balance_Ok in H1 as ([W2 T F G] & S & A); [|done|apply balance_zero_typed|done].
  apply check_bind_Ok in H as [_ H]. cbn [fresh] in H. set (s := mk_withdraw _ _ _ _ _ _ _) in H.
  destruct (add_withdrawal_Ok l2 s W2) as [W3 G3]; [|done|].
  { destruct T as [St Ft]. split; [exact Ft|]. unfold liquid_symbol. cbn. rewrite St. done. }
  apply modify_account_Ok in H as (y & Hx & Wx & ->); [|done].
  destruct (set_counters_Ok from_name y (pending_escrow_transfers y) (u8 (savings_withdraw_requests y + 1)) (open_recurrent_transfers y) _ W3 Hx Wx) as [W4 G4].
  split.
  - destruct (frame_account _ _ _ _ F Ha0) as (a' & Ha' & Ec). cbn in Hx. rewrite Ha' in Hx. injection Hx as ->.
    pose proof (frame_books _ _ B F W2) as [_ C2 R1 R2 R3]. constructor; [done| |exact R1| |exact R3].
    + eapply (withdraw_counted from_name y (withdrawals l2 ++ [s]) 1 (set_next_id (next_id l2 + 1) l2)); [exact C2|done| |].
      * intros n. rewrite cnt_app. done.
      * left. split; [done|]. unfold counters in Ec. injection Ec as _ -> _. done.
    + cbn. eapply Forall_impl; [exact R2|]. cbn. lia.
  - intros c. unfold add_withdraw_count. rewrite G4, G3, G, held_zero. unfold s. cbn [swo_amount]. lia.
Qed.

Lemma withdrawal_by_id_Ok i l s : withdrawal_by_id i l = Ok s -> s ∈ withdrawals l /\ sid s = i.
Proof.
  unfold withdrawal_by_id. destruct (List.find _ _) as [x|] eqn:E; [|done]. intros [= <-]. apply find_key_Some in E as [? ?]. to_prop. done.
Qed.

Lemma get_savings_withdraw_Ok name i l s : get_savings_withdraw name i l = Ok s -> s ∈ withdrawals l /\ swo_from s = name /\ request_id s = i.
Proof.
  unfold get_savings_withdraw, find_savings_withdraw. destruct (List.find _ _) as [x|] eqn:E; [|done]. intros [= <-].
  apply find_key_Some in E as [? ?]. to_prop. done.
Qed.

Lemma drain_withdrawal_Ok s l l' t : books l -> s ∈ withdrawals l -> drain_withdrawal s l = Ok (l', t) ->
  books l' /\ (forall c, gap c l' = gap c l + held_in c t) /\ t = swo_amount s /\ funds_wf t /\ liquid_symbol t /\
  set_swo_amount (balance_zero (symbol t)) s ∈ withdrawals l' /\ del sid (sid s) (withdrawals l') = del sid (sid s) (withdrawals l) /\ accounts l' = accounts l.
Proof.
  intros B Hs H. pose proof (bk_wf _ B) as W. destruct (proj1 (Forall_forall _ _) (lw_withdrawals _ W) s Hs) as [Fs Ss].
  unfold drain_withdrawal in H. apply bind_Ok in H as ([r t'] & H1 & H). apply drain_balance in H1 as [-> ->]; [|by split]. injection H as <- <-.
  set (f := set_swo_amount _). destruct (set_withdrawals_Ok (upd sid (sid s) f (withdrawals l)) l W) as [W' G].
  - apply upd_Forall; [apply W|]. intros x Hx Hkx _. split; [apply balance_zero_typed|]. unfold liquid_symbol. cbn. done.
  - rewrite upd_keys by done. apply W.
  - rewrite upd_keys by done. apply (ids_below l W).
  - assert (forall n, cnt swo_from n (upd sid (sid s) f (withdrawals l)) = cnt swo_from n (withdrawals l)) as Hc by (intros n; by apply cnt_upd).
    split; [|split].
    + destruct B as [_ (C1 & C2 & C3) R1 R2 R3]. constructor; [done| |done|done|done]. split_and!; [done| |done]. by eapply count_ok_ext; [|exact C2].
    + intros c. rewrite G, sumZ_upd by (done || apply W). cbn [f set_swo_amount swo_amount]. rewrite held_zero. lia.
    + split_and!; try done; [by apply (upd_elem sid f)|by apply del_upd].
Qed.

(** The end of a withdrawal whose amount has been drawn, in the two orders the
    code has. *)
Lemma remove_withdrawal_Ok s l l' : ledger_wf l -> s ∈ withdrawals l -> remove_withdrawal s l = Ok l' ->
  l' = set_withdrawals (del sid (sid s) (withdrawals l)) l /\ ledger_wf l' /\ forall c, gap c l' = gap c l.
Proof.
  intros W He H. unfold remove_withdrawal in H. apply check_bind_Ok in H as [Hz H]. injection H as <-.
  destruct (set_withdrawals_Ok (del sid (sid s) (withdrawals l)) l W) as [W' G].
  - apply del_Forall, W.
  - apply del_NoDup, W.
  - rewrite Forall_fmap. apply del_Forall. rewrite <- Forall_fmap. apply (ids_below l W).
  - split; [done|]. split; [done|]. intros c. rewrite G, sumZ_del by (done || apply W). rewrite is_empty_held by done. lia.
Qed.

Lemma withdrawal_ended s a l : books l -> s ∈ withdrawals l -> is_empty (swo_amount s) = true ->
  accounts l !! swo_from s = Some a -> acc_wf a ->
  let l' := put_account (swo_from s) (add_withdraw_count (-1) a) (set_withdrawals (del sid (sid s) (withdrawals l)) l) in
  conserved l l' /\ withdrawals l' = del sid (sid s) (withdrawals l).
Proof.
  intros B Hs Hz Ha Wa l'. pose proof (bk_wf _ B) as W. destruct (remove_withdrawal_Ok s l (set_withdrawals (del sid (sid s) (withdrawals l)) l)) as (_ & W1 & G1); [done|done| |].
  { unfold remove_withdrawal. by rewrite Hz. }
  destruct (set_counters_Ok (swo_from s) a (pending_escrow_transfers a) (u8 (savings_withdraw_requests a + -1)) (open_recurrent_transfers a) _ W1 Ha Wa) as [W2 G2].
  split; [|done]. split; [|intros c; unfold l', add_withdraw_count; by rewrite G2, G1].
  destruct B as [_ C R1 R2 R3]. constructor; [done| |exact R1|exact R2|exact R3]. apply withdraw_counted; [done|done| |].
  - intros n. by apply (cnt_del sid swo_from n (withdrawals l) s (lw_sids _ W) Hs).
  - right. split; [done|]. by apply (cnt_del sid swo_from (swo_from s) (withdrawals l) s (lw_sids _ W) Hs).
Qed.

Lemma cancel_transfer_from_savings_Ok from_name i l l' : books l -> cancel_transfer_from_savings from_name i l = Ok l' -> conserved l l'.
Proof.
  intros B H. unfold cancel_transfer_from_savings in H. apply bind_Ok in H as (s & Hs & H). apply get_savings_withdraw_Ok in Hs as (Hs & <- & _).
  apply bind_Ok in H as ([l1 t] & H1 & H). apply drain_withdrawal_Ok in H1 as (B1 & G1 & -> & Ft & St & Hin & _); [|done|done].
  apply bind_Ok in H as ([l2 t2] & H2 & H). apply adjust_savings_balance_Ok in H2 as ([W2 T2 F2 G2] & _); [|apply B1|done|by apply funds_wf_s64].
  apply bind_Ok in H as (x & Hx & H). apply withdrawal_by_id_Ok in Hx as [Hx Ex].
  rewrite (fr_withdrawals _ _ F2) in Hx. assert (x = set_swo_amount (balance_zero (symbol (swo_amount s))) s) as -> by (by apply (key_inj sid (withdrawals l1) x _ (lw_sids _ (bk_wf _ B1)))).
  set (s' := set_swo_amount _ s) in *. rewrite <- (fr_withdrawals _ _ F2) in Hin.
  apply bind_Ok in H as (l3 & H3 & H). apply remove_withdrawal_Ok in H3 as (-> & W3 & _); [|done|done].
  apply bind_Ok in H as (l4 & H4 & H). apply bind_Ok in H as (u & Hz & H). injection H as <-. apply modify_account_Ok in H4 as (a & Ha & Wa & ->); [|done].
  destruct (withdrawal_ended s' a l2) as [[B' G'] _]; [by eapply frame_books|done|done|done|done|]. split; [exact B'|].
  intros c. change (swo_from s') with (swo_from s) in G'. rewrite G', G2, G1, (destroy_temp_Ok _ _ Hz). lia.
Qed.

(** Paying a withdrawal out. *)
Lemma drain_to_Ok name s l l' : books l -> s ∈ withdrawals l -> drain_to name l s = Ok l' ->
  conserved l l' /\ withdrawals l' = del sid (sid s) (withdrawals l).
Proof.
  intros B Hs H. unfold drain_to in H.
  apply bind_Ok in H as ([l1 t] & H1 & H). apply drain_withdrawal_Ok in H1 as (B1 & G1 & -> & Ft & St & Hin & Hd & _); [|done|done].
  apply bind_Ok in H as (l2 & H2 & H). apply deposit_any_Ok in H2 as [W2 F2 G2]; [|apply B1|done].
  apply bind_Ok in H as (l3 & H3 & H). apply modify_account_Ok in H3 as (a & Ha & Wa & ->); [|done].
  apply bind_Ok in H as (x & Hx & H). apply withdrawal_by_id_Ok in Hx as [Hx Ex]. cbn [put_account set_accounts withdrawals] in Hx.
  rewrite (fr_withdrawals _ _ F2) in Hx. assert (x = set_swo_amount (balance_zero (symbol (swo_amount s))) s) as -> by (by apply (key_inj sid (withdrawals l1) x _ (lw_sids _ (bk_wf _ B1)))).
  set (s' := set_swo_amount _ s) in *. rewrite <- (fr_withdrawals _ _ F2) in Hin. unfold remove_withdrawal in H. apply check_bind_Ok in H as [Hz H]. injection H as <-.
  destruct (withdrawal_ended s' a l2) as [[B' G'] D']; [by eapply frame_books|done|done|done|done|]. split.
  - split; [exact B'|]. intros c. etransitivity; [exact (G' c)|]. rewrite G2, G1. lia.
  - etransitivity; [exact D'|]. rewrite (fr_withdrawals _ _ F2). exact Hd.
Qed.

(** The virtual operation aside, [fill_withdrawal] pays to the receiver. *)
Lemma fill_withdrawal_pays s l l' : fill_withdrawal s l = Ok l' ->
  exists l1, drain_to (swo_to s) l s = Ok l1 /\
    l' = push_vop (fill_transfer_from_savings_operation (swo_from s) (swo_to s) (swo_amount s) (request_id s) (swo_memo s)) l1.
Proof.
  unfold fill_withdrawal, drain_to. intros H. apply bind_Ok in H as ([l1 t] & -> & H). apply bind_Ok in H as (l2 & H2 & H).
  apply bind_Ok in H as (l3 & H3 & H). apply bind_Ok in H as (x & Hx & H). unfold remove_withdrawal in H. apply check_bind_Ok in H as [Hz H]. injection H as <-.
  cbn. rewrite H2. cbn. rewrite H3. cbn. change (withdrawal_by_id (sid s) l3 = Ok x) in Hx. rewrite Hx. cbn. unfold remove_withdrawal. rewrite Hz. eexists. done.
Qed.

Lemma fill_withdrawal_Ok s l l' : books l -> s ∈ withdrawals l -> fill_withdrawal s l = Ok l' ->
  conserved l l' /\ withdrawals l' = del sid (sid s) (withdrawals l).
Proof.
  intros B Hs H. apply fill_withdrawal_pays in H as (l1 & H & ->). apply drain_to_Ok in H as [[B' G'] D]; [|done|done].
  split; [|exact D]. split; [by apply push_books|exact G'].
Qed.

Lemma remove_pending_savings_withdraws_Ok name l l' : books l -> remove_pending_savings_withdraws name l = Ok l' ->
  conserved l l' /\ forall s, s ∈ withdrawals l' -> swo_from s <> name /\ swo_to s <> name.
Proof.
  intros B H. unfold remove_pending_savings_withdraws in H. apply bind_Ok in H as (l1 & H1 & H2).
  destruct (snapshot_part sid rid_le (fun s => bool_decide (swo_from s = name)) (withdrawals l) (lw_sids _ (bk_wf _ B))) as [Hn Hs].
  eapply (removal_loop sid withdrawals) in H1 as [C1 D1]; [|intros; by apply (drain_to_Ok name x)|exact B|exact Hn|intros x Hx; by apply Hs].
  pose proof (proj1 C1) as B1. destruct (snapshot_part sid to_complete_le (fun s => bool_decide (swo_to s = name)) (withdrawals l1) (lw_sids _ (bk_wf _ B1))) as [Hn2 Hs2].
  eapply (removal_loop sid withdrawals) in H2 as [C2 D2]; [|intros; by apply (drain_to_Ok name x)|exact B1|exact Hn2|intros x Hx; by apply Hs2].
  split; [by eapply conserved_trans|]. intros s Hin. destruct (D2 s Hin) as [Hin1 Hk1]. destruct (D1 s Hin1) as [Hin0 Hk0]. split; intros E.
  - apply Hk0, list_elem_of_fmap_2, Hs. split; [by apply bool_decide_true|done].
  - apply Hk1, list_elem_of_fmap_2, Hs2. split; [by apply bool_decide_true|done].
Qed.

Lemma process_savings_withdraws_Ok l : books l ->
  exists r, process_savings_withdraws l = Some r /\ forall l', r = Ok l' -> conserved l l' /\ next_complete l' = None.
Proof.
  intros B. unfold process_savings_withdraws. edestruct (drain_Ok (conserved l) (fun l => length (withdrawals l)) next_complete fill_withdrawal)
    with (s := l) as (r & E & H); [|done|done|].
  - intros l1 s C Hs. apply first_if_Some in Hs as [Hs _]. rewrite merge_sort_Permutation in Hs.
    assert (0 < length (withdrawals l1))%nat as Hl by (destruct (withdrawals l1); [by apply not_elem_of_nil in Hs|cbn; lia]).
    split; [done|]. intros l2 H2. apply fill_withdrawal_Ok in H2 as [C2 D2]; [|apply C|done]. split; [by eapply conserved_trans|].
    rewrite D2, del_length; [lia|apply (bk_wf _ (proj1 C))|done].
  - by exists r.
Qed.

(** ** Withdrawals never hold up a block *)

(** The parties of the pending withdrawals have accounts. *)
Definition parties_exist (l : ledger) : Prop :=
  Forall (fun s => is_Some (accounts l !! swo_from s) /\ is_Some (accounts l !! swo_to s)) (withdrawals l).

(** The ledger after [s] has been paid out. *)
Definition filled (s : savings_withdraw_object) (a b : account) (l : ledger) : ledger :=
  let l1 := put_account (swo_to s) (credited (swo_amount s) a) (set_withdrawals (del sid (sid s) (withdrawals l)) l) in
  let b := if bool_decide (swo_from s = swo_to s) then credited (swo_amount s) a else b in
  push_vop (fill_transfer_from_savings_operation (swo_from s) (swo_to s) (swo_amount s) (request_id s) (swo_memo s))
    (put_account (swo_from s) (add_withdraw_count (-1) b) l1).

Lemma find_drawn s f xs : NoDup (sid <$> xs) -> s ∈ xs -> (forall x, sid (f x) = sid x) ->
  List.find (fun x => sid x =? sid s) (upd sid (sid s) f xs) = Some (f s).
Proof.
  intros Hn Hs Hf. pose proof (find_key_unique sid (upd sid (sid s) f xs) (f s)) as H. rewrite Hf in H.
  apply H; [by rewrite upd_keys|by apply (upd_elem sid f)].
Qed.

Lemma fill_withdrawal_succeeds s a b l : books l -> s ∈ withdrawals l -> accounts l !! swo_to s = Some a -> accounts l !! swo_from s = Some b ->
  0 <= gap (symbol (swo_amount s)) l -> fill_withdrawal s l = Ok (filled s a b l).
Proof.
  intros B Hs Ha Hb Hg. pose proof (bk_wf _ B) as W. destruct (proj1 (Forall_forall _ _) (lw_withdrawals _ W) s Hs) as [Fs Ss].
  unfold fill_withdrawal, drain_withdrawal. rewrite drain_balance_succeeds by (by split). cbn [mbind result_bind].
  set (f := set_swo_amount _). set (l1 := set_withdrawals _ l).
  assert (drain_withdrawal s l = Ok (l1, swo_amount s)) as Hd by (unfold drain_withdrawal; by rewrite drain_balance_succeeds by (by split)).
  destruct (drain_withdrawal_Ok s l l1 (swo_amount s) B Hs Hd) as (B1 & G1 & _ & _ & _ & Hin & Hdel & Ea).
  rewrite (deposit_any_succeeds _ a) by (first [apply B1 | done | rewrite G1; lia]). cbn [mbind result_bind].
  unfold modify_account, get_account. cbn [put_account set_accounts accounts].
  assert (<[swo_to s := credited (swo_amount s) a]> (accounts l1) !! swo_from s = Some (if bool_decide (swo_from s = swo_to s) then credited (swo_amount s) a else b)) as ->.
  { rewrite Ea. case_bool_decide as E; [rewrite E; apply lookup_insert_eq|by rewrite lookup_insert_ne]. }
  cbn [mbind result_bind]. unfold withdrawal_by_id. cbn [push_vop put_account set_accounts withdrawals l1 set_withdrawals].
  rewrite find_drawn by (first [done | apply W]). cbn [mbind result_bind]. unfold remove_withdrawal. cbn [f set_swo_amount swo_amount sid].
  change (is_empty (balance_zero (symbol (swo_amount s)))) with true. cbn [check mbind result_bind]. unfold filled. f_equal.
  cbn [withdrawals push_vop put_account set_accounts]. rewrite Hdel. done.
Qed.

(** Due at the time of the ledger. *)
Definition due_now (l : ledger) (s : savings_withdraw_object) : bool := complete s <=? head_block_time l.

(** Everything that was due is paid out, and nothing else happens to the liquid
    balances. *)
Definition paid_out (l l' : ledger) : Prop :=
  withdrawals l' = List.filter (fun s => negb (due_now l s)) (withdrawals l) /\
  forall name a, accounts l !! name = Some a -> exists a', accounts l' !! name = Some a' /\
    (forall c, account_funds c (liquid a') = account_funds c (liquid a) +
       sumZ (fun s => if due_now l s && bool_decide (swo_to s = name) then held_in c (swo_amount s) else 0) (withdrawals l)) /\
    savings_withdraw_requests a' = cnt swo_from name (withdrawals l').

Lemma paid_out_none l : books l -> (forall s, s ∈ withdrawals l -> due_now l s = false) -> paid_out l l.
Proof.
  intros B Hn. split.
  - induction (withdrawals l) as [|s ws IH]; [done|]. cbn. rewrite (Hn s) by (by left). cbn. f_equal. apply IH. intros x Hx. apply Hn. by right.
  - intros name a Ha. exists a. split; [done|]. split; [|by apply (proj1 (proj2 (bk_counters _ B)) name a Ha)].
    intros c. assert (sumZ (fun s => if due_now l s && bool_decide (swo_to s = name) then held_in c (swo_amount s) else 0) (withdrawals l) = 0) as ->; [|lia].
    induction (withdrawals l) as [|s ws IH]; [done|]. rewrite sumZ_cons, (Hn s) by (by left). rewrite IH; [done|]. intros x Hx. apply Hn. by right.
Qed.

Lemma filled_account s a b l name x : accounts l !! swo_to s = Some a -> accounts l !! swo_from s = Some b -> account_wf (liquid a) ->
  liquid_symbol (swo_amount s) -> accounts l !! name = Some x ->
  exists x', accounts (filled s a b l) !! name = Some x' /\
    forall c, account_funds c (liquid x') = account_funds c (liquid x) + (if bool_decide (swo_to s = name) then held_in c (swo_amount s) else 0).
Proof.
  intros Ha Hb Wa Ss Hx. assert (forall c, account_funds c (liquid (credited (swo_amount s) a)) = account_funds c (liquid a) + held_in c (swo_amount s)) as Hcr.
  { intros c. apply credit_funds; done. }
  unfold filled. cbn [push_vop put_account set_accounts accounts set_withdrawals]. destruct (decide (swo_from s = name)) as [Ef|Ef].
  - rewrite Ef, lookup_insert_eq. eexists. split; [done|]. intros c. cbn [add_withdraw_count set_counters liquid].
    rewrite (bool_decide_ext (name = swo_to s) (swo_to s = name)) by (split; congruence). case_bool_decide as E.
    + rewrite Hcr. congruence.
    + assert (b = x) as -> by congruence. lia.
  - rewrite lookup_insert_ne by done. case_bool_decide as E.
    + subst name. rewrite lookup_insert_eq. eexists. split; [done|]. intros c. rewrite Hcr. congruence.
    + rewrite lookup_insert_ne by done. exists x. split; [done|]. intros c. lia.
Qed.

Lemma filter_del (p : savings_withdraw_object -> bool) s xs : NoDup (sid <$> xs) -> s ∈ xs -> p s = false ->
  List.filter p (del sid (sid s) xs) = List.filter p xs.
Proof.
  intros Hn Hs Hp. assert (forall x, x ∈ xs -> sid x = sid s -> p x = false) as Hk.
  { intros x Hx E. by rewrite (key_inj sid xs x s Hn Hx Hs E). }
  clear Hn Hs. induction xs as [|x xs IH]; [done|]. unfold del in *. cbn. destruct (Z.eqb_spec (sid x) (sid s)) as [E|E]; cbn.
  - rewrite (Hk x) by (by left || done). apply IH. intros y Hy. apply Hk. by right.
  - rewrite IH by (intros y Hy; apply Hk; by right). done.
Qed.

Lemma paid_out_step s a b l l' : books l -> s ∈ withdrawals l -> due_now l s = true ->
  accounts l !! swo_to s = Some a -> accounts l !! swo_from s = Some b -> paid_out (filled s a b l) l' -> paid_out l l'.
Proof.
  intros B Hs Hdue Ha Hb [Hw Hp]. pose proof (bk_wf _ B) as W. destruct (proj1 (Forall_forall _ _) (lw_withdrawals _ W) s Hs) as [_ Ss].
  change (withdrawals (filled s a b l)) with (del sid (sid s) (withdrawals l)) in *. change (due_now (filled s a b l)) with (due_now l) in *. split.
  - rewrite Hw. apply filter_del; [apply W|done|by rewrite Hdue].
  - intros name x Hx. destruct (filled_account s a b l name x Ha Hb) as (x1 & Hx1 & F1); [apply (lw_accounts _ W _ _ Ha)|done|done|].
    destruct (Hp name x1 Hx1) as (x' & Hx' & F2 & C2). exists x'. split; [done|]. split; [|done]. intros c. rewrite F2, F1.
    rewrite sumZ_del by (done || apply W). rewrite Hdue. cbn [andb]. lia.
Qed.

#[global] Instance complete_le_total : Total complete_le.
Proof.
  intros a b. unfold complete_le. destruct (Z.lt_trichotomy (complete a) (complete b)) as [?|[Ec|?]]; [tauto| |tauto].
  destruct (decide (swo_from a = swo_from b)) as [E|E].
  - destruct (Z.le_ge_cases (request_id a) (request_id b)); [left|right]; right; (split; [lia|]); right; (split; [congruence|lia]).
  - destruct (String.leb_total (swo_from a) (swo_from b)); [left|right]; right; (split; [lia|]); left; (split; [done|congruence]).
Qed.

Lemma none_due l : next_complete l = None -> forall s, s ∈ withdrawals l -> due_now l s = false.
Proof.
  intros H s Hs. apply Z.leb_gt. eapply (first_if_None complete_le complete); [apply _| |exact H|exact Hs].
  intros x y. unfold complete_le. lia.
Qed.

Lemma filled_parties s a b l : parties_exist l -> parties_exist (filled s a b l).
Proof.
  unfold parties_exist. intros H. change (withdrawals (filled s a b l)) with (del sid (sid s) (withdrawals l)). apply del_Forall.
  eapply Forall_impl; [exact H|]. assert (forall n, is_Some (accounts l !! n) -> is_Some (accounts (filled s a b l) !! n)) as Hk.
  { intros n Hn. cbn. destruct (decide (swo_from s = n)) as [->|]; [rewrite lookup_insert_eq; by eexists|].
    rewrite lookup_insert_ne by done. destruct (decide (swo_to s = n)) as [->|]; [rewrite lookup_insert_eq; by eexists|by rewrite lookup_insert_ne]. }
  intros x [H1 H2]. auto.
Qed.

(** Paying out savings withdrawals never holds up a block: when the books are
    in order and the parties have accounts, [process_savings_withdraws] ends
    without an exception, exactly the withdrawals that are due are gone, every
    receiver has what was due to it, and the request counters are exact. *)
Theorem due_withdrawals_are_paid (l : ledger) : books l -> accounted l -> parties_exist l ->
  exists l', process_savings_withdraws l = Some (Ok l') /\ paid_out l l' /\ books l' /\ accounted l'.
Proof.
  unfold process_savings_withdraws. remember (length (withdrawals l)) as fuel eqn:Ef. revert l Ef.
  induction fuel as [|fuel IH]; intros l Ef B A P; cbn [drain]; destruct (next_complete l) as [s|] eqn:En.
  1, 3: assert (s ∈ withdrawals l /\ due_now l s = true) as [Hs Hdue] by
    (apply first_if_Some in En as [Hs Hd]; split; [by rewrite merge_sort_Permutation in Hs|exact Hd]).
  3, 4: exists l; split_and!; [done|by apply paid_out_none; [|apply none_due]|done|apply A..].
  - destruct (withdrawals l); [by apply not_elem_of_nil in Hs|done].
  - destruct (proj1 (Forall_forall _ _) P s Hs) as [[b Hb] [a Ha]].
    assert (0 <= gap (symbol (swo_amount s)) l) as Hg.
    { destruct A as [A1 A2]. destruct (proj1 (Forall_forall _ _) (lw_withdrawals _ (bk_wf _ B)) s Hs) as [_ [-> | ->]]; lia. }
    pose proof (fill_withdrawal_succeeds s a b l B Hs Ha Hb Hg) as Hfill. rewrite Hfill.
    destruct (fill_withdrawal_Ok s l _ B Hs Hfill) as [[B1 G1] D1].
    destruct (IH (filled s a b l)) as (l' & E & P' & B' & A'); [|done|by destruct A; split; rewrite G1|by apply filled_parties|].
    + rewrite D1, del_length; [lia|apply (bk_wf _ B)|done].
    + exists l'. split_and!; [done|by eapply paid_out_step|done|apply A'..].
Qed.
End savings_conservation.
