(* ===== verification/Conversions.v ===== *)
(** * Conversions

    Models the conversion evaluators of
    libraries/chain/hive_evaluator_transfer.cpp ([convert],
    [collateralized_convert]) and their settlement
    (libraries/chain/database_conversion.cpp) on the ledger. *)

From stdpp Require Import base numbers strings option list sorting gmap.
From S2P Require Import Prelude Fc Config AssetSymbol Asset Balance Market Ledger Transfers.
Open Scope Z_scope.

Section conversion.
Context `{L : FcLib}.

(** [by_conversion_date] *)
Definition date_le (a b : convert_request_object) : Prop :=
  conversion_date a < conversion_date b \/ (conversion_date a = conversion_date b /\ cid a <= cid b).

Definition cdate_le (a b : collateralized_convert_request_object) : Prop :=
  cc_conversion_date a < cc_conversion_date b \/ (cc_conversion_date a = cc_conversion_date b /\ ccid a <= ccid b).

(** [by_owner], within one account *)
Definition requestid_le (a b : convert_request_object) : Prop := requestid a <= requestid b.

#[global] Instance date_le_dec : RelDecision date_le.
Proof. intros a b. unfold date_le. apply _. Defined.

#[global] Instance cdate_le_dec : RelDecision cdate_le.
Proof. intros a b. unfold cdate_le. apply _. Defined.

#[global] Instance requestid_le_dec : RelDecision requestid_le.
Proof. intros a b. unfold requestid_le. apply _. Defined.

Definition has_convert (name : string) (i : Z) (l : ledger) : bool :=
  existsb (fun c => bool_decide (cr_owner c = name) && (requestid c =? i)) (converts l).

Definition has_collateralized (name : string) (i : Z) (l : ledger) : bool :=
  existsb (fun c => bool_decide (cc_owner c = name) && (cc_requestid c =? i)) (collateralized l).

Definition convert (owner : string) (i : Z) (a : asset) (l : ledger) : result ledger :=
  _ ← get_account owner l;
  a ← as_typed HBD_SYMBOL a;
  '(l, convert_amount) ← withdraw_liquid owner HBD_SYMBOL a l;
  _ ← validate_price_feed_available (get_hbd_price l);
  _ ← check (negb (has_convert owner i l)) UniqueViolation;
  let '(n, l) := fresh l in
  Ok (set_converts (converts l ++ [mk_convert n owner convert_amount i (u32 (head_block_time l + HIVE_CONVERSION_DELAY))]) l).

(** Half of the collateral is converted at once, at the lowest recent price and
    with a fee; the other half stays. *)
Definition collateralized_convert (owner : string) (i : Z) (a : asset) (l : ledger) : result ledger :=
  _ ← get_account owner l;
  a ← as_typed HIVE_SYMBOL a;
  '(l, collateral) ← withdraw_liquid owner HIVE_SYMBOL a l;
  _ ← validate_price_feed_available (get_hbd_price l);
  _ ← check (0 <? hbd_print_rate (gpo l)) AssertState;
  r ← uint128_to_uint64 (u128 (u128 (amount a) * HIVE_100_PERCENT) / HIVE_CONVERSION_COLLATERAL_RATIO);
  converted_amount ← tiny_fee_quote false (mk_tiny (share_of_u64 r)) (current_min_history (feed l)) HIVE_COLLATERALIZED_CONVERSION_FEE;
  let converted_amount := tiny_to_asset converted_amount in
  _ ← check (0 <? amount converted_amount) AssertChainAsset;
  '(g, converted) ← issue_HBD converted_amount (get_hbd_price l) false (gpo l);
  l ← deposit_liquid owner converted (set_gpo g l);
  percent_hbd ← calculate_HBD_percent l;
  _ ← check (percent_hbd <=? hbd_stop_percent (gpo l)) AssertLimit;
  _ ← check (negb (has_collateralized owner i l)) UniqueViolation;
  let '(n, l) := fresh l in
  let c := mk_cconvert n owner collateral converted_amount i (u32 (head_block_time l + HIVE_CONVERSION_DELAY)) in
  Ok (push_vop (collateralized_convert_immediate_conversion_operation owner i converted_amount)
        (set_collateralized (collateralized l ++ [c]) l)).

(** [pending_record]; the last field distinguishes the two kinds of request. *)
Record pending_record : Set := mk_pending { pr_account : string; transfer_to_account : asset; pr_vop : ledger_vop; pr_requestid : Z }.

(** The locals of [process_conversions]. *)
Record conversion_state : Set := mk_conv {
  cs_ledger : ledger;
  pending_data : list pending_record;
  cs_hbd : balance;
  cs_hive : balance;
  hive_to_issue : asset
}.

Definition next_convert (s : conversion_state) : option convert_request_object :=
  first_if (fun c => conversion_date c <=? head_block_time (cs_ledger s)) (merge_sort date_le (converts (cs_ledger s))).

Definition next_collateralized (s : conversion_state) : option collateralized_convert_request_object :=
  first_if (fun c => cc_conversion_date c <=? head_block_time (cs_ledger s)) (merge_sort cdate_le (collateralized (cs_ledger s))).

Definition collect_convert (c : convert_request_object) (s : conversion_state) : result conversion_state :=
  let l := cs_ledger s in
  amount_to_issue ← hbd_at (cr_amount c) (get_hbd_price l);
  _ ← get_account (cr_owner c) l;
  let record := mk_pending (cr_owner c) amount_to_issue
                  (fill_convert_request_operation (cr_owner c) (requestid c) (cr_amount c) amount_to_issue) (requestid c) in
  to_issue ← asset_add (hive_to_issue s) amount_to_issue;
  '(rest, hbd) ← transfer_to_all (cr_amount c) (cs_hbd s);
  _ ← check (is_empty rest) AssertFc;
  Ok (mk_conv (set_converts (del cid (cid c) (converts l)) l) (pending_data s ++ [record]) hbd (cs_hive s) to_issue).

Definition collect_collateralized (c : collateralized_convert_request_object) (s : conversion_state) : result conversion_state :=
  let l := cs_ledger s in
  _ ← get_account (cc_owner c) l;
  required ← tiny_fee_base false (mk_tiny (amount (converted_amount c))) (market_median_history (feed l)) HIVE_COLLATERALIZED_CONVERSION_FEE;
  let required_hive := tiny_to_asset required in
  excess_collateral ← asset_sub (collateral_amount c) required_hive;
  let short := amount excess_collateral <? 0 in
  let required_hive := if short then collateral_amount c else required_hive in
  let to_return := if short then balance_zero HIVE_SYMBOL else excess_collateral in
  to_issue ← asset_sub (hive_to_issue s) required_hive;
  let record := mk_pending (cc_owner c) excess_collateral
                  (fill_collateralized_convert_request_operation (cc_owner c) (cc_requestid c) required_hive (converted_amount c) to_return)
                  (cc_requestid c) in
  '(rest, hive) ← transfer_to_all (collateral_amount c) (cs_hive s);
  _ ← check (is_empty rest) AssertFc;
  Ok (mk_conv (set_collateralized (del ccid (ccid c) (collateralized l)) l) (pending_data s ++ [record]) (cs_hbd s) hive to_issue).

(** Burns what was collected and issues or burns the difference in HIVE. *)
Definition settle_conversions (s : conversion_state) : result (ledger * balance * balance) :=
  let l := cs_ledger s in
  sum ← asset_add (cs_hive s) (hive_to_issue s);
  _ ← check (0 <=? amount sum) AssertFc;
  if negb (Z.lor (amount (hive_to_issue s)) (amount (cs_hbd s)) =? 0) then
    '(g, hive) ←
      (if amount (hive_to_issue s) <? 0 then
         n ← asset_neg (hive_to_issue s);
         '(to_burn, hive) ← transfer_from (balance_zero HIVE_SYMBOL) (cs_hive s) n;
         '(g, to_burn) ← burn_HIVE to_burn (gpo l);
         _ ← destroy_temp to_burn;
         Ok (g, hive)
       else
         '(g, new_hive) ← issue_HIVE (hive_to_issue s) (gpo l);
         '(new_hive, hive) ← transfer_to_all new_hive (cs_hive s);
         _ ← destroy_temp new_hive;
         Ok (g, hive));
    '(g, hbd) ← burn_HBD (cs_hbd s) (get_hbd_price l) false g;
    Ok (set_gpo g l, hbd, hive)
  else Ok (l, cs_hbd s, cs_hive s).

Definition pay_convert (st : ledger * balance) (r : pending_record) : result (ledger * balance) :=
  '(l, hive) ← adjust_liquid (pr_account r) st.2 (transfer_to_account r) st.1;
  Ok (push_vop (pr_vop r) l, hive).

Definition pay_collateralized (st : ledger * balance) (r : pending_record) : result (ledger * balance) :=
  '(l, hive) ←
    (if amount (transfer_to_account r) <? 0 then
       _ ← get_account (pr_account r) st.1;
       shortfall ← asset_neg (transfer_to_account r);
       Ok (push_vop (insufficient_collateral_warning (pr_requestid r) (pr_account r) shortfall) st.1, st.2)
     else adjust_liquid (pr_account r) st.2 (transfer_to_account r) st.1);
  Ok (push_vop (pr_vop r) l, hive).

Definition finish_conversions (regular : nat) (s : conversion_state) : result ledger :=
  '(l, hbd, hive) ← settle_conversions s;
  st ← foldM pay_convert (l, hive) (take regular (pending_data s));
  '(l, hive) ← foldM pay_collateralized st (drop regular (pending_data s));
  _ ← destroy_temp hive;
  _ ← destroy_temp hbd;
  Ok l.

Definition process_conversions (l : ledger) : option (result ledger) :=
  if tprice_is_null (get_hbd_price l) then Some (Ok l)
  else
    match drain next_convert collect_convert (length (converts l))
            (mk_conv l [] (balance_zero HBD_SYMBOL) (balance_zero HIVE_SYMBOL) (balance_zero HIVE_SYMBOL)) with
    | Some (Ok s) =>
        let regular := length (pending_data s) in
        match drain next_collateralized collect_collateralized (length (collateralized l)) s with
        | Some (Ok s) => Some (finish_conversions regular s)
        | Some (Throw e) => Some (Throw e)
        | None => None
        end
    | Some (Throw e) => Some (Throw e)
    | None => None
    end.

Definition remove_pending_conversion_requests (name : string) (l : ledger) : result ledger :=
  l ← foldM (fun l c =>
        '(rest, hbd_drained) ← transfer_to_all (cr_amount c) (balance_zero HBD_SYMBOL);
        l ← deposit_liquid name hbd_drained (set_converts (upd cid (cid c) (set_cr_amount rest) (converts l)) l);
        _ ← check (is_empty rest) AssertFc;
        Ok (set_converts (del cid (cid c) (converts l)) l)) l
      (merge_sort requestid_le (List.filter (fun c => bool_decide (cr_owner c = name)) (converts l)));
  _ ← check (negb (existsb (fun c => bool_decide (cc_owner c = name)) (collateralized l))) AssertFc;
  Ok l.
End conversion.

Section conversion_conservation.
Context `{L : FcLib} `{!FcLaws L}.

Lemma set_converts_Ok x l : ledger_wf l -> Forall (fun x => typed HBD_SYMBOL (cr_amount x)) x -> NoDup (cid <$> x) ->
  Forall (fun i => i < next_id l) (cid <$> x) ->
  ledger_wf (set_converts x l) /\ forall c, gap c (set_converts x l) =
    gap c l + sumZ (fun x => held_in c (cr_amount x)) (converts l) - sumZ (fun x => held_in c (cr_amount x)) x.
Proof.
  intros W H1 H2 H3. split; [destruct W; constructor; try done; cbn; rewrite !Forall_app in *; tauto|].
  intros c. unfold gap, holdings. cbn [set_converts accounts escrows withdrawals converts collateralized orders funds gpo]. lia.
Qed.

Lemma set_collateralized_Ok x l : ledger_wf l ->
  Forall (fun x => typed HIVE_SYMBOL (collateral_amount x) /\ typed HBD_SYMBOL (converted_amount x)) x -> NoDup (ccid <$> x) ->
  Forall (fun i => i < next_id l) (ccid <$> x) ->
  ledger_wf (set_collateralized x l) /\ forall c, gap c (set_collateralized x l) =
    gap c l + sumZ (fun x => held_in c (collateral_amount x)) (collateralized l) - sumZ (fun x => held_in c (collateral_amount x)) x.
Proof.
  intros W H1 H2 H3. split; [destruct W; constructor; try done; cbn; rewrite !Forall_app in *; tauto|].
  intros c. unfold gap, holdings. cbn [set_collateralized accounts escrows withdrawals converts collateralized orders funds gpo]. lia.
Qed.

Lemma asset_neg_any a n : asset_wf a -> in_s 64 (- amount a) -> asset_neg a = Ok n -> n = mk_asset (- amount a) (symbol a) /\ asset_wf n.
Proof.
  intros Ha Hr H. unfold asset_neg in H. apply bind_Ok in H as (r & Hn & H). injection H as <-.
  rewrite safe_neg_exact in Hn by done. by injection Hn as <-.
Qed.

Lemma add_convert_Ok l x : ledger_wf l -> typed HBD_SYMBOL (cr_amount x) -> cid x = next_id l ->
  let l' := set_converts (converts l ++ [x]) (set_next_id (next_id l + 1) l) in
  ledger_wf l' /\ forall c, gap c l' = gap c l - held_in c (cr_amount x).
Proof.
  intros W Wx Hk l'. destruct (fresh_Ok l W) as [Wf Gf]. destruct (snoc_NoDup cid (converts l) x (next_id l)) as [N B]; [apply W|apply (ids_below l W)|done|].
  destruct (set_converts_Ok (converts l ++ [x]) (set_next_id (next_id l + 1) l) Wf) as [W' G]; [|done|done|].
  - apply Forall_app. split; [apply W|by apply Forall_singleton].
  - split; [done|]. intros c. unfold l'. rewrite G, Gf. cbn [set_next_id converts]. rewrite sumZ_app, sumZ_cons. unfold sumZ at 3. cbn. lia.
Qed.

Lemma add_collateralized_Ok l x : ledger_wf l -> typed HIVE_SYMBOL (collateral_amount x) -> typed HBD_SYMBOL (converted_amount x) -> ccid x = next_id l ->
  let l' := set_collateralized (collateralized l ++ [x]) (set_next_id (next_id l + 1) l) in
  ledger_wf l' /\ forall c, gap c l' = gap c l - held_in c (collateral_amount x).
Proof.
  intros W Wx Wy Hk l'. destruct (fresh_Ok l W) as [Wf Gf]. destruct (snoc_NoDup ccid (collateralized l) x (next_id l)) as [N B]; [apply W|apply (ids_below l W)|done|].
  destruct (set_collateralized_Ok (collateralized l ++ [x]) (set_next_id (next_id l + 1) l) Wf) as [W' G]; [|done|done|].
  - apply Forall_app. split; [apply W|by apply Forall_singleton].
  - split; [done|]. intros c. unfold l'. rewrite G, Gf. cbn [set_next_id collateralized]. rewrite sumZ_app, sumZ_cons. unfold sumZ at 3. cbn. lia.
Qed.

Lemma convert_Ok owner i a l l' : books l -> funds_wf a -> convert owner i a l = Ok l' -> conserved l l'.
Proof.
  intros B Fa H. unfold convert in H. apply bind_Ok in H as (? & _ & H). apply bind_Ok in H as (a' & Ha & H). apply as_typed_Ok in Ha as [-> Sa].
  apply bind_Ok in H as ([l1 t] & H1 & H). apply withdraw_liquid_Ok in H1 as [[W1 F1 T1 G1] ->]; [|apply B|done|done|by right].
  apply bind_Ok in H as (? & _ & H). apply check_bind_Ok in H as [_ H]. cbn [fresh] in H. injection H as <-. set (y := mk_convert _ _ _ _ _).
  destruct (add_convert_Ok l1 y W1 T1 eq_refl) as [W2 G2]. split; [|intros c; rewrite G2, G1; cbn; lia].
  pose proof (frame_books _ _ B F1 W1) as [_ C R1 R2 R3]. constructor; [exact W2|exact C|exact R1| |exact R3]. cbn. eapply Forall_impl; [exact R2|]. cbn. lia.
Qed.

Lemma mul_div_scaled_wf a b c d e r : mul_div_scaled a b c d e = Ok r -> in_s 64 r.
Proof.
  unfold mul_div_scaled, signed_share. intros H. result_inv.
  match goal with Hu : uint128_to_uint64 _ = Ok _ |- _ => apply uint128_to_uint64_range in Hu end.
  rewrite share_of_u64_narrow; [apply swrap_range; lia|]. destruct (a <? 0); [apply uwrap_range; lia|done].
Qed.

Lemma collateralized_convert_Ok owner i a l l' : books l -> funds_wf a -> collateralized_convert owner i a l = Ok l' -> conserved l l'.
Proof.
  intros B Fa H. unfold collateralized_convert in H. apply bind_Ok in H as (? & _ & H). apply bind_Ok in H as (a' & Ha & H). apply as_typed_Ok in Ha as [-> Sa].
  apply bind_Ok in H as ([l1 t] & H1 & H). apply withdraw_liquid_Ok in H1 as [[W1 F1 T1 G1] ->]; [|apply B|done|done|by left].
  apply bind_Ok in H as (? & _ & H). apply check_bind_Ok in H as [_ H]. apply bind_Ok in H as (? & _ & H).
  apply bind_Ok in H as (v & Hv & H). apply check_bind_Ok in H as [_ H].
  assert (asset_wf (tiny_to_asset v)) as Wv.
  { unfold tiny_fee_quote in Hv. apply bind_Ok in Hv as (r & Hr & Hv). injection Hv as <-. unfold asset_wf. cbn. by eapply mul_div_scaled_wf. }
  apply bind_Ok in H as ([g b] & H2 & H). apply issue_HBD_Ok in H2 as (Is & Tb & ->); [|apply W1|done|done].
  destruct (set_issued l1 g _ W1 Is) as [W2 G2]. apply bind_Ok in H as (l2 & H3 & H).
  apply deposit_liquid_Ok with (c := HBD_SYMBOL) in H3 as [W3 F3 G3]; [|done|done|by right].
  apply bind_Ok in H as (? & _ & H). do 2 apply check_bind_Ok in H as [_ H]. cbn [fresh] in H. injection H as <-. set (y := mk_cconvert _ _ _ _ _ _).
  destruct (add_collateralized_Ok l2 y W3 T1 Tb eq_refl) as [W4 G4]. split.
  - apply push_books. assert (frame l l2) as F.
    { etransitivity; [exact F1|]. etransitivity; [|exact F3]. apply set_gpo_frame, Is. }
    pose proof (frame_books _ _ B F W3) as [_ C R1 R2 R3]. constructor; [exact W4|exact C|exact R1| |exact R3]. cbn. eapply Forall_impl; [exact R2|]. cbn. lia.
  - intros c. rewrite push_gap, G4, G3, G2, G1. unfold y. cbn [collateral_amount]. lia.
Qed.

(** What the records of collected requests are to be paid: the regular ones their
    amount, the collateralized ones what is left of the collateral. *)
Definition due (regular : nat) (rs : list pending_record) : Z :=
  sumZ (fun r => amount (transfer_to_account r)) (take regular rs) + sumZ (fun r => Z.max 0 (amount (transfer_to_account r))) (drop regular rs).

Record collected (l0 : ledger) (regular : nat) (s : conversion_state) : Prop := {
  co_books : books (cs_ledger s);
  co_hbd : typed HBD_SYMBOL (cs_hbd s);
  co_hive : typed HIVE_SYMBOL (cs_hive s);
  co_issue : symbol (hive_to_issue s) = HIVE_SYMBOL /\ asset_wf (hive_to_issue s);
  co_pending : Forall (fun r => symbol (transfer_to_account r) = HIVE_SYMBOL /\ asset_wf (transfer_to_account r)) (pending_data s);
  co_regular : (regular <= length (pending_data s))%nat;
  co_balance : amount (cs_hive s) + amount (hive_to_issue s) = due regular (pending_data s);
  co_gap c : gap c (cs_ledger s) = gap c l0 + held_in c (cs_hbd s) + held_in c (cs_hive s)
}.

Lemma due_regular rs r : due (length (rs ++ [r])) (rs ++ [r]) = due (length rs) rs + amount (transfer_to_account r).
Proof. unfold due. rewrite !take_ge, !drop_ge by lia. rewrite sumZ_app, sumZ_cons. cbn. lia. Qed.

Lemma due_collateralized n rs r : (n <= length rs)%nat -> due n (rs ++ [r]) = due n rs + Z.max 0 (amount (transfer_to_account r)).
Proof. intros Hn. unfold due. rewrite take_app_le, drop_app_le by lia. rewrite sumZ_app, sumZ_cons. cbn. lia. Qed.

Lemma del_convert_Ok x l : books l -> x ∈ converts l ->
  let l' := set_converts (del cid (cid x) (converts l)) l in books l' /\ forall c, gap c l' = gap c l + held_in c (cr_amount x).
Proof.
  intros B Hx l'. pose proof (bk_wf _ B) as W. destruct (set_converts_Ok (del cid (cid x) (converts l)) l W) as [W' G].
  - apply del_Forall, W.
  - apply del_NoDup, W.
  - rewrite Forall_fmap. apply del_Forall. rewrite <- Forall_fmap. apply (ids_below l W).
  - split; [destruct B; by constructor|]. intros c. unfold l'. rewrite G, sumZ_del by (done || apply W). lia.
Qed.

Lemma del_collateralized_Ok x l : books l -> x ∈ collateralized l ->
  let l' := set_collateralized (del ccid (ccid x) (collateralized l)) l in books l' /\ forall c, gap c l' = gap c l + held_in c (collateral_amount x).
Proof.
  intros B Hx l'. pose proof (bk_wf _ B) as W. destruct (set_collateralized_Ok (del ccid (ccid x) (collateralized l)) l W) as [W' G].
  - apply del_Forall, W.
  - apply del_NoDup, W.
  - rewrite Forall_fmap. apply del_Forall. rewrite <- Forall_fmap. apply (ids_below l W).
  - split; [destruct B; by constructor|]. intros c. unfold l'. rewrite G, sumZ_del by (done || apply W). lia.
Qed.

Lemma collect_convert_Ok l0 x s s' : collected l0 (length (pending_data s)) s -> x ∈ converts (cs_ledger s) -> collect_convert x s = Ok s' ->
  collected l0 (length (pending_data s')) s' /\ converts (cs_ledger s') = del cid (cid x) (converts (cs_ledger s)) /\
  collateralized (cs_ledger s') = collateralized (cs_ledger s) /\ time (gpo (cs_ledger s')) = time (gpo (cs_ledger s)).
Proof.
  intros [B Td Th [Si Wi] Hp Hr Hb Hg] Hx H. pose proof (proj1 (Forall_forall _ _) (lw_converts _ (bk_wf _ B)) x Hx) as Tx.
  unfold collect_convert in H. apply bind_Ok in H as (a & Ha & H). apply hbd_at_Ok in Ha as [Sa Wa]. apply bind_Ok in H as (? & _ & H).
  apply bind_Ok in H as (i & Hi & H). apply asset_add_Ok in Hi as (_ & -> & W1); [|done|done].
  apply bind_Ok in H as ([r d] & Ht & H). apply transfer_to_typed with (c := HBD_SYMBOL) in Ht as (_ & _ & _ & Td' & Gd & A1 & A2); [|done|by eapply typed_self|by apply (typed_wf HBD_SYMBOL)].
  apply check_bind_Ok in H as [Hz H]. injection H as <-. destruct (del_convert_Ok x (cs_ledger s) B Hx) as [B' G']. split; [|done].
  constructor; cbn [cs_ledger pending_data cs_hbd cs_hive hive_to_issue]; try done.
  - apply Forall_app. split; [done|]. apply Forall_singleton. done.
  - rewrite due_regular. cbn. lia.
  - intros c. rewrite G', Hg. specialize (Gd c). rewrite (is_empty_held r Hz) in Gd. lia.
Qed.

Lemma collect_collateralized_Ok l0 n x s s' : collected l0 n s -> x ∈ collateralized (cs_ledger s) -> collect_collateralized x s = Ok s' ->
  collected l0 n s' /\ collateralized (cs_ledger s') = del ccid (ccid x) (collateralized (cs_ledger s)) /\
  converts (cs_ledger s') = converts (cs_ledger s) /\ time (gpo (cs_ledger s')) = time (gpo (cs_ledger s)).
Proof.
  intros [B Td Th [Si Wi] Hp Hr Hb Hg] Hx H. destruct (proj1 (Forall_forall _ _) (lw_collateral _ (bk_wf _ B)) x Hx) as [Tx _].
  unfold collect_collateralized in H. apply bind_Ok in H as (? & _ & H). apply bind_Ok in H as (q & Hq & H).
  assert (asset_wf (tiny_to_asset q)) as Wq.
  { unfold tiny_fee_base in Hq. apply bind_Ok in Hq as (r & Hr' & Hq). injection Hq as <-. unfold asset_wf. cbn. by eapply mul_div_scaled_wf. }
  apply bind_Ok in H as (ex & Hex & H). apply asset_sub_Ok in Hex as (_ & -> & Wex); [|by apply (typed_wf HIVE_SYMBOL)|done].
  destruct Tx as [Sx Fx]. apply bind_Ok in H as (i & Hi & H). apply asset_sub_Ok in Hi as (_ & -> & W1); [|done|destruct (_ <? _); [by apply funds_wf_s64|done]].
  apply bind_Ok in H as ([r d] & Ht & H). apply transfer_to_typed with (c := HIVE_SYMBOL) in Ht as (_ & _ & _ & Td' & Gd & A1 & A2); [|done|by eapply typed_self|by apply funds_wf_s64].
  apply check_bind_Ok in H as [Hz H]. injection H as <-. destruct (del_collateralized_Ok x (cs_ledger s) B Hx) as [B' G']. split; [|done].
  constructor; cbn [cs_ledger pending_data cs_hbd cs_hive hive_to_issue]; try done.
  - apply Forall_app. split; [done|]. apply Forall_singleton. done.
  - rewrite length_app. lia.
  - rewrite due_collateralized by done. cbn [transfer_to_account amount tiny_to_asset] in *. destruct (_ <? 0) eqn:E; to_prop; cbn [amount tiny_to_asset] in *; lia.
  - intros c. rewrite G', Hg. specialize (Gd c). rewrite (is_empty_held r Hz) in Gd. lia.
Qed.

(** The settlement: the collected HBD is gone and what is left of the HIVE is
    what is due. *)
Lemma settle_conversions_Ok l0 n s l hbd hive : 0 <= gap HIVE_SYMBOL l0 -> 0 <= gap HBD_SYMBOL l0 -> collected l0 n s ->
  settle_conversions s = Ok (l, hbd, hive) ->
  books l /\ frame (cs_ledger s) l /\ amount hbd = 0 /\ typed HIVE_SYMBOL hive /\ amount hive = due n (pending_data s) /\ forall c, gap c l = gap c l0 + held_in c hbd + held_in c hive.
Proof.
  intros Hh Hd [B Td Th [Si Wi] Hp Hr Hb Hg] H. unfold settle_conversions in H. apply bind_Ok in H as (sum & Hs & H).
  apply asset_add_Ok in Hs as (_ & -> & Ws); [|by apply (typed_wf HIVE_SYMBOL)|done]. apply check_bind_Ok in H as [Hpos H]. cbn in Hpos. to_prop.
  assert (held_in HBD_SYMBOL (cs_hive s) = 0 /\ held_in HIVE_SYMBOL (cs_hbd s) = 0) as [Z1 Z2].
  { unfold held_in. destruct Th as [-> _], Td as [-> _]. done. }
  destruct (negb _) eqn:Ez.
  - apply bind_Ok in H as ([g hv] & H1 & H).
    assert (issued (gpo (cs_ledger s)) g (fun c => held_in c hv - held_in c (cs_hive s)) /\ typed HIVE_SYMBOL hv /\ amount hv = due n (pending_data s)) as (Is & Thv & Ahv).
    { destruct (_ <? 0) eqn:En; to_prop.
      - apply bind_Ok in H1 as (m & Hm & H1). apply asset_neg_any in Hm as [-> Wm]; [|done|destruct Th as [_ [? ?]]; unfold in_s; lia].
        apply bind_Ok in H1 as ([tb hv'] & Ht & H1). apply transfer_from_typed with (c := HIVE_SYMBOL) in Ht as (_ & _ & Ttb & Thv & Gt & At & Ah); [|apply balance_zero_typed|by eapply typed_self|done].
        apply bind_Ok in H1 as ([g' z] & Hbu & H1). apply bind_Ok in H1 as (u & Hz & H1). injection H1 as <- <-.
        apply burn_HIVE_Ok in Hbu as [[I1 I2 I3 I4] _]; [|apply B|done|].
        2: { rewrite <- supply_HIVE by apply B. eapply temp_covered; [apply B|done|]. rewrite Hg. specialize (Gt HIVE_SYMBOL). rewrite held_zero in Gt.
             pose proof (held_nonneg HIVE_SYMBOL hv' (proj2 Thv)). pose proof (held_nonneg HIVE_SYMBOL (cs_hbd s) (proj2 Td)). lia. }
        split; [|split; [done|cbn in Ah; lia]]. constructor; [done|done|done|]. intros c. rewrite I4. specialize (Gt c). rewrite held_zero in Gt. lia.
      - apply bind_Ok in H1 as ([g' nh] & Hi & H1). apply issue_HIVE_Ok in Hi as ([I1 I2 I3 I4] & Tn & ->); [|apply B|done|done].
        apply bind_Ok in H1 as ([nh' hv'] & Ht & H1). apply bind_Ok in H1 as (u & Hz & H1). injection H1 as <- <-.
        apply transfer_to_typed with (c := HIVE_SYMBOL) in Ht as (_ & _ & Ttb & Thv & Gt & At & Ah); [|done|by eapply typed_self|by apply (typed_wf HIVE_SYMBOL)].
        pose proof (destroy_temp_Ok _ _ Hz) as Hz'. split; [|split; [done|lia]]. constructor; [done|done|done|]. intros c. rewrite I4. specialize (Gt c). specialize (Hz' c). lia. }
    destruct (set_issued _ _ _ (bk_wf _ B) Is) as [W1 G1]. apply bind_Ok in H as ([g2 hb] & H2 & H). injection H as <- <- <-.
    apply burn_HBD_Ok in H2 as [I2 ->]; [|apply Is|done|].
    2: { rewrite <- supply_HBD by apply Is. eapply (temp_covered _ _ (set_gpo g (cs_ledger s))); [exact W1|done|]. rewrite G1, Hg.
         assert (held_in HBD_SYMBOL hv = 0) by (unfold held_in; by destruct Thv as [-> _]). lia. }
    destruct (set_issued (set_gpo g (cs_ledger s)) g2 _ W1 I2) as [W2 G2].
    assert (frame (cs_ledger s) (set_gpo g2 (cs_ledger s))) as Fr by (apply set_gpo_frame; etransitivity; [apply I2|apply Is]).
    split; [|split_and!; try done; intros c; change (set_gpo g2 (cs_ledger s)) with (set_gpo g2 (set_gpo g (cs_ledger s))); rewrite G2, G1, Hg, held_zero; lia].
    by eapply frame_books; [exact B| |exact W2].
  - injection H as <- <- <-. apply negb_false_iff, Z.eqb_eq, Z.lor_eq_0_iff in Ez as [E1 E2]. split; [done|]. split; [done|]. split_and!; try done. lia.
Qed.

Lemma pay_convert_Ok r st st' : books st.1 -> typed HIVE_SYMBOL st.2 -> asset_wf (transfer_to_account r) -> pay_convert st r = Ok st' ->
  books st'.1 /\ frame st.1 st'.1 /\ typed HIVE_SYMBOL st'.2 /\ amount st'.2 = amount st.2 - amount (transfer_to_account r) /\
  forall c, gap c st'.1 - held_in c st'.2 = gap c st.1 - held_in c st.2.
Proof.
  intros B T Wr H. unfold pay_convert in H. apply bind_Ok in H as ([l hive] & H & E). injection E as <-.
  apply adjust_liquid_Ok in H as ([W T' F G] & S & A); [|apply B|apply T|done|left; apply T]. cbn [fst snd] in *.
  split; [apply push_books; by eapply frame_books|]. split; [etransitivity; [exact F|apply push_frame]|]. split; [destruct T as [<- _]; exact T'|]. split; [done|].
  intros c. rewrite push_gap, G. lia.
Qed.

Lemma pay_collateralized_Ok r st st' : books st.1 -> typed HIVE_SYMBOL st.2 -> asset_wf (transfer_to_account r) -> pay_collateralized st r = Ok st' ->
  books st'.1 /\ frame st.1 st'.1 /\ typed HIVE_SYMBOL st'.2 /\ amount st'.2 = amount st.2 - Z.max 0 (amount (transfer_to_account r)) /\
  forall c, gap c st'.1 - held_in c st'.2 = gap c st.1 - held_in c st.2.
Proof.
  intros B T Wr H. destruct (amount (transfer_to_account r) <? 0) eqn:E; unfold pay_collateralized in H; rewrite E in H; to_prop.
  - apply bind_Ok in H as ([l hive] & H & E1). injection E1 as <-. do 2 apply bind_Ok in H as (? & _ & H). injection H as <- <-. cbn [fst snd].
    split; [by do 2 apply push_books|]. split; [etransitivity; apply push_frame|]. split; [done|]. split; [lia|]. done.
  - destruct (pay_convert_Ok r st st' B T Wr H) as (? & ? & ? & Ha & ?). split; [done|]. split; [done|]. split; [done|]. split; [lia|done].
Qed.

Lemma pay_all (pay : ledger * balance -> pending_record -> result (ledger * balance)) (f : Z -> Z) :
  (forall r st st', books st.1 -> typed HIVE_SYMBOL st.2 -> asset_wf (transfer_to_account r) -> pay st r = Ok st' ->
    books st'.1 /\ frame st.1 st'.1 /\ typed HIVE_SYMBOL st'.2 /\ amount st'.2 = amount st.2 - f (amount (transfer_to_account r)) /\
    forall c, gap c st'.1 - held_in c st'.2 = gap c st.1 - held_in c st.2) ->
  forall rs st st', books st.1 -> typed HIVE_SYMBOL st.2 -> Forall (fun r => symbol (transfer_to_account r) = HIVE_SYMBOL /\ asset_wf (transfer_to_account r)) rs ->
  foldM pay st rs = Ok st' ->
  books st'.1 /\ frame st.1 st'.1 /\ typed HIVE_SYMBOL st'.2 /\ amount st'.2 = amount st.2 - sumZ (fun r => f (amount (transfer_to_account r))) rs /\
  forall c, gap c st'.1 - held_in c st'.2 = gap c st.1 - held_in c st.2.
Proof.
  intros Hp rs. induction rs as [|r rs IH]; intros st st' B T Hf H; cbn in H.
  - injection H as <-. split; [done|]. split; [done|]. split; [done|]. split; [cbn; lia|done].
  - destruct (pay st r) as [st1|] eqn:E; [|done]. inversion Hf as [|? ? [_ Wr] Hf']; subst.
    destruct (Hp r st st1 B T Wr E) as (B1 & F1 & T1 & A1 & G1). destruct (IH st1 st' B1 T1 Hf' H) as (B2 & F2 & T2 & A2 & G2).
    split; [done|]. split; [by etransitivity|]. split; [done|]. split; [rewrite sumZ_cons; lia|]. intros c. by rewrite G2.
Qed.

(** Nothing remains of what was collected once everyone is paid. *)
Lemma finish_conversions_Ok l0 n s l1 hbd hive st l' hive' : 0 <= gap HIVE_SYMBOL l0 -> 0 <= gap HBD_SYMBOL l0 -> collected l0 n s ->
  settle_conversions s = Ok (l1, hbd, hive) -> foldM pay_convert (l1, hive) (take n (pending_data s)) = Ok st ->
  foldM pay_collateralized st (drop n (pending_data s)) = Ok (l', hive') ->
  amount hbd = 0 /\ amount hive' = 0 /\ conserved l0 l' /\ frame (cs_ledger s) l'.
Proof.
  intros Hh Hd C Hs H1 H2. destruct (settle_conversions_Ok _ _ _ _ _ _ Hh Hd C Hs) as (B & F & Zb & T & A & G).
  pose proof (co_pending _ _ _ C) as Hp. rewrite <- (take_drop n (pending_data s)) in Hp. apply Forall_app in Hp as [Hp1 Hp2].
  apply (pay_all _ (fun x => x) pay_convert_Ok) in H1 as (B1 & F1 & T1 & A1 & G1); [|done|done|done].
  apply (pay_all _ (Z.max 0) pay_collateralized_Ok) in H2 as (B2 & F2 & T2 & A2 & G2); [|done|done|done]. cbn [fst snd] in *.
  assert (amount hive' = 0) as Zh by (unfold due in A; lia). split; [done|]. split; [done|]. split; [|by do 2 (etransitivity; [eassumption|])]. split; [done|]. intros c.
  assert (forall b, amount b = 0 -> held_in c b = 0) as Hz by (intros b Hb; unfold held_in; rewrite Hb; by destruct (sym_eqb _ _)).
  specialize (G1 c). specialize (G2 c). specialize (G c). rewrite Hz in G2, G by done. lia.
Qed.

(** Where the collection starts. *)
Definition conversion_start (l : ledger) : conversion_state :=
  mk_conv l [] (balance_zero HBD_SYMBOL) (balance_zero HIVE_SYMBOL) (balance_zero HIVE_SYMBOL).

Lemma start_collected l : books l -> collected l 0 (conversion_start l).
Proof.
  intros B. constructor; cbn; try done; try apply balance_zero_typed; try (split; [done|unfold asset_wf; cbn; unfold in_s; lia]).
  intros c. rewrite !held_zero. lia.
Qed.

Lemma collect_converts l : books l -> exists r, drain next_convert collect_convert (length (converts l)) (conversion_start l) = Some r /\
  forall s, r = Ok s -> collected l (length (pending_data s)) s /\ collateralized (cs_ledger s) = collateralized l /\
    time (gpo (cs_ledger s)) = time (gpo l) /\ next_convert s = None.
Proof.
  intros B. edestruct (drain_Ok (fun s => collected l (length (pending_data s)) s /\ collateralized (cs_ledger s) = collateralized l /\ time (gpo (cs_ledger s)) = time (gpo l))
    (fun s => length (converts (cs_ledger s))) next_convert collect_convert) with (s := conversion_start l) (fuel := length (converts l)) as (r & E & H); [| |done|].
  - intros s x (C & Ec & Et) Hx. apply first_if_Some in Hx as [Hx _]. rewrite merge_sort_Permutation in Hx.
    assert (0 < length (converts (cs_ledger s)))%nat as Hl by (destruct (converts (cs_ledger s)); [by apply not_elem_of_nil in Hx|cbn; lia]).
    split; [done|]. intros s' Hs. destruct (collect_convert_Ok l x s s' C Hx Hs) as (C' & D' & E' & T').
    split; [|rewrite D', del_length; [lia|apply (co_books _ _ _ C)|done]]. split; [done|]. split; [by rewrite E'|by rewrite T'].
  - split; [by apply start_collected|done].
  - exists r. split; [done|]. intros s Hs. destruct (H s Hs) as [(? & ? & ?) ?]. done.
Qed.

Lemma collect_all_collateralized l n s1 : collected l n s1 ->
  exists r, drain next_collateralized collect_collateralized (length (collateralized (cs_ledger s1))) s1 = Some r /\
  forall s, r = Ok s -> collected l n s /\ converts (cs_ledger s) = converts (cs_ledger s1) /\ time (gpo (cs_ledger s)) = time (gpo (cs_ledger s1)) /\ next_collateralized s = None.
Proof.
  intros C1. edestruct (drain_Ok (fun s => collected l n s /\ converts (cs_ledger s) = converts (cs_ledger s1) /\ time (gpo (cs_ledger s)) = time (gpo (cs_ledger s1)))
    (fun s => length (collateralized (cs_ledger s))) next_collateralized collect_collateralized)
    with (s := s1) (fuel := length (collateralized (cs_ledger s1))) as (r & E & H); [|done|done|].
  - intros s x (C & Ec & Et) Hx. apply first_if_Some in Hx as [Hx _]. rewrite merge_sort_Permutation in Hx.
    assert (0 < length (collateralized (cs_ledger s)))%nat as Hl by (destruct (collateralized (cs_ledger s)); [by apply not_elem_of_nil in Hx|cbn; lia]).
    split; [done|]. intros s' Hs. destruct (collect_collateralized_Ok l n x s s' C Hx Hs) as (C' & D' & E' & T').
    split; [|rewrite D', del_length; [lia|apply (co_books _ _ _ C)|done]]. split; [done|]. split; [by rewrite E'|by rewrite T'].
  - exists r. split; [done|]. intros s Hs. destruct (H s Hs) as [(? & ? & ?) ?]. done.
Qed.

(** Nothing that is due remains. *)
Definition none_matured (l : ledger) : Prop :=
  Forall (fun c => head_block_time l < conversion_date c) (converts l) /\ Forall (fun c => head_block_time l < cc_conversion_date c) (collateralized l).

#[global] Instance date_le_total : Total date_le.
Proof. intros a b. unfold date_le. lia. Qed.
#[global] Instance cdate_le_total : Total cdate_le.
Proof. intros a b. unfold cdate_le. lia. Qed.

Lemma none_matured_Ok s s' l' : next_convert s = None -> converts (cs_ledger s') = converts (cs_ledger s) -> time (gpo (cs_ledger s')) = time (gpo (cs_ledger s)) ->
  next_collateralized s' = None -> frame (cs_ledger s') l' -> none_matured l'.
Proof.
  intros H1 Ec Et H2 F. unfold none_matured, head_block_time. rewrite (fr_converts _ _ F), (fr_collateralized _ _ F), (fr_time _ _ F). split; apply Forall_forall; intros x Hx.
  - rewrite Et. eapply (first_if_None date_le conversion_date); [apply _| |exact H1|by rewrite <- Ec]. intros a b. unfold date_le. lia.
  - eapply (first_if_None cdate_le cc_conversion_date); [apply _| |exact H2|exact Hx]. intros a b. unfold cdate_le. lia.
Qed.

Lemma process_conversions_Ok l : books l -> 0 <= gap HIVE_SYMBOL l -> 0 <= gap HBD_SYMBOL l ->
  exists r, process_conversions l = Some r /\
    forall l', r = Ok l' -> conserved l l' /\ (tprice_is_null (get_hbd_price l) = false -> none_matured l').
Proof.
  intros B Hh Hd. unfold process_conversions. destruct (tprice_is_null _); [exists (Ok l); split; [done|]; by intros ? [= <-]|].
  destruct (collect_converts l B) as (r1 & E1 & H1). change (mk_conv _ _ _ _ _) with (conversion_start l). rewrite E1.
  destruct r1 as [s1|e]; [|by exists (Throw e)]. destruct (H1 s1 eq_refl) as (C1 & Ec & _ & N1).
  destruct (collect_all_collateralized l _ s1 C1) as (r2 & E2 & H2). rewrite Ec in E2. rewrite E2.
  destruct r2 as [s2|e]; [|by exists (Throw e)]. destruct (H2 s2 eq_refl) as (C2 & Ec2 & Et2 & N2). eexists. split; [done|]. intros l' H.
  unfold finish_conversions in H. apply bind_Ok in H as ([[l1 hbd] hive] & Hs & H). apply bind_Ok in H as (st & Hp & H).
  apply bind_Ok in H as ([l2 hive2] & Hq & H). do 2 apply bind_Ok in H as (? & _ & H). injection H as <-.
  destruct (finish_conversions_Ok _ _ _ _ _ _ _ _ _ Hh Hd C2 Hs Hp Hq) as (_ & _ & ? & F). split; [done|]. intros _. by eapply none_matured_Ok.
Qed.

(** C37. The conversions of a block end and settle exactly: when the books are in
    order [process_conversions] terminates; once the supply has been settled and
    everyone has been paid, nothing of what was collected remains, so that the
    closing checks of the temporary balances hold; and no request that is due is
    left. *)
Theorem conversions_settle_exactly (l : ledger) : books l -> accounted l ->
  (exists r, process_conversions l = Some r /\ forall l', r = Ok l' -> books l' /\ accounted l' /\ (tprice_is_null (get_hbd_price l) = false -> none_matured l')) /\
  forall s1 s2 l1 hbd hive st l2 hive2, tprice_is_null (get_hbd_price l) = false ->
    drain next_convert collect_convert (length (converts l)) (conversion_start l) = Some (Ok s1) ->
    drain next_collateralized collect_collateralized (length (collateralized l)) s1 = Some (Ok s2) ->
    settle_conversions s2 = Ok (l1, hbd, hive) ->
    foldM pay_convert (l1, hive) (take (length (pending_data s1)) (pending_data s2)) = Ok st ->
    foldM pay_collateralized st (drop (length (pending_data s1)) (pending_data s2)) = Ok (l2, hive2) ->
    process_conversions l = Some (Ok l2).
Proof.
  intros B [A1 A2]. split.
  - destruct (process_conversions_Ok l B) as (r & E & H); [lia|lia|]. exists r. split; [done|]. intros l' Hr. destruct (H l' Hr) as [[B' G'] N].
    split; [done|]. split; [|done]. split; by rewrite G'.
  - intros s1 s2 l1 hbd hive st l2 hive2 Hp D1 D2 Hs P1 P2. unfold process_conversions. rewrite Hp. change (mk_conv _ _ _ _ _) with (conversion_start l).
    destruct (collect_converts l B) as (r1 & E1 & H1). rewrite E1 in D1. injection D1 as ->. destruct (H1 s1 eq_refl) as (C1 & Ec & _ & _).
    destruct (collect_all_collateralized l _ s1 C1) as (r2 & E2 & H2). rewrite Ec, D2 in E2. injection E2 as <-. destruct (H2 s2 eq_refl) as (C2 & _).
    rewrite E1, D2. destruct (finish_conversions_Ok l _ _ _ _ _ _ _ _ ltac:(lia) ltac:(lia) C2 Hs P1 P2) as (Z1 & Z2 & _).
    unfold finish_conversions. rewrite Hs. cbn [mbind result_bind]. rewrite P1. cbn [mbind result_bind]. rewrite P2. cbn [mbind result_bind].
    unfold destroy_temp, is_empty. by rewrite Z1, Z2.
Qed.

(** One request handed back to its owner. *)
Lemma return_request_Ok name x l l' : books l -> x ∈ converts l ->
  ('(rest, hbd_drained) ← transfer_to_all (cr_amount x) (balance_zero HBD_SYMBOL);
   l ← deposit_liquid name hbd_drained (set_converts (upd cid (cid x) (set_cr_amount rest) (converts l)) l);
   _ ← check (is_empty rest) AssertFc;
   Ok (set_converts (del cid (cid x) (converts l)) l)) = Ok l' ->
  conserved l l' /\ converts l' = del cid (cid x) (converts l).
Proof.
  intros B Hx H. pose proof (bk_wf _ B) as W. pose proof (proj1 (Forall_forall _ _) (lw_converts _ W) x Hx) as Tx.
  apply bind_Ok in H as ([rest t] & H1 & H). apply drain_balance in H1 as [-> ->]; [|done].
  set (f := set_cr_amount _) in H. destruct (set_converts_Ok (upd cid (cid x) f (converts l)) l W) as [W1 G1].
  { apply upd_Forall; [apply W|]. intros y Hy Hk _. apply balance_zero_typed. }
  { rewrite upd_keys by done. apply W. }
  { rewrite upd_keys by done. apply (ids_below l W). }
  assert (books (set_converts (upd cid (cid x) f (converts l)) l)) as B1 by (destruct B; by constructor).
  apply bind_Ok in H as (l2 & H2 & H). apply deposit_liquid_Ok with (c := HBD_SYMBOL) in H2 as P2; [|done|done|by right].
  apply check_bind_Ok in H as [_ H]. injection H as <-. pose proof (fr_converts _ _ (pd_frame _ _ _ P2)) as E2. cbn [set_converts converts] in E2.
  assert (f x ∈ converts l2) as Hf by (rewrite E2; by apply (upd_elem cid f)).
  destruct (del_convert_Ok (f x) l2) as [B3 G3]; [by eapply paid_books|done|]. change (cid (f x)) with (cid x) in *.
  split; [split; [exact B3|]|cbn; rewrite E2; by apply del_upd].
  intros c. rewrite G3, (pd_gap _ _ _ P2), G1, sumZ_upd by (done || apply W). change (cr_amount (f x)) with (balance_zero HBD_SYMBOL). rewrite held_zero. lia.
Qed.

Lemma remove_pending_conversion_requests_Ok name l l' : books l -> remove_pending_conversion_requests name l = Ok l' ->
  conserved l l' /\ forall x, x ∈ converts l' -> cr_owner x <> name.
Proof.
  intros B H. unfold remove_pending_conversion_requests in H. apply bind_Ok in H as (l1 & H & Hc). apply check_bind_Ok in Hc as [_ Hc]. injection Hc as <-.
  destruct (snapshot_part cid requestid_le (fun c => bool_decide (cr_owner c = name)) (converts l) (lw_cids _ (bk_wf _ B))) as [Hn Hs].
  eapply (removal_loop cid converts) in H as [C D]; [|intros; by apply (return_request_Ok name x)|exact B|exact Hn|intros x Hx; by apply Hs].
  split; [done|]. intros x Hx E. destruct (D x Hx) as [Hx' Hk]. apply Hk, list_elem_of_fmap_2, Hs. split; [by apply bool_decide_true|done].
Qed.
End conversion_conservation.
