(* ===== verification/Recurrent.v ===== *)
(** * Recurrent transfers

    Models [recurrent_transfer_evaluator]
    (libraries/chain/hive_evaluator_transfer.cpp),
    [recurrent_transfer_object::get_final_trigger_date] and
    [process_recurrent_transfers] (libraries/chain/database_dhf.cpp) on the
    ledger. *)

From stdpp Require Import base numbers strings option list sorting gmap.
From S2P Require Import Prelude Fc Config AssetSymbol Asset Balance Market Ledger Transfers.
Open Scope Z_scope.

Section recurrent.
Context `{L : FcLib}.

(** [by_trigger_date] *)
Definition trigger_le (a b : recurrent_transfer_object) : Prop :=
  trigger_date a < trigger_date b \/ (trigger_date a = trigger_date b /\ rid a <= rid b).

#[global] Instance trigger_le_dec : RelDecision trigger_le.
Proof. intros a b. unfold trigger_le. apply _. Defined.

Definition add_recurrent_count (d : Z) (a : account) : account :=
  set_counters (pending_escrow_transfers a) (savings_withdraw_requests a) (u16 (open_recurrent_transfers a + d)) a.

Definition find_recurrent (from_name to_name : string) (pair : Z) (l : ledger) : option recurrent_transfer_object :=
  List.find (fun r => bool_decide (rt_from r = from_name) && bool_decide (rt_to r = to_name) && (pair_id r =? pair)) (recurrents l).

(** [trigger_date + hours( recurrence * ( remaining_executions - 1 ) )]; the
    product is computed in a 32-bit [int]. *)
Definition get_final_trigger_date (r : recurrent_transfer_object) : Z :=
  u32 (trigger_date r + 3600 * i32 (recurrence r * (remaining_executions r - 1))).

Definition set_schedule (date executions failures : Z) (r : recurrent_transfer_object) : recurrent_transfer_object :=
  mk_recurrent (rid r) date (rt_from r) (rt_to r) (rt_amount r) (rt_memo r) (recurrence r) executions failures (pair_id r).

(** The lambda that updates a transfer that already exists. *)
Definition edit_recurrent (date : Z) (a : asset) (memo : string) (recur executions : Z) (r : recurrent_transfer_object) : recurrent_transfer_object :=
  mk_recurrent (rid r) date (rt_from r) (rt_to r) a memo recur executions (consecutive_failures r) (pair_id r).

Definition HIVE_HARDFORK_1_31 : Z := 31.

Definition recurrent_transfer (from_name to_name : string) (a : asset) (memo : string) (recur executions pair : Z) (l : ledger) :
    result ledger :=
  acc ← get_account from_name l;
  _ ← get_account to_name l;
  available ← get_balance acc (symbol a);
  b ← asset_geb available a; _ ← check b AssertBalance;
  let latest := head_block_time l + 60 * 60 * 24 * HIVE_MAX_RECURRENT_TRANSFER_END_DATE in
  match find_recurrent from_name to_name pair l with
  | None =>
      _ ← check (open_recurrent_transfers acc <? HIVE_MAX_OPEN_RECURRENT_TRANSFERS) AssertLimit;
      _ ← check (negb (amount a =? 0)) AssertChainAsset;
      _ ← check (2 <=? executions) AssertLimit;
      let '(n, l) := fresh l in
      let r := mk_recurrent n (head_block_time l) from_name to_name a memo recur executions 0 pair in
      _ ← check (get_final_trigger_date r <=? latest) AssertTime;
      modify_account from_name (add_recurrent_count 1) (set_recurrents (recurrents l ++ [r]) l)
  | Some r =>
      if amount a =? 0 then
        _ ← check (has_hardfork HIVE_HARDFORK_1_31 l || (2 <=? executions)) AssertLimit;
        let l := set_recurrents (del rid (rid r) (recurrents l)) l in
        acc ← get_account from_name l;
        _ ← check (0 <? open_recurrent_transfers acc) AssertState;
        modify_account from_name (add_recurrent_count (-1)) l
      else
        _ ← check (has_hardfork HIVE_HARDFORK_1_31 l || (1 <? executions)) AssertLimit;
        let date := if recur =? recurrence r then trigger_date r else u32 (head_block_time l + 3600 * recur) in
        _ ← check (get_final_trigger_date (edit_recurrent date a memo recur executions r) <=? latest) AssertTime;
        Ok (set_recurrents (upd rid (rid r) (edit_recurrent date a memo recur executions) (recurrents l)) l)
  end.

(** One transfer that is due: paid, or counted as failed; it is removed after its
    last execution or ten failures in a row. *)
Definition execute_recurrent (r : recurrent_transfer_object) (l : ledger) : result ledger :=
  acc ← get_account (rt_from r) l;
  _ ← get_account (rt_to r) l;
  available ← get_balance acc (symbol (rt_amount r));
  _ ← check (0 <? remaining_executions r) AssertFc;
  let remaining := remaining_executions r - 1 in
  enough ← asset_geb available (rt_amount r);
  let next_date := u32 (trigger_date r + 3600 * recurrence r) in
  '(l, remove) ←
    (if (enough : bool) then
       '(l, transfer) ← withdraw_any (rt_from r) (rt_amount r) l;
       '(l, transfer) ← adjust_any (rt_to r) transfer (rt_amount r) l;
       _ ← destroy_temp transfer;
       let l := if remaining =? 0 then l
                else set_recurrents (upd rid (rid r) (set_schedule next_date remaining 0) (recurrents l)) l in
       Ok (push_vop (fill_recurrent_transfer_operation (rt_from r) (rt_to r) (rt_amount r) (rt_memo r) remaining (pair_id r)) l,
           remaining =? 0)
     else
       let failures := u8 (consecutive_failures r + 1) in
       let exhausted := negb (failures <? HIVE_MAX_CONSECUTIVE_RECURRENT_TRANSFER_FAILURES) in
       let l := if exhausted || (remaining =? 0) then l
                else set_recurrents (upd rid (rid r) (fun r => set_schedule next_date remaining (u8 (consecutive_failures r + 1)) r) (recurrents l)) l in
       let remove := exhausted || (remaining =? 0) in
       Ok (push_vop (failed_recurrent_transfer_operation (rt_from r) (rt_to r) (rt_amount r) failures (rt_memo r) remaining remove (pair_id r)) l,
           remove));
  if (remove : bool) then
    let l := set_recurrents (del rid (rid r) (recurrents l)) l in
    acc ← get_account (rt_from r) l;
    _ ← check (0 <? open_recurrent_transfers acc) AssertFc;
    modify_account (rt_from r) (add_recurrent_count (-1)) l
  else Ok l.

(** The element after [r] in the [by_trigger_date] index. *)
Fixpoint successor (r : recurrent_transfer_object) (idx : list recurrent_transfer_object) : option Z :=
  match idx with
  | [] => None
  | x :: idx => if rid x =? rid r then rid <$> head idx else successor r idx
  end.

(** The loop of [process_recurrent_transfers]: [itr] moves on before an object is
    modified, so a transfer that is due again may be met again; [budget] is what
    is left of the limit per block. *)
Fixpoint recurrent_loop (budget : nat) (itr : option Z) (l : ledger) : result ledger :=
  match itr with
  | None => Ok l
  | Some i =>
      match List.find (fun r => rid r =? i) (recurrents l) with
      | None => Throw AssertFc
      | Some r =>
          if trigger_date r <=? head_block_time l then
            match budget with
            | O => Ok l
            | S budget =>
                let next := successor r (merge_sort trigger_le (recurrents l)) in
                l ← execute_recurrent r l;
                recurrent_loop budget next l
            end
          else Ok l
      end
  end.

Definition process_recurrent_transfers (l : ledger) : result ledger :=
  recurrent_loop (Z.to_nat HIVE_MAX_RECURRENT_TRANSFERS_PER_BLOCK) (rid <$> head (merge_sort trigger_le (recurrents l))) l.
End recurrent.

Section recurrent_conservation.
Context `{L : FcLib} `{!FcLaws L}.

Lemma set_recurrents_Ok x l : ledger_wf l -> ledger_wf (set_recurrents x l) /\ forall c, gap c (set_recurrents x l) = gap c l.
Proof. intros W. split; [destruct W; by constructor|done]. Qed.

Lemma recurrent_counted name a x d l : counters_ok l -> accounts l !! name = Some a ->
  (forall n, cnt rt_from n x = cnt rt_from n (recurrents l) + (if bool_decide (n = name) then d else 0)) ->
  (d = 1 /\ open_recurrent_transfers a < HIVE_MAX_OPEN_RECURRENT_TRANSFERS) \/ (d = -1 /\ 1 <= cnt rt_from name (recurrents l)) ->
  counters_ok (put_account name (add_recurrent_count d a) (set_recurrents x l)).
Proof.
  intros (H1 & H2 & H3) Ha Hc Hd. destruct (H3 _ _ Ha) as [E1 E2]. pose proof (cnt_nonneg rt_from name (recurrents l)).
  assert (u16 (open_recurrent_transfers a + d) = open_recurrent_transfers a + d) as Hu.
  { apply uwrap_id. unfold in_u, HIVE_MAX_OPEN_RECURRENT_TRANSFERS in *. lia. }
  unfold counters_ok. cbn [put_account set_accounts set_recurrents accounts escrows withdrawals recurrents]. split_and!.
  - eapply count_ok_put; [exact Ha|done|exact H1].
  - eapply count_ok_put; [exact Ha|done|exact H2].
  - eapply count_ok_add; [exact Ha|exact Hu| |exact Hc|exact H3]. cbn. rewrite Hu. lia.
Qed.

Lemma recurrent_books x l : books l -> NoDup (rid <$> x) -> Forall (fun r => rid r < next_id l) x ->
  Forall (fun r => funds_wf (rt_amount r) /\ 0 < remaining_executions r) x -> (forall n, cnt rt_from n x = cnt rt_from n (recurrents l)) ->
  conserved l (set_recurrents x l).
Proof.
  intros [W (C1 & C2 & C3) R1 R2 R3] H1 H2 H3 Hc. split; [|by apply set_recurrents_Ok].
  constructor; [by apply set_recurrents_Ok| |done|done|done]. split_and!; [done|done|]. eapply count_ok_ext; [|exact C3]. intros n. symmetry. apply Hc.
Qed.

(** An updated record keeps its owner and its id. *)
Lemma reschedule_Ok r f l : books l -> (forall x, rid (f x) = rid x) -> (forall x, x ∈ recurrents l -> rid x = rid r -> rt_from (f x) = rt_from x) ->
  (forall x, x ∈ recurrents l -> rid x = rid r -> funds_wf (rt_amount (f x)) /\ 0 < remaining_executions (f x)) ->
  conserved l (set_recurrents (upd rid (rid r) f (recurrents l)) l).
Proof.
  intros B Hk Hf Hx. apply recurrent_books; [done| | | |].
  - rewrite upd_keys by done. apply B.
  - apply upd_Forall; [apply B|]. intros y _ _ Hy. by rewrite Hk.
  - apply upd_Forall; [apply B|]. auto.
  - intros n. by apply cnt_upd_at.
Qed.

Lemma del_recurrent_Ok r l l' : books l -> r ∈ recurrents l ->
  modify_account (rt_from r) (add_recurrent_count (-1)) (set_recurrents (del rid (rid r) (recurrents l)) l) = Ok l' -> conserved l l'.
Proof.
  intros B Hr H. destruct (set_recurrents_Ok (del rid (rid r) (recurrents l)) l (bk_wf _ B)) as [W1 G1].
  apply modify_account_Ok in H as (a & Ha & Wa & ->); [|done].
  destruct (set_counters_Ok (rt_from r) a (pending_escrow_transfers a) (savings_withdraw_requests a) (u16 (open_recurrent_transfers a + -1)) _ W1 Ha Wa) as [W2 G2].
  split; [|intros c; unfold add_recurrent_count; by rewrite G2, G1].
  destruct B as [W C R1 R2 R3]. constructor; [done| |by apply del_NoDup|by apply del_Forall|by apply del_Forall]. apply recurrent_counted; [done|done| |].
  - intros n. by apply (cnt_del rid rt_from n (recurrents l) r R1 Hr).
  - right. split; [done|]. by apply (cnt_del rid rt_from (rt_from r) (recurrents l) r R1 Hr).
Qed.

Lemma find_recurrent_Ok from_name to_name pair l r : find_recurrent from_name to_name pair l = Some r ->
  r ∈ recurrents l /\ rt_from r = from_name /\ rt_to r = to_name /\ pair_id r = pair.
Proof. unfold find_recurrent. intros H. apply find_key_Some in H as [? ?]. to_prop. done. Qed.

Lemma recurrent_transfer_Ok from_name to_name a memo recur executions pair l l' :
  books l -> funds_wf a -> 0 < executions -> recurrent_transfer from_name to_name a memo recur executions pair l = Ok l' -> conserved l l'.
Proof.
  intros B Fa He H. unfold recurrent_transfer in H. apply bind_Ok in H as (acc & Hacc & H). apply get_account_Ok in Hacc as [Hacc Wacc]; [|apply B].
  do 3 apply bind_Ok in H as (? & _ & H). apply check_bind_Ok in H as [_ H]. destruct (find_recurrent _ _ _ _) as [r|] eqn:E.
  - apply find_recurrent_Ok in E as (Hr & <- & _). destruct (amount a =? 0).
    + apply check_bind_Ok in H as [_ H]. apply bind_Ok in H as (? & _ & H). apply check_bind_Ok in H as [_ H]. by eapply del_recurrent_Ok.
    + do 2 apply check_bind_Ok in H as [_ H]. injection H as <-. by apply reschedule_Ok.
  - do 3 apply check_bind_Ok in H as [? H]. cbn [fresh] in H. apply check_bind_Ok in H as [_ H]. set (r := mk_recurrent _ _ _ _ _ _ _ _ _ _) in H.
    destruct (fresh_Ok l (bk_wf _ B)) as [W1 G1]. destruct (set_recurrents_Ok (recurrents l ++ [r]) _ W1) as [W2 G2].
    apply modify_account_Ok in H as (b & Hb & Wb & ->); [|done]. assert (b = acc) as -> by (cbn in Hb; congruence).
    destruct (set_counters_Ok from_name acc (pending_escrow_transfers acc) (savings_withdraw_requests acc) (u16 (open_recurrent_transfers acc + 1)) _ W2 Hb Wb) as [W3 G3].
    split; [|intros c; unfold add_recurrent_count; by rewrite G3, G2, G1].
    destruct B as [W C R1 R2 R3]. destruct (snoc_NoDup rid (recurrents l) r (next_id l)) as [N1 N2]; [done|by rewrite Forall_fmap|done|].
    constructor; [done| |done| |].
    + apply recurrent_counted; [exact C|done| |]; [intros n; by rewrite cnt_app|]. left. split; [done|]. by to_prop.
    + by rewrite Forall_fmap in N2.
    + apply Forall_app. split; [done|]. by apply Forall_singleton.
Qed.

(** One execution. *)
Lemma execute_recurrent_Ok r l l' : books l -> r ∈ recurrents l -> execute_recurrent r l = Ok l' -> conserved l l'.
Proof.
  intros B Hr H. pose proof (bk_wf _ B) as W. destruct (proj1 (Forall_forall _ _) (bk_amounts _ B) r Hr) as [Fr _].
  unfold execute_recurrent in H. do 3 apply bind_Ok in H as (? & _ & H). apply check_bind_Ok in H as [Hrem H]. to_prop.
  apply bind_Ok in H as (enough & _ & H). apply bind_Ok in H as ([l1 remove] & H1 & H).
  assert (conserved l l1 /\ (remove = true -> r ∈ recurrents l1)) as [C1 Hin].
  { destruct enough.
    - apply bind_Ok in H1 as ([l2 t] & H2 & H1). apply withdraw_any_Ok in H2 as [[W2 F2 T2 G2] ->]; [|done|done].
      apply bind_Ok in H1 as ([l3 t3] & H3 & H1). apply adjust_any_Ok in H3 as ([W3 T3 F3 G3] & _); [|done|done|by apply funds_wf_s64].
      apply bind_Ok in H1 as (u & Hz & H1). injection H1 as <- <-. assert (conserved l l3) as C3.
      { split; [eapply frame_books; [exact B|by etransitivity|done]|]. intros c. rewrite G3, G2, (destroy_temp_Ok _ _ Hz). lia. }
      assert (recurrents l3 = recurrents l) as Er by (rewrite (fr_recurrents _ _ F3); apply F2).
      destruct (Z.eqb_spec (remaining_executions r - 1) 0) as [E|E].
      + split; [|intros _; cbn; by rewrite Er]. destruct C3 as [B3 G3']. split; [by apply push_books|exact G3'].
      + split; [|done]. destruct (reschedule_Ok r (set_schedule (u32 (trigger_date r + 3600 * recurrence r)) (remaining_executions r - 1) 0) l3) as [B4 G4]; [apply C3|done|done| |].
        * intros y Hy _. split; [|cbn; lia]. apply (proj1 (Forall_forall _ _) (bk_amounts _ (proj1 C3)) y Hy).
        * split; [by apply push_books|]. intros c. rewrite push_gap, G4. apply C3.
    - injection H1 as <- <-. destruct (_ || _) eqn:E.
      + split; [split; [by apply push_books|done]|done].
      + split; [|done]. apply orb_false_iff in E as [_ E]. apply Z.eqb_neq in E.
        destruct (reschedule_Ok r (fun x => set_schedule (u32 (trigger_date r + 3600 * recurrence r)) (remaining_executions r - 1) (u8 (consecutive_failures x + 1)) x) l) as [B4 G4]; [done|done|done| |].
        * intros y Hy _. split; [|cbn; lia]. apply (proj1 (Forall_forall _ _) (bk_amounts _ B) y Hy).
        * split; [by apply push_books|exact G4]. }
  destruct remove; [|by injection H as <-]. apply bind_Ok in H as (? & _ & H). apply check_bind_Ok in H as [_ H].
  eapply conserved_trans; [exact C1|]. eapply del_recurrent_Ok; [apply C1|by apply Hin|exact H].
Qed.

Lemma process_recurrent_transfers_Ok l l' : books l -> process_recurrent_transfers l = Ok l' -> conserved l l'.
Proof.
  unfold process_recurrent_transfers. generalize (Z.to_nat HIVE_MAX_RECURRENT_TRANSFERS_PER_BLOCK) as budget. generalize (rid <$> head (merge_sort trigger_le (recurrents l))) as itr.
  intros itr budget. revert itr l. induction budget as [|budget IH]; intros itr l B H; destruct itr as [i|]; cbn in H; try (by injection H as <-);
    (destruct (List.find _ _) as [r|] eqn:Er; [|done]); (destruct (_ <=? _); [|by injection H as <-]); [by injection H as <-|].
  apply bind_Ok in H as (l1 & H1 & H). apply find_key_Some in Er as [Hr _].
  destruct (execute_recurrent_Ok r l l1 B Hr H1) as [B1 G1]. eapply conserved_trans; [by split|]. by eapply IH.
Qed.

(** ** What an execution does *)

Lemma upd_ext {A} (key : A -> Z) i (f g : A -> A) xs : (forall x, x ∈ xs -> key x = i -> f x = g x) -> upd key i f xs = upd key i g xs.
Proof.
  intros H. unfold upd. apply list_fmap_ext. intros k x Hx. apply list_elem_of_lookup_2 in Hx. destruct (Z.eqb_spec (key x) i); auto.
Qed.

(** The outcome for the schedule: the transfer is over after its last execution
    or ten failures in a row; otherwise it is due again one period later. *)
Definition rescheduled (r : recurrent_transfer_object) (enough : bool) (xs : list recurrent_transfer_object) : list recurrent_transfer_object :=
  let failures := if enough then 0 else consecutive_failures r + 1 in
  if (remaining_executions r =? 1) || (HIVE_MAX_CONSECUTIVE_RECURRENT_TRANSFER_FAILURES <=? failures) then del rid (rid r) xs
  else upd rid (rid r) (set_schedule (u32 (trigger_date r + 3600 * recurrence r)) (remaining_executions r - 1) failures) xs.

(** An execution of a recurrent transfer pays exactly its amount from the
    sender to the receiver when the sender can pay, and nothing otherwise; it
    uses up one of the executions, and a failed one counts against the limit of
    consecutive failures that a successful one resets. *)
Theorem execute_recurrent_effect (r : recurrent_transfer_object) (l l' : ledger) :
  books l -> r ∈ recurrents l -> 0 <= consecutive_failures r < HIVE_MAX_CONSECUTIVE_RECURRENT_TRANSFER_FAILURES ->
  execute_recurrent r l = Ok l' ->
  exists (enough : bool) acc available, accounts l !! rt_from r = Some acc /\ get_balance acc (symbol (rt_amount r)) = Ok available /\
    asset_geb available (rt_amount r) = Ok enough /\ recurrents l' = rescheduled r enough (recurrents l) /\
    liquid_gain l l' (fun n c => if enough then (if bool_decide (n = rt_to r) then held_in c (rt_amount r) else 0)
                                              - (if bool_decide (n = rt_from r) then held_in c (rt_amount r) else 0) else 0).
Proof.
  intros B Hr Hf H. pose proof (bk_wf _ B) as W. destruct (proj1 (Forall_forall _ _) (bk_amounts _ B) r Hr) as [Fr Hrem].
  unfold execute_recurrent in H. apply bind_Ok in H as (acc & Hacc & H). apply get_account_Ok in Hacc as [Hacc _]; [|done].
  apply bind_Ok in H as (? & _ & H). apply bind_Ok in H as (avail & Hav & H). apply check_bind_Ok in H as [_ H].
  apply bind_Ok in H as (enough & Hen & H). exists enough, acc, avail. split; [done|]. split; [done|]. split; [done|].
  apply bind_Ok in H as ([l1 remove] & H1 & H).
  assert (Hun : forall x, x ∈ recurrents l -> rid x = rid r -> x = r) by (intros y Hy E; apply (key_inj rid (recurrents l)); [apply B|done..]).
  assert (ledger_wf l1 /\ remove = (remaining_executions r =? 1) || (HIVE_MAX_CONSECUTIVE_RECURRENT_TRANSFER_FAILURES <=? if enough then 0 else consecutive_failures r + 1) /\
    (if remove then recurrents l1 = recurrents l else recurrents l1 = rescheduled r enough (recurrents l)) /\
    liquid_gain l l1 (fun n c => if enough then (if bool_decide (n = rt_to r) then held_in c (rt_amount r) else 0)
                                              - (if bool_decide (n = rt_from r) then held_in c (rt_amount r) else 0) else 0)) as (W1 & Er & E1 & G1).
  { assert (forall x : Z, (x - 1 =? 0) = (x =? 1)) as Eq1 by (intros y; destruct (Z.eqb_spec (y - 1) 0), (Z.eqb_spec y 1); lia || done).
    rewrite Eq1 in H1. destruct enough.
    - apply bind_Ok in H1 as ([l2 t] & H2 & H1). pose proof (withdraw_any_gain _ _ _ _ _ W Fr H2) as G2. apply withdraw_any_Ok in H2 as [[W2 F2 T2 _] ->]; [|done|done].
      apply bind_Ok in H1 as ([l3 t3] & H3 & H1). pose proof (adjust_any_gain _ _ _ _ _ _ W2 Fr (funds_wf_s64 _ Fr) H3) as G3.
      apply adjust_any_Ok in H3 as ([W3 T3 F3 _] & _); [|done|done|by apply funds_wf_s64]. apply bind_Ok in H1 as (u & Hz & H1). injection H1 as <- <-.
      assert (recurrents l3 = recurrents l) as Er by (rewrite (fr_recurrents _ _ F3); apply F2). change (HIVE_MAX_CONSECUTIVE_RECURRENT_TRANSFER_FAILURES <=? 0) with false.
      rewrite orb_false_r. split; [|split; [done|split]].
      + apply push_vop_Ok. destruct (_ =? 1); [done|]. by apply set_recurrents_Ok.
      + unfold rescheduled. change (HIVE_MAX_CONSECUTIVE_RECURRENT_TRANSFER_FAILURES <=? 0) with false. rewrite orb_false_r.
        destruct (_ =? 1); cbn [push_vop recurrents set_recurrents]; [done|by rewrite Er].
      + eapply gain_ext; [|eapply gain_trans; [exact G2|eapply gain_trans; [exact G3|]]].
        2: { apply (no_gain l3). by destruct (_ =? 1). }
        intros n c. cbv beta. rewrite (destroy_temp_Ok _ _ Hz c). destruct (bool_decide (n = rt_to r)), (bool_decide (n = rt_from r)); lia.
    - injection H1 as <- <-. assert (u8 (consecutive_failures r + 1) = consecutive_failures r + 1) as Eu.
      { apply uwrap_id. unfold in_u, HIVE_MAX_CONSECUTIVE_RECURRENT_TRANSFER_FAILURES in *. lia. }
      rewrite !Eu. assert (forall x, negb (x <? HIVE_MAX_CONSECUTIVE_RECURRENT_TRANSFER_FAILURES) = (HIVE_MAX_CONSECUTIVE_RECURRENT_TRANSFER_FAILURES <=? x)) as En.
      { intros y. by rewrite Z.ltb_antisym, negb_involutive. }
      rewrite !En, (orb_comm (_ <=? _)). unfold rescheduled. cbv iota. set (over := (remaining_executions r =? 1) || (HIVE_MAX_CONSECUTIVE_RECURRENT_TRANSFER_FAILURES <=? consecutive_failures r + 1)).
      destruct over.
      + split; [by apply push_vop_Ok|]. split; [done|]. split; [done|by apply no_gain].
      + split; [by apply push_vop_Ok, set_recurrents_Ok|]. split; [done|]. split; [|by apply no_gain]. cbn [push_vop recurrents set_recurrents].
        apply upd_ext. intros y Hy E. rewrite (Hun y Hy E), Eu. done. }
  destruct remove.
  - apply bind_Ok in H as (? & _ & H). apply check_bind_Ok in H as [_ H]. split.
    + apply modify_account_Ok in H as (a & _ & _ & ->); [|by apply set_recurrents_Ok]. cbn. rewrite E1. unfold rescheduled. by rewrite <- Er.
    + eapply gain_ext; [|eapply gain_trans; [exact G1|eapply gain_trans; [by apply (no_gain l1 (set_recurrents (del rid (rid r) (recurrents l1)) l1))|]]].
      2: { eapply counter_gain; [| |exact H]; [by apply set_recurrents_Ok|done]. }
      intros n c. cbv beta. lia.
  - injection H as <-. done.
Qed.
End recurrent_conservation.
