(* ===== verification/Payouts.v ===== *)
(** * Payouts

    Models [award_hbd] and [pay_reward_funds] of libraries/chain/database.cpp on
    the ledger. *)

From stdpp Require Import base numbers strings option list sorting gmap.
From S2P Require Import Prelude Fc Config AssetSymbol Asset Balance Market Ledger Transfers.
Open Scope Z_scope.

Section payout.
Context `{L : FcLib}.

(** The HIVE that [hbd] is worth, rounded up, at most what was offered. *)
Definition hive_for (hbd to_hbd : asset) (rate : HBD_price) : result asset :=
  let pxs := u128 (u64 (amount hbd)) in
  let b := u128 (u64 (tamount (tbase rate))) in
  let q := u128 (u64 (tamount (tquote rate))) in
  let rounded_up := if 0 <? b then u128 (u128 (u128 (pxs * q) + b) - 1) / b else 0 in
  r ← uint128_to_uint64 rounded_up;
  let converted := share_of_u64 r in
  Ok (if amount to_hbd <? converted then to_hbd else mk_asset converted HIVE_SYMBOL).

(** From hardfork 30 on the part of a payout that does not fit a whole unit of
    HBD is given back: the rest of the payout, and what is to be converted. *)
Definition return_dust (to_hbd : asset) (hive to_hbd_balance : balance) (l : ledger) : result (balance * balance) :=
  if has_hardfork 30 l then
    hbd ← hive_at to_hbd (get_hbd_price l);
    converted ← hive_for hbd to_hbd (get_hbd_price l);
    d ← asset_sub to_hbd converted;
    transfer_from hive to_hbd_balance d
  else Ok (hive, to_hbd_balance).

Definition award (is_reward : bool) (name : string) (temp : balance) (l : ledger) : result (ledger * balance) :=
  if is_reward then adjust_reward_balance name temp temp l else adjust_liquid name temp temp l.

(** The ledger, what is left of the payout, and the HBD and HIVE paid. *)
Definition award_hbd (name : string) (hive : balance) (is_reward : bool) (l : ledger) : result (ledger * balance * (asset * asset)) :=
  if amount hive =? 0 then Ok (l, hive, (balance_zero HBD_SYMBOL, balance_zero HIVE_SYMBOL))
  else if negb (tprice_is_null (get_hbd_price l)) then
    m ← safe_mul (amount hive) (hbd_print_rate (gpo l));
    let to_hbd := mk_asset (Z.quot m HIVE_100_PERCENT) HIVE_SYMBOL in
    '(to_hbd_balance, hive) ← transfer_from (balance_zero HIVE_SYMBOL) hive to_hbd;
    '(hive, to_hbd_balance) ← return_dust to_hbd hive to_hbd_balance l;
    '(g, to_hbd_balance, hbd_balance) ← convert_HIVE_to_HBD to_hbd_balance (get_hbd_price l) true (gpo l);
    let paid := (hbd_balance, hive) in
    '(l, hbd_balance) ← award is_reward name hbd_balance (set_gpo g l);
    '(l, hive) ← award is_reward name hive l;
    _ ← destroy_temp hbd_balance;
    _ ← destroy_temp to_hbd_balance;
    Ok (l, hive, paid)
  else
    let paid := (balance_zero HBD_SYMBOL, hive) in
    '(l, hive) ← adjust_liquid name hive hive l;
    Ok (l, hive, paid).

(** [pay_reward_funds]; with one fund of all the content rewards. *)
Definition pay_fund (content_reward : asset) (st : ledger * balance * asset) (f : reward_fund_object) : result (ledger * balance * asset) :=
  let '(l, reward, used) := st in
  m ← safe_mul (amount content_reward) (percent_content_rewards f);
  let r := mk_asset (Z.quot m HIVE_100_PERCENT) HIVE_SYMBOL in
  '(b, reward) ← transfer_from (reward_balance f) reward r;
  used ← asset_add used r;
  _ ← check (asset_eqb used content_reward) AssertFc;
  Ok (set_funds (upd fund_id (fund_id f) (fun f => mk_fund (fund_id f) b (percent_content_rewards f)) (funds l)) l, reward, used).

Definition pay_reward_funds (reward : balance) (content_reward : asset) (l : ledger) : result (ledger * balance) :=
  '(l, reward, _) ← foldM (pay_fund content_reward) (l, reward, balance_zero HIVE_SYMBOL) (funds l);
  Ok (l, reward).
End payout.

Section payout_conservation.
Context `{L : FcLib} `{!FcLaws L}.

(** ** The HIVE a payout burns *)

Lemma round_up h b q : 0 <= h -> 0 < b -> 0 < q ->
  let p := h * b / q in let c := (p * q + b - 1) / b in
  0 <= c <= h /\ c * b / q = p /\ forall x, x < c -> x * b / q < p.
Proof.
  intros Hh Hb Hq p c.
  pose proof (Z.mul_div_le (h * b) q Hq) as H1. fold p in H1.
  pose proof (Z.mul_div_le (p * q + b - 1) b Hb) as H2. fold c in H2.
  pose proof (Z.mul_succ_div_gt (p * q + b - 1) b Hb) as H3. fold c in H3.
  assert (0 <= p) by (apply Z.div_pos; nia). assert (0 <= c) by (apply Z.div_pos; nia).
  assert (c <= h) by nia. split; [lia|]. split.
  - apply Z.le_antisymm; [apply Z.div_le_mono; nia|]. apply Z.div_le_lower_bound; nia.
  - intros x Hx. apply Z.div_lt_upper_bound; nia.
Qed.

Lemma hive_at_value a rate : funds_wf a -> pos_amount (tamount (tbase rate)) -> pos_amount (tamount (tquote rate)) ->
  amount a * tamount (tbase rate) / tamount (tquote rate) < 2 ^ 63 ->
  hive_at a rate = Ok (mk_asset (amount a * tamount (tbase rate) / tamount (tquote rate)) HBD_SYMBOL).
Proof.
  intros Fa Hb Hq Hlt. pose proof Hb as Hb'. pose proof Hq as Hq'. unfold pos_amount, funds_wf in Fa, Hb', Hq'. unfold hive_at, tiny_mul_quote.
  rewrite (proj2 (Z.ltb_lt 0 _)) by lia. cbn [check mbind result_bind tamount].
  rewrite mul_div_share_exact; [|unfold in_s; lia|unfold int64_min; lia|done|done|rewrite Z.abs_eq by lia; done].
  cbn. by rewrite Z.quot_div_nonneg by nia.
Qed.

Lemma hive_for_value p h rate : 0 <= p < 2 ^ 63 -> funds_wf h -> pos_amount (tamount (tbase rate)) -> pos_amount (tamount (tquote rate)) ->
  0 <= (p * tamount (tquote rate) + tamount (tbase rate) - 1) / tamount (tbase rate) <= amount h -> symbol h = HIVE_SYMBOL ->
  hive_for (mk_asset p HBD_SYMBOL) h rate =
    Ok (mk_asset ((p * tamount (tquote rate) + tamount (tbase rate) - 1) / tamount (tbase rate)) HIVE_SYMBOL).
Proof.
  intros Hp Fh Hb Hq Hc Hs. unfold funds_wf, pos_amount in *. set (b := tamount (tbase rate)) in *. set (q := tamount (tquote rate)) in *.
  unfold hive_for. fold b q. cbn [amount]. assert (0 <= p * q < 2 ^ 63 * 2 ^ 63) by (split; [nia|]; apply Z.mul_lt_mono_nonneg; lia).
  rewrite !(uwrap_id 64) by (unfold in_u; lia).
  rewrite (uwrap_id 128 p), (uwrap_id 128 b), (uwrap_id 128 q), (uwrap_id 128 (p * q)), (uwrap_id 128 (p * q + b)), (uwrap_id 128 (p * q + b - 1)) by (unfold in_u; lia).
  rewrite (proj2 (Z.ltb_lt 0 b)) by lia. rewrite uint128_to_uint64_fits by (unfold in_u; lia). cbn [mbind result_bind].
  rewrite share_of_u64_narrow, swrap_id by (unfold in_u, in_s; lia). by rewrite (proj2 (Z.ltb_ge _ _)) by lia.
Qed.

(** Only what the minted HBD stands for is burned (hardfork 30): the balance
    that is converted after [return_dust] mints exactly the HBD that converting
    all of [to_hbd] would, no smaller balance would, and the rest goes back to
    the payout. *)
Theorem return_dust_burns_the_least (to_hbd hive : asset) (l : ledger) :
  typed HIVE_SYMBOL to_hbd -> typed HIVE_SYMBOL hive -> amount to_hbd + amount hive < 2 ^ 63 -> has_hardfork 30 l = true ->
  let rate := get_hbd_price l in
  let minted := amount to_hbd * tamount (tbase rate) / tamount (tquote rate) in
  pos_amount (tamount (tbase rate)) -> pos_amount (tamount (tquote rate)) -> minted < 2 ^ 63 ->
  exists burned, 0 <= burned <= amount to_hbd /\
    return_dust to_hbd hive to_hbd l = Ok (mk_asset (amount hive + (amount to_hbd - burned)) HIVE_SYMBOL, mk_asset burned HIVE_SYMBOL) /\
    hive_at (mk_asset burned HIVE_SYMBOL) rate = Ok (mk_asset minted HBD_SYMBOL) /\
    forall x, 0 <= x < burned -> hive_at (mk_asset x HIVE_SYMBOL) rate <> Ok (mk_asset minted HBD_SYMBOL).
Proof.
  intros [St Ft] [Sh Fh] Hsum Hf rate minted Hb Hq Hm. unfold funds_wf in Ft, Fh. pose proof Hb as Hb'. pose proof Hq as Hq'. unfold pos_amount in Hb', Hq'.
  destruct (round_up (amount to_hbd) (tamount (tbase rate)) (tamount (tquote rate))) as (Hc & Ec & Hleast); [lia|lia|lia|]. fold minted in Hc, Ec, Hleast.
  assert (0 <= minted) as Hm0 by (apply Z.div_pos; nia). set (c := (_ - 1) / _) in *. exists c. split; [done|]. split; [|split].
  - unfold return_dust. rewrite Hf. fold rate. rewrite hive_at_value by (done || lia). fold minted. cbn [mbind result_bind].
    rewrite hive_for_value by (done || lia). fold c. cbn [mbind result_bind].
    rewrite asset_sub_same; [|unfold asset_wf, in_s; lia|unfold asset_wf, in_s; cbn; lia|done|unfold in_s; cbn; lia]. cbn [mbind result_bind amount].
    rewrite transfer_from_value by (first [done | cbn; congruence | unfold funds_wf; cbn; lia]). cbn [amount]. rewrite Sh, St. do 3 f_equal. lia.
  - rewrite hive_at_value; cbn [amount]; rewrite ?Ec; try done. unfold funds_wf. cbn. lia.
  - intros x Hx. rewrite hive_at_value; cbn [amount]; try done; [|unfold funds_wf; cbn; lia|specialize (Hleast x); lia].
    specialize (Hleast x ltac:(lia)). intros [= E]. lia.
Qed.

(** ** Payouts keep the books *)

Lemma hive_for_Ok hbd to_hbd rate r : asset_wf to_hbd -> symbol to_hbd = HIVE_SYMBOL -> hive_for hbd to_hbd rate = Ok r ->
  asset_wf r /\ symbol r = HIVE_SYMBOL.
Proof.
  intros W S H. unfold hive_for in H. apply bind_Ok in H as (x & Hx & H). apply uint128_to_uint64_range in Hx. injection H as <-.
  destruct (_ <? _); [done|]. split; [|done]. unfold asset_wf. cbn. rewrite share_of_u64_narrow by done. apply swrap_range. lia.
Qed.

Lemma return_dust_Ok to_hbd hive t l hive' t' : asset_wf to_hbd -> symbol to_hbd = HIVE_SYMBOL -> typed HIVE_SYMBOL hive -> typed HIVE_SYMBOL t ->
  return_dust to_hbd hive t l = Ok (hive', t') ->
  typed HIVE_SYMBOL hive' /\ typed HIVE_SYMBOL t' /\ forall c, held_in c hive' + held_in c t' = held_in c hive + held_in c t.
Proof.
  intros W S Th Tt H. unfold return_dust in H. destruct (has_hardfork 30 l); [|by injection H as <- <-].
  apply bind_Ok in H as (hbd & _ & H). apply bind_Ok in H as (r & Hr & H). apply hive_for_Ok in Hr as [Wr Sr]; [|done|done].
  apply bind_Ok in H as (d & Hd & H). apply asset_sub_Ok in Hd as (_ & -> & Wd); [|done|done].
  apply transfer_from_typed with (c := HIVE_SYMBOL) in H as (_ & _ & T1 & T2 & G & _); [done|done|by eapply typed_self|done].
Qed.

Lemma award_Ok is_reward name temp l l' temp' : ledger_wf l -> funds_wf temp -> liquid_symbol temp -> award is_reward name temp l = Ok (l', temp') ->
  moved l temp l' temp' /\ amount temp' = 0.
Proof.
  intros W F S H. pose proof (funds_wf_s64 _ F). unfold award in H. destruct is_reward;
    [apply adjust_reward_balance_Ok in H as (M & _ & A)|apply adjust_liquid_Ok in H as (M & _ & A)]; try done; (split; [done|lia]).
Qed.

(** What is paid out leaves the temporary balance; HIVE that becomes HBD is burned
    as the HBD is issued. *)
Lemma award_hbd_Ok name hive is_reward l l' hive' paid : books l -> typed HIVE_SYMBOL hive -> held_in HIVE_SYMBOL hive <= gap HIVE_SYMBOL l ->
  in_u 16 (hbd_print_rate (gpo l)) -> award_hbd name hive is_reward l = Ok (l', hive', paid) ->
  books l' /\ amount hive' = 0 /\ forall c, gap c l' = gap c l - held_in c hive.
Proof.
  intros B Th Hg Hr H. pose proof (bk_wf _ B) as W. unfold award_hbd in H. destruct (Z.eqb_spec (amount hive) 0) as [Ez|_].
  { injection H as <- <- _. split_and!; try done. intros c. assert (held_in c hive = 0) as ->; [|lia]. apply is_empty_held. by apply Z.eqb_eq. }
  destruct (negb _).
  - apply bind_Ok in H as (m & Hm & H). apply safe_mul_Ok in Hm as [_ Wm]; [|by apply (typed_wf HIVE_SYMBOL)|unfold in_u, in_s in *; lia]. set (to_hbd := mk_asset _ _) in H.
    assert (asset_wf to_hbd) as Wt by (unfold asset_wf, to_hbd, HIVE_100_PERCENT, in_s in *; cbn [amount]; Z.to_euclidean_division_equations; lia).
    apply bind_Ok in H as ([t h1] & H1 & H). apply transfer_from_typed with (c := HIVE_SYMBOL) in H1 as (_ & _ & Tt & Th1 & G1 & _); [|apply balance_zero_typed|by eapply typed_self|done].
    apply bind_Ok in H as ([h2 t2] & H2 & H). apply return_dust_Ok in H2 as (Th2 & Tt2 & G2); try done.
    apply bind_Ok in H as ([[g left] hbd] & H3 & H). assert (held_in HIVE_SYMBOL t2 <= gap HIVE_SYMBOL l) as Hc.
    { specialize (G1 HIVE_SYMBOL). specialize (G2 HIVE_SYMBOL). rewrite held_zero in G1. pose proof (held_nonneg HIVE_SYMBOL h2 (proj2 Th2)). lia. }
    apply convert_HIVE_to_HBD_Ok in H3 as (Is & -> & Td & _); [|apply W|done|rewrite <- supply_HIVE by apply W; by eapply temp_covered].
    destruct (set_issued l g _ W Is) as [W3 G3]. apply bind_Ok in H as ([l4 d4] & H4 & H).
    apply award_Ok in H4 as [[W4 T4 F4 G4] Z4]; [|done|apply Td|right; apply Td].
    apply bind_Ok in H as ([l5 h5] & H5 & H). apply award_Ok in H5 as [[W5 T5 F5 G5] Z5]; [|done|apply Th2|left; apply Th2].
    apply bind_Ok in H as (u & Hz & H). apply bind_Ok in H as (u' & _ & H). injection H as <- <- _. split; [|split; [done|]].
    + eapply frame_books; [exact B| |done]. etransitivity; [apply set_gpo_frame, Is|]. by etransitivity.
    + intros c. specialize (G1 c). specialize (G2 c). rewrite held_zero in G1. rewrite G5, G4, G3, (destroy_temp_Ok _ _ Hz).
      assert (held_in c h5 = 0) as -> by (apply is_empty_held; by apply Z.eqb_eq). lia.
  - apply bind_Ok in H as ([l5 h5] & H5 & H). injection H as <- <- _. pose proof (funds_wf_s64 _ (proj2 Th)).
    apply adjust_liquid_Ok in H5 as ([W5 T5 F5 G5] & _ & A5); [|done|apply Th|done|left; apply Th]. split; [by eapply frame_books|]. split; [lia|].
    intros c. rewrite G5. assert (held_in c h5 = 0) as ->; [|lia]. apply is_empty_held. apply Z.eqb_eq. lia.
Qed.

Lemma pay_fund_Ok content f st st' : books st.1.1 -> typed HIVE_SYMBOL st.1.2 -> f ∈ funds st.1.1 -> NoDup (fund_id <$> funds st.1.1) ->
  asset_wf content -> in_u 16 (percent_content_rewards f) -> pay_fund content st f = Ok st' ->
  books st'.1.1 /\ typed HIVE_SYMBOL st'.1.2 /\ (fund_id <$> funds st'.1.1) = (fund_id <$> funds st.1.1) /\
  (forall x, x ∈ funds st.1.1 -> fund_id x <> fund_id f -> x ∈ funds st'.1.1) /\
  forall c, gap c st'.1.1 - held_in c st'.1.2 = gap c st.1.1 - held_in c st.1.2.
Proof.
  destruct st as [[l reward] used]. cbn [fst snd]. intros B T Hf Hn Wc Hp H. pose proof (bk_wf _ B) as W.
  unfold pay_fund in H. apply bind_Ok in H as (m & Hm & H). apply safe_mul_Ok in Hm as [_ Wm]; [|done|unfold in_u, in_s in *; lia]. set (r := mk_asset _ _) in H.
  assert (asset_wf r) as Wr by (unfold asset_wf, r, HIVE_100_PERCENT, in_s in *; cbn [amount]; Z.to_euclidean_division_equations; lia).
  pose proof (proj1 (Forall_forall _ _) (lw_funds _ W) f Hf) as Tf.
  apply bind_Ok in H as ([b reward'] & Ht & H). apply transfer_from_typed with (c := HIVE_SYMBOL) in Ht as (_ & _ & Tb & Tr & G & _); [|done|by eapply typed_self|done].
  apply bind_Ok in H as (u & _ & H). apply check_bind_Ok in H as [_ H]. injection H as <-. cbn [fst snd].
  set (g := fun f => mk_fund (fund_id f) b (percent_content_rewards f)). split_and!; [|done| | |].
  - destruct B as [_ C R1 R2 R3]. constructor; try done. destruct W. constructor; try done. apply upd_Forall; [done|]. intros x _ _ _. done.
  - by apply upd_keys.
  - intros x Hx Hne. cbn. apply list_elem_of_fmap. exists x. split; [|done]. by rewrite (proj2 (Z.eqb_neq _ _)).
  - intros c. unfold gap, holdings. cbn [set_funds accounts escrows withdrawals converts collateralized orders funds gpo].
    rewrite sumZ_upd by done. cbn [g reward_balance]. specialize (G c). lia.
Qed.

Lemma pay_funds_Ok content fs : forall st st', books st.1.1 -> typed HIVE_SYMBOL st.1.2 -> asset_wf content ->
  NoDup (fund_id <$> funds st.1.1) -> NoDup (fund_id <$> fs) -> (forall f, f ∈ fs -> f ∈ funds st.1.1 /\ in_u 16 (percent_content_rewards f)) ->
  foldM (pay_fund content) st fs = Ok st' ->
  books st'.1.1 /\ typed HIVE_SYMBOL st'.1.2 /\ forall c, gap c st'.1.1 - held_in c st'.1.2 = gap c st.1.1 - held_in c st.1.2.
Proof.
  induction fs as [|f fs IH]; intros st st' B T Wc Hn Hd Hf H; cbn in H; [by injection H as <-|].
  destruct (pay_fund content st f) as [st1|] eqn:E; [|done]. rewrite fmap_cons in Hd. apply NoDup_cons in Hd as [Hnf Hd].
  destruct (Hf f) as [Hin Hp]; [by left|]. destruct (pay_fund_Ok content f st st1 B T Hin Hn Wc Hp E) as (B1 & T1 & K1 & O1 & G1).
  destruct (IH st1 st' B1 T1 Wc) as (B2 & T2 & G2); [by rewrite K1|done| |done|].
  - intros x Hx. destruct (Hf x) as [Hx1 Hx2]; [by right|]. split; [|done]. apply O1; [done|]. intros Ek. apply Hnf. rewrite <- Ek. by apply list_elem_of_fmap_2.
  - split_and!; [done|done|]. intros c. by rewrite G2.
Qed.

Lemma pay_reward_funds_Ok reward content l l' reward' : books l -> typed HIVE_SYMBOL reward -> asset_wf content -> NoDup (fund_id <$> funds l) ->
  Forall (fun f => in_u 16 (percent_content_rewards f)) (funds l) -> pay_reward_funds reward content l = Ok (l', reward') ->
  books l' /\ typed HIVE_SYMBOL reward' /\ forall c, gap c l' - held_in c reward' = gap c l - held_in c reward.
Proof.
  intros B T Wc Hn Hp H. unfold pay_reward_funds in H. apply bind_Ok in H as ([[l1 r1] u] & H & E). injection E as <- <-.
  apply pay_funds_Ok in H as (B1 & T1 & G1); try done. intros f Hf. split; [done|]. by apply (proj1 (Forall_forall _ _) Hp f Hf).
Qed.
End payout_conservation.
