(* ===== verification/LedgerSteps.v ===== *)
(** * Steps of the ledger

    The operations and the block-level processing of all the components on the
    ledger as one step relation, with the order book of the Market file inside
    the ledger, and what every history of steps keeps. *)

From stdpp Require Import base numbers strings option list sorting gmap.
From S2P Require Import Prelude Fc Config AssetSymbol Asset Balance Market Ledger Transfers Escrows Savings Conversions Recurrent Payouts.
Open Scope Z_scope.

Section steps.
Context `{L : FcLib}.

(** The order book of the ledger, and its return. *)
Definition market_of (l : ledger) : market :=
  mk_market (liquid <$> accounts l) (orders l) (next_id l) (head_block_time l) [].

Definition put_market (m : market) (l : ledger) : ledger :=
  mk_ledger (map_imap (fun name a => Some (set_liquid (default (liquid a) (Market.accounts m !! name)) a)) (accounts l))
    (escrows l) (withdrawals l) (converts l) (collateralized l) (recurrents l) (Market.orders m) (funds l) (Market.next_id m)
    (gpo l) (feed l) (last_hardfork l) (vops l ++ (market_vop <$> Market.vops m)).

Definition on_market (f : market -> result market) (l : ledger) : result ledger :=
  m ← f (market_of l); Ok (put_market m l).
End steps.

(** ** The order book inside the ledger *)

(** Trading neither opens nor closes accounts, and ids only grow. *)
Record keeps (m m' : market) : Prop := {
  kp_dom : dom (Market.accounts m') = dom (Market.accounts m);
  kp_next : Market.next_id m <= Market.next_id m'
}.

#[global] Instance keeps_preorder : PreOrder keeps.
Proof. split; [by constructor|]. intros m1 m2 m3 [] []. constructor; [congruence|lia]. Qed.

Section book_keeps.
Context `{L : FcLib}.

Lemma adjust_account_keeps name b d m m' b' : adjust_account name b d m = Ok (m', b') -> keeps m m'.
Proof.
  intros H. unfold adjust_account in H. apply bind_Ok in H as (a & Ha & H). apply bind_Ok in H as ([a' b''] & _ & H). injection H as <- _.
  unfold Market.get_account in Ha. destruct (_ !! name) eqn:E; [|done]. constructor; [|done]. cbn. apply dom_insert_lookup_L. by rewrite E.
Qed.

Lemma draw_order_keeps oid t d m m' t' : draw_order oid t d m = Ok (m', t') -> keeps m m'.
Proof. intros H. unfold draw_order in H. apply bind_Ok in H as (o & _ & H). apply bind_Ok in H as ([r x] & _ & H). injection H as <- _. by constructor. Qed.

Lemma remove_order_keeps oid m m' : remove_order oid m = Ok m' -> keeps m m'.
Proof. intros H. unfold remove_order in H. apply bind_Ok in H as (o & _ & H). apply check_bind_Ok in H as [_ H]. injection H as <-. by constructor. Qed.

Lemma push_keeps v m : keeps m (push_virtual_operation v m).
Proof. by constructor. Qed.

Lemma cancel_order_keeps oid b m m' : cancel_order oid b m = Ok m' -> keeps m m'.
Proof.
  intros H. unfold cancel_order in H. apply bind_Ok in H as (o & _ & H). apply bind_Ok in H as ([m1 t1] & H1 & H). apply bind_Ok in H as ([m2 t2] & H2 & H).
  apply bind_Ok in H as (m3 & H3 & H). apply bind_Ok in H as (u & _ & H). injection H as <-.
  etransitivity; [by eapply draw_order_keeps|]. etransitivity; [by eapply adjust_account_keeps|]. apply remove_order_keeps in H3. destruct b; [done|].
  etransitivity; [apply push_keeps|exact H3].
Qed.

Lemma fill_order_keeps oid p r m m' r' b : fill_order oid p r m = Ok (m', r', b) -> keeps m m'.
Proof.
  intros H. unfold fill_order in H. apply bind_Ok in H as (o & _ & H). do 2 apply check_bind_Ok in H as [_ H].
  apply bind_Ok in H as ([m1 t1] & H1 & H). apply adjust_account_keeps in H1. etransitivity; [exact H1|]. destruct (_ =? 0).
  - apply bind_Ok in H as (m2 & H2 & H). injection H as <- _ _. by eapply remove_order_keeps.
  - apply bind_Ok in H as (back & _ & H). destruct (_ =? 0); [|by injection H as <- _ _].
    apply bind_Ok in H as (m2 & H2 & H). injection H as <- _ _. by eapply cancel_order_keeps.
Qed.

Lemma match_orders_keeps n o p m m' r : match_orders n o p m = Ok (m', r) -> keeps m m'.
Proof.
  intros H. unfold match_orders in H. do 2 apply bind_Ok in H as (? & _ & H). do 5 apply check_bind_Ok in H as [_ H].
  apply bind_Ok in H as ([nr or] & _ & H). apply check_bind_Ok in H as [_ H]. apply bind_Ok in H as ([m1 b1] & H1 & H).
  apply bind_Ok in H as ([m2 b2] & H2 & H). apply bind_Ok in H as ([[m3 b3] f3] & H3 & H). apply bind_Ok in H as ([[m4 b4] f4] & H4 & H).
  apply check_bind_Ok in H as [_ H]. do 2 apply bind_Ok in H as (? & _ & H). injection H as <- _.
  etransitivity; [apply push_keeps|]. etransitivity; [by eapply draw_order_keeps|]. etransitivity; [by eapply draw_order_keeps|].
  etransitivity; [by eapply fill_order_keeps|]. by eapply fill_order_keeps.
Qed.

Lemma match_range_keeps n os : forall m m', match_range n os m = Ok m' -> keeps m m'.
Proof.
  induction os as [|o os IH]; intros m m' H; cbn in H; [by injection H as <-|]. apply bind_Ok in H as ([m1 r] & H1 & H).
  etransitivity; [by eapply match_orders_keeps|]. destruct (_ =? 1); [by injection H as <-|]. by apply IH.
Qed.

Lemma create_limit_order_keeps strict owner oid sell want mk fok exp m m' : create_limit_order strict owner oid sell want mk fok exp m = Ok m' -> keeps m m'.
Proof.
  intros H. unfold create_limit_order in H. do 3 apply check_bind_Ok in H as [_ H]. apply bind_Ok in H as (n & _ & H).
  apply bind_Ok in H as ([m1 t] & H1 & H). apply bind_Ok in H as (p & _ & H). apply bind_Ok in H as ([m2 i] & H2 & H).
  apply bind_Ok in H as ([m3 f] & H3 & H). apply check_bind_Ok in H as [_ H]. injection H as <-.
  etransitivity; [by eapply adjust_account_keeps|]. transitivity m2.
  - unfold create_order in H2. do 2 apply check_bind_Ok in H2 as [_ H2]. injection H2 as <- _. constructor; [done|cbn; lia].
  - unfold apply_order in H3. do 3 apply bind_Ok in H3 as (? & _ & H3). apply bind_Ok in H3 as (m4 & H4 & H3). injection H3 as <- _. by eapply match_range_keeps.
Qed.

Lemma clear_expired_keeps fuel : forall m m', clear_expired fuel m = Some (Ok m') -> keeps m m'.
Proof.
  induction fuel as [|fuel IH]; intros m m' H; [done|]. cbn in H. destruct (first_to_expire _) as [o|]; [|by injection H as <-].
  destruct (_ <? _); [|by injection H as <-]. destruct (cancel_order _ _ _) as [m1|] eqn:E; [|done].
  etransitivity; [by eapply cancel_order_keeps|]. by apply IH.
Qed.

Lemma market_step_keeps m m' : market_step m m' -> keeps m m'.
Proof.
  intros H. destruct H as [? ? ? ? ? ? ? ? ? _ _ _ H|? ? ? ? ? ? ? ? ? _ _ _ H|owner oid s s' H|s s' H|name s s' H|t s]; [by eapply create_limit_order_keeps..| | | |by constructor].
  - unfold limit_order_cancel in H. destruct (List.find _ _); [|done]. by eapply cancel_order_keeps.
  - by eapply clear_expired_keeps.
  - unfold remove_pending_limit_orders in H. eapply (foldM_inv (keeps s)); [|reflexivity|exact H].
    intros m1 x m2 K Hc. etransitivity; [exact K|]. exact (cancel_order_keeps _ _ _ _ Hc).
Qed.
End book_keeps.

(** The funds of the accounts with the liquid balances of the market. *)
Lemma liquid_funds c (m : gmap string account) : forall M : gmap string account_object, dom M = dom m ->
  sumM (acct_funds c) (map_imap (fun name a => Some (set_liquid (default (liquid a) (M !! name)) a)) m) =
  sumM (account_funds c) M + sumM (fun a => acct_funds c a - account_funds c (liquid a)) m.
Proof.
  induction m as [|i a m Hi IH] using map_ind; intros M Hd.
  - rewrite dom_empty_L in Hd. apply dom_empty_inv_L in Hd as ->. rewrite map_imap_empty. unfold sumM. by rewrite !map_fold_empty.
  - rewrite dom_insert_L in Hd. assert (is_Some (M !! i)) as [x Hx] by (apply elem_of_dom; set_solver).
    rewrite (map_imap_insert_Some _ _ _ _ (set_liquid x a)) by (by rewrite Hx).
    rewrite sumM_insert_new by (rewrite map_lookup_imap, Hi; done). rewrite (sumM_delete _ M i x) by done. rewrite sumM_insert_new by done.
    rewrite (map_imap_ext _ (fun name a => Some (set_liquid (default (liquid a) (delete i M !! name)) a)) m m).
    + rewrite IH; [rewrite !acct_funds_eq; cbn; lia|]. rewrite dom_delete_L, Hd. apply not_elem_of_dom in Hi. set_solver.
    + intros k. destruct (decide (k = i)) as [->|Hk]; [by rewrite Hi|]. by rewrite lookup_delete_ne.
Qed.

Section book_lift.
Context `{L : FcLib} `{!FcLaws L}.

Lemma market_of_wf l : ledger_wf l -> market_wf (market_of l).
Proof.
  intros W. constructor.
  - intros n a Ha. cbn in Ha. rewrite lookup_fmap in Ha. destruct (accounts l !! n) as [x|] eqn:E; [|done]. injection Ha as <-. by apply (lw_accounts _ W n x E).
  - apply W.
  - apply W.
  - apply (Forall_fmap id (fun i => i < next_id l)). apply (ids_below l W).
Qed.

Lemma below_more (n n' : Z) (ks : list Z) : n <= n' -> Forall (fun i => i < n) ks -> Forall (fun i => i < n') ks.
Proof. intros Hle H. eapply Forall_impl; [exact H|]. cbn. lia. Qed.

Lemma put_market_wf l m : ledger_wf l -> market_wf m -> keeps (market_of l) m -> ledger_wf (put_market m l).
Proof.
  intros W Wm [Kd Kn]. destruct (ids_below l W) as (H1 & H2 & H3 & H4 & _). cbn in Kn. destruct W, Wm. constructor; try done.
  - intros n a Ha. cbn in Ha. rewrite map_lookup_imap in Ha. destruct (accounts l !! n) as [x|] eqn:E; [|done]. injection Ha as <-.
    destruct (lw_accounts n x E) as (A0 & A). split; [|exact A]. cbn. destruct (Market.accounts m !! n) as [y|] eqn:Ey; [by apply (wf_accounts n y)|done].
  - cbn [put_market escrows withdrawals converts collateralized orders next_id]. rewrite !Forall_app. split_and!; try by eapply below_more.
    by apply Forall_fmap.
Qed.

Lemma put_market_gap l m : keeps (market_of l) m -> (forall c, supply c m = supply c (market_of l)) -> forall c, gap c (put_market m l) = gap c l.
Proof.
  intros [Kd _] Hs c. specialize (Hs c). unfold supply in Hs. cbn in Kd. cbn [market_of Market.accounts Market.orders] in Hs. rewrite dom_fmap_L in Kd. unfold gap, holdings.
  cbn [put_market accounts escrows withdrawals converts collateralized orders funds gpo]. rewrite liquid_funds by done.
  assert (sumM (acct_funds c) (accounts l) = sumM (account_funds c) (liquid <$> accounts l) + sumM (fun a => acct_funds c a - account_funds c (liquid a)) (accounts l)) as ->.
  { rewrite <- liquid_funds by apply dom_fmap_L. f_equal. apply map_eq. intros k. rewrite map_lookup_imap, lookup_fmap.
    destruct (accounts l !! k) as [[]|]; done. }
  lia.
Qed.

(** Any step of the market is one of the ledger. *)
Lemma market_step_conserves l m : books l -> market_step (market_of l) m -> conserved l (put_market m l).
Proof.
  intros B H. pose proof (market_step_keeps _ _ H) as K. destruct (market_step_Ok _ _ H (market_of_wf l (bk_wf _ B))) as [Wm Hs].
  split; [|by apply put_market_gap]. destruct B as [W (C1 & C2 & C3) R1 R2 R3]. constructor; [by apply put_market_wf| |done| |done].
  - assert (counters <$> accounts (put_market m l) = counters <$> accounts l) as Ec.
    { apply map_eq. intros k. cbn. rewrite !lookup_fmap, map_lookup_imap. by destruct (accounts l !! k) as [[]|]. }
    split_and!; [eapply (count_ok_frame _ (fun k => k.1.1))|eapply (count_ok_frame _ (fun k => k.1.2))|eapply (count_ok_frame _ (fun k => k.2))]; done.
  - eapply Forall_impl; [exact R2|]. cbn. destruct K as [_ Kn]. cbn in Kn. lia.
Qed.
End book_lift.

(** ** Steps *)

Section ledger_steps.
Context `{L : FcLib}.

(** An operation or a part of the processing of a block, successful; the amounts
    of an operation are those its [validate] admits. *)
Inductive ledger_step : ledger -> ledger -> Prop :=
| do_transfer from_name to_name a l l' : liquid_op a -> transfer from_name to_name a l = Ok l' -> ledger_step l l'
| do_escrow_transfer from_name to_name agent_name hbd hive i fee deadline expiration l l' : funds_wf hbd -> funds_wf hive -> funds_wf fee ->
    escrow_transfer from_name to_name agent_name hbd hive i fee deadline expiration l = Ok l' -> ledger_step l l'
| do_escrow_approve from_name to_name agent_name who i approve l l' :
    escrow_approve from_name to_name agent_name who i approve l = Ok l' -> ledger_step l l'
| do_escrow_dispute from_name to_name agent_name i l l' : escrow_dispute from_name to_name agent_name i l = Ok l' -> ledger_step l l'
| do_escrow_release from_name to_name agent_name who receiver i hbd hive l l' : funds_wf hbd -> funds_wf hive ->
    escrow_release from_name to_name agent_name who receiver i hbd hive l = Ok l' -> ledger_step l l'
| do_expire_escrows l l' : expire_escrow_ratification l = Ok l' -> ledger_step l l'
| do_remove_escrows name l l' : remove_pending_escrows name l = Ok l' -> ledger_step l l'
| do_transfer_to_savings from_name to_name a l l' : funds_wf a -> transfer_to_savings from_name to_name a l = Ok l' -> ledger_step l l'
| do_transfer_from_savings from_name to_name a memo i l l' : liquid_op a ->
    transfer_from_savings from_name to_name a memo i l = Ok l' -> ledger_step l l'
| do_cancel_savings from_name i l l' : cancel_transfer_from_savings from_name i l = Ok l' -> ledger_step l l'
| do_savings_withdraws l l' : process_savings_withdraws l = Some (Ok l') -> ledger_step l l'
| do_remove_withdraws name l l' : remove_pending_savings_withdraws name l = Ok l' -> ledger_step l l'
| do_convert owner i a l l' : funds_wf a -> convert owner i a l = Ok l' -> ledger_step l l'
| do_collateralized_convert owner i a l l' : funds_wf a -> collateralized_convert owner i a l = Ok l' -> ledger_step l l'
| do_conversions l l' : process_conversions l = Some (Ok l') -> ledger_step l l'
| do_remove_conversions name l l' : remove_pending_conversion_requests name l = Ok l' -> ledger_step l l'
| do_recurrent_transfer from_name to_name a memo recur executions pair l l' : funds_wf a -> 0 < executions ->
    recurrent_transfer from_name to_name a memo recur executions pair l = Ok l' -> ledger_step l l'
| do_recurrent_transfers l l' : process_recurrent_transfers l = Ok l' -> ledger_step l l'
| do_market l m : market_step (market_of l) m -> ledger_step l (put_market m l)
| do_interest name l l' : pay_savings_interest name l = Ok l' -> ledger_step l l'
| do_virtual_supply l l' : debt_fits l -> update_virtual_supply l = Ok l' -> ledger_step l l'
| do_next_block t l : ledger_step l (set_gpo (set_time t (gpo l)) l).
End ledger_steps.

Section history.
Context `{L : FcLib} `{!FcLaws L}.

Lemma gpo_changed g l : books l -> issued (gpo l) g (fun _ => 0) -> conserved l (set_gpo g l).
Proof.
  intros B I. destruct (set_issued l g _ (bk_wf _ B) I) as [W G]. split; [eapply frame_books; [exact B|apply set_gpo_frame, I|done]|].
  intros c. rewrite G. lia.
Qed.

Lemma update_virtual_supply_conserves l l' : books l -> debt_fits l -> update_virtual_supply l = Ok l' -> conserved l l'.
Proof.
  intros B Hd H. destruct (update_virtual_supply_Ok l l' (bk_wf _ B) Hd H) as (Hx & Hfit & Hv & (r & Hg) & ->). cbv zeta in *.
  destruct (lw_gpo _ (bk_wf _ B)) as (W1 & W2 & W3 & W4 & W5 & W6). apply gpo_changed; [done|]. rewrite Hg, Hv.
  constructor; [|done|done|intros c; unfold supply_of; cbn; lia]. split_and!; try done. cbn. unfold asset_wf, in_s. cbn.
  pose proof W1 as [_ [? ?]]. lia.
Qed.

Lemma pay_savings_interest_conserves name l l' : books l -> pay_savings_interest name l = Ok l' -> conserved l l'.
Proof. intros B H. destruct (pay_savings_interest_Ok name l l' (bk_wf _ B) H) as (W & G & F). split; [by eapply frame_books|done]. Qed.

Lemma set_time_Ok t l : books l -> conserved l (set_gpo (set_time t (gpo l)) l).
Proof.
  intros [W C R1 R2 R3]. split; [|done]. constructor; try done. destruct W. by constructor.
Qed.

Lemma ledger_step_Ok l l' : books l -> accounted l -> ledger_step l l' -> conserved l l'.
Proof.
  intros B [GH GD] H. destruct H.
  - eapply transfer_Ok; [done| |done|done]. lia.
  - eapply escrow_transfer_Ok; [done|..|done]; done.
  - by eapply escrow_approve_Ok.
  - by eapply escrow_dispute_Ok.
  - eapply escrow_release_Ok; [done|..|done]; done.
  - by apply expire_escrow_ratification_Ok.
  - by destruct (remove_pending_escrows_Ok name l l' B H).
  - by eapply transfer_to_savings_Ok.
  - by eapply transfer_from_savings_Ok.
  - by eapply cancel_transfer_from_savings_Ok.
  - destruct (process_savings_withdraws_Ok l B) as (r & E & Hr). rewrite E in H. injection H as ->. by apply Hr.
  - by destruct (remove_pending_savings_withdraws_Ok name l l' B H).
  - by eapply convert_Ok.
  - by eapply collateralized_convert_Ok.
  - destruct (process_conversions_Ok l B) as (r & E & Hr); [lia|lia|]. rewrite E in H. injection H as ->. by destruct (Hr l' eq_refl).
  - by destruct (remove_pending_conversion_requests_Ok name l l' B H).
  - by eapply recurrent_transfer_Ok.
  - by eapply process_recurrent_transfers_Ok.
  - by apply market_step_conserves.
  - by eapply pay_savings_interest_conserves.
  - by eapply update_virtual_supply_conserves.
  - by apply set_time_Ok.
Qed.

Lemma history_Ok l l' : books l -> accounted l -> rtc ledger_step l l' -> books l' /\ accounted l'.
Proof.
  intros B A H. induction H as [l|l l1 l' H1 H2 IH]; [done|]. destruct (ledger_step_Ok l l1 B A H1) as [B1 G1].
  apply IH; [done|]. destruct A. by split; rewrite G1.
Qed.

(** C2. Every HIVE and HBD that was issued is held by someone: over any history
    of transfers, escrows, savings, conversions, recurrent transfers, trades and
    interest payments, and of the passes over them that each block makes, the
    holdings of all objects add up to the two supply counters, no balance
    becomes negative, and the counters of an account's pending objects stay
    exact and within their limits. *)
Theorem every_unit_is_accounted_for (l l' : ledger) : books l -> accounted l -> rtc ledger_step l l' -> books l' /\ accounted l'.
Proof. apply history_Ok. Qed.

(** After any such history the chain's own audit passes: once the virtual
    supply has been updated, the supply checks of [validate_invariants] do not
    throw. *)
Theorem audit_passes_after_any_history (l l1 l' : ledger) :
  books l -> accounted l -> rtc ledger_step l l1 -> debt_fits l1 -> update_virtual_supply l1 = Ok l' -> validate_supplies l' = Ok tt.
Proof. intros B A H D U. destruct (history_Ok l l1 B A H) as [B1 A1]. apply (validate_supplies_Ok l1 l'); [apply B1|done..]. Qed.
End history.
