(* ===== verification/LedgerSamples.v ===== *)
(** * A ledger at work

    A concrete ledger and a history of its operations: the hypotheses of the
    theorems of Payouts, Escrows, Savings, Conversions, Recurrent and LedgerSteps
    hold in it, with the reference instance of the fc arithmetic. *)

From stdpp Require Import base numbers strings option list sorting gmap.
From S2P Require Import Prelude Fc Config AssetSymbol Asset Balance Market Ledger Transfers Escrows Savings Conversions Recurrent Payouts LedgerSteps.
Open Scope Z_scope.

Module Sample.
#[local] Existing Instance fc_ref.
#[local] Existing Instance fc_ref_laws.

Definition hive (x : Z) : asset := mk_asset x HIVE_SYMBOL.
Definition hbd (x : Z) : asset := mk_asset x HBD_SYMBOL.
Definition vests (x : Z) : asset := mk_asset x VESTS_SYMBOL.

Definition person (h d sd : Z) : account :=
  mk_acc (mk_account (hive h) (hbd d)) (hive 0) (hbd sd) 0 1000 1000 (hive 0) (hbd 0) (vests 0) (vests 0) (hive 0) 0 0 0.

Definition sample_rate : HBD_price := mk_tprice (mk_tiny 1000) (mk_tiny 500).

Definition l0 : ledger :=
  mk_ledger {["alice" := person 100000 50000 10000; "bob" := person 20000 0 0; "agent" := person 0 0 0; NEW_HIVE_TREASURY_ACCOUNT := person 0 0 0]}
    [] [] [] [] [] [] [mk_fund 0 (hive 5000) 10000] 1
    (mk_gpo 1000 (hive 625000) (hive 655000) (hbd 60000) (hive 500000) (vests 0) (vests 0) (hive 0) 1000 10000 1000 900)
    (mk_feed sample_rate sample_rate sample_rate) 30 [].

Lemma person_wf h d sd : 0 <= h < 2 ^ 63 -> 0 <= d < 2 ^ 63 -> 0 <= sd < 2 ^ 63 -> acc_wf (person h d sd).
Proof. intros. split; [|split_and!]; unfold account_wf, typed, funds_wf; cbn; auto with lia. Qed.

Lemma l0_all (P : account -> Prop) : P (person 100000 50000 10000) -> P (person 20000 0 0) -> P (person 0 0 0) -> map_Forall (fun _ a => P a) (accounts l0).
Proof. intros H1 H2 H3. cbn. repeat apply map_Forall_insert_2; try apply map_Forall_empty; try (apply map_Forall_singleton); done. Qed.

Lemma l0_books : books l0.
Proof.
  pose proof (l0_all (fun a => counters a = (0, 0, 0)) eq_refl eq_refl eq_refl) as Hc.
  constructor; [|split_and!|constructor|constructor|constructor].
  - constructor; try (constructor; fail).
    + apply (l0_all acc_wf); apply person_wf; lia.
    + apply Forall_singleton. split; [done|unfold funds_wf; cbn; lia].
    + split_and!; try done; unfold typed, funds_wf, asset_wf, in_s; cbn; auto with lia.
  - intros n a Ha. specialize (Hc n a Ha). cbn in Hc. injection Hc as -> _ _. unfold HIVE_MAX_PENDING_TRANSFERS. cbn. lia.
  - intros n a Ha. specialize (Hc n a Ha). cbn in Hc. injection Hc as _ -> _. unfold HIVE_SAVINGS_WITHDRAW_REQUEST_LIMIT. cbn. lia.
  - intros n a Ha. specialize (Hc n a Ha). cbn in Hc. injection Hc as _ _ ->. unfold HIVE_MAX_OPEN_RECURRENT_TRANSFERS. cbn. lia.
Qed.

Lemma l0_accounted : accounted l0.
Proof. split; vm_compute; reflexivity. Qed.

Definition run (f : ledger -> result ledger) (l : ledger) : ledger := match f l with Ok l' => l' | Throw _ => l end.
Definition at_time (t : Z) (l : ledger) : ledger := set_gpo (set_time t (gpo l)) l.

(** Alice opens an escrow to bob, both ratify it, a withdrawal from savings, two
    conversions and a recurrent transfer are started. *)
Definition l1 : ledger := run (escrow_transfer "alice" "bob" "agent" (hbd 100) (hive 2000) 7 (hive 10) 5000 9000) l0.
Definition l2 : ledger := run (escrow_approve "alice" "bob" "agent" "bob" 7 true) l1.
Definition l3 : ledger := run (escrow_approve "alice" "bob" "agent" "agent" 7 true) l2.
Definition l4 : ledger := run (transfer_from_savings "alice" "bob" (hbd 500) "rent" 1) l3.
Definition l5 : ledger := run (convert "alice" 3 (hbd 1000)) l4.
Definition l6 : ledger := run (collateralized_convert "bob" 4 (hive 8000)) l5.
Definition l7 : ledger := run (recurrent_transfer "alice" "bob" (hive 100) "fee" 24 5 0) l6.

Example sample_history :
  length (escrows l7) = 1%nat /\ length (withdrawals l7) = 1%nat /\ length (converts l7) = 1%nat /\
  length (collateralized l7) = 1%nat /\ length (recurrents l7) = 1%nat.
Proof. vm_compute. done. Qed.

Ltac amounts := first [done | unfold funds_wf, liquid_op, liquid_symbol, in_u, in_s, asset_wf; cbn; intuition (done || lia)].

Lemma l0_l7 : rtc ledger_step l0 l7.
Proof.
  eapply (rtc_l _ _ l1); [apply (do_escrow_transfer "alice" "bob" "agent" (hbd 100) (hive 2000) 7 (hive 10) 5000 9000); [amounts..|vm_compute; reflexivity]|].
  eapply (rtc_l _ _ l2); [apply (do_escrow_approve "alice" "bob" "agent" "bob" 7 true); vm_compute; reflexivity|].
  eapply (rtc_l _ _ l3); [apply (do_escrow_approve "alice" "bob" "agent" "agent" 7 true); vm_compute; reflexivity|].
  eapply (rtc_l _ _ l4); [apply (do_transfer_from_savings "alice" "bob" (hbd 500) "rent" 1); [amounts|vm_compute; reflexivity]|].
  eapply (rtc_l _ _ l5); [apply (do_convert "alice" 3 (hbd 1000)); [amounts|vm_compute; reflexivity]|].
  eapply (rtc_l _ _ l6); [apply (do_collateralized_convert "bob" 4 (hive 8000)); [amounts|vm_compute; reflexivity]|].
  eapply (rtc_l _ _ l7); [apply (do_recurrent_transfer "alice" "bob" (hive 100) "fee" 24 5 0); [amounts|lia|vm_compute; reflexivity]|]. apply rtc_refl.
Qed.

Lemma later_Ok t l : rtc ledger_step l0 l -> books (at_time t l) /\ accounted (at_time t l).
Proof.
  intros H. apply (history_Ok l0); [apply l0_books|apply l0_accounted|]. eapply rtc_r; [exact H|apply (do_next_block t)].
Qed.

(** The block 16 days later: everything that was started is due. *)
Definition l8 : ledger := at_time 1400000 l7.
Definition settled (r : option (result ledger)) : ledger := match r with Some (Ok l) => l | _ => l0 end.
Definition l9 : ledger := settled (process_savings_withdraws l8).
Definition l10 : ledger := settled (process_conversions l9).
Definition l11 : ledger := run process_recurrent_transfers l10.
Definition l12 : ledger := run update_virtual_supply l11.

Example sample_settled :
  length (withdrawals l11) = 0%nat /\ length (converts l11) = 0%nat /\ length (collateralized l11) = 0%nat /\ length (recurrents l11) = 1%nat /\
  (liquid <$> accounts l11 !! "bob") = Some (mk_account (hive 16101) (hbd 8119)).
Proof. vm_compute. done. Qed.

Lemma l0_l8 : rtc ledger_step l0 l8.
Proof. eapply rtc_r; [exact l0_l7|apply (do_next_block 1400000)]. Qed.
Lemma l0_l9 : rtc ledger_step l0 l9.
Proof. eapply rtc_r; [exact l0_l8|apply do_savings_withdraws; vm_compute; reflexivity]. Qed.
Lemma l0_l10 : rtc ledger_step l0 l10.
Proof. eapply rtc_r; [exact l0_l9|apply do_conversions; vm_compute; reflexivity]. Qed.
Lemma l0_l11 : rtc ledger_step l0 l11.
Proof. eapply rtc_r; [exact l0_l10|apply do_recurrent_transfers; vm_compute; reflexivity]. Qed.

Lemma reached l : rtc ledger_step l0 l -> books l /\ accounted l.
Proof. apply (history_Ok l0); [apply l0_books|apply l0_accounted]. Qed.

Lemma have_accounts {A} (f : A -> string) xs l : forallb (fun x => bool_decide (is_Some (accounts l !! f x))) xs = true ->
  forall x, x ∈ xs -> is_Some (accounts l !! f x).
Proof. intros H x Hx. rewrite forallb_forall in H. apply list_elem_of_In in Hx. specialize (H x Hx). by apply bool_decide_eq_true in H. Qed.

(** ** Witnesses *)

Lemma every_unit_is_accounted_for_witness : books l11 /\ accounted l11.
Proof. apply (every_unit_is_accounted_for l0 l11); [exact l0_books|exact l0_accounted|exact l0_l11]. Defined.

Lemma audit_passes_after_any_history_witness : validate_supplies l12 = Ok tt.
Proof.
  apply (audit_passes_after_any_history l0 l11 l12); [exact l0_books|exact l0_accounted|exact l0_l11| |vm_compute; reflexivity].
  right. vm_compute. done.
Defined.

Lemma escrow_released_to_a_party_witness : exists e, find_escrow "alice" 7 l3 = Some e /\ is_approved e = true.
Proof.
  destruct (reached l3) as [B _].
  { eapply (rtc_l _ _ l1); [apply (do_escrow_transfer "alice" "bob" "agent" (hbd 100) (hive 2000) 7 (hive 10) 5000 9000); [amounts..|vm_compute; reflexivity]|].
    eapply (rtc_l _ _ l2); [apply (do_escrow_approve "alice" "bob" "agent" "bob" 7 true); vm_compute; reflexivity|].
    eapply (rtc_l _ _ l3); [apply (do_escrow_approve "alice" "bob" "agent" "agent" 7 true); vm_compute; reflexivity|]. apply rtc_refl. }
  destruct (escrow_released_to_a_party "alice" "bob" "agent" "alice" "bob" 7 (hbd 100) (hive 2000) l3
    (run (escrow_release "alice" "bob" "agent" "alice" "bob" 7 (hbd 100) (hive 2000)) l3)) as (e & H1 & _ & _ & H2 & _);
    [exact B|amounts|amounts|vm_compute; reflexivity|]. exact (ex_intro _ e (conj H1 H2)).
Defined.

Lemma unratified_escrows_are_refunded_witness : exists l', expire_escrow_ratification (at_time 6000 l1) = Ok l' /\ accounted l'.
Proof.
  destruct (later_Ok 6000 l1) as [B A].
  { eapply (rtc_l _ _ l1); [apply (do_escrow_transfer "alice" "bob" "agent" (hbd 100) (hive 2000) 7 (hive 10) 5000 9000); [amounts..|vm_compute; reflexivity]|apply rtc_refl]. }
  destruct (unratified_escrows_are_refunded (at_time 6000 l1) B A) as (l' & H1 & _ & H2 & _); [|exact (ex_intro _ l' (conj H1 H2))].
  apply (have_accounts from). vm_compute. reflexivity.
Defined.

Lemma due_withdrawals_are_paid_witness : exists l', process_savings_withdraws l8 = Some (Ok l') /\ accounted l'.
Proof.
  destruct (reached l8 l0_l8) as [B A]. destruct (due_withdrawals_are_paid l8 B A) as (l' & H1 & _ & _ & H2); [|exact (ex_intro _ l' (conj H1 H2))].
  apply Forall_forall. intros s Hs. split; [apply (have_accounts swo_from (withdrawals l8))|apply (have_accounts swo_to (withdrawals l8))]; [vm_compute; reflexivity|exact Hs|vm_compute; reflexivity|exact Hs].
Defined.

Lemma conversions_settle_exactly_witness : exists r, process_conversions l9 = Some r.
Proof.
  destruct (reached l9 l0_l9) as [B A]. destruct (conversions_settle_exactly l9 B A) as [(r & H & _) _]. exact (ex_intro _ r H).
Defined.

Definition due_transfer : recurrent_transfer_object := mk_recurrent 5 1000 "alice" "bob" (hive 100) "fee" 24 5 0 0.
Lemma execute_recurrent_effect_witness : exists enough, recurrents (run (execute_recurrent due_transfer) l10) = rescheduled due_transfer enough (recurrents l10).
Proof.
  destruct (reached l10 l0_l10) as [B _].
  destruct (execute_recurrent_effect due_transfer l10 (run (execute_recurrent due_transfer) l10)) as (enough & _ & _ & _ & _ & _ & H & _);
    [exact B|vm_compute; left|vm_compute; done|vm_compute; reflexivity|]. exact (ex_intro _ enough H).
Defined.

Lemma return_dust_burns_the_least_witness : exists burned,
  return_dust (hive 7) (hive 3) (hive 7) l0 = Ok (hive (3 + (7 - burned)), hive burned).
Proof.
  destruct (return_dust_burns_the_least (hive 7) (hive 3) l0) as (b & _ & H & _); [amounts|amounts|vm_compute; reflexivity|reflexivity|vm_compute; done|vm_compute; done|vm_compute; done|].
  exact (ex_intro _ b H).
Defined.

(** ** What modelling showed *)

Definition succeeds {A} (r : result A) : bool := match r with Ok _ => true | Throw _ => false end.

(** The end date of a recurrent transfer is computed from a product of two 16-bit
    fields in a 32-bit [int]: with both at their maximum it overflows, and a
    transfer that would last half a million years passes the check of the 730
    days, which a transfer of 731 days does not. *)
Theorem end_date_check_overflows :
  let l := at_time 1700000000 l0 in
  succeeds (recurrent_transfer "alice" "bob" (hive 100) "" 65535 65535 0 l) = true /\
  65535 * 65534 > 24 * HIVE_MAX_RECURRENT_TRANSFER_END_DATE /\
  recurrent_transfer "alice" "bob" (hive 100) "" 24 732 0 l = Throw AssertTime.
Proof. vm_compute. done. Qed.
End Sample.
