(* ===== verification/Irreversibility.v ===== *)
(** * Irreversible blocks

    Models the decision that a block can no longer be undone:
    [find_new_last_irreversible_block] and [store_block] of
    libraries/chain/sync_block_writer.cpp, [update_last_irreversible_block],
    [process_fast_confirm_transaction] and [migrate_irreversible_state] of
    libraries/chain/database.cpp.

    A scheduled witness votes for the newest of two blocks: the last one it
    produced and the last one it confirmed.  A block becomes irreversible when
    enough witnesses voted for it or for one of its descendants on a branch. *)

From stdpp Require Import base numbers strings option list sorting gmap.
From S2P Require Import Prelude Fc Config Version WitnessSchedule ForkDb.
Open Scope Z_scope.

#[export] Instance block_id_countable : Countable block_id_type.
Proof. apply (inj_countable' _hash mk_id). by intros []. Defined.

(** ** State *)

(** What the decision reads and writes: the fork database, the number of the
    head block of the state, [last_irreversible_object], the confirmations
    received, the block log (oldest block first), the revision up to which the
    undo history has been committed and the irreversible blocks announced. *)
Record node : Set := mk_node {
  fork_db : fork_database;
  state_head_num : Z;
  irreversible_block_num : Z;
  last_fast_approved : gmap string block_id_type;
  block_log : list full_block_type;
  committed : Z;
  notified : list Z
}.

Definition set_fork_db x n := mk_node x (state_head_num n) (irreversible_block_num n) (last_fast_approved n) (block_log n) (committed n) (notified n).
Definition set_irreversible x n := mk_node (fork_db n) (state_head_num n) x (last_fast_approved n) (block_log n) (committed n) (notified n).
Definition set_approved x n := mk_node (fork_db n) (state_head_num n) (irreversible_block_num n) x (block_log n) (committed n) (notified n).
Definition set_log x n := mk_node (fork_db n) (state_head_num n) (irreversible_block_num n) (last_fast_approved n) x (committed n) (notified n).
Definition set_committed x n := mk_node (fork_db n) (state_head_num n) (irreversible_block_num n) (last_fast_approved n) (block_log n) x (notified n).
Definition set_notified x n := mk_node (fork_db n) (state_head_num n) (irreversible_block_num n) (last_fast_approved n) (block_log n) (committed n) x.

Record new_last_irreversible_block_t : Set := mk_new_lib {
  new_last_irreversible_block_num : Z;
  found_on_another_fork : bool;
  new_head_block : full_block_type
}.

Section search.
Context `{L : FcLib}.

(** ** Votes *)

(** The highest block a witness voted for, by a confirmation or by producing it. *)
Definition best_vote (fast generated : gmap string block_id_type) (w : string) : option block_id_type :=
  match fast !! w with
  | Some f =>
      match generated !! w with
      | Some g => Some (if num_from_id g <? num_from_id f then f else g)
      | None => Some f
      end
  | None => generated !! w
  end.

Definition add_approval (m : gmap block_id_type Z) (vote : option block_id_type) : gmap block_id_type Z :=
  match vote with
  | Some i => <[i := default 0 (m !! i) + 1]> m
  | None => m
  end.
Definition number_of_approvals_by_block_id (votes : list (option block_id_type)) : gmap block_id_type Z :=
  foldl add_approval ∅ votes.

(** ** The search *)

(** [new_last_irreversible_block] and [new_head_block] while the heads are
    walked over. *)
Record candidate : Set := mk_candidate { cand_block : addr; cand_head : addr }.

Definition worth_considering (s : fork_database) (old : Z) (cand : option candidate) (b : addr) : bool :=
  (old <? get_block_num s b)
  && match cand with
     | None => true
     | Some c => bool_decide (b = cand_block c) || (get_block_num s (cand_block c) <? get_block_num s b)
     end.

Definition better_candidate (s : fork_database) (cand : option candidate) (b head : addr) : option candidate :=
  match cand with
  | None => Some (mk_candidate b head)
  | Some c => if get_block_num s (cand_head c) <? get_block_num s head then Some (mk_candidate b head) else cand
  end.

(** The walk backwards from a possible head; [None] is out of fuel. *)
Fixpoint consider (fuel : nat) (s : fork_database) (approvals : gmap block_id_type Z) (required old : Z)
    (cand : option candidate) (head b : addr) (n : Z) : option (option candidate) :=
  match fuel with
  | O => None
  | S fuel =>
      if worth_considering s old cand b then
        let n := n + default 0 (approvals !! get_block_id s b) in
        if required <=? n then Some (better_candidate s cand b head)
        else match lock_prev s b with
             | Some b => consider fuel s approvals required old cand head b n
             | None => Some cand
             end
      else Some cand
  end.

Fixpoint consider_heads (s : fork_database) (approvals : gmap block_id_type Z) (required old : Z)
    (cand : option candidate) (heads : list addr) : option (option candidate) :=
  match heads with
  | [] => Some cand
  | h :: heads =>
      match consider (walk_fuel s h) s approvals required old cand h h 0 with
      | None => None
      | Some cand => consider_heads s approvals required old cand heads
      end
  end.

Definition votes_of (s : fork_database) (fast : gmap string block_id_type) (scheduled : list string) : list (option block_id_type) :=
  best_vote fast (get_last_block_generated_by_each_witness s) <$> scheduled.

Definition find_new_last_irreversible_block (scheduled : list string) (fast : gmap string block_id_type)
    (required old : Z) (s : fork_database) : option (option new_last_irreversible_block_t) :=
  let approvals := number_of_approvals_by_block_id (votes_of s fast scheduled) in
  match consider_heads s approvals required old None (fetch_heads s) with
  | None => None
  | Some None => Some None
  | Some (Some c) =>
      match fetch_block_on_main_branch_by_number s (get_block_num s (cand_block c)) with
      | None => None
      | Some main_branch_block =>
          Some (Some (mk_new_lib (get_block_num s (cand_block c))
                        (negb (bool_decide (main_branch_block = Some (cand_block c))))
                        (full_block (item s (cand_head c)))))
      end
  end.
End search.

Section decision.
Context `{L : FcLib}.

(** ** The decision *)

(** The witnesses of the schedule that decides, past hardfork 26. *)
Definition scheduled_names (c : chain) : list string :=
  take (Z.to_nat (num_scheduled_witnesses (wso_future c))) (current_shuffled_witnesses (wso_future c)).
Definition scheduled_witness_objects (c : chain) : result (list witness_object) :=
  mapR (fun name => get_witness name (witnesses c)) (scheduled_names c).

(** [std::any_of] stops at the first match. *)
Fixpoint witness_is_scheduled (witness : string) (c : chain) (names : list string) : result bool :=
  match names with
  | [] => Ok false
  | name :: names =>
      w ← get_witness name (witnesses c);
      if bool_decide (witness = owner w) then Ok true else witness_is_scheduled witness c names
  end.

Definition set_last_irreversible_block_num (x : Z) (n : node) : result node :=
  _ ← check (irreversible_block_num n <=? x) AssertFc;
  Ok (set_irreversible x n).

(** How many of the scheduled witnesses may be missing. *)
Definition offset (scheduled : list witness_object) : Z :=
  (HIVE_100_PERCENT - HIVE_IRREVERSIBLE_THRESHOLD) * WitnessSchedule.size scheduled / HIVE_100_PERCENT.

Definition witnesses_required_for_irreversibility (scheduled : list witness_object) : Z :=
  Z.of_nat (base.size (list_to_set (owner <$> scheduled) : gset string)) - offset scheduled.

(** Confirmations of blocks that are irreversible now are dropped. *)
Definition forget_confirmed (n : node) : node :=
  set_approved (filter (fun kv => irreversible_block_num n < num_from_id kv.2) (last_fast_approved n)) n.

(** [switch_forks_t]: the callback may change the whole node. *)
Definition switch_forks_t : Type := full_block_type -> Z -> node -> node * option Z.

Definition advance (x : Z) (old : Z) (n : node) : node * result Z :=
  match set_last_irreversible_block_num x n with
  | Throw e => (n, Throw e)
  | Ok n => (n, Ok old)
  end.

(** The first [None] is undefined behaviour of the code.  [skip_block_log] is the
    flag of a replay, in which the fork database is not filled. *)
Definition update_last_irreversible_block (skip_block_log : bool) (c : chain) (sf : option switch_forks_t) (n : node) :
    option (node * result Z) :=
  let old := irreversible_block_num n in
  let head := state_head_num n in
  if head <? HIVE_START_MINER_VOTING_BLOCK then
    if (HIVE_MAX_WITNESSES <? head) && (old <? head - HIVE_MAX_WITNESSES)
    then Some (advance (head - HIVE_MAX_WITNESSES) old n) else Some (n, Ok old)
  else if old =? head then Some (n, Ok old)
  else
    match scheduled_witness_objects c with
    | Throw e => Some (n, Throw e)
    | Ok scheduled =>
        if skip_block_log then
          match merge_sort Z.le (last_confirmed_block_num <$> scheduled) !! Z.to_nat (offset scheduled) with
          | None => None
          | Some x => if old <? u32 x then Some (advance (u32 x) old n) else Some (n, Ok old)
          end
        else
          match find_new_last_irreversible_block (owner <$> scheduled) (last_fast_approved n)
                  (witnesses_required_for_irreversibility scheduled) old (fork_db n) with
          | None => None
          | Some None => Some (n, Ok old)
          | Some (Some info) =>
              let mark n :=
                let '(n, r) := advance (Z.min (new_last_irreversible_block_num info) (state_head_num n)) old n in
                match r with
                | Ok _ => Some (forget_confirmed n, r)
                | Throw _ => Some (n, r)
                end in
              if found_on_another_fork info then
                if block_num (new_head_block info) <? head then Some (n, Ok old)
                else match sf with
                     | None => Some (n, Ok old)
                     | Some sf =>
                         match sf (new_head_block info) old n with
                         | (n, Some r) => Some (n, Ok r)
                         | (n, None) => mark n
                         end
                     end
              else mark n
          end
    end.

(** ** The block log *)

Definition log_head_num (n : node) : Z :=
  match last (block_log n) with Some b => block_num b | None => 0 end.

(** The blocks of the main branch from [x] on, all of them or none. *)
Fixpoint blocks_to_write (fuel : nat) (x : Z) (s : fork_database) : option (result (list full_block_type)) :=
  match fuel with
  | O => Some (Ok [])
  | S fuel =>
      match fetch_block_on_main_branch_by_number s x with
      | None => None
      | Some None => Some (Throw AssertFc)
      | Some (Some a) =>
          match blocks_to_write fuel (x + 1) s with
          | Some (Ok l) => Some (Ok (full_block (item s a) :: l))
          | r => r
          end
      end
  end.

Definition store_block (current_irreversible_block_num state_head_block_number : Z) (n : node) : option (node * result unit) :=
  let s := fork_db n in
  if match _head s with Some h => negb (get_block_num s h =? state_head_block_number) | None => false end
  then Some (n, Throw AssertFc)
  else
    let trim n := (set_fork_db (set_max_size (u32 (state_head_block_number - current_irreversible_block_num + 1)) (fork_db n)) n, Ok tt) in
    if log_head_num n <? current_irreversible_block_num then
      match blocks_to_write (Z.to_nat (current_irreversible_block_num - log_head_num n)) (log_head_num n + 1) s with
      | None => None
      | Some (Throw e) => Some (n, Throw e)
      | Some (Ok l) => Some (trim (set_log (block_log n ++ l) n))
      end
    else Some (trim n).

Definition migrate_irreversible_state (old_last_irreversible : Z) (n : node) : option (node * result unit) :=
  let x := irreversible_block_num n in
  match store_block x (state_head_num n) n with
  | None => None
  | Some (n, Throw e) => Some (n, Throw e)
  | Some (n, Ok _) =>
      let n := set_committed x n in
      Some (if old_last_irreversible <? x
            then set_notified (notified n ++ (seqZ (old_last_irreversible + 1) (x - old_last_irreversible))) n else n, Ok tt)
  end.

(** ** Confirmations *)

(** [process_fast_confirm_transaction] once the transaction has been validated:
    it carries the approval of [block] by [witness]. *)
Definition process_fast_confirm_transaction (witness : string) (block : block_id_type) (skip_block_log : bool)
    (c : chain) (sf : switch_forks_t) (n : node) : option (node * result unit) :=
  match witness_is_scheduled witness c (scheduled_names c) with
  | Throw e => Some (n, Throw e)
  | Ok false => Some (n, Ok tt)
  | Ok true =>
      if match last_fast_approved n !! witness with
         | Some i => num_from_id block <=? num_from_id i
         | None => false
         end then Some (n, Ok tt)
      else
        let n := set_approved (<[witness := block]> (last_fast_approved n)) n in
        match update_last_irreversible_block skip_block_log c (Some sf) n with
        | None => None
        | Some (n, Throw e) => Some (n, Throw e)
        | Some (n, Ok old) => migrate_irreversible_state old n
        end
  end.
End decision.

(** ** Counting votes *)

Section votes.
Context `{L : FcLib}.

(** The votes for one of the blocks [ids]. *)
Definition votes_among (votes : list (option block_id_type)) (ids : list block_id_type) : Z :=
  sumZ (fun v => match v with Some i => if bool_decide (i ∈ ids) then 1 else 0 | None => 0 end) votes.

Lemma approvals_count votes i :
  default 0 (number_of_approvals_by_block_id votes !! i) = votes_among votes [i].
Proof.
  unfold number_of_approvals_by_block_id. induction votes as [|v votes IH] using rev_ind; [done|].
  rewrite foldl_app. unfold votes_among in *. rewrite sumZ_app, <- IH. cbn. destruct v as [j|]; cbn; [|lia].
  destruct (decide (j = i)) as [->|Hne].
  - rewrite lookup_insert_eq, bool_decide_true by set_solver. cbn. lia.
  - rewrite lookup_insert_ne, bool_decide_false by set_solver. lia.
Qed.

Lemma votes_among_cons votes i ids : i ∉ ids ->
  votes_among votes (i :: ids) = votes_among votes [i] + votes_among votes ids.
Proof.
  intros Hi. unfold votes_among. induction votes as [|v votes IH]; [done|]. rewrite !sumZ_cons, IH.
  destruct v as [j|]; [|lia]. repeat case_bool_decide; set_solver || lia.
Qed.

Lemma votes_among_range votes ids : 0 <= votes_among votes ids <= Z.of_nat (length votes).
Proof.
  unfold votes_among. induction votes as [|v votes IH]; [done|]. rewrite sumZ_cons. cbn [length].
  destruct v as [j|]; [case_bool_decide|]; lia.
Qed.

Lemma votes_among_ext votes l l' : (forall i, i ∈ l <-> i ∈ l') -> votes_among votes l = votes_among votes l'.
Proof.
  intros H. unfold votes_among. induction votes as [|v votes IH]; [done|]. rewrite !sumZ_cons, IH. f_equal.
  destruct v as [j|]; [|done]. by rewrite (bool_decide_ext _ _ (H j)).
Qed.

(** Two sets of blocks with more votes together than there are voters share one. *)
Lemma votes_overlap votes ids ids' : Z.of_nat (length votes) < votes_among votes ids + votes_among votes ids' ->
  exists i, i ∈ ids /\ i ∈ ids'.
Proof.
  unfold votes_among. induction votes as [|v votes IH]; [cbn; lia|]. rewrite !sumZ_cons. cbn [length]. intros H.
  destruct v as [j|]; [|apply IH; lia]. repeat case_bool_decide; [by exists j|apply IH; lia..].
Qed.
End votes.

(** ** The search finds quorums *)

Section finding.
Context `{L : FcLib} `{!FcLaws L}.

Definition ids (s : fork_database) (l : list addr) : list block_id_type := get_block_id s <$> l.

(** [b] is above [old], and enough votes are for blocks on the way from [h] down
    to [b], [b] included. *)
Definition quorum (s : fork_database) (votes : list (option block_id_type)) (required old : Z) (h b : addr) : Prop :=
  exists p, path s h p b /\ old < get_block_num s b /\ required <= votes_among votes (ids s (p ++ [b])).

Lemma path_ids_NoDup s a l c : fdb_inv s -> allocated s a -> path s a l c -> NoDup (ids s (l ++ [c])).
Proof.
  intros I Ha H. induction H as [a|a b l c Hb Hp IH]; [apply NoDup_singleton|].
  destruct (lock_prev_spec s a b I Ha Hb) as (Hal & _ & Hn). cbn. constructor; [|by apply IH].
  intros Hin. apply list_elem_of_fmap in Hin as (x & E & Hx).
  destruct (path_facts s b l c I Hal Hp) as (Hc & _ & HF & Hle).
  assert (allocated s x /\ get_block_num s x <= get_block_num s b) as [Hx1 Hx2].
  { apply elem_of_app in Hx as [Hx|Hx%list_elem_of_singleton]; [|by subst].
    rewrite Forall_forall in HF. destruct (HF x Hx). split; [done|lia]. }
  pose proof (id_num s a x I Ha Hx1 E). lia.
Qed.

Lemma votes_snoc s votes h p b : fdb_inv s -> allocated s h -> path s h p b ->
  votes_among votes (ids s (p ++ [b])) = votes_among votes (ids s p) + votes_among votes [get_block_id s b].
Proof.
  intros I Hh Hp. pose proof (path_ids_NoDup s h p b I Hh Hp) as Hn. unfold ids in *.
  rewrite fmap_app in Hn. apply NoDup_app in Hn as (_ & Hn & _).
  assert (forall l, get_block_id s b ∉ l -> votes_among votes (l ++ [get_block_id s b])
            = votes_among votes l + votes_among votes [get_block_id s b]) as E.
  { intros l Hl. rewrite (Z.add_comm (votes_among votes l)), <- votes_among_cons by done.
    apply votes_among_ext. set_solver. }
  rewrite fmap_app. apply E. intros Hin. by apply (Hn _ Hin), list_elem_of_singleton.
Qed.

Lemma path_snoc s a l b c : path s a l b -> lock_prev s b = Some c -> path s a (l ++ [b]) c.
Proof. intros H Hb. eapply path_app; [exact H|]. econstructor; [done|constructor]. Qed.

(** The walk from one head: it returns, and a candidate it brings up has a quorum. *)
Lemma consider_spec fuel s votes required old cand h p b : fdb_inv s -> allocated s h -> path s h p b ->
  (Z.to_nat (get_block_num s b) < fuel)%nat ->
  exists r, consider fuel s (number_of_approvals_by_block_id votes) required old cand h b (votes_among votes (ids s p)) = Some r /\
    (r = cand \/ exists b', quorum s votes required old h b' /\ r = better_candidate s cand b' h).
Proof.
  intros I Hh. revert p b. induction fuel as [|fuel IH]; intros p b Hp Hf; [lia|]. cbn.
  rewrite approvals_count. destruct (worth_considering s old cand b) eqn:Ew; [|eauto].
  destruct (_ <=? _) eqn:Eq; to_prop.
  - eexists. split; [done|]. right. exists b. split; [|done]. exists p. split; [done|].
    apply andb_true_iff in Ew as [Ew _]. to_prop. split; [done|]. by rewrite (votes_snoc s votes h).
  - destruct (lock_prev s b) as [c|] eqn:Ec; [|eauto]. destruct (path_facts s h p b I Hh Hp) as (Hb & _).
    destruct (lock_prev_spec s b c I Hb Ec) as (Hc & _ & Hn). pose proof (num_pos s c I Hc).
    rewrite <- (votes_snoc s votes h) by done. apply IH; [by eapply path_snoc|lia].
Qed.

(** A walk without a candidate that brings up none has seen every block above [old]. *)
Lemma consider_none fuel s votes required old h p b : fdb_inv s -> allocated s h -> path s h p b ->
  consider fuel s (number_of_approvals_by_block_id votes) required old None h b (votes_among votes (ids s p)) = Some None ->
  forall p' b', path s b p' b' -> old < get_block_num s b' -> votes_among votes (ids s ((p ++ p') ++ [b'])) < required.
Proof.
  intros I Hh. revert p b. induction fuel as [|fuel IH]; intros p b Hp H p' b' Hp' Ho; [done|]. cbn in H.
  destruct (path_facts s h p b I Hh Hp) as (Hb & _). destruct (path_facts s b p' b' I Hb Hp') as (_ & _ & _ & Hle).
  rewrite approvals_count in H. unfold worth_considering in H. rewrite (proj2 (Z.ltb_lt _ _)) in H by lia. cbn in H.
  destruct (_ <=? _) eqn:Eq; to_prop; [done|]. inversion Hp' as [|? c l ? Hc Hp'']; subst.
  - rewrite app_nil_r, (votes_snoc s votes h) by done. done.
  - rewrite Hc in H. rewrite <- (votes_snoc s votes h) in H by done.
    pose proof (IH _ _ (path_snoc _ _ _ _ _ Hp Hc) H l b' Hp'' Ho) as IHH.
    by rewrite <- (app_assoc p [b] l) in IHH.
Qed.

Definition candidate_ok (s : fork_database) (votes : list (option block_id_type)) (required old : Z) (cand : option candidate) : Prop :=
  match cand with
  | Some c => cand_head c ∈ fetch_heads s /\ quorum s votes required old (cand_head c) (cand_block c)
  | None => True
  end.

Lemma better_candidate_Some s cand b h : exists c, better_candidate s cand b h = Some c.
Proof. unfold better_candidate. destruct cand; [destruct (_ <? _)|]; eauto. Qed.

Lemma heads_spec s votes required old cand heads : fdb_inv s -> heads ⊆ fetch_heads s ->
  candidate_ok s votes required old cand ->
  exists r, consider_heads s (number_of_approvals_by_block_id votes) required old cand heads = Some r /\
    candidate_ok s votes required old r /\
    (r = None -> cand = None /\ forall h b, h ∈ heads -> ~ quorum s votes required old h b).
Proof.
  intros I. revert cand. induction heads as [|h heads IH]; intros cand Hsub Hc; cbn [consider_heads].
  { exists cand. split_and!; [done|done|]. intros ->. split; [done|]. set_solver. }
  assert (h ∈ _index s) as Hin by (apply (list_elem_of_filter (fun a => by_previous s (_index s) (get_block_id s a) = [])); set_solver).
  assert (allocated s h) as Hh by (apply (inv_alloc _ I); by left).
  destruct (consider_spec (walk_fuel s h) s votes required old cand h [] h) as (r & E & Hr);
    [done|done|constructor|unfold walk_fuel; lia|].
  assert (votes_among votes (ids s []) = 0) as E0.
  { unfold votes_among. clear. induction votes as [|v l IH]; [done|]. rewrite sumZ_cons, IH. by destruct v. }
  rewrite E0 in E. rewrite E.
  destruct (IH r) as (r' & -> & Hok & Hnone); [set_solver| |].
  { destruct Hr as [->|(b & Hq & ->)]; [done|]. unfold better_candidate, candidate_ok in *. destruct cand as [c|]; [destruct (_ <? _)|]; auto;
      (split; [set_solver|done]). }
  exists r'. split_and!; [done|done|]. intros ->. destruct (Hnone eq_refl) as [-> Hrest].
  destruct Hr as [Hcn|(b & _ & Hb)]; [|destruct (better_candidate_Some s cand b h); congruence]. subst cand. split; [done|].
  intros h' b [->|Hh']%elem_of_cons; [|by apply Hrest]. intros (p & Hp & Ho & Hq).
  pose proof (consider_none (walk_fuel s h) s votes required old h [] h I Hh (path_here s h)) as Hno. rewrite E0 in Hno.
  specialize (Hno E p b Hp Ho). cbn [app] in Hno. lia.
Qed.

Lemma walk_down_total fuel s n a : fdb_inv s -> allocated s a -> (Z.to_nat (get_block_num s a) < fuel)%nat ->
  exists r, walk_down fuel s n a = Some r.
Proof.
  intros I. revert a. induction fuel as [|fuel IH]; intros a Ha Hf; [lia|]. cbn. destruct (_ <? _); [|eauto].
  destruct (lock_prev s a) as [b|] eqn:Eb; [|eauto]. destruct (lock_prev_spec s a b I Ha Eb) as (Hb & _ & Hn).
  pose proof (num_pos s b I Hb). apply IH; [done|lia].
Qed.

Lemma main_branch_total s n : fdb_inv s -> exists r, fetch_block_on_main_branch_by_number s n = Some r.
Proof.
  intros I. unfold fetch_block_on_main_branch_by_number, walk_main_branch_to_num. destruct (_head s) as [h|] eqn:Eh; [|eauto].
  destruct (_ <? n); [eauto|]. destruct (fetch_block_by_number s n) as [|? [|? ?]]; [eauto|eauto|].
  apply walk_down_total; [done|apply (inv_alloc _ I); auto|unfold walk_fuel; lia].
Qed.

(** What the search reports, for the votes of the scheduled witnesses. *)
Lemma search_spec s scheduled fast required old : fdb_inv s ->
  exists r, find_new_last_irreversible_block scheduled fast required old s = Some r /\
    match r with
    | Some info => exists h b, h ∈ fetch_heads s /\ quorum s (votes_of s fast scheduled) required old h b /\
        new_last_irreversible_block_num info = get_block_num s b /\ new_head_block info = full_block (item s h) /\
        (found_on_another_fork info = false <-> fetch_block_on_main_branch_by_number s (get_block_num s b) = Some (Some b))
    | None => forall h b, h ∈ fetch_heads s -> ~ quorum s (votes_of s fast scheduled) required old h b
    end.
Proof.
  intros I. unfold find_new_last_irreversible_block.
  destruct (heads_spec s (votes_of s fast scheduled) required old None (fetch_heads s)) as (r & -> & Hok & Hnone); [done|done|done|].
  destruct r as [c|]; [|exists None; split; [done|]; intros h b Hh; by apply Hnone].
  destruct (main_branch_total s (get_block_num s (cand_block c)) I) as [m Em]. rewrite Em. eexists. split; [done|].
  destruct Hok as [Hh Hq]. exists (cand_head c), (cand_block c). cbn. rewrite Em. split_and!; auto.
  rewrite negb_false_iff, bool_decide_eq_true. split; congruence.
Qed.

(** Blocks with the same id have the same ancestors. *)
Lemma same_id_branch s x l1 b1 y l2 b2 : fdb_inv s -> ids_determine s -> allocated s x -> allocated s y ->
  get_block_id s x = get_block_id s y -> path s x l1 b1 -> path s y l2 b2 -> get_block_num s b2 <= get_block_num s b1 ->
  exists l, branch s (get_block_id s b1) l (get_block_id s b2).
Proof.
  intros I Hd Hx Hy E H1. revert y l2 Hy E. induction H1 as [x|x x' l b1 Hx' Hp IH]; intros y l2 Hy E H2 Hle.
  - destruct (path_facts s y l2 b2 I Hy H2) as (_ & Hb & _). exists l2. by rewrite E.
  - destruct (lock_prev_spec s x x' I Hx Hx') as (Hxa & Hxi & Hxn). destruct (path_facts s x' l b1 I Hxa Hp) as (_ & _ & _ & Hn1).
    pose proof (id_num s x y I Hx Hy E) as Exy. inversion H2 as [|? y' l' ? Hy' Hp']; subst; [lia|].
    destruct (lock_prev_spec s y y' I Hy Hy') as (Hya & Hyi & _).
    eapply (IH Hxa y' l'); [done| |done|done]. rewrite Hxi, Hyi. by apply Hd.
Qed.

Lemma path_to s a l c x : fdb_inv s -> allocated s a -> path s a l c -> x ∈ l ++ [c] -> allocated s x /\ exists l', path s x l' c.
Proof.
  intros I Ha H. induction H as [a|a b l c Hb Hp IH]; intros Hx.
  - apply list_elem_of_singleton in Hx as ->. split; [done|]. exists []. constructor.
  - destruct (lock_prev_spec s a b I Ha Hb) as (Hal & _). apply elem_of_cons in Hx as [->|Hx]; [|by apply IH].
    split; [done|]. exists (a :: l). by econstructor.
Qed.

(** More than half of the votes for two blocks put them on one branch. *)
Lemma quorums_meet s votes required old h b h' b' : fdb_inv s -> ids_determine s -> allocated s h -> allocated s h' ->
  Z.of_nat (length votes) < 2 * required ->
  quorum s votes required old h b -> quorum s votes required old h' b' -> get_block_num s b' <= get_block_num s b ->
  exists l, branch s (get_block_id s b) l (get_block_id s b').
Proof.
  intros I Hd Hh Hh' Hmaj (p & Hp & _ & Hq) (p' & Hp' & _ & Hq') Hle.
  destruct (votes_overlap votes (ids s (p ++ [b])) (ids s (p' ++ [b']))) as (i & Hi & Hi'); [lia|].
  apply list_elem_of_fmap in Hi as (x & -> & Hx), Hi' as (y & E & Hy).
  destruct (path_to s h p b x I Hh Hp Hx) as (Hxa & l1 & H1), (path_to s h' p' b' y I Hh' Hp' Hy) as (Hya & l2 & H2).
  by eapply (same_id_branch s x l1 b y l2 b').
Qed.

(** Three quarters are a majority. *)
Lemma required_majority scheduled : NoDup (owner <$> scheduled) -> scheduled <> [] ->
  Z.of_nat (length scheduled) < 2 * witnesses_required_for_irreversibility scheduled.
Proof.
  intros Hn Hne. unfold witnesses_required_for_irreversibility, offset, WitnessSchedule.size.
  rewrite size_list_to_set, length_fmap by done.
  assert (0 < Z.of_nat (length scheduled)) by (destruct scheduled; cbn; [done|lia]).
  set (k := Z.of_nat (length scheduled)) in *.
  assert ((HIVE_100_PERCENT - HIVE_IRREVERSIBLE_THRESHOLD) * k / HIVE_100_PERCENT <= k / 4) as E; [|pose proof (Z.mul_div_le k 4); lia].
  change (2500 * k / 10000 <= k / 4). replace (2500 * k) with (k * 2500) by lia. change 10000 with (4 * 2500).
  by rewrite Z.div_mul_cancel_r.
Qed.
End finding.

(** ** Theorems *)

Section theorems.
Context `{L : FcLib} `{!FcLaws L}.

(** A new irreversible block is found exactly when there is one to find: the
    search over all branches always returns, what it reports is a block above
    the old one that enough scheduled witnesses support, by having produced or
    confirmed it or a descendant on the branch of the reported head, and when it
    reports nothing no block on any branch has that support.  It says correctly
    whether the block is on the main branch. *)
Theorem search_finds_quorum_blocks s scheduled fast required old : fdb_inv s ->
  exists r, find_new_last_irreversible_block scheduled fast required old s = Some r /\
    match r with
    | Some info => exists h b, h ∈ fetch_heads s /\ quorum s (votes_of s fast scheduled) required old h b /\
        new_last_irreversible_block_num info = get_block_num s b /\ new_head_block info = full_block (item s h) /\
        (found_on_another_fork info = false <-> fetch_block_on_main_branch_by_number s (get_block_num s b) = Some (Some b))
    | None => forall h b, h ∈ fetch_heads s -> ~ quorum s (votes_of s fast scheduled) required old h b
    end.
Proof. apply search_spec. Qed.

(** C4. Irreversible blocks never conflict: with the threshold of the code, two
    blocks supported by the same set of votes lie on one branch, whichever heads
    they were found from, so the lower one is an ancestor of the higher one. *)
Theorem irreversible_blocks_never_conflict s scheduled fast old h b h' b' :
  fdb_inv s -> ids_determine s -> NoDup (owner <$> scheduled) -> scheduled <> [] ->
  h ∈ fetch_heads s -> h' ∈ fetch_heads s -> get_block_num s b' <= get_block_num s b ->
  quorum s (votes_of s fast (owner <$> scheduled)) (witnesses_required_for_irreversibility scheduled) old h b ->
  quorum s (votes_of s fast (owner <$> scheduled)) (witnesses_required_for_irreversibility scheduled) old h' b' ->
  exists l, branch s (get_block_id s b) l (get_block_id s b').
Proof.
  intros I Hd Hn Hne Hh Hh' Hle Hq Hq'.
  assert (forall a, a ∈ fetch_heads s -> allocated s a) as Hal.
  { intros a Ha. apply (inv_alloc _ I). left. by apply (list_elem_of_filter (fun a => by_previous s (_index s) (get_block_id s a) = [])) in Ha as [_ Ha]. }
  eapply (quorums_meet s _ _ old h b h' b'); eauto. unfold votes_of. rewrite !length_fmap. by apply required_majority.
Qed.

(** The node between two blocks: the fork database is a linked tree whose head is
    the head of the state, and it holds every block above the irreversible one. *)
Record in_sync (n : node) (h : addr) : Prop := {
  sync_inv : fdb_inv (fork_db n);
  sync_linked : linked (fork_db n);
  sync_head : _head (fork_db n) = Some h;
  sync_index : h ∈ _index (fork_db n);
  sync_num : get_block_num (fork_db n) h = state_head_num n;
  sync_lib : 0 <= irreversible_block_num n <= state_head_num n;
  sync_low : exists m, m ∈ _index (fork_db n) /\ get_block_num (fork_db n) m <= irreversible_block_num n + 1
}.

(** On the main branch, the block reported is an ancestor of the head. *)
Lemma main_branch_ancestor n h b : in_sync n h -> irreversible_block_num n < get_block_num (fork_db n) b ->
  fetch_block_on_main_branch_by_number (fork_db n) (get_block_num (fork_db n) b) = Some (Some b) ->
  get_block_num (fork_db n) b <= state_head_num n /\ exists l, path (fork_db n) h l b.
Proof.
  intros Y Hb E. destruct (sync_low _ _ Y) as (m & Hm & Hlow).
  assert (get_block_num (fork_db n) b <= get_block_num (fork_db n) h) as Hle.
  { unfold fetch_block_on_main_branch_by_number in E. rewrite (sync_head _ _ Y) in E. destruct (_ <? _) eqn:Elt; [done|]. by to_prop. }
  split; [rewrite <- (sync_num _ _ Y); done|].
  destruct (main_branch_lookup (fork_db n) h (get_block_num (fork_db n) b) m) as (a & l & E' & _ & _ & Hp);
    [apply Y|apply Y|apply Y|apply Y|done|lia|]. rewrite E in E'. injection E' as <-. by exists l.
Qed.

(** C25. The decision taken with each block, on a node whose fork database has the head
    of the chain (not in a replay) and when the scheduled witnesses exist: it never fails,
    and it either leaves everything as it was or moves the irreversible block forward.  In
    the first 30 days of blocks it moves to the block 21 below the head; from then on to
    an ancestor of the head block that enough of the scheduled witnesses support, and then
    it forgets exactly the confirmations that no longer matter. *)
Theorem irreversible_block_advances_with_quorum n h c scheduled :
  in_sync n h -> scheduled_witness_objects c = Ok scheduled ->
  exists n', update_last_irreversible_block false c None n = Some (n', Ok (irreversible_block_num n)) /\
    (n' = n \/
     exists x, irreversible_block_num n < x <= state_head_num n /\
       if state_head_num n <? HIVE_START_MINER_VOTING_BLOCK then x = state_head_num n - HIVE_MAX_WITNESSES /\ n' = set_irreversible x n
       else n' = forget_confirmed (set_irreversible x n) /\ exists b l hb, path (fork_db n) h l b /\ get_block_num (fork_db n) b = x /\
         hb ∈ fetch_heads (fork_db n) /\
         quorum (fork_db n) (votes_of (fork_db n) (last_fast_approved n) (owner <$> scheduled))
           (witnesses_required_for_irreversibility scheduled) (irreversible_block_num n) hb b).
Proof.
  intros Y Hc. unfold update_last_irreversible_block. destruct (state_head_num n <? HIVE_START_MINER_VOTING_BLOCK).
  { destruct (_ && _) eqn:Eb; [|by eauto]. apply andb_true_iff in Eb as [Eb1 Eb2]. to_prop. unfold HIVE_MAX_WITNESSES in *.
    unfold advance, set_last_irreversible_block_num. rewrite (proj2 (Z.leb_le _ _)) by lia. cbn. eexists. split; [done|]. right. eexists. split_and!; [| |done|done]; lia. }
  destruct (_ =? _); [by eauto|]. rewrite Hc.
  destruct (search_spec (fork_db n) (owner <$> scheduled) (last_fast_approved n) (witnesses_required_for_irreversibility scheduled)
    (irreversible_block_num n) (sync_inv _ _ Y)) as (r & -> & Hr).
  destruct r as [info|]; [|by eauto]. destruct Hr as (hb & b & Hhb & Hq & Hnum & _ & Hmain).
  destruct (found_on_another_fork info); [destruct (_ <? _); by eauto|].
  assert (irreversible_block_num n < get_block_num (fork_db n) b) as Hb by (by destruct Hq as (? & _ & ? & _)).
  destruct (main_branch_ancestor n h b Y Hb (proj1 Hmain eq_refl)) as (Hle & l & Hp). pose proof (sync_lib _ _ Y).
  rewrite Hnum, Z.min_l by lia. unfold advance, set_last_irreversible_block_num.
  rewrite (proj2 (Z.leb_le _ _)) by lia. cbn. eexists. split; [done|]. right. eexists. split_and!; [| |done|]; [lia|lia|]. by exists b, l, hb.
Qed.

(** Of two ancestors of a block, the lower is an ancestor of the higher. *)
Lemma ancestors_ordered s h l1 a l2 b : fdb_inv s -> allocated s h -> path s h l1 a -> path s h l2 b ->
  get_block_num s b <= get_block_num s a -> exists l, path s a l b.
Proof.
  intros I Hh H1. revert l2. induction H1 as [x|x x' l a Hx Hp IH]; intros l2 H2 Hle; [by exists l2|].
  destruct (lock_prev_spec s x x' I Hh Hx) as (Hxa & _ & Hn). destruct (path_facts s x' l a I Hxa Hp) as (_ & _ & _ & Hn1).
  inversion H2 as [|? y l' ? Hy Hp']; subst; [lia|]. rewrite Hx in Hy. injection Hy as <-. by eapply IH.
Qed.

Lemma consecutive_linked s h l1 a l2 b : fdb_inv s -> allocated s h -> path s h l1 a -> path s h l2 b ->
  get_block_num s a = get_block_num s b + 1 -> previous_id s a = get_block_id s b.
Proof.
  intros I Hh H1 H2 Hn. destruct (ancestors_ordered s h l1 a l2 b I Hh H1 H2) as [l Hp]; [lia|].
  destruct (path_facts s h l1 a I Hh H1) as (Ha & _). inversion Hp as [|? c l' ? Hc Hp']; subst; [lia|].
  destruct (lock_prev_spec s a c I Ha Hc) as (Hca & Hi & Hcn). by rewrite <- Hi, (path_same_num s c l' b I Hca Hp' ltac:(lia)).
Qed.

(** A log in which every block names the one before it. *)
Definition linked_log (l : list full_block_type) : Prop :=
  forall i a b, l !! i = Some a -> l !! S i = Some b -> previous b = block_id a.

Lemma linked_log_snoc l b : linked_log l -> (forall a, last l = Some a -> previous b = block_id a) -> linked_log (l ++ [b]).
Proof.
  intros Hl Hb i x y Hx Hy. destruct (decide (S i < length l)%nat) as [Hi|Hi].
  - rewrite lookup_app_l in Hx, Hy by lia. by eapply Hl.
  - apply lookup_app_Some in Hy as [Hy|[Hge Hy]]; [by apply lookup_lt_Some in Hy|].
    apply list_lookup_singleton_Some in Hy as [Hz ->]. rewrite lookup_app_l in Hx by lia.
    apply Hb. rewrite last_lookup. by replace (pred (length l)) with i by lia.
Qed.

(** [log] ends with the block of number [x] on the branch of [h]. *)
Definition log_tip (s : fork_database) (h : addr) (log : list full_block_type) (x : Z) : Prop :=
  forall b, last log = Some b -> exists a l, path s h l a /\ full_block (item s a) = b /\ get_block_num s a = x.

Lemma blocks_to_write_spec fuel s h m x log : fdb_inv s -> linked s -> _head s = Some h -> h ∈ _index s -> m ∈ _index s ->
  get_block_num s m <= x -> x + Z.of_nat fuel <= get_block_num s h + 1 -> linked_log log -> log_tip s h log (x - 1) ->
  exists l, blocks_to_write fuel x s = Some (Ok l) /\ length l = fuel /\ linked_log (log ++ l) /\
    log_tip s h (log ++ l) (x + Z.of_nat fuel - 1).
Proof.
  intros I Hl Hh Hin Hm. revert x log. induction fuel as [|fuel IH]; intros x log Hx Hfit Hlog Htip.
  { exists []. rewrite app_nil_r. split_and!; [done|done|done|]. by replace (x + Z.of_nat 0 - 1) with (x - 1) by lia. }
  destruct (main_branch_lookup s h x m) as (a & la & Ea & _ & Hna & Hpa); [done|done|done|done|done|lia|].
  assert (allocated s h) as Hal by (apply (inv_alloc _ I); auto). cbn [blocks_to_write]. rewrite Ea.
  destruct (IH (x + 1) (log ++ [full_block (item s a)])) as (l & -> & Hlen & H1 & H2); [lia|lia| | |].
  - apply linked_log_snoc; [done|]. intros b Hb. destruct (Htip b Hb) as (a' & l' & Hp' & <- & Hn').
    apply (consecutive_linked s h la a l' a'); [done|done|done|done|lia].
  - intros b Hb. rewrite last_snoc in Hb. injection Hb as <-. exists a, la. split_and!; [done|done|lia].
  - exists (full_block (item s a) :: l). rewrite <- app_assoc in H1, H2. split_and!; [done|cbn; by rewrite Hlen|done|].
    by replace (x + Z.of_nat (S fuel) - 1) with (x + 1 + Z.of_nat fuel - 1) by lia.
Qed.

(** A path of indexed blocks survives as long as they stay indexed. *)
Lemma linked_path_index s a l c m : fdb_inv s -> linked s -> a ∈ _index s -> m ∈ _index s -> path s a l c ->
  get_block_num s m <= get_block_num s c -> Forall (fun x => x ∈ _index s) (l ++ [c]).
Proof.
  intros I Hl Ha Hm H. revert Ha. induction H as [a|a b l c Hb Hp IH]; intros Ha Hle; [by repeat constructor|].
  assert (allocated s a) as Hal by (apply (inv_alloc _ I); auto).
  destruct (lock_prev_spec s a b I Hal Hb) as (Hba & _ & Hn). destruct (path_facts s b l c I Hba Hp) as (_ & _ & _ & Hn').
  cbn. constructor; [done|]. apply IH; [|done]. destruct (Hl a m Ha Hm) as (b' & Hb' & Hpb); [lia|].
  unfold lock_prev in Hb. rewrite Hpb in Hb. destruct (live s b'); [|done]. by injection Hb as <-.
Qed.

Lemma path_kept s s' a l c : (forall x, item s' x = item s x) -> path s a l c -> Forall (fun x => x ∈ _index s') (l ++ [c]) ->
  path s' a l c.
Proof.
  intros Hi H. induction H as [a|a b l c Hb Hp IH]; intros HF; [constructor|]. cbn in HF. apply Forall_cons in HF as [_ HF].
  econstructor; [|by apply IH]. unfold lock_prev in *. rewrite Hi. destruct (prev (item s a)) as [b'|]; [|done].
  destruct (live s b'); [|done]. injection Hb as ->. rewrite in_index_live; [done|].
  inversion Hp; subst; cbn in HF; by apply Forall_cons in HF as [? _].
Qed.

(** The fork database after the irreversible blocks have been trimmed from it. *)
Lemma trimmed_in_sync n h m : in_sync n h -> m ∈ _index (fork_db n) -> get_block_num (fork_db n) m <= irreversible_block_num n ->
  state_head_num n - irreversible_block_num n + 1 < 2 ^ 32 -> 0 < irreversible_block_num n ->
  let s := set_max_size (u32 (state_head_num n - irreversible_block_num n + 1)) (fork_db n) in
  in_sync (set_fork_db s n) h /\ exists b, b ∈ _index s /\ get_block_num s b = irreversible_block_num n.
Proof.
  intros Y Hm Hmn Hfit Hpos. pose proof (sync_lib _ _ Y) as Hlib.
  rewrite uwrap_id by (unfold in_u; lia). set (k := state_head_num n - irreversible_block_num n + 1).
  pose proof (set_max_size_inv k (fork_db n) (sync_inv _ _ Y)) as I'.
  destruct (set_max_size_keeps_window (fork_db n) h k (sync_inv _ _ Y) (sync_head _ _ Y)) as (Ei & _ & Eh & Hl). cbv zeta in *.
  assert (Z.max 0 (get_block_num (fork_db n) h - k) = irreversible_block_num n - 1) as Et by (rewrite (sync_num _ _ Y); subst k; lia).
  rewrite Et in *.
  assert (forall a, get_block_num (set_max_size k (fork_db n)) a = get_block_num (fork_db n) a) as En.
  { intros a. unfold set_max_size. cbn. by rewrite (sync_head _ _ Y). }
  destruct (main_branch_lookup (fork_db n) h (irreversible_block_num n) m) as (b & l & Eb & Hw & Hnb & Hp);
    [apply Y|apply Y|apply Y|apply Y|done|rewrite (sync_num _ _ Y); lia|].
  assert (b ∈ _index (fork_db n)) as Hb.
  { destruct (walk_down_linked (walk_fuel (fork_db n) h) (fork_db n) (irreversible_block_num n) h m) as (b' & ? & Hw' & Hb' & _);
      [apply Y|apply Y|apply Y|done|rewrite (sync_num _ _ Y); lia|unfold walk_fuel; lia|].
    unfold walk_main_branch_to_num in Hw. rewrite (sync_head _ _ Y) in Hw. destruct (_ <? _); [done|]. congruence. }
  assert (b ∈ _index (set_max_size k (fork_db n))) as Hb' by (rewrite Ei; apply list_elem_of_filter; split; [lia|done]).
  split; [|exists b; by rewrite En].
  constructor; cbn; [done|by apply Hl, Y|done| |by rewrite En, (sync_num _ _ Y)|apply Y|exists b; rewrite En; split; [done|lia]].
  rewrite Ei. apply list_elem_of_filter. rewrite (sync_num _ _ Y). split; [lia|apply Y].
Qed.

(** The log and the fork database of a node fit together: the log is linked, does
    not reach beyond the irreversible block, and the fork database continues it
    on the branch of the head. *)
Record log_in_sync (n : node) (h : addr) : Prop := {
  ls_sync : in_sync n h;
  ls_linked : linked_log (block_log n);
  ls_head : 0 <= log_head_num n <= irreversible_block_num n;
  ls_tip : log_tip (fork_db n) h (block_log n) (log_head_num n);
  ls_low : exists m, m ∈ _index (fork_db n) /\ get_block_num (fork_db n) m <= log_head_num n + 1 /\
             get_block_num (fork_db n) m <= irreversible_block_num n
}.

Lemma trimmed_tip n h m log : in_sync n h -> m ∈ _index (fork_db n) -> get_block_num (fork_db n) m <= irreversible_block_num n ->
  state_head_num n - irreversible_block_num n + 1 < 2 ^ 32 -> 0 < irreversible_block_num n ->
  log_tip (fork_db n) h log (irreversible_block_num n) ->
  log_tip (set_max_size (u32 (state_head_num n - irreversible_block_num n + 1)) (fork_db n)) h log (irreversible_block_num n).
Proof.
  intros Y Hm Hmn Hfit Hpos Ht b Hb. destruct (Ht b Hb) as (a & l & Hp & Eb & Hn). pose proof (sync_lib _ _ Y) as Hlib.
  rewrite uwrap_id by (unfold in_u; lia). set (k := state_head_num n - irreversible_block_num n + 1).
  destruct (set_max_size_keeps_window (fork_db n) h k (sync_inv _ _ Y) (sync_head _ _ Y)) as (Ei & _ & _ & _). cbv zeta in Ei.
  assert (forall x, item (set_max_size k (fork_db n)) x = item (fork_db n) x) as Hi.
  { intros x. unfold set_max_size. cbn. by rewrite (sync_head _ _ Y). }
  exists a, l. unfold get_block_num. rewrite !Hi. split_and!; [|done|done]. apply (path_kept (fork_db n)); [done|done|].
  pose proof (linked_path_index (fork_db n) h l a m) as HF. rewrite Forall_forall in *. intros x Hx. rewrite Ei.
  apply list_elem_of_filter. assert (allocated (fork_db n) h) as Hal by (apply (inv_alloc _ (sync_inv _ _ Y)); left; apply Y).
  split; [|apply HF; [apply Y|apply Y|apply Y|done|done|lia|done]]. rewrite (sync_num _ _ Y).
  destruct (path_facts _ _ _ _ (sync_inv _ _ Y) Hal Hp) as (_ & _ & HF' & _). rewrite Forall_forall in HF'.
  apply elem_of_app in Hx as [Hx|Hx%list_elem_of_singleton]; [destruct (HF' x Hx)|subst x]; subst k; lia.
Qed.

Lemma log_tip_num n h log x : log_tip (fork_db n) h log x -> log <> [] -> match last log with Some b => block_num b | None => 0 end = x.
Proof.
  intros Ht Hne. destruct (last log) as [b|] eqn:E; [|by apply last_None in E].
  destruct (Ht b E) as (a & l & _ & <- & <-). done.
Qed.

Lemma stored_blocks n h : log_in_sync n h -> state_head_num n - irreversible_block_num n + 1 < 2 ^ 32 -> 0 < irreversible_block_num n ->
  exists l n', store_block (irreversible_block_num n) (state_head_num n) n = Some (n', Ok tt) /\ log_in_sync n' h /\
    block_log n' = block_log n ++ l /\ Z.of_nat (length l) = irreversible_block_num n - log_head_num n /\
    log_head_num n' = irreversible_block_num n /\ irreversible_block_num n' = irreversible_block_num n.
Proof.
  intros Y Hfit Hpos. pose proof (ls_sync _ _ Y) as S. destruct (ls_low _ _ Y) as (m & Hm & Hlow & Hlib).
  pose proof (ls_head _ _ Y) as Hhead. pose proof (sync_lib _ _ S) as Hle.
  unfold store_block. rewrite (sync_head _ _ S), (sync_num _ _ S), Z.eqb_refl. cbn [negb].
  destruct (trimmed_in_sync n h m S Hm Hlib Hfit Hpos) as (S' & m' & Hm' & Hn').
  destruct (_ <? _) eqn:Elt; to_prop.
  - destruct (blocks_to_write_spec (Z.to_nat (irreversible_block_num n - log_head_num n)) (fork_db n) h m (log_head_num n + 1) (block_log n))
      as (l & -> & Hlen & H1 & H2); [apply S|apply S|apply S|apply S|done|lia|rewrite (sync_num _ _ S); lia|apply Y| |].
    { replace (log_head_num n + 1 - 1) with (log_head_num n) by lia. apply Y. }
    replace (log_head_num n + 1 + Z.of_nat (Z.to_nat (irreversible_block_num n - log_head_num n)) - 1) with (irreversible_block_num n) in H2 by lia.
    assert (block_log n ++ l <> []) as Hne by (intros [_ ->]%app_eq_nil; cbn in Hlen; lia).
    exists l. eexists. split; [done|]. cbn. assert (match last (block_log n ++ l) with Some b => block_num b | None => 0 end = irreversible_block_num n) as Eh
      by (by eapply log_tip_num).
    split_and!; [|done|lia|done|done]. constructor; cbn; [by destruct S'; constructor|done|unfold log_head_num; cbn; lia| |].
    + unfold log_head_num. cbn. rewrite Eh. by eapply trimmed_tip.
    + exists m'. unfold log_head_num. cbn. rewrite Eh. split_and!; [done|lia|lia].
  - assert (log_head_num n = irreversible_block_num n) as Eh by lia.
    exists []. eexists. split; [done|]. cbn. rewrite app_nil_r. split_and!; [|done|lia|done|done].
    constructor; [done|apply Y|unfold log_head_num in *; cbn; lia| |].
    + unfold log_head_num in *. cbn. rewrite Eh. eapply trimmed_tip; [done|done|done|done|done|]. rewrite <- Eh. apply Y.
    + exists m'. unfold log_head_num in *. cbn. rewrite Eh. split_and!; [done|lia|lia].
Qed.

(** C26. Irreversible blocks reach the log exactly once and in order.  On a node with an
    irreversible block (which is less than [2 ^ 32 - 1] blocks below the head) whose
    linked log and fork database fit together, that is, the fork database continues the
    log on the branch of the head, storing the irreversible blocks succeeds: it appends
    to the log the blocks that follow it up to the irreversible one, changes nothing that
    was there, leaves a log in which every block names its predecessor, commits the state
    up to the same block, and keeps in the fork database the branch from the irreversible
    block to the head, so that log and fork database fit together again for the next
    block. *)
Theorem irreversible_blocks_are_logged n h old :
  log_in_sync n h -> 0 < irreversible_block_num n -> state_head_num n - irreversible_block_num n + 1 < 2 ^ 32 ->
  exists n' l, migrate_irreversible_state old n = Some (n', Ok tt) /\ log_in_sync n' h /\
    block_log n' = block_log n ++ l /\ Z.of_nat (length l) = irreversible_block_num n - log_head_num n /\
    log_head_num n' = irreversible_block_num n /\ committed n' = irreversible_block_num n /\
    irreversible_block_num n' = irreversible_block_num n.
Proof.
  intros Y Hpos Hfit. destruct (stored_blocks n h Y Hfit Hpos) as (l & n1 & E & Y1 & El & Hlen & Hh & Ei).
  unfold migrate_irreversible_state. rewrite E. do 2 eexists. split; [done|].
  destruct (_ <? _); (split; [destruct Y1 as [[] ? ? ? ?]; by constructor|]; by split_and!).
Qed.
End theorems.

(** ** Examples *)

Module Sample.
#[local] Existing Instance fc_ref.
#[local] Existing Instance fc_ref_laws.
Import ForkDb.Sample.

Definition N : Z := 900000.
Definition made (w : string) (n x px : Z) : full_block_type := mk_block (sid n x) (sid (n - 1) px) 0 w.

(** Three witnesses in turn on one branch, and a fork of an outsider. *)
Definition d0 : fork_database := start_block (made "carol" N 1 1) fork_database_init.
Definition d1 : fork_database := push_state (made "bob" (N + 1) 1 1) d0.
Definition d2 : fork_database := push_state (made "carol" (N + 2) 1 1) d1.
Definition d3 : fork_database := push_state (made "alice" (N + 3) 1 1) d2.
Definition d4 : fork_database := push_state (made "dave" (N + 2) 2 1) d3.
Definition tip : addr := default O (_head d4).

Definition who (i : Z) (name : string) : witness_object := WitnessSchedule.Sample.producer i name 100 0.
Definition scheduled0 : list witness_object := [who 0 "alice"; who 1 "bob"; who 2 "carol"].
Definition c0 : chain := set_witnesses scheduled0 WitnessSchedule.Sample.s0.

Definition n0 : node := mk_node d4 (N + 3) N {[ "alice"%string := sid (N + 1) 1; "bob"%string := sid (N + 2) 1 ]} [made "carol" N 1 1] N [].

Lemma d4_inv : fdb_inv d4.
Proof.
  repeat (refine (push_state_inv _ _ _ _); [|sample_wf]). refine (start_block_inv _ fork_database_init init_inv _). sample_wf.
Qed.
Lemma d4_linked : linked d4.
Proof. apply linkedb_ok. vm_compute. reflexivity. Qed.

Definition is_in (s : fork_database) (a : addr) : bool := bool_decide (a ∈ _index s).
Lemma n0_sync : in_sync n0 tip.
Proof.
  constructor; [apply d4_inv|apply d4_linked|vm_compute; reflexivity| |vm_compute; reflexivity|vm_compute; by split|].
  - apply (bool_decide_unpack _). vm_compute. done.
  - exists O. split; [apply (bool_decide_unpack _); vm_compute; done|vm_compute; done].
Qed.

(** The walk down as a list, to exhibit paths. *)
Fixpoint down (fuel : nat) (s : fork_database) (a : addr) : list addr :=
  match fuel with
  | O => []
  | S fuel => a :: match lock_prev s a with Some b => down fuel s b | None => [] end
  end.
Lemma down_path fuel s a l c : down fuel s a = l ++ [c] -> path s a l c.
Proof.
  revert a l. induction fuel as [|fuel IH]; intros a l H; cbn in H; [by destruct l|].
  destruct l as [|x l]; cbn in H; injection H as -> H; [subst; constructor|].
  destruct (lock_prev s x) as [b|] eqn:Eb; [|by destruct l]. econstructor; [done|by apply IH].
Qed.

Definition votes0 : list (option block_id_type) := votes_of d4 (last_fast_approved n0) (owner <$> scheduled0).
Example sample_votes : votes0 = [Some (sid (N + 3) 1); Some (sid (N + 2) 1); Some (sid (N + 2) 1)].
Proof. vm_compute. reflexivity. Qed.

Lemma search_finds_quorum_blocks_witness :
  exists r, find_new_last_irreversible_block ["alice"; "bob"; "carol"]%string (last_fast_approved n0) 3 N d4 = Some r /\
    option_map new_last_irreversible_block_num r = Some (N + 2).
Proof.
  destruct (search_finds_quorum_blocks d4 ["alice"; "bob"; "carol"]%string (last_fast_approved n0) 3 N d4_inv) as (r & E & _).
  exists r. split; [exact E|]. revert E. vm_compute. intros [= <-]. reflexivity.
Defined.

Lemma quorum_down fuel s votes required old a p b : down fuel s a = p ++ [b] ->
  (old <? get_block_num s b) && (required <=? votes_among votes (ids s (p ++ [b]))) = true -> quorum s votes required old a b.
Proof. intros H E. apply andb_true_iff in E as [E1 E2]. to_prop. exists p. split_and!; [by eapply down_path|done|done]. Qed.

Lemma irreversible_blocks_never_conflict_witness : exists l, branch d4 (sid (N + 2) 1) l (sid (N + 1) 1).
Proof.
  pose (b := nth 1 (down 2 d4 tip) O). pose (b' := nth 2 (down 3 d4 tip) O).
  refine (irreversible_blocks_never_conflict d4 scheduled0 (last_fast_approved n0) N tip b tip b' d4_inv _ _ _ _ _ _ _ _).
  - apply ids_determineb_ok. vm_compute. reflexivity.
  - apply (bool_decide_unpack _). vm_compute. done.
  - done.
  - apply (bool_decide_unpack _). vm_compute. done.
  - apply (bool_decide_unpack _). vm_compute. done.
  - vm_compute. done.
  - apply (quorum_down 2 _ _ _ _ _ (take 1 (down 2 d4 tip))); vm_compute; reflexivity.
  - apply (quorum_down 3 _ _ _ _ _ (take 2 (down 3 d4 tip))); vm_compute; reflexivity.
Defined.

Lemma irreversible_block_advances_with_quorum_witness :
  exists n', update_last_irreversible_block false c0 None n0 = Some (n', Ok N) /\ irreversible_block_num n' = N + 2 /\
    last_fast_approved n' = ∅.
Proof.
  destruct (irreversible_block_advances_with_quorum n0 tip c0 scheduled0 n0_sync) as (n' & E & _);
    [vm_compute; reflexivity|].
  exists n'. split; [exact E|]. revert E. vm_compute. intros [= <-]. by split.
Defined.

(** After the decision: blocks [N + 1] and [N + 2] move to the log. *)
Definition n1 : node := set_irreversible (N + 2) n0.
Lemma n1_log : log_in_sync n1 tip.
Proof.
  pose proof n0_sync as [H1 H2 H3 H4 H5 _ _]. constructor.
  - constructor; [exact H1|exact H2|exact H3|exact H4|exact H5|vm_compute; by split|]. exists O. split; [apply (bool_decide_unpack _); vm_compute; done|vm_compute; done].
  - intros i a b Ha Hb. destruct i; [done|]. by destruct i.
  - vm_compute. by split.
  - intros b [= <-]. exists (nth 3 (down 4 d4 tip) O), (take 3 (down 4 d4 tip)).
    split_and!; [apply (down_path 4); vm_compute; reflexivity|vm_compute; reflexivity..].
  - exists O. split_and!; [apply (bool_decide_unpack _); vm_compute; done|vm_compute; done..].
Qed.
Lemma irreversible_blocks_are_logged_witness :
  exists n', migrate_irreversible_state N n1 = Some (n', Ok tt) /\ log_in_sync n' tip /\ notified n' = [N + 1; N + 2] /\
    (witness <$> block_log n') = ["carol"; "bob"; "carol"]%string.
Proof.
  destruct (irreversible_blocks_are_logged n1 tip N n1_log) as (n' & l & E & Y & _); [vm_compute; done|vm_compute; done|].
  exists n'. split; [exact E|]. split; [exact Y|]. revert E. vm_compute. intros [= <-]. by split.
Defined.

(** The callback of the chain plugin returns no number when the switch worked.
    Then the block found before the switch is marked as well; when the blocks
    applied during the switch have already moved the irreversible block beyond
    it, a switch that succeeded ends in an exception. *)
Definition d5 : fork_database := push_state (made "dave" (N + 4) 2 2) (push_state (made "dave" (N + 3) 2 2) d4).
Definition d6 : fork_database := push_state (made "erin" (N + 4) 1 1) d5.
Definition switched (b : full_block_type) (old : Z) (n : node) : node * option Z :=
  (set_irreversible (N + 3) (set_fork_db (set_head (Some 6%nat) (fork_db n)) n), None).
Theorem successful_switch_can_throw :
  let n := mk_node d6 (N + 4) N (last_fast_approved n0) [made "carol" N 1 1] N [] in
  exists n', update_last_irreversible_block false c0 (Some switched) n = Some (n', Throw AssertFc) /\
    irreversible_block_num n' = N + 3.
Proof. eexists. split; vm_compute; reflexivity. Qed.
End Sample.
