(* ===== verification/BlockWriter.v ===== *)
(** * Pushing blocks and switching forks

    Models [sync_block_writer::push_block] and [switch_forks] of
    libraries/chain/sync_block_writer.cpp and [pop_block], [pop_block_extended]
    of libraries/chain/database.cpp.

    The block writer drives two components: the fork database, which knows the
    tree of blocks, and the chain database, which applies blocks to the state and
    undoes them.  What it needs of the latter is the class [ChainDb]; the class
    [ChainLaws] says what the chain database promises: a valid block is
    processed, an invalid one leaves no trace (its undo session is dropped), and
    [undo] takes back the last block that is not irreversible.  The last step of
    applying a block, which writes the irreversible blocks to the log and drops
    old blocks from the fork database, is [store_block] of [Irreversibility]. *)

From Stdlib Require Import Sorted.
From stdpp Require Import base numbers strings option list gmap.
From S2P Require Import Prelude Fc Config ForkDb Irreversibility.
Open Scope Z_scope.

(** ** The chain database as the block writer sees it *)

(** [process_block] is [_apply_block] in its undo session without the last call:
    it may read the fork database (the search for an irreversible block) but does
    not change it. *)
Class ChainDb (C : Type) := {
  chain_of : C -> list full_block_type;     (* the applied blocks, the newest first *)
  irreversible : C -> Z;                    (* the last irreversible block number *)
  logged : C -> list full_block_type;       (* the block log, the oldest first *)
  set_logged : list full_block_type -> C -> C;
  in_block_log : C -> block_id_type -> bool;
  process_block : full_block_type -> fork_database -> C -> C * result unit;
  undo : C -> C
}.

Section writer.
Context `{L : FcLib} {C : Type} `{CD : ChainDb C}.
Variable pick : list addr -> option addr.

Definition state_head_id (c : C) : block_id_type := match chain_of c with b :: _ => block_id b | [] => null_id end.
Definition state_head_number (c : C) : Z := match chain_of c with b :: _ => block_num b | [] => 0 end.

(** ** Applying a block *)

(** [migrate_irreversible_state], the last call of [_apply_block]. *)
Definition store_irreversible (s : fork_database) (c : C) : option (fork_database * C * result unit) :=
  match store_block (irreversible c) (state_head_number c) (mk_node s (state_head_number c) (irreversible c) ∅ (logged c) 0 []) with
  | None => None
  | Some (n, r) => Some (fork_db n, set_logged (block_log n) c, r)
  end.

(** A block in its undo session, which an exception drops (a replay may run without
    sessions, [skip_undo_block]). *)
Definition apply_block_extended (b : full_block_type) (s : fork_database) (c : C) : option (fork_database * C * result unit) :=
  match process_block b s c with
  | (c, Throw e) => Some (s, c, Throw e)
  | (c, Ok _) =>
      match store_irreversible s c with
      | Some (s, c, Throw e) => Some (s, undo c, Throw e)
      | r => r
      end
  end.

(** Items owned by the vectors of a caller. *)
Definition hold (l : list addr) (s : fork_database) : fork_database :=
  mk_fdb (items s) (_index s) (_unlinked_index s) (_head s) (_max_size s) (held s ∪ list_to_set l).
Definition release (h : gset addr) (s : fork_database) : fork_database :=
  mk_fdb (items s) (_index s) (_unlinked_index s) (_head s) (_max_size s) h.

(** ** Popping blocks *)

(** [database::pop_block] *)
Definition pop_head_block (s : fork_database) (c : C) : fork_database * C * result unit :=
  let found := match fetch_block s (state_head_id c) false with Some _ => true | None => in_block_log c (state_head_id c) end in
  if found then
    match pop_block s with
    | (s, Throw e) => (s, c, Throw e)
    | (s, Ok _) => (s, undo c, Ok tt)
    end
  else (s, c, Throw PopEmptyChain).

(** The loop ends when the head is [end_block] or a pop throws; [None] is out of
    fuel. *)
Fixpoint pop_block_extended (fuel : nat) (end_block : block_id_type) (s : fork_database) (c : C) :
    option (fork_database * C * result Z) :=
  if bool_decide (state_head_id c = end_block) then Some (s, c, Ok (state_head_number c))
  else
    match fuel with
    | O => None
    | S fuel =>
        match pop_head_block s c with
        | (s, c, Throw e) => Some (s, c, Throw e)
        | (s, c, Ok _) => pop_block_extended fuel end_block s c
        end
    end.

(** Every pop shortens the chain. *)
Definition pop_fuel (c : C) : nat := length (chain_of c).

(** ** Switching forks *)

(** The items of a branch, the oldest first, each made head and applied.  A
    failure is reported with the items from the failed one on; the outer [None] is
    undefined behaviour. *)
Fixpoint push_branch (todo : list addr) (s : fork_database) (c : C) : option (fork_database * C * option (exn * list addr)) :=
  match todo with
  | [] => Some (s, c, None)
  | a :: rest =>
      let s := set_head (Some a) s in
      match apply_block_extended (full_block (item s a)) s c with
      | None => None
      | Some (s, c, Ok _) => push_branch rest s c
      | Some (s, c, Throw e) => Some (s, c, Some (e, todo))
      end
  end.

Definition remove_items (l : list addr) (s : fork_database) : fork_database :=
  foldl (fun s a => remove (get_block_id s a) s) s l.

(** The condition under which a failed switch goes back. *)
Definition should_revert (common_block_number original_head_block_number : Z) (s : fork_database) : option bool :=
  match get_last_irreversible_block_num s with
  | None => None
  | Some lib =>
      if lib <? common_block_number then
        match _head s with
        | None => None
        | Some h => Some (get_block_num s h <? original_head_block_number)
        end
      else Some false
  end.

(** [None] is undefined behaviour (an empty vector or a null pointer) or out of
    fuel. *)
Definition switch_forks (new_head_block_id original_head_block_id : block_id_type) (original_head_block_number : Z)
    (s : fork_database) (c : C) : option (fork_database * C * result unit) :=
  match fetch_branch_from s new_head_block_id original_head_block_id with
  | None => None
  | Some (Throw e) => Some (s, c, Throw e)
  | Some (Ok (new_branch, old_branch)) =>
      match last new_branch with
      | None => None
      | Some bottom =>
          let common_block_id := previous_id s bottom in
          let common_block_number := u32 (get_block_num s bottom - 1) in
          let held0 := held s in
          let s := hold (new_branch ++ old_branch) s in
          let popped := match last old_branch with
                        | None => Some (s, c, Ok 0)
                        | Some o => pop_block_extended (pop_fuel c) (previous_id s o) s c
                        end in
          match popped with
          | None => None
          | Some (s, c, Throw e) => Some (release held0 s, c, Throw e)
          | Some (s, c, Ok _) =>
              match push_branch (reverse new_branch) s c with
              | None => None
              | Some (s, c, None) => Some (release held0 s, c, Ok tt)
              | Some (s, c, Some (e, rest)) =>
                  let s := remove_items rest s in
                  match should_revert common_block_number original_head_block_number s with
                  | None => None
                  | Some false => Some (release held0 s, c, Throw e)
                  | Some true =>
                      match pop_block_extended (pop_fuel c) common_block_id s c with
                      | None => None
                      | Some (s, c, Throw e') => Some (release held0 s, c, Throw e')
                      | Some (s, c, Ok _) =>
                          match push_branch (reverse old_branch) s c with
                          | None => None
                          | Some (s, c, None) => Some (release held0 s, c, Throw e)
                          | Some (s, c, Some (e', _)) => Some (release held0 s, c, Throw e')
                          end
                      end
                  end
              end
          end
      end
  end.

(** ** Pushing a block *)

(** The blocks above the head of the state, from the new head down; [None] is a
    null pointer or out of fuel. *)
Fixpoint blocks_above (fuel : nat) (state_head_block_num : Z) (s : fork_database) (a : addr) : option (list addr) :=
  match fuel with
  | O => None
  | S fuel =>
      if state_head_block_num <? get_block_num s a then
        if get_block_num s a =? 1 then Some [a]
        else match lock_prev s a with
             | Some b => match blocks_above fuel state_head_block_num s b with Some l => Some (a :: l) | None => None end
             | None => None
             end
      else Some []
  end.

(** Applying the blocks that extend the head, the oldest first. *)
Fixpoint extend_chain (many : bool) (todo : list addr) (s : fork_database) (c : C) : option (fork_database * C * result bool) :=
  match todo with
  | [] => Some (s, c, Ok false)
  | a :: rest =>
      let s := if many then set_head (fetch_block s (get_block_id s a) true) s else s in
      match apply_block_extended (full_block (item s a)) s c with
      | None => None
      | Some (s, c, Ok _) => extend_chain many rest s c
      | Some (s, c, Throw e) => Some (remove_items todo s, c, Throw e)
      end
  end.

(** The result says whether forks were switched. *)
Definition writer_push_block (b : full_block_type) (s : fork_database) (c : C) : option (fork_database * C * result bool) :=
  match push_block pick b s with
  | None => None
  | Some (s, Throw e) => Some (s, c, Throw e)
  | Some (s, Ok None) => None
  | Some (s, Ok (Some new_head)) =>
      if get_block_num s new_head <=? state_head_number c then Some (s, c, Ok false)
      else
        match blocks_above (walk_fuel s new_head) (state_head_number c) s new_head with
        | None => None
        | Some blocks =>
            match last blocks with
            | None => None
            | Some bottom =>
                if bool_decide (previous_id s bottom = state_head_id c)
                then extend_chain (1 <? Z.of_nat (length blocks)) (reverse blocks) s c
                else match switch_forks (get_block_id s new_head) (state_head_id c) (state_head_number c) s c with
                     | None => None
                     | Some (s, c, Throw e) => Some (s, c, Throw e)
                     | Some (s, c, Ok _) => Some (s, c, Ok true)
                     end
            end
        end
  end.
End writer.

(** What the chain database promises.  A block is processed on the fork database
    whose head it is, on top of a chain in which it is above the irreversible block
    and not too far above it ([update_global_dynamic_data] refuses that); the
    irreversible block moves forward, at most to the new block, and undoing does
    not touch it ([database::undo] asserts that). *)
Class ChainLaws (C : Type) `{FcLib, ChainDb C} := {
  valid : list full_block_type -> full_block_type -> bool;
  process_valid b s c a : fdb_inv s -> _head s = Some a -> full_block (item s a) = b -> valid (chain_of c) b = true ->
    irreversible c < block_num b -> block_num b - irreversible c < HIVE_MAX_UNDO_HISTORY ->
    exists c', process_block b s c = (c', Ok tt) /\ chain_of c' = b :: chain_of c /\ logged c' = logged c /\
      irreversible c <= irreversible c' <= block_num b;
  process_invalid b s c : valid (chain_of c) b = false -> exists e, process_block b s c = (c, Throw e);
  undo_chain c : irreversible c < state_head_number c ->
    chain_of (undo c) = tail (chain_of c) /\ irreversible (undo c) = irreversible c /\ logged (undo c) = logged c;
  set_logged_only l c : chain_of (set_logged l c) = chain_of c /\ irreversible (set_logged l c) = irreversible c /\
    logged (set_logged l c) = l
}.

(** ** The tree under changes of the head *)

Section trees.
Context `{L : FcLib} `{!FcLaws L}.

Definition blk (s : fork_database) (a : addr) : full_block_type := full_block (item s a).

(** Only the head, the owners and the cache of unlinked blocks may differ. *)
Definition same_tree (s s' : fork_database) : Prop := items s' = items s /\ _index s' = _index s.

#[global] Instance same_tree_preorder : PreOrder same_tree.
Proof. split; [by intros s|]. intros s1 s2 s3 [E1 E2] [E3 E4]. split; congruence. Qed.

Lemma same_tree_item s s' a : same_tree s s' -> item s' a = item s a.
Proof. intros [E _]. unfold item. by rewrite E. Qed.
Lemma same_items_id s s' a : items s' = items s -> get_block_id s' a = get_block_id s a.
Proof. intros E. unfold get_block_id, item. by rewrite E. Qed.
Lemma set_head_tree h s : same_tree s (set_head h s).
Proof. done. Qed.
Lemma hold_tree l s : same_tree s (hold l s).
Proof. done. Qed.
Lemma release_tree h s : same_tree s (release h s).
Proof. done. Qed.

Lemma same_tree_path s s' a l c : same_tree s s' -> path s a l c -> Forall (fun x => x ∈ _index s) (l ++ [c]) -> path s' a l c.
Proof.
  intros H Hp HF. apply (path_kept s); [intros x; by apply same_tree_item|done|]. destruct H as [_ ->]. done.
Qed.

Lemma path_unique s a l l' c : fdb_inv s -> allocated s a -> path s a l c -> path s a l' c -> l = l'.
Proof.
  intros I Ha H. revert l' Ha. induction H as [a|a b l c Hb Hp IH]; intros l' Ha H';
    inversion H' as [|? b' l'' ? Hb' Hp']; subst; [done| | |].
  - destruct (lock_prev_spec s a b' I Ha Hb') as (Hal & _ & Hn). destruct (path_facts s b' l'' a I Hal Hp') as (_ & _ & _ & Hle). lia.
  - destruct (lock_prev_spec s c b I Ha Hb) as (Hal & _ & Hn). destruct (path_facts s b l c I Hal Hp) as (_ & _ & _ & Hle). lia.
  - rewrite Hb in Hb'. injection Hb' as <-. f_equal. apply IH; [|done]. by destruct (lock_prev_spec s a b I Ha Hb).
Qed.

Lemma path_split s a l c l1 b : fdb_inv s -> allocated s a -> path s a l c -> path s a l1 b ->
  forall l2, path s b l2 c -> l = l1 ++ l2.
Proof. intros I Ha Hp H1 l2 H2. apply (path_unique s a _ _ c); [done|done|done|]. by eapply path_app. Qed.

Lemma index_same_id s a b : fdb_inv s -> a ∈ _index s -> b ∈ _index s -> get_block_id s a = get_block_id s b -> a = b.
Proof.
  intros I Ha Hb E. apply list_elem_of_lookup in Ha as [i Hi], Hb as [j Hj].
  assert (i = j) as ->; [|congruence]. eapply (NoDup_lookup _ i j (get_block_id s a) (inv_unique _ I)); rewrite list_lookup_fmap.
  - by rewrite Hi.
  - rewrite Hj. cbn. by rewrite E.
Qed.

Lemma index_find s a : fdb_inv s -> a ∈ _index s -> find_id s (_index s) (get_block_id s a) = Some a.
Proof.
  intros I Ha. destruct (find_id s (_index s) (get_block_id s a)) as [b|] eqn:E.
  - apply find_id_Some in E as [Hb Hid]. f_equal. by apply (index_same_id s).
  - by destruct (find_id_None _ _ _ a E).
Qed.

Lemma path_cons s h l cm : path s h l cm -> match l with [] => h = cm | x :: _ => x = h end.
Proof. by inversion 1. Qed.

Lemma set_head_same s h : _head s = Some h -> set_head (Some h) s = s.
Proof. destruct s. cbn. by intros ->. Qed.
End trees.

(** ** Blocks of a branch by number *)

Section numbers.
Context `{L : FcLib} `{!FcLaws L}.

Lemma path_moved s s' a l c : (forall x, x ∈ l ++ [c] -> item s' x = item s x) -> path s a l c ->
  Forall (fun x => x ∈ _index s') (l ++ [c]) -> path s' a l c.
Proof.
  intros Hi H. induction H as [a|a b l c Hb Hp IH]; intros HF; [constructor|]. cbn in HF. apply Forall_cons in HF as [_ HF].
  econstructor; [|apply IH; [intros x Hx; apply Hi; set_solver|done]]. unfold lock_prev in *. rewrite Hi by set_solver.
  destruct (prev (item s a)) as [b'|]; [|done]. destruct (live s b'); [|done]. injection Hb as ->. rewrite in_index_live; [done|].
  inversion Hp; subst; cbn in HF; by apply Forall_cons in HF as [? _].
Qed.

Lemma path_first s a l c : path s a l c -> a ∈ l ++ [c].
Proof. destruct 1; set_solver. Qed.

(** A path through a block splits there. *)
Lemma path_through s a l1 x l2 c : path s a (l1 ++ x :: l2) c -> path s a l1 x /\ path s x (x :: l2) c.
Proof.
  revert a. induction l1 as [|y l1 IH]; intros a H; cbn in H; inversion H as [|? b ? ? Hb Hp]; subst.
  - split; [constructor|by econstructor].
  - destruct (IH b Hp) as [H1 H2]. split; [by econstructor|done].
Qed.

(** A branch has a block of every number between its ends. *)
Lemma path_number s h l m n : fdb_inv s -> allocated s h -> path s h l m -> get_block_num s m <= n <= get_block_num s h ->
  exists x l1, path s h l1 x /\ (forall z, z ∈ l1 ++ [x] -> z ∈ l ++ [m]) /\ get_block_num s x = n.
Proof.
  intros I Ha H. induction H as [h|h b l m Hb Hp IH]; intros Hn; [exists h, []; split_and!; [constructor|done|lia]|].
  destruct (lock_prev_spec s h b I Ha Hb) as (Hba & _ & Hnum). destruct (decide (n = get_block_num s h)) as [->|Hne].
  - exists h, []. split_and!; [constructor|set_solver|done].
  - destruct (IH Hba ltac:(lia)) as (x & l1 & P & Hin & E). exists x, (h :: l1). split_and!; [by econstructor|set_solver|done].
Qed.

Lemma walk_down_path fuel s h l x : fdb_inv s -> allocated s h -> path s h l x -> (length l < fuel)%nat ->
  walk_down fuel s (get_block_num s x) h = Some (Some x).
Proof.
  intros I Ha H. revert fuel Ha. induction H as [h|h b l c Hb Hp IH]; intros fuel Ha Hf; (destruct fuel as [|fuel]; [lia|]); cbn [walk_down].
  - by rewrite (proj2 (Z.ltb_ge _ _)) by lia.
  - destruct (lock_prev_spec s h b I Ha Hb) as (Hba & _ & Hnum). destruct (path_facts s b l c I Hba Hp) as (_ & _ & _ & Hle).
    rewrite (proj2 (Z.ltb_lt _ _)), Hb by lia. apply IH; [done|]. cbn in Hf. lia.
Qed.

Lemma path_length s a l c : fdb_inv s -> allocated s a -> path s a l c -> get_block_num s a = get_block_num s c + Z.of_nat (length l).
Proof.
  intros I Ha H. induction H as [a|a b l c Hb Hp IH]; [cbn; lia|].
  destruct (lock_prev_spec s a b I Ha Hb) as (Hal & _ & Hn). specialize (IH Hal). cbn [length]. lia.
Qed.

(** The lookup on the main branch finds the blocks of a branch kept in the index,
    whatever else is in it. *)
Lemma branch_lookup s h l m n : fdb_inv s -> _head s = Some h -> path s h l m -> Forall (fun x => x ∈ _index s) (l ++ [m]) ->
  get_block_num s m <= n <= get_block_num s h ->
  exists x, fetch_block_on_main_branch_by_number s n = Some (Some x) /\ get_block_num s x = n.
Proof.
  intros I Hh Hp HF Hn. assert (allocated s h) as Ha by (apply (inv_alloc _ I); auto).
  destruct (path_number s h l m n I Ha Hp Hn) as (x & l1 & P & Hin & E). exists x. split; [|done].
  assert (x ∈ _index s) as Hx by (apply (proj1 (Forall_forall _ _) HF), Hin; set_solver).
  unfold fetch_block_on_main_branch_by_number. rewrite Hh, (proj2 (Z.ltb_ge _ _)) by lia.
  unfold fetch_block_by_number. rewrite lookup_num_filter by apply I.
  assert (x ∈ filter (fun y => get_block_num s y = n) (_index s)) as Hxf by (by apply list_elem_of_filter).
  destruct (filter _ _) as [|y [|z l']] eqn:Ef; [by apply elem_of_nil in Hxf|apply list_elem_of_singleton in Hxf; by subst|].
  unfold walk_main_branch_to_num. rewrite Hh, (proj2 (Z.ltb_ge _ _)), <- E by lia. rewrite (walk_down_path _ s h l1); [done|done|done|done|].
  pose proof (path_length s h l1 x I Ha P). unfold walk_fuel. destruct (path_facts s h l1 x I Ha P) as (Hxa & _). pose proof (num_pos s x I Hxa). lia.
Qed.

Definition last_number (l : list full_block_type) : Z := match last l with Some b => block_num b | None => 0 end.

Lemma branch_written fuel s h l m n : fdb_inv s -> _head s = Some h -> path s h l m -> Forall (fun x => x ∈ _index s) (l ++ [m]) ->
  get_block_num s m <= n -> n + Z.of_nat fuel <= get_block_num s h + 1 ->
  exists w, blocks_to_write fuel n s = Some (Ok w) /\ length w = fuel /\ (fuel <> 0%nat -> last_number w = n + Z.of_nat fuel - 1).
Proof.
  intros I Hh Hp HF. revert n. induction fuel as [|fuel IH]; intros n Hm Hfit; [by exists []|]. cbn [blocks_to_write].
  destruct (branch_lookup s h l m n) as (x & -> & E); [done..|lia|].
  destruct (IH (n + 1)) as (w & -> & Hl & Hlast); [lia|lia|]. eexists. split_and!; [done|cbn; by rewrite Hl|intros _].
  destruct w as [|b w]; [cbn in Hl; subst fuel; unfold last_number; cbn; unfold get_block_num in E; lia|].
  change (last_number (?x :: b :: w)) with (last_number (b :: w)). rewrite Hlast by (intros ->; done). lia.
Qed.

(** ** Dropping old blocks *)

(** Only the blocks from number [n] on are kept in the index. *)
Definition trimmed (n : Z) (s s' : fork_database) : Prop :=
  items s' = items s /\ _index s' = filter (fun x => n <= get_block_num s x) (_index s).

Lemma same_items_num s s' a : items s' = items s -> get_block_num s' a = get_block_num s a.
Proof. intros E. unfold get_block_num, item. by rewrite E. Qed.

Lemma trimmed_trans n n' s s1 s2 : trimmed n s s1 -> trimmed n' s1 s2 -> n <= n' -> trimmed n' s s2.
Proof.
  intros [E1 F1] [E2 F2] Hn. split; [congruence|]. rewrite F2, F1, list_filter_filter. apply filter_ext_in. intros x _.
  rewrite (same_items_num s s1) by done. split; [by intros [? _]|]. split; [done|]. lia.
Qed.

Lemma not_trimmed s : fdb_inv s -> trimmed 0 s s.
Proof.
  intros I. split; [done|]. symmetry. apply filter_all, Forall_forall. intros x Hx.
  pose proof (num_pos s x I (inv_alloc _ I x (or_introl Hx))). lia.
Qed.

Lemma trimmed_elem n s s' x : trimmed n s s' -> x ∈ _index s -> n <= get_block_num s x -> x ∈ _index s'.
Proof. intros [_ ->] Hx Hn. by apply list_elem_of_filter. Qed.

Lemma trimmed_path n s s' a l c : fdb_inv s -> allocated s a -> trimmed n s s' -> path s a l c ->
  Forall (fun x => x ∈ _index s) (l ++ [c]) -> n <= get_block_num s c ->
  path s' a l c /\ Forall (fun x => x ∈ _index s') (l ++ [c]).
Proof.
  intros I Ha T Hp HF Hn. assert (Forall (fun x => x ∈ _index s') (l ++ [c])) as HF'.
  { apply Forall_forall. intros x Hx. rewrite Forall_forall in HF. apply (trimmed_elem n s); [done|by apply HF|].
    destruct (path_facts s a l c I Ha Hp) as (_ & _ & Hb & _). rewrite Forall_forall in Hb.
    apply elem_of_app in Hx as [Hx|Hx%list_elem_of_singleton]; [destruct (Hb x Hx); lia|by subst]. }
  split; [|done]. apply (path_kept s); [|done|done]. intros x. unfold item. by rewrite (proj1 T).
Qed.

Lemma set_max_size_trims s h n : fdb_inv s -> _head s = Some h -> 0 <= n <= get_block_num s h + 1 -> get_block_num s h - n < HIVE_MAX_UNDO_HISTORY ->
  let s' := set_max_size (u32 (get_block_num s h - n + 1)) s in
  fdb_inv s' /\ trimmed n s s' /\ _head s' = Some h /\ held s' = held s.
Proof.
  intros I Hh Hn Hw s'. unfold HIVE_MAX_UNDO_HISTORY in Hw.
  assert (u32 (get_block_num s h - n + 1) = get_block_num s h - n + 1) as Ek by (apply uwrap_id; unfold in_u; lia).
  destruct (set_max_size_keeps_window s h (u32 (get_block_num s h - n + 1)) I Hh) as (Ei & _ & Eh & _). fold s' in Ei, Eh.
  split_and!; [by apply set_max_size_inv| |done|by subst s'; unfold set_max_size; cbn; rewrite Hh].
  split; [by subst s'; unfold set_max_size; cbn; rewrite Hh|]. rewrite Ei, Ek. apply filter_ext_in. intros x Hx.
  pose proof (num_pos s x I (inv_alloc _ I x (or_introl Hx))). lia.
Qed.
End numbers.

(** ** Popping and applying branches *)

Section chains.
Context `{L : FcLib} `{!FcLaws L} {C : Type} `{CD : ChainDb C} `{!ChainLaws C}.

(** Popping the blocks of a branch.  The head of the fork database moves down as
    many blocks; it need not be on the branch of the state (after a push it is
    already on the new branch). *)
Lemma pop_spec fuel s c k lk y h l cm rest : fdb_inv s -> _head s = Some k -> path s k lk y -> Forall (fun x => x ∈ _index s) (lk ++ [y]) ->
  length lk = length l -> path s h l cm -> Forall (fun x => x ∈ _index s) (l ++ [cm]) ->
  chain_of c = (blk s <$> l) ++ blk s cm :: rest -> irreversible c <= get_block_num s cm -> (length l <= fuel)%nat ->
  exists c' n, pop_block_extended fuel (get_block_id s cm) s c = Some (set_head (Some y) s, c', Ok n) /\ chain_of c' = blk s cm :: rest /\
    irreversible c' = irreversible c /\ logged c' = logged c.
Proof.
  intros I Hk Hpk HFk Hlen Hp. revert fuel s c lk k h I Hk Hpk HFk Hlen Hp.
  induction l as [|x l IH]; intros fuel s c lk k h I Hk Hpk HFk Hlen Hp HF Hc Hlib Hf.
  - destruct lk; [|done]. inversion Hpk; subst. exists c. eexists. split; [|done].
    assert (state_head_id c = get_block_id s cm) as E by (unfold state_head_id; by rewrite Hc).
    destruct fuel; cbn; rewrite bool_decide_true by done; by rewrite set_head_same.
  - destruct fuel as [|fuel]; [cbn in Hf; lia|]. destruct lk as [|z lk]; [done|].
    inversion Hp as [|? b ? ? Hb Hp']; inversion Hpk as [|? b' ? ? Hb' Hpk']; subst.
    cbn in HF, HFk. apply Forall_cons in HF as [Hx HF], HFk as [Hz HFk].
    assert (allocated s x) as Hal by (apply (inv_alloc _ I); auto). assert (allocated s z) as Hzl by (apply (inv_alloc _ I); auto).
    assert (state_head_id c = get_block_id s x) as E by (unfold state_head_id; by rewrite Hc).
    cbn. rewrite bool_decide_false.
    2:{ rewrite E. pose proof (path_ids_NoDup s x (x :: l) cm I Hal Hp) as Hn. cbn in Hn. apply NoDup_cons in Hn as [Hn _].
        intros E'. apply Hn. unfold ids. rewrite E', fmap_app. apply elem_of_app. right. apply list_elem_of_singleton. done. }
    unfold pop_head_block, fetch_block. rewrite E, index_find by done. unfold pop_block. rewrite Hk, Hb'.
    destruct (undo_chain c) as (Uc & Ul & Ug).
    { unfold state_head_number. rewrite Hc. cbn. change (block_num (blk s x)) with (get_block_num s x).
      destruct (lock_prev_spec s x b I Hal Hb) as (Hba & _ & Hnum). destruct (path_facts s b l cm I Hba Hp') as (_ & _ & _ & Hle). lia. }
    destruct (IH fuel (set_head (Some b') s) (undo c) lk b' b) as (c' & n & E' & Hc' & Hl' & Hg').
    + apply set_head_inv; [done|]. intros w [= <-]. by apply (lock_prev_spec s z b' I Hzl Hb').
    + done.
    + eapply same_tree_path; [apply set_head_tree|done|done].
    + done.
    + cbn in Hlen. lia.
    + eapply same_tree_path; [apply set_head_tree|done|done].
    + done.
    + by rewrite Uc, Hc.
    + by rewrite Ul.
    + cbn in Hf. lia.
    + exists c', n. rewrite <- Ul, <- Ug. by split.
Qed.

(** Blocks, the oldest first, that are valid one on top of the other. *)
Fixpoint valid_from (chain todo : list full_block_type) : bool :=
  match todo with
  | [] => true
  | b :: todo => valid chain b && valid_from (b :: chain) todo
  end.

(** The branch of the block [p] is kept down to [base], the first block that is not
    logged or one below it, and no block above [p] is irreversible. *)
Record ready (s : fork_database) (c : C) (p base : addr) : Prop := {
  rd_path : exists l, path s p l base /\ Forall (fun x => x ∈ _index s) (l ++ [base]);
  rd_base : get_block_num s base <= last_number (logged c) + 1;
  rd_log : 0 <= last_number (logged c) <= irreversible c;
  rd_lib : irreversible c <= get_block_num s p
}.

Lemma ready_index s c p base : ready s c p base -> p ∈ _index s.
Proof. intros R. destruct (rd_path _ _ _ _ R) as (l & Hp & HF). apply (proj1 (Forall_forall _ _) HF). by eapply path_first. Qed.

Lemma ready_same s s' c c' p base : ready s c p base -> same_tree s s' -> irreversible c' = irreversible c -> logged c' = logged c -> ready s' c' p base.
Proof.
  intros [(l & Hp & HF) H1 H2 H3] T E1 E2. constructor; rewrite ?E1, ?E2, ?(same_items_num s s') by apply T; try done.
  exists l. split; [by apply (same_tree_path s)|]. by rewrite (proj2 T).
Qed.

Lemma ready_moved s s' c p base : ready s c p base -> (forall x, x ∈ _index s -> item s' x = item s x) -> (forall x, x ∈ _index s -> x ∈ _index s') ->
  ready s' c p base.
Proof.
  intros R Hi Hx. pose proof (ready_index _ _ _ _ R) as Hp. destruct R as [(l & Pl & HF) H1 H2 H3]. pose proof (proj1 (Forall_forall _ _) HF) as HF'.
  constructor; unfold get_block_num in *; rewrite ?Hi by (done || (apply HF'; set_solver)); try done. exists l.
  assert (Forall (fun x => x ∈ _index s') (l ++ [base])) by (eapply Forall_impl; [exact HF|auto]).
  split; [|done]. apply (path_moved s); [|done|done]. intros x Hxl. by apply Hi, HF'.
Qed.

(** The last step of applying a block. *)
Lemma store_spec s c h base : fdb_inv s -> _head s = Some h -> ready s c h base -> state_head_number c = get_block_num s h ->
  get_block_num s h - irreversible c < HIVE_MAX_UNDO_HISTORY ->
  exists s' c' base', store_irreversible s c = Some (s', c', Ok tt) /\ fdb_inv s' /\ trimmed (irreversible c) s s' /\ _head s' = Some h /\
    held s' = held s /\ ready s' c' h base' /\ chain_of c' = chain_of c /\ irreversible c' = irreversible c /\
    last_number (logged c') = irreversible c.
Proof.
  intros I Hh R Hs Hw. destruct (rd_path _ _ _ _ R) as (l & Hp & HF). pose proof (rd_base _ _ _ _ R) as Hb. pose proof (rd_log _ _ _ _ R) as Hl.
  pose proof (rd_lib _ _ _ _ R) as Hlib. assert (allocated s h) as Ha by (apply (inv_alloc _ I); auto).
  destruct (set_max_size_trims s h (irreversible c) I Hh) as (I' & T & Hh' & Hd); [lia|done|]. set (s' := set_max_size _ s) in *.
  destruct (path_facts s h l base I Ha Hp) as (Hba & _ & _ & Hle).
  assert (exists w, store_irreversible s c = Some (s', set_logged (logged c ++ w) c, Ok tt) /\ last_number (logged c ++ w) = irreversible c) as (w & E & Elog).
  { unfold store_irreversible, store_block. cbn [fork_db]. rewrite Hh, Hs, Z.eqb_refl. cbn [negb].
    change (log_head_num _) with (last_number (logged c)). destruct (_ <? _) eqn:Elt; to_prop.
    - destruct (branch_written (Z.to_nat (irreversible c - last_number (logged c))) s h l base (last_number (logged c) + 1))
        as (w & -> & Hlen & Hlast); [done|done|done|done|lia|lia|]. exists w. split; [done|].
      destruct w as [|b w]; [cbn in Hlen; lia|]. assert (last_number (logged c ++ b :: w) = last_number (b :: w)) as -> by (unfold last_number; by rewrite last_app_cons). rewrite Hlast by lia. lia.
    - exists []. rewrite app_nil_r. split; [done|lia]. }
  destruct (set_logged_only (logged c ++ w) c) as (F1 & F2 & F3).
  destruct (path_number s h l base (Z.max (irreversible c) (get_block_num s base)) I Ha Hp) as (x & l1 & P & Hin & Ex); [lia|].
  destruct (trimmed_path (irreversible c) s s' h l1 x I Ha T P) as [P' HF'];
    [apply Forall_forall; intros z Hz; apply (proj1 (Forall_forall _ _) HF); by apply Hin|lia|].
  exists s', (set_logged (logged c ++ w) c), x. split_and!; try done; [|by rewrite F3].
  constructor; rewrite ?F2, ?F3, ?Elog, ?(same_items_num s s') by apply T; [by exists l1|lia|lia|lia].
Qed.

(** Applying a valid block on top of the branch. *)
Lemma apply_on_branch s c p base a : fdb_inv s -> ready s c p base -> a ∈ _index s -> lock_prev s a = Some p ->
  valid (chain_of c) (blk s a) = true -> get_block_num s a - irreversible c < HIVE_MAX_UNDO_HISTORY ->
  exists s' c' base', apply_block_extended (blk s a) (set_head (Some a) s) c = Some (s', c', Ok tt) /\ fdb_inv s' /\
    trimmed (irreversible c') s s' /\ _head s' = Some a /\ ready s' c' a base' /\ chain_of c' = blk s a :: chain_of c /\
    irreversible c <= irreversible c' /\ last_number (logged c') = irreversible c'.
Proof.
  intros I R Ha Hl Hv Hw. pose proof (inv_alloc _ I a (or_introl Ha)) as Hal. destruct (lock_prev_spec s a p I Hal Hl) as (Hpa & _ & Hn).
  pose proof (rd_lib _ _ _ _ R) as Hlib. set (s1 := set_head (Some a) s).
  assert (fdb_inv s1) as I1 by (apply set_head_inv; [done|]; by intros ? [= <-]).
  destruct (process_valid (blk s a) s1 c a I1 eq_refl eq_refl Hv) as (c1 & E & Ec & Eg & Hi); [change (block_num (blk s a)) with (get_block_num s a); lia..|].
  change (block_num (blk s a)) with (get_block_num s a) in Hi. destruct R as [(l & Hp & HF) Hb Hlog _].
  assert (ready s1 c1 a base) as R1.
  { constructor; rewrite ?Eg; [|done|lia|apply Hi]. exists (a :: l). split; [|by constructor].
    apply (same_tree_path s); [apply set_head_tree|by econstructor|by constructor]. }
  destruct (store_spec s1 c1 a base I1 eq_refl R1) as (s' & c' & base' & E' & I' & T & Hh & _ & R' & Fc & Fi & Fl).
  { unfold state_head_number. by rewrite Ec. }
  { change (get_block_num s1 a) with (get_block_num s a). lia. }
  exists s', c', base'. unfold apply_block_extended. rewrite E, E', Fc, Fi. split_and!; try done; [lia].
Qed.

(** A branch, the oldest block first, valid on top of [p]. *)
Lemma push_branch_ok todo s c p base t : fdb_inv s -> ready s c p base -> path s t (reverse todo) p -> Forall (fun x => x ∈ _index s) (reverse todo) ->
  valid_from (chain_of c) (blk s <$> todo) = true -> get_block_num s t - irreversible c < HIVE_MAX_UNDO_HISTORY ->
  exists n s' c' base', push_branch todo s c = Some (s', c', None) /\ fdb_inv s' /\ ready s' c' t base' /\
    chain_of c' = reverse (blk s <$> todo) ++ chain_of c /\ irreversible c <= irreversible c' /\ trimmed n s s' /\ n <= irreversible c' /\
    (todo <> [] -> n = irreversible c' /\ _head s' = Some t /\ last_number (logged c') = irreversible c') /\
    (todo = [] -> s' = s /\ c' = c).
Proof.
  revert s c p base. induction todo as [|a todo IH]; intros s c p base I R Hp HF Hv Hw.
  { inversion Hp; subst. exists 0, s, c, base. pose proof (rd_log _ _ _ _ R). split_and!; try done; [by apply not_trimmed|lia]. }
  cbn in Hv. apply andb_true_iff in Hv as [Ha Hv]. rewrite reverse_cons in Hp, HF. apply Forall_app in HF as [HF Hai].
  apply Forall_cons in Hai as [Hai _]. destruct (path_through _ _ _ _ _ _ Hp) as [P1 P2]. inversion P2 as [|? q ? ? Hl P3]; subst. inversion P3; subst.
  assert (allocated s t) as Hta.
  { apply (inv_alloc _ I). left. pose proof (path_first _ _ _ _ P1) as [Ht|Ht%list_elem_of_singleton]%elem_of_app; [by apply (proj1 (Forall_forall _ _) HF)|by subst]. }
  destruct (path_facts s t _ a I Hta P1) as (_ & _ & _ & Hle).
  cbn [push_branch]. change (full_block (item (set_head (Some a) s) a)) with (blk s a).
  destruct (apply_on_branch s c p base a) as (s1 & c1 & b1 & -> & I1 & T1 & Hh1 & R1 & Ec1 & Hi1 & Hg1); [done..|lia|].
  assert (forall k, blk s1 <$> k = blk s <$> k) as Hbl by (intros k; apply list_fmap_ext; intros; unfold blk, item; by rewrite (proj1 T1)).
  destruct (trimmed_path (irreversible c1) s s1 t (reverse todo) a I Hta T1 P1) as [P1' HF1];
    [apply Forall_app; split; [done|by apply Forall_singleton]|rewrite <- (same_items_num s s1) by apply T1; apply R1|].
  apply Forall_app in HF1 as [HF1 _].
  destruct (IH s1 c1 a b1) as (n & s' & c' & base' & E & I' & R' & Ec' & Hi' & T' & Hn & Hne & Hnil); [done..| | |].
  { by rewrite Ec1, Hbl. }
  { rewrite (same_items_num s s1) by apply T1. lia. }
  destruct todo as [|b todo].
  - destruct (Hnil eq_refl) as [-> ->]. inversion P1; subst. exists (irreversible c1), s1, c1, b1. split_and!; try done; lia.
  - destruct Hne as (-> & Hh' & Hg'); [done|]. exists (irreversible c'), s', c', base'. split_and!; try done; [|lia|].
    + rewrite Ec', Ec1, Hbl. change (blk s <$> a :: b :: todo) with (blk s a :: (blk s <$> b :: todo)). by rewrite (reverse_cons _ (blk s a)), <- app_assoc.
    + by eapply trimmed_trans.
Qed.

(** A branch with an invalid block [bad]. *)
Lemma push_branch_fails good bad rest s c s1 c1 : push_branch good s c = Some (s1, c1, None) -> valid (chain_of c1) (blk s1 bad) = false ->
  exists e, push_branch (good ++ bad :: rest) s c = Some (set_head (Some bad) s1, c1, Some (e, bad :: rest)).
Proof.
  revert s c. induction good as [|a good IH]; intros s c E Hbad; cbn [app push_branch] in *.
  - injection E as -> ->. unfold apply_block_extended. change (full_block (item (set_head (Some bad) s1) bad)) with (blk s1 bad).
    destruct (process_invalid (blk s1 bad) (set_head (Some bad) s1) c1 Hbad) as (e & ->). by exists e.
  - destruct (apply_block_extended _ _ _) as [[[s2 c2] [[]|e]]|]; [by apply IH|done|done].
Qed.

(** ** Removing the blocks of a failed branch *)

Lemma remove_tree i s : fdb_inv s -> items (remove i s) = items s /\
  _index (remove i s) = filter (fun x => get_block_id s x <> i) (_index s) /\
  _head (remove i s) = match _head s with
                       | Some h => if bool_decide (get_block_id s h = i) then lock_prev s h else Some h
                       | None => None
                       end.
Proof.
  intros I. unfold remove. set (s1 := match _head s with Some h => _ | None => s end).
  assert (same_tree s s1 /\ _head s1 = match _head s with
    | Some h => if bool_decide (get_block_id s h = i) then lock_prev s h else Some h | None => None end) as [[Ei Ex] Eh].
  { subst s1. destruct (_head s) as [h|] eqn:E; [destruct (bool_decide _)|]; by split. }
  assert (forall a, get_block_id s1 a = get_block_id s a) as Eid by (intros a; unfold get_block_id, item; by rewrite Ei).
  destruct (find_id s1 (_index s1) i) as [a|] eqn:E; cbn; rewrite ?Ei, ?Ex, Eh; (split_and!; [done| |done]).
  - apply find_id_Some in E as [Ha Hid]. rewrite Ex in Ha. rewrite Eid in Hid. unfold erase. apply filter_ext_in.
    intros x Hx. split; [intros Hne E; apply Hne; apply (index_same_id s); [done|done|done|congruence]|]. intros Hne ->. by apply Hne.
  - symmetry. apply filter_all, Forall_forall. intros x Hx. rewrite <- Eid. rewrite <- Ex in Hx. by apply (find_id_None _ _ _ _ E).
Qed.

(** [remove_items] of blocks that are not the head. *)
Lemma remove_items_tree l s : fdb_inv s -> (forall h, _head s = Some h -> get_block_id s h ∉ ids s l) ->
  fdb_inv (remove_items l s) /\ items (remove_items l s) = items s /\
  _index (remove_items l s) = filter (fun x => get_block_id s x ∉ ids s l) (_index s) /\ _head (remove_items l s) = _head s.
Proof.
  revert s. induction l as [|a l IH]; intros s I Hh;
    [|change (remove_items (a :: l) s) with (remove_items l (remove (get_block_id s a) s))].
  { split_and!; [done|done| |done]. symmetry. apply filter_all, Forall_forall. intros x _. unfold ids. cbn. set_solver. }
  destruct (remove_tree (get_block_id s a) s I) as (E1 & E2 & E3).
  assert (forall x, get_block_id (remove (get_block_id s a) s) x = get_block_id s x) as Eid by (intros x; by apply same_items_id).
  assert (ids (remove (get_block_id s a) s) l = ids s l) as El by (unfold ids; apply list_fmap_ext; intros; apply Eid).
  assert (_head (remove (get_block_id s a) s) = _head s) as Eh.
  { rewrite E3. destruct (_head s) as [h|] eqn:E; [|done]. rewrite bool_decide_false; [done|]. specialize (Hh h eq_refl). cbn in Hh. set_solver. }
  destruct (IH (remove (get_block_id s a) s)) as (I' & F1 & F2 & F3); [by apply remove_inv| |].
  { intros h. rewrite Eh, Eid, El. intros Hhh. specialize (Hh h Hhh). cbn in Hh. set_solver. }
  split_and!; [done|congruence| |congruence]. rewrite F2, E2, list_filter_filter. apply filter_ext_in. intros x _.
  rewrite Eid, El. unfold ids. cbn. set_solver.
Qed.

(** The head is the first block removed: the block below it becomes the head. *)
Lemma remove_branch_tree bad rest s p : fdb_inv s -> _head s = Some bad -> lock_prev s bad = Some p ->
  get_block_id s p ∉ ids s (bad :: rest) ->
  fdb_inv (remove_items (bad :: rest) s) /\ items (remove_items (bad :: rest) s) = items s /\
  _index (remove_items (bad :: rest) s) = filter (fun x => get_block_id s x ∉ ids s (bad :: rest)) (_index s) /\
  _head (remove_items (bad :: rest) s) = Some p.
Proof.
  intros I Hh Hp Hn. change (remove_items (bad :: rest) s) with (remove_items rest (remove (get_block_id s bad) s)). destruct (remove_tree (get_block_id s bad) s I) as (E1 & E2 & E3).
  rewrite Hh, bool_decide_true, Hp in E3 by done.
  assert (forall x, get_block_id (remove (get_block_id s bad) s) x = get_block_id s x) as Eid by (intros x; by apply same_items_id).
  assert (ids (remove (get_block_id s bad) s) rest = ids s rest) as El by (unfold ids; apply list_fmap_ext; intros; apply Eid).
  destruct (remove_items_tree rest (remove (get_block_id s bad) s)) as (I' & F1 & F2 & F3); [by apply remove_inv| |].
  { intros h. rewrite E3, Eid, El. intros [= <-]. cbn in Hn. set_solver. }
  split_and!; [done|congruence| |by rewrite F3]. rewrite F2, E2, list_filter_filter. apply filter_ext_in. intros x _.
  rewrite Eid, El. unfold ids. cbn. set_solver.
Qed.
End chains.

(** ** Two branches *)

Section forks.
Context `{L : FcLib} `{!FcLaws L} {C : Type} `{CD : ChainDb C} `{!ChainLaws C}.
Variable pick : list addr -> option addr.

(** The state is on the branch [old] from [h] down to the block [cm], the fork
    database has another branch [new] from [a] down to [cm]; below [cm] the chain
    is [rest].  The fork database's head is [h] (a switch asked for by the search
    for an irreversible block) or already [a] (a switch after a push).  The fork
    database goes down to [base] on the common branch, where the log ends, no block
    above [cm] is irreversible, and neither branch is too long to be undone. *)
Record forked (s : fork_database) (c : C) (h a cm base : addr) (old new : list addr) (rest : list full_block_type) : Prop := {
  fk_inv : fdb_inv s;
  fk_det : ids_determine s;
  fk_head : _head s = Some h \/ (_head s = Some a /\ (length old <= length new)%nat);
  fk_old : path s h old cm;
  fk_new : path s a new cm;
  fk_old_index : Forall (fun x => x ∈ _index s) (old ++ [cm]);
  fk_new_index : Forall (fun x => x ∈ _index s) (new ++ [cm]);
  fk_apart : apart s new old;
  fk_ne : new <> [];
  fk_chain : chain_of c = (blk s <$> old) ++ blk s cm :: rest;
  fk_ready : ready s c cm base;
  fk_window : get_block_num s h - irreversible c < HIVE_MAX_UNDO_HISTORY /\ get_block_num s a - irreversible c < HIVE_MAX_UNDO_HISTORY
}.

Lemma path_take s a l c n : path s a l c -> (n <= length l)%nat ->
  exists y l2, l = take n l ++ l2 /\ path s a (take n l) y /\ path s y l2 c.
Proof.
  revert a l. induction n as [|n IH]; intros a l H Hn; [exists a, l; split_and!; [done|constructor|done]|].
  destruct l as [|x l]; [cbn in Hn; lia|]. inversion H as [|? b ? ? Hb Hp]; subst.
  destruct (IH b l Hp ltac:(cbn in Hn; lia)) as (y & l2 & E & P1 & P2). exists y, l2. cbn. split_and!; [by rewrite <- E|by econstructor|done].
Qed.

Lemma fetch_forked s c h a cm base old new rest : forked s c h a cm base old new rest ->
  fetch_branch_from s (get_block_id s a) (get_block_id s h) = Some (Ok (new, old)).
Proof.
  intros [I D Hh Ho Hn HFo HFn Hap Hne _ _ _]. rewrite Forall_forall in HFo, HFn.
  pose proof (HFn a (path_first _ _ _ _ Hn)) as Ha. pose proof (HFo h (path_first _ _ _ _ Ho)) as Hhi.
  pose proof (inv_alloc _ I a (or_introl Ha)) as Haa. pose proof (inv_alloc _ I h (or_introl Hhi)) as Hha.
  destruct (fetch_branch_walks s (get_block_id s a) (get_block_id s h) a h new old cm)
    as (a' & b' & la & lb & P1 & P2 & (l1 & l2 & Q1 & Q2) & Hprev & Hnum & _ & _ & ->); [done|done|by apply index_find|by apply index_find|done|done|].
  pose proof (path_split s a new cm la a' I Haa Hn P1 l1 Q1) as En. pose proof (path_split s h old cm lb b' I Hha Ho P2 l2 Q2) as Eo.
  assert (forall x, x ∈ l1 ++ [cm] -> x ∈ _index s) as Hi1 by (intros x Hx; apply HFn; rewrite En; set_solver).
  assert (forall x, x ∈ l2 ++ [cm] -> x ∈ _index s) as Hi2 by (intros x Hx; apply HFo; rewrite Eo; set_solver).
  assert (forall x y, x ∈ l1 -> y ∈ l2 -> get_block_id s x <> get_block_id s y) as Hdis by (intros x y Hx Hy; apply Hap; set_solver).
  pose proof (Hi1 a' (path_first _ _ _ _ Q1)) as Ha'. pose proof (Hi2 b' (path_first _ _ _ _ Q2)) as Hb'.
  pose proof (inv_alloc _ I a' (or_introl Ha')) as Haa'. pose proof (inv_alloc _ I b' (or_introl Hb')) as Hba'.
  do 2 f_equal. destruct (bool_decide _) eqn:E; to_prop.
  - assert (a' = b') as <- by (by apply (index_same_id s)). pose proof (path_unique s a' l1 l2 cm I Haa' Q1 Q2) as <-.
    destruct l1 as [|x l1]; [by rewrite En, Eo, !app_nil_r|]. by destruct (Hdis x x); [left|left|].
  - inversion Q1 as [|? x l1' ? Hx Q1']; subst.
    { by rewrite (path_same_num s b' l2 cm I Hba' Q2 ltac:(lia)) in E. }
    inversion Q2 as [|? y l2' ? Hy Q2']; subst.
    { by rewrite (path_same_num s a' (a' :: l1') cm I Haa' Q1 ltac:(lia)) in E. }
    destruct (lock_prev_spec s a' x I Haa' Hx) as (Hxa & Hxi & _), (lock_prev_spec s b' y I Hba' Hy) as (Hya & Hyi & _).
    assert (x = y) as <-.
    { apply (index_same_id s); [done|apply Hi1, elem_of_cons; right; by eapply path_first|apply Hi2, elem_of_cons; right; by eapply path_first|congruence]. }
    pose proof (path_unique s x l1' l2' cm I Hxa Q1' Q2') as <-.
    destruct l1' as [|z l1']; [done|]. by destruct (Hdis z z); [set_solver|set_solver|].
Qed.

Lemma branch_bottom s a l cm : fdb_inv s -> allocated s a -> path s a l cm -> l <> [] ->
  exists b, last l = Some b /\ previous_id s b = get_block_id s cm /\ u32 (get_block_num s b - 1) = get_block_num s cm /\
    lock_prev s b = Some cm.
Proof.
  intros I Ha H. induction H as [a|a b l c Hb Hp IH]; intros Hne; [done|].
  destruct (lock_prev_spec s a b I Ha Hb) as (Hal & Hid & Hnum). destruct l as [|x l].
  - inversion Hp; subst. exists a. split_and!; [done|done| |done].
    pose proof (item_wf s a I Ha) as [_ Hr]. unfold get_block_num in *. rewrite block_num_wf in Hnum by (by apply item_wf).
    pose proof (num_pos s c I Hal) as Hpos. unfold get_block_num in Hpos. rewrite (block_num_wf (full_block (item s a))) by (by apply item_wf).
    rewrite uwrap_id; [lia|]. unfold in_u. lia.
  - destruct (IH Hal ltac:(done)) as (b' & E & ?). exists b'. split; [|done]. by rewrite <- E.
Qed.

Lemma hold_inv l s : fdb_inv s -> fdb_inv (hold l s).
Proof. intros []. by constructor. Qed.
Lemma release_inv l s : fdb_inv s -> fdb_inv (release l s).
Proof. intros []. by constructor. Qed.

(** As many blocks as the old branch has can be popped from the fork database. *)
Lemma head_path s c h a cm base old new rest : forked s c h a cm base old new rest ->
  exists k lk y, _head s = Some k /\ path s k lk y /\ Forall (fun x => x ∈ _index s) (lk ++ [y]) /\ length lk = length old.
Proof.
  intros F. destruct (fk_head _ _ _ _ _ _ _ _ _ F) as [Hh|[Ha Hle]].
  - exists h, old, cm. split_and!; [done|apply F|apply F|done].
  - pose proof (fk_new _ _ _ _ _ _ _ _ _ F) as Hn. pose proof (fk_new_index _ _ _ _ _ _ _ _ _ F) as HF.
    destruct (path_take s a new cm (length old) Hn Hle) as (y & l2 & E & P1 & P2). exists a, (take (length old) new), y.
    split_and!; [done|done| |by rewrite length_take_le]. apply Forall_forall. intros x Hx. apply (proj1 (Forall_forall _ _) HF).
    apply elem_of_app in Hx as [Hx|Hx%list_elem_of_singleton]; [apply elem_of_app; left; rewrite E; set_solver|subst x].
    apply path_first in P2. rewrite E. set_solver.
Qed.

(** The state goes back to the block both branches start from. *)
Lemma popped_spec s c h a cm base old new rest l : forked s c h a cm base old new rest ->
  let s1 := hold l s in
  exists y c1 n, match last old with
               | None => Some (s1, c, Ok 0)
               | Some o => pop_block_extended (pop_fuel c) (previous_id s1 o) s1 c
               end = Some (set_head (Some y) s1, c1, Ok n) /\ y ∈ _index s /\ chain_of c1 = blk s cm :: rest /\
    irreversible c1 = irreversible c /\ logged c1 = logged c.
Proof.
  intros F s1. pose proof (fk_inv _ _ _ _ _ _ _ _ _ F) as I. pose proof (hold_inv l s I) as I1. fold s1 in I1.
  pose proof (fk_old _ _ _ _ _ _ _ _ _ F) as Ho. pose proof (fk_old_index _ _ _ _ _ _ _ _ _ F) as HF. pose proof (fk_chain _ _ _ _ _ _ _ _ _ F) as Hc.
  pose proof (same_tree_path s s1 h old cm (hold_tree l s) Ho HF) as Ho1.
  destruct (head_path s c h a cm base old new rest F) as (k & lk & y & Hk & Hpk & HFk & Hlen).
  assert (y ∈ _index s) as Hy by (apply (proj1 (Forall_forall _ _) HFk); set_solver).
  destruct old as [|o old].
  - inversion Ho; subst. exists k, c, 0. destruct lk; [|done]. inversion Hpk; subst. split_and!; [|done..]. by rewrite set_head_same.
  - assert (allocated s h) as Hal by (apply (inv_alloc _ I); left; apply (proj1 (Forall_forall _ _) HF); by eapply path_first).
    destruct (branch_bottom s1 h (o :: old) cm I1 Hal Ho1) as (b & -> & -> & _); [done|].
    destruct (pop_spec (pop_fuel c) s1 c k lk y h (o :: old) cm rest) as (c1 & n & E & Hc1 & ? & ?);
      [done|done|eapply same_tree_path; [apply hold_tree|done|done]|done|done|done|done|done|apply (rd_lib _ _ _ _ (fk_ready _ _ _ _ _ _ _ _ _ F))| |].
    { unfold pop_fuel. rewrite Hc, length_app, length_fmap. lia. }
    exists y, c1, n. by split_and!.
Qed.

(** The blocks above a number, on a branch that starts at that number. *)
Lemma blocks_above_path s a l y fuel : fdb_inv s -> allocated s a -> path s a l y -> (length l < fuel)%nat ->
  blocks_above fuel (get_block_num s y) s a = Some l.
Proof.
  intros I Ha H. revert fuel Ha. induction H as [a|a b l y Hb Hp IH]; intros fuel Ha Hf; (destruct fuel as [|fuel]; [lia|]); cbn [blocks_above].
  - by rewrite (proj2 (Z.ltb_ge _ _)) by lia.
  - destruct (lock_prev_spec s a b I Ha Hb) as (Hal & _ & Hn). destruct (path_facts s b l y I Hal Hp) as (Hy & _ & _ & Hle).
    pose proof (num_pos s y I Hy). rewrite (proj2 (Z.ltb_lt _ _)), (proj2 (Z.eqb_neq _ _)), Hb by lia.
    rewrite IH; [done|done|]. cbn in Hf. lia.
Qed.

(** A push that makes another branch the longer one switches forks. *)
Lemma push_switches b s0 s c h a cm base old new rest : push_block pick b s0 = Some (s, Ok (Some a)) -> forked s c h a cm base old new rest ->
  old <> [] -> (length old < length new)%nat ->
  writer_push_block pick b s0 c = match switch_forks (get_block_id s a) (get_block_id s h) (state_head_number c) s c with
                                  | None => None
                                  | Some (s', c', Throw e) => Some (s', c', Throw e)
                                  | Some (s', c', Ok _) => Some (s', c', Ok true)
                                  end.
Proof.
  intros E F Hold Hlt. pose proof (fk_inv _ _ _ _ _ _ _ _ _ F) as I. pose proof (fk_new _ _ _ _ _ _ _ _ _ F) as Hn.
  pose proof (fk_old _ _ _ _ _ _ _ _ _ F) as Ho. pose proof (proj1 (Forall_forall _ _) (fk_new_index _ _ _ _ _ _ _ _ _ F)) as HFn.
  pose proof (proj1 (Forall_forall _ _) (fk_old_index _ _ _ _ _ _ _ _ _ F)) as HFo.
  assert (allocated s a) as Ha by (apply (inv_alloc _ I); left; apply HFn; by eapply path_first).
  assert (allocated s h) as Hh by (apply (inv_alloc _ I); left; apply HFo; by eapply path_first).
  destruct (path_take s a new cm (length new - length old) Hn ltac:(lia)) as (y & l2 & El & P1 & P2). set (l1 := take _ new) in *.
  assert (length l1 = length new - length old)%nat as Hl1 by (subst l1; rewrite length_take; lia).
  assert (length l2 = length old) as Hl2 by (apply (f_equal length) in El; rewrite length_app in El; lia).
  destruct old as [|o old]; [done|]. pose proof (path_cons _ _ _ _ Ho) as ->. destruct l2 as [|z l2]; [done|]. pose proof (path_cons _ _ _ _ P2) as ->.
  assert (allocated s y) as Hy by (by destruct (path_facts s a l1 y I Ha P1)).
  pose proof (path_length s a l1 y I Ha P1) as N1. pose proof (path_length s y _ cm I Hy P2) as N2. pose proof (path_length s h _ cm I Hh Ho) as N3.
  assert (state_head_number c = get_block_num s y) as En.
  { unfold state_head_number. rewrite (fk_chain _ _ _ _ _ _ _ _ _ F). cbn. change (block_num (blk s h)) with (get_block_num s h). rewrite N3, N2, Hl2. done. }
  assert (state_head_id c = get_block_id s h) as Eid by (unfold state_head_id; by rewrite (fk_chain _ _ _ _ _ _ _ _ _ F)).
  pose proof (num_pos s y I Hy) as Hpos. unfold writer_push_block. rewrite E, En, Eid, (proj2 (Z.leb_gt _ _)) by lia.
  rewrite (blocks_above_path s a l1 y) by (done || (unfold walk_fuel; lia)).
  destruct (branch_bottom s a l1 y I Ha P1) as (bot & -> & -> & _ & _); [intros E0; rewrite E0 in Hl1; cbn in Hl1, Hlt; lia|].
  rewrite bool_decide_false; [done|]. apply (fk_apart _ _ _ _ _ _ _ _ _ F); [rewrite El; set_solver|set_solver].
Qed.

(** What holds once the state is back on the common block. *)
Lemma popped_ready s c h a cm base old new rest l y c1 : forked s c h a cm base old new rest -> y ∈ _index s ->
  irreversible c1 = irreversible c -> logged c1 = logged c ->
  let s1 := set_head (Some y) (hold l s) in
  fdb_inv s1 /\ same_tree s s1 /\ ready s1 c1 cm base /\ path s1 a new cm /\ path s1 h old cm /\
  Forall (fun x => x ∈ _index s1) new /\ Forall (fun x => x ∈ _index s1) old.
Proof.
  intros F Hy E1 E2 s1. pose proof (fk_inv _ _ _ _ _ _ _ _ _ F) as I. assert (same_tree s s1) as T by done.
  pose proof (fk_new_index _ _ _ _ _ _ _ _ _ F) as HFn. pose proof (fk_old_index _ _ _ _ _ _ _ _ _ F) as HFo. split_and!; [|done| | | | |].
  - apply set_head_inv; [by apply hold_inv|]. intros x [= <-]. apply (inv_alloc _ I). by left.
  - by apply (ready_same s _ c); [apply F|..].
  - apply (same_tree_path s); [done|apply F|done].
  - apply (same_tree_path s); [done|apply F|done].
  - by apply Forall_app in HFn as [? _].
  - by apply Forall_app in HFo as [? _].
Qed.

(** The switch itself, from either head of the fork database. *)
Lemma switch_to_branch s c h a cm base old new rest :
  forked s c h a cm base old new rest -> valid_from (blk s cm :: rest) (blk s <$> reverse new) = true ->
  exists s' c', switch_forks (get_block_id s a) (get_block_id s h) (state_head_number c) s c = Some (s', c', Ok tt) /\
    chain_of c' = (blk s <$> new) ++ blk s cm :: rest /\ _head s' = Some a /\ irreversible c <= irreversible c' <= get_block_num s a /\
    last_number (logged c') = irreversible c' /\ trimmed (irreversible c') s s'.
Proof.
  intros F Hv. unfold switch_forks. rewrite (fetch_forked _ _ _ _ _ _ _ _ _ F).
  pose proof (fk_inv _ _ _ _ _ _ _ _ _ F) as I. pose proof (fk_new _ _ _ _ _ _ _ _ _ F) as Hn. pose proof (fk_ne _ _ _ _ _ _ _ _ _ F) as Hne.
  assert (allocated s a) as Ha.
  { apply (inv_alloc _ I). left. apply (proj1 (Forall_forall _ _) (fk_new_index _ _ _ _ _ _ _ _ _ F)). by eapply path_first. }
  destruct (branch_bottom s a new cm I Ha Hn Hne) as (bot & -> & _ & _ & _).
  destruct (popped_spec s c h a cm base old new rest (new ++ old) F) as (y & c1 & n & -> & Hy & Hc1 & Hi1 & Hg1). cbv zeta.
  destruct (popped_ready s c h a cm base old new rest (new ++ old) y c1 F Hy Hi1 Hg1) as (I1 & T1 & R1 & P1 & _ & HF1 & _).
  set (s1 := set_head (Some y) (hold (new ++ old) s)) in *.
  destruct (push_branch_ok (reverse new) s1 c1 cm base a) as (k & s' & c' & base' & -> & I' & R' & Hc' & Hi' & T' & _ & Hend & _).
  { done. } { done. } { by rewrite reverse_involutive. } { by rewrite reverse_involutive. } { by rewrite Hc1. }
  { rewrite Hi1. apply (proj2 (fk_window _ _ _ _ _ _ _ _ _ F)). }
  destruct Hend as (-> & Hh' & Hg'); [intros E0; apply Hne; by rewrite <- (reverse_involutive new), E0|].
  exists (release (held s) s'), c'. split; [done|]. rewrite Hc', Hc1, fmap_reverse, reverse_involutive. pose proof (rd_lib _ _ _ _ R') as Hlib.
  rewrite (same_items_num s1 s') in Hlib by apply T'. split_and!; try done. by rewrite <- Hi1.
Qed.

(** C17. A switch of forks takes the state from one branch to the other. When every
    block of the new branch is valid on top of the one below it, no block above the last
    common one is irreversible when the switch starts, the fork database reaches down to
    the end of the block log, no branch is 10000 blocks above the irreversible one and
    ids of blocks do not collide, then the switch succeeds: the blocks of the old branch
    are undone down to the common block, those of the new branch applied in order, and
    the new head is the head of both databases. Blocks may become irreversible
    meanwhile, also on the new branch: the block log then ends at the last of them, and
    of the fork database exactly the blocks from that one on are kept. Pushing the block
    that makes the new branch the longer one has this outcome. *)
Theorem fork_switch_adopts_branch s c h a cm base old new rest :
  forked s c h a cm base old new rest -> valid_from (blk s cm :: rest) (blk s <$> reverse new) = true ->
  exists s' c', switch_forks (get_block_id s a) (get_block_id s h) (state_head_number c) s c = Some (s', c', Ok tt) /\
    chain_of c' = (blk s <$> new) ++ blk s cm :: rest /\ _head s' = Some a /\ irreversible c <= irreversible c' <= get_block_num s a /\
    last_number (logged c') = irreversible c' /\ trimmed (irreversible c') s s' /\
    (forall b s0, push_block pick b s0 = Some (s, Ok (Some a)) -> old <> [] -> (length old < length new)%nat ->
       writer_push_block pick b s0 c = Some (s', c', Ok true)).
Proof.
  intros F Hv. destruct (switch_to_branch s c h a cm base old new rest F Hv) as (s' & c' & E & ? & ? & ? & ? & ?).
  exists s', c'. split_and!; try done; try lia. intros b s0 Eb Ho Hl. by rewrite (push_switches b s0 s c h a cm base old new rest), E.
Qed.

(** The blocks of a branch have numbers above its end, so other ids than what is below. *)
Lemma above_other_id s a l c x : fdb_inv s -> allocated s a -> path s a l c -> allocated s x -> get_block_num s x <= get_block_num s c ->
  get_block_id s x ∉ ids s l.
Proof.
  intros I Ha Hp Hx Hle Hin. apply list_elem_of_fmap in Hin as (y & E & Hy).
  destruct (path_facts s a l c I Ha Hp) as (_ & _ & HF & _). rewrite Forall_forall in HF. destruct (HF y Hy) as [Hya Hn].
  pose proof (id_num s x y I Hx Hya E). lia.
Qed.

(** The bad part of a branch: the block below the first bad one, and that nothing
    at or below it is removed with the bad blocks. *)
Lemma bad_part s a cm new good bad later : fdb_inv s -> allocated s a -> path s a new cm -> reverse new = good ++ bad :: later ->
  exists p, lock_prev s bad = Some p /\ path s p (reverse good) cm /\ allocated s p /\
    (forall x, allocated s x -> get_block_num s x <= get_block_num s p -> get_block_id s x ∉ ids s (bad :: later)).
Proof.
  intros I Ha Hp E. assert (new = reverse later ++ bad :: reverse good) as En.
  { rewrite <- (reverse_involutive new), E, reverse_app, reverse_cons, <- app_assoc. done. }
  rewrite En in Hp. destruct (path_through _ _ _ _ _ _ Hp) as [P1 P2].
  destruct (path_facts s a _ _ I Ha P1) as (Hbad & _). inversion P2 as [|? p ? ? Hl P3]; subst.
  destruct (lock_prev_spec s bad p I Hbad Hl) as (Hpa & _ & Hpn). exists p. split_and!; [done|done|done|].
  intros x Hx Hle Hin. eapply (above_other_id s a (reverse later ++ [bad]) p x); [done|done|by eapply path_snoc|done|done|].
  unfold ids in *. rewrite fmap_app, fmap_reverse. cbn in Hin |- *. set_solver.
Qed.

(** A failed switch goes back when a block below the common one is still kept and
    the good part of the branch is not longer than the old one. *)
Lemma should_revert_yes s m p common orig : fdb_inv s -> m ∈ _index s -> get_block_num s m < common ->
  _head s = Some p -> get_block_num s p < orig -> should_revert common orig s = Some true.
Proof.
  intros I Hm Hlt Hp Hlo. unfold should_revert, get_last_irreversible_block_num, get_oldest_block_num.
  pose proof (inv_sorted _ I) as Hs. destruct (_index s) as [|f idx]; [by apply elem_of_nil in Hm|].
  assert (get_block_num s f <= get_block_num s m) as Hf.
  { apply elem_of_cons in Hm as [->|Hm]; [lia|]. apply StronglySorted_inv in Hs as [_ Hs]. by apply (proj1 (Forall_forall _ _) Hs). }
  rewrite (proj2 (Z.ltb_lt _ _)) by lia. rewrite Hp. by rewrite (proj2 (Z.ltb_lt _ _)).
Qed.

Definition blocks_removed (s s' : fork_database) (l : list addr) : Prop :=
  items s' = items s /\ _index s' = filter (fun x => get_block_id s x ∉ ids s l) (_index s).

(** The good part of the branch survives the removal of the bad one. *)
Lemma removed_path s s' p l cm bad : fdb_inv s -> allocated s p -> path s p l cm -> Forall (fun x => x ∈ _index s) (l ++ [cm]) ->
  (forall x, allocated s x -> get_block_num s x <= get_block_num s p -> get_block_id s x ∉ ids s bad) -> blocks_removed s s' bad ->
  Forall (fun x => x ∈ _index s') (l ++ [cm]) /\ path s' p l cm.
Proof.
  intros I Hp Hpath HF Hkeep [E Ei].
  assert (Forall (fun x => x ∈ _index s') (l ++ [cm])) as HF'.
  { apply Forall_forall. intros x Hx. destruct (path_to s p l cm x I Hp Hpath Hx) as (Hxa & _).
    destruct (path_facts s p l cm I Hp Hpath) as (_ & _ & Hb & Hle). rewrite Forall_forall in Hb, HF.
    rewrite Ei. apply list_elem_of_filter. split; [|by apply HF]. apply Hkeep; [done|].
    apply elem_of_app in Hx as [Hx|Hx%list_elem_of_singleton]; [by apply Hb|by subst]. }
  split; [done|]. apply (path_kept s); [|done|done]. intros x. unfold item. by rewrite E.
Qed.

(** From the good part of a failed branch back to the old branch. *)
Lemma back_to_old s c p l cm rest base h old : fdb_inv s -> _head s = Some p -> path s p l cm -> Forall (fun x => x ∈ _index s) (l ++ [cm]) ->
  chain_of c = (blk s <$> l) ++ blk s cm :: rest -> ready s c cm base ->
  path s h old cm -> Forall (fun x => x ∈ _index s) old -> old <> [] -> valid_from (blk s cm :: rest) (blk s <$> reverse old) = true ->
  get_block_num s h - irreversible c < HIVE_MAX_UNDO_HISTORY ->
  exists s1 c1 n s2 c2, pop_block_extended (pop_fuel c) (get_block_id s cm) s c = Some (s1, c1, Ok n) /\
    push_branch (reverse old) s1 c1 = Some (s2, c2, None) /\ chain_of c2 = (blk s <$> old) ++ blk s cm :: rest /\
    _head s2 = Some h /\ irreversible c <= irreversible c2 /\ trimmed (irreversible c2) s s2.
Proof.
  intros I Hh Hp HF Hc R Ho HFo Hne Hv Hw. assert (allocated s cm) as Hcm by (apply (inv_alloc _ I); left; by eapply ready_index).
  destruct (pop_spec (pop_fuel c) s c p l cm p l cm rest) as (c1 & n & -> & Hc1 & Hi1 & Hg1); [done..|apply R| |].
  { unfold pop_fuel. rewrite Hc, length_app, length_fmap. lia. }
  assert (same_tree s (set_head (Some cm) s)) as T by done.
  destruct (push_branch_ok (reverse old) (set_head (Some cm) s) c1 cm base h) as (k & s2 & c2 & b2 & E2 & _ & _ & Hc2 & Hi2 & T2 & _ & Hend & _).
  { apply set_head_inv; [done|]. by intros x [= <-]. }
  { by apply (ready_same s _ c). }
  { rewrite reverse_involutive. apply (same_tree_path s); [done|done|]. apply Forall_app. split; [done|]. apply Forall_singleton. by eapply ready_index. }
  { by rewrite reverse_involutive. } { by rewrite Hc1. } { by rewrite Hi1. }
  destruct Hend as (-> & Hh2 & _); [intros E0; apply Hne; by rewrite <- (reverse_involutive old), E0|].
  do 5 eexists. split; [done|]. split; [exact E2|]. rewrite Hc2, Hc1, fmap_reverse, reverse_involutive. split_and!; try done. by rewrite <- Hi1.
Qed.

(** The good part of a branch is applied up to [p]; the index keeps the blocks from
    number [n] on. *)
Record good_applied (s : fork_database) (c : C) (cm p : addr) (rest : list full_block_type) (good : list addr) (n : Z)
    (s' : fork_database) (c' : C) : Prop := {
  ga_inv : fdb_inv s';
  ga_ready : exists base, ready s' c' p base;
  ga_chain : chain_of c' = reverse (blk s <$> good) ++ blk s cm :: rest;
  ga_lib : irreversible c <= irreversible c';
  ga_trim : trimmed n s s';
  ga_end : n = irreversible c' \/ (good = [] /\ n <= irreversible c' /\ irreversible c' <= get_block_num s cm)
}.

Lemma good_part_applied s c h a cm base old new rest good bad later y c1 l p : forked s c h a cm base old new rest ->
  reverse new = good ++ bad :: later -> y ∈ _index s -> chain_of c1 = blk s cm :: rest -> irreversible c1 = irreversible c -> logged c1 = logged c ->
  valid_from (blk s cm :: rest) (blk s <$> good) = true -> valid (reverse (blk s <$> good) ++ blk s cm :: rest) (blk s bad) = false ->
  path s p (reverse good) cm -> get_block_num s p <= get_block_num s a ->
  exists s2 c2 e n, push_branch (reverse new) (set_head (Some y) (hold l s)) c1 = Some (set_head (Some bad) s2, c2, Some (e, bad :: later)) /\
    good_applied s c cm p rest good n s2 c2.
Proof.
  intros F Er Hy Hc1 Hi1 Hg1 Hgood Hbad Hpath Hpa. pose proof (fk_inv _ _ _ _ _ _ _ _ _ F) as I.
  destruct (popped_ready s c h a cm base old new rest l y c1 F Hy Hi1 Hg1) as (I1 & T1 & R1 & _).
  set (s1 := set_head (Some y) (hold l s)) in *.
  assert (Forall (fun x => x ∈ _index s) (reverse good ++ [cm])) as Hgi.
  { apply Forall_forall. intros x Hx. apply (proj1 (Forall_forall _ _) (fk_new_index _ _ _ _ _ _ _ _ _ F)).
    rewrite <- (reverse_involutive new), Er, reverse_app. set_solver. }
  destruct (push_branch_ok good s1 c1 cm base p) as (n & s2 & c2 & base' & E & I2 & R2 & Hc2 & Hi2 & T2 & Hn2 & Hne & Hnil).
  { done. } { done. } { by apply (same_tree_path s). } { by apply Forall_app in Hgi as [? _]. } { by rewrite Hc1. }
  { change (get_block_num s1 p) with (get_block_num s p). pose proof (proj2 (fk_window _ _ _ _ _ _ _ _ _ F)). rewrite Hi1. lia. }
  destruct (push_branch_fails good bad later s1 c1 s2 c2 E) as (e & E').
  { rewrite Hc2, Hc1. unfold blk, item in *. by rewrite (proj1 T2). }
  exists s2, c2, e, n. rewrite Er. split; [exact E'|]. constructor; [done|by eexists|by rewrite Hc2, Hc1|by rewrite <- Hi1|done|].
  destruct good as [|g good]; [right|left; by apply Hne]. destruct (Hnil eq_refl) as [_ ->]. split_and!; [done|done|].
  rewrite Hi1. apply (rd_lib _ _ _ _ (fk_ready _ _ _ _ _ _ _ _ _ F)).
Qed.

(** Then the bad blocks are removed. *)
Record bad_removed (s : fork_database) (c : C) (p : addr) (gone : list addr) (n : Z) (s' : fork_database) : Prop := {
  br_inv : fdb_inv s';
  br_items : items s' = items s;
  br_index : _index s' = filter (fun x => n <= get_block_num s x /\ get_block_id s x ∉ ids s gone) (_index s);
  br_head : _head s' = Some p;
  br_ready : exists base, ready s' c p base
}.

Lemma bad_part_removed s c cm p rest good bad later n s2 c2 : fdb_inv s -> good_applied s c cm p rest good n s2 c2 -> lock_prev s bad = Some p ->
  allocated s bad -> (forall x, allocated s x -> get_block_num s x <= get_block_num s p -> get_block_id s x ∉ ids s (bad :: later)) ->
  bad_removed s c2 p (bad :: later) n (remove_items (bad :: later) (set_head (Some bad) s2)).
Proof.
  intros I G Hp Hbad Hkeep. destruct (ga_ready _ _ _ _ _ _ _ _ _ G) as [base R]. pose proof (ga_trim _ _ _ _ _ _ _ _ _ G) as T.
  pose proof (extends_same_items s s2 (proj1 T)) as X. pose proof (lock_prev_alloc s bad p I Hp) as Hpa.
  assert (forall x, get_block_num s2 x = get_block_num s x) as En by (intros x; by apply same_items_num, T).
  assert (forall x, get_block_id s2 x = get_block_id s x) as Eid by (intros x; by apply same_items_id, T).
  assert (ids s2 (bad :: later) = ids s (bad :: later)) as Eids by (unfold ids; apply list_fmap_ext; intros; apply Eid).
  assert (lock_prev (set_head (Some bad) s2) bad = Some p) as Hp2.
  { unfold lock_prev in Hp |- *. change (item (set_head (Some bad) s2) bad) with (item s2 bad). unfold item in Hp |- *. rewrite (proj1 T).
    destruct (prev _) as [q|]; [|done]. destruct (live s q); [|done]. injection Hp as ->. rewrite in_index_live; [done|]. exact (ready_index s2 c2 p base R). }
  assert (fdb_inv (set_head (Some bad) s2)) as I3.
  { apply set_head_inv; [apply G|]. intros x [= <-]. by apply (extends_alloc s). }
  destruct (remove_branch_tree bad later (set_head (Some bad) s2) p I3 eq_refl Hp2) as (I4 & E4 & Ei4 & Eh4).
  { change (get_block_id s2 p ∉ ids s2 (bad :: later)). rewrite Eid, Eids. by apply Hkeep. }
  set (s4 := remove_items _ _) in *. change (items (set_head (Some bad) s2)) with (items s2) in E4.
  change (_index s4 = filter (fun x => get_block_id s2 x ∉ ids s2 (bad :: later)) (_index s2)) in Ei4.
  constructor; [done|by rewrite E4; apply T| |done|].
  - rewrite Ei4, (proj2 T), list_filter_filter. apply filter_ext_in. intros x _. rewrite Eid, Eids. tauto.
  - exists base. destruct R as [(l & Pl & HF) H1 H2 H3]. destruct (removed_path s2 s4 p l base (bad :: later)) as [HF' P'];
      [apply G|by apply (extends_alloc s)|done|done|intros x Hx; rewrite !En, Eid, Eids; intros Hle; apply Hkeep; [|done]|done|].
    { destruct Hx as [it Hx]. exists it. by rewrite <- (proj1 T). }
    constructor; rewrite ?(same_items_num s2 s4) by done; [by exists l|done|done|done].
Qed.

Lemma bad_removed_elem s c p gone n s' x : bad_removed s c p gone n s' -> x ∈ _index s -> n <= get_block_num s x ->
  get_block_id s x ∉ ids s gone -> x ∈ _index s'.
Proof. intros B Hx Hn Hid. rewrite (br_index _ _ _ _ _ _ B). by apply list_elem_of_filter. Qed.

(** The switch goes back, unless the common block is irreversible by now. *)
Lemma goes_back_or_settled s c cm p base gone n s' common_low orig : fdb_inv s -> ready s common_low cm base -> get_block_num s base < get_block_num s cm ->
  bad_removed s c p gone n s' -> n <= irreversible c -> get_block_num s cm <= get_block_num s p -> get_block_num s p < orig ->
  (forall x, allocated s x -> get_block_num s x <= get_block_num s p -> get_block_id s x ∉ ids s gone) ->
  (should_revert (get_block_num s cm) orig s' = Some true /\ exists f, f ∈ _index s' /\ get_block_num s f < get_block_num s cm) \/
  (should_revert (get_block_num s cm) orig s' = Some false /\ get_block_num s cm <= irreversible c).
Proof.
  intros I R Hlow B Hn Hcp Hpo Hkeep. destruct (rd_path _ _ _ _ R) as (l & Pl & HF). pose proof (rd_log _ _ _ _ R) as Hlog.
  assert (forall x, get_block_num s' x = get_block_num s x) as En by (intros x; by apply same_items_num, B).
  assert (allocated s cm) as Hcm by (apply (inv_alloc _ I); left; by eapply ready_index).
  destruct (decide (irreversible c < get_block_num s cm)) as [Hlt|Hge].
  - left. destruct (path_number s cm l base (Z.max (irreversible c) (get_block_num s base)) I Hcm Pl) as (x & l1 & P & Hin & Ex); [lia|].
    assert (x ∈ _index s) as Hx by (apply (proj1 (Forall_forall _ _) HF), Hin; set_solver).
    assert (x ∈ _index s') as Hx'.
    { apply (bad_removed_elem s c p gone n); [done|done|lia|]. apply Hkeep; [|lia]. apply (inv_alloc _ I). by left. }
    split; [|exists x; split; [done|lia]]. apply (should_revert_yes s' x p); [apply B|done|rewrite En; lia|apply B|by rewrite En].
  - unfold should_revert, get_last_irreversible_block_num, get_oldest_block_num. destruct (br_ready _ _ _ _ _ _ B) as [b' R'].
    pose proof (ready_index _ _ _ _ R') as Hp. destruct (_index s') as [|f idx]; [by apply elem_of_nil in Hp|].
    rewrite (br_head _ _ _ _ _ _ B), !En. destruct (_ <? _) eqn:Ef; to_prop; [left|right; split; [done|lia]].
    rewrite (proj2 (Z.ltb_lt _ _)) by done. split; [done|]. exists f. split; [by left|done].
Qed.

(** When it goes back, the common block is still on a kept branch. *)
Lemma ready_below s c c' cm p rest good gone n s2 s' f : fdb_inv s -> good_applied s c cm p rest good n s2 c' -> bad_removed s c' p gone n s' ->
  allocated s p -> path s p (reverse good) cm -> Forall (fun x => x ∈ _index s) (reverse good ++ [cm]) ->
  (forall x, allocated s x -> get_block_num s x <= get_block_num s p -> get_block_id s x ∉ ids s gone) ->
  f ∈ _index s' -> get_block_num s f < get_block_num s cm ->
  path s' p (reverse good) cm /\ Forall (fun x => x ∈ _index s') (reverse good ++ [cm]) /\ exists base, ready s' c' cm base.
Proof.
  intros I G B Hpa Hp HF Hkeep Hf Hfn. destruct (br_ready _ _ _ _ _ _ B) as [b R].
  assert (forall x, get_block_num s' x = get_block_num s x) as En by (intros x; by apply same_items_num, B).
  destruct (path_facts s p _ cm I Hpa Hp) as (_ & _ & Hnums & _). rewrite Forall_forall in Hnums.
  rewrite (br_index _ _ _ _ _ _ B) in Hf. apply list_elem_of_filter in Hf as [[Hf _] _].
  assert (irreversible c' <= get_block_num s cm /\ (irreversible c' < get_block_num s cm \/ p = cm)) as [Hlib Hcase].
  { destruct (ga_end _ _ _ _ _ _ _ _ _ G) as [->|(-> & _ & ?)]; [split; [lia|left; lia]|]. split; [done|right]. by inversion Hp. }
  assert (Forall (fun x => x ∈ _index s') (reverse good ++ [cm])) as HF'.
  { apply Forall_forall. intros x Hx. destruct (path_to s p _ cm x I Hpa Hp Hx) as (Hxa & lx & Px).
    destruct (path_facts s x lx cm I Hxa Px) as (_ & _ & _ & Hge).
    assert (get_block_num s x <= get_block_num s p) as Hle.
    { apply elem_of_app in Hx as [Hx|Hx%list_elem_of_singleton]; [by apply Hnums|subst]. by destruct (path_facts s p _ cm I Hpa Hp) as (_ & _ & _ & ?). }
    apply (bad_removed_elem s c' p gone n); [done|by apply (proj1 (Forall_forall _ _) HF)|lia|by apply Hkeep]. }
  assert (path s' p (reverse good) cm) as P' by (apply (path_kept s); [intros x; unfold item; by rewrite (br_items _ _ _ _ _ _ B)|done|done]).
  split_and!; [done|done|]. exists b. destruct Hcase as [Hlt| ->]; [|done].
  destruct R as [(l & Pl & HFl) H1 H2 H3]. assert (allocated s' p) as Hpa' by (apply (inv_alloc _ (br_inv _ _ _ _ _ _ B)); right; right; apply B).
  destruct (ancestors_ordered s' p (reverse good) cm l b (br_inv _ _ _ _ _ _ B) Hpa' P' Pl) as [l' Pl']; [rewrite (En cm); lia|].
  rewrite (path_split s' p l b (reverse good) cm (br_inv _ _ _ _ _ _ B) Hpa' Pl P' l' Pl'), <- app_assoc in HFl. apply Forall_app in HFl as [_ HFl].
  constructor; [by exists l'|done|done|by rewrite En].
Qed.

(** The old branch is on top of the common block, and removing blocks of the new
    branch does not touch it. *)
Lemma fk_old_facts s c h a cm base old new rest : forked s c h a cm base old new rest ->
  state_head_number c = get_block_num s cm + Z.of_nat (length old) /\
  (forall x l, x ∈ old -> (forall z, z ∈ l -> z ∈ new) -> get_block_id s x ∉ ids s l).
Proof.
  intros F. pose proof (fk_inv _ _ _ _ _ _ _ _ _ F) as I. pose proof (fk_old _ _ _ _ _ _ _ _ _ F) as Ho.
  assert (allocated s h) as Hh.
  { apply (inv_alloc _ I). left. apply (proj1 (Forall_forall _ _) (fk_old_index _ _ _ _ _ _ _ _ _ F)). by eapply path_first. }
  split.
  - rewrite <- (path_length s h old cm I Hh Ho). unfold state_head_number. rewrite (fk_chain _ _ _ _ _ _ _ _ _ F).
    pose proof (path_cons _ _ _ _ Ho). destruct old; cbn; by subst.
  - intros x l Hx Hl Hin. apply list_elem_of_fmap in Hin as (z & E & Hz). by apply (fk_apart _ _ _ _ _ _ _ _ _ F z x); [apply Hl|..].
Qed.

(** The way back: the good part is popped and the old branch applied again. *)
Lemma old_restored s c c' h a cm base old new rest good gone n s2 s' p f : forked s c h a cm base old new rest ->
  (forall z, z ∈ gone -> z ∈ new) -> old <> [] -> good_applied s c cm p rest good n s2 c' -> bad_removed s c' p gone n s' ->
  allocated s p -> path s p (reverse good) cm -> Forall (fun x => x ∈ _index s) (reverse good ++ [cm]) ->
  (forall x, allocated s x -> get_block_num s x <= get_block_num s p -> get_block_id s x ∉ ids s gone) ->
  f ∈ _index s' -> get_block_num s f < get_block_num s cm -> valid_from (blk s cm :: rest) (blk s <$> reverse old) = true ->
  exists s4 c4 k s5 c5, pop_block_extended (pop_fuel c') (get_block_id s cm) s' c' = Some (s4, c4, Ok k) /\
    push_branch (reverse old) s4 c4 = Some (s5, c5, None) /\ chain_of c5 = chain_of c /\ _head s5 = Some h /\
    irreversible c' <= irreversible c5 /\ trimmed (irreversible c5) s' s5.
Proof.
  intros F Hgone Hne G B Hpa Hp HF Hkeep Hf Hfn Hv. pose proof (fk_inv _ _ _ _ _ _ _ _ _ F) as I.
  destruct (ready_below s c c' cm p rest good gone n s2 s' f) as (P' & HF' & base' & R'); [done..|].
  destruct (fk_old_facts s c h a cm base old new rest F) as (_ & Hold). pose proof (fk_old _ _ _ _ _ _ _ _ _ F) as Ho.
  pose proof (fk_old_index _ _ _ _ _ _ _ _ _ F) as HFo. apply Forall_app in HFo as [HFo _].
  assert (forall x, blk s' x = blk s x) as Eb by (intros x; unfold blk, item; by rewrite (br_items _ _ _ _ _ _ B)).
  assert (forall k, blk s' <$> k = blk s <$> k) as Ebl by (intros k; apply list_fmap_ext; intros; apply Eb).
  assert (allocated s h) as Hha by (apply (inv_alloc _ I); left; apply (proj1 (Forall_forall _ _) (fk_old_index _ _ _ _ _ _ _ _ _ F)); by eapply path_first).
  assert (n <= irreversible c') as Hn by (destruct (ga_end _ _ _ _ _ _ _ _ _ G) as [->|(_ & ? & _)]; lia).
  assert (Forall (fun x => x ∈ _index s') old) as HFo'.
  { rewrite Forall_forall in HFo |- *. intros x Hx. destruct (path_facts s h old cm I Hha Ho) as (_ & _ & Hnum & _).
    destruct (proj1 (Forall_forall _ _) Hnum x Hx) as [_ Hnx]. pose proof (rd_lib _ _ _ _ R') as Hl. rewrite (same_items_num s s') in Hl by apply B.
    apply (bad_removed_elem s c' p gone n); [done|by apply HFo|lia|by apply Hold]. }
  assert (path s' h old cm) as Ho'.
  { apply (path_kept s); [intros x; unfold item; by rewrite (br_items _ _ _ _ _ _ B)|done|]. apply Forall_app. split; [done|].
    apply Forall_singleton. by eapply ready_index. }
  destruct (back_to_old s' c' p (reverse good) cm rest base' h old) as (s4 & c4 & k & s5 & c5 & E4 & E5 & Hc5 & Hh5 & Hi5 & T5); [apply B|apply B|done|done| | | | | | | |].
  { by rewrite Ebl, Eb, (ga_chain _ _ _ _ _ _ _ _ _ G), fmap_reverse. } { done. } { done. } { done. } { done. } { by erewrite Eb, (Ebl (reverse old)). }
  { rewrite (same_items_num s s') by apply B. pose proof (proj1 (fk_window _ _ _ _ _ _ _ _ _ F)). pose proof (ga_lib _ _ _ _ _ _ _ _ _ G). lia. }
  rewrite (same_items_id s s') in E4 by apply B. exists s4, c4, k, s5, c5. split_and!; try done. by rewrite Hc5, Ebl, Eb, (fk_chain _ _ _ _ _ _ _ _ _ F).
Qed.

(** A switch that fails. *)
Lemma switch_fails s c h a cm base old new rest good bad later :
  forked s c h a cm base old new rest -> get_block_num s base < get_block_num s cm -> reverse new = good ++ bad :: later ->
  valid_from (blk s cm :: rest) (blk s <$> good) = true -> valid (reverse (blk s <$> good) ++ blk s cm :: rest) (blk s bad) = false ->
  valid_from (blk s cm :: rest) (blk s <$> reverse old) = true -> (length good < length old)%nat ->
  exists s' c' e n, switch_forks (get_block_id s a) (get_block_id s h) (state_head_number c) s c = Some (s', c', Throw e) /\
    irreversible c <= irreversible c' /\ items s' = items s /\
    _index s' = filter (fun x => n <= get_block_num s x /\ get_block_id s x ∉ ids s (bad :: later)) (_index s) /\ n <= irreversible c' /\
    ((chain_of c' = chain_of c /\ _head s' = Some h) \/
     (get_block_num s cm <= irreversible c' /\ chain_of c' = reverse (blk s <$> good) ++ blk s cm :: rest /\ head_block_id s' = state_head_id c')).
Proof.
  intros F Hlow Er Hgood Hbad Hold Hshort. unfold switch_forks. rewrite (fetch_forked _ _ _ _ _ _ _ _ _ F).
  pose proof (fk_inv _ _ _ _ _ _ _ _ _ F) as I. pose proof (fk_new _ _ _ _ _ _ _ _ _ F) as Hn.
  pose proof (proj1 (Forall_forall _ _) (fk_new_index _ _ _ _ _ _ _ _ _ F)) as Hni.
  assert (allocated s a) as Ha by (apply (inv_alloc _ I); left; apply Hni; by eapply path_first).
  assert (forall x, x ∈ good ++ bad :: later -> x ∈ new) as Hin by (intros x Hx; rewrite <- Er in Hx; by apply elem_of_reverse).
  destruct (branch_bottom s a new cm I Ha Hn (fk_ne _ _ _ _ _ _ _ _ _ F)) as (bot & -> & -> & -> & _).
  destruct (popped_spec s c h a cm base old new rest (new ++ old) F) as (y & c1 & k & -> & Hy & Hc1 & Hi1 & Hg1). cbv zeta.
  destruct (bad_part s a cm new good bad later I Ha Hn Er) as (p & Hp & Hpath & Hpa & Hkeep).
  pose proof (path_length s p _ cm I Hpa Hpath) as Hpn. rewrite length_reverse in Hpn.
  assert (allocated s bad) as Hba by (apply (inv_alloc _ I); left; apply Hni, elem_of_app; left; apply Hin; set_solver).
  destruct (lock_prev_spec s bad p I Hba Hp) as (_ & _ & Hbn).
  assert (get_block_num s bad <= get_block_num s a) as Hle.
  { destruct (path_facts s a new cm I Ha Hn) as (_ & _ & HF & _). apply (proj1 (Forall_forall _ _) HF), Hin. set_solver. }
  destruct (good_part_applied s c h a cm base old new rest good bad later y c1 (new ++ old) p) as (s2 & c2 & e & n & -> & G); [done..|lia|].
  pose proof (bad_part_removed s c cm p rest good bad later n s2 c2 I G Hp Hba Hkeep) as B. set (s3 := remove_items _ _) in *.
  assert (n <= irreversible c2) as Hn2 by (destruct (ga_end _ _ _ _ _ _ _ _ _ G) as [->|(_ & ? & _)]; lia).
  destruct (fk_old_facts s c h a cm base old new rest F) as (Hhn & Hho).
  destruct (goes_back_or_settled s c2 cm p base (bad :: later) n s3 c (state_head_number c)) as [[-> (f & Hf & Hfn)]|[-> Hset]];
    [done|apply F|done|done|done|lia|lia|done| |].
  - destruct (old_restored s c c2 h a cm base old new rest good (bad :: later) n s2 s3 p f) as (s4 & c4 & k4 & s5 & c5 & -> & -> & Hc5 & Hh5 & Hi5 & T5);
      [done|intros z Hz; apply Hin; set_solver|by intros ->; cbn in Hshort; lia|done|done|done|done| |done|done|done|done|].
    { apply Forall_forall. intros x [Hx%elem_of_reverse|Hx]%elem_of_app; apply Hni, elem_of_app; [left; apply Hin; set_solver|by right]. }
    exists (release (held s) s5), c5, e, (irreversible c5). pose proof (ga_lib _ _ _ _ _ _ _ _ _ G). split; [done|].
    split_and!; [lia|by cbn; rewrite (proj1 T5); apply B| |done|by left]. cbn. rewrite (proj2 T5), (br_index _ _ _ _ _ _ B), list_filter_filter.
    apply filter_ext_in. intros x _. rewrite (same_items_num s s3) by apply B. split; [tauto|]. intros [? ?]. split_and!; [done|lia|done].
  - exists (release (held s) s3), c2, e, n. split; [done|]. split_and!; [apply G|apply B|apply B|done|right]. split_and!; [done|apply G|].
    unfold head_block_id, state_head_id. change (_head (release (held s) s3)) with (_head s3). rewrite (br_head _ _ _ _ _ _ B), (ga_chain _ _ _ _ _ _ _ _ _ G).
    change (get_block_id (release (held s) s3) p) with (get_block_id s3 p). rewrite (same_items_id s s3), <- fmap_reverse by apply B.
    pose proof (path_cons _ _ _ _ Hpath) as Hx. destruct (reverse good); cbn; by subst.
Qed.

(** C24. A switch to a bad branch is undone. Let a block of the new branch be invalid,
    the good part below it shorter than the old branch, and a block below the common one
    still in the fork database; let further (as for C17) no block above the common one
    be irreversible at the start, the fork database reach down to the end of the block
    log, no branch be 10000 blocks above the irreversible one and ids not collide. Then
    the switch fails, and either the state is back on the old branch with the same
    blocks and the old head, or the common block has become irreversible and the state
    stays on the good part of the new branch, whose last block is the head of both
    databases. Either way the fork database loses the invalid block, those above it and
    besides only blocks below the irreversible one. Pushing the block that makes the bad
    branch the longer one has this outcome. *)
Theorem failed_switch_restores s c h a cm base old new rest good bad later :
  forked s c h a cm base old new rest -> get_block_num s base < get_block_num s cm -> reverse new = good ++ bad :: later ->
  valid_from (blk s cm :: rest) (blk s <$> good) = true -> valid (reverse (blk s <$> good) ++ blk s cm :: rest) (blk s bad) = false ->
  valid_from (blk s cm :: rest) (blk s <$> reverse old) = true -> (length good < length old)%nat ->
  exists s' c' e n, switch_forks (get_block_id s a) (get_block_id s h) (state_head_number c) s c = Some (s', c', Throw e) /\
    irreversible c <= irreversible c' /\ items s' = items s /\
    _index s' = filter (fun x => n <= get_block_num s x /\ get_block_id s x ∉ ids s (bad :: later)) (_index s) /\ n <= irreversible c' /\
    ((chain_of c' = chain_of c /\ _head s' = Some h) \/
     (get_block_num s cm <= irreversible c' /\ chain_of c' = reverse (blk s <$> good) ++ blk s cm :: rest /\ head_block_id s' = state_head_id c')) /\
    (forall b s0, push_block pick b s0 = Some (s, Ok (Some a)) -> (length old < length new)%nat ->
       writer_push_block pick b s0 c = Some (s', c', Throw e)).
Proof.
  intros F Hlow Er Hg Hb Ho Hsh.
  destruct (switch_fails s c h a cm base old new rest good bad later F Hlow Er Hg Hb Ho Hsh) as (s' & c' & e & n & E & ? & ? & ? & ? & ?).
  exists s', c', e, n. split_and!; try done. intros b s0 Eb Hl. rewrite (push_switches b s0 s c h a cm base old new rest), E; [done|done|done| |done].
  intros ->. cbn in Hsh. lia.
Qed.
End forks.

(** ** A block on top of the head *)

Section pushing.
Context `{L : FcLib} `{!FcLaws L} {C : Type} `{CD : ChainDb C} `{!ChainLaws C}.
Variable pick : list addr -> option addr.
Hypothesis pick_found : forall l a, pick l = Some a -> a ∈ l.
Hypothesis pick_none : forall l, pick l = None -> l = [].

Lemma pick_nil : pick [] = None.
Proof. destruct (pick []) as [a|] eqn:E; [|done]. apply pick_found in E. by apply elem_of_nil in E. Qed.

Lemma find_id_ext s s' l i : (forall x, x ∈ l -> get_block_id s' x = get_block_id s x) -> find_id s' l i = find_id s l i.
Proof.
  unfold find_id. induction l as [|x l IH]; intros H; [done|]. cbn. rewrite (H x) by set_solver. by rewrite IH by set_solver.
Qed.
Lemma by_previous_ext s s' l i : (forall x, x ∈ l -> item s' x = item s x) -> by_previous s' l i = by_previous s l i.
Proof. intros H. apply filter_ext_in. intros x Hx. unfold previous_id. by rewrite (H x Hx). Qed.

Lemma filter_inserted s a l i : get_block_id s a = i -> (forall x, x ∈ l -> get_block_id s x <> i) ->
  filter (fun x => get_block_id s x <> i) (insert_by_num s a l) = l.
Proof.
  intros Ha. induction l as [|x l IH]; intros H; cbn [insert_by_num].
  - by rewrite filter_cons, decide_False by (intros Hn; by apply Hn).
  - destruct (_ <? _); rewrite filter_cons.
    + rewrite decide_False by (intros Hn; by apply Hn). apply filter_all, Forall_forall. set_solver.
    + rewrite decide_True by set_solver. f_equal. apply IH. set_solver.
Qed.

Lemma insert_by_num_items s s' a l : items s' = items s -> insert_by_num s' a l = insert_by_num s a l.
Proof. intros E. induction l as [|x l IH]; [done|]. cbn. unfold get_block_num, item. by rewrite E, IH. Qed.

#[local] Arguments find_id : simpl never.
#[local] Arguments by_previous : simpl never.

(** The fork database links a new block on top of its head and makes it the head. *)
Lemma push_on_head s h b : fdb_inv s -> block_wf b -> _head s = Some h -> h ∈ _index s -> invalid (item s h) = false ->
  previous b = get_block_id s h -> find_id s (_index s) (block_id b) = None ->
  by_previous s (_unlinked_index s) (block_id b) = [] -> 0 <= _max_size s ->
  exists a s', push_block pick b s = Some (s', Ok (Some a)) /\ items s !! a = None /\
    items s' = <[a := mk_item (Some h) false b]> (items s) /\ _head s' = Some a /\ _index s' = insert_by_num s' a (_index s).
Proof.
  intros I Hb Hh Hin Hval Hprev Hnew Hwait Hmax. unfold push_block, make_item. set (a := fresh (dom (items s))).
  assert (items s !! a = None) as Hf by (apply not_elem_of_dom, is_fresh).
  assert (forall x, allocated s x -> x <> a) as Hne by (intros x [it Hx] ->; congruence).
  set (s1 := set_items (<[a:=mk_item None false b]> (items s)) s). set (s2 := set_items (<[a := mk_item (Some h) false b]> (items s)) s).
  assert (forall x, allocated s x -> item s1 x = item s x /\ item s2 x = item s x) as Hold.
  { intros x Hx. unfold item. cbn. rewrite !lookup_insert_ne by (symmetry; by apply Hne). done. }
  assert (item s1 a = mk_item None false b /\ item s2 a = mk_item (Some h) false b) as [Ha1 Ha2] by (unfold item; cbn; by rewrite !lookup_insert_eq).
  pose proof (inv_alloc _ I h (or_introl Hin)) as Hha. destruct (Hold h Hha) as [Hh1 Hh2].
  assert (block_num b = get_block_num s h + 1) as Hnum.
  { rewrite block_num_wf, Hprev by done. unfold get_block_num. by rewrite <- (proj1 (item_wf s h I Hha)). }
  pose proof (num_pos s h I Hha) as Hpos.
  assert (try_link s1 a = Ok s2) as Elink.
  { unfold try_link. cbn. rewrite Hh. unfold threshold, get_block_num at 1 2. rewrite Ha1, Hh1. cbn. rewrite Hnum.
    rewrite (proj2 (Z.ltb_lt _ _)) by (unfold get_block_num in *; lia). cbn. unfold previous_id. rewrite Ha1. cbn.
    rewrite bool_decide_false by (rewrite Hprev; by apply (real_id_not_null s h)).
    rewrite (find_id_ext s s1), Hprev, index_find by (done || (intros x Hx; unfold get_block_id; by rewrite (proj1 (Hold x (inv_alloc _ I x (or_introl Hx)))))).
    rewrite Hh1, Hval. cbn. unfold s2. by rewrite insert_insert_eq. }
  assert (forall x, x ∈ _index s -> get_block_id s2 x = get_block_id s x) as Hid2
    by (intros x Hx; unfold get_block_id; by rewrite (proj2 (Hold x (inv_alloc _ I x (or_introl Hx))))).
  assert (insert_item s2 a = set_head_ (Some a) (set_index (insert_by_num s2 a (_index s)) s2)) as Eins.
  { unfold insert_item, multi_insert. change (_index s2) with (_index s). rewrite (find_id_ext s s2) by done.
    assert (get_block_id s2 a = block_id b) as -> by (unfold get_block_id; by rewrite Ha2). rewrite Hnew. cbn. rewrite Hh.
    unfold get_block_num at 1 2. change (item (set_index ?l s2)) with (item s2). rewrite Hh2, Ha2. cbn.
    rewrite (proj2 (Z.ltb_lt _ _)); [done|]. unfold get_block_num in Hnum. lia. }
  exists a, (insert_item s2 a). unfold push_fuel. replace (2 * length (_unlinked_index s1) + 2)%nat with (S (S (2 * length (_unlinked_index s1)))) by lia.
  cbn [_push_block]. rewrite Elink, Eins. cbn [_push_next].
  rewrite (by_previous_ext s) by (intros x Hx; apply (Hold x), (inv_alloc _ I); right; left; done).
  change (get_block_id _ a) with (block_id (full_block (item s2 a))). rewrite Ha2. cbn [full_block].
  change (_unlinked_index (set_head_ _ _)) with (_unlinked_index s). rewrite Hwait, pick_nil.
  split_and!; [reflexivity|done|reflexivity|reflexivity|]. by apply eq_sym, insert_by_num_items.
Qed.

(** The new block alone is above the head of the state. *)
Lemma blocks_above_head s h a : fdb_inv s -> allocated s a -> lock_prev s a = Some h ->
  blocks_above (walk_fuel s a) (get_block_num s h) s a = Some [a].
Proof.
  intros I Ha Hl. destruct (lock_prev_spec s a h I Ha Hl) as (Hh & _ & Hn). pose proof (num_pos s h I Hh) as Hpos.
  unfold walk_fuel. destruct (Z.to_nat (get_block_num s a)) as [|n] eqn:E; [lia|]. cbn [blocks_above].
  rewrite (proj2 (Z.ltb_lt _ _)), (proj2 (Z.eqb_neq _ _)), Hl by lia.
  by rewrite (proj2 (Z.ltb_ge _ _)) by lia.
Qed.

(** C27. A block pushed on top of the head that both databases agree on extends the chain
    or leaves no trace: a valid block is applied and becomes the head, the irreversible
    block may move up to it, and the fork database keeps it and its other blocks from the
    irreversible one on; an invalid one is reported, the chain keeps its blocks, and the
    fork database has its old head and index back.  The block is new, its id carries its
    number, no block in the cache of unlinked blocks waits for it, the head is not marked
    invalid, the fork database reaches down to the end of the block log and the block is
    less than 10000 above the irreversible one. *)
Theorem pushed_block_outcome s (c : C) h base b rest : fdb_inv s -> block_wf b -> _head s = Some h ->
  invalid (item s h) = false -> previous b = get_block_id s h -> find_id s (_index s) (block_id b) = None ->
  by_previous s (_unlinked_index s) (block_id b) = [] -> 0 <= _max_size s -> chain_of c = blk s h :: rest ->
  ready s c h base -> block_num b - irreversible c < HIVE_MAX_UNDO_HISTORY ->
  exists s' c' r, writer_push_block pick b s c = Some (s', c', r) /\
    if valid (chain_of c) b
    then r = Ok false /\ chain_of c' = b :: chain_of c /\ irreversible c <= irreversible c' <= block_num b /\
      exists a, _head s' = Some a /\ blk s' a = b /\
        forall x, x ∈ _index s' <-> (x ∈ _index s \/ x = a) /\ irreversible c' <= get_block_num s' x
    else (exists e, r = Throw e) /\ chain_of c' = chain_of c /\ _head s' = Some h /\ _index s' = _index s.
Proof.
  intros I Hb Hh Hval Hprev Hnew Hwait Hmax Hc R Hw. pose proof (ready_index _ _ _ _ R) as Hin.
  destruct (push_on_head s h b) as (a & s1 & E & Hfree & Ei & Eh & Ex); [done..|].
  destruct (push_block_cases pick pick_found pick_none b s I Hb) as (? & ? & E' & I1 & _). rewrite E in E'. injection E' as <- <-.
  assert (item s1 a = mk_item (Some h) false b) as Ha by (unfold item; by rewrite Ei, lookup_insert_eq).
  assert (forall x, x ∈ _index s -> x <> a) as Hne by (intros x Hx ->; destruct (inv_alloc _ I a (or_introl Hx)); congruence).
  assert (forall x, x ∈ _index s -> item s1 x = item s x) as Hold by (intros x Hx; unfold item; rewrite Ei, lookup_insert_ne; [done|by apply not_eq_sym, Hne]).
  assert (forall x, x ∈ _index s -> x ∈ _index s1) as Hin1 by (intros x Hx; rewrite Ex, insert_by_num_perm; by right).
  assert (a ∈ _index s1) as Hai by (rewrite Ex, insert_by_num_perm; by left).
  assert (lock_prev s1 a = Some h) as Hl by (unfold lock_prev; by rewrite Ha; cbn; rewrite in_index_live by auto).
  assert (allocated s1 a) as Hal by (apply (inv_alloc _ I1); auto).
  assert (state_head_number c = get_block_num s1 h) as En by (unfold state_head_number, get_block_num; by rewrite Hc, Hold).
  assert (state_head_id c = get_block_id s h) as Eid by (unfold state_head_id; by rewrite Hc).
  assert (blk s1 a = b) as Eb by (unfold blk; by rewrite Ha).
  destruct (lock_prev_spec s1 a h I1 Hal Hl) as (_ & _ & Hnum).
  unfold writer_push_block. rewrite E, En, (proj2 (Z.leb_gt _ _)), (blocks_above_head s1 h a) by (done || lia).
  cbn [last length]. unfold previous_id. rewrite Ha. cbn [full_block]. rewrite bool_decide_true by congruence.
  change (reverse [a]) with [a]. change (1 <? Z.of_nat 1) with false. cbn [extend_chain]. rewrite Ha. cbn [full_block]. destruct (valid (chain_of c) b) eqn:Ev.
  - destruct (apply_on_branch s1 c h base a) as (s' & c' & b' & Ea & I' & T & Hh' & R' & Hc' & Hi & _); [done| |done|done|by rewrite Eb| |].
    { by apply (ready_moved s). }
    { unfold get_block_num. by rewrite Ha. }
    rewrite set_head_same, Eb in Ea by done. rewrite Ea. do 3 eexists. split; [done|]. pose proof (rd_lib _ _ _ _ R') as Hlib.
    assert (blk s' a = b) as Eb' by (unfold blk, item; rewrite (proj1 T); exact Eb).
    change (get_block_num s' a) with (block_num (blk s' a)) in Hlib. rewrite Eb' in Hlib. split_and!; [done|by rewrite Hc', Eb|done|done|].
    exists a. split_and!; [done|done|]. intros x. rewrite (same_items_num s1 s'), (proj2 T), list_elem_of_filter, Ex, insert_by_num_perm, elem_of_cons by apply T. tauto.
  - unfold apply_block_extended. destruct (process_invalid b s1 c Ev) as (e & ->). do 3 eexists. split; [done|].
    cbn. destruct (remove_tree (get_block_id s1 a) s1 I1) as (_ & F2 & F3).
    split_and!; [by eexists|done| |].
    + by rewrite F3, Eh, bool_decide_true.
    + rewrite F2, Ex. apply filter_inserted; [done|]. intros x Hx E'.
      apply (find_id_None _ _ _ x Hnew Hx). unfold get_block_id in *. by rewrite <- Hold, E', Ha.
Qed.
End pushing.

(** ** A concrete fork *)

Module Sample.
#[local] Existing Instance fc_ref.
#[local] Existing Instance fc_ref_laws.
Import ForkDb.Sample Irreversibility.Sample.

(** A chain database that takes a block on top of its head unless mallory made it;
    a block is irreversible once there are two more. *)
Record sample_chain : Set := mk_sample { sc_chain : list full_block_type; sc_lib : Z; sc_log : list full_block_type }.
Definition good (chain : list full_block_type) (b : full_block_type) : bool :=
  bool_decide (witness b <> "mallory"%string) && match chain with h :: _ => bool_decide (previous b = block_id h) | [] => true end.
#[local] Instance sample_db : ChainDb sample_chain := {|
  chain_of := sc_chain;
  irreversible := sc_lib;
  logged := sc_log;
  set_logged l c := mk_sample (sc_chain c) (sc_lib c) l;
  in_block_log _ _ := false;
  process_block b s c := if good (sc_chain c) b then (mk_sample (b :: sc_chain c) (Z.max (sc_lib c) (block_num b - 2)) (sc_log c), Ok tt) else (c, Throw AssertFc);
  undo c := mk_sample (tail (sc_chain c)) (sc_lib c) (sc_log c)
|}.
#[local] Instance sample_db_laws : ChainLaws sample_chain.
Proof.
  refine {| valid := good |}.
  - intros b s c a _ _ _ H Hl _. eexists. cbn in *. rewrite H. split_and!; [done|done|done|cbn; lia|cbn; lia].
  - intros b s c H. exists AssertFc. cbn in *. by rewrite H.
  - done.
  - done.
Defined.

(** Blocks 1 to 3 of the first fork are applied; the second fork starts after
    block 2.  [e3] has the head on the first fork, pushing block 4 gives [e4]. *)
Definition t1 : full_block_type := made "alice" 1 1 0.
Definition t2 : full_block_type := made "bob" 2 1 1.
Definition t3 : full_block_type := made "carol" 3 1 1.
Definition f3 (w : string) : full_block_type := made w 3 2 1.
Definition f4 : full_block_type := made "erin" 4 2 2.
Definition e3 (w : string) : fork_database := push_state (f3 w) (push_state t3 (push_state t2 (start_block t1 fork_database_init))).
Definition e4 (w : string) : fork_database := push_state f4 (e3 w).
Definition applied : sample_chain := mk_sample [t3; t2; t1] 1 [t1].
Definition at_id (s : fork_database) (i : block_id_type) : addr := default O (find_id s (_index s) i).
Definition a1 (w : string) : addr := at_id (e4 w) (sid 1 1).
Definition a2 (w : string) : addr := at_id (e4 w) (sid 2 1).
Definition a3 (w : string) : addr := at_id (e4 w) (sid 3 1).
Definition b3 (w : string) : addr := at_id (e4 w) (sid 3 2).
Definition b4 (w : string) : addr := at_id (e4 w) (sid 4 2).

Lemma e3_inv w : fdb_inv (e3 w).
Proof. repeat (refine (push_state_inv _ _ _ _); [|sample_wf]). refine (start_block_inv _ fork_database_init init_inv _). sample_wf. Qed.
Lemma e4_inv w : fdb_inv (e4 w).
Proof. refine (push_state_inv _ _ (e3_inv w) _). sample_wf. Qed.

Lemma sample_apart w : apart (e4 w) [b4 w; b3 w] [a3 w].
Proof.
  intros x y Hx Hy. apply list_elem_of_singleton in Hy as ->. apply elem_of_cons in Hx as [->|Hx]; [vm_compute; done|].
  apply list_elem_of_singleton in Hx as ->. vm_compute. done.
Qed.

Lemma sample_ready w : ready (e4 w) applied (a2 w) (a1 w).
Proof.
  constructor; [|vm_compute; done|vm_compute; done|vm_compute; done]. exists [a2 w].
  split; [apply (down_path 2); vm_compute; reflexivity|apply (bool_decide_unpack _); vm_compute; done].
Qed.

Lemma sample_forked w : forked (e4 w) applied (a3 w) (b4 w) (a2 w) (a1 w) [a3 w] [b4 w; b3 w] [t1].
Proof.
  constructor.
  - apply e4_inv.
  - apply ids_determineb_ok. vm_compute. reflexivity.
  - right. split; [vm_compute; reflexivity|cbn; lia].
  - apply (down_path 2). vm_compute. reflexivity.
  - apply (down_path 3). vm_compute. reflexivity.
  - apply (bool_decide_unpack _). vm_compute. done.
  - apply (bool_decide_unpack _). vm_compute. done.
  - apply sample_apart.
  - done.
  - vm_compute. reflexivity.
  - apply sample_ready.
  - vm_compute. done.
Qed.

(** Block 2, the common one, becomes irreversible with block 4, and block 1 is dropped
    from the fork database. *)
Lemma fork_switch_adopts_branch_witness :
  exists s' c', writer_push_block pick_first f4 (e3 "dave") applied = Some (s', c', Ok true) /\ sc_chain c' = [f4; f3 "dave"; t2; t1] /\
    _index s' = filter (fun x => sc_lib c' <= get_block_num (e4 "dave") x) (_index (e4 "dave")).
Proof.
  destruct (fork_switch_adopts_branch pick_first (e4 "dave") applied _ _ _ _ _ _ _ (sample_forked "dave")) as (s' & c' & _ & Hc & _ & _ & _ & T & Hp);
    [vm_compute; reflexivity|].
  exists s', c'. split_and!; [apply Hp; [vm_compute; reflexivity|done|cbn; lia]|revert Hc; vm_compute; done|exact (proj2 T)].
Defined.

Lemma failed_switch_restores_witness :
  exists s' c' e, writer_push_block pick_first f4 (e3 "mallory") applied = Some (s', c', Throw e) /\
    (sc_chain c' = sc_chain applied \/ 2 <= sc_lib c').
Proof.
  destruct (failed_switch_restores pick_first (e4 "mallory") applied _ _ _ _ _ _ _ [] (b3 "mallory") [b4 "mallory"] (sample_forked "mallory"))
    as (s' & c' & e & n & _ & _ & _ & _ & _ & Hc & Hp);
    [vm_compute; done|done|vm_compute; reflexivity|vm_compute; reflexivity|vm_compute; reflexivity|cbn; lia|].
  exists s', c', e. split; [apply Hp; [vm_compute; reflexivity|cbn; lia]|]. destruct Hc as [[Hc _]|[Hc _]]; [left; exact Hc|right].
  revert Hc. vm_compute. done.
Defined.

(** The outcome of that push: back on the old branch, the bad blocks gone. *)
Example back_on_old_branch :
  exists s' c' e, writer_push_block pick_first f4 (e3 "mallory") applied = Some (s', c', Throw e) /\ c' = applied /\
    _head s' = Some (a3 "mallory") /\ _index s' = [a1 "mallory"; a2 "mallory"; a3 "mallory"].
Proof. do 3 eexists. split_and!; vm_compute; reflexivity. Qed.

Lemma pushed_block_outcome_witness :
  exists s' c', writer_push_block pick_first t3 (push_state t2 (start_block t1 fork_database_init)) (mk_sample [t2; t1] 0 []) = Some (s', c', Ok false) /\
    sc_chain c' = sc_chain applied.
Proof.
  set (s := push_state t2 (start_block t1 fork_database_init)).
  destruct (pushed_block_outcome pick_first pick_first_found pick_first_none s (mk_sample [t2; t1] 0 []) 1%nat 0%nat t3 [t1]) as (s' & c' & r & E & H & Hc & _);
    [refine (push_state_inv _ _ (start_block_inv _ fork_database_init init_inv _) _); sample_wf|sample_wf|vm_compute; reflexivity
    |vm_compute; done|vm_compute; done|vm_compute; done|vm_compute; done|vm_compute; done|vm_compute; done| |vm_compute; done|].
  { constructor; [|vm_compute; done|vm_compute; done|vm_compute; done]. exists [1%nat].
    split; [apply (down_path 2); vm_compute; reflexivity|apply (bool_decide_unpack _); vm_compute; done]. }
  exists s', c'. rewrite E, H. by split.
Defined.

(** When the block both branches start from is itself the oldest block of the fork
    database, a failed switch is not undone: no block of the bad branch is
    irreversible, but the chain stays one block shorter. *)
Theorem no_way_back_from_oldest_block :
  let s0 := push_state (f3 "mallory") (push_state t3 (start_block t2 fork_database_init)) in
  exists s' c' e, writer_push_block pick_first f4 s0 applied = Some (s', c', Throw e) /\ sc_chain c' = [t2; t1] /\ sc_lib c' = 1 /\
    _index s' = [0%nat; 1%nat].
Proof. do 3 eexists. split_and!; vm_compute; reflexivity. Qed.
End Sample.
