(* ===== verification/Governance.v ===== *)
(** * Governance: proxies and witness votes

    Models the votes of the stake: [adjust_proxied_witness_votes] and
    [nullify_proxied_witness_votes] of libraries/chain/database.cpp,
    [adjust_witness_votes], [clear_witness_votes] and the retally of
    database_witness.cpp, the evaluators [account_witness_vote] and
    [account_witness_proxy] (hive_evaluator.cpp) and [decline_voting_rights]
    (hive_evaluator_account.cpp), and what a block does with expired votes and
    declined rights ([remove_expired_governance_votes],
    [process_decline_voting_rights]).

    The specification is declarative: [level] says which stake reaches an account
    over exactly [j] proxies, and the tallies the code maintains step by step have
    to equal the sums it defines.

    Hardforks up to 28 are active.  An account is referred to by its name where
    the code uses its id.  An operation that throws leaves no state: its
    transaction is undone. *)

From stdpp Require Import base numbers strings option list sorting gmap.
From S2P Require Import Prelude Fc Config Resources Transfers Version WitnessSchedule.
Open Scope Z_scope.

(** ** State *)

(** The fields of [account_object] that concern governance; [vesting_shares] and
    [sum_delayed_votes] are amounts of VESTS. *)
Record gov_account : Set := mk_ga {
  acc_id : Z;
  vesting_shares : Z;
  sum_delayed_votes : Z;
  proxy : option string;
  proxied_vsf_votes : list Z;
  witnesses_voted_for : Z;
  can_vote : bool;
  governance_vote_expiration_ts : Z
}.
Definition set_proxy x a := mk_ga (acc_id a) (vesting_shares a) (sum_delayed_votes a) x (proxied_vsf_votes a)
  (witnesses_voted_for a) (can_vote a) (governance_vote_expiration_ts a).
Definition set_proxied x a := mk_ga (acc_id a) (vesting_shares a) (sum_delayed_votes a) (proxy a) x
  (witnesses_voted_for a) (can_vote a) (governance_vote_expiration_ts a).
Definition set_voted_for x a := mk_ga (acc_id a) (vesting_shares a) (sum_delayed_votes a) (proxy a) (proxied_vsf_votes a)
  x (can_vote a) (governance_vote_expiration_ts a).
Definition set_can_vote x a := mk_ga (acc_id a) (vesting_shares a) (sum_delayed_votes a) (proxy a) (proxied_vsf_votes a)
  (witnesses_voted_for a) x (governance_vote_expiration_ts a).
Definition set_expiration x a := mk_ga (acc_id a) (vesting_shares a) (sum_delayed_votes a) (proxy a) (proxied_vsf_votes a)
  (witnesses_voted_for a) (can_vote a) x.
Definition set_stake v d a := mk_ga (acc_id a) v d (proxy a) (proxied_vsf_votes a)
  (witnesses_voted_for a) (can_vote a) (governance_vote_expiration_ts a).

Inductive gov_vop : Set :=
| proxy_cleared_operation (account proxy : string)
| declined_voting_rights_operation (account : string)
| expired_account_notification_operation (account : string).

(** [witness_votes] is the index [by_account_witness], [proposal_votes] the index
    [by_voter_proposal], [decline_requests] the index [by_effective_date]. *)
Record gov : Type := mk_gov {
  accounts : gmap string gov_account;
  witness_votes : list (string * string);
  proposal_votes : list (string * Z);
  decline_requests : list (Z * string);
  sched : chain;
  remove_threshold : Z;
  vops : list gov_vop
}.
Definition set_accounts x s := mk_gov x (witness_votes s) (proposal_votes s) (decline_requests s) (sched s) (remove_threshold s) (vops s).
Definition set_votes x s := mk_gov (accounts s) x (proposal_votes s) (decline_requests s) (sched s) (remove_threshold s) (vops s).
Definition set_proposal_votes x s := mk_gov (accounts s) (witness_votes s) x (decline_requests s) (sched s) (remove_threshold s) (vops s).
Definition set_requests x s := mk_gov (accounts s) (witness_votes s) (proposal_votes s) x (sched s) (remove_threshold s) (vops s).
Definition set_sched x s := mk_gov (accounts s) (witness_votes s) (proposal_votes s) (decline_requests s) x (remove_threshold s) (vops s).
Definition push_vop v s := mk_gov (accounts s) (witness_votes s) (proposal_votes s) (decline_requests s) (sched s) (remove_threshold s) (vops s ++ [v]).

Definition get_account (name : string) (s : gov) : result gov_account :=
  match accounts s !! name with Some a => Ok a | None => Throw AssertFc end.
Definition modify_account (name : string) (f : gov_account -> gov_account) (s : gov) : gov :=
  set_accounts (alter f name (accounts s)) s.
Definition now (s : gov) : Z := head_block_time (sched s).
Definition max_time : Z := 2 ^ 32 - 1.

Definition has_proxy (a : gov_account) : bool := match proxy a with Some _ => true | None => false end.
(** A proxy is stored as an id, and the id that stands for none, [account_id_type()], is 0,
    which is also the id of the first account. *)
Definition proxy_ref (name : string) (b : gov_account) : option string := if acc_id b =? 0 then None else Some name.

(** Pairs in the order of a composite key. *)
Definition vote_before (x y : string * string) : bool :=
  String.ltb x.1 y.1 || (bool_decide (x.1 = y.1) && String.ltb x.2 y.2).
Fixpoint insert_vote (v : string * string) (l : list (string * string)) : list (string * string) :=
  match l with
  | [] => [v]
  | x :: l' => if vote_before v x then v :: l else x :: insert_vote v l'
  end.

(** The witnesses an account votes for. *)
Definition votes_of (s : gov) (name : string) : list string :=
  snd <$> filter (fun v => v.1 = name) (witness_votes s).

(** ** Voting power *)

Section power.
Context `{L : FcLib}.

(** Stake that is still delayed does not vote. *)
Definition get_direct_governance_vote_power (a : gov_account) : result Z :=
  _ ← check (sum_delayed_votes a <=? vesting_shares a) AssertFc;
  safe_sub (vesting_shares a) (sum_delayed_votes a).

Definition get_governance_vote_power (a : gov_account) : result Z :=
  d ← get_direct_governance_vote_power a;
  foldM safe_add d (proxied_vsf_votes a).

Definition max_depth : nat := Z.to_nat HIVE_MAX_PROXY_RECURSION_DEPTH.

(** [proxied_vsf_votes[ i + depth ] += delta[ i ]], for as many levels as fit. *)
Definition add_levels (depth : nat) (delta votes : list Z) : result (list Z) :=
  upper ← mapR (fun p => safe_add p.1 p.2) (zip (drop depth votes) delta);
  Ok (take depth votes ++ upper).

(** The array version; [left] is what remains of the recursion depth. *)
Fixpoint adjust_proxied_levels (left : nat) (name : string) (delta : list Z) (s : gov) : result gov :=
  a ← get_account name s;
  match proxy a with
  | Some p =>
      match left with
      | O => Ok s
      | S left' =>
          b ← get_account p s;
          votes ← add_levels (max_depth - left) delta (proxied_vsf_votes b);
          adjust_proxied_levels left' p delta (modify_account p (set_proxied votes) s)
      end
  | None =>
      total ← foldM safe_add 0 (reverse (take (S left) delta));
      c ← adjust_witness_votes (votes_of s name) total (sched s);
      Ok (set_sched c s)
  end.

(** The version for a change of the account's own stake. *)
Fixpoint adjust_proxied_stake (left : nat) (name : string) (delta : Z) (s : gov) : result gov :=
  a ← get_account name s;
  match proxy a with
  | Some p =>
      match left with
      | O => Ok s
      | S left' =>
          b ← get_account p s;
          v ← safe_add (nth (max_depth - left) (proxied_vsf_votes b) 0) delta;
          adjust_proxied_stake left' p delta (modify_account p (set_proxied (<[(max_depth - left)%nat := v]> (proxied_vsf_votes b))) s)
      end
  | None =>
      c ← adjust_witness_votes (votes_of s name) delta (sched s);
      Ok (set_sched c s)
  end.

Definition adjust_proxied_witness_votes (name : string) (delta : list Z) (s : gov) : result gov :=
  adjust_proxied_levels max_depth name delta s.
Definition adjust_proxied_witness_votes_by (name : string) (delta : Z) (s : gov) : result gov :=
  adjust_proxied_stake max_depth name delta s.

(** What an account passes on to its proxy, level by level. *)
Definition passed_on (a : gov_account) : result (list Z) :=
  d ← get_direct_governance_vote_power a;
  Ok (d :: proxied_vsf_votes a).

Definition nullify_proxied_witness_votes (name : string) (s : gov) : result gov :=
  a ← get_account name s;
  l ← passed_on a;
  delta ← mapR safe_neg l;
  adjust_proxied_witness_votes name delta s.

Definition clear_witness_votes (name : string) (s : gov) : gov :=
  modify_account name (set_voted_for 0) (set_votes (filter (fun v => v.1 <> name) (witness_votes s)) s).

(** ** The retally *)

Definition reset_votes (c : chain) : chain :=
  set_witnesses ((fun w => set_virtual 0 0 (virtual_last_update w) (virtual_scheduled_time w) w) <$> witnesses c) c.

Definition retally_account (s : gov) (c : chain) (name : string) : result chain :=
  a ← get_account name s;
  if has_proxy a then Ok c
  else foldM (fun c w => p ← get_governance_vote_power a; adjust_witness_vote w p c) c (votes_of s name).

(** [retally_witness_votes]: all accounts in the order of their index. *)
Definition retally_witness_votes (order : list string) (s : gov) : result gov :=
  c ← foldM (retally_account s) (reset_votes (sched s)) order;
  Ok (set_sched c s).

(** ** Evaluators *)

Definition first_expiration : Z := u32 (1625061600 + HIVE_GOVERNANCE_VOTE_EXPIRATION_PERIOD).

Definition update_governance_vote_expiration_ts (t : Z) (a : gov_account) : gov_account :=
  let e := u32 (t + HIVE_GOVERNANCE_VOTE_EXPIRATION_PERIOD) in
  set_expiration (if e <? first_expiration
                  then u32 (first_expiration + e mod (HIVE_GOVERNANCE_VOTE_EXPIRATION_PERIOD / 2)) else e) a.

(** The walk up from the new proxy.  Every round adds a name to the chain, so the
    limit ends it; [rounds] is never used up before. *)
Fixpoint check_proxy_chain (rounds : nat) (proxy_chain : gset string) (cprox : string) (s : gov) : result unit :=
  a ← get_account cprox s;
  match proxy a, rounds with
  | None, _ => Ok tt
  | Some _, O => Throw AssertLimit
  | Some next, S rounds =>
      _ ← get_account next s;
      _ ← check (negb (bool_decide (next ∈ proxy_chain))) AssertState;
      let proxy_chain := {[ next ]} ∪ proxy_chain in
      _ ← check (Z.of_nat (base.size proxy_chain) <=? HIVE_MAX_PROXY_RECURSION_DEPTH) AssertLimit;
      check_proxy_chain rounds proxy_chain next s
  end.

Definition push_cleared (name : string) (a : gov_account) (s : gov) : gov :=
  match proxy a with Some p => push_vop (proxy_cleared_operation name p) s | None => s end.

Definition account_witness_proxy (account proxy_name : string) (s : gov) : result gov :=
  _ ← assert_not_pixa_ico account;
  a ← get_account account s;
  _ ← check (can_vote a) AssertVoting;
  let s := modify_account account (update_governance_vote_expiration_ts (now s)) s in
  s ← nullify_proxied_witness_votes account s;
  if negb (bool_decide (proxy_name = HIVE_PROXY_TO_SELF_ACCOUNT)) then
    new_proxy ← get_account proxy_name s;
    _ ← check (negb (bool_decide (proxy a = proxy_ref proxy_name new_proxy))) AssertState;
    _ ← check_proxy_chain (S max_depth) {[ account; proxy_name ]} proxy_name s;
    let s := push_cleared account a (clear_witness_votes account s) in
    _ ← check (negb (bool_decide (proxy_name = account))) AssertFc;
    let s := modify_account account (set_proxy (proxy_ref proxy_name new_proxy)) s in
    a ← get_account account s;
    delta ← passed_on a;
    adjust_proxied_witness_votes account delta s
  else
    _ ← check (has_proxy a) AssertState;
    Ok (modify_account account (set_proxy None) (push_cleared account a s)).

Definition account_witness_vote (account witness : string) (approve : bool) (s : gov) : result gov :=
  _ ← assert_not_pixa_ico account;
  a ← get_account account s;
  _ ← check (negb (has_proxy a)) AssertState;
  _ ← check (can_vote a) AssertVoting;
  let s := modify_account account (update_governance_vote_expiration_ts (now s)) s in
  w ← get_witness witness (witnesses (sched s));
  let v := (account, owner w) in
  if negb (bool_decide (v ∈ witness_votes s)) then
    _ ← check approve AssertState;
    _ ← check (witnesses_voted_for a <? HIVE_MAX_ACCOUNT_WITNESS_VOTES) AssertLimit;
    let s := set_votes (insert_vote v (witness_votes s)) s in
    p ← get_governance_vote_power a;
    c ← adjust_witness_vote (owner w) p (sched s);
    Ok (modify_account account (set_voted_for (u16 (witnesses_voted_for a + 1))) (set_sched c s))
  else
    _ ← check (negb approve) AssertState;
    p ← get_governance_vote_power a;
    n ← safe_neg p;
    c ← adjust_witness_vote (owner w) n (sched s);
    let s := modify_account account (set_voted_for (u16 (witnesses_voted_for a - 1))) (set_sched c s) in
    Ok (set_votes (filter (fun x => x <> v) (witness_votes s)) s).

Definition request_before (x y : Z * string) : bool := (x.1 <? y.1) || ((x.1 =? y.1) && String.ltb x.2 y.2).
Fixpoint insert_request (r : Z * string) (l : list (Z * string)) : list (Z * string) :=
  match l with
  | [] => [r]
  | x :: l' => if request_before r x then r :: l else x :: insert_request r l'
  end.

Definition decline_voting_rights (account : string) (decline : bool) (s : gov) : result gov :=
  a ← get_account account s;
  _ ← check (can_vote a) AssertVoting;
  let requested := bool_decide (account ∈ snd <$> decline_requests s) in
  if decline then
    _ ← check (negb requested) AssertState;
    Ok (set_requests (insert_request (u32 (now s + HIVE_OWNER_AUTH_RECOVERY_PERIOD), account) (decline_requests s)) s)
  else
    _ ← check requested AssertState;
    Ok (set_requests (filter (fun r => r.2 <> account) (decline_requests s)) s).

(** ** Removing votes, in portions *)

(** The index without the votes removed, whether all of the voter's were, and the
    limit left. *)
Fixpoint remove_proposal_votes (voter : string) (limit : Z) (l : list (string * Z)) : list (string * Z) * bool * Z :=
  match l with
  | [] => ([], true, limit)
  | v :: l' =>
      if bool_decide (v.1 = voter) then
        let '(ok, limit) := guard_step limit in
        if ok then remove_proposal_votes voter limit l' else (l, false, limit)
      else let '(l', done, limit) := remove_proposal_votes voter limit l' in (v :: l', done, limit)
  end.

Definition drop_votes (name : string) (s : gov) : result gov :=
  s ← nullify_proxied_witness_votes name s;
  Ok (clear_witness_votes name s).

(** The accounts by the time their votes expire. *)
Definition expires_le (x y : string * gov_account) : Prop :=
  governance_vote_expiration_ts x.2 < governance_vote_expiration_ts y.2 \/
  (governance_vote_expiration_ts x.2 = governance_vote_expiration_ts y.2 /\ acc_id x.2 <= acc_id y.2).
#[global] Instance expires_le_dec : RelDecision expires_le.
Proof. intros x y. unfold expires_le. apply _. Defined.
Definition by_expiration (s : gov) : list string :=
  fst <$> filter (fun x => governance_vote_expiration_ts x.2 <= now s) (merge_sort expires_le (map_to_list (accounts s))).

Fixpoint expire_votes (limit : Z) (due : list string) (s : gov) : result gov :=
  match due with
  | [] => Ok s
  | name :: due =>
      a ← get_account name s;
      let '(l, all, limit) := remove_proposal_votes name limit (proposal_votes s) in
      let s := set_proposal_votes l s in
      if all then
        s ← drop_votes name s;
        let s := push_cleared name a s in
        let s := modify_account name (fun a => set_expiration max_time (set_proxy None a)) s in
        expire_votes limit due (push_vop (expired_account_notification_operation name) s)
      else Ok s
  end.

(** The account that expires next is the first one visited: the visited account
    moves to the end of the index, the others keep their places. *)
Definition remove_expired_governance_votes (s : gov) : result gov :=
  expire_votes (remove_threshold s) (by_expiration s) s.

Fixpoint decline_due (limit : Z) (requests : list (Z * string)) (s : gov) : result gov :=
  match requests with
  | [] => Ok s
  | (date, name) :: requests =>
      if date <=? now s then
        a ← get_account name s;
        let '(l, all, limit) := remove_proposal_votes name limit (proposal_votes s) in
        let s := set_proposal_votes l s in
        if all then
          s ← drop_votes name s;
          let s := push_vop (declined_voting_rights_operation name) (push_cleared name a s) in
          let s := modify_account name (fun a => set_proxy None (set_can_vote false a)) s in
          decline_due limit requests (set_requests requests s)
        else Ok s
      else Ok s
  end.

Definition process_decline_voting_rights (s : gov) : result gov :=
  decline_due (remove_threshold s) (decline_requests s) s.
End power.

(** ** Levels of proxies *)

(** One if the statement holds, else zero. *)
Definition ind (P : Prop) `{Decision P} : Z := if decide P then 1 else 0.

Lemma ind_true (P : Prop) `{Decision P} : P -> ind P = 1.
Proof. intros. unfold ind. by rewrite decide_True. Qed.
Lemma ind_false (P : Prop) `{Decision P} : ~ P -> ind P = 0.
Proof. intros. unfold ind. by rewrite decide_False. Qed.
Lemma ind_ext (P Q : Prop) `{Decision P, Decision Q} : (P <-> Q) -> ind P = ind Q.
Proof. intros. unfold ind. destruct (decide P), (decide Q); tauto. Qed.
Lemma ind_range (P : Prop) `{Decision P} : 0 <= ind P <= 1.
Proof. unfold ind. destruct (decide P); lia. Qed.

Section sums.
Context {A : Type}.
Implicit Types (f g : A -> Z) (l : list A).

Lemma sumZ_pick `{EqDecision A} f l x : NoDup l -> sumZ (fun y => ind (y = x) * f y) l = ind (x ∈ l) * f x.
Proof.
  induction 1 as [|y l Hy Hl IH]; [cbn; rewrite ind_false by set_solver; lia|]. rewrite sumZ_cons, IH. destruct (decide (y = x)) as [->|Hne].
  - rewrite (ind_true (x = x)), (ind_true (x ∈ x :: l)), (ind_false (x ∈ l)) by (done || set_solver). lia.
  - rewrite (ind_false (y = x)), (ind_ext (x ∈ y :: l) (x ∈ l)) by (done || set_solver). lia.
Qed.
End sums.
(** [Σ_{k < n} f k] *)
Definition sumN (n : nat) (f : nat -> Z) : Z := sumZ f (seq 0 n).
Lemma sumN_S n f : sumN (S n) f = sumN n f + f n.
Proof. unfold sumN. rewrite seq_S, sumZ_app, sumZ_cons. cbn. lia. Qed.
Lemma sumN_S_l n f : sumN (S n) f = f 0%nat + sumN n (fun k => f (S k)).
Proof. unfold sumN. rewrite <- cons_seq, sumZ_cons, <- fmap_S_seq, sumZ_fmap. done. Qed.
Lemma sumN_ext n f g : (forall k, (k < n)%nat -> f k = g k) -> sumN n f = sumN n g.
Proof. intros H. apply sumZ_ext. intros k Hk. apply H. apply elem_of_seq in Hk. lia. Qed.
Lemma sumN_zero n f : (forall k, (k < n)%nat -> f k = 0) -> sumN n f = 0.
Proof. intros H. apply sumZ_zero. intros k Hk. apply H. apply elem_of_seq in Hk. lia. Qed.

Section levels.
Implicit Types (px : string -> option string) (dir : string -> Z).

(** The account [j] proxies above. *)
Fixpoint anc px (j : nat) (b : string) : option string :=
  match j with
  | O => Some b
  | S j => match px b with Some p => anc px j p | None => None end
  end.

Definition acyclic px : Prop := forall n a, anc px (S n) a <> Some a.
Definition cut px (a : string) : string -> option string := fun b => if decide (b = a) then None else px b.
Definition link px (a p : string) : string -> option string := fun b => if decide (b = a) then Some p else px b.

(** The stake that reaches [t] over exactly [j] proxies. *)
Definition level (ns : list string) px dir (j : nat) (t : string) : Z := sumZ (fun b => ind (anc px j b = Some t) * dir b) ns.

Lemma anc_add px i j b c : anc px i b = Some c -> anc px (i + j) b = anc px j c.
Proof. revert b. induction i as [|i IH]; intros b H; cbn in *; [by injection H as ->|]. destruct (px b); [by apply IH|done]. Qed.

Lemma acyclic_inj px i j a c : acyclic px -> anc px i a = Some c -> anc px j a = Some c -> i = j.
Proof.
  intros Hac. assert (forall i j, (i < j)%nat -> anc px i a = Some c -> anc px j a = Some c -> False) as H.
  { intros i' j' Hlt Hi Hj. apply (Hac (j' - i' - 1)%nat c). rewrite <- Hj, <- (anc_add px i' _ a c Hi). f_equal. lia. }
  intros Hi Hj. destruct (lt_eq_lt_dec i j) as [[Hlt|]|Hlt]; [exfalso; eauto|done|exfalso; eauto].
Qed.

Lemma anc_cut_le px a j b c : anc (cut px a) j b = Some c -> anc px j b = Some c.
Proof. revert b. induction j as [|j IH]; intros b; cbn; [done|]. unfold cut at 1. destruct (decide (b = a)); [done|]. destruct (px b); [apply IH|done]. Qed.

Lemma cut_acyclic px a : acyclic px -> acyclic (cut px a).
Proof. intros H n b Hb. apply (H n b). by eapply anc_cut_le. Qed.

(** Paths to [t] without the proxy of [a]: those that do not pass [a] before. *)
Lemma anc_cut px a j b t : acyclic px ->
  ind (anc (cut px a) j b = Some t) =
  ind (anc px j b = Some t) - sumN j (fun k => ind (anc px (j - S k) b = Some a) * ind (anc px (S k) a = Some t)).
Proof.
  intros Hac. revert b. induction j as [|j IH]; intros b; [cbn; lia|]. destruct (decide (b = a)) as [->|Hne].
  - rewrite (ind_false (anc (cut px a) (S j) a = _)) by (cbn; unfold cut at 1; rewrite decide_True; done).
    rewrite sumN_S, Nat.sub_diag, (ind_true (anc px 0 a = Some a)) by done. rewrite sumN_zero; [lia|].
    intros k Hk. rewrite (ind_false (anc px (S j - S k) a = Some a)); [lia|].
    replace (S j - S k)%nat with (S (j - k - 1)) by lia. apply Hac.
  - rewrite sumN_S, Nat.sub_diag, (ind_false (anc px 0 b = Some a)) by (cbn; congruence).
    assert (anc (cut px a) (S j) b = match px b with Some p => anc (cut px a) j p | None => None end) as ->
      by (cbn; unfold cut at 1; by rewrite decide_False).
    assert (anc px (S j) b = match px b with Some p => anc px j p | None => None end) as -> by done.
    destruct (px b) as [p|] eqn:Ep.
    + rewrite IH. assert (forall k, (k < j)%nat -> anc px (S j - S k) b = anc px (j - S k) p) as Hk.
      { intros k Hk. replace (S j - S k)%nat with (S (j - S k)) by lia. cbn. by rewrite Ep. }
      rewrite (sumN_ext j (fun k => ind (anc px (S j - S k) b = Some a) * ind (anc px (S k) a = Some t)) (fun k => ind (anc px (j - S k) p = Some a) * ind (anc px (S k) a = Some t))); [lia|].
      intros k Hk'. by rewrite Hk.
    + rewrite !ind_false by done. rewrite sumN_zero; [lia|]. intros k Hk.
      replace (S j - S k)%nat with (S (j - S k)) by lia. cbn. rewrite Ep, ind_false by done. lia.
Qed.

Lemma level_cut ns px dir a j t : acyclic px ->
  level ns (cut px a) dir j t = level ns px dir j t - sumN j (fun k => ind (anc px (S k) a = Some t) * level ns px dir (j - S k) a).
Proof.
  intros Hac. unfold level. rewrite (sumZ_ext _ (fun b => ind (anc px j b = Some t) * dir b +
    -1 * sumN j (fun k => ind (anc px (S k) a = Some t) * (ind (anc px (j - S k) b = Some a) * dir b)))).
  - rewrite sumZ_add, sumZ_scale. unfold sumN. rewrite sumZ_swap.
    rewrite (sumZ_ext _ (fun k => ind (anc px (S k) a = Some t) * sumZ (fun b => ind (anc px (j - S k) b = Some a) * dir b) ns)); [lia|].
    intros k _. by rewrite sumZ_scale.
  - intros b _. rewrite anc_cut by done. unfold sumN. rewrite Z.mul_sub_distr_r. rewrite <- Z.mul_1_l at 1.
    rewrite (sumZ_ext (fun k => ind (anc px (S k) a = Some t) * _) (fun k => dir b * (ind (anc px (j - S k) b = Some a) * ind (anc px (S k) a = Some t))))
      by (intros; lia). rewrite sumZ_scale. lia.
Qed.

Lemma level_ext ns px px' dir dir' j t : (forall b, px b = px' b) -> (forall b, b ∈ ns -> dir b = dir' b) -> level ns px dir j t = level ns px' dir' j t.
Proof.
  intros Hp Hd. apply sumZ_ext. intros b Hb. rewrite (Hd b Hb). f_equal. apply ind_ext.
  assert (forall j b, anc px j b = anc px' j b) as ->; [|done].
  clear Hb b. intros i. induction i as [|i IH]; intros b; [done|]. cbn. rewrite Hp. by destruct (px' b).
Qed.

(** A change of one account's own stake. *)
Lemma level_stake ns px dir a delta j t : NoDup ns -> a ∈ ns ->
  level ns px (fun b => dir b + ind (b = a) * delta) j t = level ns px dir j t + ind (anc px j a = Some t) * delta.
Proof.
  intros Hn Ha. unfold level. rewrite (sumZ_ext _ (fun b => ind (anc px j b = Some t) * dir b + ind (b = a) * (ind (anc px j b = Some t) * delta))) by (intros; lia).
  rewrite sumZ_add, sumZ_pick by done. rewrite (ind_true (a ∈ ns)) by done. lia.
Qed.

(** The proxy of [a] does not change what reaches [a]. *)
Lemma level_cut_self ns px dir a j : acyclic px -> level ns (cut px a) dir j a = level ns px dir j a.
Proof.
  intros Hac. rewrite level_cut by done. rewrite sumN_zero; [lia|]. intros k _. rewrite ind_false; [lia|]. apply Hac.
Qed.

Lemma level_0 ns px dir t : NoDup ns -> t ∈ ns -> level ns px dir 0 t = dir t.
Proof.
  intros Hn Ht. unfold level. rewrite (sumZ_ext _ (fun b => ind (b = t) * dir b)) by (intros; f_equal; apply ind_ext; cbn; naive_solver).
  rewrite sumZ_pick by done. rewrite ind_true by done. lia.
Qed.

Lemma level_nonneg ns px dir j t : (forall b, b ∈ ns -> 0 <= dir b) -> 0 <= level ns px dir j t.
Proof. intros H. apply sumZ_nonneg, Forall_forall. intros b Hb. specialize (H b Hb). pose proof (ind_range (anc px j b = Some t)). nia. Qed.
End levels.

(** ** Tallies of the witnesses *)

Section tallies.
Context `{L : FcLib} `{!FcLaws L}.

Definition tally (c : chain) (w : string) : Z := match find_witness w (witnesses c) with Some x => votes x | None => 0 end.
Definition is_witness (c : chain) (w : string) : Prop := w ∈ owner <$> witnesses c.

Record witnesses_ok (c : chain) : Prop := {
  wo_ids : NoDup (wit_id <$> witnesses c);
  wo_owners : NoDup (owner <$> witnesses c)
}.

(** Only the votes and the virtual clocks may differ. *)
Definition same_witnesses (c c' : chain) : Prop :=
  exists ws, c' = set_witnesses ws c /\ owner <$> ws = owner <$> witnesses c /\ wit_id <$> ws = wit_id <$> witnesses c.

#[global] Instance same_witnesses_preorder : PreOrder same_witnesses.
Proof.
  split; [intros c; exists (witnesses c); by destruct c|]. intros c1 c2 c3 (w1 & -> & E1 & F1) (w2 & -> & E2 & F2). exists w2. cbn in *.
  split_and!; [done|congruence|congruence].
Qed.
Lemma same_witnesses_ok c c' : same_witnesses c c' -> witnesses_ok c -> witnesses_ok c'.
Proof. intros (ws & -> & E & F) [H1 H2]. constructor; cbn; by rewrite ?E, ?F. Qed.
Lemma same_witnesses_is c c' w : same_witnesses c c' -> is_witness c' w <-> is_witness c w.
Proof. intros (ws & -> & E & F). unfold is_witness. cbn. by rewrite E. Qed.
Lemma same_witnesses_frame c c' : same_witnesses c c' -> total_vesting_shares c' = total_vesting_shares c /\ head_block_time c' = head_block_time c.
Proof. by intros (ws & -> & _). Qed.

Lemma find_witness_unique c w : witnesses_ok c -> w ∈ witnesses c -> find_witness (owner w) (witnesses c) = Some w.
Proof.
  intros [_ Ho]. unfold find_witness. revert Ho. induction (witnesses c) as [|x l IH]; intros Ho Hw; [by apply elem_of_nil in Hw|].
  cbn in *. apply NoDup_cons in Ho as [Hx Ho]. destruct (bool_decide (owner x = owner w)) eqn:E; to_prop.
  - apply elem_of_cons in Hw as [->|Hw]; [done|]. exfalso. apply Hx. rewrite E. apply list_elem_of_fmap. by exists w.
  - apply elem_of_cons in Hw as [->|Hw]; [done|]. by apply IH.
Qed.

Lemma find_after f i n l : (forall w, owner (f w) = owner w) ->
  find_witness n (modify_witness i f l) = option_map (fun w => if wit_id w =? i then f w else w) (find_witness n l).
Proof.
  intros Hf. unfold find_witness, modify_witness. induction l as [|x l IH]; [done|]. cbn.
  assert (owner (if wit_id x =? i then f x else x) = owner x) as -> by (destruct (_ =? _); [apply Hf|done]).
  by destruct (bool_decide (owner x = n)).
Qed.

Lemma adjust_vote_spec name delta c : witnesses_ok c -> is_witness c name -> in_s 64 (tally c name) -> in_s 64 delta ->
  in_s 64 (tally c name + delta) -> tally c name + delta <= total_vesting_shares c ->
  exists c', adjust_witness_vote name delta c = Ok c' /\ same_witnesses c c' /\ forall n, tally c' n = tally c n + ind (n = name) * delta.
Proof.
  intros W Hw Hv Hd Hs Hle. apply list_elem_of_fmap in Hw as (w & -> & Hw). pose proof (find_witness_unique c w W Hw) as E.
  assert (tally c (owner w) = votes w) as T by (unfold tally; by rewrite E). rewrite T in *.
  unfold adjust_witness_vote, get_witness. rewrite E. cbn [mbind result_bind]. rewrite safe_add_exact by done. cbn [mbind result_bind].
  unfold check. rewrite (proj2 (Z.leb_le _ _)) by done. cbn [mbind result_bind]. eexists. split; [done|]. split.
  - eexists. split; [done|]. unfold modify_witness. split; rewrite <- list_fmap_compose; apply list_fmap_ext; intros i x _; cbn; by destruct (_ =? _).
  - intros n. unfold tally. cbn [witnesses set_witnesses]. rewrite find_after by done. destruct (decide (n = owner w)) as [->|Hne].
    + rewrite E. cbn. rewrite Z.eqb_refl, ind_true by done. cbn. lia.
    + rewrite ind_false by done. destruct (find_witness n (witnesses c)) as [x|] eqn:Ex; [|cbn; lia]. cbn.
      apply find_witness_Some in Ex as [Hx Ho]. destruct (wit_id x =? wit_id w) eqn:Ei; [|lia]. to_prop.
      exfalso. apply Hne. rewrite <- Ho. f_equal. apply list_elem_of_lookup in Hx as [i Hi], Hw as [j Hj].
      assert (i = j) as <-; [|congruence]. eapply (NoDup_lookup _ i j (wit_id x) (wo_ids _ W)); rewrite list_lookup_fmap; [by rewrite Hi|rewrite Hj; cbn; congruence].
Qed.

Lemma adjust_votes_spec names delta c : witnesses_ok c -> NoDup names -> in_s 64 delta ->
  (forall n, n ∈ names -> is_witness c n /\ in_s 64 (tally c n) /\ in_s 64 (tally c n + delta) /\ tally c n + delta <= total_vesting_shares c) ->
  exists c', adjust_witness_votes names delta c = Ok c' /\ same_witnesses c c' /\ forall n, tally c' n = tally c n + ind (n ∈ names) * delta.
Proof.
  intros W Hn Hd. unfold adjust_witness_votes. revert c W. induction Hn as [|x names Hx Hn IH]; intros c W H.
  - exists c. split_and!; [done|done|]. intros n. rewrite ind_false by set_solver. lia.
  - destruct (H x ltac:(by left)) as (Hw & H1 & H2 & H3).
    destruct (adjust_vote_spec x delta c W Hw H1 Hd H2 H3) as (c1 & E1 & S1 & T1). cbn. rewrite E1.
    destruct (same_witnesses_frame _ _ S1) as [Etot _].
    destruct (IH c1) as (c2 & E2 & S2 & T2); [by eapply same_witnesses_ok| |].
    { intros n Hin. destruct (H n ltac:(by right)) as (Hw' & ?). rewrite (same_witnesses_is _ _ _ S1), T1, Etot.
      rewrite ind_false by (intros ->; done). rewrite Z.mul_0_l, Z.add_0_r. done. }
    exists c2. split_and!; [done|by etrans|]. intros n. rewrite T2, T1. destruct (decide (n = x)) as [->|Hne].
    + rewrite (ind_true (x = x)), (ind_false (x ∈ names)), (ind_true (x ∈ x :: names)) by (done || set_solver). lia.
    + rewrite (ind_false (n = x)), (ind_ext (n ∈ x :: names) (n ∈ names)) by (done || set_solver). lia.
Qed.
End tallies.

(** ** The books *)

Definition px (s : gov) (b : string) : option string := accounts s !! b ≫= proxy.
Definition dirp (s : gov) (b : string) : Z := match accounts s !! b with Some a => vesting_shares a - sum_delayed_votes a | None => 0 end.
Definition names (s : gov) : list string := elements (dom (accounts s)).

(** The recorded levels are [lv], and the witnesses have the votes of those who
    vote for them, weighed by [P]. *)
Record book (s : gov) (lv : nat -> string -> Z) (P : string -> Z) : Prop := {
  bk_lv x a j : accounts s !! x = Some a -> (j < max_depth)%nat -> nth j (proxied_vsf_votes a) 0 = lv (S j) x;
  bk_tally w : is_witness (sched s) w -> tally (sched s) w = sumZ (fun v => ind (v.2 = w) * P v.1) (witness_votes s)
}.

(** The structure the books rest on. *)
Record gov_wf (s : gov) : Prop := {
  gw_len x a : accounts s !! x = Some a -> length (proxied_vsf_votes a) = max_depth;
  gw_proxy x p : px s x = Some p -> is_Some (accounts s !! p);
  gw_acyclic : acyclic (px s);
  gw_nodup : NoDup (witness_votes s);
  gw_voters v : v ∈ witness_votes s -> is_Some (accounts s !! v.1) /\ px s v.1 = None /\ is_witness (sched s) v.2;
  gw_witnesses : witnesses_ok (sched s)
}.

(** Only levels and tallies change. *)
Record gov_frame (s s' : gov) : Prop := {
  gf_votes : witness_votes s' = witness_votes s;
  gf_pvotes : proposal_votes s' = proposal_votes s;
  gf_requests : decline_requests s' = decline_requests s;
  gf_threshold : remove_threshold s' = remove_threshold s;
  gf_vops : vops s' = vops s;
  gf_sched : same_witnesses (sched s) (sched s');
  gf_accounts x : option_map (set_proxied []) (accounts s' !! x) = option_map (set_proxied []) (accounts s !! x)
}.

#[global] Instance gov_frame_preorder : PreOrder gov_frame.
Proof.
  split; [by constructor|]. intros s1 s2 s3 [] []. constructor; try congruence. by etrans.
Qed.

Lemma gov_frame_account s s' x a : gov_frame s s' -> accounts s !! x = Some a ->
  exists v, accounts s' !! x = Some (set_proxied v a).
Proof.
  intros F Ha. pose proof (gf_accounts _ _ F x) as E. rewrite Ha in E. destruct (accounts s' !! x) as [b|]; [|done]. cbn in E.
  exists (proxied_vsf_votes b). f_equal. destruct a, b. cbn in *. injection E as -> -> -> -> -> -> ->. done.
Qed.
Lemma frame_lookup s s' x : gov_frame s s' -> is_Some (accounts s' !! x) <-> is_Some (accounts s !! x).
Proof.
  intros F. pose proof (gf_accounts _ _ F x) as E. destruct (accounts s !! x), (accounts s' !! x); try done; split; intros []; eauto.
Qed.
Lemma frame_None s s' x : gov_frame s s' -> accounts s !! x = None -> accounts s' !! x = None.
Proof. intros F E. pose proof (gf_accounts _ _ F x) as H. rewrite E in H. by destruct (accounts s' !! x). Qed.
Lemma frame_back s s' x a' : gov_frame s s' -> accounts s' !! x = Some a' -> exists a v, accounts s !! x = Some a /\ a' = set_proxied v a.
Proof.
  intros F E. destruct (accounts s !! x) as [a|] eqn:Ea; [|by rewrite (frame_None s s' x F Ea) in E].
  destruct (gov_frame_account s s' x a F Ea) as [v Hv]. rewrite E in Hv. injection Hv as ->. by exists a, v.
Qed.
Lemma frame_px s s' x : gov_frame s s' -> px s' x = px s x.
Proof.
  intros F. unfold px. destruct (accounts s !! x) as [a|] eqn:E; [by destruct (gov_frame_account s s' x a F E) as [v ->]|].
  by rewrite (frame_None s s' x F E).
Qed.
Lemma frame_dirp s s' x : gov_frame s s' -> dirp s' x = dirp s x.
Proof.
  intros F. unfold dirp. destruct (accounts s !! x) as [a|] eqn:E; [by destruct (gov_frame_account s s' x a F E) as [v ->]|].
  by rewrite (frame_None s s' x F E).
Qed.
Lemma frame_names s s' : gov_frame s s' -> names s' = names s.
Proof.
  intros F. unfold names. f_equal. apply leibniz_equiv. intros x. rewrite !elem_of_dom. by apply frame_lookup.
Qed.
Lemma anc_ext p p' j b : (forall x, p x = p' x) -> anc p j b = anc p' j b.
Proof. intros H. revert b. induction j as [|j IH]; intros b; [done|]. cbn. rewrite H. by destruct (p' b). Qed.
Lemma acyclic_ext p p' : (forall x, p x = p' x) -> acyclic p -> acyclic p'.
Proof. intros H Ha n a E. apply (Ha n a). by rewrite (anc_ext p p'). Qed.

Lemma frame_wf s s' : gov_frame s s' -> (forall x a, accounts s' !! x = Some a -> length (proxied_vsf_votes a) = max_depth) -> gov_wf s -> gov_wf s'.
Proof.
  intros F Hl [H1 H2 H3 H4 H5 H6]. constructor; [done| | | | |].
  - intros x p. rewrite (frame_px s s') by done. intros Hp. apply (frame_lookup s s'); [done|]. by eapply H2.
  - eapply acyclic_ext; [|done]. intros x. by rewrite (frame_px s s').
  - by rewrite (gf_votes _ _ F).
  - intros v. rewrite (gf_votes _ _ F), (frame_px s s'), (frame_lookup s s'), (same_witnesses_is _ _ _ (gf_sched _ _ F)) by done. apply H5.
  - eapply same_witnesses_ok; [apply F|done].
Qed.

Lemma votes_of_elem s name w : w ∈ votes_of s name <-> (name, w) ∈ witness_votes s.
Proof.
  unfold votes_of. rewrite list_elem_of_fmap. split.
  - intros ([n w'] & -> & H). apply list_elem_of_filter in H as [E H]. cbn in *. by subst.
  - intros H. exists (name, w). split; [done|]. by apply list_elem_of_filter.
Qed.
Lemma votes_of_NoDup s name : NoDup (witness_votes s) -> NoDup (votes_of s name).
Proof.
  intros H. unfold votes_of. apply NoDup_fmap_2_strong; [|by apply NoDup_filter].
  intros [n1 w1] [n2 w2] H1 H2 E. apply list_elem_of_filter in H1 as [E1 _], H2 as [E2 _]. cbn in *. congruence.
Qed.
Lemma book_ext s lv lv' P P' : book s lv P -> (forall j x, lv (S j) x = lv' (S j) x) -> (forall v, v ∈ witness_votes s -> P v.1 = P' v.1) -> book s lv' P'.
Proof.
  intros [H1 H2] El EP. constructor; [intros; rewrite <- El; by apply H1|]. intros w Hw. rewrite H2 by done.
  apply sumZ_ext. intros v Hv. by rewrite EP.
Qed.

Section adjusting.
Context `{L : FcLib} `{!FcLaws L}.

Definition shifted (depth : nat) (delta : list Z) (j : nat) : Z := if (depth <=? j)%nat then nth (j - depth) delta 0 else 0.

Lemma zip_add votes delta : (length votes <= length delta)%nat -> Forall (in_s 64) delta ->
  (forall j, (j < length votes)%nat -> in_s 64 (nth j votes 0) /\ in_s 64 (nth j votes 0 + nth j delta 0)) ->
  exists l, mapR (fun p => safe_add p.1 p.2) (zip votes delta) = Ok l /\ length l = length votes /\
    forall j, (j < length votes)%nat -> nth j l 0 = nth j votes 0 + nth j delta 0.
Proof.
  revert delta. induction votes as [|v votes IH]; intros [|d delta] Hl Hd H; try (cbn in Hl; lia).
  - exists []. split_and!; [done|done|]. intros j Hj. cbn in Hj. lia.
  - exists []. split_and!; [done|done|]. intros j Hj. cbn in Hj. lia.
  - apply Forall_cons in Hd as [Hd0 Hd]. destruct (H 0%nat ltac:(cbn; lia)) as [H1 H2]. cbn in H1, H2.
    destruct (IH delta) as (l & E & El & Hn); [cbn in Hl; lia|done|intros j Hj; apply (H (S j)); cbn; lia|].
    exists ((v + d) :: l). cbn. rewrite safe_add_exact, E by done. split_and!; [done|by rewrite El|].
    intros [|j] Hj; [done|]. apply Hn. lia.
Qed.

Lemma add_levels_spec depth delta votes : (depth <= length votes)%nat -> (length votes <= depth + length delta)%nat -> Forall (in_s 64) delta ->
  (forall j, (j < length votes)%nat -> in_s 64 (nth j votes 0) /\ in_s 64 (nth j votes 0 + shifted depth delta j)) ->
  exists l, add_levels depth delta votes = Ok l /\ length l = length votes /\
    forall j, (j < length votes)%nat -> nth j l 0 = nth j votes 0 + shifted depth delta j.
Proof.
  intros Hd Hl HF H. unfold add_levels.
  assert (forall j, (j < length (drop depth votes))%nat -> nth j (drop depth votes) 0 = nth (depth + j) votes 0) as Hdrop.
  { intros j _. rewrite !nth_lookup. by rewrite lookup_drop. }
  assert (forall j, shifted depth delta (depth + j) = nth j delta 0) as Hsh.
  { intros j. unfold shifted. rewrite (proj2 (Nat.leb_le _ _)) by lia. f_equal. lia. }
  destruct (zip_add (drop depth votes) delta) as (l & -> & El & Hn); [rewrite length_drop; lia|done| |].
  { intros j Hj. rewrite Hdrop by done. rewrite length_drop in Hj. rewrite <- Hsh. apply H. lia. }
  exists (take depth votes ++ l). cbn. rewrite length_drop in El. split_and!; [done|rewrite length_app, length_take; lia|].
  intros j Hj. destruct (decide (j < depth)%nat) as [Hlt|Hge].
  - rewrite app_nth1 by (rewrite length_take; lia). unfold shifted. rewrite (proj2 (Nat.leb_gt _ _)) by lia.
    rewrite !nth_lookup, lookup_take_lt by lia. lia.
  - rewrite app_nth2; rewrite length_take; [|lia]. rewrite Nat.min_l by lia.
    rewrite Hn, Hdrop by (rewrite length_drop; lia). rewrite <- Hsh. by replace (depth + (j - depth))%nat with j by lia.
Qed.

(** Deltas of one sign whose sum fits. *)
Definition small (delta : list Z) : Prop :=
  (Forall (fun d => 0 <= d) delta \/ Forall (fun d => d <= 0) delta) /\ - 2 ^ 63 < sumZ id delta < 2 ^ 63.

Lemma small_prefix (l1 l2 : list Z) : small (l1 ++ l2) -> small l1 /\ small l2.
Proof.
  intros [[H|H] Hs]; rewrite sumZ_app in Hs; apply Forall_app in H as [H1 H2].
  - pose proof (sumZ_nonneg id l1 H1). pose proof (sumZ_nonneg id l2 H2). unfold small. split; (split; [by left|lia]).
  - assert (forall l, Forall (fun d => d <= 0) l -> sumZ id l <= 0) as Hn by (intros l Hl; induction Hl; [done|]; rewrite sumZ_cons; unfold id in *; lia).
    pose proof (Hn l1 H1). pose proof (Hn l2 H2). unfold small. split; (split; [by right|lia]).
Qed.
Lemma small_in_s delta : small delta -> Forall (in_s 64) delta.
Proof.
  intros H. apply Forall_forall. intros d Hd. apply list_elem_of_split in Hd as (l1 & l2 & ->).
  apply small_prefix in H as [_ H]. apply (small_prefix [d] l2) in H as [[_ H] _]. unfold in_s. rewrite sumZ_cons in H. unfold id in H. cbn in H. lia.
Qed.
Lemma fold_small delta : small delta -> foldM safe_add 0 delta = Ok (sumZ id delta).
Proof.
  intros H. assert (forall l1 l2, delta = l1 ++ l2 -> foldM safe_add (sumZ id l1) l2 = Ok (sumZ id delta)) as Hg; [|by apply (Hg [])].
  intros l1 l2. revert l1. induction l2 as [|d l2 IH]; intros l1 E; [by rewrite E, app_nil_r|]. cbn.
  assert (delta = (l1 ++ [d]) ++ l2) as E' by (by rewrite E, <- app_assoc).
  pose proof H as Hs. rewrite E' in Hs. apply small_prefix in Hs as [Hs _]. pose proof (small_in_s _ Hs) as Hi.
  apply Forall_app in Hi as [_ Hi]. apply Forall_cons in Hi as [Hd _].
  pose proof (proj2 Hs) as Hb. pose proof (proj2 (proj1 (small_prefix _ _ Hs))) as Hb1.
  assert (sumZ id (l1 ++ [d]) = sumZ id l1 + d) as Es by (rewrite sumZ_app, sumZ_cons; unfold id; cbn; lia).
  rewrite Es in Hb. rewrite safe_add_exact by (unfold in_s; try done; lia). by rewrite <- (IH (l1 ++ [d]) E'), Es.
Qed.
Lemma small_reverse delta : small delta -> small (reverse delta).
Proof.
  intros [H Hs]. split; [destruct H as [H|H]; [left|right]; by apply Forall_reverse|].
  by rewrite (sumZ_perm id (reverse delta) delta) by apply reverse_Permutation.
Qed.
Definition prefix_sum (delta : list Z) (n : nat) : Z := sumZ id (take n delta).
Lemma fold_prefix delta n : small delta -> foldM safe_add 0 (reverse (take n delta)) = Ok (prefix_sum delta n).
Proof.
  intros H. rewrite <- (take_drop n delta) in H. apply small_prefix in H as [H _].
  rewrite fold_small by (by apply small_reverse). by rewrite (sumZ_perm id (reverse _) (take n delta)) by apply reverse_Permutation.
Qed.

(** A root adds the same weight to each witness it votes for. *)
Lemma root_weight s name w D : NoDup (witness_votes s) ->
  sumZ (fun v => ind (v.2 = w) * (ind (Some name = Some v.1) * D)) (witness_votes s) = ind (w ∈ votes_of s name) * D.
Proof.
  intros Hn. rewrite (sumZ_ext _ (fun v => ind (v = (name, w)) * D)).
  - rewrite (sumZ_pick (fun _ => D)) by done. f_equal. apply ind_ext. by rewrite votes_of_elem.
  - intros [n w'] _. cbn. destruct (decide (w' = w)) as [->|Hw], (decide (n = name)) as [->|Hne];
      rewrite ?(ind_true (w = w)), ?(ind_true (Some name = Some name)), ?(ind_true ((name, w) = (name, w))) by done; try lia.
    + rewrite (ind_false (Some name = Some n)), (ind_false ((n, w) = (name, w))) by congruence. lia.
    + rewrite (ind_false (w' = w)), (ind_false ((name, w') = (name, w))) by congruence. lia.
    + rewrite (ind_false (w' = w)), (ind_false ((n, w') = (name, w))) by congruence. lia.
Qed.

Definition level_delta (p : string -> option string) (name : string) (delta : list Z) (left : nat) (j : nat) (x : string) : Z :=
  sumN left (fun k => ind (anc p (S k) name = Some x) * shifted (max_depth - left + k) delta (j - 1)).
Definition power_delta (p : string -> option string) (name : string) (delta : list Z) (left : nat) (x : string) : Z :=
  sumN (S left) (fun k => ind (anc p k name = Some x) * prefix_sum delta (S left - k)).

Lemma level_delta_root p name delta left j x : p name = None -> level_delta p name delta left j x = 0.
Proof. intros E. apply sumN_zero. intros k _. cbn [anc]. rewrite E, ind_false by done. lia. Qed.
Lemma power_delta_root p name delta left x : p name = None ->
  power_delta p name delta left x = ind (Some name = Some x) * prefix_sum delta (S left).
Proof.
  intros E. unfold power_delta. rewrite sumN_S_l. cbn [anc Nat.sub]. rewrite sumN_zero; [lia|].
  intros k _. rewrite E, ind_false by done. lia.
Qed.
Lemma level_delta_step p name q delta left j x : p name = Some q -> (S left <= max_depth)%nat ->
  level_delta p name delta (S left) j x =
  ind (Some q = Some x) * shifted (max_depth - S left) delta (j - 1) + level_delta p q delta left j x.
Proof.
  intros E Hle. unfold level_delta. rewrite sumN_S_l. cbn [anc]. rewrite E, Nat.add_0_r. f_equal. apply sumN_ext. intros k _.
  do 2 f_equal. lia.
Qed.
Lemma power_delta_step p name q delta left x : p name = Some q ->
  power_delta p name delta (S left) x = ind (Some name = Some x) * prefix_sum delta (S (S left)) + power_delta p q delta left x.
Proof. intros E. unfold power_delta at 1. rewrite sumN_S_l. cbn [anc Nat.sub]. rewrite E. done. Qed.

Lemma level_delta_px p p' name delta left j x : (forall b, p b = p' b) -> level_delta p name delta left j x = level_delta p' name delta left j x.
Proof. intros H. apply sumN_ext. intros k _. by rewrite (anc_ext p p'). Qed.
Lemma power_delta_px p p' name delta left x : (forall b, p b = p' b) -> power_delta p name delta left x = power_delta p' name delta left x.
Proof. intros H. apply sumN_ext. intros k _. by rewrite (anc_ext p p'). Qed.

Lemma adjust_root left name delta s lv P : gov_wf s -> book s lv P -> px s name = None -> is_Some (accounts s !! name) -> small delta ->
  (forall w, is_witness (sched s) w -> in_s 64 (tally (sched s) w) /\
     let t := sumZ (fun v => ind (v.2 = w) * (P v.1 + power_delta (px s) name delta left v.1)) (witness_votes s) in
     in_s 64 t /\ t <= total_vesting_shares (sched s)) ->
  exists s', adjust_proxied_levels left name delta s = Ok s' /\ gov_frame s s' /\ accounts s' = accounts s /\
    book s' lv (fun x => P x + power_delta (px s) name delta left x).
Proof.
  intros W B Hp [a Ha] Hd HR. set (D := prefix_sum delta (S left)).
  assert (forall w, sumZ (fun v => ind (v.2 = w) * (P v.1 + power_delta (px s) name delta left v.1)) (witness_votes s) =
    sumZ (fun v => ind (v.2 = w) * P v.1) (witness_votes s) + ind (w ∈ votes_of s name) * D) as Ht.
  { intros w. rewrite <- root_weight, <- sumZ_add by apply W. apply sumZ_ext. intros v _. rewrite power_delta_root by done. unfold D. lia. }
  assert (in_s 64 D) as HD.
  { pose proof Hd as H. rewrite <- (take_drop (S left) delta) in H. apply small_prefix in H as [[_ H] _]. unfold D, prefix_sum, in_s. lia. }
  destruct (adjust_votes_spec (votes_of s name) D (sched s)) as (c & E & S & T); [apply W|apply votes_of_NoDup, W|done| |].
  { intros w Hw. pose proof Hw as Hin. apply votes_of_elem in Hin. destruct (gw_voters _ W _ Hin) as (_ & _ & Hwit). cbn in Hwit.
    destruct (HR w Hwit) as [H1 H2]. cbv zeta in H2. rewrite Ht, <- (bk_tally _ _ _ B), ind_true, Z.mul_1_l in H2 by done. tauto. }
  exists (set_sched c s). split_and!; [|by constructor|done|].
  - unfold px in Hp. rewrite Ha in Hp. cbn in Hp. destruct left; cbn; unfold get_account; rewrite Ha; cbn; rewrite Hp, fold_prefix by done; cbn;
      fold D; by rewrite E.
  - constructor; [apply B|]. cbn. intros w Hw. rewrite T, (bk_tally _ _ _ B) by (by apply (same_witnesses_is _ _ _ S)). symmetry. apply Ht.
Qed.

Lemma get_account_Some s x a : accounts s !! x = Some a -> get_account x s = Ok a.
Proof. intros E. unfold get_account. by rewrite E. Qed.

Lemma modify_account_frame s p a votes : accounts s !! p = Some a -> gov_frame s (modify_account p (set_proxied votes) s).
Proof.
  intros Ha. constructor; try done. intros x. cbn. destruct (decide (x = p)) as [->|Hne]; [by rewrite lookup_alter_eq, Ha|by rewrite lookup_alter_ne].
Qed.

(** Both tallies and levels follow a change that is passed up from [name]. *)
Lemma adjust_levels_spec left name delta s lv P : gov_wf s -> book s lv P -> is_Some (accounts s !! name) -> small delta ->
  length delta = S max_depth -> (left <= max_depth)%nat ->
  (forall j x, (j < max_depth)%nat -> in_s 64 (lv (S j) x) /\ in_s 64 (lv (S j) x + level_delta (px s) name delta left (S j) x)) ->
  (forall w, is_witness (sched s) w -> in_s 64 (tally (sched s) w) /\
     let t := sumZ (fun v => ind (v.2 = w) * (P v.1 + power_delta (px s) name delta left v.1)) (witness_votes s) in
     in_s 64 t /\ t <= total_vesting_shares (sched s)) ->
  exists s', adjust_proxied_levels left name delta s = Ok s' /\ gov_frame s s' /\ gov_wf s' /\
    book s' (fun j x => lv j x + level_delta (px s) name delta left j x) (fun x => P x + power_delta (px s) name delta left x).
Proof.
  intros W B Hname Hd Hlen Hle HL HT. revert name s lv P W B Hname Hle HL HT.
  induction left as [|left IH]; intros name s lv P W B [a Ha] Hle HL HT; destruct (px s name) as [p|] eqn:Ep.
  - exists s. split_and!; [|done|done|].
    { cbn. unfold get_account. rewrite Ha. cbn. unfold px in Ep. rewrite Ha in Ep. cbn in Ep. by rewrite Ep. }
    eapply book_ext; [done|intros; unfold level_delta; cbn; lia|]. intros v Hv. unfold power_delta. rewrite sumN_S_l.
    destruct (gw_voters _ W v Hv) as (_ & Hr & _). rewrite (ind_false (anc (px s) 0 name = Some v.1)) by (cbn; congruence). cbn. lia.
  - destruct (adjust_root 0 name delta s lv P) as (s' & E & F & Ea & B'); [done|done|done|by eexists|done|done|].
    exists s'. split_and!; [done|done|eapply frame_wf; [done| |done]; rewrite Ea; apply W|].
    eapply book_ext; [done|intros; rewrite level_delta_root by done; lia|done].
  - destruct (gw_proxy _ W name p Ep) as [b Hb]. set (depth := (max_depth - S left)%nat).
    set (lv1 := fun j x => lv j x + ind (Some p = Some x) * shifted depth delta (j - 1)).
    assert (forall j x, lv j x + level_delta (px s) name delta (S left) j x = lv1 j x + level_delta (px s) p delta left j x) as Hstep
      by (intros j x; rewrite (level_delta_step _ _ p) by done; unfold lv1, depth; lia).
    assert (forall j, level_delta (px s) p delta left j p = 0) as Hself.
    { intros j. apply sumN_zero. intros k _. rewrite ind_false; [lia|]. apply (gw_acyclic _ W). }
    destruct (add_levels_spec depth delta (proxied_vsf_votes b)) as (l & El & Hl & Hn).
    { rewrite (gw_len _ W _ _ Hb). unfold depth. lia. }
    { rewrite (gw_len _ W _ _ Hb). lia. }
    { by apply small_in_s. }
    { intros j Hj. rewrite (gw_len _ W _ _ Hb) in Hj. rewrite (bk_lv _ _ _ B _ _ _ Hb Hj). destruct (HL j p Hj) as [H1 H2].
      rewrite Hstep, Hself in H2. unfold lv1 in H2. rewrite ind_true in H2 by done. split; [done|]. replace (S j - 1)%nat with j in H2 by lia.
      by rewrite Z.mul_1_l, Z.add_0_r in H2. }
    set (s1 := modify_account p (set_proxied l) s). pose proof (modify_account_frame s p b l Hb) as F1. fold s1 in F1.
    assert (forall x, px s1 x = px s x) as Hpx by (intros; by apply frame_px).
    assert (accounts s1 !! p = Some (set_proxied l b)) as Hb1 by (cbn; by rewrite lookup_alter_eq, Hb).
    assert (forall x, x <> p -> accounts s1 !! x = accounts s !! x) as Ho1 by (intros; cbn; by rewrite lookup_alter_ne).
    assert (gov_wf s1) as W1.
    { eapply frame_wf; [done| |done]. intros x c Hc. destruct (decide (x = p)) as [->|Hne]; [rewrite Hb1 in Hc; injection Hc as <-; cbn; rewrite Hl; by eapply (gw_len _ W)|].
      rewrite Ho1 in Hc by done. by eapply (gw_len _ W). }
    assert (book s1 lv1 P) as B1.
    { constructor; [|apply B]. intros x c j Hc Hj. unfold lv1. destruct (decide (x = p)) as [->|Hne].
      - rewrite Hb1 in Hc. injection Hc as <-. cbn. rewrite Hn by (rewrite (gw_len _ W _ _ Hb); done). rewrite ind_true by done.
        rewrite (bk_lv _ _ _ B _ _ _ Hb Hj). rewrite Nat.sub_0_r. lia.
      - rewrite Ho1 in Hc by done. rewrite ind_false by congruence. rewrite (bk_lv _ _ _ B _ _ _ Hc Hj). lia. }
    destruct (IH p s1 lv1 P) as (s' & E & F & W' & B'); [done|done|by eexists|lia| | |].
    { intros j x Hj. rewrite (level_delta_px _ (px s)) by done. destruct (HL j x Hj) as [H1 H2]. rewrite Hstep in H2. split; [|done].
      destruct (decide (x = p)) as [->|Hne]; [rewrite Hself in H2; by rewrite Z.add_0_r in H2|]. unfold lv1. rewrite ind_false by congruence.
      by rewrite Z.mul_0_l, Z.add_0_r. }
    { intros w Hw. destruct (HT w Hw) as [H1 H2]. split; [done|]. cbv zeta in H2 |- *. cbn [sched witness_votes s1 modify_account set_accounts].
      rewrite (sumZ_ext _ (fun v => ind (v.2 = w) * (P v.1 + power_delta (px s) name delta (S left) v.1))); [done|].
      intros v Hv. destruct (gw_voters _ W v Hv) as (_ & Hr & _). rewrite (power_delta_px _ (px s)), (power_delta_step (px s) name p) by done.
      rewrite (ind_false (Some name = Some v.1)) by congruence. lia. }
    exists s'. split_and!; [|by etrans|done|].
    { cbn [adjust_proxied_levels]. rewrite (get_account_Some _ _ _ Ha). cbn [mbind result_bind].
      unfold px in Ep. rewrite Ha in Ep. cbn in Ep. rewrite Ep, (get_account_Some _ _ _ Hb). cbn [mbind result_bind]. fold depth. rewrite El. exact E. }
    eapply book_ext; [done| |].
    + intros j x. cbv beta. rewrite (level_delta_px (px s1) (px s)) by done. symmetry. apply Hstep.
    + intros v Hv. rewrite (gf_votes _ _ F) in Hv. destruct (gw_voters _ W v Hv) as (_ & Hr & _). cbv beta.
      rewrite (power_delta_px (px s1) (px s)), (power_delta_step (px s) name p) by done. rewrite (ind_false (Some name = Some v.1)) by congruence. lia.
  - destruct (adjust_root (S left) name delta s lv P) as (s' & E & F & Ea & B'); [done|done|done|by eexists|done|done|].
    exists s'. split_and!; [done|done|eapply frame_wf; [done| |done]; rewrite Ea; apply W|].
    eapply book_ext; [done|intros; rewrite level_delta_root by done; lia|done].
Qed.
End adjusting.

(** ** Power *)

Section powers.
Implicit Types (q : string -> option string) (dir : string -> Z).

(** Whether the stake of [b] counts for [x]. *)
Definition reach q (b x : string) : Z := sumN (S max_depth) (fun j => ind (anc q j b = Some x)).
(** The stake of an account and of those who reach it over at most four proxies. *)
Definition power (ns : list string) q dir (x : string) : Z := sumN (S max_depth) (fun j => level ns q dir j x).

Lemma power_reach ns q dir x : power ns q dir x = sumZ (fun b => reach q b x * dir b) ns.
Proof.
  unfold power, reach, level, sumN. rewrite sumZ_swap. apply sumZ_ext. intros b _.
  rewrite Z.mul_comm, <- sumZ_scale. apply sumZ_ext. intros; lia.
Qed.

Lemma reach_cases q b x : acyclic q -> reach q b x = 0 \/ (reach q b x = 1 /\ exists j, anc q j b = Some x).
Proof.
  intros Hac. unfold reach. generalize (S max_depth) as n. induction n as [|n IH]; [by left|]. rewrite sumN_S.
  destruct (decide (anc q n b = Some x)) as [E|E].
  - rewrite ind_true by done. right. split; [|by exists n]. rewrite sumN_zero; [done|]. intros k Hk. rewrite ind_false; [done|].
    intros E'. pose proof (acyclic_inj q k n b x Hac E' E). lia.
  - rewrite ind_false by done. rewrite Z.add_0_r. done.
Qed.

Lemma root_unique q b j x j' x' : anc q j b = Some x -> q x = None -> anc q j' b = Some x' -> q x' = None -> x = x'.
Proof.
  assert (forall j x j' x', (j <= j')%nat -> anc q j b = Some x -> q x = None -> anc q j' b = Some x' -> x = x') as H.
  { intros i y i' y' Hle E Hy E'. pose proof (anc_add q i (i' - i) b y E) as Ha. replace (i + (i' - i))%nat with i' in Ha by lia.
    rewrite E' in Ha. destruct (i' - i)%nat; cbn in Ha; [by injection Ha|]. by rewrite Hy in Ha. }
  intros E Hx E' Hx'. destruct (decide (j <= j')%nat); [by eapply H|]. symmetry. eapply (H j' x' j x); [lia|done..].
Qed.

(** A stake counts for at most one of those who vote for a witness. *)
Lemma reach_once q b w (V : list (string * string)) : acyclic q -> NoDup V -> (forall v, v ∈ V -> q v.1 = None) ->
  0 <= sumZ (fun v => ind (v.2 = w) * reach q b v.1) V <= 1.
Proof.
  intros Hac HN. induction HN as [|v V Hv HN IH]; intros Hr; [cbn; lia|]. rewrite sumZ_cons.
  specialize (IH (fun v' H => Hr v' ltac:(by right))).
  destruct (decide (v.2 = w)) as [Hw|Hw]; [|rewrite (ind_false (v.2 = w)) by done; lia]. rewrite (ind_true (v.2 = w)) by done.
  destruct (reach_cases q b v.1 Hac) as [E|[E [j Hj]]]; [lia|]. rewrite sumZ_zero; [lia|]. intros v' Hv'.
  destruct (decide (v'.2 = w)) as [Hw'|Hw']; [|rewrite ind_false by done; lia].
  destruct (reach_cases q b v'.1 Hac) as [->|[_ [j' Hj']]]; [lia|]. exfalso. apply Hv.
  assert (v.1 = v'.1) as E1 by (apply (root_unique q b j v.1 j' v'.1); [done|apply Hr; by left|done|apply Hr; by right]).
  assert (v = v') as ->; [|done]. destruct v, v'. cbn in *. congruence.
Qed.

(** No witness can have more votes than there is stake. *)
Lemma tally_bound ns q dir w (V : list (string * string)) : acyclic q -> NoDup V -> (forall v, v ∈ V -> q v.1 = None) ->
  (forall b, b ∈ ns -> 0 <= dir b) -> 0 <= sumZ (fun v => ind (v.2 = w) * power ns q dir v.1) V <= sumZ dir ns.
Proof.
  intros Hac HN Hr Hd. rewrite (sumZ_ext _ (fun v => sumZ (fun b => dir b * (ind (v.2 = w) * reach q b v.1)) ns)).
  2:{ intros v _. rewrite power_reach, <- sumZ_scale. apply sumZ_ext. intros; lia. }
  rewrite sumZ_swap. rewrite (sumZ_ext _ (fun b => dir b * sumZ (fun v => ind (v.2 = w) * reach q b v.1) V)) by (intros; by rewrite sumZ_scale).
  split; [apply sumZ_nonneg, Forall_forall|apply sumZ_le]; intros b Hb; specialize (Hd b Hb);
    pose proof (reach_once q b w V Hac HN Hr); nia.
Qed.

Lemma level_bound ns q dir j x : (forall b, b ∈ ns -> 0 <= dir b) -> 0 <= level ns q dir j x <= sumZ dir ns.
Proof.
  intros Hd. split; [by apply level_nonneg|]. apply sumZ_le. intros b Hb. specialize (Hd b Hb). pose proof (ind_range (anc q j b = Some x)). nia.
Qed.
Lemma power_bound ns q dir x : acyclic q -> (forall b, b ∈ ns -> 0 <= dir b) -> 0 <= power ns q dir x <= sumZ dir ns.
Proof.
  intros Hac Hd. rewrite power_reach. split; [apply sumZ_nonneg, Forall_forall|apply sumZ_le]; intros b Hb; specialize (Hd b Hb);
    destruct (reach_cases q b x Hac) as [->|[-> _]]; lia.
Qed.

(** What [a] passes on. *)
Definition levels_of ns q dir (a : string) : list Z := (fun j => level ns q dir j a) <$> seq 0 (S max_depth).

Lemma levels_sum ns q dir a : sumZ id (levels_of ns q dir a) = power ns q dir a.
Proof. unfold levels_of, power, sumN. by rewrite sumZ_fmap. Qed.
Lemma levels_small ns q dir a : acyclic q -> (forall b, b ∈ ns -> 0 <= dir b) -> sumZ dir ns < 2 ^ 63 ->
  small (levels_of ns q dir a) /\ small (Z.opp <$> levels_of ns q dir a).
Proof.
  intros Hac Hd Hs. pose proof (power_bound ns q dir a Hac Hd) as Hp.
  assert (Forall (fun d => 0 <= d) (levels_of ns q dir a)) as HF by (apply Forall_fmap, Forall_forall; intros j _; by apply level_nonneg).
  split; split; [by left|rewrite levels_sum; lia|right; apply Forall_fmap; eapply Forall_impl; [done|intros; cbn in *; lia]|].
  rewrite sumZ_fmap, (sumZ_ext _ (fun x => -1 * id x)) by (intros; unfold id; lia). rewrite sumZ_scale, levels_sum. lia.
Qed.

(** Cutting the proxy of [a] and tying it again. *)
Lemma level_delta_cut ns q dir a j x : acyclic q -> (j < max_depth)%nat ->
  level ns q dir (S j) x + level_delta q a (Z.opp <$> levels_of ns q dir a) max_depth (S j) x = level ns (cut q a) dir (S j) x /\
  level ns (cut q a) dir (S j) x + level_delta q a (levels_of ns q dir a) max_depth (S j) x = level ns q dir (S j) x.
Proof.
  intros Hac Hj. rewrite level_cut by done. unfold level_delta, levels_of, max_depth, HIVE_MAX_PROXY_RECURSION_DEPTH in *.
  change (Z.to_nat 4) with 4%nat in *. do 4 (destruct j as [|j]; [cbn; lia|]). lia.
Qed.

Lemma power_delta_cut ns q dir a x : acyclic q -> x <> a ->
  power ns q dir x + power_delta q a (Z.opp <$> levels_of ns q dir a) max_depth x = power ns (cut q a) dir x /\
  power ns (cut q a) dir x + power_delta q a (levels_of ns q dir a) max_depth x = power ns q dir x.
Proof.
  intros Hac Hne. unfold power. rewrite !(sumN_ext _ (fun j => level ns (cut q a) dir j x) _ (fun j _ => level_cut ns q dir a j x Hac)).
  unfold power_delta, prefix_sum, levels_of, max_depth, HIVE_MAX_PROXY_RECURSION_DEPTH. change (Z.to_nat 4) with 4%nat.
  rewrite !(sumN_S_l 4 (fun k => ind (anc q k a = Some x) * _)). rewrite (ind_false (anc q 0 a = Some x)) by (cbn; congruence).
  unfold id. cbn. lia.
Qed.

Lemma power_delta_self ns q dir a : acyclic q -> power ns q dir a + power_delta q a (Z.opp <$> levels_of ns q dir a) max_depth a = 0.
Proof.
  intros Hac. unfold power_delta. rewrite sumN_S_l, (ind_true (anc q 0 a = Some a)) by done. rewrite sumN_zero.
  2:{ intros k _. rewrite ind_false; [lia|]. apply Hac. }
  unfold prefix_sum. rewrite take_ge by (unfold levels_of; rewrite !length_fmap, length_seq; lia).
  rewrite sumZ_fmap, (sumZ_ext _ (fun x => -1 * id x)) by (intros; unfold id; lia). rewrite sumZ_scale, levels_sum. lia.
Qed.
End powers.

(** ** The invariant *)

Definition vest (s : gov) (b : string) : Z := match accounts s !! b with Some a => vesting_shares a | None => 0 end.

(** The books are the sums the specification defines; the stake adds up to the
    global counter; the counter of votes is right and limited; who declined to
    vote neither votes nor has a proxy. *)
Record gov_ok (s : gov) : Prop := {
  ok_wf : gov_wf s;
  ok_book : book s (level (names s) (px s) (dirp s)) (power (names s) (px s) (dirp s));
  ok_stake x a : accounts s !! x = Some a -> 0 <= sum_delayed_votes a <= vesting_shares a;
  ok_total : sumZ (vest s) (names s) = total_vesting_shares (sched s);
  ok_range : total_vesting_shares (sched s) < 2 ^ 63;
  ok_count x a : accounts s !! x = Some a -> witnesses_voted_for a = Z.of_nat (length (votes_of s x)) /\ witnesses_voted_for a <= HIVE_MAX_ACCOUNT_WITNESS_VOTES;
  ok_declined x a : accounts s !! x = Some a -> can_vote a = false -> proxy a = None /\ votes_of s x = []
}.

Section invariant.
Context `{L : FcLib} `{!FcLaws L}.

Lemma names_elem s x : x ∈ names s <-> is_Some (accounts s !! x).
Proof. unfold names. by rewrite elem_of_elements, elem_of_dom. Qed.
Lemma names_NoDup s : NoDup (names s).
Proof. unfold names. apply NoDup_elements. Qed.
Lemma dirp_nonneg s b : gov_ok s -> 0 <= dirp s b.
Proof. intros O. unfold dirp. destruct (accounts s !! b) as [a|] eqn:E; [|lia]. pose proof (ok_stake _ O b a E). lia. Qed.
Lemma dirp_total s : gov_ok s -> sumZ (dirp s) (names s) <= total_vesting_shares (sched s).
Proof.
  intros O. rewrite <- (ok_total _ O). apply sumZ_le. intros b _. unfold dirp, vest. destruct (accounts s !! b) as [a|] eqn:E; [|lia].
  pose proof (ok_stake _ O b a E). lia.
Qed.
Lemma dirp_account s x a : accounts s !! x = Some a -> dirp s x = vesting_shares a - sum_delayed_votes a.
Proof. intros E. unfold dirp. by rewrite E. Qed.

Lemma proxied_levels s x a lv P : gov_wf s -> book s lv P -> accounts s !! x = Some a -> proxied_vsf_votes a = (fun j => lv (S j) x) <$> seq 0 max_depth.
Proof.
  intros W B E. apply list_eq. intros j. rewrite list_lookup_fmap. destruct (decide (j < max_depth)%nat) as [Hj|Hj].
  - rewrite lookup_seq_lt by done. cbn. rewrite <- (bk_lv _ _ _ B _ _ _ E Hj).
    destruct (nth_lookup_or_length (proxied_vsf_votes a) j 0) as [|Hn]; [done|]. rewrite (gw_len _ W _ _ E) in Hn. lia.
  - rewrite lookup_seq_ge by lia. apply lookup_ge_None_2. rewrite (gw_len _ W _ _ E). lia.
Qed.

Lemma passed_on_spec s x a lv P T : gov_wf s -> book s lv P -> accounts s !! x = Some a -> 0 <= sum_delayed_votes a <= vesting_shares a ->
  vesting_shares a <= T < 2 ^ 63 ->
  get_direct_governance_vote_power a = Ok (dirp s x) /\ passed_on a = Ok (dirp s x :: ((fun j => lv (S j) x) <$> seq 0 max_depth)).
Proof.
  intros W B E Hs HT. assert (get_direct_governance_vote_power a = Ok (dirp s x)) as Ed.
  { unfold get_direct_governance_vote_power, check. rewrite (proj2 (Z.leb_le _ _)) by lia. cbn. rewrite (dirp_account s x a E).
    apply safe_sub_exact; unfold in_s; lia. }
  split; [done|]. unfold passed_on. rewrite Ed. cbn. by rewrite (proxied_levels s x a lv P).
Qed.

Lemma levels_of_unfold ns q dir x : NoDup ns -> x ∈ ns -> levels_of ns q dir x = dir x :: ((fun j => level ns q dir (S j) x) <$> seq 0 max_depth).
Proof.
  intros Hn Hx. unfold levels_of. rewrite <- cons_seq, fmap_cons, level_0 by done. done.
Qed.

Lemma neg_all l : Forall (fun x => - 2 ^ 63 < x < 2 ^ 63) l -> mapR safe_neg l = Ok (Z.opp <$> l).
Proof.
  induction 1 as [|x l Hx _ IH]; [done|]. cbn. rewrite safe_neg_exact by (unfold in_s; lia). by rewrite IH.
Qed.

Lemma vest_bound s x a : gov_ok s -> accounts s !! x = Some a -> vesting_shares a <= total_vesting_shares (sched s) < 2 ^ 63.
Proof.
  intros O E. split; [|apply O]. rewrite <- (ok_total _ O). assert (vest s x = vesting_shares a) as <- by (unfold vest; by rewrite E).
  apply (sumZ_member (vest s)); [|apply names_elem; by eexists]. intros y _. unfold vest. destruct (accounts s !! y) as [b|] eqn:Ey; [|lia].
  pose proof (ok_stake _ O y b Ey). lia.
Qed.

(** The state after the votes of [name] were taken back everywhere. *)
Record nullified (s s' : gov) (name : string) : Prop := {
  nu_frame : gov_frame s s';
  nu_wf : gov_wf s';
  nu_book : book s' (level (names s) (cut (px s) name) (dirp s))
    (fun x => if decide (x = name) then 0 else power (names s) (cut (px s) name) (dirp s) x)
}.

Lemma nullify_spec s name : gov_ok s -> is_Some (accounts s !! name) ->
  exists s', nullify_proxied_witness_votes name s = Ok s' /\ nullified s s' name.
Proof.
  intros O [a Ha]. pose proof (ok_wf _ O) as W. pose proof (gw_acyclic _ W) as Hac.
  pose proof (dirp_total s O) as HT. pose proof (ok_range _ O) as HR.
  assert (forall b, b ∈ names s -> 0 <= dirp s b) as Hd by (intros b _; by apply dirp_nonneg).
  set (lv := level (names s) (px s) (dirp s)). set (delta := levels_of (names s) (px s) (dirp s) name).
  assert (passed_on a = Ok delta) as Ep.
  { unfold delta. rewrite levels_of_unfold by (apply names_NoDup || (apply names_elem; by eexists)).
    by apply (passed_on_spec s name a lv _ _ W (ok_book _ O) Ha (ok_stake _ O _ _ Ha) (vest_bound _ _ _ O Ha)). }
  destruct (levels_small (names s) (px s) (dirp s) name Hac Hd ltac:(lia)) as [S1 S2]. fold delta in S1, S2.
  assert (mapR safe_neg delta = Ok (Z.opp <$> delta)) as En.
  { apply neg_all. unfold delta, levels_of. apply Forall_fmap, Forall_forall. intros j _. cbn.
    pose proof (level_bound (names s) (px s) (dirp s) j name Hd). lia. }
  set (P := power (names s) (px s) (dirp s)).
  assert (forall x, P x + power_delta (px s) name (Z.opp <$> delta) max_depth x =
    (if decide (x = name) then 0 else power (names s) (cut (px s) name) (dirp s) x)) as HP.
  { intros x. destruct (decide (x = name)) as [->|Hne]; [exact (power_delta_self _ _ _ name Hac)|exact (proj1 (power_delta_cut _ _ _ name x Hac Hne))]. }
  destruct (adjust_levels_spec max_depth name (Z.opp <$> delta) s lv P) as (s' & E & F & W' & B'); [done|apply O|by eexists|done| |lia| | |].
  - unfold delta, levels_of. by rewrite !length_fmap, length_seq.
  - intros j x Hj. pose proof (proj1 (level_delta_cut (names s) (px s) (dirp s) name j x Hac Hj)) as Hc. fold lv delta in Hc. rewrite Hc.
    pose proof (level_bound (names s) (px s) (dirp s) (S j) x Hd). pose proof (level_bound (names s) (cut (px s) name) (dirp s) (S j) x Hd).
    unfold lv, in_s. lia.
  - intros w Hw. rewrite (bk_tally _ _ _ (ok_book _ O)) by done.
    assert (forall v, v ∈ witness_votes s -> px s v.1 = None) as Hr by (intros v Hv; by apply (gw_voters _ W v Hv)).
    pose proof (tally_bound (names s) (px s) (dirp s) w _ Hac (gw_nodup _ W) Hr Hd) as B1.
    assert (forall v, v ∈ witness_votes s -> cut (px s) name v.1 = None) as Hr' by (intros v Hv; unfold cut; destruct (decide _); [done|by apply Hr]).
    pose proof (tally_bound (names s) (cut (px s) name) (dirp s) w _ (cut_acyclic _ name Hac) (gw_nodup _ W) Hr' Hd) as B2.
    split; [unfold in_s; lia|]. cbv zeta. match goal with |- in_s 64 ?t /\ _ => assert (0 <= t <= sumZ (dirp s) (names s)) as B3; [|unfold in_s; lia] end.
    split; [apply sumZ_nonneg, Forall_forall|etrans; [apply sumZ_le|apply B2]]; intros v Hv; cbv beta; rewrite HP; destruct (decide _); pose proof (ind_range (v.2 = w)); try lia;
      pose proof (power_bound (names s) (cut (px s) name) (dirp s) v.1 (cut_acyclic _ name Hac) Hd); nia.
  - exists s'. split; [unfold nullify_proxied_witness_votes; rewrite (get_account_Some _ _ _ Ha); cbn [mbind result_bind]; rewrite Ep; cbn [mbind result_bind]; rewrite En; exact E|].
    constructor; [done|done|]. destruct B' as [B1 B2]. constructor.
    + intros x b j Hb Hj. rewrite (B1 x b j Hb Hj). by apply level_delta_cut.
    + intros w Hw. rewrite (B2 w Hw). apply sumZ_ext. intros v _. by rewrite HP.
Qed.

Lemma sumZ_filter {A} (P : A -> Prop) `{!forall x, Decision (P x)} (f : A -> Z) l : sumZ f (filter P l) = sumZ (fun x => ind (P x) * f x) l.
Proof.
  induction l as [|x l IH]; [done|]. rewrite filter_cons, sumZ_cons. destruct (decide (P x)) as [Hx|Hx].
  - rewrite sumZ_cons, IH, ind_true by done. lia.
  - rewrite IH, ind_false by done. lia.
Qed.
Lemma power_ext ns q q' dir dir' x : (forall b, q b = q' b) -> (forall b, b ∈ ns -> dir b = dir' b) -> power ns q dir x = power ns q' dir' x.
Proof. intros H1 H2. apply sumN_ext. intros j _. by apply level_ext. Qed.

(** [gov_ok] reads the accounts, the votes and the schedule only. *)
Lemma ok_same s s' : accounts s' = accounts s -> witness_votes s' = witness_votes s -> sched s' = sched s -> gov_ok s -> gov_ok s'.
Proof.
  destruct s, s'. cbn. intros -> -> -> [[W1 W2 W3 W4 W5 W6] [B1 B2] O1 O2 O3 O4 O5]. constructor; try done; by constructor.
Qed.

(** What the invariant says of the accounts one by one. *)
Definition account_ok (s : gov) (x : string) (a : gov_account) : Prop :=
  0 <= sum_delayed_votes a <= vesting_shares a /\
  (witnesses_voted_for a = Z.of_nat (length (votes_of s x)) /\ witnesses_voted_for a <= HIVE_MAX_ACCOUNT_WITNESS_VOTES) /\
  (can_vote a = false -> proxy a = None /\ votes_of s x = []).

Lemma ok_account s x a : gov_ok s -> accounts s !! x = Some a -> account_ok s x a.
Proof. intros O E. split_and!; [apply (ok_stake _ O x a E)..|apply (ok_count _ O x a E)|apply (ok_count _ O x a E)|by apply (ok_declined _ O x a E)]. Qed.

Lemma votes_of_filter s s' name x : witness_votes s' = filter (fun v => v.1 <> name) (witness_votes s) ->
  votes_of s' x = if decide (x = name) then [] else votes_of s x.
Proof.
  intros E. unfold votes_of. rewrite E, list_filter_filter. destruct (decide (x = name)) as [->|Hne].
  - rewrite filter_none; [done|]. apply Forall_forall. intros v _ [H1 H2]. done.
  - f_equal. apply filter_ext_in. intros v _. split; [by intros [? _]|intros <-; done].
Qed.

(** Once its votes are taken back the account is cut loose. *)
Lemma after_cut s s1 s2 name g : gov_ok s -> nullified s s1 name ->
  (forall a, accounts s1 !! name = Some a -> set_can_vote true (set_expiration 0 (g a)) = set_can_vote true (set_expiration 0 (set_voted_for 0 (set_proxy None a)))) ->
  accounts s2 = alter g name (accounts s1) -> witness_votes s2 = filter (fun v => v.1 <> name) (witness_votes s1) -> sched s2 = sched s1 ->
  gov_ok s2 /\ (forall x, px s2 x = cut (px s) name x).
Proof.
  intros O [F W1 B1] Hg Ea Ev Es. pose proof (ok_wf _ O) as W.
  assert (forall x a, accounts s2 !! x = Some a -> exists a1, accounts s1 !! x = Some a1 /\ proxied_vsf_votes a = proxied_vsf_votes a1 /\
    vesting_shares a = vesting_shares a1 /\ sum_delayed_votes a = sum_delayed_votes a1 /\
    (if decide (x = name) then proxy a = None /\ witnesses_voted_for a = 0 else a = a1)) as Hacc.
  { intros x a. rewrite Ea. destruct (decide (x = name)) as [->|Hne].
    - rewrite lookup_alter_eq. destruct (accounts s1 !! name) as [a1|] eqn:E; [|done]. cbn. intros [= <-]. specialize (Hg a1 eq_refl).
      exists a1. destruct (g a1), a1. cbn in Hg. by injection Hg as -> -> -> -> -> ->.
    - rewrite lookup_alter_ne by done. intros E. exists a. done. }
  assert (forall x, is_Some (accounts s2 !! x) <-> is_Some (accounts s !! x)) as Hdom.
  { intros x. rewrite Ea, lookup_alter_is_Some. by apply frame_lookup. }
  assert (forall x, px s2 x = cut (px s) name x) as Hpx.
  { intros x. unfold cut. rewrite <- (frame_px s s1 x F). unfold px. rewrite Ea. destruct (decide (x = name)) as [->|Hne].
    - rewrite lookup_alter_eq. destruct (accounts s1 !! name) as [a1|] eqn:E; [|done]. cbn. specialize (Hg a1 eq_refl). destruct (g a1). cbn in *. by injection Hg.
    - by rewrite lookup_alter_ne. }
  assert (names s2 = names s) as Hnames by (unfold names; f_equal; apply leibniz_equiv; intros x; rewrite !elem_of_dom; apply Hdom).
  assert (forall x, vest s2 x = vest s x /\ dirp s2 x = dirp s x) as Hst.
  { intros x. rewrite <- (frame_dirp s s1 x F). unfold vest, dirp. destruct (accounts s2 !! x) as [a|] eqn:E.
    - destruct (Hacc x a E) as (a1 & E1 & _ & -> & -> & _). rewrite E1. split; [|done].
      by destruct (frame_back s s1 x a1 F E1) as (a0 & v & -> & ->).
    - assert (accounts s !! x = None) as E0 by (apply eq_None_not_Some; intros H; apply Hdom in H as [? ?]; congruence).
      by rewrite E0, (frame_None s s1 x F E0). }
  assert (forall x, votes_of s2 x = if decide (x = name) then [] else votes_of s x) as Hvo.
  { intros x. rewrite (votes_of_filter s1 s2 name x Ev). unfold votes_of. by rewrite (gf_votes _ _ F). }
  split; [|done]. constructor.
  - constructor.
    + intros x a E. destruct (Hacc x a E) as (a1 & E1 & -> & _). by apply (gw_len _ W1 x a1).
    + intros x p. rewrite Hpx. unfold cut. destruct (decide _); [done|]. intros Hp. apply Hdom. by apply (gw_proxy _ W x p).
    + eapply acyclic_ext; [intros x; symmetry; apply Hpx|]. apply cut_acyclic, W.
    + rewrite Ev. apply NoDup_filter, W1.
    + intros v. rewrite Ev, Es, Hpx, Hdom. intros Hv. apply list_elem_of_filter in Hv as [Hne Hv]. unfold cut. rewrite decide_False by done.
      destruct (gw_voters _ W1 v Hv) as (H1 & H2 & H3). rewrite (frame_px s s1) in H2 by done. split_and!; [by apply (frame_lookup s s1)|done|done].
    + rewrite Es. apply W1.
  - constructor.
    + intros x a j E Hj. destruct (Hacc x a E) as (a1 & E1 & -> & _). rewrite (bk_lv _ _ _ B1 x a1 j E1 Hj), Hnames. symmetry.
      apply level_ext; [apply Hpx|intros b _; apply Hst].
    + intros w. rewrite Es, Ev. intros Hw. rewrite (bk_tally _ _ _ B1 w Hw), sumZ_filter. apply sumZ_ext. intros v _.
      destruct (decide (v.1 = name)) as [->|Hne]; [rewrite (ind_false (name <> name)) by (intros H; by apply H); lia|].
      rewrite (ind_true (v.1 <> name)) by done. rewrite Hnames. rewrite (power_ext _ (px s2) (cut (px s) name) (dirp s2) (dirp s)); [lia|apply Hpx|intros b _; apply Hst].
  - intros x a E. destruct (Hacc x a E) as (a1 & E1 & _ & -> & -> & _). destruct (frame_back s s1 x a1 F E1) as (a0 & v & E0 & ->). by apply (ok_stake _ O x a0).
  - rewrite Hnames, Es. rewrite (sumZ_ext _ (vest s)) by (intros; apply Hst). rewrite (ok_total _ O). symmetry. by apply same_witnesses_frame, F.
  - rewrite Es. rewrite (proj1 (same_witnesses_frame _ _ (gf_sched _ _ F))). apply O.
  - intros x a E. rewrite Hvo. destruct (Hacc x a E) as (a1 & E1 & _ & _ & _ & Hif). destruct (decide (x = name)) as [->|Hne]; [destruct Hif as [_ ->]; cbn; unfold HIVE_MAX_ACCOUNT_WITNESS_VOTES; lia|].
    subst a1. destruct (frame_back s s1 x a F E1) as (a0 & v & E0 & ->). by apply (ok_count _ O x a0).
  - intros x a E. rewrite Hvo. destruct (Hacc x a E) as (a1 & E1 & _ & _ & _ & Hif). destruct (decide (x = name)) as [->|Hne]; [by intros _; destruct Hif|].
    subst a1. destruct (frame_back s s1 x a F E1) as (a0 & v & E0 & ->). by apply (ok_declined _ O x a0).
Qed.

Lemma modify_lookup s name f x : accounts (modify_account name f s) !! x = (if decide (x = name) then f <$> accounts s !! x else accounts s !! x).
Proof. cbn. destruct (decide (x = name)) as [->|Hne]; [by rewrite lookup_alter_eq|by rewrite lookup_alter_ne]. Qed.
Lemma modify_names s name f : names (modify_account name f s) = names s.
Proof. unfold names. cbn. by rewrite dom_alter_L. Qed.

Lemma link_wf s name p : gov_wf s -> votes_of s name = [] -> is_Some (accounts s !! name) -> is_Some (accounts s !! p) -> acyclic (link (px s) name p) ->
  let s1 := modify_account name (set_proxy (Some p)) s in
  gov_wf s1 /\ (forall x, px s1 x = link (px s) name p x) /\ (forall x, dirp s1 x = dirp s x) /\ (forall x, vest s1 x = vest s x).
Proof.
  intros W Hv [a Ha] Hp Hac s1.
  assert (forall x, px s1 x = link (px s) name p x) as Hpx.
  { intros x. unfold px, link, s1. rewrite modify_lookup. destruct (decide (x = name)) as [->|]; [by rewrite Ha|done]. }
  assert (forall x, is_Some (accounts s1 !! x) <-> is_Some (accounts s !! x)) as Hdom.
  { intros x. unfold s1. rewrite modify_lookup. destruct (decide _); [by rewrite fmap_is_Some|done]. }
  split_and!; [|done| |].
  - constructor.
    + intros x b. unfold s1. rewrite modify_lookup. destruct (decide _); [|by apply (gw_len _ W)].
      destruct (accounts s !! x) as [c|] eqn:E; [|done]. intros [= <-]. by apply (gw_len _ W x c).
    + intros x q. rewrite Hpx, Hdom. unfold link. destruct (decide _); [by intros [= <-]|apply (gw_proxy _ W)].
    + eapply acyclic_ext; [intros x; symmetry; apply Hpx|done].
    + apply W.
    + intros v Hin. rewrite Hdom, Hpx. destruct (gw_voters _ W v Hin) as (H1 & H2 & H3). split_and!; [done| |done].
      unfold link. rewrite decide_False; [done|]. intros E. assert (v.2 ∈ votes_of s name) as Hn by (apply votes_of_elem; rewrite <- E; by destruct v).
      rewrite Hv in Hn. by apply elem_of_nil in Hn.
    + apply W.
  - intros x. unfold dirp, s1. rewrite modify_lookup. destruct (decide _); [|done]. by destruct (accounts s !! x).
  - intros x. unfold vest, s1. rewrite modify_lookup. destruct (decide _); [|done]. by destruct (accounts s !! x).
Qed.

Lemma link_spec s name a p : gov_ok s -> accounts s !! name = Some a -> px s name = None -> votes_of s name = [] -> can_vote a = true ->
  is_Some (accounts s !! p) -> acyclic (link (px s) name p) ->
  let s1 := modify_account name (set_proxy (Some p)) s in
  exists delta s2, passed_on (set_proxy (Some p) a) = Ok delta /\ adjust_proxied_witness_votes name delta s1 = Ok s2 /\ gov_frame s1 s2 /\ gov_ok s2.
Proof.
  intros O Ha Hroot Hv Hcan Hp Hac s1. pose proof (ok_wf _ O) as W.
  destruct (link_wf s name p W Hv ltac:(by eexists) Hp Hac) as (W1 & Hpx & Hdir & Hvest). fold s1 in W1, Hpx, Hdir, Hvest.
  set (ns := names s). set (d := dirp s). assert (names s1 = ns) as Hns by apply modify_names.
  assert (forall b, b ∈ ns -> 0 <= d b) as Hd by (intros b _; by apply dirp_nonneg).
  pose proof (dirp_total s O) as HT. pose proof (ok_range _ O) as HR. pose proof (gw_acyclic _ W1) as Hac1.
  assert (forall x, px s x = cut (px s1) name x) as Hcut.
  { intros x. unfold cut. rewrite Hpx. unfold link. by destruct (decide (x = name)) as [->|]. }
  assert (forall j x, level ns (px s) d j x = level ns (cut (px s1) name) d j x) as Hlc by (intros; by apply level_ext).
  set (delta := levels_of ns (px s1) d name).
  assert (passed_on (set_proxy (Some p) a) = Ok delta) as Ep.
  { transitivity (passed_on a); [done|].
    rewrite (proj2 (passed_on_spec s name a _ _ _ W (ok_book _ O) Ha (ok_stake _ O _ _ Ha) (vest_bound _ _ _ O Ha))). unfold delta.
    rewrite levels_of_unfold by (apply names_NoDup || (apply names_elem; by eexists)). do 2 f_equal. apply list_fmap_ext. intros _ j _. cbv beta.
    fold ns d. by rewrite Hlc, level_cut_self. }
  assert (forall j x, (j < max_depth)%nat -> level ns (cut (px s1) name) d (S j) x + level_delta (px s1) name delta max_depth (S j) x = level ns (px s1) d (S j) x)
    as Hlink by (intros j x Hj; exact (proj2 (level_delta_cut ns (px s1) d name j x Hac1 Hj))).
  destruct (levels_small ns (px s1) d name Hac1 Hd ltac:(unfold d, ns; lia)) as [S1 _]. fold delta in S1.
  assert (book s1 (level ns (px s) d) (power ns (px s) d)) as B1.
  { constructor; [|apply (ok_book _ O)]. intros x b j. unfold s1. rewrite modify_lookup. destruct (decide (x = name)) as [->|];
      [rewrite Ha; intros [= <-]; cbn; by apply (bk_lv _ _ _ (ok_book _ O) name a)|by apply (bk_lv _ _ _ (ok_book _ O))]. }
  assert (forall v, v ∈ witness_votes s -> v.1 <> name /\ px s1 v.1 = None) as Hroots.
  { intros v Hin. destruct (gw_voters _ W1 v Hin) as (_ & H & _). split; [|done]. intros E. rewrite E, Hpx in H. unfold link in H. by rewrite decide_True in H. }
  assert (forall v, v ∈ witness_votes s -> power ns (px s) d v.1 + power_delta (px s1) name delta max_depth v.1 = power ns (px s1) d v.1) as HP.
  { intros v Hin. rewrite (power_ext _ (px s) (cut (px s1) name) d d) by done. apply (power_delta_cut ns (px s1) d name v.1 Hac1). by apply Hroots. }
  destruct (adjust_levels_spec max_depth name delta s1 (level ns (px s) d) (power ns (px s) d)) as (s2 & E & F & W2 & B2);
    [done|done|unfold s1; rewrite modify_lookup, decide_True, Ha by done; by eexists|done|unfold delta, levels_of; by rewrite length_fmap, length_seq|lia| | |].
  - intros j x Hj. rewrite !Hlc, Hlink by done.
    pose proof (level_bound ns (px s1) d (S j) x Hd). pose proof (level_bound ns (cut (px s1) name) d (S j) x Hd). unfold in_s, d, ns in *. lia.
  - intros w Hw. change (sched s1) with (sched s). rewrite (bk_tally _ _ _ (ok_book _ O) w Hw).
    pose proof (tally_bound ns (px s) d w _ (gw_acyclic _ W) (gw_nodup _ W) (fun v H => proj1 (proj2 (gw_voters _ W v H))) Hd) as T1.
    pose proof (tally_bound ns (px s1) d w _ Hac1 (gw_nodup _ W) (fun v H => proj2 (Hroots v H)) Hd) as T2.
    split; [unfold in_s, d, ns in *; lia|]. cbv zeta. change (witness_votes s1) with (witness_votes s).
    rewrite (sumZ_ext _ (fun v => ind (v.2 = w) * power ns (px s1) d v.1)) by (intros v Hin; by rewrite HP). unfold in_s, d, ns in *. lia.
  - exists delta, s2. split_and!; [done|exact E|done|]. pose proof (frame_names _ _ F) as Hn2. pose proof (fun x => frame_px _ _ x F) as Hp2. pose proof (fun x => frame_dirp _ _ x F) as Hd2.
    assert (forall x a2, accounts s2 !! x = Some a2 -> exists a0, accounts s !! x = Some a0 /\ vesting_shares a2 = vesting_shares a0 /\ sum_delayed_votes a2 = sum_delayed_votes a0 /\
      witnesses_voted_for a2 = witnesses_voted_for a0 /\ can_vote a2 = can_vote a0 /\ (x <> name -> proxy a2 = proxy a0)) as Hacc.
    { intros x a2 E2. destruct (frame_back _ _ x a2 F E2) as (a1 & v & E1 & ->). unfold s1 in E1. rewrite modify_lookup in E1.
      destruct (decide (x = name)) as [->|]; [rewrite Ha in E1; injection E1 as <-; by exists a|by exists a1]. }
    assert (forall x, vest s2 x = vest s x) as Hv2.
    { intros x. rewrite <- Hvest. unfold vest. destruct (accounts s2 !! x) as [b|] eqn:E2; [by destruct (frame_back _ _ x b F E2) as (? & ? & -> & ->)|].
      assert (accounts s1 !! x = None) as -> by (apply eq_None_not_Some; intros H; apply (frame_lookup s1 s2 x F) in H as [? ?]; congruence). done. }
    assert (forall x, votes_of s2 x = votes_of s x) as Hvo by (intros x; unfold votes_of; by rewrite (gf_votes _ _ F)).
    constructor.
    + done.
    + constructor.
      * intros x b j Hb Hj. rewrite (bk_lv _ _ _ B2 x b j Hb Hj), Hlc, Hlink, Hn2, Hns by done.
        apply level_ext; [intros; by rewrite Hp2|intros; by rewrite Hd2, Hdir].
      * intros w Hw. rewrite (bk_tally _ _ _ B2 w Hw), (gf_votes _ _ F). apply sumZ_ext. intros v Hin. rewrite HP by done. f_equal. rewrite Hn2, Hns.
        apply power_ext; [intros; by rewrite Hp2|intros; by rewrite Hd2, Hdir].
    + intros x a2 E2. destruct (Hacc x a2 E2) as (a0 & E0 & -> & -> & _). by apply (ok_stake _ O x a0).
    + rewrite Hn2, Hns, (sumZ_ext _ (vest s)) by done. rewrite (proj1 (same_witnesses_frame _ _ (gf_sched _ _ F))). apply O.
    + rewrite (proj1 (same_witnesses_frame _ _ (gf_sched _ _ F))). apply O.
    + intros x a2 E2. rewrite Hvo. destruct (Hacc x a2 E2) as (a0 & E0 & _ & _ & -> & _). by apply (ok_count _ O x a0).
    + intros x a2 E2. rewrite Hvo. destruct (Hacc x a2 E2) as (a0 & E0 & _ & _ & _ & -> & Hpr). intros Hc. destruct (ok_declined _ O x a0 E0 Hc) as [H1 H2].
      split; [|done]. rewrite Hpr; [done|]. intros ->. congruence.
Qed.
End invariant.

(** ** No loops *)

Section loops.
Implicit Types q : string -> option string.

Lemma anc_link q a p c : (forall k, anc (cut q a) k c <> Some a) -> forall k, anc (link (cut q a) a p) k c = anc (cut q a) k c.
Proof.
  intros H k. revert c H. induction k as [|k IH]; intros c H; [done|]. cbn. pose proof (H 0%nat) as H0. cbn in H0.
  unfold link at 1. rewrite decide_False by congruence. destruct (cut q a c) as [d|] eqn:E; [|done]. apply IH.
  intros j Hj. apply (H (S j)). cbn. by rewrite E.
Qed.

Lemma link_acyclic q a p : acyclic q -> (forall k, anc (cut q a) k p <> Some a) -> acyclic (link (cut q a) a p).
Proof.
  intros Hac Hp n b Hb. set (l := link (cut q a) a p) in *.
  assert (forall m, anc l (S m) a <> Some a) as Ha.
  { intros m E. cbn in E. unfold l, link at 1 in E. rewrite decide_True in E by done. fold l in E. rewrite (anc_link q a p p Hp) in E. by apply (Hp m). }
  destruct (decide (Exists (fun i => anc l i b = Some a) (seq 0 (S n)))) as [H|H].
  - apply Exists_exists in H as (i & Hi & E). apply elem_of_seq in Hi. pose proof (anc_add l i (S n - i) b a E) as E1.
    replace (i + (S n - i))%nat with (S n) in E1 by lia. rewrite Hb in E1. symmetry in E1. pose proof (anc_add l (S n - i) i a b E1) as E2.
    rewrite E in E2. replace (S n - i + i)%nat with (S n) in E2 by lia. by apply (Ha n).
  - assert (forall k b, (forall i, (i < k)%nat -> anc l i b <> Some a) -> anc l k b = anc (cut q a) k b) as G.
    { intros k. induction k as [|k IH]; intros c H'; [done|]. pose proof (H' 0%nat ltac:(lia)) as H0. cbn in H0 |- *.
      assert (l c = cut q a c) as Hl by (unfold l, link; by rewrite decide_False by congruence). rewrite Hl.
      destruct (cut q a c) as [d|] eqn:E; [|done]. apply IH. intros i Hi Hd. apply (H' (S i) ltac:(lia)). cbn. by rewrite Hl. }
    rewrite G in Hb; [by apply (cut_acyclic q a Hac n b)|]. intros i Hi E. apply H, Exists_exists. exists i. split; [apply elem_of_seq; lia|done].
Qed.

(** The check of the proxy chain finds every way back. *)
Lemma check_chain_spec `{L : FcLib} rounds chain c s account : check_proxy_chain rounds chain c s = Ok tt -> account ∈ chain -> c <> account ->
  forall k, anc (px s) k c <> Some account.
Proof.
  revert chain c. induction rounds as [|rounds IH]; intros chain c H Hin Hne k; cbn in H; apply bind_Ok in H as (a & Ha & H); unfold get_account in Ha;
    (destruct (accounts s !! c) as [x|] eqn:E; [|done]); injection Ha as ->; (destruct (proxy a) as [d|] eqn:Ed; [try done|
      destruct k as [|k]; [cbn; congruence|]; cbn; unfold px at 1; rewrite E; cbn; by rewrite Ed]).
  apply bind_Ok in H as (y & _ & H). apply check_bind_Ok in H as [H1 H]. apply check_bind_Ok in H as [_ H]. to_prop.
  destruct k as [|k]; [cbn; congruence|]. cbn. unfold px at 1. rewrite E. cbn. rewrite Ed. apply (IH ({[d]} ∪ chain)); [done|set_solver|].
  intros ->. apply H1, Hin.
Qed.
End loops.

(** ** The evaluators *)

Section evaluators.
Context `{L : FcLib} `{!FcLaws L}.

(** A change of accounts that leaves stake, proxies and levels alone. *)
Lemma modify_same s name f : (forall a, proxied_vsf_votes (f a) = proxied_vsf_votes a /\ vesting_shares (f a) = vesting_shares a /\
    sum_delayed_votes (f a) = sum_delayed_votes a /\ proxy (f a) = proxy a) ->
  let s' := modify_account name f s in
  (forall x, px s' x = px s x) /\ (forall x, dirp s' x = dirp s x) /\ (forall x, vest s' x = vest s x) /\
  (forall x a', accounts s' !! x = Some a' -> exists a, accounts s !! x = Some a /\ proxied_vsf_votes a' = proxied_vsf_votes a /\
     a' = if decide (x = name) then f a else a) /\
  (forall x, is_Some (accounts s' !! x) <-> is_Some (accounts s !! x)).
Proof.
  intros H s'. assert (forall x, accounts s' !! x = if decide (x = name) then f <$> accounts s !! x else accounts s !! x) as E by apply modify_lookup.
  split_and!.
  - intros x. unfold px. rewrite E. destruct (decide _); [|done]. destruct (accounts s !! x); [|done]. cbn. apply H.
  - intros x. unfold dirp. rewrite E. destruct (decide _); [|done]. destruct (accounts s !! x) as [a|]; [|done]. cbn. destruct (H a) as (_ & -> & -> & _). done.
  - intros x. unfold vest. rewrite E. destruct (decide _); [|done]. destruct (accounts s !! x) as [a|]; [|done]. cbn. apply H.
  - intros x a'. rewrite E. destruct (decide _); [|by exists a']. destruct (accounts s !! x) as [a|]; [|done]. intros [= <-]. exists a. split_and!; [done|apply H|done].
  - intros x. rewrite E. destruct (decide _); [by rewrite fmap_is_Some|done].
Qed.

(** New votes and a new count for one voter, with the tallies to match. *)
Lemma vote_ok s voter f V c : gov_ok s -> px s voter = None ->
  (forall a, proxied_vsf_votes (f a) = proxied_vsf_votes a /\ vesting_shares (f a) = vesting_shares a /\
    sum_delayed_votes (f a) = sum_delayed_votes a /\ proxy (f a) = proxy a) ->
  (forall a, accounts s !! voter = Some a -> can_vote (f a) = true /\
    witnesses_voted_for (f a) = Z.of_nat (length (filter (fun v => v.1 = voter) V)) /\ witnesses_voted_for (f a) <= HIVE_MAX_ACCOUNT_WITNESS_VOTES) ->
  NoDup V -> (forall v, v ∈ V -> v ∈ witness_votes s \/ (v.1 = voter /\ is_Some (accounts s !! voter) /\ is_witness (sched s) v.2)) ->
  (forall x, x <> voter -> length (filter (fun v => v.1 = x) V) = length (votes_of s x)) ->
  same_witnesses (sched s) c ->
  (forall w, is_witness (sched s) w -> tally c w = sumZ (fun v => ind (v.2 = w) * power (names s) (px s) (dirp s) v.1) V) ->
  gov_ok (modify_account voter f (set_votes V (set_sched c s))).
Proof.
  intros O Hroot Hf Hvoter HN HV Hothers Hc HT. set (s0 := set_votes V (set_sched c s)). pose proof (ok_wf _ O) as W.
  destruct (modify_same s0 voter f Hf) as (Hpx & Hdir & Hvest & Hacc & Hdom). set (s' := modify_account voter f s0) in *.
  change (px s0) with (px s) in *. change (dirp s0) with (dirp s) in *. change (vest s0) with (vest s) in *. change (accounts s0) with (accounts s) in *.
  assert (names s' = names s) as Hns by exact (modify_names s0 voter f).
  assert (forall x, length (votes_of s' x) = length (filter (fun v => v.1 = x) V)) as Hlen by (intros x; unfold votes_of; by rewrite length_fmap).
  destruct (same_witnesses_frame _ _ Hc) as [Htot _]. constructor.
  - constructor.
    + intros x a' E. destruct (Hacc x a' E) as (a & Ea & -> & _). by apply (gw_len _ W x a).
    + intros x p. rewrite Hpx, Hdom. apply (gw_proxy _ W).
    + eapply acyclic_ext; [intros x; symmetry; apply Hpx|apply W].
    + done.
    + intros v Hv. rewrite Hdom, Hpx. cbn. rewrite (same_witnesses_is _ _ _ Hc). destruct (HV v Hv) as [H|(-> & H1 & H2)]; [by apply (gw_voters _ W)|done].
    + by eapply same_witnesses_ok; [|apply W].
  - constructor.
    + intros x a' j E Hj. destruct (Hacc x a' E) as (a & Ea & -> & _). rewrite (bk_lv _ _ _ (ok_book _ O) x a j Ea Hj), Hns. symmetry. by apply level_ext.
    + intros w Hw. cbn in Hw |- *. rewrite HT by (by apply (same_witnesses_is _ _ _ Hc)). apply sumZ_ext. intros v _. f_equal. rewrite Hns. symmetry. by apply power_ext.
  - intros x a' E. destruct (Hacc x a' E) as (a & Ea & _ & ->). destruct (decide _); [destruct (Hf a) as (_ & -> & -> & _)|]; by apply (ok_stake _ O x a).
  - rewrite Hns, (sumZ_ext _ (vest s)) by done. cbn. rewrite Htot. apply O.
  - cbn. rewrite Htot. apply O.
  - intros x a' E. rewrite Hlen. destruct (Hacc x a' E) as (a & Ea & _ & ->). destruct (decide (x = voter)) as [->|Hne]; [by apply Hvoter|].
    rewrite Hothers by done. by apply (ok_count _ O x a).
  - intros x a' E Hcan. destruct (Hacc x a' E) as (a & Ea & _ & ->). destruct (decide (x = voter)) as [->|Hne]; [destruct (Hvoter a Ea); congruence|].
    destruct (ok_declined _ O x a Ea Hcan) as [H1 H2]. split; [done|]. apply nil_length_inv. by rewrite Hlen, Hothers, H2.
Qed.

Lemma power_value s x a : gov_ok s -> accounts s !! x = Some a -> get_governance_vote_power a = Ok (power (names s) (px s) (dirp s) x).
Proof.
  intros O E. pose proof (ok_wf _ O) as W. pose proof (dirp_total s O) as HT. pose proof (ok_range _ O) as HR.
  destruct (passed_on_spec s x a _ _ _ W (ok_book _ O) E (ok_stake _ O x a E) (vest_bound _ _ _ O E)) as [Ed Ep].
  unfold get_governance_vote_power. rewrite Ed. cbn [mbind result_bind]. unfold passed_on in Ep. rewrite Ed in Ep. injection Ep as Ep.
  destruct (levels_small (names s) (px s) (dirp s) x (gw_acyclic _ W) (fun b _ => dirp_nonneg s b O) ltac:(lia)) as [S _].
  pose proof (fold_small _ S) as Hf. rewrite levels_sum, levels_of_unfold in Hf by (apply names_NoDup || (apply names_elem; by eexists)).
  cbn [foldM] in Hf. rewrite Ep. pose proof (vest_bound _ _ _ O E). pose proof (ok_stake _ O x a E). rewrite safe_add_exact in Hf; [exact Hf|..]; rewrite ?(dirp_account s x a E); unfold in_s; lia.
Qed.

Lemma insert_vote_perm v l : insert_vote v l ≡ₚ v :: l.
Proof. induction l as [|x l IH]; [done|]. cbn. destruct (vote_before v x); [done|]. rewrite IH. constructor. Qed.

Lemma filter_count (P : string * string -> Prop) `{!forall x, Decision (P x)} l l' : l ≡ₚ l' -> length (filter P l) = length (filter P l').
Proof. intros E. apply Permutation_length. by rewrite E. Qed.

Lemma length_votes_of s x : length (votes_of s x) = length (filter (fun v => v.1 = x) (witness_votes s)).
Proof. unfold votes_of. by rewrite length_fmap. Qed.

Lemma expiration_ok s name t : gov_ok s -> gov_ok (modify_account name (update_governance_vote_expiration_ts t) s).
Proof.
  intros O. destruct (modify_same s name (update_governance_vote_expiration_ts t) ltac:(done)) as (Hpx & Hdir & Hvest & Hacc & Hdom).
  pose proof (ok_wf _ O) as W. pose proof (modify_names s name (update_governance_vote_expiration_ts t)) as Hns. set (s' := modify_account _ _ s) in *.
  assert (forall x, votes_of s' x = votes_of s x) as Hvo by done.
  constructor.
  - constructor; [|intros x p; rewrite Hpx, Hdom; apply (gw_proxy _ W)|eapply acyclic_ext; [intros x; symmetry; apply Hpx|apply W]|apply W|
      intros v Hv; rewrite Hdom, Hpx; by apply (gw_voters _ W)|apply W].
    intros x a' E. destruct (Hacc x a' E) as (a & Ea & -> & _). by apply (gw_len _ W x a).
  - constructor.
    + intros x a' j E Hj. destruct (Hacc x a' E) as (a & Ea & -> & _). rewrite (bk_lv _ _ _ (ok_book _ O) x a j Ea Hj), Hns. symmetry. by apply level_ext.
    + intros w Hw. change (sched s') with (sched s) in *. rewrite (bk_tally _ _ _ (ok_book _ O) w Hw). apply sumZ_ext. intros v _. f_equal. rewrite Hns. symmetry. by apply power_ext.
  - intros x a' E. destruct (Hacc x a' E) as (a & Ea & _ & ->). destruct (decide _); by apply (ok_stake _ O x a).
  - rewrite Hns, (sumZ_ext _ (vest s)) by done. apply O.
  - apply O.
  - intros x a' E. rewrite Hvo. destruct (Hacc x a' E) as (a & Ea & _ & ->). destruct (decide _); by apply (ok_count _ O x a).
  - intros x a' E. rewrite Hvo. destruct (Hacc x a' E) as (a & Ea & _ & ->). destruct (decide _); by apply (ok_declined _ O x a).
Qed.

Definition vote_allowed (account witness : string) (approve : bool) (s : gov) : bool :=
  negb (is_pixa_ico account) &&
  match accounts s !! account, find_witness witness (witnesses (sched s)) with
  | Some a, Some _ =>
      negb (has_proxy a) && can_vote a &&
      if bool_decide ((account, witness) ∈ witness_votes s) then negb approve
      else approve && (witnesses_voted_for a <? HIVE_MAX_ACCOUNT_WITNESS_VOTES)
  | _, _ => false
  end.

Lemma witness_tally_range s w : gov_ok s -> is_witness (sched s) w -> 0 <= tally (sched s) w <= total_vesting_shares (sched s).
Proof.
  intros O Hw. pose proof (ok_wf _ O) as W. rewrite (bk_tally _ _ _ (ok_book _ O) w Hw). pose proof (dirp_total s O).
  pose proof (tally_bound (names s) (px s) (dirp s) w _ (gw_acyclic _ W) (gw_nodup _ W) (fun v H => proj1 (proj2 (gw_voters _ W v H))) (fun b _ => dirp_nonneg s b O)). lia.
Qed.

(** A vote that appears or disappears moves the tally by the power of the voter,
    which always fits. *)
Lemma move_vote s account w V sign : gov_ok s -> px s account = None -> is_witness (sched s) w -> NoDup V ->
  (forall v, v ∈ V -> px s v.1 = None) -> sign = 1 \/ sign = -1 ->
  (forall n, sumZ (fun v => ind (v.2 = n) * power (names s) (px s) (dirp s) v.1) V =
     sumZ (fun v => ind (v.2 = n) * power (names s) (px s) (dirp s) v.1) (witness_votes s) + ind (n = w) * (sign * power (names s) (px s) (dirp s) account)) ->
  exists c, adjust_witness_vote w (sign * power (names s) (px s) (dirp s) account) (sched s) = Ok c /\ same_witnesses (sched s) c /\
    (forall n, tally c n = tally (sched s) n + ind (n = w) * (sign * power (names s) (px s) (dirp s) account)) /\
    (forall n, is_witness (sched s) n -> tally c n = sumZ (fun v => ind (v.2 = n) * power (names s) (px s) (dirp s) v.1) V).
Proof.
  intros O Hroot Hw HN Hr Hsign HV. pose proof (ok_wf _ O) as W. set (p := power (names s) (px s) (dirp s)) in *.
  assert (forall b, b ∈ names s -> 0 <= dirp s b) as Hd by (intros b _; by apply dirp_nonneg).
  pose proof (power_bound (names s) (px s) (dirp s) account (gw_acyclic _ W) Hd) as HP. fold p in HP.
  pose proof (dirp_total s O) as HT. pose proof (ok_range _ O) as HR. pose proof (witness_tally_range s w O Hw) as Hold.
  pose proof (tally_bound (names s) (px s) (dirp s) w V (gw_acyclic _ W) HN Hr Hd) as Hnew. fold p in Hnew.
  rewrite HV, (ind_true (w = w)), Z.mul_1_l in Hnew by done. pose proof (bk_tally _ _ _ (ok_book _ O) w Hw) as Ht. fold p in Ht. rewrite <- Ht in Hnew.
  destruct (adjust_vote_spec w (sign * p account) (sched s)) as (c & E & S & T); [apply W|done|unfold in_s; lia|unfold in_s; lia|unfold in_s; lia|lia|].
  exists c. split_and!; [done|done|done|]. intros n Hn. rewrite T, HV. by rewrite (bk_tally _ _ _ (ok_book _ O) n Hn).
Qed.

Lemma witness_vote_spec account witness approve s : gov_ok s ->
  if vote_allowed account witness approve s
  then exists s', account_witness_vote account witness approve s = Ok s' /\ gov_ok s' /\
         (forall w, w ∈ votes_of s' account <-> (w = witness /\ approve = true) \/ (w <> witness /\ w ∈ votes_of s account)) /\
         (forall x, x <> account -> votes_of s' x ≡ₚ votes_of s x) /\ (forall x, px s' x = px s x)
  else exists e, account_witness_vote account witness approve s = Throw e.
Proof.
  intros O. unfold vote_allowed, account_witness_vote, assert_not_pixa_ico, get_account, check, get_witness. destruct (is_pixa_ico account); [cbn; by eexists|]. cbn [negb andb mbind result_bind].
  destruct (accounts s !! account) as [a|] eqn:Ha; [|by eexists]. cbn [mbind result_bind].
  set (s1 := modify_account account (update_governance_vote_expiration_ts (now s)) s). change (witnesses (sched s1)) with (witnesses (sched s)).
  destruct (find_witness witness (witnesses (sched s))) as [w|] eqn:Ew; [|by destruct (has_proxy a), (can_vote a); eexists].
  destruct (has_proxy a) eqn:Ehp; [by eexists|]. cbn [negb andb mbind result_bind]. destruct (can_vote a) eqn:Ec; [|by eexists]. cbn [mbind result_bind andb].
  apply find_witness_Some in Ew as [Hw <-]. change (witness_votes s1) with (witness_votes s).
  pose proof (expiration_ok s account (now s) O) as O1. fold s1 in O1. pose proof (ok_wf _ O1) as W1.
  assert (accounts s1 !! account = Some (update_governance_vote_expiration_ts (now s) a)) as Ha1 by (unfold s1; rewrite modify_lookup, decide_True, Ha by done; done).
  assert (px s1 account = None) as Hroot by (unfold px; rewrite Ha1; cbn; unfold has_proxy in Ehp; by destruct (proxy a)).
  assert (is_witness (sched s1) (owner w)) as Hwit by (apply list_elem_of_fmap; by exists w).
  assert (forall x, px s1 x = px s x) as Hpx1 by (intros x; unfold px, s1; rewrite modify_lookup; destruct (decide _) as [->|]; [by rewrite Ha|done]).
  pose proof (power_value s1 account _ O1 Ha1) as Hpow. change (get_governance_vote_power (update_governance_vote_expiration_ts (now s) a)) with (get_governance_vote_power a) in Hpow.
  pose proof (ok_count _ O account a Ha) as [Hcnt Hmax]. pose proof (gw_nodup _ W1) as HN. change (witness_votes s1) with (witness_votes s) in HN.
  pose proof (fun v H => proj1 (proj2 (gw_voters _ W1 v H))) as Hroots. change (witness_votes s1) with (witness_votes s) in Hroots.
  destruct (bool_decide ((account, owner w) ∈ witness_votes s)) eqn:Ein; to_prop; cbn [negb].
  - destruct approve; [by eexists|]. cbn [negb mbind result_bind]. rewrite Hpow. cbn [mbind result_bind].
    pose proof (power_bound (names s1) (px s1) (dirp s1) account (gw_acyclic _ W1) (fun b _ => dirp_nonneg s1 b O1)) as HP. pose proof (dirp_total s1 O1). pose proof (ok_range _ O1).
    rewrite safe_neg_exact by (unfold in_s; lia). cbn [mbind result_bind]. set (V := filter (fun x => x <> (account, owner w)) (witness_votes s)).
    destruct (move_vote s1 account (owner w) V (-1)) as (c & E & S & _ & T); [done|done|done|by apply NoDup_filter|intros v Hv; apply list_elem_of_filter in Hv as [_ Hv]; by apply Hroots|by right| |].
    { intros n. unfold V. rewrite sumZ_filter. change (witness_votes s1) with (witness_votes s). set (p := power _ _ _).
      rewrite (sumZ_ext _ (fun v => ind (v.2 = n) * p v.1 + -1 * (ind (v = (account, owner w)) * (ind (v.2 = n) * p v.1)))).
      - rewrite sumZ_add, sumZ_scale, (sumZ_pick (fun v => ind (v.2 = n) * p v.1)) by done. rewrite (ind_true (_ ∈ _)) by done. cbn.
        rewrite (ind_ext (owner w = n) (n = owner w)) by naive_solver. lia.
      - intros v _. destruct (decide (v = (account, owner w))) as [->|Hne]; [rewrite (ind_false ((account, owner w) <> (account, owner w))) by (intros Hn; by apply Hn); rewrite (ind_true ((account, owner w) = (account, owner w))) by done|rewrite (ind_true (v <> _)), (ind_false (v = _)) by done]; lia. }
    replace (- power (names s1) (px s1) (dirp s1) account) with (-1 * power (names s1) (px s1) (dirp s1) account) by lia. rewrite E. cbn [mbind result_bind].
    eexists. split; [done|]. assert (length (filter (fun v => v.1 = account) V) = (length (votes_of s account) - 1)%nat) as Hlen.
    { rewrite length_votes_of. assert (witness_votes s ≡ₚ (account, owner w) :: V) as Hperm.
      { apply NoDup_Permutation; [done|apply NoDup_cons; split; [unfold V; rewrite list_elem_of_filter; naive_solver|by apply NoDup_filter]|].
        intros v. rewrite elem_of_cons. unfold V. rewrite list_elem_of_filter. destruct (decide (v = (account, owner w))) as [->|]; naive_solver. }
      rewrite (filter_count _ _ _ Hperm), filter_cons, decide_True by done. cbn. lia. }
    assert ((account, owner w) ∈ witness_votes s) as Hin by done. apply votes_of_elem in Hin. assert (1 <= length (votes_of s account))%nat as Hpos by (destruct (votes_of s account); [by apply elem_of_nil in Hin|cbn; lia]).
    assert (u16 (witnesses_voted_for a - 1) = witnesses_voted_for a - 1) as Hu by (apply uwrap_id; unfold in_u, HIVE_MAX_ACCOUNT_WITNESS_VOTES in *; lia).
    split; [|split_and!].
    + apply (vote_ok s1 account (set_voted_for (u16 (witnesses_voted_for a - 1))) V c); [done|done|done| |by apply NoDup_filter|intros v Hv; left; by apply list_elem_of_filter in Hv as [_ ?]| |done|done].
      * intros b Hb. rewrite Ha1 in Hb. injection Hb as <-. cbn. rewrite Hu. split_and!; [done|rewrite Hlen; lia|lia].
      * intros x Hx. unfold V. rewrite list_filter_filter, length_votes_of. change (witness_votes s1) with (witness_votes s). f_equal. apply filter_ext_in. intros v _. split; [by intros [? _]|intros <-; split; [done|]; intros ->; done].
    + intros n. rewrite !votes_of_elem. cbn. rewrite list_elem_of_filter. naive_solver.
    + intros x Hx. unfold votes_of. cbn. rewrite list_filter_filter. apply reflexive_eq. f_equal. apply filter_ext_in. intros v _. split; [by intros [? _]|intros <-; split; [done|]; intros ->; done].
    + intros x. rewrite <- Hpx1. unfold px. cbn. destruct (decide (x = account)) as [->|]; [|by rewrite !lookup_alter_ne]. rewrite lookup_alter_eq. by destruct (alter _ _ _ !! account).
  - destruct approve; [|by eexists]. cbn [andb mbind result_bind]. destruct (witnesses_voted_for a <? HIVE_MAX_ACCOUNT_WITNESS_VOTES) eqn:Elim; [|by eexists]. to_prop.
    cbn [mbind result_bind]. rewrite Hpow. cbn [mbind result_bind]. set (V := insert_vote (account, owner w) (witness_votes s)).
    assert (V ≡ₚ (account, owner w) :: witness_votes s) as HVp by apply insert_vote_perm.
    assert (NoDup V) as HVN by (rewrite HVp; by apply NoDup_cons).
    destruct (move_vote s1 account (owner w) V 1) as (c & E & S & _ & T); [done|done|done|done|intros v; rewrite HVp; intros [->|Hv]%elem_of_cons; [done|by apply Hroots]|by left| |].
    { intros n. rewrite (sumZ_perm _ _ _ HVp), sumZ_cons. cbn [fst snd]. rewrite (ind_ext (owner w = n) (n = owner w)) by naive_solver. change (witness_votes s1) with (witness_votes s). lia. }
    rewrite Z.mul_1_l in E. change (sched (set_votes V s1)) with (sched s1). rewrite E. cbn [mbind result_bind]. eexists. split; [done|].
    assert (u16 (witnesses_voted_for a + 1) = witnesses_voted_for a + 1) as Hu by (apply uwrap_id; unfold in_u, HIVE_MAX_ACCOUNT_WITNESS_VOTES in *; lia).
    split; [|split_and!].
    + apply (vote_ok s1 account (set_voted_for (u16 (witnesses_voted_for a + 1))) V c); [done|done|done| |done| | |done|done].
      * intros b Hb. rewrite Ha1 in Hb. injection Hb as <-. cbn. rewrite Hu, (filter_count _ _ _ HVp), filter_cons, decide_True by done. cbn. rewrite <- length_votes_of. split_and!; [done|lia|lia].
      * intros v. rewrite HVp. intros [->|Hv]%elem_of_cons; [right; split_and!; [done|by eexists|done]|by left].
      * intros x Hx. rewrite (filter_count _ _ _ HVp), filter_cons, decide_False by (cbn; congruence). by rewrite length_votes_of.
    + intros n. rewrite !votes_of_elem. cbn. rewrite HVp, elem_of_cons. naive_solver.
    + intros x Hx. unfold votes_of. cbn. rewrite HVp, filter_cons, decide_False by (cbn; congruence). done.
    + intros x. rewrite <- Hpx1. unfold px. cbn. destruct (decide (x = account)) as [->|]; [|by rewrite !lookup_alter_ne]. rewrite lookup_alter_eq. by destruct (alter _ _ _ !! account).
Qed.

Lemma check_chain_same rounds chain c s s' : (forall x, option_map proxy (accounts s' !! x) = option_map proxy (accounts s !! x)) ->
  check_proxy_chain rounds chain c s' = check_proxy_chain rounds chain c s.
Proof.
  intros H. revert chain c. induction rounds as [|rounds IH]; intros chain c; cbn; unfold get_account; pose proof (H c) as Hc;
    destruct (accounts s !! c) as [a|], (accounts s' !! c) as [a'|]; try done; injection Hc as Hc; cbn; rewrite Hc; [done|].
  destruct (proxy a) as [d|]; [|done]. pose proof (H d) as Hd. destruct (accounts s !! d), (accounts s' !! d); try done. cbn [mbind result_bind].
  destruct (check _ _); [|done]. cbn [mbind result_bind]. destruct (check _ _); [|done]. cbn [mbind result_bind]. apply IH.
Qed.

Definition proxy_allowed (account proxy_name : string) (s : gov) : bool :=
  negb (is_pixa_ico account) &&
  match accounts s !! account with
  | Some a =>
      can_vote a &&
      if bool_decide (proxy_name = HIVE_PROXY_TO_SELF_ACCOUNT) then has_proxy a
      else match accounts s !! proxy_name with
           | Some b => negb (bool_decide (proxy a = proxy_ref proxy_name b)) &&
               is_ok (check_proxy_chain (S max_depth) {[ account; proxy_name ]} proxy_name s) && negb (bool_decide (proxy_name = account))
           | None => false
           end
  | None => false
  end.

Lemma modify_modify name f g s : modify_account name f (modify_account name g s) = modify_account name (fun a => f (g a)) s.
Proof. unfold modify_account, set_accounts. cbn. f_equal. apply map_eq. intros x. destruct (decide (x = name)) as [->|Hne];
  [rewrite !lookup_alter_eq; by destruct (accounts s !! name)|by rewrite !lookup_alter_ne]. Qed.
Lemma push_cleared_same name a s : accounts (push_cleared name a s) = accounts s /\ witness_votes (push_cleared name a s) = witness_votes s /\
  sched (push_cleared name a s) = sched s.
Proof. unfold push_cleared. by destruct (proxy a). Qed.

(** What a block or an operation does to cut an account loose: its votes are
    taken back everywhere, then its records go. *)
Lemma drop_and_cut s name a f : gov_ok s -> accounts s !! name = Some a ->
  (forall b, set_can_vote true (set_expiration 0 (f b)) = set_can_vote true (set_expiration 0 (set_proxy None b))) ->
  exists s1, drop_votes name s = Ok s1 /\ proposal_votes s1 = proposal_votes s /\ decline_requests s1 = decline_requests s /\ now s1 = now s /\
    (forall x, x <> name -> exists v, accounts s1 !! x = set_proxied v <$> accounts s !! x) /\
    (exists v, accounts s1 !! name = Some (set_proxied v (set_voted_for 0 a))) /\
    forall s2, accounts s2 = alter f name (accounts s1) -> witness_votes s2 = witness_votes s1 -> sched s2 = sched s1 ->
      gov_ok s2 /\ (forall x, px s2 x = cut (px s) name x) /\ (forall x, votes_of s2 x = if decide (x = name) then [] else votes_of s x).
Proof.
  intros O Ha Hf. destruct (nullify_spec s name O ltac:(by eexists)) as (s0 & E & N). exists (clear_witness_votes name s0).
  pose proof (nu_frame _ _ _ N) as F. unfold drop_votes. rewrite E. cbn [mbind result_bind]. split; [done|].
  split_and!; [apply F|apply F|unfold now; cbn; apply same_witnesses_frame, F| | |].
  - intros x Hx. unfold clear_witness_votes. rewrite modify_lookup, decide_False by done. cbn. destruct (accounts s !! x) as [b|] eqn:Eb.
    + destruct (gov_frame_account s s0 x b F Eb) as [v Hv]. by exists v.
    + exists []. by rewrite (frame_None s s0 x F Eb).
  - destruct (gov_frame_account s s0 name a F Ha) as [v Hv]. exists v. unfold clear_witness_votes. rewrite modify_lookup, decide_True by done. cbn. by rewrite Hv.
  - intros s2 E1 E2 E3. destruct (after_cut s s0 s2 name (fun b => f (set_voted_for 0 b)) O N) as [O2 Hp].
    + intros b _. rewrite Hf. done.
    + rewrite E1. cbn. apply map_eq. intros x. destruct (decide (x = name)) as [->|Hne]; [rewrite !lookup_alter_eq; by destruct (accounts s0 !! name)|by rewrite !lookup_alter_ne].
    + done.
    + done.
    + split_and!; [done|done|]. intros x. rewrite (votes_of_filter s0 s2 name x); [|done]. unfold votes_of. by rewrite (gf_votes _ _ F).
Qed.

(** The first account of the chain as a proxy is no proxy. *)
Definition new_proxies (account proxy_name : string) (s : gov) : string -> option string :=
  if bool_decide (proxy_name = HIVE_PROXY_TO_SELF_ACCOUNT) then cut (px s) account
  else match accounts s !! proxy_name ≫= proxy_ref proxy_name with
       | Some p => link (cut (px s) account) account p
       | None => cut (px s) account
       end.

(** Taking back the votes and leaving the proxy, as the first half of a proxy
    operation does. *)
Lemma cut_loose s1 s2 account a : gov_ok s1 -> nullified s1 s2 account ->
  let t := modify_account account (set_proxy None) (push_cleared account a (clear_witness_votes account s2)) in
  gov_ok t /\ (forall x, px t x = cut (px s1) account x) /\ (forall x, votes_of t x = if decide (x = account) then [] else votes_of s1 x).
Proof.
  intros O N t. destruct (push_cleared_same account a (clear_witness_votes account s2)) as (P1 & P2 & P3). pose proof (nu_frame _ _ _ N) as F.
  destruct (after_cut s1 s2 t account (fun b => set_proxy None (set_voted_for 0 b)) O N) as [Ot Hp]; [done| | | |].
  - unfold t, modify_account. cbn. rewrite P1. cbn. apply map_eq. intros x. destruct (decide (x = account)) as [->|];
      [rewrite !lookup_alter_eq; by destruct (accounts s2 !! account)|by rewrite !lookup_alter_ne].
  - unfold t. cbn. by rewrite P2.
  - unfold t. cbn. by rewrite P3.
  - split_and!; [done|done|]. intros x. rewrite (votes_of_filter s2 t account x); [|unfold t; cbn; by rewrite P2]. unfold votes_of. by rewrite (gf_votes _ _ F).
Qed.

Lemma proxy_set_spec s1 s2 account a p : gov_ok s1 -> nullified s1 s2 account -> accounts s1 !! account = Some a -> can_vote a = true ->
  is_Some (accounts s1 !! p) -> p <> account -> check_proxy_chain (S max_depth) {[ account; p ]} p s2 = Ok tt ->
  let s4 := modify_account account (set_proxy (Some p)) (push_cleared account a (clear_witness_votes account s2)) in
  exists b delta s', get_account account s4 = Ok b /\ passed_on b = Ok delta /\ adjust_proxied_witness_votes account delta s4 = Ok s' /\ gov_ok s' /\
    (forall x, px s' x = link (cut (px s1) account) account p x) /\ (forall x, votes_of s' x = if decide (x = account) then [] else votes_of s1 x).
Proof.
  intros O N Ha Hc Hp Hne Hchain s4. destruct (cut_loose s1 s2 account a O N) as (Ot & Hpx & Hvo). pose proof (nu_frame _ _ _ N) as F.
  set (t := modify_account account (set_proxy None) _) in *. destruct (push_cleared_same account a (clear_witness_votes account s2)) as (P1 & _ & _).
  assert (s4 = modify_account account (set_proxy (Some p)) t) as E4 by (unfold t; by rewrite modify_modify).
  destruct (gov_frame_account s1 s2 account a F Ha) as [v Hv].
  set (b := set_proxy None (set_voted_for 0 (set_proxied v a))).
  assert (accounts t !! account = Some b) as Hb by (unfold t; rewrite modify_lookup, decide_True, P1 by done; unfold clear_witness_votes; rewrite modify_lookup, decide_True by done; cbn; by rewrite Hv).
  assert (forall k, anc (cut (px s1) account) k p <> Some account) as Hloop.
  { intros k Hk. apply anc_cut_le in Hk. rewrite <- (anc_ext (px s2)) in Hk by (intros; by apply frame_px). revert Hk. eapply check_chain_spec; [done|set_solver|done]. }
  destruct (link_spec t account b p) as (delta & s' & E1 & E2 & F' & O'); [done|done|rewrite Hpx; unfold cut; by rewrite decide_True|rewrite Hvo; by rewrite decide_True|done| | |].
  - unfold t. rewrite modify_lookup, decide_False, P1 by done. unfold clear_witness_votes. rewrite modify_lookup, decide_False by done. cbn. by apply (frame_lookup s1 s2).
  - eapply acyclic_ext; [|apply (link_acyclic (px s1) account p); [apply O|done]]. intros x. unfold link. destruct (decide _); [done|]. by rewrite Hpx.
  - exists (set_proxy (Some p) b), delta, s'. rewrite E4. split_and!; [|done|done|done| |].
    + unfold get_account. rewrite modify_lookup, decide_True, Hb by done. done.
    + intros x. rewrite (frame_px _ _ x F'). unfold px at 1. rewrite modify_lookup. unfold link. destruct (decide (x = account)) as [->|]; [by rewrite Hb|].
      rewrite <- Hpx. done.
    + intros x. rewrite <- Hvo. unfold votes_of. by rewrite (gf_votes _ _ F').
Qed.

(** The first account as a proxy: the account is left without one. *)
Lemma proxy_unset_spec s1 s2 account a : gov_ok s1 -> nullified s1 s2 account -> accounts s1 !! account = Some a ->
  let s4 := modify_account account (set_proxy None) (push_cleared account a (clear_witness_votes account s2)) in
  exists b delta s', get_account account s4 = Ok b /\ passed_on b = Ok delta /\ adjust_proxied_witness_votes account delta s4 = Ok s' /\ gov_ok s' /\
    (forall x, px s' x = cut (px s1) account x) /\ (forall x, votes_of s' x = if decide (x = account) then [] else votes_of s1 x).
Proof.
  intros O N Ha s4. destruct (cut_loose s1 s2 account a O N) as (Ot & Hpx & Hvo). fold s4 in Ot, Hpx, Hvo. pose proof (nu_frame _ _ _ N) as F.
  destruct (push_cleared_same account a (clear_witness_votes account s2)) as (P1 & _ & _). destruct (gov_frame_account s1 s2 account a F Ha) as [v Hv].
  set (b := set_proxy None (set_voted_for 0 (set_proxied v a))).
  assert (accounts s4 !! account = Some b) as Hb by (unfold s4; rewrite modify_lookup, decide_True, P1 by done; unfold clear_witness_votes; rewrite modify_lookup, decide_True by done; cbn; by rewrite Hv).
  set (delta := levels_of (names s4) (px s4) (dirp s4) account).
  assert (passed_on b = Ok delta) as Ep.
  { rewrite (proj2 (passed_on_spec s4 account b _ _ _ (ok_wf _ Ot) (ok_book _ Ot) Hb (ok_stake _ Ot _ _ Hb) (vest_bound _ _ _ Ot Hb))). unfold delta.
    by rewrite levels_of_unfold by (apply names_NoDup || (apply names_elem; by eexists)). }
  destruct (levels_small (names s4) (px s4) (dirp s4) account (gw_acyclic _ (ok_wf _ Ot))) as [S1 _]; [intros x _; by apply dirp_nonneg|pose proof (dirp_total s4 Ot); pose proof (ok_range _ Ot); lia|].
  exists b, delta, s4. split_and!; [by apply get_account_Some|done| |done|done|done].
  unfold adjust_proxied_witness_votes. destruct max_depth as [|m]; cbn [adjust_proxied_levels]; rewrite (get_account_Some _ _ _ Hb); cbn [mbind result_bind]; change (proxy b) with (@None string); cbv iota;
    rewrite fold_prefix by done; cbn [mbind result_bind]; rewrite Hvo, decide_True by done; by destruct s4.
Qed.

Lemma witness_proxy_spec account proxy_name s : gov_ok s ->
  if proxy_allowed account proxy_name s
  then exists s', account_witness_proxy account proxy_name s = Ok s' /\ gov_ok s' /\
         (forall x, px s' x = new_proxies account proxy_name s x) /\
         (forall x, votes_of s' x = if decide (x = account) then [] else votes_of s x)
  else exists e, account_witness_proxy account proxy_name s = Throw e.
Proof.
  intros O. unfold proxy_allowed, account_witness_proxy, assert_not_pixa_ico, check. destruct (is_pixa_ico account); [cbn; by eexists|]. cbn [negb andb mbind result_bind].
  destruct (accounts s !! account) as [a|] eqn:Ha; [rewrite (get_account_Some _ _ _ Ha)|unfold get_account; rewrite Ha; by eexists]. cbn [mbind result_bind]. destruct (can_vote a) eqn:Hc; [|by eexists]. cbn [andb mbind result_bind].
  pose proof (expiration_ok s account (now s) O) as O1. set (s1 := modify_account account _ s) in *.
  assert (accounts s1 !! account = Some (update_governance_vote_expiration_ts (now s) a)) as Ha1 by (unfold s1; rewrite modify_lookup, decide_True, Ha by done; done).
  assert (forall x, option_map proxy (accounts s1 !! x) = option_map proxy (accounts s !! x)) as Hpr
    by (intros x; unfold s1; rewrite modify_lookup; destruct (decide _) as [->|]; [by rewrite Ha|done]).
  assert (forall x, px s1 x = px s x) as Hpx1 by (intros x; unfold px; specialize (Hpr x); destruct (accounts s1 !! x), (accounts s !! x); cbn in *; congruence).
  destruct (nullify_spec s1 account O1 ltac:(by eexists)) as (s2 & E2 & N). rewrite E2. cbn [mbind result_bind]. pose proof (nu_frame _ _ _ N) as F.
  assert (forall x, option_map proxy (accounts s2 !! x) = option_map proxy (accounts s !! x)) as Hpr2.
  { intros x. rewrite <- Hpr. pose proof (gf_accounts _ _ F x) as G. destruct (accounts s2 !! x), (accounts s1 !! x); try done. cbn in G |- *. injection G. congruence. }
  unfold new_proxies. destruct (bool_decide (proxy_name = HIVE_PROXY_TO_SELF_ACCOUNT)) eqn:Eself; cbn [negb].
  - destruct (has_proxy a) eqn:Ehp; [|by eexists]. cbn [mbind result_bind]. eexists. split; [done|].
    destruct (push_cleared_same account a s2) as (P1 & P2 & P3).
    assert (votes_of s2 account = []) as Hnov.
    { destruct (votes_of s2 account) as [|w l] eqn:Ev; [done|]. assert ((account, w) ∈ witness_votes s2) as Hin by (apply votes_of_elem; rewrite Ev; left).
      pose proof (gw_voters _ (nu_wf _ _ _ N) _ Hin) as (_ & Hn & _). cbn in Hn. rewrite (frame_px _ _ _ F), Hpx1 in Hn. unfold px in Hn. rewrite Ha in Hn. cbn in Hn. unfold has_proxy in Ehp. by rewrite Hn in Ehp. }
    assert (forall s', accounts s' = alter (set_proxy None) account (accounts s2) -> witness_votes s' = witness_votes s2 -> sched s' = sched s2 ->
      gov_ok s' /\ forall x, px s' x = cut (px s1) account x) as G.
    { intros s' G1 G2 G3. apply (after_cut s1 s2 s' account (set_proxy None) O1 N); [|done| |done].
      - intros b Hb. destruct (frame_back _ _ _ _ F Hb) as (b1 & v & Hb1 & ->). rewrite Ha1 in Hb1. injection Hb1 as <-.
        assert (witnesses_voted_for a = 0) as Hz; [|unfold set_can_vote, set_expiration, set_voted_for; cbn; by rewrite Hz].
        rewrite (proj1 (ok_count _ O account a Ha)). assert (votes_of s account = votes_of s2 account) as -> by (unfold votes_of; by rewrite (gf_votes _ _ F)). by rewrite Hnov.
      - rewrite G2. symmetry. apply filter_all, Forall_forall. intros v Hv E. assert (v.2 ∈ votes_of s2 account) as Hin by (apply votes_of_elem; rewrite <- E; by destruct v).
        rewrite Hnov in Hin. by apply elem_of_nil in Hin. }
    destruct (G (modify_account account (set_proxy None) (push_cleared account a s2))) as [Og Hg]; [cbn; by rewrite P1|done|done|].
    split_and!; [done|intros x; rewrite Hg; unfold cut; destruct (decide _); by rewrite ?Hpx1|].
    intros x. transitivity (votes_of s2 x); [unfold votes_of; cbn; by rewrite P2|]. destruct (decide _) as [->|]; [done|]. unfold votes_of. by rewrite (gf_votes _ _ F).
  - rewrite (check_chain_same _ _ _ s s2 Hpr2). pose proof (Hpr2 proxy_name) as Hp2.
    destruct (accounts s2 !! proxy_name) as [q|] eqn:Eq, (accounts s !! proxy_name) as [q0|] eqn:Eq0; try done;
      [rewrite (get_account_Some _ _ _ Eq)|unfold get_account; rewrite Eq; by eexists].
    assert (proxy_ref proxy_name q = proxy_ref proxy_name q0) as Eid.
    { destruct (frame_back _ _ _ _ F Eq) as (q1 & v & Hq1 & ->). unfold s1 in Hq1. rewrite modify_lookup, Eq0 in Hq1. destruct (decide _); by injection Hq1 as <-. }
    cbn [mbind result_bind option_bind]. rewrite Eid. destruct (bool_decide (proxy a = proxy_ref proxy_name q0)); [by eexists|]. cbn [negb andb mbind result_bind].
    destruct (check_proxy_chain (S max_depth) {[account; proxy_name]} proxy_name s) as [[]|e] eqn:Ech; [|by eexists]. cbn [is_ok andb mbind result_bind].
    destruct (bool_decide (proxy_name = account)) eqn:Eacc; [by eexists|]. cbn [negb mbind result_bind]. to_prop.
    unfold proxy_ref. destruct (acc_id q0 =? 0).
    { destruct (proxy_unset_spec s1 s2 account (update_governance_vote_expiration_ts (now s) a) O1 N Ha1) as (b & delta & s' & H1 & H2 & H3 & H4 & H5 & H6).
      change (push_cleared account (update_governance_vote_expiration_ts (now s) a)) with (push_cleared account a) in *.
      rewrite H1. cbn [mbind result_bind]. rewrite H2. cbn [mbind result_bind]. exists s'. split_and!; [done|done| |done].
      intros x. rewrite H5. unfold cut. destruct (decide _); [done|]. apply Hpx1. }
    destruct (proxy_set_spec s1 s2 account (update_governance_vote_expiration_ts (now s) a) proxy_name O1 N Ha1 Hc) as (b & delta & s' & H1 & H2 & H3 & H4 & H5 & H6);
      [apply (frame_lookup s1 s2 _ F); by eexists|done|by rewrite (check_chain_same _ _ _ s s2 Hpr2)|].
    change (push_cleared account (update_governance_vote_expiration_ts (now s) a)) with (push_cleared account a) in *.
    rewrite H1. cbn [mbind result_bind]. rewrite H2. cbn [mbind result_bind]. exists s'. split_and!; [done|done| |done].
    intros x. rewrite H5. unfold link, cut. destruct (decide _); [done|]. apply Hpx1.
Qed.
End evaluators.

(** ** Portions *)

Definition votes_by (voters : list string) (l : list (string * Z)) : nat := length (filter (fun v => v.1 ∈ voters) l).

(** What a limit is after [n] steps. *)
Definition used (limit : Z) (n : nat) : Z := if limit <? 0 then limit else limit - Z.of_nat n.

Lemma used_0 limit : used limit 0 = limit.
Proof. unfold used. destruct (limit <? 0); lia. Qed.
Lemma votes_by_split voter voters l : voter ∉ voters ->
  (votes_by (voter :: voters) l = votes_by [voter] l + votes_by voters (filter (fun v => v.1 <> voter) l))%nat.
Proof.
  intros Hn. unfold votes_by. induction l as [|v l IH]; [done|]. rewrite !filter_cons. destruct (decide (v.1 = voter)) as [->|Hne].
  - rewrite (decide_True (P := voter ∈ voter :: voters)), (decide_True (P := voter ∈ [voter])), (decide_False (P := voter <> voter)) by (set_solver || (intros H; by apply H)).
    cbn. by rewrite IH.
  - rewrite (decide_False (P := v.1 ∈ [voter])), (decide_True (P := v.1 <> voter)) by set_solver. rewrite filter_cons.
    destruct (decide (v.1 ∈ voters)); [rewrite decide_True by set_solver|rewrite decide_False by set_solver]; cbn; rewrite ?IH; lia.
Qed.

Lemma remove_votes_spec voter limit l :
  let '(l', all, limit') := remove_proposal_votes voter limit l in
  if all then l' = filter (fun v => v.1 <> voter) l /\ limit' = used limit (votes_by [voter] l) /\ (limit < 0 \/ Z.of_nat (votes_by [voter] l) <= limit)
  else 0 <= limit < Z.of_nat (votes_by [voter] l) /\ filter (fun v => v.1 <> voter) l' = filter (fun v => v.1 <> voter) l /\ l' `sublist_of` l.
Proof.
  revert limit. induction l as [|v l IH]; intros limit; cbn [remove_proposal_votes]; [split_and!; [done|by rewrite used_0|cbn; lia]|].
  unfold votes_by in *. rewrite !filter_cons. destruct (decide (v.1 = voter)) as [E|E].
  - rewrite bool_decide_eq_true_2 by done. rewrite (decide_True (P := v.1 ∈ [voter])) by set_solver. rewrite (decide_False (P := v.1 <> voter)) by (intros H; by apply H).
    unfold guard_step. destruct (0 <? limit) eqn:E1; [|destruct (limit =? 0) eqn:E2]; to_prop; cbn [negb].
    + specialize (IH (limit - 1)). destruct (remove_proposal_votes voter (limit - 1) l) as [[l' []] limit']; destruct IH as (H1 & H2 & H3).
      * split_and!; [done| |cbn; lia]. rewrite H2. unfold used. cbn. destruct (limit - 1 <? 0) eqn:?, (limit <? 0) eqn:?; to_prop; lia.
      * split_and!; [cbn; lia..|done|by constructor].
    + split_and!; [cbn; lia..| |done]. rewrite filter_cons. by rewrite decide_False by (intros H; by apply H).
    + specialize (IH limit). destruct (remove_proposal_votes voter limit l) as [[l' []] limit']; destruct IH as (H1 & H2 & H3); [|lia].
      split_and!; [done| |left; lia]. rewrite H2. unfold used. destruct (limit <? 0) eqn:?; to_prop; lia.
  - rewrite bool_decide_eq_false_2 by done. rewrite (decide_False (P := v.1 ∈ [voter])) by set_solver. rewrite (decide_True (P := v.1 <> voter)) by done.
    specialize (IH limit). destruct (remove_proposal_votes voter limit l) as [[l' []] limit']; destruct IH as (H1 & H2 & H3).
    + split_and!; [by rewrite H1|done|done].
    + split_and!; [lia..| |by constructor]. rewrite filter_cons, decide_True by done. by rewrite H2.
Qed.

Section portions.
Context `{L : FcLib} `{!FcLaws L}.

Lemma decide_cons_ne {A} x y l (t e : A) : x <> y -> (if decide (x ∈ y :: l) then t else e) = if decide (x ∈@{list string} l) then t else e.
Proof. intros H. destruct (decide (x ∈ l)); [rewrite decide_True by (by right)|rewrite decide_False by (rewrite elem_of_cons; naive_solver)]; done. Qed.

(** The accounts [gone] lost their proxy and their votes, the others kept both. *)
Record cut_off (s s' : gov) (gone : list string) : Prop := {
  co_ok : gov_ok s';
  co_now : now s' = now s;
  co_dom x : is_Some (accounts s' !! x) <-> is_Some (accounts s !! x);
  co_px x : px s' x = if decide (x ∈ gone) then None else px s x;
  co_votes x : votes_of s' x = if decide (x ∈ gone) then [] else votes_of s x;
  co_proposals v : v ∈ proposal_votes s' -> v ∈ proposal_votes s /\ v.1 ∉ gone
}.

Lemma cut_off_trans s1 s2 s3 l1 l2 : cut_off s1 s2 l1 -> cut_off s2 s3 l2 -> cut_off s1 s3 (l1 ++ l2).
Proof.
  intros C1 C2. constructor.
  - apply C2.
  - rewrite (co_now _ _ _ C2). apply C1.
  - intros x. rewrite (co_dom _ _ _ C2). apply C1.
  - intros x. rewrite (co_px _ _ _ C2), (co_px _ _ _ C1). repeat destruct (decide _); set_solver.
  - intros x. rewrite (co_votes _ _ _ C2), (co_votes _ _ _ C1). repeat destruct (decide _); set_solver.
  - intros v Hv. apply (co_proposals _ _ _ C2) in Hv as [Hv H2]. apply (co_proposals _ _ _ C1) in Hv as [Hv H1]. set_solver.
Qed.

Lemma cut_off_nil s l : gov_ok s -> l `sublist_of` proposal_votes s -> cut_off s (set_proposal_votes l s) [].
Proof.
  intros O Hl. constructor; try done; [by apply (ok_same s)|]. intros v Hv. split; [|set_solver]. eapply elem_of_submseteq; [done|by apply sublist_submseteq].
Qed.

Lemma cut_off_refl s : gov_ok s -> cut_off s s [].
Proof. intros O. constructor; try done. intros v Hv. split; [done|set_solver]. Qed.

(** One account cut off, whatever else [f] records. *)
Lemma cut_off_one s l name a f : gov_ok s -> accounts s !! name = Some a -> l = filter (fun v => v.1 <> name) (proposal_votes s) ->
  (forall b, set_can_vote true (set_expiration 0 (f b)) = set_can_vote true (set_expiration 0 (set_proxy None b))) ->
  exists s1, drop_votes name (set_proposal_votes l s) = Ok s1 /\ decline_requests s1 = decline_requests s /\
    (exists v, accounts s1 !! name = Some (set_proxied v (set_voted_for 0 a))) /\
    forall s2, accounts s2 = alter f name (accounts s1) -> witness_votes s2 = witness_votes s1 -> sched s2 = sched s1 -> proposal_votes s2 = proposal_votes s1 ->
      cut_off s s2 [name] /\ proposal_votes s2 = l /\
      (forall x b, x <> name -> accounts s2 !! x = Some b -> exists b0 v, accounts s !! x = Some b0 /\ b = set_proxied v b0).
Proof.
  intros O Ha -> Hf. set (s0 := set_proposal_votes _ s). assert (gov_ok s0) as O0 by (by apply (ok_same s)).
  destruct (drop_and_cut s0 name a f O0 Ha Hf) as (s1 & E & H1 & H2 & H3 & Hoth & Hself & H). exists s1. split_and!; [done|by rewrite H2|done|].
  intros s2 G1 G2 G3 G4. destruct (H s2 G1 G2 G3) as (O2 & Hp & Hv).
  assert (forall x b, x <> name -> accounts s2 !! x = Some b -> exists b0 v, accounts s !! x = Some b0 /\ b = set_proxied v b0) as Hb.
  { intros x b Hx. rewrite G1, lookup_alter_ne by done. destruct (Hoth x Hx) as [v ->]. change (accounts s0) with (accounts s).
    destruct (accounts s !! x) as [b0|]; [|done]. intros [= <-]. by exists b0, v. }
  split_and!; [|by rewrite G4, H1|done]. constructor.
  - done.
  - unfold now. by rewrite G3.
  - intros x. rewrite G1, lookup_alter_is_Some. destruct (decide (x = name)) as [->|Hx].
    + rewrite Ha. destruct Hself as [v ->]. split; by eexists.
    + destruct (Hoth x Hx) as [v ->]. by rewrite fmap_is_Some.
  - intros x. rewrite Hp. unfold cut. change (px s0) with (px s). repeat destruct (decide _); set_solver.
  - intros x. rewrite Hv. change (votes_of s0) with (votes_of s). repeat destruct (decide _); set_solver.
  - intros v. rewrite G4, H1. cbn. rewrite list_elem_of_filter. set_solver.
Qed.

Definition enough (limit : Z) (voters : list string) (s : gov) : Prop := limit < 0 \/ Z.of_nat (votes_by voters (proposal_votes s)) <= limit.

Lemma enough_step limit name due s : name ∉ due -> enough limit (name :: due) s ->
  limit < 0 \/ Z.of_nat (votes_by [name] (proposal_votes s)) <= limit.
Proof. intros Hn [H|H]; [by left|right]. rewrite votes_by_split in H by done. lia. Qed.
Lemma enough_rest limit name due s s' : name ∉ due -> enough limit (name :: due) s -> proposal_votes s' = filter (fun v => v.1 <> name) (proposal_votes s) ->
  enough (used limit (votes_by [name] (proposal_votes s))) due s'.
Proof.
  intros Hn H E. unfold enough, used in *. rewrite E. destruct (limit <? 0) eqn:El; to_prop; [left; lia|]. destruct H as [H|H]; [lia|]. rewrite votes_by_split in H by done. right. lia.
Qed.

Lemma expire_spec limit due s : gov_ok s -> NoDup due -> (forall x, x ∈ due -> is_Some (accounts s !! x)) ->
  exists k s', expire_votes limit due s = Ok s' /\ cut_off s s' (take k due) /\ (k <= length due)%nat /\
    (enough limit due s -> k = length due) /\ decline_requests s' = decline_requests s /\
    (forall v, v ∈ proposal_votes s -> v.1 ∉ due -> v ∈ proposal_votes s') /\
    (forall x b, accounts s' !! x = Some b -> exists b0, accounts s !! x = Some b0 /\
       governance_vote_expiration_ts b = if decide (x ∈ take k due) then max_time else governance_vote_expiration_ts b0).
Proof.
  revert limit s. induction due as [|name due IH]; intros limit s O HN Hin.
  - exists 0%nat, s. split_and!; [done|by apply cut_off_refl|done|done|done|done|]. intros x b Hb. exists b. rewrite decide_False by set_solver. done.
  - apply NoDup_cons in HN as [Hn HN]. destruct (Hin name ltac:(left)) as [a Ha]. cbn [expire_votes]. rewrite (get_account_Some _ _ _ Ha). cbn [mbind result_bind].
    pose proof (remove_votes_spec name limit (proposal_votes s)) as R. destruct (remove_proposal_votes name limit (proposal_votes s)) as [[l []] limit'].
    + destruct R as (Hl & -> & _). destruct (cut_off_one s l name a (fun b => set_expiration max_time (set_proxy None b)) O Ha Hl ltac:(done)) as (s1 & E1 & Hr1 & [v1 Hself] & H).
      rewrite E1. cbn [mbind result_bind]. destruct (push_cleared_same name a s1) as (P1 & P2 & P3).
      set (s2 := push_vop _ _). destruct (H s2) as (C & Hpv & Hoth); [cbn; by rewrite P1|done|done|unfold s2, push_cleared; by destruct (proxy a)|].
      assert (exists v, accounts s2 !! name = Some (set_expiration max_time (set_proxy None (set_proxied v (set_voted_for 0 a))))) as [v2 Hname].
      { exists v1. cbn. rewrite P1, lookup_alter_eq, Hself. done. }
      destruct (IH (used limit (votes_by [name] (proposal_votes s))) s2 (co_ok _ _ _ C) HN) as (k & s' & E & C' & Hk & He & Hr & Hkept & Hacc);
        [intros x Hx; apply (co_dom _ _ _ C), Hin; by right|].
      exists (S k), s'. split_and!; [done|by apply (cut_off_trans s s2 s' [name] (take k due))|cbn; lia| | | |].
      * intros Hen. cbn. f_equal. apply He. eapply enough_rest; [done|done|by rewrite Hpv].
      * rewrite Hr, <- Hr1. unfold s2, push_cleared. by destruct (proxy a).
      * intros v Hv Hnv. apply Hkept; [rewrite Hpv, Hl; apply list_elem_of_filter|]; set_solver.
      * intros x b Hb. destruct (Hacc x b Hb) as (b2 & Hb2 & Hx). destruct (decide (x = name)) as [->|Hne].
        -- rewrite Hname in Hb2. injection Hb2 as <-. exists a. split; [done|]. rewrite Hx. cbn [take]. rewrite (decide_True (P := name ∈ name :: _)) by left. by destruct (decide _).
        -- destruct (Hoth x b2 Hne Hb2) as (b0 & v & Hb0 & ->). exists b0. split; [done|]. rewrite Hx. cbn [take]. by rewrite decide_cons_ne.
    + destruct R as ([R1 R2] & R3 & R4). exists 0%nat, (set_proposal_votes l s). split_and!; [done|by apply cut_off_nil|lia| |done| |].
      * intros Hen. destruct (enough_step _ _ _ _ Hn Hen); lia.
      * intros v Hv Hnv. cbn. assert (v ∈ filter (fun v => v.1 <> name) l) as G by (rewrite R3; apply list_elem_of_filter; set_solver). by apply list_elem_of_filter in G as [_ ?].
      * intros x b Hb. exists b. rewrite decide_False by set_solver. done.
Qed.

Lemma decline_spec limit requests s : gov_ok s -> decline_requests s = requests -> NoDup requests.*2 -> (forall x, x ∈ requests.*2 -> is_Some (accounts s !! x)) ->
  exists k s', decline_due limit requests s = Ok s' /\ cut_off s s' (take k requests).*2 /\ (k <= length requests)%nat /\
    decline_requests s' = drop k requests /\ (forall r, r ∈ take k requests -> r.1 <= now s) /\
    (forall r, requests !! k = Some r -> r.1 <= now s -> ~ enough limit (take (S k) requests).*2 s) /\
    (forall v, v ∈ proposal_votes s -> v.1 ∉ requests.*2 -> v ∈ proposal_votes s') /\
    (forall x b, accounts s' !! x = Some b -> exists b0, accounts s !! x = Some b0 /\ can_vote b = if decide (x ∈ (take k requests).*2) then false else can_vote b0).
Proof.
  revert limit s. induction requests as [|[date name] requests IH]; intros limit s O Hreq HN Hin.
  - exists 0%nat, s. split_and!; [done|by apply cut_off_refl|done|done|set_solver|done|done|]. intros x b Hb. exists b. rewrite decide_False by set_solver. done.
  - cbn in HN. apply NoDup_cons in HN as [Hn HN]. destruct (Hin name ltac:(left)) as [a Ha]. cbn [decline_due].
    destruct (date <=? now s) eqn:Ed; to_prop.
    2:{ exists 0%nat, s. split_and!; [done|by apply cut_off_refl|cbn; lia|done|set_solver| |done|].
        - intros r [= <-]. cbn. lia.
        - intros x b Hb. exists b. rewrite decide_False by set_solver. done. }
    rewrite (get_account_Some _ _ _ Ha). cbn [mbind result_bind].
    pose proof (remove_votes_spec name limit (proposal_votes s)) as R. destruct (remove_proposal_votes name limit (proposal_votes s)) as [[l []] limit'].
    + destruct R as (Hl & -> & Hlim). destruct (cut_off_one s l name a (fun b => set_proxy None (set_can_vote false b)) O Ha Hl ltac:(done)) as (s1 & E1 & Hr1 & [v1 Hself] & H).
      rewrite E1. cbn [mbind result_bind]. destruct (push_cleared_same name a s1) as (P1 & P2 & P3).
      set (s2 := set_requests requests _). destruct (H s2) as (C & Hpv & Hoth); [cbn; by rewrite P1|done|done|unfold s2, push_cleared; by destruct (proxy a)|].
      assert (exists v, accounts s2 !! name = Some (set_proxy None (set_can_vote false (set_proxied v (set_voted_for 0 a))))) as [v2 Hname].
      { exists v1. cbn. rewrite P1, lookup_alter_eq, Hself. done. }
      destruct (IH (used limit (votes_by [name] (proposal_votes s))) s2 (co_ok _ _ _ C) eq_refl HN) as (k & s' & E & C' & Hk & Hrest & Hdue & Hen & Hkept & Hacc);
        [intros x Hx; apply (co_dom _ _ _ C), Hin; by right|].
      pose proof (co_now _ _ _ C) as Hnow.
      exists (S k), s'. split_and!; [done|rewrite firstn_cons, fmap_cons; by apply (cut_off_trans s s2 s' [name] (take k requests).*2)|cbn; lia|done| | | |].
      * intros r Hr. cbn in Hr. apply elem_of_cons in Hr as [->|Hr]; [done|]. rewrite <- Hnow. by apply Hdue.
      * intros r Hr Hd He. apply (Hen r Hr); [by rewrite Hnow|]. eapply enough_rest; [|exact He|by rewrite Hpv]. intros Hc. apply Hn.
        apply list_elem_of_fmap in Hc as (y & -> & Hy). apply list_elem_of_fmap. exists y. split; [done|]. rewrite <- (take_drop (S k) requests). apply elem_of_app. by left.
      * intros v Hv Hnv. apply Hkept; [rewrite Hpv, Hl; apply list_elem_of_filter|]; set_solver.
      * intros x b Hb. destruct (Hacc x b Hb) as (b2 & Hb2 & Hx). cbn [take fmap list_fmap]. destruct (decide (x = name)) as [->|Hne].
        -- rewrite Hname in Hb2. injection Hb2 as <-. exists a. split; [done|]. rewrite Hx. rewrite (decide_True (P := name ∈ name :: _)) by left. by destruct (decide _).
        -- destruct (Hoth x b2 Hne Hb2) as (b0 & v & Hb0 & ->). exists b0. split; [done|]. rewrite Hx. by rewrite decide_cons_ne.
    + destruct R as ([R1 R2] & R3 & R4). exists 0%nat, (set_proposal_votes l s). split_and!; [done|by apply cut_off_nil|lia|done|set_solver| | |].
      * intros r [= <-] _ [Hen|Hen]; [lia|]. change (take 1 ((date, name) :: requests)).*2 with [name] in Hen. lia.
      * intros v Hv Hnv. cbn. assert (v ∈ filter (fun v => v.1 <> name) l) as G by (rewrite R3; apply list_elem_of_filter; set_solver). by apply list_elem_of_filter in G as [_ ?].
      * intros x b Hb. exists b. rewrite decide_False by set_solver. done.
Qed.
End portions.

(** ** Changes of the stake *)

Section stakes.
Context `{L : FcLib} `{!FcLaws L}.

(** The change of an account's own stake as an array of levels. *)
Definition own_delta (d : Z) : list Z := d :: replicate max_depth 0.
Definition votes_fit (s : gov) : Prop :=
  forall x a, accounts s !! x = Some a -> length (proxied_vsf_votes a) = max_depth /\ Forall (in_s 64) (proxied_vsf_votes a).

Lemma zip_zeros l n : Forall (in_s 64) l -> (length l <= n)%nat -> mapR (fun p => safe_add p.1 p.2) (zip l (replicate n 0)) = Ok l.
Proof.
  revert n. induction l as [|v l IH]; intros [|n] Hl Hn; try done; [cbn in Hn; lia|]. apply Forall_cons in Hl as [Hv Hl]. cbn in Hn |- *.
  rewrite safe_add_exact, Z.add_0_r by (rewrite ?Z.add_0_r; done || (unfold in_s; lia)). rewrite IH by (done || lia). done.
Qed.

Lemma add_own_level depth d votes : (depth < length votes)%nat -> length votes = max_depth -> Forall (in_s 64) votes ->
  add_levels depth (own_delta d) votes = (v ← safe_add (nth depth votes 0) d; Ok (<[depth := v]> votes)).
Proof.
  intros Hd Hl Hf. unfold add_levels, own_delta. destruct (lookup_lt_is_Some_2 votes depth Hd) as [x Hx]. rewrite (drop_S _ _ _ Hx). cbn [zip zip_with mapR fst snd].
  assert (nth depth votes 0 = x) as -> by (rewrite nth_lookup, Hx; done). destruct (safe_add x d) as [v|e]; [|done]. cbn [mbind result_bind].
  rewrite zip_zeros; [|by apply Forall_drop|rewrite length_drop; lia]. cbn. f_equal. symmetry. by apply insert_take_drop.
Qed.

Lemma sum_zeros n : sumZ id (replicate n 0) = 0.
Proof. apply sumZ_zero. intros x Hx. by apply elem_of_replicate in Hx as [-> _]. Qed.
Lemma own_small d : - 2 ^ 63 < d < 2 ^ 63 -> small (own_delta d).
Proof.
  intros Hd. unfold small, own_delta. rewrite sumZ_cons, sum_zeros, !Forall_cons. assert (Forall (fun x => x = 0) (replicate max_depth 0)) as Hz by (by apply Forall_replicate).
  split; [|unfold id; lia]. destruct (decide (0 <= d)); [left|right]; (split; [lia|]); eapply Forall_impl; [done|cbn; lia|done|cbn; lia].
Qed.
Lemma own_prefix d n : prefix_sum (own_delta d) (S n) = d.
Proof. unfold prefix_sum, own_delta. cbn [take]. rewrite sumZ_cons, take_replicate, sum_zeros. unfold id. lia. Qed.

Lemma stake_as_levels left name d s : (left <= max_depth)%nat -> votes_fit s -> - 2 ^ 63 < d < 2 ^ 63 ->
  adjust_proxied_stake left name d s = adjust_proxied_levels left name (own_delta d) s.
Proof.
  revert name s. induction left as [|left IH]; intros name s Hle Hfit Hd; cbn [adjust_proxied_stake adjust_proxied_levels];
    (destruct (get_account name s) as [a|]; [|done]); cbn [mbind result_bind]; destruct (proxy a) as [p|].
  - done.
  - by rewrite fold_prefix, own_prefix by (by apply own_small).
  - destruct (accounts s !! p) as [b|] eqn:Eb; [rewrite (get_account_Some _ _ _ Eb)|unfold get_account; by rewrite Eb]. cbn [mbind result_bind]. destruct (Hfit p b Eb) as [Hlen Hvotes].
    rewrite add_own_level by (done || lia). destruct (safe_add _ d) as [v|e] eqn:Ev; [|done]. cbn [mbind result_bind]. apply IH; [lia| |done].
    intros x a'. rewrite modify_lookup. destruct (decide (x = p)) as [->|]; [|apply Hfit]. rewrite Eb. intros [= <-]. cbn. rewrite length_insert. split; [done|].
    apply Forall_insert; [done|]. apply safe_add_Ok in Ev as [_ Hv]; [done| |unfold in_s; lia].
    rewrite Forall_forall in Hvotes. apply Hvotes. rewrite nth_lookup. destruct (lookup_lt_is_Some_2 (proxied_vsf_votes b) (max_depth - S left)) as [y Hy]; [lia|].
    rewrite Hy. cbn. by apply list_elem_of_lookup_2 in Hy.
  - by rewrite fold_prefix, own_prefix by (by apply own_small).
Qed.

Lemma level_delta_own q a d j x : (j < max_depth)%nat -> level_delta q a (own_delta d) max_depth (S j) x = ind (anc q (S j) a = Some x) * d.
Proof.
  intros Hj. unfold level_delta, own_delta, max_depth, HIVE_MAX_PROXY_RECURSION_DEPTH in *. change (Z.to_nat 4) with 4%nat in *.
  do 4 (destruct j as [|j]; [cbn; lia|]). lia.
Qed.
Lemma power_delta_own q a d x : power_delta q a (own_delta d) max_depth x = reach q a x * d.
Proof.
  unfold power_delta, reach. rewrite (sumN_ext _ _ (fun k => d * ind (anc q k a = Some x))).
  - unfold sumN. rewrite sumZ_scale. lia.
  - intros k Hk. replace (S max_depth - k)%nat with (S (max_depth - k)) by lia. rewrite own_prefix. lia.
Qed.
Lemma power_stake ns q dir a d x : NoDup ns -> a ∈ ns ->
  power ns q (fun b => dir b + ind (b = a) * d) x = power ns q dir x + reach q a x * d.
Proof.
  intros Hn Ha. unfold power, reach. rewrite (sumN_ext _ _ (fun j => level ns q dir j x + d * ind (anc q j a = Some x))).
  - unfold sumN. rewrite sumZ_add, sumZ_scale. lia.
  - intros j _. rewrite level_stake by done. lia.
Qed.

Definition set_total (x : Z) (c : chain) : chain := mk_chain (witnesses c) (wso_current c) (wso_future c) (hpo c) (head_block_num c)
  (head_block_time c) (current_aslot c) x (num_pow_witnesses c) (maximum_block_size c) (hbd_interest_rate c) (warnings c).

Lemma set_stake_wf s name v d T : gov_wf s -> gov_wf (modify_account name (set_stake v d) (set_sched (set_total T (sched s)) s)).
Proof.
  intros W. set (s0 := modify_account _ _ _).
  assert (forall x, px s0 x = px s x) as Hpx by (intros x; unfold px, s0; rewrite modify_lookup; cbn; destruct (decide _); [|done]; by destruct (accounts s !! x)).
  assert (forall x, is_Some (accounts s0 !! x) <-> is_Some (accounts s !! x)) as Hdom by (intros x; unfold s0; rewrite modify_lookup; destruct (decide _); [by rewrite fmap_is_Some|done]).
  constructor.
  - intros x a. unfold s0. rewrite modify_lookup. cbn. destruct (decide _); [|apply W]. destruct (accounts s !! x) as [b|] eqn:E; [|done]. intros [= <-]. by apply (gw_len _ W x b).
  - intros x p. rewrite Hpx, Hdom. apply W.
  - eapply acyclic_ext; [intros x; symmetry; apply Hpx|apply W].
  - apply W.
  - intros w Hw. rewrite Hpx, Hdom. by apply (gw_voters _ W).
  - destruct (gw_witnesses _ W). by constructor.
Qed.

(** The stake of [name] becomes [v], of which [d] is delayed; the votes are
    adjusted by the difference while the total is [T0] and the account may
    already, or not yet, show its new stake. *)
Lemma stake_spec s name a v d T0 v0 d0 : gov_ok s -> accounts s !! name = Some a -> 0 <= d <= v ->
  let T := total_vesting_shares (sched s) + (v - vesting_shares a) in
  let delta := (v - d) - (vesting_shares a - sum_delayed_votes a) in
  T <= T0 -> T < 2 ^ 63 ->
  let s0 := modify_account name (set_stake v0 d0) (set_sched (set_total T0 (sched s)) s) in
  exists s1, adjust_proxied_witness_votes_by name delta s0 = Ok s1 /\ gov_frame s0 s1 /\
    gov_ok (modify_account name (set_stake v d) (set_sched (set_total T (sched s1)) s1)).
Proof.
  intros O Ha Hvd T delta HT0 HT s0. pose proof (ok_wf _ O) as W. pose proof (set_stake_wf s name v0 d0 T0 W) as W0. fold s0 in W0.
  pose proof (vest_bound s name a O Ha) as Hva. pose proof (ok_stake _ O name a Ha) as Hsa.
  set (ns := names s). set (q := px s). set (dir := dirp s). set (dir' := fun b => dir b + ind (b = name) * delta).
  assert (name ∈ ns) as Hin by (apply names_elem; by eexists). pose proof (names_NoDup s) as Hnd. fold ns in Hnd.
  assert (forall b, b ∈ ns -> 0 <= dir b) as Hd by (intros b _; by apply dirp_nonneg).
  assert (forall b, b ∈ ns -> 0 <= dir' b) as Hd'.
  { intros b Hb. unfold dir'. destruct (decide (b = name)) as [->|]; [rewrite ind_true by done; unfold dir; rewrite (dirp_account s name a Ha); unfold delta; lia|].
    rewrite ind_false by done. specialize (Hd b Hb). lia. }
  assert (sumZ dir' ns <= T) as HT'.
  { transitivity (sumZ (fun b => vest s b + ind (b = name) * (v - vesting_shares a)) ns).
    - apply sumZ_le. intros b Hb. unfold dir', dir. destruct (decide (b = name)) as [->|].
      + rewrite !ind_true by done. rewrite (dirp_account s name a Ha). unfold vest, delta. rewrite Ha. lia.
      + rewrite !ind_false by done. unfold dirp, vest. destruct (accounts s !! b) as [x|] eqn:E; [|lia]. pose proof (ok_stake _ O b x E). lia.
    - rewrite sumZ_add, (sumZ_pick (fun _ => v - vesting_shares a)), ind_true by done. unfold ns. rewrite (ok_total _ O). unfold T. lia. }
  assert (forall x, px s0 x = q x) as Hpx0 by (intros x; unfold px, s0, q, px; rewrite modify_lookup; cbn; destruct (decide _); [|done]; by destruct (accounts s !! x)).
  pose proof (dirp_total s O) as HdT. fold dir ns in HdT. pose proof (ok_range _ O) as HR.
  assert (book s0 (level ns q dir) (power ns q dir)) as B0.
  { constructor; [|apply (ok_book _ O)]. intros x b j. unfold s0. rewrite modify_lookup. cbn. destruct (decide _); [|by apply (bk_lv _ _ _ (ok_book _ O))].
    destruct (accounts s !! x) as [c|] eqn:E; [|done]. intros [= <-]. by apply (bk_lv _ _ _ (ok_book _ O) x c). }
  assert (- 2 ^ 63 < delta < 2 ^ 63) as Hdelta by (unfold delta, T in *; lia).
  assert (forall x b, accounts s0 !! x = Some b -> exists c, accounts s !! x = Some c /\ b = if decide (x = name) then set_stake v0 d0 c else c) as Hacc0.
  { intros x b. unfold s0. rewrite modify_lookup. cbn. destruct (decide _); [|by eexists]. destruct (accounts s !! x) as [c|]; [|done]. intros [= <-]. by exists c. }
  assert (votes_fit s0) as Hfit.
  { intros x b Hb. split; [by apply (gw_len _ W0 x b)|]. apply Forall_forall. intros y Hy. apply list_elem_of_lookup in Hy as [j Hj].
    pose proof (lookup_lt_Some _ _ _ Hj) as Hlt. rewrite (gw_len _ W0 x b Hb) in Hlt. pose proof (bk_lv _ _ _ B0 x b j Hb Hlt) as E. rewrite nth_lookup, Hj in E. cbn in E. subst y.
    pose proof (level_bound ns q dir (S j) x Hd). unfold in_s. lia. }
  unfold adjust_proxied_witness_votes_by. rewrite stake_as_levels by done.
  destruct (adjust_levels_spec max_depth name (own_delta delta) s0 (level ns q dir) (power ns q dir)) as (s1 & E & F & W1 & B1);
    [done|done|unfold s0; rewrite modify_lookup, decide_True by done; cbn; rewrite Ha; by eexists|by apply own_small|unfold own_delta; cbn; by rewrite length_replicate|lia| | |].
  - intros j x Hj. rewrite (level_delta_px _ q _ _ _ _ _ Hpx0), level_delta_own, <- level_stake by done.
    pose proof (level_bound ns q dir (S j) x Hd). pose proof (level_bound ns q dir' (S j) x Hd') as Hb'. fold dir'. unfold in_s. lia.
  - intros w Hw. change (tally (sched s0) w) with (tally (sched s) w). pose proof (witness_tally_range s w O Hw) as Ht. split; [unfold in_s; lia|]. cbv zeta.
    change (witness_votes s0) with (witness_votes s). change (total_vesting_shares (sched s0)) with T0.
    rewrite (sumZ_ext _ (fun x => ind (x.2 = w) * power ns q dir' x.1)).
    2:{ intros x _. rewrite (power_delta_px _ q _ _ _ _ Hpx0), power_delta_own, <- power_stake by done. done. }
    pose proof (tally_bound ns q dir' w _ (gw_acyclic _ W) (gw_nodup _ W) (fun v H => proj1 (proj2 (gw_voters _ W v H))) Hd'). unfold in_s. lia.
  - exists s1. split_and!; [done|done|]. pose proof (set_stake_wf s1 name v d T W1) as W2. set (s2 := modify_account name (set_stake v d) (set_sched (set_total T (sched s1)) s1)) in *.
    assert (forall x b, accounts s2 !! x = Some b -> exists c l, accounts s !! x = Some c /\ b = set_proxied l (if decide (x = name) then set_stake v d c else c)) as Hacc.
    { intros x b. unfold s2. rewrite modify_lookup. cbn. destruct (decide (x = name)) as [->|Hne].
      - destruct (accounts s1 !! name) as [c1|] eqn:E1; [|done]. intros [= <-]. destruct (frame_back _ _ _ _ F E1) as (c0 & l & E0 & ->). destruct (Hacc0 _ _ E0) as (c & Ec & ->).
        exists c, l. split; [done|]. by rewrite decide_True.
      - intros E1. destruct (frame_back _ _ _ _ F E1) as (c0 & l & E0 & ->). destruct (Hacc0 _ _ E0) as (c & Ec & ->). exists c, l. split; [done|]. by rewrite !decide_False. }
    assert (forall x, is_Some (accounts s2 !! x) <-> is_Some (accounts s !! x)) as Hdom.
    { intros x. transitivity (is_Some (accounts s1 !! x)); [unfold s2; rewrite modify_lookup; cbn; destruct (decide _); [by rewrite fmap_is_Some|done]|]. rewrite (frame_lookup _ _ _ F).
      unfold s0. rewrite modify_lookup. cbn. destruct (decide _); [by rewrite fmap_is_Some|done]. }
    assert (names s2 = ns) as Hns by (unfold ns, names; f_equal; apply leibniz_equiv; intros x; rewrite !elem_of_dom; apply Hdom).
    assert (forall x, px s2 x = q x /\ dirp s2 x = dir' x /\ vest s2 x = vest s x + ind (x = name) * (v - vesting_shares a)) as Hview.
    { intros x. unfold px, dirp, vest, dir', dir, q, px, dirp. destruct (accounts s2 !! x) as [b|] eqn:Eb.
      - destruct (Hacc x b Eb) as (c & l & Ec & ->). rewrite Ec. cbn. destruct (decide (x = name)) as [->|Hne]; [rewrite Ha in Ec; injection Ec as <-|].
        + rewrite ind_true by done. cbn. unfold delta. split_and!; [done|lia|lia].
        + rewrite ind_false by done. cbn. split_and!; [done|lia|lia].
      - destruct (accounts s !! x) eqn:Ec; [destruct (proj2 (Hdom x)) as [? ?]; [by eexists|congruence]|]. rewrite ind_false by (intros ->; congruence). cbn. split_and!; [done|lia|lia]. }
    assert (forall x, votes_of s2 x = votes_of s x) as Hvo by (intros x; unfold votes_of; cbn; by rewrite (gf_votes _ _ F)).
    constructor.
    + done.
    + constructor.
      * intros x b j Hb Hj. rewrite Hns, (level_ext ns (px s2) q (dirp s2) dir') by (intros; apply Hview). unfold dir'. rewrite level_stake by done.
        rewrite <- (level_delta_own q name delta j x Hj), <- (level_delta_px (px s0) q _ _ _ _ _ Hpx0).
        unfold s2 in Hb. rewrite modify_lookup in Hb. cbn in Hb. destruct (decide _); [destruct (accounts s1 !! x) as [c1|] eqn:E1; [|done]; injection Hb as <-|]; cbn;
          exact (bk_lv _ _ _ B1 x _ j ltac:(done) Hj).
      * intros w Hw. change (tally (sched s2) w) with (tally (sched s1) w). rewrite (bk_tally _ _ _ B1 w Hw). apply sumZ_ext. intros x _. f_equal.
        rewrite Hns, (power_ext ns (px s2) q (dirp s2) dir') by (intros; apply Hview). unfold dir'. rewrite power_stake by done.
        by rewrite (power_delta_px _ q _ _ _ _ Hpx0), power_delta_own.
    + intros x b Hb. destruct (Hacc x b Hb) as (c & l & Ec & ->). destruct (decide _); [done|]. by apply (ok_stake _ O x c).
    + rewrite Hns, (sumZ_ext _ (fun x => vest s x + ind (x = name) * (v - vesting_shares a))) by (intros; apply Hview).
      rewrite sumZ_add, (sumZ_pick (fun _ => v - vesting_shares a)), ind_true by done. unfold ns. rewrite (ok_total _ O). cbn. unfold T. lia.
    + done.
    + intros x b Hb. rewrite Hvo. destruct (Hacc x b Hb) as (c & l & Ec & ->). destruct (decide _); by apply (ok_count _ O x c).
    + intros x b Hb. rewrite Hvo. destruct (Hacc x b Hb) as (c & l & Ec & ->). destruct (decide _); by apply (ok_declined _ O x c).
Qed.
End stakes.
