(* ===== verification/Voting.v ===== *)
(** * Votes of the stake

    What the books of the Governance file add up to: [votes_through] says directly
    whose stake counts for a witness, [gov_step] puts the evaluators, the
    block-level processing and the changes of stake together, and the theorems say
    that the tallies are those sums in every history, that the chain's own audit
    of the votes ([validate_invariants], [validate_witness_votes_invariant]) never
    fails, and that a retally changes nothing. *)

From stdpp Require Import base numbers strings option list sorting gmap.
From S2P Require Import Prelude Fc Config Transfers Version WitnessSchedule Governance.
Open Scope Z_scope.

(** ** Whose stake counts *)

(** The stake of [b] votes for [w]: [b], or one of the next four proxies, does. *)
Definition votes_through (s : gov) (b w : string) : bool :=
  existsb (fun j => match anc (px s) j b with Some x => bool_decide ((x, w) ∈ witness_votes s) | None => false end) (seq 0 (S max_depth)).

Definition stake_for (s : gov) (w : string) : Z := sumZ (fun b => if votes_through s b w then dirp s b else 0) (names s).

(** The stake of [b] counts once when its chain of proxies reaches one of those who vote. *)
Definition reaches (q : string -> option string) (V : list (string * string)) (b w : string) : bool :=
  existsb (fun j => match anc q j b with Some x => bool_decide ((x, w) ∈ V) | None => false end) (seq 0 (S max_depth)).
Lemma reaches_elem q V b w : reaches q V b w = true <-> exists j x, (j <= max_depth)%nat /\ anc q j b = Some x /\ (x, w) ∈ V.
Proof.
  unfold reaches. rewrite List.existsb_exists. setoid_rewrite <- list_elem_of_In. split.
  - intros (j & Hj & H). apply elem_of_seq in Hj. destruct (anc q j b) as [x|] eqn:E; [|done]. to_prop. exists j, x. split_and!; [lia|done|done].
  - intros (j & x & Hj & E & H). exists j. split; [apply elem_of_seq; lia|]. rewrite E. by apply bool_decide_eq_true_2.
Qed.

Lemma reach_voters q b w (V : list (string * string)) : acyclic q -> NoDup V -> (forall v, v ∈ V -> q v.1 = None) ->
  sumZ (fun v => ind (v.2 = w) * reach q b v.1) V = if reaches q V b w then 1 else 0.
Proof.
  intros Hac HN Hroot. pose proof (reach_once q b w V Hac HN Hroot) as Hone. destruct (reaches q V b w) eqn:E.
  - apply reaches_elem in E as (j & x & Hj & Ej & Hin). assert (1 <= reach q b x) as Hr.
    { destruct (reach_cases q b x Hac) as [H|[-> _]]; [|lia]. exfalso.
      assert (ind (anc q j b = Some x) <= reach q b x) as Hle; [|rewrite ind_true in Hle by done; lia].
      exact (sumZ_member (fun k => ind (anc q k b = Some x)) (seq 0 (S max_depth)) j (fun k _ => proj1 (ind_range _)) (proj2 (elem_of_seq 0 (S max_depth) j) ltac:(lia))). }
    pose proof (sumZ_member (fun v => ind (v.2 = w) * reach q b v.1) V (x, w)) as Hm. cbv beta in Hm. cbn [fst snd] in Hm. rewrite ind_true in Hm by done.
    enough (1 * reach q b x <= sumZ (fun v => ind (v.2 = w) * reach q b v.1) V) by lia. apply Hm; [|done].
    intros v _. cbv beta. pose proof (ind_range (v.2 = w)). destruct (reach_cases q b v.1 Hac) as [->|[-> _]]; lia.
  - apply sumZ_zero. intros v Hv. destruct (decide (v.2 = w)) as [Hw|]; [|rewrite ind_false by done; lia]. replace (reach q b v.1) with 0; [lia|]. symmetry.
    apply sumN_zero. intros k Hk. apply ind_false. intros Ek. assert (reaches q V b w = true) as C; [|congruence].
    apply reaches_elem. exists k, v.1. split_and!; [lia|done|]. rewrite <- Hw. by destruct v.
Qed.

(** All the stake that counts for [w]. *)
Lemma power_voters ns q dir w (V : list (string * string)) : acyclic q -> NoDup V -> (forall v, v ∈ V -> q v.1 = None) ->
  sumZ (fun v => ind (v.2 = w) * power ns q dir v.1) V = sumZ (fun b => if reaches q V b w then dir b else 0) ns.
Proof.
  intros Hac HN Hroot. rewrite (sumZ_ext _ (fun v => sumZ (fun b => dir b * (ind (v.2 = w) * reach q b v.1)) ns)).
  2:{ intros v _. rewrite power_reach, <- sumZ_scale. apply sumZ_ext. intros; lia. }
  rewrite sumZ_swap. apply sumZ_ext. intros b _. rewrite sumZ_scale, reach_voters by done. destruct (reaches q V b w); lia.
Qed.

Lemma tally_through s w : gov_ok s -> is_witness (sched s) w -> tally (sched s) w = stake_for s w.
Proof.
  intros O Hw. pose proof (ok_wf _ O) as W. rewrite (bk_tally _ _ _ (ok_book _ O) w Hw).
  apply power_voters; [apply W|apply W|]. intros v Hv. apply (gw_voters _ W v Hv).
Qed.

(** ** The audit *)

Section audit.
Context `{L : FcLib}.

Definition validate_witness_votes_invariant (c : chain) : result Z :=
  foldM (fun n w => _ ← check (votes w <=? total_vesting_shares c) AssertFc; Ok (u64 (n + 1))) 0 (witnesses c).

(** What [validate_invariants] adds up for one account, [total_vsf_votes] and
    [total_delayed_votes]. *)
Definition audit_account (t : Z * Z) (a : gov_account) : result (Z * Z) :=
  p ← (if has_proxy a then Ok (nth (max_depth - 1) (proxied_vsf_votes a) 0) else get_governance_vote_power a);
  v ← safe_add t.1 p;
  d ← usafe_add t.2 (sum_delayed_votes a);
  _ ← check (sum_delayed_votes a <=? Governance.vesting_shares a) AssertFc;
  Ok (v, d).

(** The part of [validate_invariants] on votes. *)
Definition validate_votes (s : gov) : result unit :=
  _ ← validate_witness_votes_invariant (sched s);
  t ← foldM audit_account (0, 0) ((map_to_list (accounts s)).*2);
  all ← safe_add t.1 t.2;
  check (total_vesting_shares (sched s) =? all) AssertFc.
End audit.

Section counting.
Implicit Types (q : string -> option string).

(** Where the stake of [b] stands: at the end of its chain or, if that is more
    than four proxies away, at the fourth. *)
Definition stands_at q (b x : string) : Z :=
  if decide (q x = None) then reach q b x else ind (anc q max_depth b = Some x).

Lemma chain_end q n b : (exists j x, (j <= n)%nat /\ anc q j b = Some x /\ q x = None) \/ (exists y, anc q n b = Some y /\ q y <> None).
Proof.
  revert b. induction n as [|n IH]; intros b.
  - destruct (q b) eqn:E; [right; exists b; split; [done|congruence]|left; by exists 0%nat, b].
  - destruct (q b) as [p|] eqn:E; [|left; exists 0%nat, b; split_and!; [lia|done|done]].
    destruct (IH p) as [(j & x & Hj & H)|(y & H & Hy)]; [left; exists (S j), x; cbn; rewrite E; split; [lia|done]|right; exists y; cbn; by rewrite E].
Qed.

Lemma anc_root q j k b x : anc q j b = Some x -> q x = None -> (j < k)%nat -> anc q k b = None.
Proof. intros E Hx Hlt. pose proof (anc_add q j (k - j) b x E) as H. replace (j + (k - j))%nat with k in H by lia. rewrite H. destruct (k - j)%nat eqn:En; [lia|]. cbn. by rewrite Hx. Qed.

Lemma reach_zero q b x : (forall j, (j <= max_depth)%nat -> anc q j b <> Some x) -> reach q b x = 0.
Proof. intros H. apply sumN_zero. intros k Hk. apply ind_false, H. lia. Qed.

Lemma reach_one q b x j : acyclic q -> (j <= max_depth)%nat -> anc q j b = Some x -> reach q b x = 1.
Proof.
  intros Hac Hj E. destruct (reach_cases q b x Hac) as [H|[H _]]; [|done]. exfalso. assert (ind (anc q j b = Some x) <= reach q b x) as Hle.
  { exact (sumZ_member (fun k => ind (anc q k b = Some x)) (seq 0 (S max_depth)) j (fun k _ => proj1 (ind_range _)) (proj2 (elem_of_seq 0 (S max_depth) j) ltac:(lia))). }
  rewrite ind_true in Hle by done. lia.
Qed.

(** Every stake stands at exactly one account. *)
Lemma stands_once q b (ns : list string) : acyclic q -> NoDup ns -> (forall j x, anc q j b = Some x -> x ∈ ns) -> sumZ (stands_at q b) ns = 1.
Proof.
  intros Hac HN Hns. assert (exists x0, x0 ∈ ns /\ forall x, stands_at q b x = ind (x = x0)) as (x0 & Hx0 & H).
  { destruct (chain_end q max_depth b) as [(j & x0 & Hj & E & Hr)|(y & E & Hy)].
    - exists x0. split; [by eapply Hns|]. intros x. unfold stands_at. destruct (decide (q x = None)) as [Hx|Hx].
      + destruct (decide (x = x0)) as [->|Hne]; [rewrite ind_true by done; by apply (reach_one q b x0 j)|]. rewrite (ind_false (x = x0)) by done.
        apply reach_zero. intros k _ Ek. apply Hne. by apply (root_unique q b k x j x0).
      + rewrite !ind_false; [done|intros ->; done|]. intros Em. destruct (decide (j = max_depth)) as [->|]; [congruence|].
        rewrite (anc_root q j max_depth b x0 E Hr) in Em by lia. done.
    - exists y. split; [by eapply Hns|]. intros x. unfold stands_at. destruct (decide (q x = None)) as [Hx|Hx].
      + rewrite ind_false by (intros ->; done). apply reach_zero. intros k Hk Ek. destruct (decide (k = max_depth)) as [->|]; [congruence|].
        rewrite (anc_root q k max_depth b x Ek Hx) in E by lia. done.
      + apply ind_ext. rewrite E. split; [by intros [= ->]|by intros ->]. }
  rewrite (sumZ_ext _ (fun x => ind (x = x0) * 1)) by (intros; rewrite H; lia). rewrite (sumZ_pick (fun _ => 1)), ind_true by done. done.
Qed.
End counting.

Section audit_ok.
Context `{L : FcLib} `{!FcLaws L}.

Definition counted (s : gov) (x : string) : Z :=
  if decide (px s x = None) then power (names s) (px s) (dirp s) x else level (names s) (px s) (dirp s) max_depth x.

Lemma ancestors_exist s j b x : gov_wf s -> is_Some (accounts s !! b) -> anc (px s) j b = Some x -> is_Some (accounts s !! x).
Proof.
  intros W. revert b. induction j as [|j IH]; intros b Hb; cbn; [by intros [= ->]|]. destruct (px s b) as [p|] eqn:E; [|done]. apply IH. by apply (gw_proxy _ W b p).
Qed.

Lemma counted_total s : gov_ok s -> sumZ (counted s) (names s) = sumZ (dirp s) (names s).
Proof.
  intros O. rewrite (sumZ_ext _ (fun x => sumZ (fun b => dirp s b * stands_at (px s) b x) (names s))).
  - rewrite sumZ_swap. apply sumZ_ext. intros b Hb. rewrite sumZ_scale, stands_once; [lia|apply O|apply names_NoDup|].
    intros j x E. apply names_elem. apply (ancestors_exist s j b x); [apply O|by apply names_elem|done].
  - intros x _. unfold counted, stands_at. destruct (decide (px s x = None)).
    + rewrite power_reach. apply sumZ_ext. intros; lia.
    + unfold level. apply sumZ_ext. intros; lia.
Qed.

Lemma audit_fold (s : gov) xs t : gov_ok s -> (forall x a, (x, a) ∈ xs -> accounts s !! x = Some a) -> 0 <= t.1 -> 0 <= t.2 ->
  t.1 + sumZ (fun p => counted s p.1) xs < 2 ^ 63 -> t.2 + sumZ (fun p => sum_delayed_votes p.2) xs < 2 ^ 64 ->
  foldM audit_account t xs.*2 = Ok (t.1 + sumZ (fun p => counted s p.1) xs, t.2 + sumZ (fun p => sum_delayed_votes p.2) xs).
Proof.
  intros O. pose proof (ok_wf _ O) as W. assert (forall x, 0 <= counted s x) as Hc.
  { intros x. unfold counted. destruct (decide _); [apply power_bound|apply level_bound]; try apply W; intros; by apply dirp_nonneg. }
  revert t. induction xs as [|[x a] xs IH]; intros [v d] Hxs Hv Hd H1 H2; cbn [fst snd] in *; [cbn; by rewrite !Z.add_0_r|].
  rewrite !sumZ_cons in *. cbn [fst snd] in *. pose proof (Hxs x a ltac:(left)) as Ha. pose proof (ok_stake _ O x a Ha) as Hst.
  assert (0 <= sumZ (fun p => counted s p.1) xs) by (apply sumZ_nonneg, Forall_forall; intros; apply Hc).
  assert (0 <= sumZ (fun p : string * gov_account => sum_delayed_votes p.2) xs) by (apply sumZ_nonneg, Forall_forall; intros [y b] Hy; pose proof (ok_stake _ O y b (Hxs y b ltac:(by right))); cbn; lia).
  assert ((if has_proxy a then Ok (nth (max_depth - 1) (proxied_vsf_votes a) 0) else get_governance_vote_power a) = Ok (counted s x)) as Hp.
  { unfold counted, has_proxy, px. rewrite Ha. cbn [option_bind mbind]. destruct (proxy a) as [p|]; cbn [mbind option_bind].
    - rewrite decide_False by done. f_equal. rewrite (bk_lv _ _ _ (ok_book _ O) x a (max_depth - 1) Ha) by (unfold max_depth, HIVE_MAX_PROXY_RECURSION_DEPTH; lia).
      replace (S (max_depth - 1)) with max_depth by (unfold max_depth, HIVE_MAX_PROXY_RECURSION_DEPTH; lia). done.
    - rewrite decide_True by done. by apply power_value. }
  specialize (Hc x). assert (audit_account (v, d) a = Ok (v + counted s x, d + sum_delayed_votes a)) as E.
  { unfold audit_account. rewrite Hp. cbn [mbind result_bind fst snd].
    rewrite safe_add_exact by (unfold in_s; lia). cbn [mbind result_bind]. rewrite usafe_add_exact by (unfold in_u; lia). cbn [mbind result_bind].
    unfold check. by rewrite (proj2 (Z.leb_le _ _)) by lia. }
  rewrite fmap_cons. cbn [foldM snd]. rewrite E.
  rewrite IH; [cbn [fst snd]; do 2 f_equal; lia|intros; apply Hxs; by right|cbn; lia..].
Qed.

Lemma witness_audit s : gov_ok s -> exists n, validate_witness_votes_invariant (sched s) = Ok n.
Proof.
  intros O. unfold validate_witness_votes_invariant. pose proof (gw_witnesses _ (ok_wf _ O)) as W.
  assert (forall w, w ∈ witnesses (sched s) -> votes w <= total_vesting_shares (sched s)) as H.
  { intros w Hw. assert (is_witness (sched s) (owner w)) as Hi by (apply list_elem_of_fmap; by exists w). pose proof (witness_tally_range s _ O Hi) as Ht.
    unfold tally in Ht. rewrite (find_witness_unique _ w W Hw) in Ht. lia. }
  generalize 0 as n. revert H. generalize (witnesses (sched s)) as l. induction l as [|w l IH]; intros H n; [by eexists|]. cbn [foldM]. unfold check.
  rewrite (proj2 (Z.leb_le _ _)) by (apply H; left). cbn [mbind result_bind]. apply IH. intros; apply H; by right.
Qed.

Lemma sum_accounts s (f : string -> Z) : sumZ (fun p => f p.1) (map_to_list (accounts s)) = sumZ f (names s).
Proof.
  rewrite <- (sumZ_fmap fst f). apply sumZ_perm. unfold names. apply NoDup_Permutation; [apply NoDup_fst_map_to_list|apply NoDup_elements|].
  intros x. rewrite elem_of_elements, elem_of_dom, list_elem_of_fmap. split.
  - intros ([y a] & -> & H). apply elem_of_map_to_list in H. by eexists.
  - intros [a H]. exists (x, a). split; [done|]. by apply elem_of_map_to_list.
Qed.

Lemma audit_passes s : gov_ok s -> validate_votes s = Ok tt.
Proof.
  intros O. unfold validate_votes. destruct (witness_audit s O) as [n ->]. cbn [mbind result_bind].
  set (delayed := fun b => match accounts s !! b with Some a => sum_delayed_votes a | None => 0 end).
  assert (sumZ (fun p : string * gov_account => sum_delayed_votes p.2) (map_to_list (accounts s)) = sumZ delayed (names s)) as Hdel.
  { rewrite <- sum_accounts. apply sumZ_ext. intros [x a] H. apply elem_of_map_to_list in H. unfold delayed. cbn. by rewrite H. }
  assert (sumZ (dirp s) (names s) + sumZ delayed (names s) = total_vesting_shares (sched s)) as Hsum.
  { rewrite <- sumZ_add, <- (ok_total _ O). apply sumZ_ext. intros b _. unfold dirp, delayed, vest. destruct (accounts s !! b); lia. }
  assert (0 <= sumZ delayed (names s)) as Hd0.
  { apply sumZ_nonneg, Forall_forall. intros b _. unfold delayed. destruct (accounts s !! b) as [a|] eqn:E; [|lia]. pose proof (ok_stake _ O b a E). lia. }
  assert (0 <= sumZ (dirp s) (names s)) as Hp0 by (apply sumZ_nonneg, Forall_forall; intros; by apply dirp_nonneg).
  pose proof (ok_range _ O) as HR.
  rewrite (audit_fold s); [|done|intros x a H; by apply elem_of_map_to_list|done|done|cbn [fst]; rewrite sum_accounts, counted_total by done; lia|cbn [snd]; rewrite Hdel; lia].
  cbn [mbind result_bind fst snd]. rewrite sum_accounts, counted_total, Hdel by done. rewrite !Z.add_0_l, safe_add_exact by (unfold in_s; lia).
  cbn [mbind result_bind]. unfold check. by rewrite (proj2 (Z.eqb_eq _ _)) by lia.
Qed.
End audit_ok.

(** ** The retally *)

Section retally.
Context `{L : FcLib} `{!FcLaws L}.

Lemma reset_tally c n : witnesses_ok c -> same_witnesses c (reset_votes c) /\ tally (reset_votes c) n = 0.
Proof.
  intros W. split.
  - eexists. split; [done|]. split; rewrite <- list_fmap_compose; by apply list_fmap_ext.
  - unfold tally. destruct (find_witness n (witnesses (reset_votes c))) as [w|] eqn:E; [|done]. apply find_witness_Some in E as [H _].
    by apply list_elem_of_fmap in H as (x & -> & _).
Qed.

(** The votes of one account for one witness. *)
Definition given (s : gov) (n x : string) : Z := ind ((x, n) ∈ witness_votes s) * power (names s) (px s) (dirp s) x.

Lemma given_nonneg s n x : gov_ok s -> 0 <= given s n x.
Proof.
  intros O. unfold given. pose proof (ind_range ((x, n) ∈ witness_votes s)).
  pose proof (power_bound (names s) (px s) (dirp s) x (gw_acyclic _ (ok_wf _ O)) (fun b _ => dirp_nonneg s b O)). nia.
Qed.

Lemma given_total s n : gov_ok s -> is_witness (sched s) n -> sumZ (given s n) (names s) = tally (sched s) n.
Proof.
  intros O Hn. rewrite (bk_tally _ _ _ (ok_book _ O) n Hn). set (P := power _ _ _). pose proof (gw_nodup _ (ok_wf _ O)) as HN.
  transitivity (sumZ (fun x => sumZ (fun v => ind (v = (x, n)) * P v.1) (witness_votes s)) (names s)).
  - apply sumZ_ext. intros x _. rewrite (sumZ_pick (fun v : string * string => P v.1)) by done. done.
  - rewrite sumZ_swap. apply sumZ_ext. intros v Hv.
    rewrite (sumZ_ext _ (fun x => ind (x = v.1) * (ind (v.2 = n) * P v.1))).
    + rewrite (sumZ_pick (fun _ => ind (v.2 = n) * P v.1)) by apply names_NoDup. rewrite (ind_true (v.1 ∈ names s)); [lia|]. apply names_elem. by apply (gw_voters _ (ok_wf _ O)).
    + intros x _. destruct v as [y m]. cbn. destruct (decide (x = y)) as [->|Hne].
      * rewrite (ind_true (y = y)) by done. rewrite (ind_ext ((y, m) = (y, n)) (m = n)) by naive_solver. lia.
      * rewrite (ind_false (x = y)), (ind_false ((y, m) = (x, n))) by naive_solver. lia.
Qed.

Lemma retally_account_spec s c x a : gov_ok s -> accounts s !! x = Some a -> same_witnesses (sched s) c ->
  (forall n, (x, n) ∈ witness_votes s -> 0 <= tally c n /\ tally c n + power (names s) (px s) (dirp s) x <= total_vesting_shares (sched s)) ->
  exists c', retally_account s c x = Ok c' /\ same_witnesses c c' /\ forall n, tally c' n = tally c n + given s n x.
Proof.
  intros O Ha Hc Ht. unfold retally_account. rewrite (get_account_Some _ _ _ Ha). cbn [mbind result_bind]. pose proof (ok_wf _ O) as W.
  pose proof (power_bound (names s) (px s) (dirp s) x (gw_acyclic _ W) (fun b _ => dirp_nonneg s b O)) as HP. pose proof (dirp_total s O). pose proof (ok_range _ O).
  destruct (has_proxy a) eqn:Ep.
  - exists c. split_and!; [done|done|]. intros n. unfold given. rewrite ind_false; [lia|]. intros Hv. destruct (gw_voters _ W _ Hv) as (_ & Hr & _). cbn in Hr.
    unfold px in Hr. rewrite Ha in Hr. cbn in Hr. unfold has_proxy in Ep. by rewrite Hr in Ep.
  - assert (forall l c, foldM (fun c w => p ← get_governance_vote_power a; adjust_witness_vote w p c) c l = adjust_witness_votes l (power (names s) (px s) (dirp s) x) c) as Hf.
    { intros l c0. unfold adjust_witness_votes. by rewrite (power_value s x a O Ha). }
    rewrite Hf. destruct (adjust_votes_spec (votes_of s x) (power (names s) (px s) (dirp s) x) c) as (c' & E & S & T).
    + eapply same_witnesses_ok; [done|apply W].
    + by apply votes_of_NoDup, W.
    + unfold in_s. lia.
    + intros n Hn. apply votes_of_elem in Hn. rewrite (proj1 (same_witnesses_frame _ _ Hc)). specialize (Ht n Hn). split_and!; [|unfold in_s; lia..].
      apply (same_witnesses_is _ _ _ Hc). by apply (gw_voters _ W (x, n)).
    + exists c'. split_and!; [done|done|]. intros n. rewrite T. unfold given. by rewrite (ind_ext _ _ (votes_of_elem s x n)).
Qed.

Lemma retally_fold s done_ order c : gov_ok s -> names s ≡ₚ done_ ++ order -> same_witnesses (sched s) c ->
  (forall n, tally c n = sumZ (given s n) done_) ->
  exists c', foldM (retally_account s) c order = Ok c' /\ same_witnesses (sched s) c' /\ forall n, tally c' n = sumZ (given s n) (names s).
Proof.
  intros O. revert done_ c. induction order as [|x order IH]; intros done_ c Hp Hc Ht.
  - exists c. split_and!; [done|done|]. intros n. rewrite Ht. apply sumZ_perm. by rewrite Hp, app_nil_r.
  - assert (x ∈ names s) as Hx by (rewrite Hp; set_solver). apply names_elem in Hx as [a Ha].
    destruct (retally_account_spec s c x a O Ha Hc) as (c1 & E1 & S1 & T1).
    { intros n Hn. pose proof (proj2 (proj2 (gw_voters _ (ok_wf _ O) _ Hn))) as Hw. pose proof (witness_tally_range s n O Hw) as Hr.
      rewrite <- (given_total s n O Hw), (sumZ_perm _ _ _ Hp), sumZ_app, sumZ_cons in Hr.
      assert (given s n x = power (names s) (px s) (dirp s) x) as Hg by (unfold given; rewrite ind_true by done; lia). rewrite Hg in Hr.
      assert (0 <= sumZ (given s n) done_ /\ 0 <= sumZ (given s n) order) as [] by (split; apply sumZ_nonneg, Forall_forall; intros; by apply given_nonneg).
      rewrite Ht. lia. }
    cbn [foldM]. rewrite E1. apply (IH (done_ ++ [x])).
    + rewrite Hp, <- app_assoc. done.
    + by etrans.
    + intros n. rewrite T1, Ht, sumZ_app, sumZ_cons. cbn. lia.
Qed.

Lemma retally_spec s order : gov_ok s -> order ≡ₚ names s ->
  exists c, retally_witness_votes order s = Ok (set_sched c s) /\ same_witnesses (sched s) c /\
    forall w, is_witness (sched s) w -> tally c w = tally (sched s) w.
Proof.
  intros O Hp. unfold retally_witness_votes. pose proof (gw_witnesses _ (ok_wf _ O)) as W.
  destruct (retally_fold s [] order (reset_votes (sched s)) O) as (c & E & S & T); [by rewrite Hp|by apply (reset_tally _ EmptyString)|intros n; by apply reset_tally|].
  rewrite E. cbn [mbind result_bind]. exists c. split_and!; [done|done|]. intros w Hw. rewrite T. by apply given_total.
Qed.
End retally.

(** ** Steps *)

(** The index of requests is in the order of their dates, with one request for an
    account. *)
Record requests_ok (s : gov) : Prop := {
  rq_sorted : StronglySorted (fun x y => x.1 <= y.1) (decline_requests s);
  rq_names : NoDup (decline_requests s).*2;
  rq_exist x : x ∈ (decline_requests s).*2 -> is_Some (accounts s !! x)
}.

(** The account as its constructor leaves it. *)
Definition fresh_account (i : Z) : gov_account := mk_ga i 0 0 None (replicate max_depth 0) 0 true max_time.

(** What else may happen to the witnesses between two votes: they enter without
    votes, sign, are scheduled, and time passes. *)
Record sched_moves (c c' : chain) : Prop := {
  sm_ok : witnesses_ok c';
  sm_kept w : is_witness c w -> is_witness c' w /\ tally c' w = tally c w;
  sm_new w : is_witness c' w -> ~ is_witness c w -> tally c' w = 0;
  sm_total : total_vesting_shares c' = total_vesting_shares c
}.

Section steps.
Context `{L : FcLib}.

Inductive gov_step : gov -> gov -> Prop :=
| gs_proxy account p s s' : account_witness_proxy account p s = Ok s' -> gov_step s s'
| gs_vote account w approve s s' : account_witness_vote account w approve s = Ok s' -> gov_step s s'
| gs_decline account d s s' : decline_voting_rights account d s = Ok s' -> gov_step s s'
| gs_expire s s' : remove_expired_governance_votes s = Ok s' -> gov_step s s'
| gs_declined s s' : process_decline_voting_rights s = Ok s' -> gov_step s s'
| gs_retally order s s' : order ≡ₚ names s -> retally_witness_votes order s = Ok s' -> gov_step s s'
| gs_create name i s : accounts s !! name = None -> gov_step s (set_accounts (<[name := fresh_account i]> (accounts s)) s)
| gs_schedule c s : sched_moves (sched s) c -> gov_step s (set_sched c s)
| gs_proposals l s : gov_step s (set_proposal_votes l s)
| gs_stake name a v d v0 d0 T0 s s' : accounts s !! name = Some a -> 0 <= d <= v ->
    let T := total_vesting_shares (sched s) + (v - Governance.vesting_shares a) in
    T < 2 ^ 63 -> T <= T0 ->
    adjust_proxied_witness_votes_by name ((v - d) - (Governance.vesting_shares a - sum_delayed_votes a))
      (modify_account name (set_stake v0 d0) (set_sched (set_total T0 (sched s)) s)) = Ok s' ->
    gov_step s (modify_account name (set_stake v d) (set_sched (set_total T (sched s')) s')).
End steps.

Section keeping.
Context `{L : FcLib} `{!FcLaws L}.

Lemma created_votes_ok s name i : gov_ok s -> accounts s !! name = None -> gov_ok (set_accounts (<[name := fresh_account i]> (accounts s)) s).
Proof.
  intros O Hn. pose proof (ok_wf _ O) as W. set (s' := set_accounts _ s).
  assert (forall x a, accounts s' !! x = Some a -> (x = name /\ a = fresh_account i) \/ (x <> name /\ accounts s !! x = Some a)) as Hacc.
  { intros x a. cbn. destruct (decide (x = name)) as [->|]; [rewrite lookup_insert_eq; intros [= <-]; by left|rewrite lookup_insert_ne by done; by right]. }
  assert (forall x, px s' x = px s x /\ dirp s' x = dirp s x /\ vest s' x = vest s x) as Hv.
  { intros x. unfold px, dirp, vest. cbn. destruct (decide (x = name)) as [->|]; [by rewrite lookup_insert_eq, Hn|by rewrite lookup_insert_ne]. }
  assert (names s' ≡ₚ name :: names s) as Hp.
  { unfold names. cbn. rewrite dom_insert_L, elements_union_singleton; [done|]. by apply not_elem_of_dom. }
  assert (forall x, is_Some (accounts s !! x) -> is_Some (accounts s' !! x)) as Hdom.
  { intros x [a Ha]. exists a. cbn. rewrite lookup_insert_ne; [done|]. intros ->. congruence. }
  assert (dirp s name = 0 /\ vest s name = 0) as [Hd0 Hv0] by (unfold dirp, vest; by rewrite Hn).
  assert (forall j x, level (names s') (px s') (dirp s') j x = level (names s) (px s) (dirp s) j x) as Hl.
  { intros j x. rewrite (level_ext _ (px s') (px s) (dirp s') (dirp s)) by (intros; apply Hv). unfold level. rewrite (sumZ_perm _ _ _ Hp), sumZ_cons, Hd0. lia. }
  assert (forall x, power (names s') (px s') (dirp s') x = power (names s) (px s) (dirp s) x) as Hpw by (intros x; apply sumN_ext; intros; apply Hl).
  assert (forall j, level (names s) (px s) (dirp s) (S j) name = 0) as Hl0.
  { intros j. apply sumZ_zero. intros b Hb. rewrite ind_false; [lia|]. intros E. apply names_elem in Hb. destruct (ancestors_exist s (S j) b name W Hb E) as [? ?]. congruence. }
  assert (votes_of s name = []) as Hnov.
  { destruct (votes_of s name) as [|w l] eqn:Ev; [done|]. assert ((name, w) ∈ witness_votes s) as Hin by (apply votes_of_elem; rewrite Ev; left).
    destruct (proj1 (gw_voters _ W _ Hin)) as [? ?]. cbn in *. congruence. }
  constructor.
  - constructor.
    + intros x a Ha. destruct (Hacc x a Ha) as [[_ ->]|[_ H]]; [apply length_replicate|by apply (gw_len _ W x)].
    + intros x p. rewrite (proj1 (Hv x)). intros E. by apply Hdom, (gw_proxy _ W x).
    + eapply acyclic_ext; [intros x; symmetry; apply Hv|apply W].
    + apply W.
    + intros v Hin. destruct (gw_voters _ W v Hin) as (H1 & H2 & H3). split_and!; [by apply Hdom|by rewrite (proj1 (Hv _))|done].
    + apply W.
  - constructor.
    + intros x a j Ha Hj. rewrite Hl. destruct (Hacc x a Ha) as [[-> ->]|[_ H]]; [|by apply (bk_lv _ _ _ (ok_book _ O))].
      rewrite Hl0. cbn [fresh_account proxied_vsf_votes]. rewrite nth_lookup, lookup_replicate_2 by done. done.
    + intros w Hw. change (tally (sched s') w) with (tally (sched s) w). rewrite (bk_tally _ _ _ (ok_book _ O) w Hw). apply sumZ_ext. intros v _. by rewrite Hpw.
  - intros x a Ha. destruct (Hacc x a Ha) as [[_ ->]|[_ H]]; [cbn; lia|by apply (ok_stake _ O x)].
  - rewrite (sumZ_perm _ _ _ Hp), sumZ_cons, (proj2 (proj2 (Hv name))), Hv0, (sumZ_ext _ (vest s)) by (intros; apply Hv). apply (ok_total _ O).
  - apply O.
  - intros x a Ha. change (votes_of s' x) with (votes_of s x). destruct (Hacc x a Ha) as [[-> ->]|[_ H]]; [rewrite Hnov; cbn; unfold HIVE_MAX_ACCOUNT_WITNESS_VOTES; lia|by apply (ok_count _ O x)].
  - intros x a Ha. change (votes_of s' x) with (votes_of s x). destruct (Hacc x a Ha) as [[-> ->]|[_ H]]; [done|by apply (ok_declined _ O x)].
Qed.

Lemma schedule_ok s c : gov_ok s -> sched_moves (sched s) c -> gov_ok (set_sched c s).
Proof.
  intros O [M1 M2 M3 M4]. pose proof (ok_wf _ O) as W. constructor.
  - constructor; try apply W; [|done]. intros v Hv. destruct (gw_voters _ W v Hv) as (H1 & H2 & H3). split_and!; [done|done|by apply M2].
  - constructor; [apply (ok_book _ O)|]. intros w Hw. cbn in Hw |- *. destruct (decide (w ∈ owner <$> witnesses (sched s))) as [H|H].
    + rewrite (proj2 (M2 w H)). by apply (bk_tally _ _ _ (ok_book _ O)).
    + rewrite (M3 w Hw H). symmetry. apply sumZ_zero. intros v Hv. rewrite ind_false; [lia|]. intros <-. by apply H, (gw_voters _ W v).
  - apply O.
  - cbn. rewrite M4. apply O.
  - cbn. rewrite M4. apply O.
  - apply O.
  - apply O.
Qed.

Lemma insert_request_elem r l x : x ∈ insert_request r l <-> x = r \/ x ∈ l.
Proof. induction l as [|y l IH]; cbn; [set_solver|]. destruct (request_before r y); [set_solver|]. rewrite elem_of_cons, IH. set_solver. Qed.
Lemma insert_request_perm r l : insert_request r l ≡ₚ r :: l.
Proof. induction l as [|x l IH]; [done|]. cbn. destruct (request_before r x); [done|]. rewrite IH. constructor. Qed.

Lemma insert_request_sorted r l : StronglySorted (fun x y => x.1 <= y.1) l -> StronglySorted (fun x y => x.1 <= y.1) (insert_request r l).
Proof.
  induction 1 as [|x l Hl IH Hx]; cbn; [by repeat constructor|]. rewrite Forall_forall in Hx. destruct (request_before r x) eqn:E.
  - assert (r.1 <= x.1) by (unfold request_before in E; destruct (r.1 <? x.1) eqn:E1, (r.1 =? x.1) eqn:E2; to_prop; lia || done).
    constructor; [constructor; [done|by apply Forall_forall]|]. apply Forall_forall. intros y Hy. apply elem_of_cons in Hy as [->|Hy]; [done|]. specialize (Hx y Hy). lia.
  - assert (x.1 <= r.1) by (unfold request_before in E; destruct (r.1 <? x.1) eqn:E1; [done|]; to_prop; lia).
    constructor; [done|]. apply Forall_forall. intros y Hy. apply insert_request_elem in Hy as [->|Hy]; [done|by apply Hx].
Qed.

Lemma filter_length_le {A} (P Q : A -> Prop) `{!forall x, Decision (P x)} `{!forall x, Decision (Q x)} (l : list A) :
  (forall x, P x -> Q x) -> (length (filter P l) <= length (filter Q l))%nat.
Proof.
  intros HPQ. induction l as [|x l IH]; [done|]. rewrite !filter_cons. destruct (decide (P x)) as [Hp|]; [rewrite decide_True by (by apply HPQ); cbn; lia|].
  destruct (decide (Q x)); cbn; lia.
Qed.

(** The two invariants of a history. *)
Record gov_inv (s : gov) : Prop := { gi_ok : gov_ok s; gi_requests : requests_ok s }.

Lemma requests_same s s' : decline_requests s' = decline_requests s -> (forall x, is_Some (accounts s !! x) -> is_Some (accounts s' !! x)) ->
  requests_ok s -> requests_ok s'.
Proof. intros E Hd [H1 H2 H3]. constructor; rewrite E; [done|done|]. intros x Hx. by apply Hd, H3. Qed.

Lemma decline_keeps account d s s' : decline_voting_rights account d s = Ok s' -> gov_inv s -> gov_inv s'.
Proof.
  intros H [O [R1 R2 R3]]. unfold decline_voting_rights in H. apply bind_Ok in H as (a & Ha & H). unfold get_account in Ha. destruct (accounts s !! account) as [b|] eqn:E; [|done].
  apply check_bind_Ok in H as [_ H]. destruct d; apply check_bind_Ok in H as [Hn H]; injection H as <-; to_prop; (split; [by apply (ok_same s)|]); constructor; cbn.
  - by apply insert_request_sorted.
  - rewrite insert_request_perm. cbn. by apply NoDup_cons.
  - intros x Hx. apply list_elem_of_fmap in Hx as (r & -> & Hr). apply insert_request_elem in Hr as [->|Hr]; [by eexists|]. apply R3, list_elem_of_fmap. by exists r.
  - clear R2 R3 Hn. induction R1 as [|x l Hl IH Hx]; [constructor|]. rewrite filter_cons. destruct (decide _); [|done]. constructor; [done|].
    apply Forall_forall. intros y Hy. apply list_elem_of_filter in Hy as [_ Hy]. rewrite Forall_forall in Hx. by apply Hx.
  - eapply sublist_NoDup; [apply R2|]. apply fmap_sublist, sublist_filter.
  - intros x Hx. apply list_elem_of_fmap in Hx as (r & -> & Hr). apply list_elem_of_filter in Hr as [_ Hr]. apply R3, list_elem_of_fmap. by exists r.
Qed.

Lemma due_ok s : NoDup (by_expiration s) /\ forall x, x ∈ by_expiration s <-> exists a, accounts s !! x = Some a /\ governance_vote_expiration_ts a <= now s.
Proof.
  unfold by_expiration. set (l := merge_sort expires_le (map_to_list (accounts s))). assert (l ≡ₚ map_to_list (accounts s)) as Hp by apply merge_sort_Permutation. split.
  - eapply sublist_NoDup; [|apply fmap_sublist, sublist_filter]. rewrite Hp. apply NoDup_fst_map_to_list.
  - intros x. rewrite list_elem_of_fmap. split.
    + intros ([y a] & -> & H). apply list_elem_of_filter in H as [Hd H]. rewrite Hp in H. apply elem_of_map_to_list in H. by exists a.
    + intros (a & Ha & Hd). exists (x, a). split; [done|]. apply list_elem_of_filter. split; [done|]. rewrite Hp. by apply elem_of_map_to_list.
Qed.

Lemma expired_spec s : gov_ok s ->
  exists k s', remove_expired_governance_votes s = Ok s' /\ cut_off s s' (take k (by_expiration s)) /\
    (enough (remove_threshold s) (by_expiration s) s -> k = length (by_expiration s)) /\ decline_requests s' = decline_requests s.
Proof.
  intros O. destruct (due_ok s) as [HN Hd]. destruct (expire_spec (remove_threshold s) (by_expiration s) s O HN) as (k & s' & E & C & _ & Hk & Hr & _ & _).
  { intros x Hx. apply Hd in Hx as (a & Ha & _). by eexists. }
  by exists k, s'.
Qed.

Lemma declined_spec s : gov_inv s ->
  exists k s', process_decline_voting_rights s = Ok s' /\ cut_off s s' (take k (decline_requests s)).*2 /\ decline_requests s' = drop k (decline_requests s) /\
    (forall r, r ∈ take k (decline_requests s) -> r.1 <= now s) /\
    (enough (remove_threshold s) (decline_requests s).*2 s -> forall r, r ∈ drop k (decline_requests s) -> now s < r.1) /\
    (forall x b, accounts s' !! x = Some b -> x ∈ (take k (decline_requests s)).*2 -> can_vote b = false).
Proof.
  intros [O [R1 R2 R3]]. destruct (decline_spec (remove_threshold s) (decline_requests s) s O eq_refl R2 R3) as (k & s' & E & C & _ & Hr & Hdue & Hen & _ & Hacc).
  exists k, s'. split_and!; [done|done|done|done| |].
  - intros He r Hin. destruct (decline_requests s !! k) as [r0|] eqn:Ek.
    + assert (now s < r0.1) as Hlt.
      { apply Z.lt_nge. intros Hle. apply (Hen r0 eq_refl Hle). destruct He as [He|He]; [by left|right]. etrans; [|exact He]. apply Nat2Z.inj_le. unfold votes_by. apply filter_length_le. intros v Hv. apply list_elem_of_fmap in Hv as (y & -> & Hy). apply list_elem_of_fmap. exists y. split; [done|].
        rewrite <- (take_drop (S k) (decline_requests s)). apply elem_of_app. by left. }
      rewrite (drop_S _ _ _ Ek) in Hin. apply elem_of_cons in Hin as [->|Hin]; [done|]. apply Z.lt_le_trans with r0.1; [done|].
      rewrite <- (take_drop k (decline_requests s)), (drop_S _ _ _ Ek) in R1. apply StronglySorted_app in R1 as (_ & _ & R1). apply StronglySorted_inv in R1 as [_ R1].
      rewrite Forall_forall in R1. by apply R1.
    + apply lookup_ge_None in Ek. rewrite drop_ge in Hin by done. by apply elem_of_nil in Hin.
  - intros x b Hb Hx. destruct (Hacc x b Hb) as (b0 & _ & ->). by rewrite decide_True.
Qed.

Lemma drop_requests_ok s s' k gone : requests_ok s -> decline_requests s' = drop k (decline_requests s) -> cut_off s s' gone -> requests_ok s'.
Proof.
  intros [R1 R2 R3] E C. constructor; rewrite E.
  - rewrite <- (take_drop k (decline_requests s)) in R1. by apply StronglySorted_app in R1 as (_ & _ & R1).
  - eapply sublist_NoDup; [apply R2|]. apply fmap_sublist, sublist_drop.
  - intros x Hx. apply (co_dom _ _ _ C), R3. apply list_elem_of_fmap in Hx as (r & -> & Hr). apply list_elem_of_fmap. exists r. split; [done|].
    rewrite <- (take_drop k (decline_requests s)). apply elem_of_app. by right.
Qed.

Lemma vote_dom s s' account w approve : account_witness_vote account w approve s = Ok s' ->
  decline_requests s' = decline_requests s /\ forall x, is_Some (accounts s !! x) -> is_Some (accounts s' !! x).
Proof.
  intros H. unfold account_witness_vote in H. apply bind_Ok in H as (? & _ & H). apply bind_Ok in H as (a & _ & H). do 2 apply check_bind_Ok in H as [_ H].
  apply bind_Ok in H as (w0 & _ & H). destruct (negb _); do 2 (apply bind_Ok in H as (? & _ & H)); do 2 (apply bind_Ok in H as (? & _ & H)); injection H as <-; (split; [done|]);
    intros y Hy; cbn; rewrite !lookup_alter_is_Some; done.
Qed.

Lemma adjust_frame left name delta s s' : adjust_proxied_levels left name delta s = Ok s' ->
  decline_requests s' = decline_requests s /\ forall x, is_Some (accounts s !! x) -> is_Some (accounts s' !! x).
Proof.
  revert name s. induction left as [|left IH]; intros name s H; cbn in H; apply bind_Ok in H as (a & _ & H); destruct (proxy a) as [p|].
  - injection H as <-. done.
  - apply bind_Ok in H as (? & _ & H). apply bind_Ok in H as (c & _ & H). injection H as <-. done.
  - apply bind_Ok in H as (b & _ & H). apply bind_Ok in H as (v & _ & H). apply IH in H as [H1 H2]. split; [done|]. intros x Hx. apply H2. cbn. by rewrite lookup_alter_is_Some.
  - apply bind_Ok in H as (? & _ & H). apply bind_Ok in H as (c & _ & H). injection H as <-. done.
Qed.

Lemma proxy_dom s s' account p : account_witness_proxy account p s = Ok s' ->
  decline_requests s' = decline_requests s /\ forall x, is_Some (accounts s !! x) -> is_Some (accounts s' !! x).
Proof.
  intros H. unfold account_witness_proxy in H. apply bind_Ok in H as (? & _ & H). apply bind_Ok in H as (a & _ & H). apply check_bind_Ok in H as [_ H].
  apply bind_Ok in H as (s1 & Hn & H). unfold nullify_proxied_witness_votes in Hn. do 3 (apply bind_Ok in Hn as (? & _ & Hn)). apply adjust_frame in Hn as [D1 D2]. change (decline_requests s1 = decline_requests s) in D1.
  assert (forall x, is_Some (accounts s !! x) -> is_Some (accounts s1 !! x)) as D3 by (intros y Hy; apply D2; cbn; by rewrite lookup_alter_is_Some).
  destruct (negb (bool_decide (p = HIVE_PROXY_TO_SELF_ACCOUNT))).
  - apply bind_Ok in H as (? & _ & H). apply check_bind_Ok in H as [_ H]. apply bind_Ok in H as (? & _ & H). apply check_bind_Ok in H as [_ H].
    apply bind_Ok in H as (? & _ & H). apply bind_Ok in H as (? & _ & H). apply adjust_frame in H as [E1 E2].
    destruct (push_cleared_same account a (clear_witness_votes account s1)) as (P1 & _ & _). split.
    + rewrite E1, <- D1. cbn. unfold push_cleared. by destruct (proxy a).
    + intros y Hy. apply E2. cbn. rewrite lookup_alter_is_Some, P1. cbn. rewrite lookup_alter_is_Some. by apply D3.
  - apply check_bind_Ok in H as [_ H]. injection H as <-. destruct (push_cleared_same account a s1) as (P1 & _ & _). split.
    + rewrite <- D1. cbn. unfold push_cleared. by destruct (proxy a).
    + intros y Hy. cbn. rewrite lookup_alter_is_Some, P1. by apply D3.
Qed.

Lemma step_keeps s s' : gov_step s s' -> gov_inv s -> gov_inv s'.
Proof.
  intros H [O R]. destruct H as [account p s s' H|account w approve s s' H|account d s s' H|s s' H|s s' H|order s s' Hp H|name i s H|c s H|l s|name a v d v0 d0 T0 s s' Ha Hvd T HT HT0 H].
  - pose proof (witness_proxy_spec account p s O) as S. destruct (proxy_allowed account p s); [|destruct S; congruence].
    destruct S as (s2 & E & O2 & _). assert (s2 = s') as -> by congruence. split; [done|]. apply proxy_dom in H as [H1 H2]. by apply (requests_same s).
  - pose proof (witness_vote_spec account w approve s O) as S. destruct (vote_allowed account w approve s); [|destruct S; congruence].
    destruct S as (s2 & E & O2 & _). assert (s2 = s') as -> by congruence. split; [done|]. apply vote_dom in H as [H1 H2]. by apply (requests_same s).
  - by eapply decline_keeps.
  - destruct (expired_spec s O) as (k & s2 & E & C & _ & Hr). assert (s2 = s') as -> by congruence. split; [apply C|]. apply (requests_same s); [done|intros x; apply C|done].
  - destruct (declined_spec s) as (k & s2 & E & C & Hr & _); [done|]. assert (s2 = s') as -> by congruence. split; [apply C|]. by eapply drop_requests_ok.
  - destruct (retally_spec s order O Hp) as (c & E & S & T). assert (set_sched c s = s') as <- by congruence. split.
    + apply schedule_ok; [done|]. constructor; [by eapply same_witnesses_ok; [|apply O]| | |by apply same_witnesses_frame].
      * intros w Hw. split; [by apply (same_witnesses_is _ _ _ S)|by apply T].
      * intros w Hw Hn. exfalso. by apply Hn, (same_witnesses_is _ _ _ S).
    + by apply (requests_same s).
  - split; [by apply created_votes_ok|]. apply (requests_same s); [done| |done]. intros x Hx. cbn. destruct (decide (x = name)) as [->|]; [rewrite lookup_insert_eq; by eexists|by rewrite lookup_insert_ne].
  - split; [by apply schedule_ok|]. by apply (requests_same s).
  - split; [by apply (ok_same s)|]. by apply (requests_same s).
  - destruct (stake_spec s name a v d T0 v0 d0 O Ha Hvd HT0 HT) as (s1 & E & F & O1). assert (s1 = s') as -> by congruence. split; [done|].
    apply (requests_same s); [|intros x Hx|done].
    + cbn. by rewrite (gf_requests _ _ F).
    + cbn. rewrite lookup_alter_is_Some. apply (frame_lookup _ _ _ F). cbn. by rewrite lookup_alter_is_Some.
Qed.
End keeping.

(** Reachable states: histories from a chain with no accounts. *)
Definition genesis (c : chain) : Prop := witnesses_ok c /\ total_vesting_shares c = 0 /\ forall w, is_witness c w -> tally c w = 0.
Definition empty_gov (c : chain) (threshold : Z) : gov := mk_gov ∅ [] [] [] c threshold [].

Lemma genesis_inv c threshold : genesis c -> gov_inv (empty_gov c threshold).
Proof.
  intros (W & H0 & Ht). split; [|constructor; [constructor|constructor|set_solver]]. constructor; try done.
  - constructor; try done; [constructor|set_solver].
  - cbn. rewrite H0. lia.
Qed.

Section claims.
Context `{L : FcLib} `{!FcLaws L}.

Definition reachable (c : chain) (threshold : Z) (s : gov) : Prop := genesis c /\ rtc gov_step (empty_gov c threshold) s.

Lemma reachable_inv c threshold s : reachable c threshold s -> gov_inv s.
Proof.
  intros [G H]. pose proof (genesis_inv c threshold G) as I. revert I. induction H as [|x y z Hxy Hyz IH]; [done|]. intros I. apply IH. by eapply step_keeps.
Qed.

(** C8. In every history of votes, proxies, expirations, declined rights, new
    accounts and changes of stake, the votes of a witness are the stake (without
    what is still delayed) of the accounts that vote for it themselves or whose
    chain of at most four proxies reaches an account that does, and proxies form
    no loop. *)
Theorem votes_follow_stake c threshold s : reachable c threshold s ->
  acyclic (px s) /\ forall w, is_witness (sched s) w -> tally (sched s) w = stake_for s w.
Proof. intros [O _]%reachable_inv. split; [apply O|]. intros w Hw. by apply tally_through. Qed.

(** The walk up from the new proxy, with [k] more names to come before the limit: [chain]
    holds the account and those below [c]. *)
Lemma proxy_walk s account k rounds (chain : gset string) c : gov_wf s -> (k <= rounds)%nat -> is_Some (accounts s !! c) -> c <> account ->
  account ∈ chain -> (forall x, x ∈ chain -> x = account \/ exists j, anc (px s) j x = Some c) -> (base.size chain + k = max_depth)%nat ->
  check_proxy_chain (S rounds) chain c s = Ok tt <-> (forall j, anc (px s) j c <> Some account) /\ anc (px s) (S k) c = None.
Proof.
  intros W. revert rounds chain c. induction k as [|k IH]; intros rounds chain c Hr [a Ha] Hne Hacc Hchain Hsize; cbn [check_proxy_chain anc];
    rewrite (get_account_Some _ _ _ Ha); cbn [mbind result_bind]; assert (px s c = proxy a) as Hpx by (unfold px; by rewrite Ha); rewrite Hpx;
    (destruct (proxy a) as [d|]; [|split; [|done]; intros _; split; [|done]; intros [|j]; cbn; [congruence|by rewrite Hpx]]);
    destruct (gw_proxy _ W c d Hpx) as [b Hb]; rewrite (get_account_Some _ _ _ Hb); cbn [mbind result_bind];
    (assert (d ∈ chain -> d = account) as Hback
      by (intros Hd; destruct (Hchain d Hd) as [?|[j Hj]]; [done|]; exfalso; apply (gw_acyclic _ W j c); cbn [anc]; by rewrite Hpx)).
  - split; [|intros [_ H]; done]. unfold check. destruct (bool_decide_reflect (d ∈ chain)) as [Hd|Hd]; [done|]. cbn [negb mbind result_bind].
    rewrite size_union by set_solver. rewrite size_singleton. replace (_ <=? _) with false; [done|]. symmetry. apply Z.leb_gt. unfold max_depth, HIVE_MAX_PROXY_RECURSION_DEPTH in *. lia.
  - unfold check. destruct (bool_decide_reflect (d ∈ chain)) as [Hd|Hd]; cbn [negb mbind result_bind].
    { split; [done|]. intros [H _]. exfalso. apply (H 1%nat). cbn. rewrite Hpx. by rewrite (Hback Hd). }
    assert (base.size ({[d]} ∪ chain) = S (base.size chain)) as Hs by (rewrite size_union, size_singleton by set_solver; done). rewrite Hs.
    replace (_ <=? _) with true by (symmetry; apply Z.leb_le; unfold max_depth, HIVE_MAX_PROXY_RECURSION_DEPTH in *; lia). cbn [mbind result_bind].
    destruct rounds as [|rounds]; [lia|]. rewrite IH; [|lia|by eexists|set_solver|set_solver| |lia].
    + split; intros [H1 H2]; (split; [|done]); intros j; [destruct j as [|j]; cbn; [congruence|]; rewrite Hpx; apply H1|]. intros H. apply (H1 (S j)). cbn. by rewrite Hpx.
    + intros x [->%elem_of_singleton|Hx]%elem_of_union; [right; by exists 0%nat|]. destruct (Hchain x Hx) as [?|[j Hj]]; [by left|]. right. exists (j + 1)%nat. rewrite (anc_add _ _ _ _ _ Hj). cbn. by rewrite Hpx.
Qed.

Lemma proxy_chain_spec s account p : gov_wf s -> is_Some (accounts s !! p) -> p <> account ->
  check_proxy_chain (S max_depth) {[ account; p ]} p s = Ok tt <-> (forall j, anc (px s) j p <> Some account) /\ anc (px s) 3 p = None.
Proof.
  intros W Hp Hne. apply proxy_walk; [done|change max_depth with 4%nat; lia|done|done|set_solver| |rewrite size_union, !size_singleton by set_solver; done].
  intros x Hx. destruct (decide (x = account)); [by left|]. assert (x = p) as -> by set_solver. right. by exists 0%nat.
Qed.

(** When an account can change its proxy.  [""] clears it.  The account whose id is 0 as
    a proxy is no proxy: naming it leaves the account without one. *)
Definition may_set_proxy (account proxy_name : string) (s : gov) : Prop :=
  account <> PIXA_ICO_ACCOUNT /\ account <> PIXA_TEAM_ACCOUNT /\
  (exists a, accounts s !! account = Some a /\ can_vote a = true) /\
  if bool_decide (proxy_name = ""%string) then px s account <> None
  else exists b, accounts s !! proxy_name = Some b /\ proxy_name <> account /\
         px s account <> (if acc_id b =? 0 then None else Some proxy_name) /\
         (forall j, anc (px s) j proxy_name <> Some account) /\ anc (px s) 3 proxy_name = None.

Lemma proxy_allowed_iff account proxy_name s : gov_wf s -> proxy_allowed account proxy_name s = true <-> may_set_proxy account proxy_name s.
Proof.
  intros W. unfold proxy_allowed, may_set_proxy, is_pixa_ico.
  destruct (bool_decide_reflect (account = PIXA_ICO_ACCOUNT)) as [|H1]; [by split; [|intros [? _]]|]. destruct (bool_decide_reflect (account = PIXA_TEAM_ACCOUNT)) as [|H2]; [by split; [|intros (_ & ? & _)]|].
  cbn [orb negb andb]. transitivity ((exists a, accounts s !! account = Some a /\ can_vote a = true) /\
    if bool_decide (proxy_name = ""%string) then px s account <> None
    else exists b, accounts s !! proxy_name = Some b /\ proxy_name <> account /\ px s account <> (if acc_id b =? 0 then None else Some proxy_name) /\
         (forall j, anc (px s) j proxy_name <> Some account) /\ anc (px s) 3 proxy_name = None); [|by tauto]. clear H1 H2. unfold px at 1 2.
  destruct (accounts s !! account) as [a|] eqn:Ha; [|split; [done|]; by intros [(a & ? & _) _]]. cbn [mbind option_bind].
  rewrite andb_true_iff. split; intros [Hc H]; (split; [by first [exists a|destruct Hc as (? & [= <-] & ?)]|]); unfold HIVE_PROXY_TO_SELF_ACCOUNT in *;
    (destruct (bool_decide (proxy_name = ""%string)); [unfold has_proxy in *; by destruct (proxy a)|]).
  - destruct (accounts s !! proxy_name) as [b|] eqn:Hb; [|done]. exists b. apply andb_true_iff in H as [H H3]. apply andb_true_iff in H as [H1 H2]. to_prop.
    unfold proxy_ref in H1. split; [done|]. split; [done|]. split; [done|]. apply proxy_chain_spec; [done|by eexists|done|]. by destruct (check_proxy_chain _ _ _ _) as [[]|].
  - destruct H as (b & Hb & Hne & Hp & Hch). apply proxy_chain_spec in Hch; [|done|by eexists|done]. rewrite Hb, Hch. cbn [is_ok]. unfold proxy_ref. rewrite !bool_decide_eq_false_2 by done. done.
Qed.

(** C28. The proxy operation succeeds exactly when the account is neither of the two
    restricted accounts, exists and may vote, and, to clear the proxy, has one; to set a proxy, that account
    exists, is another one, would be a change (the account with id 0 stands for no proxy),
    its chain of proxies does not lead back to the account and has at most two more
    proxies.  It then changes this one proxy and drops the account's own votes, and
    otherwise throws. *)
Theorem proxy_exactly_when_allowed c threshold s account proxy_name : reachable c threshold s ->
  (may_set_proxy account proxy_name s ->
     exists s', account_witness_proxy account proxy_name s = Ok s' /\
       (forall x, px s' x = new_proxies account proxy_name s x) /\
       (forall x, votes_of s' x = if decide (x = account) then [] else votes_of s x)) /\
  (~ may_set_proxy account proxy_name s -> exists e, account_witness_proxy account proxy_name s = Throw e).
Proof.
  intros [O _]%reachable_inv. pose proof (witness_proxy_spec account proxy_name s O) as H. pose proof (proxy_allowed_iff account proxy_name s (ok_wf _ O)) as I.
  destruct (proxy_allowed account proxy_name s); [|split; [intros M; by apply I in M|done]].
  split; [|intros M; destruct M; by apply I]. intros _. destruct H as (s' & E & _ & Hp & Hv). by exists s'.
Qed.

(** A vote succeeds exactly when its guards hold (the checks on the tally never
    fail) and then changes this vote only. *)
Theorem vote_exactly_when_allowed c threshold s account witness approve : reachable c threshold s ->
  if vote_allowed account witness approve s
  then exists s', account_witness_vote account witness approve s = Ok s' /\
         (forall w, w ∈ votes_of s' account <-> (w = witness /\ approve = true) \/ (w <> witness /\ w ∈ votes_of s account)) /\
         (forall x, x <> account -> votes_of s' x ≡ₚ votes_of s x) /\ (forall x, px s' x = px s x)
  else exists e, account_witness_vote account witness approve s = Throw e.
Proof.
  intros [O _]%reachable_inv. pose proof (witness_vote_spec account witness approve s O) as H. destruct (vote_allowed account witness approve s); [|done].
  destruct H as (s' & H1 & _ & H2). by exists s'.
Qed.

(** The audit of the votes that the chain can run on every block passes in every
    reachable state: no witness has more votes than there are vesting shares, and
    the votes that have reached the end of their chain, or its fourth proxy,
    together with the delayed ones are all vesting shares. *)
Theorem votes_audit_passes c threshold s : reachable c threshold s -> validate_votes s = Ok tt.
Proof. intros [O _]%reachable_inv. by apply audit_passes. Qed.

(** Counting all votes again from scratch, in any order of the accounts, gives
    the tallies that were maintained step by step. *)
Theorem retally_changes_nothing c threshold s order : reachable c threshold s -> order ≡ₚ names s ->
  exists k, retally_witness_votes order s = Ok (set_sched k s) /\ forall w, is_witness (sched s) w -> tally k w = tally (sched s) w.
Proof. intros [O _]%reachable_inv Hp. destruct (retally_spec s order O Hp) as (k & H1 & _ & H2). by exists k. Qed.

(** A block removes the votes of expired accounts without failing; if the
    threshold allows for their proposal votes, every account whose time is up is
    left with no proxy, no witness votes and no proposal votes, and the accounts
    whose time is not up keep their proxies and witness votes. *)
Theorem expired_votes_removed c threshold s : reachable c threshold s -> enough (remove_threshold s) (by_expiration s) s ->
  exists s', remove_expired_governance_votes s = Ok s' /\
    forall x a, accounts s !! x = Some a ->
      if governance_vote_expiration_ts a <=? now s
      then px s' x = None /\ votes_of s' x = [] /\ forall v, v ∈ proposal_votes s' -> v.1 <> x
      else px s' x = px s x /\ votes_of s' x = votes_of s x.
Proof.
  intros [O _]%reachable_inv He. destruct (expired_spec s O) as (k & s' & E & C & Hk & _). exists s'. split; [done|]. rewrite (Hk He), firstn_all in C.
  intros x a Ha. destruct (_ <=? _) eqn:Et; to_prop.
  - assert (x ∈ by_expiration s) as Hx by (apply due_ok; by exists a). rewrite (co_px _ _ _ C), (co_votes _ _ _ C), !decide_True by done. split_and!; [done|done|].
    intros v Hv Ev. destruct (co_proposals _ _ _ C v Hv) as [_ Hn]. by rewrite Ev in Hn.
  - assert (x ∉ by_expiration s) as Hx by (intros Hx; apply due_ok in Hx as (b & Hb & ?); rewrite Ha in Hb; injection Hb as <-; lia).
    by rewrite (co_px _ _ _ C), (co_votes _ _ _ C), !decide_False.
Qed.

(** Requests to decline voting rights that are due are executed without failing,
    all of them if the threshold allows: these accounts can no longer vote and have
    no proxy and no witness votes left, and only requests of the future remain. *)
Theorem declined_rights_end c threshold s : reachable c threshold s -> enough (remove_threshold s) (decline_requests s).*2 s ->
  exists s', process_decline_voting_rights s = Ok s' /\ (forall r, r ∈ decline_requests s' <-> r ∈ decline_requests s /\ now s < r.1) /\
    forall t x, (t, x) ∈ decline_requests s -> t <= now s ->
      px s' x = None /\ votes_of s' x = [] /\ exists b, accounts s' !! x = Some b /\ can_vote b = false.
Proof.
  intros I%reachable_inv He. destruct (declined_spec s I) as (k & s' & E & C & Hr & Hdue & Hleft & Hcan). exists s'. split; [done|].
  specialize (Hleft He). assert (forall r, r ∈ decline_requests s -> r ∈ take k (decline_requests s) \/ r ∈ drop k (decline_requests s)) as Hsplit
    by (intros r Hin; rewrite <- (take_drop k (decline_requests s)) in Hin; by apply elem_of_app in Hin).
  split.
  - intros r. rewrite Hr. split.
    + intros Hin. split; [|by apply Hleft]. rewrite <- (take_drop k (decline_requests s)). apply elem_of_app. by right.
    + intros [Hin Hlt]. destruct (Hsplit r Hin) as [Ht|]; [|done]. specialize (Hdue r Ht). lia.
  - intros t x Hin Hle. destruct (Hsplit _ Hin) as [Ht|Ht]; [|specialize (Hleft _ Ht); cbn in Hleft; lia].
    assert (x ∈ (take k (decline_requests s)).*2) as Hx by (apply list_elem_of_fmap; by exists (t, x)).
    rewrite (co_px _ _ _ C), (co_votes _ _ _ C), !decide_True by done. split_and!; [done|done|].
    destruct (proj2 (co_dom _ _ _ C x)) as [b Hb]; [apply (rq_exist _ (gi_requests _ I)), list_elem_of_fmap; by exists (t, x)|]. exists b. split; [done|]. by eapply Hcan.
Qed.

(** A change of the account's own stake, passed up the proxies as one number, does
    what the array of levels with this number in the first place does. *)
Theorem own_stake_is_first_level c threshold s name d : reachable c threshold s -> - 2 ^ 63 < d < 2 ^ 63 ->
  adjust_proxied_witness_votes_by name d s = adjust_proxied_witness_votes name (own_delta d) s.
Proof.
  intros [O _]%reachable_inv Hd. apply stake_as_levels; [done| |done]. intros x a Ha. pose proof (ok_wf _ O) as W. split; [by apply (gw_len _ W x)|].
  rewrite (proxied_levels s x a _ _ W (ok_book _ O) Ha). apply Forall_fmap, Forall_forall. intros j _. cbn.
  pose proof (level_bound (names s) (px s) (dirp s) (S j) x (fun b _ => dirp_nonneg s b O)). pose proof (dirp_total s O). pose proof (ok_range _ O). unfold in_s. lia.
Qed.
End claims.

(** ** A history *)

Module Sample.
#[local] Existing Instance fc_ref.
#[local] Existing Instance fc_ref_laws.
Import WitnessSchedule.Sample.

Definition c0 : chain :=
  mk_chain [producer 0 "dana" 0 50; producer 1 "erin" 0 50] schedule0 schedule0
    (mk_hpo 29 (make_hardfork_version 1 29) (make_hardfork_version 1 29) 0) 105 1700000000 240 0 0 65536 0 0.
Definition g0 : gov := empty_gov c0 200.

Lemma c0_genesis : genesis c0.
Proof.
  split; [|split; [done|]].
  - constructor; apply (bool_decide_unpack _); vm_compute; done.
  - intros w Hw. unfold is_witness in Hw. cbn in Hw. rewrite !elem_of_cons in Hw. destruct Hw as [->|[->|Hw]]; [done..|set_solver].
Qed.

Definition or_else (r : result gov) (s : gov) : gov := match r with Ok s' => s' | Throw _ => s end.
Definition create (name : string) (i : Z) (s : gov) : gov := set_accounts (<[name := fresh_account i]> (accounts s)) s.
(** [v] vesting shares for an account that had none, [d] of them delayed. *)
Definition vested (name : string) (v d : Z) (s : gov) : gov :=
  let T := total_vesting_shares (sched s) + (v - 0) in
  let s' := or_else (adjust_proxied_witness_votes_by name ((v - d) - (0 - 0)) (modify_account name (set_stake v d) (set_sched (set_total T (sched s)) s))) s in
  modify_account name (set_stake v d) (set_sched (set_total T (sched s')) s').
Definition at_time (t : Z) (s : gov) : gov :=
  let c := sched s in
  set_sched (mk_chain (witnesses c) (wso_current c) (wso_future c) (hpo c) (head_block_num c) t (current_aslot c) (total_vesting_shares c)
    (num_pow_witnesses c) (maximum_block_size c) (hbd_interest_rate c) (warnings c)) s.

Definition g3 : gov := create "carol" 3 (create "bob" 2 (create "alice" 1 g0)).
Definition g4 : gov := vested "alice" 100 0 g3.
Definition g5 : gov := vested "bob" 50 20 g4.
Definition g6 : gov := vested "carol" 40 0 g5.
Definition g7 : gov := or_else (account_witness_proxy "bob" "alice" g6) g6.
Definition g8 : gov := or_else (account_witness_vote "alice" "dana" true g7) g7.
Definition g9 : gov := or_else (account_witness_vote "carol" "dana" true g8) g8.
Definition g10 : gov := or_else (decline_voting_rights "carol" true g9) g9.
Definition g11 : gov := at_time 1800000000 g10.

Lemma at_time_step t s : witnesses_ok (sched s) -> gov_step s (at_time t s).
Proof. intros W. apply gs_schedule. constructor; [by destruct W|done|done|done]. Qed.

Lemma g7_reachable : reachable c0 200 g7.
Proof.
  split; [apply c0_genesis|].
  eapply rtc_l; [apply (gs_create "alice" 1 g0); done|]. eapply rtc_l; [apply (gs_create "bob" 2); done|]. eapply rtc_l; [apply (gs_create "carol" 3); done|].
  eapply (rtc_l _ _ g4); [eapply (gs_stake "alice" (fresh_account 1) 100 0 100 0 100); vm_compute; done|].
  eapply (rtc_l _ _ g5); [eapply (gs_stake "bob" (fresh_account 2) 50 20 50 20 150); vm_compute; done|].
  eapply (rtc_l _ _ g6); [eapply (gs_stake "carol" (fresh_account 3) 40 0 40 0 190); vm_compute; done|].
  apply rtc_once, (gs_proxy "bob" "alice"). vm_compute. done.
Qed.
Lemma g11_reachable : reachable c0 200 g11.
Proof.
  destruct g7_reachable as [G H]. split; [done|]. etransitivity; [exact H|].
  eapply (rtc_l _ _ g8); [apply (gs_vote "alice" "dana" true); vm_compute; done|].
  eapply (rtc_l _ _ g9); [apply (gs_vote "carol" "dana" true); vm_compute; done|].
  eapply (rtc_l _ _ g10); [apply (gs_decline "carol" true); vm_compute; done|].
  eapply (rtc_l _ _ g11); [apply at_time_step|apply rtc_refl]. constructor; apply (bool_decide_unpack _); vm_compute; done.
Qed.
Lemma dana_is_witness : is_witness (sched g11) "dana".
Proof. unfold is_witness. apply (bool_decide_unpack _). vm_compute. done. Qed.

(** Alice's 100, the 30 of Bob that already count, and Carol's 40. *)
Lemma votes_follow_stake_witness : tally (sched g11) "dana" = 170.
Proof. rewrite (proj2 (votes_follow_stake c0 200 g11 g11_reachable) "dana" dana_is_witness). vm_compute. reflexivity. Defined.

Lemma proxy_exactly_when_allowed_witness :
  exists s', account_witness_proxy "carol" "alice" g11 = Ok s' /\
    (forall x, px s' x = new_proxies "carol" "alice" g11 x) /\ (forall x, votes_of s' x = if decide (x = "carol"%string) then [] else votes_of g11 x).
Proof.
  apply (proxy_exactly_when_allowed c0 200 g11 "carol" "alice" g11_reachable). apply proxy_allowed_iff; [apply (reachable_inv c0 200 g11 g11_reachable)|]. vm_compute. reflexivity.
Defined.

Lemma vote_exactly_when_allowed_witness : exists e, account_witness_vote "bob" "dana" true g11 = Throw e.
Proof.
  pose proof (vote_exactly_when_allowed c0 200 g11 "bob" "dana" true g11_reachable) as H.
  assert (vote_allowed "bob" "dana" true g11 = false) as E by (vm_compute; reflexivity). rewrite E in H. exact H.
Defined.

Lemma votes_audit_passes_witness : validate_votes g11 = Ok tt.
Proof. exact (votes_audit_passes c0 200 g11 g11_reachable). Defined.

Lemma retally_changes_nothing_witness :
  exists k, retally_witness_votes (reverse (names g11)) g11 = Ok (set_sched k g11) /\ tally k "dana" = 170.
Proof.
  destruct (retally_changes_nothing c0 200 g11 (reverse (names g11)) g11_reachable (reverse_Permutation _)) as (k & H & T).
  exists k. split; [exact H|]. rewrite (T "dana"%string dana_is_witness). vm_compute. reflexivity.
Defined.

(** A year and more after the votes both voters and the proxy have expired. *)
Lemma expired_votes_removed_witness :
  exists s', remove_expired_governance_votes g11 = Ok s' /\ px s' "bob" = None /\ votes_of s' "alice" = [].
Proof.
  destruct (expired_votes_removed c0 200 g11 g11_reachable) as (s' & H & Hx); [right; vm_compute; discriminate|].
  exists s'. split; [exact H|]. split.
  - destruct (accounts g11 !! "bob"%string) as [a|] eqn:E; [|vm_compute in E; discriminate]. pose proof (Hx "bob"%string a E) as Hb.
    assert (governance_vote_expiration_ts a <=? now g11 = true) as Et by (vm_compute in E; injection E as <-; reflexivity). rewrite Et in Hb. apply Hb.
  - destruct (accounts g11 !! "alice"%string) as [a|] eqn:E; [|vm_compute in E; discriminate]. pose proof (Hx "alice"%string a E) as Hb.
    assert (governance_vote_expiration_ts a <=? now g11 = true) as Et by (vm_compute in E; injection E as <-; reflexivity). rewrite Et in Hb. apply Hb.
Defined.

Lemma declined_rights_end_witness :
  exists s', process_decline_voting_rights g11 = Ok s' /\ votes_of s' "carol" = [] /\ exists b, accounts s' !! "carol"%string = Some b /\ can_vote b = false.
Proof.
  destruct (declined_rights_end c0 200 g11 g11_reachable) as (s' & H & _ & Hx); [right; vm_compute; discriminate|].
  exists s'. split; [exact H|]. destruct (Hx 1702592000 "carol"%string) as (_ & H1 & H2); [apply (bool_decide_unpack _); vm_compute; exact I|vm_compute; discriminate|exact (conj H1 H2)].
Defined.

Lemma own_stake_is_first_level_witness :
  adjust_proxied_witness_votes_by "bob" 20 g11 = adjust_proxied_witness_votes "bob" (own_delta 20) g11.
Proof. exact (own_stake_is_first_level c0 200 g11 "bob" 20 g11_reachable ltac:(lia)). Defined.

(** The first account of the chain has the id that means none: bob, whose proxy is alice,
    names it as his proxy and is left without one; carol, who has none, is refused. *)
Definition g_first : gov := create PIXA_ICO_ACCOUNT 0 g11.
Example first_account_is_no_proxy :
  (px g_first "bob", px (or_else (account_witness_proxy "bob" PIXA_ICO_ACCOUNT g_first) g_first) "bob") = (Some "alice"%string, None) /\
  account_witness_proxy "carol" PIXA_ICO_ACCOUNT g_first = Throw AssertState.
Proof. split; vm_compute; reflexivity. Qed.
End Sample.
