(* ===== verification/ResourceCredits.v ===== *)
(** * Resource credits

    Models libraries/chain/rc: the maximum and the mana of resource credits (RC)
    of an account, delegations of RC with the clean-up after an account lost the
    stake behind them, the use of RC by a transaction (rc_utility.cpp), the price
    of a resource and the parameters of its curve (rc_utility.cpp, rc_curve.cpp),
    and the pools of resources at the end of a block (rc_objects.hpp).

    Hardforks up to 28 are active; 31, which turns two warnings into assertions, is
    a field of the state.  Accounts are referred to by their ids, also where an
    operation names them.  [USE_ALTERNATE_CHAIN_ID] and [IS_TEST_NET] are not
    defined.  What a transaction consumes ([tx_info]) is not part of the state. *)

From stdpp Require Import base numbers strings option list gmap.
From S2P Require Import Prelude Fc Config AssetSymbol Asset Resources.
Open Scope Z_scope.

(** ** State *)

(** The fields of [account_object] on vesting shares, power down and RC; shares and
    RC are 64-bit amounts. *)
Record account : Set := mk_rca {
  name : string;
  vesting_shares : Z;
  delegated_vesting_shares : Z;
  received_vesting_shares : Z;
  vesting_withdraw_rate : Z;
  to_withdraw : Z;
  withdrawn : Z;
  next_vesting_withdrawal : Z;
  voting_manabar : manabar;
  downvote_manabar : manabar;
  rc_manabar : manabar;
  rc_adjustment : Z;
  delegated_rc : Z;
  received_rc : Z;
  last_max_rc : Z
}.
(** The stake of an account: shares, delegations and the power down. *)
Definition set_shares v d r a := mk_rca (name a) v d r (vesting_withdraw_rate a) (to_withdraw a) (withdrawn a) (next_vesting_withdrawal a)
  (voting_manabar a) (downvote_manabar a) (rc_manabar a) (rc_adjustment a) (delegated_rc a) (received_rc a) (last_max_rc a).
Definition set_power_down rate total done next a := mk_rca (name a) (vesting_shares a) (delegated_vesting_shares a) (received_vesting_shares a)
  rate total done next (voting_manabar a) (downvote_manabar a) (rc_manabar a) (rc_adjustment a) (delegated_rc a) (received_rc a) (last_max_rc a).
Definition set_vote_mana v d a := mk_rca (name a) (vesting_shares a) (delegated_vesting_shares a) (received_vesting_shares a)
  (vesting_withdraw_rate a) (to_withdraw a) (withdrawn a) (next_vesting_withdrawal a) v d (rc_manabar a) (rc_adjustment a)
  (delegated_rc a) (received_rc a) (last_max_rc a).
Definition set_rc m d r last a := mk_rca (name a) (vesting_shares a) (delegated_vesting_shares a) (received_vesting_shares a)
  (vesting_withdraw_rate a) (to_withdraw a) (withdrawn a) (next_vesting_withdrawal a) (voting_manabar a) (downvote_manabar a)
  m (rc_adjustment a) d r last.

Record rc_direct_delegation_object : Set := mk_rcd { rcd_from : Z; rcd_to : Z; rcd_rc : Z }.
Record rc_expired_delegation_object : Set := mk_rce { rce_from : Z; expired_delegation : Z }.

(** [rc_delegations] is the index [by_from_to], [rc_expired] the index [by_id];
    [alerts] counts the warnings of the code. *)
Record rc_state : Set := mk_rcs {
  accounts : gmap Z account;
  rc_delegations : list rc_direct_delegation_object;
  rc_expired : list rc_expired_delegation_object;
  head_block_time : Z;
  in_control : bool;
  rc_is_consensus : bool;
  remove_threshold : Z;
  account_creation_fee : HIVE_asset;
  vesting_share_price : VEST_price;
  alerts : Z
}.
Definition set_accounts x s := mk_rcs x (rc_delegations s) (rc_expired s) (head_block_time s) (in_control s) (rc_is_consensus s)
  (remove_threshold s) (account_creation_fee s) (vesting_share_price s) (alerts s).
Definition set_delegations x s := mk_rcs (accounts s) x (rc_expired s) (head_block_time s) (in_control s) (rc_is_consensus s)
  (remove_threshold s) (account_creation_fee s) (vesting_share_price s) (alerts s).
Definition set_expired x s := mk_rcs (accounts s) (rc_delegations s) x (head_block_time s) (in_control s) (rc_is_consensus s)
  (remove_threshold s) (account_creation_fee s) (vesting_share_price s) (alerts s).
Definition alert s := mk_rcs (accounts s) (rc_delegations s) (rc_expired s) (head_block_time s) (in_control s) (rc_is_consensus s)
  (remove_threshold s) (account_creation_fee s) (vesting_share_price s) (alerts s + 1).

Definition get_account (i : Z) (s : rc_state) : result account :=
  match accounts s !! i with Some a => Ok a | None => Throw AssertFc end.
Definition put_account (i : Z) (a : account) (s : rc_state) : rc_state := set_accounts (<[i := a]> (accounts s)) s.

Definition max_time : Z := 2 ^ 32 - 1.

Section rc.
Context `{L : FcLib}.

(** ** Effective stake *)

Definition has_active_power_down (a : account) : bool := negb (next_vesting_withdrawal a =? max_time).
Definition get_total_vesting_withdrawal (a : account) : result Z := safe_sub (to_withdraw a) (withdrawn a).
Definition get_next_vesting_withdrawal (a : account) : result Z :=
  if has_active_power_down a then t ← get_total_vesting_withdrawal a; Ok (Z.min (vesting_withdraw_rate a) t) else Ok 0.
Definition get_effective_vesting_shares (a : account) : result Z :=
  t ← safe_sub (vesting_shares a) (delegated_vesting_shares a);
  t ← safe_add t (received_vesting_shares a);
  if has_active_power_down a then n ← get_next_vesting_withdrawal a; safe_sub t n else Ok t.

Definition get_maximum_rc (only_delegable : bool) (a : account) : result Z :=
  e ← get_effective_vesting_shares a;
  t ← safe_sub e (delegated_rc a);
  if only_delegable then Ok t else x ← safe_add (rc_adjustment a) (received_rc a); safe_add t x.

(** The constructor of a regular account, after hardfork 20. *)
Definition new_account (n : string) (creation_time incoming_delegation adjustment : Z) : result account :=
  let bar := mk_manabar 0 creation_time in
  let a := mk_rca n 0 0 incoming_delegation 0 0 0 max_time bar bar (mk_manabar 0 0) adjustment 0 0 0 in
  if adjustment =? 0 then Ok a
  else max_rc ← get_maximum_rc false a; Ok (set_rc (mk_manabar max_rc creation_time) 0 0 max_rc a).

(** ** Mana *)

Definition regenerate_rc_mana (i : Z) (s : rc_state) : result rc_state :=
  a ← get_account i s;
  m ← get_maximum_rc false a;
  s ← (if m =? last_max_rc a then Ok s else _ ← check (negb (rc_is_consensus s)) AssertFc; Ok (alert s));
  bar ← regenerate_mana true (mk_mparams m HIVE_RC_REGEN_TIME) (head_block_time s) (rc_manabar a);
  Ok (put_account i (set_rc bar (delegated_rc a) (received_rc a) (last_max_rc a) a) s).

(** RC must have been regenerated before the change. *)
Definition expect_regenerated (a : account) (s : rc_state) : result rc_state :=
  if last_update_time (rc_manabar a) =? head_block_time s then Ok s
  else _ ← check (negb (rc_is_consensus s)) AssertFc; Ok (alert s).

Definition update_account_after_rc_delegation (i delta : Z) (regenerate : bool) (s : rc_state) : result rc_state :=
  a ← get_account i s;
  max_rc ← get_maximum_rc false a;
  '(bar, s) ← (if regenerate
               then b ← regenerate_mana true (mk_mparams max_rc HIVE_RC_REGEN_TIME) (head_block_time s) (rc_manabar a); Ok (b, s)
               else s ← expect_regenerated a s; Ok (rc_manabar a, s));
  mana ← safe_add (current_mana bar) delta;
  last ← safe_add max_rc delta;
  received ← safe_add (received_rc a) delta;
  Ok (put_account i (set_rc (mk_manabar (Z.max mana 0) (last_update_time bar)) (delegated_rc a) received last a) s).

(** ** Removing delegations *)

(** The walk over the index from the first delegation of [from] on: the index
    afterwards, the overflow and the limit that are left. *)
Fixpoint remove_delegations (index : list rc_direct_delegation_object) (overflow from limit : Z) (s : rc_state) :
    result (list rc_direct_delegation_object * Z * Z * rc_state) :=
  match index with
  | [] => Ok ([], overflow, limit, s)
  | d :: index' =>
      if negb (rcd_from d =? from) then
        '(index', overflow, limit, s) ← remove_delegations index' overflow from limit s; Ok (d :: index', overflow, limit, s)
      else if overflow <=? 0 then Ok (index, overflow, limit, s)
      else
        let delta_rc := Z.min overflow (i64 (rcd_rc d)) in
        if u64 delta_rc <? rcd_rc d then
          s ← update_account_after_rc_delegation (rcd_to d) (i64 (- delta_rc)) true s;
          '(index', overflow, limit, s) ← remove_delegations index' (i64 (overflow - delta_rc)) from limit s;
          Ok (mk_rcd (rcd_from d) (rcd_to d) (u64 (rcd_rc d - delta_rc)) :: index', overflow, limit, s)
        else
          let '(ok, limit) := guard_step limit in
          if ok then
            s ← update_account_after_rc_delegation (rcd_to d) (i64 (- delta_rc)) true s;
            remove_delegations index' (i64 (overflow - delta_rc)) from limit s
          else Ok (index, overflow, limit, s)
  end.

Definition find_expired (i : Z) (s : rc_state) : option rc_expired_delegation_object :=
  List.find (fun e => rce_from e =? i) (rc_expired s).
Definition has_expired_delegation (i : Z) (s : rc_state) : bool :=
  match find_expired i s with Some _ => true | None => false end.

(** The overflow that could not be removed within the limit. *)
Definition remember_expired (i overflow : Z) (s : rc_state) : rc_state :=
  if has_expired_delegation i s
  then set_expired ((fun e => if rce_from e =? i then mk_rce i (u64 (expired_delegation e + overflow)) else e) <$> rc_expired s) s
  else set_expired (rc_expired s ++ [mk_rce i (u64 overflow)]) s.

(** An account that delegated more RC than it now has gives back the difference. *)
Definition clear_overflow (i : Z) (s : rc_state) : result rc_state :=
  a ← get_account i s;
  if 0 <? delegated_rc a then
    m ← get_maximum_rc true a;
    let initial_overflow := i64 (- m) in
    if 0 <? initial_overflow then
      '(index, overflow, _, s) ← remove_delegations (rc_delegations s) initial_overflow i (remove_threshold s) s;
      let s := set_delegations index s in
      let s := if 0 <? overflow then remember_expired i overflow s else s in
      a ← get_account i s;
      d ← safe_sub (delegated_rc a) initial_overflow;
      Ok (put_account i (set_rc (rc_manabar a) d (received_rc a) (last_max_rc a) a) s)
    else Ok s
  else Ok s.

Definition update_account_after_vest_change (i : Z) (fill_new_mana check_for_rc_delegation_overflow : bool) (s : rc_state) : result rc_state :=
  a ← get_account i s;
  s ← expect_regenerated a s;
  s ← (if check_for_rc_delegation_overflow then clear_overflow i s else Ok s);
  a ← get_account i s;
  new_last_max_rc ← get_maximum_rc false a;
  let drc := if fill_new_mana then i64 (new_last_max_rc - last_max_rc a) else 0 in
  if new_last_max_rc =? last_max_rc a then Ok s
  else
    let mana := i64 (current_mana (rc_manabar a) + Z.max drc 0) in
    let mana := if new_last_max_rc <? mana then new_last_max_rc else mana in
    Ok (put_account i (set_rc (mk_manabar mana (last_update_time (rc_manabar a))) (delegated_rc a) (received_rc a) new_last_max_rc a) s).

Definition update_rc_for_custom_action (callback : account -> account) (i : Z) (s : rc_state) : result rc_state :=
  s ← regenerate_rc_mana i s;
  a ← get_account i s;
  update_account_after_vest_change i true false (put_account i (callback a) s).

(** [handle_expired_delegations]: the oldest first, while the limit lasts. *)
Fixpoint continue_expired (expired : list rc_expired_delegation_object) (limit : Z) (s : rc_state) : result rc_state :=
  match expired with
  | [] => Ok s
  | e :: rest =>
      '(index, overflow, limit, s) ← remove_delegations (rc_delegations s) (i64 (expired_delegation e)) (rce_from e) limit s;
      let s := set_delegations index s in
      if 0 <? overflow then Ok (set_expired (mk_rce (rce_from e) (u64 overflow) :: rest) s)
      else
        let s := set_expired rest s in
        if guard_done limit then Ok s else continue_expired rest limit s
  end.
Definition handle_expired_delegations (s : rc_state) : result rc_state := continue_expired (rc_expired s) (remove_threshold s) s.

(** ** Delegating *)

Definition key_before (x y : rc_direct_delegation_object) : bool :=
  (rcd_from x <? rcd_from y) || ((rcd_from x =? rcd_from y) && (rcd_to x <? rcd_to y)).
Fixpoint insert_delegation (d : rc_direct_delegation_object) (l : list rc_direct_delegation_object) : list rc_direct_delegation_object :=
  match l with
  | [] => [d]
  | x :: l' => if key_before d x then d :: l else x :: insert_delegation d l'
  end.
Definition has_key (from to : Z) (d : rc_direct_delegation_object) : bool := (rcd_from d =? from) && (rcd_to d =? to).
Definition find_delegation (from to : Z) (s : rc_state) : option rc_direct_delegation_object := List.find (has_key from to) (rc_delegations s).

(** One delegatee; the second component of the result is [delta]. *)
Definition delegate_to (from max_rc to : Z) (s : rc_state) : result (rc_state * Z) :=
  _ ← get_account to s;
  s ← regenerate_rc_mana to s;
  '(s, delta) ←
    match find_delegation from to s with
    | None =>
        _ ← check (negb (max_rc =? 0)) AssertFc;
        Ok (set_delegations (insert_delegation (mk_rcd from to (u64 max_rc)) (rc_delegations s)) s, max_rc)
    | Some d =>
        _ ← check (negb (rcd_rc d =? u64 max_rc)) AssertFc;
        delta ← safe_sub max_rc (share_of_u64 (rcd_rc d));
        Ok (set_delegations
              (if max_rc =? 0 then filter (fun x => has_key from to x = false) (rc_delegations s)
               else (fun x => if has_key from to x then mk_rcd from to (u64 max_rc) else x) <$> rc_delegations s) s, delta)
    end;
  s ← update_account_after_rc_delegation to delta false s;
  Ok (s, delta).

Fixpoint delegate_all (from max_rc : Z) (delegatees : list Z) (s : rc_state) (delta_total : Z) : result (rc_state * Z) :=
  match delegatees with
  | [] => Ok (s, delta_total)
  | to :: rest =>
      '(s, delta) ← delegate_to from max_rc to s;
      delta_total ← safe_add delta_total delta;
      delegate_all from max_rc rest s delta_total
  end.

Definition min_rc_delegation (s : rc_state) : result Z :=
  v ← tiny_mul_quote (mk_tiny (Z.quot (tamount (account_creation_fee s)) 3)) (vesting_share_price s); Ok (tamount v).

Definition delegate_rc (from max_rc : Z) (delegatees : list Z) (s : rc_state) : result rc_state :=
  _ ← (if negb (max_rc =? 0) && in_control s then m ← min_rc_delegation s; check (m <=? max_rc) AssertFc else Ok tt);
  _ ← get_account from s;
  s ← regenerate_rc_mana from s;
  _ ← check (negb (in_control s) || negb (has_expired_delegation from s)) AssertFc;
  '(s, delta_total) ← delegate_all from max_rc delegatees s 0;
  a ← get_account from s;
  m ← get_maximum_rc true a;
  let from_delegable_rc := Z.min m (current_mana (rc_manabar a)) in
  _ ← check (delta_total <=? from_delegable_rc) AssertFc;
  let mana := if 0 <? delta_total then i64 (current_mana (rc_manabar a) - delta_total) else current_mana (rc_manabar a) in
  d ← safe_add (delegated_rc a) delta_total;
  let a := set_rc (mk_manabar mana (last_update_time (rc_manabar a))) d (received_rc a) (last_max_rc a) a in
  last ← get_maximum_rc false a;
  Ok (put_account from (set_rc (rc_manabar a) (delegated_rc a) (received_rc a) last a) s).

(** ** Paying with RC *)

(** What the node knows of the transaction and of its own load: [witness_op] if the
    transaction is one operation of a witness, [elected] if the payer is an elected
    witness. *)
Record payment_context : Set := mk_ctx {
  validating_one_tx : bool;
  reapplying_one_tx : bool;
  pending_tx_size : Z;
  maximum_block_size : Z;
  flood_level : Z;
  flood_surcharge : Z;
  witness_op : bool;
  elected : bool
}.

(** The surcharge in a flood, and whether the transaction is privileged. *)
Definition surcharge_for (c : payment_context) (rc : Z) : result (Z * bool) :=
  if validating_one_tx c || reapplying_one_tx c then
    _ ← check (negb (maximum_block_size c =? 0)) DivideByZero;
    let blocks_in_mempool := pending_tx_size c / maximum_block_size c in
    if flood_level c <? blocks_in_mempool then
      if witness_op c && elected c then Ok (0, true)
      else
        let sc := u64 (u64 (blocks_in_mempool - flood_level c) * flood_surcharge c) in
        let sc := u128 (sc * u128 rc) / HIVE_100_PERCENT in
        _ ← check (sc <=? u64 (int64_max - rc)) AssertFc;
        Ok (i64 sc, false)
    else Ok (0, false)
  else Ok (0, false).

(** Without a payer nothing is paid; only where RC are not enforced. *)
Definition use_account_rcs (c : payment_context) (payer : option Z) (rc : Z) (s : rc_state) : result (rc_state * bool) :=
  match payer with
  | None => _ ← check (negb (in_control s) && negb (rc_is_consensus s)) AssertFc; Ok (s, false)
  | Some payer =>
      a ← get_account payer s;
      m ← get_maximum_rc false a;
      bar ← regenerate_mana true (mk_mparams m HIVE_RC_REGEN_TIME) (head_block_time s) (rc_manabar a);
      '(surcharge, privileged) ← surcharge_for c rc;
      let needed := i64 (rc + surcharge) in
      _ ← (if in_control s || reapplying_one_tx c || rc_is_consensus s then check (has_mana needed bar) AssertLimit else Ok tt);
      Ok (put_account payer (set_rc (use_mana needed 0 bar) (delegated_rc a) (received_rc a) (last_max_rc a) a) s, privileged)
  end.

(** ** The price of a resource *)

Record rc_price_curve_params : Set := mk_curve { coeff_a : Z; coeff_b : Z; shift : Z }.

Definition cost_of (p : rc_price_curve_params) (current_pool resource_count rc_regen : Z) : result Z :=
  let num := Z.shiftr (u128 (rc_regen * coeff_a p)) (shift p) in
  let num := u128 (u128 (num + 1) * resource_count) in
  let denom := u128 (coeff_b p + (if 0 <? current_pool then current_pool else 0)) in
  _ ← check (negb (denom =? 0)) DivideByZero;
  r ← uint128_to_uint64 (num / denom);
  Ok (i64 (u64 (r + 1))).

(** A resource that is given back is worth what it costs; the negation of [- 2 ^ 63]
    is undefined. *)
Definition compute_cost (p : rc_price_curve_params) (current_pool resource_count rc_regen : Z) : result Z :=
  _ ← check (0 <? rc_regen) AssertFc;
  if resource_count =? 0 then Ok 0
  else if resource_count <? 0 then c ← cost_of p current_pool (- resource_count) rc_regen; Ok (i64 (- c))
  else cost_of p current_pool resource_count rc_regen.

Record rc_curve_gen_params : Set := mk_gen {
  inelasticity_threshold_num : Z;
  inelasticity_threshold_denom : Z;
  a_point_num : Z;
  a_point_denom : Z;
  u_point_num : Z;
  u_point_denom : Z
}.
Definition default_gen_params : rc_curve_gen_params := mk_gen 1 128 37 1000 1 2.

Definition gen_params_validate (g : rc_curve_gen_params) : result unit :=
  _ ← check (inelasticity_threshold_num g <=? 65535) AssertFc;
  _ ← check (inelasticity_threshold_denom g <=? 65535) AssertFc;
  _ ← check (a_point_num g <=? 65535) AssertFc;
  _ ← check (a_point_denom g <=? 65535) AssertFc;
  _ ← check (u_point_num g <=? 65535) AssertFc;
  _ ← check (u_point_denom g <=? 65535) AssertFc;
  _ ← check (0 <? inelasticity_threshold_num g) AssertFc;
  _ ← check (inelasticity_threshold_num g <? inelasticity_threshold_denom g) AssertFc;
  _ ← check (0 <? a_point_num g) AssertFc;
  _ ← check (a_point_num g <? a_point_denom g) AssertFc;
  _ ← check (0 <? u_point_num g) AssertFc;
  check (u_point_num g <? u_point_denom g) AssertFc.

(** [find_msb] is the index of the highest bit, and undefined on zero. *)
Definition generate_rc_curve_params (rd : rd_dynamics_params) (g : rc_curve_gen_params) : result rc_price_curve_params :=
  let d := decay_params rd in
  _ ← check (0 <? decay_per_time_unit d) AssertFc;
  let a_num := Z.max (u64 (a_point_num g * u64 (u_point_denom g - u_point_num g))) 1 in
  let a_denom := Z.max (u64 (u64 (a_point_denom g * u_point_num g) * decay_per_time_unit d)) 1 in
  let shift1 := 63 - Z.log2 a_num in
  let a_1 := u64 (Z.shiftl a_num shift1) / a_denom in
  _ ← check (negb (a_1 =? 0)) AssertFc;
  let shift2 := u8 (63 - Z.log2 a_1) in
  let sh := u8 (shift1 + shift2) in
  _ ← check (decay_per_time_unit_denom_shift d <=? sh) AssertFc;
  a ← uint128_to_uint64 (u128 (Z.shiftl a_num sh) / a_denom);
  _ ← check (negb (inelasticity_threshold_denom g =? 0)) DivideByZero;
  b ← uint128_to_uint64 (u128 (u128 (pool_eq rd) * inelasticity_threshold_num g) / inelasticity_threshold_denom g);
  Ok (mk_curve a b (u8 (sh - decay_per_time_unit_denom_shift d))).

(** ** Pools *)

Record rc_resource_params : Set := mk_resource { resource_dynamics_params : rd_dynamics_params; price_curve_params : rc_price_curve_params }.

(** The resource that stands for new accounts. *)
Definition resource_new_accounts : nat := 1.

Record rc_pool_object : Set := mk_pool {
  pool_array : list Z;
  usage_in_window : list Z;
  last_known_budget : list Z;
  resource_weights : list Z;
  sum_of_resource_weights : Z
}.
Record rc_usage_bucket_object : Set := mk_bucket { timestamp : Z; bucket_usage : list Z }.

Definition budget_of (p : rc_resource_params) : Z := budget_per_time_unit (resource_dynamics_params p).

(** The weight of a resource other than new accounts. *)
Definition resource_weight (usage : Z) (p : rc_resource_params) : result Z :=
  _ ← check (negb (budget_of p =? 0)) DivideByZero;
  let w := u64 (Z.quot (i64 (usage * HIVE_100_PERCENT)) (budget_of p)) in
  Ok (if w =? 0 then 1 else w).

Definition recalculate_resource_weights (params : list rc_resource_params) (o : rc_pool_object) : result rc_pool_object :=
  weights ← mapR (fun x => if (x.1 =? resource_new_accounts)%nat then Ok 0 else resource_weight x.2.1 x.2.2)
              (imap (fun i x => (i, x)) (zip (usage_in_window o) params));
  let sum := foldl (fun s w => u64 (s + w)) 0 weights in
  Ok (mk_pool (pool_array o) (usage_in_window o) (last_known_budget o) (<[resource_new_accounts := sum]> weights) sum).

(** The pool of one resource at the end of a block. *)
Definition next_pool (subsidies : Z) (i : nat) (pool usage : Z) (p : rc_resource_params) : result Z :=
  decay ← rd_compute_pool_decay (decay_params (resource_dynamics_params p)) (i64 (pool - usage)) 1;
  let new_pool := i64 (i64 (i64 (pool - decay) + budget_of p) - usage) in
  let new_pool := if (i =? resource_new_accounts)%nat then subsidies else new_pool in
  Ok (if new_pool <? 0 then 0 else new_pool).

Definition add_each (l delta : list Z) : list Z := zip_with (fun x y => i64 (x + y)) l delta.

(** [finalize_block] on the pools and the buckets, which are in the order of their
    timestamps; [block_usage] is what the transactions of the block used. *)
Definition finalize_block (now subsidies : Z) (block_usage : list Z) (params : list rc_resource_params)
    (o : rc_pool_object) (buckets : list rc_usage_bucket_object) : result (rc_pool_object * list rc_usage_bucket_object) :=
  match last buckets, buckets with
  | Some newest, oldest :: others =>
      let reset_bucket := u32 (timestamp newest + HIVE_RC_BUCKET_TIME_LENGTH) <=? now in
      pools ← mapR (fun x => next_pool subsidies x.1 x.2.1.1 x.2.1.2 x.2.2)
                (imap (fun i x => (i, x)) (zip (zip (pool_array o) block_usage) params));
      let usage := if reset_bucket then add_each (usage_in_window o) (Z.opp <$> bucket_usage oldest) else usage_in_window o in
      o ← recalculate_resource_weights params
            (mk_pool pools (add_each usage block_usage) (budget_of <$> params) (resource_weights o) (sum_of_resource_weights o));
      Ok (o, if reset_bucket then others ++ [mk_bucket now block_usage]
             else removelast buckets ++ [mk_bucket (timestamp newest) (add_each (bucket_usage newest) block_usage)])
  | _, _ => Throw AssertFc
  end.

(** [compute_cost] of a transaction: the usage in units of the resources, priced by
    their share of the regenerated RC. *)
Definition resource_cost (o : rc_pool_object) (rc_regen : Z) (i : nat) (usage : Z) (p : rc_resource_params) : result Z :=
  let usage := i64 (usage * resource_unit (resource_dynamics_params p)) in
  _ ← check (negb (sum_of_resource_weights o =? 0)) DivideByZero;
  share ← uint128_to_int64 (u128 (u128 rc_regen * nth i (resource_weights o) 0) / sum_of_resource_weights o);
  if 0 <? share then compute_cost (price_curve_params p) (nth i (pool_array o) 0) usage share else Ok 0.

Definition transaction_cost (total_vests : Z) (params : list rc_resource_params) (o : rc_pool_object) (usage : list Z) : result Z :=
  let rc_regen := Z.quot total_vests (HIVE_RC_REGEN_TIME / HIVE_BLOCK_INTERVAL) in
  if 0 <? rc_regen then
    costs ← mapR (fun x => resource_cost o rc_regen x.1 x.2.1 x.2.2) (imap (fun i x => (i, x)) (zip usage params));
    Ok (foldl (fun t c => i64 (t + c)) 0 costs)
  else Ok 0.
End rc.

(** ** What the fields mean *)

(** The step of the power down that is taken out of the effective stake. *)
Definition weekly (a : account) : Z := if has_active_power_down a then Z.min (vesting_withdraw_rate a) (to_withdraw a - withdrawn a) else 0.
Definition effective (a : account) : Z := vesting_shares a - delegated_vesting_shares a + received_vesting_shares a - weekly a.

Record shares_ok (a : account) : Prop := {
  sh_vesting : 0 <= vesting_shares a;
  sh_delegated : 0 <= delegated_vesting_shares a < 2 ^ 62;
  sh_received : 0 <= received_vesting_shares a;
  sh_sum : vesting_shares a + received_vesting_shares a < 2 ^ 62;
  sh_rate : 0 <= vesting_withdraw_rate a;
  sh_down : 0 <= withdrawn a <= to_withdraw a;
  sh_down_range : to_withdraw a < 2 ^ 62
}.

(** The maximum of the RC, and an account whose remembered maximum is up to date. *)
Definition maximum (a : account) : Z := effective a - delegated_rc a + rc_adjustment a + received_rc a.
Definition settled (a : account) : Prop := last_max_rc a = maximum a.

(** What is delegated is covered by the stake, and the mana is within the maximum
    that is remembered, which stake that was just received may exceed. *)
Record account_ok (now : Z) (a : account) : Prop := {
  ac_shares : shares_ok a;
  ac_adjustment : 0 <= rc_adjustment a < 2 ^ 63;
  ac_delegated : 0 <= delegated_rc a <= effective a;
  ac_received : 0 <= received_rc a < 2 ^ 63;
  ac_last : last_max_rc a <= maximum a;
  ac_range : last_max_rc a < 2 ^ 63;
  ac_mana : 0 <= current_mana (rc_manabar a) <= last_max_rc a;
  ac_time : 0 <= last_update_time (rc_manabar a) <= now
}.

Definition from_sum (i : Z) (l : list rc_direct_delegation_object) : Z := sumZ (fun d => if rcd_from d =? i then rcd_rc d else 0) l.
Definition to_sum (i : Z) (l : list rc_direct_delegation_object) : Z := sumZ (fun d => if rcd_to d =? i then rcd_rc d else 0) l.

Definition delegation_ok (d : rc_direct_delegation_object) : Prop := 0 < rcd_rc d < 2 ^ 63 /\ rcd_from d <> rcd_to d.
Definition key (d : rc_direct_delegation_object) : Z * Z := (rcd_from d, rcd_to d).

Section values.
Context `{L : FcLib} `{!FcLaws L}.

Lemma weekly_range a : shares_ok a -> 0 <= weekly a < 2 ^ 62.
Proof. intros []. unfold weekly. destruct (has_active_power_down a); lia. Qed.

Lemma effective_value a : shares_ok a -> get_effective_vesting_shares a = Ok (effective a).
Proof.
  intros H. pose proof (weekly_range a H) as Hw. destruct H. unfold get_effective_vesting_shares.
  rewrite (safe_sub_exact (vesting_shares a)) by (unfold in_s; lia). cbn [mbind result_bind]. rewrite safe_add_exact by (unfold in_s; lia). cbn [mbind result_bind].
  unfold effective, weekly, get_next_vesting_withdrawal, get_total_vesting_withdrawal in *. destruct (has_active_power_down a); [|by rewrite Z.sub_0_r].
  rewrite (safe_sub_exact (to_withdraw a)) by (unfold in_s; lia). cbn [mbind result_bind]. by rewrite safe_sub_exact by (unfold in_s; lia).
Qed.

Lemma effective_range a : shares_ok a -> - 2 ^ 63 < effective a < 2 ^ 62.
Proof. intros H. pose proof (weekly_range a H). destruct H. unfold effective. lia. Qed.

Lemma delegable_value a : shares_ok a -> 0 <= delegated_rc a < 2 ^ 63 -> in_s 64 (effective a - delegated_rc a) -> get_maximum_rc true a = Ok (effective a - delegated_rc a).
Proof.
  intros H Hd Hr. pose proof (effective_range a H). unfold get_maximum_rc. rewrite effective_value by done. cbn [mbind result_bind].
  rewrite safe_sub_exact by (done || (unfold in_s in *; lia)). done.
Qed.

Lemma maximum_exact a : shares_ok a -> in_s 64 (effective a - delegated_rc a) -> 0 <= delegated_rc a < 2 ^ 63 -> 0 <= rc_adjustment a < 2 ^ 63 -> 0 <= received_rc a < 2 ^ 63 ->
  in_s 64 (rc_adjustment a + received_rc a) -> in_s 64 (maximum a) ->
  get_maximum_rc false a = Ok (maximum a).
Proof.
  unfold maximum. intros S H1 H2 H3 H4 H5 H6. pose proof (effective_range a S). unfold get_maximum_rc. rewrite effective_value by done. cbn [mbind result_bind].
  rewrite safe_sub_exact by (done || (unfold in_s in *; lia)). cbn [mbind result_bind]. rewrite (safe_add_exact (rc_adjustment a)) by (done || (unfold in_s in *; lia)). cbn [mbind result_bind].
  rewrite <- (Z.add_assoc _ (rc_adjustment a)) in H6 |- *. by rewrite safe_add_exact by done.
Qed.

Lemma maximum_value now a : account_ok now a -> maximum a < 2 ^ 63 -> get_maximum_rc false a = Ok (maximum a).
Proof.
  intros [S H1 H2 H3 H4 H5 H6 H7] Hx. pose proof (effective_range a S). unfold maximum in *. rewrite maximum_exact by (done || (unfold maximum, in_s; lia)). done.
Qed.

Lemma settled_value now a : account_ok now a -> settled a -> get_maximum_rc false a = Ok (maximum a).
Proof. intros O T. eapply maximum_value; [exact O|]. rewrite <- T. apply O. Qed.

(** What a result of [get_maximum_rc] says. *)
Lemma maximum_Ok a m : shares_ok a -> 0 <= delegated_rc a < 2 ^ 63 -> 0 <= rc_adjustment a < 2 ^ 63 -> in_s 64 (received_rc a) ->
  get_maximum_rc false a = Ok m -> m = maximum a /\ in_s 64 m.
Proof.
  unfold maximum. intros S H1 H2 H3 H. pose proof (effective_range a S). unfold get_maximum_rc in H. rewrite effective_value in H by done. cbn [mbind result_bind] in H.
  apply bind_Ok in H as (t & Ht & H). apply safe_sub_Ok in Ht as [-> Hr]; [|unfold in_s; lia..]. apply bind_Ok in H as (x & Hx & H).
  apply safe_add_Ok in Hx as [-> Hr2]; [|unfold in_s; lia|done]. apply safe_add_Ok in H as [-> Hr3]; [|done..]. split; [lia|done].
Qed.

(** Regeneration without the cap on the elapsed time: what is regained may be more
    than a full bar. *)
Lemma regenerate_uncapped p m now : 0 <= max_mana p < 2 ^ 63 -> 0 < regen_time p -> 0 <= current_mana m < 2 ^ 63 -> 0 <= last_update_time m <= now -> now < 2 ^ 32 ->
  regenerate_mana true p now m =
    if max_mana p <=? current_mana m then Ok (mk_manabar (max_mana p) now)
    else if now =? last_update_time m then Ok m
    else
      u_regen ← uint128_to_uint64 (max_mana p * (now - last_update_time m) / regen_time p);
      _ ← check (u_regen <=? int64_max) AssertFc;
      Ok (mk_manabar (Z.min (max_mana p) (current_mana m + u_regen)) now).
Proof.
  intros Hm Hr Hc Ht Hn. unfold regenerate_mana, manabar_params_validate.
  rewrite (proj2 (Z.leb_le 0 (max_mana p))) by lia. cbn [check mbind result_bind]. rewrite (proj2 (Z.leb_le _ now)) by lia. cbn [check mbind result_bind].
  rewrite (uwrap_id 32 (now - last_update_time m)) by (unfold in_u; lia). destruct (max_mana p <=? current_mana m) eqn:E1; to_prop; [done|].
  destruct (now =? last_update_time m) eqn:E2; to_prop; [rewrite (proj2 (Z.eqb_eq _ _)) by lia; done|]. rewrite (proj2 (Z.eqb_neq _ _)) by lia.
  rewrite (uwrap_id 64 (max_mana p)) by (unfold in_u; lia). rewrite uwrap_id by (unfold in_u; change (2 ^ 128) with (2 ^ 64 * 2 ^ 64); nia).
  rewrite (proj2 (Z.eqb_neq (regen_time p) 0)) by lia. cbn [mbind result_bind]. destruct (uint128_to_uint64 _) as [x|e] eqn:Ex; [|done]. cbn [mbind result_bind].
  apply uint128_to_uint64_range in Ex. unfold check. destruct (x <=? int64_max) eqn:E3; [|done]. to_prop. cbn [mbind result_bind]. unfold in_u, int64_max in *.
  rewrite (swrap_id 64 x) by (unfold in_s; lia). rewrite signed_sat_add_clamps by (unfold in_s in *; lia). do 2 f_equal. unfold clamp64, int64_min, int64_max.
  destruct (_ <? _) eqn:E4; to_prop; lia.
Qed.

Lemma regenerate_Ok p m now m' : 0 <= max_mana p < 2 ^ 63 -> 0 < regen_time p -> 0 <= current_mana m < 2 ^ 63 -> 0 <= last_update_time m <= now -> now < 2 ^ 32 ->
  regenerate_mana true p now m = Ok m' -> last_update_time m' = now /\ 0 <= current_mana m' <= max_mana p.
Proof.
  intros Hm Hr Hc Ht Hn H. rewrite regenerate_uncapped in H by done. destruct (_ <=? current_mana m) eqn:E1; to_prop; [injection H as <-; cbn; lia|].
  destruct (now =? _) eqn:E2; to_prop; [injection H as <-; lia|]. apply bind_Ok in H as (x & Hx & H). apply check_bind_Ok in H as [_ H]. injection H as <-. cbn.
  apply uint128_to_uint64_range in Hx. unfold in_u in Hx. lia.
Qed.

(** At the present size of the chain nothing is lost: an idle bar of less than
    [2 ^ 49] fills up. *)
Lemma regenerate_modest p m now : 0 <= max_mana p < 2 ^ 49 -> regen_time p = HIVE_RC_REGEN_TIME -> 0 <= current_mana m < 2 ^ 63 -> 0 <= last_update_time m <= now -> now < 2 ^ 32 ->
  exists m', regenerate_mana true p now m = Ok m' /\ last_update_time m' = now /\ 0 <= current_mana m' <= max_mana p.
Proof.
  intros Hm Hr Hc Ht Hn. rewrite regenerate_uncapped by (unfold HIVE_RC_REGEN_TIME, HIVE_VOTING_MANA_REGENERATION_SECONDS in *; lia).
  assert (0 <= max_mana p * (now - last_update_time m) / regen_time p < 2 ^ 63) as Hg.
  { rewrite Hr. unfold HIVE_RC_REGEN_TIME, HIVE_VOTING_MANA_REGENERATION_SECONDS. split; [apply Z.div_pos; nia|]. apply Z.div_lt_upper_bound; [lia|].
    assert (max_mana p * (now - last_update_time m) <= 2 ^ 49 * 2 ^ 32) by nia. lia. }
  destruct (_ <=? current_mana m) eqn:E1; to_prop; [eexists; split; [done|]; cbn; lia|]. destruct (now =? _) eqn:E2; to_prop; [exists m; split; [done|]; lia|].
  rewrite uint128_to_uint64_fits by (unfold in_u; lia). cbn [mbind result_bind]. unfold check. rewrite (proj2 (Z.leb_le _ int64_max)) by (unfold int64_max; lia).
  eexists. split; [done|]. cbn. lia.
Qed.

Lemma new_account_ok n now adjustment a : 0 <= now -> 0 <= adjustment < 2 ^ 63 -> new_account n now 0 adjustment = Ok a -> account_ok now a /\ settled a /\ delegated_rc a = 0 /\ received_rc a = 0.
Proof.
  intros Hn Ha H. unfold new_account in H. set (a0 := mk_rca _ _ _ _ _ _ _ _ _ _ _ _ _ _ _) in H. assert (shares_ok a0) as S by (by constructor). destruct (adjustment =? 0) eqn:E; to_prop.
  - injection H as <-. subst adjustment. by split_and!.
  - apply bind_Ok in H as (m & Hm & H). injection H as <-. apply maximum_Ok in Hm as [Hm Hr]; [|done|cbn; lia|cbn; lia|cbn; unfold in_s; lia].
    unfold in_s in Hr. change (maximum a0) with (0 - 0 + adjustment + 0) in Hm. set (a1 := set_rc _ _ _ _ a0).
    assert (maximum a1 = 0 - 0 + adjustment + 0) as Hmax by done. unfold settled. rewrite Hmax. split_and!; try done.
    constructor; rewrite ?Hmax; change (effective a1) with 0; cbn; try lia. destruct S. by constructor.
Qed.
End values.

(** ** Delegations of RC *)

Section rc_books.
Context `{L : FcLib} `{!FcLaws L}.

Lemma account_found i s a : get_account i s = Ok a <-> accounts s !! i = Some a.
Proof. unfold get_account. destruct (accounts s !! i); naive_solver. Qed.

Lemma set_rc_ok now a m d r last : account_ok now a -> 0 <= d <= effective a -> 0 <= r < 2 ^ 63 -> last <= effective a - d + rc_adjustment a + r -> last < 2 ^ 63 ->
  0 <= current_mana m <= last -> 0 <= last_update_time m <= now -> account_ok now (set_rc m d r last a).
Proof. intros [[] ? ? ? ? ? ? ?] ? ? ? ? ? ?. by constructor. Qed.

Lemma set_rc_shares m d r last a : shares_ok a -> shares_ok (set_rc m d r last a).
Proof. intros []. by constructor. Qed.

(** A delegation that changes by [delta] moves the maximum and what was received. *)
Lemma update_Ok i delta regen s s' a : accounts s !! i = Some a -> account_ok (head_block_time s) a -> head_block_time s < 2 ^ 32 -> in_s 64 delta ->
  0 <= received_rc a + delta -> (regen = false -> last_update_time (rc_manabar a) = head_block_time s) ->
  update_account_after_rc_delegation i delta regen s = Ok s' ->
  exists m, let a' := set_rc m (delegated_rc a) (received_rc a + delta) (maximum a + delta) a in
    s' = put_account i a' s /\ account_ok (head_block_time s) a' /\ last_update_time m = head_block_time s.
Proof.
  intros Ha O Hn Hd Hr Hreg H. unfold update_account_after_rc_delegation in H. rewrite (proj2 (account_found _ _ _) Ha) in H. cbn [mbind result_bind] in H.
  pose proof O as [S O1 O2 O3 O4 O5 O6 O7]. pose proof (effective_range a S). apply bind_Ok in H as (mx & Hmx & H).
  apply maximum_Ok in Hmx as [-> Hmx]; [|done|lia|lia|unfold in_s; lia]. unfold in_s in Hmx.
  apply bind_Ok in H as ([bar s1] & Hbar & H).
  assert (s1 = s /\ last_update_time bar = head_block_time s /\ 0 <= current_mana bar <= maximum a) as (-> & Hlast & Hmana).
  { destruct regen.
    - apply bind_Ok in Hbar as (b & Hb & Hbar). injection Hbar as <- <-. apply regenerate_Ok in Hb; [done|cbn; lia|cbn; unfold HIVE_RC_REGEN_TIME, HIVE_VOTING_MANA_REGENERATION_SECONDS; lia|lia|lia|lia].
    - unfold expect_regenerated in Hbar. rewrite (proj2 (Z.eqb_eq _ _)) in Hbar by auto. injection Hbar as <- <-. split_and!; auto; lia. }
  apply bind_Ok in H as (mana & Hm & H). apply safe_add_Ok in Hm as [-> Hm]; [|unfold in_s; lia|done].
  apply bind_Ok in H as (last & Hl & H). apply safe_add_Ok in Hl as [-> Hl]; [|unfold in_s; lia|done].
  apply bind_Ok in H as (received & Hrec & H). apply safe_add_Ok in Hrec as [-> Hrec]; [|unfold in_s; lia|done]. injection H as <-.
  eexists. split; [done|]. split; [|done]. apply set_rc_ok; cbn; unfold maximum, in_s in *; try exact O; lia.
Qed.

(** Everything about an account but its RC. *)
Definition same_stake (a a' : account) : Prop := set_rc (mk_manabar 0 0) 0 0 0 a' = set_rc (mk_manabar 0 0) 0 0 0 a.

Lemma set_rc_same m d r l a : same_stake a (set_rc m d r l a).
Proof. by destruct a. Qed.
#[global] Instance same_stake_preorder : PreOrder same_stake.
Proof. split; [done|]. intros x y z. unfold same_stake. congruence. Qed.

Lemma from_sum_cons i d l : from_sum i (d :: l) = (if rcd_from d =? i then rcd_rc d else 0) + from_sum i l.
Proof. apply sumZ_cons. Qed.
Lemma to_sum_cons i d l : to_sum i (d :: l) = (if rcd_to d =? i then rcd_rc d else 0) + to_sum i l.
Proof. apply sumZ_cons. Qed.
Lemma from_sum_nonneg i l : Forall delegation_ok l -> 0 <= from_sum i l.
Proof. intros H. apply sumZ_nonneg. eapply Forall_impl; [exact H|]. intros d [? _]. destruct (_ =? _); lia. Qed.
Lemma to_sum_nonneg i l : Forall delegation_ok l -> 0 <= to_sum i l.
Proof. intros H. apply sumZ_nonneg. eapply Forall_impl; [exact H|]. intros d [? _]. destruct (_ =? _); lia. Qed.

(** An account that is as before or has just been brought up to date. *)
Definition touched (now : Z) (a a' : account) : Prop := a' = a \/ (settled a' /\ last_update_time (rc_manabar a') = now).
Lemma touched_settled now a a' : touched now a a' -> settled a -> settled a'.
Proof. by intros [->|[H _]]. Qed.
Lemma touched_time now a a' : touched now a a' -> last_update_time (rc_manabar a) = now -> last_update_time (rc_manabar a') = now.
Proof. by intros [->|[_ H]]. Qed.

(** What [remove_delegations] leaves: [overflow] is taken from the delegations of
    [from] as far as they and the limit go, and from those who received them. *)
Record removed (from : Z) (l l' : list rc_direct_delegation_object) (overflow overflow' : Z) (s s' : rc_state) : Prop := {
  rm_taken : from_sum from l - from_sum from l' = overflow - overflow';
  rm_left : 0 <= overflow' <= overflow;
  rm_others i : i <> from -> from_sum i l' = from_sum i l;
  rm_keys : (key <$> l') `sublist_of` (key <$> l);
  rm_ok : Forall delegation_ok l';
  rm_state : exists m, s' = set_accounts m s;
  rm_self : accounts s' !! from = accounts s !! from;
  rm_to_self : to_sum from l' = to_sum from l;
  rm_to_less i : to_sum i l' <= to_sum i l;
  rm_account i a : i <> from -> accounts s !! i = Some a -> exists a', accounts s' !! i = Some a' /\ account_ok (head_block_time s) a' /\ same_stake a a' /\
    delegated_rc a' = delegated_rc a /\ received_rc a' = received_rc a - (to_sum i l - to_sum i l') /\ touched (head_block_time s) a a';
  rm_none i : accounts s !! i = None -> accounts s' !! i = None
}.

Lemma removed_refl from l overflow s : Forall delegation_ok l -> 0 <= overflow -> (forall i a, i <> from -> accounts s !! i = Some a -> account_ok (head_block_time s) a) ->
  removed from l l overflow overflow s s.
Proof.
  intros Hl Ho Ha. constructor; try done; [lia|exists (accounts s); by destruct s|]. intros i a Hi E. exists a. split_and!; [done|by apply (Ha i)|done|done|lia|by left].
Qed.

(** One delegation shrinks by [delta], or goes if that is all of it. *)
Lemma removed_step from d d' l l' delta overflow overflow' s m a s' :
  let a1 := set_rc m (delegated_rc a) (received_rc a + - delta) (maximum a + - delta) a in
  0 < delta < 2 ^ 63 -> rcd_from d = from -> rcd_from d <> rcd_to d -> d' = [] \/ (exists r, d' = [mk_rcd from (rcd_to d) r] /\ delegation_ok (mk_rcd from (rcd_to d) r)) ->
  from_sum from d' = rcd_rc d - delta -> accounts s !! rcd_to d = Some a -> account_ok (head_block_time s) a1 -> last_update_time m = head_block_time s ->
  removed from l l' (overflow - delta) overflow' (put_account (rcd_to d) a1 s) s' -> removed from (d :: l) (d' ++ l') overflow overflow' s s'.
Proof.
  intros a1 Hdelta Ef Hne Hd' Hsum Ha Oa1 Hm [R1 R2 R3 R4 R5 R6 R7 R7' Rl R8 R9].
  assert (forall i, from_sum i (d' ++ l') = from_sum i d' + from_sum i l') as Fapp by (intros i; apply sumZ_app).
  assert (forall i, to_sum i (d' ++ l') = to_sum i d' + to_sum i l') as Tapp by (intros i; apply sumZ_app).
  assert (forall i, i <> from -> from_sum i d' = 0) as Hother.
  { intros i Hi. destruct Hd' as [->|(r & -> & _)]; [done|]. unfold from_sum. rewrite sumZ_cons. cbn. rewrite (proj2 (Z.eqb_neq _ _)) by congruence. done. }
  assert (forall i, to_sum i d' = if rcd_to d =? i then rcd_rc d - delta else 0) as Hto.
  { intros i. rewrite <- Hsum. destruct Hd' as [->|(r & -> & _)]; [by destruct (_ =? _)|]. unfold to_sum, from_sum. rewrite !sumZ_cons. cbn. rewrite Z.eqb_refl. by destruct (_ =? _). }
  constructor.
  - rewrite from_sum_cons, Fapp, Hsum. rewrite (proj2 (Z.eqb_eq _ _)) by done. lia.
  - lia.
  - intros i Hi. rewrite from_sum_cons, Fapp, Hother, R3 by done. rewrite (proj2 (Z.eqb_neq _ _)) by congruence. lia.
  - rewrite fmap_app, fmap_cons. destruct Hd' as [->|(r & -> & _)]; [cbn; by apply sublist_cons|]. cbn. unfold key at 1 3. cbn. rewrite Ef. by apply sublist_skip.
  - apply Forall_app. split; [|done]. destruct Hd' as [->|(r & -> & Hr)]; [done|by apply Forall_singleton].
  - destruct R6 as [mm ->]. by exists mm.
  - rewrite R7. cbn. apply lookup_insert_ne. congruence.
  - rewrite to_sum_cons, Tapp, Hto, R7'. rewrite (proj2 (Z.eqb_neq _ _)) by congruence. lia.
  - intros i. rewrite to_sum_cons, Tapp, Hto. specialize (Rl i). destruct (_ =? _); lia.
  - intros i b Hi E. rewrite to_sum_cons, Tapp, Hto. destruct (decide (i = rcd_to d)) as [->|Hne'].
    + rewrite Ha in E. injection E as <-. rewrite Z.eqb_refl. destruct (R8 (rcd_to d) a1 Hi) as (a' & E' & O' & S' & D' & Rc' & C'); [cbn; apply lookup_insert_eq|].
      exists a'. split_and!; [done|done|etrans; [apply (set_rc_same m (delegated_rc a) (received_rc a + - delta) (maximum a + - delta))|exact S']|by rewrite D'|rewrite Rc'; cbn; lia|].
      right. destruct C' as [->|C']; [|done]. split; [|done]. unfold a1, settled, maximum. cbn. change (effective (set_rc _ _ _ _ a)) with (effective a). lia.
    + rewrite (proj2 (Z.eqb_neq _ _)) by congruence. destruct (R8 i b Hi) as (a' & E' & O' & S' & D' & Rc' & C'); [cbn; by rewrite lookup_insert_ne by congruence|].
      exists a'. split_and!; [done|done|done|done|rewrite Rc'; lia|done].
  - intros i E. apply R9. cbn. rewrite lookup_insert_ne; [done|]. intros <-. congruence.
Qed.

Lemma remove_Ok l overflow from limit s l' overflow' limit' s' : Forall delegation_ok l -> 0 <= overflow < 2 ^ 63 -> head_block_time s < 2 ^ 32 ->
  (forall i a, i <> from -> accounts s !! i = Some a -> account_ok (head_block_time s) a /\ to_sum i l <= received_rc a) ->
  remove_delegations l overflow from limit s = Ok (l', overflow', limit', s') ->
  removed from l l' overflow overflow' s s' /\ (0 < overflow' -> limit' = 0 \/ from_sum from l' = 0).
Proof.
  intros Hl. revert overflow limit s l'. induction Hl as [|d l [Hd Hne] Hl IH]; intros overflow limit s l' Ho Hn Hacc H; cbn [remove_delegations] in H.
  - injection H as <- <- <- <-. split; [|by right]. apply removed_refl; [done|lia|]. intros i a Hi E. by apply (Hacc i a Hi E).
  - assert (forall i a, i <> from -> accounts s !! i = Some a -> account_ok (head_block_time s) a) as Hok by (intros i a Hi E; by apply (Hacc i a Hi E)).
    assert (forall i, 0 <= to_sum i l) as Hto by (intros i; by apply to_sum_nonneg).
    destruct (rcd_from d =? from) eqn:Ef; to_prop; cbn [negb] in H.
    + destruct (overflow <=? 0) eqn:Eo; to_prop.
      { injection H as <- <- <- <-. split; [apply removed_refl; [by constructor|lia|done]|lia]. }
      cbv zeta in H. rewrite (swrap_id 64 (rcd_rc d)) in H by (unfold in_s; lia). set (delta := Z.min overflow (rcd_rc d)) in *. assert (0 < delta < 2 ^ 63) as Hdelta by lia.
      rewrite (swrap_id 64 (- delta)), (swrap_id 64 (overflow - delta)), (uwrap_id 64 delta) in H by (unfold in_s, in_u; lia).
      assert (forall s1 (r : Prop), update_account_after_rc_delegation (rcd_to d) (- delta) true s = Ok s1 ->
        (forall a m, s1 = put_account (rcd_to d) (set_rc m (delegated_rc a) (received_rc a + - delta) (maximum a + - delta) a) s -> accounts s !! rcd_to d = Some a ->
           account_ok (head_block_time s) (set_rc m (delegated_rc a) (received_rc a + - delta) (maximum a + - delta) a) -> last_update_time m = head_block_time s ->
           (forall i b, i <> from -> accounts s1 !! i = Some b -> account_ok (head_block_time s1) b /\ to_sum i l <= received_rc b) -> r) -> r) as Hupd.
      { intros s1 r Hs Hk. destruct (accounts s !! rcd_to d) as [a|] eqn:Ea; [|unfold update_account_after_rc_delegation, get_account in Hs; by rewrite Ea in Hs].
        assert (rcd_to d <> from) as Hnf by congruence. destruct (Hacc (rcd_to d) a Hnf Ea) as [Oa Hra]. rewrite to_sum_cons, Z.eqb_refl in Hra. pose proof (Hto (rcd_to d)).
        destruct (update_Ok (rcd_to d) (- delta) true s s1 a Ea Oa Hn) as (m & E1 & O1 & Hm1); [unfold in_s; lia|lia|done|done|].
        apply (Hk a m E1 eq_refl O1 Hm1). rewrite E1. intros i b Hi. cbn. destruct (decide (i = rcd_to d)) as [->|Hni].
        - rewrite lookup_insert_eq. intros [= <-]. split; [done|]. cbn. lia.
        - rewrite lookup_insert_ne by congruence. intros E. destruct (Hacc i b Hi E) as [Ob Hb]. split; [done|]. rewrite to_sum_cons in Hb. destruct (_ =? _); lia. }
      destruct (delta <? rcd_rc d) eqn:El; to_prop.
      * apply bind_Ok in H as (s1 & Hs1 & H). apply bind_Ok in H as ([[[l1 o1] lim1] s2] & Hrec & H). injection H as <- <- <- <-. apply (Hupd s1 _ Hs1).
        intros a m -> Ea O1 Hm1 Hacc1. apply IH in Hrec as [R Hdone]; [|lia|done|done]. rewrite (uwrap_id 64) by (unfold in_u; lia). split.
        -- rewrite Ef. apply (removed_step from d [mk_rcd from (rcd_to d) (rcd_rc d - delta)] l l1 delta overflow o1 s m a s2); try done.
           ++ right. eexists. split; [done|]. split; cbn; [lia|congruence].
           ++ unfold from_sum. rewrite sumZ_cons. cbn. rewrite Z.eqb_refl. lia.
        -- pose proof (rm_taken _ _ _ _ _ _ _ R). pose proof (rm_left _ _ _ _ _ _ _ R). pose proof (from_sum_nonneg from l Hl). pose proof (from_sum_nonneg from l1 (rm_ok _ _ _ _ _ _ _ R)).
           intros Hpos. destruct (Hdone Hpos) as [|Hz]; [by left|]. exfalso. lia.
      * unfold guard_step in H. destruct (0 <? limit) eqn:E1; [|destruct (limit =? 0) eqn:E2]; to_prop; cbn [negb] in H.
        -- apply bind_Ok in H as (s1 & Hs1 & H). apply (Hupd s1 _ Hs1). intros a m -> Ea O1 Hm1 Hacc1. apply IH in H as [R Hdone]; [|lia|done|done]. split; [|done].
           apply (removed_step from d [] l l' delta overflow overflow' s m a s'); try done; [by left|cbn; lia].
        -- injection H as <- <- <- <-. split; [apply removed_refl; [by constructor|lia|done]|]. left. lia.
        -- apply bind_Ok in H as (s1 & Hs1 & H). apply (Hupd s1 _ Hs1). intros a m -> Ea O1 Hm1 Hacc1. apply IH in H as [R Hdone]; [|lia|done|done]. split; [|done].
           apply (removed_step from d [] l l' delta overflow overflow' s m a s'); try done; [by left|cbn; lia].
    + apply bind_Ok in H as ([[[l1 o1] lim1] s2] & Hrec & H). injection H as <- <- <- <-. apply IH in Hrec as [R Hdone]; [|done|done|].
      * split.
        -- destruct R as [R1 R2 R3 R4 R5 R6 R7 R7' Rl R8 R9]. constructor; try done.
           ++ rewrite !from_sum_cons. lia.
           ++ intros i Hi. rewrite !from_sum_cons, R3 by done. done.
           ++ rewrite !fmap_cons. by apply sublist_skip.
           ++ constructor; [done|done].
           ++ rewrite !to_sum_cons. lia.
           ++ intros i. rewrite !to_sum_cons. specialize (Rl i). lia.
           ++ intros i a Hi E. destruct (R8 i a Hi E) as (a' & H1 & H2 & H3 & H4 & H5 & H6). exists a'. split_and!; try done. rewrite !to_sum_cons. lia.
        -- intros Hp. destruct (Hdone Hp) as [|Hz]; [by left|right]. rewrite from_sum_cons, Hz. rewrite (proj2 (Z.eqb_neq _ _)) by done. done.
      * intros i a Hi E. destruct (Hacc i a Hi E) as [Oa Hb]. split; [done|]. rewrite to_sum_cons in Hb. destruct (_ =? i); lia.
Qed.

Definition expired_sum (i : Z) (l : list rc_expired_delegation_object) : Z := sumZ (fun e => if rce_from e =? i then expired_delegation e else 0) l.

(** The books of the delegations: what an account received is what others delegate
    to it; what it delegated, with what is still to be removed for it and what the
    operation in progress adds, is what its delegations add up to. *)
Record books (pending : Z -> Z) (s : rc_state) : Prop := {
  rk_time : 0 <= head_block_time s < 2 ^ 32;
  rk_delegations : Forall delegation_ok (rc_delegations s);
  rk_keys : NoDup (key <$> rc_delegations s);
  rk_exist k : k ∈ key <$> rc_delegations s -> is_Some (accounts s !! k.1) /\ is_Some (accounts s !! k.2);
  rk_account i a : accounts s !! i = Some a -> account_ok (head_block_time s) a;
  rk_received i a : accounts s !! i = Some a -> received_rc a = to_sum i (rc_delegations s);
  rk_delegated i a : accounts s !! i = Some a -> delegated_rc a + expired_sum i (rc_expired s) + pending i = from_sum i (rc_delegations s);
  rk_expired : Forall (fun e => 0 < expired_delegation e < 2 ^ 63) (rc_expired s);
  rk_expired_keys : NoDup (rce_from <$> rc_expired s);
  rk_expired_exist e : e ∈ rc_expired s -> is_Some (accounts s !! rce_from e)
}.
Definition no_pending : Z -> Z := fun _ => 0.

(** A change of one account within its own rules. *)
Lemma put_books pending s i a a' : books pending s -> accounts s !! i = Some a -> account_ok (head_block_time s) a' ->
  received_rc a' = received_rc a -> delegated_rc a' = delegated_rc a -> books pending (put_account i a' s).
Proof.
  intros [B1 B2 B3 B4 B5 B6 B7 B8 B9 B10] Ha O Hr Hd.
  assert (forall j, is_Some (accounts s !! j) -> is_Some (accounts (put_account i a' s) !! j)) as Hdom.
  { intros j Hj. cbn. destruct (decide (j = i)) as [->|]; [rewrite lookup_insert_eq; by eexists|by rewrite lookup_insert_ne]. }
  constructor; try done.
  - intros k Hk. destruct (B4 k Hk). auto.
  - intros j b. cbn. destruct (decide (j = i)) as [->|]; [rewrite lookup_insert_eq; by intros [= <-]|rewrite lookup_insert_ne by done; apply B5].
  - intros j b. cbn. destruct (decide (j = i)) as [->|]; [rewrite lookup_insert_eq; intros [= <-]; rewrite Hr; by apply B6|rewrite lookup_insert_ne by done; apply B6].
  - intros j b. cbn. destruct (decide (j = i)) as [->|]; [rewrite lookup_insert_eq; intros [= <-]; rewrite Hd; by apply B7|rewrite lookup_insert_ne by done; apply B7].
  - intros e He. auto.
Qed.

Lemma regenerate_books pending s i s' : books pending s -> (forall a, accounts s !! i = Some a -> settled a) -> regenerate_rc_mana i s = Ok s' ->
  books pending s' /\ exists a m, accounts s !! i = Some a /\ s' = put_account i (set_rc m (delegated_rc a) (received_rc a) (last_max_rc a) a) s /\
    last_update_time m = head_block_time s.
Proof.
  intros B Hset H. unfold regenerate_rc_mana in H. apply bind_Ok in H as (a & Ha & H). apply account_found in Ha. pose proof (rk_account _ _ B i a Ha) as O.
  rewrite (settled_value _ _ O (Hset a Ha)) in H. cbn [mbind result_bind] in H. rewrite (proj2 (Z.eqb_eq _ _)) in H by (symmetry; by apply Hset). cbn [mbind result_bind] in H. apply bind_Ok in H as (m & Hm & H). injection H as <-.
  pose proof (rk_time _ _ B). pose proof O as [S O1 O2 O3 O4 O5 O6 O7].
  apply regenerate_Ok in Hm as [Ht Hc]; [|cbn; rewrite <- (Hset a Ha); lia|cbn; unfold HIVE_RC_REGEN_TIME, HIVE_VOTING_MANA_REGENERATION_SECONDS; lia|lia|lia|lia]. cbn in Hc. rewrite <- (Hset a Ha) in Hc. split.
  - apply (put_books pending s i a); try done. apply set_rc_ok; try done; unfold maximum in *; lia.
  - by exists a, m.
Qed.

(** Other accounts after delegations of [from] were removed. *)
Lemma removed_books pending s from index overflow overflow' s' : books pending s -> removed from (rc_delegations s) index overflow overflow' s s' ->
  books (fun i => pending i + if i =? from then overflow' - overflow else 0) (set_delegations index s').
Proof.
  intros [B1 B2 B3 B4 B5 B6 B7 B8 B9 B10] [R1 R2 R3 R4 R5 [m ->] R7 R7' Rl R8 R9]. change (accounts (set_accounts m s)) with m in *.
  assert (forall j, is_Some (accounts s !! j) -> is_Some (m !! j)) as Hdom.
  { intros j [b Hb]. destruct (decide (j = from)) as [->|Hne]; [rewrite R7, Hb; by eexists|]. destruct (R8 j b Hne Hb) as (b' & E & _). by exists b'. }
  assert (forall j b', m !! j = Some b' -> exists b, accounts s !! j = Some b /\ account_ok (head_block_time s) b' /\
    delegated_rc b' = delegated_rc b /\ received_rc b' = received_rc b - (to_sum j (rc_delegations s) - to_sum j index)) as Hback.
  { intros j b' E. destruct (accounts s !! j) as [b|] eqn:Eb; [|rewrite (R9 j Eb) in E; done]. exists b. destruct (decide (j = from)) as [->|Hne].
    - rewrite R7, Eb in E. injection E as <-. split_and!; [done|by apply (B5 from)|done|lia].
    - destruct (R8 j b Hne Eb) as (b2 & E2 & H1 & _ & H2 & H3 & _). rewrite E2 in E. injection E as <-. done. }
  constructor; try done.
  - eapply sublist_NoDup; [exact B3|done].
  - intros k Hk. destruct (B4 k) as [H1 H2]; [|auto]. eapply elem_of_submseteq; [done|by apply sublist_submseteq].
  - intros j b' E. by destruct (Hback j b' E) as (b & _ & H & _).
  - intros j b' E. destruct (Hback j b' E) as (b & Eb & _ & _ & ->). rewrite (B6 j b Eb). change (rc_delegations (set_delegations index _)) with index. lia.
  - intros j b' E. destruct (Hback j b' E) as (b & Eb & _ & -> & _). change (rc_delegations (set_delegations index _)) with index. cbn [rc_expired set_delegations set_accounts]. specialize (B7 j b Eb). destruct (j =? from) eqn:Ej; to_prop; [rewrite Ej in *; lia|rewrite (R3 j Ej); lia].
  - intros e He. by apply Hdom, B10.
Qed.

Lemma books_ext p p' s : (forall i, p i = p' i) -> books p s -> books p' s.
Proof. intros H []. constructor; try done. intros i a Ha. rewrite <- H. eauto. Qed.

Lemma put_pending pending s i a a' : books pending s -> accounts s !! i = Some a -> account_ok (head_block_time s) a' -> received_rc a' = received_rc a ->
  books (fun j => pending j + if j =? i then delegated_rc a - delegated_rc a' else 0) (put_account i a' s).
Proof.
  intros [B1 B2 B3 B4 B5 B6 B7 B8 B9 B10] Ha O Hr.
  assert (forall j, is_Some (accounts s !! j) -> is_Some (accounts (put_account i a' s) !! j)) as Hdom.
  { intros j Hj. cbn. destruct (decide (j = i)) as [->|]; [rewrite lookup_insert_eq; by eexists|by rewrite lookup_insert_ne]. }
  assert (forall j b, accounts (put_account i a' s) !! j = Some b -> (j = i /\ b = a') \/ (j <> i /\ accounts s !! j = Some b)) as Hback.
  { intros j b. cbn. destruct (decide (j = i)) as [->|]; [rewrite lookup_insert_eq; intros [= <-]; by left|rewrite lookup_insert_ne by done; by right]. }
  constructor; try done.
  - intros k Hk. destruct (B4 k Hk). auto.
  - intros j b E. destruct (Hback j b E) as [[-> ->]|[_ E']]; [done|by apply (B5 j)].
  - intros j b E. destruct (Hback j b E) as [[-> ->]|[_ E']]; [rewrite Hr; by apply B6|by apply B6].
  - intros j b E. destruct (Hback j b E) as [[-> ->]|[Hne E']].
    + rewrite Z.eqb_refl. specialize (B7 i a Ha). change (rc_expired (put_account i a' s)) with (rc_expired s). change (rc_delegations (put_account i a' s)) with (rc_delegations s). lia.
    + rewrite (proj2 (Z.eqb_neq _ _)) by done. rewrite Z.add_0_r. by apply B7.
  - intros e He. by apply Hdom, B10.
Qed.

Lemma has_expired_elem i s : has_expired_delegation i s = true <-> i ∈ rce_from <$> rc_expired s.
Proof.
  unfold has_expired_delegation, find_expired. split.
  - destruct (List.find _ _) as [e|] eqn:E; [|done]. intros _. apply List.find_some in E as [E1 E2]. to_prop. apply list_elem_of_fmap. exists e. split; [done|]. by apply list_elem_of_In.
  - intros H. apply list_elem_of_fmap in H as (e & -> & He). destruct (List.find _ _) as [x|] eqn:E; [done|]. apply list_elem_of_In in He. apply (List.find_none _ _ E) in He. by rewrite Z.eqb_refl in He.
Qed.

Lemma expired_none i l : i ∉ rce_from <$> l -> expired_sum i l = 0.
Proof.
  induction l as [|e l IH]; [done|]. rewrite fmap_cons, not_elem_of_cons. intros [H1 H2]. unfold expired_sum in *. rewrite sumZ_cons, IH by done. by rewrite (proj2 (Z.eqb_neq _ _)) by congruence.
Qed.

Lemma add_expired_sum i o j l : NoDup (rce_from <$> l) -> i ∈ rce_from <$> l -> Forall (fun e => 0 < expired_delegation e < 2 ^ 63) l -> 0 < o -> expired_sum i l + o < 2 ^ 63 ->
  let l' := (fun e => if rce_from e =? i then mk_rce i (u64 (expired_delegation e + o)) else e) <$> l in
  expired_sum j l' = expired_sum j l + (if j =? i then o else 0) /\ Forall (fun e => 0 < expired_delegation e < 2 ^ 63) l' /\ rce_from <$> l' = rce_from <$> l.
Proof.
  intros HN Hi HF Ho Hb l'. assert (rce_from <$> l' = rce_from <$> l) as Hkeys.
  { unfold l'. rewrite <- list_fmap_compose. apply list_fmap_ext. intros _ e _. cbn. destruct (rce_from e =? i) eqn:E; [to_prop; cbn; congruence|done]. }
  cut (expired_sum j l' = expired_sum j l + (if j =? i then o else 0) /\ Forall (fun e => 0 < expired_delegation e < 2 ^ 63) l'); [tauto|]. clear Hkeys. subst l'.
  induction l as [|e l IH]; [by apply elem_of_nil in Hi|]. apply Forall_cons in HF as [He HF]. cbn in HN. apply NoDup_cons in HN as [Hn HN].
  unfold expired_sum in *. rewrite sumZ_cons in Hb. rewrite fmap_cons, !sumZ_cons, Forall_cons. destruct (rce_from e =? i) eqn:Ee; to_prop.
  - subst i. assert (forall x, x ∈ l -> rce_from x <> rce_from e) as Hx by (intros x Hx E; apply Hn; rewrite <- E; apply list_elem_of_fmap; by exists x).
    assert (((fun x => if rce_from x =? rce_from e then mk_rce (rce_from e) (u64 (expired_delegation x + o)) else x) <$> l) = l) as ->.
    { transitivity (id <$> l); [|apply list_fmap_id]. apply list_fmap_ext. intros k x Hk. cbn. rewrite (proj2 (Z.eqb_neq _ _)); [done|]. apply Hx. by apply list_elem_of_lookup_2 in Hk. }
    assert (sumZ (fun x => if rce_from x =? rce_from e then expired_delegation x else 0) l = 0) as Hz by (by apply expired_none). rewrite Hz in Hb.
    cbn [rce_from expired_delegation]. rewrite uwrap_id by (unfold in_u; lia). split; [|split; [lia|done]].
    destruct (rce_from e =? j) eqn:E1, (j =? rce_from e) eqn:E2; to_prop; lia.
  - apply elem_of_cons in Hi as [|Hi]; [congruence|]. destruct (IH HN Hi HF) as [H1 H2]; [lia|]. rewrite H1. split; [lia|done].
Qed.

Lemma remember_books pending s i o : books pending s -> is_Some (accounts s !! i) -> 0 < o -> expired_sum i (rc_expired s) + o < 2 ^ 63 ->
  books (fun j => pending j - if j =? i then o else 0) (remember_expired i o s).
Proof.
  intros [B1 B2 B3 B4 B5 B6 B7 B8 B9 B10] Hi Ho Hb. unfold remember_expired. destruct (has_expired_delegation i s) eqn:E.
  - apply has_expired_elem in E. pose proof (fun j => add_expired_sum i o j (rc_expired s) B9 E B8 Ho Hb) as H. cbv zeta in H.
    set (l' := (fun e => if rce_from e =? i then mk_rce i (u64 (expired_delegation e + o)) else e) <$> rc_expired s) in *.
    constructor; try done.
    + intros j a Ha. specialize (B7 j a Ha). change (rc_expired (set_expired l' s)) with l'. rewrite (proj1 (H j)). change (rc_delegations (set_expired l' s)) with (rc_delegations s). lia.
    + apply (H 0).
    + change (rc_expired (set_expired l' s)) with l'. by rewrite (proj2 (proj2 (H 0))).
    + intros e He. change (rc_expired (set_expired l' s)) with l' in He. assert (rce_from e ∈ rce_from <$> l') as Hk by (apply list_elem_of_fmap; by exists e).
      rewrite (proj2 (proj2 (H 0))) in Hk. apply list_elem_of_fmap in Hk as (x & -> & Hx). by apply B10.
  - assert (i ∉ rce_from <$> rc_expired s) as Hn by (intros H; apply has_expired_elem in H; congruence). rewrite (expired_none i _ Hn) in Hb. rewrite uwrap_id by (unfold in_u; lia).
    constructor; try done.
    + intros j a Ha. specialize (B7 j a Ha). cbn [rc_expired set_expired rc_delegations]. unfold expired_sum in *. rewrite sumZ_app, sumZ_cons. cbn [rce_from expired_delegation].
      change (sumZ _ []) with 0. rewrite Z.eqb_sym. destruct (j =? i); lia.
    + cbn. apply Forall_app. split; [done|]. apply Forall_singleton. cbn. lia.
    + cbn. rewrite fmap_app. apply NoDup_app. split_and!; [done| |apply NoDup_singleton]. intros x Hx Hs. cbn in Hs. apply list_elem_of_singleton in Hs as ->. done.
    + intros e He. cbn in He. apply elem_of_app in He as [He|He]; [by apply B10|]. by apply list_elem_of_singleton in He as ->.
Qed.

(** The books are closed, and every account but those of [stale] is up to date. *)
Record rc_ok_but (stale : Z -> Prop) (s : rc_state) : Prop := {
  ok_books : books no_pending s;
  ok_from i : from_sum i (rc_delegations s) < 2 ^ 62;
  ok_settled i a : ~ stale i -> accounts s !! i = Some a -> settled a
}.
Definition rc_ok : rc_state -> Prop := rc_ok_but (fun _ => False).

(** The new stake of an account, with its RC as they were. *)
Definition same_rc (a a' : account) : Prop :=
  rc_manabar a' = rc_manabar a /\ rc_adjustment a' = rc_adjustment a /\ delegated_rc a' = delegated_rc a /\ received_rc a' = received_rc a /\ last_max_rc a' = last_max_rc a.

(** The maximum is brought up to date. *)
Definition refresh (i : Z) (fill_new_mana : bool) (s : rc_state) : result rc_state :=
  a ← get_account i s;
  new_last_max_rc ← get_maximum_rc false a;
  let drc := if fill_new_mana then i64 (new_last_max_rc - last_max_rc a) else 0 in
  if new_last_max_rc =? last_max_rc a then Ok s
  else
    let mana := i64 (current_mana (rc_manabar a) + Z.max drc 0) in
    let mana := if new_last_max_rc <? mana then new_last_max_rc else mana in
    Ok (put_account i (set_rc (mk_manabar mana (last_update_time (rc_manabar a))) (delegated_rc a) (received_rc a) new_last_max_rc a) s).

Lemma refresh_Ok i fill s s' b : accounts s !! i = Some b -> shares_ok b -> 0 <= rc_adjustment b < 2 ^ 63 -> 0 <= delegated_rc b <= effective b -> 0 <= received_rc b < 2 ^ 63 ->
  0 <= current_mana (rc_manabar b) <= last_max_rc b -> last_max_rc b < 2 ^ 63 -> 0 <= last_update_time (rc_manabar b) <= head_block_time s ->
  refresh i fill s = Ok s' -> exists b', (s' = put_account i b' s \/ s' = s /\ b' = b) /\ account_ok (head_block_time s) b' /\ settled b' /\ same_stake b b' /\
    delegated_rc b' = delegated_rc b /\ received_rc b' = received_rc b /\ last_update_time (rc_manabar b') = last_update_time (rc_manabar b).
Proof.
  intros Hb S Ha Hd Hr Hm Hl Ht H. pose proof (effective_range b S). unfold refresh in H. rewrite (proj2 (account_found _ _ _) Hb) in H. cbn [mbind result_bind] in H.
  apply bind_Ok in H as (new & Hnew & H). apply maximum_Ok in Hnew as [Enew Hnew]; [|done|lia|lia|unfold in_s; lia]. unfold in_s in Hnew.
  assert (0 <= new) by (unfold maximum in Enew; lia). destruct (new =? last_max_rc b) eqn:E; to_prop.
  - injection H as <-. exists b. split_and!; [by right| |unfold settled; lia|done|done|done|done]. constructor; try done; lia.
  - injection H as <-. set (drc := if fill then _ else 0).
    assert (drc = (if fill then new - last_max_rc b else 0)) as Hdrc by (unfold drc; destruct fill; [rewrite swrap_id by (unfold in_s; lia); done|done]).
    rewrite (swrap_id 64 (current_mana (rc_manabar b) + Z.max drc 0)) by (unfold in_s; destruct fill; lia). eexists. split; [by left|].
    set (b' := set_rc _ _ _ _ b). assert (maximum b' = new) as Hmax by (by rewrite Enew). split_and!; [|done|apply set_rc_same|done|done|done].
    constructor; rewrite ?Hmax; change (effective b') with (effective b); cbn; try (by apply set_rc_shares); try done; try lia. destruct (new <? _) eqn:E2; to_prop; destruct fill; lia.
Qed.

Lemma vest_change_unfold i fill chk s : update_account_after_vest_change i fill chk s =
  (a ← get_account i s; s ← expect_regenerated a s; s ← (if chk then clear_overflow i s else Ok s); refresh i fill s).
Proof. done. Qed.

(** Moving the account that is being changed out of the way. *)
Lemma removed_put from l l' o o' s a0 a1 s' : accounts s !! from = Some a0 -> removed from l l' o o' (put_account from a1 s) s' ->
  removed from l l' o o' s (put_account from a0 s').
Proof.
  intros Ha [R1 R2 R3 R4 R5 [m ->] R7 R7' Rl R8 R9]. constructor; try done.
  - by eexists.
  - cbn. by rewrite lookup_insert_eq.
  - intros i a Hi E. destruct (R8 i a Hi) as (a' & E' & H); [cbn; by rewrite lookup_insert_ne|]. exists a'. split; [cbn in *; by rewrite lookup_insert_ne by congruence|done].
  - intros i E. assert (i <> from) by congruence. cbn. rewrite lookup_insert_ne by congruence. apply R9. cbn. by rewrite lookup_insert_ne by congruence.
Qed.

Lemma put_put i a b s : put_account i a (put_account i b s) = put_account i a s.
Proof. unfold put_account, set_accounts. cbn. f_equal. apply insert_insert_eq. Qed.
End rc_books.
