(* ===== verification/RcInvariant.v ===== *)
(** * The books of resource credits

    The operations of ResourceCredits.v composed into histories ([rc_step]): changes
    of the stake of an account, delegations of RC, payments, the clean-up of expired
    delegations and the passing of time.  The theorems show that the books of the
    delegations stay exact, that the maximum the code remembers is always the
    maximum, so that the checks that hardfork 31 turns into assertions never fail,
    and that what an account delegates is covered by its stake; and how the price of
    a resource and the usage of the last day behave. *)

From stdpp Require Import base numbers strings option list gmap.
From S2P Require Import Prelude Fc Config AssetSymbol Asset Resources ResourceCredits.
Open Scope Z_scope.

(** ** Stakes *)

(** An account without its RC. *)
Definition erase (a : account) : account := set_rc (mk_manabar 0 0) 0 0 0 a.
Definition stakes (r : rc_state) : gmap Z account := erase <$> accounts r.

Lemma stakes_put i a r : stakes (put_account i a r) = <[i := erase a]> (stakes r).
Proof. unfold stakes. cbn. by rewrite fmap_insert. Qed.
Lemma stakes_lookup r i a : accounts r !! i = Some a -> stakes r !! i = Some (erase a).
Proof. intros H. unfold stakes. by rewrite lookup_fmap, H. Qed.
Lemma stakes_Some r i x : stakes r !! i = Some x -> exists a, accounts r !! i = Some a /\ x = erase a.
Proof. unfold stakes. rewrite lookup_fmap. intros H. apply fmap_Some in H as (a & Ha & ->). by exists a. Qed.
Lemma stakes_put_same i a a' r : accounts r !! i = Some a -> same_stake a a' -> stakes (put_account i a' r) = stakes r.
Proof. intros Ha S. rewrite stakes_put. apply insert_id. rewrite (stakes_lookup _ _ _ Ha). f_equal. symmetry. exact S. Qed.
Lemma stakes_dom r r' j : stakes r' = stakes r -> is_Some (accounts r' !! j) <-> is_Some (accounts r !! j).
Proof. intros H. apply (f_equal (fun m => m !! j)) in H. unfold stakes in H. rewrite !lookup_fmap in H. destruct (accounts r !! j), (accounts r' !! j); cbn in H; try done; split; intros; by eexists. Qed.

Section rc_operations.
Context `{L : FcLib} `{!FcLaws L}.

(** What no operation changes. *)
Definition same_env (s s' : rc_state) : Prop := set_accounts ∅ (set_delegations [] (set_expired [] s')) = set_accounts ∅ (set_delegations [] (set_expired [] s)).

#[global] Instance same_env_equivalence : Equivalence same_env.
Proof. unfold same_env. split; [done|by intros x y|intros x y z; congruence]. Qed.

Lemma env_accounts m s : same_env s (set_accounts m s). Proof. done. Qed.
Lemma env_delegations l s : same_env s (set_delegations l s). Proof. done. Qed.
Lemma env_expired l s : same_env s (set_expired l s). Proof. done. Qed.
Lemma env_time s s' : same_env s s' -> head_block_time s' = head_block_time s.
Proof. unfold same_env. intros H. by apply (f_equal head_block_time) in H. Qed.
Lemma env_alerts s s' : same_env s s' -> alerts s' = alerts s.
Proof. unfold same_env. intros H. by apply (f_equal alerts) in H. Qed.
Lemma env_remember i o s : same_env s (remember_expired i o s).
Proof. unfold remember_expired. by destruct (has_expired_delegation i s). Qed.

Lemma remember_put i o j a s : remember_expired i o (put_account j a s) = put_account j a (remember_expired i o s).
Proof. unfold remember_expired. by destruct (has_expired_delegation i s) eqn:E; unfold has_expired_delegation, find_expired in *; cbn in *; rewrite E. Qed.

Lemma put_dom i a s j : is_Some (accounts s !! i) -> is_Some (accounts (put_account i a s) !! j) <-> is_Some (accounts s !! j).
Proof. intros Hi. cbn. destruct (decide (j = i)) as [->|]; [rewrite lookup_insert_eq; split; [done|by eexists]|by rewrite lookup_insert_ne]. Qed.

(** The state after the overflow was cleared: [w] is the state but for the account
    itself, whose books are still open by what it gave back. *)
Record cleared (i : Z) (a0 a1 : account) (s0 w : rc_state) (b : account) : Prop := {
  cl_books : books (fun j => if j =? i then delegated_rc b - delegated_rc a0 else 0) w;
  cl_self : accounts w !! i = Some a0;
  cl_env : same_env s0 w;
  cl_dom j : is_Some (accounts w !! j) <-> is_Some (accounts s0 !! j);
  cl_other j a : j <> i -> accounts s0 !! j = Some a -> exists a', accounts w !! j = Some a' /\ same_stake a a' /\ touched (head_block_time s0) a a';
  cl_from j : j <> i -> from_sum j (rc_delegations w) = from_sum j (rc_delegations s0);
  cl_from_self : from_sum i (rc_delegations w) <= from_sum i (rc_delegations s0);
  cl_account : b = set_rc (rc_manabar a1) (Z.min (delegated_rc a1) (effective a1)) (received_rc a1) (last_max_rc a1) a1
}.

Lemma clear_overflow_Ok stale i s0 a0 a1 s2 : rc_ok_but stale s0 -> accounts s0 !! i = Some a0 -> same_rc a0 a1 -> shares_ok a1 -> 0 <= effective a1 ->
  clear_overflow i (put_account i a1 s0) = Ok s2 -> exists w b, s2 = put_account i b w /\ cleared i a0 a1 s0 w b.
Proof.
  intros [B HF _] Ha (E1 & E2 & E3 & E4 & E5) S Heff H. pose proof (rk_account _ _ B i a0 Ha) as [S0 A1 A2 A3 A4 A5 A6 A7].
  pose proof (effective_range a0 S0). pose proof (effective_range a1 S). assert (accounts (put_account i a1 s0) !! i = Some a1) as Hself by (cbn; apply lookup_insert_eq).
  unfold clear_overflow in H. rewrite (proj2 (account_found _ _ _) Hself) in H. cbn [mbind result_bind] in H.
  assert (0 <= delegated_rc a1 <= effective a1 -> s2 = put_account i a1 s0 -> exists w b, s2 = put_account i b w /\ cleared i a0 a1 s0 w b) as Hnone.
  { intros Hc ->. exists s0, a1. split; [done|]. constructor; try done.
    - apply (books_ext no_pending); [|done]. intros j. unfold no_pending. destruct (j =? i); lia.
    - intros j a _ E. exists a. split_and!; [done|done|by left].
    - rewrite Z.min_l by lia. by destruct a1. }
  destruct (0 <? delegated_rc a1) eqn:Ed; to_prop; [|injection H as <-; apply Hnone; [lia|done]].
  rewrite delegable_value in H by (done || (unfold in_s; lia)). cbn [mbind result_bind] in H. rewrite (swrap_id 64) in H by (unfold in_s; lia).
  set (o := - (effective a1 - delegated_rc a1)) in *. destruct (0 <? o) eqn:Eo; to_prop; [|injection H as <-; apply Hnone; [lia|done]].
  apply bind_Ok in H as ([[[index o'] lim] s1] & Hrem & H). apply remove_Ok in Hrem as [R _]; [|apply B|lia|apply B|].
  2:{ intros j b Hj E. cbn in E. rewrite lookup_insert_ne in E by done. split; [by apply (rk_account _ _ B j)|]. by rewrite (rk_received _ _ B j b E). }
  pose proof (removed_put _ _ _ _ _ _ _ _ _ Ha R) as R0. pose proof (removed_books _ _ _ _ _ _ _ B R0) as B1. cbn in H.
  pose proof R as [R1 R2 R3 R4 R5 [m ->] R7 R7' Rl R8 R9]. change (rc_delegations (put_account i a1 s0)) with (rc_delegations s0) in R1, R3. cbn in H, R7. rewrite lookup_insert_eq in R7.
  set (t := set_delegations index (put_account i a0 (set_accounts m s0))) in *.
  assert (exists w, (if 0 <? o' then remember_expired i o' (set_delegations index (set_accounts m (put_account i a1 s0))) else set_delegations index (set_accounts m (put_account i a1 s0)))
      = put_account i a1 w /\ accounts w !! i = Some a0 /\ same_env s0 w /\ books (fun j => if j =? i then - o else 0) w /\ rc_delegations w = index /\ accounts w = accounts t) as (w & Hw & Hwi & He & Bw & Hwd & Hacc).
  { assert (set_delegations index (set_accounts m (put_account i a1 s0)) = put_account i a1 t) as Et.
    { unfold t, put_account, set_delegations, set_accounts. cbn. f_equal. rewrite insert_insert_eq. symmetry. by apply insert_id. }
    rewrite Et, remember_put. assert (accounts t !! i = Some a0) as Hti by (cbn; apply lookup_insert_eq). destruct (0 <? o') eqn:Eo'; to_prop.
    - exists (remember_expired i o' t). split; [done|]. assert (accounts (remember_expired i o' t) = accounts t /\ rc_delegations (remember_expired i o' t) = index) as [Ea Er].
      { unfold remember_expired. by destruct (has_expired_delegation i t). }
      rewrite Ea, Er. split_and!; try done; [transitivity t; [done|apply env_remember]|].
      apply (books_ext (fun j => no_pending j + (if j =? i then o' - o else 0) - if j =? i then o' else 0)); [intros j; unfold no_pending; destruct (j =? i); lia|].
      apply remember_books; [exact B1|by eexists|lia|]. change (rc_expired t) with (rc_expired s0). pose proof (rk_delegated _ _ B i a0 Ha) as Hbk. unfold no_pending in Hbk. specialize (HF i). lia.
    - exists t. split; [done|]. split_and!; try done. eapply books_ext; [|exact B1]. intros j. unfold no_pending. cbn. destruct (j =? i); lia. }
  rewrite Hw in H. rewrite (proj2 (account_found i (put_account i a1 w) a1)) in H by (cbn; apply lookup_insert_eq). cbn [mbind result_bind] in H.
  rewrite safe_sub_exact in H by (unfold in_s; lia). cbn [mbind result_bind] in H. injection H as <-. rewrite put_put. eexists _, _. split; [done|].
  assert (delegated_rc a1 - o = effective a1) as Hd by lia. rewrite Hd. constructor; try done.
  - eapply books_ext; [|exact Bw]. intros j. cbn. destruct (j =? i); lia.
  - intros j. rewrite <- !elem_of_dom, Hacc. unfold t. cbn. rewrite dom_insert_L. rewrite elem_of_union, elem_of_singleton, !elem_of_dom.
    destruct (decide (j = i)) as [->|Hne]; [rewrite Ha; split; [by eexists|by left]|]. split.
    + intros [|[b Hb]]; [done|]. destruct (accounts s0 !! j) eqn:Ej; [by eexists|]. rewrite R9 in Hb; [done|]. cbn. by rewrite lookup_insert_ne.
    + intros [b Hb]. right. destruct (R8 j b Hne) as (b' & Hb' & _); [cbn; by rewrite lookup_insert_ne|]. by exists b'.
  - intros j a Hj E. destruct (R8 j a Hj) as (a' & E' & _ & HS & _ & _ & HT); [cbn; by rewrite lookup_insert_ne|]. exists a'. split_and!; [|done|done]. rewrite Hacc. unfold t. cbn in E' |- *. by rewrite lookup_insert_ne.
  - intros j Hne. rewrite Hwd. by apply R3.
  - rewrite Hwd. lia.
  - rewrite Z.min_r by lia. done.
Qed.

(** What a step of an operation keeps. *)
Definition keeps (s s' : rc_state) : Prop := rc_ok s' /\ same_env s s' /\ stakes s' = stakes s.
Lemma keeps_trans x y z : keeps x y -> keeps y z -> keeps x z.
Proof. intros (K1 & K2 & K3) (K4 & K5 & K6). split_and!; [done|by etrans|congruence]. Qed.

(** What a change of the stake of [i] to that of [a1] leaves once the RC are brought
    up to date: what [i] delegated is cut to its stake. *)
Record stake_changed (stale : Z -> Prop) (i : Z) (a1 : account) (s0 s2 : rc_state) : Prop := {
  sc_ok : rc_ok_but (fun j => stale j /\ j <> i) s2;
  sc_env : same_env s0 s2;
  sc_dom j : is_Some (accounts s2 !! j) <-> is_Some (accounts s0 !! j);
  sc_self : exists b, accounts s2 !! i = Some b /\ same_stake a1 b /\ delegated_rc b = Z.min (delegated_rc a1) (effective a1) /\
    last_update_time (rc_manabar b) = head_block_time s0;
  sc_other j a : j <> i -> accounts s0 !! j = Some a -> exists a', accounts s2 !! j = Some a' /\ same_stake a a' /\ touched (head_block_time s0) a a';
  sc_from j : j <> i -> from_sum j (rc_delegations s2) = from_sum j (rc_delegations s0)
}.

(** Without the check for an overflow the new stake must cover what is delegated. *)
Lemma vest_change_ok stale i fill chk s0 a0 a1 s2 : rc_ok_but stale s0 -> accounts s0 !! i = Some a0 -> last_update_time (rc_manabar a0) = head_block_time s0 ->
  same_rc a0 a1 -> shares_ok a1 -> 0 <= effective a1 -> (chk = false -> delegated_rc a1 <= effective a1) ->
  update_account_after_vest_change i fill chk (put_account i a1 s0) = Ok s2 -> stake_changed stale i a1 s0 s2.
Proof.
  intros HR Ha Ht HS S Heff Hchk H. pose proof HR as [B HF HD]. pose proof HS as (E1 & E2 & E3 & E4 & E5). pose proof (rk_account _ _ B i a0 Ha) as [S0 A1 A2 A3 A4 A5 A6 A7].
  rewrite vest_change_unfold in H. rewrite (proj2 (account_found i (put_account i a1 s0) a1)) in H by (cbn; apply lookup_insert_eq). cbn [mbind result_bind] in H.
  unfold expect_regenerated in H. rewrite E1 in H. cbn [head_block_time put_account set_accounts] in H. rewrite (proj2 (Z.eqb_eq _ _) Ht) in H. cbn [mbind result_bind] in H.
  apply bind_Ok in H as (s1 & H1 & H).
  assert (exists w b, s1 = put_account i b w /\ cleared i a0 a1 s0 w b) as (w & b & -> & [C1 C2 C3 C4 C5 C6 C7 C8]).
  { destruct chk; [by eapply clear_overflow_Ok|]. injection H1 as <-. exists s0, a1. specialize (Hchk eq_refl). split; [done|]. constructor; try done.
    - apply (books_ext no_pending); [|done]. intros j. unfold no_pending. destruct (j =? i); lia.
    - intros j a _ E. exists a. split_and!; [done|done|by left].
    - rewrite Z.min_l by lia. by destruct a1. }
  pose proof (env_time _ _ C3) as Htime. assert (effective b = effective a1) as Eb by (by rewrite C8). assert (received_rc a0 < 2 ^ 63) by (unfold maximum in *; lia). assert (rc_adjustment a0 < 2 ^ 63) by (unfold maximum in *; lia).
  apply (refresh_Ok i fill _ s2 b) in H as (b' & Hs2 & Ob & Tb & Sb & Hd & Hr & Hu); rewrite ?Eb; rewrite ?C8; cbn; rewrite ?Htime; try (by apply set_rc_shares); rewrite ?E1, ?E2, ?E3, ?E4, ?E5; try lia; [|by rewrite lookup_insert_eq].
  assert (s2 = put_account i b' w) as -> by (destruct Hs2 as [->|[-> ->]]; [by rewrite put_put|done]). constructor.
  - split.
    + eapply books_ext; [|apply (put_pending _ _ i a0 b' C1 C2); [exact Ob|rewrite Hr, C8; exact E4]]. intros j. cbv beta. rewrite Hd. unfold no_pending. destruct (j =? i); lia.
    + intros j. change (from_sum j (rc_delegations w) < 2 ^ 62). destruct (decide (j = i)) as [->|Hj]; [|by rewrite C6]. eapply Z.le_lt_trans; [exact C7|apply HF].
    + intros j x Hj. cbn. destruct (decide (j = i)) as [->|Hne]; [rewrite lookup_insert_eq; by intros [= <-]|rewrite lookup_insert_ne by done].
      intros E. assert (is_Some (accounts s0 !! j)) as [y Ey] by (apply C4; by exists x). destruct (C5 j y Hne Ey) as (z & Ez & _ & HT). rewrite Ez in E. injection E as <-.
      eapply touched_settled; [exact HT|]. apply (HD j); [|done]. intros Hst. by apply Hj.
  - rewrite C3. done.
  - intros j. rewrite <- C4. apply put_dom. by exists a0.
  - exists b'. split; [cbn; by rewrite lookup_insert_eq|]. split; [transitivity b; [rewrite C8; apply set_rc_same|exact Sb]|]. split; [by rewrite Hd, C8|].
    rewrite Hu, C8, <- Ht, <- E1. done.
  - intros j a Hj E. cbn. rewrite lookup_insert_ne by done. by apply C5.
  - intros j Hj. by apply C6.
Qed.

Lemma expired_head_books pending s e rest o : books pending s -> rc_expired s = e :: rest -> 0 <= o < 2 ^ 63 ->
  books (fun j => pending j + if j =? rce_from e then expired_delegation e - o else 0) (set_expired (if 0 <? o then mk_rce (rce_from e) o :: rest else rest) s).
Proof.
  intros [B1 B2 B3 B4 B5 B6 B7 B8 B9 B10] E Ho. rewrite E in B8, B9, B10. apply Forall_cons in B8 as [He Hrest]. rewrite fmap_cons, NoDup_cons in B9. destruct B9 as [Hn HN].
  set (l := if 0 <? o then _ else _). constructor; try done.
  - intros j a Ha. specialize (B7 j a Ha). cbn [rc_expired set_expired rc_delegations]. rewrite E in B7. unfold expired_sum in *. rewrite sumZ_cons in B7.
    assert (sumZ (fun x => if rce_from x =? j then expired_delegation x else 0) l = (if rce_from e =? j then o else 0) + sumZ (fun x => if rce_from x =? j then expired_delegation x else 0) rest) as ->.
    { unfold l. destruct (0 <? o) eqn:Eo; to_prop; [apply sumZ_cons|]. assert (o = 0) as -> by lia. by destruct (_ =? j). }
    rewrite (Z.eqb_sym j). destruct (_ =? j); lia.
  - unfold l. cbn. destruct (0 <? o) eqn:Eo; to_prop; [constructor; [cbn; lia|done]|done].
  - unfold l. cbn. destruct (0 <? o); [cbn; by constructor|done].
  - intros x Hx. cbn in Hx |- *. unfold l in Hx. destruct (0 <? o); [apply elem_of_cons in Hx as [->|Hx]|]; [apply (B10 e); left|apply B10; by right|apply B10; by right].
Qed.

(** One object of the index of expired delegations. *)
Lemma continue_one s e rest index o limit limit' s1 : rc_ok s -> rc_expired s = e :: rest ->
  remove_delegations (rc_delegations s) (i64 (expired_delegation e)) (rce_from e) limit s = Ok (index, o, limit', s1) ->
  0 <= o <= expired_delegation e /\ expired_delegation e < 2 ^ 63 /\
  keeps s (set_expired (if 0 <? o then mk_rce (rce_from e) o :: rest else rest) (set_delegations index s1)) /\
  (0 < o -> limit' = 0).
Proof.
  intros [B HF HD] E H. pose proof (rk_expired _ _ B) as Hx. rewrite E in Hx. apply Forall_cons in Hx as [He _]. rewrite swrap_id in H by (unfold in_s; lia).
  apply remove_Ok in H as [R Hd]; [|apply B|lia|apply B|]. 2:{ intros i a _ Ea. split; [by apply (rk_account _ _ B i)|]. by rewrite (rk_received _ _ B i a Ea). }
  pose proof (removed_books _ _ _ _ _ _ _ B R) as B1. pose proof R as [R1 R2 R3 R4 R5 [m ->] R7 R7' Rl R8 R9]. split; [lia|]. split; [lia|].
  apply (expired_head_books _ _ e rest o) in B1; [|done|lia]. split.
  - split_and!.
    + split.
      * eapply books_ext; [|exact B1]. intros j. unfold no_pending. cbv beta. destruct (j =? _); lia.
      * intros j. change (from_sum j index < 2 ^ 62). specialize (HF j). destruct (decide (j = rce_from e)) as [->|Hne]; [lia|by rewrite R3].
      * intros j x Hj Ex. cbn in Ex, R7, R8, R9. destruct (decide (j = rce_from e)) as [->|Hne]; [rewrite R7 in Ex; by apply (HD (rce_from e))|].
        destruct (accounts s !! j) as [y|] eqn:Ey; [|by rewrite (R9 j Ey) in Ex]. destruct (R8 j y Hne Ey) as (z & Ez & _ & _ & _ & _ & HT). rewrite Ez in Ex. injection Ex as <-.
        eapply touched_settled; [exact HT|by apply (HD j)].
    + done.
    + apply map_eq. intros j. unfold stakes. rewrite !lookup_fmap. cbn in R7, R8, R9 |- *. destruct (decide (j = rce_from e)) as [->|Hne]; [by rewrite R7|].
      destruct (accounts s !! j) as [y|] eqn:Ej; [|by rewrite (R9 j Ej)]. destruct (R8 j y Hne Ej) as (y' & -> & _ & HS & _). cbn. f_equal. exact HS.
  - intros Ho. destruct (Hd Ho) as [|Hz]; [done|]. exfalso.
    assert (is_Some (accounts s !! rce_from e)) as [a Ha] by (apply (rk_expired_exist _ _ B e); rewrite E; left).
    pose proof (rk_delegated _ _ B _ _ Ha) as Hb. rewrite E in Hb. unfold expired_sum, no_pending in Hb. rewrite sumZ_cons, Z.eqb_refl in Hb.
    pose proof (rk_account _ _ B _ _ Ha) as [_ _ A2 _ _ _ _ _].
    pose proof (rk_expired _ _ B) as Hx. rewrite E in Hx. apply Forall_cons in Hx as [_ Hx].
    assert (0 <= sumZ (fun x => if rce_from x =? rce_from e then expired_delegation x else 0) rest).
    { apply sumZ_nonneg. eapply Forall_impl; [exact Hx|]. intros x Hx'. cbn in Hx'. destruct (_ =? _); lia. }
    lia.
Qed.

Lemma keeps_refl s : rc_ok s -> keeps s s.
Proof. intros H. by split_and!. Qed.

Lemma continue_ok expired limit s s' : rc_ok s -> rc_expired s = expired -> continue_expired expired limit s = Ok s' -> keeps s s'.
Proof.
  revert limit s. induction expired as [|e rest IH]; intros limit s B E H; cbn [continue_expired] in H; [injection H as <-; by apply keeps_refl|].
  apply bind_Ok in H as ([[[index o] limit'] s1] & Hr & H). apply (continue_one s e rest) in Hr as (Ho & Hx & K & _); [|done..]. cbv zeta in H.
  destruct (0 <? o) eqn:Eo; to_prop; [rewrite uwrap_id in H by (unfold in_u; lia); by injection H as <-|].
  destruct (guard_done limit'); [by injection H as <-|]. eapply keeps_trans; [exact K|]. apply (IH limit'); [apply K|done|done].
Qed.

(** The delegation of one account to another, if it is not zero. *)
Definition entry (from to v : Z) : list rc_direct_delegation_object := if v =? 0 then [] else [mk_rcd from to v].

Lemma entry_from j from to v : from_sum j (entry from to v) = if j =? from then v else 0.
Proof. unfold entry. destruct (v =? 0) eqn:E; to_prop; [subst v; by destruct (j =? from)|]. rewrite from_sum_cons. cbn. rewrite (Z.eqb_sym j). destruct (_ =? _); lia. Qed.
Lemma entry_to j from to v : to_sum j (entry from to v) = if j =? to then v else 0.
Proof. unfold entry. destruct (v =? 0) eqn:E; to_prop; [subst v; by destruct (j =? to)|]. rewrite to_sum_cons. cbn. rewrite (Z.eqb_sym j). destruct (_ =? _); lia. Qed.

(** The delegation of [from] to [to] becomes [new]. *)
Lemma entry_books pending s from to old new rest l' a a' : books pending s -> rc_delegations s ≡ₚ entry from to old ++ rest -> l' ≡ₚ entry from to new ++ rest ->
  (from, to) ∉ key <$> rest -> from <> to -> 0 <= new < 2 ^ 63 -> is_Some (accounts s !! from) -> accounts s !! to = Some a -> account_ok (head_block_time s) a' ->
  received_rc a' = received_rc a + (new - old) -> delegated_rc a' = delegated_rc a ->
  books (fun j => pending j + if j =? from then new - old else 0) (put_account to a' (set_delegations l' s)).
Proof.
  intros [B1 B2 B3 B4 B5 B6 B7 B8 B9 B10] El El' Hk Hne Hnew Hf Ha O Hr Hd.
  assert (forall j, is_Some (accounts s !! j) -> is_Some (accounts (put_account to a' (set_delegations l' s)) !! j)) as Hdom.
  { intros j Hj. cbn. destruct (decide (j = to)) as [->|]; [rewrite lookup_insert_eq; by eexists|by rewrite lookup_insert_ne]. }
  assert (forall j b, accounts (put_account to a' (set_delegations l' s)) !! j = Some b -> (j = to /\ b = a') \/ (j <> to /\ accounts s !! j = Some b)) as Hback.
  { intros j b. cbn. destruct (decide (j = to)) as [->|]; [rewrite lookup_insert_eq; intros [= <-]; by left|rewrite lookup_insert_ne by done; by right]. }
  assert (forall j, from_sum j l' = from_sum j (rc_delegations s) + if j =? from then new - old else 0) as Hfrom.
  { intros j. unfold from_sum. rewrite El, El', !sumZ_app. pose proof (entry_from j from to old). pose proof (entry_from j from to new). unfold from_sum in *. destruct (j =? from); lia. }
  assert (forall j, to_sum j l' = to_sum j (rc_delegations s) + if j =? to then new - old else 0) as Hto.
  { intros j. unfold to_sum. rewrite El, El', !sumZ_app. pose proof (entry_to j from to old). pose proof (entry_to j from to new). unfold to_sum in *. destruct (j =? to); lia. }
  assert (forall k, k ∈ key <$> l' -> k = (from, to) \/ k ∈ key <$> rc_delegations s) as Hkeys.
  { intros k. rewrite El, El', !fmap_app, !elem_of_app. intros [Hk'|]; [left|by right; right]. unfold entry in Hk'. destruct (new =? 0); [by apply elem_of_nil in Hk'|]. by apply list_elem_of_singleton in Hk'. }
  rewrite El in B2, B3. apply Forall_app in B2 as [_ B2]. rewrite fmap_app in B3. apply NoDup_app in B3 as (_ & _ & B3). constructor; try done.
  - change (Forall delegation_ok l'). rewrite El'. apply Forall_app. split; [|done]. unfold entry. destruct (new =? 0) eqn:E; to_prop; [done|]. apply Forall_singleton. split; cbn; [lia|done].
  - change (NoDup (key <$> l')). rewrite El', fmap_app. unfold entry. destruct (new =? 0); [done|]. cbn. by apply NoDup_cons.
  - intros k Hk'. destruct (Hkeys k Hk') as [->|Hold]; [split; apply Hdom; [done|by exists a]|]. destruct (B4 k Hold). auto.
  - intros j b E. destruct (Hback j b E) as [[-> ->]|[_ E']]; [done|by apply (B5 j)].
  - intros j b E. change (received_rc b = to_sum j l'). rewrite Hto. destruct (Hback j b E) as [[-> ->]|[Hj E']]; [rewrite Z.eqb_refl, Hr, (B6 to a Ha); lia|].
    rewrite (proj2 (Z.eqb_neq _ _) Hj). rewrite (B6 j b E'). lia.
  - intros j b E. change (delegated_rc b + expired_sum j (rc_expired s) + (pending j + if j =? from then new - old else 0) = from_sum j l'). rewrite Hfrom.
    destruct (Hback j b E) as [[-> ->]|[Hj E']]; [specialize (B7 to a Ha)|specialize (B7 j b E')]; lia.
  - intros e He. by apply Hdom, B10.
Qed.

Lemma insert_delegation_perm d l : insert_delegation d l ≡ₚ d :: l.
Proof. induction l as [|x l IH]; cbn; [done|]. destruct (key_before d x); [done|]. rewrite IH. apply perm_swap. Qed.
Lemma has_key_true from to d : has_key from to d = true <-> key d = (from, to).
Proof. unfold has_key, key. destruct (rcd_from d =? from) eqn:E1, (rcd_to d =? to) eqn:E2; to_prop; cbn; naive_solver. Qed.

(** The index with the delegation of [from] to [to] taken out. *)
Lemma find_delegation_split pending s from to : books pending s -> exists old rest,
  rc_delegations s ≡ₚ entry from to old ++ rest /\ (from, to) ∉ key <$> rest /\
  match find_delegation from to s with
  | None => old = 0 /\ rest = rc_delegations s
  | Some d => rcd_rc d = old /\ 0 < old < 2 ^ 63 /\ rest = filter (fun x => has_key from to x = false) (rc_delegations s) /\
      forall v, (fun x => if has_key from to x then mk_rcd from to v else x) <$> rc_delegations s ≡ₚ mk_rcd from to v :: rest
  end.
Proof.
  intros B. unfold find_delegation. destruct (List.find _ _) as [d|] eqn:E.
  - apply List.find_some in E as [Hin Hk]. apply list_elem_of_In in Hin. pose proof (rk_delegations _ _ B) as Hok. rewrite Forall_forall in Hok. destruct (Hok d Hin) as [Hd _].
    exists (rcd_rc d), (filter (fun x => has_key from to x = false) (rc_delegations s)). destruct (unique_split key (has_key from to) (rc_delegations s) d) as [E1 E2]; [apply B|done|done| |].
    { intros y _ Hy. apply has_key_true in Hk, Hy. congruence. }
    split_and!; try done.
    + unfold entry. rewrite (proj2 (Z.eqb_neq _ _)) by lia. rewrite E1 at 1. apply has_key_true in Hk. unfold key in Hk. destruct d. cbn in *. by injection Hk as -> ->.
    + intros H. apply list_elem_of_fmap in H as (x & Hx & H). apply list_elem_of_filter in H as [H _]. symmetry in Hx. apply has_key_true in Hx. congruence.
    + lia.
    + lia.
  - exists 0, (rc_delegations s). split_and!; try done. intros H. apply list_elem_of_fmap in H as (x & Hx & H). apply list_elem_of_In in H. apply (List.find_none _ _ E) in H.
    symmetry in Hx. apply has_key_true in Hx. congruence.
Qed.

(** The state while [from] delegates: its own account still has to be changed by
    [delta]. *)
Record delegating (from delta : Z) (s0 s : rc_state) : Prop := {
  dl_books : books (fun j => if j =? from then delta else 0) s;
  dl_self : accounts s !! from = accounts s0 !! from;
  dl_env : same_env s0 s;
  dl_stakes : stakes s = stakes s0;
  dl_expired : rc_expired s = rc_expired s0;
  dl_from j : j <> from -> from_sum j (rc_delegations s) = from_sum j (rc_delegations s0);
  dl_settled j a : accounts s !! j = Some a -> settled a
}.


(** The update of the delegation and of the account that receives it. *)
Lemma delegate_entry_ok from to max_rc total s0 s old rest l' s' : delegating from total s0 s -> is_Some (accounts s !! from) -> from <> to -> 0 <= max_rc < 2 ^ 63 -> 0 <= old < 2 ^ 63 ->
  (exists a, accounts s !! to = Some a /\ last_update_time (rc_manabar a) = head_block_time s) ->
  rc_delegations s ≡ₚ entry from to old ++ rest -> (from, to) ∉ key <$> rest -> l' ≡ₚ entry from to max_rc ++ rest ->
  update_account_after_rc_delegation to (max_rc - old) false (set_delegations l' s) = Ok s' -> delegating from (total + (max_rc - old)) s0 s'.
Proof.
  intros [D1 D2 D3 D4 D5 D6 D7] Hf Hne Hm Ho (a & Ha & Ht) El Hk El' H. pose proof (rk_account _ _ D1 to a Ha) as O. pose proof (rk_received _ _ D1 to a Ha) as Hr.
  pose proof (rk_delegations _ _ D1) as Hok. unfold to_sum in Hr. rewrite El in Hr, Hok. rewrite sumZ_app in Hr. apply Forall_app in Hok as [_ Hok]. pose proof (entry_to to from to old) as He.
  rewrite Z.eqb_refl in He. pose proof (to_sum_nonneg to rest Hok) as Hn. unfold to_sum in *.
  apply (update_Ok to _ false (set_delegations l' s) s' a) in H as (m & -> & O' & _); [|done|done|apply D1|unfold in_s; lia|lia|done].
  set (a' := set_rc m _ _ _ a) in *. constructor.
  - eapply books_ext; [|apply (entry_books _ s from to old max_rc rest l' a a' D1); done]. intros j. cbv beta. destruct (j =? from); lia.
  - rewrite <- D2. cbn. by apply lookup_insert_ne.
  - rewrite D3. done.
  - rewrite <- D4. apply (stakes_put_same to a a' (set_delegations l' s)); [done|apply set_rc_same].
  - done.
  - intros j Hj. rewrite <- D6 by done. change (from_sum j l' = from_sum j (rc_delegations s)). unfold from_sum. rewrite El, El', !sumZ_app.
    pose proof (entry_from j from to old) as E1. pose proof (entry_from j from to max_rc) as E2. rewrite (proj2 (Z.eqb_neq _ _) Hj) in E1, E2. unfold from_sum in E1, E2. lia.
  - intros j x. cbn. destruct (decide (j = to)) as [->|Hj]; [rewrite lookup_insert_eq; intros [= <-]|rewrite lookup_insert_ne by done; apply D7].
    unfold a', settled, maximum. cbn. change (effective (set_rc _ _ _ _ a)) with (effective a). lia.
Qed.

Lemma regenerate_delegating from to total s0 s s' : delegating from total s0 s -> from <> to -> regenerate_rc_mana to s = Ok s' ->
  delegating from total s0 s' /\ exists a, accounts s' !! to = Some a /\ last_update_time (rc_manabar a) = head_block_time s'.
Proof.
  intros [D1 D2 D3 D4 D5 D6 D7] Hne H. apply (regenerate_books _ _ _ _ D1 (D7 to)) in H as (B & a & m & Ha & -> & Hm). split.
  - constructor; try done.
    + rewrite <- D2. cbn. by apply lookup_insert_ne.
    + rewrite <- D4. apply (stakes_put_same to a); [done|apply set_rc_same].
    + intros j x. cbn. destruct (decide (j = to)) as [->|Hj]; [rewrite lookup_insert_eq; intros [= <-]; exact (D7 to a Ha)|rewrite lookup_insert_ne by done; apply D7].
  - eexists. split; [cbn; by rewrite lookup_insert_eq|]. done.
Qed.

Lemma delegate_to_ok from max_rc to total s0 s s' delta : delegating from total s0 s -> is_Some (accounts s !! from) -> from <> to -> 0 <= max_rc < 2 ^ 63 ->
  delegate_to from max_rc to s = Ok (s', delta) -> delegating from (total + delta) s0 s' /\ in_s 64 delta.
Proof.
  intros D Hf Hne Hm H. unfold delegate_to in H. apply bind_Ok in H as (x & _ & H). apply bind_Ok in H as (s1 & H1 & H).
  assert (accounts s1 !! from = accounts s !! from) as Hf1 by (rewrite (dl_self _ _ _ _ (proj1 (regenerate_delegating _ _ _ _ _ _ D Hne H1))); symmetry; apply D).
  apply (regenerate_delegating _ _ _ _ _ _ D Hne) in H1 as [D1 Hto]. destruct (find_delegation_split _ s1 from to (dl_books _ _ _ _ D1)) as (old & rest & El & Hk & Hfind).
  apply bind_Ok in H as ([s2 d2] & H2 & H). apply bind_Ok in H as (s3 & H3 & H). injection H as <- <-.
  assert (exists l', s2 = set_delegations l' s1 /\ d2 = max_rc - old /\ l' ≡ₚ entry from to max_rc ++ rest /\ 0 <= old < 2 ^ 63) as (l' & -> & -> & El' & Ho).
  { destruct (find_delegation from to s1) as [d|].
    - destruct Hfind as (Hd & Hr & -> & Hmap). apply check_bind_Ok in H2 as [_ H2]. rewrite Hd in H2. rewrite share_of_u64_narrow, swrap_id in H2 by (unfold in_u, in_s; lia).
      rewrite safe_sub_exact in H2 by (unfold in_s; lia). cbn [mbind result_bind] in H2. injection H2 as <- <-. eexists. split; [done|]. split; [done|]. split; [|lia].
      unfold entry. rewrite uwrap_id by (unfold in_u; lia). destruct (max_rc =? 0); [done|apply Hmap].
    - destruct Hfind as [-> ->]. apply check_bind_Ok in H2 as [E H2]. injection H2 as <- <-. eexists. split; [done|]. split; [lia|]. split; [|lia].
      rewrite insert_delegation_perm. unfold entry. rewrite uwrap_id by (unfold in_u; lia). by destruct (max_rc =? 0). }
  split; [|unfold in_s; lia]. eapply delegate_entry_ok; try done. by rewrite Hf1.
Qed.

Lemma delegate_all_ok from max_rc delegatees total s0 s s' total' : delegating from total s0 s -> is_Some (accounts s0 !! from) -> from ∉ delegatees -> 0 <= max_rc < 2 ^ 63 -> in_s 64 total ->
  delegate_all from max_rc delegatees s total = Ok (s', total') -> delegating from total' s0 s' /\ in_s 64 total'.
Proof.
  revert total s. induction delegatees as [|to rest IH]; intros total s D Hf Hn Hm Ht H; cbn [delegate_all] in H; [by injection H as <- <-|].
  apply not_elem_of_cons in Hn as [Hne Hn]. apply bind_Ok in H as ([s1 delta] & H1 & H). apply (delegate_to_ok _ _ _ _ _ _ _ _ D) in H1 as [D1 Hd]; [|by rewrite (dl_self _ _ _ _ D)|done|done].
  apply bind_Ok in H as (t & E & H). apply safe_add_Ok in E as [-> Hr]; [|done..]. by apply (IH _ _ D1).
Qed.

Lemma regenerate_keeps i s s' : rc_ok s -> regenerate_rc_mana i s = Ok s' -> keeps s s' /\
  exists a m, accounts s !! i = Some a /\ s' = put_account i (set_rc m (delegated_rc a) (received_rc a) (last_max_rc a) a) s /\ last_update_time m = head_block_time s.
Proof.
  intros [B HF HD] H. apply (regenerate_books _ _ _ _ B) in H as (B' & a & m & Ha & -> & Hm); [|intros a Ha; apply (HD i); [tauto|done]]. split; [|by exists a, m]. split_and!; [|done|apply (stakes_put_same i a); [done|apply set_rc_same]].
  split; [done|done|]. intros j x Hj. cbn. destruct (decide (j = i)) as [->|Hne]; [rewrite lookup_insert_eq; intros [= <-]; exact (HD i a Hj Ha)|rewrite lookup_insert_ne by done; by apply HD].
Qed.

(** The delegator is not among the delegatees ([delegate_rc_operation::validate]).
    With expired delegations [delegate_rc] is only reached where nodes that are in
    control refuse it. *)
Lemma delegate_rc_ok from max_rc delegatees s s' : rc_ok s -> from ∉ delegatees -> 0 <= max_rc < 2 ^ 63 -> in_control s = true \/ has_expired_delegation from s = false ->
  delegate_rc from max_rc delegatees s = Ok s' -> keeps s s'.
Proof.
  intros HR Hn Hm Hx H. unfold delegate_rc in H. apply bind_Ok in H as (u & _ & H). apply bind_Ok in H as (x & _ & H). apply bind_Ok in H as (s1 & H1 & H).
  apply (regenerate_keeps _ _ _ HR) in H1 as (K1 & a0 & m0 & Ha0 & Es1 & Hm0). apply check_bind_Ok in H as [Hc H].
  assert (has_expired_delegation from s1 = false) as He.
  { destruct Hx as [Hin|Hx]; [|by subst s1]. assert (in_control s1 = true) as Hin1 by (by subst s1). rewrite Hin1 in Hc. by destruct (has_expired_delegation from s1). }
  assert (from ∉ rce_from <$> rc_expired s1) as He' by (intros Hin; apply has_expired_elem in Hin; congruence). clear Hc Hx. destruct K1 as (HR1 & E1 & Dom1).
  eapply keeps_trans; [split_and!; [exact HR1|exact E1|exact Dom1]|]. destruct HR1 as [B1 HF1 HD1].
  apply bind_Ok in H as ([s2 total] & H2 & H). assert (is_Some (accounts s1 !! from)) as Hf by (apply (stakes_dom _ _ _ Dom1); by exists a0).
  apply (delegate_all_ok _ _ _ _ s1) in H2 as [D Ht]; [|constructor; try done|done|done|done|unfold in_s; lia].
  2:{ eapply books_ext; [|exact B1]. intros j. unfold no_pending. by destruct (j =? from). }
  2:{ intros j b Hb. apply (HD1 j); [tauto|done]. }
  destruct D as [D1 D2 D3 D4 D5 D6 D7]. destruct Hf as [a Ha]. rewrite Ha in D2. rewrite (proj2 (account_found _ _ _) D2) in H. cbn [mbind result_bind] in H.
  pose proof (rk_account _ _ D1 from a D2) as [S A1 A2 A3 A4 A5 A6 A7]. pose proof (effective_range a S). rewrite delegable_value in H by (done || (unfold in_s; lia)). cbn [mbind result_bind] in H.
  apply check_bind_Ok in H as [Hd H]. to_prop. pose proof (rk_delegated _ _ D1 from a D2) as Hbk. rewrite D5, (expired_none _ _ He'), Z.eqb_refl in Hbk.
  pose proof (from_sum_nonneg from _ (rk_delegations _ _ D1)). unfold in_s in Ht. apply bind_Ok in H as (d & E & H). apply safe_add_Ok in E as [-> _]; [|unfold in_s; lia..].
  set (mana := if 0 <? total then _ else _) in H. assert (mana = current_mana (rc_manabar a) - Z.max total 0) as Hmana.
  { unfold mana. destruct (0 <? total) eqn:E; to_prop; [rewrite swrap_id by (unfold in_s; lia); lia|lia]. }
  unfold maximum in A4, A5. cbv zeta in H. apply bind_Ok in H as (last & Hl & H). injection H as <-. apply maximum_Ok in Hl as [-> Hl]; [|by apply set_rc_shares|cbn; lia|cbn; lia|cbn; unfold in_s; lia].
  unfold in_s in Hl. set (last := maximum _) in *. set (b := set_rc _ _ _ _ (set_rc _ _ _ _ a)).
  assert (last = effective a - (delegated_rc a + total) + rc_adjustment a + received_rc a) as Elast by done. assert (maximum b = last) as Hmax by done.
  assert (account_ok (head_block_time s2) b) as Ob by (constructor; rewrite ?Hmax; cbn; rewrite ?Hmana; try (by do 2 apply set_rc_shares); change (effective b) with (effective a); lia).
  split_and!.
  - split.
    + eapply books_ext; [|apply (put_pending _ _ from a b D1 D2 Ob); done]. intros j. unfold no_pending. cbn. destruct (j =? from); lia.
    + intros j. change (from_sum j (rc_delegations s2) < 2 ^ 62). destruct (decide (j = from)) as [->|Hj]; [lia|]. by rewrite D6.
    + intros j y _. cbn. destruct (decide (j = from)) as [->|Hj]; [rewrite lookup_insert_eq; by intros [= <-]|rewrite lookup_insert_ne by done; apply D7].
  - rewrite D3. done.
  - rewrite <- D4. by apply (stakes_put_same from a).
Qed.

Lemma surcharge_range c rc surcharge privileged : 0 <= rc < 2 ^ 63 -> surcharge_for c rc = Ok (surcharge, privileged) -> 0 <= surcharge < 2 ^ 63 - rc.
Proof.
  intros Hr H. unfold surcharge_for in H. destruct (_ || _); [|injection H as <- _; lia]. apply check_bind_Ok in H as [_ H]. cbv zeta in H.
  destruct (flood_level c <? _); [|injection H as <- _; lia]. destruct (_ && _); [injection H as <- _; lia|]. apply check_bind_Ok in H as [Hc H]. injection H as <- _. to_prop.
  rewrite (uwrap_id 64 (int64_max - rc)) in Hc by (unfold in_u, int64_max; lia). unfold int64_max in Hc.
  match type of Hc with ?x <= _ => assert (0 <= x) by (apply Z.div_pos; [apply uwrap_range; lia|unfold HIVE_100_PERCENT; lia]) end. rewrite swrap_id by (unfold in_s; lia). lia.
Qed.

Lemma use_account_rcs_ok c payer rc s s' privileged : rc_ok s -> 0 <= rc < 2 ^ 63 -> use_account_rcs c payer rc s = Ok (s', privileged) -> keeps s s'.
Proof.
  intros HR Hrc H. pose proof HR as [B HF HD]. unfold use_account_rcs in H. destruct payer as [i|]; [|apply check_bind_Ok in H as [_ H]; injection H as <- _; by apply keeps_refl].
  apply bind_Ok in H as (a & Ha & H). apply account_found in Ha. pose proof (rk_account _ _ B i a Ha) as O. pose proof (HD i a ltac:(tauto) Ha) as Hset. rewrite (settled_value _ _ O Hset) in H. cbn [mbind result_bind] in H. unfold settled in Hset.
  apply bind_Ok in H as (bar & Hb & H). apply bind_Ok in H as ([sc p] & Hs & H). apply surcharge_range in Hs; [|done]. apply bind_Ok in H as (u & _ & H). injection H as <- _.
  rewrite swrap_id by (unfold in_s; lia). pose proof (rk_time _ _ B). pose proof O as [S A1 A2 A3 A4 A5 A6 A7].
  apply regenerate_Ok in Hb as [Ht Hc]; [|cbn; lia|cbn; unfold HIVE_RC_REGEN_TIME, HIVE_VOTING_MANA_REGENERATION_SECONDS; lia|lia|lia|lia]. cbn in Hc.
  assert (current_mana (use_mana (rc + sc) 0 bar) = Z.max (current_mana bar - (rc + sc)) 0) as Hu.
  { unfold use_mana. cbn. rewrite signed_sat_sub_clamps by (unfold in_s; lia). unfold clamp64, int64_min, int64_max. destruct (_ <? 0) eqn:E; to_prop; lia. }
  unfold maximum in *. split_and!; [split|done|apply (stakes_put_same i a); [done|apply set_rc_same]].
  - apply (put_books _ _ i a); try done. apply set_rc_ok; try done; rewrite ?Hu; cbn; lia.
  - done.
  - intros j x Hj. cbn. destruct (decide (j = i)) as [->|Hne]; [rewrite lookup_insert_eq; intros [= <-]; exact Hset|rewrite lookup_insert_ne by done; by apply HD].
Qed.
End rc_operations.

(** ** Histories *)

Definition set_time t s := mk_rcs (accounts s) (rc_delegations s) (rc_expired s) t (in_control s) (rc_is_consensus s)
  (remove_threshold s) (account_creation_fee s) (vesting_share_price s) (alerts s).
Definition set_control b s := mk_rcs (accounts s) (rc_delegations s) (rc_expired s) (head_block_time s) b (rc_is_consensus s)
  (remove_threshold s) (account_creation_fee s) (vesting_share_price s) (alerts s).

Section histories.
Context `{L : FcLib} `{!FcLaws L}.

(** What happens to RC.  An operation on the stake of an account regenerates its RC,
    changes the stake and brings the RC up to date, with the check for an overflow
    where the stake may have shrunk; the stake that is left is never negative.  A
    transaction has a cost that is not negative.  Delegations name other accounts.  The
    node is in control of what it does, or not; where it is not, the code lets an account
    delegate whose earlier delegations still have to be taken back, which these histories
    leave out: [Sample.undelegating_twice] shows what it leads to. *)
Inductive rc_step (s : rc_state) : rc_state -> Prop :=
  | step_create i n adjustment a : accounts s !! i = None -> 0 <= adjustment < 2 ^ 63 -> new_account n (head_block_time s) 0 adjustment = Ok a -> rc_step s (put_account i a s)
  | step_stake i a a' fill chk s1 s2 : regenerate_rc_mana i s = Ok s1 -> accounts s1 !! i = Some a -> same_rc a a' -> shares_ok a' -> 0 <= effective a' ->
      (chk = false -> delegated_rc a' <= effective a') -> update_account_after_vest_change i fill chk (put_account i a' s1) = Ok s2 -> rc_step s s2
  | step_delegate from max_rc delegatees s' : from ∉ delegatees -> 0 <= max_rc < 2 ^ 63 -> in_control s = true \/ has_expired_delegation from s = false ->
      delegate_rc from max_rc delegatees s = Ok s' -> rc_step s s'
  | step_pay c payer rc s' privileged : 0 <= rc < 2 ^ 63 -> use_account_rcs c payer rc s = Ok (s', privileged) -> rc_step s s'
  | step_expired s' : handle_expired_delegations s = Ok s' -> rc_step s s'
  | step_time t : head_block_time s <= t < 2 ^ 32 -> rc_step s (set_time t s)
  | step_control b : rc_step s (set_control b s).

Definition rc_genesis (s : rc_state) : Prop := accounts s = ∅ /\ rc_delegations s = [] /\ rc_expired s = [] /\ 0 <= head_block_time s < 2 ^ 32 /\ alerts s = 0.
Inductive rc_reachable : rc_state -> Prop :=
  | reach_genesis s : rc_genesis s -> rc_reachable s
  | reach_step s s' : rc_reachable s -> rc_step s s' -> rc_reachable s'.

Lemma account_ok_later now now' a : now <= now' -> account_ok now a -> account_ok now' a.
Proof. intros Hn [S A1 A2 A3 A4 A5 A6 A7]. constructor; try done. lia. Qed.

(** Nobody delegated to or from an account that does not exist. *)
Lemma absent_sums pending s i : books pending s -> accounts s !! i = None -> from_sum i (rc_delegations s) = 0 /\ to_sum i (rc_delegations s) = 0 /\ expired_sum i (rc_expired s) = 0.
Proof.
  intros B Hi. assert (forall d, d ∈ rc_delegations s -> rcd_from d <> i /\ rcd_to d <> i) as Hd.
  { intros d Hin. destruct (rk_exist _ _ B (key d)) as [[x Hx] [y Hy]]; [by apply list_elem_of_fmap_2|]. cbn in Hx, Hy. split; intros <-; congruence. }
  split_and!.
  - unfold from_sum. apply sumZ_zero. intros d Hin. by rewrite (proj2 (Z.eqb_neq _ _) (proj1 (Hd d Hin))).
  - unfold to_sum. apply sumZ_zero. intros d Hin. by rewrite (proj2 (Z.eqb_neq _ _) (proj2 (Hd d Hin))).
  - apply expired_none. intros H. apply list_elem_of_fmap in H as (e & -> & He). destruct (rk_expired_exist _ _ B e He). congruence.
Qed.

Lemma created_rc_ok s i a : rc_ok s -> accounts s !! i = None -> account_ok (head_block_time s) a -> settled a -> delegated_rc a = 0 -> received_rc a = 0 -> rc_ok (put_account i a s).
Proof.
  intros [B HF HD] Hi O T Hd Hr. destruct (absent_sums _ _ _ B Hi) as (Z1 & Z2 & Z3). pose proof B as [B1 B2 B3 B4 B5 B6 B7 B8 B9 B10].
  assert (forall j, is_Some (accounts s !! j) -> is_Some (accounts (put_account i a s) !! j)) as Hdom.
  { intros j Hj. cbn. destruct (decide (j = i)) as [->|]; [rewrite lookup_insert_eq; by eexists|by rewrite lookup_insert_ne]. }
  assert (forall j b, accounts (put_account i a s) !! j = Some b -> (j = i /\ b = a) \/ (j <> i /\ accounts s !! j = Some b)) as Hback.
  { intros j b. cbn. destruct (decide (j = i)) as [->|]; [rewrite lookup_insert_eq; intros [= <-]; by left|rewrite lookup_insert_ne by done; by right]. }
  split; [|done|intros j b Hj E; destruct (Hback j b E) as [[-> ->]|[_ E']]; [done|by apply (HD j)]].
  constructor; try done.
  - intros k Hk. destruct (B4 k Hk). auto.
  - intros j b E. destruct (Hback j b E) as [[-> ->]|[_ E']]; [done|by apply (B5 j)].
  - intros j b E. destruct (Hback j b E) as [[-> ->]|[_ E']]; [by rewrite Hr, <- Z2|by apply B6].
  - intros j b E. destruct (Hback j b E) as [[-> ->]|[_ E']]; [|by apply B7]. change (delegated_rc a + expired_sum i (rc_expired s) + 0 = from_sum i (rc_delegations s)). lia.
  - intros e He. by apply Hdom, B10.
Qed.

Lemma step_ok s s' : rc_ok s -> rc_step s s' -> rc_ok s' /\ alerts s' = alerts s.
Proof.
  intros HR H. assert (forall x, keeps s x -> rc_ok x /\ alerts x = alerts s) as Hk by (intros x (K1 & K2 & _); split; [done|by apply env_alerts]).
  destruct H as [i n adj a Hi Ha H|i a a' fill chk s1 s2 H1 Ha HS S He Hc H|from m ds x Hn Hm Hx H|c p rc x pr Hr H|x H|t Ht|b].
  - apply new_account_ok in H as (O & T & Hd & Hr); [|apply HR|done]. split; [by apply created_rc_ok|done].
  - destruct (regenerate_keeps i s s1 HR H1) as (K & a0 & m & Ha0 & -> & Hm). destruct K as (K1 & K2 & _).
    cbn in Ha. rewrite lookup_insert_eq in Ha. injection Ha as <-. eapply vest_change_ok in H as [C1 C2 C3 _ _ _]; try done; [|cbn; apply lookup_insert_eq|done].
    split; [|by rewrite (env_alerts _ _ C2), (env_alerts _ _ K2)]. destruct C1 as [C1 C4 C5]. split; [done|done|]. intros j b _. apply C5. tauto.
  - apply Hk. by eapply delegate_rc_ok.
  - apply Hk. by eapply use_account_rcs_ok.
  - apply Hk. unfold handle_expired_delegations in H. by eapply continue_ok.
  - split; [|done]. destruct HR as [[B1 B2 B3 B4 B5 B6 B7 B8 B9 B10] HF HD]. split; [|done|done]. constructor; try done; [cbn; lia|]. intros i a Ha. eapply account_ok_later; [|by apply (B5 i)]. cbn. lia.
  - split; [|done]. destruct HR as [[B1 B2 B3 B4 B5 B6 B7 B8 B9 B10] HF HD]. by split; [constructor|..].
Qed.

Lemma reachable_ok s : rc_reachable s -> rc_ok s /\ alerts s = 0.
Proof.
  induction 1 as [s (E1 & E2 & E3 & Ht & Ha)|s s' _ [IH Ha] H].
  - split; [|done]. split; [|by rewrite E2|by rewrite E1]. constructor; rewrite ?E1, ?E2, ?E3; try done; [by apply NoDup_nil|intros k Hk; by apply elem_of_nil in Hk|by apply NoDup_nil|intros e He; by apply elem_of_nil in He].
  - destruct (step_ok s s' IH H) as [K E]. by rewrite E.
Qed.

(** *** The clean-up makes progress *)

(** RC of the size of the present chain, where regeneration never overflows. *)
Definition modest (s : rc_state) : Prop := forall i a, accounts s !! i = Some a -> maximum a < 2 ^ 49.

Lemma update_total i delta s a : accounts s !! i = Some a -> account_ok (head_block_time s) a -> 0 <= head_block_time s < 2 ^ 32 -> maximum a < 2 ^ 49 ->
  - received_rc a <= delta <= 0 -> exists s', update_account_after_rc_delegation i delta true s = Ok s'.
Proof.
  intros Ha O Hn Hm Hd. unfold update_account_after_rc_delegation. rewrite (proj2 (account_found _ _ _) Ha). cbn [mbind result_bind]. rewrite (maximum_value _ _ O) by lia. cbn [mbind result_bind].
  pose proof O as [S O1 O2 O3 O4 O5 O6 O7]. assert (received_rc a <= maximum a) by (unfold maximum; lia).
  destruct (regenerate_modest (mk_mparams (maximum a) HIVE_RC_REGEN_TIME) (rc_manabar a) (head_block_time s)) as (m & -> & _ & Hc); [cbn; lia|done|lia|lia|lia|]. cbn [mbind result_bind]. cbn in Hc.
  rewrite (safe_add_exact (current_mana m)), (safe_add_exact (maximum a)), (safe_add_exact (received_rc a)) by (unfold in_s; lia). by eexists.
Qed.

Lemma remove_total l overflow from limit s : Forall delegation_ok l -> 0 <= overflow < 2 ^ 63 -> 0 <= head_block_time s < 2 ^ 32 -> 0 <= limit ->
  (forall d, d ∈ l -> is_Some (accounts s !! rcd_to d)) ->
  (forall i a, i <> from -> accounts s !! i = Some a -> account_ok (head_block_time s) a /\ to_sum i l <= received_rc a /\ maximum a < 2 ^ 49) ->
  exists l' overflow' limit' s', remove_delegations l overflow from limit s = Ok (l', overflow', limit', s') /\ Z.of_nat (length l) - Z.of_nat (length l') = limit - limit' /\ 0 <= limit'.
Proof.
  intros Hl. revert overflow limit s. induction Hl as [|d l [Hd Hne] Hl IH]; intros overflow limit s Ho Hn Hlim Hex Hacc; cbn [remove_delegations].
  { eexists _, _, _, _. split; [done|]. lia. }
  assert (forall i, 0 <= to_sum i l) as Hto by (intros i; by apply to_sum_nonneg).
  assert (forall i a, i <> from -> accounts s !! i = Some a -> account_ok (head_block_time s) a /\ to_sum i l <= received_rc a /\ maximum a < 2 ^ 49) as Htail.
  { intros i a Hi E. destruct (Hacc i a Hi E) as (H1 & H2 & H3). rewrite to_sum_cons in H2. split_and!; [done| |done]. destruct (_ =? _); lia. }
  destruct (rcd_from d =? from) eqn:Ef; to_prop; cbn [negb].
  2:{ destruct (IH overflow limit s) as (l' & o' & lim' & s' & -> & Hlen & Hp); try done; [intros x Hx; apply Hex; by right|]. cbn [mbind result_bind]. eexists _, _, _, _. split; [done|]. cbn. lia. }
  destruct (overflow <=? 0) eqn:Eo; to_prop; [eexists _, _, _, _; split; [done|]; lia|]. rewrite (swrap_id 64 (rcd_rc d)) by (unfold in_s; lia). set (delta := Z.min overflow (rcd_rc d)).
  rewrite (swrap_id 64 (- delta)), (swrap_id 64 (overflow - delta)), (uwrap_id 64 delta) by (unfold in_s, in_u; lia).
  destruct (Hex d) as [a Ea]; [by left|]. assert (rcd_to d <> from) as Hnf by congruence. destruct (Hacc (rcd_to d) a Hnf Ea) as (Oa & Hra & Hma). rewrite to_sum_cons, Z.eqb_refl in Hra.
  pose proof (Hto (rcd_to d)). destruct (update_total (rcd_to d) (- delta) s a Ea Oa Hn Hma) as [s1 Hs1]; [lia|].
  destruct (update_Ok (rcd_to d) (- delta) true s s1 a Ea Oa) as (m & E1 & O1 & _); [lia|unfold in_s; lia|lia|done|done|]. set (a1 := set_rc m _ _ _ a) in *.
  assert (head_block_time s1 = head_block_time s) as Et by (by rewrite E1).
  assert (forall i b, i <> from -> accounts s1 !! i = Some b -> account_ok (head_block_time s1) b /\ to_sum i l <= received_rc b /\ maximum b < 2 ^ 49) as Hacc1.
  { rewrite Et, E1. intros i b Hi. cbn. destruct (decide (i = rcd_to d)) as [->|Hni]; [rewrite lookup_insert_eq; intros [= <-]|rewrite lookup_insert_ne by done; by apply Htail].
    split_and!; [done|cbn; lia|]. unfold maximum in *. change (effective a1) with (effective a). cbn. lia. }
  assert (forall x, x ∈ l -> is_Some (accounts s1 !! rcd_to x)) as Hex1 by (intros x Hx; rewrite E1; apply put_dom; [by exists a|apply Hex; by right]).
  destruct (delta <? rcd_rc d).
  { rewrite Hs1. cbn [mbind result_bind]. destruct (IH (overflow - delta) limit s1) as (l' & o' & lim' & s' & -> & Hlen & Hp); try done; [lia|by rewrite Et|]. cbn [mbind result_bind].
    eexists _, _, _, _. split; [done|]. cbn. lia. }
  unfold guard_step. destruct (0 <? limit) eqn:E2; to_prop.
  - rewrite Hs1. cbn [mbind result_bind]. destruct (IH (overflow - delta) (limit - 1) s1) as (l' & o' & lim' & s' & -> & Hlen & Hp); try done; [lia|by rewrite Et|lia|].
    eexists _, _, _, _. split; [done|]. cbn. lia.
  - assert (limit = 0) as -> by lia. eexists _, _, _, _. split; [done|]. cbn. lia.
Qed.

Lemma removed_modest from l l' o o' s s' : modest s -> removed from l l' o o' s s' -> modest s'.
Proof.
  intros HM [R1 R2 R3 R4 R5 [m ->] R7 R7' Rl R8 R9] i a' E. cbn in *. destruct (decide (i = from)) as [->|Hi]; [rewrite R7 in E; by apply (HM from)|].
  destruct (accounts s !! i) as [a|] eqn:Ea; [|by rewrite (R9 i Ea) in E]. destruct (R8 i a Hi Ea) as (b & Eb & _ & HS & Hd & Hr & _). rewrite Eb in E. injection E as <-.
  specialize (HM i a Ea). specialize (Rl i). unfold same_stake in HS. unfold maximum in *. assert (effective b = effective a) as -> by (exact (f_equal effective HS)).
  assert (rc_adjustment b = rc_adjustment a) as -> by (exact (f_equal rc_adjustment HS)). lia.
Qed.

Lemma continue_total expired limit s : rc_ok s -> modest s -> 0 <= limit -> rc_expired s = expired -> exists s', continue_expired expired limit s = Ok s' /\ modest s' /\
  (rc_expired s' = [] \/ Z.of_nat (length (rc_delegations s')) + limit <= Z.of_nat (length (rc_delegations s))).
Proof.
  revert limit s. induction expired as [|e rest IH]; intros limit s HR HM Hlim E; cbn [continue_expired]; [exists s; split_and!; [done|done|by left]|].
  pose proof HR as [B _ _]. pose proof (rk_expired _ _ B) as Hx. rewrite E in Hx. apply Forall_cons in Hx as [He _].
  destruct (remove_total (rc_delegations s) (i64 (expired_delegation e)) (rce_from e) limit s) as (index & o & lim & s1 & Hrem & Hlen & Hp).
  { apply B. } { rewrite swrap_id by (unfold in_s; lia). lia. } { apply B. } { done. }
  { intros d Hd. apply (rk_exist _ _ B (key d)). by apply list_elem_of_fmap_2. }
  { intros i a _ Ea. split_and!; [by apply (rk_account _ _ B i)|by rewrite (rk_received _ _ B i a Ea)|by apply (HM i)]. }
  rewrite Hrem. cbn [mbind result_bind]. destruct (continue_one s e rest index o limit lim s1 HR E Hrem) as (Ho & _ & K & Hstop).
  assert (modest s1) as HM1.
  { rewrite swrap_id in Hrem by (unfold in_s; lia). apply remove_Ok in Hrem as [R _]; [|apply B|lia|apply B|]; [by eapply removed_modest|].
    intros i a _ Ea. split; [by apply (rk_account _ _ B i)|by rewrite (rk_received _ _ B i a Ea)]. }
  destruct (0 <? o) eqn:Eo; to_prop.
  - eexists. split; [done|]. split; [done|]. right. specialize (Hstop Eo). cbn. lia.
  - unfold guard_done. destruct (lim =? 0) eqn:El; to_prop.
    + eexists. split; [done|]. split; [done|]. right. cbn. lia.
    + destruct (IH lim (set_expired rest (set_delegations index s1))) as (s' & Hs' & HM' & H'); try done; [apply K|]. exists s'. split_and!; [done|done|]. destruct H' as [|H']; [by left|right]. cbn in H'. lia.
Qed.

Fixpoint rounds (n : nat) (s : rc_state) : result rc_state := match n with O => Ok s | S n => s ← handle_expired_delegations s; rounds n s end.

Lemma rounds_total n s : rc_ok s -> modest s -> 0 < remove_threshold s -> Z.of_nat (length (rc_delegations s)) < Z.of_nat n * remove_threshold s ->
  exists s', rounds n s = Ok s' /\ rc_ok s' /\ rc_expired s' = [].
Proof.
  revert s. induction n as [|n IH]; intros s HR HM Hth Hlen; [lia|]. cbn [rounds]. unfold handle_expired_delegations.
  destruct (continue_total (rc_expired s) (remove_threshold s) s) as (s1 & H1 & HM1 & Hp); try done; [lia|]. rewrite H1. cbn [mbind result_bind].
  pose proof (continue_ok _ _ _ _ HR eq_refl H1) as (HR1 & Env & _). assert (remove_threshold s1 = remove_threshold s) as Et by (unfold same_env in Env; exact (f_equal remove_threshold Env)).
  destruct Hp as [Hdone|Hp]; [|apply IH; try done; rewrite Et; lia].
  assert (forall k x, rc_ok x -> rc_expired x = [] -> rounds k x = Ok x) as Hstay.
  { intros k x _ Ex. induction k as [|k IHk]; [done|]. cbn [rounds]. unfold handle_expired_delegations. rewrite Ex. exact IHk. }
  exists s1. split_and!; [by apply Hstay|done|done].
Qed.

(** ** The theorems *)


(**  An account that loses stake keeps the delegations of resource credits that
    its stake still covers: what it delegated is cut to its effective stake, the
    difference is taken from its delegations or remembered as expired, and the
    delegations of others stay. *)
Theorem stake_loss_cuts_delegations s i s1 a a' fill s2 : rc_reachable s -> regenerate_rc_mana i s = Ok s1 -> accounts s1 !! i = Some a ->
  same_rc a a' -> shares_ok a' -> 0 <= effective a' -> update_account_after_vest_change i fill true (put_account i a' s1) = Ok s2 ->
  exists b, accounts s2 !! i = Some b /\ same_stake a' b /\ delegated_rc b = Z.min (delegated_rc a) (effective a') /\
    from_sum i (rc_delegations s2) = delegated_rc b + expired_sum i (rc_expired s2) /\
    forall j, j <> i -> from_sum j (rc_delegations s2) = from_sum j (rc_delegations s).
Proof.
  intros HR H1 Ha HS S He H. apply reachable_ok in HR as [HR _]. destruct (regenerate_keeps i s s1 HR H1) as (K & a0 & m & Ha0 & -> & Hm).
  pose proof Ha as Ha'. cbn in Ha. rewrite lookup_insert_eq in Ha. injection Ha as <-. eapply vest_change_ok in H as [C1 C2 C3 (b & Eb & Sb & Hd & _) _ Hf]; try done; [|apply K].
  exists b. split_and!; [done|done|by rewrite Hd, (proj1 (proj2 (proj2 HS)))| |intros j Hj; by rewrite Hf].
  pose proof (rk_delegated _ _ (ok_books _ _ C1) i b Eb) as Hk. unfold no_pending in Hk. lia.
Qed.

(**  Delegations that have lost their stake are taken back: while the maxima of
    resource credits are below [2 ^ 49], the clean-up of a block never fails, and as
    many blocks as it takes to walk all delegations with the limit leave nothing
    expired. *)
Theorem expired_delegations_cleared n s : rc_reachable s -> modest s -> 0 < remove_threshold s ->
  Z.of_nat (length (rc_delegations s)) < Z.of_nat n * remove_threshold s -> exists s', rounds n s = Ok s' /\ rc_expired s' = [].
Proof.
  intros HR HM Ht Hl. apply reachable_ok in HR as [HR _]. destruct (rounds_total n s HR HM Ht Hl) as (s' & H1 & _ & H2). by exists s'.
Qed.
End histories.

(** ** A sample history *)

Module Sample.
#[local] Existing Instance fc_ref.
#[local] Existing Instance fc_ref_laws.

Definition or_else (r : result rc_state) (s : rc_state) : rc_state := match r with Ok s' => s' | Throw _ => s end.
Definition create (i : Z) (n : string) (s : rc_state) : rc_state := match new_account n (head_block_time s) 0 500 with Ok a => put_account i a s | Throw _ => s end.
Definition account_of (i : Z) (s : rc_state) : account := match accounts s !! i with Some a => a | None => mk_rca EmptyString 0 0 0 0 0 0 0 (mk_manabar 0 0) (mk_manabar 0 0) (mk_manabar 0 0) 0 0 0 0 end.
Definition staked (i v : Z) (s : rc_state) : account := set_shares v 0 0 (account_of i s).
Definition stake (i v : Z) (chk : bool) (s : rc_state) : rc_state :=
  let s1 := or_else (regenerate_rc_mana i s) s in or_else (update_account_after_vest_change i true chk (put_account i (staked i v s1) s1)) s1.
Definition context : payment_context := mk_ctx false false 0 65536 10 100 false false.

(** Alice gets 10000 shares, delegates 3000 RC to Bob and to Carol, Bob pays 700, and
    Alice loses her stake. *)
Definition s0 : rc_state := mk_rcs ∅ [] [] 1700000000 true false 1 (mk_tiny 3000) (mk_tprice (mk_tiny 1000) (mk_tiny 1000)) 0.
Definition s3 : rc_state := create 2 "carol" (create 1 "bob" (create 0 "alice" s0)).
Definition s4 : rc_state := stake 0 10000 false s3.
Definition s5 : rc_state := or_else (delegate_rc 0 3000 [1; 2] s4) s4.
Definition s6 : rc_state := match use_account_rcs context (Some 1) 700 s5 with Ok (s, _) => s | Throw _ => s5 end.
Definition s7 : rc_state := set_time 1700000600 s6.
Definition s7' : rc_state := or_else (regenerate_rc_mana 0 s7) s7.
Definition s8 : rc_state := stake 0 0 true s7.

Lemma s7_reachable : rc_reachable s7.
Proof.
  assert (rc_reachable s3) as H3.
  { eapply reach_step; [eapply reach_step; [eapply reach_step; [apply (reach_genesis s0); by split_and!|apply (step_create s0 0 "alice" 500); done]|]|].
    - apply (step_create _ 1 "bob" 500); [vm_compute|..]; done.
    - apply (step_create _ 2 "carol" 500); [vm_compute|..]; done. }
  assert (rc_reachable s4) as H4.
  { eapply reach_step; [exact H3|]. set (s1 := or_else (regenerate_rc_mana 0 s3) s3).
    apply (step_stake s3 0 (account_of 0 s1) (staked 0 10000 s1) true false s1); vm_compute; done. }
  assert (rc_reachable s5) as H5 by (eapply reach_step; [exact H4|]; apply (step_delegate s4 0 3000 [1; 2]); [set_solver|lia|by left|vm_compute; done]).
  assert (rc_reachable s6) as H6 by (eapply reach_step; [exact H5|]; apply (step_pay s5 context (Some 1) 700 s6 false); [lia|vm_compute; done]).
  eapply reach_step; [exact H6|]. apply step_time. vm_compute. done.
Qed.

Lemma s8_reachable : rc_reachable s8.
Proof.
  eapply reach_step; [exact s7_reachable|]. apply (step_stake s7 0 (account_of 0 s7') (staked 0 0 s7') true true s7'); vm_compute; done.
Qed.


(** Out of control Alice may end the delegation that already has to be taken back: it
    is subtracted a second time. *)
Example undelegating_twice : exists s', delegate_rc 0 0 [2] (set_control false s8) = Ok s' /\ delegated_rc (account_of 0 s') = -3000.
Proof. eexists. split; vm_compute; reflexivity. Qed.

Lemma stake_loss_cuts_delegations_witness : exists b, accounts s8 !! 0 = Some b /\ delegated_rc b = 0.
Proof.
  destruct (stake_loss_cuts_delegations s7 0 s7' (account_of 0 s7') (staked 0 0 s7') true s8 s7_reachable) as (b & Hb & _ & Hd & _);
    [vm_compute; reflexivity|vm_compute; reflexivity|vm_compute; done|by constructor|vm_compute; done|vm_compute; reflexivity|].
  exists b. split; [exact Hb|]. rewrite Hd. vm_compute. reflexivity.
Defined.

Lemma expired_delegations_cleared_witness : exists s', rounds 2 s8 = Ok s' /\ rc_expired s' = [].
Proof.
  apply (expired_delegations_cleared 2 s8 s8_reachable); [|vm_compute; reflexivity|vm_compute; reflexivity].
  change (map_Forall (fun _ a => maximum a < 2 ^ 49) (accounts s8)). apply (bool_decide_unpack _). vm_compute. exact I.
Defined.
End Sample.
