(* ===== verification/RcCosts.v ===== *)
(** * The price of resources

    Properties of the parts of ResourceCredits.v that price a transaction: the curve
    of a resource, the cost of a usage, the usage of the last day and the weights
    that follow from it; and the limit of the regeneration of RC. *)

From stdpp Require Import base numbers strings option list gmap.
From S2P Require Import Prelude Fc Config AssetSymbol Asset Resources ResourceCredits.
Open Scope Z_scope.

Section costs.
Context `{L : FcLib} `{!FcLaws L}.

(** ** The curve *)

Lemma validate_Ok g : gen_params_validate g = Ok tt ->
  0 < inelasticity_threshold_num g < inelasticity_threshold_denom g /\ inelasticity_threshold_denom g <= 65535 /\
  0 < a_point_num g < a_point_denom g /\ a_point_denom g <= 65535 /\ 0 < u_point_num g < u_point_denom g /\ u_point_denom g <= 65535.
Proof. unfold gen_params_validate. intros H. repeat (apply check_bind_Ok in H as [? H]). apply check_Ok in H. to_prop. lia. Qed.

(** A number brought to 64 bits. *)
Lemma normalise_range a : 0 < a < 2 ^ 64 -> 0 <= 63 - Z.log2 a /\ 2 ^ 63 <= Z.shiftl a (63 - Z.log2 a) < 2 ^ 64.
Proof.
  intros Ha. pose proof (Z.log2_spec a ltac:(lia)) as [H1 H2]. assert (0 <= Z.log2 a <= 63) as Hl by (split; [apply Z.log2_nonneg|apply Z.lt_succ_r, Z.log2_lt_pow2; lia]). split; [lia|].
  rewrite Z.shiftl_mul_pow2 by lia. set (k := Z.log2 a) in *. assert (2 ^ 63 = 2 ^ k * 2 ^ (63 - k)) as E1 by (rewrite <- Z.pow_add_r by lia; f_equal; lia).
  assert (2 ^ 64 = 2 ^ Z.succ k * 2 ^ (63 - k)) as E2 by (rewrite <- Z.pow_add_r by lia; f_equal; lia). assert (0 < 2 ^ (63 - k)) by (apply Z.pow_pos_nonneg; lia). rewrite E1, E2. nia.
Qed.

(** Dividing after the shift loses no leading bit. *)
Lemma quotient_range a d : 0 < a < 2 ^ 64 -> 0 < d -> let s1 := 63 - Z.log2 a in let q := Z.shiftl a s1 / d in 0 < q -> let s2 := 63 - Z.log2 q in
  0 <= s2 <= 63 /\ 0 <= Z.shiftl a (s1 + s2) < 2 ^ 128 /\ 2 ^ 63 <= Z.shiftl a (s1 + s2) / d < 2 ^ 64.
Proof.
  intros Ha Hd s1 q Hq s2. pose proof (normalise_range a Ha) as [Hs1 HA]. fold s1 in Hs1, HA. set (A := Z.shiftl a s1) in *.
  assert (q <= A) as HqA by (apply Z.div_le_upper_bound; nia). pose proof (normalise_range q ltac:(lia)) as [Hs2 HQ]. fold s2 in Hs2, HQ.
  assert (s2 <= 63) as Hs2' by (unfold s2; pose proof (Z.log2_nonneg q); lia). rewrite <- Z.shiftl_shiftl by lia. fold A. rewrite (Z.shiftl_mul_pow2 q) in HQ by lia.
  rewrite Z.shiftl_mul_pow2 by lia. assert (0 < 2 ^ s2) as Hp by (apply Z.pow_pos_nonneg; lia). assert (2 ^ s2 <= 2 ^ 63) as Hp' by (apply Z.pow_le_mono_r; lia).
  split; [lia|]. split; [split; [nia|]; change (2 ^ 128) with (2 ^ 64 * 2 ^ 64); nia|].
  pose proof (Z.div_mod A d ltac:(lia)) as Hdm. fold q in Hdm. pose proof (Z.mod_pos_bound A d Hd) as Hm. split.
  - apply Z.div_le_lower_bound; [lia|]. nia.
  - apply Z.div_lt_upper_bound; [lia|].
    assert (q + 1 <= 2 ^ (Z.log2 q + 1)) as Hq1 by (pose proof (Z.log2_spec q Hq) as [_ H]; rewrite Z.add_1_r; lia).
    assert ((q + 1) * 2 ^ s2 <= 2 ^ 64) as Hq2.
    { assert (2 ^ 64 = 2 ^ (Z.log2 q + 1) * 2 ^ s2) as -> by (unfold s2; rewrite <- Z.pow_add_r by (pose proof (Z.log2_nonneg q); lia); f_equal; lia). nia. }
    assert (A * 2 ^ s2 < d * ((q + 1) * 2 ^ s2)) by nia. nia.
Qed.

(**  The curve of a resource is computed at full precision: for generator
    parameters that pass [validate], a decay of less than [2 ^ 31] and an equilibrium
    pool of 64 bits, the leading coefficient always has its highest bit set, so that
    64 significant bits enter every price, and nothing overflows on the way; the only
    failure is a shift smaller than that of the decay, which takes a shift of the
    decay of more than 31. *)
Theorem curve_full_precision rd g : gen_params_validate g = Ok tt -> 0 < decay_per_time_unit (decay_params rd) < 2 ^ 31 -> 0 <= pool_eq rd < 2 ^ 64 ->
  match generate_rc_curve_params rd g with
  | Ok p => 2 ^ 63 <= coeff_a p < 2 ^ 64 /\ coeff_b p = pool_eq rd * inelasticity_threshold_num g / inelasticity_threshold_denom g
  | Throw _ => 31 < decay_per_time_unit_denom_shift (decay_params rd)
  end.
Proof.
  intros Hv Hd Hp. apply validate_Ok in Hv as (V1 & V2 & V3 & V4 & V5 & V6). unfold generate_rc_curve_params. set (dp := decay_per_time_unit (decay_params rd)) in *.
  rewrite (proj2 (Z.ltb_lt 0 dp)) by lia. cbn [check mbind result_bind].
  assert (1 <= a_point_num g * (u_point_denom g - u_point_num g) < 2 ^ 32) as Hn by nia.
  assert (1 <= a_point_denom g * u_point_num g < 2 ^ 32) as Hm by nia. assert (1 <= a_point_denom g * u_point_num g * dp < 2 ^ 63) as Hmd by nia.
  rewrite (uwrap_id 64 (u_point_denom g - _)) by (unfold in_u; lia). rewrite (uwrap_id 64 (a_point_num g * _)), (uwrap_id 64 (a_point_denom g * u_point_num g)) by (unfold in_u; lia).
  rewrite (uwrap_id 64 (_ * dp)) by (unfold in_u; lia). rewrite !Z.max_l by lia. set (a := a_point_num g * _) in *. set (d := a_point_denom g * u_point_num g * dp) in *.
  pose proof (normalise_range a ltac:(lia)) as [Hs HA]. rewrite (uwrap_id 64 (Z.shiftl a _)) by (unfold in_u; lia). set (q := Z.shiftl a _ / d).
  assert (0 < q) as Hq by (apply Z.div_str_pos; lia). rewrite (proj2 (Z.eqb_neq q 0)) by lia. cbn [negb check mbind result_bind].
  pose proof (quotient_range a d ltac:(lia) ltac:(lia) Hq) as (H1 & H2 & H3). fold q in H1, H2, H3. cbv zeta.
  assert (0 <= Z.log2 a < 32) by (split; [apply Z.log2_nonneg|apply Z.log2_lt_pow2; lia]). rewrite (uwrap_id 8 (63 - Z.log2 q)) by (unfold in_u; lia). rewrite (uwrap_id 8 (63 - Z.log2 a + _)) by (unfold in_u; lia).
  unfold check. destruct (_ <=? _) eqn:Esh; to_prop; [|cbn [mbind result_bind]; lia]. cbn [mbind result_bind].
  rewrite (uwrap_id 128 (Z.shiftl a _)) by (unfold in_u; lia). rewrite (uint128_to_uint64_fits (Z.shiftl a _ / d)) by (unfold in_u; lia). cbn [mbind result_bind].
  rewrite (proj2 (Z.eqb_neq (inelasticity_threshold_denom g) 0)) by lia. cbn [negb mbind result_bind].
  rewrite (uwrap_id 128 (pool_eq rd)) by (unfold in_u; lia). rewrite (uwrap_id 128) by (unfold in_u; nia).
  assert (0 <= pool_eq rd * inelasticity_threshold_num g / inelasticity_threshold_denom g <= pool_eq rd) as Hb by (split; [apply Z.div_pos; nia|apply Z.div_le_upper_bound; nia]).
  rewrite uint128_to_uint64_fits by (unfold in_u; lia). cbn [mbind result_bind coeff_a coeff_b]. done.
Qed.

(** ** The cost of a usage *)

(** The price of one unit at an empty pool, times the inelasticity. *)
Definition unit_price (p : rc_price_curve_params) (rc_regen : Z) : Z := Z.shiftr (rc_regen * coeff_a p) (shift p) + 1.

Definition curve_ok (p : rc_price_curve_params) : Prop := 0 <= coeff_a p < 2 ^ 64 /\ 0 < coeff_b p < 2 ^ 64 /\ 0 <= shift p < 256.

(** The cost without overflow. *)
Lemma cost_of_value p pool n regen : curve_ok p -> 0 < regen < 2 ^ 63 -> 0 < n < 2 ^ 63 -> pool < 2 ^ 63 -> unit_price p regen * n < coeff_b p * (2 ^ 63 - 1) ->
  cost_of p pool n regen = Ok (unit_price p regen * n / (coeff_b p + Z.max pool 0) + 1) /\ 0 <= unit_price p regen * n / (coeff_b p + Z.max pool 0) < 2 ^ 63 - 1.
Proof.
  intros (Ha & Hb & Hs) Hr Hn Hpool Hlt. unfold cost_of. assert (0 <= regen * coeff_a p < 2 ^ 127) as Hra by (change (2 ^ 127) with (2 ^ 63 * 2 ^ 64); nia).
  rewrite (uwrap_id 128 (regen * _)) by (unfold in_u; lia). assert (0 <= Z.shiftr (regen * coeff_a p) (shift p) < 2 ^ 127) as Hsh.
  { rewrite Z.shiftr_div_pow2 by lia. assert (0 < 2 ^ shift p) by (apply Z.pow_pos_nonneg; lia). split; [apply Z.div_pos; lia|]. apply Z.div_lt_upper_bound; nia. }
  rewrite (uwrap_id 128 (Z.shiftr _ _ + 1)) by (unfold in_u; lia). fold (unit_price p regen). assert (0 < unit_price p regen) as Hu by (unfold unit_price; lia).
  rewrite (uwrap_id 128 (unit_price p regen * n)) by (unfold in_u; change (2 ^ 128) with (2 ^ 64 * 2 ^ 64); nia).
  assert ((if 0 <? pool then pool else 0) = Z.max pool 0) as -> by (destruct (0 <? pool) eqn:E; to_prop; lia).
  rewrite (uwrap_id 128 (coeff_b p + _)) by (unfold in_u; lia). rewrite (proj2 (Z.eqb_neq _ 0)) by lia. cbn [negb check mbind result_bind].
  assert (0 <= unit_price p regen * n / (coeff_b p + Z.max pool 0) < 2 ^ 63 - 1) as Hq by (split; [apply Z.div_pos; nia|apply Z.div_lt_upper_bound; nia]).
  rewrite uint128_to_uint64_fits by (unfold in_u; lia). cbn [mbind result_bind]. rewrite uwrap_id, swrap_id by (unfold in_u, in_s; lia). done.
Qed.

(**  The cost of a usage below the range of the amounts: it is always positive,
    grows with the usage and shrinks as the pool fills, a negative pool counts as an
    empty one, and giving a resource back is worth what using it costs. *)
Theorem cost_well_behaved p pool pool' n n' regen : curve_ok p -> 0 < regen < 2 ^ 63 -> 0 < n <= n' -> n' < 2 ^ 63 -> pool' <= pool < 2 ^ 63 ->
  unit_price p regen * n' < coeff_b p * (2 ^ 63 - 1) ->
  exists c c', compute_cost p pool n regen = Ok c /\ compute_cost p pool' n' regen = Ok c' /\ 1 <= c <= c' /\
    compute_cost p (Z.max pool 0) n regen = Ok c /\ compute_cost p pool (- n) regen = Ok (- c) /\ compute_cost p pool 0 regen = Ok 0.
Proof.
  intros Hc Hr Hn Hn' Hp Hlt. assert (0 < unit_price p regen) as Hu.
  { destruct Hc as (Ha & _ & Hs). unfold unit_price. rewrite Z.shiftr_div_pow2 by lia. pose proof (Z.div_pos (regen * coeff_a p) (2 ^ shift p) ltac:(nia) ltac:(apply Z.pow_pos_nonneg; lia)). lia. }
  assert (unit_price p regen * n < coeff_b p * (2 ^ 63 - 1)) as Hlt1 by nia.
  destruct (cost_of_value p pool n regen Hc Hr ltac:(lia) ltac:(lia) Hlt1) as [E1 R1]. destruct (cost_of_value p pool' n' regen Hc Hr ltac:(lia) ltac:(lia) Hlt) as [E2 R2].
  destruct (cost_of_value p (Z.max pool 0) n regen Hc Hr ltac:(lia) ltac:(lia) Hlt1) as [E3 _]. replace (Z.max (Z.max pool 0) 0) with (Z.max pool 0) in E3 by lia.
  assert (forall x k, 0 < k -> compute_cost p x k regen = cost_of p x k regen) as Hpos.
  { intros x k Hk. unfold compute_cost. rewrite (proj2 (Z.ltb_lt 0 regen)) by lia. cbn [check mbind result_bind]. rewrite (proj2 (Z.eqb_neq k 0)), (proj2 (Z.ltb_ge k 0)) by lia. done. }
  eexists _, _. rewrite !Hpos by lia. split; [exact E1|]. split; [exact E2|]. split; [|split; [exact E3|]].
  - destruct Hc as (_ & Hb & _). split; [lia|]. apply Z.add_le_mono_r. etrans; [apply Z.div_le_mono; [lia|]; apply (Z.mul_le_mono_nonneg_l n n'); lia|].
    apply Z.div_le_compat_l; [nia|lia].
  - unfold compute_cost. rewrite (proj2 (Z.ltb_lt 0 regen)) by lia. cbn [check mbind result_bind]. rewrite (proj2 (Z.eqb_neq (- n) 0)), (proj2 (Z.ltb_lt (- n) 0)) by lia.
    rewrite Z.opp_involutive, E1. cbn [mbind result_bind]. rewrite swrap_id by (unfold in_s; lia). done.
Qed.

(** ** The usage of the last day *)

(** What the buckets say of resource [r]. *)
Definition bucket_sum (r : nat) (buckets : list rc_usage_bucket_object) : Z := sumZ (fun b => nth r (bucket_usage b) 0) buckets.

Record window_ok (n : nat) (o : rc_pool_object) (buckets : list rc_usage_bucket_object) : Prop := {
  wn_lengths : length (pool_array o) = n /\ length (usage_in_window o) = n;
  wn_buckets : Forall (fun b => length (bucket_usage b) = n) buckets;
  wn_some : buckets <> [];
  wn_usage r : (r < n)%nat -> nth r (usage_in_window o) 0 = i64 (bucket_sum r buckets)
}.

Lemma add_each_length l d : length l = length d -> length (add_each l d) = length l.
Proof. intros H. unfold add_each. rewrite length_zip_with. lia. Qed.
Lemma add_each_nth l d r : (r < length l)%nat -> length l = length d -> nth r (add_each l d) 0 = i64 (nth r l 0 + nth r d 0).
Proof.
  revert d r. induction l as [|x l IH]; intros [|y d] r Hr Hl; cbn in *; [lia|lia|lia|]. destruct r as [|r]; [done|]. apply IH; lia.
Qed.

Lemma bucket_sum_app r l l' : bucket_sum r (l ++ l') = bucket_sum r l + bucket_sum r l'.
Proof. unfold bucket_sum. by rewrite sumZ_app. Qed.
Lemma bucket_sum_cons r b l : bucket_sum r (b :: l) = nth r (bucket_usage b) 0 + bucket_sum r l.
Proof. unfold bucket_sum. by rewrite sumZ_cons. Qed.

Lemma opp_nth l r : nth r (Z.opp <$> l) 0 = - nth r l 0.
Proof. exact (List.map_nth Z.opp l 0 r). Qed.

Lemma recalculate_keeps params o o' : recalculate_resource_weights params o = Ok o' -> pool_array o' = pool_array o /\ usage_in_window o' = usage_in_window o.
Proof. unfold recalculate_resource_weights. intros H. apply bind_Ok in H as (w & _ & H). by injection H as <-. Qed.

Lemma mapR_length {A B} (f : A -> result B) l bs : mapR f l = Ok bs -> length bs = length l.
Proof. intros H. apply mapR_Ok in H. symmetry. by eapply Forall2_length. Qed.

Lemma newest_bucket_split (buckets : list rc_usage_bucket_object) newest : last buckets = Some newest -> buckets = removelast buckets ++ [newest].
Proof.
  intros H. destruct buckets as [|b l]; [done|]. rewrite (List.app_removelast_last b) at 1 by done. do 2 f_equal.
  assert (forall d l', last l' = Some newest -> List.last l' d = newest) as Hl; [|by apply Hl].
  intros d l'. induction l' as [|x [|y l'] IH]; [done|by intros [= ->]|]. intros E. change (List.last (y :: l') d = newest). by apply IH.
Qed.

(**  The usage that weighs the resources is the usage of the buckets of the last
    day: the end of a block, which either adds to the newest bucket or drops the
    oldest and opens a new one, keeps the number of buckets and leaves the window the
    sum of the buckets, as 64-bit integers. *)
Theorem window_is_bucket_sum n now subsidies block_usage params o buckets o' buckets' : window_ok n o buckets -> length block_usage = n -> length params = n ->
  finalize_block now subsidies block_usage params o buckets = Ok (o', buckets') -> window_ok n o' buckets' /\ length buckets' = length buckets.
Proof.
  intros [[W1 W2] W3 W4 W5] Hbu Hpar H. unfold finalize_block in H. destruct (last buckets) as [newest|] eqn:El; [|done]. destruct buckets as [|oldest others] eqn:Eb; [done|]. rewrite <- Eb in *.
  cbv zeta in H. apply bind_Ok in H as (pools & Hpools & H). apply mapR_length in Hpools. rewrite length_imap, !length_zip_with in Hpools. apply bind_Ok in H as (o1 & Ho1 & H). injection H as <- <-.
  apply recalculate_keeps in Ho1 as [P1 P2]. cbn in P1, P2. apply newest_bucket_split in El. set (reset := _ <=? now) in *.
  assert (length (bucket_usage oldest) = n) as Lo by (rewrite Eb in W3; by apply Forall_cons in W3 as [? _]).
  assert (length (bucket_usage newest) = n) as Ln by (rewrite Forall_forall in W3; apply W3; rewrite El; apply elem_of_app; right; left).
  assert (length (if reset then add_each (usage_in_window o) (Z.opp <$> bucket_usage oldest) else usage_in_window o) = n) as Lu by (destruct reset; [rewrite add_each_length by (rewrite length_fmap; lia); done|done]).
  split; [constructor|].
  - rewrite P1, P2, add_each_length by lia. lia.
  - destruct reset; apply Forall_app; (split; [|apply Forall_singleton]); cbn.
    + rewrite Eb in W3. by apply Forall_cons in W3 as [_ ?].
    + done.
    + rewrite El in W3. by apply Forall_app in W3 as [W _].
    + rewrite add_each_length by lia. done.
  - destruct reset; by intros [_ ?]%app_eq_nil.
  - intros r Hr. rewrite P2, add_each_nth by lia. destruct reset.
    + rewrite add_each_nth by (rewrite ?length_fmap; lia). rewrite opp_nth, W5, Eb, bucket_sum_app, !bucket_sum_cons by done. rewrite swrap_add_l, <- Z.add_assoc, swrap_add_l. f_equal. change (bucket_sum r []) with 0. cbn [bucket_usage]. lia.
    + rewrite W5, El at 1 by done. rewrite !bucket_sum_app, !bucket_sum_cons. cbn [bucket_usage]. rewrite add_each_nth by lia. rewrite swrap_add_l. change (bucket_sum r []) with 0.
      rewrite !Z.add_0_r, swrap_add_r. f_equal. lia.
  - destruct reset; rewrite length_app; cbn; [rewrite Eb; cbn; lia|]. rewrite El at 2. rewrite length_app. done.
Qed.

(** ** The limit of regeneration *)

(**  Resource credits are regenerated without a cap on the time that passed, and
    what is regained must fit a signed 64-bit integer: an account with a large
    maximum that was idle for long and is not full cannot regenerate any more, so
    neither pay for a transaction nor have its stake changed. *)
Theorem long_idle_cannot_regenerate s i a : accounts s !! i = Some a -> account_ok (head_block_time s) a -> settled a -> head_block_time s < 2 ^ 32 ->
  current_mana (rc_manabar a) < last_max_rc a -> last_update_time (rc_manabar a) < head_block_time s ->
  2 ^ 63 <= last_max_rc a * (head_block_time s - last_update_time (rc_manabar a)) / HIVE_RC_REGEN_TIME < 2 ^ 64 ->
  regenerate_rc_mana i s = Throw AssertFc /\ forall c rc, use_account_rcs c (Some i) rc s = Throw AssertFc.
Proof.
  intros Ha O T Hn Hc Ht Hbig. pose proof O as [S A1 A2 A3 A4 A5 A6 A7].
  assert (regenerate_mana true (mk_mparams (maximum a) HIVE_RC_REGEN_TIME) (head_block_time s) (rc_manabar a) = Throw AssertFc) as Hr.
  { unfold settled in T. rewrite <- T. rewrite regenerate_uncapped by (cbn; unfold HIVE_RC_REGEN_TIME, HIVE_VOTING_MANA_REGENERATION_SECONDS; lia). cbn [max_mana regen_time].
    rewrite (proj2 (Z.leb_gt (last_max_rc a) _)), (proj2 (Z.eqb_neq (head_block_time s) _)) by lia. rewrite uint128_to_uint64_fits by (unfold in_u; lia). cbn [mbind result_bind].
    unfold check. rewrite (proj2 (Z.leb_gt _ int64_max)) by (unfold int64_max; lia). done. }
  unfold regenerate_rc_mana, use_account_rcs, get_account. rewrite Ha. cbn [mbind result_bind]. rewrite (settled_value _ _ O T). cbn [mbind result_bind]. split; [|intros c rc; by rewrite Hr].
  rewrite (proj2 (Z.eqb_eq _ _)) by (symmetry; exact T). cbn [mbind result_bind]. by rewrite Hr.
Qed.
End costs.

(** ** Samples *)

Module Sample.
#[local] Existing Instance fc_ref.
#[local] Existing Instance fc_ref_laws.

(** A resource with a half-life of about fifteen days. *)
Definition dynamics : rd_dynamics_params := mk_rd 1 404 1000000 2000000 (mk_decay 347321 36) 0.
Definition curve : rc_price_curve_params := match generate_rc_curve_params dynamics default_gen_params with Ok p => p | Throw _ => mk_curve 0 0 0 end.

Lemma curve_full_precision_witness : 2 ^ 63 <= coeff_a curve < 2 ^ 64 /\ coeff_b curve = 7812.
Proof.
  assert (gen_params_validate default_gen_params = Ok tt) as V by (vm_compute; reflexivity).
  pose proof (curve_full_precision dynamics default_gen_params V ltac:(cbn; lia) ltac:(cbn; lia)) as H. unfold curve.
  destruct (generate_rc_curve_params dynamics default_gen_params) as [p|e] eqn:E; [|vm_compute in E; discriminate E]. split; [exact (proj1 H)|]. rewrite (proj2 H). vm_compute. reflexivity.
Defined.

Lemma cost_well_behaved_witness : exists c c', compute_cost curve 500 10 1000 = Ok c /\ compute_cost curve (-3) 20 1000 = Ok c' /\ 1 <= c <= c'.
Proof.
  destruct (cost_well_behaved curve 500 (-3) 10 20 1000) as (c & c' & H1 & H2 & H3 & _); [repeat split; vm_compute; done|lia|lia|lia|lia|vm_compute; reflexivity|].
  exists c, c'. split; [exact H1|]. split; [exact H2|exact H3].
Defined.

Definition resource : rc_resource_params := mk_resource dynamics curve.
Definition pool0 : rc_pool_object := mk_pool [1000; 20; 700] [9; 0; 30] [404; 404; 404] [1; 1; 1] 2.
Definition buckets0 : list rc_usage_bucket_object := [mk_bucket 0 [4; 0; 10]; mk_bucket 3600 [5; 0; 20]].

(** The oldest bucket goes, the window is what is left and the block. *)
Lemma window_is_bucket_sum_witness : exists o b, finalize_block 7200 15 [1; 1; 2] [resource; resource; resource] pool0 buckets0 = Ok (o, b) /\ length b = 2%nat /\ usage_in_window o = [6; 1; 22].
Proof.
  eexists _, _. split; [vm_compute; reflexivity|]. split; [|vm_compute; reflexivity].
  refine (proj2 (window_is_bucket_sum 3 7200 15 [1; 1; 2] [resource; resource; resource] pool0 buckets0 _ _ _ eq_refl eq_refl _)); [|vm_compute; reflexivity].
  split; [done|repeat constructor|done|]. intros r Hr. destruct r as [|[|[|r]]]; [vm_compute; reflexivity..|lia].
Defined.

(** A maximum of [2 ^ 57] RC, one spent, and a year and a half without a transaction (320 days are enough). *)
Definition whale : account := mk_rca "whale" (2 ^ 57) 0 0 0 0 0 max_time (mk_manabar 0 0) (mk_manabar 0 0) (mk_manabar (2 ^ 57 - 1) 1700000000) 0 0 0 (2 ^ 57).
Definition idle : rc_state := mk_rcs {[7 := whale]} [] [] 1747304000 true false 200 (mk_tiny 3000) (mk_tprice (mk_tiny 1000) (mk_tiny 1000)) 0.

Lemma long_idle_cannot_regenerate_witness : regenerate_rc_mana 7 idle = Throw AssertFc.
Proof.
  refine (proj1 (long_idle_cannot_regenerate idle 7 whale _ _ _ _ _ _ _)); [vm_compute; reflexivity| |vm_compute; reflexivity..|vm_compute; split; [discriminate|reflexivity]].
  constructor; [constructor|..]; vm_compute; repeat split; discriminate.
Defined.
End Sample.
