(* ===== verification/Delegations.v ===== *)
(** * Delegations of vesting shares and power downs

    Models delegate_vesting_shares_evaluator, withdraw_vesting_evaluator and
    set_withdraw_vesting_route_evaluator (hive_evaluator_transfer.cpp) and
    clear_expired_delegations (database.cpp) on the accounts of ResourceCredits.v,
    with the calls into the resource credits.

    Hardforks up to 28 are active.  An operation names accounts by their ids. *)

From stdpp Require Import base numbers strings option list gmap.
From S2P Require Import Prelude Fc Config AssetSymbol Asset Resources Ledger Transfers ResourceCredits RcInvariant.
Open Scope Z_scope.

(** ** State *)

Record vesting_delegation_object : Set := mk_vd { delegator : Z; delegatee : Z; min_delegation_time : Z; vd_shares : Z }.
Record vesting_delegation_expiration_object : Set := mk_vde { vde_delegator : Z; vde_shares : Z; expiration : Z }.
Record withdraw_vesting_route_object : Set := mk_route { from_account : Z; to_account : Z; percent : Z; auto_vest : bool }.

(** [vd_expirations] is the index [by_expiration]; [withdraw_routes] is that field of
    the accounts, zero where it has no entry; [returned] are the virtual operations
    [return_vesting_delegation], the newest first. *)
Record stake_state : Set := mk_stake {
  rc : rc_state;
  vesting_delegations : list vesting_delegation_object;
  vd_expirations : list vesting_delegation_expiration_object;
  withdraw_vesting_routes : list withdraw_vesting_route_object;
  withdraw_routes : gmap Z Z;
  downvote_pool_percent : Z;
  delegation_return_period : Z;
  returned : list (string * Z)
}.
Definition set_rc_state x s := mk_stake x (vesting_delegations s) (vd_expirations s) (withdraw_vesting_routes s) (withdraw_routes s)
  (downvote_pool_percent s) (delegation_return_period s) (returned s).
Definition set_vesting_delegations x s := mk_stake (rc s) x (vd_expirations s) (withdraw_vesting_routes s) (withdraw_routes s)
  (downvote_pool_percent s) (delegation_return_period s) (returned s).
Definition set_expirations x s := mk_stake (rc s) (vesting_delegations s) x (withdraw_vesting_routes s) (withdraw_routes s)
  (downvote_pool_percent s) (delegation_return_period s) (returned s).
Definition set_routes x n s := mk_stake (rc s) (vesting_delegations s) (vd_expirations s) x n
  (downvote_pool_percent s) (delegation_return_period s) (returned s).
Definition push_returned x s := mk_stake (rc s) (vesting_delegations s) (vd_expirations s) (withdraw_vesting_routes s) (withdraw_routes s)
  (downvote_pool_percent s) (delegation_return_period s) (x :: returned s).

(** ** Indices *)

Definition is_delegation (from to : Z) (d : vesting_delegation_object) : bool := (delegator d =? from) && (delegatee d =? to).
Definition find_vd (from to : Z) (s : stake_state) : option vesting_delegation_object := List.find (is_delegation from to) (vesting_delegations s).

Definition delegation_before (x y : vesting_delegation_object) : bool :=
  (delegator x <? delegator y) || ((delegator x =? delegator y) && (delegatee x <? delegatee y)).
Fixpoint insert_vd (d : vesting_delegation_object) (l : list vesting_delegation_object) : list vesting_delegation_object :=
  match l with
  | [] => [d]
  | x :: l' => if delegation_before d x then d :: l else x :: insert_vd d l'
  end.

(** A new object has the highest id, so it comes after those of the same time. *)
Fixpoint insert_expiration (e : vesting_delegation_expiration_object) (l : list vesting_delegation_expiration_object) : list vesting_delegation_expiration_object :=
  match l with
  | [] => [e]
  | x :: l' => if expiration e <? expiration x then e :: l else x :: insert_expiration e l'
  end.

Section stake_ops.
Context `{L : FcLib}.

(** [set_vesting] of a delegation. *)
Definition set_vesting (from to v : Z) (s : stake_state) : result stake_state :=
  _ ← check (0 <? v) AssertFc;
  Ok (set_vesting_delegations
        ((fun d => if is_delegation from to d then mk_vd from to (min_delegation_time d) v else d) <$> vesting_delegations s) s).
Definition remove_vd (from to : Z) (s : stake_state) : stake_state :=
  set_vesting_delegations (filter (fun d => is_delegation from to d = false) (vesting_delegations s)) s.

(** ** Voting mana *)

(** [update_manabar] of an account. *)
Definition update_vote_mana (dpp now new_mana : Z) (a : account) : result account :=
  e ← get_effective_vesting_shares a;
  '(v, d) ← update_manabar e now dpp new_mana (voting_manabar a) (downvote_manabar a);
  Ok (set_vote_mana v d a).

(** The mana of shares that leave the account. *)
Definition use_vote_mana (dpp shares : Z) (a : account) : result account :=
  d ← uint128_to_int64 (u128 (u128 shares * dpp) / HIVE_100_PERCENT);
  Ok (set_vote_mana (use_mana shares 0 (voting_manabar a)) (use_mana d 0 (downvote_manabar a)) a).

(** ** Delegating *)

Definition available_downvote (dpp : Z) (a : account) : result Z :=
  if dpp =? 0 then Ok (current_mana (voting_manabar a))
  else uint128_to_int64 (u128 (u128 (u128 (current_mana (downvote_manabar a)) * HIVE_100_PERCENT) / dpp + (HIVE_100_PERCENT / dpp) - 1)).

(** The shares and the downvote shares an account can delegate; its voting mana is up
    to date, and [max_mana] is its effective stake. *)
Definition available (dpp max_mana : Z) (a : account) : result (Z * Z) :=
  let shares := current_mana (voting_manabar a) in
  downvote_shares ← available_downvote dpp a;
  own ← safe_sub max_mana (received_vesting_shares a);
  let shares := Z.min shares own in
  let downvote_shares := Z.min downvote_shares own in
  if has_active_power_down a then
    t ← get_total_vesting_withdrawal a;
    if vesting_withdraw_rate a <? t then
      weekly_withdraw ← get_next_vesting_withdrawal a;
      delta ← safe_sub weekly_withdraw t;
      shares ← safe_add shares delta;
      downvote_shares ← safe_add downvote_shares delta;
      Ok (shares, downvote_shares)
    else Ok (shares, downvote_shares)
  else Ok (shares, downvote_shares).

Definition min_update (s : rc_state) : result Z :=
  v ← tiny_mul_quote (mk_tiny (Z.quot (tamount (account_creation_fee s)) 30)) (vesting_share_price s); Ok (tamount v).

(** [delta] more shares go from the delegator to the delegatee. *)
Definition give (dpp from to delta : Z) (r : rc_state) : result rc_state :=
  a ← get_account from r;
  d ← safe_add (delegated_vesting_shares a) delta;
  a ← use_vote_mana dpp delta (set_shares (vesting_shares a) d (received_vesting_shares a) a);
  let r := put_account from a r in
  b ← get_account to r;
  b ← update_vote_mana dpp (head_block_time r) delta b;
  v ← safe_add (received_vesting_shares b) delta;
  Ok (put_account to (set_shares (vesting_shares b) (delegated_vesting_shares b) v b) r).

(** [delta] shares leave the delegatee. *)
Definition take_back (dpp to delta : Z) (r : rc_state) : result rc_state :=
  b ← get_account to r;
  b ← update_vote_mana dpp (head_block_time r) 0 b;
  v ← safe_sub (received_vesting_shares b) delta;
  b ← use_vote_mana dpp delta (set_shares (vesting_shares b) (delegated_vesting_shares b) v b);
  Ok (put_account to b r).

Definition delegate_vesting_shares (from to shares : Z) (s : stake_state) : result stake_state :=
  a ← get_account from (rc s);
  _ ← assert_not_pixa_ico (name a);
  _ ← get_account to (rc s);
  let dpp := downvote_pool_percent s in
  r ← regenerate_rc_mana from (rc s);
  r ← regenerate_rc_mana to r;
  a ← get_account from r;
  max_mana ← get_effective_vesting_shares a;
  a ← update_vote_mana dpp (head_block_time r) 0 a;
  let r := put_account from a r in
  '(available_shares, available_downvote_shares) ← available dpp max_mana a;
  min_delegation ← min_rc_delegation r;
  min_upd ← min_update r;
  s ← match find_vd from to s with
      | None =>
          _ ← check (shares <=? available_shares) AssertBalance;
          _ ← check (shares <=? available_downvote_shares) AssertBalance;
          _ ← check (min_delegation <=? shares) AssertLimit;
          r ← give dpp from to shares r;
          Ok (set_rc_state r (set_vesting_delegations (insert_vd (mk_vd from to (head_block_time r) shares) (vesting_delegations s)) s))
      | Some d =>
          if vd_shares d <=? shares then
            delta ← safe_sub shares (vd_shares d);
            _ ← check (min_upd <=? delta) AssertLimit;
            _ ← check (delta <=? available_shares) AssertBalance;
            _ ← check (delta <=? available_downvote_shares) AssertBalance;
            r ← give dpp from to delta r;
            set_vesting from to shares (set_rc_state r s)
          else
            delta ← safe_sub (vd_shares d) shares;
            _ ← (if 0 <? shares then _ ← check (min_upd <=? delta) AssertLimit; check (min_delegation <=? shares) AssertLimit
                 else check (0 <? vd_shares d) AssertState);
            let e := mk_vde from delta (Z.max (u32 (head_block_time r + delegation_return_period s)) (min_delegation_time d)) in
            let s := set_expirations (insert_expiration e (vd_expirations s)) s in
            r ← take_back dpp to delta r;
            let s := set_rc_state r s in
            if 0 <? shares then set_vesting from to shares s else Ok (remove_vd from to s)
      end;
  r ← update_account_after_vest_change from true true (rc s);
  r ← update_account_after_vest_change to true true r;
  Ok (set_rc_state r s).

(** ** Returning *)

(** One object that expired. *)
Definition return_delegation (e : vesting_delegation_expiration_object) (s : stake_state) : result stake_state :=
  let i := vde_delegator e in
  r ← regenerate_rc_mana i (rc s);
  a ← get_account i r;
  b ← update_vote_mana (downvote_pool_percent s) (head_block_time r) (vde_shares e) a;
  d ← safe_sub (delegated_vesting_shares b) (vde_shares e);
  let r := put_account i (set_shares (vesting_shares b) d (received_vesting_shares b) b) r in
  r ← update_account_after_vest_change i true false r;
  Ok (push_returned (name a, vde_shares e) (set_rc_state r s)).

Fixpoint clear_expirations (index : list vesting_delegation_expiration_object) (s : stake_state) : result stake_state :=
  match index with
  | [] => Ok (set_expirations [] s)
  | e :: index' =>
      if expiration e <? head_block_time (rc s) then s ← return_delegation e s; clear_expirations index' s
      else Ok (set_expirations index s)
  end.
Definition clear_expired_delegations (s : stake_state) : result stake_state := clear_expirations (vd_expirations s) s.

(** ** Power down *)

Definition withdraw_rate (shares : Z) : result Z :=
  let rate := Z.quot shares HIVE_VESTING_WITHDRAW_INTERVALS in
  let rate := if rate =? 0 then 1 else rate in
  p ← safe_mul rate HIVE_VESTING_WITHDRAW_INTERVALS;
  if p <? shares then safe_add rate 1 else Ok rate.

Definition withdraw_vesting (i shares : Z) (s : stake_state) : result stake_state :=
  a ← get_account i (rc s);
  _ ← assert_not_pixa_ico (name a);
  _ ← check (0 <=? shares) AssertFc;
  _ ← check (0 <=? vesting_shares a) AssertBalance;
  own ← safe_sub (vesting_shares a) (delegated_vesting_shares a);
  _ ← check (shares <=? own) AssertBalance;
  r ← regenerate_rc_mana i (rc s);
  a ← get_account i r;
  a ← (if shares =? 0 then
         _ ← check (has_active_power_down a) AssertState;
         Ok (set_power_down 0 0 0 max_time a)
       else
         rate ← withdraw_rate shares;
         _ ← check (negb (vesting_withdraw_rate a =? rate)) AssertState;
         Ok (set_power_down rate shares 0 (u32 (head_block_time r + HIVE_VESTING_WITHDRAW_INTERVAL_SECONDS)) a));
  r ← update_account_after_vest_change i false true (put_account i a r);
  Ok (set_rc_state r s).

(** ** Routes of a power down *)

Definition routes_of (i : Z) (s : stake_state) : Z := default 0 (withdraw_routes s !! i).
Definition is_route (from to : Z) (x : withdraw_vesting_route_object) : bool := (from_account x =? from) && (to_account x =? to).
Definition total_percent (from : Z) (l : list withdraw_vesting_route_object) : Z :=
  foldl (fun t x => if from_account x =? from then u16 (t + percent x) else t) 0 l.

Definition set_withdraw_vesting_route (from to pct : Z) (vest : bool) (s : stake_state) : result stake_state :=
  _ ← get_account from (rc s);
  b ← get_account to (rc s);
  let routes := withdraw_vesting_routes s in
  _ ← check (negb (is_treasury (name b))) AssertTreasury;
  s ← match List.find (is_route from to) routes with
      | None =>
          _ ← check (negb (pct =? 0)) AssertState;
          _ ← check (routes_of from s <? HIVE_MAX_WITHDRAW_ROUTES) AssertLimit;
          Ok (set_routes (routes ++ [mk_route from to pct vest]) (<[from := u16 (routes_of from s + 1)]> (withdraw_routes s)) s)
      | Some _ =>
          if pct =? 0
          then Ok (set_routes (filter (fun x => is_route from to x = false) routes) (<[from := u16 (routes_of from s - 1)]> (withdraw_routes s)) s)
          else Ok (set_routes ((fun x => if is_route from to x then mk_route from to pct vest else x) <$> routes) (withdraw_routes s) s)
      end;
  _ ← check (total_percent from (withdraw_vesting_routes s) <=? HIVE_100_PERCENT) AssertLimit;
  Ok s.
End stake_ops.
