(* ===== verification/DelegationBooks.v ===== *)
(** * The books of delegated vesting shares

    What each operation of Delegations.v keeps: what an account delegated is what its
    delegations and those on their way back add up to, what it received is what others
    delegate to it, the shares it delegates or powers down are covered by the shares it
    owns, and the books of resource credits stay exact under these changes of stake. *)

From stdpp Require Import base numbers strings option list gmap.
From S2P Require Import Prelude Fc Config AssetSymbol Asset Resources Ledger Transfers ResourceCredits RcInvariant Delegations.
Open Scope Z_scope.

(** ** Stakes *)

Lemma erase_shares a : shares_ok (erase a) -> shares_ok a.
Proof. intros []. by constructor. Qed.

(** What is left of a power down. *)
Definition remaining (a : account) : Z := if has_active_power_down a then to_withdraw a - withdrawn a else 0.
Definition down_ok (a : account) : Prop := 0 <= vesting_withdraw_rate a /\ 0 <= withdrawn a <= to_withdraw a /\ to_withdraw a < 2 ^ 62.

(** Voting mana is not negative and of the past. *)
Definition bar_ok (now : Z) (b : manabar) : Prop := 0 <= current_mana b < 2 ^ 63 /\ 0 <= last_update_time b <= now.
Definition bars_ok (now : Z) (a : account) : Prop := bar_ok now (voting_manabar a) /\ bar_ok now (downvote_manabar a).

Definition out_sum (i : Z) (l : list vesting_delegation_object) : Z := sumZ (fun d => if delegator d =? i then vd_shares d else 0) l.
Definition in_sum (i : Z) (l : list vesting_delegation_object) : Z := sumZ (fun d => if delegatee d =? i then vd_shares d else 0) l.
Definition exp_sum (i : Z) (l : list vesting_delegation_expiration_object) : Z := sumZ (fun e => if vde_delegator e =? i then vde_shares e else 0) l.
Definition vkey (d : vesting_delegation_object) : Z * Z := (delegator d, delegatee d).
Definition total_vests (m : gmap Z account) : Z := sumZ (fun x => vesting_shares x.2) (map_to_list m).

Definition vd_ok (d : vesting_delegation_object) : Prop := 0 <= vd_shares d < 2 ^ 62 /\ delegator d <> delegatee d.

(** The account [i] in the books. *)
Record account_books (now i : Z) (a : account) (vds : list vesting_delegation_object) (exps : list vesting_delegation_expiration_object) : Prop := {
  ab_delegated : delegated_vesting_shares a = out_sum i vds + exp_sum i exps;
  ab_received : received_vesting_shares a = in_sum i vds;
  ab_vests : 0 <= vesting_shares a;
  ab_covered : delegated_vesting_shares a + remaining a <= vesting_shares a;
  ab_down : down_ok a;
  ab_bars : bars_ok now a
}.

(** The books of all stakes [m]. *)
Record stake_books (now : Z) (m : gmap Z account) (vds : list vesting_delegation_object) (exps : list vesting_delegation_expiration_object) : Prop := {
  vb_vds : Forall vd_ok vds;
  vb_keys : NoDup (vkey <$> vds);
  vb_exist k : k ∈ vkey <$> vds -> is_Some (m !! k.1) /\ is_Some (m !! k.2);
  vb_exps : Forall (fun e => 0 <= vde_shares e < 2 ^ 62 /\ is_Some (m !! vde_delegator e)) exps;
  vb_account i a : m !! i = Some a -> account_books now i a vds exps;
  vb_total : total_vests m < 2 ^ 62
}.

Lemma total_delete m i a : m !! i = Some a -> total_vests m = vesting_shares a + total_vests (delete i m).
Proof.
  intros H. unfold total_vests. rewrite <- (insert_delete_id m i a H) at 1. rewrite (sumZ_perm _ _ _ (map_to_list_insert (delete i m) i a (lookup_delete_eq m i))). by rewrite sumZ_cons.
Qed.
Lemma total_insert m i a a' : m !! i = Some a -> vesting_shares a' = vesting_shares a -> total_vests (<[i := a']> m) = total_vests m.
Proof.
  intros H E. rewrite (total_delete m i a H), (total_delete (<[i := a']> m) i a' (lookup_insert_eq m i a')), delete_insert_eq. by rewrite E.
Qed.

Lemma out_sum_nonneg i l : Forall vd_ok l -> 0 <= out_sum i l.
Proof. intros H. apply sumZ_nonneg. eapply Forall_impl; [exact H|]. intros d [? _]. destruct (_ =? _); lia. Qed.
Lemma in_sum_nonneg i l : Forall vd_ok l -> 0 <= in_sum i l.
Proof. intros H. apply sumZ_nonneg. eapply Forall_impl; [exact H|]. intros d [? _]. destruct (_ =? _); lia. Qed.
Lemma exp_sum_nonneg i (l : list vesting_delegation_expiration_object) : Forall (fun e => 0 <= vde_shares e) l -> 0 <= exp_sum i l.
Proof. intros H. apply sumZ_nonneg. eapply Forall_impl; [exact H|]. intros d ?. cbn in *. destruct (_ =? _); lia. Qed.

Lemma remaining_nonneg a : down_ok a -> 0 <= weekly a <= remaining a.
Proof. intros (H1 & H2 & _). unfold weekly, remaining. destruct (has_active_power_down a); lia. Qed.

Section books.
Context (now : Z) (m : gmap Z account) (vds : list vesting_delegation_object) (exps : list vesting_delegation_expiration_object).
Hypothesis B : stake_books now m vds exps.

Lemma delegated_parts i a : m !! i = Some a -> 0 <= out_sum i vds /\ 0 <= exp_sum i exps /\ out_sum i vds <= delegated_vesting_shares a <= vesting_shares a.
Proof.
  intros H. destruct (vb_account _ _ _ _ B i a H) as [A1 A2 A3 A4 A5 A6]. pose proof (out_sum_nonneg i vds (vb_vds _ _ _ _ B)).
  assert (0 <= exp_sum i exps) by (apply exp_sum_nonneg; eapply Forall_impl; [apply B|]; intros e [? _]; cbn; lia).
  pose proof (remaining_nonneg a A5). lia.
Qed.

(** What [i] received, others own. *)
Lemma received_total i a : m !! i = Some a -> vesting_shares a + in_sum i vds <= total_vests m.
Proof.
  intros H. rewrite (total_delete m i a H). apply Z.add_le_mono_l. unfold total_vests. set (l := map_to_list (delete i m)).
  transitivity (sumZ (fun x => out_sum x.1 vds) l).
  - unfold out_sum. rewrite sumZ_swap. apply sumZ_le. intros d Hd. pose proof (vb_vds _ _ _ _ B) as F. rewrite Forall_forall in F. destruct (F d Hd) as [Hv Hne].
    destruct (delegatee d =? i) eqn:E; to_prop; [|apply sumZ_nonneg, Forall_forall; intros x _; destruct (_ =? _); lia].
    destruct (vb_exist _ _ _ _ B (vkey d)) as [[b Hb] _]; [by apply list_elem_of_fmap_2|]. cbn in Hb.
    assert ((delegator d, b) ∈ l) as Hl by (apply elem_of_map_to_list; rewrite lookup_delete_ne by congruence; done).
    pose proof (sumZ_member (fun x => if delegator d =? x.1 then vd_shares d else 0) l _ ltac:(intros y _; cbv beta; destruct (_ =? _); lia) Hl) as Hm. cbn in Hm. rewrite Z.eqb_refl in Hm. exact Hm.
  - apply sumZ_le. intros [j b] Hj. apply elem_of_map_to_list in Hj. cbn. destruct (decide (j = i)) as [->|Hne]; [by rewrite lookup_delete_eq in Hj|]. rewrite lookup_delete_ne in Hj by congruence.
    pose proof (delegated_parts j b Hj). lia.
Qed.

(** The books bound the fields of an account, and leave it a stake. *)
Lemma books_shares i a : m !! i = Some a -> shares_ok a /\ received_vesting_shares a <= effective a.
Proof.
  intros H. pose proof (received_total i a H) as Ht. pose proof (delegated_parts i a H) as (D1 & D2 & D3). destruct (vb_account _ _ _ _ B i a H) as [A1 A2 A3 A4 A5 A6].
  pose proof (vb_total _ _ _ _ B). pose proof (in_sum_nonneg i vds (vb_vds _ _ _ _ B)). pose proof (remaining_nonneg a A5). destruct A5 as (C1 & C2 & C3). split; [constructor; lia|]. unfold effective. lia.
Qed.
End books.

(** *** Changes of the index *)

(** The delegation of [from] to [to] changes from [v0] to [v]; zero stands for none. *)
Record vd_replaced (from to v0 v : Z) (vds vds' : list vesting_delegation_object) : Prop := {
  vr_out j : out_sum j vds' = out_sum j vds + if j =? from then v - v0 else 0;
  vr_in j : in_sum j vds' = in_sum j vds + if j =? to then v - v0 else 0;
  vr_ok : Forall vd_ok vds';
  vr_unique : NoDup (vkey <$> vds');
  vr_old k : k ∈ vkey <$> vds' -> k = (from, to) \/ k ∈ vkey <$> vds
}.

Lemma replaced_perm from to old new rest v0 v vds vds' : from <> to -> Forall vd_ok vds -> NoDup (vkey <$> vds) -> vds ≡ₚ old ++ rest -> vds' ≡ₚ new ++ rest ->
  (from, to) ∉ vkey <$> rest -> (old = [] /\ v0 = 0 \/ exists t, old = [mk_vd from to t v0]) -> (new = [] /\ v = 0 \/ exists t, new = [mk_vd from to t v]) -> 0 <= v < 2 ^ 62 ->
  vd_replaced from to v0 v vds vds'.
Proof.
  intros Hne F N El El' Hk Hold Hnew Hv.
  assert (forall j l x, (l = [] /\ x = 0 \/ exists t, l = [mk_vd from to t x]) -> out_sum j l = (if j =? from then x else 0) /\ in_sum j l = (if j =? to then x else 0)) as Hs.
  { intros j l x [[-> ->]|[t ->]]; [by destruct (j =? from), (j =? to)|]. unfold out_sum, in_sum. rewrite !sumZ_cons. cbn. rewrite (Z.eqb_sym j from), (Z.eqb_sym j to). destruct (from =? j), (to =? j); lia. }
  rewrite El in F, N. apply Forall_app in F as [_ F]. rewrite fmap_app in N. apply NoDup_app in N as (_ & _ & N). constructor.
  - intros j. unfold out_sum. rewrite El, El', !sumZ_app. fold (out_sum j old) (out_sum j new). rewrite (proj1 (Hs j old v0 Hold)), (proj1 (Hs j new v Hnew)). destruct (j =? from); lia.
  - intros j. unfold in_sum. rewrite El, El', !sumZ_app. fold (in_sum j old) (in_sum j new). rewrite (proj2 (Hs j old v0 Hold)), (proj2 (Hs j new v Hnew)). destruct (j =? to); lia.
  - rewrite El'. apply Forall_app. split; [|done]. destruct Hnew as [[-> _]|[t ->]]; [done|]. apply Forall_singleton. by split.
  - rewrite El', fmap_app. destruct Hnew as [[-> _]|[t ->]]; [done|]. cbn. by apply NoDup_cons.
  - intros k. rewrite El, El', !fmap_app, !elem_of_app. intros [H|H]; [left|by right; right]. destruct Hnew as [[-> _]|[t ->]]; [by apply elem_of_nil in H|]. by apply list_elem_of_singleton in H.
Qed.

Lemma is_delegation_true from to d : is_delegation from to d = true <-> vkey d = (from, to).
Proof. unfold is_delegation, vkey. destruct (delegator d =? from) eqn:E1, (delegatee d =? to) eqn:E2; to_prop; cbn; naive_solver. Qed.

Lemma insert_vd_perm d l : insert_vd d l ≡ₚ d :: l.
Proof. induction l as [|x l IH]; cbn; [done|]. destruct (delegation_before d x); [done|]. rewrite IH. apply perm_swap. Qed.

Lemma insert_expiration_perm e l : insert_expiration e l ≡ₚ e :: l.
Proof. induction l as [|x l IH]; cbn; [done|]. destruct (_ <? _); [done|]. rewrite IH. apply perm_swap. Qed.

(** The index without the delegation of [from] to [to]. *)
Lemma find_vd_Some from to s d : NoDup (vkey <$> vesting_delegations s) -> find_vd from to s = Some d ->
  let rest := filter (fun x => is_delegation from to x = false) (vesting_delegations s) in
  d = mk_vd from to (min_delegation_time d) (vd_shares d) /\ d ∈ vesting_delegations s /\ (from, to) ∉ vkey <$> rest /\ vesting_delegations s ≡ₚ [d] ++ rest /\
  forall v, (fun x => if is_delegation from to x then mk_vd from to (min_delegation_time x) v else x) <$> vesting_delegations s ≡ₚ [mk_vd from to (min_delegation_time d) v] ++ rest.
Proof.
  intros N H rest. apply List.find_some in H as [Hin Hk]. apply list_elem_of_In in Hin.
  destruct (unique_split vkey (is_delegation from to) (vesting_delegations s) d N Hin Hk) as [E1 E2].
  { intros y _ Hy. apply is_delegation_true in Hk, Hy. congruence. }
  apply is_delegation_true in Hk. split_and!; [|done| |done|].
  - unfold vkey in Hk. destruct d. cbn in *. by injection Hk as -> ->.
  - intros H. apply list_elem_of_fmap in H as (x & Hx & H). apply list_elem_of_filter in H as [H _]. symmetry in Hx. apply is_delegation_true in Hx. congruence.
  - intros v. apply (E2 (fun x => mk_vd from to (min_delegation_time x) v)).
Qed.
Lemma find_vd_None from to s : find_vd from to s = None -> (from, to) ∉ vkey <$> vesting_delegations s.
Proof.
  intros E H. apply list_elem_of_fmap in H as (x & Hx & H). apply list_elem_of_In in H. apply (List.find_none _ _ E) in H. symmetry in Hx. apply is_delegation_true in Hx. congruence.
Qed.

(** *** Changes of the stakes *)

(** The accounts of the delegator and of the delegatee after a change by [v - v0], of
    which [x] is on its way back. *)
Lemma books_pair now m vds exps vds' exps' from to v0 v x a b a' b' : stake_books now m vds exps -> from <> to -> vd_replaced from to v0 v vds vds' ->
  exps' = exps /\ x = 0 \/ (exists t, exps' ≡ₚ mk_vde from x t :: exps) /\ 0 <= x < 2 ^ 62 ->
  m !! from = Some a -> m !! to = Some b ->
  delegated_vesting_shares a' = delegated_vesting_shares a + (v - v0) + x -> received_vesting_shares a' = received_vesting_shares a -> vesting_shares a' = vesting_shares a ->
  delegated_vesting_shares a' + remaining a' <= vesting_shares a' -> down_ok a' -> bars_ok now a' ->
  received_vesting_shares b' = received_vesting_shares b + (v - v0) -> delegated_vesting_shares b' = delegated_vesting_shares b -> vesting_shares b' = vesting_shares b ->
  remaining b' = remaining b -> down_ok b' -> bars_ok now b' ->
  stake_books now (<[to := b']> (<[from := a']> m)) vds' exps'.
Proof.
  intros [B1 B2 B3 B4 B5 B6] Hne [R1 R2 R3 R4 R5] Hx Ha Hb D1 D2 D3 D4 D5 D6 E1 E2 E3 E4 E5 E6.
  assert (forall j, is_Some (m !! j) -> is_Some (<[to := b']> (<[from := a']> m) !! j)) as Hdom.
  { intros j Hj. destruct (decide (j = to)) as [->|]; [rewrite lookup_insert_eq; by eexists|rewrite lookup_insert_ne by done].
    destruct (decide (j = from)) as [->|]; [rewrite lookup_insert_eq; by eexists|by rewrite lookup_insert_ne by done]. }
  assert (forall j, exp_sum j exps' = exp_sum j exps + if j =? from then x else 0) as Hexp.
  { intros j. destruct Hx as [[-> ->]|[[t Ht] _]]; [destruct (j =? from); lia|]. unfold exp_sum. rewrite Ht, sumZ_cons. cbn. rewrite (Z.eqb_sym from). destruct (j =? from); lia. }
  constructor; try done.
  - intros k Hk. destruct (R5 k Hk) as [->|Hold]; [cbn; split; apply Hdom; by eexists|]. destruct (B3 k Hold). auto.
  - assert (Forall (fun e => 0 <= vde_shares e < 2 ^ 62 /\ is_Some (<[to := b']> (<[from := a']> m) !! vde_delegator e)) exps) as F by (eapply Forall_impl; [exact B4|]; intros e [He1 He2]; split; [done|by apply Hdom]).
    destruct Hx as [[-> _]|[[t Ht] Hx]]; [done|]. rewrite Ht. constructor; [|done]. cbn. split; [lia|]. apply Hdom. by eexists.
  - intros j c Hj. destruct (decide (j = to)) as [->|Hjt].
    { rewrite lookup_insert_eq in Hj. injection Hj as <-. destruct (B5 to b Hb) as [A1 A2 A3 A4 A5 A6]. constructor; try done; rewrite ?R1, ?R2, ?Hexp, ?E1, ?E2, ?E3, ?E4, ?Z.eqb_refl, ?(proj2 (Z.eqb_neq to from)) by congruence; lia. }
    rewrite lookup_insert_ne in Hj by done. destruct (decide (j = from)) as [->|Hjf].
    { rewrite lookup_insert_eq in Hj. injection Hj as <-. destruct (B5 from a Ha) as [A1 A2 A3 A4 A5 A6]. constructor; try done; rewrite ?R1, ?R2, ?Hexp, ?D1, ?D2, ?D3, ?Z.eqb_refl, ?(proj2 (Z.eqb_neq from to)) by congruence; lia. }
    rewrite lookup_insert_ne in Hj by done. destruct (B5 j c Hj) as [A1 A2 A3 A4 A5 A6].
    constructor; try done; rewrite ?R1, ?R2, ?Hexp, ?(proj2 (Z.eqb_neq j from)), ?(proj2 (Z.eqb_neq j to)) by done; lia.
  - rewrite (total_insert _ to b) by (done || by rewrite lookup_insert_ne). by rewrite (total_insert m from a).
Qed.

(** One account, of whose delegations [x] came back. *)
Lemma books_single now m vds exps exps' i a a' x : stake_books now m vds exps -> m !! i = Some a -> (forall j, exp_sum j exps' = exp_sum j exps - if j =? i then x else 0) ->
  (forall e, e ∈ exps' -> e ∈ exps) -> delegated_vesting_shares a' = delegated_vesting_shares a - x -> received_vesting_shares a' = received_vesting_shares a -> vesting_shares a' = vesting_shares a ->
  delegated_vesting_shares a' + remaining a' <= vesting_shares a' -> down_ok a' -> bars_ok now a' -> stake_books now (<[i := a']> m) vds exps'.
Proof.
  intros [B1 B2 B3 B4 B5 B6] Ha Hexp Hin D1 D2 D3 D4 D5 D6.
  assert (forall j, is_Some (m !! j) -> is_Some (<[i := a']> m !! j)) as Hdom.
  { intros j Hj. destruct (decide (j = i)) as [->|]; [rewrite lookup_insert_eq; by eexists|by rewrite lookup_insert_ne by done]. }
  constructor; try done.
  - intros k Hk. destruct (B3 k Hk). auto.
  - rewrite Forall_forall in B4 |- *. intros e He. destruct (B4 e (Hin e He)). auto.
  - intros j c Hj. destruct (decide (j = i)) as [->|Hji].
    + rewrite lookup_insert_eq in Hj. injection Hj as <-. destruct (B5 i a Ha) as [A1 A2 A3 A4 A5 A6]. constructor; try done; rewrite ?Hexp, ?D1, ?D2, ?D3, ?Z.eqb_refl; lia.
    + rewrite lookup_insert_ne in Hj by done. destruct (B5 j c Hj) as [A1 A2 A3 A4 A5 A6]. constructor; try done. rewrite Hexp, (proj2 (Z.eqb_neq j i)) by done. lia.
  - by rewrite (total_insert m i a).
Qed.

(** ** Stakes and resource credits *)

Section with_rc.
Context `{L : FcLib} `{!FcLaws L}.

Lemma regenerate_stakes i r r' : rc_ok r -> regenerate_rc_mana i r = Ok r' -> keeps r r' /\ stakes r' = stakes r /\
  (exists a, accounts r' !! i = Some a /\ last_update_time (rc_manabar a) = head_block_time r') /\ forall j, j <> i -> accounts r' !! j = accounts r !! j.
Proof.
  intros HR H. apply (regenerate_keeps _ _ _ HR) in H as (K & a & m & Ha & -> & Hm). split_and!; [done| | |].
  - rewrite stakes_put. apply insert_id. by rewrite (stakes_lookup _ _ _ Ha).
  - eexists. split; [cbn; apply lookup_insert_eq|]. exact Hm.
  - intros j Hj. cbn. by rewrite lookup_insert_ne.
Qed.

Lemma changed_stakes P i a r r' : stake_changed P i a r r' -> stakes r' = <[i := erase a]> (stakes r).
Proof.
  intros [_ _ D (b & Hb & Sb & _) O _]. apply map_eq. intros j. destruct (decide (j = i)) as [->|Hj]; [rewrite (stakes_lookup _ _ _ Hb), lookup_insert_eq; f_equal; exact Sb|].
  rewrite lookup_insert_ne by done. destruct (accounts r !! j) as [x|] eqn:E.
  - destruct (O j x Hj E) as (y & Ey & Sy & _). rewrite (stakes_lookup _ _ _ E), (stakes_lookup _ _ _ Ey). f_equal. exact Sy.
  - destruct (accounts r' !! j) as [y|] eqn:Ey; [|unfold stakes; by rewrite !lookup_fmap, E, Ey]. assert (is_Some (accounts r !! j)) as [x Hx] by (apply D; by exists y). congruence.
Qed.

(** A stake that did not shrink, before the RC are brought up to date. *)
Lemma put_weak P r i b b' : rc_ok_but P r -> accounts r !! i = Some b -> same_rc b b' -> shares_ok b' -> effective b <= effective b' -> rc_ok_but (fun j => P j \/ j = i) (put_account i b' r).
Proof.
  intros [B HF HD] Hb (E1 & E2 & E3 & E4 & E5) S He. pose proof (rk_account _ _ B i b Hb) as [S0 A1 A2 A3 A4 A5 A6 A7]. split; [|done|].
  - apply (put_books _ _ i b); try done. constructor; rewrite ?E1, ?E2, ?E3, ?E4, ?E5; try done; [lia|]. unfold maximum in *. rewrite E2, E3, E4. lia.
  - intros j x Hj. cbn. destruct (decide (j = i)) as [->|Hne]; [exfalso; apply Hj; by right|]. rewrite lookup_insert_ne by done. apply HD. tauto.
Qed.

Lemma put_same r i b b' : rc_ok r -> accounts r !! i = Some b -> same_rc b b' -> shares_ok b' -> effective b' = effective b -> rc_ok (put_account i b' r).
Proof.
  intros HR Hb HS S He. pose proof (put_weak _ r i b b' HR Hb HS S ltac:(lia)) as [B HF HD]. destruct HS as (E1 & E2 & E3 & E4 & E5). split; [done|done|].
  intros j x _ Hj. destruct (decide (j = i)) as [->|Hne]; [|apply (HD j); [tauto|done]]. cbn in Hj. rewrite lookup_insert_eq in Hj. injection Hj as <-.
  pose proof (ok_settled _ _ HR i b ltac:(tauto) Hb) as T. unfold settled, maximum in *. congruence.
Qed.

(** Nothing to bring up to date. *)
Lemma vest_change_id i fill chk r a : accounts r !! i = Some a -> account_ok (head_block_time r) a -> settled a -> last_update_time (rc_manabar a) = head_block_time r ->
  update_account_after_vest_change i fill chk r = Ok r.
Proof.
  intros Ha O T Ht. rewrite vest_change_unfold. rewrite (proj2 (account_found _ _ _) Ha). cbn [mbind result_bind]. unfold expect_regenerated. rewrite (proj2 (Z.eqb_eq _ _) Ht). cbn [mbind result_bind].
  pose proof O as [S A1 A2 A3 A4 A5 A6 A7]. pose proof (effective_range a S). assert (clear_overflow i r = Ok r) as Hc.
  { unfold clear_overflow. rewrite (proj2 (account_found _ _ _) Ha). cbn [mbind result_bind]. destruct (0 <? delegated_rc a); [|done]. rewrite delegable_value by (done || (unfold in_s; lia)).
    cbn [mbind result_bind]. rewrite (swrap_id 64) by (unfold in_s; lia). by rewrite (proj2 (Z.ltb_ge 0 _)) by lia. }
  assert ((if chk then clear_overflow i r else Ok r) = Ok r) as -> by (by destruct chk). cbn [mbind result_bind]. unfold refresh. rewrite (proj2 (account_found _ _ _) Ha). cbn [mbind result_bind].
  rewrite (settled_value _ _ O T). cbn [mbind result_bind]. by rewrite (proj2 (Z.eqb_eq _ _)) by (symmetry; exact T).
Qed.

(** Regeneration keeps a bar in range. *)
Lemma regenerate_bar p now b b' : bar_ok now b -> max_mana p < 2 ^ 63 -> 0 < regen_time p < 2 ^ 32 -> now < 2 ^ 32 -> regenerate_mana false p now b = Ok b' -> bar_ok now b'.
Proof.
  intros [Hc Ht] Hm Hr Hn H. assert (0 <= max_mana p /\ last_update_time b <= now) as [H1 H2].
  { unfold regenerate_mana, manabar_params_validate in H. apply check_bind_Ok in H as [H1 H]. apply check_bind_Ok in H as [H2 _]. by to_prop. }
  rewrite regenerate_mana_exact in H by (constructor; unfold in_s; lia). injection H as <-. pose proof (regained_range p (now - last_update_time b) ltac:(lia) ltac:(lia) ltac:(lia)) as Hg.
  unfold regained in Hg. split; cbn; lia.
Qed.
Lemma use_bar now n b : bar_ok now b -> in_s 64 n -> bar_ok now (use_mana n 0 b).
Proof.
  intros [Hc Ht] Hn. split; [|done]. unfold use_mana. cbn. unfold in_s in *. rewrite signed_sat_sub_clamps by (unfold in_s; lia). unfold clamp64, int64_min, int64_max. destruct (_ <? 0) eqn:E; to_prop; lia.
Qed.

Lemma scaled_shares dpp n x : 0 <= n < 2 ^ 63 -> 0 <= dpp <= 10000 -> uint128_to_int64 (u128 (u128 n * dpp) / HIVE_100_PERCENT) = Ok x -> x = n * dpp / 10000 /\ 0 <= x < 2 ^ 63.
Proof.
  intros Hn Hd H. rewrite (uwrap_id 128 n), (uwrap_id 128) in H by (unfold in_u; nia). unfold HIVE_100_PERCENT in H.
  assert (0 <= n * dpp / 10000 < 2 ^ 63) as Hr by (split; [apply Z.div_pos; nia|apply Z.div_lt_upper_bound; nia]). rewrite uint128_to_int64_fits in H by done. by injection H as <-.
Qed.

(** Voting mana is all that [update_manabar] and the use of mana change. *)
Lemma update_vote_mana_Ok dpp now n a a' : shares_ok a -> bars_ok now a -> now < 2 ^ 32 -> 0 <= dpp <= 10000 -> update_vote_mana dpp now n a = Ok a' ->
  exists v d, a' = set_vote_mana v d a /\ bar_ok now v /\ bar_ok now d.
Proof.
  intros S [V D] Hn Hdpp H. unfold update_vote_mana in H. rewrite effective_value in H by done. cbn [mbind result_bind] in H. pose proof (effective_range a S). apply bind_Ok in H as ([v d] & Hu & H). injection H as <-.
  exists v, d. split; [done|]. unfold update_manabar in Hu. apply bind_Ok in Hu as (v1 & Hv & Hu).
  assert (0 <= effective a) as He by (unfold regenerate_mana, manabar_params_validate in Hv; apply check_bind_Ok in Hv as [H1 _]; by to_prop). apply regenerate_bar in Hv; [|done|cbn; lia|done|done].
  assert (bar_ok now (use_mana (i64 (- n)) 0 v1)) as Hv2 by (apply use_bar; [done|apply swrap_range; lia]). destruct (dpp =? 0); [by injection Hu as <- <-|].
  apply bind_Ok in Hu as (mm & Hmm & Hu). apply scaled_shares in Hmm as [_ Hmm]; [|lia|done]. apply bind_Ok in Hu as (d1 & Hd & Hu). apply regenerate_bar in Hd; [|done|cbn; lia|done|done].
  injection Hu as <- <-. split; [done|]. apply use_bar; [done|]. pose proof (swrap_range 64 (i64 (- n) * dpp) ltac:(lia)) as Hr. unfold in_s in *.
  assert (Z.abs (Z.quot (i64 (i64 (- n) * dpp)) HIVE_100_PERCENT) <= 2 ^ 50) as Hq.
  { rewrite <- Z.quot_abs by done. apply Z.quot_le_upper_bound; [done|]. unfold HIVE_100_PERCENT. lia. }
  lia.
Qed.
Lemma use_vote_mana_Ok now dpp n a a' : bars_ok now a -> 0 <= n < 2 ^ 63 -> 0 <= dpp <= 10000 -> use_vote_mana dpp n a = Ok a' -> exists v d, a' = set_vote_mana v d a /\ bar_ok now v /\ bar_ok now d.
Proof.
  intros [V D] Hn Hd H. unfold use_vote_mana in H. apply bind_Ok in H as (e & He & H). apply scaled_shares in He as [_ He]; [|done|done]. injection H as <-. eexists _, _. split; [done|].
  split; apply use_bar; try done; unfold in_s; lia.
Qed.

(** Both accounts of a delegation that grows. *)
Lemma settle_pair from to r a b a' b' r1 r2 : rc_ok r -> from <> to -> accounts r !! from = Some a -> accounts r !! to = Some b ->
  last_update_time (rc_manabar a) = head_block_time r -> last_update_time (rc_manabar b) = head_block_time r -> same_rc a a' -> same_rc b b' -> shares_ok a' -> shares_ok b' ->
  0 <= effective a' -> effective b <= effective b' ->
  update_account_after_vest_change from true true (put_account to b' (put_account from a' r)) = Ok r1 -> update_account_after_vest_change to true true r1 = Ok r2 ->
  rc_ok r2 /\ same_env r r2 /\ stakes r2 = <[to := erase b']> (<[from := erase a']> (stakes r)).
Proof.
  intros HR Hne Ha Hb Ta Tb Sa Sb Oa Ob Ea Eb H1 H2. set (q := put_account to b' r).
  assert (put_account to b' (put_account from a' r) = put_account from a' q) as Eq by (unfold q, put_account, set_accounts; cbn; f_equal; by apply insert_insert_ne). rewrite Eq in H1.
  pose proof (put_weak _ r to b b' HR Hb Sb Ob Eb) as Hq. fold q in Hq. pose proof (rk_account _ _ (ok_books _ _ HR) to b Hb) as [S0 A1 A2 A3 A4 A5 A6 A7].
  pose proof (vest_change_ok _ from true true q a a' r1 Hq ltac:(unfold q; cbn; by rewrite lookup_insert_ne) Ta Sa Oa Ea ltac:(done) H1) as C1.
  destruct (sc_other _ _ _ _ _ C1 to b') as (b2 & Hb2 & Sb2 & Tb2); [congruence|unfold q; cbn; by rewrite lookup_insert_eq|].
  pose proof (env_time _ _ (sc_env _ _ _ _ _ C1)) as Et. change (head_block_time q) with (head_block_time r) in *.
  assert (put_account to b2 r1 = r1) as Ep by (unfold put_account, set_accounts; destruct r1; cbn in *; f_equal; by apply insert_id). rewrite <- Ep in H2.
  assert (last_update_time (rc_manabar b2) = head_block_time r1) as Tb3.
  { rewrite Et. eapply touched_time; [exact Tb2|]. destruct Sb as (E & _). by rewrite E. }
  assert (erase b2 = erase b') as Ee by (exact Sb2). assert (effective b2 = effective b') as Eb2 by (exact (f_equal effective Ee)).
  assert (shares_ok b2) as Ob2 by (apply erase_shares; rewrite Ee; by destruct Ob; constructor).
  pose proof (vest_change_ok _ to true true r1 b2 b2 r2 (sc_ok _ _ _ _ _ C1) Hb2 Tb3 ltac:(done) Ob2 ltac:(lia) ltac:(done) H2) as C2. split_and!.
  - destruct (sc_ok _ _ _ _ _ C2) as [X1 X2 X3]. split; [done|done|]. intros j x _. apply X3. tauto.
  - transitivity q; [done|]. transitivity r1; [apply C1|apply C2].
  - rewrite (changed_stakes _ _ _ _ _ C2), (changed_stakes _ _ _ _ _ C1). unfold q. rewrite stakes_put, Ee.
    rewrite (insert_insert_ne _ from to) by done. by rewrite insert_insert_eq.
Qed.
End with_rc.

(** ** The operations *)

Section operations.
Context `{L : FcLib} `{!FcLaws L}.

Record stake_ok (s : stake_state) : Prop := {
  so_rc : rc_ok (rc s);
  so_books : stake_books (head_block_time (rc s)) (stakes (rc s)) (vesting_delegations s) (vd_expirations s);
  so_percent : 0 <= downvote_pool_percent s <= 10000
}.

(** The account [i] of [r] in the books. *)
Lemma books_of r vds exps i a : stake_books (head_block_time r) (stakes r) vds exps -> accounts r !! i = Some a -> account_books (head_block_time r) i a vds exps /\ shares_ok a /\ received_vesting_shares a <= effective a.
Proof.
  intros B Ha. pose proof (stakes_lookup _ _ _ Ha) as Hs. destruct (vb_account _ _ _ _ B i _ Hs) as [A1 A2 A3 A4 A5 A6]. destruct (books_shares _ _ _ _ B i _ Hs) as [S E].
  split_and!; [by constructor|by apply erase_shares|done].
Qed.

(** Nobody delegates shares that it received or powers down. *)
Lemma available_Ok now dpp a x y : shares_ok a -> bars_ok now a -> down_ok a -> 0 <= dpp <= 10000 -> available dpp (effective a) a = Ok (x, y) ->
  x <= vesting_shares a - delegated_vesting_shares a - remaining a.
Proof.
  intros S [V D] W Hdpp H. pose proof (effective_range a S) as He. pose proof (weekly_range a S) as Hw. pose proof S as [S1 S2 S3 S4 S5 S6 S7]. destruct V as [V _]. unfold available in H.
  apply bind_Ok in H as (dv & Hdv & H). apply bind_Ok in H as (own & Hown & H). apply safe_sub_Ok in Hown as [-> Hown]; [|unfold in_s; lia..]. unfold in_s in Hown.
  unfold remaining. unfold effective, weekly in *. destruct (has_active_power_down a) eqn:Ea; [|injection H as <- _; lia].
  unfold get_total_vesting_withdrawal in H. rewrite safe_sub_exact in H by (unfold in_s; lia). cbn [mbind result_bind] in H. destruct (_ <? _) eqn:Er; to_prop; [|injection H as <- _; lia].
  unfold get_next_vesting_withdrawal, get_total_vesting_withdrawal in H. rewrite Ea, safe_sub_exact in H by (unfold in_s; lia). cbn [mbind result_bind] in H.
  rewrite safe_sub_exact in H by (unfold in_s; lia). cbn [mbind result_bind] in H. apply bind_Ok in H as (sh & Hsh & H). apply safe_add_Ok in Hsh as [-> _]; [|unfold in_s; lia..].
  apply bind_Ok in H as (dsh & _ & H). injection H as <- _. lia.
Qed.

Lemma give_Ok dpp from to delta r a b r' : from <> to -> accounts r !! from = Some a -> accounts r !! to = Some b -> shares_ok a -> shares_ok b -> bars_ok (head_block_time r) a -> bars_ok (head_block_time r) b ->
  0 <= delta < 2 ^ 62 -> 0 <= dpp <= 10000 -> head_block_time r < 2 ^ 32 -> give dpp from to delta r = Ok r' ->
  exists va da vb db, bar_ok (head_block_time r) va /\ bar_ok (head_block_time r) da /\ bar_ok (head_block_time r) vb /\ bar_ok (head_block_time r) db /\
    r' = put_account to (set_shares (vesting_shares b) (delegated_vesting_shares b) (received_vesting_shares b + delta) (set_vote_mana vb db b))
           (put_account from (set_vote_mana va da (set_shares (vesting_shares a) (delegated_vesting_shares a + delta) (received_vesting_shares a) a)) r).
Proof.
  intros Hne Ha Hb Sa Sb Ba Bb Hd Hdpp Hn H. unfold give in H. rewrite (proj2 (account_found _ _ _) Ha) in H. cbn [mbind result_bind] in H. pose proof Sa as [? ? ? ? ? ? ?]. pose proof Sb as [? ? ? ? ? ? ?].
  rewrite safe_add_exact in H by (unfold in_s; lia). cbn [mbind result_bind] in H. apply bind_Ok in H as (a1 & Ha1 & H). apply (use_vote_mana_Ok (head_block_time r)) in Ha1 as (va & da & -> & Hva & Hda); [|done|lia|done].
  cbv zeta in H. rewrite (proj2 (account_found to _ b)) in H by (cbn; by rewrite lookup_insert_ne). cbn [mbind result_bind] in H. apply bind_Ok in H as (b1 & Hb1 & H).
  apply update_vote_mana_Ok in Hb1 as (vb & db & -> & Hvb & Hdb); [|done..]. cbn [received_vesting_shares set_vote_mana] in H. rewrite safe_add_exact in H by (unfold in_s; lia).
  cbn [mbind result_bind] in H. injection H as <-. by exists va, da, vb, db.
Qed.

(** A delegation that is created or grows. *)
Lemma grow_ok dpp from to v0 v r vds vds' exps a b va da r3 r4 r5 : rc_ok r -> stake_books (head_block_time r) (stakes r) vds exps -> from <> to -> accounts r !! from = Some a -> accounts r !! to = Some b ->
  last_update_time (rc_manabar a) = head_block_time r -> last_update_time (rc_manabar b) = head_block_time r -> bar_ok (head_block_time r) va -> bar_ok (head_block_time r) da -> 0 <= dpp <= 10000 ->
  vd_replaced from to v0 v vds vds' -> 0 <= v - v0 <= vesting_shares a - delegated_vesting_shares a - remaining a ->
  give dpp from to (v - v0) (put_account from (set_vote_mana va da a) r) = Ok r3 ->
  update_account_after_vest_change from true true r3 = Ok r4 -> update_account_after_vest_change to true true r4 = Ok r5 ->
  rc_ok r5 /\ same_env r r5 /\ stake_books (head_block_time r5) (stakes r5) vds' exps.
Proof.
  intros HR B Hne Ha Hb Ta Tb Hva Hda Hdpp R Hv H3 H4 H5. destruct (books_of _ _ _ _ _ B Ha) as ([A1 A2 A3 A4 A5 A6] & Sa & Ea). destruct (books_of _ _ _ _ _ B Hb) as ([C1 C2 C3 C4 C5 C6] & Sb & Eb).
  pose proof (rk_time _ _ (ok_books _ _ HR)) as Ht. pose proof (remaining_nonneg a A5) as Hrem. pose proof Sa as [? ? ? ? ? ? ?].
  apply (give_Ok dpp from to (v - v0) _ (set_vote_mana va da a) b) in H3 as (va' & da' & vb & db & X1 & X2 & X3 & X4 & ->);
    try done; try (cbn; by rewrite ?lookup_insert_eq, ?lookup_insert_ne by done); [|lia|apply Ht].
  set (a' := set_vote_mana va' da' _) in *. set (b' := set_shares _ _ _ (set_vote_mana vb db b)) in *.
  rewrite put_put in H4.
  assert (stake_books (head_block_time r) (<[to := erase b']> (<[from := erase a']> (stakes r))) vds' exps) as B'.
  { eapply (books_pair _ _ vds exps vds' exps from to v0 v 0 (erase a) (erase b)); try done; [by left|by apply stakes_lookup|by apply stakes_lookup|cbn; lia|].
    change (delegated_vesting_shares a + (v - v0) + remaining a <= vesting_shares a). lia. }
  destruct (books_shares _ _ _ _ B' from (erase a')) as [Sa' Ea']; [rewrite lookup_insert_ne by congruence; apply lookup_insert_eq|].
  destruct (books_shares _ _ _ _ B' to (erase b')) as [Sb' Eb']; [apply lookup_insert_eq|]. apply erase_shares in Sa', Sb'.
  assert (effective b' = effective b + (v - v0)) as Eb2 by (unfold b', effective, weekly; cbn; change (has_active_power_down (set_shares _ _ _ _)) with (has_active_power_down b); lia).
  destruct (settle_pair from to r a b a' b' r4 r5) as (K1 & K2 & K3); try done; [|lia|rewrite K3, (env_time _ _ K2); by split_and!].
  change (effective (erase a')) with (effective a') in Ea'. pose proof Sa' as [_ _ Hr _ _ _ _]. change (received_vesting_shares (erase a')) with (received_vesting_shares a') in Ea'. lia.
Qed.

Lemma take_back_Ok dpp to delta r b r' : accounts r !! to = Some b -> shares_ok b -> bars_ok (head_block_time r) b -> 0 <= delta < 2 ^ 62 -> 0 <= dpp <= 10000 -> head_block_time r < 2 ^ 32 ->
  take_back dpp to delta r = Ok r' -> exists vb db, bar_ok (head_block_time r) vb /\ bar_ok (head_block_time r) db /\
    r' = put_account to (set_vote_mana vb db (set_shares (vesting_shares b) (delegated_vesting_shares b) (received_vesting_shares b - delta) b)) r.
Proof.
  intros Hb Sb Bb Hd Hdpp Hn H. unfold take_back in H. rewrite (proj2 (account_found _ _ _) Hb) in H. cbn [mbind result_bind] in H. pose proof Sb as [? ? ? ? ? ? ?].
  apply bind_Ok in H as (b1 & Hb1 & H). apply update_vote_mana_Ok in Hb1 as (vb & db & -> & Hvb & Hdb); [|done..]. cbn [received_vesting_shares set_vote_mana] in H.
  rewrite safe_sub_exact in H by (unfold in_s; lia). cbn [mbind result_bind] in H. apply bind_Ok in H as (b2 & Hb2 & H). apply (use_vote_mana_Ok (head_block_time r)) in Hb2 as (vb2 & db2 & -> & Hvb2 & Hdb2); [|done|lia|done].
  injection H as <-. by exists vb2, db2.
Qed.

(** A delegation that shrinks or ends. *)
Lemma shrink_ok dpp from to v0 v r vds vds' exps exps' t a b va da r3 r4 r5 : rc_ok r -> stake_books (head_block_time r) (stakes r) vds exps -> from <> to -> accounts r !! from = Some a -> accounts r !! to = Some b ->
  last_update_time (rc_manabar a) = head_block_time r -> last_update_time (rc_manabar b) = head_block_time r -> bar_ok (head_block_time r) va -> bar_ok (head_block_time r) da -> 0 <= dpp <= 10000 ->
  vd_replaced from to v0 v vds vds' -> 0 <= v0 - v < 2 ^ 62 -> exps' ≡ₚ mk_vde from (v0 - v) t :: exps ->
  take_back dpp to (v0 - v) (put_account from (set_vote_mana va da a) r) = Ok r3 ->
  update_account_after_vest_change from true true r3 = Ok r4 -> update_account_after_vest_change to true true r4 = Ok r5 ->
  rc_ok r5 /\ same_env r r5 /\ stake_books (head_block_time r5) (stakes r5) vds' exps'.
Proof.
  intros HR B Hne Ha Hb Ta Tb Hva Hda Hdpp R Hv Hexp H3 H4 H5. destruct (books_of _ _ _ _ _ B Ha) as ([A1 A2 A3 A4 A5 A6] & Sa & Ea). destruct (books_of _ _ _ _ _ B Hb) as ([C1 C2 C3 C4 C5 C6] & Sb & Eb).
  pose proof (rk_time _ _ (ok_books _ _ HR)) as Ht. set (a0 := set_vote_mana va da a) in *. set (q := put_account from a0 r) in *.
  assert (shares_ok a0) as Sa0 by (by destruct Sa; constructor). assert (rc_ok q) as HQ by (by apply (put_same r from a a0)).
  assert (accounts q !! from = Some a0) as Hqa by (cbn; apply lookup_insert_eq). assert (accounts q !! to = Some b) as Hqb by (cbn; by rewrite lookup_insert_ne).
  apply (take_back_Ok dpp to (v0 - v) q b) in H3 as (vb & db & X1 & X2 & ->); try done; [|apply Ht]. set (b' := set_vote_mana vb db _) in *.
  assert (stake_books (head_block_time r) (<[to := erase b']> (<[from := erase a0]> (stakes r))) vds' exps') as B'.
  { eapply (books_pair _ _ vds exps vds' exps' from to v0 v (v0 - v) (erase a) (erase b)); try done; [right; split; [by exists t|done]|by apply stakes_lookup|by apply stakes_lookup|cbn; lia|cbn; lia]. }
  destruct (books_shares _ _ _ _ B' to (erase b')) as [Sb' Eb']; [apply lookup_insert_eq|]. apply erase_shares in Sb'.
  rewrite (vest_change_id from true true (put_account to b' q) a0) in H4; [| |apply (rk_account _ _ (ok_books _ _ HQ) from a0 Hqa)|apply (ok_settled _ _ HQ from a0); [tauto|done]|done]; [|cbn; by rewrite lookup_insert_ne].
  injection H4 as <-. pose proof Sb' as [_ _ Hr _ _ _ _]. change (effective (erase b')) with (effective b') in Eb'. change (received_vesting_shares (erase b')) with (received_vesting_shares b') in Eb'.
  assert (0 <= effective b') as Hpos by lia.
  pose proof (vest_change_ok _ to true true q b b' r5 HQ Hqb Tb ltac:(done) Sb' Hpos ltac:(done) H5) as C. split_and!.
  - destruct (sc_ok _ _ _ _ _ C) as [Y1 Y2 Y3]. split; [done|done|]. intros j x _. apply Y3. tauto.
  - transitivity q; [done|apply C].
  - rewrite (changed_stakes _ _ _ _ _ C), (env_time _ _ (sc_env _ _ _ _ _ C)). unfold q. by rewrite stakes_put.
Qed.

(** Both accounts of a delegation, regenerated. *)
Lemma prepare_pair from to r r1 r2 : rc_ok r -> from <> to -> regenerate_rc_mana from r = Ok r1 -> regenerate_rc_mana to r1 = Ok r2 ->
  rc_ok r2 /\ same_env r r2 /\ stakes r2 = stakes r /\ exists a b, accounts r2 !! from = Some a /\ accounts r2 !! to = Some b /\
    last_update_time (rc_manabar a) = head_block_time r2 /\ last_update_time (rc_manabar b) = head_block_time r2.
Proof.
  intros HR Hne H1 H2. apply (regenerate_stakes _ _ _ HR) in H1 as ((R1 & E1 & _) & S1 & (a & Ha & Ta) & _). apply (regenerate_stakes _ _ _ R1) in H2 as ((R2 & E2 & _) & S2 & (b & Hb & Tb) & O2).
  pose proof (env_time _ _ E2) as Et. split_and!; [done|by transitivity r1|congruence|]. exists a, b. split_and!; [by rewrite O2|done|congruence|done].
Qed.

Lemma find_out from to s d : Forall vd_ok (vesting_delegations s) -> d = mk_vd from to (min_delegation_time d) (vd_shares d) ->
  vesting_delegations s ≡ₚ [d] ++ filter (fun x => is_delegation from to x = false) (vesting_delegations s) -> vd_shares d <= out_sum from (vesting_delegations s).
Proof.
  intros F Ed El. assert (0 <= out_sum from (filter (fun x => is_delegation from to x = false) (vesting_delegations s))) as Hrest.
  { apply out_sum_nonneg. rewrite Forall_forall in F |- *. intros x Hx. apply list_elem_of_filter in Hx as [_ Hx]. auto. }
  unfold out_sum in *. rewrite El, sumZ_app, sumZ_cons. assert (delegator d = from) as -> by (by rewrite Ed). rewrite Z.eqb_refl. change (sumZ _ []) with 0. lia.
Qed.

(** What [from] delegates to [to]. *)
Definition delegated_to (from to : Z) (s : stake_state) : Z := match find_vd from to s with Some d => vd_shares d | None => 0 end.

Lemma delegate_ok from to shares s s' : stake_ok s -> from <> to -> 0 <= shares < 2 ^ 63 -> delegate_vesting_shares from to shares s = Ok s' -> stake_ok s' /\ same_env (rc s) (rc s') /\
  forall a, accounts (rc s) !! from = Some a -> shares - delegated_to from to s <= vesting_shares a - delegated_vesting_shares a - remaining a.
Proof.
  intros [HR B Hp] Hne Hsh H. unfold delegate_vesting_shares in H. apply bind_Ok in H as (a0 & _ & H). apply bind_Ok in H as (u & _ & H). apply bind_Ok in H as (b0 & _ & H). cbv zeta in H.
  apply bind_Ok in H as (r1 & H1 & H). apply bind_Ok in H as (r2 & H2 & H). destruct (prepare_pair from to (rc s) r1 r2 HR Hne H1 H2) as (R2 & Env & Hst & a & b & Ha & Hb & Ta & Tb).
  rewrite <- Hst, <- (env_time _ _ Env) in B. destruct (books_of _ _ _ _ _ B Ha) as ([A1 A2 A3 A4 A5 A6] & Sa & Ea). pose proof (rk_time _ _ (ok_books _ _ R2)) as Ht.
  rewrite (proj2 (account_found _ _ _) Ha) in H. cbn [mbind result_bind] in H. rewrite effective_value in H by done. cbn [mbind result_bind] in H.
  apply bind_Ok in H as (a1 & Ha1 & H). apply update_vote_mana_Ok in Ha1 as (va & da & -> & Hva & Hda); [|done|done|apply Ht|done].
  apply bind_Ok in H as ([av adv] & Hav & H). change (effective a) with (effective (set_vote_mana va da a)) in Hav.
  apply (available_Ok (head_block_time r2)) in Hav; [|by destruct Sa; constructor|done|done|done]. change (av <= vesting_shares a - delegated_vesting_shares a - remaining a) in Hav.
  apply bind_Ok in H as (min_d & _ & H). apply bind_Ok in H as (min_u & _ & H). apply bind_Ok in H as (s1 & Hs1 & H). apply bind_Ok in H as (r4 & H4 & H). apply bind_Ok in H as (r5 & H5 & H). injection H as <-.
  pose proof (vb_vds _ _ _ _ B) as F. pose proof (vb_keys _ _ _ _ B) as N. pose proof (delegated_parts _ _ _ _ B from _ (stakes_lookup _ _ _ Ha)) as (P1 & P2 & P3). cbn in P3. pose proof Sa as [Z1 Z2 Z3 Z4 Z5 Z6 Z7].
  assert (forall vds' exps', rc_ok r5 /\ same_env r2 r5 /\ stake_books (head_block_time r5) (stakes r5) vds' exps' -> vesting_delegations s1 = vds' -> vd_expirations s1 = exps' -> downvote_pool_percent s1 = downvote_pool_percent s ->
    stake_ok (set_rc_state r5 s1) /\ same_env (rc s) (rc (set_rc_state r5 s1))) as Hfin.
  { intros vds' exps' (K1 & K2 & K3) <- <- E. split; [by constructor; cbn; rewrite ?E|]. cbn. by transitivity r2. }
  assert (shares - delegated_to from to s <= vesting_shares a - delegated_vesting_shares a - remaining a) as Hbound.
  { unfold delegated_to. destruct (find_vd from to s) as [d|] eqn:Ef; [destruct (vd_shares d <=? shares) eqn:Ec; to_prop|].
    - apply bind_Ok in Hs1 as (delta & Hdelta & Hs1). apply check_bind_Ok in Hs1 as [_ Hs1]. apply check_bind_Ok in Hs1 as [Hle _]. to_prop. destruct (find_vd_Some from to s d N Ef) as (_ & Hin & _).
      rewrite Forall_forall in F. destruct (F d Hin) as [Hd _]. apply safe_sub_Ok in Hdelta as [-> _]; [|unfold in_s; lia..]. lia.
    - lia.
    - apply check_bind_Ok in Hs1 as [Hle _]. to_prop. lia. }
  assert (forall a1, accounts (rc s) !! from = Some a1 -> shares - delegated_to from to s <= vesting_shares a1 - delegated_vesting_shares a1 - remaining a1) as Hbound'.
  { intros a1 Ha1. apply stakes_lookup in Ha1. pose proof (stakes_lookup _ _ _ Ha) as Hs. rewrite Hst, Ha1 in Hs. apply (inj Some) in Hs.
    assert (vesting_shares a1 = vesting_shares a) as -> by (exact (f_equal vesting_shares Hs)). assert (delegated_vesting_shares a1 = delegated_vesting_shares a) as -> by (exact (f_equal delegated_vesting_shares Hs)).
    assert (remaining a1 = remaining a) as -> by (exact (f_equal remaining Hs)). exact Hbound. }
  cut (stake_ok (set_rc_state r5 s1) /\ same_env (rc s) (rc (set_rc_state r5 s1))); [by intros [? ?]; split_and!|]. clear Hbound Hbound'.
  destruct (find_vd from to s) as [d|] eqn:Ef.
  - destruct (find_vd_Some from to s d N Ef) as (Ed & Hin & Hk & El & Emap). rewrite Forall_forall in F. destruct (F d Hin) as [Hd _]. rewrite <- Forall_forall in F.
    destruct (vd_shares d <=? shares) eqn:Ec; to_prop.
    + apply bind_Ok in Hs1 as (delta & Hdelta & Hs1). apply check_bind_Ok in Hs1 as [_ Hs1]. apply check_bind_Ok in Hs1 as [Hle Hs1]. apply check_bind_Ok in Hs1 as [_ Hs1]. to_prop.
      apply bind_Ok in Hs1 as (r3 & H3 & Hs1). unfold set_vesting in Hs1. apply check_bind_Ok in Hs1 as [_ Hs1]. injection Hs1 as <-. cbn [rc set_vesting_delegations set_rc_state] in H4.
      apply safe_sub_Ok in Hdelta as [-> Hr]; [|unfold in_s; lia..]. pose proof (remaining_nonneg a A5) as Hrem. pose proof (find_out from to s d F Ed El) as Hout.
      eapply Hfin; [eapply (grow_ok (downvote_pool_percent s) from to (vd_shares d) shares r2 (vesting_delegations s) _ _ a b va da r3); try done; try lia|done..].
      eapply (replaced_perm from to [d]); try done; [apply Emap|right; by exists (min_delegation_time d); rewrite <- Ed|right; by eexists|lia].
    + apply bind_Ok in Hs1 as (delta & Hdelta & Hs1). apply safe_sub_Ok in Hdelta as [-> Hr]; [|unfold in_s; lia..]. apply bind_Ok in Hs1 as (u2 & _ & Hs1). apply bind_Ok in Hs1 as (r3 & H3 & Hs1).
      set (e := mk_vde _ _ _) in Hs1. set (s2 := set_rc_state r3 _) in Hs1.
      assert (rc s1 = r3 /\ vd_replaced from to (vd_shares d) shares (vesting_delegations s) (vesting_delegations s1) /\ vd_expirations s1 = insert_expiration e (vd_expirations s) /\
        downvote_pool_percent s1 = downvote_pool_percent s) as (Er & Hrep & Ee & Edp).
      { destruct (0 <? shares) eqn:E0; to_prop.
        - unfold set_vesting in Hs1. apply check_bind_Ok in Hs1 as [_ Hs1]. injection Hs1 as <-. split_and!; try done.
          eapply (replaced_perm from to [d]); try done; [apply Emap|right; by exists (min_delegation_time d); rewrite <- Ed|right; by eexists|lia].
        - injection Hs1 as <-. split_and!; try done. assert (shares = 0) as -> by lia.
          eapply (replaced_perm from to [d] []); try done; [right; by exists (min_delegation_time d); rewrite <- Ed|by left]. }
      rewrite Er in H4. apply (Hfin (vesting_delegations s1) (vd_expirations s1)); [eapply (shrink_ok (downvote_pool_percent s) from to (vd_shares d) shares r2 (vesting_delegations s) _ (vd_expirations s) _ (expiration e) a b va da r3); try done; try lia|done..]. rewrite Ee. apply insert_expiration_perm.
  - apply find_vd_None in Ef. apply check_bind_Ok in Hs1 as [Hle Hs1]. apply check_bind_Ok in Hs1 as [_ Hs1]. apply check_bind_Ok in Hs1 as [_ Hs1]. to_prop. apply bind_Ok in Hs1 as (r3 & H3 & Hs1). injection Hs1 as <-.
    cbn [rc set_vesting_delegations set_rc_state] in H4. pose proof (remaining_nonneg a A5) as Hrem. rewrite <- (Z.sub_0_r shares) in H3.
    eapply Hfin; [eapply (grow_ok (downvote_pool_percent s) from to 0 shares r2 (vesting_delegations s) _ _ a b va da r3); try done; try lia|done..].
    eapply (replaced_perm from to [] [_] (vesting_delegations s)); try done; [apply insert_vd_perm|by left|right; by eexists|lia].
Qed.

(** *** Delegations that come back *)

Lemma return_ok e index s s' : rc_ok (rc s) -> stake_books (head_block_time (rc s)) (stakes (rc s)) (vesting_delegations s) (e :: index) -> 0 <= downvote_pool_percent s <= 10000 -> return_delegation e s = Ok s' ->
  rc_ok (rc s') /\ same_env (rc s) (rc s') /\ stake_books (head_block_time (rc s')) (stakes (rc s')) (vesting_delegations s) index /\
  exists n, s' = push_returned (n, vde_shares e) (set_rc_state (rc s') s).
Proof.
  intros HR B Hp H. unfold return_delegation in H. cbv zeta in H. apply bind_Ok in H as (r & Hr & H). apply (regenerate_stakes _ _ _ HR) in Hr as ((R1 & E1 & _) & S1 & (a & Ha & Ta) & _).
  rewrite (proj2 (account_found _ _ _) Ha) in H. cbn [mbind result_bind] in H. rewrite <- S1, <- (env_time _ _ E1) in B. destruct (books_of _ _ _ _ _ B Ha) as ([A1 A2 A3 A4 A5 A6] & Sa & Ea).
  pose proof (rk_time _ _ (ok_books _ _ R1)) as Ht. apply bind_Ok in H as (b & Hb & H). apply update_vote_mana_Ok in Hb as (v & d & -> & Hv & Hd); [|done|done|apply Ht|done].
  pose proof (vb_exps _ _ _ _ B) as F. apply Forall_cons in F as [[He _] F]. pose proof Sa as [Z1 Z2 Z3 Z4 Z5 Z6 Z7]. cbn [delegated_vesting_shares set_vote_mana] in H.
  rewrite safe_sub_exact in H by (unfold in_s; lia). cbn [mbind result_bind] in H. apply bind_Ok in H as (r2 & H2 & H). injection H as <-. set (a' := set_shares _ _ _ (set_vote_mana v d a)) in *.
  assert (stake_books (head_block_time r) (<[vde_delegator e := erase a']> (stakes r)) (vesting_delegations s) index) as B'.
  { apply (books_single _ _ _ (e :: index) _ _ (erase a) _ (vde_shares e)); try done; [by apply stakes_lookup| |by right|].
    - intros j. unfold exp_sum. rewrite sumZ_cons, (Z.eqb_sym j). destruct (_ =? j); lia.
    - change (delegated_vesting_shares a - vde_shares e + remaining a <= vesting_shares a). lia. }
  destruct (books_shares _ _ _ _ B' (vde_delegator e) (erase a')) as [Sa' Ea']; [apply lookup_insert_eq|]. apply erase_shares in Sa'.
  assert (effective a' = effective a + vde_shares e) as Eeff by (unfold a', effective, weekly; cbn; change (has_active_power_down (set_shares _ _ _ _)) with (has_active_power_down a); lia).
  pose proof (rk_account _ _ (ok_books _ _ R1) _ a Ha) as [_ _ Hdel _ _ _ _ _].
  pose proof (vest_change_ok _ (vde_delegator e) true false r a a' r2 R1 Ha Ta ltac:(done) Sa' ltac:(lia) ltac:(intros _; change (delegated_rc a') with (delegated_rc a); lia) H2) as C. cbn [rc push_returned set_rc_state]. split_and!.
  - destruct (sc_ok _ _ _ _ _ C) as [Y1 Y2 Y3]. split; [done|done|]. intros j x _. apply Y3. tauto.
  - transitivity r; [done|apply C].
  - by rewrite (changed_stakes _ _ _ _ _ C), (env_time _ _ (sc_env _ _ _ _ _ C)).
  - by exists (name a).
Qed.

Fixpoint drop_while {A} (p : A -> bool) (l : list A) : list A := match l with x :: l' => if p x then drop_while p l' else l | [] => [] end.

(** The clean-up returns what expired before now, the oldest first. *)
Lemma clear_expirations_ok index s s' : rc_ok (rc s) -> stake_books (head_block_time (rc s)) (stakes (rc s)) (vesting_delegations s) index -> 0 <= downvote_pool_percent s <= 10000 -> clear_expirations index s = Ok s' ->
  stake_ok s' /\ same_env (rc s) (rc s') /\ vesting_delegations s' = vesting_delegations s /\
  vd_expirations s' = drop_while (fun e => expiration e <? head_block_time (rc s)) index /\
  snd <$> returned s' = reverse (vde_shares <$> take_while (fun e => expiration e <? head_block_time (rc s)) index) ++ (snd <$> returned s).
Proof.
  revert s. induction index as [|e index IH]; intros s HR B Hp H; cbn [clear_expirations] in H; [injection H as <-; by split_and!; [constructor|..]|].
  cbn [drop_while take_while]. destruct (expiration e <? head_block_time (rc s)) eqn:E; [|injection H as <-; by split_and!; [constructor|..]].
  apply bind_Ok in H as (s1 & H1 & H). apply (return_ok e index s s1 HR B Hp) in H1 as (R1 & E1 & B1 & n & Es). rewrite Es in H. pose proof (env_time _ _ E1) as Et.
  apply (IH (push_returned (n, vde_shares e) (set_rc_state (rc s1) s))) in H as (K1 & K2 & K3 & K4 & K5); try done. cbn in K4, K5. rewrite Et in K4, K5. split_and!; try done.
  - by transitivity (rc s1).
  - rewrite K5. rewrite fmap_cons, reverse_cons, <- app_assoc. done.
Qed.

(** *** Power down *)

Lemma withdraw_rate_value shares : 0 < shares < 2 ^ 62 -> exists rate, withdraw_rate shares = Ok rate /\ 0 < rate /\ 13 * (rate - 1) < shares <= 13 * rate.
Proof.
  intros Hs. unfold withdraw_rate, HIVE_VESTING_WITHDRAW_INTERVALS. rewrite Z.quot_div_nonneg by lia. pose proof (Z.div_mod shares 13 ltac:(lia)) as Hdm. pose proof (Z.mod_pos_bound shares 13 ltac:(lia)) as Hm.
  set (q := shares / 13) in *. destruct (q =? 0) eqn:E; to_prop.
  - rewrite safe_mul_exact by (unfold in_s; lia). cbn [mbind result_bind]. rewrite (proj2 (Z.ltb_ge _ _)) by lia. eexists. split; [done|]. lia.
  - rewrite safe_mul_exact by (unfold in_s; lia). cbn [mbind result_bind]. destruct (_ <? _) eqn:E2; to_prop.
    + rewrite safe_add_exact by (unfold in_s; lia). eexists. split; [done|]. lia.
    + eexists. split; [done|]. lia.
Qed.

Lemma withdraw_ok i shares s s' : stake_ok s -> shares < 2 ^ 63 -> withdraw_vesting i shares s = Ok s' ->
  stake_ok s' /\ same_env (rc s) (rc s') /\ s' = set_rc_state (rc s') s /\ (forall a, accounts (rc s) !! i = Some a -> shares <= vesting_shares a - delegated_vesting_shares a) /\
  (0 < shares -> exists rate a, withdraw_rate shares = Ok rate /\
     stakes (rc s') = <[i := erase (set_power_down rate shares 0 (u32 (head_block_time (rc s) + HIVE_VESTING_WITHDRAW_INTERVAL_SECONDS)) a)]> (stakes (rc s))).
Proof.
  intros [HR B Hp] Hlt H. unfold withdraw_vesting in H. apply bind_Ok in H as (a0 & Ha0 & H). apply account_found in Ha0. apply bind_Ok in H as (u & _ & H). apply check_bind_Ok in H as [Hpos H]. apply check_bind_Ok in H as [_ H]. to_prop.
  destruct (books_of _ _ _ _ _ B Ha0) as (_ & S0 & _). pose proof S0 as [Q1 Q2 Q3 Q4 Q5 Q6 Q7]. rewrite safe_sub_exact in H by (unfold in_s; lia). cbn [mbind result_bind] in H. apply check_bind_Ok in H as [Hown H]. to_prop.
  apply bind_Ok in H as (r & Hr & H). apply (regenerate_stakes _ _ _ HR) in Hr as ((R1 & E1 & _) & S1 & (a & Ha & Ta) & _). rewrite (proj2 (account_found _ _ _) Ha) in H. cbn [mbind result_bind] in H.
  assert (erase a = erase a0) as Ee by (apply (stakes_lookup r) in Ha; apply stakes_lookup in Ha0; congruence).
  assert (vesting_shares a = vesting_shares a0 /\ delegated_vesting_shares a = delegated_vesting_shares a0) as [Ev Ed] by (split; [exact (f_equal vesting_shares Ee)|exact (f_equal delegated_vesting_shares Ee)]).
  rewrite <- S1, <- (env_time _ _ E1) in B. destruct (books_of _ _ _ _ _ B Ha) as ([A1 A2 A3 A4 A5 A6] & Sa & Ea). apply bind_Ok in H as (a' & Ha' & H). apply bind_Ok in H as (r2 & H2 & H). injection H as <-.
  assert (exists rate total next, a' = set_power_down rate total 0 next a /\ 0 <= rate /\ 0 <= total <= vesting_shares a - delegated_vesting_shares a /\
    (0 < shares -> withdraw_rate shares = Ok rate /\ total = shares /\ next = u32 (head_block_time r + HIVE_VESTING_WITHDRAW_INTERVAL_SECONDS))) as (rate & total & next & -> & Hrate & Htot & Hval).
  { destruct (shares =? 0) eqn:E0; to_prop; [apply check_bind_Ok in Ha' as [_ Ha']; injection Ha' as <-; eexists _, _, _; split; [done|]; split; [lia|]; split; [lia|]; lia|].
    destruct (withdraw_rate_value shares ltac:(lia)) as (rt & Hrt & Hrt2 & _). rewrite Hrt in Ha'. cbn [mbind result_bind] in Ha'. apply check_bind_Ok in Ha' as [_ Ha']. injection Ha' as <-. eexists _, _, _. split; [done|]. split; [lia|]. split; [lia|]. by intros _. }
  set (a' := set_power_down rate total 0 next a) in *. assert (down_ok a') as D' by (unfold down_ok; cbn; lia).
  assert (stake_books (head_block_time r) (<[i := erase a']> (stakes r)) (vesting_delegations s) (vd_expirations s)) as B'.
  { apply (books_single _ _ _ (vd_expirations s) _ _ (erase a) _ 0); try done; [by apply stakes_lookup|intros j; destruct (j =? i); lia|cbn; lia|].
    change (delegated_vesting_shares a + remaining a' <= vesting_shares a). unfold remaining. cbn [to_withdraw withdrawn set_power_down]. destruct (has_active_power_down a'); cbn; lia. }
  destruct (books_shares _ _ _ _ B' i (erase a')) as [Sa' Ea']; [apply lookup_insert_eq|]. apply erase_shares in Sa'.
  change (effective (erase a')) with (effective a') in Ea'. change (received_vesting_shares (erase a')) with (received_vesting_shares a) in Ea'.
  pose proof Sa as [_ _ Hrec _ _ _ _]. pose proof (vest_change_ok _ i false true r a a' r2 R1 Ha Ta ltac:(done) Sa' ltac:(lia) ltac:(done) H2) as C. cbn [rc set_rc_state]. split_and!; [|transitivity r; [done|apply C]|done| |].
  2:{ intros x Hx. assert (x = a0) as -> by congruence. exact Hown. }
  2:{ intros Hsh. destruct (Hval Hsh) as (Hrt & -> & ->). exists rate, a. split; [done|]. rewrite (changed_stakes _ _ _ _ _ C), S1. unfold a'. by rewrite (env_time _ _ E1). }
  constructor; [|cbn; by rewrite (changed_stakes _ _ _ _ _ C), (env_time _ _ (sc_env _ _ _ _ _ C))|done]. destruct (sc_ok _ _ _ _ _ C) as [Y1 Y2 Y3]. split; [done|done|]. intros j x _. apply Y3. tauto.
Qed.
End operations.
