(* ===== verification/Application.v ===== *)
(** * Applying transactions and blocks

    Models libraries/chain/database.cpp from a transaction to a block:
    [validate_transaction] and [_apply_transaction] with the detection of duplicates,
    the reference to a recent block (TaPoS) and the expiration; [apply_operation] with
    the guard of the restricted accounts; [_apply_block] around it, with the header
    checks, the global data, the block summary and the end of expired transactions;
    [compute_merkle_root] of full_block.cpp.

    The witnesses and their schedule are those of [WitnessSchedule], the authorities
    those of [Transaction].  What the evaluators, the resource credits and the other
    stages of a block do to the rest of the state is behind the interface
    [Evaluators]; [EvaluatorLaws] says that they leave the head block alone, which only
    [update_global_dynamic_data] sets.  Hardforks up to 28 are active. *)

From stdpp Require Import base numbers strings option list sorting gmap.
From S2P Require Import Prelude Fc Config AssetSymbol Asset Authority Validation Operations Transaction Version ForkDb Transfers WitnessSchedule.
Open Scope Z_scope.

(** ** Data *)

Definition hash_word (i : nat) (id : block_id_type) : Z := nth i (_hash id) 0.

(** [full_transaction_type]: the transaction with what is derived from it, and the
    time it expires at on this node ([0] before it is first validated). *)
Record full_transaction : Set := mk_ftx {
  trx : transaction;
  trx_id : Z;
  trx_size : Z;
  sig_digest : Z;
  signatures : list Z;
  merkle_digest : Z;
  runtime_expiration : Z
}.
Definition set_runtime_expiration x f := mk_ftx (trx f) (trx_id f) (trx_size f) (sig_digest f) (signatures f) (merkle_digest f) x.

Record transaction_object : Set := mk_txo { txo_id : Z; txo_trx_id : Z; txo_expiration : Z }.

(** A block: the header the fork database knows, and the rest of it. *)
Record full_block : Set := mk_full {
  header : full_block_type;
  block_signing_key : Z;
  transaction_merkle_root : Z;
  header_extensions : list header_extension;
  full_transactions : list full_transaction;
  block_size : Z
}.

Record skip_flags : Set := mk_skip {
  skip_tapos_check : bool;
  skip_validate : bool;
  skip_signatures : bool;
  skip_transaction_dupe_check : bool
}.
Definition skip_nothing : skip_flags := mk_skip false false false false.

(** ** The rest of the chain *)

(** The three authorities of an account; the evaluator of an operation, after its RC
    discount; the payment with RC at the end of a transaction, which says whether the
    transaction is privileged; the genesis work of the first block; the stages of a
    block after the expired transactions. *)
Class Evaluators (W : Type) : Type := {
  get_authorities : string -> W -> result (authority * authority * authority);
  evaluate : string -> operation -> chain -> W -> result (chain * W);
  finalize_transaction : string -> full_transaction -> chain -> W -> result (chain * W * bool);
  genesis_work : full_block -> chain -> W -> result (chain * W);
  rest_of_block : full_block -> chain -> W -> result (chain * W)
}.

(** The head block of a chain. *)
Definition same_head (c c' : chain) : Prop :=
  head_block_num c' = head_block_num c /\ head_block_time c' = head_block_time c /\ current_aslot c' = current_aslot c.

Class EvaluatorLaws (W : Type) `{E : Evaluators W} : Prop := {
  evaluate_head w op c o c' o' : evaluate w op c o = Ok (c', o') -> same_head c c';
  finalize_head w f c o c' o' b : finalize_transaction w f c o = Ok (c', o', b) -> same_head c c';
  genesis_head b c o c' o' : genesis_work b c o = Ok (c', o') -> same_head c c';
  rest_head b c o c' o' : rest_of_block b c o = Ok (c', o') -> same_head c c'
}.

(** [db]: the state of the chain.  [transactions] is the index [by_expiration],
    [summaries] the ids of the block summaries, one per 16-bit number. *)
Record db (W : Type) : Type := mk_db {
  sched : chain;
  objects : W;
  head_block_id : block_id_type;
  current_witness : string;
  transactions : list transaction_object;
  next_trx : Z;
  summaries : gmap Z block_id_type;
  recent_slots_filled : Z;
  participation_count : Z
}.
Arguments mk_db {W} _ _ _ _ _ _ _ _ _.
Arguments sched {W} _.
Arguments objects {W} _.
Arguments head_block_id {W} _.
Arguments current_witness {W} _.
Arguments transactions {W} _.
Arguments next_trx {W} _.
Arguments summaries {W} _.
Arguments recent_slots_filled {W} _.
Arguments participation_count {W} _.

Section application.
Context `{L : FcLib} `{R : RawLib} `{P : PowLib} {W : Type} `{E : Evaluators W}.
Implicit Types (d : db W).

Definition set_sched (x : chain) d : db W := mk_db x (objects d) (head_block_id d) (current_witness d) (transactions d) (next_trx d) (summaries d)
  (recent_slots_filled d) (participation_count d).
Definition set_state (c : chain) (o : W) d : db W := mk_db c o (head_block_id d) (current_witness d) (transactions d) (next_trx d) (summaries d)
  (recent_slots_filled d) (participation_count d).
Definition set_transactions (x : list transaction_object) (n : Z) d : db W := mk_db (sched d) (objects d) (head_block_id d) (current_witness d) x n (summaries d)
  (recent_slots_filled d) (participation_count d).
Definition set_current_witness (x : string) d : db W := mk_db (sched d) (objects d) (head_block_id d) x (transactions d) (next_trx d) (summaries d)
  (recent_slots_filled d) (participation_count d).
Definition set_summaries (x : gmap Z block_id_type) d : db W := mk_db (sched d) (objects d) (head_block_id d) (current_witness d) (transactions d) (next_trx d) x
  (recent_slots_filled d) (participation_count d).

Definition now d : Z := head_block_time (sched d).
Definition head_num d : Z := head_block_num (sched d).

(** ** The index of transactions *)

Fixpoint insert_transaction (x : transaction_object) (l : list transaction_object) : list transaction_object :=
  match l with
  | [] => [x]
  | y :: l' => if txo_expiration x <? txo_expiration y then x :: l else y :: insert_transaction x l'
  end.
(** [is_known_transaction], the pending ones apart. *)
Definition in_index (id : Z) d : bool := existsb (fun x => txo_trx_id x =? id) (transactions d).

Fixpoint drop_expired (t : Z) (l : list transaction_object) : list transaction_object :=
  match l with
  | [] => []
  | x :: l' => if txo_expiration x <? t then drop_expired t l' else l
  end.
Definition clear_expired_transactions d := set_transactions (drop_expired (now d) (transactions d)) (next_trx d) d.

(** ** Signatures *)

(** [fc::ecc::public_key( sig, digest )]. *)
Variable recover : Z -> Z -> result Z.

(** The blocks of [shared_db_merkle], with their roots. *)
Definition shared_db_merkle : list (Z * Z) :=
  [(3705111, 0x0a8f0fd5450c3706ec8b8cbad795cd0b3679bf35); (3705120, 0x2027edb72b671f7011c8cc4c7a8b59c39b305093);
   (3713940, 0xbf8a1d516927c506ebdbb7b38bef2e992435435f); (3714132, 0xe8b77773d268b72c8d650337b8cce360bbe64779);
   (3714567, 0x45af59a8c2d7d4a606151ef5dae03d2dfe13fbdd); (3714588, 0xe64275443bdc82f104ac936486d367af8f6d1584);
   (4138790, 0xf65a3a788a2ef52406d8ba5705d7288be228403f); (5435426, 0x0b32538b2d22bd3146d54b6e3cb5ae8b9780e8a5)].
Definition exempt (num : Z) : bool := existsb (fun x => x.1 =? num) shared_db_merkle.

Definition get_owner_of d (name : string) : result authority := '(o, a, p) ← get_authorities name (objects d); Ok o.
Definition get_active_of d (name : string) : result authority := '(o, a, p) ← get_authorities name (objects d); Ok a.
Definition get_posting_of d (name : string) : result authority := '(o, a, p) ← get_authorities name (objects d); Ok p.
(** The null key is [0]. *)
Definition get_witness_key d (name : string) : result Z := w ← get_witness name (witnesses (sched d)); Ok (default 0 (signing_key w)).

(** A missing active authority is forgiven in the blocks of [shared_db_merkle]. *)
Definition check_signatures (f : full_transaction) d : result unit :=
  keys ← get_signature_keys (recover (sig_digest f)) (signatures f);
  r ← get_required_authorities (operations (trx f));
  match verify_authority true true (get_active_of d) (get_owner_of d) (get_posting_of d) (get_witness_key d)
          (Z.to_nat HIVE_MAX_SIG_CHECK_DEPTH) HIVE_MAX_AUTHORITY_MEMBERSHIP HIVE_MAX_SIG_CHECK_ACCOUNTS ∅ ∅ ∅ r keys with
  | Throw MissingActiveAuth => check (exempt (u32 (head_num d + 1))) MissingActiveAuth
  | x => x
  end.

(** ** Transactions *)

Definition check_expiration (f : full_transaction) d : result full_transaction :=
  f ← (if runtime_expiration f =? 0 then
         _ ← check (expiration (trx f) <=? u32 (now d + HIVE_MAX_TIME_UNTIL_SIGNATURE_EXPIRATION)) TransactionExpiration;
         Ok (set_runtime_expiration (Z.min (expiration (trx f)) (u32 (now d + HIVE_MAX_TIME_UNTIL_EXPIRATION))) f)
       else Ok f);
  _ ← check (now d <? runtime_expiration f) TransactionExpiration;
  Ok f.
Definition check_tapos (f : full_transaction) d : result unit :=
  match summaries d !! ref_block_num (trx f) with
  | Some id => check (ref_block_prefix (trx f) =? hash_word 1 id) TransactionTapos
  | None => Throw OutOfRange
  end.

(** The transaction with its runtime expiration. *)
Definition validate_transaction (skip : skip_flags) (f : full_transaction) d : result full_transaction :=
  f ← (if 0 <? head_num d then
         f ← check_expiration f d;
         _ ← (if skip_tapos_check skip then Ok tt else check_tapos f d);
         Ok f
       else Ok f);
  _ ← (if skip_validate skip then Ok tt else transaction_validate (operations (trx f)));
  _ ← (if skip_signatures skip then Ok tt else check_signatures f d);
  Ok f.

Definition names_restricted (names : gset string) : bool := bool_decide (PIXA_ICO_ACCOUNT ∈ names) || bool_decide (PIXA_TEAM_ACCOUNT ∈ names).
Definition auths_restricted (auths : list authority) : bool := existsb (fun a => existsb (fun x => is_pixa_ico x.1) (account_auths a)) auths.

Definition assert_pixa_ico_operation_allowed (op : operation) : result unit :=
  r ← operation_get_required_authorities no_authorities op;
  if negb (names_restricted (required_active r)) && negb (names_restricted (required_owner r)) && negb (names_restricted (required_posting r))
     && negb (names_restricted (required_witness r)) && negb (auths_restricted (other r)) then Ok tt
  else match op with
       | Transaction.transfer t => check (is_pixa_ico (transfer_operation.from t) && sym_eqb (symbol (transfer_operation.amount t)) VESTS_SYMBOL) AssertFc
       | account_update _ | account_update2 _ => Ok tt
       | _ => Throw AssertFc
       end.

Definition apply_operation (op : operation) d : result (db W) :=
  _ ← assert_pixa_ico_operation_allowed op;
  '(c, o) ← evaluate (current_witness d) op (sched d) (objects d);
  Ok (set_state c o d).

(** The transaction, the state and whether the transaction is privileged. *)
Definition _apply_transaction (skip : skip_flags) (f : full_transaction) d : result (full_transaction * db W * bool) :=
  _ ← (if skip_transaction_dupe_check skip then Ok tt else check (negb (in_index (trx_id f) d)) AssertFc);
  f ← validate_transaction skip f d;
  let d := if skip_transaction_dupe_check skip then d
           else set_transactions (insert_transaction (mk_txo (next_trx d) (trx_id f) (expiration (trx f))) (transactions d)) (next_trx d + 1) d in
  d ← foldM (fun d op => apply_operation op d) d (operations (trx f));
  '(c, o, privileged) ← finalize_transaction (current_witness d) f (sched d) (objects d);
  Ok (f, set_state c o d, privileged).

Fixpoint apply_transactions (skip : skip_flags) (l : list full_transaction) d : result (db W) :=
  match l with
  | [] => Ok d
  | f :: l => '(_, d, _) ← _apply_transaction skip f d; apply_transactions skip l d
  end.

(** ** Blocks *)

(** [digest_type::hash] of a pair of digests, and [checksum_type::hash] of a digest. *)
Variable hash_pair : Z -> Z -> Z.
Variable hash_root : Z -> Z.

(** One round of hashing in pairs; a last digest without a partner moves up. *)
Fixpoint merkle_round (ids : list Z) : list Z :=
  match ids with
  | x :: y :: rest => hash_pair x y :: merkle_round rest
  | _ => ids
  end.
(** Every round leaves fewer digests, so the fuel is never used up. *)
Fixpoint merkle_loop (fuel : nat) (ids : list Z) : Z :=
  match fuel, ids with
  | S fuel, _ :: _ :: _ => merkle_loop fuel (merkle_round ids)
  | _, _ => hd 0 ids
  end.
Definition compute_merkle_root (l : list full_transaction) : Z :=
  match l with
  | [] => 0
  | _ => hash_root (merkle_loop (length l) (merkle_digest <$> l))
  end.

Definition number (b : full_block) : Z := block_num (header b).

(** A known bad root is accepted in its block. *)
Definition check_merkle (b : full_block) : result unit :=
  let merkle_root := compute_merkle_root (full_transactions b) in
  check ((transaction_merkle_root b =? merkle_root) || existsb (fun x => (x.1 =? number b) && (x.2 =? merkle_root)) shared_db_merkle) AssertFc.

Definition validate_block_header (b : full_block) d : result witness_object :=
  _ ← check (bool_decide (head_block_id d = previous (header b))) AssertFc;
  validate_producer (witness (header b)) (timestamp (header b)) (block_signing_key b) (sched d).

(** One round of the loop over the slots of a block: the oldest of 128 leaves, the
    block fills the first. *)
Definition shift_slots (filled : bool) (x : Z * Z) : Z * Z :=
  let '(slots, count) := x in
  let count := u8 (count - (if Z.testbit slots 127 then 1 else 0)) in
  (u128 (Z.shiftl slots 1 + (if filled then 1 else 0)), u8 (count + (if filled then 1 else 0))).
Definition fill_slots (missed : nat) (x : Z * Z) : Z * Z := Nat.iter missed (shift_slots false) (shift_slots true x).
Definition witness_participation_rate d : Z := u32 (HIVE_100_PERCENT * Z.of_nat (length (filter (fun i => Z.testbit (recent_slots_filled d) (Z.of_nat i) = true) (seq 0 128))) / 128).

Definition set_head_block (num time aslot : Z) (c : chain) : chain := mk_chain (witnesses c) (wso_current c) (wso_future c) (hpo c) num time aslot
  (total_vesting_shares c) (num_pow_witnesses c) (maximum_block_size c) (hbd_interest_rate c) (warnings c).

Definition update_global_dynamic_data (last_irreversible : Z) (b : full_block) d : result (db W) :=
  let h := header b in
  let missed := u32 (u32 (get_slot_at_time (timestamp h) (sched d)) - 1) in
  c ← (if negb (head_num d =? 0) && negb (missed =? 0) then update_witness_missed_blocks (witness h) missed (sched d) else Ok (sched d));
  let '(slots, count) := fill_slots (Z.to_nat missed) (recent_slots_filled d, participation_count d) in
  let c := set_head_block (number b) (timestamp h) (u64 (current_aslot c + missed + 1)) c in
  _ ← check (u32 (head_block_num c - last_irreversible) <? HIVE_MAX_UNDO_HISTORY) AssertFc;
  Ok (mk_db c (objects d) (block_id h) (current_witness d) (transactions d) (next_trx d) (summaries d) slots count).

Definition create_block_summary (b : full_block) d : db W :=
  set_summaries (<[Z.land (number b) 0xffff := block_id (header b)]> (summaries d)) d.

(** [_apply_block] up to the transactions: the witness that signed, and the state. *)
Definition begin_block (b : full_block) d : result (witness_object * db W) :=
  d ← (if number b =? 1 then '(c, o) ← genesis_work b (sched d) (objects d); Ok (set_state c o d) else Ok d);
  _ ← check_merkle b;
  signing_witness ← validate_block_header b d;
  _ ← check (block_size b <=? maximum_block_size (sched d)) AssertFc;
  let d := set_current_witness (witness (header b)) d in
  c ← process_header_extensions (witness (header b)) (header_extensions b) (sched d);
  let d := set_sched c d in
  w ← get_witness (witness (header b)) (witnesses c);
  _ ← check (version_op greater_equal (running_version w) (current_hardfork_version (hpo c))) AssertFc;
  Ok (signing_witness, d).

(** And after them; [last_irreversible] is the last irreversible block before it. *)
Definition finish_block (last_irreversible : Z) (b : full_block) (signing_witness : witness_object) d : result (db W) :=
  d ← update_global_dynamic_data last_irreversible b d;
  c ← update_signing_witness (owner signing_witness) (timestamp (header b)) (number b) (sched d);
  let d := create_block_summary b (set_sched c d) in
  let d := clear_expired_transactions d in
  '(c, o) ← rest_of_block b (sched d) (objects d);
  Ok (set_state c o d).

Definition _apply_block (last_irreversible : Z) (b : full_block) d : result (db W) :=
  '(signing_witness, d) ← begin_block b d;
  d ← apply_transactions skip_nothing (full_transactions b) d;
  finish_block last_irreversible b signing_witness d.

(** A chain of blocks, each with the last irreversible block before it. *)
Definition apply_blocks (l : list (Z * full_block)) d : result (db W) := foldM (fun d x => _apply_block x.1 x.2 d) d l.
End application.

(** ** What an application leaves alone *)

Section frames.
Context `{L : FcLib} `{R : RawLib} `{P : PowLib} {W : Type} `{E : Evaluators W} `{!EvaluatorLaws W}.
Implicit Types (d : db W).

(** Nothing but the objects and the witnesses changed. *)
Record frame d d' : Prop := {
  fr_head : same_head (sched d) (sched d');
  fr_id : head_block_id d' = head_block_id d;
  fr_witness : current_witness d' = current_witness d;
  fr_transactions : transactions d' = transactions d;
  fr_next : next_trx d' = next_trx d;
  fr_summaries : summaries d' = summaries d;
  fr_slots : recent_slots_filled d' = recent_slots_filled d /\ participation_count d' = participation_count d
}.
#[export] Instance frame_preorder : PreOrder frame.
Proof.
  split; [intros d; constructor; done|]. intros x y z [(A1 & A2 & A3) A4 A5 A6 A7 A8 [A9 A0]] [(B1 & B2 & B3) B4 B5 B6 B7 B8 [B9 B0]].
  constructor; repeat split; congruence.
Qed.

Lemma frame_state c o d : same_head (sched d) c -> frame d (set_state c o d).
Proof. intros H. constructor; done. Qed.

Lemma frame_now d d' : frame d d' -> now d' = now d /\ head_num d' = head_num d.
Proof. intros [(? & ? & ?) _ _ _ _ _ _]. done. Qed.

Lemma apply_operation_frame op d d' : apply_operation op d = Ok d' -> frame d d'.
Proof.
  unfold apply_operation. intros H. apply bind_Ok in H as ([] & _ & H). apply bind_Ok in H as ([c o] & He & H). injection H as <-.
  apply frame_state. by eapply evaluate_head.
Qed.

Lemma apply_operations_frame ops d d' : foldM (fun d op => apply_operation op d) d ops = Ok d' -> frame d d'.
Proof.
  revert d. induction ops as [|op ops IH]; intros d H; cbn in H; [by injection H as <-|].
  destruct (apply_operation op d) as [d1|] eqn:E1; [|done]. etrans; [by eapply apply_operation_frame|by apply IH].
Qed.

Variable recover : Z -> Z -> result Z.

(** [d] with the transaction in the index. *)
Definition remember (f : full_transaction) d : db W :=
  set_transactions (insert_transaction (mk_txo (next_trx d) (trx_id f) (expiration (trx f))) (transactions d)) (next_trx d + 1) d.

Lemma validate_same skip f d f' : validate_transaction recover skip f d = Ok f' ->
  trx f' = trx f /\ trx_id f' = trx_id f /\ merkle_digest f' = merkle_digest f /\ trx_size f' = trx_size f.
Proof.
  intros H. unfold validate_transaction in H. apply bind_Ok in H as (g & Hg & H). apply bind_Ok in H as (? & _ & H). apply bind_Ok in H as (? & _ & H). injection H as <-.
  destruct (0 <? head_num d); [|by injection Hg as <-]. apply bind_Ok in Hg as (h & Hh & Hg). apply bind_Ok in Hg as (? & _ & Hg). injection Hg as <-.
  unfold check_expiration in Hh. apply bind_Ok in Hh as (k & Hk & Hh). apply bind_Ok in Hh as (? & _ & Hh). injection Hh as <-.
  destruct (runtime_expiration f =? 0); [|by injection Hk as <-]. apply bind_Ok in Hk as (? & _ & Hk). by injection Hk as <-.
Qed.

(** What a transaction that is applied with every check changes. *)
Lemma apply_transaction_inv f d f' d' p : _apply_transaction recover skip_nothing f d = Ok (f', d', p) ->
  in_index (trx_id f) d = false /\ validate_transaction recover skip_nothing f d = Ok f' /\ frame (remember f d) d' /\
  exists d1, foldM (fun d op => apply_operation op d) (remember f d) (operations (trx f)) = Ok d1.
Proof.
  intros H. unfold _apply_transaction in H. cbn [skip_transaction_dupe_check skip_nothing] in H. apply check_bind_Ok in H as [Hi H].
  apply bind_Ok in H as (g & Hg & H). destruct (validate_same _ _ _ _ Hg) as (E1 & E2 & _). cbv zeta in H. rewrite E1, E2 in H.
  apply bind_Ok in H as (d1 & H1 & H). apply bind_Ok in H as ([[c o] b] & Hf & H). injection H as <- <- <-.
  split_and!; [by destruct (in_index _ _)|done| |by exists d1]. etrans; [by eapply apply_operations_frame|]. apply frame_state. by eapply finalize_head.
Qed.

(** ** Expiration *)

(** The runtime expiration never exceeds the one that was signed. *)
Definition ftx_ok (f : full_transaction) : Prop := runtime_expiration f <= expiration (trx f) /\ 0 <= expiration (trx f) < 2 ^ 32.

Lemma check_expiration_inv f d f' : ftx_ok f -> check_expiration f d = Ok f' ->
  now d < runtime_expiration f' <= expiration (trx f) /\ f' = set_runtime_expiration (runtime_expiration f') f /\
  (runtime_expiration f = 0 -> expiration (trx f) <= u32 (now d + HIVE_MAX_TIME_UNTIL_SIGNATURE_EXPIRATION)).
Proof.
  intros [H1 H2] H. unfold check_expiration in H. apply bind_Ok in H as (g & Hg & H). apply check_bind_Ok in H as [Hn H]. to_prop. injection H as <-.
  destruct (Z.eqb_spec (runtime_expiration f) 0) as [Er|Er].
  - apply check_bind_Ok in Hg as [Hx Hg]. to_prop. injection Hg as <-. cbn in *. split_and!; [lia|lia|done|done].
  - injection Hg as <-. split_and!; [lia|lia|by destruct f|done].
Qed.

Lemma validated_in_time f d f' : ftx_ok f -> 0 < head_num d -> validate_transaction recover skip_nothing f d = Ok f' -> now d < expiration (trx f).
Proof.
  intros Hf Hh H. unfold validate_transaction in H. rewrite (proj2 (Z.ltb_lt 0 _)) in H by done. apply bind_Ok in H as (g & Hg & _).
  apply bind_Ok in Hg as (h & Hh1 & _). apply check_expiration_inv in Hh1 as (? & _); [lia|done].
Qed.

(** ** The index of transactions *)

Lemma elem_of_insert_transaction x l y : y ∈ insert_transaction x l <-> y = x \/ y ∈ l.
Proof.
  induction l as [|z l IH]; cbn; [set_solver|]. destruct (_ <? _); [set_solver|]. rewrite elem_of_cons, IH, elem_of_cons. tauto.
Qed.

Lemma elem_of_drop_expired t l x : x ∈ l -> txo_expiration x < t \/ x ∈ drop_expired t l.
Proof.
  induction l as [|y l IH]; [by intros ?%elem_of_nil|]. intros H. cbn. destruct (Z.ltb_spec (txo_expiration y) t) as [Hy|Hy]; [|by right].
  apply elem_of_cons in H as [->|H]; [by left|by apply IH].
Qed.

Lemma in_index_true id d : in_index id d = true <-> exists x, x ∈ transactions d /\ txo_trx_id x = id.
Proof.
  unfold in_index. rewrite existsb_exists. split; intros (x & Hx & Hi); exists x; (split; [by apply list_elem_of_In|]); by apply Z.eqb_eq.
Qed.

(** The index has the transaction. *)
Definition indexed (f : full_transaction) d : Prop :=
  exists x, x ∈ transactions d /\ txo_trx_id x = trx_id f /\ txo_expiration x = expiration (trx f).
(** Every one of the transactions is in the index or expired. *)
Definition recorded (l : list full_transaction) d : Prop :=
  forall f, f ∈ l -> indexed f d \/ (expiration (trx f) < now d /\ 0 < head_num d).

(** Transactions with the same id expire at the same time. *)
Definition same_ids (l : list full_transaction) : Prop :=
  forall f g, f ∈ l -> g ∈ l -> trx_id f = trx_id g -> expiration (trx f) = expiration (trx g).

Lemma fresh_transaction past f d f' d' p : recorded past d -> ftx_ok f -> same_ids (f :: past) ->
  _apply_transaction recover skip_nothing f d = Ok (f', d', p) ->
  trx_id f ∉ trx_id <$> past /\ recorded (f :: past) d' /\ now d' = now d /\ head_num d' = head_num d.
Proof.
  intros HP Hf Hs H. apply apply_transaction_inv in H as (Hi & Hv & F & _). destruct (frame_now _ _ F) as [N1 N2]. cbn in N1, N2. split_and!; [..|done|done].
  - intros (g & Hg & Hin)%list_elem_of_fmap. assert (expiration (trx f) = expiration (trx g)) as He by (apply Hs; set_solver).
    destruct (HP g Hin) as [(x & Hx & Hid & _)|[Hlt Hn]].
    + assert (in_index (trx_id f) d = true) as Ht by (apply in_index_true; exists x; split; congruence). congruence.
    + pose proof (validated_in_time _ _ _ Hf Hn Hv). lia.
  - intros g [->|Hg]%elem_of_cons.
    + left. exists (mk_txo (next_trx d) (trx_id f) (expiration (trx f))). rewrite (fr_transactions _ _ F). cbn. split; [by apply elem_of_insert_transaction; left|done].
    + destruct (HP g Hg) as [(x & Hx & Hid & He)|[Hlt Hn]]; [left|right].
      * exists x. rewrite (fr_transactions _ _ F). cbn. split; [by apply elem_of_insert_transaction; right|done].
      * unfold now, head_num in *. rewrite N1, N2. done.
Qed.

Lemma fresh_transactions l past d d' : recorded past d -> Forall ftx_ok l -> same_ids (past ++ l) -> NoDup (trx_id <$> past) ->
  apply_transactions recover skip_nothing l d = Ok d' ->
  NoDup (trx_id <$> past ++ l) /\ recorded (past ++ l) d' /\ now d' = now d /\ head_num d' = head_num d.
Proof.
  revert past d. induction l as [|f l IH]; intros past d HP Hf Hs Hn H; cbn in H; [injection H as <-; by rewrite app_nil_r|].
  apply bind_Ok in H as ([[f' d1] p] & H1 & H). apply Forall_cons in Hf as [Hf Hfs].
  eapply fresh_transaction in H1 as (A1 & A2 & A3 & A4); [|done|done|intros x y Hx Hy; apply Hs; set_solver].
  rewrite cons_middle, app_assoc in Hs |- *. apply (IH (past ++ [f])) in H as (B1 & B2 & B3 & B4); [|..|done|done|].
  - split_and!; [done|done|by rewrite B3|by rewrite B4].
  - intros g Hg. apply A2. set_solver.
  - rewrite fmap_app. cbn. apply NoDup_app. split_and!; [done|set_solver|apply NoDup_singleton].
Qed.

(** ** Blocks *)

Variable hash_pair : Z -> Z -> Z.
Variable hash_root : Z -> Z.

Lemma shared_head (f : witness_object -> witness_object) i c : same_head c (set_witnesses (modify_witness i f (witnesses c)) c).
Proof. done. Qed.
#[local] Instance same_head_preorder : PreOrder same_head.
Proof. split; [done|]. intros x y z (A1 & A2 & A3) (B1 & B2 & B3). repeat split; congruence. Qed.

Lemma header_extensions_head w l c c' : process_header_extensions w l c = Ok c' -> same_head c c'.
Proof.
  revert c. induction l as [|e l IH]; intros c H; cbn in H; [by injection H as <-|]. destruct (process_header_visitor w c e) as [c1|] eqn:E1; [|done].
  etrans; [|by apply IH]. destruct e as [|v|v x]; cbn in E1; [by injection E1 as <-|..]; apply bind_Ok in E1 as (y & _ & E1); destruct (_ : bool) in E1; by injection E1 as <-.
Qed.

Lemma missed_head w n i c c' : missed_from w n i c = Ok c' -> same_head c c'.
Proof.
  revert i c. induction n as [|n IH]; intros i c H; cbn in H; [by injection H as <-|]. apply bind_Ok in H as (x & _ & H).
  apply IH in H. destruct (bool_decide _); done.
Qed.

(** The state in which the transactions of a block are applied. *)
Record block_begun (b : full_block) d d1 : Prop := {
  bb_head : now d1 = now d /\ head_num d1 = head_num d;
  bb_previous : head_block_id d = previous (header b);
  bb_time : now d < timestamp (header b);
  bb_transactions : transactions d1 = transactions d;
  bb_summaries : summaries d1 = summaries d;
  bb_slots : recent_slots_filled d1 = recent_slots_filled d /\ participation_count d1 = participation_count d
}.

(** What a block does to the head, the index and the summaries. *)
Lemma apply_block_inv irreversible b d d' : _apply_block recover hash_pair hash_root irreversible b d = Ok d' ->
  exists d1 d2, block_begun b d d1 /\ apply_transactions recover skip_nothing (full_transactions b) d1 = Ok d2 /\
    now d' = timestamp (header b) /\ head_num d' = number b /\ head_block_id d' = block_id (header b) /\
    transactions d' = drop_expired (timestamp (header b)) (transactions d2) /\
    summaries d' = <[Z.land (number b) 0xffff := block_id (header b)]> (summaries d2) /\
    (transaction_merkle_root b = compute_merkle_root hash_pair hash_root (full_transactions b) \/ exempt (number b) = true) /\
    exists missed, (recent_slots_filled d', participation_count d') = fill_slots missed (recent_slots_filled d2, participation_count d2).
Proof.
  intros H. unfold _apply_block in H. apply bind_Ok in H as ([sw d1] & Hd1 & H). apply bind_Ok in H as (d2 & H2 & H). unfold begin_block in Hd1. unfold finish_block in H.
  apply bind_Ok in Hd1 as (d0 & H0 & Hd1). assert (frame d d0) as F0.
  { destruct (number b =? 1); [|by injection H0 as <-]. apply bind_Ok in H0 as ([c o] & Hg & H0). injection H0 as <-. apply frame_state. by eapply genesis_head. }
  apply bind_Ok in Hd1 as ([] & Hm & Hd1). apply bind_Ok in Hd1 as (sw' & Hsw & Hd1). apply check_bind_Ok in Hd1 as [_ Hd1]. apply bind_Ok in Hd1 as (c & Hc & Hd1). cbv zeta in Hd1.
  apply bind_Ok in Hd1 as (w & _ & Hd1). apply check_bind_Ok in Hd1 as [_ Hd1]. injection Hd1 as -> Ed1. apply bind_Ok in H as (d3 & H3 & H).
  apply bind_Ok in H as (c4 & H4 & H). cbv zeta in H. apply bind_Ok in H as ([c5 o5] & H5 & H). injection H as <-.
  exists d1, d2. subst d1.
  apply header_extensions_head in Hc as (C1 & C2 & C3). cbn in C1, C2, C3. pose proof (frame_now _ _ F0) as [N0 N1].
  unfold validate_block_header in Hsw. apply check_bind_Ok in Hsw as [Hp Hsw]. to_prop. apply check_bind_Ok in Hsw as [Ht _]. to_prop.
  unfold update_global_dynamic_data in H3. apply bind_Ok in H3 as (c3 & Hc3 & H3). cbv zeta in H3. destruct (fill_slots _ _) as [slots count] eqn:Hslots. apply check_bind_Ok in H3 as [_ H3]. injection H3 as <-.
  unfold update_signing_witness in H4. apply bind_Ok in H4 as (w4 & _ & H4). injection H4 as <-. apply rest_head in H5 as (R1 & R2 & R3). cbn in R1, R2, R3.
  split_and!; [|done|done|done|done|done|done| |by eexists].
  - constructor; [..|apply (fr_transactions _ _ F0)|apply (fr_summaries _ _ F0)|apply (fr_slots _ _ F0)].
    + unfold now, head_num in *. cbn. by rewrite C1, C2.
    + by rewrite <- (fr_id _ _ F0).
    + by rewrite <- N0.
  - unfold check_merkle in Hm. apply check_Ok in Hm. apply orb_true_iff in Hm as [Hm|Hm]; [left; by apply Z.eqb_eq|right].
    apply existsb_exists in Hm as (x & Hx & [Hn _]%andb_true_iff). apply existsb_exists. by exists x.
Qed.
End frames.
