(* ===== verification/ReplaySafety.v ===== *)
(** * What a block lets through

    The theorems on [Application]: no transaction is applied twice on a chain, every
    transaction was signed for, is in time and refers to a block of the chain it is
    applied on, the restricted accounts only move VESTS, the merkle root fixes the
    transactions of a block, and the count of filled slots is the number of bits it
    stands for.  [Sample] applies them to a small chain, and shows two ways in which
    the code lets through, or refuses, what it should not. *)

From stdpp Require Import base numbers strings option list sorting gmap.
From S2P Require Import Prelude Fc Config AssetSymbol Asset Authority Validation Operations Transaction Version ForkDb Transfers WitnessSchedule Application.
Open Scope Z_scope.

Section safety.
Context `{L : FcLib} `{R : RawLib} `{P : PowLib} {W : Type} `{E : Evaluators W} `{!EvaluatorLaws W}.
Implicit Types (d : db W).
Variable recover : Z -> Z -> result Z.
Variable hash_pair : Z -> Z -> Z.
Variable hash_root : Z -> Z.
Notation apply_blocks := (apply_blocks recover hash_pair hash_root).
Notation _apply_block := (_apply_block recover hash_pair hash_root).

(** ** Duplicates *)

(** The transactions of a chain of blocks. *)
Definition transactions_of (l : list (Z * full_block)) : list full_transaction := concat ((fun x => full_transactions x.2) <$> l).

Lemma apply_blocks_app l x d d' : apply_blocks (l ++ [x]) d = Ok d' <-> exists d1, apply_blocks l d = Ok d1 /\ _apply_block x.1 x.2 d1 = Ok d'.
Proof.
  unfold Application.apply_blocks. revert d. induction l as [|y l IH]; intros d; cbn.
  - split; [intros H; exists d; split; [done|]; by destruct (_apply_block _ _ d)|intros (d1 & [= <-] & ->); done].
  - destruct (_apply_block y.1 y.2 d) as [d1|]; [apply IH|]. split; [done|by intros (? & ? & _)].
Qed.

Lemma recorded_blocks l d0 d : transactions d0 = [] -> apply_blocks l d0 = Ok d -> Forall (fun x => block_wf (header x.2)) l ->
  Forall ftx_ok (transactions_of l) -> same_ids (transactions_of l) -> NoDup (trx_id <$> transactions_of l) /\ recorded (transactions_of l) d.
Proof.
  intros H0. revert d. induction l as [|[irr b] l IH] using rev_ind; intros d H Hw Hf Hs; [split; [constructor|by intros f ?%elem_of_nil]|].
  apply apply_blocks_app in H as (d1 & Hl & Hb). unfold transactions_of in *. rewrite fmap_app, concat_app in Hf, Hs |- *. cbn in *. rewrite app_nil_r in *.
  apply Forall_app in Hf as [Hf1 Hf2]. apply Forall_app in Hw as [Hw1 [Hw2 _]%Forall_cons]. destruct (IH d1) as [N1 R1]; [done|done|done|intros f g Hx Hy; apply Hs; set_solver|].
  apply apply_block_inv in Hb as (d2 & d3 & [[B1 B2] B3 B4 B5 B6 B7] & Ht & T1 & T2 & T3 & T4 & T5 & _).
  eapply fresh_transactions in Ht as (N2 & R2 & M1 & M2); [| |exact Hf2|exact Hs|exact N1].
  - split; [done|]. intros f Hx. assert (0 < number b) as Hn by (unfold number; rewrite block_num_wf by done; destruct Hw2 as [_ Hw2]; cbn in Hw2; lia).
    assert (now d1 < now d) as Hlt by (by rewrite T1). destruct (R2 f Hx) as [(x & X1 & X2 & X3)|[X1 X2]]; [|right; rewrite T2; split; [lia|done]].
    destruct (elem_of_drop_expired (timestamp (header b)) _ x X1) as [Y|Y]; [right; rewrite T2; split; [lia|done]|left]. exists x. by rewrite T4.
  - intros f Hx. unfold indexed. rewrite B5, B1, B2. by apply R1.
Qed.

(** C1.  No transaction is applied twice.  On every chain of blocks, applied from a
    state without transactions, the ids of all transactions are different: the index
    knows a transaction until the expiration it was signed with, and after that it is
    refused.  Two transactions with the same id are taken to expire at the same time. *)
Theorem no_transaction_applied_twice l d0 d : transactions d0 = [] -> apply_blocks l d0 = Ok d -> Forall (fun x => block_wf (header x.2)) l ->
  Forall ftx_ok (transactions_of l) -> same_ids (transactions_of l) -> NoDup (trx_id <$> transactions_of l).
Proof. intros H0 H Hw Hf Hs. by eapply recorded_blocks. Qed.

(** ** The block a transaction refers to *)

(** The id of the last block whose number ends in the given 16 bits. *)
Fixpoint reference (n : Z) (l : list (Z * full_block)) : option block_id_type :=
  match l with
  | [] => None
  | x :: l => match reference n l with Some i => Some i | None => if Z.land (number x.2) 0xffff =? n then Some (block_id (header x.2)) else None end
  end.

Lemma reference_app n l x : reference n (l ++ [x]) = if Z.land (number x.2) 0xffff =? n then Some (block_id (header x.2)) else reference n l.
Proof.
  induction l as [|y l IH]; cbn; [by destruct (_ =? _)|]. rewrite IH. destruct (_ =? _); [done|]. done.
Qed.

Lemma transactions_summaries l d d' : apply_transactions recover skip_nothing l d = Ok d' ->
  summaries d' = summaries d /\ now d' = now d /\ head_num d' = head_num d.
Proof.
  revert d. induction l as [|f l IH]; intros d H; cbn in H; [by injection H as <-|]. apply bind_Ok in H as ([[f' d1] p] & H1 & H).
  apply apply_transaction_inv in H1 as (_ & _ & F & _). apply IH in H as (-> & -> & ->). destruct (frame_now _ _ F) as [-> ->]. split_and!; [apply (fr_summaries _ _ F)|done|done].
Qed.

Lemma summaries_of_chain l d0 d n : apply_blocks l d0 = Ok d ->
  summaries d !! n = match reference n l with Some i => Some i | None => summaries d0 !! n end.
Proof.
  revert d. induction l as [|[irr b] l IH] using rev_ind; intros d H; [cbn in *; by injection H as <-|].
  apply apply_blocks_app in H as (d1 & Hl & Hb). rewrite reference_app. cbn [fst snd] in *. apply apply_block_inv in Hb as (d2 & d3 & B & Ht & _ & _ & _ & _ & -> & _).
  apply transactions_summaries in Ht as (-> & _). rewrite (bb_summaries _ _ _ B). destruct (Z.eqb_spec (Z.land (number b) 65535) n) as [->|Hne]; [by rewrite lookup_insert_eq|].
  rewrite lookup_insert_ne by done. by apply IH.
Qed.

(** C21.  A transaction only counts on the chain it was signed for.  After the first
    block, a transaction that a block applies names the last block of this very chain
    whose number ends in its [ref_block_num], by the second word of its id; only while
    there is no such block it names the initial summary. *)
Theorem transaction_refers_to_chain l d0 d irr b d' f : apply_blocks l d0 = Ok d -> _apply_block irr b d = Ok d' -> 0 < head_num d ->
  f ∈ full_transactions b ->
  match reference (ref_block_num (trx f)) l with
  | Some id => ref_block_prefix (trx f) = hash_word 1 id
  | None => exists id, summaries d0 !! ref_block_num (trx f) = Some id /\ ref_block_prefix (trx f) = hash_word 1 id
  end.
Proof.
  intros Hl Hb Hn Hf. apply apply_block_inv in Hb as (d1 & d2 & B & Ht & _). apply (summaries_of_chain _ _ _ (ref_block_num (trx f))) in Hl.
  rewrite <- (bb_summaries _ _ _ B) in Hl. rewrite <- (proj2 (bb_head _ _ _ B)) in Hn. clear B.
  assert (exists id, summaries d1 !! ref_block_num (trx f) = Some id /\ ref_block_prefix (trx f) = hash_word 1 id) as (id & Hid & Hp).
  { revert d1 Hl Hn Ht. induction (full_transactions b) as [|g gs IH]; intros d1 Hl Hn Ht; [by apply elem_of_nil in Hf|]. cbn in Ht.
    apply bind_Ok in Ht as ([[g' d3] p] & H1 & Ht). apply apply_transaction_inv in H1 as (_ & Hv & F & _). apply elem_of_cons in Hf as [->|Hf].
    - unfold validate_transaction in Hv. rewrite (proj2 (Z.ltb_lt 0 _)) in Hv by done. apply bind_Ok in Hv as (h & Hh & _). apply bind_Ok in Hh as (k & Hk & Hh).
      apply bind_Ok in Hh as ([] & Hh & _). unfold check_expiration in Hk. apply bind_Ok in Hk as (k1 & Hk1 & Hk). apply bind_Ok in Hk as (? & _ & [= <-]).
      assert (trx k1 = trx g) as Eg by (destruct (runtime_expiration g =? 0); [apply bind_Ok in Hk1 as (? & _ & [= <-]); done|by injection Hk1 as <-]).
      unfold check_tapos in Hh. rewrite Eg in Hh. destruct (summaries d1 !! _) as [id|]; [|done]. apply check_Ok in Hh. to_prop. by exists id.
    - destruct (IH Hf d3) as (id & Hid & Hp); [by rewrite (fr_summaries _ _ F)|by rewrite (proj2 (frame_now _ _ F))|done|].
      exists id. by rewrite (fr_summaries _ _ F) in Hid. }
  rewrite Hl in Hid. destruct (reference _ l) as [i|]; [congruence|by exists id].
Qed.

(** ** Signatures *)

(** The operations the restricted accounts may take part in. *)
Definition allowed_restricted (op : operation) : Prop :=
  match op with
  | Transaction.transfer t => is_pixa_ico (transfer_operation.from t) = true /\ sym_eqb (symbol (transfer_operation.amount t)) VESTS_SYMBOL = true
  | account_update _ | account_update2 _ => True
  | _ => False
  end.
Definition involves (n : string) (op : operation) : Prop := n ∈ active_of op \/ n ∈ owner_of op \/ n ∈ posting_of op \/ n ∈ witness_of op.

Lemma names_restricted_true n X : is_pixa_ico n = true -> n ∈ X -> names_restricted X = true.
Proof.
  unfold is_pixa_ico, names_restricted. intros [H|H]%orb_true_iff Hn; apply bool_decide_eq_true in H as ->; apply orb_true_iff; [left|right]; by apply bool_decide_eq_true.
Qed.

Lemma operation_allowed op n : assert_pixa_ico_operation_allowed op = Ok tt -> is_pixa_ico n = true -> involves n op -> allowed_restricted op.
Proof.
  intros H Hn Hi. unfold assert_pixa_ico_operation_allowed in H. apply bind_Ok in H as (r & Hr & H). apply visit_covers in Hr as [Hc _].
  assert (names_restricted (required_active r) = true \/ names_restricted (required_owner r) = true \/ names_restricted (required_posting r) = true \/
          names_restricted (required_witness r) = true) as Hx.
  { destruct Hc as (C1 & C2 & C3 & C4 & _). destruct Hi as [Hi|[Hi|[Hi|Hi]]]; [left|right; left|right; right; left|right; right; right];
      eapply names_restricted_true; try done; set_solver. }
  assert (negb (names_restricted (required_active r)) && negb (names_restricted (required_owner r)) && negb (names_restricted (required_posting r))
     && negb (names_restricted (required_witness r)) && negb (auths_restricted (other r)) = false) as Hf.
  { destruct Hx as [Hx|[Hx|[Hx|Hx]]]; rewrite Hx, ?andb_false_r; done. }
  rewrite Hf in H. destruct op; try done. apply check_Ok in H. apply andb_true_iff in H as [H1 H2]. done.
Qed.

Lemma operations_allowed ops d d' : foldM (fun d op => apply_operation op d) d ops = Ok d' ->
  forall op n, op ∈ ops -> is_pixa_ico n = true -> involves n op -> allowed_restricted op.
Proof.
  revert d. induction ops as [|x ops IH]; intros d H op n Hop Hn Hi; [by apply elem_of_nil in Hop|]. cbn in H.
  destruct (apply_operation x d) as [d1|] eqn:E1; [|done]. apply elem_of_cons in Hop as [->|Hop]; [|by eapply IH].
  unfold apply_operation in E1. apply bind_Ok in E1 as ([] & E1 & _). by eapply operation_allowed.
Qed.

Lemma signatures_checked f d : check_signatures recover f d = Ok tt -> exempt (u32 (head_num d + 1)) = false ->
  exists keys r, get_signature_keys (recover (sig_digest f)) (signatures f) = Ok keys /\ get_required_authorities (operations (trx f)) = Ok r /\
    verify_authority true true (get_active_of d) (get_owner_of d) (get_posting_of d) (get_witness_key d)
      (Z.to_nat HIVE_MAX_SIG_CHECK_DEPTH) HIVE_MAX_AUTHORITY_MEMBERSHIP HIVE_MAX_SIG_CHECK_ACCOUNTS ∅ ∅ ∅ r keys = Ok tt.
Proof.
  intros H He. unfold check_signatures in H. apply bind_Ok in H as (keys & Hk & H). apply bind_Ok in H as (r & Hr & H). exists keys, r. split_and!; [done|done|].
  destruct (verify_authority _ _ _ _ _ _ _ _ _ _ _ _ _ _) as [[]|e]; [done|]. destruct e; try done. by rewrite He in H.
Qed.

(** A node that validated a transaction at time [t] saw that it is signed for at most a
    day, and gave it an hour. *)
Definition validated_at (t : Z) (f : full_transaction) : Prop :=
  expiration (trx f) <= t + HIVE_MAX_TIME_UNTIL_SIGNATURE_EXPIRATION /\
  runtime_expiration f = Z.min (expiration (trx f)) (t + HIVE_MAX_TIME_UNTIL_EXPIRATION).

Lemma check_expiration_validated f d f' : 0 <= now d -> now d + HIVE_MAX_TIME_UNTIL_SIGNATURE_EXPIRATION < 2 ^ 32 ->
  runtime_expiration f = 0 \/ (exists t, t <= now d /\ validated_at t f) -> check_expiration f d = Ok f' ->
  exists t, t <= now d /\ validated_at t f' /\ now d < runtime_expiration f'.
Proof.
  unfold HIVE_MAX_TIME_UNTIL_SIGNATURE_EXPIRATION. intros H0 Ht Hs H. unfold check_expiration in H. apply bind_Ok in H as (g & Hg & H). apply check_bind_Ok in H as [Hn H]. to_prop. injection H as <-.
  destruct (Z.eqb_spec (runtime_expiration f) 0) as [Er|Er].
  - apply check_bind_Ok in Hg as [Hx Hg]. to_prop. injection Hg as <-. exists (now d). split; [lia|]. split; [|done].
    unfold HIVE_MAX_TIME_UNTIL_SIGNATURE_EXPIRATION, HIVE_MAX_TIME_UNTIL_EXPIRATION in *. rewrite (uwrap_id 32) in Hx by (unfold in_u; lia). split; [done|]. cbn. by rewrite (uwrap_id 32) by (unfold in_u; lia).
  - injection Hg as <-. destruct Hs as [Hs|(t & Hle & Hs)]; [done|]. by exists t.
Qed.

(** C3.  What a transaction has passed when it is applied, on a chain with blocks and
    outside the blocks of [shared_db_merkle], whether this node sees it for the first time
    or validated it before (in its pool, say): it was not in the index and now is, it is
    not expired and is signed for at most a day from now, it is within the hour this node
    gave it when it first validated it, its operations are valid, signed for by all whose
    authority they require, and none is by a restricted account unless it moves VESTS or
    updates the account.  (The weights of authorities are 16-bit numbers, and the clock is
    a day or more from the end of 32-bit time.) *)
Theorem applied_transaction_checked f d f' d' p : ftx_ok f -> 0 < head_num d -> exempt (u32 (head_num d + 1)) = false ->
  0 <= now d -> now d + HIVE_MAX_TIME_UNTIL_SIGNATURE_EXPIRATION < 2 ^ 32 ->
  runtime_expiration f = 0 \/ (exists t, t <= now d /\ validated_at t f) ->
  (forall a au, get_active_of d a = Ok au \/ get_owner_of d a = Ok au \/ get_posting_of d a = Ok au -> weights_wf au) ->
  (forall r, get_required_authorities (operations (trx f)) = Ok r -> Forall weights_wf (other r)) ->
  _apply_transaction recover skip_nothing f d = Ok (f', d', p) ->
  in_index (trx_id f) d = false /\ in_index (trx_id f) d' = true /\
  now d < expiration (trx f) <= now d + HIVE_MAX_TIME_UNTIL_SIGNATURE_EXPIRATION /\
  (exists t, t <= now d /\ validated_at t f' /\ now d < runtime_expiration f') /\
  transaction_validate (operations (trx f)) = Ok tt /\
  (exists keys, get_signature_keys (recover (sig_digest f)) (signatures f) = Ok keys /\
     Forall (authorised (get_active_of d) (get_owner_of d) (get_posting_of d) (get_witness_key d) keys) (operations (trx f))) /\
  forall op n, op ∈ operations (trx f) -> is_pixa_ico n = true -> involves n op -> allowed_restricted op.
Proof.
  intros Hf Hn He H0 Ht Hseen Hw Ho H. apply apply_transaction_inv in H as (Hi & Hv & F & d1 & Hops).
  unfold validate_transaction in Hv. rewrite (proj2 (Z.ltb_lt 0 _)) in Hv by done. apply bind_Ok in Hv as (g & Hg & Hv). apply bind_Ok in Hg as (h & Hh & Hg).
  apply bind_Ok in Hg as ([] & _ & [= <-]). pose proof (check_expiration_validated _ _ _ H0 Ht Hseen Hh) as (t & Hle & Hs & Hr). apply check_expiration_inv in Hh as (X1 & X2 & X3); [|done].
  assert (trx h = trx f) as Etrx by (by rewrite X2). pose proof (proj1 Hs) as Hday. rewrite Etrx in Hday. rewrite X2 in Hv. cbn in Hv.
  apply bind_Ok in Hv as ([] & Htv & Hv). apply bind_Ok in Hv as ([] & Hsig & Hv). injection Hv as <-. rewrite <- X2. split_and!; [done| |lia|lia|by exists t|done| |by eapply operations_allowed].
  { apply in_index_true. exists (mk_txo (next_trx d) (trx_id f) (expiration (trx f))). rewrite (fr_transactions _ _ F). split; [apply elem_of_insert_transaction; by left|done]. }
  apply signatures_checked in Hsig as (keys & r & K1 & K2 & K3); [|done]. exists keys. split; [done|]. eapply transaction_authorised; eauto.
Qed.

(** ** The merkle root *)

Section merkle.
Hypothesis hash_pair_inj : forall a b a' b', hash_pair a b = hash_pair a' b' -> a = a' /\ b = b'.

Lemma merkle_round_length n ids : (length ids <= n)%nat -> length (merkle_round hash_pair ids) = ((length ids + 1) / 2)%nat.
Proof.
  revert ids. induction n as [|n IH]; intros [|x [|y ids]] H; cbn [length] in *; try done; try lia. cbn [merkle_round length]. rewrite IH by lia.
  replace (S (S (length ids)) + 1)%nat with (length ids + 1 + 1 * 2)%nat by lia. rewrite Nat.div_add by done. lia.
Qed.

Lemma merkle_round_inj n ids ids' : (length ids <= n)%nat -> length ids = length ids' -> merkle_round hash_pair ids = merkle_round hash_pair ids' -> ids = ids'.
Proof.
  revert ids ids'. induction n as [|n IH]; intros [|x [|y ids]] [|x' [|y' ids']] Hn Hl H; cbn in *; try done; try lia.
  injection H as [H1 H2]%hash_pair_inj H3. subst. do 2 f_equal. apply IH; [lia|lia|done].
Qed.

Lemma merkle_loop_inj fuel ids ids' : (length ids <= fuel)%nat -> length ids = length ids' -> merkle_loop hash_pair fuel ids = merkle_loop hash_pair fuel ids' -> ids = ids'.
Proof.
  revert ids ids'. induction fuel as [|fuel IH]; intros [|x [|y ids]] [|x' [|y' ids']] Hn Hl H; cbn [length] in *; try done; try lia; [cbn in H; congruence|].
  cbn [merkle_loop] in H. assert (length (x :: y :: ids) = length (x' :: y' :: ids')) as Hl' by (cbn; lia).
  apply (merkle_round_inj (length (x :: y :: ids))); [done|done|]. apply IH; [|by rewrite !(merkle_round_length _ _ ltac:(reflexivity)), Hl'|done].
  rewrite (merkle_round_length _ _ ltac:(reflexivity)). cbn [length]. apply (Nat.le_trans _ (S (length ids))); [|lia]. apply Nat.lt_succ_r, Nat.Div0.div_lt_upper_bound. lia.
Qed.
End merkle.

(**  The merkle root of a header fixes the transactions of a block: where the hash
    functions do not collide, two lists of as many transactions with the same root
    have the same digests, signatures included, in the same order. *)
Theorem merkle_root_binds l l' : (forall a b a' b', hash_pair a b = hash_pair a' b' -> a = a' /\ b = b') -> (forall a a', hash_root a = hash_root a' -> a = a') ->
  length l = length l' -> compute_merkle_root hash_pair hash_root l = compute_merkle_root hash_pair hash_root l' -> merkle_digest <$> l = merkle_digest <$> l'.
Proof.
  intros Hp Hr Hl H. unfold compute_merkle_root in H. destruct l as [|f l], l' as [|f' l']; try done. apply Hr in H. rewrite <- Hl in H.
  apply (merkle_loop_inj Hp) in H; [done|by rewrite length_fmap|by rewrite !length_fmap].
Qed.

(** ** Participation *)

(** The number of filled slots. *)
Definition filled (slots : Z) : Z := Z.of_nat (length (filter (fun i => Z.testbit slots (Z.of_nat i) = true) (seq 0 128))).

Lemma filter_seq_shift (Q : nat -> Prop) `{!forall i, Decision (Q i)} n k : length (filter Q (seq (S k) n)) = length (filter (fun i => Q (S i)) (seq k n)).
Proof.
  revert k. induction n as [|n IH]; intros k; [done|]. rewrite <- !cons_seq. rewrite !filter_cons. destruct (decide (Q (S k))); cbn; by rewrite IH.
Qed.

Lemma filter_iff_in {A} (Q Q' : A -> Prop) `{!forall x, Decision (Q x)} `{!forall x, Decision (Q' x)} (l : list A) :
  (forall x, x ∈ l -> Q x <-> Q' x) -> filter Q l = filter Q' l.
Proof.
  induction l as [|x l IH]; intros HQ; [done|]. rewrite !filter_cons, IH by (intros y Hy; apply HQ; set_solver). specialize (HQ x ltac:(set_solver)).
  destruct (decide (Q x)), (decide (Q' x)); tauto || done.
Qed.

Lemma filter_seq_first (Q : nat -> Prop) `{!forall i, Decision (Q i)} n :
  length (filter Q (seq 0 (S n))) = ((if decide (Q O) then 1 else 0) + length (filter (fun i => Q (S i)) (seq 0 n)))%nat.
Proof. cbn [seq]. rewrite filter_cons, <- filter_seq_shift. by destruct (decide (Q O)). Qed.

Lemma filled_shift slots b : 0 <= slots < 2 ^ 128 -> (b = 0 \/ b = 1) ->
  filled (u128 (Z.shiftl slots 1 + b)) = filled slots - (if Z.testbit slots 127 then 1 else 0) + b.
Proof.
  intros Hs Hb. unfold filled.
  assert (forall i, 0 <= i < 128 -> Z.testbit (u128 (Z.shiftl slots 1 + b)) i = if i =? 0 then b =? 1 else Z.testbit slots (i - 1)) as Ht.
  { intros i Hi. unfold uwrap. rewrite Z.mod_pow2_bits_low by lia. rewrite Z.shiftl_mul_pow2 by lia. change (2 ^ 1) with 2. rewrite (Z.mul_comm slots 2).
    destruct (Z.eqb_spec i 0) as [->|]; [destruct Hb as [->| ->]; [rewrite Z.add_0_r; apply Z.testbit_even_0|apply Z.testbit_odd_0]|].
    replace i with (Z.succ (i - 1)) at 1 by lia. destruct Hb as [->| ->]; [rewrite Z.add_0_r; apply Z.testbit_even_succ; lia|apply Z.testbit_odd_succ; lia]. }
  rewrite filter_seq_first.
  assert (length (filter (fun i => Z.testbit (u128 (Z.shiftl slots 1 + b)) (Z.of_nat (S i)) = true) (seq 0 127)) =
          length (filter (fun i => Z.testbit slots (Z.of_nat i) = true) (seq 0 127))) as E1.
  { f_equal. apply filter_iff_in. intros i Hi%elem_of_seq. rewrite Ht by lia. rewrite (proj2 (Z.eqb_neq _ 0)) by lia. replace (Z.of_nat (S i) - 1) with (Z.of_nat i) by lia. done. }
  change (seq 0 128) with (seq 0 127 ++ [127%nat]). rewrite filter_app, length_app. change (filter _ [127%nat]) with (if decide (Z.testbit slots (Z.of_nat 127) = true) then [127%nat] else []).
  assert (Z.testbit (u128 (Z.shiftl slots 1 + b)) (Z.of_nat 0) = (b =? 1)) as H0 by (rewrite Ht by lia; done).
  rewrite E1. change (Z.of_nat 127) with 127. set (n := length _).
  assert ((if decide (Z.testbit (u128 (Z.shiftl slots 1 + b)) (Z.of_nat 0) = true) then 1 else 0)%nat = Z.to_nat b) as ->.
  { rewrite H0. by destruct Hb as [->| ->]. }
  assert (length (if decide (Z.testbit slots 127 = true) then [127%nat] else []) = if Z.testbit slots 127 then 1%nat else 0%nat) as -> by (by destruct (Z.testbit slots 127)).
  destruct (Z.testbit slots 127); lia.
Qed.

(** The count is the number of filled slots. *)
Definition slots_ok (x : Z * Z) : Prop := 0 <= x.1 < 2 ^ 128 /\ x.2 = filled x.1.

Lemma filled_bound slots : 0 <= filled slots <= 128.
Proof.
  unfold filled. split; [lia|]. change 128 with (Z.of_nat 128). apply Nat2Z.inj_le. rewrite <- (length_seq 0 128) at 2. apply length_filter.
Qed.

Lemma shift_slots_ok b x : slots_ok x -> slots_ok (shift_slots b x).
Proof.
  destruct x as [slots count]. intros [Hs Hc]. cbn in Hs, Hc. unfold shift_slots, slots_ok. cbn [fst snd]. split; [apply Z.mod_pos_bound; lia|].
  rewrite filled_shift by (done || (destruct b; tauto)). rewrite Hc. pose proof (filled_bound slots).
  pose proof (filled_shift slots 0 Hs ltac:(tauto)) as H0. pose proof (filled_bound (u128 (Z.shiftl slots 1 + 0))).
  rewrite (uwrap_id 8 (filled slots - _)) by (unfold in_u; destruct (Z.testbit slots 127); lia). apply uwrap_id. unfold in_u. destruct b, (Z.testbit slots 127); lia.
Qed.

Lemma transactions_slots l d d' : apply_transactions recover skip_nothing l d = Ok d' ->
  recent_slots_filled d' = recent_slots_filled d /\ participation_count d' = participation_count d.
Proof.
  revert d. induction l as [|f l IH]; intros d H; cbn in H; [by injection H as <-|]. apply bind_Ok in H as ([[f' d1] p] & H1 & H).
  apply apply_transaction_inv in H1 as (_ & _ & F & _). apply IH in H as [-> ->]. apply (fr_slots _ _ F).
Qed.

(**  Participation: on every chain the count of the last 128 slots is the number
    of them that were filled, so that the rate computed from either is the same. *)
Theorem participation_counts_slots l d0 d : slots_ok (recent_slots_filled d0, participation_count d0) -> apply_blocks l d0 = Ok d ->
  participation_count d = filled (recent_slots_filled d) /\ witness_participation_rate d = HIVE_100_PERCENT * participation_count d / 128.
Proof.
  intros H0 H. assert (slots_ok (recent_slots_filled d, participation_count d)) as [Hs Hc].
  { revert d H. induction l as [|[irr b] l IH] using rev_ind; intros d H; [by injection H as <-|]. apply apply_blocks_app in H as (d1 & Hl & Hb).
    apply apply_block_inv in Hb as (d2 & d3 & B & Ht & _ & _ & _ & _ & _ & _ & missed & ->). apply transactions_slots in Ht as [-> ->]. destruct (bb_slots _ _ _ B) as [-> ->].
    unfold fill_slots. apply Nat.iter_invariant; [intros x; apply shift_slots_ok|]. by apply shift_slots_ok, IH. }
  cbn in Hs, Hc. split; [done|]. unfold witness_participation_rate. rewrite Hc. fold (filled (recent_slots_filled d)). pose proof (filled_bound (recent_slots_filled d)).
  apply uwrap_id. unfold in_u, HIVE_100_PERCENT. split; [apply Z.div_pos; lia|]. apply Z.div_lt_upper_bound; lia.
Qed.
End safety.

(** ** A small chain *)

Module Sample.
#[local] Existing Instance fc_ref.
#[local] Existing Instance Transaction.Sample.raw_none.
#[local] Existing Instance Transaction.Sample.pow_none.

(** One key for each account; the evaluators write down what they are given. *)
Definition single (k : Z) : authority := mk_auth 1 [] [(k, 1)].
Definition key_of (name : string) : Z := if bool_decide (name = "alice") then 7 else 9.
#[local] Instance journal : Evaluators (list operation) := {|
  get_authorities name _ := Ok (single (key_of name), single (key_of name), single (key_of name));
  evaluate _ op c o := Ok (c, o ++ [op]);
  finalize_transaction _ _ c o := Ok (c, o, false);
  genesis_work _ c o := Ok (c, o);
  rest_of_block _ c o := Ok (c, o)
|}.
#[local] Instance journal_laws : EvaluatorLaws (list operation).
Proof. constructor; cbn; intros; repeat match goal with H : Ok _ = Ok _ |- _ => injection H as ? ? || injection H as ? ? ? end; subst; done. Qed.

(** A signature is the number of its key. *)
Definition recover (digest sig : Z) : result Z := Ok sig.
Definition hash_pair (a b : Z) : Z := Zpos (encode (a, b)).
Definition hash_root (a : Z) : Z := a.
Lemma hash_pair_inj a b a' b' : hash_pair a b = hash_pair a' b' -> a = a' /\ b = b'.
Proof. unfold hash_pair. intros [= H%encode_inj]. by injection H as -> ->. Qed.

Definition id_of (num : Z) : block_id_type := construct_block_id [0; 5000 + num; 0; 0; 0] num.
Definition d0 : db (list operation) := mk_db WitnessSchedule.Sample.s0 [] (id_of 105) "" [] 0 {[105 := id_of 105]} 7 3.

Definition pays (amount : Z) : operation := Transaction.transfer (transfer_operation.mk "alice" "bob" (mk_asset amount HIVE_SYMBOL) "").
(** Alice pays, with a reference to the block [ref]. *)
Definition payment (id amount ref expires : Z) (sigs : list Z) : full_transaction :=
  mk_ftx (mk_transaction ref (5000 + ref) expires [pays amount] []) id 200 id sigs (1000 + id) 0.
Definition block (num time : Z) (name : string) (key : Z) (l : list full_transaction) : full_block :=
  mk_full (mk_block (id_of num) (id_of (num - 1)) time name) key (compute_merkle_root hash_pair hash_root l) [] l 1000.

Definition t1 : full_transaction := payment 1 5 105 1000600 [7].
Definition t2 : full_transaction := payment 2 5 105 1000600 [7].
Definition t3 : full_transaction := payment 3 8 106 1000700 [7].
Definition b106 : full_block := block 106 1000002 "bob" 1 [t1; t2].
Definition b107 : full_block := block 107 1000005 "carol" 2 [t3].
Definition blocks : list (Z * full_block) := [(100, b106); (101, b107)].
Definition run (l : list (Z * full_block)) : db (list operation) :=
  match apply_blocks recover hash_pair hash_root l d0 with Ok d => d | Throw _ => d0 end.

(** The chain applies; its third transaction is refused when it comes again. *)
Example sample_chain :
  length (objects (run blocks)) = 3%nat /\ head_num (run blocks) = 107 /\
  _apply_transaction recover skip_nothing t3 (run blocks) = Throw AssertFc.
Proof. split_and!; vm_compute; reflexivity. Qed.

Lemma blocks_wf : Forall (fun x => block_wf (header x.2)) blocks.
Proof. repeat apply Forall_cons_2; [..|apply Forall_nil_2]; vm_compute; split_and!; done. Qed.
Lemma blocks_ftx_ok : Forall ftx_ok (transactions_of blocks).
Proof. repeat apply Forall_cons_2; [..|apply Forall_nil_2]; vm_compute; split_and!; done. Qed.
Lemma blocks_same_ids : same_ids (transactions_of blocks).
Proof.
  intros f g Hf Hg. change (transactions_of blocks) with [t1; t2; t3] in *.
  apply elem_of_cons in Hf as [->|[->|[->|[]%elem_of_nil]%elem_of_cons]%elem_of_cons]; apply elem_of_cons in Hg as [->|[->|[->|[]%elem_of_nil]%elem_of_cons]%elem_of_cons]; done.
Qed.

Lemma no_transaction_applied_twice_witness : NoDup (trx_id <$> transactions_of blocks).
Proof.
  refine (no_transaction_applied_twice recover hash_pair hash_root blocks d0 (run blocks) _ _ blocks_wf blocks_ftx_ok blocks_same_ids); [reflexivity|].
  vm_compute. reflexivity.
Defined.

Lemma transaction_refers_to_chain_witness :
  match reference (ref_block_num (trx t3)) [(100, b106)] with
  | Some id => ref_block_prefix (trx t3) = hash_word 1 id
  | None => exists id, summaries d0 !! ref_block_num (trx t3) = Some id /\ ref_block_prefix (trx t3) = hash_word 1 id
  end.
Proof.
  refine (transaction_refers_to_chain recover hash_pair hash_root [(100, b106)] d0 (run [(100, b106)]) 101 b107 (run blocks) t3 _ _ _ _).
  - vm_compute. reflexivity.
  - vm_compute. reflexivity.
  - vm_compute. reflexivity.
  - left.
Defined.

Lemma single_wf k : weights_wf (single k).
Proof. split_and!; [repeat constructor; cbn; lia|repeat constructor; cbn; lia|cbn; lia]. Qed.

(** The state and the transaction after [t1]. *)
Definition after1 : full_transaction * db (list operation) * bool :=
  match _apply_transaction recover skip_nothing t1 d0 with Ok r => r | Throw _ => (t1, d0, true) end.

Lemma applied_transaction_checked_witness :
  in_index (trx_id t1) d0 = false /\ in_index (trx_id t1) after1.1.2 = true /\
  now d0 < expiration (trx t1) <= now d0 + HIVE_MAX_TIME_UNTIL_SIGNATURE_EXPIRATION /\
  (exists t, t <= now d0 /\ validated_at t after1.1.1 /\ now d0 < runtime_expiration after1.1.1) /\
  transaction_validate (operations (trx t1)) = Ok tt /\
  (exists keys, get_signature_keys (recover (sig_digest t1)) (signatures t1) = Ok keys /\
     Forall (authorised (get_active_of d0) (get_owner_of d0) (get_posting_of d0) (get_witness_key d0) keys) (operations (trx t1))) /\
  forall op n, op ∈ operations (trx t1) -> is_pixa_ico n = true -> involves n op -> allowed_restricted op.
Proof.
  refine (applied_transaction_checked recover t1 d0 after1.1.1 after1.1.2 after1.2 _ _ _ _ _ _ _ _ _).
  - vm_compute. split_and!; done.
  - vm_compute. reflexivity.
  - vm_compute. reflexivity.
  - vm_compute. done.
  - vm_compute. reflexivity.
  - left. reflexivity.
  - intros a au [[= <-]|[[= <-]|[= <-]]]; apply single_wf.
  - intros r Hr. vm_compute in Hr. injection Hr as <-. constructor.
  - vm_compute. reflexivity.
Defined.

Lemma merkle_root_binds_witness :
  merkle_digest <$> [t1; t2] = merkle_digest <$> [t1; set_runtime_expiration 1000600 t2].
Proof.
  refine (merkle_root_binds hash_pair hash_root [t1; t2] [t1; set_runtime_expiration 1000600 t2] hash_pair_inj _ _ _); [by intros a a'|reflexivity|reflexivity].
Defined.

Lemma participation_counts_slots_witness :
  participation_count (run blocks) = filled (recent_slots_filled (run blocks)) /\
  witness_participation_rate (run blocks) = HIVE_100_PERCENT * participation_count (run blocks) / 128.
Proof.
  refine (participation_counts_slots recover hash_pair hash_root blocks d0 (run blocks) _ _); [vm_compute; split_and!; done|vm_compute; reflexivity].
Defined.

(** The missing active authority of an unsigned payment is forgiven in a block of
    [shared_db_merkle], whichever chain it is on. *)
Definition at_head (num : Z) : db (list operation) := set_sched (set_head_block num 1000000 240 (sched d0)) d0.
Definition unsigned : full_transaction := payment 4 5 105 1000600 [].
Example unsigned_payment_in_exempt_block :
  is_ok (_apply_transaction recover skip_nothing unsigned (at_head 3705110)) = true /\
  _apply_transaction recover skip_nothing unsigned (at_head 3705109) = Throw MissingActiveAuth.
Proof. split; vm_compute; reflexivity. Qed.

(** A node keeps the time at which it first saw a transaction: an hour later it refuses
    a block with a transaction that every node decoding the block afresh accepts. *)
Definition day_long : full_transaction := payment 5 5 105 1080000 [7].
Definition seen : full_transaction := match check_expiration day_long d0 with Ok f => f | Throw _ => day_long end.
Definition hour_later : db (list operation) := set_sched (set_head_block 1305 1003600 1440 (sched d0)) d0.
Example late_transaction_splits_nodes :
  trx seen = trx day_long /\ is_ok (_apply_transaction recover skip_nothing day_long hour_later) = true /\
  _apply_transaction recover skip_nothing seen hour_later = Throw TransactionExpiration.
Proof. split_and!; vm_compute; reflexivity. Qed.
End Sample.
