(* ===== verification/Mempool.v ===== *)
(** * Pending transactions

    Models the transactions a node holds between two blocks: [_push_transaction],
    [process_non_fast_confirm_transaction], [pop_block] and [clear_pending] of
    libraries/chain/database.cpp and the [pending_transactions_restorer] of db_with.hpp
    that applies them again after a block.

    The clock decides when the restorer stops applying transactions; it enters as the
    number of transactions applied by then.  What the evaluators do depends on the
    status of a transaction, [evaluators_as]; the pool leaves the stages of a block to
    [Application]. *)

From stdpp Require Import base numbers strings option list sorting gmap.
From S2P Require Import Prelude Fc Config AssetSymbol Asset Authority Validation Operations Transaction Version ForkDb Transfers WitnessSchedule Application.
Open Scope Z_scope.

Inductive transaction_status : Set := TX_STATUS_UNVERIFIED | TX_STATUS_PENDING | TX_STATUS_BLOCK | TX_STATUS_P2P_BLOCK | TX_STATUS_GEN_BLOCK.
Definition is_validating_one_tx (s : transaction_status) : bool := match s with TX_STATUS_UNVERIFIED => true | _ => false end.

(** The evaluators of a transaction with the given status, with so many bytes of
    transactions pending. *)
Class PoolEvaluators (W : Type) : Type := evaluators_as : transaction_status -> Z -> Evaluators W.

Definition fresh (f : full_transaction) : full_transaction := set_runtime_expiration 0 f.

(** A block from the network is evaluated as it was when it was produced: a producer
    only adds checks. *)
Class PoolLaws (W : Type) `{PE : PoolEvaluators W} : Prop := {
  as_laws s n :: EvaluatorLaws W (E := evaluators_as s n);
  as_authorities s n s' n' : get_authorities (Evaluators := evaluators_as s n) = get_authorities (Evaluators := evaluators_as s' n');
  as_evaluate n n' w op c (o : W) r : evaluate (Evaluators := evaluators_as TX_STATUS_GEN_BLOCK n) w op c o = Ok r ->
    evaluate (Evaluators := evaluators_as TX_STATUS_P2P_BLOCK n') w op c o = Ok r;
  as_finalize n n' w f f' c (o : W) r : finalize_transaction (Evaluators := evaluators_as TX_STATUS_GEN_BLOCK n) w f c o = Ok r -> fresh f' = fresh f ->
    exists b, finalize_transaction (Evaluators := evaluators_as TX_STATUS_P2P_BLOCK n') w f' c o = Ok (r.1, b)
}.

(** ** The pool *)

(** [state] is the database with the pending transactions; [session] what the undo
    session returns to, when one is open. [history] has the blocks that can be
    undone, with the states before them. *)
Record pool (W : Type) : Type := mk_pool {
  state : db W;
  session : option (db W);
  history : list (full_block * db W);
  _pending_tx : list full_transaction;
  _pending_tx_size : Z;
  _pending_tx_index : gset Z;
  _pending_tx_custom_op_count : gmap string Z;
  _popped_tx : list full_transaction;
  _max_mempool_size : Z
}.
Arguments mk_pool {W} _ _ _ _ _ _ _ _ _.
Arguments state {W} _.
Arguments session {W} _.
Arguments history {W} _.
Arguments _pending_tx {W} _.
Arguments _pending_tx_size {W} _.
Arguments _pending_tx_index {W} _.
Arguments _pending_tx_custom_op_count {W} _.
Arguments _popped_tx {W} _.
Arguments _max_mempool_size {W} _.

Section mempool.
Context `{L : FcLib} `{R : RawLib} `{P : PowLib} {W : Type} `{PE : PoolEvaluators W}.
Implicit Types (d : db W) (p : pool W).
Variable recover : Z -> Z -> result Z.

(** The database without the pending transactions. *)
Definition clean_state p : db W := default (state p) (session p).

Definition is_known_transaction (id : Z) p : bool := in_index id (state p) || bool_decide (id ∈ _pending_tx_index p).

Definition is_fast_confirm_transaction (f : full_transaction) : bool :=
  match operations (trx f) with [witness_block_approve _] => true | _ => false end.

(** [operation_get_impacted_accounts] of an operation without a rule of its own. *)
Definition operation_get_impacted_accounts (op : operation) : gset string := posting_of op ∪ active_of op ∪ owner_of op.

Definition count_account (pending current : gmap string Z) (account : string) : result (gmap string Z) :=
  let n := match current !! account with
           | Some n => u8 (n + 1)
           | None => u8 (u8 (0 + 1) + default 0 (pending !! account))
           end in
  _ ← check (n <=? HIVE_CUSTOM_OP_BLOCK_LIMIT) AssertFc;
  Ok (<[account := n]> current).
Definition limit_custom_op_count (pending current : gmap string Z) (op : operation) : result (gmap string Z) :=
  foldM (count_account pending) current (elements (operation_get_impacted_accounts op)).
Definition custom_op_visitor (pending current : gmap string Z) (op : operation) : result (gmap string Z) :=
  match op with
  | custom _ | custom_json _ | custom_binary _ => limit_custom_op_count pending current op
  | _ => Ok current
  end.

Definition skip_dupe (skip : skip_flags) : skip_flags := mk_skip (skip_tapos_check skip) (skip_validate skip) (skip_signatures skip) true.

(** *** Undo sessions

    The state with the states its open sessions return to, the innermost first. *)
Definition start_undo_session (u : db W * list (db W)) : db W * list (db W) := (u.1, u.1 :: u.2).
Definition undo (u : db W * list (db W)) : db W * list (db W) := match u.2 with d :: l => (d, l) | [] => u end.
Definition squash (u : db W * list (db W)) : db W * list (db W) := match u.2 with _ :: l => (u.1, l) | [] => u end.

(** [_pending_tx_session] is opened when there is none. *)
Definition pending_session p : db W * list (db W) :=
  match session p with Some d => (state p, [d]) | None => start_undo_session (state p, []) end.
Definition put_sessions (u : db W * list (db W)) p : pool W := mk_pool u.1 (head u.2) (history p) (_pending_tx p) (_pending_tx_size p) (_pending_tx_index p)
  (_pending_tx_custom_op_count p) (_popped_tx p) (_max_mempool_size p).

(** The lists of the pool after a transaction was applied. *)
Definition add_pending (status : transaction_status) (f : full_transaction) (privileged : bool) (current : gmap string Z) p : pool W :=
  let front := privileged && is_validating_one_tx status in
  mk_pool (state p) (session p) (history p)
    (if front then _pending_tx p else _pending_tx p ++ [f])
    (if front then _pending_tx_size p else u64 (_pending_tx_size p + trx_size f))
    ({[trx_id f]} ∪ _pending_tx_index p)
    (current ∪ _pending_tx_custom_op_count p)
    (if front then f :: _popped_tx p else _popped_tx p) (_max_mempool_size p).

(** The transaction has a session of its own on top of the common one: it is squashed
    into it when the transaction applies, and an exception undoes it. *)
Definition _push_transaction (status : transaction_status) (skip : skip_flags) (f : full_transaction) p : pool W * result unit :=
  if is_known_transaction (trx_id f) p then (p, Throw AssertFc)
  else
    let temp := start_undo_session (pending_session p) in
    match (current ← foldM (custom_op_visitor (_pending_tx_custom_op_count p)) ∅ (operations (trx f));
           '(f, d, privileged) ← _apply_transaction (E := evaluators_as status (_pending_tx_size p)) recover skip f temp.1;
           Ok (current, f, d, privileged)) with
    | Ok (current, f, d, privileged) => (add_pending status f privileged current (put_sessions (squash (d, temp.2)) p), Ok tt)
    | Throw e => (put_sessions (undo temp) p, Throw e)
    end.

(** [chain_plugin_impl::push_transaction] passes the flag for duplicates. *)
Definition process_non_fast_confirm_transaction (skip : skip_flags) (f : full_transaction) p : pool W * result unit :=
  if is_fast_confirm_transaction f then (p, Throw AssertFc)
  else if negb (trx_size f <=? u32 (maximum_block_size (sched (state p)) - 256)) then (p, Throw AssertFc)
  else if negb (Z.of_nat (length (signatures f)) <=? PIXA_MAX_TRANSACTION_SIGNATURES) then (p, Throw AssertFc)
  else _push_transaction TX_STATUS_UNVERIFIED (skip_dupe skip) f p.

Definition pop_block p : result (pool W) :=
  match history p with
  | [] => Throw PopEmptyChain
  | (b, d) :: h => Ok (mk_pool d None h (_pending_tx p) (_pending_tx_size p) (_pending_tx_index p) (_pending_tx_custom_op_count p)
                         (full_transactions b ++ _popped_tx p) (_max_mempool_size p))
  end.

Definition clear_pending p : pool W := mk_pool (clean_state p) None (history p) [] 0 ∅ ∅ (_popped_tx p) (_max_mempool_size p).

(** ** After a block *)

(** What became of the transactions, and whether the restorer stopped. *)
Record restored : Set := mk_restored { known_txs : Z; applied_txs : Z; postponed_txs : Z; expired_txs : Z; failed_txs : Z; stop : bool }.

Definition set_pending (l : list full_transaction) (n : Z) p : pool W := mk_pool (state p) (session p) (history p) l n (_pending_tx_index p)
  (_pending_tx_custom_op_count p) (_popped_tx p) (_max_mempool_size p).

(** [skip] holds the flags of the node; the restorer skips validation, signatures and
    the check for duplicates. *)
Definition handle_tx (skip : skip_flags) (apply_trxs : bool) (f : full_transaction) (x : pool W * restored) : pool W * restored :=
  let '(p, r) := x in
  if apply_trxs then
    if runtime_expiration f <=? now (state p) then (p, mk_restored (known_txs r) (applied_txs r) (postponed_txs r) (expired_txs r + 1) (failed_txs r) (stop r))
    else if is_known_transaction (trx_id f) p then (p, mk_restored (known_txs r + 1) (applied_txs r) (postponed_txs r) (expired_txs r) (failed_txs r) (stop r))
    else match _push_transaction TX_STATUS_PENDING (mk_skip (skip_tapos_check skip) true true true) f p with
         | (p, Ok _) => (p, mk_restored (known_txs r) (applied_txs r + 1) (postponed_txs r) (expired_txs r) (failed_txs r) (stop r))
         | (p, Throw _) => (p, mk_restored (known_txs r) (applied_txs r) (postponed_txs r) (expired_txs r) (failed_txs r + 1) (stop r))
         end
  else if _max_mempool_size p <=? _pending_tx_size p then (p, mk_restored (known_txs r) (applied_txs r) (postponed_txs r) (expired_txs r) (failed_txs r) true)
  else (set_pending (_pending_tx p ++ [f]) (u64 (_pending_tx_size p + trx_size f)) p,
        mk_restored (known_txs r) (applied_txs r) (postponed_txs r + 1) (expired_txs r) (failed_txs r) (stop r)).

(** [budget] transactions are applied before the time is up. *)
Fixpoint handle_all (skip : skip_flags) (budget : nat) (l : list full_transaction) (x : pool W * restored) : pool W * restored :=
  match l with
  | [] => x
  | f :: l => if stop x.2 then x
              else match budget with
                   | O => handle_all skip O l (handle_tx skip false f x)
                   | S budget => handle_all skip budget l (handle_tx skip true f x)
                   end
  end.

Definition nothing_restored : restored := mk_restored 0 0 0 0 0 false.
Definition clear_popped p : pool W := mk_pool (state p) (session p) (history p) (_pending_tx p) (_pending_tx_size p) (_pending_tx_index p)
  (_pending_tx_custom_op_count p) [] (_max_mempool_size p).
(** There should be no pending transactions when the restorer starts. *)
Definition drop_leftover p : pool W :=
  if (0 <? Z.of_nat (length (_pending_tx p))) || (0 <? _pending_tx_size p)
  then mk_pool (state p) (session p) (history p) [] 0 ∅ ∅ (_popped_tx p) (_max_mempool_size p) else p.
Definition restore (skip : skip_flags) (budget : nat) (pending : list full_transaction) p : pool W * restored :=
  let p := drop_leftover p in
  let '(p, r) := handle_all skip budget (_popped_tx p ++ pending) (p, nothing_restored) in
  (clear_popped p, r).

Variable hash_pair : Z -> Z -> Z.
Variable hash_root : Z -> Z.

(** The block has a session of its own, which stays in the undo history when it applies
    and is undone otherwise; no session for pending transactions is open. *)
Definition apply_block (last_irreversible : Z) (b : full_block) p : pool W * result unit :=
  let u := start_undo_session (state p, []) in
  match _apply_block (E := evaluators_as TX_STATUS_P2P_BLOCK (_pending_tx_size p)) recover hash_pair hash_root last_irreversible b u.1 with
  | Ok d => (mk_pool d (session p) (((fun before => (b, before)) <$> u.2) ++ history p) (_pending_tx p) (_pending_tx_size p) (_pending_tx_index p)
               (_pending_tx_custom_op_count p) (_popped_tx p) (_max_mempool_size p), Ok tt)
  | Throw e => (mk_pool (undo u).1 (session p) (history p) (_pending_tx p) (_pending_tx_size p) (_pending_tx_index p)
               (_pending_tx_custom_op_count p) (_popped_tx p) (_max_mempool_size p), Throw e)
  end.

(** [without_pending_transactions] around what is done to the chain. *)
Definition without_pending_transactions (skip : skip_flags) (budget : nat) (callback : pool W -> pool W * result unit) p : pool W * result unit :=
  let pending := _pending_tx p in
  let '(p, r) := callback (clear_pending p) in
  ((restore skip budget pending p).1, r).
Definition push_block (skip : skip_flags) (budget : nat) (last_irreversible : Z) (b : full_block) p : pool W * result unit :=
  without_pending_transactions skip budget (apply_block last_irreversible b) p.
End mempool.

(** ** The pool and the state it stands for *)

Section invariant.
Context `{L : FcLib} `{R : RawLib} `{P : PowLib} {W : Type} `{PE : PoolEvaluators W} `{!PoolLaws W}.
Implicit Types (d : db W) (p : pool W).
Variable recover : Z -> Z -> result Z.

(** How often the custom operations of transactions are about an account. *)
Definition is_custom (op : operation) : bool := match op with custom _ | custom_json _ | custom_binary _ => true | _ => false end.
Definition about (a : string) (op : operation) : bool := is_custom op && bool_decide (a ∈ operation_get_impacted_accounts op).
Definition ops_count (a : string) (ops : list operation) : Z := Z.of_nat (length (List.filter (about a) ops)).
Definition custom_count (a : string) (l : list full_transaction) : Z := ops_count a (concat ((fun f => operations (trx f)) <$> l)).

Lemma ops_count_app a l l' : ops_count a (l ++ l') = ops_count a l + ops_count a l'.
Proof. unfold ops_count. rewrite List.filter_app, length_app. lia. Qed.
Lemma custom_count_snoc a l f : custom_count a (l ++ [f]) = custom_count a l + ops_count a (operations (trx f)).
Proof. unfold custom_count. rewrite fmap_app, concat_app, ops_count_app. cbn. by rewrite app_nil_r. Qed.

(** The transactions that were applied since the session was opened, in their order. *)
Inductive replayed : list full_transaction -> db W -> db W -> Prop :=
| replayed_nil d : replayed [] d d
| replayed_snoc l d d1 s n skip f f' d2 b : replayed l d d1 -> skip_transaction_dupe_check skip = true ->
    _apply_transaction (E := evaluators_as s n) recover skip f d1 = Ok (f', d2, b) -> replayed (l ++ [f']) d d2.

Definition total_size (l : list full_transaction) : Z := foldr (fun f n => trx_size f + n) 0 l.
Lemma total_size_snoc l f : total_size (l ++ [f]) = total_size l + trx_size f.
Proof. unfold total_size. induction l as [|x l IH]; cbn in *; [lia|]. rewrite IH. lia. Qed.

Record pool_inv (applied : list full_transaction) p : Prop := {
  pi_state : replayed applied (clean_state p) (state p);
  pi_closed : session p = None -> applied = [];
  pi_size : _pending_tx_size p = u64 (total_size (_pending_tx p));
  pi_index id : id ∈ _pending_tx_index p <-> id ∈ trx_id <$> applied;
  pi_unique : NoDup (trx_id <$> applied);
  pi_new : Forall (fun f => in_index (trx_id f) (clean_state p) = false) applied;
  pi_held f : f ∈ applied -> f ∈ _pending_tx p \/ f ∈ _popped_tx p;
  pi_counts a : default 0 (_pending_tx_custom_op_count p !! a) = custom_count a applied;
  pi_limit a : custom_count a applied <= HIVE_CUSTOM_OP_BLOCK_LIMIT
}.

(** *** One transaction *)

Lemma apply_skipped `{E : Evaluators W} `{!EvaluatorLaws W} skip f d f' d' b : skip_transaction_dupe_check skip = true ->
  _apply_transaction recover skip f d = Ok (f', d', b) ->
  frame d d' /\ trx f' = trx f /\ trx_id f' = trx_id f /\ trx_size f' = trx_size f.
Proof.
  intros Hs H. unfold _apply_transaction in H. rewrite Hs in H. apply bind_Ok in H as ([] & _ & H). apply bind_Ok in H as (g & Hg & H). cbv zeta in H.
  apply bind_Ok in H as (d1 & H1 & H). apply bind_Ok in H as ([[c o] b'] & Hf & H). injection H as <- <- <-. apply validate_same in Hg as (E1 & E2 & _ & E3).
  split_and!; [|done|done|done]. etrans; [by eapply apply_operations_frame|]. apply frame_state. by eapply finalize_head.
Qed.

(** [current] counts [k a] uses of [a] on top of the pending ones. *)
Definition counted (pending current : gmap string Z) (k : string -> Z) : Prop :=
  forall a, 0 <= k a /\ default (default 0 (pending !! a)) (current !! a) = default 0 (pending !! a) + k a /\
    (forall n, current !! a = Some n -> n <= HIVE_CUSTOM_OP_BLOCK_LIMIT).
Definition bounded (pending : gmap string Z) : Prop := forall a, 0 <= default 0 (pending !! a) <= HIVE_CUSTOM_OP_BLOCK_LIMIT.

Lemma count_account_ok pending current k a current' : bounded pending -> counted pending current k -> count_account pending current a = Ok current' ->
  counted pending current' (fun b => k b + (if bool_decide (b = a) then 1 else 0)).
Proof.
  unfold count_account. intros Hp Hc H. apply check_bind_Ok in H as [Hn H]. to_prop. injection H as <-. set (n := match _ with Some _ => _ | None => _ end) in *.
  assert (n = default 0 (pending !! a) + k a + 1) as En.
  { destruct (Hc a) as (K0 & K1 & K2). specialize (Hp a). unfold HIVE_CUSTOM_OP_BLOCK_LIMIT in *. subst n. destruct (current !! a) as [n|] eqn:E1.
    - specialize (K2 n eq_refl). cbn in K1. rewrite uwrap_id by (unfold in_u; lia). lia.
    - cbn in K1. rewrite (uwrap_id 8 (0 + 1)) by (unfold in_u; lia). rewrite uwrap_id by (unfold in_u; lia). lia. }
  intros b. destruct (Hc b) as (K0 & K1 & K2). destruct (bool_decide_reflect (b = a)) as [->|Hne].
  - rewrite lookup_insert_eq. cbn. split_and!; [lia|lia|]. intros m [= <-]. done.
  - rewrite lookup_insert_ne by done. split_and!; [lia|lia|done].
Qed.

Lemma count_accounts_ok pending l current k current' : bounded pending -> counted pending current k -> NoDup l -> foldM (count_account pending) current l = Ok current' ->
  counted pending current' (fun b => k b + (if bool_decide (b ∈ l) then 1 else 0)).
Proof.
  intros Hp. revert current k. induction l as [|a l IH]; intros current k Hc Hn H; cbn in H.
  - injection H as <-. intros b. rewrite bool_decide_eq_false_2 by (by intros ?%elem_of_nil). by rewrite Z.add_0_r.
  - apply NoDup_cons in Hn as [Ha Hn]. destruct (count_account pending current a) as [c1|] eqn:E1; [|done]. pose proof (count_account_ok _ _ _ _ _ Hp Hc E1) as Hc1.
    specialize (IH _ _ Hc1 Hn H). intros b. specialize (IH b). cbn beta in IH.
    replace (k b + (if bool_decide (b ∈ a :: l) then 1 else 0)) with (k b + (if bool_decide (b = a) then 1 else 0) + (if bool_decide (b ∈ l) then 1 else 0)); [done|].
    clear IH. destruct (decide (b = a)) as [->|Hne].
    + rewrite (bool_decide_eq_true_2 (a = a)), (bool_decide_eq_false_2 (a ∈ l)), (bool_decide_eq_true_2 (a ∈ a :: l)) by set_solver. lia.
    + rewrite (bool_decide_eq_false_2 (b = a)), (bool_decide_ext (b ∈ a :: l) (b ∈ l)) by set_solver. lia.
Qed.

Lemma visit_ops_ok pending ops current k current' : bounded pending -> counted pending current k -> foldM (custom_op_visitor pending) current ops = Ok current' ->
  counted pending current' (fun b => k b + ops_count b ops).
Proof.
  intros Hp. revert current k. induction ops as [|op ops IH]; intros current k Hc H; cbn in H.
  - injection H as <-. intros b. cbn. by rewrite Z.add_0_r.
  - destruct (custom_op_visitor pending current op) as [c1|] eqn:E1; [|done].
    assert (counted pending c1 (fun b => k b + (if about b op then 1 else 0))) as Hc1.
    { unfold custom_op_visitor, limit_custom_op_count in E1. unfold about. destruct (is_custom op) eqn:Ei.
      - assert (foldM (count_account pending) current (elements (operation_get_impacted_accounts op)) = Ok c1) as Hl by (by destruct op).
        apply (count_accounts_ok _ _ _ _ _ Hp Hc) in Hl; [|apply NoDup_elements]. intros b. specialize (Hl b). cbn beta in Hl.
        rewrite (bool_decide_ext (b ∈ elements _) (b ∈ operation_get_impacted_accounts op)) in Hl by apply elem_of_elements. done.
      - assert (c1 = current) as -> by (destruct op; cbn in E1, Ei; congruence). intros b. cbn. rewrite Z.add_0_r. done. }
    specialize (IH _ _ Hc1 H). intros b. specialize (IH b). cbn beta in IH.
    replace (k b + ops_count b (op :: ops)) with (k b + (if about b op then 1 else 0) + ops_count b ops); [done|].
    unfold ops_count. cbn [List.filter]. destruct (about b op); cbn [length]; lia.
Qed.

Lemma merge_counts pending current ops : bounded pending -> foldM (custom_op_visitor pending) ∅ ops = Ok current ->
  forall a, default 0 ((current ∪ pending) !! a) = default 0 (pending !! a) + ops_count a ops /\ default 0 ((current ∪ pending) !! a) <= HIVE_CUSTOM_OP_BLOCK_LIMIT.
Proof.
  intros Hp H a. apply (visit_ops_ok _ _ _ (fun _ => 0)) in H; [|done|intros b; rewrite lookup_empty; cbn; split_and!; [lia|lia|done]].
  destruct (H a) as (K0 & K1 & K2). specialize (Hp a). rewrite lookup_union. destruct (current !! a) as [n|] eqn:E1, (pending !! a) as [m|] eqn:E2; cbn in *;
    try specialize (K2 _ eq_refl); lia.
Qed.

(** The common session is open, the one of the transaction is not. *)
Lemma squashed d p : put_sessions (squash (d, (start_undo_session (pending_session p)).2)) p = put_sessions (d, [clean_state p]) p.
Proof. unfold pending_session, clean_state. by destruct (session p). Qed.
Lemma undone p : put_sessions (undo (start_undo_session (pending_session p))) p = put_sessions (state p, [clean_state p]) p.
Proof. unfold pending_session, clean_state. by destruct (session p). Qed.
Lemma temp_state p : (start_undo_session (pending_session p)).1 = state p.
Proof. unfold pending_session. by destruct (session p). Qed.

(** A transaction enters the pool, or the pool stays as it was. *)
Lemma push_inv applied status skip f p : pool_inv applied p -> skip_transaction_dupe_check skip = true ->
  exists applied', pool_inv applied' (_push_transaction recover status skip f p).1 /\
    match (_push_transaction recover status skip f p).2 with
    | Ok _ => exists f', applied' = applied ++ [f'] /\ trx_id f' = trx_id f /\ trx f' = trx f /\
        (is_validating_one_tx status = false -> _pending_tx (_push_transaction recover status skip f p).1 = _pending_tx p ++ [f'])
    | Throw _ => applied' = applied /\ state (_push_transaction recover status skip f p).1 = state p /\ _pending_tx (_push_transaction recover status skip f p).1 = _pending_tx p
    end.
Proof.
  intros I Hs. unfold _push_transaction. destruct (is_known_transaction (trx_id f) p) eqn:Ek; [exists applied; split_and!; done|].
  cbv zeta. rewrite temp_state, undone. assert (pool_inv applied (put_sessions (state p, [clean_state p]) p)) as Io by (destruct I; constructor; done).
  destruct (foldM _ ∅ _) as [current|e] eqn:Ec; cbn [mbind result_bind]; [|by exists applied].
  destruct (_apply_transaction _ _ _ _) as [[[f' d] b]|e] eqn:Ea; cbn [mbind result_bind]; [|by exists applied].
  rewrite squashed. exists (applied ++ [f']). cbn [fst snd].
  destruct (apply_skipped (E := evaluators_as status _) _ _ _ _ _ _ Hs Ea) as (F & E1 & E2 & E3). destruct I as [I1 I2 I3 I4 I5 I6 I7 I8 I9].
  assert (bounded (_pending_tx_custom_op_count p)) as Hb by (intros a; rewrite I8; split; [unfold custom_count, ops_count; lia|apply I9]).
  pose proof (merge_counts _ _ _ Hb Ec) as Hm. apply orb_false_iff in Ek as [Ek1 Ek2]. to_prop. set (front := b && is_validating_one_tx status).
  split; [|exists f'; split_and!; [done|done|done|]; intros Hv; cbn; by rewrite Hv, andb_false_r].
  constructor; unfold add_pending; fold front; cbn.
  - by eapply replayed_snoc.
  - done.
  - destruct front; [done|]. rewrite I3, total_size_snoc, E3. apply Zplus_mod_idemp_l.
  - intros id. rewrite fmap_app. cbn. rewrite elem_of_union, elem_of_app, I4, elem_of_singleton, list_elem_of_singleton. tauto.
  - rewrite fmap_app. cbn. apply NoDup_app. split_and!; [done| |apply NoDup_singleton]. intros x Hx ->%list_elem_of_singleton. apply I4 in Hx. congruence.
  - apply Forall_app. split; [done|]. constructor; [|done].
    assert (transactions (state p) = transactions (clean_state p)) as Et.
    { clear -I1 PoolLaws0. revert I1. generalize (clean_state p), (state p). intros d d' Hr. induction Hr as [|l d d1 s n skip f f' d2 b Hr IH Hs Ha]; [done|].
      apply (apply_skipped (E := evaluators_as s n)) in Ha as (F & _); [|done]. rewrite (fr_transactions _ _ F). done. }
    unfold clean_state in *. cbn. unfold in_index in *. rewrite E2, <- Et. done.
  - intros g [Hg| ->%list_elem_of_singleton]%elem_of_app.
    + destruct (I7 g Hg); destruct front; set_solver.
    + destruct front; set_solver.
  - intros a. rewrite custom_count_snoc, E1, <- I8. apply Hm.
  - intros a. rewrite custom_count_snoc, E1, <- I8. destruct (Hm a). lia.
Qed.

(** *** The restorer *)

(** What the restorer has applied is pending. *)
Definition restoring p (applied : list full_transaction) : Prop := pool_inv applied p /\ forall f, f ∈ applied -> f ∈ _pending_tx p.

Lemma handle_tx_inv skip apply_trxs f p r applied : restoring p applied ->
  exists applied', restoring (handle_tx recover skip apply_trxs f (p, r)).1 applied'.
Proof.
  intros [R1 R2]. unfold handle_tx. destruct apply_trxs.
  - destruct (_ <=? now _); [by exists applied|]. destruct (is_known_transaction _ _); [by exists applied|].
    destruct (push_inv applied TX_STATUS_PENDING (mk_skip (skip_tapos_check skip) true true true) f p R1 eq_refl) as (applied' & I & C).
    destruct (_push_transaction _ _ _ _ _) as [p' [u|e]]; cbn [fst snd] in *.
    + destruct C as (f' & -> & C1 & C2 & C3). specialize (C3 eq_refl). exists (applied ++ [f']). split; [done|]. cbn [fst].
      intros g [Hg| ->%list_elem_of_singleton]%elem_of_app; rewrite C3; set_solver.
    + destruct C as (-> & C1 & C2). exists applied. split; [done|]. cbn [fst]. by rewrite C2.
  - destruct (_ <=? _pending_tx_size p); [by exists applied|]. exists applied. split; [|set_solver].
    destruct R1 as [I1 I2 I3 I4 I5 I6 I7 I8 I9]. constructor; cbn; try done.
    + rewrite I3, total_size_snoc. apply Zplus_mod_idemp_l.
    + set_solver.
Qed.

Lemma handle_all_inv skip budget l p r applied : restoring p applied -> exists applied', restoring (handle_all recover skip budget l (p, r)).1 applied'.
Proof.
  revert budget p r applied. induction l as [|f l IH]; intros budget p r applied Rs; [by exists applied|]. cbn [handle_all snd]. destruct (stop r); [by exists applied|].
  destruct budget as [|budget]; [destruct (handle_tx_inv skip false f p r applied Rs) as (applied' & Rs')|destruct (handle_tx_inv skip true f p r applied Rs) as (applied' & Rs')];
    destruct (handle_tx _ _ _ _ _) as [p' r']; by eapply IH.
Qed.

(** Nothing is pending. *)
Definition settled p : Prop :=
  session p = None /\ _pending_tx p = [] /\ _pending_tx_size p = 0 /\ _pending_tx_index p = ∅ /\ _pending_tx_custom_op_count p = ∅.

Lemma settled_inv p : settled p -> pool_inv [] p.
Proof.
  intros (S1 & S2 & S3 & S4 & S5). constructor; try done.
  - unfold clean_state. rewrite S1. constructor.
  - by rewrite S2, S3.
  - rewrite S4. set_solver.
  - constructor.
  - by intros f ?%elem_of_nil.
  - intros a. by rewrite S5, lookup_empty.
Qed.

Lemma restore_inv skip budget pending p : settled p -> exists applied, pool_inv applied (restore recover skip budget pending p).1.
Proof.
  intros S. pose proof (settled_inv p S) as I. destruct S as (S1 & S2 & S3 & S4 & S5). unfold restore, drop_leftover. rewrite S2, S3. cbn [length Z.of_nat Z.ltb Z.compare orb].
  destruct (handle_all_inv skip budget (_popped_tx p ++ pending) p nothing_restored []) as (applied & R1 & R2); [split; [done|by intros f ?%elem_of_nil]|].
  destruct (handle_all _ _ _ _ _) as [p' r]. cbn [fst snd] in *. exists applied. destruct R1. constructor; try done. intros f Hf. left. by apply R2.
Qed.

(** *** The steps of the pool *)

Variable hash_pair : Z -> Z -> Z.
Variable hash_root : Z -> Z.

(** What a block from the network does to the chain: blocks are popped and applied. *)
Inductive action : Set := Apply (last_irreversible : Z) (b : full_block) | Pop.
Fixpoint run_actions (l : list action) p : pool W * result unit :=
  match l with
  | [] => (p, Ok tt)
  | Apply irr b :: l => match apply_block recover hash_pair hash_root irr b p with (p, Ok _) => run_actions l p | (p, Throw e) => (p, Throw e) end
  | Pop :: l => match pop_block p with Ok p => run_actions l p | Throw e => (p, Throw e) end
  end.

Inductive pool_step : pool W -> pool W -> Prop :=
| step_push skip f p : pool_step p (process_non_fast_confirm_transaction recover skip f p).1
| step_chain skip budget l p : pool_step p (without_pending_transactions recover skip budget (run_actions l) p).1.

Lemma run_actions_settled l p : settled p -> settled (run_actions l p).1.
Proof.
  revert p. induction l as [|[irr b|] l IH]; intros p S; [done|..]; cbn.
  - unfold apply_block. destruct (_apply_block _ _ _ _ _ _); [|done]. by apply IH.
  - unfold pop_block. destruct (history p) as [|[b d] h]; [done|]. apply IH. destruct S as (S1 & S2 & S3 & S4 & S5). done.
Qed.

Lemma without_pending_inv skip budget l p : exists applied, pool_inv applied (without_pending_transactions recover skip budget (run_actions l) p).1.
Proof.
  unfold without_pending_transactions. assert (settled (run_actions l (clear_pending p)).1) as S by (by apply run_actions_settled).
  destruct (run_actions l (clear_pending p)) as [p' r]. cbn [fst] in *. apply restore_inv. exact S.
Qed.

Lemma pool_step_inv p p' : pool_step p p' -> (exists applied, pool_inv applied p) -> exists applied, pool_inv applied p'.
Proof.
  intros [skip f q|skip budget l q] [applied I]; [|apply without_pending_inv]. unfold process_non_fast_confirm_transaction.
  destruct (is_fast_confirm_transaction f); [by exists applied|]. destruct (negb _); [by exists applied|]. destruct (negb _); [by exists applied|].
  destruct (push_inv applied TX_STATUS_UNVERIFIED (skip_dupe skip) f q I eq_refl) as (applied' & I' & _). by exists applied'.
Qed.


End invariant.
