(* ===== verification/Producer.v ===== *)
(** * The production of blocks

    Models plugins/witness/block_producer.cpp: the choice of the transactions of a new
    block from the pending ones, the vote for a hardfork in its header and the block
    itself (with [create_from_block_header_and_transactions] of full_block.cpp), and
    shows that a block made in its slot passes the checks of the other nodes up to and
    including its transactions.  The sizes of a packed header and of a packed number
    come from the serialiser; they are arguments. *)

From stdpp Require Import base numbers strings option list sorting gmap.
From S2P Require Import Prelude Fc Config AssetSymbol Asset Authority Validation Operations Transaction Version ForkDb Transfers WitnessSchedule Application ReplaySafety Mempool.
Open Scope Z_scope.

Definition HIVE_BLOCKCHAIN_VERSION : version := make_version 1 30 1.

(** [hf_versions.versions] and [hf_versions.times]. *)
Definition adjust_hardfork_version_vote (versions : Z -> version) (times : Z -> Z) (w : witness_object) (hfp : hardfork_property_object) : list header_extension :=
  (if version_op not_equal (running_version w) HIVE_BLOCKCHAIN_VERSION then [reported_version HIVE_BLOCKCHAIN_VERSION] else []) ++
  (if hardfork_version_op less (current_hardfork_version hfp) HIVE_BLOCKCHAIN_VERSION
      && (hardfork_op not_equal (hardfork_version_vote w) (versions (last_hardfork hfp + 1)) || negb (hardfork_time_vote w =? times (last_hardfork hfp + 1)))
   then [version_vote (versions (last_hardfork hfp + 1)) (times (last_hardfork hfp + 1))]
   else if hardfork_version_op equal (current_hardfork_version hfp) HIVE_BLOCKCHAIN_VERSION && hardfork_version_op greater (hardfork_version_vote w) HIVE_BLOCKCHAIN_VERSION
   then [version_vote (versions (last_hardfork hfp)) (times (last_hardfork hfp))]
   else []).

Section producer.
Context `{L : FcLib} `{R : RawLib} `{P : PowLib} {W : Type} `{PE : PoolEvaluators W}.
Implicit Types (d : db W) (p : pool W).
Variable recover : Z -> Z -> result Z.
Variable hash_pair : Z -> Z -> Z.
Variable hash_root : Z -> Z.
(** [fc::raw::pack_size] of the signed header and of the number of transactions. *)
Variable header_size : Z.
Variable pack_size : Z -> Z.

(** The loop over the pending transactions. *)
Record filling : Type := mk_filling {
  fl_state : db W;
  fl_index : gset Z;
  total_block_size : Z;
  unused_tx_count : Z;
  failed_tx_count : Z;
  fl_transactions : list full_transaction
}.
Definition tx_failed (x : filling) : filling := mk_filling (fl_state x) (fl_index x) (total_block_size x) (unused_tx_count x) (failed_tx_count x + 1) (fl_transactions x).
Definition tx_unused (x : filling) : filling := mk_filling (fl_state x) (fl_index x) (total_block_size x) (unused_tx_count x + 1) (failed_tx_count x) (fl_transactions x).

Fixpoint fill_block (skip : skip_flags) (pending_size when maximum_block_size : Z) (l : list full_transaction) (x : filling) : filling :=
  match l with
  | [] => x
  | f :: l =>
      if HIVE_BLOCK_GENERATION_POSTPONED_TX_LIMIT <? unused_tx_count x then x
      else if runtime_expiration f <? when then fill_block skip pending_size when maximum_block_size l (tx_failed x)
      else
        let new_total_size := u64 (total_block_size x + trx_size f) in
        if maximum_block_size <=? new_total_size then fill_block skip pending_size when maximum_block_size l (tx_unused x)
        else if in_index (trx_id f) (fl_state x) || bool_decide (trx_id f ∈ fl_index x) then fill_block skip pending_size when maximum_block_size l (tx_failed x)
        else match _apply_transaction (E := evaluators_as TX_STATUS_GEN_BLOCK pending_size) recover skip f (fl_state x) with
             | Ok (f, d, _) => fill_block skip pending_size when maximum_block_size l
                 (mk_filling d ({[trx_id f]} ∪ fl_index x) new_total_size (unused_tx_count x) (failed_tx_count x) (fl_transactions x ++ [f]))
             | Throw _ => fill_block skip pending_size when maximum_block_size l (tx_failed x)
             end
  end.

(** On the state without the pending transactions. *)
Definition apply_pending_transactions (skip : skip_flags) (witness_owner : string) (when : Z) p : filling :=
  let d := clean_state p in
  fill_block (skip_dupe skip) (_pending_tx_size p) when (maximum_block_size (sched d)) (_pending_tx p)
    (mk_filling (set_current_witness witness_owner d) ∅ (header_size + 4) 0 0 []).

(** [fill_block_with_transactions], for a node that knows its pending transactions
    still apply: they go into the block as they are, until one does not fit. *)
Fixpoint fill_in_order (when maximum_block_size : Z) (l : list full_transaction) (total : Z) : list full_transaction :=
  match l with
  | [] => []
  | f :: l =>
      if runtime_expiration f <? when then fill_in_order when maximum_block_size l total
      else
        let new_total_size := u64 (total + trx_size f) in
        if maximum_block_size <=? new_total_size then [] else f :: fill_in_order when maximum_block_size l new_total_size
  end.
Definition fill_block_with_transactions (when : Z) p : list full_transaction :=
  fill_in_order when (maximum_block_size (sched (state p))) (_pending_tx p) (header_size + 4).

(** [sha224] is the hash of the new header. *)
Definition create_from_block_header_and_transactions (sha224 : list Z) (prev : block_id_type) (when : Z) (name : string) (key : Z)
    (extensions : list header_extension) (l : list full_transaction) : full_block :=
  mk_full (mk_block (construct_block_id sha224 (u32 (num_from_id prev + 1))) prev when name) key (compute_merkle_root hash_pair hash_root l) extensions l
    (header_size + (pack_size (Z.of_nat (length l)) + total_size l)).

Definition _generate_block (versions : Z -> version) (times : Z -> Z) (skip : skip_flags) (skip_transaction_reapplication : bool) (when : Z) (witness_owner : string) (key : Z) (sha224 : list Z) p : result full_block :=
  let c := sched (state p) in
  let slot_num := get_slot_at_time when c in
  _ ← check (0 <? slot_num) AssertFc;
  _ ← check (bool_decide (get_scheduled_witness slot_num c = witness_owner)) AssertFc;
  w ← get_witness witness_owner (witnesses c);
  _ ← check (bool_decide (signing_key w = Some key)) AssertFc;
  let extensions := adjust_hardfork_version_vote versions times w (hpo c) in
  let l := if skip_transaction_reapplication then fill_block_with_transactions when p
           else fl_transactions (apply_pending_transactions skip witness_owner when p) in
  let b := create_from_block_header_and_transactions sha224 (head_block_id (state p)) when witness_owner key extensions l in
  _ ← check (block_size b <=? HIVE_MAX_BLOCK_SIZE) AssertFc;
  Ok b.
End producer.

(** ** What a produced block passes *)

Section accepted.
Context `{L : FcLib} `{R : RawLib} `{P : PowLib} {W : Type} `{PE : PoolEvaluators W} `{!PoolLaws W}.
Implicit Types (d : db W) (p : pool W).
Variable recover : Z -> Z -> result Z.
Variable hash_pair : Z -> Z -> Z.
Variable hash_root : Z -> Z.
Variable header_size : Z.
Variable pack_size : Z -> Z.

(** A transaction of the pool: once it was seen, it was signed for at most a day. *)
Definition seen_at d (f : full_transaction) : Prop :=
  ftx_ok f /\ (runtime_expiration f = 0 \/ expiration (trx f) <= u32 (now d + HIVE_MAX_TIME_UNTIL_SIGNATURE_EXPIRATION)) /\ 0 <= trx_size f < 2 ^ 32.

Lemma evaluate_same s x n op d d1 : apply_operation (E := evaluators_as TX_STATUS_GEN_BLOCK s) op d = Ok d1 ->
  apply_operation (E := evaluators_as TX_STATUS_P2P_BLOCK 0) op (set_transactions x n d) = Ok (set_transactions x n d1).
Proof.
  unfold apply_operation. intros H. apply bind_Ok in H as ([] & Ha & H). rewrite Ha. cbn [mbind result_bind]. apply bind_Ok in H as ([c o] & He & H). injection H as <-.
  apply (as_evaluate _ 0) in He. cbn. by rewrite He.
Qed.

Lemma evaluate_all_same s x n ops d d1 : foldM (fun d op => apply_operation (E := evaluators_as TX_STATUS_GEN_BLOCK s) op d) d ops = Ok d1 ->
  foldM (fun d op => apply_operation (E := evaluators_as TX_STATUS_P2P_BLOCK 0) op d) (set_transactions x n d) ops = Ok (set_transactions x n d1).
Proof.
  revert d. induction ops as [|op ops IH]; intros d H; cbn in *; [by injection H as <-|].
  destruct (apply_operation _ _) as [d2|] eqn:E1 in H; [|done]. rewrite (evaluate_same _ _ _ _ _ _ E1). by apply IH.
Qed.

Lemma check_signatures_same s f x n d : check_signatures (E := evaluators_as TX_STATUS_P2P_BLOCK 0) recover (fresh f) (set_transactions x n d) =
  check_signatures (E := evaluators_as TX_STATUS_GEN_BLOCK s) recover f d.
Proof.
  unfold check_signatures, get_active_of, get_owner_of, get_posting_of. rewrite (as_authorities TX_STATUS_P2P_BLOCK 0 TX_STATUS_GEN_BLOCK s). done.
Qed.

Lemma check_expiration_fresh f f' x n d : seen_at d f -> 0 <= now d < 2 ^ 32 - HIVE_MAX_TIME_UNTIL_EXPIRATION -> check_expiration f d = Ok f' ->
  exists g, check_expiration (fresh f') (set_transactions x n d) = Ok g /\ fresh g = fresh f' /\ fresh f' = fresh f.
Proof.
  intros (Hf & Hd & Hs) Hn H. apply check_expiration_inv in H as (H1 & H2 & H3); [|done]. rewrite H2. unfold check_expiration. cbn.
  assert (expiration (trx f) <= u32 (now d + HIVE_MAX_TIME_UNTIL_SIGNATURE_EXPIRATION)) as He by (destruct Hd; auto).
  unfold now in *. cbn in *. rewrite (proj2 (Z.leb_le _ _)) by done. cbn.
  rewrite (uwrap_id 32 (_ + HIVE_MAX_TIME_UNTIL_EXPIRATION)) by (unfold in_u, HIVE_MAX_TIME_UNTIL_EXPIRATION in *; lia).
  rewrite (proj2 (Z.ltb_lt _ _)) by (unfold HIVE_MAX_TIME_UNTIL_EXPIRATION in *; lia). cbn. by eexists.
Qed.

Lemma validate_fresh s f f' x n d : seen_at d f -> 0 <= now d < 2 ^ 32 - HIVE_MAX_TIME_UNTIL_EXPIRATION ->
  validate_transaction (E := evaluators_as TX_STATUS_GEN_BLOCK s) recover (skip_dupe skip_nothing) f d = Ok f' ->
  exists g, validate_transaction (E := evaluators_as TX_STATUS_P2P_BLOCK 0) recover skip_nothing (fresh f') (set_transactions x n d) = Ok g /\ fresh g = fresh f' /\ fresh f' = fresh f.
Proof.
  intros Hf Hn H. unfold validate_transaction in *. cbn [skip_tapos_check skip_validate skip_signatures skip_nothing skip_dupe] in *.
  apply bind_Ok in H as (g & Hg & H). apply bind_Ok in H as ([] & Hv & H). apply bind_Ok in H as ([] & Hc & H). injection H as <-.
  assert (exists g1, (if 0 <? head_num (set_transactions x n d) then f0 ← check_expiration (fresh g) (set_transactions x n d); _ ← check_tapos f0 (set_transactions x n d); Ok f0 else Ok (fresh g)) = Ok g1 /\
            fresh g1 = fresh g /\ fresh g = fresh f) as (g1 & E1 & E2 & E3).
  { change (head_num (set_transactions x n d)) with (head_num d). destruct (0 <? head_num d); [|injection Hg as <-; by eexists].
    apply bind_Ok in Hg as (h & Hh & Hg). apply bind_Ok in Hg as ([] & Ht & Hg). injection Hg as <-.
    destruct (check_expiration_fresh f h x n d Hf Hn Hh) as (g1 & E1 & E2 & E3). exists g1. rewrite E1. cbn [mbind result_bind].
    assert (check_tapos g1 (set_transactions x n d) = check_tapos h d) as ->; [|by rewrite Ht].
    unfold check_tapos. by injection E2 as ->. }
  rewrite E1. cbn [mbind result_bind]. exists g1. assert (trx g1 = trx g) as Et by (by injection E2). rewrite Et, Hv. cbn [mbind result_bind].
  rewrite <- (check_signatures_same s g x n d) in Hc. rewrite <- E2 in Hc. change (check_signatures (E := evaluators_as TX_STATUS_P2P_BLOCK 0) recover (fresh g1)) with (check_signatures (E := evaluators_as TX_STATUS_P2P_BLOCK 0) recover g1) in Hc.
  by rewrite Hc.
Qed.

(** A transaction the producer applied is applied by every node that decodes it. *)
Lemma apply_fresh s f f' x n d d' b : seen_at d f -> 0 <= now d < 2 ^ 32 - HIVE_MAX_TIME_UNTIL_EXPIRATION ->
  _apply_transaction (E := evaluators_as TX_STATUS_GEN_BLOCK s) recover (skip_dupe skip_nothing) f d = Ok (f', d', b) ->
  in_index (trx_id f) (set_transactions x n d) = false ->
  exists g b', _apply_transaction (E := evaluators_as TX_STATUS_P2P_BLOCK 0) recover skip_nothing (fresh f') (set_transactions x n d) =
    Ok (g, set_transactions (insert_transaction (mk_txo n (trx_id f) (expiration (trx f))) x) (n + 1) d', b') /\ fresh f' = fresh f.
Proof.
  intros Hf Hn H Hi. unfold _apply_transaction in H. cbn [skip_transaction_dupe_check skip_dupe mbind result_bind] in H. apply bind_Ok in H as (g & Hg & H). cbv zeta in H.
  destruct (validate_fresh s f g x n d Hf Hn Hg) as (h & Hh & E2 & E3). apply bind_Ok in H as (d1 & H1 & H). apply bind_Ok in H as ([[c o] b0] & H2 & H). injection H as <- <- <-.
  assert (trx_id g = trx_id f /\ trx g = trx f) as [Eg Egt] by (by injection E3). assert (trx_id h = trx_id g /\ trx h = trx g) as [Eh Eht] by (by injection E2).
  unfold _apply_transaction. cbn [skip_transaction_dupe_check skip_nothing]. change (trx_id (fresh g)) with (trx_id g). rewrite Eg, Hi. cbn [negb check mbind result_bind].
  rewrite Hh. cbn [mbind result_bind]. cbv zeta. rewrite Eh, Eht, Eg, Egt.
  rewrite Egt in H1. apply (evaluate_all_same s (insert_transaction (mk_txo n (trx_id f) (expiration (trx f))) x) (n + 1)) in H1.
  change (set_transactions _ (next_trx (set_transactions x n d) + 1) (set_transactions x n d)) with
    (set_transactions (insert_transaction (mk_txo n (trx_id f) (expiration (trx f))) x) (n + 1) d). rewrite H1. cbn [mbind result_bind].
  destruct (as_finalize _ 0 _ _ h _ _ _ H2 E2) as [b' Hb]. cbn in Hb |- *. rewrite Hb. cbn. by exists h, b'.
Qed.

Lemma in_insert_transaction id y x n d : in_index id (set_transactions (insert_transaction y x) n d) = (txo_trx_id y =? id) || existsb (fun z => txo_trx_id z =? id) x.
Proof.
  unfold in_index. cbn. induction x as [|z x IH]; cbn; [done|]. destruct (_ <? _); cbn; [done|]. rewrite IH. by destruct (_ =? _), (_ =? _).
Qed.

(** The state of the producer, and that of a node that applies the same transactions. *)
Record filled_ok d0 (x : filling) (dB : db W) : Prop := {
  fo_alike : exists l n, dB = set_transactions l n (fl_state x);
  fo_index id : in_index id dB = in_index id (fl_state x) || bool_decide (id ∈ fl_index x);
  fo_now : now (fl_state x) = now d0;
  fo_size : header_size + 4 + total_size (fl_transactions x) = total_block_size x;
  fo_seen : Forall (fun f => 0 <= trx_size f < 2 ^ 32) (fl_transactions x)
}.

Lemma apply_transactions_app `{E : Evaluators W} skip l l' d : apply_transactions recover skip (l ++ l') d = (d1 ← apply_transactions recover skip l d; apply_transactions recover skip l' d1).
Proof. revert d. induction l as [|f l IH]; intros d; cbn; [done|]. destruct (_apply_transaction _ _ _ _) as [[[? ?] ?]|]; [apply IH|done]. Qed.
Lemma total_size_nonneg l : Forall (fun f => 0 <= trx_size f < 2 ^ 32) l -> 0 <= total_size l.
Proof. induction 1; cbn; [done|]. unfold total_size in *. lia. Qed.

Lemma fill_block_ok size when max l d0 dI x dB : 0 <= header_size -> 0 <= now d0 < 2 ^ 32 - HIVE_MAX_TIME_UNTIL_EXPIRATION -> max < 2 ^ 32 -> Forall (seen_at d0) l ->
  filled_ok d0 x dB -> total_block_size x <= max ->
  apply_transactions (E := evaluators_as TX_STATUS_P2P_BLOCK 0) recover skip_nothing (fresh <$> fl_transactions x) dI = Ok dB ->
  let x' := fill_block recover (skip_dupe skip_nothing) size when max l x in
  exists dB', filled_ok d0 x' dB' /\ total_block_size x' <= max /\
    apply_transactions (E := evaluators_as TX_STATUS_P2P_BLOCK 0) recover skip_nothing (fresh <$> fl_transactions x') dI = Ok dB'.
Proof.
  intros Hh Hn Hm Hl. revert x dB. induction Hl as [|f l Hf Hl IH]; intros x dB F Hx Ha; cbn zeta; [by exists dB|]. cbn [fill_block].
  destruct (_ <? unused_tx_count x); [by exists dB|]. destruct (_ <? when); [apply (IH (tx_failed x) dB); [by destruct F|done|done]|].
  destruct (Z.leb_spec max (u64 (total_block_size x + trx_size f))) as [Hs|Hs]; [apply (IH (tx_unused x) dB); [by destruct F|done|done]|].
  destruct (_ || _) eqn:Ek; [apply (IH (tx_failed x) dB); [by destruct F|done|done]|].
  destruct (_apply_transaction _ _ _ _) as [[[f' d'] b]|e] eqn:Et; [|apply (IH (tx_failed x) dB); [by destruct F|done|done]].
  destruct F as [(tl & tn & Ed) F2 F3 F4 F5].
  assert (seen_at (fl_state x) f) as Hf' by (destruct Hf as (A1 & A2 & A3); split_and!; [done|by rewrite F3|lia|lia]).
  destruct (apply_fresh size f f' tl tn (fl_state x) d' b Hf') as (g & b' & Eg & Efr); [by rewrite F3|done|by rewrite <- Ed, F2|].
  assert (trx_id f' = trx_id f /\ trx_size f' = trx_size f) as [Eid Esz] by (by injection Efr).
  pose proof (total_size_nonneg _ F5) as Hts. destruct Hf as (_ & _ & Hsz).
  assert (u64 (total_block_size x + trx_size f) = total_block_size x + trx_size f) as Eu by (apply uwrap_id; unfold in_u; lia).
  destruct (apply_skipped (E := evaluators_as TX_STATUS_GEN_BLOCK size) recover (skip_dupe skip_nothing) f (fl_state x) f' d' b eq_refl Et) as (Fr & _).
  apply (IH _ (set_transactions (insert_transaction (mk_txo tn (trx_id f) (expiration (trx f))) tl) (tn + 1) d')); cbn [total_block_size fl_transactions].
  - constructor; cbn [fl_state fl_index fl_transactions total_block_size].
    + by eexists _, _.
    + intros id. specialize (F2 id). rewrite in_insert_transaction. unfold in_index in *. rewrite Ed in F2. cbn in F2. rewrite F2, (fr_transactions _ _ Fr). cbn. rewrite Eid.
      destruct (Z.eqb_spec (trx_id f) id) as [->|Hne]; [rewrite (bool_decide_eq_true_2 (id ∈ {[id]} ∪ _)) by set_solver; by rewrite orb_true_r|].
      rewrite (bool_decide_ext (id ∈ {[trx_id f]} ∪ fl_index x) (id ∈ fl_index x)) by set_solver. done.
    + by rewrite (proj1 (frame_now _ _ Fr)).
    + rewrite total_size_snoc, Esz, Eu. lia.
    + apply Forall_app. split; [done|]. constructor; [by rewrite Esz|done].
  - lia.
  - rewrite fmap_app, apply_transactions_app, Ha. cbn [mbind result_bind fmap list_fmap apply_transactions]. rewrite Ed, Eg. done.
Qed.

(** The block as another node decodes it. *)
Definition decoded (b : full_block) : full_block :=
  mk_full (header b) (block_signing_key b) (transaction_merkle_root b) (header_extensions b) (fresh <$> full_transactions b) (block_size b).

Lemma decoded_root l : compute_merkle_root hash_pair hash_root (fresh <$> l) = compute_merkle_root hash_pair hash_root l.
Proof.
  unfold compute_merkle_root. destruct l as [|f l]; [done|]. cbn. rewrite length_fmap, <- list_fmap_compose. done.
Qed.

Lemma replayed_frame l d d' : replayed recover l d d' -> frame d d'.
Proof.
  induction 1 as [d|l d d1 s n skip f f' d2 b _ IH Hs Ha]; [reflexivity|]. etrans; [done|]. by apply (apply_skipped recover (E := evaluators_as s n)) in Ha as (F & _).
Qed.

(** What the producer looked at, in the state with the pending transactions, is the same
    without them: the schedule, the hardfork, and the key and version of the witness. *)
Record undisturbed (name : string) (c c' : chain) : Prop := {
  un_schedule : wso_current c' = wso_current c;
  un_hardfork : hpo c' = hpo c;
  un_witness w : get_witness name (witnesses c) = Ok w ->
    exists w', get_witness name (witnesses c') = Ok w' /\ signing_key w' = signing_key w /\ running_version w' = running_version w
}.

Lemma first_slot_later c : 0 <= head_block_time c < 2 ^ 32 - 3 -> head_block_time c < get_slot_time 1 c.
Proof.
  intros H. unfold get_slot_time. cbn [Z.eqb]. unfold HIVE_BLOCK_INTERVAL. pose proof (Z.div_mod (head_block_time c) 3 ltac:(lia)). pose proof (Z.mod_pos_bound (head_block_time c) 3 ltac:(lia)).
  change (u32 (1 * 3)) with 3. destruct (_ =? 0); rewrite ?(uwrap_id 32 (head_block_time c / 3 * 3)) by (unfold in_u; lia); rewrite uwrap_id by (unfold in_u; lia); lia.
Qed.

Lemma get_witness_owner name ws w : get_witness name ws = Ok w -> owner w = name.
Proof.
  unfold get_witness. destruct (find_witness name ws) as [x|] eqn:E1; [|done]. intros [= ->]. unfold find_witness in E1. apply List.find_some in E1 as [_ E1]. by to_prop.
Qed.

(** The checks of the producer are those of the nodes that get the block. *)
Lemma producer_validated name when key w c c' : undisturbed name c c' -> same_head c' c -> 0 <= head_block_time c < 2 ^ 32 - 3 ->
  0 < get_slot_at_time when c -> get_scheduled_witness (get_slot_at_time when c) c = name -> get_witness name (witnesses c) = Ok w -> signing_key w = Some key ->
  exists w', validate_producer name when key c' = Ok w' /\ get_witness name (witnesses c') = Ok w' /\ running_version w' = running_version w.
Proof.
  intros [U1 U2 U3] (S1 & S2 & S3) Ht Hs Hn Hw Hk. destruct (U3 w Hw) as (w' & Hw' & Ek & Ev). exists w'. split_and!; [|done|done].
  assert (forall n, get_slot_time n c' = get_slot_time n c) as Et by (intros n; unfold get_slot_time; by rewrite S1, S2).
  assert (get_slot_at_time when c' = get_slot_at_time when c) as Ea by (unfold get_slot_at_time; by rewrite Et).
  assert (get_scheduled_witness (get_slot_at_time when c) c' = name) as Es by (rewrite <- Hn; unfold get_scheduled_witness; by rewrite U1, S3).
  unfold validate_producer. rewrite <- S2. rewrite (proj2 (Z.ltb_lt (head_block_time c) when)).
  2: { unfold get_slot_at_time in Hs. destruct (Z.ltb_spec when (get_slot_time 1 c)); [lia|]. pose proof (first_slot_later c Ht). lia. }
  cbn [check mbind result_bind]. rewrite Hw'. cbn [mbind result_bind]. rewrite (bool_decide_eq_true_2 (signing_key w' = Some key)) by congruence. cbn [check mbind result_bind].
  rewrite Ea, (proj2 (Z.ltb_lt _ _)) by done. cbn [check mbind result_bind]. rewrite Es, bool_decide_eq_true_2; [done|]. by eapply get_witness_owner.
Qed.

Lemma silent_version versions times w hfp : adjust_hardfork_version_vote versions times w hfp = [] -> version_op not_equal (running_version w) HIVE_BLOCKCHAIN_VERSION = false.
Proof. unfold adjust_hardfork_version_vote. intros [H _]%app_eq_nil. by destruct (version_op _ _ _). Qed.

Lemma equal_version v c : version_op not_equal v HIVE_BLOCKCHAIN_VERSION = false -> major_v v = 1 -> version_op greater_equal HIVE_BLOCKCHAIN_VERSION c = true ->
  version_op greater_equal v c = true.
Proof.
  unfold version_op, _operator. change (v_num HIVE_BLOCKCHAIN_VERSION) with 18743297. change (Z.shiftr (Z.land 18743297 0xFF000000) 24) with 1. change (major_v HIVE_BLOCKCHAIN_VERSION) with 1.
  intros H1 Hm H2. rewrite Hm in H1 |- *. cbn [Z.eqb andb Pos.eqb apply_operator] in H1. apply negb_false_iff, Z.eqb_eq in H1. rewrite H1. exact H2.
Qed.

End accepted.

(** ** A pool and a block from it *)

Module Sample.
Import ReplaySafety.Sample.
#[local] Existing Instance fc_ref.
#[local] Existing Instance Transaction.Sample.raw_none.
#[local] Existing Instance Transaction.Sample.pow_none.
#[local] Instance pool_journal : PoolEvaluators (list operation) := fun _ _ => journal.
#[local] Instance pool_journal_laws : PoolLaws (list operation).
Proof.
  constructor; [intros; apply journal_laws|done|done|]. intros n n' w f f' c o r H _. cbn in *. injection H as <-. by exists false.
Qed.

(** Every witness runs this version and votes as it says. *)
Definition s1 : chain := set_witnesses (set_versions HIVE_BLOCKCHAIN_VERSION (make_hardfork_version 1 30) 50 <$> witnesses WitnessSchedule.Sample.s0) WitnessSchedule.Sample.s0.
Definition p0 : pool (list operation) := mk_pool (set_sched s1 d0) None [] [] 0 ∅ ∅ [] 1000000.
Definition versions (_ : Z) : version := make_hardfork_version 1 30.
Definition times (_ : Z) : Z := 50.
Definition push (f : full_transaction) (p : pool (list operation)) : pool (list operation) := (process_non_fast_confirm_transaction recover skip_nothing f p).1.

Definition shout (id : Z) : full_transaction :=
  mk_ftx (mk_transaction 105 5105 1000600 [custom_json (custom_json_operation.mk ∅ {["alice"%string]} "id" "{}")] []) id 150 id [7] (1000 + id) 0.
Definition p2 : pool (list operation) := push t2 (push t1 p0).
Definition shouts (n : nat) : pool (list operation) := foldl (fun p i => push (shout (10 + Z.of_nat i)) p) p0 (seq 0 n).

(** A transaction comes in once; a sixth custom operation waits for the next block. *)
Example sample_pool :
  _pending_tx_size p2 = 400 /\ length (objects (state p2)) = 2%nat /\ _pending_tx (push t1 p2) = _pending_tx p2 /\
  length (_pending_tx (shouts 5)) = 5%nat /\ length (_pending_tx (shouts 6)) = 5%nat.
Proof. split_and!; vm_compute; reflexivity. Qed.

Definition produced : full_block :=
  match _generate_block recover hash_pair hash_root 120 (fun _ => 1) versions times skip_nothing false 1000002 "bob" 1 [0; 5106; 0; 0; 0] p2 with
  | Ok b => b | Throw _ => b107 end.
(** The block has both transactions; after it the pool is empty. *)
Definition p3 : pool (list operation) := (push_block recover hash_pair hash_root skip_nothing 10 100 (decoded produced) p2).1.
Example sample_block :
  trx_id <$> full_transactions produced = [1; 2] /\ block_size produced = 521 /\ head_num (state p3) = 106 /\ _pending_tx p3 = [] /\ length (objects (state p3)) = 2%nat.
Proof. split_and!; vm_compute; reflexivity. Qed.


Lemma p2_inv : exists applied, pool_inv recover applied p2.
Proof.
  destruct (pool_step_inv recover hash_pair hash_root p0 (push t1 p0)) as [a Ha]; [apply (step_push recover hash_pair hash_root skip_nothing t1)|exists []; by apply settled_inv|].
  apply (pool_step_inv recover hash_pair hash_root (push t1 p0)); [apply (step_push recover hash_pair hash_root skip_nothing t2)|by exists a].
Qed.

End Sample.
