(* ===== verification/Vesting.v ===== *)
(** * Vesting shares

    Models the conversions between HIVE and VESTS and what uses them: issue, burn and
    convert of detail/state/global_property_object.hpp, [adjust_account_vesting_balance]
    and [create_vesting] of database.cpp, transfer_to_vesting, claim_reward_balance and
    the transfer of VESTS by the restricted accounts (hive_evaluator_transfer.cpp), and
    the payouts of power downs with their routes ([process_vesting_withdrawals] of
    database_vesting.cpp), with the calls into resource credits and delayed voting.

    Accounts, their shares and their power downs are those of ResourceCredits.v, the
    routes those of Delegations.v and the delayed votes those of DelayedVoting.v; the
    other funds of an account are in [funds].  What the votes of a stake do to the
    witnesses is behind the interface [VoteBook].  Hardforks up to 28 are active. *)

From stdpp Require Import base numbers strings option list gmap.
From S2P Require Import Prelude Fc Config AssetSymbol Asset Resources Ledger Transfers DelayedVoting ResourceCredits RcInvariant Delegations.
Open Scope Z_scope.

(** ** The vesting fund *)

(** The counters of [dynamic_global_property_object]. *)
Record vesting_fund : Set := mk_vf {
  total_vesting_fund_hive : Z;
  total_vesting_shares : Z;
  pending_rewarded_vesting_shares : Z;
  pending_rewarded_vesting_hive : Z
}.

Section fund.
Context `{L : FcLib}.

(** [this.transfer_from( source, delta )] of balances with a fixed symbol. *)
Definition tiny_transfer_from (this source delta : Z) : result (Z * Z) :=
  this ← safe_add this delta;
  source ← safe_sub source delta;
  _ ← check ((0 <=? this) && (0 <=? source)) AssertBalance;
  Ok (this, source).

Definition tprice_of (base quote : Z) : result VEST_price :=
  let p := mk_tprice (mk_tiny base) (mk_tiny quote) in
  _ ← tprice_validate p; Ok p.
Definition get_vesting_share_price (g : vesting_fund) : result VEST_price :=
  if (total_vesting_fund_hive g =? 0) || (total_vesting_shares g =? 0) then tprice_of 1000000 1000
  else tprice_of (total_vesting_shares g) (total_vesting_fund_hive g).
Definition get_reward_vesting_share_price (g : vesting_fund) : result VEST_price :=
  b ← safe_add (total_vesting_shares g) (pending_rewarded_vesting_shares g);
  q ← safe_add (total_vesting_fund_hive g) (pending_rewarded_vesting_hive g);
  tprice_of b q.

(** The fund, and the new balance. *)
Definition issue_VESTS (vest_amount : Z) (is_reward : bool) (g : vesting_fund) : result (vesting_fund * Z) :=
  _ ← check (0 <=? vest_amount) AssertChainAsset;
  if is_reward then
    x ← safe_add (pending_rewarded_vesting_shares g) vest_amount;
    Ok (mk_vf (total_vesting_fund_hive g) (total_vesting_shares g) x (pending_rewarded_vesting_hive g), vest_amount)
  else
    x ← safe_add (total_vesting_shares g) vest_amount;
    Ok (mk_vf (total_vesting_fund_hive g) x (pending_rewarded_vesting_shares g) (pending_rewarded_vesting_hive g), vest_amount).

(** All VESTS of a balance. *)
Definition burn_VESTS (vest_balance : Z) (is_reward : bool) (g : vesting_fund) : result vesting_fund :=
  g ← (if is_reward then
         x ← safe_sub (pending_rewarded_vesting_shares g) vest_balance;
         Ok (mk_vf (total_vesting_fund_hive g) (total_vesting_shares g) x (pending_rewarded_vesting_hive g))
       else
         x ← safe_sub (total_vesting_shares g) vest_balance;
         Ok (mk_vf (total_vesting_fund_hive g) x (pending_rewarded_vesting_shares g) (pending_rewarded_vesting_hive g)));
  _ ← check (0 <=? vest_balance) AssertChainAsset;
  Ok g.

(** The fund, what is left of the HIVE, and the VESTS: a reward stays with the caller. *)
Definition convert_HIVE_to_VESTS (hive_balance : Z) (is_reward : bool) (g : vesting_fund) : result (vesting_fund * Z * Z) :=
  price ← (if is_reward then get_reward_vesting_share_price g else get_vesting_share_price g);
  vest_amount ← tiny_mul_quote (mk_tiny hive_balance) price;
  '(g, hive) ← (if is_reward then
                  x ← safe_add (pending_rewarded_vesting_hive g) hive_balance;
                  Ok (mk_vf (total_vesting_fund_hive g) (total_vesting_shares g) (pending_rewarded_vesting_shares g) x, hive_balance)
                else
                  '(x, hive) ← tiny_transfer_from (total_vesting_fund_hive g) hive_balance hive_balance;
                  Ok (mk_vf x (total_vesting_shares g) (pending_rewarded_vesting_shares g) (pending_rewarded_vesting_hive g), hive));
  '(g, vests) ← issue_VESTS (tamount vest_amount) is_reward g;
  Ok (g, hive, vests).

Definition convert_VESTS_to_HIVE (vest_balance : Z) (g : vesting_fund) : result (vesting_fund * Z) :=
  price ← get_vesting_share_price g;
  hive_amount ← tiny_mul_base (mk_tiny vest_balance) price;
  '(hive, x) ← tiny_transfer_from 0 (total_vesting_fund_hive g) (tamount hive_amount);
  g ← burn_VESTS vest_balance false (mk_vf x (total_vesting_shares g) (pending_rewarded_vesting_shares g) (pending_rewarded_vesting_hive g));
  Ok (g, hive).
End fund.

(** ** State *)

(** The balances of an account apart from its shares. *)
Record account_funds : Set := mk_funds {
  hive : Z;
  hbd : Z;
  reward_hive : Z;
  reward_hbd : Z;
  reward_vests : Z;
  reward_vests_as_hive : Z
}.
Definition no_funds : account_funds := mk_funds 0 0 0 0 0 0.
Definition set_hive x f := mk_funds x (hbd f) (reward_hive f) (reward_hbd f) (reward_vests f) (reward_vests_as_hive f).

(** [adjust_proxied_witness_votes] of an account. *)
Class VoteBook (G : Type) : Type := adjust_proxied_witness_votes : Z -> Z -> G -> result G.

(** [routes] is the index [by_withdraw_route]; an account without an entry in [funds]
    has none. *)
Record vest_state (G : Type) : Type := mk_vs {
  rc : rc_state;
  funds : gmap Z account_funds;
  fund : vesting_fund;
  routes : list withdraw_vesting_route_object;
  delayed : list (Z * account_votes);
  book : G;
  downvote_percent : Z
}.
Arguments mk_vs {G} _ _ _ _ _ _ _.
Arguments rc {G} _.
Arguments funds {G} _.
Arguments fund {G} _.
Arguments routes {G} _.
Arguments delayed {G} _.
Arguments book {G} _.
Arguments downvote_percent {G} _.

Section vesting.
Context `{L : FcLib} {G : Type} `{V : VoteBook G}.
Implicit Types (s : vest_state G).

Definition put_rc (x : rc_state) s : vest_state G := mk_vs x (funds s) (fund s) (routes s) (delayed s) (book s) (downvote_percent s).
Definition put_fund (x : vesting_fund) s : vest_state G := mk_vs (rc s) (funds s) x (routes s) (delayed s) (book s) (downvote_percent s).
Definition put_funds (i : Z) (x : account_funds) s : vest_state G := mk_vs (rc s) (<[i := x]> (funds s)) (fund s) (routes s) (delayed s) (book s) (downvote_percent s).
Definition put_delayed (x : list (Z * account_votes)) s : vest_state G := mk_vs (rc s) (funds s) (fund s) (routes s) x (book s) (downvote_percent s).
Definition put_book (x : G) s : vest_state G := mk_vs (rc s) (funds s) (fund s) (routes s) (delayed s) x (downvote_percent s).
Definition funds_of (i : Z) s : account_funds := default no_funds (funds s !! i).
Definition now s : Z := head_block_time (rc s).

(** [f] changes the shares of the account, between the two calls of the resource
    credits. *)
Definition with_rc (i : Z) (f : account -> result account) s : result (vest_state G) :=
  r ← regenerate_rc_mana i (rc s);
  a ← get_account i r;
  a ← f a;
  r ← update_account_after_vest_change i true false (put_account i a r);
  Ok (put_rc r s).
Definition set_vests (v : Z) (a : account) : account := set_shares v (delegated_vesting_shares a) (received_vesting_shares a) a.

(** [add_delayed_value] *)
Definition add_delayed_value (i v : Z) s : result (vest_state G) :=
  match find_account i (delayed s) with
  | None => Throw AssertFc
  | Some a => a ← DelayedVoting.add (now s) v a; Ok (put_delayed (set_account i a (delayed s)) s)
  end.

(** ** Vesting *)

(** The state, what is left of the HIVE, and the new shares. *)
Definition adjust_account_vesting_balance (i liquid : Z) (is_reward : bool) s : result (vest_state G * Z * Z) :=
  '(g, liquid, new_vesting) ← convert_HIVE_to_VESTS liquid is_reward (fund s);
  let s := put_fund g s in
  if is_reward then
    _ ← get_account i (rc s);
    let f := funds_of i s in
    '(rv, vests) ← tiny_transfer_from (reward_vests f) new_vesting new_vesting;
    '(rh, liquid) ← tiny_transfer_from (reward_vests_as_hive f) liquid liquid;
    Ok (put_funds i (mk_funds (hive f) (hbd f) (reward_hive f) (reward_hbd f) rv rh) s, liquid, new_vesting)
  else
    s ← with_rc i (fun a =>
          a ← update_vote_mana (downvote_percent s) (now s) new_vesting a;
          '(v, vests) ← tiny_transfer_from (vesting_shares a) new_vesting new_vesting;
          Ok (set_vests v a)) s;
    Ok (s, liquid, new_vesting).

Definition create_vesting (i liquid : Z) (is_reward : bool) s : result (vest_state G * Z * Z) :=
  '(s, liquid, new_vesting) ← adjust_account_vesting_balance i liquid is_reward s;
  if is_reward then Ok (s, liquid, new_vesting)
  else b ← adjust_proxied_witness_votes i new_vesting (book s); Ok (put_book b s, liquid, new_vesting).

(** [adjust_balance( from, vesting_funds, -amount )] *)
Definition withdraw_hive (i amount : Z) s : result (vest_state G) :=
  let f := funds_of i s in
  _ ← check ((amount <=? 0) || (amount <=? hive f)) AssertFc;
  '(own, temp) ← tiny_transfer_from (hive f) 0 (- amount);
  Ok (put_funds i (set_hive own f) s).

(** [transfer_to_vesting_evaluator]; [o_to] is [None] where the operation names no
    receiver. *)
Definition transfer_to_vesting (from : Z) (o_to : option Z) (amount : Z) s : result (vest_state G) :=
  a ← get_account from (rc s);
  _ ← check (negb (is_pixa_ico (name a))) AssertFc;
  let to := default from o_to in
  b ← get_account to (rc s);
  _ ← check (match o_to with Some _ => negb (is_treasury (name b)) | None => true end) AssertTreasury;
  s ← withdraw_hive from amount s;
  '(s, rest, amount_vested) ← adjust_account_vesting_balance to amount false s;
  s ← add_delayed_value to amount_vested s;
  _ ← check (rest =? 0) AssertBalance;
  Ok s.

(** ** Rewards *)

Definition claim_reward_balance (i claim_hive claim_hbd claim_vests : Z) s : result (vest_state G) :=
  a ← get_account i (rc s);
  _ ← check (negb (is_pixa_ico (name a))) AssertFc;
  let f := funds_of i s in
  _ ← check (claim_hive <=? reward_hive f) AssertBalance;
  _ ← check (claim_hbd <=? reward_hbd f) AssertBalance;
  _ ← check (claim_vests <=? reward_vests f) AssertBalance;
  to_move ← (if claim_vests =? reward_vests f then Ok (reward_vests_as_hive f)
             else x ← u128_div (u128 (u128 claim_vests * u128 (reward_vests_as_hive f))) (u128 (reward_vests f)); y ← uint128_to_uint64 x; Ok (i64 y));
  '(temp, rh) ← tiny_transfer_from 0 (reward_hive f) claim_hive;
  '(h, temp) ← tiny_transfer_from (hive f) temp claim_hive;
  '(temp, rb) ← tiny_transfer_from 0 (reward_hbd f) claim_hbd;
  '(b, temp) ← tiny_transfer_from (hbd f) temp claim_hbd;
  r ← regenerate_rc_mana i (rc s);
  a ← get_account i r;
  a ← update_vote_mana (downvote_percent s) (now s) claim_vests a;
  '(v, rv) ← tiny_transfer_from (vesting_shares a) (reward_vests f) claim_vests;
  '(moved, rvh) ← tiny_transfer_from 0 (reward_vests_as_hive f) to_move;
  r ← update_account_after_vest_change i true false (put_account i (set_vests v a) r);
  let g := fund s in
  shares ← safe_add (total_vesting_shares g) claim_vests;
  '(x, moved) ← tiny_transfer_from (total_vesting_fund_hive g) moved moved;
  pending ← safe_sub (pending_rewarded_vesting_shares g) claim_vests;
  pending_hive ← safe_sub (pending_rewarded_vesting_hive g) to_move;
  b' ← adjust_proxied_witness_votes i claim_vests (book s);
  Ok (put_book b' (put_fund (mk_vf x shares pending pending_hive) (put_rc r (put_funds i (mk_funds h b rh rb rv rvh) s)))).

(** ** VESTS of the restricted accounts *)

(** The branch of [transfer_evaluator] for VESTS. *)
Definition sum_delayed (i : Z) s : Z := match find_account i (delayed s) with Some a => sum_delayed_votes a | None => 0 end.
Definition transfer_vests (from to amount : Z) s : result (vest_state G) :=
  a ← get_account from (rc s);
  _ ← check (is_pixa_ico (name a)) AssertFc;
  _ ← get_account to (rc s);
  _ ← check (0 <=? vesting_shares a) AssertFc;
  own ← safe_sub (vesting_shares a) (delegated_vesting_shares a);
  _ ← check (amount <=? own) AssertFc;
  _ ← check (0 <? amount) AssertFc;
  _ ← check (i64 (sum_delayed from s) <=? i64 (vesting_shares a - amount)) AssertFc;
  s ← with_rc from (fun a =>
        a ← update_vote_mana (downvote_percent s) (now s) 0 a;
        a ← use_vote_mana (downvote_percent s) amount a;
        '(moved, v) ← tiny_transfer_from 0 (vesting_shares a) amount;
        Ok (set_vests v a)) s;
  b ← adjust_proxied_witness_votes from (- amount) (book s);
  let s := put_book b s in
  s ← with_rc to (fun a =>
        a ← update_vote_mana (downvote_percent s) (now s) amount a;
        '(v, moved) ← tiny_transfer_from (vesting_shares a) amount amount;
        Ok (set_vests v a)) s;
  add_delayed_value to amount s.

(** ** Payouts of power downs *)

(** One route: the state, the VESTS left to distribute, and the changes of votes. *)
Definition pay_route (auto_vest_mode : bool) (from to_withdraw : Z) (x : vest_state G * Z * option (list votes_update_data)) (r : withdraw_vesting_route_object) :
    result (vest_state G * Z * option (list votes_update_data)) :=
  let '(s, rest, items) := x in
  if negb (from_account r =? from) || negb (Bool.eqb auto_vest_mode (auto_vest r)) then Ok x
  else
    to_deposit ← uint128_to_int64 (u128 (u128 to_withdraw * percent r) / HIVE_100_PERCENT);
    if to_deposit <=? 0 then Ok x
    else
      _ ← get_account (to_account r) (rc s);
      let to := to_account r in
      '(routed, rest) ← tiny_transfer_from 0 rest to_deposit;
      if auto_vest_mode then
        s ← with_rc to (fun a => '(v, routed) ← tiny_transfer_from (vesting_shares a) routed routed; Ok (set_vests v a)) s;
        items ← add_votes items (to =? from) routed to;
        Ok (s, rest, items)
      else
        '(g, routed_hive) ← convert_VESTS_to_HIVE routed (fund s);
        let s := put_fund g s in
        '(h, routed_hive) ← tiny_transfer_from (hive (funds_of to s)) routed_hive routed_hive;
        Ok (put_funds to (set_hive h (funds_of to s)) s, rest, items).
Definition process_routing (auto_vest_mode : bool) (from to_withdraw : Z) (x : vest_state G * Z * option (list votes_update_data)) :
    result (vest_state G * Z * option (list votes_update_data)) :=
  foldM (fun x r => pay_route auto_vest_mode from to_withdraw x r) x (routes x.1.1).

(** [to_withdraw] VESTS leave the account. *)
Definition finish_payout (to_withdraw : Z) (a : account) : result account :=
  w ← safe_add (withdrawn a) to_withdraw;
  let a := set_power_down (vesting_withdraw_rate a) (ResourceCredits.to_withdraw a) w (next_vesting_withdrawal a) a in
  total ← get_total_vesting_withdrawal a;
  if (total <=? 0) || (vesting_shares a =? 0)
  then Ok (set_power_down 0 0 0 max_time a)
  else Ok (set_power_down (vesting_withdraw_rate a) (ResourceCredits.to_withdraw a) w (u32 (next_vesting_withdrawal a + HIVE_VESTING_WITHDRAW_INTERVAL_SECONDS)) a).

(** What [update_votes] finds for the votes that are not delayed.  Reading an empty
    queue, which the code does not define, is an exception here. *)
Definition update_delayed (items : option (list votes_update_data)) s : result (vest_state G * Z) :=
  match update_votes items (now s) (delayed s) with
  | Some (Ok (accts, Some leftover)) => Ok (put_delayed accts s, leftover)
  | Some (Throw e) => Throw e
  | Some (Ok (_, None)) => Throw AssertFc
  | None => Throw OutOfRange
  end.

(** The body of the loop of [process_vesting_withdrawals]. *)
Definition pay_out (i : Z) s : result (vest_state G) :=
  a ← get_account i (rc s);
  to_withdraw ← get_next_vesting_withdrawal a;
  let to_withdraw := if vesting_shares a <? to_withdraw then vesting_shares a else to_withdraw in
  '(g, power_down) ← issue_VESTS to_withdraw true (fund s);
  x ← process_routing true i to_withdraw (put_fund g s, power_down, Some []);
  '(s, power_down, items) ← process_routing false i to_withdraw x;
  '(g, converted_hive) ← (if power_down =? 0 then Ok (fund s, 0) else convert_VESTS_to_HIVE power_down (fund s));
  let s := put_fund g s in
  r ← regenerate_rc_mana i (rc s);
  items ← add_votes items true (- to_withdraw) i;
  a ← get_account i r;
  '(power_down, v) ← tiny_transfer_from 0 (vesting_shares a) to_withdraw;
  '(h, converted_hive) ← tiny_transfer_from (hive (funds_of i s)) converted_hive converted_hive;
  a ← finish_payout to_withdraw (set_vests v a);
  r ← update_account_after_vest_change i true true (put_account i a r);
  let s := put_funds i (set_hive h (funds_of i s)) (put_rc r s) in
  g ← burn_VESTS power_down true (fund s);
  '(s, leftover) ← update_delayed items (put_fund g s);
  if 0 <? leftover then b ← adjust_proxied_witness_votes i (- leftover) (book s); Ok (put_book b s) else Ok s.

(** The index [by_next_vesting_withdrawal]: the first account after a key. *)
Definition withdrawal_key (a : account) : Z * string := (next_vesting_withdrawal a, name a).
Definition key_before (x y : Z * string) : bool := (x.1 <? y.1) || ((x.1 =? y.1) && String.ltb x.2 y.2).
Definition earlier (after : option (Z * string)) (x : Z * account) (best : option (Z * account)) : option (Z * account) :=
  if match after with Some k => key_before k (withdrawal_key x.2) | None => true end
  then match best with
       | Some y => if key_before (withdrawal_key x.2) (withdrawal_key y.2) then Some x else Some y
       | None => Some x
       end
  else best.
Definition first_after (after : option (Z * string)) (r : rc_state) : option Z := fst <$> foldr (earlier after) None (map_to_list (accounts r)).

(** The loop; the iterator is advanced before the account is modified. *)
Fixpoint pay_due (fuel : nat) (current : option Z) s : option (result (vest_state G)) :=
  match current with
  | None => Some (Ok s)
  | Some i =>
      match accounts (rc s) !! i with
      | None => Some (Throw OutOfRange)
      | Some a =>
          if next_vesting_withdrawal a <=? now s then
            match fuel with
            | O => None
            | S fuel =>
                match pay_out i s with
                | Ok s' => pay_due fuel (first_after (Some (withdrawal_key a)) (rc s)) s'
                | Throw e => Some (Throw e)
                end
            end
          else Some (Ok s)
      end
  end.

(** The payouts that are due: an account is paid again for every interval. *)
Definition due_payouts (t : Z) (a : account) : Z :=
  if next_vesting_withdrawal a <=? t then 1 + (t - next_vesting_withdrawal a) / HIVE_VESTING_WITHDRAW_INTERVAL_SECONDS else 0.
Definition rounds s : Z := sumM (due_payouts (now s)) (stakes (rc s)).
Definition process_vesting_withdrawals s : option (result (vest_state G)) := pay_due (Z.to_nat (rounds s)) (first_after None (rc s)) s.
End vesting.

(** ** What the resource credits leave alone *)

Section rc_frames.
Context `{L : FcLib}.

Lemma set_rc_stakes i a m d x l r : accounts r !! i = Some a -> stakes (put_account i (set_rc m d x l a) r) = stakes r.
Proof. intros H. eapply stakes_put_same; [exact H|]. done. Qed.

(** Stakes and time are as before. *)
Definition same_stakes (r r' : rc_state) : Prop := stakes r' = stakes r /\ head_block_time r' = head_block_time r.
#[export] Instance same_stakes_preorder : PreOrder same_stakes.
Proof. split; [done|]. intros x y z [A1 A2] [B1 B2]. split; congruence. Qed.

Lemma regenerate_same i r r' : regenerate_rc_mana i r = Ok r' -> same_stakes r r'.
Proof.
  unfold regenerate_rc_mana. intros H. apply bind_Ok in H as (a & Ha & H). apply account_found in Ha. apply bind_Ok in H as (m & _ & H). apply bind_Ok in H as (r1 & H1 & H).
  assert (accounts r1 = accounts r /\ head_block_time r1 = head_block_time r) as [E1 E2].
  { destruct (m =? last_max_rc a); [by injection H1 as <-|]. apply bind_Ok in H1 as (? & _ & H1). by injection H1 as <-. }
  apply bind_Ok in H as (b & _ & H). injection H as <-. split; [|done]. rewrite (set_rc_stakes i a) by (by rewrite E1). unfold stakes. by rewrite E1.
Qed.

Lemma expect_same a r r' : expect_regenerated a r = Ok r' -> accounts r' = accounts r /\ head_block_time r' = head_block_time r.
Proof. unfold expect_regenerated. destruct (_ =? _); [by intros [= <-]|]. intros H. apply bind_Ok in H as (? & _ & H). by injection H as <-. Qed.

Lemma after_delegation_same i d b r r' : update_account_after_rc_delegation i d b r = Ok r' -> same_stakes r r'.
Proof.
  unfold update_account_after_rc_delegation. intros H. apply bind_Ok in H as (a & Ha & H). apply account_found in Ha. apply bind_Ok in H as (m & _ & H). apply bind_Ok in H as ([bar r1] & H1 & H).
  assert (accounts r1 = accounts r /\ head_block_time r1 = head_block_time r) as [E1 E2].
  { destruct b; [apply bind_Ok in H1 as (? & _ & H1); by injection H1 as <- <-|]. apply bind_Ok in H1 as (r2 & H2 & H1). injection H1 as <- <-. by eapply expect_same. }
  apply bind_Ok in H as (? & _ & H). apply bind_Ok in H as (? & _ & H). apply bind_Ok in H as (? & _ & H). injection H as <-. split; [|done].
  rewrite (set_rc_stakes i a) by (by rewrite E1). unfold stakes. by rewrite E1.
Qed.

Lemma remove_delegations_same idx o i l r idx' o' l' r' : remove_delegations idx o i l r = Ok (idx', o', l', r') -> same_stakes r r'.
Proof.
  revert o l r idx' o' l' r'. induction idx as [|d idx IH]; intros o l r idx' o' l' r' H; cbn in H; [by injection H as <- <- <- <-|].
  destruct (negb _).
  - apply bind_Ok in H as ([[[? ?] ?] ?] & H1 & H). injection H as <- <- <- <-. by eapply IH.
  - destruct (o <=? 0); [by injection H as <- <- <- <-|]. destruct (_ <? rcd_rc d).
    + apply bind_Ok in H as (r1 & H1 & H). apply bind_Ok in H as ([[[? ?] ?] ?] & H2 & H). injection H as <- <- <- <-. etrans; [by eapply after_delegation_same|by eapply IH].
    + destruct (guard_step l) as [ok l2]. destruct ok; [|by injection H as <- <- <- <-]. apply bind_Ok in H as (r1 & H1 & H). etrans; [by eapply after_delegation_same|by eapply IH].
Qed.

Lemma clear_overflow_same i r r' : clear_overflow i r = Ok r' -> same_stakes r r'.
Proof.
  unfold clear_overflow. intros H. apply bind_Ok in H as (a & Ha & H). destruct (0 <? delegated_rc a); [|by injection H as <-]. apply bind_Ok in H as (m & _ & H).
  destruct (0 <? _); [|by injection H as <-]. apply bind_Ok in H as ([[[idx o] l] r1] & H1 & H). cbv zeta in H. apply remove_delegations_same in H1 as [S1 T1].
  apply bind_Ok in H as (b & Hb & H). apply account_found in Hb. apply bind_Ok in H as (d & _ & H). injection H as <-.
  set (r2 := if 0 <? o then _ else _) in *. assert (accounts r2 = accounts r1 /\ head_block_time r2 = head_block_time r1) as [E1 E2].
  { subst r2. destruct (0 <? o); [|done]. unfold remember_expired. by destruct (has_expired_delegation _ _). }
  split; [|cbn; congruence]. rewrite (set_rc_stakes i b) by done. unfold stakes in *. congruence.
Qed.

Lemma vest_change_same i fill chk r r' : update_account_after_vest_change i fill chk r = Ok r' -> same_stakes r r'.
Proof.
  unfold update_account_after_vest_change. intros H. apply bind_Ok in H as (a & Ha & H). apply bind_Ok in H as (r1 & H1 & H). apply expect_same in H1 as [E1 E2].
  apply bind_Ok in H as (r2 & H2 & H). assert (same_stakes r1 r2) as S2 by (destruct chk; [by eapply clear_overflow_same|by injection H2 as <-]).
  assert (same_stakes r r1) as S1 by (split; [unfold stakes; by rewrite E1|done]). apply bind_Ok in H as (b & Hb & H). apply account_found in Hb. apply bind_Ok in H as (m & _ & H). cbv zeta in H.
  destruct (m =? last_max_rc b); injection H as <-; [by etrans|]. etrans; [exact S1|]. etrans; [exact S2|]. split; [|done]. by apply (set_rc_stakes i b).
Qed.
End rc_frames.
