(* ===== verification/VestingBooks.v ===== *)
(** * The books of vesting shares

    The theorems on [Vesting]: shares, rewards and the vesting fund stay accounted for
    and no HIVE is made or lost, whatever is vested, claimed, moved or paid out; a share
    never loses value by vesting or by a payout; a payout gives every route its part and
    the account the rest; and the loop over the payouts ends. *)

From stdpp Require Import base numbers strings option list gmap.
From S2P Require Import Prelude Fc Config AssetSymbol Asset Resources Ledger Transfers DelayedVoting ResourceCredits RcInvariant Delegations Vesting.
Open Scope Z_scope.

(** ** Amounts *)

Definition amount_ok (x : Z) : Prop := 0 <= x < 2 ^ 63.
Lemma amount_in_s x : amount_ok x -> in_s 64 x.
Proof. unfold amount_ok, in_s. lia. Qed.
#[local] Hint Resolve amount_in_s : core.

Definition fund_ok (g : vesting_fund) : Prop :=
  amount_ok (total_vesting_fund_hive g) /\ amount_ok (total_vesting_shares g) /\ amount_ok (pending_rewarded_vesting_shares g) /\ amount_ok (pending_rewarded_vesting_hive g).

Section amounts.
Context `{L : FcLib} `{!FcLaws L}.

Lemma tiny_transfer_Ok this source delta this' source' : amount_ok this -> amount_ok source -> in_s 64 delta ->
  tiny_transfer_from this source delta = Ok (this', source') -> this' = this + delta /\ source' = source - delta /\ amount_ok this' /\ amount_ok source'.
Proof.
  intros H1 H2 H3 H. unfold tiny_transfer_from in H. apply bind_Ok in H as (t & Ht & H). apply bind_Ok in H as (x & Hx & H). apply check_bind_Ok in H as [Hc H]. injection H as <- <-.
  apply andb_true_iff in Hc as [C1 C2]. to_prop. apply safe_add_Ok in Ht as [-> R1]; [|by apply amount_in_s|done]. apply safe_sub_Ok in Hx as [-> R2]; [|by apply amount_in_s|done].
  unfold amount_ok, in_s in *. repeat split; lia.
Qed.

(** The price has positive amounts. *)
Definition price_ok (p : VEST_price) : Prop := 0 < tamount (tbase p) < 2 ^ 63 /\ 0 < tamount (tquote p) < 2 ^ 63.
Lemma tprice_of_Ok b q p : in_s 64 b -> in_s 64 q -> tprice_of b q = Ok p -> tamount (tbase p) = b /\ tamount (tquote p) = q /\ price_ok p.
Proof.
  intros Hb Hq H. unfold tprice_of in H. apply bind_Ok in H as (u & Hv & H). injection H as <-. unfold tprice_validate in Hv. apply check_bind_Ok in Hv as [C1 C2]. apply check_Ok in C2. to_prop.
  cbn in *. unfold price_ok, in_s in *. cbn. repeat split; lia.
Qed.

(** The quotient, rounded down, whenever it fits. *)
Lemma mul_div_floor v m d : amount_ok v -> 0 < m < 2 ^ 63 -> 0 < d < 2 ^ 63 -> v * m / d < 2 ^ 63 -> mul_div_share v m d = Ok (v * m / d).
Proof.
  intros Hv Hm Hd Hq. unfold amount_ok in *. rewrite mul_div_share_exact by (unfold in_s, int64_min, pos_amount; rewrite ?Z.abs_eq by lia; lia || done).
  by rewrite Z.quot_div_nonneg by nia.
Qed.

(** *** Issue, burn and convert *)

Lemma issue_Ok x reward g g' b : fund_ok g -> in_s 64 x -> issue_VESTS x reward g = Ok (g', b) ->
  b = x /\ amount_ok x /\ fund_ok g' /\ total_vesting_fund_hive g' = total_vesting_fund_hive g /\ pending_rewarded_vesting_hive g' = pending_rewarded_vesting_hive g /\
  total_vesting_shares g' = total_vesting_shares g + (if reward then 0 else x) /\
  pending_rewarded_vesting_shares g' = pending_rewarded_vesting_shares g + (if reward then x else 0).
Proof.
  intros (G1 & G2 & G3 & G4) Hx H. unfold issue_VESTS in H. apply check_bind_Ok in H as [Hc H]. to_prop.
  destruct reward; apply bind_Ok in H as (y & Hy & H); injection H as <- <-; apply safe_add_Ok in Hy as [-> R1]; auto; unfold fund_ok, amount_ok, in_s in *; cbn; repeat split; lia.
Qed.

Lemma burn_Ok x reward g g' : fund_ok g -> in_s 64 x -> burn_VESTS x reward g = Ok g' -> (if reward then x <= pending_rewarded_vesting_shares g else x <= total_vesting_shares g) ->
  0 <= x /\ fund_ok g' /\ total_vesting_fund_hive g' = total_vesting_fund_hive g /\ pending_rewarded_vesting_hive g' = pending_rewarded_vesting_hive g /\
  total_vesting_shares g' = total_vesting_shares g - (if reward then 0 else x) /\
  pending_rewarded_vesting_shares g' = pending_rewarded_vesting_shares g - (if reward then x else 0).
Proof.
  intros (G1 & G2 & G3 & G4) Hx H Hle. unfold burn_VESTS in H. apply bind_Ok in H as (g1 & Hg & H). apply check_bind_Ok in H as [Hc H]. to_prop. injection H as <-.
  destruct reward; apply bind_Ok in Hg as (y & Hy & Hg); injection Hg as <-; apply safe_sub_Ok in Hy as [-> R1]; auto; unfold fund_ok, amount_ok, in_s in *; cbn; repeat split; lia.
Qed.

Lemma vesting_price_ok g p : fund_ok g -> get_vesting_share_price g = Ok p -> price_ok p.
Proof.
  intros (G1 & G2 & G3 & G4) H. unfold get_vesting_share_price in H. destruct (_ || _); apply tprice_of_Ok in H as (_ & _ & ?); auto; unfold in_s; lia.
Qed.

Lemma to_vests_Ok h reward g g' rest v : fund_ok g -> amount_ok h -> convert_HIVE_to_VESTS h reward g = Ok (g', rest, v) ->
  amount_ok v /\ rest = (if reward then h else 0) /\ fund_ok g' /\
  total_vesting_fund_hive g' = total_vesting_fund_hive g + (if reward then 0 else h) /\ pending_rewarded_vesting_hive g' = pending_rewarded_vesting_hive g + (if reward then h else 0) /\
  total_vesting_shares g' = total_vesting_shares g + (if reward then 0 else v) /\ pending_rewarded_vesting_shares g' = pending_rewarded_vesting_shares g + (if reward then v else 0).
Proof.
  intros Hg Hh H. unfold convert_HIVE_to_VESTS in H. apply bind_Ok in H as (p & _ & H). apply bind_Ok in H as (va & Hva & H). apply bind_Ok in H as ([g1 rest1] & H1 & H).
  apply bind_Ok in H as ([g2 v2] & H2 & H). injection H as <- <- <-.
  assert (in_s 64 (tamount va)) as Hin.
  { unfold tiny_mul_quote in Hva. apply bind_Ok in Hva as (? & _ & Hva). apply bind_Ok in Hva as (r & Hr & Hva). injection Hva as <-. by eapply mul_div_share_wf. }
  assert (rest1 = (if reward then h else 0) /\ fund_ok g1 /\ total_vesting_fund_hive g1 = total_vesting_fund_hive g + (if reward then 0 else h) /\
    pending_rewarded_vesting_hive g1 = pending_rewarded_vesting_hive g + (if reward then h else 0) /\ total_vesting_shares g1 = total_vesting_shares g /\
    pending_rewarded_vesting_shares g1 = pending_rewarded_vesting_shares g) as (E0 & F1 & E1 & E2 & E3 & E4).
  { destruct Hg as (G1 & G2 & G3 & G4). destruct reward.
    - apply bind_Ok in H1 as (x & Hx & H1). injection H1 as <- <-. apply safe_add_Ok in Hx as [-> R1]; auto. unfold fund_ok, amount_ok, in_s in *; cbn; repeat split; lia.
    - apply bind_Ok in H1 as ([x y] & Hx & H1). injection H1 as <- <-. apply tiny_transfer_Ok in Hx as (-> & -> & R1 & R2); auto. unfold fund_ok, amount_ok in *; cbn; repeat split; lia. }
  apply issue_Ok in H2 as (-> & A1 & A2 & A3 & A4 & A5 & A6); [|done|done]. rewrite A3, A4, A5, A6, E1, E2, E3, E4. done.
Qed.

(** At the price of the fund, for shares that are covered. *)
Lemma to_hive_Ok v g g' h : fund_ok g -> 0 <= v <= total_vesting_shares g -> convert_VESTS_to_HIVE v g = Ok (g', h) ->
  amount_ok h /\ fund_ok g' /\ total_vesting_fund_hive g' = total_vesting_fund_hive g - h /\ total_vesting_shares g' = total_vesting_shares g - v /\
  pending_rewarded_vesting_shares g' = pending_rewarded_vesting_shares g /\ pending_rewarded_vesting_hive g' = pending_rewarded_vesting_hive g /\
  (0 < total_vesting_fund_hive g -> 0 < total_vesting_shares g -> h = v * total_vesting_fund_hive g / total_vesting_shares g).
Proof.
  intros Hg Hv H. pose proof Hg as (G1 & G2 & G3 & G4). unfold convert_VESTS_to_HIVE in H. apply bind_Ok in H as (p & Hp & H). apply bind_Ok in H as (ha & Hha & H).
  apply bind_Ok in H as ([h1 x] & Hx & H). apply bind_Ok in H as (g2 & H2 & H). injection H as <- <-.
  unfold tiny_mul_base in Hha. apply bind_Ok in Hha as (? & _ & Hha). apply bind_Ok in Hha as (r & Hr & Hha). injection Hha as <-. cbn [tamount] in *.
  pose proof (mul_div_share_wf _ _ _ _ Hr) as Hin. apply tiny_transfer_Ok in Hx as (-> & -> & R1 & R2); [|by unfold amount_ok; lia|done|done].
  apply burn_Ok in H2 as (_ & A2 & A3 & A4 & A5 & A6); [|unfold fund_ok; cbn; repeat split; unfold amount_ok in *; lia|unfold in_s, amount_ok in *; lia|cbn; lia].
  cbn in A3, A4, A5, A6. split_and!; [done|done|lia|lia|lia|lia|]. intros P1 P2. unfold get_vesting_share_price in Hp.
  rewrite (proj2 (Z.eqb_neq _ 0)), (proj2 (Z.eqb_neq _ 0)) in Hp by lia. cbn [orb] in Hp. apply tprice_of_Ok in Hp as (B1 & B2 & _); auto. rewrite B1, B2 in Hr.
  rewrite mul_div_floor in Hr; unfold amount_ok in *; [injection Hr as <-; lia|lia|lia|lia|]. apply Z.div_lt_upper_bound; nia.
Qed.
End amounts.

(** ** Sums *)

Definition liquid_of (f : account_funds) : Z := hive f + reward_hive f + reward_vests_as_hive f.
Definition hbd_of (f : account_funds) : Z := hbd f + reward_hbd f.
Lemma liquid_set_hive x f : liquid_of (set_hive x f) = liquid_of f - hive f + x /\ hbd_of (set_hive x f) = hbd_of f.
Proof. unfold liquid_of, hbd_of. cbn. lia. Qed.
Definition funds_ok (f : account_funds) : Prop :=
  amount_ok (hive f) /\ amount_ok (hbd f) /\ amount_ok (reward_hive f) /\ amount_ok (reward_hbd f) /\ amount_ok (reward_vests f) /\ amount_ok (reward_vests_as_hive f).

Lemma sumM_put (m : gmap Z account_funds) (g : account_funds -> Z) i x : g no_funds = 0 -> sumM g (<[i := x]> m) = sumM g m - g (default no_funds (m !! i)) + g x.
Proof. intros H0. destruct (m !! i) as [f|] eqn:E1; cbn; [by apply sumM_update|]. rewrite sumM_insert_new by done. lia. Qed.
Section books.
Context `{L : FcLib} `{!FcLaws L} {G : Type} `{V : VoteBook G}.
Implicit Types (s : vest_state G).

Definition shares_sum s : Z := sumM vesting_shares (stakes (rc s)).

(** Every amount is one, and the counters are the sums of what they count. *)
Record vest_ok s : Prop := {
  vo_shares i x : stakes (rc s) !! i = Some x -> amount_ok (vesting_shares x);
  vo_funds i f : funds s !! i = Some f -> funds_ok f;
  vo_fund : fund_ok (fund s);
  vo_routes : Forall (fun r => 0 <= percent r <= HIVE_100_PERCENT) (routes s)
}.
Record books s : Prop := {
  bk_shares : total_vesting_shares (fund s) = shares_sum s;
  bk_pending : pending_rewarded_vesting_shares (fund s) = sumM reward_vests (funds s);
  bk_pending_hive : pending_rewarded_vesting_hive (fund s) = sumM reward_vests_as_hive (funds s)
}.
(** All HIVE and HBD. *)
Definition all_hive s : Z := sumM liquid_of (funds s) + total_vesting_fund_hive (fund s).
Definition all_hbd s : Z := sumM hbd_of (funds s).

Lemma funds_of_ok i s : vest_ok s -> funds_ok (funds_of i s).
Proof. intros I. unfold funds_of. destruct (funds s !! i) as [f|] eqn:E1; [by eapply vo_funds|]. unfold funds_ok, amount_ok. cbn. lia. Qed.

Lemma funds_part (g : account_funds -> Z) i s : vest_ok s -> g no_funds = 0 -> (forall f, funds_ok f -> amount_ok (g f)) -> g (funds_of i s) <= sumM g (funds s).
Proof.
  intros I H0 Hg. assert (forall j x, funds s !! j = Some x -> 0 <= g x) as Hn by (intros j x Hj; apply Hg; by eapply vo_funds).
  unfold funds_of. destruct (funds s !! i) as [f|] eqn:E1; cbn; [by eapply (sumM_lookup_le g)|]. rewrite H0. by apply sumM_nonneg.
Qed.

Lemma stake_of i s a : accounts (rc s) !! i = Some a -> vest_ok s -> amount_ok (vesting_shares a).
Proof. intros H I. apply (vo_shares _ I i (erase a)). by apply stakes_lookup. Qed.

(** What changing the shares of an account between the calls of the resource credits
    comes to. *)
Lemma with_rc_Ok i f s s' : with_rc i f s = Ok s' ->
  exists r a a', same_stakes (rc s) (put_account i a (rc s)) /\ stakes (rc s) !! i = Some (erase a) /\ f a = Ok a' /\ s' = put_rc r s /\
    stakes r = <[i := erase a']> (stakes (rc s)) /\ head_block_time r = head_block_time (rc s).
Proof.
  unfold with_rc. intros H. apply bind_Ok in H as (r1 & H1 & H). apply bind_Ok in H as (a & Ha & H). apply bind_Ok in H as (a' & Hf & H). apply bind_Ok in H as (r2 & H2 & H). injection H as <-.
  apply regenerate_same in H1 as [S1 T1]. apply account_found in Ha. apply vest_change_same in H2 as [S2 T2]. apply stakes_lookup in Ha as Hs. rewrite S1 in Hs.
  exists r2, a, a'. split_and!; [split; [|done]; rewrite stakes_put; by apply insert_id|done|done|done| |cbn in T2; congruence]. by rewrite S2, stakes_put, S1.
Qed.

Lemma vote_mana_Ok dpp t x a a' : update_vote_mana dpp t x a = Ok a' -> exists v d, a' = set_vote_mana v d a.
Proof.
  unfold update_vote_mana. intros H. apply bind_Ok in H as (e & _ & H). apply bind_Ok in H as ([v d] & _ & H). injection H as <-. by exists v, d.
Qed.
Lemma use_mana_Ok dpp x a a' : use_vote_mana dpp x a = Ok a' -> exists v d, a' = set_vote_mana v d a.
Proof. unfold use_vote_mana. intros H. apply bind_Ok in H as (d & _ & H). injection H as <-. by eexists _, _. Qed.

(** The shares of one account change by [dx]. *)
Record restaked (i dx : Z) s s' : Prop := {
  re_ok : vest_ok s';
  re_shares : shares_sum s' = shares_sum s + dx;
  re_rest : exists r, s' = put_rc r s;
  re_time : head_block_time (rc s') = head_block_time (rc s);
  re_stakes : exists a a', stakes (rc s) !! i = Some a /\ stakes (rc s') = <[i := a']> (stakes (rc s)) /\ vesting_shares a' = vesting_shares a + dx /\ withdrawal_key a' = withdrawal_key a
}.

Lemma with_rc_restaked i dx f s s' : vest_ok s -> with_rc i f s = Ok s' ->
  (forall a a', amount_ok (vesting_shares a) -> f a = Ok a' -> vesting_shares a' = vesting_shares a + dx /\ amount_ok (vesting_shares a') /\ withdrawal_key a' = withdrawal_key a) ->
  restaked i dx s s'.
Proof.
  intros I H Hf. apply with_rc_Ok in H as (r & a & a' & _ & Ha & Hfa & -> & Sr & Tr). destruct (Hf a a' (vo_shares _ I i _ Ha) Hfa) as (E1 & E2 & E3).
  constructor.
  - destruct I as [I1 I2 I3 I4]. constructor; [|done|done|done]. intros j x Hj. cbn in Hj. rewrite Sr in Hj. destruct (decide (j = i)) as [->|Hne]; [rewrite lookup_insert_eq in Hj; by injection Hj as <-|].
    rewrite lookup_insert_ne in Hj by done. by eapply I1.
  - unfold shares_sum. cbn. rewrite Sr, (sumM_update _ _ _ _ _ Ha). cbn. lia.
  - by exists r.
  - done.
  - exists (erase a), (erase a'). cbn. split_and!; [done|done|done|exact E3].
Qed.

(** [dh] HIVE came in; the counters moved with what they count. *)
Record moved (dh : Z) s s' : Prop := {
  mv_ok : vest_ok s';
  mv_shares : total_vesting_shares (fund s') - shares_sum s' = total_vesting_shares (fund s) - shares_sum s;
  mv_pending : pending_rewarded_vesting_shares (fund s') - sumM reward_vests (funds s') = pending_rewarded_vesting_shares (fund s) - sumM reward_vests (funds s);
  mv_pending_hive : pending_rewarded_vesting_hive (fund s') - sumM reward_vests_as_hive (funds s') = pending_rewarded_vesting_hive (fund s) - sumM reward_vests_as_hive (funds s);
  mv_hive : all_hive s' = all_hive s + dh;
  mv_hbd : all_hbd s' = all_hbd s;
  mv_time : now s' = now s
}.

Lemma moved_trans a b s s1 s2 : moved a s s1 -> moved b s1 s2 -> moved (a + b) s s2.
Proof. intros [] []. constructor; [done|lia|lia|lia|lia|lia|congruence]. Qed.
Lemma moved_books s s' dh : moved dh s s' -> books s -> books s'.
Proof. intros [] []. constructor; lia. Qed.
Lemma moved_refl s : vest_ok s -> moved 0 s s.
Proof. intros H. constructor; try done; lia. Qed.
(** The votes are no funds. *)
Lemma moved_votes dh s s' l b : moved dh s s' -> moved dh s (put_book b (put_delayed l s')).
Proof. intros [[M1 M2 M3 M0] M4 M5 M6 M7 M8 M9]. constructor; done. Qed.
Lemma moved_book dh s s' b : moved dh s s' -> moved dh s (put_book b s').
Proof. intros H. apply (moved_votes _ _ _ (delayed s') b) in H. by destruct s'. Qed.
Lemma moved_delayed dh s s' l : moved dh s s' -> moved dh s (put_delayed l s').
Proof. intros H. apply (moved_votes _ _ _ l (book s')) in H. by destruct s'. Qed.

Lemma put_fund_ok g s : vest_ok s -> fund_ok g -> vest_ok (put_fund g s).
Proof. intros [I1 I2 I3 I4] Hg. constructor; done. Qed.
Lemma put_funds_ok i f s : vest_ok s -> funds_ok f -> vest_ok (put_funds i f s).
Proof.
  intros [I1 I2 I3 I4] Hf. constructor; [done| |done|done]. intros j x Hj. cbn in Hj. destruct (decide (j = i)) as [->|Hne]; [rewrite lookup_insert_eq in Hj; by injection Hj as <-|].
  rewrite lookup_insert_ne in Hj by done. by eapply I2.
Qed.

Lemma add_delayed_Ok i v s s' : add_delayed_value i v s = Ok s' -> exists l, s' = put_delayed l s.
Proof. unfold add_delayed_value. destruct (find_account i (delayed s)); [|done]. intros H. apply bind_Ok in H as (x & _ & H). injection H as <-. by eexists. Qed.

Lemma adjust_vesting_Ok i h reward s s' rest v : vest_ok s -> amount_ok h -> adjust_account_vesting_balance i h reward s = Ok (s', rest, v) ->
  rest = 0 /\ amount_ok v /\ moved h s s'.
Proof.
  intros I Hh H. unfold adjust_account_vesting_balance in H. apply bind_Ok in H as ([[g rest0] nv] & Hc & H). cbv zeta in H.
  apply to_vests_Ok in Hc as (V1 & V2 & V3 & V4 & V5 & V6 & V7); [|apply I|done]. pose proof (put_fund_ok g s I V3) as I1. destruct reward.
  - apply bind_Ok in H as (a & _ & H). apply bind_Ok in H as ([rv x1] & H1 & H). apply bind_Ok in H as ([rh x2] & H2 & H). injection H as <- <- <-. subst rest0.
    pose proof (funds_of_ok i s I) as (F1 & F2 & F3 & F4 & F5 & F6). change (funds_of i (put_fund g s)) with (funds_of i s) in *.
    apply tiny_transfer_Ok in H1 as (-> & -> & R1 & R2); [|done|done|by apply amount_in_s]. apply tiny_transfer_Ok in H2 as (-> & -> & R3 & R4); [|done|done|by apply amount_in_s].
    split_and!; [lia|done|]. constructor; unfold all_hive, all_hbd, shares_sum; cbn [fund funds rc put_funds put_fund]; rewrite ?sumM_put by done; fold (funds_of i s); cbn; try (unfold liquid_of, hbd_of; cbn; lia); [|done].
    apply put_funds_ok; [done|]. unfold funds_ok. cbn. done.
  - apply bind_Ok in H as (s1 & H1 & H). injection H as <- <- <-. apply (with_rc_restaked _ nv) in H1 as [R1 R2 R3 R4 R5]; [|done|].
    + split_and!; [done|done|]. destruct R3 as [r ->]. constructor; unfold all_hive, all_hbd, shares_sum in *; cbn in *; try lia; done.
    + intros a a' Ha Hf. apply bind_Ok in Hf as (b & Hb & Hf). apply bind_Ok in Hf as ([w x] & Hw & Hf). injection Hf as <-. apply vote_mana_Ok in Hb as (vm & dm & ->).
      apply tiny_transfer_Ok in Hw as (-> & -> & W1 & W2); [|done|done|by apply amount_in_s]. done.
Qed.

Lemma withdraw_hive_Ok i x s s' : vest_ok s -> amount_ok x -> withdraw_hive i x s = Ok s' -> moved (- x) s s'.
Proof.
  intros I Hx H. unfold withdraw_hive in H. apply check_bind_Ok in H as [_ H]. apply bind_Ok in H as ([own temp] & H1 & H). injection H as <-.
  pose proof (funds_of_ok i s I) as (F1 & F2 & F3 & F4 & F5 & F6). apply tiny_transfer_Ok in H1 as (-> & -> & R1 & R2); [|done|unfold amount_ok; lia|unfold in_s, amount_ok in *; lia].
  constructor; unfold all_hive, all_hbd, shares_sum; cbn [fund funds rc put_funds]; rewrite ?sumM_put by done; fold (funds_of i s); cbn; try (unfold liquid_of, hbd_of; cbn; lia); [|done].
  apply put_funds_ok; [done|]. unfold funds_ok. cbn. done.
Qed.

Lemma transfer_to_vesting_Ok from to x s s' : vest_ok s -> amount_ok x -> transfer_to_vesting from to x s = Ok s' -> moved 0 s s'.
Proof.
  intros I Hx H. unfold transfer_to_vesting in H. apply bind_Ok in H as (a & _ & H). apply check_bind_Ok in H as [_ H]. cbv zeta in H. apply bind_Ok in H as (b & _ & H). apply check_bind_Ok in H as [_ H].
  apply bind_Ok in H as (s1 & H1 & H). apply bind_Ok in H as ([[s2 rest] v] & H2 & H). apply bind_Ok in H as (s3 & H3 & H). apply check_bind_Ok in H as [_ H]. injection H as <-.
  apply withdraw_hive_Ok in H1 as M1; [|done|done]. apply adjust_vesting_Ok in H2 as (_ & _ & M2); [|apply M1|done]. apply add_delayed_Ok in H3 as [l ->].
  apply moved_delayed. replace 0 with (- x + x) by lia. by eapply moved_trans.
Qed.

(** *** Rewards *)

Lemma claim_Ok i ch cb cv s s' : vest_ok s -> amount_ok ch -> amount_ok cb -> amount_ok cv -> claim_reward_balance i ch cb cv s = Ok s' -> books s -> moved 0 s s'.
Proof.
  intros I H1 H2 H3 H B. unfold claim_reward_balance in H. apply bind_Ok in H as (a0 & _ & H). apply check_bind_Ok in H as [_ H]. cbv zeta in H. apply check_bind_Ok in H as [C1 H]. apply check_bind_Ok in H as [C2 H]. apply check_bind_Ok in H as [C3 H].
  pose proof (funds_of_ok i s I) as (F1 & F2 & F3 & F4 & F5 & F6). set (f := funds_of i s) in *.
  apply bind_Ok in H as (tm & Htm & H). assert (in_s 64 tm) as Hin.
  { destruct (cv =? reward_vests f); [injection Htm as <-; by apply amount_in_s|]. apply bind_Ok in Htm as (? & _ & Htm). apply bind_Ok in Htm as (? & _ & Htm). injection Htm as <-. apply swrap_range. lia. }
  apply bind_Ok in H as ([t1 rh] & T1 & H). apply tiny_transfer_Ok in T1 as (-> & -> & R1 & R2); [|unfold amount_ok; lia|done|by apply amount_in_s].
  apply bind_Ok in H as ([h t2] & T2 & H). apply tiny_transfer_Ok in T2 as (-> & -> & R3 & R4); [|done|done|by apply amount_in_s].
  apply bind_Ok in H as ([t3 rb] & T3 & H). apply tiny_transfer_Ok in T3 as (-> & -> & R5 & R6); [|unfold amount_ok; lia|done|by apply amount_in_s].
  apply bind_Ok in H as ([b t4] & T4 & H). apply tiny_transfer_Ok in T4 as (-> & -> & R7 & R8); [|done|done|by apply amount_in_s].
  apply bind_Ok in H as (r1 & Hr1 & H). apply regenerate_same in Hr1 as [S1 Ti1]. apply bind_Ok in H as (a & Ha & H). apply account_found, stakes_lookup in Ha. rewrite S1 in Ha.
  apply bind_Ok in H as (a' & Ha' & H). apply vote_mana_Ok in Ha' as (vm & dm & ->). apply bind_Ok in H as ([v rv] & T5 & H). cbn in T5.
  apply tiny_transfer_Ok in T5 as (-> & -> & R9 & R10); [|apply (vo_shares _ I i _ Ha)|done|by apply amount_in_s].
  apply bind_Ok in H as ([mvd rvh] & T6 & H). apply tiny_transfer_Ok in T6 as (-> & -> & R11 & R12); [|unfold amount_ok; lia|done|done].
  apply bind_Ok in H as (r2 & Hr2 & H). apply vest_change_same in Hr2 as [S2 Ti2]. rewrite stakes_put, S1 in S2. destruct (vo_fund _ I) as (G1 & G2 & G3 & G4).
  apply bind_Ok in H as (sh & Hsh & H). apply safe_add_Ok in Hsh as [-> R13]; [|by apply amount_in_s|by apply amount_in_s].
  apply bind_Ok in H as ([x mvd2] & T7 & H). apply tiny_transfer_Ok in T7 as (-> & -> & R14 & R15); [|done|done|by apply amount_in_s].
  apply bind_Ok in H as (pe & Hpe & H). apply safe_sub_Ok in Hpe as [-> R16]; [|by apply amount_in_s|by apply amount_in_s].
  apply bind_Ok in H as (ph & Hph & H). apply safe_sub_Ok in Hph as [-> R17]; [|by apply amount_in_s|by apply amount_in_s]. apply bind_Ok in H as (bk & _ & H). injection H as <-. cbn in Ti2.
  apply moved_book. set (f' := mk_funds _ _ _ _ _ _). assert (funds_ok f') as Hf' by done.
  assert (sumM vesting_shares (stakes r2) = shares_sum s + cv) as Es by (rewrite S2, (sumM_update _ _ _ _ _ Ha); unfold shares_sum; cbn; lia).
  constructor; unfold all_hive, all_hbd, shares_sum in *; cbn [fund funds rc put_funds put_fund put_rc]; rewrite ?sumM_put by done; fold (funds_of i s); fold f; cbn; try (unfold liquid_of, hbd_of; cbn; lia); [|unfold now; cbn; congruence].
  destruct B as [_ B2 B3]. assert (0 <= pending_rewarded_vesting_shares (fund s) - cv /\ 0 <= pending_rewarded_vesting_hive (fund s) - tm) as [P1 P2].
  { pose proof (funds_part reward_vests i s I eq_refl ltac:(intros x Hx; apply Hx)) as Q1. pose proof (funds_part reward_vests_as_hive i s I eq_refl ltac:(intros x Hx; apply Hx)) as Q2.
    fold f in Q1, Q2. unfold amount_ok in *. lia. }
  constructor; [|cbn|unfold fund_ok, amount_ok, in_s in *; cbn; lia|apply I].
  - intros j y Hj. cbn in Hj. rewrite S2 in Hj. destruct (decide (j = i)) as [->|Hne]; [rewrite lookup_insert_eq in Hj; injection Hj as <-; done|]. rewrite lookup_insert_ne in Hj by done. by eapply (vo_shares _ I).
  - intros j y Hj. destruct (decide (j = i)) as [->|Hne]; [rewrite lookup_insert_eq in Hj; injection Hj as <-; done|]. rewrite lookup_insert_ne in Hj by done. by eapply (vo_funds _ I).
Qed.

(** *** VESTS of the restricted accounts *)

Lemma restaked_moved i dx s s' : restaked i dx s s' -> funds s' = funds s /\ fund s' = fund s /\ now s' = now s.
Proof. intros [R1 R2 [r ->] R4 R5]. done. Qed.

Lemma transfer_vests_Ok from to x s s' : vest_ok s -> amount_ok x -> transfer_vests from to x s = Ok s' -> moved 0 s s'.
Proof.
  intros I Hx H. unfold transfer_vests in H. apply bind_Ok in H as (a & _ & H). apply check_bind_Ok in H as [_ H]. apply bind_Ok in H as (? & _ & H). apply check_bind_Ok in H as [_ H].
  apply bind_Ok in H as (? & _ & H). apply check_bind_Ok in H as [_ H]. apply check_bind_Ok in H as [_ H]. apply check_bind_Ok in H as [_ H].
  apply bind_Ok in H as (s1 & H1 & H). apply bind_Ok in H as (b & _ & H). cbv zeta in H. apply bind_Ok in H as (s2 & H2 & H). apply add_delayed_Ok in H as [l ->]. apply moved_delayed.
  apply (with_rc_restaked _ (- x)) in H1 as R1; [|done|].
  2:{ intros c c' Hc Hf. apply bind_Ok in Hf as (c1 & Hc1 & Hf). apply vote_mana_Ok in Hc1 as (v1 & d1 & ->). apply bind_Ok in Hf as (c2 & Hc2 & Hf). apply use_mana_Ok in Hc2 as (v2 & d2 & ->).
      apply bind_Ok in Hf as ([m v] & Hm & Hf). injection Hf as <-. cbn in Hm. apply tiny_transfer_Ok in Hm as (-> & -> & W1 & W2); [|unfold amount_ok; lia|done|by apply amount_in_s]. cbn. split_and!; [lia|done|done]. }
  apply (with_rc_restaked _ x) in H2 as R2; [|destruct R1 as [[I1 I2 I3 I4] _ _ _ _]; constructor; done|].
  2:{ intros c c' Hc Hf. apply bind_Ok in Hf as (c1 & Hc1 & Hf). apply vote_mana_Ok in Hc1 as (v1 & d1 & ->). apply bind_Ok in Hf as ([v m] & Hm & Hf). injection Hf as <-. cbn in Hm.
      apply tiny_transfer_Ok in Hm as (-> & -> & W1 & W2); [|done|done|by apply amount_in_s]. done. }
  destruct (restaked_moved _ _ _ _ R1) as (A1 & A2 & A3), (restaked_moved _ _ _ _ R2) as (B1 & B2 & B3). cbn in B1, B2, B3. pose proof (re_shares _ _ _ _ R1) as E1. pose proof (re_shares _ _ _ _ R2) as E2.
  unfold shares_sum in *. cbn in E2. constructor; unfold all_hive, all_hbd, shares_sum; rewrite ?B1, ?B2, ?A1, ?A2; try lia; [apply R2|]. unfold now in *. cbn in B3. congruence.
Qed.

(** *** The value of a share *)

(** A share of [g'] is worth at least one of [g]. *)
Definition worth (g g' : vesting_fund) : Prop :=
  total_vesting_fund_hive g * total_vesting_shares g' <= total_vesting_fund_hive g' * total_vesting_shares g.

Lemma worth_trans g g1 g2 : fund_ok g -> fund_ok g1 -> fund_ok g2 -> total_vesting_shares g2 <= total_vesting_shares g1 -> worth g g1 -> worth g1 g2 -> worth g g2.
Proof.
  unfold worth, fund_ok, amount_ok. intros (A1 & A2 & _) (B1 & B2 & _) (C1 & C2 & _) Hle H1 H2. destruct (Z.eq_dec (total_vesting_shares g1) 0) as [E0|E0].
  - assert (total_vesting_shares g2 = 0) as -> by lia. nia.
  - apply (Z.mul_le_mono_pos_r _ _ (total_vesting_shares g1)); [lia|].
    apply (Z.le_trans _ (total_vesting_fund_hive g1 * total_vesting_shares g * total_vesting_shares g2)); nia.
Qed.

Lemma to_hive_worth v g g' h : fund_ok g -> 0 <= v <= total_vesting_shares g -> convert_VESTS_to_HIVE v g = Ok (g', h) -> worth g g'.
Proof.
  intros Hg Hv H. apply to_hive_Ok in H as (H1 & H2 & H3 & H4 & _ & _ & H5); [|done|done]. unfold worth. rewrite H3, H4. destruct Hg as ((G1 & _) & (G2 & _) & _).
  destruct (Z.eq_dec (total_vesting_fund_hive g) 0) as [E1|E1].
  - unfold fund_ok, amount_ok in *. rewrite H3 in H2. assert (h = 0) by lia. nia.
  - destruct (Z.eq_dec (total_vesting_shares g) 0) as [E2|E2]; [rewrite E2 in *; assert (v = 0) by lia; nia|]. rewrite H5 by lia.
    pose proof (Z.mul_div_le (v * total_vesting_fund_hive g) (total_vesting_shares g) ltac:(lia)). nia.
Qed.

Lemma to_vests_worth h g g' rest v : fund_ok g -> 0 < total_vesting_fund_hive g -> 0 < total_vesting_shares g -> amount_ok h ->
  h * total_vesting_shares g / total_vesting_fund_hive g < 2 ^ 63 -> convert_HIVE_to_VESTS h false g = Ok (g', rest, v) ->
  v = h * total_vesting_shares g / total_vesting_fund_hive g /\ worth g g'.
Proof.
  intros Hg P1 P2 Hh Hf H. pose proof H as H0. apply to_vests_Ok in H0 as (_ & _ & _ & A1 & _ & A2 & _); [|done|done]. destruct Hg as (G1 & G2 & G3 & G4).
  unfold convert_HIVE_to_VESTS in H. apply bind_Ok in H as (p & Hp & H). apply bind_Ok in H as (va & Hva & H). apply bind_Ok in H as ([g1 rest1] & H1 & H). apply bind_Ok in H as ([g2 v2] & H2 & H). injection H as <- <- <-.
  unfold get_vesting_share_price in Hp. rewrite (proj2 (Z.eqb_neq _ 0)), (proj2 (Z.eqb_neq _ 0)) in Hp by lia. cbn [orb] in Hp. apply tprice_of_Ok in Hp as (B1 & B2 & _); auto.
  unfold tiny_mul_quote in Hva. apply bind_Ok in Hva as (? & _ & Hva). apply bind_Ok in Hva as (r & Hr & Hva). injection Hva as <-. cbn [tamount] in *. rewrite B1, B2 in Hr.
  rewrite mul_div_floor in Hr by (unfold amount_ok in *; lia || done). injection Hr as <-. unfold issue_VESTS in H2. apply check_bind_Ok in H2 as [_ H2]. apply bind_Ok in H2 as (? & _ & H2). injection H2 as _ <-.
  split; [done|]. unfold worth. rewrite A1, A2. pose proof (Z.mul_div_le (h * total_vesting_shares g) (total_vesting_fund_hive g) P1). nia.
Qed.

(** *** Payouts *)

(** During a payout of [w] VESTS, of which [rest] are still to be distributed: the
    pending shares are ahead by [w], and the shares of the accounts by what was vested. *)
Record paying (w rest : Z) s0 s : Prop := {
  pg_ok : vest_ok s;
  pg_rest : 0 <= rest <= w;
  pg_shares : total_vesting_shares (fund s) - shares_sum s = total_vesting_shares (fund s0) - shares_sum s0 - (w - rest);
  pg_total : total_vesting_shares (fund s0) - (w - rest) <= total_vesting_shares (fund s) <= total_vesting_shares (fund s0);
  pg_pending : pending_rewarded_vesting_shares (fund s) = pending_rewarded_vesting_shares (fund s0) + w /\ pending_rewarded_vesting_hive (fund s) = pending_rewarded_vesting_hive (fund s0);
  pg_rewards : sumM reward_vests (funds s) = sumM reward_vests (funds s0) /\ sumM reward_vests_as_hive (funds s) = sumM reward_vests_as_hive (funds s0);
  pg_hive : all_hive s = all_hive s0 /\ all_hbd s = all_hbd s0;
  pg_now : now s = now s0;
  pg_routes : routes s = routes s0;
  pg_worth : worth (fund s0) (fund s);
  pg_keys j x : stakes (rc s) !! j = Some x -> exists y, stakes (rc s0) !! j = Some y /\ withdrawal_key x = withdrawal_key y;
  pg_due t : sumM (due_payouts t) (stakes (rc s)) = sumM (due_payouts t) (stakes (rc s0));
  pg_dom j : is_Some (stakes (rc s0) !! j) -> is_Some (stakes (rc s) !! j)
}.

Lemma due_key t x y : withdrawal_key x = withdrawal_key y -> due_payouts t x = due_payouts t y.
Proof. unfold withdrawal_key, due_payouts. by intros [= -> _]. Qed.

(** [v] of the VESTS are turned into HIVE for the account [i]. *)
Lemma pay_hive i v w rest s0 s g h h' x : fund_ok (fund s0) -> paying w rest s0 s -> w <= total_vesting_shares (fund s0) -> 0 <= v <= rest -> convert_VESTS_to_HIVE v (fund s) = Ok (g, h) ->
  tiny_transfer_from (hive (funds_of i s)) h h = Ok (h', x) -> paying w (rest - v) s0 (put_funds i (set_hive h' (funds_of i s)) (put_fund g s)).
Proof.
  intros F0 [P1 P2 P3 P4 P5 P6 P7 P8 P9 Pw Pk Pd Pm] Hw Hv Hc Ht. pose proof (vo_fund _ P1) as Fg. assert (0 <= v <= total_vesting_shares (fund s)) as Hv' by lia.
  pose proof (to_hive_worth _ _ _ _ Fg Hv' Hc) as W1. apply to_hive_Ok in Hc as (A1 & A2 & A3 & A4 & A5 & A6 & _); [|done|done].
  pose proof (funds_of_ok i s P1) as (F1 & F2 & F3 & F4 & F5 & F6). apply tiny_transfer_Ok in Ht as (-> & -> & R1 & R2); [|done|done|by apply amount_in_s].
  pose proof (liquid_set_hive (hive (funds_of i s) + h) (funds_of i s)) as [Q1 Q2].
  constructor; unfold all_hive, all_hbd, shares_sum in *; cbn [fund funds rc routes put_funds put_fund]; rewrite ?sumM_put by done; fold (funds_of i s); rewrite ?Q1, ?Q2; cbn; try lia; try done.
  - apply put_funds_ok; [by apply put_fund_ok|]. unfold funds_ok. cbn. done.
  - apply (worth_trans _ (fund s)); try done. lia.
Qed.

Lemma pay_route_Ok mode i w rest s0 s items r s' rest' items' : fund_ok (fund s0) -> paying w rest s0 s -> w <= total_vesting_shares (fund s0) -> w < 2 ^ 63 -> 0 <= percent r <= HIVE_100_PERCENT ->
  pay_route mode i w (s, rest, items) r = Ok (s', rest', items') -> paying w rest' s0 s'.
Proof.
  intros F0 Pg Hw Hlt Hp H. unfold pay_route in H. destruct (_ || _); [by injection H as <- <- <-|]. apply bind_Ok in H as (dep & Hd & H). destruct (Z.leb_spec dep 0) as [|Hpos]; [by injection H as <- <- <-|].
  apply bind_Ok in H as (c & _ & H). apply bind_Ok in H as ([routed rest1] & Ht & H). assert (in_s 64 dep) as Hin.
  { pose proof (pg_rest _ _ _ _ Pg). unfold HIVE_100_PERCENT in *. rewrite (uwrap_id 128 w) in Hd by (unfold in_u; lia). rewrite (uwrap_id 128 (w * _)) in Hd by (unfold in_u; nia).
    assert (0 <= w * percent r / 10000 < 2 ^ 63) by (split; [apply Z.div_pos; nia|apply Z.div_lt_upper_bound; nia]). rewrite uint128_to_int64_fits in Hd by done. injection Hd as <-. unfold in_s. lia. }
  apply tiny_transfer_Ok in Ht as (-> & -> & R1 & R2); [|unfold amount_ok; lia|destruct Pg; unfold amount_ok; lia|done]. destruct mode.
  - apply bind_Ok in H as (s1 & H1 & H). apply bind_Ok in H as (it & _ & H). injection H as <- <- <-. rewrite Z.add_0_l in *. apply (with_rc_restaked _ dep) in H1 as Rs; [|apply Pg|].
    2:{ intros a a' Ha Hf. apply bind_Ok in Hf as ([v m] & Hm & Hf). injection Hf as <-. apply tiny_transfer_Ok in Hm as (-> & -> & W1 & W2); [|done|done|done]. done. }
    destruct (restaked_moved _ _ _ _ Rs) as (B1 & B2 & B3). destruct Rs as [Ro Rsh [r1 ->] Rt (a & a' & Ra & Rs & Rv & Rk)]. cbn in *. destruct Pg as [P1 P2 P3 P4 P5 P6 P7 P8 P9 Pw Pk Pd Pm].
    constructor; unfold all_hive, all_hbd, shares_sum in *; cbn in *; try done; try (unfold amount_ok in *; lia).
    + intros j x Hj. rewrite Rs in Hj. destruct (decide (j = to_account r)) as [->|Hne]; [|rewrite lookup_insert_ne in Hj by done; by apply Pk].
      rewrite lookup_insert_eq in Hj. injection Hj as <-. destruct (Pk _ _ Ra) as (y & Hy & Ey). exists y. split; [done|congruence].
    + intros t. rewrite Rs, (sumM_update _ _ _ _ _ Ra), (due_key t a' a Rk), Pd. lia.
    + intros j Hj. rewrite Rs. destruct (decide (j = to_account r)) as [->|Hne]; [rewrite lookup_insert_eq; by eexists|rewrite lookup_insert_ne by done; by apply Pm].
  - apply bind_Ok in H as ([g rh] & Hc & H). cbv zeta in H. apply bind_Ok in H as ([h x] & Hh & H). injection H as <- <- <-. rewrite Z.add_0_l in Hc.
    change (funds_of (to_account r) (put_fund g s)) with (funds_of (to_account r) s) in *. eapply (pay_hive _ dep); try done. unfold amount_ok in *. lia.
Qed.

Lemma process_routing_Ok mode i w rest s0 s items s' rest' items' : fund_ok (fund s0) -> paying w rest s0 s -> w <= total_vesting_shares (fund s0) -> w < 2 ^ 63 ->
  process_routing mode i w (s, rest, items) = Ok (s', rest', items') -> paying w rest' s0 s'.
Proof.
  intros F0 Pg Hw Hlt. unfold process_routing. cbn [fst]. pose proof (vo_routes _ (pg_ok _ _ _ _ Pg)) as Hr. revert Hr. generalize (routes s) as l. intros l Hr. revert s rest items Pg.
  induction Hr as [|r l Hp Hr IH]; intros s rest items Pg H; cbn [foldM] in H; [by injection H as <- <- <-|].
  destruct (pay_route mode i w (s, rest, items) r) as [[[s1 rest1] items1]|] eqn:E1; [|done]. eapply (IH s1 rest1 items1); [eapply pay_route_Ok; [exact F0|exact Pg|exact Hw|exact Hlt|exact Hp|exact E1]|exact H].
Qed.

Lemma finish_Ok w a a' : finish_payout w a = Ok a' -> vesting_shares a' = vesting_shares a /\
  (next_vesting_withdrawal a' = max_time \/ next_vesting_withdrawal a' = u32 (next_vesting_withdrawal a + HIVE_VESTING_WITHDRAW_INTERVAL_SECONDS)).
Proof.
  unfold finish_payout. intros H. apply bind_Ok in H as (x & _ & H). cbv zeta in H. apply bind_Ok in H as (t & _ & H). destruct (_ || _); injection H as <-; cbn; auto.
Qed.

Lemma update_delayed_Ok items s s' x : update_delayed items s = Ok (s', x) -> exists l, s' = put_delayed l s.
Proof. unfold update_delayed. destruct (update_votes _ _ _) as [[[l [y|]]|]|]; try done. intros [= <- <-]. by exists l. Qed.

Definition dates_ok s : Prop := forall j x, stakes (rc s) !! j = Some x -> 0 <= next_vesting_withdrawal x.

(** One payout: nothing is made or lost, no share loses value, and the next one is an
    interval later, if there is one. *)
Lemma pay_out_Ok i s s' : vest_ok s -> books s -> pay_out i s = Ok s' ->
  moved 0 s s' /\ worth (fund s) (fund s') /\ total_vesting_shares (fund s') <= total_vesting_shares (fund s) /\ (dates_ok s -> dates_ok s') /\
  (forall j, is_Some (stakes (rc s) !! j) -> is_Some (stakes (rc s') !! j)) /\
  exists x y, stakes (rc s) !! i = Some x /\ (forall t, sumM (due_payouts t) (stakes (rc s')) = sumM (due_payouts t) (stakes (rc s)) - due_payouts t x + due_payouts t y) /\
    (next_vesting_withdrawal y = max_time \/ next_vesting_withdrawal y = u32 (next_vesting_withdrawal x + HIVE_VESTING_WITHDRAW_INTERVAL_SECONDS)).
Proof.
  intros I B H. unfold pay_out in H. apply bind_Ok in H as (a & Ha & H). apply account_found in Ha. apply bind_Ok in H as (tw & Htw & H). cbv zeta in H.
  pose proof (stake_of _ _ _ Ha I) as Av. set (w := if vesting_shares a <? tw then vesting_shares a else tw) in *.
  assert (w <= vesting_shares a) as Hwa by (subst w; destruct (Z.ltb_spec (vesting_shares a) tw); lia). apply bind_Ok in H as ([g pd] & Hg & H).
  assert (0 <= w) as Hw0 by (unfold issue_VESTS in Hg; apply check_bind_Ok in Hg as [Hc _]; by to_prop). pose proof (stakes_lookup _ _ _ Ha) as Hsa.
  assert (w <= total_vesting_shares (fund s)) as Hws.
  { rewrite (bk_shares _ B). assert (vesting_shares a <= shares_sum s); [|lia]. unfold shares_sum. change (vesting_shares a) with (vesting_shares (erase a)). eapply sumM_lookup_le; [|exact Hsa]. intros j x Hj. apply (vo_shares _ I j x Hj). }
  apply issue_Ok in Hg as (-> & A1 & A2 & A3 & A4 & A5 & A6); [|apply I|unfold in_s, amount_ok in *; lia].
  assert (paying w w s (put_fund g s)) as P0.
  { constructor; unfold all_hive, all_hbd, shares_sum; cbn; try lia; try done; [by apply put_fund_ok|unfold worth; rewrite A3, A5; lia|]. intros j x Hj. by exists x. }
  apply bind_Ok in H as ([[s1 rest1] it1] & H1 & H). assert (w < 2 ^ 63) as Hlt by (unfold amount_ok in *; lia).
  pose proof (process_routing_Ok _ _ _ _ _ _ _ _ _ _ (vo_fund _ I) P0 Hws Hlt H1) as P1.
  apply bind_Ok in H as ([[s2 rest2] it2] & H2 & H). pose proof (process_routing_Ok _ _ _ _ _ _ _ _ _ _ (vo_fund _ I) P1 Hws Hlt H2) as P2.
  apply bind_Ok in H as ([g3 ch] & H3 & H). apply bind_Ok in H as (r & Hr & H). apply regenerate_same in Hr as [Sr Tr]. apply bind_Ok in H as (it & _ & H). apply bind_Ok in H as (b & Hb & H).
  apply account_found, stakes_lookup in Hb. rewrite Sr in Hb. cbn [rc put_fund] in Hb. apply bind_Ok in H as ([pd v] & Hv & H). pose proof (vo_shares _ (pg_ok _ _ _ _ P2) _ _ Hb) as Bv. cbn in Bv.
  apply tiny_transfer_Ok in Hv as (-> & -> & V1 & V2); [|unfold amount_ok; lia|done|by apply amount_in_s]. apply bind_Ok in H as ([h x] & Hh & H). apply bind_Ok in H as (b' & Hb' & H). apply finish_Ok in Hb' as [F1 F2]. cbn in F1, F2.
  apply bind_Ok in H as (r2 & Hr2 & H). apply vest_change_same in Hr2 as [Sr2 Tr2]. cbv zeta in H. rewrite stakes_put, Sr in Sr2. cbn [rc put_fund] in Sr2. apply bind_Ok in H as (g4 & H4 & H).
  apply bind_Ok in H as ([s5 lo] & H5 & H). apply update_delayed_Ok in H5 as [l ->].
  (* the last conversion, for the account itself *)
  assert (paying w 0 s (put_funds i (set_hive h (funds_of i s2)) (put_fund g3 s2))) as P3.
  { destruct (Z.eqb_spec rest2 0) as [E0|E0].
    - injection H3 as <- <-. change (funds_of i (put_fund (fund s2) s2)) with (funds_of i s2) in Hh. pose proof (funds_of_ok i s2 (pg_ok _ _ _ _ P2)) as (Q1 & _).
      apply tiny_transfer_Ok in Hh as (-> & -> & W1 & W2); [|done|unfold amount_ok; lia|unfold in_s; lia]. rewrite Z.add_0_r.
      destruct P2 as [[J1 J2 J3 J4] K2 K3 K4 K5 K6 K7 K8 K9 K10 K11 K12 K13].
      assert (forall gg, gg no_funds = 0 -> sumM gg (<[i := set_hive (hive (funds_of i s2)) (funds_of i s2)]> (funds s2)) = sumM gg (funds s2)) as Hsame.
      { intros gg Hg0. rewrite sumM_put by done. fold (funds_of i s2). replace (set_hive (hive (funds_of i s2)) (funds_of i s2)) with (funds_of i s2) by (by destruct (funds_of i s2)). lia. }
      constructor; unfold all_hive, all_hbd, shares_sum in *; cbn [fund funds rc routes put_funds put_fund]; rewrite ?Hsame by done; try done; try lia.
      apply put_funds_ok; [by apply put_fund_ok|]. unfold funds_ok. cbn. pose proof (funds_of_ok i s2 (Build_vest_ok _ J1 J2 J3 J4)) as (? & ? & ? & ? & ? & ?). done.
    - pose proof (pg_rest _ _ _ _ P2). replace 0 with (rest2 - rest2) by lia. eapply (pay_hive _ rest2); [apply I|exact P2|done|lia|exact H3|exact Hh]. }
  destruct P3 as [J K2 K3 K4 K5 K6 K7 K8 K9 K10 K11 K12 K13]. cbn [fund put_funds put_fund] in *. rewrite Z.add_0_l in H4.
  apply burn_Ok in H4 as (_ & D2 & D3 & D4 & D5 & D6); [|apply J|by apply amount_in_s|]. 2:{ cbn; rewrite (proj1 K5). destruct (vo_fund _ I) as (_ & _ & G3 & _). unfold amount_ok in *. lia. }
  assert (sumM vesting_shares (stakes r2) = shares_sum s2 - w) as Es.
  { rewrite Sr2, (sumM_update _ _ _ _ _ Hb). unfold shares_sum. cbn. rewrite F1. lia. }
  destruct (K11 i (erase b) Hb) as (y & Hy & Ey). rewrite Hsa in Hy. injection Hy as <-.
  set (s6 := put_delayed _ _) in *.
  assert (s6 = mk_vs r2 (<[i := set_hive h (funds_of i s2)]> (funds s2)) g4 (routes s2) l (book s2) (downvote_percent s2)) as E6 by reflexivity. clearbody s6. subst s6.
  set (s6 := mk_vs _ _ _ _ _ _ _) in *. assert (moved 0 s s6) as M.
  { subst s6. constructor; unfold all_hive, all_hbd, shares_sum in *; cbn [fund funds rc routes put_funds put_fund put_rc] in *.
    - destruct J as [J1 J2 J3 J4]. constructor; cbn in *; try done. intros j z Hj. rewrite Sr2 in Hj. destruct (decide (j = i)) as [->|Hne]; [rewrite lookup_insert_eq in Hj; injection Hj as <-; cbn; by rewrite F1|]. rewrite lookup_insert_ne in Hj by done. by eapply J1.
    - rewrite D5. lia.
    - rewrite D6, (proj1 K5), (proj1 K6). lia.
    - rewrite D4, (proj2 K5), (proj2 K6). lia.
    - rewrite D3. lia.
    - lia.
    - unfold now in *. cbn in *. congruence. }
  assert (exists bk, s' = put_book bk s6) as [bk ->].
  { destruct (0 <? lo); [apply bind_Ok in H as (bk & _ & H); injection H as <-; by eexists|injection H as <-; exists (book s6); by destruct s6]. }
  split_and!; [by apply moved_book| | | | |].
  - unfold worth in *. subst s6. cbn. rewrite D3, D5. rewrite Z.sub_0_r. done.
  - subst s6. cbn. cbn in D5, K4. lia.
  - intros Hd j z Hj. subst s6. cbn in Hj. rewrite Sr2 in Hj. destruct (decide (j = i)) as [->|Hne].
    + rewrite lookup_insert_eq in Hj. injection Hj as <-. cbn. destruct F2 as [-> | ->]; [done|]. pose proof (uwrap_range 32 (next_vesting_withdrawal b + HIVE_VESTING_WITHDRAW_INTERVAL_SECONDS) ltac:(lia)). unfold in_u in *. lia.
    + rewrite lookup_insert_ne in Hj by done. destruct (K11 j z Hj) as (z0 & Hz0 & [= Ez _]). rewrite Ez. by eapply Hd.
  - intros j Hj. subst s6. cbn. rewrite Sr2. destruct (decide (j = i)) as [->|Hne]; [rewrite lookup_insert_eq; by eexists|rewrite lookup_insert_ne by done; by apply K13].
  - exists (erase a), (erase b'). split_and!; [done| |].
    + intros t. subst s6. cbn. rewrite Sr2, (sumM_update _ _ _ _ _ Hb), (due_key t (erase b) (erase a)) by done. rewrite <- (K12 t). cbn. lia.
    + cbn. injection Ey as Ey _. cbn in Ey. rewrite <- Ey. done.
Qed.

(** *** All payouts *)

Lemma pay_due_Ok fuel current s s' : vest_ok s -> books s -> pay_due fuel current s = Some (Ok s') ->
  moved 0 s s' /\ worth (fund s) (fund s') /\ total_vesting_shares (fund s') <= total_vesting_shares (fund s).
Proof.
  revert current s. induction fuel as [|fuel IH]; intros current s I B H.
  - assert (s' = s) as ->; [|split; [by apply moved_refl|unfold worth; lia]]. cbn in H. destruct current as [i|]; [|congruence]. destruct (accounts (rc s) !! i); [|done]. destruct (_ <=? _); [done|congruence].
  - cbn in H. destruct current as [i|]; [|injection H as <-; split; [by apply moved_refl|unfold worth; lia]]. destruct (accounts (rc s) !! i) as [a|]; [|done].
    destruct (_ <=? _); [|injection H as <-; split; [by apply moved_refl|unfold worth; lia]]. destruct (pay_out i s) as [s1|] eqn:E1; [|done].
    apply pay_out_Ok in E1 as (M & Wo & Le & _ & _ & _); [|done|done]. apply IH in H as (M' & Wo' & Le'); [|apply M|by eapply moved_books].
    split_and!; [by apply (moved_trans 0 0 _ s1)| |lia]. apply (worth_trans _ (fund s1)); try done; [apply I|apply M|apply M'].
Qed.

Lemma due_pos t a : next_vesting_withdrawal a <= t -> 1 <= due_payouts t a.
Proof.
  intros H. unfold due_payouts. rewrite (proj2 (Z.leb_le _ _)) by done.
  assert (0 <= (t - next_vesting_withdrawal a) / HIVE_VESTING_WITHDRAW_INTERVAL_SECONDS) by (apply Z.div_pos; unfold HIVE_VESTING_WITHDRAW_INTERVAL_SECONDS, HIVE_CASHOUT_WINDOW_SECONDS; lia). lia.
Qed.
Lemma due_nonneg t a : 0 <= due_payouts t a.
Proof. destruct (Z.le_gt_cases (next_vesting_withdrawal a) t) as [H|H]; [pose proof (due_pos t a H); lia|]. unfold due_payouts. rewrite (proj2 (Z.leb_gt _ _)) by done. lia. Qed.
Lemma stakes_is_Some r j : is_Some (stakes r !! j) <-> is_Some (accounts r !! j).
Proof. unfold stakes. rewrite lookup_fmap. apply fmap_is_Some. Qed.
Lemma first_after_in k r i : first_after k r = Some i -> is_Some (accounts r !! i).
Proof.
  unfold first_after. intros H. apply fmap_Some in H as ([j a] & Hf & ->). cbn. assert ((j, a) ∈ map_to_list (accounts r)) as Hin; [|apply elem_of_map_to_list in Hin; by exists a].
  revert j a Hf. induction (map_to_list (accounts r)) as [|x l IH]; intros j a Hf; [done|]. cbn in Hf. unfold earlier in Hf at 1. destruct (match k with Some _ => _ | None => _ end); [|right; by apply IH].
  destruct (foldr (earlier k) None l) as [y|]; [destruct (key_before _ _)|]; injection Hf as ->; first [by left|right; by apply IH].
Qed.

Lemma pay_due_ends fuel current s : vest_ok s -> books s -> dates_ok s -> (forall i, current = Some i -> is_Some (accounts (rc s) !! i)) ->
  now s + HIVE_VESTING_WITHDRAW_INTERVAL_SECONDS < max_time -> rounds s <= Z.of_nat fuel -> exists r, pay_due fuel current s = Some r.
Proof.
  revert current s. induction fuel as [|fuel IH]; intros current s I B D Hc Hn Hr.
  - cbn. destruct current as [i|]; [|by eexists]. destruct (Hc i eq_refl) as [a Ha]. rewrite Ha. destruct (Z.leb_spec (next_vesting_withdrawal a) (now s)) as [Hd|]; [|by eexists].
    exfalso. pose proof (due_pos (now s) (erase a) Hd) as H1. assert (due_payouts (now s) (erase a) <= rounds s); [|lia].
    unfold rounds. eapply sumM_lookup_le; [|by apply stakes_lookup]. intros j x _. apply due_nonneg.
  - cbn. destruct current as [i|]; [|by eexists]. destruct (Hc i eq_refl) as [a Ha]. rewrite Ha. destruct (Z.leb_spec (next_vesting_withdrawal a) (now s)) as [Hd|]; [|by eexists].
    destruct (pay_out i s) as [s1|] eqn:E1; [|by eexists]. apply pay_out_Ok in E1 as (M & _ & _ & Hdates & Hdom & x & y & Hx & Hsum & Hy); [|done|done].
    rewrite (stakes_lookup _ _ _ Ha) in Hx. injection Hx as <-. apply IH; [apply M|by eapply moved_books|by apply Hdates| |by rewrite (mv_time _ _ _ M)|].
    + intros j Hj. apply first_after_in in Hj. apply (stakes_is_Some (rc s1)), Hdom. by apply stakes_is_Some.
    + unfold rounds in *. rewrite (mv_time _ _ _ M), Hsum. cbn [next_vesting_withdrawal erase set_rc] in Hy. pose proof (D i _ (stakes_lookup _ _ _ Ha)) as D0. cbn in D0.
      assert (due_payouts (now s) y + 1 <= due_payouts (now s) (erase a)); [|lia]. unfold due_payouts. change (next_vesting_withdrawal (erase a)) with (next_vesting_withdrawal a). rewrite (proj2 (Z.leb_le (next_vesting_withdrawal a) (now s))) by done.
      assert (0 <= (now s - next_vesting_withdrawal a) / HIVE_VESTING_WITHDRAW_INTERVAL_SECONDS) by (apply Z.div_pos; unfold HIVE_VESTING_WITHDRAW_INTERVAL_SECONDS, HIVE_CASHOUT_WINDOW_SECONDS; lia).
      unfold max_time in *. destruct (Z.leb_spec (next_vesting_withdrawal y) (now s)) as [Hl|]; [|lia]. destruct Hy as [Hy|Hy]; rewrite Hy in *; [unfold HIVE_VESTING_WITHDRAW_INTERVAL_SECONDS, HIVE_CASHOUT_WINDOW_SECONDS in *; lia|].
      rewrite uwrap_id in * by (unfold in_u, HIVE_VESTING_WITHDRAW_INTERVAL_SECONDS, HIVE_CASHOUT_WINDOW_SECONDS in *; lia).
      replace (now s - (next_vesting_withdrawal a + HIVE_VESTING_WITHDRAW_INTERVAL_SECONDS)) with (now s - next_vesting_withdrawal a + (-1) * HIVE_VESTING_WITHDRAW_INTERVAL_SECONDS) by lia.
      rewrite Z.div_add by done. lia.
Qed.

(** ** Histories *)

Lemma sumM_fmap {A} (g : A -> Z) (m : gmap Z A) : sumM g m = sumM id (g <$> m).
Proof.
  induction m as [|k a m Hk IH] using map_ind; [by rewrite fmap_empty|]. rewrite fmap_insert, !sumM_insert_new by (done || by rewrite lookup_fmap, Hk). by rewrite IH.
Qed.

(** A history in which [d] HIVE were issued to be vested; what else happens on the chain
    leaves the shares, the funds and the counters alone. *)
Inductive vest_run s : Z -> vest_state G -> Prop :=
| vr_start : vest_run s 0 s
| vr_vest d s1 s2 from to x : vest_run s d s1 -> amount_ok x -> transfer_to_vesting from to x s1 = Ok s2 -> vest_run s d s2
| vr_claim d s1 s2 i h b v : vest_run s d s1 -> amount_ok h -> amount_ok b -> amount_ok v -> claim_reward_balance i h b v s1 = Ok s2 -> vest_run s d s2
| vr_move d s1 s2 from to x : vest_run s d s1 -> amount_ok x -> transfer_vests from to x s1 = Ok s2 -> vest_run s d s2
| vr_issue d s1 s2 i h reward rest v : vest_run s d s1 -> amount_ok h -> create_vesting i h reward s1 = Ok (s2, rest, v) -> vest_run s (d + h) s2
| vr_payouts d s1 s2 : vest_run s d s1 -> process_vesting_withdrawals s1 = Some (Ok s2) -> vest_run s d s2
| vr_other d s1 s2 : vest_run s d s1 -> vesting_shares <$> stakes (rc s2) = vesting_shares <$> stakes (rc s1) -> funds s2 = funds s1 -> fund s2 = fund s1 ->
    Forall (fun r => 0 <= percent r <= HIVE_100_PERCENT) (routes s2) -> vest_run s d s2.

(** The history on the books. *)
Record kept (d : Z) s s' : Prop := { kp_ok : vest_ok s'; kp_books : books s'; kp_hive : all_hive s' = all_hive s + d; kp_hbd : all_hbd s' = all_hbd s }.
Lemma kept_moved d dh s s1 s2 : kept d s s1 -> moved dh s1 s2 -> kept (d + dh) s s2.
Proof. intros [K1 K2 K3 K4] M. pose proof (moved_books _ _ _ M K2). destruct M. constructor; try done; lia. Qed.

Lemma vest_run_kept s d s' : vest_ok s -> books s -> vest_run s d s' -> kept d s s'.
Proof.
  intros I B H. induction H as [|d s1 s2 from to x _ IH Hx Ho|d s1 s2 i h b v _ IH Hh Hb Hv Ho|d s1 s2 from to x _ IH Hx Ho|d s1 s2 i h reward rest v _ IH Hh Ho|d s1 s2 _ IH Ho|d s1 s2 _ IH E1 E2 E3 E4].
  - constructor; try done. lia.
  - apply transfer_to_vesting_Ok in Ho as M; [|apply IH|done]. rewrite <- (Z.add_0_r d). by eapply kept_moved.
  - apply claim_Ok in Ho as M; [|apply IH|done|done|done|apply IH]. rewrite <- (Z.add_0_r d). by eapply kept_moved.
  - apply transfer_vests_Ok in Ho as M; [|apply IH|done]. rewrite <- (Z.add_0_r d). by eapply kept_moved.
  - unfold create_vesting in Ho. apply bind_Ok in Ho as ([[s3 rest3] v3] & Ha & Ho). apply adjust_vesting_Ok in Ha as (_ & _ & M); [|apply IH|done]. apply (kept_moved _ _ _ _ _ IH).
    destruct reward; [by injection Ho as <- <- <-|]. apply bind_Ok in Ho as (b & _ & Ho). injection Ho as <- <- <-. by apply moved_book.
  - apply pay_due_Ok in Ho as (M & _); [|apply IH|apply IH]. rewrite <- (Z.add_0_r d). by eapply kept_moved.
  - destruct IH as [[K1 K2 K3 K4] [B1 B2 B3] K5 K6]. assert (shares_sum s2 = shares_sum s1) as Es by (unfold shares_sum; rewrite (sumM_fmap _ (stakes (rc s2))), (sumM_fmap _ (stakes (rc s1))), E1; done).
    constructor; [|constructor; rewrite ?E2, ?E3, ?Es; done|unfold all_hive in *; by rewrite E2, E3|unfold all_hbd in *; by rewrite E2]. constructor; rewrite ?E2, ?E3; try done.
    intros i x Hi. apply (f_equal (fun m => m !! i)) in E1. rewrite !lookup_fmap, Hi in E1. destruct (stakes (rc s1) !! i) as [y|] eqn:Ey; [|done]. cbn in E1. injection E1 as ->. by eapply K1.
Qed.

(** C11.  Every vesting share is accounted for.  Whatever is vested, claimed, moved by the
    restricted accounts or paid out in power downs, in any order: the total is the sum of
    the shares of the accounts, the pending shares and their HIVE are the sums of the
    unclaimed rewards, no HIVE or HBD is made or lost apart from what was issued, and no
    amount overflows. *)
Theorem vesting_is_accounted_for s d s' : vest_ok s -> books s -> vest_run s d s' ->
  vest_ok s' /\ total_vesting_shares (fund s') = sumM vesting_shares (stakes (rc s')) /\
  pending_rewarded_vesting_shares (fund s') = sumM reward_vests (funds s') /\ pending_rewarded_vesting_hive (fund s') = sumM reward_vests_as_hive (funds s') /\
  all_hive s' = all_hive s + d /\ all_hbd s' = all_hbd s.
Proof. intros I B H. destruct (vest_run_kept s d s' I B H) as [K1 [B1 B2 B3] K3 K4]. done. Qed.

(** C32.  Power downs do not cost the others: after all payouts of a block a vesting share
    is worth at least as much HIVE of the fund as before. *)
Theorem payouts_keep_share_value s s' : vest_ok s -> books s -> process_vesting_withdrawals s = Some (Ok s') ->
  total_vesting_fund_hive (fund s) * total_vesting_shares (fund s') <= total_vesting_fund_hive (fund s') * total_vesting_shares (fund s) /\
  total_vesting_shares (fund s') <= total_vesting_shares (fund s).
Proof. intros I B H. apply pay_due_Ok in H as (_ & W1 & W2); done. Qed.

(** C33.  The loop over the power downs ends: its rounds are bounded by the intervals that
    are due, however long the chain was without a block. *)
Theorem payouts_end s : vest_ok s -> books s -> dates_ok s -> now s + HIVE_VESTING_WITHDRAW_INTERVAL_SECONDS < max_time ->
  exists r, process_vesting_withdrawals s = Some r.
Proof.
  intros I B D Hn. unfold process_vesting_withdrawals. apply pay_due_ends; [exact I|exact B|exact D|intros i Hi; by eapply first_after_in|exact Hn|]. assert (0 <= rounds s); [|lia]. apply sumM_nonneg. intros j x _. apply due_nonneg.
Qed.
End books.

(** C38.  There is no profit in vesting and leaving again: HIVE that is turned into VESTS
    and back is at most what it was, and the shares of the others do not lose value. *)
Theorem vesting_round_trip `{L : FcLib} `{!FcLaws L} g g1 g2 h rest v h' : fund_ok g -> 0 < total_vesting_fund_hive g -> 0 < total_vesting_shares g -> amount_ok h ->
  h * total_vesting_shares g / total_vesting_fund_hive g < 2 ^ 63 ->
  convert_HIVE_to_VESTS h false g = Ok (g1, rest, v) -> convert_VESTS_to_HIVE v g1 = Ok (g2, h') ->
  h' <= h /\ total_vesting_fund_hive g * total_vesting_shares g2 <= total_vesting_fund_hive g2 * total_vesting_shares g.
Proof.
  intros Hg P1 P2 Hh Hf H1 H2. destruct (to_vests_worth _ _ _ _ _ Hg P1 P2 Hh Hf H1) as [Ev W1]. apply to_vests_Ok in H1 as (A1 & _ & A3 & A4 & _ & A6 & _); [|done|done].
  assert (0 <= v <= total_vesting_shares g1) as Hv by (unfold amount_ok in *; lia). pose proof (to_hive_worth _ _ _ _ A3 Hv H2) as W2. apply to_hive_Ok in H2 as (B1 & B2 & B3 & B4 & _ & _ & B5); [|done|done].
  unfold amount_ok in *. rewrite B5 by lia. unfold worth in W1, W2. split.
  - apply Z.div_le_upper_bound; [lia|]. pose proof (Z.mul_div_le (h * total_vesting_shares g) (total_vesting_fund_hive g) P1). rewrite A4, A6. nia.
  - apply (worth_trans g g1 g2); try done. lia.
Qed.

(** ** A power down *)

Module Sample.
#[local] Existing Instance fc_ref.
#[local] Existing Instance fc_ref_laws.
(** The votes of all stakes. *)
#[local] Instance tally : VoteBook Z := fun _ d b => Ok (b + d).

Definition person (n : string) (v rate total next : Z) : account :=
  mk_rca n v 0 0 rate total 0 next (mk_manabar v 1700000000) (mk_manabar (v / 4) 1700000000) (mk_manabar v 1700000000) 0 0 0 v.
(** Alice has 13000 of her 20000 VESTS in a power down; half of each payout goes to
    Bob, a tenth stays with her as VESTS. *)
Definition r0 : rc_state :=
  mk_rcs (<[0 := person "alice" 20000 1000 13000 1700604800]> (<[1 := person "bob" 500 0 0 max_time]> {[2 := person PIXA_ICO_ACCOUNT 70000 0 0 max_time]}))
    [] [] 1700604802 false false 200 (mk_tiny 3000) (mk_tprice (mk_tiny 1000) (mk_tiny 1000)) 0.
Definition s0 : vest_state Z :=
  mk_vs r0 {[0 := mk_funds 300 0 20 0 500 7; 1 := mk_funds 1000 0 0 0 0 0]} (mk_vf 1300 90500 500 7)
    [mk_route 0 0 1000 true; mk_route 0 1 5000 false] [(0, mk_votes [] 0); (1, mk_votes [] 0); (2, mk_votes [] 0)] 90500 2500.

Definition or_else (r : result (vest_state Z)) (s : vest_state Z) : vest_state Z := match r with Ok s' => s' | Throw _ => s end.
Definition s1 : vest_state Z := or_else (transfer_to_vesting 1 None 400 s0) s0.
Definition s2 : vest_state Z := or_else (claim_reward_balance 0 20 0 250 s1) s1.
Definition s3 : vest_state Z := or_else (transfer_vests 2 1 1000 s2) s2.
Definition s4 : vest_state Z := match process_vesting_withdrawals s3 with Some (Ok s) => s | _ => s3 end.

Definition shares_of (i : Z) (s : vest_state Z) : Z := match accounts (rc s) !! i with Some a => vesting_shares a | None => 0 end.
(** Bob vests 400 HIVE and is given 1000 VESTS, Alice claims half of her rewards; of her
    1000 VESTS 100 are vested again, 500 become HIVE of Bob and 400 of hers. *)
Example sample_vesting_history :
  (shares_of 1 s1, shares_of 0 s2, shares_of 1 s3, shares_of 2 s3) = (28346, 20250, 29346, 69000) /\
  (shares_of 0 s4, hive (funds_of 1 s4), hive (funds_of 0 s4)) = (19350, 607, 325) /\
  all_hive s4 = all_hive s0 /\ total_vesting_shares (fund s4) = shares_of 0 s4 + shares_of 1 s4 + shares_of 2 s4.
Proof. split_and!; vm_compute; reflexivity. Qed.

Lemma s0_ok : vest_ok s0.
Proof.
  constructor.
  - intros i x H. apply stakes_Some in H as (a & Ha & ->). cbn in Ha. revert Ha. unfold r0. cbn.
    destruct (decide (i = 0)) as [->|]; [rewrite lookup_insert_eq; intros [= <-]; vm_compute; done|rewrite lookup_insert_ne by done].
    destruct (decide (i = 1)) as [->|]; [rewrite lookup_insert_eq; intros [= <-]; vm_compute; done|rewrite lookup_insert_ne by done].
    intros [<- <-]%lookup_singleton_Some. vm_compute. done.
  - intros i f H. cbn in H. destruct (decide (i = 0)) as [->|]; [rewrite lookup_insert_eq in H; injection H as <-; vm_compute; split_and!; done|rewrite lookup_insert_ne in H by done].
    apply lookup_singleton_Some in H as [<- <-]. vm_compute. split_and!; done.
  - vm_compute. split_and!; done.
  - repeat apply Forall_cons_2; [..|apply Forall_nil_2]; vm_compute; split_and!; done.
Qed.
Lemma s0_books : books s0.
Proof. constructor; vm_compute; reflexivity. Qed.
Lemma small x : 0 <= x < 2 ^ 63 -> amount_ok x. Proof. done. Qed.

Lemma run_to_s3 : vest_run s0 0 s3.
Proof.
  refine (vr_move s0 0 s2 s3 2 1 1000 _ _ _); [|by apply small|vm_compute; reflexivity].
  refine (vr_claim s0 0 s1 s2 0 20 0 250 _ _ _ _ _); [|by apply small|by apply small|by apply small|vm_compute; reflexivity].
  refine (vr_vest s0 0 s0 s1 1 None 400 _ _ _); [apply vr_start|by apply small|vm_compute; reflexivity].
Qed.

Lemma vesting_is_accounted_for_witness :
  vest_ok s4 /\ total_vesting_shares (fund s4) = sumM vesting_shares (stakes (rc s4)) /\
  pending_rewarded_vesting_shares (fund s4) = sumM reward_vests (funds s4) /\ pending_rewarded_vesting_hive (fund s4) = sumM reward_vests_as_hive (funds s4) /\
  all_hive s4 = all_hive s0 + 0 /\ all_hbd s4 = all_hbd s0.
Proof.
  refine (vesting_is_accounted_for s0 0 s4 s0_ok s0_books _). refine (vr_payouts s0 0 s3 s4 run_to_s3 _). vm_compute. reflexivity.
Defined.

Lemma s3_kept : kept 0 s0 s3.
Proof. apply vest_run_kept; [apply s0_ok|apply s0_books|apply run_to_s3]. Qed.

Lemma payouts_keep_share_value_witness :
  total_vesting_fund_hive (fund s3) * total_vesting_shares (fund s4) <= total_vesting_fund_hive (fund s4) * total_vesting_shares (fund s3) /\
  total_vesting_shares (fund s4) <= total_vesting_shares (fund s3).
Proof. refine (payouts_keep_share_value s3 s4 (kp_ok _ _ _ s3_kept) (kp_books _ _ _ s3_kept) _). vm_compute. reflexivity. Defined.

Lemma payouts_end_witness : exists r, process_vesting_withdrawals s0 = Some r.
Proof.
  refine (payouts_end s0 s0_ok s0_books _ _); [|vm_compute; reflexivity].
  intros i x H. apply stakes_Some in H as (a & Ha & ->). cbn in Ha. revert Ha. unfold r0. cbn.
  destruct (decide (i = 0)) as [->|]; [rewrite lookup_insert_eq; intros [= <-]; vm_compute; done|rewrite lookup_insert_ne by done].
  destruct (decide (i = 1)) as [->|]; [rewrite lookup_insert_eq; intros [= <-]; vm_compute; done|rewrite lookup_insert_ne by done].
  intros [<- <-]%lookup_singleton_Some. vm_compute. done.
Defined.

Definition g1 : vesting_fund := mk_vf 1700 118346 500 7.
Definition g2 : vesting_fund := mk_vf 1301 90500 500 7.
Lemma vesting_round_trip_witness : 399 <= 400 /\ 1300 * 90500 <= 1301 * 90500.
Proof.
  refine (vesting_round_trip (fund s0) g1 g2 400 0 27846 399 _ _ _ _ _ _ _).
  - apply (vo_fund _ s0_ok).
  - vm_compute. reflexivity.
  - vm_compute. reflexivity.
  - by apply small.
  - vm_compute. reflexivity.
  - vm_compute. reflexivity.
  - vm_compute. reflexivity.
Defined.
End Sample.
