(* ===== verification/StakeMoves.v ===== *)
(** * Stakes when shares move

    What the operations on vesting shares of Vesting.v (power ups, rewards, claims, the
    transfers of VESTS of the restricted accounts, the payouts of power downs) and those
    of Delegations.v and ResourceCredits.v do to the stake of every account: shares that
    are delegated or powered down stay covered by the shares an account owns. *)

From stdpp Require Import base numbers strings option list gmap.
From S2P Require Import Prelude Fc Config AssetSymbol Asset Resources Ledger Transfers DelayedVoting ResourceCredits RcInvariant Delegations DelegationBooks Vesting VestingBooks.
Open Scope Z_scope.

(** ** The restricted accounts *)

(** Who delegates RC. *)
Definition delegators (r : rc_state) : list Z := rcd_from <$> rc_delegations r.

(** The restricted accounts never power down nor delegate RC, so their transfers of
    VESTS need not look at either. *)
Definition restricted_ok (r : rc_state) : Prop :=
  forall i x, stakes r !! i = Some x -> is_pixa_ico (name x) = true -> next_vesting_withdrawal x = max_time /\ i ∉ delegators r.

(** A change that starts no power down of a restricted account and adds no delegators. *)
Record calm (r r' : rc_state) : Prop := {
  cm_stakes j x' : stakes r' !! j = Some x' -> exists x, stakes r !! j = Some x /\ name x' = name x /\
    (is_pixa_ico (name x) = true -> next_vesting_withdrawal x' = next_vesting_withdrawal x);
  cm_delegators j : j ∈ delegators r' -> j ∈ delegators r
}.
#[export] Instance calm_preorder : PreOrder calm.
Proof.
  split; [intros r; constructor; [intros j x Hx; by exists x|done]|]. intros r1 r2 r3 [A1 B1] [A2 B2]. constructor; [|auto].
  intros j x' Hx. destruct (A2 j x' Hx) as (y & Hy & N2 & W2). destruct (A1 j y Hy) as (x & Hx0 & N1 & W1). exists x.
  split_and!; [done|congruence|]. intros Hp. rewrite W2, W1; [done|done|by rewrite N1].
Qed.

Lemma calm_restricted r r' : calm r r' -> restricted_ok r -> restricted_ok r'.
Proof.
  intros [A B] R i x' Hx Hp. destruct (A i x' Hx) as (x & Hx0 & N & W). rewrite N in Hp. destruct (R i x Hx0 Hp) as [H1 H2].
  split; [rewrite W; done|]. intros Hi. by apply H2, B.
Qed.

Lemma calm_same r r' : stakes r' = stakes r -> delegators r' ⊆ delegators r -> calm r r'.
Proof. intros E Hd. constructor; [rewrite E; intros j x Hx; by exists x|]. intros j. apply Hd. Qed.

Lemma calm_put i a a' r : accounts r !! i = Some a -> name a' = name a -> (is_pixa_ico (name a) = true -> next_vesting_withdrawal a' = next_vesting_withdrawal a) -> calm r (put_account i a' r).
Proof.
  intros Ha N W. constructor; [|done]. intros j x. rewrite stakes_put. destruct (decide (j = i)) as [->|Hne].
  - rewrite lookup_insert_eq. intros [= <-]. exists (erase a). split_and!; [by apply stakes_lookup|done|done].
  - rewrite lookup_insert_ne by done. intros Hx. by exists x.
Qed.

Section calm_rc.
Context `{L : FcLib}.

Lemma regenerate_delegators i r r' : regenerate_rc_mana i r = Ok r' -> rc_delegations r' = rc_delegations r.
Proof.
  unfold regenerate_rc_mana. intros H. apply bind_Ok in H as (a & _ & H). apply bind_Ok in H as (m & _ & H). apply bind_Ok in H as (r1 & H1 & H).
  apply bind_Ok in H as (b & _ & H). injection H as <-. cbn. destruct (m =? last_max_rc a); [by injection H1 as <-|]. apply bind_Ok in H1 as (? & _ & H1). by injection H1 as <-.
Qed.
Lemma regenerate_calm i r r' : regenerate_rc_mana i r = Ok r' -> calm r r'.
Proof. intros H. apply calm_same; [by eapply regenerate_same|]. unfold delegators. by rewrite (regenerate_delegators _ _ _ H). Qed.

Lemma expect_delegators a r r' : expect_regenerated a r = Ok r' -> rc_delegations r' = rc_delegations r.
Proof. unfold expect_regenerated. destruct (_ =? _); [by intros [= <-]|]. intros H. apply bind_Ok in H as (? & _ & H). by injection H as <-. Qed.

Lemma after_delegation_delegators i d b r r' : update_account_after_rc_delegation i d b r = Ok r' -> rc_delegations r' = rc_delegations r.
Proof.
  unfold update_account_after_rc_delegation. intros H. apply bind_Ok in H as (a & _ & H). apply bind_Ok in H as (m & _ & H). apply bind_Ok in H as ([bar r1] & H1 & H).
  do 3 (apply bind_Ok in H as (? & _ & H)). injection H as <-. cbn. destruct b; [apply bind_Ok in H1 as (? & _ & H1); by injection H1 as <- <-|].
  apply bind_Ok in H1 as (r2 & H2 & H1). injection H1 as <- <-. by eapply expect_delegators.
Qed.

Lemma remove_delegators idx o i l r idx' o' l' r' : remove_delegations idx o i l r = Ok (idx', o', l', r') -> (rcd_from <$> idx') ⊆ (rcd_from <$> idx) /\ rc_delegations r' = rc_delegations r.
Proof.
  revert o l r idx' o' l' r'. induction idx as [|d idx IH]; intros o l r idx' o' l' r' H; cbn in H; [by injection H as <- <- <- <-|].
  destruct (negb _).
  - apply bind_Ok in H as ([[[? ?] ?] ?] & H1 & H). injection H as <- <- <- <-. apply IH in H1 as [A B]. split; [|done]. cbn. set_solver.
  - destruct (o <=? 0); [by injection H as <- <- <- <-|]. destruct (_ <? rcd_rc d).
    + apply bind_Ok in H as (r1 & H1 & H). apply bind_Ok in H as ([[[? ?] ?] ?] & H2 & H). injection H as <- <- <- <-. apply IH in H2 as [A B]. rewrite B.
      split; [cbn; set_solver|by eapply after_delegation_delegators].
    + destruct (guard_step l) as [ok l2]. destruct ok; [|by injection H as <- <- <- <-]. apply bind_Ok in H as (r1 & H1 & H). apply IH in H as [A B]. rewrite B.
      split; [cbn; set_solver|by eapply after_delegation_delegators].
Qed.

Lemma clear_overflow_delegators i r r' : clear_overflow i r = Ok r' -> delegators r' ⊆ delegators r.
Proof.
  unfold clear_overflow. intros H. apply bind_Ok in H as (a & _ & H). destruct (0 <? delegated_rc a); [|by injection H as <-]. apply bind_Ok in H as (m & _ & H).
  destruct (0 <? _); [|by injection H as <-]. apply bind_Ok in H as ([[[idx o] l] r1] & H1 & H). cbv zeta in H. apply remove_delegators in H1 as [A _].
  apply bind_Ok in H as (b & _ & H). apply bind_Ok in H as (d & _ & H). injection H as <-. destruct (0 <? o); [|done]. unfold remember_expired. by destruct (has_expired_delegation _ _).
Qed.

Lemma vest_change_calm i fill chk r r' : update_account_after_vest_change i fill chk r = Ok r' -> calm r r'.
Proof.
  intros H. apply calm_same; [by eapply vest_change_same|]. unfold update_account_after_vest_change in H. apply bind_Ok in H as (a & _ & H). apply bind_Ok in H as (r1 & H1 & H). apply expect_delegators in H1.
  apply bind_Ok in H as (r2 & H2 & H). apply bind_Ok in H as (b & _ & H). apply bind_Ok in H as (m & _ & H). cbv zeta in H.
  assert (delegators r' = delegators r2) as -> by (destruct (m =? last_max_rc b); by injection H as <-). transitivity (delegators r1); [|unfold delegators; by rewrite H1].
  destruct chk; [by eapply clear_overflow_delegators|by injection H2 as <-].
Qed.

Lemma continue_delegators expired limit r r' : continue_expired expired limit r = Ok r' -> delegators r' ⊆ delegators r.
Proof.
  revert limit r. induction expired as [|e rest IH]; intros limit r H; cbn in H; [by injection H as <-|]. apply bind_Ok in H as ([[[idx o] l] r1] & H1 & H). cbv zeta in H.
  apply remove_delegators in H1 as [A _]. destruct (0 <? o); [by injection H as <-|]. destruct (guard_done l); [by injection H as <-|]. by rewrite (IH _ _ H).
Qed.

Lemma use_rcs_delegators c payer cost r r' b : use_account_rcs c payer cost r = Ok (r', b) -> delegators r' = delegators r.
Proof.
  unfold use_account_rcs. destruct payer as [p|]; intros H; [|apply bind_Ok in H as (? & _ & H); by injection H as <- _].
  do 3 (apply bind_Ok in H as (? & _ & H)). apply bind_Ok in H as ([? ?] & _ & H). cbv zeta in H. apply bind_Ok in H as (? & _ & H). by injection H as <- _.
Qed.

Lemma delegate_to_delegators from max_rc to r r' d : delegate_to from max_rc to r = Ok (r', d) -> delegators r' ⊆ from :: delegators r.
Proof.
  unfold delegate_to. intros H. apply bind_Ok in H as (? & _ & H). apply bind_Ok in H as (r1 & H1 & H). apply regenerate_delegators in H1. apply bind_Ok in H as ([r2 xx] & H2 & H).
  apply bind_Ok in H as (r3 & H3 & H). injection H as <- <-. apply after_delegation_delegators in H3. unfold delegators. rewrite H3, <- H1.
  destruct (find_delegation from to r1) as [e|]; [apply check_bind_Ok in H2 as [_ H2]; apply bind_Ok in H2 as (y & _ & H2); injection H2 as <- <-|apply check_bind_Ok in H2 as [_ H2]; injection H2 as <- <-]; cbn.
  - destruct (max_rc =? 0); intros j (z & -> & Hz)%list_elem_of_fmap.
    + apply list_elem_of_filter in Hz as [_ Hz]. right. by apply list_elem_of_fmap_2.
    + apply list_elem_of_fmap in Hz as (w & -> & Hw). destruct (has_key from to w); [by left|]. right. by apply list_elem_of_fmap_2.
  - rewrite insert_delegation_perm. done.
Qed.
Lemma delegate_rc_delegators from max_rc delegatees r r' : delegate_rc from max_rc delegatees r = Ok r' -> delegators r' ⊆ from :: delegators r.
Proof.
  unfold delegate_rc. intros H. apply bind_Ok in H as (? & _ & H). apply bind_Ok in H as (? & _ & H). apply bind_Ok in H as (r1 & H1 & H). apply regenerate_delegators in H1. apply check_bind_Ok in H as [_ H].
  apply bind_Ok in H as ([r2 t] & H2 & H). apply bind_Ok in H as (? & _ & H). apply bind_Ok in H as (? & _ & H). cbv zeta in H. apply check_bind_Ok in H as [_ H]. apply bind_Ok in H as (? & _ & H). apply bind_Ok in H as (? & _ & H). injection H as <-.
  change (delegators r2 ⊆ from :: delegators r). assert (delegators r1 = delegators r) as <- by (unfold delegators; by rewrite H1). clear H1. revert r1 H2. generalize 0 as t0.
  induction delegatees as [|to rest IH]; intros t0 r1 H2; cbn in H2; [injection H2 as <- _; set_solver|]. apply bind_Ok in H2 as ([r3 d] & H3 & H2). apply bind_Ok in H2 as (t1 & _ & H2).
  apply delegate_to_delegators in H3. apply IH in H2. set_solver.
Qed.
End calm_rc.

(** ** Delegations and power downs *)

Section calm_delegations.
Context `{L : FcLib}.
Notation rc := Delegations.rc.

Lemma give_calm dpp from to delta r r' : give dpp from to delta r = Ok r' -> calm r r'.
Proof.
  unfold give. intros H. apply bind_Ok in H as (a & Ha & H). apply account_found in Ha. apply bind_Ok in H as (d & _ & H). apply bind_Ok in H as (a' & Ha' & H). cbv zeta in H. apply use_mana_Ok in Ha' as (v1 & d1 & ->).
  apply bind_Ok in H as (b & Hb & H). apply account_found in Hb. apply bind_Ok in H as (b' & Hb' & H). apply vote_mana_Ok in Hb' as (v2 & d2 & ->). apply bind_Ok in H as (v & _ & H). injection H as <-.
  etransitivity; [|apply (calm_put to b); [exact Hb|done|done]]. by apply (calm_put from a).
Qed.
Lemma take_back_calm dpp to delta r r' : take_back dpp to delta r = Ok r' -> calm r r'.
Proof.
  unfold take_back. intros H. apply bind_Ok in H as (b & Hb & H). apply account_found in Hb. apply bind_Ok in H as (b' & Hb' & H). apply vote_mana_Ok in Hb' as (v2 & d2 & ->). apply bind_Ok in H as (v & _ & H).
  apply bind_Ok in H as (b' & Hb' & H). apply use_mana_Ok in Hb' as (v1 & d1 & ->). injection H as <-. by apply (calm_put to b).
Qed.

Lemma delegate_calm from to shares s s' : delegate_vesting_shares from to shares s = Ok s' -> calm (rc s) (rc s').
Proof.
  unfold delegate_vesting_shares. intros H. apply bind_Ok in H as (a & _ & H). apply bind_Ok in H as (? & _ & H). apply bind_Ok in H as (? & _ & H). cbv zeta in H. apply bind_Ok in H as (r1 & H1 & H). apply bind_Ok in H as (r2 & H2 & H).
  apply regenerate_calm in H1, H2. apply bind_Ok in H as (b & Hb & H). apply account_found in Hb. apply bind_Ok in H as (? & _ & H). apply bind_Ok in H as (b' & Hb' & H). apply vote_mana_Ok in Hb' as (v & d & ->).
  apply bind_Ok in H as ([sh dn] & _ & H). apply bind_Ok in H as (? & _ & H). apply bind_Ok in H as (? & _ & H). apply bind_Ok in H as (s1 & Hs & H). apply bind_Ok in H as (r4 & H4 & H). apply bind_Ok in H as (r5 & H5 & H). injection H as <-. cbn.
  apply vest_change_calm in H4, H5. rewrite H1, H2, <- H5, <- H4. etransitivity; [by apply (calm_put from b (set_vote_mana v d b))|]. set (r3 := put_account from _ r2) in *. clearbody r3. clear H1 H2 Hb H4 H5.
  destruct (find_vd from to s) as [e|]; [destruct (_ <=? _)|].
  - repeat (apply bind_Ok in Hs as (? & ? & Hs)). injection Hs as <-. by eapply give_calm.
  - apply bind_Ok in Hs as (? & _ & Hs). apply bind_Ok in Hs as (? & _ & Hs). apply bind_Ok in Hs as (r6 & H4 & Hs). apply take_back_calm in H4. destruct (0 <? shares); [unfold set_vesting in Hs; apply check_bind_Ok in Hs as [_ Hs]|]; by injection Hs as <-.
  - repeat (apply bind_Ok in Hs as (? & ? & Hs)). injection Hs as <-. by eapply give_calm.
Qed.

Lemma clear_calm index s s' : clear_expirations index s = Ok s' -> calm (rc s) (rc s').
Proof.
  revert s. induction index as [|e index IH]; intros s H; cbn in H; [by injection H as <-|]. destruct (_ <? _); [|by injection H as <-]. apply bind_Ok in H as (s1 & H1 & H). etransitivity; [|by apply IH].
  unfold return_delegation in H1. cbv zeta in H1. apply bind_Ok in H1 as (r1 & Hr & H1). apply regenerate_calm in Hr. apply bind_Ok in H1 as (a & Ha & H1). apply account_found in Ha. apply bind_Ok in H1 as (b & Hb & H1). apply vote_mana_Ok in Hb as (v & d & ->).
  apply bind_Ok in H1 as (? & _ & H1). apply bind_Ok in H1 as (r2 & H2 & H1). injection H1 as <-. cbn. apply vest_change_calm in H2. rewrite Hr, <- H2. by apply (calm_put _ a).
Qed.

Lemma withdraw_calm i shares s s' : withdraw_vesting i shares s = Ok s' -> calm (rc s) (rc s').
Proof.
  unfold withdraw_vesting. intros H. apply bind_Ok in H as (a & Ha & H). apply account_found, stakes_lookup in Ha. apply check_bind_Ok in H as [Hp H]. apply negb_true_iff in Hp. apply check_bind_Ok in H as [_ H]. apply check_bind_Ok in H as [_ H].
  apply bind_Ok in H as (? & _ & H). apply check_bind_Ok in H as [_ H]. apply bind_Ok in H as (r1 & H1 & H). pose proof (regenerate_same _ _ _ H1) as [S1 _]. apply regenerate_calm in H1. apply bind_Ok in H as (b & Hb & H). apply account_found in Hb.
  apply bind_Ok in H as (b' & Hb' & H). apply bind_Ok in H as (r2 & H2 & H). injection H as <-. cbn. apply vest_change_calm in H2. rewrite H1, <- H2.
  assert (erase b = erase a) as E by (apply stakes_lookup in Hb; rewrite S1 in Hb; congruence). apply (f_equal name) in E. cbn in E. apply (calm_put i b); [done| |by rewrite E, Hp].
  destruct (shares =? 0); [apply check_bind_Ok in Hb' as [_ Hb']|apply bind_Ok in Hb' as (? & _ & Hb'); apply check_bind_Ok in Hb' as [_ Hb']]; by injection Hb' as <-.
Qed.
End calm_delegations.

(** ** Shares that move *)

(** The books of stakes and resource credits, with the delegations [vds] and those on
    their way back. *)
Record stake_inv (vds : list vesting_delegation_object) (exps : list vesting_delegation_expiration_object) (r : rc_state) : Prop := {
  iv_rc : rc_ok r;
  iv_books : stake_books (head_block_time r) (stakes r) vds exps;
  iv_restricted : restricted_ok r
}.

(** Shares gained or lost, with the power down that paid them. *)
Lemma books_vests now m vds exps i a a' : stake_books now m vds exps -> m !! i = Some a -> delegated_vesting_shares a' = delegated_vesting_shares a -> received_vesting_shares a' = received_vesting_shares a ->
  0 <= vesting_shares a' -> delegated_vesting_shares a' + remaining a' <= vesting_shares a' -> down_ok a' -> bars_ok now a' -> total_vests (<[i := a']> m) < 2 ^ 62 -> stake_books now (<[i := a']> m) vds exps.
Proof.
  intros [B1 B2 B3 B4 B5 B6] Hi D R V W O Bar T.
  assert (forall j, is_Some (m !! j) -> is_Some (<[i := a']> m !! j)) as Hdom.
  { intros j Hj. destruct (decide (j = i)) as [->|]; [rewrite lookup_insert_eq; by eexists|by rewrite lookup_insert_ne by done]. }
  constructor; try done.
  - intros k Hk. destruct (B3 k Hk). auto.
  - eapply Forall_impl; [exact B4|]. intros e [He1 He2]. split; [done|by apply Hdom].
  - intros j c Hj. destruct (decide (j = i)) as [->|Hji]; [|rewrite lookup_insert_ne in Hj by done; by apply B5]. rewrite lookup_insert_eq in Hj. injection Hj as <-.
    destruct (B5 i a Hi) as [A1 A2 A3 A4 A5 A6]. constructor; try done; congruence.
Qed.

Lemma total_change m i a a' : m !! i = Some a -> total_vests (<[i := a']> m) = total_vests m - vesting_shares a + vesting_shares a'.
Proof.
  intros H. rewrite (total_delete m i a H), (total_delete (<[i := a']> m) i a' (lookup_insert_eq m i a')), delete_insert_eq. lia.
Qed.

Section moves.
Context `{L : FcLib} `{!FcLaws L}.
Context (vds : list vesting_delegation_object) (exps : list vesting_delegation_expiration_object).
Notation inv := (stake_inv vds exps).

(** What an operation may make of the account [a]: other shares and another power down,
    covered like before. *)
Record moved_to (now : Z) (a a' : account) : Prop := {
  mt_rc : same_rc a a';
  mt_name : name a' = name a;
  mt_delegated : delegated_vesting_shares a' = delegated_vesting_shares a;
  mt_received : received_vesting_shares a' = received_vesting_shares a;
  mt_vests : 0 <= vesting_shares a';
  mt_covered : delegated_vesting_shares a' + remaining a' <= vesting_shares a';
  mt_down : down_ok a';
  mt_bars : bars_ok now a';
  mt_next : is_pixa_ico (name a) = true -> next_vesting_withdrawal a' = next_vesting_withdrawal a
}.

(** The change between the two calls of the resource credits. *)
Lemma change_inv i r r1 a a' fill chk r2 : inv r -> regenerate_rc_mana i r = Ok r1 -> accounts r1 !! i = Some a ->
  moved_to (head_block_time r) a a' -> total_vests (stakes r) - vesting_shares a + vesting_shares a' < 2 ^ 62 -> (chk = false -> delegated_rc a' <= effective a') ->
  update_account_after_vest_change i fill chk (put_account i a' r1) = Ok r2 ->
  inv r2 /\ same_env r r2 /\ stakes r !! i = Some (erase a) /\ stakes r2 = <[i := erase a']> (stakes r).
Proof.
  intros [HR B R] H1 Ha [M1 M2 M3 M4 M5 M6 M7 M8 M9] Ht Hchk H. assert (calm r r2) as C.
  { etransitivity; [by eapply regenerate_calm|]. etransitivity; [by apply (calm_put i a a')|]. by eapply vest_change_calm. }
  apply (regenerate_stakes _ _ _ HR) in H1 as ((R1 & E1 & _) & S1 & (a2 & Ha2 & Ta) & _). rewrite Ha in Ha2. injection Ha2 as <-.
  pose proof (stakes_lookup _ _ _ Ha) as Hs. rewrite S1 in Hs.
  assert (stake_books (head_block_time r) (<[i := erase a']> (stakes r)) vds exps) as B'.
  { apply (books_vests _ _ _ _ i (erase a)); try done. rewrite (total_change _ _ _ _ Hs). done. }
  destruct (books_shares _ _ _ _ B' i (erase a')) as [Sa' Ea']; [apply lookup_insert_eq|]. apply erase_shares in Sa' as Sa2. pose proof Sa2 as [_ _ Hrec _ _ _ _].
  change (effective (erase a')) with (effective a') in Ea'. change (received_vesting_shares (erase a')) with (received_vesting_shares a') in Ea'.
  pose proof (vest_change_ok _ i fill chk r1 a a' r2 R1 Ha Ta M1 Sa2 ltac:(lia) Hchk H) as Ch. pose proof (changed_stakes _ _ _ _ _ Ch) as S2. rewrite S1 in S2.
  assert (same_env r r2) as E2 by (transitivity r1; [done|apply Ch]). split_and!; [|done|done|done]. constructor.
  - destruct (sc_ok _ _ _ _ _ Ch) as [Y1 Y2 Y3]. split; [done|done|]. intros j x _. apply Y3. tauto.
  - by rewrite S2, (env_time _ _ E2).
  - by eapply calm_restricted.
Qed.

(** More shares. *)
Lemma gain_moved now i a v d x : account_books now i a vds exps -> 0 <= x -> bar_ok now v -> bar_ok now d -> moved_to now a (set_vests (vesting_shares a + x) (set_vote_mana v d a)).
Proof.
  intros [A1 A2 A3 A4 A5 A6] Hx Hv Hd. constructor; try done; cbn; [lia|]. change (remaining _) with (remaining a). lia.
Qed.

Lemma gain_inv i r r1 a v d x fill r2 : inv r -> regenerate_rc_mana i r = Ok r1 -> accounts r1 !! i = Some a -> 0 <= x -> bar_ok (head_block_time r) v -> bar_ok (head_block_time r) d ->
  total_vests (stakes r) + x < 2 ^ 62 -> update_account_after_vest_change i fill false (put_account i (set_vests (vesting_shares a + x) (set_vote_mana v d a)) r1) = Ok r2 ->
  inv r2 /\ same_env r r2 /\ stakes r !! i = Some (erase a) /\ stakes r2 = <[i := erase (set_vests (vesting_shares a + x) (set_vote_mana v d a))]> (stakes r).
Proof.
  intros I H1 Ha Hx Hv Hd Ht H. pose proof I as [HR B _]. pose proof (regenerate_stakes _ _ _ HR H1) as ((R1 & E1 & _) & S1 & _). pose proof B as B1. rewrite <- S1, <- (env_time _ _ E1) in B1.
  destruct (books_of _ _ _ _ _ B1 Ha) as (Ab & Sa & Ea). rewrite (env_time _ _ E1) in Ab. eapply (change_inv _ _ _ _ _ _ _ _ I H1 Ha); [by eapply gain_moved|cbn; lia| |exact H].
  intros _. pose proof (rk_account _ _ (ok_books _ _ R1) i a Ha) as [_ _ Hdel _ _ _ _ _]. change (delegated_rc (set_vests _ _)) with (delegated_rc a).
  assert (effective (set_vests (vesting_shares a + x) (set_vote_mana v d a)) = effective a + x) as -> by (unfold effective, weekly; cbn; change (has_active_power_down (set_vests _ _)) with (has_active_power_down a); lia). lia.
Qed.

(** ** The operations of Vesting.v *)

Context {G : Type} `{V : VoteBook G}.
Implicit Types (s : vest_state G).
Notation rc := Vesting.rc.

(** Every account has at least the shares it had, and is otherwise the same but for its
    voting mana. *)
Definition grown (m m' : gmap Z account) : Prop :=
  forall j x, m !! j = Some x -> exists n v d, 0 <= n /\ m' !! j = Some (set_vests (vesting_shares x + n) (set_vote_mana v d x)).
Lemma grown_refl m : grown m m.
Proof. intros j x Hx. exists 0, (voting_manabar x), (downvote_manabar x). split; [done|]. rewrite Hx. f_equal. rewrite Z.add_0_r. by destruct x. Qed.
Lemma grown_trans m1 m2 m3 : grown m1 m2 -> grown m2 m3 -> grown m1 m3.
Proof.
  intros H1 H2 j x Hx. destruct (H1 j x Hx) as (n & v & d & Hn & Hy). destruct (H2 j _ Hy) as (n' & v' & d' & Hn' & Hz).
  exists (n + n'), v', d'. split; [lia|]. rewrite Hz. f_equal. cbn. by rewrite Z.add_assoc.
Qed.

(** [x] more shares for the account [i]. *)
Record gains (x : Z) s s' : Prop := {
  gs_inv : inv (rc s');
  gs_env : same_env (rc s) (rc s');
  gs_total : total_vests (stakes (rc s')) = total_vests (stakes (rc s)) + x;
  gs_grown : grown (stakes (rc s)) (stakes (rc s'));
  gs_routes : routes s' = routes s
}.

(** The account as it is when an operation reads it. *)
Record readable (t : Z) (a : account) : Prop := { rd_shares : shares_ok a; rd_bars : bars_ok t a; rd_vests : amount_ok (vesting_shares a) }.
Lemma read_account r r1 i a : inv r -> regenerate_rc_mana i r = Ok r1 -> accounts r1 !! i = Some a -> readable (head_block_time r) a.
Proof.
  intros [HR B _] H1 Ha. pose proof (regenerate_stakes _ _ _ HR H1) as ((R1 & E1 & _) & S1 & _). rewrite <- S1, <- (env_time _ _ E1) in B. destruct (books_of _ _ _ _ _ B Ha) as ([A1 A2 A3 A4 A5 A6] & Sa & Ea).
  constructor; [done|by rewrite <- (env_time _ _ E1)|]. pose proof (received_total _ _ _ _ B i (erase a) (stakes_lookup _ _ _ Ha)) as Ht. cbn in Ht. pose proof (in_sum_nonneg i vds (vb_vds _ _ _ _ B)). pose proof (vb_total _ _ _ _ B). unfold amount_ok. lia.
Qed.

Lemma with_rc_gains i f x s s' : inv (rc s) -> with_rc i f s = Ok s' -> 0 <= x -> total_vests (stakes (rc s)) + x < 2 ^ 62 ->
  (forall a b, readable (now s) a -> f a = Ok b -> exists v d, b = set_vests (vesting_shares a + x) (set_vote_mana v d a) /\ bar_ok (now s) v /\ bar_ok (now s) d) ->
  gains x s s' /\ exists r, s' = put_rc r s.
Proof.
  intros I H Hx Ht Hf. unfold with_rc in H. apply bind_Ok in H as (r1 & H1 & H). apply bind_Ok in H as (a & Ha & H). apply account_found in Ha. apply bind_Ok in H as (b & Hb & H). apply bind_Ok in H as (r2 & H2 & H). injection H as <-.
  destruct (Hf a b (read_account _ _ _ _ I H1 Ha) Hb) as (v & d & -> & Bv & Bd). destruct (gain_inv _ _ _ _ _ _ _ _ _ I H1 Ha Hx Bv Bd Ht H2) as (I2 & E2 & Hs & S2). split; [|by eexists].
  constructor; cbn [rc put_rc routes]; [done|done| | |done].
  - rewrite S2, (total_change _ _ _ _ Hs). cbn. lia.
  - rewrite S2. intros j y Hy. destruct (decide (j = i)) as [->|Hne]; [|rewrite lookup_insert_ne by done; by apply grown_refl].
    rewrite Hs in Hy. injection Hy as <-. exists x, v, d. split; [done|]. by rewrite lookup_insert_eq.
Qed.

(** The part of the operations that adds [x] shares and their voting mana. *)
Lemma vest_gain dpp s x : inv (rc s) -> amount_ok x -> 0 <= dpp <= 10000 ->
  forall a b, readable (now s) a -> (a ← update_vote_mana dpp (now s) x a; '(v, vests) ← tiny_transfer_from (vesting_shares a) x x; Ok (set_vests v a)) = Ok b ->
  exists v d, b = set_vests (vesting_shares a + x) (set_vote_mana v d a) /\ bar_ok (now s) v /\ bar_ok (now s) d.
Proof.
  intros I Hx Hd a b [Ra Rb Rv] H. apply bind_Ok in H as (a1 & H1 & H). apply update_vote_mana_Ok in H1 as (v & d & -> & Bv & Bd); [|done|done|apply (rk_time _ _ (ok_books _ _ (iv_rc _ _ _ I)))|done].
  apply bind_Ok in H as ([v1 y] & H2 & H). injection H as <-. cbn in H2. apply tiny_transfer_Ok in H2 as (-> & _); [|done|done|by apply amount_in_s]. by exists v, d.
Qed.

Lemma convert_amount h reward g g' rest v : convert_HIVE_to_VESTS h reward g = Ok (g', rest, v) -> amount_ok v.
Proof.
  unfold convert_HIVE_to_VESTS. intros H. apply bind_Ok in H as (p & _ & H). apply bind_Ok in H as (va & Hva & H). apply bind_Ok in H as ([g1 rest1] & _ & H). apply bind_Ok in H as ([g2 v2] & H2 & H). injection H as <- <- <-.
  assert (in_s 64 (tamount va)) as Hin.
  { unfold tiny_mul_quote in Hva. apply bind_Ok in Hva as (? & _ & Hva). apply bind_Ok in Hva as (r & Hr & Hva). injection Hva as <-. by eapply mul_div_share_wf. }
  unfold issue_VESTS in H2. apply check_bind_Ok in H2 as [Hc H2]. to_prop. assert (v2 = tamount va) as -> by (destruct reward; apply bind_Ok in H2 as (? & _ & H2); by injection H2 as _ <-). unfold amount_ok, in_s in *. lia.
Qed.

Lemma with_rc_total i f x s s' : inv (rc s) -> with_rc i f s = Ok s' ->
  (forall a b, readable (now s) a -> f a = Ok b -> vesting_shares b = vesting_shares a + x) -> total_vests (stakes (rc s')) = total_vests (stakes (rc s)) + x.
Proof.
  intros I H Hf. unfold with_rc in H. apply bind_Ok in H as (r1 & H1 & H). apply bind_Ok in H as (a & Ha & H). apply account_found in Ha. apply bind_Ok in H as (b & Hb & H). apply bind_Ok in H as (r2 & H2 & H). injection H as <-.
  pose proof (Hf a b (read_account _ _ _ _ I H1 Ha) Hb) as E. apply regenerate_same in H1 as [S1 _]. apply vest_change_same in H2 as [S2 _]. apply stakes_lookup in Ha. rewrite S1 in Ha.
  cbn [rc put_rc]. rewrite S2, stakes_put, S1, (total_change _ _ _ _ Ha). cbn. lia.
Qed.

(** What the operations keep: [t] bounds all shares together. *)
Record in_books s s' : Prop := { ib_inv : inv (rc s'); ib_env : same_env (rc s) (rc s') }.
Lemma in_books_refl s s' : inv (rc s) -> rc s' = rc s -> in_books s s'.
Proof. intros I E. constructor; by rewrite E. Qed.
Lemma in_books_trans s1 s2 s3 : in_books s1 s2 -> in_books s2 s3 -> in_books s1 s3.
Proof. intros [A1 A2] [B1 B2]. constructor; [done|by etransitivity]. Qed.

(** [x] more shares with their voting mana, for an operation that ends with all shares
    below the bound. *)
Lemma with_rc_vest i dpp x s s' : inv (rc s) -> amount_ok x -> 0 <= dpp <= 10000 -> total_vests (stakes (rc s')) < 2 ^ 62 ->
  with_rc i (fun a => a ← update_vote_mana dpp (now s) x a; '(v, vests) ← tiny_transfer_from (vesting_shares a) x x; Ok (set_vests v a)) s = Ok s' -> in_books s s'.
Proof.
  intros I Hx Hd Ht H. pose proof (vest_gain dpp s x I Hx Hd) as Hf. pose proof (with_rc_total _ _ x _ _ I H) as T.
  rewrite T in Ht. 2:{ intros a b Ra Hb. by destruct (Hf a b Ra Hb) as (v & d & -> & _). }
  destruct (with_rc_gains _ _ x _ _ I H (proj1 Hx) Ht Hf) as [[J1 J2 _ _ _] _]. by constructor.
Qed.

Lemma adjust_in_books i h reward s s' rest v : inv (rc s) -> 0 <= downvote_percent s <= 10000 -> total_vests (stakes (rc s')) < 2 ^ 62 ->
  adjust_account_vesting_balance i h reward s = Ok (s', rest, v) -> in_books s s'.
Proof.
  intros I Hd Ht H. unfold adjust_account_vesting_balance in H. apply bind_Ok in H as ([[g rest0] nv] & Hc & H). apply convert_amount in Hc. cbv zeta in H. destruct reward.
  - apply bind_Ok in H as (a & _ & H). apply bind_Ok in H as ([? ?] & _ & H). apply bind_Ok in H as ([? ?] & _ & H). injection H as <- _ _. by apply in_books_refl.
  - apply bind_Ok in H as (s1 & H1 & H). injection H as <- _ _. destruct (with_rc_vest i (downvote_percent s) nv (put_fund g s) s1 I Hc Hd Ht H1) as [A B]. by constructor.
Qed.

Lemma create_in_books i h reward s s' rest v : inv (rc s) -> 0 <= downvote_percent s <= 10000 -> total_vests (stakes (rc s')) < 2 ^ 62 ->
  create_vesting i h reward s = Ok (s', rest, v) -> in_books s s'.
Proof.
  intros I Hd Ht H. unfold create_vesting in H. apply bind_Ok in H as ([[s1 r1] v1] & H1 & H).
  assert (rc s' = rc s1) as E by (destruct reward; [by injection H as <- _ _|]; apply bind_Ok in H as (b & _ & H); by injection H as <- _ _).
  rewrite E in Ht. destruct (adjust_in_books _ _ _ _ _ _ _ I Hd Ht H1) as [A B]. constructor; by rewrite E.
Qed.

Lemma power_up_in_books from to x s s' : inv (rc s) -> 0 <= downvote_percent s <= 10000 -> total_vests (stakes (rc s')) < 2 ^ 62 -> transfer_to_vesting from to x s = Ok s' -> in_books s s'.
Proof.
  intros I Hd Ht H. unfold transfer_to_vesting in H. apply bind_Ok in H as (a & _ & H). apply check_bind_Ok in H as [_ H]. cbv zeta in H. apply bind_Ok in H as (b & _ & H). apply check_bind_Ok in H as [_ H].
  apply bind_Ok in H as (s1 & H1 & H). apply bind_Ok in H as ([[s2 rest] v] & H2 & H). apply bind_Ok in H as (s3 & H3 & H). apply check_bind_Ok in H as [_ H]. injection H as <-. apply add_delayed_Ok in H3 as [l ->].
  assert (rc s1 = rc s /\ downvote_percent s1 = downvote_percent s) as [E1 E2].
  { unfold withdraw_hive in H1. cbv zeta in H1. apply check_bind_Ok in H1 as [_ H1]. apply bind_Ok in H1 as ([? ?] & _ & H1). by injection H1 as <-. }
  destruct (adjust_in_books _ _ _ s1 s2 _ _ ltac:(by rewrite E1) ltac:(by rewrite E2) Ht H2) as [A B]. constructor; [done|]. by rewrite <- E1.
Qed.

Lemma claim_in_books i ch cb cv s s' : inv (rc s) -> 0 <= downvote_percent s <= 10000 -> amount_ok cv -> funds_ok (funds_of i s) -> total_vests (stakes (rc s')) < 2 ^ 62 ->
  claim_reward_balance i ch cb cv s = Ok s' -> in_books s s'.
Proof.
  intros I Hd Hcv (F1 & F2 & F3 & F4 & F5 & F6) Ht H. unfold claim_reward_balance in H. apply bind_Ok in H as (a0 & _ & H). apply check_bind_Ok in H as [_ H]. cbv zeta in H. do 3 apply check_bind_Ok in H as [_ H].
  apply bind_Ok in H as (tm & _ & H). do 4 (apply bind_Ok in H as ([? ?] & _ & H)).
  apply bind_Ok in H as (r1 & H1 & H). apply bind_Ok in H as (a & Ha & H). apply account_found in Ha. pose proof (read_account _ _ _ _ I H1 Ha) as [Ra Rb Rv].
  apply bind_Ok in H as (b & Hb & H). apply update_vote_mana_Ok in Hb as (v & d & -> & Bv & Bd); [|done|done|apply (rk_time _ _ (ok_books _ _ (iv_rc _ _ _ I)))|done].
  apply bind_Ok in H as ([w rv] & Hw & H). cbn in Hw. apply tiny_transfer_Ok in Hw as (-> & _); [|done|done|by apply amount_in_s]. apply bind_Ok in H as ([? ?] & _ & H).
  apply bind_Ok in H as (r2 & H2 & H). apply bind_Ok in H as (? & _ & H). apply bind_Ok in H as ([? ?] & _ & H). apply bind_Ok in H as (? & _ & H). apply bind_Ok in H as (? & _ & H). apply bind_Ok in H as (? & _ & H). injection H as <-. cbn in Ht.
  assert (total_vests (stakes r2) = total_vests (stakes (rc s)) + cv) as T.
  { apply regenerate_same in H1 as [S1 _]. apply vest_change_same in H2 as [S2 _]. apply stakes_lookup in Ha. rewrite S1 in Ha. rewrite S2, stakes_put, S1, (total_change _ _ _ _ Ha). cbn. lia. }
  destruct (gain_inv _ _ _ _ _ _ _ _ _ I H1 Ha (proj1 Hcv) Bv Bd ltac:(lia) H2) as (I2 & E2 & _). by constructor.
Qed.

(** *** Transfers of VESTS *)

Lemma no_delegated_rc r i a : rc_ok r -> accounts r !! i = Some a -> i ∉ delegators r -> delegated_rc a = 0.
Proof.
  intros [B _ _] Ha Hi. pose proof (rk_delegated _ _ B i a Ha) as E. pose proof (ac_delegated _ _ (rk_account _ _ B i a Ha)) as [D _]. unfold no_pending in E.
  assert (from_sum i (rc_delegations r) = 0) as F.
  { apply sumZ_zero. intros d Hd. destruct (Z.eqb_spec (rcd_from d) i) as [<-|]; [|done]. destruct Hi. by apply list_elem_of_fmap_2. }
  assert (0 <= expired_sum i (rc_expired r)); [|lia]. apply sumZ_nonneg. eapply Forall_impl; [apply (rk_expired _ _ B)|]. intros e He. cbn in *. destruct (_ =? _); lia.
Qed.

Lemma transfer_in_books from to x s s' : inv (rc s) -> 0 <= downvote_percent s <= 10000 -> amount_ok x -> total_vests (stakes (rc s')) < 2 ^ 62 -> transfer_vests from to x s = Ok s' -> in_books s s'.
Proof.
  intros I Hd Hx Ht H. unfold transfer_vests in H. apply bind_Ok in H as (a & Ha & H). apply account_found in Ha. apply check_bind_Ok in H as [Hp H]. apply bind_Ok in H as (? & _ & H). apply check_bind_Ok in H as [Hv0 H]. apply bind_Ok in H as (own & Hown & H).
  apply check_bind_Ok in H as [Hle H]. apply check_bind_Ok in H as [Hpos H]. apply check_bind_Ok in H as [_ H]. to_prop.
  pose proof I as [HR B R]. destruct (books_of _ _ _ _ _ B Ha) as ([A1 A2 A3 A4 A5 A6] & [Z1 Z2 Z3 Z4 Z5 Z6 Z7] & _). apply safe_sub_Ok in Hown as [-> _]; [|unfold in_s; lia|unfold in_s; lia].
  destruct (R from (erase a) (stakes_lookup _ _ _ Ha) Hp) as [Hnext Hdel]. cbn in Hnext.
  apply bind_Ok in H as (s1 & H1 & H). apply bind_Ok in H as (b & _ & H). cbv zeta in H. apply bind_Ok in H as (s2 & H2 & H). apply add_delayed_Ok in H as [l ->]. cbn in Ht.
  assert (in_books s s1) as M1.
  { unfold with_rc in H1. apply bind_Ok in H1 as (r1 & Hr & H1). apply bind_Ok in H1 as (a1 & Ha1 & H1). apply account_found in Ha1. pose proof (read_account _ _ _ _ I Hr Ha1) as [Ra Rb Rv].
    pose proof (regenerate_stakes _ _ _ HR Hr) as ((R1 & E1 & _) & S1 & _). assert (erase a1 = erase a) as Ee by (pose proof (stakes_lookup _ _ _ Ha1) as Hx1; rewrite S1, (stakes_lookup _ _ _ Ha) in Hx1; congruence).
    assert (vesting_shares a1 = vesting_shares a /\ delegated_vesting_shares a1 = delegated_vesting_shares a /\ next_vesting_withdrawal a1 = max_time) as (Q1 & Q2 & Q3).
    { split_and!; [by apply (f_equal vesting_shares) in Ee|by apply (f_equal delegated_vesting_shares) in Ee|]. apply (f_equal next_vesting_withdrawal) in Ee. cbn in Ee. congruence. }
    apply bind_Ok in H1 as (a' & Ha' & H1). apply bind_Ok in H1 as (r2 & Hr2 & H1). injection H1 as <-. pose proof (rk_time _ _ (ok_books _ _ HR)) as Tm.
    apply bind_Ok in Ha' as (c1 & Hc1 & Ha'). apply update_vote_mana_Ok in Hc1 as (v1 & d1 & -> & Bv1 & Bd1); [|done|done|apply Tm|done].
    apply bind_Ok in Ha' as (c2 & Hc2 & Ha'). apply (use_vote_mana_Ok (now s)) in Hc2 as (v2 & d2 & -> & Bv2 & Bd2); [|by split|done|done].
    apply bind_Ok in Ha' as ([m w] & Hm & Ha'). injection Ha' as <-. cbn in Hm. apply tiny_transfer_Ok in Hm as (_ & -> & _ & Hw); [|unfold amount_ok; lia|done|by apply amount_in_s].
    set (a' := set_vests _ _) in *. assert (has_active_power_down a' = false) as Hact by (unfold has_active_power_down; cbn; rewrite Q3; done).
    assert (weekly a' = 0 /\ remaining a' = 0) as [Hwk Hrm] by (unfold weekly, remaining; by rewrite Hact).
    destruct (books_of r1 vds exps from a1) as ([C1 C2 C3 C4 C5 C6] & _); [by rewrite S1, (env_time _ _ E1)|done|].
    destruct (change_inv _ _ _ _ a' true false r2 I Hr Ha1) as (I2 & E2 & _); [| | |exact Hr2|by constructor].
    - constructor; try done; [unfold amount_ok in Hw; cbn; lia|]. rewrite Hrm. cbn. lia.
    - cbn. pose proof (vb_total _ _ _ _ B). unfold amount_ok in *. lia.
    - intros _. change (delegated_rc a') with (delegated_rc a1). rewrite (no_delegated_rc r1 from a1 R1 Ha1); [|unfold delegators in *; by rewrite (regenerate_delegators _ _ _ Hr)].
      unfold effective. rewrite Hwk. destruct Ra as [_ _ Hrec _ _ _ _]. cbn. lia. }
  assert (inv (rc (put_book b s1))) as I1 by apply M1. apply (in_books_trans _ s1); [done|].
  assert (downvote_percent s1 = downvote_percent s) as Ed by (apply with_rc_Ok in H1 as (? & ? & ? & _ & _ & _ & -> & _); done).
  destruct (with_rc_vest to (downvote_percent (put_book b s1)) x (put_book b s1) s2 I1 Hx ltac:(cbn; by rewrite Ed) Ht H2) as [C1 C2]. by constructor.
Qed.

(** *** Payouts of power downs *)

(** Routes of sensible percentages. *)
Definition percents_ok (l : list withdraw_vesting_route_object) : Prop := Forall (fun x => 0 < percent x <= 10000) l.

(** While [w] shares are paid out, [rest] of them still to be distributed. *)
Record routing (w rest : Z) s0 s : Prop := {
  rg_inv : inv (rc s);
  rg_env : same_env (rc s0) (rc s);
  rg_total : total_vests (stakes (rc s)) + rest <= total_vests (stakes (rc s0)) + w;
  rg_rest : 0 <= rest;
  rg_grown : grown (stakes (rc s0)) (stakes (rc s));
  rg_routes : routes s = routes s0
}.

Lemma routing_put w rest s0 s s' : routing w rest s0 s -> rc s' = rc s -> routes s' = routes s -> routing w rest s0 s'.
Proof. intros [R1 R2 R3 R4 R5 R6] E1 E2. constructor; rewrite ?E1, ?E2; done. Qed.

Lemma pay_route_routing mode i w rest s0 s items r s' rest' items' : routing w rest s0 s -> 0 <= w <= total_vests (stakes (rc s0)) -> total_vests (stakes (rc s0)) < 2 ^ 61 -> 0 < percent r <= 10000 ->
  pay_route mode i w (s, rest, items) r = Ok (s', rest', items') -> routing w rest' s0 s'.
Proof.
  intros Rg Hw Ht Hp H. unfold pay_route in H. destruct (_ || _); [by injection H as <- <- <-|]. apply bind_Ok in H as (dep & Hd & H). destruct (Z.leb_spec dep 0) as [|Hpos]; [by injection H as <- <- <-|].
  apply bind_Ok in H as (c & _ & H). apply bind_Ok in H as ([routed rest1] & Htr & H). pose proof (rg_rest _ _ _ _ Rg) as Hr0. pose proof (rg_total _ _ _ _ Rg) as Hr1.
  assert (in_s 64 dep) as Hin.
  { unfold HIVE_100_PERCENT in *. rewrite (uwrap_id 128 w) in Hd by (unfold in_u; lia). rewrite (uwrap_id 128 (w * _)) in Hd by (unfold in_u; nia).
    assert (0 <= w * percent r / 10000 < 2 ^ 63) by (split; [apply Z.div_pos; nia|apply Z.div_lt_upper_bound; nia]). rewrite uint128_to_int64_fits in Hd by done. injection Hd as <-. unfold in_s. lia. }
  assert (0 <= total_vests (stakes (rc s))) as Hn.
  { apply sumZ_nonneg, Forall_forall. intros [j y] Hj. apply elem_of_map_to_list in Hj. apply (ab_vests _ _ _ _ _ (vb_account _ _ _ _ (iv_books _ _ _ (rg_inv _ _ _ _ Rg)) j y Hj)). }
  apply tiny_transfer_Ok in Htr as (-> & -> & T1 & T2); [|unfold amount_ok; lia|unfold amount_ok; lia|done]. rewrite Z.add_0_l in *. unfold amount_ok in T2. destruct mode.
  - apply bind_Ok in H as (s1 & H1 & H). apply bind_Ok in H as (it & _ & H). injection H as <- <- <-.
    destruct (with_rc_gains (to_account r) _ dep s s1 (rg_inv _ _ _ _ Rg) H1) as [[G1 G2 G3 G4 G5] _]; [lia|lia| |].
    + intros a b [Ra Rb Rv] Hf. apply bind_Ok in Hf as ([v m] & Hm & Hf). injection Hf as <-. apply tiny_transfer_Ok in Hm as (-> & _); [|done|done|done].
      exists (voting_manabar a), (downvote_manabar a). split; [by destruct a|done].
    + destruct Rg as [R1 R2 R3 R4 R5 R6]. constructor; [done|by etransitivity|lia|lia|by eapply grown_trans|congruence].
  - apply bind_Ok in H as ([g rh] & _ & H). cbv zeta in H. apply bind_Ok in H as ([h y] & _ & H). injection H as <- <- <-.
    destruct Rg as [R1 R2 R3 R4 R5 R6]. constructor; try done; cbn; lia.
Qed.

Lemma process_routing_routing mode i w rest s0 s items s' rest' items' : routing w rest s0 s -> 0 <= w <= total_vests (stakes (rc s0)) -> total_vests (stakes (rc s0)) < 2 ^ 61 -> percents_ok (routes s0) ->
  process_routing mode i w (s, rest, items) = Ok (s', rest', items') -> routing w rest' s0 s'.
Proof.
  intros Rg Hw Ht Hr. unfold process_routing. cbn [fst]. rewrite <- (rg_routes _ _ _ _ Rg) in Hr. revert Hr. unfold percents_ok. generalize (routes s) as l. intros l Hr. revert s rest items Rg.
  induction Hr as [|r l Hp Hr IH]; intros s rest items Rg H; cbn [foldM] in H; [by injection H as <- <- <-|].
  destruct (pay_route mode i w (s, rest, items) r) as [[[s1 rest1] items1]|] eqn:E1; [|done]. eapply (IH s1 rest1 items1); [by eapply pay_route_routing|exact H].
Qed.

(** What is left of a power down after a payout stays covered. *)
Lemma finish_moved t a v w b : 0 <= w <= weekly a -> has_active_power_down a = true -> down_ok a -> bars_ok t a -> is_pixa_ico (name a) = false ->
  0 <= delegated_vesting_shares a -> delegated_vesting_shares a + remaining a <= vesting_shares a ->  v = vesting_shares a - w -> finish_payout w (set_vests v a) = Ok b -> moved_to t a b /\ vesting_shares b = v.
Proof.
  intros Hw Ha (D1 & D2 & D3) Hb Hp Hdel Hc -> H. unfold weekly in Hw. unfold remaining in Hc. rewrite Ha in Hw, Hc. unfold finish_payout in H. cbn [withdrawn set_vests set_shares] in H. apply bind_Ok in H as (x & Hx & H). apply safe_add_Ok in Hx as [-> _]; [|unfold in_s; lia|unfold in_s; lia].
  cbv zeta in H. apply bind_Ok in H as (t0 & Ht & H). unfold get_total_vesting_withdrawal in Ht. cbn [to_withdraw withdrawn set_power_down] in Ht. cbn in Ht. apply safe_sub_Ok in Ht as [-> _]; [|unfold in_s; lia|unfold in_s; lia].
  destruct (_ || _); injection H as <-; (split; [|done]); constructor; try done; try (intros Hp'; congruence); unfold down_ok, remaining, has_active_power_down; cbn; try lia.
  all: destruct (negb _); lia.
Qed.

Lemma pay_out_in_books i a s s' : inv (rc s) -> total_vests (stakes (rc s)) < 2 ^ 61 -> percents_ok (routes s) -> accounts (rc s) !! i = Some a -> has_active_power_down a = true ->
  pay_out i s = Ok s' -> in_books s s' /\ total_vests (stakes (rc s')) <= total_vests (stakes (rc s)) /\ routes s' = routes s.
Proof.
  intros I Ht Hr Ha Hact H. pose proof I as [HR B R]. destruct (books_of _ _ _ _ _ B Ha) as ([A1 A2 A3 A4 A5 A6] & [Z1 Z2 Z3 Z4 Z5 Z6 Z7] & _).
  assert (is_pixa_ico (name a) = false) as Hp.
  { destruct (is_pixa_ico (name a)) eqn:E; [|done]. destruct (R i (erase a) (stakes_lookup _ _ _ Ha) E) as [Hn _]. cbn in Hn. unfold has_active_power_down in Hact. by rewrite Hn in Hact. }
  unfold pay_out in H. rewrite (proj2 (account_found _ _ _) Ha) in H. cbn [mbind result_bind] in H. apply bind_Ok in H as (tw & Htw & H). unfold get_next_vesting_withdrawal in Htw. rewrite Hact in Htw.
  apply bind_Ok in Htw as (t0 & Ht0 & Htw). injection Htw as <-. unfold get_total_vesting_withdrawal in Ht0. apply safe_sub_Ok in Ht0 as [-> _]; [|unfold in_s; lia|unfold in_s; lia]. cbv zeta in H.
  assert (Z.min (vesting_withdraw_rate a) (to_withdraw a - withdrawn a) = weekly a) as Ew by (unfold weekly; by rewrite Hact). rewrite Ew in H. pose proof (remaining_nonneg a A5) as Hrem.
  assert ((vesting_shares a <? weekly a) = false) as Hlt by (apply Z.ltb_ge; lia). rewrite Hlt in H. set (w := weekly a) in *.
  assert (w <= total_vests (stakes (rc s))) as Hwt.
  { pose proof (received_total _ _ _ _ B i (erase a) (stakes_lookup _ _ _ Ha)) as Hrt. cbn in Hrt. pose proof (in_sum_nonneg i vds (vb_vds _ _ _ _ B)). lia. }
  apply bind_Ok in H as ([g pd] & Hg & H). assert (pd = w) as ->.
  { unfold issue_VESTS in Hg. apply check_bind_Ok in Hg as [_ Hg]. apply bind_Ok in Hg as (? & _ & Hg). by injection Hg as _ <-. }
  assert (routing w w s (put_fund g s)) as P0 by (constructor; cbn; first [done|lia|apply grown_refl]).
  apply bind_Ok in H as ([[s1 rest1] it1] & H1 & H). pose proof (process_routing_routing _ _ _ _ _ _ _ _ _ _ P0 ltac:(lia) Ht Hr H1) as P1.
  apply bind_Ok in H as ([[s2 rest2] it2] & H2 & H). pose proof (process_routing_routing _ _ _ _ _ _ _ _ _ _ P1 ltac:(lia) Ht Hr H2) as P2. clear P0 P1 H1 H2.
  apply bind_Ok in H as ([g3 ch] & _ & H). apply bind_Ok in H as (r & Hreg & H). cbn [rc put_fund] in Hreg. apply bind_Ok in H as (it & _ & H). apply bind_Ok in H as (b & Hb & H). apply account_found in Hb.
  destruct P2 as [I2 E2 T2 R2 G2 Ro2]. destruct (G2 i (erase a) (stakes_lookup _ _ _ Ha)) as (n & vb & db & Hn & Hsb).
  pose proof (regenerate_stakes _ _ _ (iv_rc _ _ _ I2) Hreg) as ((R3 & E3 & _) & S3 & _). pose proof (read_account _ _ _ _ I2 Hreg Hb) as [Rd1 Rd2 Rd3].
  assert (erase b = set_vests (vesting_shares a + n) (set_vote_mana vb db (erase a))) as Eb by (apply stakes_lookup in Hb; rewrite S3 in Hb; rewrite Hsb in Hb; symmetry; exact (inj Some _ _ Hb)).
  assert (name b = name a /\ vesting_shares b = vesting_shares a + n /\ delegated_vesting_shares b = delegated_vesting_shares a /\ vesting_withdraw_rate b = vesting_withdraw_rate a /\
    to_withdraw b = to_withdraw a /\ withdrawn b = withdrawn a /\ next_vesting_withdrawal b = next_vesting_withdrawal a) as (Q1 & Q2 & Q3 & Q4 & Q5 & Q6 & Q7).
  { split_and!; [apply (f_equal name) in Eb|apply (f_equal vesting_shares) in Eb|apply (f_equal delegated_vesting_shares) in Eb|apply (f_equal vesting_withdraw_rate) in Eb|apply (f_equal to_withdraw) in Eb|apply (f_equal withdrawn) in Eb|apply (f_equal next_vesting_withdrawal) in Eb]; done. }
  assert (has_active_power_down b = true) as Hactb by (unfold has_active_power_down in *; by rewrite Q7). assert (weekly b = w) as Ewb by (unfold w, weekly; by rewrite Hactb, Hact, Q4, Q5, Q6).
  assert (remaining b = remaining a) as Erb by (unfold remaining; by rewrite Hactb, Hact, Q5, Q6).
  apply bind_Ok in H as ([pd v] & Hv & H). apply tiny_transfer_Ok in Hv as (_ & -> & _ & V2); [|unfold amount_ok; lia|done|unfold in_s; lia]. apply bind_Ok in H as ([h y] & _ & H). apply bind_Ok in H as (b' & Hb' & H).
  assert (down_ok b) as Db by (unfold down_ok in *; rewrite Q4, Q5, Q6; done).
  destruct (finish_moved (head_block_time (rc s2)) b _ w b' ltac:(lia) Hactb Db Rd2 ltac:(by rewrite Q1) ltac:(lia) ltac:(lia) eq_refl Hb') as [Mv Ev].
  apply bind_Ok in H as (r2 & Hr2 & H). destruct (change_inv i (rc s2) r b b' true true r2 I2 Hreg Hb Mv ltac:(lia) ltac:(done) Hr2) as (I4 & E4 & Hs4 & S4).
  assert (total_vests (stakes r2) <= total_vests (stakes (rc s))) as Ht4 by (rewrite S4, (total_change _ _ _ _ Hs4); cbn; lia).
  cbv zeta in H. apply bind_Ok in H as (g4 & _ & H). apply bind_Ok in H as ([s5 lo] & H5 & H). apply update_delayed_Ok in H5 as [l ->].
  assert (rc s' = r2 /\ routes s' = routes s) as [Er Ero].
  { destruct (0 <? lo); [apply bind_Ok in H as (bk & _ & H)|]; injection H as <-; cbn; done. }
  split_and!; [constructor; rewrite Er; [done|by etransitivity]|by rewrite Er|done].
Qed.

Lemma payouts_in_books fuel current s s' : inv (rc s) -> total_vests (stakes (rc s)) < 2 ^ 61 -> percents_ok (routes s) -> now s < max_time ->
  pay_due fuel current s = Some (Ok s') -> in_books s s'.
Proof.
  revert current s. induction fuel as [|fuel IH]; intros current s I Ht Hr Hn H; cbn in H.
  - assert (s' = s) as -> by (destruct current as [i|]; [|congruence]; destruct (accounts (rc s) !! i); [|done]; destruct (_ <=? _); [done|congruence]). by apply in_books_refl.
  - destruct current as [i|]; [|injection H as <-; by apply in_books_refl]. destruct (accounts (rc s) !! i) as [a|] eqn:Ha; [|done].
    destruct (Z.leb_spec (next_vesting_withdrawal a) (now s)) as [Hdue|]; [|injection H as <-; by apply in_books_refl]. destruct (pay_out i s) as [s1|] eqn:E1; [|done].
    apply (pay_out_in_books i a) in E1 as ([J1 J2] & T1 & R1); [|done|done|done|done|unfold has_active_power_down; apply negb_true_iff, Z.eqb_neq; lia].
    apply (in_books_trans _ s1); [by constructor|]. eapply IH; [done|lia|by rewrite R1|unfold now in *; by rewrite (env_time _ _ J2)|exact H].
Qed.
End moves.
