(* ===== verification/StakeHistory.v ===== *)
(** * Histories of stake

    Delegations of vesting shares, power downs and their routes, the operations that
    move vesting shares (with the payouts of power downs) and those on resource
    credits, in any order: the invariant of all their books, and what the operations
    achieve. *)

From stdpp Require Import base numbers strings option list gmap sorting.
From S2P Require Import Prelude Fc Config AssetSymbol Asset Resources Ledger Transfers DelayedVoting ResourceCredits RcInvariant Vesting VestingBooks Delegations DelegationBooks StakeMoves.
Open Scope Z_scope.

(** ** Routes *)

Definition rkey (x : withdraw_vesting_route_object) : Z * Z := (from_account x, to_account x).
Definition pct_sum (i : Z) (l : list withdraw_vesting_route_object) : Z := sumZ (fun x => if from_account x =? i then percent x else 0) l.
Definition route_count (i : Z) (l : list withdraw_vesting_route_object) : Z := sumZ (fun x => if from_account x =? i then 1 else 0) l.

Record routes_ok (s : stake_state) : Prop := {
  ro_percents : Forall (fun x => 0 < percent x <= 10000) (withdraw_vesting_routes s);
  ro_keys : NoDup (rkey <$> withdraw_vesting_routes s);
  ro_sum i : pct_sum i (withdraw_vesting_routes s) <= 10000;
  ro_count i : routes_of i s = route_count i (withdraw_vesting_routes s) /\ routes_of i s <= HIVE_MAX_WITHDRAW_ROUTES
}.

Lemma routes_frame s s' : withdraw_vesting_routes s' = withdraw_vesting_routes s -> withdraw_routes s' = withdraw_routes s -> routes_ok s -> routes_ok s'.
Proof. intros F1 F2 [R1 R2 R3 R4]. constructor; rewrite ?F1; try done. intros i. unfold routes_of. rewrite F2. apply R4. Qed.

Lemma pct_sum_nonneg i l : Forall (fun x => 0 < percent x <= 10000) l -> 0 <= pct_sum i l.
Proof. intros H. apply sumZ_nonneg. eapply Forall_impl; [exact H|]. intros x ?. cbn in *. destruct (_ =? _); lia. Qed.
Lemma route_count_nonneg i l : 0 <= route_count i l.
Proof. apply sumZ_nonneg, Forall_forall. intros x _. destruct (_ =? _); lia. Qed.

(** The sum of 16-bit percentages does not wrap. *)
Lemma total_percent_exact i l : Forall (fun x => 0 < percent x <= 10000) l -> pct_sum i l < 2 ^ 16 -> total_percent i l = pct_sum i l.
Proof.
  assert (forall t, Forall (fun x => 0 < percent x <= 10000) l -> 0 <= t -> t + pct_sum i l < 2 ^ 16 ->
    foldl (fun t x => if from_account x =? i then u16 (t + percent x) else t) t l = t + pct_sum i l) as Hg.
  { unfold pct_sum. induction l as [|x l IH]; intros t F Ht Hs; [cbn; lia|]. apply Forall_cons in F as [Hx F]. pose proof (pct_sum_nonneg i l F) as Hn. unfold pct_sum in Hn. cbn [foldl].
    rewrite sumZ_cons in Hs |- *. destruct (from_account x =? i); rewrite IH; try done; try (rewrite ?uwrap_id by (unfold in_u; lia)); lia. }
  intros F Hs. unfold total_percent. rewrite Hg by (done || lia). lia.
Qed.

Lemma is_route_true from to x : is_route from to x = true <-> rkey x = (from, to).
Proof. unfold is_route, rkey. destruct (from_account x =? from) eqn:E1, (to_account x =? to) eqn:E2; to_prop; cbn; naive_solver. Qed.

(** Summing over the routes when that of [from] to [to] changes. *)
Lemma route_sums (f : withdraw_vesting_route_object -> Z) i old new rest routes routes' : routes ≡ₚ old ++ rest -> routes' ≡ₚ new ++ rest ->
  sumZ (fun x => if from_account x =? i then f x else 0) routes' = sumZ (fun x => if from_account x =? i then f x else 0) routes
    - sumZ (fun x => if from_account x =? i then f x else 0) old + sumZ (fun x => if from_account x =? i then f x else 0) new.
Proof. intros -> ->. rewrite !sumZ_app. lia. Qed.

Section history.
Context `{L : FcLib} `{!FcLaws L}.

Lemma route_changed from to pct vest s s' : routes_ok s -> 0 <= pct <= 10000 -> set_withdraw_vesting_route from to pct vest s = Ok s' ->
  exists old new rest n, s' = set_routes (withdraw_vesting_routes s') (<[from := n]> (withdraw_routes s)) s /\ withdraw_vesting_routes s ≡ₚ old ++ rest /\ withdraw_vesting_routes s' ≡ₚ new ++ rest /\
    (from, to) ∉ rkey <$> rest /\ (old = [] \/ exists p v, old = [mk_route from to p v]) /\ (new = [] /\ pct = 0 \/ new = [mk_route from to pct vest] /\ 0 < pct) /\
    n = route_count from (withdraw_vesting_routes s') /\ n <= HIVE_MAX_WITHDRAW_ROUTES /\ total_percent from (withdraw_vesting_routes s') <= 10000.
Proof.
  intros [R1 R2 R3 R4] Hp H. unfold set_withdraw_vesting_route in H. apply bind_Ok in H as (a & _ & H). apply bind_Ok in H as (b & _ & H). cbv zeta in H. apply check_bind_Ok in H as [_ H].
  apply bind_Ok in H as (s1 & H1 & H). apply check_bind_Ok in H as [Ht H]. injection H as <-. to_prop. destruct (R4 from) as [Hcnt Hmax].
  pose proof (route_count_nonneg from (withdraw_vesting_routes s)) as Hc0. unfold HIVE_MAX_WITHDRAW_ROUTES in *.
  destruct (List.find (is_route from to) (withdraw_vesting_routes s)) as [x|] eqn:Ef.
  - apply List.find_some in Ef as [Hin Hk]. apply list_elem_of_In in Hin.
    destruct (unique_split rkey (is_route from to) (withdraw_vesting_routes s) x R2 Hin Hk) as [E1 E2]. { intros y _ Hy. apply is_route_true in Hk, Hy. congruence. }
    set (rest := filter (fun y => is_route from to y = false) (withdraw_vesting_routes s)) in *.
    assert ((from, to) ∉ rkey <$> rest) as Hn by (intros Hr; apply list_elem_of_fmap in Hr as (y & Hy & Hr); apply list_elem_of_filter in Hr as [Hr _]; symmetry in Hy; apply is_route_true in Hy; congruence).
    apply is_route_true in Hk. assert (x = mk_route from to (percent x) (auto_vest x)) as Ex by (unfold rkey in Hk; destruct x; cbn in *; by injection Hk as -> ->).
    assert (route_count from (withdraw_vesting_routes s) = 1 + route_count from rest) as Hx by (unfold route_count; rewrite E1 at 1; rewrite sumZ_cons, Ex; cbn; by rewrite Z.eqb_refl).
    pose proof (route_count_nonneg from rest) as Hr0. destruct (pct =? 0) eqn:E0; to_prop; injection H1 as <-.
    + exists [x], [], rest, (routes_of from s - 1). rewrite uwrap_id by (unfold in_u; lia). split_and!; try done; [by right; rewrite Ex; eexists _, _|by left| |lia]. change (routes_of from s - 1 = route_count from rest). lia.
    + exists [x], [mk_route from to pct vest], rest, (routes_of from s). assert (<[from := routes_of from s]> (withdraw_routes s) = withdraw_routes s \/ withdraw_routes s !! from = None) as Hw.
      { unfold routes_of. destruct (withdraw_routes s !! from) eqn:Ew; [left; by apply insert_id|by right]. }
      destruct Hw as [Hw|Hw]; [|exfalso; unfold routes_of in Hcnt; rewrite Hw in Hcnt; cbn in Hcnt; lia].
      assert (withdraw_vesting_routes (set_routes ((fun x0 => if is_route from to x0 then mk_route from to pct vest else x0) <$> withdraw_vesting_routes s) (withdraw_routes s) s) ≡ₚ [mk_route from to pct vest] ++ rest) as Em by exact (E2 (fun _ => mk_route from to pct vest)).
      split_and!; try done; [by rewrite Hw|by right; rewrite Ex; eexists _, _|right; split; [done|lia]|]. unfold route_count. rewrite Em, sumZ_app, sumZ_cons. cbn [from_account]. rewrite Z.eqb_refl. change (sumZ _ []) with 0. unfold route_count in *. lia.
  - apply check_bind_Ok in H1 as [H0 H1]. apply check_bind_Ok in H1 as [Hlim H1]. injection H1 as <-. to_prop. exists [], [mk_route from to pct vest], (withdraw_vesting_routes s), (routes_of from s + 1).
    rewrite uwrap_id by (unfold in_u; lia). split_and!; try done; [cbn; by rewrite Permutation_app_comm| |by left|right; split; [done|lia]| |lia].
    + intros Hr. apply list_elem_of_fmap in Hr as (y & Hy & Hr). apply list_elem_of_In in Hr. apply (List.find_none _ _ Ef) in Hr. symmetry in Hy. apply is_route_true in Hy. congruence.
    + cbn [withdraw_vesting_routes set_routes]. unfold route_count in *. rewrite sumZ_app, sumZ_cons. cbn [from_account]. rewrite Z.eqb_refl. change (sumZ _ []) with 0. lia.
Qed.

Lemma route_ok from to pct vest s s' : routes_ok s -> 0 <= pct <= 10000 -> set_withdraw_vesting_route from to pct vest s = Ok s' -> routes_ok s' /\ exists l n, s' = set_routes l n s.
Proof.
  intros R Hp H. destruct (route_changed _ _ _ _ _ _ R Hp H) as (old & new & rest & n & Es & El & El' & Hk & Hold & Hnew & Hn & Hm & Ht). split; [|by eexists _, _].
  destruct R as [R1 R2 R3 R4]. pose proof R1 as F. rewrite El in F. apply Forall_app in F as [Fo F]. rewrite El, fmap_app in R2. apply NoDup_app in R2 as (_ & _ & N).
  assert (Forall (fun x => 0 < percent x <= 10000) (withdraw_vesting_routes s')) as F'.
  { rewrite El'. apply Forall_app. split; [|done]. destruct Hnew as [[-> _]|[-> Hpos]]; [done|]. apply Forall_singleton. cbn. lia. }
  assert (forall i f, i <> from -> (forall l, l = old \/ l = new -> sumZ (fun x => if from_account x =? i then f x else 0) l = 0)) as Hother.
  { intros i f Hi l Hl. apply sumZ_zero. intros x Hx. rewrite (proj2 (Z.eqb_neq _ _)); [done|]. intros <-. apply Hi.
    destruct Hl as [->| ->]; [destruct Hold as [->|(p & v & ->)]|destruct Hnew as [[-> _]|[-> _]]]; try (by apply elem_of_nil in Hx); by apply list_elem_of_singleton in Hx as ->. }
  assert (forall i, i <> from -> pct_sum i (withdraw_vesting_routes s') = pct_sum i (withdraw_vesting_routes s) /\ route_count i (withdraw_vesting_routes s') = route_count i (withdraw_vesting_routes s)) as Hsame.
  { intros i Hi. unfold pct_sum, route_count. rewrite (route_sums percent i _ _ _ _ _ El El'), (route_sums (fun _ => 1) i _ _ _ _ _ El El').
    rewrite (Hother i percent Hi old), (Hother i percent Hi new), (Hother i (fun _ => 1) Hi old), (Hother i (fun _ => 1) Hi new) by auto. lia. }
  constructor; [done| | |].
  - rewrite El', fmap_app. destruct Hnew as [[-> _]|[-> _]]; [done|]. cbn. by apply NoDup_cons.
  - intros i. destruct (decide (i = from)) as [->|Hi]; [|rewrite (proj1 (Hsame i Hi)); apply R3]. rewrite <- total_percent_exact; [exact Ht|done|].
    unfold pct_sum. rewrite (route_sums percent from _ _ _ _ _ El El'). specialize (R3 from). unfold pct_sum in R3. pose proof (pct_sum_nonneg from old Fo) as Ho. unfold pct_sum in Ho.
    assert (sumZ (fun x => if from_account x =? from then percent x else 0) new <= 10000); [|lia].
    destruct Hnew as [[-> _]|[-> _]]; [cbn; lia|]. rewrite sumZ_cons. cbn [from_account percent]. rewrite Z.eqb_refl. change (sumZ _ []) with 0. lia.
  - intros i. assert (routes_of i s' = if i =? from then n else routes_of i s) as Hr.
    { rewrite Es. unfold routes_of. cbn. destruct (i =? from) eqn:E; to_prop; [subst i; by rewrite lookup_insert_eq|by rewrite lookup_insert_ne by done]. }
    rewrite Hr. destruct (i =? from) eqn:E; to_prop; [subst i; by split|]. rewrite (proj2 (Hsame i E)). apply R4.
Qed.

(** ** The index of delegations on their way back *)

Definition exp_le (x y : vesting_delegation_expiration_object) : Prop := expiration x <= expiration y.

Lemma insert_expiration_sorted e l : StronglySorted exp_le l -> StronglySorted exp_le (insert_expiration e l).
Proof.
  induction 1 as [|x l Hl IH Hx]; cbn; [by repeat constructor|]. destruct (_ <? _) eqn:E; to_prop.
  - constructor; [by constructor|]. constructor; [unfold exp_le; lia|]. eapply Forall_impl; [exact Hx|]. unfold exp_le. lia.
  - constructor; [done|]. rewrite insert_expiration_perm. by constructor.
Qed.
Lemma drop_while_sorted now l : StronglySorted exp_le l -> StronglySorted exp_le (drop_while (fun e => expiration e <? now) l) /\ Forall (fun e => now <= expiration e) (drop_while (fun e => expiration e <? now) l).
Proof.
  induction 1 as [|x l Hl IH Hx]; cbn [drop_while]; [by repeat constructor|]. destruct (_ <? _) eqn:E; to_prop; [done|]. split; [by constructor|]. constructor; [lia|]. eapply Forall_impl; [exact Hx|]. unfold exp_le. lia.
Qed.

Lemma delegate_frame from to shares s s' : delegate_vesting_shares from to shares s = Ok s' ->
  withdraw_vesting_routes s' = withdraw_vesting_routes s /\ withdraw_routes s' = withdraw_routes s /\
  (vd_expirations s' = vd_expirations s \/ exists e, vd_expirations s' = insert_expiration e (vd_expirations s)).
Proof.
  intros H. unfold delegate_vesting_shares in H. cbv zeta in H. repeat (apply bind_Ok in H as (? & _ & H)). match type of H with (let '(_, _) := ?p in _) = _ => destruct p end.
  apply bind_Ok in H as (? & _ & H). apply bind_Ok in H as (? & _ & H). apply bind_Ok in H as (s1 & H1 & H). apply bind_Ok in H as (? & _ & H). apply bind_Ok in H as (? & _ & H). injection H as <-. cbn.
  destruct (find_vd from to s) as [d|]; [destruct (_ <=? _)|].
  - repeat (apply bind_Ok in H1 as (? & _ & H1)). injection H1 as <-. split_and!; [done|done|by left].
  - repeat (apply bind_Ok in H1 as (? & _ & H1)). destruct (0 <? shares); [unfold set_vesting in H1; apply check_bind_Ok in H1 as [_ H1]|]; injection H1 as <-; (split_and!; [done|done|right; by eexists]).
  - repeat (apply bind_Ok in H1 as (? & _ & H1)). injection H1 as <-. split_and!; [done|done|by left].
Qed.

(** ** Other changes of the books *)

Lemma bars_later now now' a : now <= now' -> bars_ok now a -> bars_ok now' a.
Proof. intros H [[V1 V2] [D1 D2]]. repeat split; lia. Qed.

Lemma books_later now now' m vds exps : now <= now' -> stake_books now m vds exps -> stake_books now' m vds exps.
Proof.
  intros H [B1 B2 B3 B4 B5 B6]. constructor; try done. intros i a Ha. destruct (B5 i a Ha) as [A1 A2 A3 A4 A5 A6]. constructor; try done. by eapply bars_later.
Qed.

(** An account that was just created. *)
Lemma books_create now m vds exps i a : stake_books now m vds exps -> m !! i = None -> delegated_vesting_shares a = 0 -> received_vesting_shares a = 0 -> vesting_shares a = 0 -> remaining a = 0 -> down_ok a -> bars_ok now a ->
  stake_books now (<[i := a]> m) vds exps.
Proof.
  intros [B1 B2 B3 B4 B5 B6] Hi D R V W O Bar.
  assert (forall j, is_Some (m !! j) -> is_Some (<[i := a]> m !! j)) as Hdom.
  { intros j Hj. destruct (decide (j = i)) as [->|]; [rewrite lookup_insert_eq; by eexists|by rewrite lookup_insert_ne by done]. }
  assert (forall d, d ∈ vds -> delegator d <> i /\ delegatee d <> i) as Hd.
  { intros d Hin. destruct (B3 (vkey d)) as [[x Hx] [y Hy]]; [by apply list_elem_of_fmap_2|]. cbn in Hx, Hy. split; intros <-; congruence. }
  constructor; try done.
  - intros k Hk. destruct (B3 k Hk). auto.
  - eapply Forall_impl; [exact B4|]. intros e [He1 He2]. split; [done|by apply Hdom].
  - intros j c Hj. destruct (decide (j = i)) as [->|Hji]; [|rewrite lookup_insert_ne in Hj by done; by apply B5]. rewrite lookup_insert_eq in Hj. injection Hj as <-. constructor; try done.
    + rewrite D. unfold out_sum, exp_sum. rewrite sumZ_zero, sumZ_zero; [done| |intros d Hin; by rewrite (proj2 (Z.eqb_neq _ _) (proj1 (Hd d Hin)))].
      intros e He. rewrite Forall_forall in B4. destruct (B4 e He) as [_ [x Hx]]. rewrite (proj2 (Z.eqb_neq _ _)); [done|]. intros <-. congruence.
    + rewrite R. unfold in_sum. symmetry. apply sumZ_zero. intros d Hin. by rewrite (proj2 (Z.eqb_neq _ _) (proj2 (Hd d Hin))).
    + lia.
    + lia.
  - unfold total_vests in *. rewrite (sumZ_perm _ _ _ (map_to_list_insert m i a Hi)), sumZ_cons. cbn. lia.
Qed.

(** ** Histories *)

(** What moves vesting shares: power ups, rewards, claims, the transfers of VESTS of the
    restricted accounts and the payouts of power downs, as Vesting.v models them.  The
    loop over the payouts is that of a block before the end of 32-bit time, with all
    shares together below [2 ^ 61]. *)
Inductive share_move {G : Type} `{VoteBook G} (v : vest_state G) : vest_state G -> Prop :=
  | sm_power_up from to x v' : transfer_to_vesting from to x v = Ok v' -> share_move v v'
  | sm_create i h reward v' rest new : create_vesting i h reward v = Ok (v', rest, new) -> share_move v v'
  | sm_claim i ch cb cv v' : amount_ok cv -> funds_ok (funds_of i v) -> claim_reward_balance i ch cb cv v = Ok v' -> share_move v v'
  | sm_transfer from to x v' : amount_ok x -> transfer_vests from to x v = Ok v' -> share_move v v'
  | sm_payouts v' : now v < max_time -> total_vests (stakes (Vesting.rc v)) < 2 ^ 61 -> process_vesting_withdrawals v = Some (Ok v') -> share_move v v'.

(** What happens to stakes.  Moves of shares happen beside the funds, delayed votes and
    votes of any state [v] with the same accounts and routes, and leave all shares
    together below [2 ^ 62].  Delegations of RC come from accounts that are not
    restricted (the restricted ones cannot use custom operations) and, as in RcInvariant.v,
    not while earlier ones have to be taken back. *)
Inductive stake_step (s : stake_state) : stake_state -> Prop :=
  | ss_delegate from to shares s' : from <> to -> 0 <= shares < 2 ^ 63 -> delegate_vesting_shares from to shares s = Ok s' -> stake_step s s'
  | ss_clear s' : clear_expired_delegations s = Ok s' -> stake_step s s'
  | ss_withdraw i shares s' : shares < 2 ^ 63 -> withdraw_vesting i shares s = Ok s' -> stake_step s s'
  | ss_route from to pct vest s' : 0 <= pct <= 10000 -> set_withdraw_vesting_route from to pct vest s = Ok s' -> stake_step s s'
  | ss_vesting (G : Type) (V : VoteBook G) (v v' : vest_state G) : Vesting.rc v = rc s -> routes v ≡ₚ withdraw_vesting_routes s -> downvote_percent v = downvote_pool_percent s ->
      share_move v v' -> total_vests (stakes (Vesting.rc v')) < 2 ^ 62 -> stake_step s (set_rc_state (Vesting.rc v') s)
  | ss_create i n adjustment a : accounts (rc s) !! i = None -> 0 <= adjustment < 2 ^ 63 -> new_account n (head_block_time (rc s)) 0 adjustment = Ok a ->
      stake_step s (set_rc_state (put_account i a (rc s)) s)
  | ss_rc_delegate from a max_rc delegatees r' : from ∉ delegatees -> 0 <= max_rc < 2 ^ 63 -> in_control (rc s) = true \/ has_expired_delegation from (rc s) = false ->
      accounts (rc s) !! from = Some a -> is_pixa_ico (name a) = false -> delegate_rc from max_rc delegatees (rc s) = Ok r' -> stake_step s (set_rc_state r' s)
  | ss_pay c payer cost r' privileged : 0 <= cost < 2 ^ 63 -> use_account_rcs c payer cost (rc s) = Ok (r', privileged) -> stake_step s (set_rc_state r' s)
  | ss_rc_expired r' : handle_expired_delegations (rc s) = Ok r' -> stake_step s (set_rc_state r' s)
  | ss_time t : head_block_time (rc s) <= t < 2 ^ 32 -> stake_step s (set_rc_state (set_time t (rc s)) s)
  | ss_control b : stake_step s (set_rc_state (set_control b (rc s)) s).

Definition stake_genesis (s : stake_state) : Prop :=
  rc_genesis (rc s) /\ vesting_delegations s = [] /\ vd_expirations s = [] /\ withdraw_vesting_routes s = [] /\ withdraw_routes s = ∅ /\ 0 <= downvote_pool_percent s <= 10000.
Inductive stake_reachable : stake_state -> Prop :=
  | sr_genesis s : stake_genesis s -> stake_reachable s
  | sr_step s s' : stake_reachable s -> stake_step s s' -> stake_reachable s'.

Record all_ok (s : stake_state) : Prop := {
  al_stake : stake_ok s;
  al_restricted : restricted_ok (rc s);
  al_routes : routes_ok s;
  al_sorted : StronglySorted exp_le (vd_expirations s);
  al_alerts : alerts (rc s) = 0
}.

(** An operation on RC alone. *)
Lemma rc_only s r' : all_ok s -> keeps (rc s) r' -> restricted_ok r' -> all_ok (set_rc_state r' s).
Proof.
  intros [[S1 S2 S3] T R Q A] (K1 & K2 & K3) T'. constructor; [|done|by apply (routes_frame s)|done|cbn; by rewrite (env_alerts _ _ K2)]. constructor; [done| |done]. cbn. rewrite K3, (env_time _ _ K2). done.
Qed.
Lemma fewer_restricted r r' : keeps r r' -> delegators r' ⊆ delegators r -> restricted_ok r -> restricted_ok r'.
Proof. intros (_ & _ & K) Hd. apply calm_restricted. by apply calm_same. Qed.

Lemma move_in_books {G : Type} (V : VoteBook G) vds exps (v v' : vest_state G) : stake_inv vds exps (Vesting.rc v) -> 0 <= downvote_percent v <= 10000 -> percents_ok (routes v) ->
  total_vests (stakes (Vesting.rc v')) < 2 ^ 62 -> share_move v v' -> in_books vds exps v v'.
Proof.
  intros I Hd Hr Ht H. destruct H as [from to x v' H|i h reward v' rest new H|i ch cb cv v' Hcv Hf H|from to x v' Hx H|v' Hn Hb H].
  - by eapply power_up_in_books.
  - by eapply create_in_books.
  - by eapply claim_in_books.
  - by eapply transfer_in_books.
  - by eapply payouts_in_books.
Qed.

Lemma vesting_ok {G : Type} (V : VoteBook G) s (v v' : vest_state G) : all_ok s -> Vesting.rc v = rc s -> routes v ≡ₚ withdraw_vesting_routes s -> downvote_percent v = downvote_pool_percent s ->
  share_move v v' -> total_vests (stakes (Vesting.rc v')) < 2 ^ 62 -> all_ok (set_rc_state (Vesting.rc v') s).
Proof.
  intros [[S1 S2 S3] T R Q A] E1 E2 E3 H Ht. destruct (move_in_books V (vesting_delegations s) (vd_expirations s) v v') as [[I1 I2 I3] Ie]; [by rewrite E1|by rewrite E3|unfold percents_ok; rewrite E2; apply R|done|done|].
  constructor; [by constructor|done|by apply (routes_frame s)|done|]. cbn. by rewrite (env_alerts _ _ Ie), E1.
Qed.

Lemma create_stake_ok s i n adjustment a : stake_ok s -> accounts (rc s) !! i = None -> 0 <= adjustment < 2 ^ 63 -> new_account n (head_block_time (rc s)) 0 adjustment = Ok a -> stake_ok (set_rc_state (put_account i a (rc s)) s).
Proof.
  intros [HR B Hp] Hi Hadj H. pose proof (rk_time _ _ (ok_books _ _ HR)) as Ht. pose proof (new_account_ok _ _ _ _ (proj1 Ht) Hadj H) as (O & T & Hd & Hr).
  constructor; [by apply created_rc_ok| |done]. cbn [rc set_rc_state]. rewrite stakes_put. change (head_block_time (put_account i a (rc s))) with (head_block_time (rc s)).
  assert (exists m l, a = set_rc m 0 0 l (mk_rca n 0 0 0 0 0 0 max_time (mk_manabar 0 (head_block_time (rc s))) (mk_manabar 0 (head_block_time (rc s))) (mk_manabar 0 0) adjustment 0 0 0)) as (m & l & ->).
  { unfold new_account in H. destruct (adjustment =? 0); [injection H as <-; by eexists _, _|]. apply bind_Ok in H as (mx & _ & H). injection H as <-. by eexists _, _. }
  apply books_create; try done; [unfold stakes; by rewrite lookup_fmap, Hi|split; split; cbn; lia].
Qed.

Lemma create_restricted r i n adjustment a : rc_ok r -> restricted_ok r -> accounts r !! i = None -> new_account n (head_block_time r) 0 adjustment = Ok a -> restricted_ok (put_account i a r).
Proof.
  intros HR R Hi H j x. rewrite stakes_put. destruct (decide (j = i)) as [->|Hne]; [|rewrite lookup_insert_ne by done; by apply R]. rewrite lookup_insert_eq. intros [= <-] _. split.
  - unfold new_account in H. destruct (adjustment =? 0); [by injection H as <-|]. apply bind_Ok in H as (m & _ & H). by injection H as <-.
  - intros (d & -> & Hd)%list_elem_of_fmap. destruct (rk_exist _ _ (ok_books _ _ HR) (key d)) as [[b Hb] _]; [by apply list_elem_of_fmap_2|]. cbn in Hb. congruence.
Qed.

Lemma clear_routes index y z : clear_expirations index y = Ok z -> withdraw_vesting_routes z = withdraw_vesting_routes y /\ withdraw_routes z = withdraw_routes y.
Proof.
  revert y. induction index as [|e index IH]; intros y Hz; cbn [clear_expirations] in Hz; [by injection Hz as <-|]. destruct (_ <? _); [|by injection Hz as <-].
  apply bind_Ok in Hz as (y1 & Hy & Hz). apply IH in Hz as [-> ->]. unfold return_delegation in Hy. cbv zeta in Hy. repeat (apply bind_Ok in Hy as (? & _ & Hy)). by injection Hy as <-.
Qed.

Lemma stake_step_ok s s' : all_ok s -> stake_step s s' -> all_ok s'.
Proof.
  intros A H. pose proof A as [S T R Q Al].
  destruct H as [from to sh x Hne Hsh H|x H|i sh x Hsh H|from to pct vest x Hp H|G V v v' E1 E2 E3 Hm Ht|i n adj a Hi Hadj H|from a m ds r' Hn Hm Hx Ha Hp H|c p cost r' pr Hc H|r' H|t Ht|b].
  - destruct (delegate_ok from to sh s x S Hne Hsh H) as (Sx & Env & _). destruct (delegate_frame _ _ _ _ _ H) as (F1 & F2 & F3).
    constructor; [done|by eapply calm_restricted; [eapply delegate_calm|]|by apply (routes_frame s)|destruct F3 as [->|[e ->]]; [done|by apply insert_expiration_sorted]|by rewrite (env_alerts _ _ Env)].
  - unfold clear_expired_delegations in H. destruct S as [S1 S2 S3]. destruct (clear_routes _ _ _ H) as [F1 F2]. pose proof (calm_restricted _ _ (clear_calm _ _ _ H) T) as T'.
    destruct (clear_expirations_ok _ s x S1 S2 S3 H) as (Sx & Env & _ & Ex & _). constructor; [done|done|by apply (routes_frame s)| |by rewrite (env_alerts _ _ Env)]. rewrite Ex. by apply drop_while_sorted.
  - destruct (withdraw_ok i sh s x S Hsh H) as (Sx & Env & Ex & _). constructor; [done|by eapply calm_restricted; [eapply withdraw_calm|]|apply (routes_frame s); [by rewrite Ex|by rewrite Ex|done]|by rewrite Ex|by rewrite (env_alerts _ _ Env)].
  - destruct (route_ok from to pct vest s x R Hp H) as (Rx & l & n & ->). constructor; try done. by destruct S.
  - by eapply (vesting_ok V).
  - constructor; [by eapply create_stake_ok|eapply create_restricted; [apply S|done..]|by apply (routes_frame s)|done|done].
  - pose proof (delegate_rc_ok _ _ _ _ _ (so_rc _ S) Hn Hm Hx H) as K. apply rc_only; [done|done|]. apply delegate_rc_delegators in H. destruct K as (_ & _ & K).
    intros i x Hi Hr. rewrite K in Hi. destruct (T i x Hi Hr) as [H1 H2]. split; [done|]. intros Hd. apply H in Hd. apply elem_of_cons in Hd as [->|Hd]; [|done].
    rewrite (stakes_lookup _ _ _ Ha) in Hi. injection Hi as <-. cbn in Hr. congruence.
  - pose proof (use_account_rcs_ok _ _ _ _ _ _ (so_rc _ S) Hc H) as K. apply rc_only; [done|done|]. apply (fewer_restricted _ _ K); [by rewrite (use_rcs_delegators _ _ _ _ _ _ H)|done].
  - unfold handle_expired_delegations in H. pose proof (continue_ok _ _ _ _ (so_rc _ S) eq_refl H) as K. apply rc_only; [done|done|]. apply (fewer_restricted _ _ K); [by eapply continue_delegators|done].
  - constructor; [|done|by apply (routes_frame s)|done|done]. destruct S as [S1 S2 S3]. constructor; [|cbn; by apply (books_later (head_block_time (rc s))); [lia|]|done].
    destruct (step_ok (rc s) (set_time t (rc s)) S1) as [K _]; [by apply step_time|done].
  - constructor; [|done|by apply (routes_frame s)|done|done]. destruct S as [S1 S2 S3]. constructor; [|done|done]. destruct (step_ok (rc s) (set_control b (rc s)) S1) as [K _]; [by apply step_control|done].
Qed.

Lemma stake_reachable_ok s : stake_reachable s -> all_ok s.
Proof.
  induction 1 as [s (G & E1 & E2 & E3 & E4 & Hp)|s s' _ IH H]; [|by eapply stake_step_ok].
  assert (rc_reachable (rc s)) as Hr by (by apply reach_genesis). apply reachable_ok in Hr as [HR Ha]. destruct G as (G & _). constructor; rewrite ?E2; try done; [|intros i x Hx; unfold stakes in Hx; rewrite G, fmap_empty, lookup_empty in Hx; done|constructor; rewrite ?E3; try done|by constructor].
  - constructor; [done| |done]. rewrite E1, E2. assert (stakes (rc s) = ∅) as -> by (unfold stakes; rewrite G; apply fmap_empty). constructor; try done; [by apply NoDup_nil|intros k Hk; by apply elem_of_nil in Hk].
  - by apply NoDup_nil.
  - intros i. unfold routes_of. rewrite E4, lookup_empty. done.
Qed.

(** ** Returning never fails *)

(** Accounts whose RC stay below [2 ^ 49] even with all they delegated. *)
Definition modest_stakes (r : rc_state) : Prop := forall i a, accounts r !! i = Some a -> maximum a + delegated_vesting_shares a < 2 ^ 49.

Lemma regenerate_total i r a : rc_ok r -> accounts r !! i = Some a -> maximum a < 2 ^ 49 -> exists m, last_update_time m = head_block_time r /\
  regenerate_rc_mana i r = Ok (put_account i (set_rc m (delegated_rc a) (received_rc a) (last_max_rc a) a) r).
Proof.
  intros [B _ HD] Ha Hm. pose proof (rk_account _ _ B i a Ha) as O. pose proof (HD i a ltac:(tauto) Ha) as T. pose proof (rk_time _ _ B) as Ht. unfold regenerate_rc_mana.
  rewrite (proj2 (account_found _ _ _) Ha). cbn [mbind result_bind]. rewrite (settled_value _ _ O T). cbn [mbind result_bind]. rewrite (proj2 (Z.eqb_eq _ _)) by (symmetry; exact T). cbn [mbind result_bind].
  pose proof O as [S A1 A2 A3 A4 A5 A6 A7]. destruct (regenerate_modest (mk_mparams (maximum a) HIVE_RC_REGEN_TIME) (rc_manabar a) (head_block_time r)) as (m & -> & Hlast & _); [cbn; unfold settled in T; lia|done|lia|lia|lia|]. by exists m.
Qed.

Lemma update_vote_mana_total dpp now n a : shares_ok a -> 0 <= effective a -> bars_ok now a -> 0 <= now < 2 ^ 32 -> 0 <= dpp <= 10000 -> exists a', update_vote_mana dpp now n a = Ok a'.
Proof.
  intros S He [[V1 V2] [D1 D2]] Hn Hdpp. pose proof (effective_range a S). unfold update_vote_mana. rewrite effective_value by done. cbn [mbind result_bind]. unfold update_manabar, HIVE_VOTING_MANA_REGENERATION_SECONDS.
  rewrite regenerate_mana_exact by (constructor; cbn; unfold in_s; lia). cbn [mbind result_bind]. destruct (dpp =? 0); [by eexists|].
  rewrite (uwrap_id 128 (effective a)), (uwrap_id 128) by (unfold in_u; nia). unfold HIVE_100_PERCENT.
  assert (0 <= effective a * dpp / 10000 < 2 ^ 63) as Hr by (split; [apply Z.div_pos; nia|apply Z.div_lt_upper_bound; nia]). rewrite uint128_to_int64_fits by done. cbn [mbind result_bind].
  rewrite regenerate_mana_exact by (constructor; cbn; unfold in_s; lia). cbn [mbind result_bind]. by eexists.
Qed.

Lemma vest_gain_total i r a a' : rc_ok r -> accounts r !! i = Some a -> last_update_time (rc_manabar a) = head_block_time r -> same_rc a a' -> shares_ok a' -> delegated_rc a' <= effective a' -> maximum a' < 2 ^ 63 ->
  exists b, update_account_after_vest_change i true false (put_account i a' r) = Ok (put_account i b r) /\ same_stake a' b /\ delegated_rc b = delegated_rc a' /\ received_rc b = received_rc a'.
Proof.
  intros [B _ _] Ha Ht (E1 & E2 & E3 & E4 & E5) S Hd Hm. pose proof (rk_account _ _ B i a Ha) as [S0 A1 A2 A3 A4 A5 A6 A7]. pose proof (effective_range a' S). rewrite vest_change_unfold.
  rewrite (proj2 (account_found i (put_account i a' r) a')) by (cbn; apply lookup_insert_eq). cbn [mbind result_bind]. unfold expect_regenerated. rewrite E1. cbn [head_block_time put_account set_accounts]. rewrite (proj2 (Z.eqb_eq _ _) Ht). cbn [mbind result_bind].
  unfold refresh. rewrite (proj2 (account_found i (put_account i a' r) a')) by (cbn; apply lookup_insert_eq). cbn [mbind result_bind].
  rewrite maximum_exact by (done || (unfold maximum, in_s in *; lia)). cbn [mbind result_bind]. destruct (_ =? _); [by exists a'|]. rewrite put_put. eexists. split; [done|]. split_and!; [apply set_rc_same|done|done].
Qed.

Lemma return_total e index s : rc_ok (rc s) -> stake_books (head_block_time (rc s)) (stakes (rc s)) (vesting_delegations s) (e :: index) -> 0 <= downvote_pool_percent s <= 10000 -> modest_stakes (rc s) ->
  exists s', return_delegation e s = Ok s' /\ modest_stakes (rc s').
Proof.
  intros HR B Hp HM. pose proof (vb_exps _ _ _ _ B) as F. apply Forall_cons in F as [[He [x Hx]] _]. apply stakes_Some in Hx as (a & Ha & _). destruct (books_of _ _ _ _ _ B Ha) as ([A1 A2 A3 A4 A5 A6] & Sa & Ea).
  pose proof (HM _ _ Ha) as Hm. pose proof Sa as [Z1 Z2 Z3 Z4 Z5 Z6 Z7]. pose proof (rk_time _ _ (ok_books _ _ HR)) as Ht. unfold return_delegation. cbv zeta.
  destruct (regenerate_total (vde_delegator e) (rc s) a HR Ha ltac:(lia)) as (m & Hm0 & Hreg). rewrite Hreg. cbn [mbind result_bind]. apply (regenerate_stakes _ _ _ HR) in Hreg as ((R1 & _) & _ & _).
  set (a1 := set_rc m _ _ _ a) in *. set (r1 := put_account _ a1 (rc s)) in *. assert (accounts r1 !! vde_delegator e = Some a1) as Ha1 by (cbn; apply lookup_insert_eq). rewrite (proj2 (account_found _ _ _) Ha1). cbn [mbind result_bind].
  destruct (update_vote_mana_total (downvote_pool_percent s) (head_block_time r1) (vde_shares e) a1) as [b Hb]; [by apply set_rc_shares|change (effective a1) with (effective a); lia|done|done|done|]. rewrite Hb. cbn [mbind result_bind].
  apply update_vote_mana_Ok in Hb as (v & d & -> & _ & _); [|by apply set_rc_shares|done|apply Ht|done]. cbn [delegated_vesting_shares vesting_shares received_vesting_shares set_vote_mana a1 set_rc].
  assert (exp_sum (vde_delegator e) (e :: index) = vde_shares e + exp_sum (vde_delegator e) index) as Hsum by (unfold exp_sum; rewrite sumZ_cons, Z.eqb_refl; done).
  pose proof (vb_exps _ _ _ _ B) as F. apply Forall_cons in F as [_ F]. assert (0 <= exp_sum (vde_delegator e) index) by (apply exp_sum_nonneg; eapply Forall_impl; [exact F|]; intros y [? _]; cbn; lia).
  pose proof (out_sum_nonneg (vde_delegator e) _ (vb_vds _ _ _ _ B)).
  rewrite safe_sub_exact by (unfold in_s; lia). cbn [mbind result_bind]. set (a' := set_shares _ _ _ _).
  pose proof (rk_account _ _ (ok_books _ _ HR) _ a Ha) as [_ _ Hdel _ _ _ _ _]. assert (effective a' = effective a + vde_shares e) as Eeff by (unfold a', effective, weekly; cbn; change (has_active_power_down (set_shares _ _ _ _)) with (has_active_power_down a); lia).
  assert (maximum a' = maximum a + vde_shares e) as Emax by (unfold maximum; rewrite Eeff; cbn; lia).
  destruct (vest_gain_total (vde_delegator e) r1 a1 a') as (b & Hb & Sb & Db & Rb); try done.
  { destruct Sa. constructor; cbn; try done; lia. } { change (delegated_rc a') with (delegated_rc a). lia. } { lia. }
  rewrite Hb. cbn [mbind result_bind]. eexists. split; [done|]. intros j c. cbn. destruct (decide (j = vde_delegator e)) as [->|Hj]; [rewrite lookup_insert_eq; intros [= <-]|rewrite !lookup_insert_ne by done; apply HM].
  assert (maximum b = maximum a') as -> by (unfold maximum; rewrite Db, Rb; do 2 f_equal; [f_equal; exact (f_equal effective Sb)|exact (f_equal rc_adjustment Sb)]).
  assert (delegated_vesting_shares b = delegated_vesting_shares a') as -> by (exact (f_equal delegated_vesting_shares Sb)). change (delegated_vesting_shares a') with (delegated_vesting_shares a - vde_shares e). lia.
Qed.

Lemma clear_total index s : rc_ok (rc s) -> stake_books (head_block_time (rc s)) (stakes (rc s)) (vesting_delegations s) index -> 0 <= downvote_pool_percent s <= 10000 -> modest_stakes (rc s) ->
  exists s', clear_expirations index s = Ok s'.
Proof.
  revert s. induction index as [|e index IH]; intros s HR B Hp HM; cbn [clear_expirations]; [by eexists|]. destruct (_ <? _); [|by eexists].
  destruct (return_total e index s HR B Hp HM) as (s1 & H1 & HM1). rewrite H1. cbn [mbind result_bind]. destruct (return_ok e index s s1 HR B Hp H1) as (R1 & E1 & B1 & n & Es).
  apply IH; try done; [by rewrite Es in B1 |- *|by rewrite Es].
Qed.

(** ** What delegating does *)

Lemma find_insert x y d l : (vkey d) ∉ vkey <$> l -> List.find (is_delegation x y) (insert_vd d l) = if is_delegation x y d then Some d else List.find (is_delegation x y) l.
Proof.
  intros Hn. induction l as [|z l IH]; cbn [insert_vd List.find]; [done|]. rewrite fmap_cons, not_elem_of_cons in Hn. destruct Hn as [Hz Hl]. destruct (delegation_before d z); cbn [List.find]; [done|].
  rewrite IH by done. destruct (is_delegation x y z) eqn:Ez, (is_delegation x y d) eqn:Ed; try done. apply is_delegation_true in Ez, Ed. congruence.
Qed.
Lemma find_map x y from to v l : List.find (is_delegation x y) ((fun d => if is_delegation from to d then mk_vd from to (min_delegation_time d) v else d) <$> l) =
  if (from =? x) && (to =? y) then (fun d => mk_vd from to (min_delegation_time d) v) <$> List.find (is_delegation x y) l else List.find (is_delegation x y) l.
Proof.
  induction l as [|d l IH]; [by destruct (_ && _)|]. rewrite fmap_cons. cbn [List.find]. rewrite IH. destruct (is_delegation from to d) eqn:E1.
  - apply is_delegation_true in E1. unfold vkey in E1. injection E1 as E1 E2.
    assert (is_delegation x y d = (from =? x) && (to =? y)) as -> by (unfold is_delegation; by rewrite E1, E2). change (is_delegation x y (mk_vd from to _ v)) with ((from =? x) && (to =? y)). by destruct ((from =? x) && (to =? y)).
  - destruct (is_delegation x y d) eqn:E2; [|done]. destruct ((from =? x) && (to =? y)) eqn:E3; [|done]. apply andb_true_iff in E3 as [E3 E4]. to_prop. subst. congruence.
Qed.
Lemma find_filter x y from to l : List.find (is_delegation x y) (filter (fun d => is_delegation from to d = false) l) = if (from =? x) && (to =? y) then None else List.find (is_delegation x y) l.
Proof.
  induction l as [|d l IH]; [by destruct (_ && _)|]. rewrite filter_cons. cbn [List.find]. destruct (is_delegation from to d) eqn:E1.
  - rewrite decide_False by done. rewrite IH. apply is_delegation_true in E1. unfold vkey in E1. injection E1 as E1 E2.
    assert (is_delegation x y d = (from =? x) && (to =? y)) as -> by (unfold is_delegation; by rewrite E1, E2). by destruct ((from =? x) && (to =? y)).
  - rewrite decide_True by done. cbn [List.find]. rewrite IH. destruct (is_delegation x y d) eqn:E2; [|done]. destruct ((from =? x) && (to =? y)) eqn:E3; [|done]. apply andb_true_iff in E3 as [E3 E4]. to_prop. subst. congruence.
Qed.

Lemma delegate_value from to shares s s' : 0 <= shares -> delegate_vesting_shares from to shares s = Ok s' ->
  delegated_to from to s' = shares /\ forall x y, (x, y) <> (from, to) -> find_vd x y s' = find_vd x y s.
Proof.
  intros Hsh H. unfold delegate_vesting_shares in H. cbv zeta in H. repeat (apply bind_Ok in H as (? & _ & H)). match type of H with (let '(_, _) := ?p in _) = _ => destruct p end.
  apply bind_Ok in H as (? & _ & H). apply bind_Ok in H as (? & _ & H). apply bind_Ok in H as (s1 & H1 & H). apply bind_Ok in H as (? & _ & H). apply bind_Ok in H as (? & _ & H). injection H as <-.
  assert (forall x y, (x, y) <> (from, to) -> (from =? x) && (to =? y) = false) as Hne by (intros p q Hxy; destruct (from =? p) eqn:E1, (to =? q) eqn:E2; to_prop; cbn; congruence).
  unfold delegated_to, find_vd in *. cbn [vesting_delegations set_rc_state]. destruct (List.find (is_delegation from to) (vesting_delegations s)) as [d|] eqn:Ef; [destruct (_ <=? _)|].
  - repeat (apply bind_Ok in H1 as (? & _ & H1)). injection H1 as <-. cbn [vesting_delegations set_vesting_delegations set_rc_state]. split; [rewrite find_map, Ef, !Z.eqb_refl; done|]. intros p q Hxy. by rewrite find_map, Hne.
  - repeat (apply bind_Ok in H1 as (? & _ & H1)). destruct (0 <? shares) eqn:E0; to_prop; [unfold set_vesting in H1; apply check_bind_Ok in H1 as [_ H1]|]; injection H1 as <-; cbn [vesting_delegations set_vesting_delegations set_rc_state set_expirations remove_vd].
    + split; [rewrite find_map, Ef, !Z.eqb_refl; done|]. intros p q Hxy. by rewrite find_map, Hne.
    + split; [rewrite find_filter, !Z.eqb_refl; cbn; lia|]. intros p q Hxy. by rewrite find_filter, Hne.
  - apply find_vd_None in Ef. repeat (apply bind_Ok in H1 as (? & _ & H1)). injection H1 as <-. cbn [vesting_delegations set_vesting_delegations set_rc_state].
    split; [rewrite find_insert by done; unfold is_delegation at 1; cbn; by rewrite !Z.eqb_refl|]. intros p q Hxy. rewrite find_insert by done. unfold is_delegation at 1. cbn. by rewrite Hne.
Qed.

(** ** Payouts of a power down *)

(** What is paid after [n] payouts of at most [rate] each. *)
Fixpoint paid (n : nat) (rate total : Z) : Z := match n with O => 0 | S n => let w := paid n rate total in w + Z.min rate (total - w) end.

Lemma paid_value n rate total : 0 <= rate -> 0 <= total -> paid n rate total = Z.min (Z.of_nat n * rate) total.
Proof. intros Hr Ht. induction n as [|n IH]; cbn [paid]; [lia|]. rewrite IH. lia. Qed.

(** ** The theorems *)

(** C12. In every history of delegations, power ups, rewards and claims, power downs with
    their routes and payouts, transfers of VESTS by the restricted accounts and operations
    on resource credits, for every account: what it delegated is what it delegates now plus
    what is on its way back, what it received is what others delegate to it, the shares it
    delegates or powers down are covered by the shares it owns, its effective stake is at
    least what it received, and its maximum of resource credits is the one remembered; no
    warning about resource credits was raised.  Resource credits are delegated neither by
    the restricted accounts, who cannot use custom operations, nor while earlier
    delegations still have to be taken back, which the code refuses only in control; all
    shares together stay below 2^62, below 2^61 where power downs are paid out. *)
Theorem stake_books_exact s : stake_reachable s -> alerts (rc s) = 0 /\ forall i a, accounts (rc s) !! i = Some a ->
  delegated_vesting_shares a = out_sum i (vesting_delegations s) + exp_sum i (vd_expirations s) /\ received_vesting_shares a = in_sum i (vesting_delegations s) /\
  delegated_vesting_shares a + remaining a <= vesting_shares a /\ received_vesting_shares a <= effective a /\ get_maximum_rc false a = Ok (last_max_rc a).
Proof.
  intros H. apply stake_reachable_ok in H as [[HR B Hp] _ _ _ Ha]. split; [done|]. intros i a E. destruct (books_of _ _ _ _ _ B E) as ([A1 A2 A3 A4 A5 A6] & Sa & Ea). split_and!; try done.
  pose proof (ok_settled _ _ HR i a ltac:(tauto) E) as T. by rewrite (settled_value _ _ (rk_account _ _ (ok_books _ _ HR) i a E) T), T.
Qed.

(** C35.  A delegation that is accepted sets exactly the delegation of the one account
    to the other and no other delegation, and what it adds is at most what the
    delegator owns and neither delegates already nor powers down: nobody delegates
    shares that were delegated to it. *)
Theorem delegation_of_own_shares s from to shares s' a : stake_reachable s -> from <> to -> 0 <= shares < 2 ^ 63 -> accounts (rc s) !! from = Some a ->
  delegate_vesting_shares from to shares s = Ok s' ->
  delegated_to from to s' = shares /\ (forall x y, (x, y) <> (from, to) -> find_vd x y s' = find_vd x y s) /\
  shares - delegated_to from to s <= vesting_shares a - delegated_vesting_shares a - remaining a.
Proof.
  intros HR Hne Hsh Ha H. apply stake_reachable_ok in HR as [S _ _ _ _]. destruct (delegate_ok from to shares s s' S Hne Hsh H) as (_ & _ & Hb). destruct (delegate_value from to shares s s' ltac:(lia) H) as [H1 H2].
  split_and!; [done|done|by apply Hb].
Qed.

(**  Shares taken back from a delegatee return to their owner: while the resource
    credits of the accounts are below [2 ^ 49], the clean-up of a block never fails,
    returns exactly the delegations whose time has passed, the oldest first, and
    leaves those accounts with what they still delegate. *)
Theorem expired_shares_return s : stake_reachable s -> modest_stakes (rc s) -> exists s', clear_expired_delegations s = Ok s' /\
  Forall (fun e => head_block_time (rc s) <= expiration e) (vd_expirations s') /\
  snd <$> returned s' = reverse (vde_shares <$> take_while (fun e => expiration e <? head_block_time (rc s)) (vd_expirations s)) ++ (snd <$> returned s) /\
  forall i a, accounts (rc s') !! i = Some a -> delegated_vesting_shares a = out_sum i (vesting_delegations s) + exp_sum i (vd_expirations s').
Proof.
  intros HR HM. apply stake_reachable_ok in HR as [[HR B Hp] _ _ HS _]. destruct (clear_total _ s HR B Hp HM) as [s' H]. destruct (clear_expirations_ok _ s s' HR B Hp H) as ([HR' B' _] & _ & Ev & Ex & Er).
  exists s'. split_and!; [done|rewrite Ex; by apply drop_while_sorted|done|]. intros i a E. destruct (books_of _ _ _ _ _ B' E) as ([A1 _ _ _ _ _] & _ & _). by rewrite A1, Ev.
Qed.

(**  A power down is of shares the account owns and does not delegate, starts a
    week later at a rate that is the thirteenth part rounded up, and thirteen
    payouts of that rate, the last of what is left, pay exactly what was asked. *)
Theorem power_down_in_13_payouts s i shares s' a : stake_reachable s -> 0 < shares < 2 ^ 63 -> accounts (rc s) !! i = Some a -> withdraw_vesting i shares s = Ok s' ->
  shares <= vesting_shares a - delegated_vesting_shares a /\
  exists b, accounts (rc s') !! i = Some b /\ to_withdraw b = shares /\ withdrawn b = 0 /\ next_vesting_withdrawal b = u32 (head_block_time (rc s) + HIVE_VESTING_WITHDRAW_INTERVAL_SECONDS) /\
    13 * (vesting_withdraw_rate b - 1) < shares /\ paid 13 (vesting_withdraw_rate b) shares = shares.
Proof.
  intros HR Hsh Ha H. apply stake_reachable_ok in HR as [S _ _ _ _]. destruct (withdraw_ok i shares s s' S ltac:(lia) H) as (_ & _ & _ & Hown & Hdown). destruct (Hdown ltac:(lia)) as (rate & a1 & Hrate & Hst). specialize (Hown a Ha).
  split; [done|]. destruct S as [HR B _]. destruct (books_of _ _ _ _ _ B Ha) as (_ & [S1 S2 S3 S4 S5 S6 S7] & _). destruct (withdraw_rate_value shares ltac:(lia)) as (rate2 & E & Hpos & Hceil). rewrite Hrate in E. injection E as <-.
  assert (stakes (rc s') !! i = Some (erase (set_power_down rate shares 0 (u32 (head_block_time (rc s) + HIVE_VESTING_WITHDRAW_INTERVAL_SECONDS)) a1))) as Hl by (rewrite Hst; apply lookup_insert_eq).
  apply stakes_Some in Hl as (b & Hb & Eb). exists b. split; [done|]. pose proof (f_equal to_withdraw Eb) as E1. pose proof (f_equal withdrawn Eb) as E2. pose proof (f_equal next_vesting_withdrawal Eb) as E3. pose proof (f_equal vesting_withdraw_rate Eb) as E4.
  cbn in E1, E2, E3, E4. rewrite <- E1, <- E2, <- E3, <- E4. split_and!; try done; [lia|]. rewrite paid_value by lia. lia.
Qed.

(** C39.  The routes of a power down never promise more than all of it: an account has
    at most ten of them, one for each destination, each of a positive percentage, and
    together they are at most 100 percent, so the 16-bit sum the code compares does
    not wrap. *)
Theorem routes_within_percent s i : stake_reachable s -> total_percent i (withdraw_vesting_routes s) = pct_sum i (withdraw_vesting_routes s) /\ pct_sum i (withdraw_vesting_routes s) <= 10000 /\
  routes_of i s = route_count i (withdraw_vesting_routes s) /\ routes_of i s <= HIVE_MAX_WITHDRAW_ROUTES /\
  NoDup (rkey <$> withdraw_vesting_routes s) /\ Forall (fun x => 0 < percent x) (withdraw_vesting_routes s).
Proof.
  intros H. apply stake_reachable_ok in H as [_ _ [R1 R2 R3 R4] _ _]. specialize (R3 i). destruct (R4 i) as [R5 R6]. split_and!; try done; [apply total_percent_exact; [done|lia]|].
  eapply Forall_impl; [exact R1|]. cbn. lia.
Qed.
End history.

(** ** A sample history *)

Module Sample.
#[local] Existing Instance fc_ref.
#[local] Existing Instance fc_ref_laws.

Definition or_else (r : result stake_state) (s : stake_state) : stake_state := match r with Ok s' => s' | Throw _ => s end.
Definition rc_else (r : result rc_state) (s : rc_state) : rc_state := match r with Ok s' => s' | Throw _ => s end.
Definition account_of (i : Z) (r : rc_state) : account := match accounts r !! i with Some a => a | None => mk_rca EmptyString 0 0 0 0 0 0 0 (mk_manabar 0 0) (mk_manabar 0 0) (mk_manabar 0 0) 0 0 0 0 end.
Definition create (i : Z) (n : string) (s : stake_state) : stake_state :=
  match new_account n (head_block_time (rc s)) 0 500 with Ok a => set_rc_state (put_account i a (rc s)) s | Throw _ => s end.
#[local] Instance no_book : VoteBook unit := fun _ _ b => Ok b.
(** The stakes beside an empty fund and accounts without other funds. *)
Definition beside (s : stake_state) (g : vesting_fund) : vest_state unit :=
  mk_vs (rc s) ∅ g (withdraw_vesting_routes s) [(0, mk_votes [] 0); (1, mk_votes [] 0); (2, mk_votes [] 0)] tt (downvote_pool_percent s).
Definition created (i h : Z) (s : stake_state) : vest_state unit :=
  match create_vesting i h false (beside s (mk_vf 0 0 0 0)) with Ok (v, _, _) => v | Throw _ => beside s (mk_vf 0 0 0 0) end.
Definition power_up (i h : Z) (s : stake_state) : stake_state := set_rc_state (Vesting.rc (created i h s)) s.
Definition paid_out (s : stake_state) : vest_state unit :=
  match process_vesting_withdrawals (beside s (mk_vf 20 20000 0 0)) with Some (Ok v) => v | _ => beside s (mk_vf 20 20000 0 0) end.
Definition wait (t : Z) (s : stake_state) : stake_state := set_rc_state (set_time (head_block_time (rc s) + t) (rc s)) s.

(** Alice powers up 20 HIVE to 20000 shares, delegates 5000 to Bob, reduces that to 2000,
    starts a power down of 13000 and routes half of it to Carol; a while passes, and after
    a week the first 1000 are paid out. *)
Definition h0 : stake_state :=
  mk_stake (mk_rcs ∅ [] [] 1700000000 true false 200 (mk_tiny 3000) (mk_tprice (mk_tiny 1000) (mk_tiny 1000)) 0) [] [] [] ∅ 2500 432000 [].
Definition h3 : stake_state := create 2 "carol" (create 1 "bob" (create 0 "alice" h0)).
Definition h4 : stake_state := power_up 0 20 h3.
Definition h5 : stake_state := wait 432000 h4.
Definition h6 : stake_state := or_else (delegate_vesting_shares 0 1 5000 h5) h5.
Definition h7 : stake_state := or_else (delegate_vesting_shares 0 1 2000 h6) h6.
Definition h8 : stake_state := or_else (withdraw_vesting 0 13000 h7) h7.
Definition h9 : stake_state := or_else (set_withdraw_vesting_route 0 2 5000 true h8) h8.
Definition h10 : stake_state := wait 432001 h9.
Definition h11 : stake_state := wait 172799 h10.
Definition h12 : stake_state := set_rc_state (Vesting.rc (paid_out h11)) h11.

Lemma h5_reachable : stake_reachable h5.
Proof.
  assert (stake_reachable h3) as H3.
  { eapply sr_step; [eapply sr_step; [eapply sr_step; [apply (sr_genesis h0); split; [by split_and!|by split_and!]|apply (ss_create h0 0 "alice" 500); done]|]|].
    - apply (ss_create _ 1 "bob" 500); [vm_compute|..]; done.
    - apply (ss_create _ 2 "carol" 500); [vm_compute|..]; done. }
  assert (stake_reachable h4) as H4.
  { eapply sr_step; [exact H3|]. apply (ss_vesting h3 unit no_book (beside h3 (mk_vf 0 0 0 0)) (created 0 20 h3)); [done|done|done| |vm_compute; done].
    eapply (sm_create _ 0 20 false). vm_compute. reflexivity. }
  eapply sr_step; [exact H4|]. apply ss_time. vm_compute. done.
Qed.
Lemma h7_reachable : stake_reachable h7.
Proof.
  eapply sr_step; [eapply sr_step; [exact h5_reachable|]|].
  - apply (ss_delegate h5 0 1 5000 h6); [lia|lia|vm_compute; done].
  - apply (ss_delegate h6 0 1 2000 h7); [lia|lia|vm_compute; done].
Qed.
Lemma h10_reachable : stake_reachable h10.
Proof.
  eapply sr_step; [eapply sr_step; [eapply sr_step; [exact h7_reachable|]|]|].
  - apply (ss_withdraw h7 0 13000 h8); [lia|vm_compute; done].
  - apply (ss_route h8 0 2 5000 true h9); [lia|vm_compute; done].
  - apply ss_time. vm_compute. done.
Qed.

Lemma h12_reachable : stake_reachable h12.
Proof.
  assert (stake_reachable h11) as H11 by (eapply sr_step; [exact h10_reachable|]; apply ss_time; vm_compute; done).
  eapply sr_step; [exact H11|]. apply (ss_vesting h11 unit no_book (beside h11 (mk_vf 20 20000 0 0)) (paid_out h11)); [done|done|done| |vm_compute; done].
  apply sm_payouts; [vm_compute; done|vm_compute; done|]. vm_compute. reflexivity.
Qed.
Example first_payout : (vesting_shares (account_of 0 (rc h12)), vesting_shares (account_of 2 (rc h12)), remaining (account_of 0 (rc h12))) = (19000, 500, 12000).
Proof. vm_compute. reflexivity. Qed.

(** Alice still counts the 3000 shares that are on their way back. *)
Lemma stake_books_exact_witness : alerts (rc h12) = 0 /\ delegated_vesting_shares (account_of 0 (rc h12)) = 5000 /\ exp_sum 0 (vd_expirations h12) = 3000.
Proof. split; [exact (proj1 (stake_books_exact h12 h12_reachable))|]. split; vm_compute; reflexivity. Defined.

Lemma delegation_of_own_shares_witness : delegated_to 0 1 h6 = 5000.
Proof.
  refine (proj1 (delegation_of_own_shares h5 0 1 5000 h6 (account_of 0 (rc h5)) h5_reachable _ _ _ _)); [lia|lia|vm_compute; reflexivity|vm_compute; reflexivity].
Defined.

Lemma expired_shares_return_witness : exists s', clear_expired_delegations h10 = Ok s' /\ snd <$> returned s' = [3000].
Proof.
  destruct (expired_shares_return h10 h10_reachable) as (s' & H1 & _ & H2 & _).
  - change (map_Forall (fun _ a => maximum a + delegated_vesting_shares a < 2 ^ 49) (accounts (rc h10))). apply (bool_decide_unpack _). vm_compute. exact I.
  - exists s'. split; [exact H1|]. rewrite H2. vm_compute. reflexivity.
Defined.

Lemma power_down_in_13_payouts_witness : exists b, accounts (rc h8) !! 0 = Some b /\ paid 13 (vesting_withdraw_rate b) 13000 = 13000.
Proof.
  destruct (power_down_in_13_payouts h7 0 13000 h8 (account_of 0 (rc h7)) h7_reachable) as (_ & b & Hb & _ & _ & _ & _ & Hp); [lia|vm_compute; reflexivity|vm_compute; reflexivity|]. exists b. split; [exact Hb|exact Hp].
Defined.

Lemma routes_within_percent_witness : pct_sum 0 (withdraw_vesting_routes h10) = 5000 /\ routes_of 0 h10 <= 10.
Proof. split; [vm_compute; reflexivity|]. exact (proj1 (proj2 (proj2 (proj2 (routes_within_percent h10 0 h10_reachable))))). Defined.
End Sample.
