(* ===== verification/Proposals.v ===== *)
(** * The decentralised fund and its proposals

    Models libraries/chain/dhf_evaluator.cpp (creating, updating, voting for and
    removing proposals), util/dhf_processor.cpp (what a block does with them: removal in
    portions, the conversion of the treasury's HIVE, the payments of a maintenance
    period), util/dhf_helper.cpp and util/dhf_funding.hpp.

    Funds are those of the ledger, voters and their votes those of Governance.v; a
    proposal is referred to by its [proposal_id].  The operations are the records of
    Operations.v.  Hardforks up to 28 are active, the rules of hardforks 30 and 31
    depend on the hardfork of the ledger.  Comments are represented by the authors and
    permlinks that exist. *)

From stdpp Require Import base numbers strings option list sorting gmap.
From S2P Require Import Prelude Fc Config AssetSymbol Asset Balance Market Resources Operations Governance Ledger Transfers.
Open Scope Z_scope.

(** ** State *)

Record proposal_object : Set := mk_proposal {
  proposal_id : Z;
  creator : string;
  receiver : string;
  start_date : Z;
  end_date : Z;
  daily_pay : asset;
  subject : string;
  permlink : string;
  total_votes : Z;
  removed : bool
}.
Definition set_total_votes x p := mk_proposal (proposal_id p) (creator p) (receiver p) (start_date p) (end_date p) (daily_pay p)
  (subject p) (permlink p) x (removed p).
Definition set_removed date p := mk_proposal (proposal_id p) (creator p) (receiver p) (start_date p) date (daily_pay p)
  (subject p) (permlink p) (total_votes p) true.
Definition set_terms pay subj link date p := mk_proposal (proposal_id p) (creator p) (receiver p) (start_date p) date pay
  subj link (total_votes p) (removed p).
Definition get_end_date_with_delay (p : proposal_object) : Z := u32 (end_date p + HIVE_PROPOSAL_MAINTENANCE_CLEANUP).

(** [proposals] is the index [by_proposal_id]; the times and the interval ledger are
    fields of [dynamic_global_property_object]. *)
Record dhf_state : Type := mk_dhf {
  led : ledger;
  gv : gov;
  proposals : gmap Z proposal_object;
  next_proposal : Z;
  next_maintenance_time : Z;
  last_budget_time : Z;
  next_daily_maintenance_time : Z;
  dhf_interval_ledger : asset;
  comments : gset (string * string)
}.
Definition set_led x s := mk_dhf x (gv s) (proposals s) (next_proposal s) (next_maintenance_time s) (last_budget_time s)
  (next_daily_maintenance_time s) (dhf_interval_ledger s) (comments s).
Definition set_gv x s := mk_dhf (led s) x (proposals s) (next_proposal s) (next_maintenance_time s) (last_budget_time s)
  (next_daily_maintenance_time s) (dhf_interval_ledger s) (comments s).
Definition set_proposals x s := mk_dhf (led s) (gv s) x (next_proposal s) (next_maintenance_time s) (last_budget_time s)
  (next_daily_maintenance_time s) (dhf_interval_ledger s) (comments s).
Definition set_next_proposal x s := mk_dhf (led s) (gv s) (proposals s) x (next_maintenance_time s) (last_budget_time s)
  (next_daily_maintenance_time s) (dhf_interval_ledger s) (comments s).
(** [set_next_maintenance_time] and [set_next_daily_maintenance_time] *)
Definition set_next_maintenance_time t period s := mk_dhf (led s) (gv s) (proposals s) (next_proposal s) (u32 (t + period)) t
  (next_daily_maintenance_time s) (dhf_interval_ledger s) (comments s).
Definition set_next_daily_maintenance_time t period s := mk_dhf (led s) (gv s) (proposals s) (next_proposal s)
  (next_maintenance_time s) (last_budget_time s) (u32 (t + period)) (dhf_interval_ledger s) (comments s).
Definition set_interval_ledger x s := mk_dhf (led s) (gv s) (proposals s) (next_proposal s) (next_maintenance_time s)
  (last_budget_time s) (next_daily_maintenance_time s) x (comments s).

Definition votes (s : dhf_state) : list (string * Z) := proposal_votes (gv s).
Definition set_pvotes x s := set_gv (set_proposal_votes x (gv s)) s.

Definition modify_proposal (i : Z) (f : proposal_object -> proposal_object) (s : dhf_state) : dhf_state :=
  set_proposals (alter f i (proposals s)) s.

(** Votes in the order of [by_voter_proposal]. *)
Definition pvote_before (x y : string * Z) : bool :=
  String.ltb x.1 y.1 || (bool_decide (x.1 = y.1) && (x.2 <? y.2)).
Fixpoint insert_pvote (v : string * Z) (l : list (string * Z)) : list (string * Z) :=
  match l with
  | [] => [v]
  | x :: l' => if pvote_before v x then v :: l else x :: insert_pvote v l'
  end.

(** The indices [by_start_date] and [by_end_date]. *)
Definition start_le (p q : proposal_object) : Prop :=
  start_date p < start_date q \/ (start_date p = start_date q /\ proposal_id p <= proposal_id q).
#[global] Instance start_le_dec : RelDecision start_le.
Proof. intros p q. unfold start_le. apply _. Defined.
Definition end_le (p q : proposal_object) : Prop :=
  get_end_date_with_delay p < get_end_date_with_delay q \/
  (get_end_date_with_delay p = get_end_date_with_delay q /\ proposal_id p <= proposal_id q).
#[global] Instance end_le_dec : RelDecision end_le.
Proof. intros p q. unfold end_le. apply _. Defined.
Definition by_start_date (s : dhf_state) : list proposal_object := merge_sort start_le (map_to_list (proposals s)).*2.
Definition by_end_date (s : dhf_state) : list proposal_object := merge_sort end_le (map_to_list (proposals s)).*2.

(** ** Removal, in portions *)

(** [dhf_helper::remove_proposal_votes] of a proposal: the votes left, whether all of
    the proposal's were removed, and the limit left. *)
Fixpoint remove_votes_for (pid : Z) (limit : Z) (l : list (string * Z)) : list (string * Z) * bool * Z :=
  match l with
  | [] => ([], true, limit)
  | v :: l' =>
      if v.2 =? pid then
        let '(ok, limit) := guard_step limit in
        if ok then remove_votes_for pid limit l' else (l, false, limit)
      else let '(l', done, limit) := remove_votes_for pid limit l' in (v :: l', done, limit)
  end.

(** [dhf_helper::remove_proposal] *)
Definition remove_proposal_object (pid limit : Z) (s : dhf_state) : dhf_state * bool * Z :=
  let '(l, _, limit) := remove_votes_for pid limit (votes s) in
  let s := set_pvotes l s in
  let '(ok, limit) := guard_step limit in
  (if ok then set_proposals (delete pid (proposals s)) s else s, ok, limit).

Fixpoint remove_due (due : list proposal_object) (limit : Z) (s : dhf_state) : dhf_state :=
  match due with
  | [] => s
  | p :: due =>
      let '(s, limit) := if removed p then let '(s, _, limit) := remove_proposal_object (proposal_id p) limit s in (s, limit)
                         else (s, limit) in
      if guard_done limit then s else remove_due due limit s
  end.

(** [dhf_processor::remove_proposals] *)
Definition remove_proposals (head_time : Z) (s : dhf_state) : dhf_state :=
  remove_due (take_while (fun p => get_end_date_with_delay p <=? head_time) (by_end_date s)) (remove_threshold (gv s)) s.

Section dhf.
Context `{L : FcLib}.

Definition treasury : string := NEW_HIVE_TREASURY_ACCOUNT.
Definition dhf_time (s : dhf_state) : Z := head_block_time (led s).

(** ** Evaluators *)

Definition proposal_fee (o : create_proposal_operation.t) : result asset :=
  let fee := mk_asset HIVE_TREASURY_FEE HBD_SYMBOL in
  let proposal_run_time := u32 (create_proposal_operation.end_date o - create_proposal_operation.start_date o) in
  if HIVE_PROPOSAL_FEE_INCREASE_DAYS_SEC <? proposal_run_time then
    let extra_days := u32 (proposal_run_time / HIVE_ONE_DAY_SECONDS - HIVE_PROPOSAL_FEE_INCREASE_DAYS) in
    asset_add fee (mk_asset (share_of_u64 (u64 (HIVE_PROPOSAL_FEE_INCREASE_AMOUNT * extra_days))) HBD_SYMBOL)
  else Ok fee.

Definition permlink_exists (author1 author2 link : string) (s : dhf_state) : bool :=
  bool_decide ((author1, link) ∈ comments s) || bool_decide ((author2, link) ∈ comments s).

Definition create_proposal (o : create_proposal_operation.t) (s : dhf_state) : result dhf_state :=
  let owner := create_proposal_operation.creator o in
  let to := create_proposal_operation.receiver o in
  _ ← check (dhf_time s <? create_proposal_operation.end_date o) AssertTime;
  fee_hbd ← proposal_fee o;
  _ ← get_account treasury (led s);
  _ ← get_account owner (led s);
  _ ← check (bool_decide (is_Some (accounts (led s) !! to))) AssertState;
  _ ← check (permlink_exists owner to (create_proposal_operation.permlink o) s) AssertState;
  let pid := u32 (next_proposal s) in
  pay ← as_typed HBD_SYMBOL (create_proposal_operation.daily_pay o);
  _ ← check (bool_decide (proposals s !! pid = None)) UniqueViolation;
  let p := mk_proposal pid owner to (create_proposal_operation.start_date o) (create_proposal_operation.end_date o) pay
             (create_proposal_operation.subject o) (create_proposal_operation.permlink o) 0 false in
  let s := set_next_proposal (next_proposal s + 1) (set_proposals (<[pid := p]> (proposals s)) s) in
  '(l, fee) ← withdraw_liquid owner HBD_SYMBOL fee_hbd (led s);
  '(l, fee) ← adjust_liquid treasury fee fee_hbd l;
  _ ← destroy_temp fee;
  Ok (set_led (push_vop (proposal_fee_operation owner treasury pid fee_hbd) l) s).

(** The end date the extension of an update asks for. *)
Definition new_end_date (p : proposal_object) (extensions : list update_proposal_operation.extension) : result Z :=
  match extensions with
  | [] => Ok (end_date p)
  | [update_proposal_operation.update_proposal_end_date d] =>
      _ ← check (d <=? end_date p) AssertTime;
      _ ← check (start_date p <? d) AssertTime;
      Ok d
  | [update_proposal_operation.void_t] => Throw AssertFc
  | _ => Throw AssertLimit
  end.

Definition update_proposal (o : update_proposal_operation.t) (s : dhf_state) : result dhf_state :=
  match proposals s !! u32 (update_proposal_operation.proposal_id o) with
  | None => Throw AssertFc
  | Some p =>
      _ ← check (bool_decide (update_proposal_operation.creator o = creator p)) AssertPermission;
      _ ← check (permlink_exists (creator p) (receiver p) (update_proposal_operation.permlink o) s) AssertState;
      pay ← as_typed HBD_SYMBOL (update_proposal_operation.daily_pay o);
      _ ← check (amount pay <=? amount (daily_pay p)) AssertLimit;
      d ← new_end_date p (update_proposal_operation.extensions o);
      Ok (modify_proposal (proposal_id p)
            (set_terms pay (update_proposal_operation.subject o) (update_proposal_operation.permlink o) d) s)
  end.

(** The ids of an operation are 64 bits wide: a proposal is found by the low 32 bits,
    a vote by all of them. *)
Definition ids_of (ids : gset Z) : list Z := merge_sort Z.le (elements ids).

Definition vote_for (voter : string) (approve : bool) (s : dhf_state) (pid : Z) : result dhf_state :=
  match proposals s !! u32 pid with
  | None => Throw AssertState
  | Some p =>
      _ ← check (negb (removed p)) AssertState;
      _ ← check (dhf_time s <=? end_date p) AssertTime;
      if approve then
        if bool_decide ((voter, pid) ∈ votes s) then Ok s
        else
          _ ← check (bool_decide ((voter, u32 pid) ∉ votes s)) UniqueViolation;
          Ok (set_pvotes (insert_pvote (voter, u32 pid) (votes s)) s)
      else Ok (set_pvotes (filter (fun x => x <> (voter, pid)) (votes s)) s)
  end.

Definition update_proposal_votes (o : update_proposal_votes_operation.t) (s : dhf_state) : result dhf_state :=
  let voter := update_proposal_votes_operation.voter o in
  a ← Governance.get_account voter (gv s);
  _ ← check (can_vote a) AssertVoting;
  let s := set_gv (Governance.modify_account voter (update_governance_vote_expiration_ts (dhf_time s)) (gv s)) s in
  foldM (vote_for voter (update_proposal_votes_operation.approve o)) s (ids_of (update_proposal_votes_operation.proposal_ids o)).

(** The loop of [remove_proposal_evaluator] with what is left of the limit. *)
Definition remove_one (owner : string) (st : dhf_state * Z) (pid : Z) : result (dhf_state * Z) :=
  let '(s, limit) := st in
  match proposals s !! u32 pid with
  | None => Throw AssertFc
  | Some p =>
      let hf31 := has_hardfork 31 (led s) in
      _ ← check (negb hf31 || negb (removed p)) AssertFc;
      _ ← check (negb (hf31 || negb (guard_done limit)) || bool_decide (creator p = owner)) AssertFc;
      let '(s, ok, limit) := remove_proposal_object (proposal_id p) limit s in
      Ok (if negb ok && negb (removed p)
          then modify_proposal (proposal_id p) (set_removed (u32 (dhf_time s - HIVE_PROPOSAL_MAINTENANCE_CLEANUP))) s else s, limit)
  end.

Definition remove_proposal (o : remove_proposal_operation.t) (s : dhf_state) : result dhf_state :=
  st ← foldM (remove_one (remove_proposal_operation.proposal_owner o)) (s, remove_threshold (gv s))
         (ids_of (remove_proposal_operation.proposal_ids o));
  Ok st.1.

(** ** What a block does *)

Definition is_maintenance_period (head_time : Z) (s : dhf_state) : bool := next_maintenance_time s <=? head_time.
Definition is_daily_maintenance_period (head_time : Z) (s : dhf_state) : bool := next_daily_maintenance_time s <=? head_time.

(** The ids of the proposals that are paid now, and of those that start later. *)
Definition is_active (head_time : Z) (p : proposal_object) : bool := (start_date p <=? head_time) && (head_time <=? end_date p).
Definition find_proposals (head_time : Z) (s : dhf_state) : list Z * list Z :=
  let idx := by_start_date s in
  (proposal_id <$> List.filter (is_active head_time) (List.filter (fun p => start_date p <=? head_time) idx),
   proposal_id <$> List.filter (fun p => negb (start_date p <=? head_time)) idx).

(** A voter with a proxy does not count. *)
Definition add_voter (s : dhf_state) (ret : Z) (voter : string) : result Z :=
  a ← Governance.get_account voter (gv s);
  if has_proxy a then Ok ret else p ← get_governance_vote_power a; Ok (u64 (ret + p)).
Definition voters_of (pid : Z) (s : dhf_state) : list string := fst <$> filter (fun v => v.2 = pid) (votes s).
Definition calculate_votes (pid : Z) (s : dhf_state) : result Z := foldM (add_voter s) 0 (voters_of pid s).
Definition tally_votes (s : dhf_state) (pid : Z) : result dhf_state :=
  n ← calculate_votes pid s; Ok (modify_proposal pid (set_total_votes n) s).

(** More votes first, older proposals first among equals. *)
Definition votes_le (p q : proposal_object) : Prop :=
  total_votes q < total_votes p \/ (total_votes p = total_votes q /\ proposal_id p <= proposal_id q).
#[global] Instance votes_le_dec : RelDecision votes_le.
Proof. intros p q. unfold votes_le. apply _. Defined.
Definition sort_by_votes (ids : list Z) (s : dhf_state) : list proposal_object :=
  merge_sort votes_le (omap (fun i => proposals s !! i) ids).

Definition total_amount_divider : Z := 100.
Definition daily_seconds : Z := 86400.

Definition calculate_maintenance_budget (head_time : Z) (s : dhf_state) : result asset :=
  a ← get_account treasury (led s);
  let passed_time_seconds := u32 (head_time - last_budget_time s) in
  let daily_budget_limit := Z.quot (amount (hbd_balance (liquid a))) total_amount_divider in
  x ← uint128_to_uint64 (u128 (passed_time_seconds * u128 daily_budget_limit) / daily_seconds);
  Ok (mk_asset (i64 x) HBD_SYMBOL).

(** What is due to a proposal [elapsed] seconds after its start. *)
Definition due_after (p : proposal_object) (elapsed : Z) : result Z :=
  uint128_to_uint64 (u128 (elapsed * u64 (amount (daily_pay p))) / daily_seconds).

Definition period_pay (head_time : Z) (p : proposal_object) (s : dhf_state) : result asset :=
  if has_hardfork 30 (led s) then
    let from := Z.max (last_budget_time s) (start_date p) in
    let elapsed_now := if start_date p <? head_time then head_time - start_date p else 0 in
    let elapsed_prev := if start_date p <? from then from - start_date p else 0 in
    paid_now ← due_after p elapsed_now;
    paid_prev ← due_after p elapsed_prev;
    Ok (mk_asset (if paid_prev <? paid_now then i64 (paid_now - paid_prev) else 0) HBD_SYMBOL)
  else
    m ← safe_mul (u32 (head_time - last_budget_time s)) (amount (daily_pay p));
    Ok (mk_asset (Z.quot m daily_seconds) HBD_SYMBOL).

Definition pay_proposal (p : proposal_object) (payment : asset) (l : ledger) : result ledger :=
  _ ← get_account (receiver p) l;
  let l := push_vop (proposal_pay_operation (proposal_id p) (receiver p) treasury payment) l in
  '(l, transfer) ← withdraw_liquid treasury HBD_SYMBOL payment l;
  '(l, transfer) ← adjust_liquid (receiver p) transfer payment l;
  _ ← destroy_temp transfer;
  Ok l.

Fixpoint pay_in_order (head_time : Z) (limit : asset) (ps : list proposal_object) (s : dhf_state) : result dhf_state :=
  match ps with
  | [] => Ok s
  | p :: ps =>
      if total_votes p =? 0 then Ok s
      else
        pay ← period_pay head_time p s;
        if amount limit <=? amount pay then l ← pay_proposal p limit (led s); Ok (set_led l s)
        else
          l ← pay_proposal p pay (led s);
          limit ← asset_sub limit pay;
          pay_in_order head_time limit ps (set_led l s)
  end.

Definition transfer_payments (head_time : Z) (limit : asset) (ps : list proposal_object) (s : dhf_state) : result dhf_state :=
  if amount limit =? 0 then Ok s
  else _ ← get_account treasury (led s); pay_in_order head_time limit ps s.

Definition update_settings (head_time : Z) (s : dhf_state) : dhf_state :=
  set_next_maintenance_time head_time HIVE_PROPOSAL_MAINTENANCE_PERIOD s.

Definition make_payments (head_time : Z) (s : dhf_state) : result dhf_state :=
  if negb (is_maintenance_period head_time s) then Ok s
  else
    let '(active, later) := find_proposals head_time s in
    match active with
    | [] => s ← foldM tally_votes s later; Ok (update_settings head_time s)
    | _ =>
        s ← foldM tally_votes s active;
        s ← foldM tally_votes s later;
        let ps := sort_by_votes active s in
        limit ← calculate_maintenance_budget head_time s;
        s ← transfer_payments head_time limit ps s;
        Ok (update_settings head_time s)
    end.

Definition record_funding (head_time : Z) (s : dhf_state) : dhf_state :=
  if negb (is_maintenance_period head_time s) then s
  else if amount (dhf_interval_ledger s) <=? 0 then s
  else set_interval_ledger (balance_zero HBD_SYMBOL)
         (set_led (push_vop (dhf_funding_operation treasury (dhf_interval_ledger s)) (led s)) s).

Definition convert_funds (head_time : Z) (s : dhf_state) : result dhf_state :=
  if negb (is_daily_maintenance_period head_time s) then Ok s
  else
    let s := set_next_daily_maintenance_time head_time HIVE_DAILY_PROPOSAL_MAINTENANCE_PERIOD s in
    a ← get_account treasury (led s);
    if amount (hive_balance (liquid a)) =? 0 then Ok s
    else
      m ← safe_mul (amount (hive_balance (liquid a))) HIVE_PROPOSAL_CONVERSION_RATE;
      let to_convert := mk_asset (Z.quot m HIVE_100_PERCENT) HIVE_SYMBOL in
      let exchange_rate := get_hbd_price (led s) in
      _ ← check (negb (tprice_is_null exchange_rate)) AssertFc;
      converted_hbd ← hive_at to_convert exchange_rate;
      if amount converted_hbd <? HIVE_MIN_PAYOUT_HBD then Ok s
      else
        '(l, to_convert_balance) ← withdraw_liquid treasury HIVE_SYMBOL to_convert (led s);
        '(g, to_convert_balance, converted_hbd_balance) ← convert_HIVE_to_HBD to_convert_balance exchange_rate true (gpo l);
        l ← deposit_liquid treasury converted_hbd_balance (set_gpo g l);
        _ ← destroy_temp to_convert_balance;
        Ok (set_led (push_vop (dhf_conversion_operation treasury to_convert converted_hbd) l) s).

Definition process_proposals (s : dhf_state) : result dhf_state :=
  let head_time := dhf_time s in
  let s := record_funding head_time (remove_proposals head_time s) in
  s ← convert_funds head_time s;
  make_payments head_time s.
End dhf.
