(* ===== verification/ProposalBooks.v ===== *)
(** * The books of the decentralised fund

    What the model of Proposals.v guarantees: every vote is for an existing proposal, no
    unit of the fund is created or lost, payments follow the votes within the budget, a
    proposal never receives more than its daily pay for the time since its start, and
    proposals that were removed disappear in the end. *)

From stdpp Require Import base numbers strings option list sorting gmap.
From S2P Require Import Prelude Fc Config AssetSymbol Asset Balance Market Resources Operations Governance Ledger Transfers Proposals.
Open Scope Z_scope.

(** ** Movements of HBD *)

Section movements.
Context `{L : FcLib} `{!FcLaws L}.

Definition hbd_held (name : string) (l : ledger) : Z :=
  match accounts l !! name with Some a => amount (hbd_balance (liquid a)) | None => 0 end.

Definition when (b : bool) (x : Z) : Z := if b then x else 0.

Lemma adjust_hbd name temp delta l l' t' : ledger_wf l -> typed HBD_SYMBOL temp -> asset_wf delta ->
  adjust_liquid name temp delta l = Ok (l', t') ->
  forall n, hbd_held n l' = hbd_held n l + when (bool_decide (n = name)) (amount delta).
Proof.
  intros W [St Ft] Hd H n. unfold adjust_liquid in H. apply bind_Ok in H as (a & Ha & H). apply get_account_Ok in Ha as [Ha (Wa & _)]; [|done].
  apply bind_Ok in H as ([own t] & H & H1). injection H1 as <- <-. unfold adjust_typed in H. rewrite St in H. change (sym_eqb HBD_SYMBOL HIVE_SYMBOL) with false in H.
  apply bind_Ok in H as ([b t1] & H & H1). injection H1 as <- <-. destruct Wa as (S1 & S2 & B1 & B2).
  apply adjust_one_Ok in H as (E1 & E2 & -> & -> & F1 & F2); auto using funds_wf_s64.
  unfold hbd_held, when. cbn [put_account set_accounts accounts]. case_bool_decide as E; [subst|rewrite lookup_insert_ne by congruence; lia].
  rewrite lookup_insert_eq, Ha. cbn. done.
Qed.

Lemma hbd_push n v l : hbd_held n (push_vop v l) = hbd_held n l.
Proof. done. Qed.

Lemma adjust_vops name temp delta l l' t' : adjust_liquid name temp delta l = Ok (l', t') -> vops l' = vops l.
Proof.
  intros H. unfold adjust_liquid in H. apply bind_Ok in H as (a & _ & H). apply bind_Ok in H as ([o t] & _ & H). by injection H as <- <-.
Qed.

(** A transfer of HBD from one account to another. *)
Record hbd_moved (from_name to_name : string) (x : Z) (l l' : ledger) : Prop := {
  hm_conserved : conserved l l';
  hm_frame : frame l l';
  hm_held n : hbd_held n l' = hbd_held n l + when (bool_decide (n = to_name)) x - when (bool_decide (n = from_name)) x
}.

Lemma move_hbd_Ok from_name to_name a l l1 t1 l2 t2 u : books l -> typed HBD_SYMBOL a ->
  withdraw_liquid from_name HBD_SYMBOL a l = Ok (l1, t1) -> adjust_liquid to_name t1 a l1 = Ok (l2, t2) -> destroy_temp t2 = Ok u ->
  hbd_moved from_name to_name (amount a) l l2 /\ vops l2 = vops l.
Proof.
  intros B [Sa Fa] H1 H2 Hz. pose proof (bk_wf _ B) as W. pose proof H1 as H1'.
  apply withdraw_liquid_Ok in H1 as [[W1 F1 T1 G1] ->]; [|done|done|done|by right].
  pose proof (adjust_hbd _ _ _ _ _ _ W1 T1 (funds_wf_s64 _ Fa) H2) as Hh2. pose proof (adjust_vops _ _ _ _ _ _ H2) as V2.
  apply adjust_liquid_Ok in H2 as ([W2 T2 F2 G2] & _); [|done|done|by apply funds_wf_s64|unfold liquid_symbol; tauto].
  unfold withdraw_liquid in H1'. apply bind_Ok in H1' as (n & Hn & H1'). apply funds_neg_Ok in Hn as [-> Wn]; [|done].
  pose proof (adjust_hbd _ _ _ _ _ _ W (balance_zero_typed _) Wn H1') as Hh1. pose proof (adjust_vops _ _ _ _ _ _ H1') as V1.
  split; [|congruence]. constructor.
  - split; [eapply frame_books; [exact B|by etransitivity|done]|]. intros c. rewrite G2, G1, (destroy_temp_Ok _ _ Hz). lia.
  - by etransitivity.
  - intros m. rewrite Hh2, Hh1. unfold when. cbn. repeat case_bool_decide; lia.
Qed.

Lemma pay_proposal_Ok p a l l' : books l -> typed HBD_SYMBOL a -> pay_proposal p a l = Ok l' ->
  hbd_moved treasury (receiver p) (amount a) l l' /\
  vops l' = vops l ++ [proposal_pay_operation (proposal_id p) (receiver p) treasury a].
Proof.
  intros B Ha H. unfold pay_proposal in H. apply bind_Ok in H as (r & _ & H). apply bind_Ok in H as ([l1 t1] & H1 & H).
  apply bind_Ok in H as ([l2 t2] & H2 & H). apply bind_Ok in H as (u & Hz & H). injection H as <-.
  destruct (move_hbd_Ok _ _ _ _ _ _ _ _ _ (push_books _ _ B) Ha H1 H2 Hz) as [[[B' G] F Hh] V].
  split; [constructor; [split; [done|]|etransitivity; [apply push_frame|done]|done]|done]. intros c. rewrite G. apply push_vop_Ok, B.
Qed.
End movements.

(** ** The invariant *)

(** A daily pay that fits: over all the seconds of a 32-bit clock it stays within 64 bits. *)
Definition pay_fits (a : asset) : Prop := symbol a = HBD_SYMBOL /\ 0 <= amount a < 2 ^ 46.

Record proposal_ok (t : Z) (i : Z) (p : proposal_object) : Prop := {
  po_id : proposal_id p = i;
  po_dates : in_u 32 (start_date p) /\ in_u 32 (end_date p);
  po_pay : pay_fits (daily_pay p);
  po_votes : in_u 64 (total_votes p);
  po_removed : removed p = true -> end_date p + HIVE_PROPOSAL_MAINTENANCE_CLEANUP <= t
}.

Record dhf_ok (s : dhf_state) : Prop := {
  dk_books : books (led s);
  dk_proposals i p : proposals s !! i = Some p -> proposal_ok (dhf_time s) i p /\ i < next_proposal s;
  dk_votes v : v ∈ votes s -> is_Some (proposals s !! v.2);
  dk_nodup : NoDup (votes s);
  dk_time : in_u 32 (dhf_time s) /\ in_u 32 (last_budget_time s) /\ last_budget_time s <= dhf_time s;
  dk_next : 0 <= next_proposal s /\ HIVE_PROPOSAL_MAINTENANCE_CLEANUP <= dhf_time s
}.

(** *** What is due *)

Section due.
Context `{L : FcLib} `{!FcLaws L}.

Definition due (p : proposal_object) (elapsed : Z) : Z := elapsed * amount (daily_pay p) / daily_seconds.

Lemma due_after_value p e : pay_fits (daily_pay p) -> in_u 32 e -> due_after p e = Ok (due p e) /\ 0 <= due p e < 2 ^ 62.
Proof.
  intros [_ Hp] He. unfold in_u in He. unfold due_after, due, daily_seconds.
  assert (0 <= e * amount (daily_pay p) < 2 ^ 78) as Hm by (split; [nia|]; change (2 ^ 78) with (2 ^ 32 * 2 ^ 46); nia).
  rewrite (uwrap_id 64) by (unfold in_u; lia). rewrite (uwrap_id 128) by (unfold in_u; lia).
  assert (0 <= e * amount (daily_pay p) / 86400 < 2 ^ 62) by (split; [apply Z.div_pos; lia|apply Z.div_lt_upper_bound; lia]).
  split; [|done]. apply uint128_to_uint64_fits. unfold in_u. lia.
Qed.

Lemma due_mono p e e' : pay_fits (daily_pay p) -> e <= e' -> due p e <= due p e'.
Proof. intros [_ Hp] He. unfold due, daily_seconds. apply Z.div_le_mono; nia. Qed.

(** The time a proposal was paid for until [t]. *)
Definition since_start (p : proposal_object) (t : Z) : Z := Z.max 0 (t - start_date p).

(** What is due for the period since the last maintenance: from hardfork 30 on the
    difference of what was due since the start, before it the daily pay for the seconds of
    the period. *)
Definition pay_amount (head_time : Z) (s : dhf_state) (p : proposal_object) : Z :=
  if has_hardfork 30 (led s) then due p (since_start p head_time) - due p (since_start p (last_budget_time s))
  else (head_time - last_budget_time s) * amount (daily_pay p) / 86400.

Lemma period_pay_value head_time p s a t0 : proposal_ok t0 (proposal_id p) p -> in_u 32 head_time -> in_u 32 (last_budget_time s) ->
  last_budget_time s <= head_time -> period_pay head_time p s = Ok a ->
  typed HBD_SYMBOL a /\ amount a = pay_amount head_time s p.
Proof.
  intros [_ [Hs _] Hp _ _] Ht Hl Hle H. pose proof (due_mono p) as Hm. unfold pay_amount. unfold period_pay in H. unfold in_u in *. destruct (has_hardfork 30 _).
  - assert ((if start_date p <? head_time then head_time - start_date p else 0) = since_start p head_time) as E1
      by (unfold since_start; destruct (Z.ltb_spec (start_date p) head_time); lia).
    assert ((if start_date p <? Z.max (last_budget_time s) (start_date p) then Z.max (last_budget_time s) (start_date p) - start_date p else 0) = since_start p (last_budget_time s)) as E2
      by (unfold since_start; destruct (Z.ltb_spec (start_date p) (Z.max (last_budget_time s) (start_date p))); lia).
    rewrite E1, E2 in H. clear E1 E2.
    destruct (due_after_value p (since_start p head_time)) as [D1 R1]; [done|unfold in_u, since_start; lia|].
    destruct (due_after_value p (since_start p (last_budget_time s))) as [D2 R2]; [done|unfold in_u, since_start; lia|].
    rewrite D1, D2 in H. cbn [mbind result_bind] in H. injection H as <-.
    pose proof (Hm (since_start p (last_budget_time s)) (since_start p head_time) Hp ltac:(unfold since_start; lia)).
    assert ((if due p (since_start p (last_budget_time s)) <? due p (since_start p head_time) then i64 (due p (since_start p head_time) - due p (since_start p (last_budget_time s))) else 0)
      = due p (since_start p head_time) - due p (since_start p (last_budget_time s))) as ->.
    { destruct (Z.ltb_spec (due p (since_start p (last_budget_time s))) (due p (since_start p head_time))); [|lia]. rewrite swrap_id by (unfold in_s; lia). done. }
    split; [|done]. split; [done|]. unfold funds_wf. cbn [amount]. lia.
  - apply bind_Ok in H as (m & Hmul & H). injection H as <-. destruct Hp as [_ Hp].
    apply safe_mul_Ok in Hmul as [-> Hr]; [|rewrite uwrap_id by (unfold in_u; lia); unfold in_s; lia|unfold in_s; lia].
    rewrite uwrap_id in * by (unfold in_u; lia). unfold in_s, daily_seconds in *. rewrite Z.quot_div_nonneg by nia.
    split; [|done]. split; [done|]. unfold funds_wf. cbn [amount]. split; [apply Z.div_pos; nia|]. apply Z.div_lt_upper_bound; lia.
Qed.
End due.

(** ** Payments *)

(** The budget goes to the proposals in their order, to each what it is due as long as
    something is left. *)
Fixpoint allot (pay : proposal_object -> Z) (limit : Z) (ps : list proposal_object) : list (proposal_object * Z) :=
  match ps with
  | [] => []
  | p :: ps =>
      if total_votes p =? 0 then []
      else if limit <=? pay p then [(p, limit)]
      else (p, pay p) :: allot pay (limit - pay p) ps
  end.

Definition total_paid (l : list (proposal_object * Z)) : Z := sumZ snd l.
Definition paid_to (name : string) (l : list (proposal_object * Z)) : Z := sumZ (fun x => when (bool_decide (receiver x.1 = name)) x.2) l.
Definition pay_vop (x : proposal_object * Z) : ledger_vop :=
  proposal_pay_operation (proposal_id x.1) (receiver x.1) treasury (mk_asset x.2 HBD_SYMBOL).

Lemma allot_within pay limit ps : 0 <= limit -> Forall (fun p => 0 <= pay p) ps ->
  Forall (fun x => 0 <= x.2 <= pay x.1) (allot pay limit ps) /\ total_paid (allot pay limit ps) <= limit.
Proof.
  intros Hl Hp. revert limit Hl. induction Hp as [|p ps Hp _ IH]; intros limit Hl; cbn [allot]; [by split; [constructor|cbn]|].
  destruct (total_votes p =? 0); [by split; [constructor|cbn]|]. destruct (Z.leb_spec limit (pay p)).
  - split; [by apply Forall_singleton|]. unfold total_paid. cbn. lia.
  - destruct (IH (limit - pay p)) as [F S]; [lia|]. split; [constructor; [cbn; lia|done]|]. unfold total_paid in *. rewrite sumZ_cons. cbn [snd]. lia.
Qed.

(** Who is not paid although there are votes: the budget is used up. *)
Lemma allot_exhausted pay limit ps : exists n, (allot pay limit ps).*1 = take n ps /\
  (forall p, ps !! n = Some p -> total_votes p <> 0 -> total_paid (allot pay limit ps) = limit) /\
  (forall i x, allot pay limit ps !! i = Some x -> total_votes x.1 <> 0 /\ (x.2 <> pay x.1 -> total_paid (allot pay limit ps) = limit)).
Proof.
  revert limit. induction ps as [|p ps IH]; intros limit; cbn [allot]; [by exists 0%nat|].
  destruct (Z.eqb_spec (total_votes p) 0) as [E0|E0]; [exists 0%nat; split_and!; [done| |done]; by intros q [= <-]|].
  destruct (Z.leb_spec limit (pay p)).
  - exists 1%nat. assert (total_paid [(p, limit)] = limit) by (unfold total_paid; cbn; lia).
    split_and!; [by rewrite firstn_cons, take_0|done|]. intros [|i] x Hx; cbn in Hx; [injection Hx as <-|done]. done.
  - destruct (IH (limit - pay p)) as (n & Hn & He & Hf). exists (S n).
    assert (total_paid ((p, pay p) :: allot pay (limit - pay p) ps) = pay p + total_paid (allot pay (limit - pay p) ps)) as Et by done. rewrite Et.
    split_and!; [cbn; by f_equal| |].
    + intros q Hq Hv. cbn in Hq. specialize (He q Hq Hv). lia.
    + intros [|i] x Hx; cbn in Hx; [injection Hx as <-; cbn; by split|]. destruct (Hf i x Hx) as [A B]. split; [done|]. intros Hne. specialize (B Hne). lia.
Qed.

Section payments.
Context `{L : FcLib} `{!FcLaws L}.

(** The state after the proposals of [l] were paid. *)
Record payments (l : list (proposal_object * Z)) (s s' : dhf_state) : Prop := {
  pm_state : s' = set_led (led s') s;
  pm_conserved : conserved (led s) (led s');
  pm_frame : frame (led s) (led s');
  pm_held n : hbd_held n (led s') = hbd_held n (led s) + paid_to n l - when (bool_decide (n = treasury)) (total_paid l);
  pm_vops : vops (led s') = vops (led s) ++ (pay_vop <$> l)
}.

Lemma set_led_led s : set_led (led s) s = s.
Proof. by destruct s. Qed.

Lemma no_payments s : books (led s) -> payments [] s s.
Proof.
  intros B. constructor; [by rewrite set_led_led|by split|done| |by rewrite app_nil_r]. intros n. unfold paid_to, total_paid, when. cbn. destruct (bool_decide _); lia.
Qed.

Lemma one_payment p a s l x : typed HBD_SYMBOL a -> amount a = x -> hbd_moved treasury (receiver p) (amount a) (led s) l ->
  vops l = vops (led s) ++ [proposal_pay_operation (proposal_id p) (receiver p) treasury a] -> payments [(p, x)] s (set_led l s).
Proof.
  intros [Sa Fa] <- [C F Hh] V. constructor; cbn [led set_led]; [done|done|done| |].
  - intros n. rewrite Hh. unfold paid_to, total_paid, when. cbn. rewrite (bool_decide_ext (receiver p = n) (n = receiver p)) by done. repeat case_bool_decide; lia.
  - rewrite V. cbn. unfold pay_vop. cbn. by destruct a as [x y], Sa as [].
Qed.

Lemma payments_trans l1 l2 s1 s2 s3 : payments l1 s1 s2 -> payments l2 s2 s3 -> payments (l1 ++ l2) s1 s3.
Proof.
  intros [S1 C1 F1 H1 V1] [S2 C2 F2 H2 V2]. constructor.
  - rewrite S2. rewrite S1. done.
  - by eapply conserved_trans.
  - by etransitivity.
  - intros n. rewrite H2, H1. unfold paid_to, total_paid, when. rewrite !sumZ_app. destruct (bool_decide _); lia.
  - rewrite V2, V1, fmap_app. by rewrite app_assoc.
Qed.

Lemma allot_ext pay pay' limit ps : (forall p, pay p = pay' p) -> allot pay limit ps = allot pay' limit ps.
Proof. intros He. revert limit. induction ps as [|p ps IH]; intros limit; cbn; [done|]. rewrite He, IH. done. Qed.

Lemma pay_in_order_Ok head_time limit ps s s' : books (led s) -> typed HBD_SYMBOL limit -> in_u 32 head_time -> in_u 32 (last_budget_time s) ->
  last_budget_time s <= head_time -> Forall (fun p => exists t, proposal_ok t (proposal_id p) p) ps ->
  pay_in_order head_time limit ps s = Ok s' -> payments (allot (pay_amount head_time s) (amount limit) ps) s s'.
Proof.
  intros B Hlim Ht Hl Hle Hps. revert limit s B Hlim Hl Hle. induction Hps as [|p ps [t0 Hp] Hps IH]; intros limit s B Hlim Hl Hle H; cbn [pay_in_order allot] in *.
  { injection H as <-. by apply no_payments. }
  destruct (total_votes p =? 0); [injection H as <-; by apply no_payments|].
  apply bind_Ok in H as (pay & Hpay & H). destruct (period_pay_value head_time p s pay t0 Hp Ht Hl Hle Hpay) as [Tp <-].
  destruct (Z.leb_spec (amount limit) (amount pay)).
  - apply bind_Ok in H as (l & H1 & H). injection H as <-. apply pay_proposal_Ok in H1 as [M V]; [|done|done]. by apply (one_payment p limit).
  - apply bind_Ok in H as (l & H1 & H). apply pay_proposal_Ok in H1 as [M V]; [|done|done].
    apply bind_Ok in H as (limit' & Hsub & H). pose proof (one_payment p pay s l (amount pay) Tp eq_refl M V) as P1.
    apply (supply_sub HBD_SYMBOL) in Hsub as [T' E']; [|done|done|lia].
    assert (amount limit' = amount limit - amount pay) as El.
    { specialize (E' HBD_SYMBOL). unfold held_in in E'. rewrite (proj1 T'), (proj1 Hlim), (proj1 Tp), sym_eqb_refl in E'. done. }
    apply IH in H; [|by apply (pm_conserved _ _ _ P1)|done|done|done].
    change ((p, amount pay) :: ?r) with ([(p, amount pay)] ++ r). eapply payments_trans; [exact P1|]. rewrite <- El.
    erewrite allot_ext; [exact H|]. intros q. unfold pay_amount, has_hardfork. cbn [led set_led last_budget_time]. assert (last_hardfork l = last_hardfork (led s)) as -> by apply M. done.
Qed.

(** Budget of a maintenance: one percent of the treasury a day. *)
Definition budget (head_time : Z) (s : dhf_state) : Z :=
  (head_time - last_budget_time s) * (hbd_held treasury (led s) / 100) / 86400.

Lemma budget_value head_time s b : ledger_wf (led s) -> 0 <= head_time - last_budget_time s <= 100 * 86400 ->
  calculate_maintenance_budget head_time s = Ok b -> typed HBD_SYMBOL b /\ amount b = budget head_time s.
Proof.
  intros W Ht H. unfold calculate_maintenance_budget in H. apply bind_Ok in H as (a & Ha & H). apply get_account_Ok in Ha as [Ha (Wa & _)]; [|done].
  assert (amount (hbd_balance (liquid a)) = hbd_held treasury (led s)) as E1 by (unfold hbd_held; by rewrite Ha).
  destruct Wa as (_ & _ & _ & Fb). unfold funds_wf in Fb. rewrite E1 in *. unfold total_amount_divider in H. rewrite Z.quot_div_nonneg in H by lia. set (x := hbd_held treasury (led s) / 100) in *.
  assert (0 <= x /\ 100 * x < 2 ^ 63) as Hx by (subst x; split; [apply Z.div_pos; lia|]; pose proof (Z.mul_div_le (hbd_held treasury (led s)) 100 ltac:(lia)); lia).
  assert (0 <= (head_time - last_budget_time s) * x <= 8640000 * x) as Hdx by (split; [apply Z.mul_nonneg_nonneg; lia|apply Z.mul_le_mono_nonneg_r; lia]).
  rewrite (uwrap_id 32) in H by (unfold in_u; lia). rewrite (uwrap_id 128 x) in H by (unfold in_u; lia). rewrite (uwrap_id 128) in H by (unfold in_u; lia).
  unfold budget. fold x. unfold daily_seconds in H. set (y := (head_time - last_budget_time s) * x / 86400) in *.
  assert (0 <= y < 2 ^ 63) as Hy by (subst y; split; [apply Z.div_pos; lia|]; apply Z.div_lt_upper_bound; lia).
  rewrite uint128_to_uint64_fits in H by (unfold in_u; lia). cbn [mbind result_bind] in H. injection H as <-. rewrite swrap_id by (unfold in_s; lia).
  split; [split; [done|unfold funds_wf; cbn; lia]|done].
Qed.
End payments.

(** ** Tallies *)

Section tallies.
Context `{L : FcLib} `{!FcLaws L}.

Definition untallied (p : proposal_object) : proposal_object := set_total_votes 0 p.

(** Only the tallies of the proposals changed. *)
Record tallied (s s' : dhf_state) : Prop := {
  tl_state : s' = set_proposals (proposals s') s;
  tl_terms : untallied <$> proposals s' = untallied <$> proposals s;
  tl_range : (forall i p, proposals s !! i = Some p -> in_u 64 (total_votes p)) -> forall i p, proposals s' !! i = Some p -> in_u 64 (total_votes p)
}.
#[global] Instance tallied_preorder : PreOrder tallied.
Proof.
  split; [intros s; constructor; [by destruct s|done|done]|]. intros s1 s2 s3 [A1 B1 C1] [A2 B2 C2]. constructor; [|congruence|tauto].
  rewrite A2, A1. done.
Qed.

Lemma tallied_lookup s s' i p' : tallied s s' -> proposals s' !! i = Some p' ->
  exists p, proposals s !! i = Some p /\ p' = set_total_votes (total_votes p') p.
Proof.
  intros [_ Ht _] Hp. pose proof (f_equal (fun m => m !! i) Ht) as E1. cbn beta in E1. rewrite !lookup_fmap, Hp in E1.
  destruct (proposals s !! i) as [p|]; [|done]. exists p. split; [done|]. cbn in E1. destruct p, p'. unfold untallied, set_total_votes in *. cbn in *. congruence.
Qed.

Lemma tallied_back s s' i p : tallied s s' -> proposals s !! i = Some p -> exists n, proposals s' !! i = Some (set_total_votes n p).
Proof.
  intros T Hp. pose proof (f_equal (fun m => m !! i) (tl_terms _ _ T)) as E1. cbn beta in E1. rewrite !lookup_fmap, Hp in E1.
  destruct (proposals s' !! i) as [p'|] eqn:E2; [|done]. destruct (tallied_lookup _ _ _ _ T E2) as (q & Hq & ->). exists (total_votes p'). congruence.
Qed.

Lemma calculate_votes_range i s n : calculate_votes i s = Ok n -> in_u 64 n.
Proof.
  unfold calculate_votes. intros H. eapply (foldM_inv (in_u 64) (add_voter s)) in H; [done| |unfold in_u; lia].
  intros b a b' Hb Ha. unfold add_voter in Ha. apply bind_Ok in Ha as (x & _ & Ha). destruct (has_proxy x); [by injection Ha as <-|].
  apply bind_Ok in Ha as (p & _ & Ha). injection Ha as <-. by apply uwrap_range.
Qed.

Lemma tally_one s i s' : tally_votes s i = Ok s' -> tallied s s' /\
  exists n, calculate_votes i s = Ok n /\ proposals s' = alter (set_total_votes n) i (proposals s).
Proof.
  intros H. unfold tally_votes in H. apply bind_Ok in H as (n & Hn & H). injection H as <-. pose proof (calculate_votes_range _ _ _ Hn) as Hr.
  split; [|by exists n]. constructor; [done| |].
  - cbn. apply map_eq. intros j. rewrite !lookup_fmap. destruct (decide (i = j)) as [->|Hne]; [rewrite lookup_alter_eq|by rewrite lookup_alter_ne].
    by destruct (proposals s !! j).
  - intros H j p. cbn. destruct (decide (i = j)) as [->|Hne]; [rewrite lookup_alter_eq|rewrite lookup_alter_ne by done; apply H].
    destruct (proposals s !! j); intros [= <-]. done.
Qed.

Lemma calculate_votes_frame i s m : calculate_votes i (set_proposals m s) = calculate_votes i s.
Proof. done. Qed.

Lemma tally_all ids s s' : foldM tally_votes s ids = Ok s' -> tallied s s' /\
  forall i p, proposals s' !! i = Some p -> if decide (i ∈ ids) then calculate_votes i s = Ok (total_votes p) else proposals s !! i = Some p.
Proof.
  revert s. induction ids as [|j ids IH]; intros s H; cbn in H.
  { injection H as <-. split; [done|]. intros i p Hp. rewrite decide_False by set_solver. done. }
  apply bind_Ok in H as (s1 & H1 & H). apply tally_one in H1 as (T1 & n & Hn & E1). destruct (IH _ H) as [T2 Hv].
  split; [by etransitivity|]. intros i p Hp. specialize (Hv i p Hp). rewrite (tl_state _ _ T1), calculate_votes_frame in Hv.
  destruct (decide (i ∈ ids)) as [Hi|Hi]; [rewrite decide_True by (by right); done|]. cbn [proposals set_proposals] in Hv. rewrite E1 in Hv.
  destruct (decide (i = j)) as [->|Hne].
  - rewrite decide_True by (by left). rewrite lookup_alter_eq in Hv. destruct (proposals s !! j); cbn in Hv; [injection Hv as <-; done|done].
  - rewrite decide_False by (rewrite elem_of_cons; tauto). by rewrite lookup_alter_ne in Hv.
Qed.
End tallies.

(** ** The payments of a maintenance period *)

Section maintenance.
Context `{L : FcLib} `{!FcLaws L}.

Definition keyed (s : dhf_state) : Prop := forall i p, proposals s !! i = Some p -> proposal_id p = i.
Lemma ok_keyed s : dhf_ok s -> keyed s.
Proof. intros H i p Hp. apply (dk_proposals _ H i p Hp). Qed.

Lemma set_total_votes_ok t i n p : in_u 64 n -> proposal_ok t i p -> proposal_ok t i (set_total_votes n p).
Proof. intros Hn [A B C D E1]. by constructor. Qed.

Lemma tallied_ok s s' : dhf_ok s -> tallied s s' -> dhf_ok s'.
Proof.
  intros [B K V N T X] Ht. pose proof (tl_state _ _ Ht) as Hs. constructor; rewrite Hs; try done.
  - intros i p' Hp. cbn [proposals set_proposals] in Hp. destruct (tallied_lookup _ _ _ _ Ht Hp) as (p & Hi & Ep).
    destruct (K i p Hi) as [Ok1 Hlt]. split; [|done]. rewrite Ep. apply set_total_votes_ok; [|exact Ok1].
    apply (tl_range _ _ Ht) with (i := i); [|done]. intros j q Hq. apply (K j q Hq).
  - intros v Hv. destruct (V v Hv) as [p Hp]. cbn. destruct (tallied_back _ _ _ _ Ht Hp) as [n ->]. by eexists.
Qed.

Lemma by_start_date_elem s p : keyed s -> p ∈ by_start_date s <-> proposals s !! proposal_id p = Some p.
Proof.
  intros K. unfold by_start_date. rewrite merge_sort_Permutation. rewrite list_elem_of_fmap. split.
  - intros ([i q] & -> & Hi). apply elem_of_map_to_list in Hi. cbn. by rewrite (K _ _ Hi).
  - intros Hp. exists (proposal_id p, p). split; [done|]. by apply elem_of_map_to_list.
Qed.

Lemma ids_NoDup s : keyed s -> NoDup (proposal_id <$> by_start_date s).
Proof.
  intros K. unfold by_start_date. rewrite merge_sort_Permutation. rewrite <- list_fmap_compose.
  rewrite (list_fmap_ext _ fst (map_to_list (proposals s))); [apply NoDup_fst_map_to_list|].
  intros j [i p] Hj. cbn. apply K. apply elem_of_map_to_list. by eapply list_elem_of_lookup_2.
Qed.

Lemma find_active_elem head_time s i : keyed s ->
  i ∈ (find_proposals head_time s).1 <-> exists p, proposals s !! i = Some p /\ is_active head_time p = true.
Proof.
  intros K. cbn. rewrite list_elem_of_fmap. split.
  - intros (p & -> & Hp). apply elem_of_filterb in Hp as [Ha Hp]. apply elem_of_filterb in Hp as [_ Hp]. exists p. split; [|done]. by apply by_start_date_elem.
  - intros (p & Hp & Ha). exists p. split; [symmetry; by apply K|]. apply elem_of_filterb. split; [done|]. apply elem_of_filterb.
    split; [unfold is_active in Ha; by apply andb_true_iff in Ha as [? _]|]. apply by_start_date_elem; [done|]. by rewrite (K _ _ Hp).
Qed.

Lemma find_active_NoDup head_time s : keyed s -> NoDup (find_proposals head_time s).1.
Proof.
  intros K. cbn. eapply sublist_NoDup; [apply ids_NoDup, K|]. apply fmap_sublist. rewrite !filterb. etransitivity; apply sublist_filter.
Qed.

Lemma later_disjoint head_time s i : keyed s -> i ∈ (find_proposals head_time s).1 -> i ∉ (find_proposals head_time s).2.
Proof.
  intros K Hi Hj. apply find_active_elem in Hi as (p & Hp & Ha); [|done]. cbn in Hj. apply list_elem_of_fmap in Hj as (q & -> & Hq).
  apply elem_of_filterb in Hq as [Hn Hq]. apply by_start_date_elem in Hq; [|done]. assert (p = q) as -> by congruence.
  unfold is_active in Ha. apply andb_true_iff in Ha as [Ha _]. rewrite Ha in Hn. done.
Qed.

#[global] Instance votes_le_trans : Transitive votes_le.
Proof. intros p q r. unfold votes_le. lia. Qed.
#[global] Instance votes_le_total : Total votes_le.
Proof. intros p q. unfold votes_le. lia. Qed.

Lemma omap_lookup_ids (s' : dhf_state) (ids : list Z) p : keyed s' ->
  p ∈ omap (fun i => proposals s' !! i) ids <-> proposal_id p ∈ ids /\ proposals s' !! proposal_id p = Some p.
Proof.
  intros K. rewrite list_elem_of_omap. split.
  - intros (i & Hi & Hp). by rewrite (K _ _ Hp).
  - intros [Hi Hp]. by exists (proposal_id p).
Qed.

(** A proposal that is paid for now, with its tally as the code counts it. *)
Definition candidate (head_time : Z) (s : dhf_state) (p : proposal_object) : Prop :=
  exists p0, proposals s !! proposal_id p = Some p0 /\ is_active head_time p0 = true /\
    p = set_total_votes (total_votes p) p0 /\ calculate_votes (proposal_id p) s = Ok (total_votes p).

Lemma sorted_candidates head_time s s1 s2 : keyed s -> foldM tally_votes s (find_proposals head_time s).1 = Ok s1 ->
  foldM tally_votes s1 (find_proposals head_time s).2 = Ok s2 ->
  forall p, p ∈ sort_by_votes (find_proposals head_time s).1 s2 <-> candidate head_time s p.
Proof.
  intros K H1 H2 p. apply tally_all in H1 as [T1 V1]. apply tally_all in H2 as [T2 V2]. assert (tallied s s2) as T by (by etransitivity).
  assert (keyed s2) as K2. { intros i q Hq. destruct (tallied_lookup _ _ _ _ T Hq) as (q0 & Hq0 & ->). cbn. by apply K. }
  unfold sort_by_votes. rewrite merge_sort_Permutation, omap_lookup_ids by done. rewrite find_active_elem by done. split.
  - intros [(p0 & Hp0 & Ha) Hp]. exists p0. destruct (tallied_lookup _ _ _ _ T Hp) as (q & Hq & Ep). assert (q = p0) as -> by congruence.
    split_and!; [done|done|done|]. specialize (V2 _ _ Hp). rewrite decide_False in V2 by (apply later_disjoint; [done|]; apply find_active_elem; eauto).
    specialize (V1 _ _ V2). rewrite decide_True in V1 by (apply find_active_elem; eauto). done.
  - intros (p0 & Hp0 & Ha & Ep & Hv). split; [eauto|]. destruct (tallied_back _ _ _ _ T Hp0) as [n Hn]. rewrite Hn. f_equal.
    assert (proposal_id p ∈ (find_proposals head_time s).1) as Hi by (apply find_active_elem; eauto).
    specialize (V2 _ _ Hn). rewrite decide_False in V2 by (by apply later_disjoint). specialize (V1 _ _ V2). rewrite decide_True in V1 by done.
    rewrite Hv in V1. injection V1 as V1. cbn in V1. rewrite Ep. by subst n.
Qed.

(** The payments of a maintenance period: [ps] are the proposals that take part, [C], in
    the order of their votes, [n] of them are paid. *)
Record paid_by_votes (C : proposal_object -> Prop) (head_time : Z) (s : dhf_state) (ps : list proposal_object) (paid : list (proposal_object * Z)) : Prop := {
  pv_candidates p : p ∈ ps <-> C p;
  pv_sorted : StronglySorted votes_le ps;
  pv_once : NoDup (proposal_id <$> ps);
  pv_amounts : Forall (fun x => total_votes x.1 <> 0 /\ 0 <= x.2 <= pay_amount head_time s x.1) paid;
  pv_budget : total_paid paid <= budget head_time s;
  pv_first : exists n, paid.*1 = take n ps /\
    forall p, (ps !! n = Some p /\ total_votes p <> 0) \/ (exists x, (p, x) ∈ paid /\ x <> pay_amount head_time s p) -> total_paid paid = budget head_time s
}.

Lemma sorted_once head_time s s2 : keyed s -> keyed s2 -> NoDup (proposal_id <$> sort_by_votes (find_proposals head_time s).1 s2).
Proof.
  intros K K2. unfold sort_by_votes. rewrite merge_sort_Permutation. eapply sublist_NoDup; [by apply (find_active_NoDup head_time s)|].
  induction (find_proposals head_time s).1 as [|i ids IH]; cbn; [constructor|]. destruct (proposals s2 !! i) as [p|] eqn:E1; cbn; [rewrite (K2 _ _ E1)|]; by constructor.
Qed.

Lemma allot_paid head_time s ps : (forall p, p ∈ ps <-> candidate head_time s p) -> StronglySorted votes_le ps ->
  NoDup (proposal_id <$> ps) -> 0 <= budget head_time s ->
  Forall (fun p => 0 <= pay_amount head_time s p) ps ->
  paid_by_votes (candidate head_time s) head_time s ps (allot (pay_amount head_time s) (budget head_time s) ps).
Proof.
  intros Hc Hs Hd Hb Hp. destruct (allot_within (pay_amount head_time s) _ ps Hb Hp) as [F S].
  destruct (allot_exhausted (pay_amount head_time s) (budget head_time s) ps) as (n & Hn & He & Hf). constructor; [done|done|done| |done|].
  - apply Forall_lookup. intros i x Hx. split; [by apply (Hf i x)|]. by apply (proj1 (Forall_lookup _ _) F i).
  - exists n. split; [done|]. intros p [[Hl Hv]|(x & Hx & Hne)]; [by apply (He p)|]. apply list_elem_of_lookup in Hx as [i Hi]. by apply (Hf i _ Hi).
Qed.

Lemma candidate_ok head_time s p : dhf_ok s -> candidate head_time s p -> exists t, proposal_ok t (proposal_id p) p.
Proof.
  intros H (p0 & Hp0 & _ & Ep & Hv). exists (dhf_time s). destruct (dk_proposals _ H _ _ Hp0) as [O _].
  pose proof (set_total_votes_ok _ _ (total_votes p) _ (calculate_votes_range _ _ _ Hv) O) as O'. by rewrite <- Ep in O'.
Qed.

Lemma pay_amount_nonneg head_time s p t : proposal_ok t (proposal_id p) p -> last_budget_time s <= head_time -> 0 <= pay_amount head_time s p.
Proof.
  intros [_ _ Hp _ _] Hle. unfold pay_amount. destruct (has_hardfork 30 _).
  - pose proof (due_mono p (since_start p (last_budget_time s)) (since_start p head_time) Hp ltac:(unfold since_start; lia)). lia.
  - destruct Hp as [_ Hp]. apply Z.div_pos; nia.
Qed.

Lemma paid_nothing head_time s ps : (forall p, p ∈ ps <-> candidate head_time s p) -> StronglySorted votes_le ps -> NoDup (proposal_id <$> ps) ->
  ps = [] \/ budget head_time s = 0 -> 0 <= budget head_time s -> paid_by_votes (candidate head_time s) head_time s ps [].
Proof.
  intros Hc Hs Hd Hb H0. constructor; [done|done|done|constructor|done|]. exists 0%nat. split; [done|].
  intros p [[Hl _]|(x & Hx & _)]; [|by apply not_elem_of_nil in Hx]. destruct Hb as [->|Hb]; [done|]. by rewrite Hb.
Qed.

(** All the proposals that run now were tallied. *)
Lemma make_payments_tallies head_time s s' i p : keyed s -> is_maintenance_period head_time s = true -> make_payments head_time s = Ok s' ->
  proposals s !! i = Some p -> is_active head_time p = true -> exists n, calculate_votes i s = Ok n.
Proof.
  intros K Hm H Hp Ha. assert (i ∈ (find_proposals head_time s).1) as Hi by (apply find_active_elem; eauto).
  unfold make_payments in H. rewrite Hm in H. cbn [negb] in H. rewrite (surjective_pairing (find_proposals head_time s)) in H.
  destruct (find_proposals head_time s).1 as [|i0 ids] eqn:Ea; [by apply not_elem_of_nil in Hi|]. apply bind_Ok in H as (s1 & H1 & _).
  apply tally_all in H1 as [T1 V1]. destruct (tallied_back _ _ _ _ T1 Hp) as [n Hn]. specialize (V1 _ _ Hn). rewrite decide_True in V1 by done. by exists n.
Qed.

(** What [make_payments] does in a maintenance period. *)
Lemma make_payments_Ok head_time s s' : dhf_ok s -> head_time = dhf_time s -> is_maintenance_period head_time s = true ->
  head_time - last_budget_time s <= 100 * 86400 -> make_payments head_time s = Ok s' ->
  exists ps paid s2, paid_by_votes (candidate head_time s) head_time s ps paid /\ tallied s s2 /\ exists s3, payments paid s2 s3 /\ s' = update_settings head_time s3.
Proof.
  intros Ok1 Et Hm Hle H. pose proof (ok_keyed _ Ok1) as K. destruct (dk_time _ Ok1) as (Ht & Hl & Hlt). rewrite <- Et in Ht, Hlt.
  unfold make_payments in H. rewrite Hm in H. cbn [negb] in H. rewrite (surjective_pairing (find_proposals head_time s)) in H.
  assert (0 <= budget head_time s) as Hb0.
  { unfold budget. apply Z.div_pos; [|lia]. apply Z.mul_nonneg_nonneg; [lia|]. apply Z.div_pos; [|lia]. unfold hbd_held.
    destruct (accounts (led s) !! treasury) as [a|] eqn:Ea; [|done]. destruct (lw_accounts _ (bk_wf _ (dk_books _ Ok1)) _ _ Ea) as ((_ & _ & _ & F) & _). unfold funds_wf in F. lia. }
  destruct (find_proposals head_time s).1 as [|i0 ids] eqn:Ea.
  - apply bind_Ok in H as (s2 & H2 & H). injection H as <-. destruct (tally_all _ _ _ H2) as [T2 _]. exists [], [], s2. split_and!; [|done|].
    + apply paid_nothing; [|constructor|constructor|by left|done]. intros p. split; [by intros ?%not_elem_of_nil|]. intros (p0 & Hp0 & Hact & _).
      assert (proposal_id p ∈ (find_proposals head_time s).1) as Hi by (apply find_active_elem; eauto). rewrite Ea in Hi. by apply not_elem_of_nil in Hi.
    + exists s2. split; [|done]. apply no_payments. rewrite (tl_state _ _ T2). apply Ok1.
  - rewrite <- Ea in H. apply bind_Ok in H as (s1 & H1 & H). apply bind_Ok in H as (s2 & H2 & H). cbv zeta in H.
    set (ps := sort_by_votes _ s2) in *. pose proof (sorted_candidates head_time s s1 s2 K H1 H2) as Hc. fold ps in Hc.
    assert (tallied s s2) as T by (etransitivity; [exact (proj1 (tally_all _ _ _ H1))|exact (proj1 (tally_all _ _ _ H2))]).
    pose proof (tallied_ok _ _ Ok1 T) as Ok2. pose proof (tl_state _ _ T) as Es.
    assert (StronglySorted votes_le ps) as Hs by (subst ps; unfold sort_by_votes; apply StronglySorted_merge_sort; apply _).
    assert (NoDup (proposal_id <$> ps)) as Hd by (apply sorted_once; [done|by apply ok_keyed]).
    apply bind_Ok in H as (limit & Hlim & H). apply bind_Ok in H as (s3 & H3 & H). injection H as <-.
    apply budget_value in Hlim as [Tl El]; [|apply Ok2|rewrite Es; cbn; lia]. assert (budget head_time s2 = budget head_time s) as Eb by (by rewrite Es). rewrite Eb in El.
    assert (forall p, pay_amount head_time s2 p = pay_amount head_time s p) as Ep by (intros p; by rewrite Es).
    assert (Forall (fun p => exists t, proposal_ok t (proposal_id p) p) ps) as Hps by (apply Forall_forall; intros p Hp; apply (candidate_ok head_time s); [done|by apply Hc]).
    unfold transfer_payments in H3. destruct (Z.eqb_spec (amount limit) 0) as [E0|E0].
    + injection H3 as <-. exists ps, [], s2. split_and!; [apply paid_nothing; [done|done|done|right; lia|done]|done|]. exists s2. split; [|done]. apply no_payments, Ok2.
    + apply bind_Ok in H3 as (a & _ & H3). apply pay_in_order_Ok in H3; [|apply Ok2|done|done|by rewrite Es|by rewrite Es|done]. rewrite El in H3. erewrite allot_ext in H3 by exact Ep.
      eexists ps, _, s2. split_and!; [|done|exists s3; split; [exact H3|done]]. apply allot_paid; [done|done|done|done|].
      eapply Forall_impl; [exact Hps|]. intros p [t Hp]. by eapply pay_amount_nonneg.
Qed.
End maintenance.

(** ** Removal *)

Definition other (pid : Z) (l : list (string * Z)) : list (string * Z) := filter (fun v => v.2 <> pid) l.

(** What is left after a portion was removed. *)
Record portion (pid limit : Z) (l l' : list (string * Z)) (ok : bool) (limit' : Z) : Prop := {
  pt_sub : l' `sublist_of` l;
  pt_other : other pid l' = other pid l;
  pt_all : ok = true -> Forall (fun v => v.2 <> pid) l';
  pt_stop : ok = false -> limit' = 0;
  pt_free : limit < 0 -> limit' = limit /\ ok = true;
  pt_used : 0 <= limit -> 0 <= limit' /\ Z.of_nat (length l) = Z.of_nat (length l') + (limit - limit')
}.

Lemma guard_step_cases limit : (0 < limit /\ guard_step limit = (true, limit - 1)) \/ (limit = 0 /\ guard_step limit = (false, 0)) \/ (limit < 0 /\ guard_step limit = (true, limit)).
Proof. unfold guard_step. destruct (Z.ltb_spec 0 limit); [by left|]. destruct (Z.eqb_spec limit 0) as [->|]; [by right; left|]. right. right. split; [lia|done]. Qed.

Lemma other_cons pid v l : other pid (v :: l) = if v.2 =? pid then other pid l else v :: other pid l.
Proof. unfold other. rewrite filter_cons. destruct (Z.eqb_spec v.2 pid); [rewrite decide_False by tauto|rewrite decide_True by tauto]; done. Qed.

Lemma remove_votes_portion pid limit l l' ok limit' : remove_votes_for pid limit l = (l', ok, limit') -> portion pid limit l l' ok limit'.
Proof.
  revert limit l' ok limit'. induction l as [|v l IH]; intros limit l' ok limit' H; cbn [remove_votes_for] in H.
  { injection H as <- <- <-. constructor; intros; try done; try (by constructor); cbn; lia. }
  destruct (Z.eqb_spec v.2 pid) as [Ev|Ev].
  - destruct (guard_step_cases limit) as [[Hl E1]|[[Hl E1]|[Hl E1]]]; rewrite E1 in H.
    + apply IH in H as [A B C D E2 F]. constructor; [by apply sublist_cons|by rewrite other_cons, Ev, Z.eqb_refl|done|done|lia|].
      intros _. destruct (F ltac:(lia)). split; [done|]. cbn [length]. lia.
    + injection H as <- <- <-. constructor; try done; intros; lia.
    + apply IH in H as [A B C D E2 F]. constructor; [by apply sublist_cons|by rewrite other_cons, Ev, Z.eqb_refl|done|done|done|lia].
  - destruct (remove_votes_for pid limit l) as [[l1 ok1] lim1] eqn:E1. injection H as <- <- <-. apply IH in E1 as [A B C D E2 F].
    constructor; [by apply sublist_skip|rewrite !other_cons; destruct (v.2 =? pid); [done|by f_equal]|intros; constructor; auto|done|done|].
    intros Hl. destruct (F Hl). split; [done|]. cbn [length]. lia.
Qed.

(** Removing a proposal: all of its votes go before it does. *)
Lemma remove_object_cases pid limit s s' ok limit' : remove_proposal_object pid limit s = (s', ok, limit') ->
  exists l lim1 all, portion pid limit (votes s) l all lim1 /\ guard_step lim1 = (ok, limit') /\
    s' = (if ok then set_proposals (delete pid (proposals s)) (set_pvotes l s) else set_pvotes l s) /\
    (ok = true -> Forall (fun v => v.2 <> pid) l).
Proof.
  unfold remove_proposal_object. intros H. destruct (remove_votes_for pid limit (votes s)) as [[l all] lim1] eqn:E1. pose proof (remove_votes_portion _ _ _ _ _ _ E1) as P.
  destruct (guard_step lim1) as [ok' lim2] eqn:E2. injection H as <- -> ->. exists l, lim1, all. split_and!; [done|done|by destruct ok|].
  intros ->. destruct all; [by apply P|]. rewrite (pt_stop _ _ _ _ _ _ P eq_refl) in E2. done.
Qed.

Lemma store_ok m l s : dhf_ok s -> (forall i p, m !! i = Some p -> proposal_ok (dhf_time s) i p /\ i < next_proposal s) ->
  (forall v, v ∈ l -> is_Some (m !! v.2)) -> NoDup l -> dhf_ok (set_proposals m (set_pvotes l s)).
Proof. intros [B K V N T X] Hm Hv Hn. by constructor. Qed.

(** The proposals and votes of [s'] are among those of [s], all else is as before. *)
Record shrunk (s s' : dhf_state) : Prop := {
  sh_state : s' = set_proposals (proposals s') (set_pvotes (votes s') s);
  sh_sub : proposals s' ⊆ proposals s;
  sh_votes : votes s' `sublist_of` votes s
}.
#[global] Instance shrunk_preorder : PreOrder shrunk.
Proof.
  split; [intros s; constructor; [by destruct s as [? [] ? ? ? ? ? ? ?]|done|done]|]. intros s1 s2 s3 [A1 B1 C1] [A2 B2 C2].
  constructor; [rewrite A2, A1; done|by etransitivity|by etransitivity].
Qed.

Lemma remove_object_Ok pid limit s s' ok limit' : dhf_ok s -> remove_proposal_object pid limit s = (s', ok, limit') ->
  dhf_ok s' /\ shrunk s s' /\ (forall i, i <> pid -> proposals s' !! i = proposals s !! i) /\ (ok = true -> proposals s' !! pid = None) /\ (ok = false -> proposals s' = proposals s /\ limit' = 0).
Proof.
  intros H E1. apply remove_object_cases in E1 as (l & lim1 & all & P & G & -> & Hall). pose proof (pt_sub _ _ _ _ _ _ P) as Hsub.
  assert (forall v, v ∈ l -> v ∈ votes s) as Hin by (intros v Hv; by eapply elem_of_sublist).
  assert (NoDup l) as Hn by (eapply sublist_NoDup; [apply H|done]). destruct ok.
  - split_and!; [|constructor; [done|apply delete_subseteq|done]|intros i Hi; cbn; by rewrite lookup_delete_ne|intros _; apply lookup_delete_eq|done].
    apply store_ok; [done|intros i p [_ Hp]%lookup_delete_Some; by apply H| |done].
    intros v Hv. pose proof (proj1 (Forall_forall _ _) (Hall eq_refl) v Hv) as Hne. cbn in Hne. rewrite lookup_delete_ne by congruence. by apply H, Hin.
  - split_and!; [|by constructor|done|done|intros _; split; [done|]].
    + change (set_pvotes l s) with (set_proposals (proposals s) (set_pvotes l s)). apply store_ok; [done|apply H| |done]. intros v Hv. by apply H, Hin.
    + destruct (guard_step_cases lim1) as [[? E2]|[[? E2]|[? E2]]]; rewrite E2 in G; by injection G.
Qed.

Lemma remove_due_Ok due limit s : dhf_ok s -> dhf_ok (remove_due due limit s) /\ shrunk s (remove_due due limit s).
Proof.
  revert limit s. induction due as [|p due IH]; intros limit s H; cbn [remove_due]; [done|]. destruct (removed p).
  - destruct (remove_proposal_object (proposal_id p) limit s) as [[s1 ok] limit'] eqn:E1. apply remove_object_Ok in E1 as (O1 & S1 & _); [|done].
    destruct (guard_done limit'); [done|]. destruct (IH limit' s1 O1) as [O2 S2]. split; [done|by etransitivity].
  - destruct (guard_done limit); [done|]. by apply IH.
Qed.

Lemma remove_proposals_Ok head_time s : dhf_ok s -> dhf_ok (remove_proposals head_time s) /\ shrunk s (remove_proposals head_time s).
Proof. apply remove_due_Ok. Qed.

(** *** Removal comes to an end *)

#[global] Instance end_le_trans : Transitive end_le.
Proof. intros p q r. unfold end_le. lia. Qed.
#[global] Instance end_le_total : Total end_le.
Proof. intros p q. unfold end_le. lia. Qed.

(** What a removal has left to do at most. *)
Definition stored (s : dhf_state) : nat := length (votes s) + size (proposals s).
Definition none_removed (s : dhf_state) : Prop := forall i p, proposals s !! i = Some p -> removed p = false.

Lemma shrunk_stored s s' : shrunk s s' -> (stored s' <= stored s)%nat.
Proof.
  intros [_ Hs Hv]. unfold stored. apply sublist_length in Hv. apply subseteq_dom, subseteq_size in Hs. rewrite !size_dom in Hs. lia.
Qed.

(** No more than the limit is removed, of votes and proposals together. *)
Lemma remove_object_limit pid limit s s' ok limit' : 0 <= limit -> remove_proposal_object pid limit s = (s', ok, limit') ->
  0 <= limit' /\ Z.of_nat (stored s) <= Z.of_nat (stored s') + (limit - limit').
Proof.
  intros Hl H. apply remove_object_cases in H as (l & lim1 & all & P & G & -> & _). destruct (pt_used _ _ _ _ _ _ P Hl) as [H1 Hlen].
  destruct (guard_step_cases lim1) as [[H2 E1]|[[H2 E1]|[H2 E1]]]; rewrite E1 in G; injection G as <- <-; unfold stored; cbn; [|lia|lia].
  rewrite map_size_delete. destruct (proposals s !! pid); cbn; lia.
Qed.

Lemma remove_due_limit due limit s : 0 <= limit -> Z.of_nat (stored s) <= Z.of_nat (stored (remove_due due limit s)) + limit.
Proof.
  revert limit s. induction due as [|p due IH]; intros limit s Hl; cbn [remove_due]; [lia|]. destruct (removed p).
  - destruct (remove_proposal_object (proposal_id p) limit s) as [[s1 ok] limit'] eqn:E1. apply remove_object_limit in E1 as [H1 H2]; [|done].
    destruct (guard_done limit'); [lia|]. specialize (IH limit' s1 H1). lia.
  - destruct (guard_done limit); [lia|]. by apply IH.
Qed.

Lemma remove_iter_Ok n t s : dhf_ok s -> dhf_ok (Nat.iter n (remove_proposals t) s) /\ shrunk s (Nat.iter n (remove_proposals t) s).
Proof.
  intros O. induction n as [|n [O1 S1]]; [done|]. rewrite Nat.iter_succ. destruct (remove_proposals_Ok t _ O1) as [O2 S2]. split; [done|by etransitivity].
Qed.

(** A removal makes progress as long as the limit is not reached. *)
Lemma remove_object_progress pid limit s s' ok limit' : limit <> 0 -> is_Some (proposals s !! pid) ->
  remove_proposal_object pid limit s = (s', ok, limit') -> (stored s' < stored s)%nat.
Proof.
  intros Hl [p Hp] H. apply remove_object_cases in H as (l & lim1 & all & P & G & -> & Hall). pose proof (sublist_length _ _ (pt_sub _ _ _ _ _ _ P)) as Hlen.
  destruct (guard_step_cases lim1) as [[H1 E1]|[[H1 E1]|[H1 E1]]]; rewrite E1 in G; injection G as <- <-.
  - unfold stored. cbn. rewrite map_size_delete, Hp. assert (size (proposals s) <> 0%nat) by (intros Hz; apply map_size_empty_inv in Hz; rewrite Hz in Hp; done). lia.
  - unfold stored. cbn. subst lim1. destruct (Z.lt_ge_cases limit 0) as [Hneg|Hpos]; [destruct (pt_free _ _ _ _ _ _ P Hneg); lia|].
    destruct (pt_used _ _ _ _ _ _ P Hpos). lia.
  - unfold stored. cbn. rewrite map_size_delete, Hp. assert (size (proposals s) <> 0%nat) by (intros Hz; apply map_size_empty_inv in Hz; rewrite Hz in Hp; done). lia.
Qed.

Lemma remove_due_progress due limit s p : dhf_ok s -> limit <> 0 -> p ∈ due -> removed p = true ->
  Forall (fun q => proposals s !! proposal_id q = Some q) due -> (stored (remove_due due limit s) < stored s)%nat.
Proof.
  intros O Hl Hin Hr. revert s limit O Hl. induction due as [|q due IH]; intros s limit O Hl Hd; [by apply not_elem_of_nil in Hin|]. cbn [remove_due].
  apply Forall_cons in Hd as [Hq Hd]. destruct (removed q) eqn:Eq.
  - destruct (remove_proposal_object (proposal_id q) limit s) as [[s1 ok] limit'] eqn:E1. pose proof (remove_object_progress _ _ _ _ _ _ Hl ltac:(by eexists) E1) as Hlt.
    apply remove_object_Ok in E1 as (O1 & _); [|done]. destruct (guard_done limit'); [done|]. destruct (remove_due_Ok due limit' s1 O1) as [_ S]. apply shrunk_stored in S. lia.
  - assert (guard_done limit = false) as -> by (by apply Z.eqb_neq). apply elem_of_cons in Hin as [->|Hin]; [congruence|]. by apply IH.
Qed.

Lemma remove_progress t s i p : dhf_ok s -> t = dhf_time s -> remove_threshold (gv s) <> 0 -> proposals s !! i = Some p -> removed p = true ->
  (stored (remove_proposals t s) < stored s)%nat.
Proof.
  intros O -> Hl Hp Hr. pose proof (ok_keyed _ O) as K. unfold remove_proposals.
  assert (forall q, q ∈ take_while (fun p => get_end_date_with_delay p <=? dhf_time s) (by_end_date s) <-> q ∈ (map_to_list (proposals s)).*2 /\ (get_end_date_with_delay q <=? dhf_time s) = true) as Hin.
  { apply take_while_sorted; [apply _|apply _|]. intros x y R Hy. to_prop. unfold end_le in R. apply Z.leb_le. lia. }
  assert (forall q, q ∈ (map_to_list (proposals s)).*2 <-> proposals s !! proposal_id q = Some q) as Hq.
  { intros q. rewrite list_elem_of_fmap. split; [intros ([j x] & -> & Hj); apply elem_of_map_to_list in Hj; cbn; by rewrite (K _ _ Hj)|]. intros Hx. exists (proposal_id q, q). split; [done|]. by apply elem_of_map_to_list. }
  apply (remove_due_progress _ _ _ p); [done|done| |done|].
  - apply Hin. split; [apply Hq; by rewrite (K _ _ Hp)|]. apply Z.leb_le. destruct (dk_proposals _ O _ _ Hp) as [[_ [_ [E0 E1]] _ _ Pr] _]. specialize (Pr Hr).
    destruct (dk_time _ O) as ([_ T1] & _). unfold get_end_date_with_delay, HIVE_PROPOSAL_MAINTENANCE_CLEANUP in *. rewrite uwrap_id by (unfold in_u; lia). lia.
  - apply Forall_forall. intros q Hx. apply Hq. by apply Hin.
Qed.

Lemma none_removed_iter n t s : dhf_ok s -> none_removed s -> none_removed (Nat.iter n (remove_proposals t) s).
Proof.
  revert s. induction n as [|n IH]; intros s O Hn; [done|]. rewrite Nat.iter_succ_r. destruct (remove_proposals_Ok t s O) as [O1 S1]. apply IH; [done|].
  intros i p Hp. apply (Hn i). by eapply lookup_weaken, S1.
Qed.

Lemma removal_ends n t s : dhf_ok s -> t = dhf_time s -> remove_threshold (gv s) <> 0 -> (stored s <= n)%nat ->
  none_removed (Nat.iter n (remove_proposals t) s).
Proof.
  revert s. induction n as [|n IH]; intros s O Et Hl Hn.
  - intros i p Hp. exfalso. cbn in Hp. unfold stored in Hn. assert (size (proposals s) = 0)%nat as Hz by lia. apply map_size_empty_inv in Hz. by rewrite Hz in Hp.
  - destruct (decide (map_Forall (fun _ p => removed p = false) (proposals s))) as [Hnone|Hsome]; [by apply none_removed_iter|].
    rewrite Nat.iter_succ_r. destruct (remove_proposals_Ok t s O) as [O1 S1]. pose proof (sh_state _ _ S1) as Es. apply IH; [done|by rewrite Es|by rewrite Es|].
    apply map_not_Forall in Hsome as (i & p & Hp & Hr); [|apply _]. apply not_false_is_true in Hr. pose proof (remove_progress t s i p O Et Hl Hp Hr). lia.
Qed.
