(* ===== verification/ProposalHistory.v ===== *)
(** * Histories of the decentralised fund

    The evaluators of Proposals.v and the work of a block as events, interleaved with
    the steps of the ledger and with changes of the governance, and what every history
    of them keeps. *)

From stdpp Require Import base numbers strings option list sorting gmap.
From S2P Require Import Prelude Fc Config AssetSymbol Asset Balance Market Resources Validation Operations Governance Voting Ledger Transfers LedgerSteps Proposals ProposalBooks.
Open Scope Z_scope.

(** ** Events *)

Section events.
Context `{L : FcLib}.

Definition advance (t : Z) (s : dhf_state) : dhf_state := set_led (set_gpo (set_time t (gpo (led s))) (led s)) s.

Inductive dhf_event : Type :=
| ev_create (o : create_proposal_operation.t)
| ev_update (o : update_proposal_operation.t)
| ev_vote (o : update_proposal_votes_operation.t)
| ev_remove (o : remove_proposal_operation.t)
| ev_block (t : Z)
| ev_ledger (l : ledger)
| ev_governance (g : gov).

Definition dhf_apply (e : dhf_event) (s : dhf_state) : result dhf_state :=
  match e with
  | ev_create o => create_proposal o s
  | ev_update o => update_proposal o s
  | ev_vote o => update_proposal_votes o s
  | ev_remove o => remove_proposal o s
  | ev_block t => process_proposals (advance t s)
  | ev_ledger l => Ok (set_led l s)
  | ev_governance g => Ok (set_gv g s)
  end.

(** Operations have passed their validation; a daily pay is small enough to be counted
    (the code has no such limit); blocks come in the order of their times, a maintenance
    at most 100 days after the one before; the ledger makes steps of its own, and
    governance adds no votes for proposals. *)
Definition event_ok (e : dhf_event) (s : dhf_state) : Prop :=
  match e with
  | ev_create o => create_proposal_operation.validate o = Ok tt /\ amount (create_proposal_operation.daily_pay o) < 2 ^ 46 /\
      in_u 32 (create_proposal_operation.start_date o) /\ in_u 32 (create_proposal_operation.end_date o)
  | ev_update o => update_proposal_operation.validate o = Ok tt /\
      (forall d, update_proposal_operation.update_proposal_end_date d ∈ update_proposal_operation.extensions o -> in_u 32 d)
  | ev_block t => in_u 32 t /\ dhf_time s <= t <= last_budget_time s + 100 * 86400
  | ev_ledger l => ledger_step (led s) l /\ head_block_time l = head_block_time (led s) /\ last_hardfork l = last_hardfork (led s)
  | ev_governance g => proposal_votes g `sublist_of` proposal_votes (gv s)
  | _ => True
  end.

(** A history of events, newest last. *)
Inductive history : dhf_state -> list dhf_event -> dhf_state -> Prop :=
| history_nil s : history s [] s
| history_snoc s es s1 e s2 : history s es s1 -> event_ok e s1 -> dhf_apply e s1 = Ok s2 -> history s (es ++ [e]) s2.
End events.

Section evaluators.
Context `{L : FcLib} `{!FcLaws L}.

Lemma led_ok l s : dhf_ok s -> books l -> head_block_time l = head_block_time (led s) -> dhf_ok (set_led l s).
Proof. intros [B K V N T X] Bl Et. constructor; cbn [led set_led proposals]; unfold dhf_time; cbn [led set_led]; rewrite ?Et; done. Qed.

Lemma props_ok m s : dhf_ok s -> (forall i p, m !! i = Some p -> proposal_ok (dhf_time s) i p /\ i < next_proposal s) ->
  (forall i, is_Some (proposals s !! i) -> is_Some (m !! i)) -> dhf_ok (set_proposals m s).
Proof. intros [B K V N T X] Hm Hv. constructor; try done. intros v Hw. by apply Hv, V. Qed.
Lemma pvotes_ok l s : dhf_ok s -> (forall v, v ∈ l -> is_Some (proposals s !! v.2)) -> NoDup l -> dhf_ok (set_pvotes l s).
Proof. intros [B K V N T X] Hm Hn. by constructor. Qed.

Lemma push_pvote_elem v l x : x ∈ insert_pvote v l <-> x = v \/ x ∈ l.
Proof. induction l as [|y l IH]; cbn; [set_solver|]. destruct (pvote_before v y); [set_solver|]. rewrite !elem_of_cons, IH. tauto. Qed.
Lemma push_pvote_NoDup v l : v ∉ l -> NoDup l -> NoDup (insert_pvote v l).
Proof.
  intros Hv. induction 1 as [|y l Hy Hn IH]; cbn; [by apply NoDup_singleton|]. apply not_elem_of_cons in Hv as [Hne Hv].
  destruct (pvote_before v y); [by repeat constructor; rewrite ?not_elem_of_cons|]. constructor; [|by apply IH]. rewrite push_pvote_elem. intros [?|?]; congruence.
Qed.

Lemma proposal_fee_typed o fee : proposal_fee o = Ok fee -> typed HBD_SYMBOL fee.
Proof.
  unfold proposal_fee. set (r := uwrap 32 _). pose proof (uwrap_range 32 (create_proposal_operation.end_date o - create_proposal_operation.start_date o) ltac:(lia)) as Hr. fold r in Hr. unfold in_u in Hr.
  destruct (Z.ltb_spec HIVE_PROPOSAL_FEE_INCREASE_DAYS_SEC r) as [Hlt|Hlt]; [|intros [= <-]; by vm_compute].
  set (d := uwrap 32 (r / _ - _)). assert (0 <= d < 2 ^ 32) as Hd by (apply uwrap_range; lia). unfold HIVE_PROPOSAL_FEE_INCREASE_AMOUNT, HIVE_BLOCKCHAIN_PRECISION.
  rewrite (uwrap_id 64) by (unfold in_u; lia). rewrite share_of_u64_narrow by (unfold in_u; lia). rewrite swrap_id by (unfold in_s; lia).
  intros H. apply (supply_add HBD_SYMBOL) in H as [T _]; [done|by vm_compute|]. split; [done|]. unfold funds_wf. cbn. lia.
Qed.

Lemma validated_pay pay : validate_asset_not_negative pay = Ok tt -> validate_asset_type pay HBD_SYMBOL = Ok tt -> symbol pay = HBD_SYMBOL /\ 0 <= amount pay.
Proof.
  unfold validate_asset_not_negative, validate_asset_type, is_asset_type, check. intros H1 H2. destruct (sym_eqb _ _) eqn:E1; [|done]. apply sym_eqb_spec in E1.
  destruct (Z.leb_spec 0 (amount pay)); done.
Qed.

(** What an event does to the funds. *)
Definition funds_kept (s s' : dhf_state) : Prop := conserved (led s) (led s').
Lemma funds_same s s' : dhf_ok s -> led s' = led s -> funds_kept s s'.
Proof. intros H E1. unfold funds_kept. rewrite E1. split; [apply H|done]. Qed.

(** Nothing but the new proposal and the fee. *)
Lemma create_proposal_Ok o s s' : dhf_ok s -> event_ok (ev_create o) s -> create_proposal o s = Ok s' ->
  dhf_ok s' /\ funds_kept s s' /\ next_proposal s' = next_proposal s + 1 /\ votes s' = votes s /\
  last_budget_time s' = last_budget_time s /\ frame (led s) (led s') /\
  exists p, proposals s !! proposal_id p = None /\ proposal_id p = u32 (next_proposal s) /\ proposals s' = <[proposal_id p := p]> (proposals s).
Proof.
  intros Ok1 (Hv & Hp & Hs & He) H. unfold create_proposal_operation.validate in Hv. do 2 apply bind_Ok in Hv as (? & _ & Hv). apply check_bind_Ok in Hv as [_ Hv].
  apply bind_Ok in Hv as ([] & V1 & Hv). apply bind_Ok in Hv as ([] & V2 & _). destruct (validated_pay _ V1 V2) as [Sp Np].
  unfold create_proposal in H. apply check_bind_Ok in H as [_ H]. apply bind_Ok in H as (fee & Hf & H). do 2 apply bind_Ok in H as (? & _ & H).
  do 2 apply check_bind_Ok in H as [_ H]. apply bind_Ok in H as (pay & Hpay & H). apply as_typed_Ok in Hpay as [-> _].
  apply check_bind_Ok in H as [Hnew H]. apply bool_decide_eq_true in Hnew. cbv zeta in H. apply bind_Ok in H as ([l1 t1] & H1 & H). apply bind_Ok in H as ([l2 t2] & H2 & H).
  apply bind_Ok in H as (u & Hz & H). injection H as <-. cbn [led set_next_proposal set_proposals] in H1.
  destruct (move_hbd_Ok _ _ _ _ _ _ _ _ _ (dk_books _ Ok1) (proposal_fee_typed _ _ Hf) H1 H2 Hz) as [[C F _] _].
  destruct (dk_next _ Ok1) as [N0 N1]. pose proof (uwrap_range 32 (next_proposal s) ltac:(lia)) as Hr. assert (u32 (next_proposal s) <= next_proposal s) as Hle by (apply Z.mod_le; lia).
  assert (conserved (led s) (push_vop (proposal_fee_operation (create_proposal_operation.creator o) treasury (u32 (next_proposal s)) fee) l2)) as C2.
  { destruct C as [B2 G2]. split; [by apply push_books|]. intros c. destruct (push_vop_Ok (proposal_fee_operation (create_proposal_operation.creator o) treasury (u32 (next_proposal s)) fee) l2 (bk_wf _ B2)) as [_ Gp]. by rewrite Gp. }
  split_and!; [|exact C2|done|done|done|etransitivity; [exact F|apply push_frame]|by eexists (mk_proposal _ _ _ _ _ _ _ _ _ _)].
  apply led_ok; [|apply C2|cbn; apply F]. destruct Ok1 as [B K V N T X]. constructor; try done.
  - intros i q. cbn [proposals set_next_proposal set_proposals next_proposal]. destruct (decide (i = u32 (next_proposal s))) as [->|Hne].
    + rewrite lookup_insert_eq. intros [= <-]. split; [|unfold in_u in Hr; lia]. by constructor.
    + rewrite lookup_insert_ne by congruence. intros Hq. destruct (K i q Hq). split; [done|]. lia.
  - intros v Hw. destruct (V v Hw) as [q Hq]. cbn [proposals set_next_proposal set_proposals]. destruct (decide (v.2 = u32 (next_proposal s))) as [->|]; [rewrite lookup_insert_eq|rewrite lookup_insert_ne by congruence]; by eexists.
  - cbn. unfold dhf_time in X. cbn in X. split; [lia|apply X].
Qed.

(** *** The terms of a proposal *)

Definition terms (p : proposal_object) : Z * asset := (start_date p, daily_pay p).
Definition terms_from (pid : Z) (s s' : dhf_state) : Prop :=
  forall p', proposals s' !! pid = Some p' -> exists p, proposals s !! pid = Some p /\ terms p' = terms p.

(** An event that makes no payments; it may change the terms of the proposals of [touched]. *)
Record quiet (touched : Z -> Prop) (s s' : dhf_state) : Prop := {
  qt_ok : dhf_ok s';
  qt_funds : funds_kept s s';
  qt_budget : last_budget_time s' = last_budget_time s;
  qt_hardfork : last_hardfork (led s') = last_hardfork (led s);
  qt_next : next_proposal s <= next_proposal s';
  qt_terms pid : pid < next_proposal s -> next_proposal s' <= 2 ^ 32 -> ~ touched pid -> terms_from pid s s'
}.

Lemma terms_refl pid s : terms_from pid s s.
Proof. intros p Hp. by exists p. Qed.
Lemma terms_trans pid s1 s2 s3 : terms_from pid s1 s2 -> terms_from pid s2 s3 -> terms_from pid s1 s3.
Proof. intros H1 H2 p3 H3. destruct (H2 _ H3) as (p2 & Hp2 & E2). destruct (H1 _ Hp2) as (p1 & Hp1 & E1). exists p1. split; [done|congruence]. Qed.

Lemma create_quiet o s s' : dhf_ok s -> event_ok (ev_create o) s -> create_proposal o s = Ok s' -> quiet (fun _ => False) s s'.
Proof.
  intros Ok1 He H. destruct (create_proposal_Ok o s s' Ok1 He H) as (O' & Fk & Nx & _ & Bt & Fr & (p & Hn & Ei & Ep)).
  constructor; [done|done|done|apply Fr|lia|]. intros pid Hlt Hmax _ q Hq. exists q. split; [|done]. rewrite Ep, lookup_insert_ne in Hq; [done|].
  rewrite Ei, uwrap_id; [lia|]. destruct (dk_next _ Ok1). unfold in_u. lia.
Qed.

Lemma update_quiet o s s' : dhf_ok s -> event_ok (ev_update o) s -> update_proposal o s = Ok s' ->
  quiet (fun pid => pid = u32 (update_proposal_operation.proposal_id o)) s s'.
Proof.
  intros Ok1 (Hv & Hx) H. unfold update_proposal_operation.validate in Hv. apply bind_Ok in Hv as (? & _ & Hv). apply check_bind_Ok in Hv as [_ Hv].
  apply bind_Ok in Hv as ([] & V1 & Hv). apply bind_Ok in Hv as ([] & V2 & _). destruct (validated_pay _ V1 V2) as [Sp Np].
  unfold update_proposal in H. set (i := u32 _) in *. destruct (proposals s !! i) as [p|] eqn:Hp; [|done]. do 2 apply check_bind_Ok in H as [_ H].
  apply bind_Ok in H as (pay & Hpay & H). apply as_typed_Ok in Hpay as [-> _]. apply check_bind_Ok in H as [Hle H]. to_prop. apply bind_Ok in H as (d & Hd & H). injection H as <-.
  destruct (dk_proposals _ Ok1 _ _ Hp) as [[Pi Pd Pp Pv Pr] Hlt]. rewrite Pi.
  assert (in_u 32 d /\ d <= end_date p) as [Hd1 Hd2].
  { unfold new_end_date in Hd. destruct (update_proposal_operation.extensions o) as [|[|d'] [|? ?]] eqn:E1; try done; [injection Hd as <-; by split; [apply Pd|lia]|].
    apply check_bind_Ok in Hd as [? Hd]. apply check_bind_Ok in Hd as [_ Hd]. injection Hd as <-. to_prop. split; [|done]. apply Hx. by left. }
  constructor; [|by apply funds_same|done|done|cbn; lia|].
  - apply props_ok; [done| |].
    + intros j q Hq. destruct (decide (i = j)) as [<-|Hne]; [|rewrite lookup_alter_ne in Hq by done; by apply Ok1].
      rewrite lookup_alter_eq, Hp in Hq. injection Hq as <-. split; [|done]. constructor; [done|by split; [apply Pd|]|split; [done|cbn; destruct Pp; lia]|done|]. cbn. intros Hr. specialize (Pr Hr). lia.
    + intros j Hj. by rewrite lookup_alter_is_Some.
  - intros pid _ _ Hne q Hq. exists q. split; [|done]. cbn in Hq. by rewrite lookup_alter_ne in Hq by congruence.
Qed.

Lemma quiet_refl s : dhf_ok s -> quiet (fun _ => False) s s.
Proof. intros H. constructor; [done|by apply funds_same|done|done|lia|]. intros. apply terms_refl. Qed.
Lemma quiet_trans s1 s2 s3 : quiet (fun _ => False) s1 s2 -> quiet (fun _ => False) s2 s3 -> quiet (fun _ => False) s1 s3.
Proof.
  intros [A1 B1 C1 D1 E1 F1] [A2 B2 C2 D2 E2 F2]. constructor; [done|by eapply conserved_trans|congruence|congruence|lia|].
  intros pid H1 H2 H3. eapply terms_trans; [apply F1|apply F2]; done || lia.
Qed.

Lemma vote_quiet voter approve s pid s' : dhf_ok s -> vote_for voter approve s pid = Ok s' -> quiet (fun _ => False) s s'.
Proof.
  intros Ok1 H. unfold vote_for in H. destruct (proposals s !! u32 pid) as [p|] eqn:Hp; [|done]. do 2 apply check_bind_Ok in H as [_ H].
  assert (forall l, (forall v, v ∈ l -> is_Some (proposals s !! v.2)) -> NoDup l -> quiet (fun _ => False) s (set_pvotes l s)) as Q.
  { intros l Hl Hn. constructor; [by apply pvotes_ok|by apply funds_same|done|done|cbn; lia|]. intros i _ _ _ q Hq. by exists q. }
  destruct approve.
  - case_bool_decide; [injection H as <-; by apply quiet_refl|]. apply check_bind_Ok in H as [Hn H]. apply bool_decide_eq_true in Hn. injection H as <-.
    apply Q; [|apply push_pvote_NoDup; [done|apply Ok1]]. intros v Hv. apply push_pvote_elem in Hv as [->|Hv]; [by eexists|by apply Ok1].
  - injection H as <-. apply Q; [|apply NoDup_filter, Ok1]. intros v Hv. apply list_elem_of_filter in Hv as [_ Hv]. by apply Ok1.
Qed.

Lemma votes_quiet o s s' : dhf_ok s -> update_proposal_votes o s = Ok s' -> quiet (fun _ => False) s s'.
Proof.
  intros Ok1 H. unfold update_proposal_votes in H. apply bind_Ok in H as (a & _ & H). apply check_bind_Ok in H as [_ H]. cbv zeta in H.
  set (s0 := set_gv _ s) in H. assert (quiet (fun _ => False) s s0) as Q0.
  { constructor; [destruct Ok1 as [B K V N T X]; by constructor|by apply funds_same|done|done|cbn; lia|]. intros i _ _ _ q Hq. by exists q. }
  eapply (foldM_inv (quiet (fun _ => False) s)) in H; [done| |done]. intros b i b' Qb Hb. eapply quiet_trans; [done|]. by eapply vote_quiet; [apply Qb|].
Qed.

Lemma shrunk_quiet s s' : dhf_ok s -> dhf_ok s' -> shrunk s s' -> quiet (fun _ => False) s s'.
Proof.
  intros O O' [Es Hs Hv]. constructor; [done|apply funds_same; [done|by rewrite Es]|by rewrite Es|by rewrite Es|rewrite Es; cbn; lia|].
  intros pid _ _ _ p' Hp'. exists p'. split; [|done]. by eapply lookup_weaken.
Qed.

Lemma set_removed_quiet pid s : dhf_ok s ->
  quiet (fun _ => False) s (modify_proposal pid (set_removed (u32 (dhf_time s - HIVE_PROPOSAL_MAINTENANCE_CLEANUP))) s).
Proof.
  intros O. destruct (dk_next _ O) as [_ Ht]. destruct (dk_time _ O) as ([Hu1 Hu2] & _). unfold HIVE_PROPOSAL_MAINTENANCE_CLEANUP in *. rewrite (uwrap_id 32) by (unfold in_u; lia).
  constructor; [|by apply funds_same|done|done|cbn; lia|].
  - apply props_ok; [done| |by intros j Hj; rewrite lookup_alter_is_Some]. intros j q Hq. destruct (decide (pid = j)) as [<-|Hne]; [|rewrite lookup_alter_ne in Hq by done; by apply O].
    rewrite lookup_alter_eq in Hq. destruct (proposals s !! pid) as [p|] eqn:Hp; [|done]. cbn in Hq. injection Hq as <-. destruct (dk_proposals _ O _ _ Hp) as [[Pi Pd Pp Pv Pr] Hlt].
    split; [|done]. constructor; [done|split; [apply Pd|unfold in_u; cbn; lia]|done|done|]. intros _. cbn. unfold HIVE_PROPOSAL_MAINTENANCE_CLEANUP. lia.
  - intros j _ _ _ q Hq. cbn in Hq. destruct (decide (pid = j)) as [<-|Hne]; [|rewrite lookup_alter_ne in Hq by done; by exists q].
    rewrite lookup_alter_eq in Hq. destruct (proposals s !! pid) as [p|] eqn:Hp; [|done]. injection Hq as <-. by exists p.
Qed.

Lemma remove_one_quiet owner s limit pid s' limit' : dhf_ok s -> remove_one owner (s, limit) pid = Ok (s', limit') -> quiet (fun _ => False) s s'.
Proof.
  intros O H. unfold remove_one in H. destruct (proposals s !! u32 pid) as [p|] eqn:Hp; [|done]. do 2 apply check_bind_Ok in H as [_ H].
  destruct (remove_proposal_object (proposal_id p) limit s) as [[s1 ok] lim1] eqn:E1. injection H as H _. apply remove_object_Ok in E1 as (O1 & S1 & _); [|done].
  pose proof (shrunk_quiet _ _ O O1 S1) as Q1. rewrite <- H. destruct (_ && _); [|done]. eapply quiet_trans; [done|]. by apply set_removed_quiet.
Qed.

Lemma remove_quiet o s s' : dhf_ok s -> remove_proposal o s = Ok s' -> quiet (fun _ => False) s s'.
Proof.
  intros O H. unfold remove_proposal in H. apply bind_Ok in H as (st & H & H1). injection H1 as <-.
  eapply (foldM_inv (fun st : dhf_state * Z => quiet (fun _ => False) s st.1)) in H; [done| |by apply quiet_refl].
  intros [b lim] i [b' lim'] Qb Hb. cbn in *. eapply quiet_trans; [done|]. by eapply remove_one_quiet; [apply Qb|].
Qed.
End evaluators.

(** ** Blocks *)

Section blocks.
Context `{L : FcLib} `{!FcLaws L}.

(** What a list of virtual operations paid to a proposal. *)
Definition pay_total (pid : Z) (l : list ledger_vop) : Z :=
  sumZ (fun v => match v with proposal_pay_operation i _ _ a => when (i =? pid) (amount a) | _ => 0 end) l.

Lemma pay_total_app pid l1 l2 : pay_total pid (l1 ++ l2) = pay_total pid l1 + pay_total pid l2.
Proof. apply sumZ_app. Qed.

Lemma pay_total_cons pid x l : pay_total pid (pay_vop x :: l) = when (proposal_id x.1 =? pid) x.2 + pay_total pid l.
Proof. done. Qed.

Lemma pay_total_none pid (paid : list (proposal_object * Z)) : pid ∉ proposal_id <$> paid.*1 -> pay_total pid (pay_vop <$> paid) = 0.
Proof.
  induction paid as [|y paid IH]; intros Hx; [done|]. cbn in Hx. apply not_elem_of_cons in Hx as [Hy Hx]. cbn [fmap list_fmap]. rewrite pay_total_cons, IH by done.
  unfold when. destruct (Z.eqb_spec (proposal_id y.1) pid); [congruence|done].
Qed.

Lemma pay_total_le pid d (paid : list (proposal_object * Z)) : 0 <= d -> NoDup (proposal_id <$> paid.*1) ->
  (forall x, x ∈ paid -> proposal_id x.1 = pid -> x.2 <= d) -> pay_total pid (pay_vop <$> paid) <= d.
Proof.
  intros Hd. induction paid as [|x paid IH]; intros Hn Hle; [done|]. cbn in Hn. apply NoDup_cons in Hn as [Hx Hn].
  cbn [fmap list_fmap]. rewrite pay_total_cons. unfold when. destruct (Z.eqb_spec (proposal_id x.1) pid) as [E1|E1].
  - rewrite pay_total_none by (by rewrite <- E1). specialize (Hle x ltac:(by left) E1). lia.
  - apply IH in Hn; [lia|]. intros y Hy. apply Hle. by right.
Qed.

Lemma advance_ok t s : dhf_ok s -> in_u 32 t -> dhf_time s <= t -> dhf_ok (advance t s).
Proof.
  intros [B K V N T X] Ht Hle. unfold dhf_time in *. constructor; cbn [led advance set_led proposals]; unfold dhf_time; cbn [led advance set_led]; try done.
  - by apply set_time_Ok.
  - intros i p Hp. destruct (K i p Hp) as [[Pi Pd Pp Pv Pr] Hlt]. split; [|done]. constructor; try done. intros Hr. specialize (Pr Hr). unfold dhf_time in Pr. cbn. lia.
  - cbn. unfold head_block_time in *. cbn in *. split; [done|]. split; [apply T|]. lia.
  - cbn. unfold head_block_time in *. cbn in *. lia.
Qed.

(** Steps of a block before the payments; nothing is paid to proposals. *)
Definition silent (s s' : dhf_state) : Prop :=
  quiet (fun _ => False) s s' /\ next_proposal s' = next_proposal s /\ dhf_time s' = dhf_time s /\
  proposals s' ⊆ proposals s /\
  forall pid, pay_total pid (vops (led s')) = pay_total pid (vops (led s)).

Lemma silent_trans s1 s2 s3 : silent s1 s2 -> silent s2 s3 -> silent s1 s3.
Proof. intros (A1 & B1 & C1 & D1 & E1) (A2 & B2 & C2 & D2 & E2). split_and!; [by eapply quiet_trans|congruence|congruence|by etransitivity|intros pid; congruence]. Qed.

Lemma remove_silent t s : dhf_ok s -> silent s (remove_proposals t s).
Proof.
  intros O. destruct (remove_proposals_Ok t s O) as [O' S]. split; [by apply shrunk_quiet|]. destruct S as [Es Hs _]. split_and!; [by rewrite Es|by rewrite Es|done|by rewrite Es].
Qed.

Lemma led_quiet l s : dhf_ok s -> conserved (led s) l -> head_block_time l = head_block_time (led s) -> last_hardfork l = last_hardfork (led s) ->
  quiet (fun _ => False) s (set_led l s).
Proof.
  intros O [B G] Ht Hf. constructor; [by apply led_ok|by split|done|done|cbn; lia|]. intros i _ _ _ q Hq. by exists q.
Qed.

Lemma push_silent v s : dhf_ok s -> (forall i n m a, v <> proposal_pay_operation i n m a) -> silent s (set_led (push_vop v (led s)) s).
Proof.
  intros O Hv. split_and!; [apply led_quiet; [done| |done|done]|done|done|done|].
  - split; [apply push_books, O|]. apply push_vop_Ok, O.
  - intros pid. change (vops (led (set_led (push_vop v (led s)) s))) with (vops (led s) ++ [v]). rewrite pay_total_app.
    assert (pay_total pid [v] = 0) as ->; [|lia]. destruct v; try done. by edestruct Hv.
Qed.

Lemma interval_silent x s s' : silent s s' -> silent s (set_interval_ledger x s').
Proof.
  intros ([A B C D E1 F] & G & H & I & J). split_and!; [|done|done|done|done]. constructor; [|done|done|done|done|done]. destruct A as [A1 A2 A3 A4 A5 A6]. by constructor.
Qed.

Lemma silent_refl s : dhf_ok s -> silent s s.
Proof. intros O. split_and!; [by apply quiet_refl|done|done|done|done]. Qed.

Lemma record_silent t s : dhf_ok s -> silent s (record_funding t s).
Proof.
  intros O. unfold record_funding. destruct (negb _); [by apply silent_refl|]. destruct (_ <=? _); [by apply silent_refl|]. apply interval_silent, push_silent; [done|done].
Qed.

Lemma daily_silent t p s : dhf_ok s -> silent s (set_next_daily_maintenance_time t p s).
Proof.
  intros O. split_and!; [|done|done|done|done]. constructor; [|by apply funds_same|done|done|cbn; lia|]; [destruct O as [A1 A2 A3 A4 A5 A6]; by constructor|].
  intros i _ _ _ q Hq. by exists q.
Qed.

Lemma deposit_vops name t l l' : deposit_liquid name t l = Ok l' -> vops l' = vops l.
Proof.
  intros H. unfold deposit_liquid in H. apply bind_Ok in H as ([l1 t1] & H & H1). apply bind_Ok in H1 as (u & _ & H1). injection H1 as <-. by eapply adjust_vops.
Qed.
Lemma withdraw_vops name c a l l' t : withdraw_liquid name c a l = Ok (l', t) -> vops l' = vops l.
Proof. intros H. unfold withdraw_liquid in H. apply bind_Ok in H as (n & _ & H). by eapply adjust_vops. Qed.

Lemma convert_silent t s s' : dhf_ok s -> 0 <= gap HIVE_SYMBOL (led s) -> convert_funds t s = Ok s' -> silent s s'.
Proof.
  intros O Hg H. unfold convert_funds in H. destruct (negb _); [injection H as <-; by apply silent_refl|]. cbv zeta in H.
  set (s0 := set_next_daily_maintenance_time _ _ s) in *. pose proof (daily_silent t HIVE_DAILY_PROPOSAL_MAINTENANCE_PERIOD s O) as S0. fold s0 in S0.
  eapply silent_trans; [exact S0|]. assert (dhf_ok s0) as O0 by apply S0. change (gap HIVE_SYMBOL (led s)) with (gap HIVE_SYMBOL (led s0)) in Hg. clearbody s0. clear s O S0.
  pose proof (bk_wf _ (dk_books _ O0)) as W. apply bind_Ok in H as (a & Ha & H). apply get_account_Ok in Ha as [_ ((_ & _ & Fh & _) & _)]; [|done]. unfold funds_wf in Fh.
  destruct (_ =? 0); [injection H as <-; by apply silent_refl|]. apply bind_Ok in H as (m & Hm & H). cbv zeta in H.
  unfold HIVE_PROPOSAL_CONVERSION_RATE, HIVE_1_BASIS_POINT in Hm. change (HIVE_100_PERCENT / 10000) with 1 in Hm. change (5 * 1) with 5 in Hm.
  apply safe_mul_Ok in Hm as [-> Hr]; [|unfold in_s; lia|unfold in_s; lia]. apply check_bind_Ok in H as [_ H]. apply bind_Ok in H as (hbd & _ & H).
  destruct (_ <? _); [injection H as <-; by apply silent_refl|]. set (x := mk_asset _ HIVE_SYMBOL) in *.
  assert (typed HIVE_SYMBOL x) as Tx.
  { split; [done|]. unfold funds_wf, x. cbn [amount]. unfold in_s in Hr. change HIVE_100_PERCENT with 10000. rewrite Z.quot_div_nonneg by lia. split; [apply Z.div_pos; lia|]. apply Z.div_lt_upper_bound; lia. }
  apply bind_Ok in H as ([l1 t1] & H1 & H). pose proof (withdraw_vops _ _ _ _ _ _ H1) as V1. apply withdraw_liquid_Ok in H1 as [[W1 F1 T1 G1] ->]; [|done|apply Tx|done|by left].
  apply bind_Ok in H as ([[g left] h] & H2 & H). apply convert_HIVE_to_HBD_Ok in H2 as (Is & -> & Th & _); [|apply W1|done|].
  2: { rewrite <- supply_HIVE by apply W1. eapply temp_covered; [done|done|]. rewrite G1. lia. }
  destruct (set_issued l1 g _ W1 Is) as [Wg Gg]. apply bind_Ok in H as (l2 & H3 & H). apply bind_Ok in H as (u & Hz & H). injection H as <-. pose proof (deposit_vops _ _ _ _ H3) as V2.
  apply deposit_liquid_Ok with (c := HBD_SYMBOL) in H3 as [W2 F2 G2]; [|done|done|by right].
  assert (frame (led s0) l2) as F by (etransitivity; [exact F1|]; etransitivity; [|exact F2]; apply set_gpo_frame, Is).
  eapply silent_trans; [|apply (push_silent _ (set_led l2 s0))]; [|apply led_ok; [done| |apply F]|done].
  - split_and!; [apply led_quiet; [done| |apply F|apply F]|done|apply F|done|intros pid; cbn [led set_led]; by rewrite V2; cbn [vops set_gpo]; rewrite V1].
    split; [eapply frame_books; [apply O0|done|done]|]. intros c. rewrite G2, Gg, G1. lia.
  - eapply frame_books; [apply O0|done|done].
Qed.

(** What is due to a proposal for the time between two maintenances. *)
Definition due_between (p : proposal_object) (t0 t1 : Z) : Z := due p (since_start p t1) - due p (since_start p t0).

Lemma due_between_nonneg p t0 t1 : pay_fits (daily_pay p) -> t0 <= t1 -> 0 <= due_between p t0 t1.
Proof. intros Hp Ht. unfold due_between. pose proof (due_mono p (since_start p t0) (since_start p t1) Hp ltac:(unfold since_start; lia)). lia. Qed.

(** A block pays a proposal at most what is due since the last maintenance. *)
Record block_done (t : Z) (s s' : dhf_state) : Prop := {
  bd_ok : dhf_ok s';
  bd_funds : funds_kept s s';
  bd_hardfork : last_hardfork (led s') = last_hardfork (led s);
  bd_next : next_proposal s' = next_proposal s;
  bd_terms pid : terms_from pid s s';
  bd_budget : last_budget_time s <= last_budget_time s' <= t;
  bd_pay pid : has_hardfork 30 (led s) = true ->
    pay_total pid (vops (led s')) - pay_total pid (vops (led s)) <=
    match proposals s !! pid with Some p => due_between p (last_budget_time s) (last_budget_time s') | None => 0 end
}.

Lemma update_settings_ok t s : dhf_ok s -> t = dhf_time s -> dhf_ok (update_settings t s).
Proof. intros [B K V N T X] ->. constructor; try done. cbn. split; [apply T|]. split; [apply T|]. unfold dhf_time. cbn. lia. Qed.

Lemma candidate_due t s p x : dhf_ok s -> t = dhf_time s -> has_hardfork 30 (led s) = true -> candidate t s p -> x <= pay_amount t s p ->
  exists p0, proposals s !! proposal_id p = Some p0 /\ (0 <= x -> x <= due_between p0 (last_budget_time s) t).
Proof.
  intros O -> Hf Hc Hx. destruct (candidate_ok _ _ _ O Hc) as [t0 Po]. destruct Hc as (p0 & Hp0 & _ & Ep & _). exists p0. split; [done|]. intros H0. destruct (dk_time _ O) as (T1 & T2 & T3).
  destruct (dk_proposals _ O _ _ Hp0) as [Po0 _]. pose proof (due_between_nonneg p0 _ _ (po_pay _ _ _ Po0) T3) as Hn.
  unfold pay_amount in Hx. rewrite Hf, Ep in Hx. exact Hx.
Qed.

Lemma payments_done t s s' : dhf_ok s -> t = dhf_time s -> t - last_budget_time s <= 100 * 86400 -> make_payments t s = Ok s' -> block_done t s s'.
Proof.
  intros O Et Hle H. destruct (dk_time _ O) as (T1 & T2 & T3). destruct (is_maintenance_period t s) eqn:Hm.
  2: { unfold make_payments in H. rewrite Hm in H. injection H as <-. constructor; [done|by apply funds_same|done|done|intros; apply terms_refl|lia|]. intros pid _.
    destruct (proposals s !! pid) as [p|]; [unfold due_between|]; lia. }
  destruct (make_payments_Ok t s s' O Et Hm Hle H) as (ps & paid & s2 & Pv & T & s3 & P & ->). pose proof (tallied_ok _ _ O T) as O2. pose proof (tl_state _ _ T) as Es. pose proof (pm_state _ _ _ P) as Es3.
  assert (dhf_ok s3) as O3. { rewrite Es3. apply led_ok; [done|apply P|apply P]. }
  assert (led s2 = led s) as El by (by rewrite Es). pose proof (pm_frame _ _ _ P) as F. rewrite El in F.
  assert (dhf_time s3 = dhf_time s) as Et3 by (unfold dhf_time; apply F).
  constructor.
  - apply update_settings_ok; [done|congruence].
  - unfold funds_kept. cbn. rewrite <- El. apply P.
  - apply F.
  - cbn. by rewrite Es3, Es.
  - intros pid p' Hp'. cbn in Hp'. rewrite Es3 in Hp'. cbn in Hp'. destruct (tallied_lookup _ _ _ _ T Hp') as (p & Hp & ->). by exists p.
  - cbn. lia.
  - intros pid Hf. cbn [led update_settings set_next_maintenance_time last_budget_time]. rewrite (pm_vops _ _ _ P), El, pay_total_app.
    destruct (pv_first _ _ _ _ _ Pv) as (n & Hn & _). assert (NoDup (proposal_id <$> paid.*1)) as Hd.
    { rewrite Hn. eapply sublist_NoDup; [apply (pv_once _ _ _ _ _ Pv)|]. apply fmap_sublist, sublist_take. }
    assert (forall x, x ∈ paid -> proposal_id x.1 = pid -> exists p0, proposals s !! pid = Some p0 /\ x.2 <= due_between p0 (last_budget_time s) t) as Hx.
    { intros x Hx <-. destruct (proj1 (Forall_forall _ _) (pv_amounts _ _ _ _ _ Pv) x Hx) as (_ & X0 & X1).
      assert (x.1 ∈ ps) as Hin by (eapply elem_of_sublist; [|apply (sublist_take ps n)]; rewrite <- Hn; apply list_elem_of_fmap_2; done).
      apply (pv_candidates _ _ _ _ _ Pv) in Hin. destruct (candidate_due t s x.1 x.2 O Et Hf Hin X1) as (p0 & Hp0 & Hle0). exists p0. split; [done|]. by apply Hle0. }
    destruct (proposals s !! pid) as [p|] eqn:Hp.
    + assert (pay_total pid (pay_vop <$> paid) <= due_between p (last_budget_time s) t); [|lia]. destruct (dk_proposals _ O _ _ Hp) as [Po _].
      apply pay_total_le; [apply due_between_nonneg; [apply Po|lia]|done|]. intros x Hx1 Hx2. destruct (Hx x Hx1 Hx2) as (p0 & Hp0 & ?). by simplify_eq.
    + rewrite pay_total_none; [lia|]. intros Hin. apply list_elem_of_fmap in Hin as (q & -> & Hq). apply list_elem_of_fmap in Hq as (x & -> & Hq). by destruct (Hx x Hq eq_refl) as (? & ? & _).
Qed.

Lemma block_Ok t s s' : dhf_ok s -> accounted (led s) -> event_ok (ev_block t) s -> process_proposals (advance t s) = Ok s' -> block_done t s s'.
Proof.
  intros O [Gh _] (Ht & Hle & Hmax) H. pose proof (advance_ok t s O Ht Hle) as O0. unfold process_proposals in H. cbv zeta in H.
  change (dhf_time (advance t s)) with t in H. set (s0 := advance t s) in *. apply bind_Ok in H as (s3 & H3 & H).
  pose proof (remove_silent t s0 O0) as S1. set (s1 := remove_proposals t s0) in *. pose proof (record_silent t s1 (qt_ok _ _ _ (proj1 S1))) as S2. set (s2 := record_funding t s1) in *.
  pose proof (silent_trans _ _ _ S1 S2) as S12. assert (0 <= gap HIVE_SYMBOL (led s2)) as Hg2.
  { destruct S12 as ([_ [_ G] _ _ _ _] & _). rewrite G. unfold s0. cbn. destruct (set_time_Ok t (led s) (dk_books _ O)) as [_ Gt]. rewrite Gt. lia. }
  apply convert_silent in H3; [|apply S12|done]. pose proof (silent_trans _ _ _ S12 H3) as (Q & Nx & Tm & Sb & Pt). change (dhf_time s0) with t in Tm.
  destruct Q as [O3 F3 B3 Hf3 N3 K3]. cbn in B3, Hf3, Nx. apply payments_done in H as [Od Fd Hfd Nd Td Bd Pd]; [|done|done|rewrite B3; lia].
  change (proposals s0) with (proposals s) in Sb.
  constructor; [done|eapply conserved_trans; [apply (set_time_Ok t), O|]; by eapply conserved_trans|rewrite Hfd; exact Hf3|rewrite Nd; exact Nx| |lia|].
  - intros pid p' Hp'. destruct (Td pid p' Hp') as (p3 & Hp3 & ->). exists p3. split; [|done]. by eapply lookup_weaken.
  - intros pid Hf. specialize (Pd pid). unfold has_hardfork in Pd, Hf. rewrite Hf3 in Pd. specialize (Pd Hf). rewrite B3 in Pd. specialize (Pt pid). change (vops (led s0)) with (vops (led s)) in Pt. rewrite Pt in Pd.
    destruct (proposals s3 !! pid) as [p|] eqn:Hp; [by rewrite (lookup_weaken _ _ _ _ Hp Sb)|]. destruct (proposals s !! pid) as [p|] eqn:Hp2; [|done].
    destruct (dk_proposals _ O _ _ Hp2) as [Po _]. pose proof (due_between_nonneg p (last_budget_time s) (last_budget_time s') (po_pay _ _ _ Po)). lia.
Qed.
End blocks.

(** ** Histories *)

Section histories.
Context `{L : FcLib} `{!FcLaws L}.

Lemma kept_accounted s s' : funds_kept s s' -> accounted (led s) -> accounted (led s').
Proof. intros [_ G] [A1 A2]. split; by rewrite G. Qed.

(** The proposals whose terms an event may change. *)
Definition touches (e : dhf_event) (pid : Z) : Prop :=
  match e with ev_update o => pid = u32 (update_proposal_operation.proposal_id o) | _ => False end.

Lemma event_Ok e s s' : dhf_ok s -> accounted (led s) -> event_ok e s -> dhf_apply e s = Ok s' ->
  match e with ev_block t => block_done t s s' | _ => quiet (touches e) s s' end.
Proof.
  intros O A He H. destruct e as [o|o|o|o|t|l|g]; cbn [dhf_apply touches] in *.
  - by eapply create_quiet.
  - by eapply update_quiet.
  - by eapply votes_quiet.
  - by eapply remove_quiet.
  - by eapply block_Ok.
  - injection H as <-. destruct He as (Hs & Ht & Hf). apply led_quiet; [done| |done|done]. by apply ledger_step_Ok; [apply O| |].
  - injection H as <-. cbn in He. constructor; [|by apply funds_same|done|done|cbn; lia|intros i _ _ _ q Hq; by exists q]. destruct O as [B K V N T X]. constructor; try done.
    + intros v Hv. apply V. by eapply elem_of_sublist.
    + by eapply sublist_NoDup.
Qed.

Lemma event_kept e s s' : dhf_ok s -> accounted (led s) -> event_ok e s -> dhf_apply e s = Ok s' -> dhf_ok s' /\ accounted (led s').
Proof.
  intros O A He H. pose proof (event_Ok e s s' O A He H) as E1. destruct e; (split; [apply E1|eapply kept_accounted; [apply E1|done]]).
Qed.

Lemma history_kept s es s' : history s es s' -> dhf_ok s -> accounted (led s) -> dhf_ok s' /\ accounted (led s').
Proof. induction 1 as [s|s es s1 e s2 H IH He Ha]; intros O A; [done|]. destruct (IH O A). by eapply event_kept. Qed.

(** C9. The books of the decentralised fund are exact: over any history of operations on
    proposals, blocks, other movements of funds and changes of the governance every vote
    is for an existing proposal and is counted once, a removed proposal is past its end,
    no balance becomes negative, and all that was issued is held by someone, the fees,
    payments and conversions of the fund included.  The history creates no proposal with
    a daily pay of [2 ^ 46] or more, and no block is more than 100 days after the last
    maintenance of the fund. *)
Theorem fund_books_kept (s : dhf_state) (es : list dhf_event) (s' : dhf_state) :
  history s es s' -> dhf_ok s -> accounted (led s) -> dhf_ok s' /\ accounted (led s').
Proof. apply history_kept. Qed.

(** What the blocks of a history paid to a proposal. *)
Definition paid_by (e : dhf_event) (pid : Z) (s s' : dhf_state) : Z :=
  match e with ev_block _ => pay_total pid (vops (led s')) - pay_total pid (vops (led s)) | _ => 0 end.
Inductive earned (pid : Z) : dhf_state -> list dhf_event -> Z -> dhf_state -> Prop :=
| earned_nil s : earned pid s [] 0 s
| earned_snoc s es x s1 e s2 : earned pid s es x s1 -> event_ok e s1 -> dhf_apply e s1 = Ok s2 ->
    earned pid s (es ++ [e]) (x + paid_by e pid s1 s2) s2.

Lemma earned_history pid s es x s' : earned pid s es x s' -> history s es s'.
Proof. induction 1; [constructor|by econstructor]. Qed.

Lemma due_terms p q t0 t1 : terms p = terms q -> due_between p t0 t1 = due_between q t0 t1.
Proof. unfold terms, due_between, due, since_start. intros [= -> ->]. done. Qed.

Lemma next_grows e s s' : dhf_ok s -> accounted (led s) -> event_ok e s -> dhf_apply e s = Ok s' -> next_proposal s <= next_proposal s'.
Proof. intros O A He H. pose proof (event_Ok e s s' O A He H) as E1. destruct e; try apply E1. rewrite (bd_next _ _ _ E1). lia. Qed.

Lemma earned_bound pid p s es x s' : earned pid s es x s' -> dhf_ok s -> accounted (led s) -> proposals s !! pid = Some p ->
  has_hardfork 30 (led s) = true -> next_proposal s' <= 2 ^ 32 -> Forall (fun e => ~ touches e pid) es ->
  x <= due_between p (last_budget_time s) (last_budget_time s') /\ last_budget_time s <= last_budget_time s' /\ pid < next_proposal s' /\
  last_hardfork (led s') = last_hardfork (led s) /\ forall p', proposals s' !! pid = Some p' -> terms p' = terms p.
Proof.
  intros H O A Hp Hf. induction H as [s|s es x s1 e s2 H IH He Ha]; intros Hmax Hes.
  { split_and!; [unfold due_between; lia|lia|by apply (dk_proposals _ O pid p)|done|]. intros p' Hp'. congruence. }
  apply Forall_app in Hes as [Hes He']. rewrite Forall_singleton in He'. destruct (history_kept _ _ _ (earned_history _ _ _ _ _ H) O A) as [O1 A1].
  pose proof (next_grows e s1 s2 O1 A1 He Ha) as Hn. destruct (IH O A Hp Hf ltac:(lia) Hes) as (Hx & Hb & Hlt & Hfk & Ht). clear IH.
  pose proof (event_Ok e s1 s2 O1 A1 He Ha) as E1. assert (due_between p (last_budget_time s) (last_budget_time s2) = due_between p (last_budget_time s) (last_budget_time s1) + due_between p (last_budget_time s1) (last_budget_time s2)) as Ed by (unfold due_between; lia).
  destruct (dk_proposals _ O _ _ Hp) as [Po _]. destruct e as [o|o|o|o|t|l|g]; cbn [paid_by touches] in *.
  5: { destruct E1 as [Od Fd Hfd Nd Td Bd Pd]. unfold has_hardfork in *. rewrite Hfk in Pd. specialize (Pd pid Hf). pose proof (due_between_nonneg p _ _ (po_pay _ _ _ Po) (proj1 Bd)) as Hnn.
    split_and!; [|lia|lia|congruence|].
    - destruct (proposals s1 !! pid) as [p1|] eqn:Hp1; [|lia]. rewrite (due_terms p1 p) in Pd by (by apply Ht). lia.
    - intros p' Hp'. destruct (Td pid p' Hp') as (p1 & Hp1 & ->). by apply Ht. }
  all: destruct E1 as [Od Fd Bd Hfd Nd Td]; rewrite Bd; split_and!; [lia|lia|lia|congruence|];
    intros p' Hp'; destruct (Td pid Hlt Hmax He' p' Hp') as (p1 & Hp1 & ->); by apply Ht.
Qed.

(** C10. A proposal is never overpaid: from hardfork 30 on the payments of any number of
    maintenance periods add up to at most its daily pay for the seconds since its start
    (or since the history began), rounded down once and not per period, whatever votes,
    operations and movements of funds happen in between, as long as its terms are not
    updated.  As for C9 daily pays are below [2 ^ 46] and no block is more than 100 days
    after the last maintenance; the history ends with at most [2 ^ 32] proposal ids. *)
Theorem proposal_never_overpaid (pid : Z) (p : proposal_object) (s s' : dhf_state) (es : list dhf_event) (x : Z) :
  earned pid s es x s' -> dhf_ok s -> accounted (led s) -> proposals s !! pid = Some p -> has_hardfork 30 (led s) = true ->
  next_proposal s' <= 2 ^ 32 -> Forall (fun e => ~ touches e pid) es ->
  x <= due p (since_start p (dhf_time s')) - due p (since_start p (last_budget_time s)).
Proof.
  intros H O A Hp Hf Hmax Hes. destruct (earned_bound pid p s es x s' H O A Hp Hf Hmax Hes) as (Hx & Hb & _).
  destruct (history_kept _ _ _ (earned_history _ _ _ _ _ H) O A) as [O1 _]. destruct (dk_proposals _ O _ _ Hp) as [Po _]. destruct (dk_time _ O1) as (_ & _ & Hl).
  pose proof (due_between_nonneg p _ _ (po_pay _ _ _ Po) Hl). unfold due_between in *. lia.
Qed.

(** *** Who stands behind a proposal *)

(** Someone without a proxy who votes for the proposal. *)
Definition stands_for (s : dhf_state) (pid : Z) (x : string) : bool := bool_decide (px (gv s) x = None) && bool_decide ((x, pid) ∈ votes s).
(** The account, or one its chain of at most four proxies reaches, votes for the proposal. *)
Definition backs (s : dhf_state) (pid : Z) (b : string) : bool :=
  existsb (fun j => match anc (px (gv s)) j b with Some x => stands_for s pid x | None => false end) (seq 0 (S max_depth)).
(** The stake that votes for a proposal: shares that are not delayed, each counted once. *)
Definition stake_behind (s : dhf_state) (pid : Z) : Z := sumZ (fun b => if backs s pid b then dirp (gv s) b else 0) (names (gv s)).

(** A proposal that runs now, with the stake behind it. *)
Definition running (head_time : Z) (s : dhf_state) (p : proposal_object) : Prop :=
  exists p0, proposals s !! proposal_id p = Some p0 /\ start_date p0 <= head_time <= end_date p0 /\ p = set_total_votes (stake_behind s (proposal_id p)) p0.

Lemma add_voters_value s l r n : gov_ok (gv s) -> in_u 64 r -> foldM (add_voter s) r l = Ok n ->
  n = u64 (r + sumZ (power (names (gv s)) (px (gv s)) (dirp (gv s))) (filter (fun x => px (gv s) x = None) l)).
Proof.
  intros O. revert r. induction l as [|x l IH]; intros r Hr H; cbn [foldM] in H.
  { injection H as <-. cbn. by rewrite Z.add_0_r, uwrap_id. }
  apply bind_Ok in H as (r1 & H1 & H). unfold add_voter in H1. apply bind_Ok in H1 as (a & Ha & H1).
  unfold Governance.get_account in Ha. destruct (Governance.accounts (gv s) !! x) as [b|] eqn:Hx; [|done]. injection Ha as <-.
  assert (px (gv s) x = proxy b) as Hp by (unfold px; by rewrite Hx). rewrite filter_cons. unfold has_proxy in H1. destruct (proxy b).
  - injection H1 as <-. rewrite decide_False by congruence. by apply IH.
  - rewrite decide_True by done. rewrite (power_value _ _ _ O Hx) in H1. cbn [mbind result_bind] in H1. injection H1 as <-.
    rewrite (IH _ (uwrap_range 64 _ ltac:(lia)) H). rewrite sumZ_cons, Z.add_assoc. unfold uwrap. by rewrite Zplus_mod_idemp_l.
Qed.

Lemma calculate_votes_value pid s n : gov_ok (gv s) -> NoDup (votes s) -> calculate_votes pid s = Ok n -> n = stake_behind s pid.
Proof.
  intros O Hn H. unfold calculate_votes in H. apply add_voters_value in H; [|done|unfold in_u; lia]. rewrite Z.add_0_l in H. pose proof (ok_wf _ O) as W.
  set (R := filter (fun x => px (gv s) x = None) (voters_of pid s)) in *. set (V := (fun x => (x, ""%string)) <$> R).
  assert (forall x, (x, ""%string) ∈ V <-> stands_for s pid x = true) as HV.
  { intros x. unfold V. rewrite list_elem_of_fmap. unfold stands_for. rewrite andb_true_iff, !bool_decide_eq_true. subst R. unfold voters_of.
    split; [intros (y & [= <-] & Hy); apply list_elem_of_filter in Hy as [Hr Hy]; apply list_elem_of_fmap in Hy as ([z i] & -> & Hz); apply list_elem_of_filter in Hz as [<- Hz]; by split|].
    intros [Hr Hx]. exists x. split; [done|]. apply list_elem_of_filter. split; [done|]. apply list_elem_of_fmap. exists (x, pid). split; [done|]. by apply list_elem_of_filter. }
  assert (NoDup V) as HN.
  { apply NoDup_fmap; [intros x y; congruence|]. apply NoDup_filter. unfold voters_of. apply NoDup_fmap_fst; [|by apply NoDup_filter].
    intros x i j Hi Hj. apply list_elem_of_filter in Hi as [Hi _], Hj as [Hj _]. cbn in *. congruence. }
  assert (forall v, v ∈ V -> px (gv s) v.1 = None) as Hroot.
  { intros v (x & -> & Hx)%list_elem_of_fmap. by apply list_elem_of_filter in Hx as [? _]. }
  assert (sumZ (power (names (gv s)) (px (gv s)) (dirp (gv s))) R = sumZ (fun v => ind (v.2 = ""%string) * power (names (gv s)) (px (gv s)) (dirp (gv s)) v.1) V) as E1.
  { unfold V. rewrite sumZ_fmap. apply sumZ_ext. intros x _. cbn [fst snd]. rewrite ind_true by done. lia. }
  pose proof (tally_bound (names (gv s)) (px (gv s)) (dirp (gv s)) ""%string V (gw_acyclic _ W) HN Hroot (fun b _ => dirp_nonneg _ b O)) as Hb.
  pose proof (dirp_total _ O). pose proof (ok_range _ O). rewrite H, E1, uwrap_id by (unfold in_u; lia).
  rewrite power_voters by (apply W || done). apply sumZ_ext. intros b _. replace (reaches (px (gv s)) V b "") with (backs s pid b); [done|].
  unfold reaches, backs. induction (seq 0 (S max_depth)) as [|j l IH]; [done|]. cbn [existsb]. rewrite IH. f_equal. destruct (anc _ j b) as [x|]; [|done].
  specialize (HV x). destruct (stands_for s pid x), (bool_decide_reflect ((x, ""%string) ∈ V)); naive_solver.
Qed.

Lemma paid_ext (C C' : proposal_object -> Prop) head_time s ps paid : (forall p, C p <-> C' p) -> paid_by_votes C head_time s ps paid -> paid_by_votes C' head_time s ps paid.
Proof. intros Hc [A B D E F G]. constructor; try done. intros p. by rewrite A, Hc. Qed.

(** C19. Payments follow the votes: in a maintenance period (at most 100 days after the
    last one) the proposals that run now are paid in the order of the stake behind them at
    that moment: the shares, without those still delayed, of the accounts without a proxy
    that vote for the proposal and of those whose chain of at most four proxies reaches
    such an account.  Each is paid once and exactly what is due for the period (from
    hardfork 30 on the daily pay for the seconds since the start less what was due at the
    last maintenance, before it the daily pay for the seconds of the period, rounded
    down), until the budget of one percent of the treasury a day is used up; whoever gets
    less, or nothing although there are votes, comes after the budget was spent to the
    last unit.  The receivers get what the treasury pays.  Daily pays are below 2^46, and
    the records of governance are in order ([gov_ok], which its histories keep). *)
Theorem payments_follow_votes (head_time : Z) (s s' : dhf_state) :
  dhf_ok s -> gov_ok (gv s) -> head_time = dhf_time s -> is_maintenance_period head_time s = true -> head_time - last_budget_time s <= 100 * 86400 ->
  make_payments head_time s = Ok s' ->
  exists ps paid, paid_by_votes (running head_time s) head_time s ps paid /\ vops (led s') = vops (led s) ++ (pay_vop <$> paid) /\
    forall n, hbd_held n (led s') = hbd_held n (led s) + paid_to n paid - when (bool_decide (n = treasury)) (total_paid paid).
Proof.
  intros O G Et Hm Hle H. destruct (make_payments_Ok head_time s s' O Et Hm Hle H) as (ps & paid & s2 & Pv & T & s3 & P & ->). exists ps, paid.
  assert (led s2 = led s) as El by (by rewrite (tl_state _ _ T)). destruct P as [_ _ _ Hh Hv]. rewrite El in *. split; [|done].
  eapply paid_ext; [|exact Pv]. intros p. split.
  - intros (p0 & Hp0 & Ha & Ep & Hn). exists p0. unfold is_active in Ha. split_and!; [done|lia|lia|]. by rewrite <- (calculate_votes_value _ _ _ G (dk_nodup _ O) Hn).
  - intros (p0 & Hp0 & Hd & Ep). exists p0. assert (is_active head_time p0 = true) as Ha by (unfold is_active; lia). split_and!; [done|done| |].
    + rewrite Ep at 1. f_equal. by rewrite Ep at 2.
    + destruct (make_payments_tallies _ _ _ _ _ (ok_keyed _ O) Hm H Hp0 Ha) as [n Hn]. rewrite Hn. f_equal. rewrite (calculate_votes_value _ _ _ G (dk_nodup _ O) Hn). by rewrite Ep at 2.
Qed.

(** C31. Proposals that were removed disappear while the limit on removals is not zero: a
    round of removals deletes no more than [remove_threshold] objects, votes and proposals
    counted together (no bound is meant by a negative limit), no proposal goes while a
    vote for it is stored, nothing appears, and after as many rounds as there are votes and
    proposals none of the removed ones is left. *)
Theorem removed_proposals_disappear (n : nat) (s : dhf_state) :
  dhf_ok s -> remove_threshold (gv s) <> 0 -> (stored s <= n)%nat ->
  let rounds k := Nat.iter k (remove_proposals (dhf_time s)) s in
  none_removed (rounds n) /\
  (forall k, proposals (rounds (S k)) ⊆ proposals (rounds k) /\ votes (rounds (S k)) `sublist_of` votes (rounds k)) /\
  (forall k v, v ∈ votes (rounds k) -> is_Some (proposals (rounds k) !! v.2)) /\
  (0 < remove_threshold (gv s) -> forall k, Z.of_nat (stored (rounds k)) - Z.of_nat (stored (rounds (S k))) <= remove_threshold (gv s)).
Proof.
  intros O Hl Hn rounds. assert (forall k, dhf_ok (rounds k) /\ shrunk s (rounds k)) as R by (intros k; by apply remove_iter_Ok).
  split_and!; [by apply removal_ends| | |].
  - intros k. destruct (R k) as [Ok1 _]. destruct (remove_proposals_Ok (dhf_time s) _ Ok1) as [_ [_ Hp Hv]]. done.
  - intros k v Hv. destruct (R k) as [Ok1 _]. by apply Ok1.
  - intros Hpos k. destruct (R k) as [_ Hs]. assert (remove_threshold (gv (rounds k)) = remove_threshold (gv s)) as E by (by rewrite (sh_state _ _ Hs)).
    enough (Z.of_nat (stored (rounds k)) <= Z.of_nat (stored (rounds (S k))) + remove_threshold (gv (rounds k))) by lia. apply remove_due_limit. lia.
Qed.

(** C30. Only its creator can remove a proposal, once hardfork 31 is active. *)
Theorem only_creator_removes (o : remove_proposal_operation.t) (s s' : dhf_state) (i : Z) (p : proposal_object) :
  dhf_ok s -> has_hardfork 31 (led s) = true -> remove_proposal o s = Ok s' -> proposals s !! i = Some p ->
  creator p = remove_proposal_operation.proposal_owner o \/ proposals s' !! i = Some p.
Proof.
  intros O Hf H Hp. unfold remove_proposal in H. apply bind_Ok in H as (st & H & H1). injection H1 as <-.
  destruct (decide (creator p = remove_proposal_operation.proposal_owner o)) as [|Hne]; [by left|right].
  eapply (foldM_inv (fun st : dhf_state * Z => quiet (fun _ => False) s st.1 /\ proposals st.1 !! i = Some p)) in H; [by destruct H| |split; [by apply quiet_refl|done]].
  intros [b lim] pid [b' lim'] [Qb Hb] Hone. cbn [fst] in *. pose proof (qt_ok _ _ _ Qb) as Ob. split; [eapply quiet_trans; [done|]; by eapply remove_one_quiet|].
  unfold remove_one in Hone. destruct (proposals b !! u32 pid) as [q|] eqn:Hq; [|done]. unfold has_hardfork in Hf, Hone. rewrite (qt_hardfork _ _ _ Qb), Hf in Hone. cbn [negb orb] in Hone.
  apply check_bind_Ok in Hone as [_ Hone]. apply check_bind_Ok in Hone as [Ho Hone]. apply bool_decide_eq_true in Ho.
  destruct (remove_proposal_object (proposal_id q) lim b) as [[s1 ok] lim1] eqn:E1. injection Hone as <- _. pose proof (ok_keyed _ Ob _ _ Hq) as Ei.
  assert (i <> proposal_id q) as Hi. { intros ->. rewrite Ei in Hb. rewrite Hq in Hb. injection Hb as ->. done. }
  apply remove_object_Ok in E1 as (_ & _ & Hsame & _); [|done]. destruct (_ && _); [|by rewrite Hsame]. cbn. rewrite lookup_alter_ne by congruence. by rewrite Hsame.
Qed.
End histories.
