(* ===== verification/ProposalSamples.v ===== *)
(** * The decentralised fund at work

    Concrete histories of the fund: the hypotheses of the theorems of ProposalHistory.v
    hold in them, and what the model shows of unusual operations. *)

From stdpp Require Import base numbers strings option list sorting gmap.
From S2P Require Import Prelude Fc Config AssetSymbol Asset Balance Market Resources Operations Governance Voting Ledger Transfers LedgerSteps LedgerSamples Proposals ProposalBooks ProposalHistory.
Open Scope Z_scope.

Module Sample.
#[local] Existing Instance fc_ref.
#[local] Existing Instance fc_ref_laws.
Import LedgerSamples.Sample.

Definition T0 : Z := 1800000000.
(** Alice gives 20 HBD to the treasury and 10 HBD to bob. *)
Definition l_given : ledger := run (transfer "alice" "bob" (hbd 10000)) l0.
Definition l_funded : ledger := run (transfer "alice" treasury (hbd 20000)) l_given.
Definition l_start : ledger := at_time T0 l_funded.
(** Bob's proxy is alice; at most two objects are removed at a time. *)
Definition gov_start : gov :=
  let g := Voting.Sample.g7 in
  mk_gov (Governance.accounts g) (witness_votes g) [] (decline_requests g) (sched g) 2 (Governance.vops g).
Definition d0 : dhf_state := mk_dhf l_start gov_start ∅ 0 (T0 + 3600) T0 (T0 + 86400) (hbd 0) {[("alice", "roads"); ("bob", "ships")]}.

Lemma l_start_ok : books l_start /\ accounted l_start.
Proof.
  apply (history_Ok l0); [exact l0_books|exact l0_accounted|]. apply (rtc_l _ _ l_given); [|apply (rtc_l _ _ l_funded); [|apply rtc_once, (do_next_block T0)]].
  - apply (do_transfer "alice" "bob" (hbd 10000)); [|vm_compute; reflexivity]. split; [unfold funds_wf; cbn; lia|by right].
  - apply (do_transfer "alice" treasury (hbd 20000)); [|vm_compute; reflexivity]. split; [unfold funds_wf; cbn; lia|by right].
Qed.

Lemma d0_ok : dhf_ok d0.
Proof.
  constructor; [apply l_start_ok|intros i p Hp; unfold d0 in Hp; cbn [proposals] in Hp; by rewrite lookup_empty in Hp|intros v Hv; by apply not_elem_of_nil in Hv|constructor| |].
  - split_and!; [split; vm_compute; done..|vm_compute; done].
  - split; vm_compute; done.
Qed.

Definition or_else (r : result dhf_state) (s : dhf_state) : dhf_state := match r with Ok s' => s' | Throw _ => s end.
Definition roads : create_proposal_operation.t := create_proposal_operation.mk "alice" "bob" T0 (T0 + 30 * 86400) (hbd 240) "Roads" "roads" [].
Definition ships : create_proposal_operation.t := create_proposal_operation.mk "bob" "agent" T0 (T0 + 60 * 86400) (hbd 240) "Ships" "ships" [].
Definition vote (voter : string) (ids : gset Z) : update_proposal_votes_operation.t := update_proposal_votes_operation.mk voter ids true [].


(** Two proposals; alice votes for ships with her stake and bob's, carol for both. *)
Definition d1 : dhf_state := or_else (dhf_apply (ev_create roads) d0) d0.
Definition d2 : dhf_state := or_else (dhf_apply (ev_create ships) d1) d1.
Definition d3 : dhf_state := or_else (dhf_apply (ev_vote (vote "alice" {[1]})) d2) d2.
Definition d4 : dhf_state := or_else (dhf_apply (ev_vote (vote "carol" {[0; 1]})) d3) d3.
Definition d5 : dhf_state := or_else (dhf_apply (ev_vote (vote "bob" {[0]})) d4) d4.
Definition d6 : dhf_state := or_else (dhf_apply (ev_block (T0 + 3600)) d5) d5.
Definition d7 : dhf_state := or_else (dhf_apply (ev_block (T0 + 7200)) d6) d6.

Definition tally (i : Z) (s : dhf_state) : option Z := total_votes <$> proposals s !! i.
(** The budget of the hour is 16: ships gets all of its 10, roads the rest. *)
Example first_hour :
  (tally 0 d6, tally 1 d6) = (Some 40, Some 170) /\ budget (T0 + 3600) d5 = 16 /\
  (hbd_held "bob" (led d6), hbd_held "agent" (led d6), hbd_held treasury (led d6)) = (6, 10, 39984).
Proof. split_and!; vm_compute; reflexivity. Qed.

Definition story : list dhf_event :=
  [ev_create roads; ev_create ships; ev_vote (vote "alice" {[1]}); ev_vote (vote "carol" {[0; 1]}); ev_vote (vote "bob" {[0]}); ev_block (T0 + 3600); ev_block (T0 + 7200)].

Ltac create_event := split_and!; [vm_compute; reflexivity|vm_compute; reflexivity|split; vm_compute; done..].

Lemma d5_reached : history d0 (take 5 story) d5.
Proof.
  apply (history_snoc d0 [_; _; _; _] d4); [|done|vm_compute; reflexivity].
  apply (history_snoc d0 [_; _; _] d3); [|done|vm_compute; reflexivity].
  apply (history_snoc d0 [_; _] d2); [|done|vm_compute; reflexivity].
  apply (history_snoc d0 [_] d1); [|create_event|vm_compute; reflexivity].
  apply (history_snoc d0 [] d0); [|create_event|vm_compute; reflexivity].
  apply history_nil.
Qed.
Lemma d5_ok : dhf_ok d5 /\ accounted (led d5).
Proof. apply (history_kept d0 _ _ d5_reached d0_ok), l_start_ok. Qed.

Ltac block_event := split; [split; vm_compute; done|vm_compute; split; done].

Lemma d7_reached : history d0 story d7.
Proof.
  apply (history_snoc d0 (take 6 story) d6); [|block_event|vm_compute; reflexivity].
  apply (history_snoc d0 (take 5 story) d5); [exact d5_reached|block_event|vm_compute; reflexivity].
Qed.

Lemma two_hours pid : exists x, earned pid d5 [ev_block (T0 + 3600); ev_block (T0 + 7200)] x d7 /\ x = paid_by (ev_block (T0 + 3600)) pid d5 d6 + paid_by (ev_block (T0 + 7200)) pid d6 d7.
Proof.
  eexists. split; [|reflexivity]. rewrite <- (Z.add_0_l (paid_by (ev_block (T0 + 3600)) pid d5 d6)).
  apply (earned_snoc pid d5 [_] _ d6); [|block_event|vm_compute; reflexivity].
  apply (earned_snoc pid d5 [] _ d5); [apply earned_nil|block_event|vm_compute; reflexivity].
Qed.

Lemma fund_books_kept_witness : dhf_ok d7 /\ accounted (led d7).
Proof. apply (fund_books_kept d0 story d7); [exact d7_reached|exact d0_ok|apply l_start_ok]. Defined.

Definition the_ships : proposal_object :=
  mk_proposal 1 "bob" "agent" T0 (T0 + 60 * 86400) (hbd 240) "Ships" "ships" 0 false.
(** In two hours ships receives the 20 of its 240 a day. *)
Lemma proposal_never_overpaid_witness : paid_by (ev_block (T0 + 3600)) 1 d5 d6 + paid_by (ev_block (T0 + 7200)) 1 d6 d7 <= 20.
Proof.
  destruct (two_hours 1) as (x & Hx & <-).
  apply (proposal_never_overpaid 1 the_ships d5 d7 _ x Hx); [apply d5_ok|apply d5_ok|vm_compute; reflexivity|vm_compute; reflexivity|vm_compute; done|].
  repeat constructor; intros [].
Defined.
Example two_hours_paid : paid_by (ev_block (T0 + 3600)) 1 d5 d6 + paid_by (ev_block (T0 + 7200)) 1 d6 d7 = 20.
Proof. vm_compute. reflexivity. Qed.

Lemma d5_later : dhf_ok (advance (T0 + 3600) d5).
Proof. apply advance_ok; [apply d5_ok|split; vm_compute; done|vm_compute; done]. Qed.
Lemma gov_ok_same g g' : gov_ok g -> Governance.accounts g' = Governance.accounts g -> witness_votes g' = witness_votes g -> sched g' = sched g -> gov_ok g'.
Proof.
  intros [[W1 W2 W3 W4 W5 W6] [B1 B2] S T R C D] E1 E2 E3. destruct g, g'. cbn in E1, E2, E3. subst. by constructor; [constructor|constructor|..].
Qed.
(** Votes for proposals only put off the expiration of the voters' votes. *)
Lemma d5_gov : gov_ok (gv (advance (T0 + 3600) d5)).
Proof.
  assert (gov_ok Voting.Sample.g7) as O by apply (reachable_inv _ _ _ Voting.Sample.g7_reachable).
  refine (gov_ok_same _ _ (expiration_ok _ "bob" T0 (expiration_ok _ "carol" T0 (expiration_ok _ "alice" T0 O))) _ _ _); vm_compute; reflexivity.
Qed.
(** Ships has alice's 100, the 30 of bob that count and carol's 40, roads only carol's:
    bob's own vote does not count while alice is his proxy. *)
Example stakes_behind : stake_behind (advance (T0 + 3600) d5) 1 = 170 /\ stake_behind (advance (T0 + 3600) d5) 0 = 40.
Proof. split; vm_compute; reflexivity. Qed.
Lemma payments_follow_votes_witness : exists s' ps paid, make_payments (T0 + 3600) (advance (T0 + 3600) d5) = Ok s' /\
  paid_by_votes (running (T0 + 3600) (advance (T0 + 3600) d5)) (T0 + 3600) (advance (T0 + 3600) d5) ps paid /\ hbd_held "agent" (led s') = hbd_held "agent" (led d5) + paid_to "agent" paid - 0.
Proof.
  destruct (payments_follow_votes (T0 + 3600) (advance (T0 + 3600) d5) (or_else (make_payments (T0 + 3600) (advance (T0 + 3600) d5)) d5)) as (ps & paid & Pv & _ & Hh);
    [exact d5_later|exact d5_gov|reflexivity|vm_compute; reflexivity|vm_compute; done|vm_compute; reflexivity|].
  eexists _, ps, paid. split; [|split; [exact Pv|exact (Hh "agent")]]. vm_compute. reflexivity.
Defined.

(** Bob removes ships: its two votes go, the proposal itself has to wait. *)
Definition scrap (who : string) (ids : gset Z) : remove_proposal_operation.t := remove_proposal_operation.mk who ids [].
Definition d8 : dhf_state := or_else (dhf_apply (ev_remove (scrap "bob" {[1]})) d5) d5.
Lemma d8_ok : dhf_ok d8.
Proof. apply (history_kept d0 (take 5 story ++ [ev_remove (scrap "bob" {[1]})]) d8); [|exact d0_ok|apply l_start_ok]. apply (history_snoc d0 _ d5 (ev_remove (scrap "bob" {[1]}))); [exact d5_reached|done|vm_compute; reflexivity]. Qed.
Lemma removed_proposals_disappear_witness : removed <$> proposals d8 !! 1 = Some true /\ none_removed (Nat.iter 4 (remove_proposals (dhf_time d8)) d8).
Proof. split; [vm_compute; reflexivity|]. apply (removed_proposals_disappear 4 d8); [exact d8_ok|vm_compute; done|vm_compute; lia]. Defined.

(** The same chain after hardfork 31. *)
Definition at_hf31 (l : ledger) : ledger :=
  mk_ledger (accounts l) (escrows l) (withdrawals l) (converts l) (collateralized l) (recurrents l) (orders l) (funds l) (next_id l) (gpo l) (feed l) 31 (vops l).
Lemma at_hf31_books l : books l -> books (at_hf31 l).
Proof. intros [[] C R1 R2 R3]. by constructor; [constructor|..]. Qed.
Definition d9 : dhf_state := set_led (at_hf31 (led d5)) d5.
Lemma d9_ok : dhf_ok d9.
Proof. apply led_ok; [apply d5_ok|apply at_hf31_books, d5_ok|reflexivity]. Qed.
Definition the_roads : proposal_object :=
  mk_proposal 0 "alice" "bob" T0 (T0 + 30 * 86400) (hbd 240) "Roads" "roads" 0 false.
Lemma only_creator_removes_witness : exists s', remove_proposal (scrap "bob" {[1]}) d9 = Ok s' /\ (creator the_roads = "bob" \/ proposals s' !! 0 = Some the_roads).
Proof.
  exists (or_else (remove_proposal (scrap "bob" {[1]}) d9) d9). split; [vm_compute; reflexivity|].
  apply (only_creator_removes (scrap "bob" {[1]}) d9 _ 0 the_roads); [exact d9_ok|vm_compute; reflexivity|vm_compute; reflexivity|vm_compute; reflexivity].
Defined.

(** *** What the code allows *)

(** Before hardfork 31 the creator is not checked once the limit of removals is reached:
    alice removes bob's proposal together with one of her own that has enough votes. *)
Example stranger_removes_proposal : exists s', remove_proposal (scrap "alice" {[0; 1]}) d5 = Ok s' /\
  creator <$> proposals d5 !! 1 = Some "bob" /\ removed <$> proposals s' !! 1 = Some true.
Proof. exists (or_else (remove_proposal (scrap "alice" {[0; 1]}) d5) d5). split_and!; vm_compute; reflexivity. Qed.
Example stranger_refused_after_hf31 : remove_proposal (scrap "alice" {[0; 1]}) d9 = Throw AssertFc.
Proof. vm_compute. reflexivity. Qed.

(** An id beyond 32 bits finds another proposal: a vote for 2^32 counts for proposal 0. *)
Example vote_for_an_alias : exists s', update_proposal_votes (vote "alice" {[2 ^ 32]}) d2 = Ok s' /\ votes s' = [("alice", 0)].
Proof. exists (or_else (update_proposal_votes (vote "alice" {[2 ^ 32]}) d2) d2). split; vm_compute; reflexivity. Qed.

(** A daily pay of 2^62 passes the validation; once its running total exceeds 64 bits
    no block can be applied any more. *)
Definition greedy : create_proposal_operation.t := create_proposal_operation.mk "alice" "bob" T0 (T0 + 30 * 86400) (hbd (2 ^ 62)) "Moon" "roads" [].
Definition d10 : dhf_state := or_else (dhf_apply (ev_vote (vote "carol" {[0]})) (or_else (create_proposal greedy d0) d0)) d0.
Example greedy_proposal_stops_the_chain :
  create_proposal_operation.validate greedy = Ok tt /\ is_Some (proposals d10 !! 0) /\
  process_proposals (advance (T0 + 5 * 86400) d10) = Throw AssertFc /\ process_proposals (advance (T0 + 6 * 86400) d10) = Throw AssertFc.
Proof. split_and!; [vm_compute; reflexivity|by eexists; vm_compute; reflexivity|vm_compute; reflexivity|vm_compute; reflexivity]. Qed.
End Sample.
