(* ===== verification/Inflation.v ===== *)
(** * Inflation

    Models [process_funds] of libraries/chain/database.cpp, which issues the new HIVE of a
    block and hands it to the reward fund, the vesting fund, the treasury and the
    producer, and util/dhf_funding.hpp, with [convert_HIVE_to_exact_HBD].

    The ledger and the treasury's ledger are those of Proposals.v, the producer's shares
    those of Vesting.v; both views of the vesting fund are one object of the code and are
    kept equal ([fund_of], [put_gpo_fund]).  Hardforks up to 28 are active. *)

From stdpp Require Import base numbers strings option list sorting gmap.
From S2P Require Import Prelude Fc Config AssetSymbol Asset Balance Market Resources WitnessSchedule Vesting VestingBooks Ledger Transfers Payouts LedgerSamples Proposals ProposalBooks ProposalSamples.
Open Scope Z_scope.

(** ** The share of the fund *)

Section funding.
Context `{L : FcLib}.

(** [dhf_funding_without_truncation] *)
Definition dhf_funding_without_truncation (funds : asset) (median : HBD_price) (block_num : Z) : result asset :=
  if (amount funds <=? 0) || tprice_is_null median then Ok (mk_asset 0 HBD_SYMBOL)
  else
    let pxs_side := u128 (tamount (tbase median)) in
    let pixa_side := u128 (tamount (tquote median)) in
    let per_block := u128 (u128 (amount funds) * pxs_side) in
    let n := u128 block_num in
    x ← u128_div (u128 (u128 (n + 1) * per_block)) pixa_side;
    y ← u128_div (u128 (n * per_block)) pixa_side;
    r ← uint128_to_uint64 (u128 (x - y));
    Ok (mk_asset (share_of_u64 r) HBD_SYMBOL).

(** All the HIVE of a balance into a given amount of HBD. *)
Definition convert_HIVE_to_exact_HBD (hive_balance : balance) (hbd_amount : asset) (g : global_properties) :
    result (global_properties * balance * balance) :=
  b ← issue_asset (balance_zero HBD_SYMBOL) hbd_amount;
  hbd ← asset_add (current_hbd_supply g) hbd_amount;
  cur ← asset_sub (current_supply g) hive_balance;
  left ← burn_asset hive_balance hive_balance;
  Ok (set_supplies cur hbd (virtual_supply g) g, left, b).
End funding.

(** ** One vesting fund, two views *)

Definition fund_of (g : global_properties) : vesting_fund :=
  mk_vf (amount (total_vesting_fund_hive g)) (amount (total_vesting_shares g))
    (amount (pending_rewarded_vesting_shares g)) (amount (pending_rewarded_vesting_hive g)).
Definition put_gpo_fund (f : vesting_fund) (g : global_properties) : global_properties :=
  mk_gpo (time g) (current_supply g) (virtual_supply g) (current_hbd_supply g)
    (mk_asset (Vesting.total_vesting_fund_hive f) HIVE_SYMBOL) (mk_asset (Vesting.total_vesting_shares f) VESTS_SYMBOL)
    (mk_asset (Vesting.pending_rewarded_vesting_shares f) VESTS_SYMBOL) (mk_asset (Vesting.pending_rewarded_vesting_hive f) HIVE_SYMBOL)
    (hbd_interest_rate g) (hbd_print_rate g) (hbd_stop_percent g) (hbd_start_percent g).

(** The percentages are fields of [dynamic_global_property_object]; [producer] is its
    current witness, with the id of the witness's account. *)
Record econ (G : Type) : Type := mk_econ {
  dhf : dhf_state;
  vesting : vest_state G;
  block_num : Z;
  wso : witness_schedule_object;
  producer : witness_object;
  producer_id : Z;
  content_reward_percent : Z;
  vesting_reward_percent : Z;
  proposal_fund_percent : Z
}.
Arguments mk_econ {G}. Arguments dhf {G}. Arguments vesting {G}. Arguments block_num {G}. Arguments wso {G}. Arguments producer {G}.
Arguments producer_id {G}. Arguments content_reward_percent {G}. Arguments vesting_reward_percent {G}. Arguments proposal_fund_percent {G}.

Section inflation.
Context `{L : FcLib} {G : Type} `{V : VoteBook G}.
Implicit Types (e : econ G).

Definition put_dhf (x : dhf_state) e : econ G := mk_econ x (vesting e) (block_num e) (wso e) (producer e) (producer_id e)
  (content_reward_percent e) (vesting_reward_percent e) (proposal_fund_percent e).
Definition put_vesting (x : vest_state G) e : econ G := mk_econ (dhf e) x (block_num e) (wso e) (producer e) (producer_id e)
  (content_reward_percent e) (vesting_reward_percent e) (proposal_fund_percent e).

(** The rate falls by 0.01% every 250 000 blocks. *)
Definition current_inflation_rate (block_num : Z) : Z :=
  Z.max (HIVE_INFLATION_RATE_START_PERCENT - block_num / HIVE_INFLATION_NARROWING_PERIOD) HIVE_INFLATION_RATE_STOP_PERCENT.

(** [( a * x ) / d] of an amount of HIVE. *)
Definition scaled (a : asset) (x d : Z) : result asset :=
  m ← safe_mul (amount a) x; Ok (mk_asset (Z.quot m d) HIVE_SYMBOL).

(** The new HIVE of a block before it is split. *)
Definition block_inflation e : result asset :=
  let l := led (dhf e) in
  let rate := get_hbd_price l in
  _ ← check (negb (tprice_is_null rate)) AssertFc;
  t ← get_account treasury l;
  hbd_supply_without_treasury ← asset_sub (current_hbd_supply (gpo l)) (hbd_balance (liquid t));
  _ ← check (0 <=? amount hbd_supply_without_treasury) AssertFc;
  x ← hbd_at hbd_supply_without_treasury rate;
  virtual_supply_without_treasury ← asset_add x (current_supply (gpo l));
  scaled virtual_supply_without_treasury (current_inflation_rate (block_num e)) (HIVE_100_PERCENT * HIVE_BLOCKS_PER_YEAR).

Definition nominal_witness_pay e : bool :=
  has_hardfork 30 (led (dhf e)) && (num_scheduled_witnesses (wso e) <? HIVE_MAX_WITNESSES).

(** The pay of the producer, and whether its kind is unknown (which is reported). *)
Definition weighted_pay (witness_reward : asset) e : result (asset * bool) :=
  if nominal_witness_pay e then Ok (witness_reward, false)
  else
    x ← safe_mul (amount witness_reward) HIVE_MAX_WITNESSES;
    x ← (match schedule (producer e) with
         | timeshare => safe_mul x (timeshare_weight (wso e))
         | miner => safe_mul x (miner_weight (wso e))
         | elected => safe_mul x (elected_weight (wso e))
         | none => Ok x
         end);
    _ ← check (negb (witness_pay_normalization_factor (wso e) =? 0)) DivideByZero;
    Ok (mk_asset (Z.quot x (witness_pay_normalization_factor (wso e))) HIVE_SYMBOL,
        match schedule (producer e) with none => true | _ => false end).

(** The split of a block: content, vesting, treasury and producer. *)
Definition split_inflation e : result (asset * asset * asset * asset * bool) :=
  new_hive ← block_inflation e;
  content_reward ← scaled new_hive (content_reward_percent e) HIVE_100_PERCENT;
  vesting_reward ← scaled new_hive (vesting_reward_percent e) HIVE_100_PERCENT;
  dhf_new_funds ← scaled new_hive (proposal_fund_percent e) HIVE_100_PERCENT;
  r ← asset_sub new_hive content_reward;
  r ← asset_sub r vesting_reward;
  witness_reward ← asset_sub r dhf_new_funds;
  '(witness_reward, warned) ← weighted_pay witness_reward e;
  Ok (content_reward, vesting_reward, dhf_new_funds, witness_reward, warned).

(** HIVE and HBD are issued: what is left of the HIVE, and the HBD. *)
Definition issue_block (new_hive vesting_reward dhf_new_funds : asset) e : result (econ G * balance * balance) :=
  let d := dhf e in
  let l := led d in
  all ← asset_add new_hive dhf_new_funds;
  '(g, hive_issued) ← issue_HIVE all (gpo l);
  '(to_hbd, hive_issued) ← transfer_from (balance_zero HIVE_SYMBOL) hive_issued dhf_new_funds;
  '(fund, hive_issued) ← transfer_from (total_vesting_fund_hive g) hive_issued vesting_reward;
  let f := fund_of g in
  let g := put_gpo_fund (mk_vf (amount fund) (Vesting.total_vesting_shares f) (Vesting.pending_rewarded_vesting_shares f)
                           (Vesting.pending_rewarded_vesting_hive f)) g in
  '(g, to_hbd, hbd_issued) ← (if has_hardfork 30 l then
                                h ← dhf_funding_without_truncation dhf_new_funds (get_hbd_price l) (block_num e);
                                convert_HIVE_to_exact_HBD to_hbd h g
                              else convert_HIVE_to_HBD to_hbd (get_hbd_price l) false g);
  ledger ← asset_add (dhf_interval_ledger d) hbd_issued;
  _ ← destroy_temp to_hbd;
  Ok (put_dhf (set_interval_ledger ledger (set_led (set_gpo g l) d)) e, hive_issued, hbd_issued).

(** [create_vesting2] for the producer. *)
Definition vest_producer (witness_reward : balance) e : result (econ G * Z) :=
  let l := led (dhf e) in
  '(v, rest, shares) ← create_vesting (producer_id e) (amount witness_reward) false (put_fund (fund_of (gpo l)) (vesting e));
  _ ← check (rest =? 0) AssertBalance;
  Ok (put_vesting v (put_dhf (set_led (set_gpo (put_gpo_fund (fund v) (gpo l)) l) (dhf e)) e), shares).

(** The state, the shares of the producer ([producer_reward_operation]), and whether
    [system_warning_operation] was pushed. *)
Definition process_funds e : result (econ G * Z * bool) :=
  '(content_reward, vesting_reward, dhf_new_funds, witness_reward, warned) ← split_inflation e;
  x ← asset_add content_reward vesting_reward;
  new_hive ← asset_add x witness_reward;
  '(e, hive_issued, hbd_issued) ← issue_block new_hive vesting_reward dhf_new_funds e;
  '(l, hive_issued) ← pay_reward_funds hive_issued content_reward (led (dhf e));
  l ← (if negb (amount hbd_issued =? 0) then deposit_liquid treasury hbd_issued l else _ ← destroy_temp hbd_issued; Ok l);
  '(witness_balance, hive_issued) ← transfer_from (balance_zero HIVE_SYMBOL) hive_issued witness_reward;
  '(e, shares) ← vest_producer witness_balance (put_dhf (set_led l (dhf e)) e);
  _ ← destroy_temp hive_issued;
  Ok (e, shares, warned).
End inflation.

(** ** The fund receives its exact share *)

Section telescope.
Context `{L : FcLib} `{!FcLaws L}.

(** What [n] blocks pay together. *)
Definition share_until (x q n : Z) : Z := n * x / q.

Lemma funding_value f m n : 0 < amount f -> pos_amount (tamount (tbase m)) -> pos_amount (tamount (tquote m)) -> tprice_is_null m = false -> 0 <= n ->
  (n + 1) * (amount f * tamount (tbase m)) < 2 ^ 128 -> amount f * tamount (tbase m) < (2 ^ 62) * tamount (tquote m) ->
  let x := amount f * tamount (tbase m) in
  dhf_funding_without_truncation f m n = Ok (mk_asset (share_until x (tamount (tquote m)) (n + 1) - share_until x (tamount (tquote m)) n) HBD_SYMBOL) /\
  x / tamount (tquote m) <= share_until x (tamount (tquote m)) (n + 1) - share_until x (tamount (tquote m)) n <= x / tamount (tquote m) + 1.
Proof.
  intros Hf Hb Hq Hnull Hn Hfit Hsmall x. unfold pos_amount in *. fold x in Hfit, Hsmall. set (q := tamount (tquote m)) in *. assert (0 < x) as Hx by (subst x; nia).
  assert (share_until x q n + x / q <= share_until x q (n + 1) <= share_until x q n + x / q + 1) as Hs.
  { unfold share_until. pose proof (Z.div_mod (n * x) q ltac:(lia)). pose proof (Z.mod_pos_bound (n * x) q ltac:(lia)). pose proof (Z.div_mod x q ltac:(lia)). pose proof (Z.mod_pos_bound x q ltac:(lia)).
    pose proof (Z.div_mod ((n + 1) * x) q ltac:(lia)). pose proof (Z.mod_pos_bound ((n + 1) * x) q ltac:(lia)). split; nia. }
  assert (0 <= x / q < 2 ^ 62) as Hxq by (split; [apply Z.div_pos; lia|apply Z.div_lt_upper_bound; lia]). split; [|lia].
  unfold dhf_funding_without_truncation. rewrite Hnull, (proj2 (Z.leb_gt _ _)) by lia. cbn [orb].
  assert (amount f < 2 ^ 128 /\ tamount (tbase m) < 2 ^ 128 /\ x < 2 ^ 128 /\ n * x < 2 ^ 128 /\ n + 1 < 2 ^ 128) as (B1 & B2 & B3 & B4 & B5) by (subst x; nia).
  rewrite (uwrap_id 128 (tamount (tbase m))), (uwrap_id 128 (tamount (tquote m))), (uwrap_id 128 (amount f)), (uwrap_id 128 n) by (unfold in_u; lia). fold q x.
  rewrite (uwrap_id 128 x), (uwrap_id 128 (n + 1)) by (unfold in_u; lia). rewrite (uwrap_id 128 ((n + 1) * x)), (uwrap_id 128 (n * x)) by (unfold in_u; nia).
  unfold u128_div. rewrite (proj2 (Z.eqb_neq q 0)) by lia. cbn [mbind result_bind]. fold (share_until x q (n + 1)). fold (share_until x q n).
  rewrite (uwrap_id 128) by (unfold in_u; lia). rewrite uint128_to_uint64_fits by (unfold in_u; lia). cbn [mbind result_bind].
  rewrite share_of_u64_narrow, swrap_id by (unfold in_u, in_s; lia). done.
Qed.

(** C34. The fund receives its exact share: from hardfork 30 on any run of blocks with the
    same new funds and feed together pays the treasury the exact value of the funds,
    rounded down once at each end of the run and not per block, and every block pays the
    exact share rounded down or up; nothing is stored between blocks. *)
Theorem dhf_funding_is_exact (f : asset) (m : HBD_price) (n : Z) (k : nat) :
  0 < amount f -> pos_amount (tamount (tbase m)) -> pos_amount (tamount (tquote m)) -> tprice_is_null m = false -> 0 <= n ->
  let x := amount f * tamount (tbase m) in let q := tamount (tquote m) in
  (n + Z.of_nat k) * x < 2 ^ 128 -> x < 2 ^ 62 * q ->
  exists l, mapR (dhf_funding_without_truncation f m) (seqZ n (Z.of_nat k)) = Ok l /\
    sumZ amount l = (n + Z.of_nat k) * x / q - n * x / q /\ Forall (fun a => symbol a = HBD_SYMBOL /\ x / q <= amount a <= x / q + 1) l.
Proof.
  intros Hf Hb Hq Hnull Hn x q Hfit Hsmall. revert n Hn Hfit. induction k as [|k IH]; intros n Hn Hfit.
  { exists []. cbn. rewrite Z.add_0_r. split_and!; [done|unfold sumZ; cbn; lia|constructor]. }
  assert (0 < x) as Hx by (unfold pos_amount in *; subst x; nia).
  rewrite seqZ_cons by lia. replace (Z.pred (Z.of_nat (S k))) with (Z.of_nat k) by lia. destruct (IH (Z.succ n)) as (l & Hl & Hs & Ha); [lia|replace (Z.succ n + Z.of_nat k) with (n + Z.of_nat (S k)) by lia; done|].
  destruct (funding_value f m n Hf Hb Hq Hnull Hn) as [E1 E2]; [fold x; nia|done|]. fold x q in E1, E2.
  eexists. split; [cbn [mapR]; rewrite E1, Hl; reflexivity|]. split.
  - rewrite sumZ_cons, Hs. cbn [amount]. unfold share_until. replace (Z.succ n + Z.of_nat k) with (n + Z.of_nat (S k)) by lia. replace (Z.succ n) with (n + 1) by lia. lia.
  - constructor; [done|exact Ha].
Qed.
End telescope.

(** ** All that is issued is handed out *)

Section splitting.
Context `{L : FcLib} `{!FcLaws L} {G : Type} `{V : VoteBook G}.
Implicit Types (e : econ G).

Definition ledger_of e : ledger := led (dhf e).
(** The vesting fund with the accounts it belongs to. *)
Definition vesting_of e : vest_state G := put_fund (fund_of (gpo (ledger_of e))) (vesting e).

Record econ_ok e : Prop := {
  eo_books : Transfers.books (ledger_of e);
  eo_accounted : accounted (ledger_of e);
  eo_fund_ids : NoDup (fund_id <$> Ledger.funds (ledger_of e));
  eo_funds : Forall (fun f => in_u 16 (percent_content_rewards f)) (Ledger.funds (ledger_of e));
  eo_vest : vest_ok (vesting_of e);
  eo_vest_books : VestingBooks.books (vesting_of e)
}.

(** Percentages, and the weights of the schedule. *)
Record params_ok e : Prop := {
  pa_content : 0 <= content_reward_percent e;
  pa_vesting : 0 <= vesting_reward_percent e;
  pa_proposal : 0 <= proposal_fund_percent e;
  pa_sum : content_reward_percent e + vesting_reward_percent e + proposal_fund_percent e <= HIVE_100_PERCENT;
  pa_weights : in_u 32 (elected_weight (wso e)) /\ in_u 32 (timeshare_weight (wso e)) /\ in_u 32 (miner_weight (wso e));
  pa_norm : 0 < witness_pay_normalization_factor (wso e) < 2 ^ 32;
  pa_block : in_u 32 (block_num e)
}.

Lemma scaled_Ok a x d r : typed HIVE_SYMBOL a -> 0 <= x < 2 ^ 32 -> 0 < d -> scaled a x d = Ok r ->
  typed HIVE_SYMBOL r /\ amount r = amount a * x / d.
Proof.
  intros [Sa Fa] Hx Hd H. unfold funds_wf in Fa. unfold scaled in H. apply bind_Ok in H as (m & Hm & H). injection H as <-.
  apply safe_mul_Ok in Hm as [-> Hr]; [|unfold in_s; lia|unfold in_s; lia]. unfold in_s in Hr. assert (0 <= amount a * x) by nia. rewrite Z.quot_div_nonneg by lia.
  split; [|done]. split; [done|]. unfold funds_wf. cbn [amount]. split; [apply Z.div_pos; lia|]. eapply Z.le_lt_trans; [apply Z.div_le_upper_bound; [done|]|apply Hr]. nia.
Qed.

Lemma rate_range n : 0 <= n -> HIVE_INFLATION_RATE_STOP_PERCENT <= current_inflation_rate n <= HIVE_INFLATION_RATE_START_PERCENT.
Proof.
  intros Hn. unfold current_inflation_rate, HIVE_INFLATION_RATE_START_PERCENT, HIVE_INFLATION_NARROWING_PERIOD, HIVE_INFLATION_RATE_STOP_PERCENT.
  pose proof (Z.div_pos n 250000 Hn ltac:(lia)). lia.
Qed.

(** What is worth of HIVE outside the treasury, and the inflation of a block on it. *)
Definition virtual_without_treasury e : Z :=
  let l := ledger_of e in
  (amount (current_hbd_supply (gpo l)) - hbd_held treasury l) * tamount (tquote (get_hbd_price l)) / tamount (tbase (get_hbd_price l))
  + amount (current_supply (gpo l)).
Definition nominal_inflation e : Z :=
  virtual_without_treasury e * current_inflation_rate (block_num e) / (HIVE_100_PERCENT * HIVE_BLOCKS_PER_YEAR).

Lemma block_inflation_Ok e i : econ_ok e -> debt_fits (ledger_of e) -> params_ok e -> block_inflation e = Ok i -> typed HIVE_SYMBOL i /\ amount i = nominal_inflation e.
Proof.
  intros O Hdebt P H. unfold block_inflation in H. fold (ledger_of e) in H. set (l := ledger_of e) in *. pose proof (Transfers.bk_wf _ (eo_books _ O)) as W. fold l in W. destruct (lw_gpo _ W) as (W1 & W2 & _).
  apply check_bind_Ok in H as [Hnull H]. apply negb_true_iff in Hnull. apply bind_Ok in H as (t & Ht & H). apply get_account_Ok in Ht as [Ht ((_ & S2 & _ & F2) & _)]; [|done].
  assert (amount (hbd_balance (liquid t)) = hbd_held treasury l) as E1 by (unfold hbd_held; by rewrite Ht).
  apply bind_Ok in H as (h & Hh & H). apply check_bind_Ok in H as [Hpos H]. to_prop.
  apply asset_sub_Ok in Hh as (_ & -> & Wh); [|by apply (typed_wf HBD_SYMBOL)|by apply funds_wf_s64]. cbn [amount] in Hpos. rewrite E1 in *. unfold funds_wf in F2.
  destruct Hdebt as [Hd|(Hb & Hq & Hd)]; [congruence|]. fold l in Hb, Hq, Hd. pose proof W2 as [S3 F3]. unfold funds_wf in F3.
  set (hs := mk_asset (amount (current_hbd_supply (gpo l)) - hbd_held treasury l) (symbol (current_hbd_supply (gpo l)))) in *.
  assert (amount hs = amount (current_hbd_supply (gpo l)) - hbd_held treasury l) as Ehs by done. clearbody hs. rewrite <- Ehs in Hpos.
  set (b := tamount (tbase (get_hbd_price l))) in *. set (q := tamount (tquote (get_hbd_price l))) in *.
  assert (amount hs * q / b <= amount (current_hbd_supply (gpo l)) * q / b) as Hmono by (apply Z.div_le_mono; unfold pos_amount in *; nia).
  destruct W1 as [S1 F1]. unfold funds_wf in F1. apply bind_Ok in H as (x & Hx & H). rewrite hbd_at_value in Hx; [|unfold funds_wf; lia|done|done|fold b q; lia]. fold b q in Hx. injection Hx as <-.
  assert (0 <= amount hs * q / b) by (apply Z.div_pos; unfold pos_amount in *; nia).
  apply bind_Ok in H as (y & Hy & H). apply asset_add_Ok in Hy as (_ & -> & Wy); [|unfold asset_wf, in_s; cbn [amount]; lia|unfold asset_wf, in_s; lia]. cbn [amount symbol] in H.
  pose proof (rate_range (block_num e) ltac:(apply P)) as Hrate. unfold HIVE_INFLATION_RATE_START_PERCENT, HIVE_INFLATION_RATE_STOP_PERCENT in Hrate.
  apply scaled_Ok in H as [T E2]; [|split; [done|unfold funds_wf; cbn [amount]; lia]|lia|done]. split; [done|]. rewrite E2. unfold nominal_inflation, virtual_without_treasury. fold l b q. by rewrite <- Ehs.
Qed.

Lemma weighted_Ok e w w' warned : params_ok e -> typed HIVE_SYMBOL w -> weighted_pay w e = Ok (w', warned) ->
  typed HIVE_SYMBOL w' /\ (nominal_witness_pay e = true -> w' = w).
Proof.
  intros P [Sw Fw] H. unfold funds_wf in Fw. unfold weighted_pay in H. destruct (nominal_witness_pay e); [injection H as <- <-; done|]. destruct P as [_ _ _ _ (P1 & P2 & P3) P4 _]. unfold in_u in *.
  apply bind_Ok in H as (x & Hx & H). apply safe_mul_Ok in Hx as [-> Rx]; [|unfold in_s; lia|unfold HIVE_MAX_WITNESSES, in_s; lia]. unfold HIVE_MAX_WITNESSES in *.
  apply bind_Ok in H as (y & Hy & H). apply check_bind_Ok in H as [_ H]. injection H as <- _.
  assert (in_s 64 y /\ 0 <= y) as [Ry Ny].
  { unfold in_s in *. destruct (schedule (producer e)); try (apply safe_mul_Ok in Hy as [-> R]; [|unfold in_s; lia|unfold in_s; lia]; split; [exact R|nia]). injection Hy as <-. split; lia. }
  split; [|done]. split; [done|]. unfold funds_wf. cbn [amount]. unfold in_s in Ry. rewrite Z.quot_div_nonneg by lia. split; [apply Z.div_pos; lia|]. eapply Z.le_lt_trans; [apply Z.div_le_upper_bound; [lia|]|apply Ry]. nia.
Qed.

Lemma sub_typed a b r : typed HIVE_SYMBOL a -> typed HIVE_SYMBOL b -> amount b <= amount a -> asset_sub a b = Ok r ->
  typed HIVE_SYMBOL r /\ amount r = amount a - amount b.
Proof.
  intros Ta Tb Hle H. pose proof H as H'. apply (supply_sub HIVE_SYMBOL) in H as [T E1]; [|done|done|done]. split; [done|]. specialize (E1 HIVE_SYMBOL). unfold held_in in E1.
  rewrite (proj1 T), (proj1 Ta), (proj1 Tb), sym_eqb_refl in E1. done.
Qed.
Lemma add_typed c a b r : typed c a -> typed c b -> asset_add a b = Ok r -> typed c r /\ amount r = amount a + amount b.
Proof.
  intros Ta Tb H. apply (supply_add c) in H as [T E1]; [|done|done]. split; [done|]. specialize (E1 c). unfold held_in in E1.
  rewrite (proj1 T), (proj1 Ta), (proj1 Tb), sym_eqb_refl in E1. done.
Qed.

Record shares_ok e (c v d w : asset) : Prop := {
  sp_content : typed HIVE_SYMBOL c;
  sp_vesting : typed HIVE_SYMBOL v;
  sp_dhf : typed HIVE_SYMBOL d;
  sp_witness : typed HIVE_SYMBOL w;
  sp_content_share : amount c = nominal_inflation e * content_reward_percent e / HIVE_100_PERCENT;
  sp_vesting_share : amount v = nominal_inflation e * vesting_reward_percent e / HIVE_100_PERCENT;
  sp_dhf_share : amount d = nominal_inflation e * proposal_fund_percent e / HIVE_100_PERCENT;
  sp_nominal : nominal_witness_pay e = true -> amount c + amount v + amount d + amount w = nominal_inflation e
}.

Lemma split_Ok e c v d w warned : econ_ok e -> debt_fits (ledger_of e) -> params_ok e -> split_inflation e = Ok (c, v, d, w, warned) -> shares_ok e c v d w.
Proof.
  intros O Hdebt P H. unfold split_inflation in H. apply bind_Ok in H as (i & Hi & H). destruct (block_inflation_Ok e i O Hdebt P Hi) as [Ti Ei].
  pose proof P as [P1 P2 P3 P4 _ _ _]. unfold HIVE_100_PERCENT in *. pose proof Ti as [_ Fi]. unfold funds_wf in Fi.
  apply bind_Ok in H as (c0 & Hc & H). apply scaled_Ok in Hc as [Tc Ec]; [|done|lia|lia]. apply bind_Ok in H as (v0 & Hv & H). apply scaled_Ok in Hv as [Tv Ev]; [|done|lia|lia].
  apply bind_Ok in H as (d0 & Hd & H). apply scaled_Ok in Hd as [Td Ed]; [|done|lia|lia]. rewrite Ei in Ec, Ev, Ed. set (n := nominal_inflation e) in *.
  assert (amount c0 + amount v0 + amount d0 <= n) as Hsum.
  { rewrite Ec, Ev, Ed. pose proof (Z.mul_div_le (n * content_reward_percent e) 10000 ltac:(lia)). pose proof (Z.mul_div_le (n * vesting_reward_percent e) 10000 ltac:(lia)).
    pose proof (Z.mul_div_le (n * proposal_fund_percent e) 10000 ltac:(lia)). nia. }
  pose proof Tc as [_ Fc]. pose proof Tv as [_ Fv]. pose proof Td as [_ Fd]. unfold funds_wf in Fc, Fv, Fd.
  apply bind_Ok in H as (r1 & H1 & H). apply sub_typed in H1 as [T1 E1]; [|done|done|lia]. apply bind_Ok in H as (r2 & H2 & H). apply sub_typed in H2 as [T2 E2]; [|done|done|lia].
  apply bind_Ok in H as (r3 & H3 & H). apply sub_typed in H3 as [T3 E3]; [|done|done|lia]. apply bind_Ok in H as ([w0 wn] & Hw & H). injection H as <- <- <- <- <-.
  apply weighted_Ok in Hw as [Tw Ew]; [|done|done]. constructor; try done. intros Hn. rewrite (Ew Hn). fold n. lia.
Qed.

Lemma gap_of_fund c g l : gap c (set_gpo g l) = gap c l + (supply_of c g - supply_of c (gpo l))
  - (held_in c (total_vesting_fund_hive g) - held_in c (total_vesting_fund_hive (gpo l))) - (held_in c (pending_rewarded_vesting_hive g) - held_in c (pending_rewarded_vesting_hive (gpo l))).
Proof. unfold gap, holdings. cbn [set_gpo gpo accounts escrows withdrawals converts collateralized orders Ledger.funds]. lia. Qed.

(** The vesting fund gains HIVE. *)
Lemma put_gpo_fund_Ok f l : ledger_wf l -> fund_ok f -> Vesting.pending_rewarded_vesting_hive f = amount (pending_rewarded_vesting_hive (gpo l)) ->
  ledger_wf (set_gpo (put_gpo_fund f (gpo l)) l) /\ frame l (set_gpo (put_gpo_fund f (gpo l)) l) /\
  forall c, gap c (set_gpo (put_gpo_fund f (gpo l)) l) = gap c l - held_in c (mk_asset (Vesting.total_vesting_fund_hive f - amount (total_vesting_fund_hive (gpo l))) HIVE_SYMBOL).
Proof.
  intros W (F1 & F2 & F3 & F4) Hp. destruct (lw_gpo _ W) as (W1 & W2 & W3 & W4 & [W5 W5'] & [W6 W6']). split_and!.
  - destruct W. by constructor.
  - by constructor.
  - intros c. rewrite gap_of_fund. cbn [put_gpo_fund total_vesting_fund_hive pending_rewarded_vesting_hive]. change (supply_of c (put_gpo_fund f (gpo l))) with (supply_of c (gpo l)).
    unfold held_in. cbn [symbol amount]. rewrite W5, W6, Hp. destruct (sym_eqb HIVE_SYMBOL c); lia.
Qed.

Lemma funding_wf f m n h : dhf_funding_without_truncation f m n = Ok h -> symbol h = HBD_SYMBOL /\ asset_wf h.
Proof.
  unfold dhf_funding_without_truncation. destruct (_ || _); [intros [= <-]; split; [done|unfold asset_wf, in_s; cbn; lia]|]. cbv zeta. intros H.
  do 2 apply bind_Ok in H as (? & _ & H). apply bind_Ok in H as (r & Hr & H). injection H as <-. apply uint128_to_uint64_range in Hr. split; [done|]. unfold asset_wf. cbn.
  rewrite share_of_u64_narrow by done. apply swrap_range. lia.
Qed.

Lemma convert_exact_Ok b h g g' left hbd : gpo_wf g -> typed HIVE_SYMBOL b -> symbol h = HBD_SYMBOL -> asset_wf h -> amount b <= amount (current_supply g) ->
  convert_HIVE_to_exact_HBD b h g = Ok (g', left, hbd) ->
  issued g g' (fun c => held_in c hbd - held_in c b) /\ left = balance_zero HIVE_SYMBOL /\ typed HBD_SYMBOL hbd /\ hbd = h /\ fund_of g' = fund_of g.
Proof.
  intros (W1 & W2 & W3 & W4 & W5 & W6) Hb Sx Wx Hle H. unfold convert_HIVE_to_exact_HBD in H. apply bind_Ok in H as (b0 & Hb0 & H). apply issue_asset_Ok in Hb0 as [-> Tb]; auto.
  apply bind_Ok in H as (hs & Hhs & H). apply supply_add with (c := HBD_SYMBOL) in Hhs as [Th Hh]; auto.
  apply bind_Ok in H as (cur & Hc & H). apply supply_sub with (c := HIVE_SYMBOL) in Hc as [Tc Hc]; auto.
  apply bind_Ok in H as (b1 & H1 & H). apply burn_asset_Ok with (c := HIVE_SYMBOL) in H1; [|done]. injection H as <- <- <-.
  split; [|done]. constructor; [by repeat (split; [done|])|done|done|]. intros c. unfold supply_of. cbn [set_supplies current_supply current_hbd_supply]. rewrite Hh, Hc. lia.
Qed.

Lemma convert_fund b rate full g g' left hbd : convert_HIVE_to_HBD b rate full g = Ok (g', left, hbd) -> fund_of g' = fund_of g.
Proof. unfold convert_HIVE_to_HBD. intros H. do 6 apply bind_Ok in H as (? & _ & H). by injection H as <- _ _. Qed.
Lemma issue_fund a g g' b : issue_HIVE a g = Ok (g', b) -> fund_of g' = fund_of g.
Proof. unfold issue_HIVE. intros H. do 3 apply bind_Ok in H as (? & _ & H). by injection H as <- _. Qed.

(** The ledger after the issue: what is not handed out yet is in the two balances. *)
Record block_issued (e : econ G) (new_hive vesting_reward dhf_new_funds : asset) (e' : econ G) (hive hbd : balance) : Prop := {
  bi_state : exists g x, e' = put_dhf (set_interval_ledger x (set_led (set_gpo g (ledger_of e)) (dhf e))) e;
  bi_books : Transfers.books (ledger_of e');
  bi_hive : typed HIVE_SYMBOL hive;
  bi_hbd : typed HBD_SYMBOL hbd;
  bi_gap c : gap c (ledger_of e') = gap c (ledger_of e) + held_in c hive + held_in c hbd;
  bi_left : amount hive = amount new_hive - amount vesting_reward;
  bi_supply : supply_of HIVE_SYMBOL (gpo (ledger_of e')) = supply_of HIVE_SYMBOL (gpo (ledger_of e)) + amount new_hive;
  bi_hbd_supply : supply_of HBD_SYMBOL (gpo (ledger_of e')) = supply_of HBD_SYMBOL (gpo (ledger_of e)) + amount hbd;
  bi_fund : fund_of (gpo (ledger_of e')) =
    mk_vf (amount (total_vesting_fund_hive (gpo (ledger_of e))) + amount vesting_reward) (amount (total_vesting_shares (gpo (ledger_of e))))
      (amount (pending_rewarded_vesting_shares (gpo (ledger_of e)))) (amount (pending_rewarded_vesting_hive (gpo (ledger_of e))));
  bi_funding : has_hardfork 30 (ledger_of e) = true -> dhf_funding_without_truncation dhf_new_funds (get_hbd_price (ledger_of e)) (block_num e) = Ok hbd
}.

Lemma held_typed c d b : typed c b -> held_in d b = if sym_eqb c d then amount b else 0.
Proof. intros [S _]. unfold held_in. by rewrite S. Qed.

Lemma issue_block_Ok e n v d e' hive hbd : Transfers.books (ledger_of e) -> 0 <= gap HIVE_SYMBOL (ledger_of e) -> fund_ok (fund_of (gpo (ledger_of e))) ->
  typed HIVE_SYMBOL n -> typed HIVE_SYMBOL v -> typed HIVE_SYMBOL d -> amount v <= amount n ->
  issue_block n v d e = Ok (e', hive, hbd) -> block_issued e n v d e' hive hbd.
Proof.
  intros B Hg Hfo Tn Tv Td Hvn H. unfold issue_block in H. fold (ledger_of e) in H. set (l := ledger_of e) in *. cbv zeta in H. pose proof (Transfers.bk_wf _ B) as W.
  apply bind_Ok in H as (all & Ha & H). apply (add_typed HIVE_SYMBOL) in Ha as [Ta Ea]; [|done|done].
  apply bind_Ok in H as ([g1 hi] & H1 & H). pose proof (issue_fund _ _ _ _ H1) as Ef1. apply issue_HIVE_Ok in H1 as (Is1 & Thi & ->); [|apply W|apply Ta|by apply (typed_wf HIVE_SYMBOL)].
  destruct (set_issued l g1 _ W Is1) as [W1 G1]. pose proof (set_gpo_frame g1 l (is_time _ _ _ Is1)) as F1.
  apply bind_Ok in H as ([th hi2] & H2 & H). apply (transfer_from_typed HIVE_SYMBOL) in H2 as (_ & _ & Tth & Thi2 & _ & Eth & Ehi2); [|apply balance_zero_typed|by eapply typed_self|by apply (typed_wf HIVE_SYMBOL)].
  apply bind_Ok in H as ([fu hi3] & H3 & H). destruct (is_wf _ _ _ Is1) as (_ & _ & _ & _ & Wf & _).
  apply (transfer_from_typed HIVE_SYMBOL) in H3 as (_ & _ & Tfu & Thi3 & _ & Efu & Ehi3); [|done|by eapply typed_self|by apply (typed_wf HIVE_SYMBOL)]. cbn [balance_zero amount] in Eth.
  set (f2 := mk_vf (amount fu) _ _ _) in H. rewrite <- Ef1 in Hfo. destruct Hfo as (_ & O2 & O3 & O4).
  assert (fund_ok f2) as Of2. { split_and!; [destruct Tfu as [_ Ff]; unfold funds_wf in Ff; unfold amount_ok; cbn; lia|done..]. }
  destruct (put_gpo_fund_Ok f2 (set_gpo g1 l) W1 Of2 eq_refl) as (W2 & F2 & G2). cbn [gpo set_gpo] in W2, F2, G2. set (g2 := put_gpo_fund f2 g1) in *. set (l2 := set_gpo g2 (set_gpo g1 l)) in *.
  change (Vesting.total_vesting_fund_hive f2) with (amount fu) in G2. rewrite Efu in G2. replace (amount (total_vesting_fund_hive g1) + amount v - amount (total_vesting_fund_hive g1)) with (amount v) in G2 by lia.
  assert (amount th <= amount (current_supply g2)) as Hcov.
  { change (current_supply g2) with (current_supply (gpo l2)). rewrite <- supply_HIVE by apply W2. eapply temp_covered; [done|done|]. rewrite G2, G1. rewrite (held_typed HIVE_SYMBOL HIVE_SYMBOL th), (held_typed HIVE_SYMBOL HIVE_SYMBOL all) by done.
    unfold held_in. cbn [symbol amount]. rewrite sym_eqb_refl. destruct Tn as [_ Fn]. unfold funds_wf in Fn. lia. }
  apply bind_Ok in H as ([[g3 left] hb] & H4 & H).
  assert (issued g2 g3 (fun c => held_in c hb - held_in c th) /\ typed HBD_SYMBOL hb /\ fund_of g3 = fund_of g2 /\
    (has_hardfork 30 l = true -> dhf_funding_without_truncation d (get_hbd_price l) (block_num e) = Ok hb)) as (Is3 & Thb & Ef3 & Hfund).
  { destruct (has_hardfork 30 l).
    - apply bind_Ok in H4 as (h & Hh & H4). pose proof (funding_wf _ _ _ _ Hh) as [Sh Wh]. apply convert_exact_Ok in H4 as (I3 & _ & T3 & -> & E3); [done|apply W2|done|done|done|done].
    - pose proof (convert_fund _ _ _ _ _ _ _ H4). apply convert_HIVE_to_HBD_Ok in H4 as (I3 & _ & T3 & _); [done|apply W2|done|done]. }
  destruct (set_issued l2 g3 _ W2 Is3) as [W3 G3]. apply bind_Ok in H as (x & _ & H). apply bind_Ok in H as (u & _ & H). injection H as <- <- <-.
  assert (gpo l2 = g2) as El2 by done.
  constructor; unfold ledger_of; cbn [dhf put_dhf led set_interval_ledger set_led]; fold l.
  - by exists g3, x.
  - change (set_gpo g3 l) with (set_gpo g3 l2). eapply frame_books; [exact B| |exact W3]. etransitivity; [exact F1|]. etransitivity; [exact F2|]. apply set_gpo_frame, Is3.
  - done.
  - done.
  - intros c. change (set_gpo g3 l) with (set_gpo g3 l2). rewrite G3, G2, G1. rewrite (held_typed HIVE_SYMBOL c all), (held_typed HIVE_SYMBOL c th), (held_typed HIVE_SYMBOL c hi3) by done.
    change (held_in c (mk_asset (amount v) HIVE_SYMBOL)) with (if sym_eqb HIVE_SYMBOL c then amount v else 0). change (led (dhf e)) with l. destruct (sym_eqb HIVE_SYMBOL c); lia.
  - lia.
  - change (led (dhf e)) with l. cbn [gpo set_gpo]. rewrite (is_supply _ _ _ Is3). change (supply_of HIVE_SYMBOL g2) with (supply_of HIVE_SYMBOL g1). rewrite (is_supply _ _ _ Is1), (held_typed HIVE_SYMBOL _ all), (held_typed HIVE_SYMBOL _ th), (held_typed HBD_SYMBOL _ hb) by done.
    change (sym_eqb HIVE_SYMBOL HIVE_SYMBOL) with true. change (sym_eqb HBD_SYMBOL HIVE_SYMBOL) with false. cbn match. lia.
  - change (led (dhf e)) with l. cbn [gpo set_gpo]. rewrite (is_supply _ _ _ Is3). change (supply_of HBD_SYMBOL g2) with (supply_of HBD_SYMBOL g1). rewrite (is_supply _ _ _ Is1), (held_typed HIVE_SYMBOL _ all), (held_typed HIVE_SYMBOL _ th), (held_typed HBD_SYMBOL _ hb) by done.
    change (sym_eqb HIVE_SYMBOL HBD_SYMBOL) with false. change (sym_eqb HBD_SYMBOL HBD_SYMBOL) with true. cbn match. lia.
  - change (led (dhf e)) with l. cbn [gpo set_gpo]. rewrite Ef3. injection Ef1 as E1 E2 E3 E4. unfold fund_of, g2, put_gpo_fund, f2. cbn. rewrite Efu, E1, E2, E3, E4. done.
  - done.
Qed.

Lemma vest_producer_Ok w e e' shares : Transfers.books (ledger_of e) -> vest_ok (vesting_of e) -> VestingBooks.books (vesting_of e) -> typed HIVE_SYMBOL w ->
  vest_producer w e = Ok (e', shares) ->
  0 <= shares /\ Transfers.books (ledger_of e') /\ vest_ok (vesting_of e') /\ VestingBooks.books (vesting_of e') /\ frame (ledger_of e) (ledger_of e') /\
  (forall c, gap c (ledger_of e') = gap c (ledger_of e) - held_in c w) /\ (forall c, supply_of c (gpo (ledger_of e')) = supply_of c (gpo (ledger_of e))) /\
  Ledger.funds (ledger_of e') = Ledger.funds (ledger_of e) /\ accounts (ledger_of e') = accounts (ledger_of e) /\
  amount (total_vesting_fund_hive (gpo (ledger_of e'))) = amount (total_vesting_fund_hive (gpo (ledger_of e))) + amount w.
Proof.
  intros B Vo Vb [Sw Fw] H. unfold vest_producer in H. fold (ledger_of e) in H. fold (vesting_of e) in H. set (l := ledger_of e) in *.
  apply bind_Ok in H as ([[v rest] sh] & Hc & H). apply check_bind_Ok in H as [_ H]. injection H as <- <-.
  unfold create_vesting in Hc. apply bind_Ok in Hc as ([[v1 r1] sh1] & Ha & Hc). apply bind_Ok in Hc as (b & _ & Hc). injection Hc as <- <- <-.
  assert (fund v1 = mk_vf (amount (total_vesting_fund_hive (gpo l)) + amount w) (Vesting.total_vesting_shares (fund v1)) (Vesting.pending_rewarded_vesting_shares (fund v1)) (amount (pending_rewarded_vesting_hive (gpo l)))) as Ef.
  { unfold adjust_account_vesting_balance in Ha. apply bind_Ok in Ha as ([[g x] y] & Hg & Ha). apply to_vests_Ok in Hg as (_ & _ & _ & E1 & E2 & _); [|apply Vo|done].
    apply bind_Ok in Ha as (v2 & Hw & Ha). injection Ha as <- _ _. apply with_rc_Ok in Hw as Hw'. unfold with_rc in Hw. do 4 apply bind_Ok in Hw as (? & _ & Hw). injection Hw as <-. cbn [fund put_rc put_fund].
    destruct g. clear -E1 E2. cbn in *. fold l in E1, E2. f_equal; lia. }
  apply adjust_vesting_Ok in Ha as (_ & Hsh & M); [|done|exact Fw]. pose proof (moved_books _ _ _ M Vb) as Vb1. pose proof (mv_ok _ _ _ M) as Vo1.
  assert (vesting_of (put_vesting (put_book b v1) (put_dhf (set_led (set_gpo (put_gpo_fund (fund v1) (gpo l)) l) (dhf e)) e)) = put_book b v1) as Ev.
  { unfold vesting_of. cbn. destruct v1 as [rc0 fu0 [a1 a2 a3 a4] ro0 de0 bo0 dp0]. done. }
  destruct (put_gpo_fund_Ok (fund v1) l (Transfers.bk_wf _ B) (vo_fund _ Vo1) ltac:(rewrite Ef; done)) as (W2 & F2 & G2). assert (Vesting.total_vesting_fund_hive (fund v1) = amount (total_vesting_fund_hive (gpo l)) + amount w) as Ef1 by (by rewrite Ef). rewrite Ef1 in G2.
  replace (amount (total_vesting_fund_hive (gpo l)) + amount w - amount (total_vesting_fund_hive (gpo l))) with (amount w) in G2 by lia.
  change (fund (put_book b v1)) with (fund v1). rewrite Ev. unfold ledger_of. cbn [dhf put_vesting put_dhf led set_led]. fold l. split_and!.
  - apply Hsh.
  - eapply frame_books; [exact B|exact F2|exact W2].
  - destruct Vo1. by constructor.
  - destruct Vb1. by constructor.
  - exact F2.
  - intros c. rewrite G2. unfold held_in. cbn [symbol amount]. by rewrite Sw.
  - done.
  - done.
  - done.
  - exact Ef1.
Qed.

(** The funds change in their balances only. *)
Lemma pay_reward_funds_frame b a l l' b' : pay_reward_funds b a l = Ok (l', b') ->
  gpo l' = gpo l /\ frame l l' /\ accounts l' = accounts l /\
  map (fun f => (fund_id f, percent_content_rewards f)) (Ledger.funds l') = map (fun f => (fund_id f, percent_content_rewards f)) (Ledger.funds l).
Proof.
  intros H. unfold pay_reward_funds in H. apply bind_Ok in H as ([[l1 r1] u] & H & E1). injection E1 as <- <-. generalize dependent (balance_zero HIVE_SYMBOL). generalize (Ledger.funds l) at 1. intros fs. revert l b.
  induction fs as [|f fs IH]; intros l b t H; cbn in H; [by injection H as <- <- <-|]. apply bind_Ok in H as ([[l2 b2] t2] & H & Hr). apply IH in Hr as (A1 & A2 & A3 & A4).
  unfold pay_fund in H. apply bind_Ok in H as (m & _ & H). apply bind_Ok in H as ([x y] & _ & H). apply bind_Ok in H as (z & _ & H). apply check_bind_Ok in H as [_ H]. injection H as <- <- <-.
  split_and!; [done|etransitivity; [|exact A2]; by constructor|done|]. rewrite A4. cbn [set_funds Ledger.funds]. unfold upd. rewrite map_map. apply map_ext. intros g. by destruct (_ =? _).
Qed.

Lemma deposit_gpo name t l l' : deposit_liquid name t l = Ok l' -> gpo l' = gpo l /\ Ledger.funds l' = Ledger.funds l.
Proof.
  intros H. unfold deposit_liquid in H. apply bind_Ok in H as ([l1 t1] & H & H1). apply bind_Ok in H1 as (u & _ & H1). injection H1 as <-.
  unfold adjust_liquid in H. apply bind_Ok in H as (a & _ & H). apply bind_Ok in H as ([o z] & _ & H). by injection H as <- <-.
Qed.

(** The HBD goes to the treasury. *)
Lemma fund_treasury b l l' : Transfers.books l -> typed HBD_SYMBOL b ->
  (if negb (amount b =? 0) then deposit_liquid treasury b l else _ ← destroy_temp b; Ok l) = Ok l' ->
  Transfers.books l' /\ gpo l' = gpo l /\ Ledger.funds l' = Ledger.funds l /\ (forall c, gap c l' = gap c l - held_in c b) /\
  hbd_held treasury l' = hbd_held treasury l + amount b.
Proof.
  intros B T H. pose proof (Transfers.bk_wf _ B) as W. destruct (amount b =? 0) eqn:E0; cbn [negb] in H; to_prop.
  - apply bind_Ok in H as (u & _ & H). injection H as <-. split_and!; [done..| |lia]. intros c. rewrite is_empty_held; [lia|by apply Z.eqb_eq].
  - pose proof (deposit_gpo _ _ _ _ H) as [G1 G2]. pose proof H as H'. apply deposit_liquid_Ok with (c := HBD_SYMBOL) in H as [W1 F1 Gp]; [|done|done|by right].
    split_and!; [by eapply frame_books|done|done|done|]. unfold deposit_liquid in H'. apply bind_Ok in H' as ([l1 t1] & H & H1). apply bind_Ok in H1 as (u & _ & H1). injection H1 as <-.
    rewrite (adjust_hbd _ _ _ _ _ _ W T (funds_wf_s64 _ (proj2 T)) H). by rewrite bool_decide_eq_true_2.
Qed.

(** What the block is worth to each receiver. *)
Record distributed e (e' : econ G) (content vest fund wit : Z) (hbd : asset) : Prop := {
  ds_content : content = nominal_inflation e * content_reward_percent e / HIVE_100_PERCENT;
  ds_vesting : vest = nominal_inflation e * vesting_reward_percent e / HIVE_100_PERCENT;
  ds_fund : fund = nominal_inflation e * proposal_fund_percent e / HIVE_100_PERCENT;
  ds_nominal : nominal_witness_pay e = true -> content + vest + fund + wit = nominal_inflation e;
  ds_hive : supply_of HIVE_SYMBOL (gpo (ledger_of e')) = supply_of HIVE_SYMBOL (gpo (ledger_of e)) + content + vest + wit;
  ds_hbd : supply_of HBD_SYMBOL (gpo (ledger_of e')) = supply_of HBD_SYMBOL (gpo (ledger_of e)) + amount hbd;
  ds_exact : has_hardfork 30 (ledger_of e) = true ->
    dhf_funding_without_truncation (mk_asset fund HIVE_SYMBOL) (get_hbd_price (ledger_of e)) (block_num e) = Ok hbd;
  ds_treasury : hbd_held treasury (ledger_of e') = hbd_held treasury (ledger_of e) + amount hbd;
  ds_vested : amount (total_vesting_fund_hive (gpo (ledger_of e'))) = amount (total_vesting_fund_hive (gpo (ledger_of e))) + vest + wit
}.

(** Every unit of the HIVE and HBD a block issues ends in the reward fund, the vesting
    fund, the treasury or with the producer. *)
Lemma process_funds_Ok e e' shares warned : econ_ok e -> debt_fits (ledger_of e) -> params_ok e -> process_funds e = Ok (e', shares, warned) ->
  econ_ok e' /\ 0 <= shares /\ exists content vest fund wit hbd, distributed e e' content vest fund wit hbd.
Proof.
  intros O Hd P H. unfold process_funds in H. apply bind_Ok in H as ([[[[c v] d] w] wn] & Hs & H). destruct (split_Ok _ _ _ _ _ _ O Hd P Hs) as [Tc Tv Td Tw Ec Ev Ed En].
  pose proof Tc as [_ Fc]. pose proof Tw as [_ Fw]. unfold funds_wf in Fc, Fw.
  apply bind_Ok in H as (x & Hx & H). apply (add_typed HIVE_SYMBOL) in Hx as [Tx Ex]; [|done|done]. apply bind_Ok in H as (n & Hn & H). apply (add_typed HIVE_SYMBOL) in Hn as [Tn Enn]; [|done|done].
  apply bind_Ok in H as ([[e1 hive] hbd] & Hi & H). destruct O as [B A N Fu Vo Vb]. apply issue_block_Ok in Hi as [(g & z & E1) B1 Th Tb G1 El S1 S2 Ef Hex]; try done; [|by rewrite (proj1 A)|apply Vo|lia].
  apply bind_Ok in H as ([l2 hive2] & H2 & H). fold (ledger_of e1) in H2. pose proof (pay_reward_funds_frame _ _ _ _ _ H2) as (P1 & _ & P3 & P4).
  assert (Ledger.funds (ledger_of e1) = Ledger.funds (ledger_of e)) as Efu by (by rewrite E1). assert (accounts (ledger_of e1) = accounts (ledger_of e)) as Eac by (by rewrite E1).
  apply pay_reward_funds_Ok in H2 as (B2 & T2 & G2); [|done|done|by apply (typed_wf HIVE_SYMBOL)|by rewrite Efu|by rewrite Efu].
  apply bind_Ok in H as (l3 & H3 & H). apply fund_treasury in H3 as (B3 & Q1 & Q2 & G3 & Q4); [|done|done].
  apply bind_Ok in H as ([wb hive3] & H4 & H). apply (transfer_from_typed HIVE_SYMBOL) in H4 as (_ & _ & T4 & T4' & G4 & E4 & _); [|apply balance_zero_typed|by eapply typed_self|by apply (typed_wf HIVE_SYMBOL)].
  apply bind_Ok in H as ([e4 sh] & H5 & H). apply bind_Ok in H as (u & Hz & H). injection H as <- <- <-. set (e3 := put_dhf (set_led l3 (dhf e1)) e1) in *.
  assert (vesting_of e3 = put_fund (fund_of (gpo (ledger_of e1))) (vesting_of e)) as E3.
  { unfold vesting_of. change (ledger_of e3) with l3. rewrite Q1, P1. change (vesting e3) with (vesting e1). by rewrite E1. }
  assert (fund_ok (fund_of (gpo (ledger_of e1)))) as Fo.
  { rewrite Ef. destruct (vo_fund _ Vo) as (O1 & O2 & O3 & O4). split_and!; [|done..]. destruct (lw_gpo _ (Transfers.bk_wf _ B1)) as (_ & _ & _ & _ & [_ F1] & _). unfold funds_wf in F1. injection Ef as E0 _ _ _. rewrite E0 in F1. unfold amount_ok. cbn. lia. }
  apply vest_producer_Ok in H5 as (Hsh & B5 & Vo5 & Vb5 & _ & G5 & S5 & F5 & A5 & V5); [|done|rewrite E3; by apply put_fund_ok|rewrite E3, Ef; destruct Vb; by constructor|done]. change (ledger_of e3) with l3 in *.
  split_and!; [|done|]. 2: {
    cbn [balance_zero amount] in E4. injection Ef as Ev0 _ _ _.
    exists (amount c), (amount v), (amount d), (amount w), hbd. constructor; try done.
    - rewrite S5, Q1, P1, S1. lia.
    - rewrite S5, Q1, P1, S2. lia.
    - unfold hbd_held in *. by rewrite A5, Q4, P3, Eac.
    - rewrite V5, Q1, P1, Ev0. lia. }
  assert (map (fun f => (fund_id f, percent_content_rewards f)) (Ledger.funds (ledger_of e4)) = map (fun f => (fund_id f, percent_content_rewards f)) (Ledger.funds (ledger_of e))) as Hm by (by rewrite F5, Q2, P4, Efu).
  constructor; try done.
  - assert (forall c', gap c' (ledger_of e4) = gap c' (ledger_of e)) as Hgap.
    { intros c'. rewrite G5, G3. specialize (G2 c'). rewrite G1 in G2. specialize (G4 c'). rewrite held_zero, (destroy_temp_Ok _ _ Hz) in G4. lia. }
    destruct A as [A1 A2]. split; by rewrite Hgap.
  - apply (f_equal (map fst)) in Hm. rewrite !map_map in Hm. cbn in Hm. change (NoDup (map (fun x => fund_id x) (Ledger.funds (ledger_of e4)))). rewrite Hm. exact N.
  - apply (f_equal (map snd)) in Hm. rewrite !map_map in Hm. cbn in Hm. apply (Forall_map (fun x => percent_content_rewards x) (in_u 16)). rewrite Hm. by apply (Forall_map (fun x => percent_content_rewards x) (in_u 16)).
Qed.

(** C14. The new HIVE of a block is handed out, all of it.  Let the books be in order, the
    debt fit 64 bits at the median price ([debt_fits]), the percentages add up to at most
    100% and the weights of the schedule be 32-bit numbers with a positive normalisation
    ([params_ok]).  When [process_funds] returns, every unit of HIVE and HBD is accounted
    for and the vesting fund agrees with the shares of the accounts, as before; HIVE grew
    by the shares of the authors, of the stakeholders and of the producer, HBD by what the
    treasury got, and the shares of authors, stakeholders and treasury are their
    percentages of the nominal inflation.  From hardfork 30 on, while fewer than 21
    witnesses are scheduled, the four shares make up the nominal inflation to the last
    unit. *)
Theorem inflation_is_distributed e e' shares warned :
  econ_ok e -> debt_fits (ledger_of e) -> params_ok e -> process_funds e = Ok (e', shares, warned) ->
  econ_ok e' /\ exists content vest fund wit hbd, distributed e e' content vest fund wit hbd.
Proof. intros O D P H. by destruct (process_funds_Ok e e' shares warned O D P H) as (O' & _ & R). Qed.
End splitting.

Module Sample.
#[local] Existing Instance fc_ref.
#[local] Existing Instance fc_ref_laws.
#[local] Existing Instance VestingBooks.Sample.tally.
Import LedgerSamples.Sample.

(** Alice has nearly all HIVE, the treasury 10 HBD; bob produces. *)
Definition l_rich : ledger :=
  mk_ledger {["alice" := person 1000000000000 50000 0; treasury := person 0 10000 0]}
    [] [] [] [] [] [] [mk_fund 0 (hive 5000) 10000] 1
    (mk_gpo 1000 (hive 1000000006307) (hive 1000000036307) (hbd 60000) (hive 1300) (vests 90500) (vests 500) (hive 7) 1000 10000 1000 900)
    (mk_feed sample_rate sample_rate sample_rate) 30 [].
Definition e0 : econ Z :=
  mk_econ (mk_dhf l_rich ProposalSamples.Sample.gov_start ∅ 0 3600 0 86400 (hbd 0) ∅) VestingBooks.Sample.s0 7
    WitnessSchedule.Sample.schedule0 (WitnessSchedule.Sample.producer 0 "bob" 100 0) 1 6500 1500 1000.
Definition e1 : econ Z := match process_funds e0 with Ok (e, _, _) => e | Throw _ => e0 end.

(** 9303 HIVE: 6046 for the authors, 1395 for all stakes, 930 worth 1860 HBD for the
    fund, the other 932 for bob. *)
Example sample_block_of_funds :
  nominal_inflation e0 = 9303 /\ (reward_balance <$> Ledger.funds (ledger_of e1)) = [hive 11046] /\
  (hbd_held treasury (ledger_of e1), amount (total_vesting_fund_hive (gpo (ledger_of e1)))) = (11860, 3627).
Proof. split_and!; vm_compute; reflexivity. Qed.

Lemma rich_all (P : account -> Prop) : P (person 1000000000000 50000 0) -> P (person 0 10000 0) -> map_Forall (fun _ a => P a) (Ledger.accounts l_rich).
Proof. intros H1 H2. cbn. repeat apply map_Forall_insert_2; try apply map_Forall_empty; try (apply map_Forall_singleton); done. Qed.

Lemma rich_books : Transfers.books l_rich.
Proof.
  pose proof (rich_all (fun a => counters a = (0, 0, 0)) eq_refl eq_refl) as Hc.
  constructor; [|split_and!|constructor|constructor|constructor].
  - constructor; try (constructor; fail).
    + apply (rich_all acc_wf); apply person_wf; lia.
    + apply Forall_singleton. split; [done|unfold funds_wf; cbn; lia].
    + split_and!; try done; unfold typed, funds_wf, asset_wf, in_s; cbn; auto with lia.
  - intros n a Ha. specialize (Hc n a Ha). cbn in Hc. injection Hc as -> _ _. unfold HIVE_MAX_PENDING_TRANSFERS. cbn. lia.
  - intros n a Ha. specialize (Hc n a Ha). cbn in Hc. injection Hc as _ -> _. unfold HIVE_SAVINGS_WITHDRAW_REQUEST_LIMIT. cbn. lia.
  - intros n a Ha. specialize (Hc n a Ha). cbn in Hc. injection Hc as _ _ ->. unfold HIVE_MAX_OPEN_RECURRENT_TRANSFERS. cbn. lia.
Qed.

Lemma e0_ok : econ_ok e0.
Proof.
  constructor; [exact rich_books|split; vm_compute; reflexivity|apply NoDup_singleton|apply Forall_singleton; split; cbn; lia|exact VestingBooks.Sample.s0_ok|exact VestingBooks.Sample.s0_books].
Qed.

Lemma inflation_is_distributed_witness :
  econ_ok e1 /\ exists content vest fund wit hbd, distributed e0 e1 content vest fund wit hbd.
Proof.
  refine (inflation_is_distributed e0 e1 (match process_funds e0 with Ok (_, x, _) => x | Throw _ => 0 end) false e0_ok _ _ _).
  - right. split_and!; vm_compute; done.
  - constructor; vm_compute; first [done | split_and!; done].
  - vm_compute. reflexivity.
Defined.

(** Ten blocks, each with 0.007 HIVE for the fund at 3 HBD for 2 HIVE: 0.105 HBD. *)
Lemma dhf_funding_is_exact_witness :
  exists l, mapR (dhf_funding_without_truncation (hive 7) (mk_tprice (mk_tiny 3) (mk_tiny 2))) (seqZ 5 10) = Ok l /\
    sumZ amount l = (5 + 10) * 21 / 2 - 5 * 21 / 2 /\ Forall (fun a => symbol a = HBD_SYMBOL /\ 21 / 2 <= amount a <= 21 / 2 + 1) l.
Proof. refine (dhf_funding_is_exact (hive 7) (mk_tprice (mk_tiny 3) (mk_tiny 2)) 5 10 _ _ _ _ _ _ _); vm_compute; done. Defined.
End Sample.
