(* ===== verification/Recovery.v ===== *)
(** * Owner authorities and the recovery of accounts

    Models the evaluators of libraries/chain/hive_evaluator_account.cpp that change the
    authorities of an account ([account_update], [account_update2]) and those of its
    recovery ([request_account_recovery], [recover_account], [change_recovery_account]),
    [update_owner_authority] and [account_recovery_processing] of database.cpp and the
    limit of util/owner_update_limit_mgr.cpp.

    Requests are maps from the account they are for (their unique index [by_account]);
    the history of owner authorities is the index by id.  Hardforks up to 28 are active. *)

From stdpp Require Import base numbers strings option list sorting gmap.
From S2P Require Import Prelude Fc Config Authority Validation Operations WitnessSchedule.
Open Scope Z_scope.

(** ** State *)

(** The fields of [account_object] that concern recovery; [recovery_account] is an id. *)
Record rec_account : Set := mk_ra {
  account_id : Z;
  recovery_account : Z;
  last_account_recovery : Z;
  block_last_account_recovery : Z;
  memo_key : Z;
  last_account_update : Z
}.
Definition set_recovery_account x a := mk_ra (account_id a) x (last_account_recovery a) (block_last_account_recovery a) (memo_key a) (last_account_update a).
Definition set_recovery_time x y a := mk_ra (account_id a) (recovery_account a) x y (memo_key a) (last_account_update a).
Definition set_memo x y a := mk_ra (account_id a) (recovery_account a) (last_account_recovery a) (block_last_account_recovery a) x y.

Record account_authority_object : Set := mk_aa {
  owner : authority;
  active : authority;
  posting : authority;
  previous_owner_update : Z;
  last_owner_update : Z
}.
Definition set_owner (x : authority) (now : Z) (a : account_authority_object) : account_authority_object :=
  mk_aa x (active a) (posting a) (last_owner_update a) now.
Definition set_active x a := mk_aa (owner a) x (posting a) (previous_owner_update a) (last_owner_update a).
Definition set_posting x a := mk_aa (owner a) (active a) x (previous_owner_update a) (last_owner_update a).

Record owner_authority_history_object : Set := mk_oah {
  hist_account : string;
  previous_owner_authority : authority;
  last_valid_time : Z
}.
Record account_recovery_request_object : Set := mk_arr { new_owner_authority : authority; expires : Z }.
Record change_recovery_account_request_object : Set := mk_crr { new_recovery_account : string; effective_on : Z }.
Inductive rec_vop : Set := changed_recovery_account_operation (account old_recovery_account new_recovery_account : string).

Record rec_state : Set := mk_rec {
  accounts : gmap string rec_account;
  authorities : gmap string account_authority_object;
  history : list owner_authority_history_object;
  requests : gmap string account_recovery_request_object;
  changes : gmap string change_recovery_account_request_object;
  rec_witnesses : list witness_object;
  now : Z;
  head_num : Z;
  current_timestamp : Z;
  last_hardfork : Z;
  is_in_control : bool;
  rec_vops : list rec_vop
}.
Definition set_accounts x s := mk_rec x (authorities s) (history s) (requests s) (changes s) (rec_witnesses s) (now s) (head_num s) (current_timestamp s)
  (last_hardfork s) (is_in_control s) (rec_vops s).
Definition set_authorities x s := mk_rec (accounts s) x (history s) (requests s) (changes s) (rec_witnesses s) (now s) (head_num s) (current_timestamp s)
  (last_hardfork s) (is_in_control s) (rec_vops s).
Definition set_history x s := mk_rec (accounts s) (authorities s) x (requests s) (changes s) (rec_witnesses s) (now s) (head_num s) (current_timestamp s)
  (last_hardfork s) (is_in_control s) (rec_vops s).
Definition set_requests x s := mk_rec (accounts s) (authorities s) (history s) x (changes s) (rec_witnesses s) (now s) (head_num s) (current_timestamp s)
  (last_hardfork s) (is_in_control s) (rec_vops s).
Definition set_changes x s := mk_rec (accounts s) (authorities s) (history s) (requests s) x (rec_witnesses s) (now s) (head_num s) (current_timestamp s)
  (last_hardfork s) (is_in_control s) (rec_vops s).
Definition set_head t n b s := mk_rec (accounts s) (authorities s) (history s) (requests s) (changes s) (rec_witnesses s) t n b
  (last_hardfork s) (is_in_control s) (rec_vops s).
Definition push_vop v s := mk_rec (accounts s) (authorities s) (history s) (requests s) (changes s) (rec_witnesses s) (now s) (head_num s) (current_timestamp s)
  (last_hardfork s) (is_in_control s) (v :: rec_vops s).

Definition has_hardfork (n : Z) (s : rec_state) : bool := n <=? last_hardfork s.

(** ** Lookups *)

Definition get_account (name : string) (s : rec_state) : result rec_account :=
  match accounts s !! name with Some a => Ok a | None => Throw AssertFc end.
Definition get_authority (name : string) (s : rec_state) : result account_authority_object :=
  match authorities s !! name with Some a => Ok a | None => Throw OutOfRange end.
(** [get_account( account_id )]: the name of the account. *)
Definition name_of_id (i : Z) (s : rec_state) : result string :=
  match filter (fun x => account_id x.2 = i) (map_to_list (accounts s)) with x :: _ => Ok x.1 | [] => Throw AssertFc end.
Definition modify_account (name : string) (f : rec_account -> rec_account) (s : rec_state) : rec_state := set_accounts (alter f name (accounts s)) s.
Definition modify_authority (name : string) (f : account_authority_object -> account_authority_object) (s : rec_state) : rec_state :=
  set_authorities (alter f name (authorities s)) s.

(** [account_id_type()] is the id 0. *)
Definition has_recovery_account (a : rec_account) : bool := negb (recovery_account a =? 0).

Definition verify_authority_accounts_exist (auth : authority) (s : rec_state) : result unit :=
  foldM (fun _ x => check (bool_decide (is_Some (accounts s !! x.1))) AssertState) tt (account_auths auth).
Definition verify_if_given (auth : option authority) (s : rec_state) : result unit :=
  match auth with Some x => verify_authority_accounts_exist x s | None => Ok tt end.

(** [owner_update_limit_mgr::check], for one time and from hardfork 26 on for two. *)
Definition update_allowed (head_block_time last_time : Z) : bool := HIVE_OWNER_UPDATE_LIMIT <? head_block_time - last_time.
Definition owner_update_allowed (head_block_time previous_time last_time : Z) : bool :=
  update_allowed head_block_time last_time || update_allowed head_block_time previous_time.

(** ** Changing authorities *)

Definition tracks_history (s : rec_state) : bool := has_hardfork 30 s || (HIVE_OWNER_AUTH_HISTORY_TRACKING_START_BLOCK_NUM <=? head_num s).

Definition update_owner_authority (name : string) (owner_authority : authority) (s : rec_state) : result rec_state :=
  auth ← get_authority name s;
  let s := if tracks_history s then set_history (history s ++ [mk_oah name (owner auth) (now s)]) s else s in
  Ok (modify_authority name (set_owner owner_authority (now s)) s).

Definition set_if_given (f : authority -> account_authority_object -> account_authority_object) (x : option authority) (a : account_authority_object) :=
  match x with Some x => f x a | None => a end.

Definition update_owner_if_given (account : string) (owner : option authority) (auth : account_authority_object) (s : rec_state) : result rec_state :=
  match owner with
  | None => Ok s
  | Some x =>
      _ ← check (owner_update_allowed (now s) (previous_owner_update auth) (last_owner_update auth)) AssertTime;
      _ ← verify_authority_accounts_exist x s;
      update_owner_authority account x s
  end.

Definition account_update (o : account_update_operation.t) (s : rec_state) : result rec_state :=
  let account := account_update_operation.account o in
  _ ← check (negb (bool_decide (account = HIVE_TEMP_ACCOUNT))) AssertState;
  _ ← get_account account s;
  auth ← get_authority account s;
  _ ← account_update2_operation.validate_auth_if_present (account_update_operation.owner o);
  _ ← account_update2_operation.validate_auth_if_present (account_update_operation.active o);
  _ ← account_update2_operation.validate_auth_if_present (account_update_operation.posting o);
  s ← update_owner_if_given account (account_update_operation.owner o) auth s;
  _ ← verify_if_given (account_update_operation.active o) s;
  _ ← verify_if_given (account_update_operation.posting o) s;
  let key := account_update_operation.memo_key o in
  let s := modify_account account (fun a => set_memo (if negb (key =? 0) then key else memo_key a) (now s) a) s in
  Ok (modify_authority account (fun a => set_if_given set_posting (account_update_operation.posting o) (set_if_given set_active (account_update_operation.active o) a)) s).

Definition account_update2 (o : account_update2_operation.t) (s : rec_state) : result rec_state :=
  let account := account_update2_operation.account o in
  _ ← check (negb (bool_decide (account = HIVE_TEMP_ACCOUNT))) AssertState;
  _ ← get_account account s;
  auth ← get_authority account s;
  s ← update_owner_if_given account (account_update2_operation.owner o) auth s;
  _ ← verify_if_given (account_update2_operation.active o) s;
  _ ← verify_if_given (account_update2_operation.posting o) s;
  let s := modify_account account (fun a => set_memo (match account_update2_operation.memo_key o with
                                                       | Some key => if negb (key =? 0) then key else memo_key a
                                                       | None => memo_key a
                                                       end) (now s) a) s in
  Ok (modify_authority account (fun a => set_if_given set_posting (account_update2_operation.posting o) (set_if_given set_active (account_update2_operation.active o) a)) s).

(** ** Recovery *)

(** The partner of an account, or the top witness if it has none. *)
Definition check_partner (recovery_name : string) (a : rec_account) (s : rec_state) : result unit :=
  if has_recovery_account a then
    partner ← name_of_id (recovery_account a) s;
    check (bool_decide (partner = recovery_name)) AssertPermission
  else
    match by_vote_name (rec_witnesses s) with
    | w :: _ => check (bool_decide (WitnessSchedule.owner w = recovery_name)) AssertPermission
    | [] => Throw OutOfRange
    end.

Definition request_account_recovery (o : request_account_recovery_operation.t) (s : rec_state) : result rec_state :=
  let name := request_account_recovery_operation.account_to_recover o in
  let auth := request_account_recovery_operation.new_owner_authority o in
  let expiration := u32 (now s + HIVE_ACCOUNT_RECOVERY_REQUEST_EXPIRATION_PERIOD) in
  a ← get_account name s;
  _ ← check_partner (request_account_recovery_operation.recovery_account o) a s;
  let checked_size := is_in_control s || has_hardfork 31 s in
  _ ← (if checked_size then validate_auth_size auth else Ok tt);
  match requests s !! name with
  | None =>
      _ ← check (negb (is_impossible auth)) AssertState;
      _ ← check (negb (weight_threshold auth =? 0)) AssertState;
      _ ← (if checked_size then Ok tt else validate_auth_size auth);
      _ ← verify_authority_accounts_exist auth s;
      Ok (set_requests (<[name := mk_arr auth expiration]> (requests s)) s)
  | Some _ =>
      if weight_threshold auth =? 0 then Ok (set_requests (delete name (requests s)) s)
      else
        _ ← check (negb (is_impossible auth)) AssertState;
        _ ← verify_authority_accounts_exist auth s;
        Ok (set_requests (<[name := mk_arr auth expiration]> (requests s)) s)
  end.

Definition in_history (name : string) (auth : authority) (s : rec_state) : bool :=
  existsb (fun h => bool_decide (hist_account h = name) && bool_decide (previous_owner_authority h = auth)) (history s).

Definition recover_account (o : recover_account_operation.t) (s : rec_state) : result rec_state :=
  let name := recover_account_operation.account_to_recover o in
  a ← get_account name s;
  _ ← check (update_allowed (now s) (last_account_recovery a)) AssertTime;
  match requests s !! name with
  | None => Throw AssertState
  | Some r =>
      _ ← check (bool_decide (new_owner_authority r = recover_account_operation.new_owner_authority o)) AssertState;
      _ ← check (in_history name (recover_account_operation.recent_owner_authority o) s) AssertState;
      let s := set_requests (delete name (requests s)) s in
      s ← update_owner_authority name (recover_account_operation.new_owner_authority o) s;
      Ok (modify_account name (set_recovery_time (now s) (current_timestamp s)) s)
  end.

Definition change_recovery_account (o : change_recovery_account_operation.t) (s : rec_state) : result rec_state :=
  let name := change_recovery_account_operation.account_to_recover o in
  let partner := change_recovery_account_operation.new_recovery_account o in
  let effective := u32 (now s + HIVE_OWNER_AUTH_RECOVERY_PERIOD) in
  p ← get_account partner s;
  a ← get_account name s;
  match changes s !! name with
  | None => Ok (set_changes (<[name := mk_crr partner effective]> (changes s)) s)
  | Some _ =>
      if negb (recovery_account a =? account_id p) then Ok (set_changes (<[name := mk_crr partner effective]> (changes s)) s)
      else Ok (set_changes (delete name (changes s)) s)
  end.

(** ** What a block does *)

(** The orders of the indexes [by_expiration] and [by_effective_date]. *)
Definition time_name_le {A} (f : A -> Z) (x y : string * A) : Prop := f x.2 < f y.2 \/ (f x.2 = f y.2 /\ String.leb x.1 y.1 = true).
#[export] Instance time_name_le_dec {A} (f : A -> Z) : RelDecision (time_name_le f).
Proof. intros x y. unfold time_name_le. apply _. Defined.
Definition by_expiration (s : rec_state) : list (string * account_recovery_request_object) := merge_sort (time_name_le expires) (map_to_list (requests s)).
Definition by_effective_date (s : rec_state) : list (string * change_recovery_account_request_object) := merge_sort (time_name_le effective_on) (map_to_list (changes s)).

Fixpoint clear_requests (l : list (string * account_recovery_request_object)) (s : rec_state) : rec_state :=
  match l with
  | [] => s
  | x :: l => if expires x.2 <=? now s then clear_requests l (set_requests (delete x.1 (requests s)) s) else s
  end.

Fixpoint drop_history (t : Z) (l : list owner_authority_history_object) : list owner_authority_history_object :=
  match l with
  | [] => []
  | h :: l' => if u32 (last_valid_time h + HIVE_OWNER_AUTH_RECOVERY_PERIOD) <? t then drop_history t l' else l
  end.

Definition apply_change (name : string) (c : change_recovery_account_request_object) (s : rec_state) : result rec_state :=
  a ← get_account name s;
  old ← (if has_recovery_account a then name_of_id (recovery_account a) s else Ok ""%string);
  p ← get_account (new_recovery_account c) s;
  let s := modify_account name (set_recovery_account (account_id p)) s in
  let s := push_vop (changed_recovery_account_operation name old (new_recovery_account c)) s in
  Ok (set_changes (delete name (changes s)) s).

Fixpoint apply_changes (l : list (string * change_recovery_account_request_object)) (s : rec_state) : result rec_state :=
  match l with
  | [] => Ok s
  | x :: l => if effective_on x.2 <=? now s then s ← apply_change x.1 x.2 s; apply_changes l s else Ok s
  end.

Definition account_recovery_processing (s : rec_state) : result rec_state :=
  let s := clear_requests (by_expiration s) s in
  let s := set_history (drop_history (now s) (history s)) s in
  apply_changes (by_effective_date s) s.
