(* ===== verification/RecoveryHistory.v ===== *)
(** * What a history says about a recovery

    Histories of the events that concern authorities and recovery, and three guarantees
    over them: a recovery needs a recent request of the recovery partner and a recent owner
    authority, the partner changes 30 days after it was asked for, and whoever held the
    owner authority in the last 30 days gets the account back together with the partner. *)

From stdpp Require Import base numbers strings option list sorting gmap.
From S2P Require Import Prelude Fc Config Authority Validation Operations WitnessSchedule Recovery.
Open Scope Z_scope.

(** ** Histories *)

Inductive rec_event : Set :=
| ev_update (o : account_update_operation.t)
| ev_update2 (o : account_update2_operation.t)
| ev_request (o : request_account_recovery_operation.t)
| ev_recover (o : recover_account_operation.t)
| ev_change (o : change_recovery_account_operation.t)
(** The end of a block of time [t]; the next one has the time [next]. *)
| ev_block (t next : Z)
(** A new account. *)
| ev_create (name : string) (a : rec_account) (auth : account_authority_object)
(** What the rest of the chain decides: witnesses, whether the node checks a transaction
    for the first time, hardforks. *)
| ev_chain (ws : list witness_object) (control : bool) (hardfork : Z).

Definition rec_apply (e : rec_event) (s : rec_state) : result rec_state :=
  match e with
  | ev_update o => account_update o s
  | ev_update2 o => account_update2 o s
  | ev_request o => request_account_recovery o s
  | ev_recover o => recover_account o s
  | ev_change o => change_recovery_account o s
  | ev_block t next => account_recovery_processing (set_head t (u32 (head_num s + 1)) next s)
  | ev_create name a auth => Ok (set_authorities (<[name := auth]> (authorities s)) (set_accounts (<[name := a]> (accounts s)) s))
  | ev_chain ws control hardfork => Ok (mk_rec (accounts s) (authorities s) (history s) (requests s) (changes s) ws (now s) (head_num s) (current_timestamp s)
                                          hardfork control (rec_vops s))
  end.

(** Time goes on, and ends before 2106. *)
Definition event_ok (e : rec_event) (s : rec_state) : Prop :=
  match e with
  | ev_block t _ => now s < t /\ t + HIVE_OWNER_AUTH_RECOVERY_PERIOD < 2 ^ 32
  | ev_create name _ _ => accounts s !! name = None /\ authorities s !! name = None
  | _ => True
  end.

(** The events with the states they met. *)
Inductive run (s0 : rec_state) : list (rec_event * rec_state) -> rec_state -> Prop :=
| run_start : run s0 [] s0
| run_step tr s e s' : run s0 tr s -> event_ok e s -> rec_apply e s = Ok s' -> run s0 (tr ++ [(e, s)]) s'.

Record fresh (s : rec_state) : Prop := {
  fr_now : 0 <= now s /\ now s + HIVE_OWNER_AUTH_RECOVERY_PERIOD < 2 ^ 32;
  fr_history : history s = [];
  fr_requests : requests s = ∅;
  fr_changes : changes s = ∅;
  fr_auths n : is_Some (accounts s !! n) -> is_Some (authorities s !! n)
}.

Definition owner_of (s : rec_state) (n : string) : option authority := owner <$> authorities s !! n.
(** The account an event gives a new owner authority. *)
Definition sets_owner (e : rec_event) : option (string * authority) :=
  match e with
  | ev_update o => (fun x => (account_update_operation.account o, x)) <$> account_update_operation.owner o
  | ev_update2 o => (fun x => (account_update2_operation.account o, x)) <$> account_update2_operation.owner o
  | ev_recover o => Some (recover_account_operation.account_to_recover o, recover_account_operation.new_owner_authority o)
  | _ => None
  end.
Definition replaced_by (x : rec_event * rec_state) : list owner_authority_history_object :=
  match sets_owner x.1 with
  | Some (n, _) => match owner_of x.2 n with
                   | Some old => if tracks_history x.2 then [mk_oah n old (now x.2)] else []
                   | None => []
                   end
  | None => []
  end.
Definition replaced (tr : list (rec_event * rec_state)) : list owner_authority_history_object := concat (map replaced_by tr).

Definition is_partner (p n : string) (s : rec_state) : Prop := exists a, accounts s !! n = Some a /\ check_partner p a s = Ok tt.

(** ** Operations *)

(** An event that gives [n] a new owner authority [x], or none. *)
Record changed (n : string) (x : option authority) (s s' : rec_state) : Prop := {
  ch_history : history s' = history s ++ match x, owner_of s n with
                                         | Some _, Some old => if tracks_history s then [mk_oah n old (now s)] else []
                                         | _, _ => []
                                         end;
  ch_requests : requests s' = requests s;
  ch_changes : changes s' = changes s;
  ch_now : now s' = now s;
  ch_accounts m : (fun a => (account_id a, recovery_account a)) <$> accounts s' !! m = (fun a => (account_id a, recovery_account a)) <$> accounts s !! m;
  ch_others m : m <> n -> authorities s' !! m = authorities s !! m;
  ch_owner : owner_of s' n = match x with Some y => (fun _ => y) <$> owner_of s n | None => owner_of s n end
}.

Lemma alter_same {A B} (f : A -> B) (g : A -> A) (n m : string) (l : gmap string A) : (forall a, f (g a) = f a) ->
  f <$> alter g n l !! m = f <$> l !! m.
Proof. intros H. destruct (decide (n = m)) as [->|]; [rewrite lookup_alter_eq; destruct (l !! m); cbn; by rewrite ?H|by rewrite lookup_alter_ne]. Qed.

Lemma update_owner_Ok n x s s' : update_owner_authority n x s = Ok s' ->
  changed n (Some x) s s' /\ is_Some (owner_of s n) /\ accounts s' = accounts s /\ current_timestamp s' = current_timestamp s /\
  forall a, authorities s !! n = Some a -> exists a', authorities s' !! n = Some a' /\ active a' = active a /\ posting a' = posting a.
Proof.
  intros H. unfold update_owner_authority, get_authority in H. destruct (authorities s !! n) as [a|] eqn:E; [|done]. cbn [mbind result_bind] in H. injection H as <-.
  assert (owner_of s n = Some (owner a)) as Eo by (unfold owner_of; by rewrite E).
  set (t := if tracks_history s then _ else s).
  assert (authorities t = authorities s /\ requests t = requests s /\ changes t = changes s /\ now t = now s /\ accounts t = accounts s /\ current_timestamp t = current_timestamp s) as (T1 & T2 & T3 & T4 & T5 & T6)
    by (unfold t; by destruct (tracks_history s)).
  split_and!; [|by rewrite Eo|done|done|].
  - constructor; [|done..| | |].
    + cbn. rewrite Eo. unfold t. destruct (tracks_history s); [done|by rewrite app_nil_r].
    + intros m. cbn. by rewrite T5.
    + intros m Hm. cbn. by rewrite T1, lookup_alter_ne.
    + unfold owner_of. cbn. rewrite T1, lookup_alter_eq, E. done.
  - intros b Hb. injection Hb as <-. exists (set_owner x (now t) a). cbn. rewrite T1, lookup_alter_eq, E. done.
Qed.

Lemma changed_refl n s : changed n None s s.
Proof. constructor; try done. by rewrite app_nil_r. Qed.

Lemma changed_after n x s t s' : changed n x s t -> history s' = history t -> requests s' = requests t -> changes s' = changes t -> now s' = now t ->
  (forall m, (fun a => (account_id a, recovery_account a)) <$> accounts s' !! m = (fun a => (account_id a, recovery_account a)) <$> accounts t !! m) ->
  (forall m, m <> n -> authorities s' !! m = authorities t !! m) -> owner_of s' n = owner_of t n -> changed n x s s'.
Proof. intros [C1 C2 C3 C4 C5 C6 C7] H1 H2 H3 H4 H5 H6 H7. constructor; [congruence|congruence|congruence|congruence|intros m; by rewrite H5|intros m Hm; by rewrite H6, C6|congruence]. Qed.

(** Both operations that update an account end in the same way. *)
Lemma finish_update n x s t f g : changed n x s t -> (forall a, account_id (f a) = account_id a /\ recovery_account (f a) = recovery_account a) -> (forall a, owner (g a) = owner a) ->
  changed n x s (modify_authority n g (modify_account n f t)).
Proof.
  intros C Hf Hg. eapply changed_after; [exact C|done..| | |].
  - intros m. cbn. apply alter_same. intros a. by destruct (Hf a) as [-> ->].
  - intros m Hm. cbn. by rewrite lookup_alter_ne.
  - unfold owner_of. cbn. by apply alter_same.
Qed.

Lemma owner_if_given n x a s t : update_owner_if_given n x a s = Ok t -> changed n x s t.
Proof.
  destruct x as [x|]; cbn; [|intros [= <-]; apply changed_refl]. intros H. apply check_bind_Ok in H as [_ H]. apply bind_Ok in H as (? & _ & H). by apply update_owner_Ok in H as [H _].
Qed.
Lemma set_given_owner x y a : owner (set_if_given set_posting x (set_if_given set_active y a)) = owner a.
Proof. by destruct x, y. Qed.

Lemma account_update_Ok o s s' : account_update o s = Ok s' -> changed (account_update_operation.account o) (account_update_operation.owner o) s s'.
Proof.
  intros H. unfold account_update in H. apply check_bind_Ok in H as [_ H]. do 2 apply bind_Ok in H as (? & _ & H). do 3 apply bind_Ok in H as (? & _ & H).
  apply bind_Ok in H as (t & Ht & H). do 2 apply bind_Ok in H as (? & _ & H). injection H as <-. apply finish_update; [by eapply owner_if_given|done|intros a; apply set_given_owner].
Qed.
Lemma account_update2_Ok o s s' : account_update2 o s = Ok s' -> changed (account_update2_operation.account o) (account_update2_operation.owner o) s s'.
Proof.
  intros H. unfold account_update2 in H. apply check_bind_Ok in H as [_ H]. do 2 apply bind_Ok in H as (? & _ & H).
  apply bind_Ok in H as (t & Ht & H). do 2 apply bind_Ok in H as (? & _ & H). injection H as <-. apply finish_update; [by eapply owner_if_given|done|intros a; apply set_given_owner].
Qed.

Lemma in_history_elem n x s : in_history n x s = true -> exists h, h ∈ history s /\ hist_account h = n /\ previous_owner_authority h = x.
Proof.
  unfold in_history. intros H. apply existsb_exists in H as (h & Hh & H). apply andb_true_iff in H as [H1 H2]. apply bool_decide_eq_true in H1, H2.
  exists h. by rewrite list_elem_of_In.
Qed.

Lemma recover_Ok o s s' : recover_account o s = Ok s' ->
  let n := recover_account_operation.account_to_recover o in let x := recover_account_operation.new_owner_authority o in
  changed n (Some x) (set_requests (delete n (requests s)) s) s' /\ owner_of s' n = Some x /\
  (exists r, requests s !! n = Some r /\ Recovery.new_owner_authority r = x) /\ in_history n (recover_account_operation.recent_owner_authority o) s = true /\
  forall a, authorities s !! n = Some a -> exists a', authorities s' !! n = Some a' /\ active a' = active a /\ posting a' = posting a.
Proof.
  intros H n x. unfold recover_account in H. fold n x in H. apply bind_Ok in H as (a & _ & H). apply check_bind_Ok in H as [_ H]. destruct (requests s !! n) as [r|] eqn:Er; [|done].
  apply check_bind_Ok in H as [H1 H]. apply bool_decide_eq_true in H1. apply check_bind_Ok in H as [H2 H]. apply bind_Ok in H as (t & Ht & H). injection H as <-.
  apply update_owner_Ok in Ht as (C & Hs & Ha & _ & Hap). assert (changed n (Some x) (set_requests (delete n (requests s)) s) (modify_account n (set_recovery_time (now t) (current_timestamp t)) t)) as C'.
  { eapply changed_after; [exact C|done..| |done|done]. intros m. cbn. by apply alter_same. }
  split_and!; [done| |by exists r|done|done]. rewrite (ch_owner _ _ _ _ C'). destruct Hs as [y Hy]. by rewrite Hy.
Qed.

Lemma request_Ok o s s' : request_account_recovery o s = Ok s' ->
  let n := request_account_recovery_operation.account_to_recover o in
  is_partner (request_account_recovery_operation.recovery_account o) n s /\
  (s' = set_requests (delete n (requests s)) s \/
   s' = set_requests (<[n := mk_arr (request_account_recovery_operation.new_owner_authority o) (u32 (now s + HIVE_ACCOUNT_RECOVERY_REQUEST_EXPIRATION_PERIOD))]> (requests s)) s).
Proof.
  intros H n. unfold request_account_recovery in H. fold n in H. apply bind_Ok in H as (a & Ha & H). apply bind_Ok in H as ([] & Hp & H). apply bind_Ok in H as (? & _ & H).
  unfold get_account in Ha. destruct (accounts s !! n) as [b|] eqn:Eb; [|done]. injection Ha as ->. split; [by exists a|]. destruct (requests s !! n).
  - destruct (_ =? 0); [injection H as <-; by left|]. apply check_bind_Ok in H as [_ H]. apply bind_Ok in H as (? & _ & H). injection H as <-. by right.
  - do 2 apply check_bind_Ok in H as [_ H]. do 2 apply bind_Ok in H as (? & _ & H). injection H as <-. by right.
Qed.

Lemma change_Ok o s s' : change_recovery_account o s = Ok s' ->
  let n := change_recovery_account_operation.account_to_recover o in
  s' = set_changes (delete n (changes s)) s \/
  s' = set_changes (<[n := mk_crr (change_recovery_account_operation.new_recovery_account o) (u32 (now s + HIVE_OWNER_AUTH_RECOVERY_PERIOD))]> (changes s)) s.
Proof.
  intros H n. unfold change_recovery_account in H. fold n in H. do 2 apply bind_Ok in H as (? & _ & H). destruct (changes s !! n); [|injection H as <-; by right].
  destruct (negb _); injection H as <-; [by right|by left].
Qed.

(** ** Blocks *)

#[export] Instance time_name_le_total {A} (f : A -> Z) : Total (time_name_le f).
Proof.
  intros x y. unfold time_name_le. destruct (Z.lt_trichotomy (f x.2) (f y.2)) as [?|[E|?]]; [left; by left| |right; by left].
  destruct (String.leb_total x.1 y.1); [left; by right|right; by right].
Qed.
(** The index begins with what is due first. *)
Lemma index_sorted {A} (f : A -> Z) (l : list (string * A)) : StronglySorted (fun x y => f x.2 <= f y.2) (merge_sort (time_name_le f) l).
Proof.
  apply Sorted_StronglySorted; [intros x y z; lia|]. pose proof (Sorted_merge_sort (time_name_le f) l) as H. revert H. generalize (merge_sort (time_name_le f) l).
  induction 1 as [|x xs Hs IH Hd]; [constructor|]. constructor; [exact IH|]. destruct Hd as [|y ys [H|[H _]]]; constructor; lia.
Qed.

Lemma clear_Ok l : forall s, StronglySorted (fun x y => expires x.2 <= expires y.2) l ->
  (forall n r, requests s !! n = Some r -> now s < expires r \/ (n, r) ∈ l) ->
  exists m, clear_requests l s = set_requests m s /\ forall n r, m !! n = Some r -> requests s !! n = Some r /\ now s < expires r.
Proof.
  induction l as [|x l IH]; intros s Hs Hin; cbn.
  { exists (requests s). split; [by destruct s|]. intros n r Hr. split; [done|]. destruct (Hin n r Hr) as [?|H]; [done|by apply not_elem_of_nil in H]. }
  apply StronglySorted_inv in Hs as [Hs Hall]. destruct (expires x.2 <=? now s) eqn:E; to_prop.
  - destruct (IH (set_requests (delete x.1 (requests s)) s) Hs) as (m & Hm & Hr).
    + intros n r H. cbn in H. apply lookup_delete_Some in H as [Hne H]. destruct (Hin n r H) as [?|Hl]; [by left|]. apply elem_of_cons in Hl as [<-|Hl]; [done|by right].
    + exists m. split; [exact Hm|]. intros n r H. destruct (Hr n r H) as [H1 H2]. cbn in H1. apply lookup_delete_Some in H1 as [_ H1]. done.
  - exists (requests s). split; [by destruct s|]. intros n r H. split; [done|]. destruct (Hin n r H) as [?|Hl]; [done|]. apply elem_of_cons in Hl as [<-|Hl]; [cbn in E; lia|].
    rewrite Forall_forall in Hall. specialize (Hall _ Hl). cbn in Hall. lia.
Qed.

Lemma drop_history_filter t l : StronglySorted (fun x y => last_valid_time x <= last_valid_time y) l ->
  Forall (fun h => 0 <= last_valid_time h /\ last_valid_time h + HIVE_OWNER_AUTH_RECOVERY_PERIOD < 2 ^ 32) l ->
  drop_history t l = filter (fun h => t <= last_valid_time h + HIVE_OWNER_AUTH_RECOVERY_PERIOD) l.
Proof.
  induction 1 as [|h l Hs IH Hall]; intros Hf; [done|]. apply Forall_cons in Hf as [Hh Hf]. cbn [drop_history]. rewrite filter_cons, uwrap_id by (unfold in_u, HIVE_OWNER_AUTH_RECOVERY_PERIOD in *; lia).
  destruct (_ <? t) eqn:E; to_prop; [rewrite decide_False by lia; by apply IH|]. rewrite decide_True by lia. f_equal. symmetry. apply filter_all.
  apply Forall_forall. intros x Hx. rewrite Forall_forall in Hall. specialize (Hall x Hx). cbn in Hall. lia.
Qed.

(** What the changes that take effect leave. *)
Record effective (l : list (string * change_recovery_account_request_object)) (s s' : rec_state) : Prop := {
  ef_same : now s' = now s /\ history s' = history s /\ requests s' = requests s /\ authorities s' = authorities s;
  ef_changes n c : changes s' !! n = Some c -> changes s !! n = Some c;
  ef_dom n : is_Some (accounts s' !! n) <-> is_Some (accounts s !! n);
  ef_accounts n a : accounts s !! n = Some a -> exists a', accounts s' !! n = Some a' /\ account_id a' = account_id a /\
    (recovery_account a' = recovery_account a \/
     exists c p, (n, c) ∈ l /\ effective_on c <= now s /\ accounts s' !! Recovery.new_recovery_account c = Some p /\ recovery_account a' = account_id p)
}.

Lemma apply_change_Ok n c s s' : apply_change n c s = Ok s' -> effective_on c <= now s -> effective [(n, c)] s s'.
Proof.
  intros H Ht. unfold apply_change in H. apply bind_Ok in H as (a & Ha & H). apply bind_Ok in H as (? & _ & H). apply bind_Ok in H as (p & Hp & H). injection H as <-.
  unfold get_account in Ha, Hp. destruct (accounts s !! n) as [a0|] eqn:Ea; [|done]. injection Ha as ->. destruct (accounts s !! Recovery.new_recovery_account c) as [p0|] eqn:Ep; [|done]. injection Hp as ->.
  constructor; [done| |intros m; cbn; apply lookup_alter_is_Some|].
  - intros m c' H. cbn in H. by apply lookup_delete_Some in H as [_ H].
  - intros m b Hb. cbn. destruct (decide (n = m)) as [<-|Hne]; [|rewrite lookup_alter_ne by done; exists b; split_and!; [done|done|by left]].
    rewrite lookup_alter_eq, Hb. cbn. eexists. split_and!; [done|done|]. right. exists c. cbn.
    destruct (decide (n = Recovery.new_recovery_account c)) as [E|Hne]; [|exists p; rewrite lookup_alter_ne by done; split_and!; [by left|done|done|done]].
    rewrite <- E in Ep |- *. rewrite lookup_alter_eq, Ep. cbn. eexists. split_and!; [by left|done|done|done].
Qed.

Lemma changes_Ok l : forall s s', apply_changes l s = Ok s' -> effective l s s'.
Proof.
  induction l as [|x l IH]; intros s s' H; cbn in H.
  { injection H as <-. constructor; [done|done|done|]. intros n a Ha. exists a. split_and!; [done|done|by left]. }
  destruct (effective_on x.2 <=? now s) eqn:E; to_prop; [|injection H as <-; constructor; [done|done|done|]; intros n a Ha; exists a; split_and!; [done|done|by left]].
  apply bind_Ok in H as (t & Ht & H). apply apply_change_Ok in Ht as [(A1 & A2 & A3 & A4) A5 A6 A7]; [|done]. apply IH in H as [(B1 & B2 & B3 & B4) B5 B6 B7].
  constructor; [split_and!; congruence|auto|intros n; rewrite B6; apply A6|].
  intros n a Ha. destruct (A7 n a Ha) as (a1 & Ha1 & I1 & R1). destruct (B7 n a1 Ha1) as (a2 & Ha2 & I2 & R2). exists a2. split_and!; [done|congruence|].
  destruct R2 as [R2|(c & p & Hl & Ht & Hp & R2)].
  - destruct R1 as [R1|(c & p & Hl & Ht & Hp & R1)]; [left; congruence|]. right. destruct (B7 _ p Hp) as (p' & Hp' & Ip & _). exists c, p'.
    apply list_elem_of_singleton in Hl. split_and!; [rewrite Hl; destruct x; left|done|done|congruence].
  - right. exists c, p. split_and!; [by right|by rewrite <- A1|done|done].
Qed.

Record processed (s s' : rec_state) : Prop := {
  pr_now : now s' = now s;
  pr_history : history s' = drop_history (now s) (history s);
  pr_auths : authorities s' = authorities s;
  pr_requests n r : requests s' !! n = Some r -> requests s !! n = Some r /\ now s < expires r;
  pr_changes n c : changes s' !! n = Some c -> changes s !! n = Some c;
  pr_dom n : is_Some (accounts s' !! n) <-> is_Some (accounts s !! n);
  pr_accounts n a : accounts s !! n = Some a -> exists a', accounts s' !! n = Some a' /\ account_id a' = account_id a /\
    (recovery_account a' = recovery_account a \/
     exists c p, changes s !! n = Some c /\ effective_on c <= now s /\ accounts s' !! Recovery.new_recovery_account c = Some p /\ recovery_account a' = account_id p)
}.

Lemma processing_Ok s s' : account_recovery_processing s = Ok s' -> processed s s'.
Proof.
  intros H. unfold account_recovery_processing in H. destruct (clear_Ok (by_expiration s) s) as (m & Hm & Hr); [apply index_sorted| |].
  { intros n r Hr. right. unfold by_expiration. rewrite merge_sort_Permutation. by apply elem_of_map_to_list. }
  rewrite Hm in H. cbn [now history set_requests] in H. apply changes_Ok in H as [(E1 & E2 & E3 & E4) E5 E6 E7]. cbn in *. constructor; try done.
  - intros n r H. rewrite E3 in H. by apply Hr.
  - intros n a Ha. destruct (E7 n a Ha) as (a' & Ha' & I1 & R1). exists a'. split_and!; [done|done|]. destruct R1 as [R1|(c & p & Hl & Ht & Hp & R1)]; [by left|]. right. exists c, p.
    split_and!; [|done|done|done]. unfold by_effective_date in Hl. rewrite merge_sort_Permutation in Hl. by apply elem_of_map_to_list in Hl.
Qed.

(** ** The invariant of a history *)

Record rec_inv (tr : list (rec_event * rec_state)) (s : rec_state) : Prop := {
  ri_now : 0 <= now s /\ now s + HIVE_OWNER_AUTH_RECOVERY_PERIOD < 2 ^ 32;
  ri_times : StronglySorted (fun x y => last_valid_time x <= last_valid_time y) (replaced tr) /\ Forall (fun h => 0 <= last_valid_time h <= now s) (replaced tr);
  ri_history : history s = filter (fun h => now s <= last_valid_time h + HIVE_OWNER_AUTH_RECOVERY_PERIOD) (replaced tr);
  ri_requests n r : requests s !! n = Some r -> now s < expires r /\ exists o t, (ev_request o, t) ∈ tr /\
    request_account_recovery_operation.account_to_recover o = n /\ request_account_recovery_operation.new_owner_authority o = Recovery.new_owner_authority r /\
    is_partner (request_account_recovery_operation.recovery_account o) n t /\ expires r = now t + HIVE_ACCOUNT_RECOVERY_REQUEST_EXPIRATION_PERIOD;
  ri_changes n c : changes s !! n = Some c -> exists o t, (ev_change o, t) ∈ tr /\
    change_recovery_account_operation.account_to_recover o = n /\ change_recovery_account_operation.new_recovery_account o = Recovery.new_recovery_account c /\
    effective_on c = now t + HIVE_OWNER_AUTH_RECOVERY_PERIOD;
  ri_auths n : is_Some (accounts s !! n) -> is_Some (authorities s !! n)
}.

Lemma fresh_inv s : fresh s -> rec_inv [] s.
Proof.
  intros [F1 F2 F3 F4 F5]. constructor; [done|by split; constructor|by rewrite F2|intros n r H; by rewrite F3, lookup_empty in H|intros n c H; by rewrite F4, lookup_empty in H|done].
Qed.

Lemma replaced_snoc tr x : replaced (tr ++ [x]) = replaced tr ++ replaced_by x.
Proof. unfold replaced. rewrite map_app, concat_app. cbn. by rewrite app_nil_r. Qed.

Lemma times_snoc {A} (f : A -> Z) l x : StronglySorted (fun x y => f x <= f y) l -> Forall (fun y => f y <= f x) l -> StronglySorted (fun x y => f x <= f y) (l ++ [x]).
Proof. induction 1 as [|y l Hs IH Hall]; intros Hf; cbn; [repeat constructor|]. apply Forall_cons in Hf as [Hy Hf]. constructor; [by apply IH|]. apply Forall_app. split; [done|by repeat constructor]. Qed.

Lemma sorted_filter {A} (R : relation A) (P : A -> Prop) `{!forall x, Decision (P x)} l : StronglySorted R l -> StronglySorted R (filter P l).
Proof.
  induction 1 as [|x l Hs IH Hall]; [constructor|]. rewrite filter_cons. destruct (decide (P x)); [|done]. constructor; [done|].
  apply Forall_forall. intros y Hy. apply list_elem_of_filter in Hy as [_ Hy]. by rewrite Forall_forall in Hall; apply Hall.
Qed.

(** What an event other than a block leaves of the invariant. *)
Record quiet_event (e : rec_event) (s s' : rec_state) : Prop := {
  qe_now : now s' = now s;
  qe_history : history s' = history s ++ replaced_by (e, s);
  qe_requests n r : requests s' !! n = Some r -> requests s !! n = Some r \/ exists o, e = ev_request o /\
    request_account_recovery_operation.account_to_recover o = n /\ request_account_recovery_operation.new_owner_authority o = Recovery.new_owner_authority r /\
    is_partner (request_account_recovery_operation.recovery_account o) n s /\ expires r = u32 (now s + HIVE_ACCOUNT_RECOVERY_REQUEST_EXPIRATION_PERIOD);
  qe_changes n c : changes s' !! n = Some c -> changes s !! n = Some c \/ exists o, e = ev_change o /\
    change_recovery_account_operation.account_to_recover o = n /\ change_recovery_account_operation.new_recovery_account o = Recovery.new_recovery_account c /\
    effective_on c = u32 (now s + HIVE_OWNER_AUTH_RECOVERY_PERIOD);
  qe_accounts n a a' : accounts s !! n = Some a -> accounts s' !! n = Some a' -> recovery_account a' = recovery_account a;
  qe_auths : (forall n, is_Some (accounts s !! n) -> is_Some (authorities s !! n)) -> forall n, is_Some (accounts s' !! n) -> is_Some (authorities s' !! n)
}.

Lemma changed_quiet e n x s s' : changed n x s s' -> sets_owner e = (fun y => (n, y)) <$> x -> is_Some (owner_of s n) -> quiet_event e s s'.
Proof.
  intros [C1 C2 C3 C4 C5 C6 C7] He Hown. constructor; [done| | | | |].
  - rewrite C1. unfold replaced_by. cbn [fst snd]. rewrite He. by destruct x.
  - intros m r H. left. by rewrite <- C2.
  - intros m c H. left. by rewrite <- C3.
  - intros m a a' Ha Ha'. specialize (C5 m). rewrite Ha, Ha' in C5. by injection C5 as _ ->.
  - intros Hd m Hm. specialize (C5 m). destruct (decide (m = n)) as [->|Hne].
    + destruct Hown as [y Hy]. assert (is_Some (owner_of s' n)) as [z Hz] by (rewrite C7, Hy; destruct x; by eexists). unfold owner_of in Hz. destruct (authorities s' !! n); [by eexists|done].
    + rewrite C6 by done. apply Hd. destruct Hm as [b Hb]. rewrite Hb in C5. destruct (accounts s !! m); [by eexists|done].
Qed.

Lemma owner_set_of n s : is_Some (authorities s !! n) -> is_Some (owner_of s n).
Proof. intros [a Ha]. unfold owner_of. rewrite Ha. by eexists. Qed.

Lemma event_quiet e s s' : (forall t next, e <> ev_block t next) -> event_ok e s -> (forall n, is_Some (accounts s !! n) -> is_Some (authorities s !! n)) ->
  rec_apply e s = Ok s' -> quiet_event e s s'.
Proof.
  intros Hb Hok Hd H. destruct e as [o|o|o|o|o|t nx|name a auth|ws c hf]; cbn in H.
  - pose proof (account_update_Ok _ _ _ H) as C. eapply changed_quiet; [exact C|done|]. apply owner_set_of. unfold account_update in H. apply check_bind_Ok in H as [_ H]. apply bind_Ok in H as (? & _ & H).
    apply bind_Ok in H as (au & Ha & H). unfold get_authority in Ha. destruct (authorities s !! _); [by eexists|done].
  - pose proof (account_update2_Ok _ _ _ H) as C. eapply changed_quiet; [exact C|done|]. apply owner_set_of. unfold account_update2 in H. apply check_bind_Ok in H as [_ H]. apply bind_Ok in H as (? & _ & H).
    apply bind_Ok in H as (au & Ha & H). unfold get_authority in Ha. destruct (authorities s !! _); [by eexists|done].
  - apply request_Ok in H as (Hp & [-> | ->]); (constructor; [done|by rewrite app_nil_r| |intros n c Hc; by left|intros n a a' Ha Ha'; cbn in Ha'; congruence|done]); intros n r Hr; cbn in Hr.
    + left. by apply lookup_delete_Some in Hr as [_ Hr].
    + apply lookup_insert_Some in Hr as [[<- <-]|[_ Hr]]; [right; by exists o|by left].
  - apply recover_Ok in H as (C & Ho & _ & _ & _). set (n := recover_account_operation.account_to_recover o) in *.
    assert (is_Some (owner_of s n)) as Hs. { pose proof (ch_owner _ _ _ _ C) as Hc. rewrite Ho in Hc. unfold owner_of in *. cbn in Hc. destruct (authorities s !! n); [by eexists|done]. }
    eapply changed_quiet in C; [|instantiate (1 := ev_recover o); done|done]. destruct C as [Q1 Q2 Q3 Q4 Q5 Q6]. constructor; [done|done| |done|done|by apply Q6].
    intros m r Hr. destruct (Q3 m r Hr) as [Hl|(? & [=] & _)]. left. cbn in Hl. by apply lookup_delete_Some in Hl as [_ Hl].
  - apply change_Ok in H as [-> | ->]; (constructor; [done|by rewrite app_nil_r|intros n r Hr; by left| |intros n a a' Ha Ha'; cbn in Ha'; congruence|done]); intros n r Hr; cbn in Hr.
    + left. by apply lookup_delete_Some in Hr as [_ Hr].
    + apply lookup_insert_Some in Hr as [[<- <-]|[_ Hr]]; [right; by exists o|by left].
  - by destruct (Hb t nx).
  - injection H as <-. destruct Hok as [Hok _]. constructor; [done|by rewrite app_nil_r|intros n r Hr; by left|intros n c Hc; by left| |].
    + intros n b b' E1 E2. cbn in E2. apply lookup_insert_Some in E2 as [[<- <-]|[_ E2]]; congruence.
    + intros _ n Hn. change (is_Some (<[name := auth]> (authorities s) !! n)). change (is_Some (<[name := a]> (accounts s) !! n)) in Hn.
      destruct (decide (name = n)) as [->|Hne]; [rewrite lookup_insert_eq; by eexists|]. rewrite lookup_insert_ne by done. rewrite lookup_insert_ne in Hn by done. by apply Hd.
  - injection H as <-. constructor; [done|by rewrite app_nil_r|intros n r Hr; by left|intros n r Hr; by left|intros n a a' Ha Ha'; cbn in Ha'; congruence|done].
Qed.

Lemma quiet_keeps tr e s s' : rec_inv tr s -> quiet_event e s s' -> rec_inv (tr ++ [(e, s)]) s'.
Proof.
  intros [I1 [I2 I2'] I3 I4 I5 I6] [Q1 Q2 Q3 Q4 Q5 Q6]. assert (replaced_by (e, s) = [] \/ exists n x, replaced_by (e, s) = [mk_oah n x (now s)]) as Hrep.
  { unfold replaced_by. destruct (sets_owner _) as [[n ?]|]; [|by left]. destruct (owner_of _ n); [|by left]. destruct (tracks_history _); [right; by eexists _, _|by left]. }
  unfold HIVE_OWNER_AUTH_RECOVERY_PERIOD, HIVE_ACCOUNT_RECOVERY_REQUEST_EXPIRATION_PERIOD in *. constructor.
  - by rewrite Q1.
  - rewrite replaced_snoc, Q1. destruct Hrep as [-> |(n & x & ->)]; [by rewrite app_nil_r|]. split.
    + apply (times_snoc last_valid_time); [done|]. eapply Forall_impl; [exact I2'|]. cbn. lia.
    + apply Forall_app. split; [done|]. repeat constructor; cbn; lia.
  - rewrite replaced_snoc, filter_app, Q1, Q2, I3. f_equal. destruct Hrep as [-> |(n & x & ->)]; [done|]. rewrite filter_cons, decide_True, filter_nil by (cbn; unfold HIVE_OWNER_AUTH_RECOVERY_PERIOD; lia). done.
  - intros n r Hr. rewrite Q1. destruct (Q3 n r Hr) as [H|(o & -> & H1 & H2 & H3 & H4)].
    + destruct (I4 n r H) as (E1 & o & t & Ho & H'). split; [done|]. exists o, t. split; [|done]. apply elem_of_app. by left.
    + unfold HIVE_ACCOUNT_RECOVERY_REQUEST_EXPIRATION_PERIOD in *. rewrite uwrap_id in H4 by (unfold in_u; lia). split; [lia|]. exists o, s. split_and!; [apply elem_of_app; right; by left|done..].
  - intros n c Hc. destruct (Q4 n c Hc) as [H|(o & -> & H1 & H2 & H3)].
    + destruct (I5 n c H) as (o & t & Ho & H'). exists o, t. split; [|done]. apply elem_of_app. by left.
    + unfold HIVE_OWNER_AUTH_RECOVERY_PERIOD in *. rewrite uwrap_id in H3 by (unfold in_u; lia). exists o, s. split_and!; [apply elem_of_app; right; by left|done..].
  - by apply Q6.
Qed.

Lemma block_keeps tr t next s s' : rec_inv tr s -> event_ok (ev_block t next) s -> rec_apply (ev_block t next) s = Ok s' ->
  rec_inv (tr ++ [(ev_block t next, s)]) s'.
Proof.
  intros [I1 [I2 I2'] I3 I4 I5 I6] [Ht Hmax] H. cbn in H. apply processing_Ok in H as [P1 P2 P3 P4 P5 P6 P7]. cbn in *.
  assert (forall x, x ∈ tr -> x ∈ tr ++ [(ev_block t next, s)]) as Htr by (intros x Hx; apply elem_of_app; by left). constructor.
  - rewrite P1. split; [lia|done].
  - rewrite replaced_snoc. cbn. rewrite app_nil_r, P1. split; [done|]. eapply Forall_impl; [exact I2'|]. cbn. lia.
  - rewrite replaced_snoc. cbn. rewrite app_nil_r, P1, P2, I3, drop_history_filter.
    + rewrite list_filter_filter. apply list_filter_iff. intros h. lia.
    + by apply sorted_filter.
    + apply Forall_forall. intros h Hh. apply list_elem_of_filter in Hh as [_ Hh]. rewrite Forall_forall in I2'. specialize (I2' h Hh). lia.
  - intros n r Hr. rewrite P1. destruct (P4 n r Hr) as [H1 H2]. destruct (I4 n r H1) as (_ & o & u & Ho & H'). split; [done|]. exists o, u. split; [by apply Htr|done].
  - intros n c Hc. apply P5 in Hc. destruct (I5 n c Hc) as (o & u & Ho & H'). exists o, u. split; [by apply Htr|done].
  - intros n Hn. rewrite P3. by apply I6, P6.
Qed.

Lemma run_inv s0 tr s : fresh s0 -> run s0 tr s -> rec_inv tr s.
Proof.
  intros F. induction 1 as [|tr s e s' Hr IH Hok H]; [by apply fresh_inv|].
  destruct e; try (apply quiet_keeps; [done|]; apply event_quiet; [done|done|apply IH|done]). by eapply block_keeps.
Qed.

(** ** What holds of every history *)

Lemma replaced_elem tr h : h ∈ replaced tr -> exists e t x, (e, t) ∈ tr /\ sets_owner e = Some (hist_account h, x) /\
  owner_of t (hist_account h) = Some (previous_owner_authority h) /\ last_valid_time h = now t.
Proof.
  unfold replaced. intros H. apply list_elem_of_In, in_concat in H as (l & Hl & Hh). apply in_map_iff in Hl as ([e t] & <- & Ht). unfold replaced_by in Hh. cbn [fst snd] in Hh.
  destruct (sets_owner e) as [[n x]|] eqn:Ee; [|done]. destruct (owner_of t n) as [old|] eqn:Eo; [|done]. destruct (tracks_history t); [|done]. destruct Hh as [<-|[]]. exists e, t, x. by rewrite list_elem_of_In.
Qed.
Lemma replaced_in tr e t n x old : (e, t) ∈ tr -> sets_owner e = Some (n, x) -> owner_of t n = Some old -> tracks_history t = true ->
  mk_oah n old (now t) ∈ replaced tr.
Proof.
  intros H1 H2 H3 H4. apply list_elem_of_In, in_concat. exists (replaced_by (e, t)). split; [apply in_map; by rewrite <- list_elem_of_In|]. unfold replaced_by. cbn [fst snd]. rewrite H2, H3, H4. by left.
Qed.

(** C15. An account is recovered only with its partner and a recent owner: when
    [recover_account] succeeds, the account that was its recovery partner at the time (or
    the top witness for an account without one) has asked for this very authority less
    than a day before, and the recent owner authority, which has to sign as well, owned
    the account until at most 30 days before; then the new authority owns the account, and
    no other authority of this or another account has changed. *)
Theorem recovery_needs_partner_and_recent_owner s0 tr s o s' : fresh s0 -> run s0 tr s -> recover_account o s = Ok s' ->
  let n := recover_account_operation.account_to_recover o in
  (exists req t, (ev_request req, t) ∈ tr /\ request_account_recovery_operation.account_to_recover req = n /\
     request_account_recovery_operation.new_owner_authority req = recover_account_operation.new_owner_authority o /\
     is_partner (request_account_recovery_operation.recovery_account req) n t /\ now s < now t + HIVE_ACCOUNT_RECOVERY_REQUEST_EXPIRATION_PERIOD) /\
  (exists e t x, (e, t) ∈ tr /\ sets_owner e = Some (n, x) /\ owner_of t n = Some (recover_account_operation.recent_owner_authority o) /\
     now s <= now t + HIVE_OWNER_AUTH_RECOVERY_PERIOD) /\
  owner_of s' n = Some (recover_account_operation.new_owner_authority o) /\
  (forall m, m <> n -> authorities s' !! m = authorities s !! m) /\
  forall a, authorities s !! n = Some a -> exists a', authorities s' !! n = Some a' /\ active a' = active a /\ posting a' = posting a.
Proof.
  intros F R H n. pose proof (run_inv _ _ _ F R) as I. apply recover_Ok in H as (C & Ho & (r & Hr & Er) & Hh & Hap). fold n in C, Ho, Hr, Hh, Hap. split_and!; [| |done|intros m Hm; by apply C|done].
  - destruct (ri_requests _ _ I n r Hr) as (Ht & q & t & Hq & E1 & E2 & E3 & E4). exists q, t. split_and!; [done|done|congruence|done|lia].
  - apply in_history_elem in Hh as (h & Hh & E1 & E2). rewrite (ri_history _ _ I) in Hh. apply list_elem_of_filter in Hh as [Ht Hh]. apply replaced_elem in Hh as (e & t & x & He & Es & Eo & El).
    exists e, t, x. rewrite <- E1, <- E2. split_and!; [done|done|done|lia].
Qed.

(** C29. A recovery partner is changed late: when an event changes the recovery partner of
    an account, it is a block, and the owner of the account has asked for this partner at
    least 30 days before its time, so that a thief has to hold an account for 30 days
    before the partner of its owner can be replaced. *)
Theorem recovery_partner_changes_late s0 tr s e s' n a a' : fresh s0 -> run s0 tr s -> event_ok e s -> rec_apply e s = Ok s' ->
  accounts s !! n = Some a -> accounts s' !! n = Some a' -> recovery_account a' <> recovery_account a ->
  exists t next, e = ev_block t next /\ exists o u p, (ev_change o, u) ∈ tr /\ change_recovery_account_operation.account_to_recover o = n /\
    accounts s' !! change_recovery_account_operation.new_recovery_account o = Some p /\ recovery_account a' = account_id p /\
    now u + HIVE_OWNER_AUTH_RECOVERY_PERIOD <= t.
Proof.
  intros F R Hok H Ha Ha' Hne. pose proof (run_inv _ _ _ F R) as I.
  assert ((exists t nx, e = ev_block t nx) \/ forall t nx, e <> ev_block t nx) as [(t & nx & ->)|Hq] by (destruct e; eauto; right; done).
  2: { exfalso. apply Hne. pose proof (event_quiet e s s' Hq Hok (ri_auths _ _ I) H) as [_ _ _ _ Q _]. by eapply Q. }
  exists t, nx. split; [done|]. cbn in H. apply processing_Ok in H as [P1 P2 P3 P4 P5 P6 P7]. destruct (P7 n a Ha) as (b & Hb & _ & Hrec). assert (b = a') as -> by congruence.
  destruct Hrec as [?|(c & p & Hc & Ht & Hp & Er)]; [done|]. cbn in Hc, Ht. destruct (ri_changes _ _ I n c Hc) as (o & u & Ho & E1 & E2 & E3). exists o, u, p. rewrite E2. split_and!; [done..|lia].
Qed.

(** C16. A stolen account can be taken back: when the owner authority of an account was
    replaced, in whatever way, at most 30 days ago and while the chain kept the history of
    owner authorities (from hardfork 30 or block 3186477 on), then whoever held the
    authority before recovers the account together with its present recovery partner, to
    any new authority that is possible, within the size limit and of existing accounts,
    unless the account was recovered within the last hour; nothing that was done to the
    account in between can prevent it. *)
Theorem stolen_account_recoverable s0 tr s e t n x old p a new ext : fresh s0 -> run s0 tr s ->
  (e, t) ∈ tr -> sets_owner e = Some (n, x) -> owner_of t n = Some old -> tracks_history t = true -> now s <= now t + HIVE_OWNER_AUTH_RECOVERY_PERIOD ->
  accounts s !! n = Some a -> check_partner p a s = Ok tt -> update_allowed (now s) (last_account_recovery a) = true ->
  validate_auth_size new = Ok tt -> is_impossible new = false -> weight_threshold new <> 0 -> verify_authority_accounts_exist new s = Ok tt ->
  exists s1 s2, request_account_recovery (request_account_recovery_operation.mk p n new ext) s = Ok s1 /\
    recover_account (recover_account_operation.mk n new old ext) s1 = Ok s2 /\ owner_of s2 n = Some new.
Proof.
  intros F R He Es Eo Etr Ht Ha Hp Hup Hsize Himp Hthr Hver. pose proof (run_inv _ _ _ F R) as I.
  set (req := mk_arr new (u32 (now s + HIVE_ACCOUNT_RECOVERY_REQUEST_EXPIRATION_PERIOD))). set (s1 := set_requests (<[n := req]> (requests s)) s).
  assert (request_account_recovery (request_account_recovery_operation.mk p n new ext) s = Ok s1) as E1.
  { unfold request_account_recovery, get_account. cbn. rewrite Ha. cbn. rewrite Hp. cbn. rewrite Hsize.
    destruct (is_in_control s || has_hardfork 31 s); cbn; rewrite Himp, (proj2 (Z.eqb_neq _ _) Hthr), Hver; cbn; by destruct (requests s !! n). }
  assert (in_history n old s = true) as Hh.
  { apply existsb_exists. exists (mk_oah n old (now t)). rewrite <- list_elem_of_In, (ri_history _ _ I), list_elem_of_filter. split; [|by rewrite !bool_decide_eq_true_2].
    split; [exact Ht|]. by eapply replaced_in. }
  destruct (ri_auths _ _ I n ltac:(by rewrite Ha; eexists)) as [au Hau].
  assert (exists s2, recover_account (recover_account_operation.mk n new old ext) s1 = Ok s2) as (s2 & E2).
  { unfold recover_account, get_account. cbn. rewrite Ha. cbn. rewrite Hup. cbn. rewrite lookup_insert_eq. cbn. rewrite bool_decide_eq_true_2 by done. cbn. unfold in_history in Hh. rewrite Hh. cbn. unfold update_owner_authority, get_authority. cbn. rewrite Hau. by eexists. }
  exists s1, s2. split_and!; [done|done|]. by apply recover_Ok in E2 as (_ & Ho & _).
Qed.

(** ** A theft *)

Module Sample.
Definition key (k : Z) : authority := mk_auth 1 [] [(k, 1)].
Definition auths (k : Z) : account_authority_object := mk_aa (key k) (key (k + 100)) (key (k + 200)) 0 0.
Definition person (i partner : Z) : rec_account := mk_ra i partner 0 0 7 0.
Definition T0 : Z := 1700000000.

(** The partner of alice is bob; dana is the top witness. *)
Definition s0 : rec_state :=
  mk_rec {["first" := person 0 0; "alice" := person 1 2; "bob" := person 2 0; "eve" := person 3 0]}
    {["first" := auths 10; "alice" := auths 11; "bob" := auths 12; "eve" := auths 13]} [] ∅ ∅
    [WitnessSchedule.Sample.producer 0 "carol" 5 0; WitnessSchedule.Sample.producer 1 "dana" 9 0] T0 100 (T0 + 3) 30 false [].

Definition or_else (r : result rec_state) (s : rec_state) : rec_state := match r with Ok s' => s' | Throw _ => s end.
(** Eve has got hold of the owner key 11 of alice: she sets her own key 66 and asks to be
    the recovery partner.  The next day bob asks for the key 21. *)
Definition e1 : rec_event := ev_update (account_update_operation.mk "alice" (Some (key 66)) None None 0 "").
Definition e2 : rec_event := ev_change (change_recovery_account_operation.mk "alice" "eve" []).
Definition e3 : rec_event := ev_block (T0 + 86400) (T0 + 86403).
Definition e4 : rec_event := ev_request (request_account_recovery_operation.mk "bob" "alice" (key 21) []).
Definition recovery : recover_account_operation.t := recover_account_operation.mk "alice" (key 21) (key 11) [].
Definition late : rec_event := ev_block (T0 + 30 * 86400) (T0 + 30 * 86400 + 3).

Definition s1 : rec_state := or_else (rec_apply e1 s0) s0.
Definition s2 : rec_state := or_else (rec_apply e2 s1) s1.
Definition s3 : rec_state := or_else (rec_apply e3 s2) s2.
Definition s4 : rec_state := or_else (rec_apply e4 s3) s3.
Definition s5 : rec_state := or_else (recover_account recovery s4) s4.
Definition s6 : rec_state := or_else (rec_apply late s3) s3.

(** Without the recovery, bob is replaced after 30 days. *)
Example theft :
  (owner_of s0 "alice", owner_of s4 "alice", owner_of s5 "alice") = (Some (key 11), Some (key 66), Some (key 21)) /\
  (recovery_account <$> accounts s3 !! "alice"%string, recovery_account <$> accounts s6 !! "alice"%string) = (Some 2, Some 3).
Proof. split; vm_compute; reflexivity. Qed.

(** The first account of the chain has the id that means none: an account that makes it
    its partner can be recovered by the top witness, and by its partner no more. *)
Definition with_first : rec_state := set_accounts (<["alice" := person 1 0]> (accounts s0)) s0.
Example first_account_is_no_partner :
  let ask who := request_account_recovery (request_account_recovery_operation.mk who "alice" (key 21) []) in
  let change := rec_apply (ev_change (change_recovery_account_operation.mk "alice" "first" [])) s0 in
  accounts (or_else (rec_apply late (or_else change s0)) s0) !! "alice"%string = Some (person 1 0) /\
  (ask "first" with_first, is_ok (ask "dana" with_first)) = (Throw AssertPermission, true).
Proof. split; vm_compute; reflexivity. Qed.

Lemma s0_fresh : fresh s0.
Proof.
  constructor; [split; vm_compute; done|done|done|done|]. intros n. unfold s0. cbn [accounts authorities]. rewrite !lookup_insert_is_Some, !lookup_singleton_is_Some. tauto.
Qed.
Lemma theft_to_s3 : run s0 [(e1, s0); (e2, s1); (e3, s2)] s3.
Proof.
  apply (run_step s0 [(e1, s0); (e2, s1)] s2); [|split; vm_compute; done|vm_compute; reflexivity]. apply (run_step s0 [(e1, s0)] s1); [|done|vm_compute; reflexivity].
  apply (run_step s0 [] s0); [constructor|done|vm_compute; reflexivity].
Qed.
Lemma theft_to_s4 : run s0 [(e1, s0); (e2, s1); (e3, s2); (e4, s3)] s4.
Proof. apply (run_step s0 [(e1, s0); (e2, s1); (e3, s2)] s3); [apply theft_to_s3|done|vm_compute; reflexivity]. Qed.

Lemma recovery_needs_partner_and_recent_owner_witness :
  (exists req t, (ev_request req, t) ∈ [(e1, s0); (e2, s1); (e3, s2); (e4, s3)] /\ request_account_recovery_operation.account_to_recover req = "alice"%string /\
     request_account_recovery_operation.new_owner_authority req = key 21 /\
     is_partner (request_account_recovery_operation.recovery_account req) "alice" t /\ now s4 < now t + HIVE_ACCOUNT_RECOVERY_REQUEST_EXPIRATION_PERIOD) /\
  owner_of s5 "alice" = Some (key 21).
Proof.
  destruct (recovery_needs_partner_and_recent_owner s0 _ s4 recovery s5 s0_fresh theft_to_s4) as (H1 & _ & H3 & _); [vm_compute; reflexivity|]. split; [exact H1|exact H3].
Defined.

Lemma recovery_partner_changes_late_witness :
  exists t next, late = ev_block t next /\ exists o u p, (ev_change o, u) ∈ [(e1, s0); (e2, s1); (e3, s2)] /\ change_recovery_account_operation.account_to_recover o = "alice"%string /\
    accounts s6 !! change_recovery_account_operation.new_recovery_account o = Some p /\ 3 = account_id p /\ now u + HIVE_OWNER_AUTH_RECOVERY_PERIOD <= t.
Proof.
  refine (recovery_partner_changes_late s0 _ s3 late s6 "alice" (mk_ra 1 2 0 0 7 T0) (mk_ra 1 3 0 0 7 T0) s0_fresh theft_to_s3 _ _ _ _ _);
    [split; vm_compute; done|vm_compute; reflexivity|vm_compute; reflexivity|vm_compute; reflexivity|done].
Defined.

Lemma stolen_account_recoverable_witness :
  exists t1 t2, request_account_recovery (request_account_recovery_operation.mk "bob" "alice" (key 21) []) s3 = Ok t1 /\
    recover_account (recover_account_operation.mk "alice" (key 21) (key 11) []) t1 = Ok t2 /\ owner_of t2 "alice" = Some (key 21).
Proof.
  refine (stolen_account_recoverable s0 _ s3 e1 s0 "alice" (key 66) (key 11) "bob" (mk_ra 1 2 0 0 7 T0) (key 21) [] s0_fresh theft_to_s3 _ _ _ _ _ _ _ _ _ _ _ _);
    [left|vm_compute; reflexivity|vm_compute; reflexivity|vm_compute; reflexivity|vm_compute; done|vm_compute; reflexivity|vm_compute; reflexivity|vm_compute; reflexivity|vm_compute; reflexivity|vm_compute; reflexivity|done|vm_compute; reflexivity].
Defined.
End Sample.
